(* ===== verification/_CoqProject ===== *)
-Q . S2P
Prelude.v
Types.v
Stack.v
RadixTree.v
Writeset.v
Log.v
LogView.v
Commit.v
Protocol.v
LogChunks.v
PageTree.v
MakeCheckpoint.v
CheckpointMemory.v
Trees.v
Checkpoints.v
GC.v
Snapshots.v
Teardown.v
Mount.v
Alloc.v
AllocLayout.v
AllocInv.v
AllocBlock.v
AllocFile.v
AllocAlign.v
Workingset.v
Update.v
CommitUpdate.v
Ioctl.v
CommitIoctl.v
Fault.v
UserBins.v
UserAlloc.v
UserHeap.v
UserSlab.v
UserMalloc.v
UserCalls.v
UserAbort.v
UserMaps.v
UserDefects.v
KernelBlocks.v
Checkout.v
TaskState.v
TaskInv.v
TaskOps.v
TaskCalls.v
TaskExit.v
TaskSteps.v
Truncate.v
