(* ===== verification/Prelude.v ===== *)
(** * sivfs, a versioned file system: a verification development

    sivfs is a Linux file system whose files are mapped into the address spaces
    of tasks and changed in transactions. A task reads one snapshot; its writes
    go to private pages and into a write set; commit appends the write set to a
    master log, unless a transaction that committed meanwhile conflicts with it,
    and moves the task to a newer snapshot. A background thread folds the log
    into checkpoints, copy-on-write trees of pages laid out like page tables;
    two more collect the log and the checkpoints nobody can see. Blocks of a
    file are handed out by an allocator in the kernel and cut into objects by an
    allocator in user space.

    ** The parts, the files and the code they model

    - Prelude.v: the shared vocabulary. 64-bit unsigned arithmetic written out
      on [Z] ([u64], [uadd], [usub], ...); the outcome of a C function, [Ok], an
      error code, a memory-unsafe access ([Fault]) or a loop that did not finish
      within its fuel ([OutOfFuel]); the state-and-error monad [M], in which the
      state survives an error as the heap of a C program does; transition
      systems; lemmas on lists and words.
    - Types.v: kern/sivfs_types.h, kern/sivfs_common.h, page arithmetic.
    - Stack.v: kern/sivfs_stack.h. RadixTree.v: kern/sivfs_radix_tree.h over an
      interface for the kernel's radix tree.
    - Writeset.v: kern/sivfs_writeset.h, the packed encoding of writes.
    - Log.v, LogView.v: kern/sivfs_log.h, kern/sivfs_shared_state.c and .h: the
      heap of log entries, appending, collecting, and the log as a sequence.
      LogChunks.v: who owns the chunks of the log's memory.
    - Commit.v, Protocol.v: validation and commit of
      kern/sivfs_commit_update_checkpoints.c, first as sequential code, then as
      a transition system of committing threads and the log collector.
    - PageTree.v, MakeCheckpoint.v, Checkpoints.v: kern/sivfs_checkpoints.c,
      kern/sivfs_make_checkpoint.c: pages and trees, copy-on-write, replay of
      the log, publication and lookup of checkpoints. CheckpointMemory.v: why
      making a checkpoint may fail, the pages it is refused.
    - Trees.v: what a tree of checkpoint pages is, with one reference to every
      page, and what the replay of a log does to one: no code of its own.
    - GC.v: kern/sivfs_gc_checkpoints.c. Snapshots.v: making, collecting and
      checking out checkpoints as one transition system. Teardown.v:
      sivfs_destroy_checkpoints. Mount.v: kern/super.c, setting up and destroying
      the shared state of kern/sivfs_shared_state.c, starting and stopping the
      threads of kern/sivfs_background_threads.c. Checkout.v: the double read by which a
      task checks out the latest checkpoint, against its publication and the
      collector, one step per access to a shared word.
    - Alloc.v, AllocLayout.v, AllocInv.v, AllocBlock.v, AllocFile.v,
      AllocAlign.v: kern/alloc/sivfs_allocation.c and .h, the blocks of a file.
    - Workingset.v, Update.v, CommitUpdate.v: kern/sivfs_workingset.c,
      kern/sivfs_mm.c and the rest of kern/sivfs_commit_update_checkpoints.c:
      the pages a task sees, moving to another snapshot, my_sivfs_commit_update
      as a whole.
    - Ioctl.v, CommitIoctl.v: the ioctls of kern/module.c by which a process
      allocates and frees a block, commits and pauses, with the copies from and
      to its memory that can fail.
    - Fault.v: the page faults of kern/inode.c.
    - TaskState.v, TaskInv.v, TaskOps.v, TaskCalls.v, TaskExit.v, TaskSteps.v:
      kern/sivfs_state.c, the anonymous inodes of kern/sivfs_workingset.c,
      selecting, opening and closing files and the end of an address space of
      kern/inode.c: who holds a reference to what, with every allocation that can
      fail. TaskInv.v states the invariant, TaskOps.v what each operation does to
      a world, TaskCalls.v and TaskExit.v that calls keep the invariant,
      TaskSteps.v the transition system of calls.
    - Truncate.v: the rest of kern/sivfs_nontxnal_ops.c and sivfs_setattr of
      kern/inode.c: changing the size of a file, on top of CommitUpdate.v.
    - UserBins.v, UserAlloc.v: the user-space allocator, lib/sivfs_allocator_bins.h
      and lib/sivfs_allocator.h, over the mapped memory as words by address.
      UserHeap.v, UserSlab.v: the heap it keeps, as blocks, elements and circular
      lists, and what each step does to it. UserMalloc.v, UserCalls.v: the code
      on such a heap; allocating and freeing. UserAbort.v: what an abort undoes.
      UserMaps.v: registering a mapping. UserDefects.v: where it goes wrong.
      KernelBlocks.v: the allocator on top of the ioctl that hands out blocks.
    Commit.v runs the definitions of Log.v and Writeset.v; Protocol.v takes its
    atomic steps from Commit.v and Log.v; Checkpoints.v and GC.v run the page
    store of PageTree.v; Update.v joins Commit.v, Checkpoints.v, Alloc.v and
    Workingset.v as my_sivfs_commit_update does; CommitIoctl.v calls it, Ioctl.v
    calls Alloc.v and AllocFile.v, and KernelBlocks.v runs the allocator of the
    library on that ioctl; Fault.v reads checkpoints and
    the log through Checkpoints.v and LogView.v and changes the working set.

    ** How state corresponds to the code

    A structure is a record with the fields of the C structure that the code
    reads; each operation is one definition with the name it has in C, with the
    early returns, the error codes and the order of the side effects of the C
    text. An object that C names by a pointer is named by a number, 0 for NULL:
    pages by physical address, log entries by their address inside their chunk,
    inodes, chunks and files by number; the heap is a map from such names, and
    freeing removes the name, so that a dangling use is a [Fault]. Integers
    keep their width. A kernel list is the list of its members.

    What the system decides is an argument: whether an allocation succeeds (a
    boolean, or the list [p_supply] of what alloc_page returns), what a signal
    or a trylock answers, which mappings the process has, what the latest
    checkpoint is when it is read. The kernel's radix tree and its page cache
    with the page tables and the puts of inodes, entries and files and the root of a mount are classes
    ([RadixTree], [PageCache], [KernelPuts], [KernelRoot]) with the laws the kernel documents
    ([RadixTreeLaws], [PageCacheLaws], [KernelPutsLaws], [KernelRootLaws]) and an instance on finite
    maps that shows the laws can be met. The architecture's page-table
    bits are a parameter ([pt_flags], [PtFlagsOk]) with the x86 instance.

    ** What the theorems show

    - Transactions: [commit_update_moves] (a commit logs the writes exactly
      when it neither conflicts nor was doomed, and the task then sees the newest
      snapshot), [first_committer_wins], [abort_only_on_conflict] (the conflict
      is with a transaction not marked aborted at that moment;
      [abort_for_an_aborting_one] shows that it may still abort later),
      [published_outcome_stable], [commit_changes_outcome],
      [commit_pipeline_progress] (every schedule of the committing threads ends,
      with all outcomes published);
      [commit_ioctl_outcome], [commit_ioctl_refuses] and [pause_outcome] say what
      the process that asks for it sees of that, [unreported_commit] that it may
      see an error for a transaction that has committed.
    - Memory safety across threads: [log_accesses_are_live] (no log entry is
      collected while a thread may follow a pointer to it),
      [checked_out_checkpoint_survives], [gc_keeps_checked_out_checkpoints],
      [gc_checkpoints_safe], [delete_log_keeps_suffix].
    - Snapshots: [checked_out_contents_stable] (a checked-out checkpoint keeps its
      contents in every state that making, collecting and checking out reach,
      whatever fails on the way), [destroy_frees_everything] (unmounting frees
      every page and inode of the checkpoints once); [make_checkpoint_publishes]
      (what is published, and why nothing is), [make_checkpoint_replays_log],
      [apply_change_copy_on_write], [served_page_is_checkpoint_page] (the log
      and the checkpoint made from it give the same page),
      [fault_shows_snapshot] and [mkwrite_makes_way] (a page fault shows the
      snapshot and the task's own writes), [working_set_well_formed].
    - The size of a file: [ftruncate_outcome], [setattr_runs_truncate].
    - Mounting: [mount_outcome] (the first mount; all or nothing but for the two
      defects listed below), [unmount_frees_everything] (chunks and entries of the
      log included).
    - References: [references_are_exact], [nothing_is_lost], [close_outcome],
      [exit_outcome], [selection_is_stable]. The calls are whole and one after the
      other; an open of a file that has 100 opens and a first update that aborts
      are no steps of the system, as both corrupt the world
      ([full_open_faults]; sivfs_workingset.c:108).
    - Allocation: [alloc_block_outcome], [free_block_outcome],
      [allocation_settles] (where the bytes given up end), [allocator_reachable] (chunks tile the file in every
      reachable state), [put_allocator_info_frees_file]; through the ioctls,
      [alloc_then_free].
    - The user-space allocator: [malloc_outcome] and [free_outcome] (objects never
      overlap and keep their contents, whatever is allocated and freed around
      them, every changed word is in the write set, and the heap stays in order),
      [abort_restores_heap], [add_mmap_registers], [bins_exact]. It trusts the
      system for one thing, that a block it hands out is mapped, inside the
      mapping and away from other blocks ([kernel_ok]). [kernel_serves_library]
      says what of that the ioctl provides, for blocks of at least a page in a
      mapping with room for the whole file: all but that the block ends inside
      the mapping, which it does not check; [malloc_on_kernel] assumes just that.
      [malloc_outcome] and [free_outcome] are for a process that gets memory for
      its write set; [malloc_without_memory] is what happens without. The
      logarithms that choose a size class are taken over the real numbers, and
      [bins_exact] is for any floating-point log and exp that are right up to
      10^-5: they choose the same classes, as no size is nearer to a boundary
      ([bins_margin], [bins_rounding]).
    - Encodings and containers: write sets, stacks, radix trees, the tree
      iterator ([iter_init_injective]).
    - Defects that modelling showed, each stated as what the code does:
      [failed_insert_frees_live_chunk], [checkout_skipped_during_publication],
      [aborted_free_forgets_time], [freed_block_joins_block_in_use],
      [small_block_cannot_be_freed], [free_of_unrecorded_page_faults],
      [free_takes_the_wrong_block], [unwritable_arguments_keep_block],
      [direct_access_at_time_zero_shares_zero_page], [free_big_clears_wrong_word],
      [malloc_of_huge_size_is_small], [remap_then_abort_faults],
      [adjacent_mapping_forgotten],
      [failed_mount_uses_freed_zero_pages], [remount_has_no_root],
      [failed_root_puts_twice], [resize_is_ignored], [failed_truncate_keeps_zeros],
      [failed_register_leaks_bdi], [full_open_faults], [stale_selection_faults], [check_nontxnal_outcome],
      [unreported_commit], [malloc_without_memory], [maxsize_is_in_its_class],
      [plain_entry_not_size_checked], [zero_size_entry_never_advances].

    ** Fuel and bounds

    A loop that is not structural takes fuel, and the theorems about it say it
    returns: log loops get the distance in time from the first entry to the last
    ([log_fuel]); the walk over a write set its size in words ([ws_fuel]);
    collection of the log one pass per entry; draining a group of blocked
    entries its size; the loop over a free list 2, as its body restarts it once at
    most; coalescing the number of chunks;
    the loop of sivfs_ftruncate its 20000 batches; clearing and unmapping in
    batches the number of items. Sizes are bounded where C would overflow
    otherwise: stacks hold fewer than 2^60 elements, write sets fewer than 2^60
    bytes, timestamps stay below SIVFS_INVALID_TS, files have 2^27 pages and
    there are 2^27 of them (the reach of a checkpoint).

    ** What is not modelled

    - Operations on directories (the rest of kern/inode.c) hand requests to the
      kernel's generic code; the rest of
      kern/module.c dispatches on the number of an ioctl, reads statistics and
      registers the module; checking out a whole checkpoint at once is switched
      off in the configuration.
    - The loops of the background threads schedule the operations that are
      modelled. Statistics, debug output and write throttling do not change what
      the operations do. Locks appear as the atomicity of steps; memory is
      sequentially consistent in Protocol.v and Checkout.v. Protocol.v takes a
      checkpoint as published at once (its publication is Checkout.v's) and its
      executions are those in which no radix-tree insertion into the log's cache
      fails ([failed_insert_frees_live_chunk] is what such a failure does); the
      walk of an update over the log takes one step per entry.
    - Dirty bits in page tables are not modelled. [ftruncate_outcome] is about a
      task that is alone while it changes the size of a file. Preparing pages for direct
      access is not a step of the system of Snapshots.v; a failed attempt to make
      a checkpoint leaks its pages there, as a comment of the code says. In
      TaskState.v the first update of a task, which CommitUpdate.v models, is an
      answer of the environment, and pages are left out.
    - The tests and the benchmark programs. *)
From Stdlib Require Export ZArith Lia.
From stdpp Require Export base gmap list fin_maps numbers sorting.

#[global] Open Scope Z_scope.

Declare Scope sivfs_scope.
Delimit Scope sivfs_scope with sivfs.
#[global] Open Scope sivfs_scope.

(** ** Machine words *)

Definition two64 : Z := 2 ^ 64.

(** Truncation to 64 bits: every C expression of type [size_t], [unsigned long]
    or [sivfs_ts] is evaluated through it. *)
Definition u64 (z : Z) : Z := z mod two64.
Definition is_u64 (z : Z) : Prop := 0 <= z < two64.
Definition uadd (a b : Z) : Z := u64 (a + b).
Definition usub (a b : Z) : Z := u64 (a - b).
Definition umul (a b : Z) : Z := u64 (a * b).
Definition unot (a : Z) : Z := two64 - 1 - a.

Lemma two64_val : two64 = 18446744073709551616.
Proof. reflexivity. Qed.

Ltac u64_lia := unfold is_u64, uadd, usub, umul, unot in *; rewrite ?two64_val in *; lia.

Lemma u64_small z : is_u64 z -> u64 z = z.
Proof. intros H. apply Z.mod_small, H. Qed.

Lemma u64_range z : is_u64 (u64 z).
Proof. apply Z.mod_pos_bound. reflexivity. Qed.

Lemma uadd_small a b : is_u64 (a + b) -> uadd a b = a + b.
Proof. apply u64_small. Qed.

Lemma usub_small a b : is_u64 (a - b) -> usub a b = a - b.
Proof. apply u64_small. Qed.

Lemma umul_small a b : is_u64 (a * b) -> umul a b = a * b.
Proof. apply u64_small. Qed.

Lemma u64_0 : u64 0 = 0.
Proof. reflexivity. Qed.

(** A single-bit test, and a bit of a sum, as arithmetic. *)
Lemma land_bit_eqb x k : 0 <= k -> (Z.land x (Z.shiftl 1 k) =? 0) = negb (Z.testbit x k).
Proof.
  intros Hk. rewrite Z.shiftl_1_l. destruct (Z.testbit x k) eqn:E; simpl.
  - apply Z.eqb_neq. intros H. apply (f_equal (fun z => Z.testbit z k)) in H.
    rewrite Z.land_spec, E, Z.pow2_bits_true, Z.testbit_0_l in H by done. done.
  - apply Z.eqb_eq. apply Z.bits_inj'. intros m Hm.
    rewrite Z.land_spec, Z.testbit_0_l. destruct (decide (m = k)) as [->|].
    + by rewrite E.
    + by rewrite (Z.pow2_bits_false k m), andb_false_r by congruence.
Qed.

Lemma testbit_div x k : 0 <= k -> Z.testbit x k = Z.odd (x / 2 ^ k).
Proof. intros. by rewrite Z.testbit_odd, Z.shiftr_div_pow2. Qed.

(** Masking out the bits [k] to [k + n - 1]. *)
Lemma land_field w n k : 0 <= n -> 0 <= k -> Z.land w (Z.shiftl (Z.ones n) k) = w / 2 ^ k mod 2 ^ n * 2 ^ k.
Proof.
  intros Hn Hk. rewrite <- Z.land_ones, <- Z.shiftr_div_pow2, <- Z.shiftl_mul_pow2 by done. apply Z.bits_inj'. intros m Hm.
  rewrite Z.land_spec, !Z.shiftl_spec by done. destruct (Z.lt_ge_cases m k); [by rewrite !(Z.testbit_neg_r _ (m - k)), andb_false_r by lia|].
  rewrite Z.land_spec, Z.shiftr_spec by lia. by replace (m - k + k) with m by lia.
Qed.

(** ** Outcomes and the state monad *)

Inductive errno : Type :=
  | EINTR | EAGAIN | ENOMEM | EFAULT | EEXIST | EINVAL | EPERM.

#[export] Instance errno_eq_dec : EqDecision errno.
Proof. solve_decision. Defined.

Inductive res (A : Type) : Type :=
  | Ok (a : A)
  | Err (e : errno)
  | Fault
  | OutOfFuel.
Arguments Ok {A} a.
Arguments Err {A} e.
Arguments Fault {A}.
Arguments OutOfFuel {A}.

Definition rbind {A B} (r : res A) (k : A -> res B) : res B :=
  match r with
  | Ok a => k a
  | Err e => Err e
  | Fault => Fault
  | OutOfFuel => OutOfFuel
  end.

(** A C dereference of a missing object is a memory fault. *)
Definition deref {A} (o : option A) : res A :=
  match o with Some a => Ok a | None => Fault end.

Definition M (S A : Type) : Type := S -> res A * S.

Definition ret {S A} (a : A) : M S A := fun s => (Ok a, s).
Definition throw {S A} (e : errno) : M S A := fun s => (Err e, s).
Definition lift {S A} (r : res A) : M S A := fun s => (r, s).
Definition bind {S A B} (m : M S A) (k : A -> M S B) : M S B := fun s =>
  match m s with
  | (Ok a, s') => k a s'
  | (Err e, s') => (Err e, s')
  | (Fault, s') => (Fault, s')
  | (OutOfFuel, s') => (OutOfFuel, s')
  end.
(** [goto error]: run [cleanup] when [m] returns an error code, and return that code. *)
Definition on_error {S A} (m : M S A) (cleanup : M S unit) : M S A := fun s =>
  match m s with
  | (Err e, s') =>
    match cleanup s' with
    | (Ok _, s'') | (Err _, s'') => (Err e, s'')
    | (Fault, s'') => (Fault, s'')
    | (OutOfFuel, s'') => (OutOfFuel, s'')
    end
  | r => r
  end.
Definition gets {S A} (f : S -> A) : M S A := fun s => (Ok (f s), s).
Definition modify {S} (f : S -> S) : M S unit := fun s => (Ok tt, f s).

Notation "'let!' x := m 'in' k" := (bind m (fun x => k))
  (at level 10, x name, m at level 100, k at level 200) : sivfs_scope.
Notation "'do!' m 'in' k" := (bind m (fun _ => k))
  (at level 10, m at level 100, k at level 200) : sivfs_scope.
Notation "'let?' x := m 'in' k" := (rbind m (fun x => k))
  (at level 10, x name, m at level 100, k at level 200) : sivfs_scope.

Lemma rbind_Ok {A B} (r : res A) (k : A -> res B) b :
  rbind r k = Ok b -> exists a, r = Ok a /\ k a = Ok b.
Proof. destruct r; simpl; eauto; discriminate. Qed.

Lemma bind_Ok {S A B} (m : M S A) (k : A -> M S B) s b s' :
  bind m k s = (Ok b, s') -> exists a s1, m s = (Ok a, s1) /\ k a s1 = (Ok b, s').
Proof. unfold bind. destruct (m s) as [[] ?]; intros; simplify_eq; eauto. Qed.

Lemma bind_step {S A B} (m : M S A) (k : A -> M S B) s a s1 :
  m s = (Ok a, s1) -> bind m k s = k a s1.
Proof. unfold bind. by intros ->. Qed.

Lemma bind_err {S A B} (m : M S A) (k : A -> M S B) s e s1 :
  m s = (Err e, s1) -> bind m k s = (Err e, s1).
Proof. unfold bind. by intros ->. Qed.

Lemma on_error_ok {S A} (m : M S A) c s a s' : m s = (Ok a, s') -> on_error m c s = (Ok a, s').
Proof. unfold on_error. by intros ->. Qed.

Lemma on_error_err {S A} (m : M S A) c s e s' s'' : m s = (Err e, s') -> c s' = (Ok tt, s'') ->
  on_error m c s = (Err e, s'').
Proof. unfold on_error. intros -> ->. done. Qed.

Lemma bind_assoc {S A B C} (m : M S A) (k : A -> M S B) (k' : B -> M S C) s :
  bind (bind m k) k' s = bind m (fun a => bind (k a) k') s.
Proof. unfold bind. by destruct (m s) as [[] ?]. Qed.

(** [m] keeps [P], whatever its outcome. *)
Definition keeps {S A} (P : S -> Prop) (m : M S A) : Prop := forall s, P s -> P (m s).2.

Lemma keeps_bind {S A B} (P : S -> Prop) (m : M S A) (k : A -> M S B) :
  keeps P m -> (forall a, keeps P (k a)) -> keeps P (bind m k).
Proof.
  intros Hm Hk s Hs. specialize (Hm s Hs). unfold bind.
  destruct (m s) as [[a| | |] s']; [by apply Hk|done..].
Qed.

Lemma keeps_on_error {S A} (P : S -> Prop) (m : M S A) (c : M S unit) :
  keeps P m -> keeps P c -> keeps P (on_error m c).
Proof.
  intros Hm Hc s Hs. specialize (Hm s Hs). unfold on_error.
  destruct (m s) as [[a|e| |] s']; try done. specialize (Hc s' Hm). by destruct (c s') as [[] s''].
Qed.

(** [m] turns [J] into [J] when it succeeds, and into [K] when it does not. *)
Definition sound {S A} (J K : S -> Prop) (m : M S A) : Prop := forall s, J s ->
  match m s with (Ok _, s') => J s' | (_, s') => K s' end.

Lemma sound_bind {S A B} (J K : S -> Prop) (m : M S A) (k : A -> M S B) :
  sound J K m -> (forall a, sound J K (k a)) -> sound J K (bind m k).
Proof.
  intros Hm Hk s Hs. specialize (Hm s Hs). unfold bind. destruct (m s) as [[a| | |] s']; [by apply Hk|done..].
Qed.

Lemma sound_ret {S A} (J K : S -> Prop) (a : A) : sound J K (ret a).
Proof. by intros s ?. Qed.

Lemma sound_lift {S A} (J K : S -> Prop) (r : res A) : (forall s, J s -> K s) -> sound J K (lift r).
Proof. intros HJK s Hs. unfold lift. destruct r; auto. Qed.

(** Invert every successful sequencing step in the context. *)
Ltac inv_ok :=
  repeat match goal with
  | H : rbind _ _ = Ok _ |- _ => apply rbind_Ok in H; destruct H as (? & ? & H)
  | H : bind _ _ _ = (Ok _, _) |- _ => apply bind_Ok in H; destruct H as (? & ? & ? & H)
  | H : Ok _ = Ok _ |- _ => injection H as H
  | H : Err _ = Ok _ |- _ => discriminate H
  | H : Fault = Ok _ |- _ => discriminate H
  | H : OutOfFuel = Ok _ |- _ => discriminate H
  end; simplify_eq/=.

(** ** Transition systems *)

Section transition_system.
Context {St : Type} (init : St -> Prop) (step : St -> St -> Prop).

Inductive reachable : St -> Prop :=
  | reach_init s : init s -> reachable s
  | reach_step s s' : reachable s -> step s s' -> reachable s'.

Lemma invariant_reachable (I : St -> Prop) :
  (forall s, init s -> I s) ->
  (forall s s', I s -> step s s' -> I s') ->
  forall s, reachable s -> I s.
Proof. intros Hi Hs. induction 1; eauto. Qed.
End transition_system.

(** ** Lists *)

Lemma lookup_take_lt {A} (l : list A) n i :
  (i < n)%nat -> take n l !! i = l !! i.
Proof. intros. rewrite lookup_take. by rewrite decide_True. Qed.

Lemma take_insert_at {A} (l : list A) n x :
  (n < length l)%nat -> take (S n) (<[n := x]> l) = take n l ++ [x].
Proof.
  intros Hn. rewrite (take_S_r _ _ x) by (by apply list_lookup_insert_eq).
  by rewrite take_insert_ge.
Qed.

Create HintDb sivfs.
#[export] Hint Resolve u64_range : sivfs.
