(* ===== verification/Types.v ===== *)
(** Scalar types and small helpers: kern/sivfs_types.h, kern/sivfs_common.h,
    the page arithmetic of kern/sivfs_mm.h and the reverse timestamp index of
    kern/sivfs_checkpoints.c. *)
From S2P Require Import Prelude.

(** ** Timestamps (sivfs_types.h) *)

Definition SIVFS_INVALID_TS : Z := u64 (-1).
Definition SIVFS_TS_BIT_DIRTY : Z := Z.shiftl 1 63.

Definition sivfs_ts_is_dirty (ts : Z) : bool :=
  negb (Z.land ts SIVFS_TS_BIT_DIRTY =? 0).
Definition sivfs_ts_unset_dirty (ts : Z) : Z :=
  Z.land ts (unot SIVFS_TS_BIT_DIRTY).
Definition sivfs_ts_set_dirty (ts : Z) : Z :=
  Z.lor ts SIVFS_TS_BIT_DIRTY.

(** ** sivfs_common.h *)

Definition max3_size_t (a b c : Z) : Z :=
  if (b <=? a) && (c <=? a) then a
  else if (a <=? b) && (c <=? b) then b
  else c.

Definition max2_size_t (a b : Z) : Z :=
  if b <=? a then a else b.

(** ** Pages (sivfs_mm.h) *)

Definition PAGE_SHIFT : Z := 12.
Definition PAGE_SIZE : Z := 4096.
Definition SIZEOF_WORD : Z := 8.
Definition WORDS_PER_PAGE : nat := 512.

Definition PAGE_ROUND_DOWN (a : Z) : Z := umul (a / PAGE_SIZE) PAGE_SIZE.
Definition PAGE_ROUND_UP (a : Z) : Z := PAGE_ROUND_DOWN (usub (uadd a PAGE_SIZE) 1).

(** Page-table entries. The masks are the architecture's, so they are
    parameters: [PTE_PFN_MASK], the flags [_PAGE_TABLE] and the protection
    bits of [PAGE_READONLY_EXEC]. *)
Record pt_flags : Type := {
  PTE_PFN_MASK : Z;
  PAGE_TABLE_BITS : Z;
  PAGE_READONLY_EXEC_BITS : Z
}.

Definition sivfs_pxd_to_pa (F : pt_flags) (entry : Z) : Z :=
  Z.land entry (PTE_PFN_MASK F).
Definition sivfs_pxd_present (F : pt_flags) (entry : Z) : bool :=
  negb (sivfs_pxd_to_pa F entry =? 0).
Definition sivfs_mk_pxd_ent (F : pt_flags) (pa : Z) : Z :=
  Z.lor pa (PAGE_TABLE_BITS F).
Definition sivfs_mk_pte (F : pt_flags) (pa : Z) : Z :=
  Z.lor pa (PAGE_READONLY_EXEC_BITS F).

(** What the code relies on: flag bits lie outside the frame-number mask. *)
Class PtFlagsOk (F : pt_flags) : Prop := {
  table_bits_ok : Z.land (PAGE_TABLE_BITS F) (PTE_PFN_MASK F) = 0;
  readonly_bits_ok : Z.land (PAGE_READONLY_EXEC_BITS F) (PTE_PFN_MASK F) = 0;
  frame_bits_ok : Z.land (PTE_PFN_MASK F) 7 = 0
}.

(** A physical address of a page survives the frame mask. *)
Definition pa_ok (F : pt_flags) (pa : Z) : Prop := Z.land pa (PTE_PFN_MASK F) = pa.

(** The x86-64 values with 46 physical address bits. *)
Definition x86_flags : pt_flags :=
  {| PTE_PFN_MASK := Z.land (Z.ones 46) (unot 4095);
     PAGE_TABLE_BITS := 103;
     PAGE_READONLY_EXEC_BITS := 37 |}.

#[export] Instance x86_flags_ok : PtFlagsOk x86_flags.
Proof. split; reflexivity. Qed.

(** ** Reverse timestamp index (sivfs_checkpoints.c) *)

Definition sivfs_checkpoints_ts_to_reverse_index (ts : Z) : Z :=
  uadd (u64 (-1)) (u64 (- ts)).
Definition sivfs_checkpoints_reverse_index_to_ts (index : Z) : Z :=
  u64 (- (uadd index 1)).

(** ** Lemmas *)

Lemma invalid_ts_val : SIVFS_INVALID_TS = two64 - 1.
Proof. reflexivity. Qed.

Lemma ts_lt_invalid ts : is_u64 ts -> ts <> SIVFS_INVALID_TS -> ts < SIVFS_INVALID_TS.
Proof. rewrite invalid_ts_val. u64_lia. Qed.

Lemma max3_size_t_spec a b c : max3_size_t a b c = Z.max a (Z.max b c).
Proof.
  unfold max3_size_t.
  destruct (Z.leb_spec b a), (Z.leb_spec c a), (Z.leb_spec a b), (Z.leb_spec c b);
    simpl; lia.
Qed.

Lemma max2_size_t_spec a b : max2_size_t a b = Z.max a b.
Proof. unfold max2_size_t. destruct (Z.leb_spec b a); lia. Qed.

Lemma page_round_down_spec a : is_u64 a ->
  PAGE_ROUND_DOWN a = a - a mod PAGE_SIZE.
Proof.
  intros Ha. unfold PAGE_ROUND_DOWN, PAGE_SIZE.
  pose proof (Z.div_mod a 4096 ltac:(lia)). pose proof (Z.mod_pos_bound a 4096 ltac:(lia)).
  rewrite umul_small; [lia | u64_lia].
Qed.

Lemma pxd_roundtrip `{PtFlagsOk F} pa : pa_ok F pa ->
  sivfs_pxd_to_pa F (sivfs_mk_pxd_ent F pa) = pa /\
  sivfs_pxd_to_pa F (sivfs_mk_pte F pa) = pa.
Proof.
  unfold pa_ok, sivfs_pxd_to_pa, sivfs_mk_pxd_ent, sivfs_mk_pte. intros Hpa.
  rewrite !Z.land_lor_distr_l, table_bits_ok, readonly_bits_ok, !Z.lor_0_r. done.
Qed.

Lemma reverse_index_val ts : is_u64 ts ->
  sivfs_checkpoints_ts_to_reverse_index ts = two64 - 1 - ts.
Proof.
  intros Hts. unfold sivfs_checkpoints_ts_to_reverse_index, uadd, u64.
  rewrite <- Z.add_mod by (rewrite two64_val; lia).
  replace (-1 + - ts) with (two64 - 1 - ts + (-1) * two64) by lia.
  rewrite Z.mod_add by (rewrite two64_val; lia). apply Z.mod_small. u64_lia.
Qed.

Lemma reverse_index_roundtrip ts : is_u64 ts ->
  sivfs_checkpoints_reverse_index_to_ts (sivfs_checkpoints_ts_to_reverse_index ts) = ts.
Proof.
  intros Hts. rewrite reverse_index_val by done.
  unfold sivfs_checkpoints_reverse_index_to_ts, uadd, u64.
  destruct (decide (ts = 0)) as [->|Hne].
  - reflexivity.
  - rewrite (Z.mod_small (two64 - 1 - ts + 1)) by u64_lia.
    replace (- (two64 - 1 - ts + 1)) with (ts + (-1) * two64) by lia.
    rewrite Z.mod_add by (rewrite two64_val; lia). apply Z.mod_small. u64_lia.
Qed.
