(* ===== verification/Stack.v ===== *)
(** The dynamic array of pointers of kern/sivfs_stack.h.

    [st_values] is the allocated array, of which the first [st_size] cells are
    in use. The result of [vzalloc] is the boolean argument [vz]. A stack
    refines the list of its elements ([elems]), the top being the last one. *)
From S2P Require Import Prelude Types.

Record sivfs_stack : Type := mk_stack {
  st_size : Z;
  st_capacity : Z;
  st_values : list Z
}.

(** [kzalloc]: a new stack is all zeros. *)
Definition zero_stack : sivfs_stack := mk_stack 0 0 [].

Definition sivfs_new_stack (kz : bool) : res sivfs_stack :=
  if kz then Ok zero_stack else Err ENOMEM.

Definition sivfs_stack_empty (s : sivfs_stack) : bool := st_size s =? 0.

Definition sizeof_value : Z := 8.

(** [memcpy(newalloc, values, sizeof * size)] into a zeroed array of [n] cells. *)
Definition realloc_values (n : nat) (s : sivfs_stack) : list Z :=
  let used := take (Z.to_nat (st_size s)) (st_values s) in
  take n (used ++ replicate n 0).

Definition sivfs_stack_reserve (vz : bool) (new_capacity : Z) : M sivfs_stack unit :=
  fun stack =>
  if st_capacity stack <=? new_capacity then
    let new_capacity := max3_size_t (umul (st_capacity stack) 2) 4 new_capacity in
    let bytes := umul new_capacity sizeof_value in
    if vz then
      (Ok tt, mk_stack (st_size stack) new_capacity
                (realloc_values (Z.to_nat (bytes / sizeof_value)) stack))
    else (Err ENOMEM, stack)
  else (Ok tt, stack).

(** [stack->values[i] = value]: writing outside the array is a fault. *)
Definition stack_set (i value : Z) : M sivfs_stack unit := fun s =>
  if (0 <=? i) && (i <? Z.of_nat (length (st_values s)))
  then (Ok tt, mk_stack (st_size s) (st_capacity s)
                 (<[Z.to_nat i := value]> (st_values s)))
  else (Fault, s).

Definition set_size (n : Z) : M sivfs_stack unit :=
  modify (fun s => mk_stack n (st_capacity s) (st_values s)).

Definition sivfs_stack_push (vz : bool) (value : Z) : M sivfs_stack unit :=
  let! size := gets st_size in
  let new_size := uadd size 1 in
  do! sivfs_stack_reserve vz new_size in
  do! stack_set size value in
  set_size new_size.

(** The copy loop of push_all: cells [i], [i+1], ... of [src]. *)
Fixpoint stack_copy_loop (src : list Z) (nadd : nat) (i : nat) : M sivfs_stack unit :=
  match nadd with
  | O => ret tt
  | S n =>
    let! v := lift (deref (src !! i)) in
    let! size := gets st_size in
    do! stack_set size v in
    do! set_size (uadd size 1) in
    stack_copy_loop src n (S i)
  end.

(** Both arguments may be NULL. *)
Definition sivfs_stack_push_all (vz : bool) (src : option sivfs_stack)
    (dest : option sivfs_stack) : res unit * option sivfs_stack :=
  match dest, src with
  | None, _ => (Err EINVAL, None)
  | Some d, None => (Err EINVAL, Some d)
  | Some d, Some s =>
    let nadd := st_size s in
    let new_size := uadd (st_size d) nadd in
    let '(r, d') :=
      (do! sivfs_stack_reserve vz new_size in
       stack_copy_loop (st_values s) (Z.to_nat nadd) 0) d in
    (r, Some d')
  end.

(** NULL (0) on an empty stack. *)
Definition sivfs_stack_peek (s : sivfs_stack) : res Z :=
  if sivfs_stack_empty s then Ok 0
  else deref (st_values s !! Z.to_nat (st_size s - 1)).

Definition sivfs_stack_pop : M sivfs_stack Z := fun s =>
  if sivfs_stack_empty s then (Ok 0, s)
  else
    match st_values s !! Z.to_nat (st_size s - 1) with
    | Some v => (Ok v, mk_stack (usub (st_size s) 1) (st_capacity s) (st_values s))
    | None => (Fault, s)
    end.

(** The cells after [i] move down by one, then the size drops. *)
Definition sivfs_stack_remove (i : Z) (s : sivfs_stack) : sivfs_stack :=
  if st_size s <=? i then s
  else
    let trailing := Z.to_nat (usub (usub (st_size s) i) 1) in
    let n := Z.to_nat i in
    let v := st_values s in
    mk_stack (usub (st_size s) 1) (st_capacity s)
      (take n v ++ take trailing (drop (S n) v) ++ drop (n + trailing) v).

(** ** Invariant and abstraction *)

(** Capacities stay below [2^60], so that neither doubling nor the byte size wraps. *)
Definition stack_limit : Z := 2 ^ 60.

Record stack_wf (s : sivfs_stack) : Prop := {
  wf_size : 0 <= st_size s <= st_capacity s;
  wf_values : Z.of_nat (length (st_values s)) = st_capacity s;
  wf_limit : st_capacity s <= stack_limit
}.

Definition elems (s : sivfs_stack) : list Z := take (Z.to_nat (st_size s)) (st_values s).

Lemma zero_stack_wf : stack_wf zero_stack.
Proof. split; simpl; unfold stack_limit; lia. Qed.

Lemma elems_length s : stack_wf s -> Z.of_nat (length (elems s)) = st_size s.
Proof. intros [? ? ?]. unfold elems. rewrite length_take. lia. Qed.

Lemma length_realloc_values n s : length (realloc_values n s) = n.
Proof. unfold realloc_values. rewrite length_take, length_app, length_replicate. lia. Qed.

Lemma reserve_ok vz n s s' :
  stack_wf s -> st_size s <= n < stack_limit / 2 ->
  sivfs_stack_reserve vz n s = (Ok tt, s') ->
  stack_wf s' /\ elems s' = elems s /\ st_size s' = st_size s /\ n <= st_capacity s'.
Proof.
  intros [Hs Hv Hl] Hn. unfold sivfs_stack_reserve.
  change (stack_limit / 2) with (2 ^ 59) in Hn. unfold stack_limit in *.
  destruct (Z.leb_spec (st_capacity s) n).
  - destruct vz; [|discriminate]. intros H0; injection H0 as <-.
    rewrite max3_size_t_spec, umul_small by u64_lia.
    set (c := Z.max (st_capacity s * 2) (Z.max 4 n)).
    assert (4 <= c <= 2 ^ 60) as Hc by lia.
    unfold sizeof_value. rewrite umul_small by u64_lia. rewrite Z.div_mul by lia.
    split; [|split; [|split; [done|simpl; lia]]].
    + split; simpl; rewrite ?length_realloc_values; unfold stack_limit; lia.
    + unfold elems, realloc_values; simpl. rewrite take_take, take_app_le.
      * rewrite take_take. f_equal. lia.
      * rewrite length_take. lia.
  - intros H0; injection H0 as <-. split; [by split | split; [done | lia]].
Qed.

Lemma reserve_err vz n s e s' :
  sivfs_stack_reserve vz n s = (Err e, s') -> e = ENOMEM /\ s' = s.
Proof.
  unfold sivfs_stack_reserve. repeat case_match; intros; simplify_eq; done.
Qed.

Lemma reserve_no_fault vz n s : exists r s',
  sivfs_stack_reserve vz n s = (r, s') /\ (r = Ok tt \/ r = Err ENOMEM /\ s' = s /\ vz = false).
Proof. unfold sivfs_stack_reserve. repeat case_match; eauto 10. Qed.

(** Writing the next cell and bumping the size appends one element. *)
Lemma stack_append v s :
  stack_wf s -> st_size s < st_capacity s ->
  exists s', (do! stack_set (st_size s) v in set_size (uadd (st_size s) 1)) s = (Ok tt, s')
    /\ stack_wf s' /\ elems s' = elems s ++ [v]
    /\ st_size s' = st_size s + 1 /\ st_capacity s' = st_capacity s.
Proof.
  intros [Hs Hv Hl] Hlt. unfold stack_limit in *.
  unfold bind, stack_set, set_size, modify.
  rewrite (proj2 (Z.leb_le 0 _)), (proj2 (Z.ltb_lt _ _)) by lia. simpl.
  rewrite uadd_small by u64_lia.
  eexists; split; [done|]. split; [|split; [|done]].
  - split; simpl; rewrite ?length_insert; unfold stack_limit; lia.
  - unfold elems; simpl. rewrite Z2Nat.inj_add, Nat.add_comm by lia.
    apply take_insert_at. lia.
Qed.

Lemma push_ok_inv vz v s : stack_wf s -> st_size s + 1 < stack_limit / 2 ->
  (exists s', sivfs_stack_push vz v s = (Ok tt, s')
     /\ stack_wf s' /\ elems s' = elems s ++ [v] /\ st_size s' = st_size s + 1)
  \/ (sivfs_stack_push vz v s = (Err ENOMEM, s) /\ vz = false).
Proof.
  intros Hwf Hlim. unfold sivfs_stack_push.
  assert (Hn : uadd (st_size s) 1 = st_size s + 1).
  { apply uadd_small. destruct Hwf. unfold stack_limit in *. u64_lia. }
  rewrite (bind_step (gets st_size) _ s (st_size s) s eq_refl). cbv zeta. rewrite Hn.
  destruct (reserve_no_fault vz (st_size s + 1) s) as (r & s1 & Hr & [->|(-> & -> & ->)]).
  - left. destruct (reserve_ok vz (st_size s + 1) s s1) as (Hwf1 & He & Hsz & Hc); [done| |done|].
    { destruct Hwf. lia. }
    rewrite (bind_step _ _ _ _ _ Hr).
    destruct (stack_append v s1) as (s' & Hs' & ? & He' & ? & _); [done|lia|].
    rewrite Hsz, Hn in Hs'. exists s'. rewrite Hs', He', He, <- Hsz. done.
  - right. by rewrite (bind_err _ _ _ _ _ Hr).
Qed.

(** Copying [n] cells starting at [i] appends them, when the room is reserved. *)
Lemma stack_copy_loop_ok src n i s :
  stack_wf s -> st_size s + Z.of_nat n <= st_capacity s -> (i + n <= length src)%nat ->
  exists s', stack_copy_loop src n i s = (Ok tt, s')
    /\ stack_wf s' /\ elems s' = elems s ++ take n (drop i src)
    /\ st_size s' = st_size s + Z.of_nat n.
Proof.
  revert i s. induction n as [|n IH]; intros i s Hwf Hroom Hlen; simpl.
  - exists s. rewrite app_nil_r. split_and!; done || lia.
  - destruct (lookup_lt_is_Some_2 src i) as [v Hv]; [lia|].
    rewrite Hv. unfold lift, deref, gets. unfold bind at 1 2.
    destruct (stack_append v s) as (s1 & Hs1 & Hwf1 & He1 & Hsz1 & Hc1); [done|lia|].
    destruct (IH (S i) s1) as (s' & Hs' & ? & He' & ?); [done|lia|lia|].
    exists s'. split_and!; [|done| |lia].
    + unfold bind in Hs1 |- *. destruct (stack_set (st_size s) v s) as [[]]; [|done..].
      destruct (set_size (uadd (st_size s) 1) s0) as [[]]; [|done..]. by simplify_eq.
    + rewrite He', He1, <- app_assoc. f_equal.
      by rewrite (drop_S src v i Hv).
Qed.

Lemma push_all_ok vz src dest :
  stack_wf src -> stack_wf dest -> st_size dest + st_size src < stack_limit / 2 ->
  (exists d', sivfs_stack_push_all vz (Some src) (Some dest) = (Ok tt, Some d')
     /\ stack_wf d' /\ elems d' = elems dest ++ elems src)
  \/ (sivfs_stack_push_all vz (Some src) (Some dest) = (Err ENOMEM, Some dest) /\ vz = false).
Proof.
  intros Hs Hd Hl. unfold sivfs_stack_push_all.
  pose proof (wf_size _ Hs). pose proof (wf_size _ Hd).
  rewrite uadd_small by (unfold stack_limit in Hl; change (2 ^ 60 / 2) with (2 ^ 59) in Hl; u64_lia).
  destruct (reserve_no_fault vz (st_size dest + st_size src) dest)
    as (r & d1 & Hr & [->|(-> & -> & ->)]).
  - left. destruct (reserve_ok vz (st_size dest + st_size src) dest d1) as (Hwf1 & He & Hsz & Hc); [done|lia|done|].
    destruct (stack_copy_loop_ok (st_values src) (Z.to_nat (st_size src)) 0 d1)
      as (d' & Hd' & ? & He' & _); [done|lia|destruct Hs; lia|].
    rewrite (bind_step _ _ _ _ _ Hr), Hd'. exists d'. rewrite He', He, drop_0. done.
  - right. by rewrite (bind_err _ _ _ _ _ Hr).
Qed.

Lemma empty_elems s : stack_wf s -> sivfs_stack_empty s = true <-> elems s = [].
Proof.
  intros Hwf. pose proof (elems_length s Hwf) as Hl. unfold sivfs_stack_empty. rewrite Z.eqb_eq. split.
  - intros E. apply length_zero_iff_nil. lia.
  - intros E. rewrite E in Hl. done.
Qed.

Lemma top_lookup s l v : stack_wf s -> elems s = l ++ [v] ->
  st_size s <> 0 /\ st_values s !! Z.to_nat (st_size s - 1) = Some v.
Proof.
  intros Hwf He. pose proof (elems_length s Hwf) as Hlen. rewrite He, length_app in Hlen. simpl in Hlen.
  split; [lia|]. rewrite <- (lookup_take_lt _ (Z.to_nat (st_size s))) by lia.
  change (take _ _) with (elems s). rewrite He. replace (Z.to_nat (st_size s - 1)) with (length l) by lia.
  by rewrite lookup_app_r, Nat.sub_diag by lia.
Qed.

Lemma peek_ok s l v : stack_wf s -> elems s = l ++ [v] -> sivfs_stack_peek s = Ok v.
Proof.
  intros Hwf He. destruct (top_lookup s l v Hwf He) as [Hne Hv]. unfold sivfs_stack_peek, sivfs_stack_empty.
  by rewrite (proj2 (Z.eqb_neq _ _)), Hv.
Qed.

(** ** Properties *)

(** Pushing appends one element at the top and keeps the stack
    well-formed; it never writes outside the array; when the reallocation
    fails it reports ENOMEM and leaves the stack untouched. *)
Theorem push_appends_or_enomem vz v s :
  stack_wf s -> st_size s + 1 < stack_limit / 2 ->
  (exists s', sivfs_stack_push vz v s = (Ok tt, s')
     /\ stack_wf s' /\ elems s' = elems s ++ [v])
  \/ (sivfs_stack_push vz v s = (Err ENOMEM, s) /\ vz = false).
Proof.
  intros Hwf Hl. destruct (push_ok_inv vz v s Hwf Hl) as [(s' & ? & ? & ? & _)|?]; eauto 10.
Qed.

Lemma push_appends_or_enomem_witness :
  stack_wf zero_stack /\ st_size zero_stack + 1 < stack_limit / 2 /\
  ((exists s', sivfs_stack_push true 7 zero_stack = (Ok tt, s')
     /\ stack_wf s' /\ elems s' = elems zero_stack ++ [7])
  \/ (sivfs_stack_push true 7 zero_stack = (Err ENOMEM, zero_stack) /\ true = false)).
Proof.
  split; [exact zero_stack_wf|]. split; [reflexivity|].
  apply (push_appends_or_enomem true 7 zero_stack); [exact zero_stack_wf | reflexivity].
Defined.

(** sivfs_stack_push_all is all or nothing: it either appends every
    element of the source, in order, or fails with ENOMEM and leaves the
    destination as it was. *)
Theorem push_all_atomic vz src dest :
  stack_wf src -> stack_wf dest -> st_size dest + st_size src < stack_limit / 2 ->
  (exists d', sivfs_stack_push_all vz (Some src) (Some dest) = (Ok tt, Some d')
     /\ stack_wf d' /\ elems d' = elems dest ++ elems src)
  \/ (sivfs_stack_push_all vz (Some src) (Some dest) = (Err ENOMEM, Some dest) /\ vz = false).
Proof. apply push_all_ok. Qed.

Lemma push_all_atomic_witness :
  let src := mk_stack 1 4 [5; 0; 0; 0] in
  stack_wf src /\
  ((exists d', sivfs_stack_push_all true (Some src) (Some zero_stack) = (Ok tt, Some d')
     /\ stack_wf d' /\ elems d' = elems zero_stack ++ elems src)
  \/ (sivfs_stack_push_all true (Some src) (Some zero_stack) = (Err ENOMEM, Some zero_stack)
      /\ true = false)).
Proof.
  intros src.
  assert (H : stack_wf src) by (split; simpl; unfold stack_limit; lia).
  split; [exact H|].
  apply (push_all_atomic true src zero_stack); [exact H | exact zero_stack_wf | reflexivity].
Defined.

Lemma pop_ok s l v : stack_wf s -> elems s = l ++ [v] ->
  exists s', sivfs_stack_pop s = (Ok v, s') /\ stack_wf s' /\ elems s' = l.
Proof.
  intros Hwf He. pose proof (elems_length s Hwf) as Hlen.
  rewrite He, length_app in Hlen. simpl in Hlen.
  destruct Hwf as [Hs Hv Hl]. unfold stack_limit in *.
  unfold sivfs_stack_pop, sivfs_stack_empty.
  rewrite (proj2 (Z.eqb_neq _ _)) by lia.
  assert (Hi : st_values s !! Z.to_nat (st_size s - 1) = Some v).
  { rewrite <- (lookup_take_lt _ (Z.to_nat (st_size s))) by lia.
    change (take _ _) with (elems s). rewrite He.
    replace (Z.to_nat (st_size s - 1)) with (length l) by lia.
    by rewrite lookup_app_r, Nat.sub_diag by lia. }
  rewrite Hi, usub_small by u64_lia.
  eexists; split; [done|]. split; [split; simpl; unfold stack_limit; lia|].
  unfold elems in *; simpl.
  replace (Z.to_nat (st_size s - 1)) with (length l) by lia.
  apply (f_equal (take (length l))) in He. rewrite take_take, take_app_length in He.
  by rewrite Nat.min_l in He by lia.
Qed.

(** Pop undoes push: it returns the pushed value and restores the
    elements. *)
Theorem pop_push_roundtrip v s :
  stack_wf s -> st_size s + 1 < stack_limit / 2 ->
  exists s1 s2, sivfs_stack_push true v s = (Ok tt, s1)
    /\ sivfs_stack_pop s1 = (Ok v, s2) /\ elems s2 = elems s.
Proof.
  intros Hwf Hl.
  destruct (push_ok_inv true v s Hwf Hl) as [(s1 & ? & Hwf1 & He & _)|[_ ?]]; [|done].
  destruct (pop_ok s1 _ _ Hwf1 He) as (s2 & ? & ? & ?). eauto 10.
Qed.

Lemma pop_push_roundtrip_witness :
  exists s1 s2, sivfs_stack_push true 9 zero_stack = (Ok tt, s1)
    /\ sivfs_stack_pop s1 = (Ok 9, s2) /\ elems s2 = elems zero_stack.
Proof. apply (pop_push_roundtrip 9 zero_stack); [exact zero_stack_wf | reflexivity]. Defined.

(** Removal by index deletes exactly that element and keeps the order of
    the others; an index past the end changes nothing. *)
Theorem remove_deletes_index i s :
  stack_wf s -> 0 <= i ->
  elems (sivfs_stack_remove i s) = delete (Z.to_nat i) (elems s).
Proof.
  intros Hwf Hi. pose proof (elems_length s Hwf) as Hlen.
  destruct Hwf as [Hs Hv Hl]. unfold sivfs_stack_remove, stack_limit in *.
  destruct (Z.leb_spec (st_size s) i).
  - rewrite delete_take_drop, drop_ge, app_nil_r, take_ge by lia. done.
  - rewrite (usub_small (st_size s) i), !usub_small by u64_lia.
    unfold elems; simpl. rewrite delete_take_drop, take_take.
    rewrite (Nat.min_l (Z.to_nat i)) by lia.
    rewrite app_assoc, take_app_le.
    2: { rewrite length_app, !length_take, length_drop. lia. }
    rewrite take_ge by (rewrite length_app, !length_take, length_drop; lia).
    f_equal. rewrite skipn_firstn_comm. f_equal. lia.
Qed.

Lemma remove_deletes_index_witness :
  let s := mk_stack 3 4 [5; 6; 7; 0] in
  stack_wf s /\ 0 <= 1 /\ elems (sivfs_stack_remove 1 s) = delete (Z.to_nat 1) (elems s).
Proof.
  intros s. assert (H : stack_wf s) by (split; simpl; unfold stack_limit; lia).
  split; [exact H|]. split; [lia|]. apply (remove_deletes_index 1 s); [exact H | lia].
Defined.
