(* ===== verification/RadixTree.v ===== *)
(** The helpers of kern/sivfs_radix_tree.h over the kernel's radix tree.

    The tree itself is code outside the repository, so it is an interface:
    [RadixTree] lists the operations the helpers call and what the kernel
    documents of them (a finite map from indices to non-NULL values, iterated
    in increasing index order). [radix_gmap] shows the interface can be met;
    the other components use that instance. Whether an insertion finds memory
    is the boolean argument [mem]. *)
From S2P Require Import Prelude Types.

Definition key_le {A} (x y : Z * A) : Prop := x.1 <= y.1.

#[export] Instance key_le_dec {A} : RelDecision (@key_le A).
Proof. intros x y. unfold key_le. apply _. Defined.

Class RadixTree (T : Type) : Type := {
  radix_tree_lookup : T -> Z -> option Z;
  radix_tree_store : T -> Z -> Z -> T;
  radix_tree_delete : T -> Z -> T;
  radix_tree_items : T -> list (Z * Z)
}.

Class RadixTreeLaws (T : Type) `{RadixTree T} : Prop := {
  rt_lookup_store t i j v :
    radix_tree_lookup (radix_tree_store t i v) j
    = if decide (i = j) then Some v else radix_tree_lookup t j;
  rt_lookup_delete t i j :
    radix_tree_lookup (radix_tree_delete t i) j
    = if decide (i = j) then None else radix_tree_lookup t j;
  rt_items_lookup t i v :
    (i, v) ∈ radix_tree_items t <-> radix_tree_lookup t i = Some v;
  rt_items_nodup t : NoDup (radix_tree_items t).*1;
  rt_items_sorted t : Sorted key_le (radix_tree_items t)
}.

(** [radix_tree_insert]: refuses an occupied index, otherwise needs memory. *)
Definition radix_tree_insert {T} `{RadixTree T} (mem : bool) (i v : Z) : M T unit := fun t =>
  match radix_tree_lookup t i with
  | Some _ => (Err EEXIST, t)
  | None => if mem then (Ok tt, radix_tree_store t i v) else (Err ENOMEM, t)
  end.

Section helpers.
Context {T : Type} `{RadixTree T}.

(** A value that is never a valid pointer. *)
Definition SIVFS_RADIX_TREE_TOMBSTONE : Z := Z.lor (Z.shiftl 1 63) 2.

Definition sivfs_radix_tree_size (t : T) : Z :=
  foldl (fun size _ => uadd size 1) 0 (radix_tree_items t).

Definition sivfs_radix_tree_empty (t : T) : bool :=
  match radix_tree_items t with [] => true | _ :: _ => false end.

Definition sivfs_radix_tree_tombstone (i : Z) (t : T) : T :=
  match radix_tree_lookup t i with
  | Some _ => radix_tree_store t i SIVFS_RADIX_TREE_TOMBSTONE
  | None => t
  end.

(** Collect up to [n] indices, delete them, repeat until none is left. *)
Fixpoint batch_clear (n fuel : nat) (t : T) : res T :=
  match fuel with
  | O => OutOfFuel
  | S fuel =>
    let indices := take n (radix_tree_items t).*1 in
    let t' := foldl radix_tree_delete t indices in
    match indices with
    | [] => Ok t'
    | _ :: _ => batch_clear n fuel t'
    end
  end.

Definition sivfs_radix_tree_clear (t : T) : res T :=
  batch_clear 16 (S (length (radix_tree_items t))) t.

Definition sivfs_radix_tree_set (mem : bool) (index entry : Z) : M T unit := fun root =>
  match radix_tree_lookup root index with
  | None => radix_tree_insert mem index entry root
  | Some slot =>
    if slot =? SIVFS_RADIX_TREE_TOMBSTONE then
      radix_tree_insert mem index entry (radix_tree_delete root index)
    else if slot =? entry then (Ok tt, root)
    else (Err EEXIST, root)
  end.
End helpers.

(** ** The interface is satisfiable: finite maps *)

Definition map_items {A} (m : gmap Z A) : list (Z * A) := merge_sort key_le (map_to_list m).

Lemma map_items_perm {A} (m : gmap Z A) : map_items m ≡ₚ map_to_list m.
Proof. apply merge_sort_Permutation. Qed.

Lemma elem_of_map_items {A} (m : gmap Z A) i v : (i, v) ∈ map_items m <-> m !! i = Some v.
Proof. rewrite map_items_perm. apply elem_of_map_to_list. Qed.

Lemma map_items_nodup {A} (m : gmap Z A) : NoDup (map_items m).*1.
Proof.
  rewrite map_items_perm. apply NoDup_fst_map_to_list.
Qed.

Lemma map_items_sorted {A} (m : gmap Z A) : StronglySorted key_le (map_items m).
Proof.
  apply StronglySorted_merge_sort.
  - intros x y z. unfold key_le. lia.
  - intros x y. unfold key_le. lia.
Qed.

#[export] Instance radix_gmap : RadixTree (gmap Z Z) := {
  radix_tree_lookup t i := t !! i;
  radix_tree_store t i v := <[i := v]> t;
  radix_tree_delete t i := delete i t;
  radix_tree_items := map_items
}.

#[export] Instance radix_gmap_laws : RadixTreeLaws (gmap Z Z).
Proof.
  split; simpl.
  - intros. apply lookup_insert.
  - intros. apply lookup_delete.
  - intros. apply elem_of_map_items.
  - intros. apply map_items_nodup.
  - intros. apply StronglySorted_Sorted, map_items_sorted.
Qed.

(** ** Properties, from the interface *)

Section laws.
Context {T : Type} `{RadixTreeLaws T}.

Lemma lookup_foldl_delete idx t j :
  radix_tree_lookup (foldl radix_tree_delete t idx) j
  = if decide (j ∈ idx) then None else radix_tree_lookup t j.
Proof.
  revert t. induction idx as [|i idx IH]; intros t; cbn [foldl].
  - by rewrite decide_False by (apply not_elem_of_nil).
  - rewrite IH, rt_lookup_delete.
    pose proof (elem_of_cons idx j i). destruct (decide (j ∈ idx)), (decide (i = j)), (decide (j ∈ i :: idx)); naive_solver.
Qed.

Lemma items_nil_lookup t : radix_tree_items t = [] <-> forall i, radix_tree_lookup t i = None.
Proof.
  split.
  - intros Hn i. destruct (radix_tree_lookup t i) as [v|] eqn:E; [|done].
    apply rt_items_lookup in E. rewrite Hn in E. by apply not_elem_of_nil in E.
  - intros Hn. destruct (radix_tree_items t) as [|[i v] l] eqn:E; [done|].
    assert (Hin : (i, v) ∈ radix_tree_items t) by (rewrite E; left).
    apply rt_items_lookup in Hin. by rewrite Hn in Hin.
Qed.

Lemma elem_of_keys t i : i ∈ (radix_tree_items t).*1 <-> is_Some (radix_tree_lookup t i).
Proof.
  rewrite list_elem_of_fmap. split.
  - intros ([j v] & -> & Hin). apply rt_items_lookup in Hin. eauto.
  - intros [v Hv]. exists (i, v). split; [done|]. by apply rt_items_lookup.
Qed.

(** Deleting a non-empty batch leaves fewer items. *)
Lemma batch_shrinks n t :
  take (S n) (radix_tree_items t).*1 <> [] ->
  (length (radix_tree_items (foldl radix_tree_delete t (take (S n) (radix_tree_items t).*1)))
    < length (radix_tree_items t))%nat.
Proof.
  intros Hne. set (idx := take (S n) (radix_tree_items t).*1) in *.
  set (t' := foldl radix_tree_delete t idx).
  assert (exists i v l, radix_tree_items t = (i, v) :: l) as (i & v & l & E).
  { destruct (radix_tree_items t) as [|[]]; [done|eauto]. }
  assert (Hi : i ∈ idx) by (unfold idx; rewrite E; left).
  assert (Hsub : forall j, j ∈ i :: (radix_tree_items t').*1 -> j ∈ (radix_tree_items t).*1).
  { intros j [->|Hj]%elem_of_cons; [rewrite E; left|].
    apply elem_of_keys in Hj as [w Hw]. unfold t' in Hw. rewrite lookup_foldl_delete in Hw.
    case_decide; [done|]. apply elem_of_keys. eauto. }
  assert (Hle : (length (i :: (radix_tree_items t').*1) <= length (radix_tree_items t).*1)%nat).
  { apply submseteq_length, NoDup_submseteq; [|exact Hsub].
    constructor; [|apply rt_items_nodup].
    intros Hj%elem_of_keys. unfold t' in Hj. rewrite lookup_foldl_delete in Hj.
    rewrite decide_True in Hj by done. by destruct Hj. }
  cbn [length] in Hle. rewrite !length_fmap in Hle. lia.
Qed.

Lemma batch_clear_ok n fuel t : (length (radix_tree_items t) < fuel)%nat ->
  exists t', batch_clear (S n) fuel t = Ok t' /\ forall i, radix_tree_lookup t' i = None.
Proof.
  revert t. induction fuel as [|fuel IH]; intros t Hf; [lia|]. cbn [batch_clear].
  destruct (take (S n) (radix_tree_items t).*1) as [|i idx] eqn:E.
  - eexists; split; [done|]. simpl. apply items_nil_lookup.
    destruct (radix_tree_items t); [done|discriminate E].
  - apply IH. rewrite <- E.
    pose proof (batch_shrinks n t ltac:(by rewrite E)). lia.
Qed.

(** sivfs_radix_tree_clear terminates and leaves an empty tree,
    although it deletes only 16 indices per pass. *)
Theorem radix_clear_empties (t : T) :
  exists t', sivfs_radix_tree_clear t = Ok t' /\ sivfs_radix_tree_empty t' = true.
Proof.
  destruct (batch_clear_ok 15 (S (length (radix_tree_items t))) t) as (t' & E & Hn); [lia|].
  exists t'. split; [done|]. unfold sivfs_radix_tree_empty.
  by rewrite (proj2 (items_nil_lookup t') Hn).
Qed.

(** sivfs_radix_tree_set: on success the index holds the entry and no
    other index changed; it succeeds on a free, tombstoned or already equal
    slot when memory suffices, and reports EEXIST, without change, on any
    other occupied slot. *)
Theorem radix_set_spec (t : T) i v :
  let '(r, t') := sivfs_radix_tree_set true i v t in
  (r = Ok tt /\ radix_tree_lookup t' i = Some v
     /\ (forall j, j <> i -> radix_tree_lookup t' j = radix_tree_lookup t j))
  \/ (r = Err EEXIST /\ t' = t
      /\ exists w, radix_tree_lookup t i = Some w /\ w <> v /\ w <> SIVFS_RADIX_TREE_TOMBSTONE).
Proof.
  unfold sivfs_radix_tree_set, radix_tree_insert.
  destruct (radix_tree_lookup t i) as [w|] eqn:E.
  - destruct (Z.eqb_spec w SIVFS_RADIX_TREE_TOMBSTONE) as [->|Hw].
    + rewrite rt_lookup_delete, decide_True by done. left. split; [done|].
      split; [by rewrite rt_lookup_store, decide_True|].
      intros j Hj. by rewrite rt_lookup_store, rt_lookup_delete, !decide_False by done.
    + destruct (Z.eqb_spec w v) as [->|Hwv]; [left|right]; eauto 10.
  - left. split; [done|]. split; [by rewrite rt_lookup_store, decide_True|].
    intros j Hj. by rewrite rt_lookup_store, decide_False by done.
Qed.
End laws.

Lemma radix_clear_empties_witness :
  exists t', sivfs_radix_tree_clear (T := gmap Z Z) {[3 := 8; 5 := 16]} = Ok t'
    /\ sivfs_radix_tree_empty t' = true.
Proof. apply (radix_clear_empties (T := gmap Z Z)). Defined.

Lemma radix_set_spec_witness :
  let '(r, t') := sivfs_radix_tree_set true 5 16 ({[3 := 8]} : gmap Z Z) in
  (r = Ok tt /\ radix_tree_lookup t' 5 = Some 16
     /\ (forall j, j <> 5 -> radix_tree_lookup t' j = radix_tree_lookup ({[3 := 8]} : gmap Z Z) j))
  \/ (r = Err EEXIST /\ t' = {[3 := 8]}
      /\ exists w, radix_tree_lookup ({[3 := 8]} : gmap Z Z) 5 = Some w /\ w <> 16 /\ w <> SIVFS_RADIX_TREE_TOMBSTONE).
Proof. apply (radix_set_spec (T := gmap Z Z) {[3 := 8]} 5 16). Defined.
