(* ===== verification/Writeset.v ===== *)
(** Write sets: kern/sivfs_writeset.h.

    A write set is a packed buffer of variable-length entries. The buffer is
    word-granular ([list Z], one 64-bit word per element): every entry size is
    a multiple of 8 bytes, so the C pointer [ent] is always at a word index.
    An entry at index [i] is [ino; file_offset; address; stream_control; value]
    followed by the remaining value words of a stream.

    The loop that every consumer of a write set runs (read the stream info,
    process the entry, advance, subtract the entry size from [size_left]) is
    [ws_for_each]; it is executable on any buffer, well-formed or not. *)
From S2P Require Import Prelude Types.

Definition SIVFS_ENTRY_IS_STREAM : Z := Z.shiftl 1 63.
Definition SIVFS_STREAM_CONSTANT : Z := Z.shiftl 1 62.
Definition SIVFS_STREAM_FLAGS : Z := Z.lor SIVFS_ENTRY_IS_STREAM SIVFS_STREAM_CONSTANT.
Definition SIVFS_WRITESET_ENTRY_MIN_SIZE : Z := 40.
Definition MAX_COMMIT_SIZE : Z := 4096 * 64.

Record sivfs_wse_stream_info : Type := mk_info {
  value_words : Z;
  dest_words : Z;
  is_stream : bool;
  is_const_stream : bool
}.

Definition sivfs_wse_size (info : sivfs_wse_stream_info) : Z :=
  uadd SIVFS_WRITESET_ENTRY_MIN_SIZE (umul (usub (value_words info) 1) SIZEOF_WORD).

(** [sc] is [entry->stream_control]. *)
Definition sivfs_wse_to_stream_info (sc size : Z) : res sivfs_wse_stream_info :=
  if sc =? 0 then Ok (mk_info 1 1 false false)
  else
    let is_stream := negb (Z.land sc SIVFS_ENTRY_IS_STREAM =? 0) in
    let is_const_stream := negb (Z.land sc SIVFS_STREAM_CONSTANT =? 0) in
    let dest_words := Z.land sc (unot SIVFS_STREAM_FLAGS) in
    if negb is_stream then Err EINVAL
    else if dest_words =? 0 then Err EINVAL
    else
      let value_words := if is_const_stream then 1 else dest_words in
      let info := mk_info value_words dest_words is_stream is_const_stream in
      if size <? sivfs_wse_size info then Err EINVAL
      else Ok info.

Record sivfs_writeset : Type := mk_ws {
  ws_capacity_bytes : Z;
  ws_size_bytes : Z;
  ws_entries : list Z
}.

Definition sivfs_writeset_empty (ws : sivfs_writeset) : bool := ws_size_bytes ws =? 0.

(** The kernel variant: a zeroed allocation of [n] bytes receives the used
    bytes of the old buffer. [kz] is the outcome of [kzalloc]. *)
Definition ws_realloc (n : Z) (ws : sivfs_writeset) : list Z :=
  let words := Z.to_nat (n / SIZEOF_WORD) in
  take words (take (Z.to_nat (ws_size_bytes ws / SIZEOF_WORD)) (ws_entries ws)
              ++ replicate words 0).

Definition sivfs_writeset_reserve (kz : bool) (new_capacity : Z) : M sivfs_writeset unit :=
  fun ws =>
  if ws_capacity_bytes ws <=? new_capacity then
    let new_capacity := max3_size_t (umul (ws_capacity_bytes ws) 2)
                          (4 * SIVFS_WRITESET_ENTRY_MIN_SIZE) new_capacity in
    if kz then (Ok tt, mk_ws new_capacity (ws_size_bytes ws) (ws_realloc new_capacity ws))
    else (Err ENOMEM, ws)
  else (Ok tt, ws).

Definition SIVFS_WRITESET_DISABLED_FLAG : Z := Z.shiftl 1 63.

Definition set_ws_size (n : Z) (ws : sivfs_writeset) : sivfs_writeset :=
  mk_ws (ws_capacity_bytes ws) n (ws_entries ws).

Definition sivfs_disable_ws (disable : bool) : M sivfs_writeset unit := fun ws =>
  if disable then
    if negb (ws_size_bytes ws =? 0) then (Err EINVAL, ws)
    else (Ok tt, set_ws_size (Z.lor (ws_size_bytes ws) SIVFS_WRITESET_DISABLED_FLAG) ws)
  else
    let ws' := set_ws_size
                 (Z.land (ws_size_bytes ws) (unot SIVFS_WRITESET_DISABLED_FLAG)) ws in
    if negb (ws_size_bytes ws' =? 0) then (Err EINVAL, ws') else (Ok tt, ws').

Definition sivfs_ws_is_disabled (ws : sivfs_writeset) : bool :=
  negb (0 =? Z.land (ws_size_bytes ws) SIVFS_WRITESET_DISABLED_FLAG).

(** [memcpy(dst + i, src, n)] in words; reading or writing out of bounds faults. *)
Definition copy_words (dst : list Z) (i : Z) (src : list Z) (n : Z) : res (list Z) :=
  if (0 <=? i) && (0 <=? n) && (i + n <=? Z.of_nat (length dst))
     && (n <=? Z.of_nat (length src))
  then Ok (take (Z.to_nat i) dst ++ take (Z.to_nat n) src ++ drop (Z.to_nat (i + n)) dst)
  else Fault.

(** [toAdd] is the caller's entry as words, [size] its size in bytes. *)
Definition sivfs_add_to_writeset (kz : bool) (toAdd : list Z) (size : Z)
    : M sivfs_writeset unit := fun ws =>
  if sivfs_ws_is_disabled ws then (Ok tt, ws)
  else
    (let! sc := lift (deref (toAdd !! 3%nat)) in
     let! info := lift (sivfs_wse_to_stream_info sc size) in
     let wse_size := sivfs_wse_size info in
     let new_size := uadd (ws_size_bytes ws) wse_size in
     do! sivfs_writeset_reserve kz new_size in
     let! ents := gets ws_entries in
     let! ents' := lift (copy_words ents (ws_size_bytes ws / SIZEOF_WORD) toAdd
                           (wse_size / SIZEOF_WORD)) in
     modify (fun ws => mk_ws (ws_capacity_bytes ws) new_size ents')) ws.

Definition sivfs_writeset_copy (src dest : sivfs_writeset) : res unit * sivfs_writeset :=
  if ws_capacity_bytes dest <? ws_size_bytes src then
    (Ok tt, set_ws_size 0 dest)
  else
    match copy_words (ws_entries dest) 0 (ws_entries src) (ws_size_bytes src / SIZEOF_WORD) with
    | Ok ents => (Ok tt, mk_ws (ws_capacity_bytes dest) (ws_size_bytes src) ents)
    | _ => (Fault, dest)
    end.

(** One word of a page is overwritten. A page is [WORDS_PER_PAGE] words; a
    write that is not word-aligned is outside the model and faults. *)
Definition page := list Z.
Definition zero_page : page := replicate WORDS_PER_PAGE 0.

Definition sivfs_apply_ws_ent_pg (file_offset value : Z) (mem : page) : res page :=
  let b := file_offset mod PAGE_SIZE in
  if (b mod SIZEOF_WORD =? 0) then Ok (<[Z.to_nat (b / SIZEOF_WORD) := value]> mem)
  else Fault.

(** ** Walking a write set *)

Inductive wstep : Type := Continue | Break.

(** Pointer arithmetic on the entry pointer, in words, modulo the address space. *)
Definition ent_advance (i wse_size : Z) : Z := (i + wse_size / SIZEOF_WORD) mod 2 ^ 61.

Definition rd (buf : list Z) (i : Z) : res Z :=
  if i <? 0 then Fault else deref (buf !! Z.to_nat i).

Fixpoint ws_for_each {S : Type} (getbuf : S -> list Z)
    (body : Z -> sivfs_wse_stream_info -> M S wstep)
    (fuel : nat) (ent size_left : Z) (s : S) : res unit * S :=
  match fuel with
  | O => (OutOfFuel, s)
  | Datatypes.S fuel =>
    if size_left =? 0 then (Ok tt, s)
    else
      match rbind (rd (getbuf s) (ent + 3)) (fun sc => sivfs_wse_to_stream_info sc size_left) with
      | Ok info =>
        match body ent info s with
        | (Ok Continue, s') =>
          let wse_size := sivfs_wse_size info in
          ws_for_each getbuf body fuel (ent_advance ent wse_size) (usub size_left wse_size) s'
        | (Ok Break, s') => (Ok tt, s')
        | (Err e, s') => (Err e, s')
        | (Fault, s') => (Fault, s')
        | (OutOfFuel, s') => (OutOfFuel, s')
        end
      | Err e => (Err e, s)
      | Fault => (Fault, s)
      | OutOfFuel => (OutOfFuel, s)
      end
  end.

Lemma ws_for_each_keeps {S} (P : S -> Prop) getbuf body fuel : (forall ent info, keeps P (body ent info)) ->
  forall ent left, keeps P (ws_for_each getbuf body fuel ent left).
Proof.
  intros Hb. induction fuel as [|fuel IH]; intros ent left s Hs; [done|]. cbn [ws_for_each].
  destruct (left =? 0); [done|]. destruct (rbind _ _) as [info| | |]; try done.
  specialize (Hb ent info s Hs). destruct (body ent info s) as [[[]| | |] s']; try done. by apply IH.
Qed.

(** ** Encoding of a list of entries *)

Inductive payload : Type :=
  | Single (v : Z)
  | ConstStream (n v : Z)
  | Stream (v : Z) (vs : list Z).

Record wse : Type := mk_wse {
  e_ino : Z;
  e_offset : Z;
  e_address : Z;
  e_payload : payload
}.

Definition e_value (e : wse) : Z :=
  match e_payload e with Single v | ConstStream _ v | Stream v _ => v end.

Definition e_control (e : wse) : Z :=
  match e_payload e with
  | Single _ => 0
  | ConstStream n _ => SIVFS_STREAM_FLAGS + n
  | Stream _ vs => SIVFS_ENTRY_IS_STREAM + (1 + Z.of_nat (length vs))
  end.

Definition e_rest (e : wse) : list Z :=
  match e_payload e with Stream _ vs => vs | _ => [] end.

Definition encode_wse (e : wse) : list Z :=
  [e_ino e; e_offset e; e_address e; e_control e; e_value e] ++ e_rest e.

Definition encode (es : list wse) : list Z := es ≫= encode_wse.

Definition info_of (e : wse) : sivfs_wse_stream_info :=
  match e_payload e with
  | Single _ => mk_info 1 1 false false
  | ConstStream n _ => mk_info 1 n true true
  | Stream _ vs => mk_info (1 + Z.of_nat (length vs)) (1 + Z.of_nat (length vs)) true false
  end.

(** Streams are shorter than [2^60] words, so that no size computation wraps. *)
Definition wf_wse (e : wse) : Prop :=
  match e_payload e with
  | Single _ => True
  | ConstStream n _ => 1 <= n < 2 ^ 60
  | Stream _ vs => 1 + Z.of_nat (length vs) < 2 ^ 60
  end.

#[export] Instance wf_wse_dec e : Decision (wf_wse e).
Proof. unfold wf_wse. destruct (e_payload e); apply _. Defined.

Lemma small_ws_enabled ws : 0 <= ws_size_bytes ws < 2 ^ 63 -> sivfs_ws_is_disabled ws = false.
Proof.
  intros Hs. unfold sivfs_ws_is_disabled, SIVFS_WRITESET_DISABLED_FLAG. replace (Z.land _ _) with 0; [done|]. change (Z.shiftl 1 63) with (Z.shiftl (Z.ones 1) 63).
  rewrite land_field, (Z.div_small _ (2 ^ 63)) by (done || lia). done.
Qed.

(** [ws] holds exactly the entries [es]. *)
Record ws_repr (ws : sivfs_writeset) (es : list wse) : Prop := {
  repr_size : ws_size_bytes ws = 8 * Z.of_nat (length (encode es));
  repr_entries : take (length (encode es)) (ws_entries ws) = encode es;
  repr_wf : Forall wf_wse es;
  repr_cap : ws_size_bytes ws <= ws_capacity_bytes ws < 2 ^ 62;
  repr_alloc : ws_capacity_bytes ws / 8 = Z.of_nat (length (ws_entries ws))
}.

Definition ws_init : sivfs_writeset := mk_ws 0 0 [].

Lemma ws_init_repr : ws_repr ws_init [].
Proof. split; simpl; done || lia. Qed.

Lemma length_encode_wse e : length (encode_wse e) = (5 + length (e_rest e))%nat.
Proof. reflexivity. Qed.

Lemma encode_cons e es : encode (e :: es) = encode_wse e ++ encode es.
Proof. reflexivity. Qed.

Lemma encode_app es es' : encode (es ++ es') = encode es ++ encode es'.
Proof. apply bind_app. Qed.

(** ** The stream info of an encoded entry *)

Lemma stream_bits n : 0 <= n < 2 ^ 62 -> forall c, (c = 0 \/ c = 1) ->
  (Z.land (SIVFS_ENTRY_IS_STREAM + c * 2 ^ 62 + n) SIVFS_ENTRY_IS_STREAM =? 0) = false /\
  (Z.land (SIVFS_ENTRY_IS_STREAM + c * 2 ^ 62 + n) SIVFS_STREAM_CONSTANT =? 0) = (c =? 0) /\
  Z.land (SIVFS_ENTRY_IS_STREAM + c * 2 ^ 62 + n) (unot SIVFS_STREAM_FLAGS) = n.
Proof.
  intros Hn c Hc. unfold SIVFS_STREAM_CONSTANT, SIVFS_ENTRY_IS_STREAM at 2.
  rewrite !land_bit_eqb, !testbit_div by lia.
  change (unot SIVFS_STREAM_FLAGS) with (Z.ones 62). rewrite Z.land_ones by lia.
  change SIVFS_ENTRY_IS_STREAM with (2 * 2 ^ 62).
  assert (H1 : (2 * 2 ^ 62 + c * 2 ^ 62 + n) / 2 ^ 63 = 1).
  { symmetry. apply (Z.div_unique_pos _ _ _ (c * 2 ^ 62 + n)); lia. }
  assert (H2 : (2 * 2 ^ 62 + c * 2 ^ 62 + n) / 2 ^ 62 = 2 + c).
  { symmetry. apply (Z.div_unique_pos _ _ _ n); lia. }
  rewrite H1, H2. split_and!; [done| |].
  - destruct Hc as [-> | ->]; done.
  - replace (2 * 2 ^ 62 + c * 2 ^ 62 + n) with (n + (2 + c) * 2 ^ 62) by lia.
    rewrite Z.mod_add by lia. apply Z.mod_small. lia.
Qed.

Lemma wse_size_encoded e : wf_wse e ->
  sivfs_wse_size (info_of e) = 8 * Z.of_nat (length (encode_wse e)).
Proof.
  intros Hwf. rewrite length_encode_wse. unfold wf_wse, info_of, e_rest, sivfs_wse_size in *.
  unfold SIVFS_WRITESET_ENTRY_MIN_SIZE, SIZEOF_WORD.
  destruct (e_payload e); simpl; [done..|].
  rewrite usub_small, umul_small by u64_lia. rewrite uadd_small; u64_lia.
Qed.

Lemma stream_info_encoded e size : wf_wse e ->
  8 * Z.of_nat (length (encode_wse e)) <= size ->
  sivfs_wse_to_stream_info (e_control e) size = Ok (info_of e).
Proof.
  intros Hwf Hsz. rewrite <- wse_size_encoded in Hsz by done.
  unfold sivfs_wse_to_stream_info, wf_wse, info_of, e_control in *.
  destruct (e_payload e) as [v|n v|v vs].
  - done.
  - destruct (stream_bits n ltac:(lia) 1 ltac:(lia)) as (B1 & B2 & B3).
    change (SIVFS_ENTRY_IS_STREAM + 1 * 2 ^ 62) with SIVFS_STREAM_FLAGS in *.
    rewrite B1, B2, B3. simpl.
    rewrite (proj2 (Z.eqb_neq _ 0)) by (change SIVFS_STREAM_FLAGS with (3 * 2 ^ 62); lia).
    rewrite (proj2 (Z.eqb_neq n 0)) by lia.
    by rewrite (proj2 (Z.ltb_ge _ _)) by lia.
  - set (n := 1 + Z.of_nat (length vs)) in *.
    destruct (stream_bits n ltac:(lia) 0 ltac:(lia)) as (B1 & B2 & B3).
    rewrite Z.mul_0_l, Z.add_0_r in *. rewrite B1, B2, B3. simpl.
    rewrite (proj2 (Z.eqb_neq _ 0)) by (change SIVFS_ENTRY_IS_STREAM with (2 ^ 63); lia).
    rewrite (proj2 (Z.eqb_neq n 0)) by lia.
    by rewrite (proj2 (Z.ltb_ge _ _)) by lia.
Qed.

(** ** The walk visits exactly the encoded entries *)

(** What a walk over the entries [es] does: [body] runs on each in order,
    until it breaks or fails. *)
Fixpoint foldM {S A : Type} (body : A -> M S wstep) (es : list A) : M S unit :=
  match es with
  | [] => ret tt
  | e :: es =>
    let! st := body e in
    match st with Continue => foldM body es | Break => ret tt end
  end.

(** The buffer at word index [i] starts with the words [l]. *)
Definition buf_at (buf : list Z) (i : Z) (l : list Z) : Prop :=
  0 <= i /\ take (length l) (drop (Z.to_nat i) buf) = l.

Lemma buf_at_length buf i l : buf_at buf i l -> l <> [] ->
  i + Z.of_nat (length l) <= Z.of_nat (length buf).
Proof.
  intros [Hi H] Hl. apply (f_equal length) in H. rewrite length_take, length_drop in H.
  assert (length l <> 0%nat) by (by destruct l). lia.
Qed.

Lemma buf_at_app buf i l l' : buf_at buf i (l ++ l') ->
  buf_at buf i l /\ buf_at buf (i + Z.of_nat (length l)) l'.
Proof.
  intros [Hi H]. rewrite length_app in H. split; split; try lia.
  - apply (f_equal (take (length l))) in H. rewrite take_take, take_app_length in H.
    by rewrite Nat.min_l in H by lia.
  - apply (f_equal (drop (length l))) in H.
    rewrite drop_app_length, skipn_firstn_comm, drop_drop in H.
    replace (length l + length l' - length l)%nat with (length l') in H by lia.
    by replace (Z.to_nat (i + Z.of_nat (length l))) with (Z.to_nat i + length l)%nat by lia.
Qed.

Lemma buf_at_rd buf i l k x : buf_at buf i l -> l !! k = Some x ->
  rd buf (i + Z.of_nat k) = Ok x.
Proof.
  intros [Hi H] Hk. unfold rd. rewrite (proj2 (Z.ltb_ge _ _)) by lia.
  assert (Hk' := Hk). rewrite <- H in Hk'.
  apply lookup_lt_Some in Hk. rewrite lookup_take_lt, lookup_drop in Hk' by lia.
  replace (Z.to_nat (i + Z.of_nat k)) with (Z.to_nat i + k)%nat by lia. by rewrite Hk'.
Qed.

Lemma rd_control buf i e : buf_at buf i (encode_wse e) -> rd buf (i + 3) = Ok (e_control e).
Proof. intros H. by apply (buf_at_rd buf i _ 3%nat _ H). Qed.

Lemma rd_fields buf i e : buf_at buf i (encode_wse e) ->
  rd buf i = Ok (e_ino e) /\ rd buf (i + 1) = Ok (e_offset e) /\
  rd buf (i + 2) = Ok (e_address e) /\ rd buf (i + 4) = Ok (e_value e).
Proof.
  intros H. rewrite <- (Z.add_0_r i) at 1. split_and!.
  - by apply (buf_at_rd buf i _ 0%nat _ H).
  - by apply (buf_at_rd buf i _ 1%nat _ H).
  - by apply (buf_at_rd buf i _ 2%nat _ H).
  - by apply (buf_at_rd buf i _ 4%nat _ H).
Qed.

Section walk.
Context {S : Type} (getbuf : S -> list Z).
Context (body : Z -> sivfs_wse_stream_info -> M S wstep) (body' : wse -> M S wstep).

(** The index-based body agrees with the entry-based one wherever the buffer
    holds an encoded entry, and leaves the buffer beyond the entry alone. *)
Hypothesis body_reads : forall i e s, buf_at (getbuf s) i (encode_wse e) -> wf_wse e ->
  body i (info_of e) s = body' e s.
Hypothesis body_keeps : forall i e s r s', body i (info_of e) s = (r, s') ->
  forall j l, i + Z.of_nat (length (encode_wse e)) <= j ->
  buf_at (getbuf s) j l -> buf_at (getbuf s') j l.

Lemma ws_for_each_encoded es : forall i s fuel,
  Forall wf_wse es -> buf_at (getbuf s) i (encode es) ->
  i + Z.of_nat (length (encode es)) < 2 ^ 60 -> (length es < fuel)%nat ->
  ws_for_each getbuf body fuel i (8 * Z.of_nat (length (encode es))) s = foldM body' es s.
Proof.
  induction es as [|e es IH]; intros i s fuel Hwf Hbuf Hlim Hfuel;
    (destruct fuel as [|fuel]; [simpl in Hfuel; lia|]).
  - done.
  - apply Forall_cons_1 in Hwf as [He Hes].
    rewrite encode_cons in Hbuf, Hlim |- *.
    destruct (buf_at_app (getbuf s) i (encode_wse e) (encode es) Hbuf) as [Hb1 Hb2].
    rewrite length_app, Nat2Z.inj_add in Hlim |- *.
    pose proof (length_encode_wse e). destruct Hbuf as [Hi0 _].
    cbn [ws_for_each]. rewrite (proj2 (Z.eqb_neq _ 0)) by lia.
    rewrite (rd_control (getbuf s) i e Hb1). cbn [rbind].
    rewrite stream_info_encoded by (done || lia).
    pose proof (body_reads i e s Hb1 He) as Hread. cbn [foldM]. unfold bind.
    rewrite <- Hread. destruct (body i (info_of e) s) as [[[]| | |] s1] eqn:Eb; try done.
    rewrite wse_size_encoded by done. unfold ent_advance, SIZEOF_WORD.
    rewrite (Z.mul_comm 8 (Z.of_nat (length (encode_wse e)))), Z.div_mul by lia.
    rewrite Z.mod_small, usub_small by u64_lia.
    replace (_ - _) with (8 * Z.of_nat (length (encode es))) by lia.
    apply IH; [done| |lia|simpl in Hfuel; lia].
    eapply body_keeps; [exact Eb|lia|done].
Qed.
End walk.

(** ** Adding entries *)

Lemma length_ws_realloc n ws : length (ws_realloc n ws) = Z.to_nat (n / SIZEOF_WORD).
Proof. unfold ws_realloc. rewrite length_take, length_app, length_replicate. lia. Qed.

Lemma repr_words ws es : ws_repr ws es -> ws_size_bytes ws / 8 = Z.of_nat (length (encode es)).
Proof. intros H. rewrite (repr_size _ _ H), Z.mul_comm. by apply Z.div_mul. Qed.

Lemma ws_reserve_ok kz n ws es :
  ws_repr ws es -> ws_size_bytes ws <= n < 2 ^ 60 ->
  (exists ws', sivfs_writeset_reserve kz n ws = (Ok tt, ws') /\
    ws_repr ws' es /\ ws_size_bytes ws' = ws_size_bytes ws /\ n <= ws_capacity_bytes ws')
  \/ (kz = false /\ sivfs_writeset_reserve kz n ws = (Err ENOMEM, ws)).
Proof.
  intros Hr Hn. pose proof (repr_words _ _ Hr) as Hw. destruct Hr as [Hs He Hf Hc Ha].
  unfold sivfs_writeset_reserve, SIVFS_WRITESET_ENTRY_MIN_SIZE.
  destruct (Z.leb_spec (ws_capacity_bytes ws) n).
  - destruct kz; [left; eexists; split; [done|] | by right].
    rewrite max3_size_t_spec, umul_small by u64_lia. cbn [ws_size_bytes ws_capacity_bytes].
    set (c := Z.max (ws_capacity_bytes ws * 2) (Z.max (4 * 40) n)).
    assert (160 <= c < 2 ^ 62 /\ n <= c) as [Hc1 Hc2] by lia.
    split; [|done]. split; simpl; try done; try lia.
    + unfold ws_realloc, SIZEOF_WORD. rewrite Hw, Nat2Z.id, He, take_take.
      rewrite Nat.min_l.
      * by rewrite take_app_length.
      * pose proof (Z.div_le_mono (ws_size_bytes ws) c 8 ltac:(lia) ltac:(lia)). lia.
    + rewrite length_ws_realloc. unfold SIZEOF_WORD.
      rewrite Z2Nat.id; [done|]. apply Z.div_pos; lia.
  - left. exists ws. split_and!; try done; lia.
Qed.

Lemma copy_words_ok dst i src n : 0 <= i -> 0 <= n ->
  i + n <= Z.of_nat (length dst) -> n <= Z.of_nat (length src) ->
  copy_words dst i src n =
    Ok (take (Z.to_nat i) dst ++ take (Z.to_nat n) src ++ drop (Z.to_nat (i + n)) dst).
Proof.
  intros. unfold copy_words.
  rewrite !(proj2 (Z.leb_le _ _)) by lia. done.
Qed.

(** The buffer after the copy. *)
Lemma repr_append ws es e ents :
  ws_repr ws es -> wf_wse e ->
  ws_size_bytes ws + 8 * Z.of_nat (length (encode_wse e)) <= ws_capacity_bytes ws ->
  ents = take (length (encode es)) (ws_entries ws) ++ encode_wse e
         ++ drop (length (encode es) + length (encode_wse e)) (ws_entries ws) ->
  ws_repr (mk_ws (ws_capacity_bytes ws)
             (ws_size_bytes ws + 8 * Z.of_nat (length (encode_wse e))) ents) (es ++ [e]).
Proof.
  intros [Hs He Hf Hc Ha] Hwf Hroom ->.
  assert (Hone : encode [e] = encode_wse e) by (rewrite encode_cons; apply app_nil_r).
  assert (Hfit : (length (encode es) + length (encode_wse e) <= length (ws_entries ws))%nat).
  { pose proof (Z.div_le_mono _ _ 8 ltac:(lia) Hroom) as Hd. rewrite Hs in Hd.
    replace (8 * _ + 8 * _) with
      ((Z.of_nat (length (encode es)) + Z.of_nat (length (encode_wse e))) * 8) in Hd by lia.
    rewrite Z.div_mul in Hd by lia. lia. }
  split; cbn [ws_size_bytes ws_capacity_bytes ws_entries].
  - rewrite encode_app, Hone, length_app. lia.
  - rewrite encode_app, Hone, He, app_assoc. by rewrite <- length_app, take_app_length.
  - apply Forall_app. split; [done|]. by apply Forall_singleton.
  - lia.
  - rewrite !length_app, length_take, length_drop. lia.
Qed.

(** Copying the entry behind the used bytes, once the room is there. *)
Lemma add_copy ws es e :
  ws_repr ws es -> wf_wse e ->
  ws_size_bytes ws + 8 * Z.of_nat (length (encode_wse e)) <= ws_capacity_bytes ws ->
  exists ents, copy_words (ws_entries ws) (ws_size_bytes ws / SIZEOF_WORD) (encode_wse e)
      (8 * Z.of_nat (length (encode_wse e)) / SIZEOF_WORD) = Ok ents
    /\ ws_repr (mk_ws (ws_capacity_bytes ws)
             (ws_size_bytes ws + 8 * Z.of_nat (length (encode_wse e))) ents) (es ++ [e]).
Proof.
  intros Hr Hwf Hroom. pose proof (repr_append ws es e _ Hr Hwf Hroom eq_refl) as Happ.
  pose proof (repr_words _ _ Hr) as Hw. unfold SIZEOF_WORD. rewrite Hw.
  replace (8 * Z.of_nat (length (encode_wse e)) / 8)
    with (Z.of_nat (length (encode_wse e))) by (rewrite Z.mul_comm; by rewrite Z.div_mul).
  assert (Hfit : Z.of_nat (length (encode es)) + Z.of_nat (length (encode_wse e))
                 <= Z.of_nat (length (ws_entries ws))).
  { pose proof (repr_alloc _ _ Happ) as Ha. cbn [ws_capacity_bytes ws_entries] in Ha.
    rewrite (repr_alloc _ _ Hr) in Ha. apply Nat2Z.inj in Ha. rewrite Ha.
    rewrite !length_app, (repr_entries _ _ Hr). lia. }
  rewrite copy_words_ok by lia. eexists; split; [done|].
  by rewrite <- Nat2Z.inj_add, !Nat2Z.id, (take_ge (encode_wse e)) by lia.
Qed.

Lemma add_entry_repr kz ws es e size :
  ws_repr ws es -> wf_wse e -> sivfs_ws_is_disabled ws = false ->
  8 * Z.of_nat (length (encode_wse e)) <= size ->
  ws_size_bytes ws + 8 * Z.of_nat (length (encode_wse e)) < 2 ^ 60 ->
  (exists ws', sivfs_add_to_writeset kz (encode_wse e) size ws = (Ok tt, ws')
     /\ ws_repr ws' (es ++ [e]))
  \/ (kz = false /\ sivfs_add_to_writeset kz (encode_wse e) size ws = (Err ENOMEM, ws)).
Proof.
  intros Hr Hwf Hdis Hsize Hlim. unfold sivfs_add_to_writeset. rewrite Hdis.
  pose proof (repr_size _ _ Hr) as Hs.
  rewrite (bind_step (lift _) _ ws (e_control e) ws eq_refl).
  rewrite stream_info_encoded by done.
  rewrite (bind_step (lift _) _ ws (info_of e) ws eq_refl). cbv zeta.
  rewrite wse_size_encoded, uadd_small by (done || u64_lia).
  destruct (ws_reserve_ok kz (ws_size_bytes ws + 8 * Z.of_nat (length (encode_wse e))) ws es)
    as [(ws1 & E & Hr1 & Hs1 & Hc1)|[-> E]]; [done|lia| |].
  - left. destruct (add_copy ws1 es e Hr1 Hwf ltac:(lia)) as (ents & Hcp & Hr').
    rewrite (bind_step _ _ _ _ _ E), (bind_step (gets _) _ ws1 _ ws1 eq_refl).
    rewrite <- Hs1, Hcp, (bind_step (lift _) _ ws1 ents ws1 eq_refl). eauto.
  - right. by rewrite (bind_err _ _ _ _ _ E).
Qed.

(** Adding a well-formed entry to a write set appends exactly that entry:
    the buffer then holds the old entries followed by the new one, growing the
    allocation when needed; if the allocation fails, ENOMEM is returned and
    the write set is unchanged. *)
Theorem add_to_writeset_appends kz ws es e size :
  ws_repr ws es -> wf_wse e -> sivfs_ws_is_disabled ws = false ->
  8 * Z.of_nat (length (encode_wse e)) <= size ->
  ws_size_bytes ws + 8 * Z.of_nat (length (encode_wse e)) < 2 ^ 60 ->
  (exists ws', sivfs_add_to_writeset kz (encode_wse e) size ws = (Ok tt, ws')
     /\ ws_repr ws' (es ++ [e]))
  \/ (kz = false /\ sivfs_add_to_writeset kz (encode_wse e) size ws = (Err ENOMEM, ws)).
Proof. apply add_entry_repr. Qed.

Definition sample_wse : wse := mk_wse 3 16 4096 (Stream 7 [8; 9]).

Lemma add_to_writeset_appends_witness :
  ws_repr ws_init [] /\ wf_wse sample_wse /\
  ((exists ws', sivfs_add_to_writeset true (encode_wse sample_wse) 56 ws_init = (Ok tt, ws')
     /\ ws_repr ws' ([] ++ [sample_wse]))
  \/ (true = false /\ sivfs_add_to_writeset true (encode_wse sample_wse) 56 ws_init
       = (Err ENOMEM, ws_init))).
Proof.
  split; [exact ws_init_repr|]. split; [vm_compute; done|].
  apply (add_to_writeset_appends true ws_init [] sample_wse 56);
    [exact ws_init_repr | vm_compute; done | reflexivity | vm_compute; done | vm_compute; done].
Defined.

(** ** Walking a whole write set *)

(** Fuel for a walk: one step per word is more than one per entry. *)
Definition ws_fuel (ws : sivfs_writeset) : nat := S (length (ws_entries ws)).

(** [ent = ws->entries; size_left = ws->__size_bytes; while(size_left) ...] for
    a loop that does not write to the buffer. *)
Definition ws_walk {S : Type} (ws : sivfs_writeset)
    (body : Z -> sivfs_wse_stream_info -> M S wstep) : M S unit :=
  ws_for_each (fun _ => ws_entries ws) body (ws_fuel ws) 0 (ws_size_bytes ws).

Lemma length_encode_ge es : (5 * length es <= length (encode es))%nat.
Proof.
  induction es as [|e es IH]; [done|].
  rewrite encode_cons, length_app, length_encode_wse. simpl. lia.
Qed.

Lemma repr_buf_at ws es : ws_repr ws es -> buf_at (ws_entries ws) 0 (encode es).
Proof. intros H. split; [done|]. rewrite drop_0. apply H. Qed.

Lemma repr_lens ws es : ws_repr ws es ->
  (length (encode es) <= length (ws_entries ws))%nat /\
  Z.of_nat (length (encode es)) < 2 ^ 60 /\ (length es < ws_fuel ws)%nat.
Proof.
  intros [Hs He Hf Hc Ha]. pose proof (length_encode_ge es).
  apply (f_equal length) in He. rewrite length_take in He.
  unfold ws_fuel. lia.
Qed.

Lemma ws_walk_encoded {S} ws es (body : Z -> sivfs_wse_stream_info -> M S wstep) body' s :
  ws_repr ws es ->
  (forall i e s, buf_at (ws_entries ws) i (encode_wse e) -> wf_wse e ->
     body i (info_of e) s = body' e s) ->
  ws_walk ws body s = foldM body' es s.
Proof.
  intros Hr Hb. unfold ws_walk. destruct (repr_lens _ _ Hr) as (H1 & H2 & H3).
  rewrite (repr_size _ _ Hr).
  apply (ws_for_each_encoded (fun _ => ws_entries ws)); try done.
  - apply Hr.
  - by apply repr_buf_at.
Qed.

(** Reading every entry's (ino, offset, address, first value). *)
Definition entry_header (e : wse) : Z * Z * Z * Z :=
  (e_ino e, e_offset e, e_address e, e_value e).

Definition read_entry (buf : list Z) (i : Z) : res (Z * Z * Z * Z) :=
  let? ino := rd buf i in
  let? off := rd buf (i + 1) in
  let? addr := rd buf (i + 2) in
  let? v := rd buf (i + 4) in
  Ok (ino, off, addr, v).

Definition ws_contents (ws : sivfs_writeset) : res unit * list (Z * Z * Z * Z) :=
  ws_walk ws (fun i _ acc =>
    match read_entry (ws_entries ws) i with
    | Ok h => (Ok Continue, acc ++ [h])
    | _ => (Fault, acc)
    end) [].

Lemma read_entry_encoded buf i e :
  buf_at buf i (encode_wse e) -> read_entry buf i = Ok (entry_header e).
Proof. intros H. unfold read_entry. by destruct (rd_fields _ _ _ H) as (-> & -> & -> & ->). Qed.

Lemma ws_contents_repr ws es : ws_repr ws es -> ws_contents ws = (Ok tt, entry_header <$> es).
Proof.
  intros Hr. unfold ws_contents.
  rewrite (ws_walk_encoded ws es _ (fun e acc => (Ok Continue, acc ++ [entry_header e]))) by
    (try done; intros i e s Hb _; by rewrite (read_entry_encoded _ _ _ Hb)).
  assert (forall acc, foldM (fun e acc => (Ok Continue, acc ++ [entry_header e])) es acc
    = (Ok tt, acc ++ (entry_header <$> es))) as ->; [|done].
  clear Hr. induction es as [|e es IH]; intros acc; cbn [foldM fmap list_fmap].
  - by rewrite app_nil_r.
  - unfold bind. rewrite IH, <- app_assoc. done.
Qed.

(** Round trip of the packed format: after adding an entry, walking the
    buffer yields the earlier entries followed by the new one, in order and
    nothing else, without reading outside the buffer, and the walk terminates. *)
Theorem add_then_walk_roundtrip ws es e :
  ws_repr ws es -> wf_wse e -> sivfs_ws_is_disabled ws = false ->
  ws_size_bytes ws + 8 * Z.of_nat (length (encode_wse e)) < 2 ^ 60 ->
  exists ws', sivfs_add_to_writeset true (encode_wse e)
      (8 * Z.of_nat (length (encode_wse e))) ws = (Ok tt, ws')
    /\ ws_contents ws' = (Ok tt, (entry_header <$> es) ++ [entry_header e]).
Proof.
  intros Hr Hwf Hd Hl.
  destruct (add_entry_repr true ws es e _ Hr Hwf Hd (Z.le_refl _) Hl) as [(ws' & E & Hr')|[? _]];
    [|done].
  exists ws'. split; [done|]. rewrite (ws_contents_repr _ _ Hr'), fmap_app. done.
Qed.

Lemma add_then_walk_roundtrip_witness :
  exists ws', sivfs_add_to_writeset true (encode_wse sample_wse)
      (8 * Z.of_nat (length (encode_wse sample_wse))) ws_init = (Ok tt, ws')
    /\ ws_contents ws' = (Ok tt, (entry_header <$> []) ++ [entry_header sample_wse]).
Proof.
  apply (add_then_walk_roundtrip ws_init [] sample_wse);
    [exact ws_init_repr | vm_compute; done | reflexivity | vm_compute; done].
Defined.

(** Copying into a log entry allocated for exactly this size. *)
Lemma writeset_copy_repr src es dest :
  ws_repr src es -> ws_size_bytes src <= ws_capacity_bytes dest < 2 ^ 62 ->
  ws_capacity_bytes dest / 8 = Z.of_nat (length (ws_entries dest)) ->
  exists dest', sivfs_writeset_copy src dest = (Ok tt, dest') /\ ws_repr dest' es.
Proof.
  intros Hr Hc Ha. pose proof (repr_words _ _ Hr) as Hw. destruct (repr_lens _ _ Hr) as (Hl & ? & ?).
  unfold sivfs_writeset_copy. rewrite (proj2 (Z.ltb_ge _ _)) by lia.
  unfold SIZEOF_WORD. rewrite Hw.
  assert (Hfit : Z.of_nat (length (encode es)) <= Z.of_nat (length (ws_entries dest))).
  { rewrite <- Ha, <- Hw. apply Z.div_le_mono; lia. }
  rewrite copy_words_ok by lia. eexists; split; [done|].
  destruct Hr as [Hs He Hf Hcap _].
  split; cbn [ws_size_bytes ws_capacity_bytes ws_entries]; [done| |done|lia|].
  - change (take (Z.to_nat 0) (ws_entries dest)) with (@nil Z). rewrite app_nil_l, Nat2Z.id, He.
    by rewrite take_app_length.
  - rewrite Ha, Nat2Z.id, Z.add_0_l, Nat2Z.id, !length_app, length_take, length_take, length_drop.
    simpl. lia.
Qed.

(** ** Disabling a write set *)

(** Disabling an empty write set makes every later add a no-op that
    reports success; enabling it again restores the empty write set. *)
Theorem disable_enable_roundtrip ws kz toAdd size :
  ws_size_bytes ws = 0 ->
  exists ws1, sivfs_disable_ws true ws = (Ok tt, ws1)
    /\ sivfs_add_to_writeset kz toAdd size ws1 = (Ok tt, ws1)
    /\ sivfs_disable_ws false ws1 = (Ok tt, ws).
Proof.
  intros H0. unfold sivfs_disable_ws. rewrite H0. simpl.
  eexists; split; [done|]. split; [done|]. destruct ws; simpl in *; by subst.
Qed.

Lemma disable_enable_roundtrip_witness :
  exists ws1, sivfs_disable_ws true ws_init = (Ok tt, ws1)
    /\ sivfs_add_to_writeset true [] 40 ws1 = (Ok tt, ws1)
    /\ sivfs_disable_ws false ws1 = (Ok tt, ws_init).
Proof. apply (disable_enable_roundtrip ws_init true [] 40). reflexivity. Defined.

(** ** Size checks of untrusted entries *)

(** The size check of stream entries is sound: an accepted stream entry
    never extends past the bytes left, so [size_left] does not wrap below zero. *)
Theorem stream_size_check_sound sc size info :
  sc <> 0 -> is_u64 size -> sivfs_wse_to_stream_info sc size = Ok info ->
  sivfs_wse_size info <= size /\ usub size (sivfs_wse_size info) = size - sivfs_wse_size info.
Proof.
  intros Hsc Hsz. unfold sivfs_wse_to_stream_info.
  rewrite (proj2 (Z.eqb_neq _ _) Hsc). cbv zeta.
  destruct (negb (negb (Z.land sc SIVFS_ENTRY_IS_STREAM =? 0))); [done|].
  destruct (Z.land sc (unot SIVFS_STREAM_FLAGS) =? 0); [done|].
  match goal with |- context [size <? sivfs_wse_size ?i] => set (inf := i) end.
  destruct (Z.ltb_spec size (sivfs_wse_size inf)); [done|].
  assert (Hr : is_u64 (sivfs_wse_size inf)) by apply u64_range.
  intros [= <-]. split; [done|]. apply usub_small. u64_lia.
Qed.

Lemma stream_size_check_sound_witness :
  sivfs_wse_size (info_of sample_wse) <= 56 /\
  usub 56 (sivfs_wse_size (info_of sample_wse)) = 56 - sivfs_wse_size (info_of sample_wse).
Proof.
  apply (stream_size_check_sound (e_control sample_wse) 56 (info_of sample_wse));
    [vm_compute; done | vm_compute; done | vm_compute; done].
Defined.

(** The common case of a plain entry skips the size check announced for
    the function: whatever the bytes left, the entry is accepted, and with
    fewer than 40 bytes left the subtraction wraps around to a huge size. *)
Theorem plain_entry_not_size_checked size :
  0 < size < SIVFS_WRITESET_ENTRY_MIN_SIZE ->
  exists info, sivfs_wse_to_stream_info 0 size = Ok info
    /\ size < sivfs_wse_size info
    /\ usub size (sivfs_wse_size info) = two64 + size - 40.
Proof.
  intros Hs. unfold SIVFS_WRITESET_ENTRY_MIN_SIZE in Hs. eexists; split; [done|].
  change (sivfs_wse_size _) with 40. split; [lia|].
  unfold usub, u64. rewrite <- (Z.mod_add _ 1) by done. rewrite Z.mod_small; u64_lia.
Qed.

Lemma plain_entry_not_size_checked_witness :
  exists info, sivfs_wse_to_stream_info 0 8 = Ok info
    /\ 8 < sivfs_wse_size info /\ usub 8 (sivfs_wse_size info) = two64 + 8 - 40.
Proof. apply (plain_entry_not_size_checked 8). vm_compute; done. Defined.

(** A stream control word whose announced length makes the entry size wrap to 0. *)
Definition zero_size_control : Z := Z.lor SIVFS_ENTRY_IS_STREAM (2 ^ 61 - 4).

(** Because the size computation wraps, a stream entry announcing
    [2^61 - 4] words passes the size check with size 0: a walk over a buffer
    whose entry has this control word makes no progress, whatever the fuel. *)
Theorem zero_size_entry_never_advances {S} (getbuf : S -> list Z)
    (body : Z -> sivfs_wse_stream_info -> M S wstep) ent size_left s fuel :
  0 <= ent < 2 ^ 61 -> is_u64 size_left -> size_left <> 0 ->
  (forall s, rd (getbuf s) (ent + 3) = Ok zero_size_control) ->
  (forall info s, exists s', body ent info s = (Ok Continue, s')) ->
  exists s', ws_for_each getbuf body fuel ent size_left s = (OutOfFuel, s').
Proof.
  intros He Hs Hne Hrd Hb. revert s. induction fuel as [|fuel IH]; intros s; [by eexists|].
  cbn [ws_for_each]. rewrite (proj2 (Z.eqb_neq _ _) Hne), Hrd. cbn [rbind].
  assert (Hi : sivfs_wse_to_stream_info zero_size_control size_left
    = Ok (mk_info (2 ^ 61 - 4) (2 ^ 61 - 4) true false)).
  { unfold sivfs_wse_to_stream_info.
    change (sivfs_wse_size _) with 0. rewrite (proj2 (Z.ltb_ge _ _)) by u64_lia. done. }
  rewrite Hi. destruct (Hb (mk_info (2 ^ 61 - 4) (2 ^ 61 - 4) true false) s) as [s1 ->].
  change (sivfs_wse_size _) with 0. unfold ent_advance.
  rewrite Z.div_0_l, Z.add_0_r, Z.mod_small by (done || lia).
  rewrite usub_small, Z.sub_0_r by u64_lia. apply IH.
Qed.

Lemma zero_size_entry_never_advances_witness :
  exists s' : unit, ws_for_each (fun _ : unit => [3; 0; 4096; zero_size_control; 1])
    (fun _ _ s => (Ok Continue, s)) 1000 0 40 tt = (OutOfFuel, s').
Proof.
  apply (zero_size_entry_never_advances (fun _ : unit => [3; 0; 4096; zero_size_control; 1])
    (fun _ _ s => (Ok Continue, s)) 0 40 tt 1000%nat);
    [lia | vm_compute; done | done | intros; reflexivity | intros; eexists; reflexivity].
Defined.
