(* ===== verification/Log.v ===== *)
(** The master log: kern/sivfs_log.h and the log part of
    kern/sivfs_shared_state.c (sequential allocation mode).

    Log entries live at addresses inside chunks obtained from [kmalloc]. The
    heap is explicit: [ls_chunks] maps the start of every live chunk to its
    size and to the "previous chunk" word stored at its beginning, [ls_ents]
    maps addresses to live entries, and freeing a chunk removes every entry
    inside it, so that a dangling access faults. NULL is address 0.
    The results of [kmalloc] and of the radix-tree insertion are arguments. *)
From S2P Require Import Prelude Types RadixTree Writeset.

Record sivfs_log_entry : Type := mk_le {
  le_ts : Z;
  le_ws : sivfs_writeset;
  le_aborted : bool;
  le_commit_status_filled_in : bool;
  le_ws_has_metadata : bool;
  le_first_in_chunk : bool;
  le_prev : option Z;
  le_next : option Z
}.

(** sizeof(struct sivfs_log_entry) and sizeof(void pointer). *)
Definition SIZEOF_LOG_ENTRY : Z := 56.
Definition SIZEOF_PTR : Z := 8.
Definition SIVFS_LOG_CHUNK_SIZE : Z := 1024.
Definition DELETE_BATCH : nat := 128.

Record sivfs_log : Type := mk_log {
  log_latest : option Z;
  log_bytes_remaining_chunk : Z;
  log_chunk_ptr : Z;
  log_chunk_start_ptr : Z
}.

Record chunk : Type := mk_chunk {
  ck_size : Z;
  ck_prev : Z
}.

Record log_state : Type := mk_ls {
  ls_log : sivfs_log;
  ls_cache : gmap Z Z;
  ls_deleted_ts : Z;
  ls_chunks : gmap Z chunk;
  ls_ents : gmap Z sivfs_log_entry
}.

Definition sivfs_init_log : sivfs_log := mk_log None 0 0 0.

Definition init_log_state : log_state := mk_ls sivfs_init_log ∅ 0 ∅ ∅.

Definition set_log (l : sivfs_log) (st : log_state) : log_state :=
  mk_ls l (ls_cache st) (ls_deleted_ts st) (ls_chunks st) (ls_ents st).
Definition set_ents (m : gmap Z sivfs_log_entry) (st : log_state) : log_state :=
  mk_ls (ls_log st) (ls_cache st) (ls_deleted_ts st) (ls_chunks st) m.

(** [memset 0] and [ts = SIVFS_INVALID_TS]. *)
Definition sivfs_init_log_entry : sivfs_log_entry :=
  mk_le SIVFS_INVALID_TS ws_init false false false false None None.

(** Addresses of a chunk. *)
Definition in_chunk (start : Z) (c : chunk) (a : Z) : Prop := start <= a < start + ck_size c.

#[export] Instance in_chunk_dec start c a : Decision (in_chunk start c a).
Proof. unfold in_chunk. apply _. Defined.

(** [kfree] of a chunk: NULL is ignored, freeing an address that is not a live
    chunk (a double free) faults, and the entries inside become inaccessible. *)
Definition kfree_chunk (p : Z) : M log_state unit := fun st =>
  if p =? 0 then (Ok tt, st)
  else
    match ls_chunks st !! p with
    | None => (Fault, st)
    | Some c =>
      (Ok tt, mk_ls (ls_log st) (ls_cache st) (ls_deleted_ts st) (delete p (ls_chunks st))
                (filter (fun '(a, _) => ~ in_chunk p c a) (ls_ents st)))
    end.

(** [log_ent->field], [log_ent->field = ...]. *)
Definition load_ent (p : Z) : M log_state sivfs_log_entry := fun st =>
  (deref (ls_ents st !! p), st).
Definition store_ent (p : Z) (e : sivfs_log_entry) : M log_state unit := fun st =>
  match ls_ents st !! p with
  | Some _ => (Ok tt, set_ents (<[p := e]> (ls_ents st)) st)
  | None => (Fault, st)
  end.

Definition with_prev (q : option Z) (e : sivfs_log_entry) : sivfs_log_entry :=
  mk_le (le_ts e) (le_ws e) (le_aborted e) (le_commit_status_filled_in e)
    (le_ws_has_metadata e) (le_first_in_chunk e) q (le_next e).
Definition with_next (q : option Z) (e : sivfs_log_entry) : sivfs_log_entry :=
  mk_le (le_ts e) (le_ws e) (le_aborted e) (le_commit_status_filled_in e)
    (le_ws_has_metadata e) (le_first_in_chunk e) (le_prev e) q.

(** Choose the chunk for the new entry: (start, next free byte, bytes left). *)
Definition log_pick_chunk (km : option Z) (bytes_to_allocate : Z) : M log_state (Z * Z * Z) :=
  fun st =>
  let log := ls_log st in
  if log_bytes_remaining_chunk log <? bytes_to_allocate then
    let chunk_bytes_to_allocate := uadd bytes_to_allocate SIZEOF_PTR in
    let chunk_real_allocate := Z.max SIVFS_LOG_CHUNK_SIZE chunk_bytes_to_allocate in
    match km with
    | None => (Err ENOMEM, st)
    | Some p =>
      (Ok (p, uadd p SIZEOF_PTR, usub chunk_real_allocate SIZEOF_PTR),
       mk_ls log (ls_cache st) (ls_deleted_ts st)
         (<[p := mk_chunk chunk_real_allocate (log_chunk_start_ptr log)]> (ls_chunks st))
         (ls_ents st))
    end
  else (Ok (log_chunk_start_ptr log, log_chunk_ptr log, log_bytes_remaining_chunk log), st).

(** Insertion of the entry's address under its timestamp. *)
Definition log_cache_insert (ins : bool) (ts p : Z) : M log_state unit := fun st =>
  let '(r, m) := radix_tree_insert ins ts p (ls_cache st) in
  (r, mk_ls (ls_log st) m (ls_deleted_ts st) (ls_chunks st) (ls_ents st)).

Definition sivfs_allocate_log_insert_log_cache (km : option Z) (ins : bool) (ts : Z)
    (ws_bytes : Z) : M log_state Z :=
  let bytes_to_allocate := uadd SIZEOF_LOG_ENTRY ws_bytes in
  let! picked := log_pick_chunk km bytes_to_allocate in
  let '(new_chunk_start_ptr, new_chunk_ptr, new_bytes_remaining_chunk) := picked in
  let log_ent := new_chunk_ptr in
  let ws := mk_ws ws_bytes 0 (replicate (Z.to_nat (ws_bytes / SIZEOF_WORD)) 0) in
  let ent := mk_le SIVFS_INVALID_TS ws false false false
               (log_ent =? uadd new_chunk_start_ptr SIZEOF_PTR) None None in
  do! modify (fun st => set_ents (<[log_ent := ent]> (ls_ents st)) st) in
  fun st =>
  match log_cache_insert ins ts log_ent st with
  | (Ok _, st') =>
    (Ok log_ent,
     set_log (mk_log (log_latest (ls_log st'))
                (usub new_bytes_remaining_chunk bytes_to_allocate)
                (uadd (uadd new_chunk_ptr SIZEOF_LOG_ENTRY) ws_bytes)
                new_chunk_start_ptr) st')
  | (Err e, st') =>
    match kfree_chunk new_chunk_start_ptr st' with
    | (Ok _, st'') => (Err e, st'')
    | (_, st'') => (Fault, st'')
    end
  | (_, st') => (Fault, st')
  end.

(** Allocation, then the doubly linked list of the log. [log_writeset] only
    contributes the size of its write set. *)
Definition sivfs_create_log_entry (km : option Z) (ins : bool) (ts : Z)
    (log_writeset : sivfs_log_entry) : M log_state Z :=
  let! log := sivfs_allocate_log_insert_log_cache km ins ts (ws_size_bytes (le_ws log_writeset)) in
  let! prev_master := gets (fun st => log_latest (ls_log st)) in
  let! e := load_ent log in
  do! store_ent log (with_prev prev_master e) in
  do! match prev_master with
      | None => ret tt
      | Some p =>
        let! pe := load_ent p in
        store_ent p (with_next (Some log) pe)
      end in
  do! modify (fun st =>
        let l := ls_log st in
        set_log (mk_log (Some log) (log_bytes_remaining_chunk l) (log_chunk_ptr l)
                   (log_chunk_start_ptr l)) st) in
  ret log.

(** ** Deleting old entries (sivfs_delete_log) *)

(** The first entry of a chunk frees the previous chunk. *)
Definition free_prev_chunk (p : Z) : M log_state unit :=
  let! e := load_ent p in
  if le_first_in_chunk e then
    fun st =>
    match ls_chunks st !! (p - SIZEOF_PTR) with
    | Some c => kfree_chunk (ck_prev c) st
    | None => (Fault, st)
    end
  else ret tt.

Fixpoint mapM_ {S A} (f : A -> M S unit) (l : list A) : M S unit :=
  match l with
  | [] => ret tt
  | a :: l => do! f a in mapM_ f l
  end.

(** The iteration stops at the first index that is not below [stop_ts]. *)
Fixpoint take_below (stop_ts : Z) (l : list (Z * Z)) : list (Z * Z) :=
  match l with
  | [] => []
  | kv :: l => if stop_ts <=? kv.1 then [] else kv :: take_below stop_ts l
  end.

(** One pass under the commit lock: at most [DELETE_BATCH] entries below [stop_ts]. *)
Definition delete_candidates (stop_ts : Z) (m : gmap Z Z) : list (Z * Z) :=
  take DELETE_BATCH (take_below stop_ts (map_items m)).

Definition delete_log_pass (stop_ts : Z) : M log_state nat := fun st =>
  let batch := delete_candidates stop_ts (ls_cache st) in
  (do! mapM_ (fun kv => free_prev_chunk kv.2) batch in
   do! modify (fun st => mk_ls (ls_log st) (foldl (fun m kv => delete kv.1 m) (ls_cache st) batch)
                 (ls_deleted_ts st) (ls_chunks st) (ls_ents st)) in
   ret (length batch)) st.

Fixpoint delete_log_loop (fuel : nat) (stop_ts : Z) (did_delete : bool) : M log_state bool :=
  match fuel with
  | O => lift OutOfFuel
  | S fuel =>
    let! nr := delete_log_pass stop_ts in
    match nr with
    | O => ret did_delete
    | S _ => delete_log_loop fuel stop_ts true
    end
  end.

Definition sivfs_delete_log (stop_ts : Z) : M log_state bool := fun st =>
  (let! did := delete_log_loop (S (size (ls_cache st))) stop_ts false in
   do! (if stop_ts =? SIVFS_INVALID_TS then
          let! start := gets (fun st => log_chunk_start_ptr (ls_log st)) in
          do! modify (fun st => set_log (mk_log (log_latest (ls_log st)) 0
                 (log_chunk_ptr (ls_log st)) (log_chunk_start_ptr (ls_log st))) st) in
          kfree_chunk start
        else ret tt) in
   do! modify (fun st => mk_ls (ls_log st) (ls_cache st) stop_ts (ls_chunks st) (ls_ents st)) in
   ret did) st.

(** NULL when there is no entry at [ts]. *)
Definition sivfs_ts_to_log_entry (ts ts_start ts_stop : Z) (st : log_state) : res (option Z) :=
  if ts_start <? ls_deleted_ts st then Err ENOMEM
  else Ok (ls_cache st !! ts).

(** ** The heap invariant of the log *)

Definition ent_end (p : Z) (e : sivfs_log_entry) : Z :=
  p + SIZEOF_LOG_ENTRY + ws_capacity_bytes (le_ws e).

(** [t] is in the cache, first in its chunk, and its chunk points back to [q]. *)
Definition first_prev (st : log_state) (t p q : Z) : Prop :=
  exists e c, ls_cache st !! t = Some p /\ ls_ents st !! p = Some e /\
    le_first_in_chunk e = true /\ ls_chunks st !! (p - SIZEOF_PTR) = Some c /\ ck_prev c = q /\ q <> 0.

Record log_heap_inv (st : log_state) : Prop := {
  lh_chunk_ok : forall s c, ls_chunks st !! s = Some c ->
    0 < s /\ SIZEOF_PTR <= ck_size c /\ s + ck_size c < 2 ^ 63;
  lh_chunks_disjoint : forall s1 s2 c1 c2,
    ls_chunks st !! s1 = Some c1 -> ls_chunks st !! s2 = Some c2 ->
    s1 < s2 -> s1 + ck_size c1 <= s2;
  lh_ent_chunk : forall p e, ls_ents st !! p = Some e ->
    0 <= ws_capacity_bytes (le_ws e) /\
    exists s c, ls_chunks st !! s = Some c /\ s + SIZEOF_PTR <= p /\ ent_end p e <= s + ck_size c;
  lh_ents_disjoint : forall p1 p2 e1 e2,
    ls_ents st !! p1 = Some e1 -> ls_ents st !! p2 = Some e2 -> p1 < p2 -> ent_end p1 e1 <= p2;
  lh_cache_live : forall t p, ls_cache st !! t = Some p -> is_Some (ls_ents st !! p);
  lh_cache_inj : forall t1 t2 p, ls_cache st !! t1 = Some p -> ls_cache st !! t2 = Some p -> t1 = t2;
  lh_first : forall p e, ls_ents st !! p = Some e -> le_first_in_chunk e = true ->
    is_Some (ls_chunks st !! (p - SIZEOF_PTR));
  lh_prev : forall t p q, first_prev st t p q ->
    q <> log_chunk_start_ptr (ls_log st) /\
    exists c, ls_chunks st !! q = Some c /\
      forall t' p', ls_cache st !! t' = Some p' -> in_chunk q c p' -> t' < t;
  lh_prev_inj : forall t1 t2 p1 p2 q, first_prev st t1 p1 q -> first_prev st t2 p2 q -> t1 = t2;
  lh_current :
    (log_chunk_start_ptr (ls_log st) = 0 /\ log_bytes_remaining_chunk (ls_log st) = 0) \/
    exists c, ls_chunks st !! log_chunk_start_ptr (ls_log st) = Some c /\
      log_chunk_start_ptr (ls_log st) + SIZEOF_PTR < log_chunk_ptr (ls_log st) /\
      log_chunk_ptr (ls_log st) + log_bytes_remaining_chunk (ls_log st)
        = log_chunk_start_ptr (ls_log st) + ck_size c /\
      0 <= log_bytes_remaining_chunk (ls_log st) /\
      forall p e, ls_ents st !! p = Some e ->
        in_chunk (log_chunk_start_ptr (ls_log st)) c p -> ent_end p e <= log_chunk_ptr (ls_log st)
}.

(** The latest entry is live and lies in the current chunk. *)
Definition latest_live (st : log_state) : Prop :=
  forall p, log_latest (ls_log st) = Some p ->
    is_Some (ls_ents st !! p) /\
    exists c, ls_chunks st !! log_chunk_start_ptr (ls_log st) = Some c /\
      in_chunk (log_chunk_start_ptr (ls_log st)) c p.

Definition log_inv (st : log_state) : Prop := log_heap_inv st /\ latest_live st.

Lemma init_log_inv : log_inv init_log_state.
Proof.
  split; [|done]. split; try (intros; simpl in *; by rewrite lookup_empty in *).
  - intros t p q (e & c & H & _); simpl in H; by rewrite lookup_empty in H.
  - intros t1 t2 p1 p2 q (e & c & H & _); simpl in H; by rewrite lookup_empty in H.
  - by left.
Qed.

(** Chunks that share an address are the same chunk. *)
Lemma chunk_unique st s1 s2 c1 c2 a : log_heap_inv st ->
  ls_chunks st !! s1 = Some c1 -> ls_chunks st !! s2 = Some c2 ->
  in_chunk s1 c1 a -> in_chunk s2 c2 a -> s1 = s2.
Proof.
  intros Hi H1 H2 A1 A2. unfold in_chunk in *.
  destruct (Z.lt_trichotomy s1 s2) as [L|[L|L]]; [|done|].
  - pose proof (lh_chunks_disjoint _ Hi _ _ _ _ H1 H2 L). lia.
  - pose proof (lh_chunks_disjoint _ Hi _ _ _ _ H2 H1 L). lia.
Qed.

(** Changing the links or the commit status of a live entry. *)
Lemma update_ent_inv st p e e' : log_heap_inv st -> ls_ents st !! p = Some e ->
  ws_capacity_bytes (le_ws e') = ws_capacity_bytes (le_ws e) ->
  le_first_in_chunk e' = le_first_in_chunk e ->
  log_heap_inv (set_ents (<[p := e']> (ls_ents st)) st).
Proof.
  intros Hi He Hcap Hfirst.
  assert (Hback : forall q x, <[p := e']> (ls_ents st) !! q = Some x ->
    exists y, ls_ents st !! q = Some y /\ ws_capacity_bytes (le_ws x) = ws_capacity_bytes (le_ws y)
      /\ le_first_in_chunk x = le_first_in_chunk y).
  { intros q x. rewrite lookup_insert. case_decide; intros; simplify_eq; eauto. }
  assert (Hfp : forall t p' q, first_prev (set_ents (<[p := e']> (ls_ents st)) st) t p' q ->
    first_prev st t p' q).
  { intros t p' q (x & c & ? & Hx & ? & ?). apply Hback in Hx as (y & ? & _ & ?).
    exists y, c. split_and!; try done; try congruence; tauto. }
  split; cbn [ls_ents ls_chunks ls_cache ls_log set_ents].
  - apply Hi.
  - apply Hi.
  - intros q x Hx. apply Hback in Hx as (y & Hy & Hc & _).
    unfold ent_end. rewrite Hc. by apply (lh_ent_chunk _ Hi).
  - intros p1 p2 x1 x2 H1 H2 L. apply Hback in H1 as (y1 & H1 & Hc & _).
    apply Hback in H2 as (y2 & H2 & _ & _). unfold ent_end. rewrite Hc.
    by apply (lh_ents_disjoint _ Hi p1 p2 y1 y2).
  - intros t q Hq. rewrite lookup_insert. case_decide; [eauto|]. by eapply lh_cache_live.
  - apply Hi.
  - intros q x Hx Hf. apply Hback in Hx as (y & Hy & _ & Hf'). eapply (lh_first _ Hi); [done|congruence].
  - intros t q0 q Hp. apply Hfp in Hp. by apply (lh_prev _ Hi) in Hp.
  - intros t1 t2 p1 p2 q H1 H2. apply Hfp in H1, H2. by eapply (lh_prev_inj _ Hi).
  - destruct (lh_current _ Hi) as [?|(c & ? & ? & ? & ? & Hall)]; [by left|right].
    exists c. split_and!; try done. intros q x Hx Hin. apply Hback in Hx as (y & Hy & Hc & _).
    unfold ent_end. rewrite Hc. by apply Hall.
Qed.

(** ** Creating an entry *)

(** What [kmalloc] guarantees of a new chunk of [n] bytes at [p]. *)
Definition fresh_chunk (st : log_state) (p n : Z) : Prop :=
  0 < p /\ p + n < 2 ^ 63 /\
  forall s c, ls_chunks st !! s = Some c -> s + ck_size c <= p \/ p + n <= s.

Definition new_chunk_bytes (ws_bytes : Z) : Z :=
  Z.max SIVFS_LOG_CHUNK_SIZE (SIZEOF_LOG_ENTRY + ws_bytes + SIZEOF_PTR).

Definition set_chunks (m : gmap Z chunk) (st : log_state) : log_state :=
  mk_ls (ls_log st) (ls_cache st) (ls_deleted_ts st) m (ls_ents st).

Lemma fresh_chunk_None st p n : log_heap_inv st -> 0 < n -> fresh_chunk st p n ->
  ls_chunks st !! p = None.
Proof.
  intros Hi Hn (Hp & _ & Hf). destruct (ls_chunks st !! p) as [c|] eqn:E; [|done].
  pose proof (Hf _ _ E). pose proof (lh_chunk_ok _ Hi _ _ E). unfold SIZEOF_PTR in *. lia.
Qed.

Lemma add_chunk_inv st p n q : log_heap_inv st -> SIZEOF_PTR <= n -> fresh_chunk st p n ->
  log_heap_inv (set_chunks (<[p := mk_chunk n q]> (ls_chunks st)) st).
Proof.
  intros Hi Hn Hf. unfold SIZEOF_PTR in Hn.
  pose proof (fresh_chunk_None st p n Hi ltac:(lia) Hf) as Hnone.
  assert (Hold : forall s c, ls_chunks st !! s = Some c ->
    <[p := mk_chunk n q]> (ls_chunks st) !! s = Some c).
  { intros s c Hs. rewrite lookup_insert_ne; [done|congruence]. }
  assert (Hfp : forall t p' q', first_prev (set_chunks (<[p := mk_chunk n q]> (ls_chunks st)) st) t p' q' ->
    first_prev st t p' q').
  { intros t p' q' (e & c & Hc & He & Hfi & Hck & H). destruct (lh_first _ Hi _ _ He Hfi) as [c' Hc'].
    simpl in Hck. rewrite (Hold _ _ Hc') in Hck. simplify_eq. exists e, c. tauto. }
  destruct Hf as (Hp & Hlim & Hdisj).
  split; cbn [ls_ents ls_chunks ls_cache ls_log set_chunks].
  - intros s c. rewrite lookup_insert. case_decide; intros; simplify_eq; simpl.
    + unfold SIZEOF_PTR. lia.
    + by apply Hi.
  - intros s1 s2 c1 c2. rewrite !lookup_insert.
    repeat case_decide; intros H1 H2 L; simplify_eq; simpl; [lia| | |].
    + pose proof (Hdisj _ _ H2). pose proof (lh_chunk_ok _ Hi _ _ H2). unfold SIZEOF_PTR in *. lia.
    + pose proof (Hdisj _ _ H1). pose proof (lh_chunk_ok _ Hi _ _ H1). unfold SIZEOF_PTR in *. lia.
    + by apply (lh_chunks_disjoint _ Hi s1 s2 c1 c2).
  - intros p' e He. destruct (lh_ent_chunk _ Hi _ _ He) as (? & s & c & Hs & ?). eauto 10.
  - apply Hi.
  - apply Hi.
  - apply Hi.
  - intros p' e He Hfi. destruct (lh_first _ Hi _ _ He Hfi). eauto.
  - intros t p' q' Hq. apply Hfp in Hq. destruct (lh_prev _ Hi _ _ _ Hq) as (? & c & ? & ?). eauto.
  - intros t1 t2 p1 p2 q' H1 H2. apply Hfp in H1, H2. by eapply (lh_prev_inj _ Hi).
  - destruct (lh_current _ Hi) as [?|(c & ? & ?)]; [by left|right]. exists c. split; [|tauto]. by apply Hold.
Qed.

(** Placing an entry in the free space [a, a + 56 + wb) of chunk [s]. *)
Definition place_entry (ts s a wb rem : Z) (ent : sivfs_log_entry) (st : log_state) : log_state :=
  mk_ls (mk_log (log_latest (ls_log st)) rem (a + SIZEOF_LOG_ENTRY + wb) s)
    (<[ts := a]> (ls_cache st)) (ls_deleted_ts st) (ls_chunks st) (<[a := ent]> (ls_ents st)).

Section place.
Context (st : log_state) (ts s a wb rem : Z) (c : chunk) (ent : sivfs_log_entry).
Context (Hi : log_heap_inv st).
Context (Hc : ls_chunks st !! s = Some c) (Ha : s + SIZEOF_PTR <= a) (Hwb : 0 <= wb) (Hrem : 0 <= rem).
Context (Hfit : a + SIZEOF_LOG_ENTRY + wb + rem = s + ck_size c).
Context (Hfree : forall p e, ls_ents st !! p = Some e -> in_chunk s c p -> ent_end p e <= a).
Context (Hts : forall t p, ls_cache st !! t = Some p -> t < ts).
Context (Hcap : ws_capacity_bytes (le_ws ent) = wb).
Context (Hfirst : le_first_in_chunk ent = true -> a = s + SIZEOF_PTR).
Context (Hnotprev : forall t p q, first_prev st t p q -> q <> s).
Context (Hprev : a = s + SIZEOF_PTR -> ck_prev c = 0 \/
  (is_Some (ls_chunks st !! ck_prev c) /\ ck_prev c <> s /\ forall t p, ~ first_prev st t p (ck_prev c))).

Lemma place_fresh : ls_ents st !! a = None.
Proof using Hi Hc Ha Hwb Hrem Hfit Hfree.
  destruct (ls_ents st !! a) as [e|] eqn:E; [|done].
  pose proof (Hfree a e E). destruct (lh_ent_chunk _ Hi _ _ E) as [? _].
  unfold ent_end, in_chunk, SIZEOF_PTR, SIZEOF_LOG_ENTRY in *. lia.
Qed.

Lemma place_first_prev t p q : first_prev (place_entry ts s a wb rem ent st) t p q ->
  (t <> ts /\ first_prev st t p q) \/
  (t = ts /\ p = a /\ a = s + SIZEOF_PTR /\ q = ck_prev c /\ q <> 0).
Proof using All.
  intros (e & c' & Ht & He & Hfi & Hck & Hq & Hnz). simpl in *.
  rewrite lookup_insert in Ht. case_decide as Et.
  - simplify_eq. right. rewrite lookup_insert_eq in He. simplify_eq.
    split_and!; auto. rewrite (Hfirst Hfi) in Hck. replace (s + SIZEOF_PTR - SIZEOF_PTR) with s in Hck by lia.
    congruence.
  - left. split; [done|]. assert (p <> a).
    { intros ->. destruct (lh_cache_live _ Hi _ _ Ht) as [x Hx]. by rewrite place_fresh in Hx. }
    rewrite lookup_insert_ne in He by done. exists e, c'. split_and!; auto.
Qed.

Lemma place_entry_inv : log_heap_inv (place_entry ts s a wb rem ent st).
Proof using All.
  pose proof place_fresh as Hnone. pose proof (lh_chunk_ok _ Hi _ _ Hc) as Hcok.
  assert (Hdis : forall p e, ls_ents st !! p = Some e ->
    (p < a -> ent_end p e <= a) /\ (a < p -> a + SIZEOF_LOG_ENTRY + wb <= p)).
  { intros p e He. destruct (lh_ent_chunk _ Hi _ _ He) as (Hcap0 & s' & c' & Hs' & Hlo & Hhi).
    pose proof (lh_chunk_ok _ Hi _ _ Hs'). pose proof (Hfree p e He) as Hf.
    unfold in_chunk, ent_end, SIZEOF_PTR, SIZEOF_LOG_ENTRY in *.
    destruct (Z.lt_trichotomy s s') as [L|[L|L]].
    - pose proof (lh_chunks_disjoint _ Hi _ _ _ _ Hc Hs' L). lia.
    - subst s'. simplify_eq. lia.
    - pose proof (lh_chunks_disjoint _ Hi _ _ _ _ Hs' Hc L). lia. }
  split; cbn [ls_ents ls_chunks ls_cache ls_log place_entry log_chunk_start_ptr
              log_bytes_remaining_chunk log_chunk_ptr].
  - apply Hi.
  - apply Hi.
  - intros p e. rewrite lookup_insert. case_decide as E; intros He; [|by apply (lh_ent_chunk _ Hi)].
    simplify_eq. split; [done|]. exists s, c. unfold ent_end in *. split_and!; try done; lia.
  - intros p1 p2 e1 e2. rewrite !lookup_insert.
    repeat case_decide; intros H1 H2 L; simplify_eq; try lia.
    + apply Hdis in H2 as [_ H2]. unfold ent_end. lia.
    + by apply Hdis in H1 as [H1 _]; apply H1.
    + by apply (lh_ents_disjoint _ Hi p1 p2 e1 e2).
  - intros t p. rewrite !lookup_insert. repeat case_decide; intros; simplify_eq; eauto.
    by eapply lh_cache_live.
  - intros t1 t2 p. rewrite !lookup_insert.
    repeat case_decide; intros H1 H2; simplify_eq; try done.
    + destruct (lh_cache_live _ Hi _ _ H2) as [x Hx]. congruence.
    + destruct (lh_cache_live _ Hi _ _ H1) as [x Hx]. congruence.
    + by eapply (lh_cache_inj _ Hi).
  - intros p e. rewrite lookup_insert. case_decide as E; intros He Hfi; [|by eapply (lh_first _ Hi)].
    simplify_eq. rewrite (Hfirst Hfi). replace (s + SIZEOF_PTR - SIZEOF_PTR) with s by lia. eauto.
  - intros t p q Hp. apply place_first_prev in Hp as [[Hne Hp]|(-> & -> & Ea & -> & Hnz)].
    + split; [by eapply Hnotprev|]. destruct (lh_prev _ Hi _ _ _ Hp) as (_ & c' & Hc' & Hlt).
      exists c'. split; [done|]. intros t' p'. rewrite lookup_insert. case_decide; [|by apply Hlt].
      intros [= <-] Hin. exfalso. eapply Hnotprev; [exact Hp|].
      apply (chunk_unique st _ _ c' c a); try done.
      unfold in_chunk, SIZEOF_PTR, SIZEOF_LOG_ENTRY in *. lia.
    + destruct (Hprev Ea) as [?|([c' Hc'] & Hns & _)]; [done|]. split; [done|].
      exists c'. split; [done|]. intros t' p'. rewrite lookup_insert. case_decide.
      * intros [= <-] Hin. exfalso. apply Hns. apply (chunk_unique st _ _ c' c a); try done.
        unfold in_chunk, SIZEOF_PTR, SIZEOF_LOG_ENTRY in *. lia.
      * intros Ht' _. by eapply Hts.
  - intros t1 t2 p1 p2 q H1 H2.
    apply place_first_prev in H1 as [[? H1]|(-> & _ & Ea & Hq1 & Hnz)];
    apply place_first_prev in H2 as [[? H2]|(-> & _ & Ea' & Hq2 & Hnz')]; try done.
    + by eapply (lh_prev_inj _ Hi).
    + subst q. destruct (Hprev Ea') as [?|(_ & _ & Hno)]; [done|]. by apply Hno in H1.
    + subst q. destruct (Hprev Ea) as [?|(_ & _ & Hno)]; [done|]. by apply Hno in H2.
  - right. exists c. unfold ent_end, SIZEOF_PTR, SIZEOF_LOG_ENTRY in *. split_and!; try done; try lia.
    intros p e. rewrite lookup_insert. case_decide; intros; simplify_eq; [lia|].
    pose proof (Hfree p e ltac:(done) ltac:(done)). lia.
Qed.
End place.

Definition blank_entry (wb : Z) (first : bool) : sivfs_log_entry :=
  mk_le SIVFS_INVALID_TS (mk_ws wb 0 (replicate (Z.to_nat (wb / SIZEOF_WORD)) 0))
    false false false first None None.

Definition in_current_chunk (st : log_state) (a : Z) : Prop :=
  exists c, ls_chunks st !! log_chunk_start_ptr (ls_log st) = Some c /\
    in_chunk (log_chunk_start_ptr (ls_log st)) c a.

(** The result of a successful allocation. *)
Record allocated (st st' : log_state) (ts a wb : Z) : Prop := {
  al_inv : log_heap_inv st';
  al_fresh : ls_ents st !! a = None;
  al_ents : exists first, ls_ents st' = <[a := blank_entry wb first]> (ls_ents st);
  al_cache : ls_cache st' = <[ts := a]> (ls_cache st);
  al_latest : log_latest (ls_log st') = log_latest (ls_log st);
  al_deleted : ls_deleted_ts st' = ls_deleted_ts st;
  al_current : in_current_chunk st' a
}.

Section allocate.
Context (st : log_state) (ts wb : Z).
Context (Hi : log_heap_inv st) (Hwb : 0 <= wb < 2 ^ 62).
Context (Hts : forall t p, ls_cache st !! t = Some p -> t < ts).

Lemma cache_free : ls_cache st !! ts = None.
Proof using Hts. destruct (ls_cache st !! ts) eqn:E; [|done]. apply Hts in E. lia. Qed.

(** The tail of the allocation, given the picked chunk. *)
Lemma allocate_placed st1 s a r c :
  log_heap_inv st1 -> ls_log st1 = ls_log st -> ls_cache st1 = ls_cache st ->
  ls_ents st1 = ls_ents st -> ls_deleted_ts st1 = ls_deleted_ts st ->
  ls_chunks st1 !! s = Some c -> s + SIZEOF_PTR <= a -> SIZEOF_LOG_ENTRY + wb <= r ->
  a + r = s + ck_size c ->
  (forall p e, ls_ents st1 !! p = Some e -> in_chunk s c p -> ent_end p e <= a) ->
  (forall t p q, first_prev st1 t p q -> q <> s) ->
  (a = s + SIZEOF_PTR -> ck_prev c = 0 \/
    (is_Some (ls_chunks st1 !! ck_prev c) /\ ck_prev c <> s /\ forall t p, ~ first_prev st1 t p (ck_prev c))) ->
  exists st', allocated st st' ts a wb /\
    forall km, log_pick_chunk km (SIZEOF_LOG_ENTRY + wb) st = (Ok (s, a, r), st1) ->
      sivfs_allocate_log_insert_log_cache km true ts wb st = (Ok a, st').
Proof using All.
  intros Hi1 El Ec Ee Ed Hc Ha Hr Har Hfree Hnp Hprev.
  pose proof (lh_chunk_ok _ Hi1 _ _ Hc) as Hok.
  set (ent := blank_entry wb (a =? s + SIZEOF_PTR)).
  exists (place_entry ts s a wb (r - (SIZEOF_LOG_ENTRY + wb)) ent st1).
  unfold SIZEOF_LOG_ENTRY, SIZEOF_PTR in *. split.
  - split; cbn [place_entry ls_ents ls_cache ls_log log_latest ls_deleted_ts].
    + apply (place_entry_inv st1 ts s a wb _ c ent); unfold SIZEOF_LOG_ENTRY, SIZEOF_PTR; try done; try lia.
      * rewrite Ec. exact Hts.
      * by intros H%Z.eqb_eq.
    + rewrite <- Ee. apply (place_fresh st1 s a wb (r - (56 + wb)) c);
        unfold SIZEOF_LOG_ENTRY, SIZEOF_PTR; try done; lia.
    + rewrite Ee. by eexists.
    + by rewrite Ec.
    + by rewrite El.
    + done.
    + exists c. simpl. unfold in_chunk. split; [done|]. lia.
  - intros km Hpick. unfold sivfs_allocate_log_insert_log_cache, SIZEOF_LOG_ENTRY.
    rewrite uadd_small by u64_lia. rewrite (bind_step _ _ _ _ _ Hpick).
    cbv beta iota zeta. unfold bind at 1, modify.
    unfold log_cache_insert, radix_tree_insert. cbn [set_ents ls_cache radix_tree_lookup radix_gmap].
    rewrite Ec, cache_free. unfold place_entry, set_log, set_ents; simpl.
    unfold SIZEOF_PTR.
    rewrite usub_small, (uadd_small a 56), (uadd_small (a + 56)), (uadd_small s) by u64_lia.
    by rewrite Ec.
Qed.

Lemma allocate_ok km :
  (forall p, km = Some p -> fresh_chunk st p (new_chunk_bytes wb)) ->
  (exists a st', sivfs_allocate_log_insert_log_cache km true ts wb st = (Ok a, st')
     /\ allocated st st' ts a wb)
  \/ (km = None /\ sivfs_allocate_log_insert_log_cache km true ts wb st = (Err ENOMEM, st)).
Proof using All.
  intros Hkm. destruct (Z.ltb_spec (log_bytes_remaining_chunk (ls_log st)) (56 + wb)) as [Hlt|Hge].
  - destruct km as [p|].
    + left. specialize (Hkm p eq_refl) as Hfr.
      set (n := new_chunk_bytes wb) in *.
      assert (Hn : 1024 <= n /\ 64 + wb <= n) by
        (unfold n, new_chunk_bytes, SIVFS_LOG_CHUNK_SIZE, SIZEOF_LOG_ENTRY, SIZEOF_PTR; lia).
      set (c := mk_chunk n (log_chunk_start_ptr (ls_log st))).
      set (st1 := set_chunks (<[p := c]> (ls_chunks st)) st).
      assert (Hi1 : log_heap_inv st1) by (apply add_chunk_inv; [done|unfold SIZEOF_PTR; lia|done]).
      pose proof (fresh_chunk_None st p n Hi ltac:(lia) Hfr) as Hnone.
      assert (Hlive : forall t p' q, first_prev st1 t p' q -> is_Some (ls_chunks st !! q) /\ q <> log_chunk_start_ptr (ls_log st)).
      { intros t p' q (e & c' & Hc' & He & Hfi & Hck & Hq).
        destruct (lh_first _ Hi _ _ He Hfi) as [c2 Hc2].
        simpl in Hck. rewrite lookup_insert_ne in Hck by congruence.
        destruct (lh_prev _ Hi t p' q) as (? & c3 & ? & _); [|by eauto].
        exists e, c'. tauto. }
      assert (Hpick : log_pick_chunk (Some p) (56 + wb) st = (Ok (p, p + 8, n - 8), st1)).
      { unfold log_pick_chunk. rewrite (proj2 (Z.ltb_lt _ _)) by done. destruct Hfr as (? & ? & _).
        unfold SIZEOF_PTR. rewrite (uadd_small (56 + wb)), (uadd_small p) by u64_lia.
        replace (Z.max SIVFS_LOG_CHUNK_SIZE (56 + wb + 8)) with n by reflexivity.
        by rewrite usub_small by u64_lia. }
      destruct (allocate_placed st1 p (p + 8) (n - 8) c) as (st' & Hal & Hrun);
        unfold SIZEOF_PTR, SIZEOF_LOG_ENTRY; try done; try lia; eauto.
      * apply lookup_insert_eq.
      * simpl. lia.
      * intros p' e He Hin. exfalso. destruct (lh_ent_chunk _ Hi _ _ He) as (? & s' & c' & Hs' & ? & ?).
        pose proof (proj2 (proj2 Hfr) _ _ Hs'). unfold in_chunk, ent_end, SIZEOF_PTR, SIZEOF_LOG_ENTRY in *.
        simpl in *. lia.
      * intros t p' q Hq ->. destruct (Hlive _ _ _ Hq) as [[? ?] _]. congruence.
      * intros _. simpl. destruct (lh_current _ Hi) as [[-> _]|(c' & Hc' & _)]; [by left|right].
        assert (p <> log_chunk_start_ptr (ls_log st)) by congruence.
        split; [rewrite lookup_insert_ne by done; eauto|]. split; [done|].
        intros t p' Hp'. by destruct (Hlive _ _ _ Hp').
    + right. split; [done|]. unfold sivfs_allocate_log_insert_log_cache, SIZEOF_LOG_ENTRY.
      rewrite uadd_small by u64_lia. unfold bind, log_pick_chunk.
      by rewrite (proj2 (Z.ltb_lt _ _)) by done.
  - left. destruct (lh_current _ Hi) as [[_ H0]|(c & Hc & Hlo & Hfit & Hrem & Hfree)]; [lia|].
    assert (Hpick : forall k, log_pick_chunk k (56 + wb) st = (Ok (log_chunk_start_ptr (ls_log st),
      log_chunk_ptr (ls_log st), log_bytes_remaining_chunk (ls_log st)), st)).
    { intros k. unfold log_pick_chunk. by rewrite (proj2 (Z.ltb_ge _ _)) by done. }
    destruct (allocate_placed st (log_chunk_start_ptr (ls_log st)) (log_chunk_ptr (ls_log st))
      (log_bytes_remaining_chunk (ls_log st)) c) as (st' & Hal & Hrun);
      unfold SIZEOF_LOG_ENTRY in *; try done; try lia; eauto.
    + intros t p q Hq. by destruct (lh_prev _ Hi _ _ _ Hq).
Qed.
End allocate.

(** The result of a successful creation: a blank entry linked after the old
    latest one, which is otherwise unchanged. *)
Record created (st st' : log_state) (ts a wb : Z) : Prop := {
  cr_inv : log_inv st';
  cr_fresh : ls_ents st !! a = None;
  cr_new : exists first, ls_ents st' !! a = Some (with_prev (log_latest (ls_log st)) (blank_entry wb first));
  cr_old : forall p, p <> a -> ls_ents st' !! p =
    (if decide (log_latest (ls_log st) = Some p) then with_next (Some a) <$> ls_ents st !! p
     else ls_ents st !! p);
  cr_cache : ls_cache st' = <[ts := a]> (ls_cache st);
  cr_latest : log_latest (ls_log st') = Some a;
  cr_deleted : ls_deleted_ts st' = ls_deleted_ts st
}.

Lemma load_ent_ok p st e : ls_ents st !! p = Some e -> load_ent p st = (Ok e, st).
Proof. intros H. unfold load_ent. by rewrite H. Qed.

Lemma store_ent_ok p st e e' : ls_ents st !! p = Some e ->
  store_ent p e' st = (Ok tt, set_ents (<[p := e']> (ls_ents st)) st).
Proof. intros H. unfold store_ent. by rewrite H. Qed.

Lemma create_ok st ts km lw :
  log_inv st -> 0 <= ws_size_bytes (le_ws lw) < 2 ^ 62 ->
  (forall t p, ls_cache st !! t = Some p -> t < ts) ->
  (forall p, km = Some p -> fresh_chunk st p (new_chunk_bytes (ws_size_bytes (le_ws lw)))) ->
  (exists a st', sivfs_create_log_entry km true ts lw st = (Ok a, st')
     /\ created st st' ts a (ws_size_bytes (le_ws lw)))
  \/ (km = None /\ sivfs_create_log_entry km true ts lw st = (Err ENOMEM, st)).
Proof.
  intros [Hi Hlat] Hwb Hts Hkm. unfold sivfs_create_log_entry.
  destruct (allocate_ok st ts (ws_size_bytes (le_ws lw)) Hi Hwb Hts km Hkm)
    as [(a & st1 & E & [Hi1 Hfr [first He1] Hc1 Hl1 Hd1 Hcur1])|[-> E]];
    [left|right; split; [done|by rewrite (bind_err _ _ _ _ _ E)]].
  set (wb := ws_size_bytes (le_ws lw)) in *.
  set (e2 := with_prev (log_latest (ls_log st)) (blank_entry wb first)).
  set (st2 := set_ents (<[a := e2]> (ls_ents st1)) st1).
  assert (Ha1 : ls_ents st1 !! a = Some (blank_entry wb first)) by (rewrite He1; apply lookup_insert_eq).
  assert (Hi2 : log_heap_inv st2) by (by apply (update_ent_inv _ _ _ e2 Hi1 Ha1)).
  rewrite (bind_step _ _ _ _ _ E), (bind_step (gets _) _ st1 _ st1 eq_refl).
  rewrite (bind_step _ _ _ _ _ (load_ent_ok _ _ _ Ha1)), Hl1.
  rewrite (bind_step _ _ _ _ _ (store_ent_ok _ _ _ e2 Ha1)). fold st2.
  assert (Hfin : forall st3, log_heap_inv st3 -> ls_log st3 = ls_log st1 -> ls_cache st3 = ls_cache st1 ->
    ls_chunks st3 = ls_chunks st1 -> ls_deleted_ts st3 = ls_deleted_ts st1 ->
    ls_ents st3 !! a = Some e2 ->
    (forall p, p <> a -> ls_ents st3 !! p = if decide (log_latest (ls_log st) = Some p)
       then with_next (Some a) <$> ls_ents st !! p else ls_ents st !! p) ->
    created st (set_log (mk_log (Some a) (log_bytes_remaining_chunk (ls_log st3))
      (log_chunk_ptr (ls_log st3)) (log_chunk_start_ptr (ls_log st3))) st3) ts a wb).
  { intros st3 Hi3 El Ec Eck Ed Ea Eo. split; simpl; try done; try congruence; eauto.
    split.
    - destruct Hi3. split; try done.
    - intros p [= <-]. simpl. rewrite El, Eck. split; [eauto|done]. }
  destruct (log_latest (ls_log st)) as [pm|] eqn:Epm.
  - destruct (Hlat pm Epm) as [[pe Hpe] _]. assert (Hne : pm <> a) by congruence.
    assert (Hp2 : ls_ents st2 !! pm = Some pe).
    { simpl. by rewrite lookup_insert_ne, He1, lookup_insert_ne by done. }
    rewrite (bind_step (let! pe := load_ent pm in _) _ st2 tt
      (set_ents (<[pm := with_next (Some a) pe]> (ls_ents st2)) st2)).
    2: { rewrite (bind_step _ _ _ _ _ (load_ent_ok _ _ _ Hp2)). by apply (store_ent_ok _ _ pe). }
    eexists a, _. split; [reflexivity|]. apply Hfin; try done.
    + by apply (update_ent_inv _ _ _ _ Hi2 Hp2).
    + simpl. rewrite lookup_insert_ne by done. apply lookup_insert_eq.
    + intros p Hp. simpl. rewrite lookup_insert. case_decide as E1.
      * subst p. rewrite decide_True by done. by rewrite Hpe.
      * rewrite decide_False by congruence. by rewrite lookup_insert_ne, He1, lookup_insert_ne by done.
  - eexists a, _. split; [reflexivity|]. apply Hfin; try done.
    + apply lookup_insert_eq.
    + intros p Hp. simpl. by rewrite lookup_insert_ne, He1, lookup_insert_ne by done.
Qed.

(** ** Deleting entries *)

Definition set_cache (m : gmap Z Z) (st : log_state) : log_state :=
  mk_ls (ls_log st) m (ls_deleted_ts st) (ls_chunks st) (ls_ents st).

Lemma set_cache_id st : set_cache (ls_cache st) st = st.
Proof. by destruct st. Qed.

(** The invariant with fewer cached timestamps. *)
Lemma shrink_cache_inv st m : log_heap_inv st -> m ⊆ ls_cache st -> log_heap_inv (set_cache m st).
Proof.
  intros Hi Hsub.
  assert (Hin : forall t p, m !! t = Some p -> ls_cache st !! t = Some p) by (intros; by eapply lookup_weaken).
  assert (Hfp : forall t p q, first_prev (set_cache m st) t p q -> first_prev st t p q).
  { intros t p q (e & c & ? & H). exists e, c. split; [by apply Hin|done]. }
  split; cbn [set_cache ls_log ls_chunks ls_ents ls_cache]; try apply Hi.
  - intros t p Hp. by eapply (lh_cache_live _ Hi), Hin.
  - intros t1 t2 p H1 H2. eapply (lh_cache_inj _ Hi); by apply Hin.
  - intros t p q Hq. apply Hfp in Hq. destruct (lh_prev _ Hi _ _ _ Hq) as (? & c & ? & ?). eauto 10.
  - intros t1 t2 p1 p2 q H1 H2. eapply (lh_prev_inj _ Hi); by apply Hfp.
Qed.

(** Freeing a chunk none of whose entries is cached, that is not the current
    chunk and not the predecessor of a cached first entry. *)
Lemma kfree_inv st q c : log_heap_inv st -> ls_chunks st !! q = Some c ->
  q <> log_chunk_start_ptr (ls_log st) ->
  (forall t p, ls_cache st !! t = Some p -> ~ in_chunk q c p) ->
  (forall t p, ~ first_prev st t p q) ->
  exists st', kfree_chunk q st = (Ok tt, st') /\ log_heap_inv st' /\
    ls_log st' = ls_log st /\ ls_cache st' = ls_cache st /\ ls_deleted_ts st' = ls_deleted_ts st /\
    ls_chunks st' = delete q (ls_chunks st) /\
    (forall p, ~ in_chunk q c p -> ls_ents st' !! p = ls_ents st !! p).
Proof.
  intros Hi Hq Hcur Hcache Hnp. unfold kfree_chunk.
  pose proof (lh_chunk_ok _ Hi _ _ Hq) as Hok.
  rewrite (proj2 (Z.eqb_neq q 0)) by lia. rewrite Hq. eexists; split; [done|].
  set (ents := filter _ (ls_ents st)).
  assert (Hback : forall p e, ents !! p = Some e -> ls_ents st !! p = Some e /\ ~ in_chunk q c p).
  { intros p e He. by apply map_lookup_filter_Some in He. }
  assert (Hkeep : forall p, ~ in_chunk q c p -> ents !! p = ls_ents st !! p).
  { intros p Hp. destruct (ls_ents st !! p) as [e|] eqn:E.
    - by apply map_lookup_filter_Some.
    - apply map_lookup_filter_None. by left. }
  assert (Hdel : forall s c', ls_chunks st !! s = Some c' -> s <> q -> delete q (ls_chunks st) !! s = Some c').
  { intros. by rewrite lookup_delete_ne. }
  assert (Hfp : forall t p q', first_prev (mk_ls (ls_log st) (ls_cache st) (ls_deleted_ts st)
    (delete q (ls_chunks st)) ents) t p q' -> first_prev st t p q').
  { intros t p q' (e & c' & ? & He & ? & Hc' & ?). simpl in *. apply Hback in He as [He _].
    apply lookup_delete_Some in Hc' as [_ Hc']. exists e, c'. tauto. }
  split_and!; try done.
  split; cbn [ls_log ls_chunks ls_ents ls_cache].
  - intros s c' Hs. apply lookup_delete_Some in Hs as [_ Hs]. by apply (lh_chunk_ok _ Hi).
  - intros s1 s2 c1 c2 H1 H2. apply lookup_delete_Some in H1 as [_ H1], H2 as [_ H2].
    by apply (lh_chunks_disjoint _ Hi s1 s2 c1 c2).
  - intros p e He. apply Hback in He as [He Hout].
    destruct (lh_ent_chunk _ Hi _ _ He) as (? & s & c' & Hs & Hlo & Hhi). split; [done|].
    exists s, c'. split; [|done]. apply Hdel; [done|]. intros ->. simplify_eq. apply Hout.
    unfold in_chunk, ent_end, SIZEOF_PTR, SIZEOF_LOG_ENTRY in *. lia.
  - intros p1 p2 e1 e2 H1 H2. apply Hback in H1 as [H1 _], H2 as [H2 _].
    by apply (lh_ents_disjoint _ Hi p1 p2 e1 e2).
  - intros t p Hp. rewrite Hkeep by (by eapply Hcache). by eapply lh_cache_live.
  - apply Hi.
  - intros p e He Hfi. apply Hback in He as [He Hout]. destruct (lh_first _ Hi _ _ He Hfi) as [c' Hc'].
    exists c'. apply Hdel; [done|]. intros Heq. apply Hout. subst q.
    destruct (lh_ent_chunk _ Hi _ _ He) as (? & s & c2 & Hs & Hlo & Hhi).
    assert (Hsp : s = p - SIZEOF_PTR).
    { apply (chunk_unique st _ _ c2 c (p - 1)); try done;
        unfold in_chunk, ent_end, SIZEOF_PTR, SIZEOF_LOG_ENTRY in *; lia. }
    subst s. rewrite Hq in Hs. injection Hs as <-. unfold in_chunk, ent_end, SIZEOF_PTR, SIZEOF_LOG_ENTRY in *. lia.
  - intros t p q' Hq'. apply Hfp in Hq'. destruct (lh_prev _ Hi _ _ _ Hq') as (? & c' & Hc' & ?).
    split; [done|]. exists c'. split; [|done]. apply Hdel; [done|]. intros ->. by apply Hnp in Hq'.
  - intros t1 t2 p1 p2 q' H1 H2. apply Hfp in H1, H2. by eapply (lh_prev_inj _ Hi).
  - destruct (lh_current _ Hi) as [?|(c' & Hc' & ? & ? & ? & Hall)]; [by left|right].
    exists c'. split_and!; try done; [by apply Hdel|].
    intros p e He. apply Hback in He as [He _]. by apply Hall.
Qed.

(** What a deletion step leaves untouched. *)
Record log_frame (st st' : log_state) (keep : Z -> Prop) : Prop := {
  fr_log : ls_log st' = ls_log st;
  fr_cache : ls_cache st' = ls_cache st;
  fr_deleted : ls_deleted_ts st' = ls_deleted_ts st;
  fr_ents : forall p, keep p -> ls_ents st' !! p = ls_ents st !! p
}.

(** Addresses that stay live while the timestamp [t] is being deleted from [m]. *)
Definition kept (st : log_state) (m : gmap Z Z) (p : Z) : Prop :=
  (exists t, m !! t = Some p) \/ in_current_chunk st p.

(** Deleting the oldest cached timestamp [t]. *)
Lemma free_prev_oldest st m t p :
  log_heap_inv (set_cache m st) -> m !! t = Some p ->
  (forall t' p', m !! t' = Some p' -> t <= t') ->
  exists st', free_prev_chunk p st = (Ok tt, st') /\
    log_heap_inv (set_cache (delete t m) st') /\ log_frame st st' (kept st m) /\
    (forall a, in_current_chunk st a -> in_current_chunk st' a).
Proof.
  intros Hi Ht Hmin. unfold free_prev_chunk.
  destruct (lh_cache_live _ Hi _ _ Ht) as [e He]. simpl in He.
  rewrite (bind_step _ _ _ _ _ (load_ent_ok _ _ _ He)).
  assert (Hshrink : log_heap_inv (set_cache (delete t m) st)).
  { apply (shrink_cache_inv (set_cache m st)); [done|]. apply delete_subseteq. }
  destruct (le_first_in_chunk e) eqn:Hfi; [|eexists; split_and!; try done].
  destruct (lh_first _ Hi _ _ He Hfi) as [c Hc]. simpl in Hc. rewrite Hc.
  destruct (decide (ck_prev c = 0)) as [E0|Hnz].
  { unfold kfree_chunk. rewrite E0. eexists; split_and!; try done. }
  assert (Hfp : first_prev (set_cache m st) t p (ck_prev c)) by (exists e, c; done).
  destruct (lh_prev _ Hi _ _ _ Hfp) as (Hcur & cq & Hcq & Hlt). simpl in Hcur, Hcq, Hlt.
  assert (Hout : forall t' p', m !! t' = Some p' -> ~ in_chunk (ck_prev c) cq p').
  { intros t' p' Hp' Hin. pose proof (Hlt _ _ Hp' Hin). pose proof (Hmin _ _ Hp'). lia. }
  destruct (kfree_inv (set_cache (delete t m) st) (ck_prev c) cq)
    as (st' & Hk & Hi' & El & Ec & Ed & Eck & Ee); try done.
  { intros t' p' Hp'. simpl in Hp'. apply lookup_delete_Some in Hp' as [_ Hp']. by eapply Hout. }
  { intros t' p' (e' & c' & Hp' & H'). simpl in *. apply lookup_delete_Some in Hp' as [Hne Hp'].
    apply Hne. eapply (lh_prev_inj _ Hi); [exact Hfp|]. exists e', c'. by split. }
  exists (set_cache (ls_cache st) st'). split_and!.
  - revert Hk. unfold kfree_chunk. rewrite (proj2 (Z.eqb_neq _ 0)) by done.
    cbn [set_cache ls_chunks]. rewrite Hcq. intros [= <-]. done.
  - replace (set_cache (delete t m) _) with st'; [done|].
    destruct st'; simpl in *. unfold set_cache; simpl. congruence.
  - split; try done. intros a Ha. simpl. rewrite Ee; [done|]. destruct Ha as [[t' Ht']|(c' & Hc' & Hin)].
    + by eapply Hout.
    + intros Hin'. apply Hcur. by eapply (chunk_unique (set_cache m st) _ _ cq c' a).
  - intros a (c' & Hc' & Hin). exists c'. simpl. rewrite El, Eck. split; [|done].
    by rewrite lookup_delete_ne.
Qed.

(** A batch in increasing timestamp order that starts with the oldest. *)
Inductive oldest_first : gmap Z Z -> list (Z * Z) -> Prop :=
  | oldest_nil m : oldest_first m []
  | oldest_cons m t p l : m !! t = Some p -> (forall t' p', m !! t' = Some p' -> t <= t') ->
      oldest_first (delete t m) l -> oldest_first m ((t, p) :: l).

Definition delete_keys (m : gmap Z Z) (batch : list (Z * Z)) : gmap Z Z :=
  foldl (fun m kv => delete kv.1 m) m batch.

Lemma sorted_oldest_first l : forall m n, StronglySorted key_le l -> NoDup l.*1 ->
  (forall t p, (t, p) ∈ l <-> m !! t = Some p) -> oldest_first m (take n l).
Proof.
  induction l as [|[t p] l IH]; intros m [|n] Hs Hnd Hm; simpl; try constructor.
  - apply Hm. left.
  - intros t' p' H'. apply Hm in H'. apply elem_of_cons in H' as [[= -> _]|H']; [lia|].
    apply StronglySorted_inv in Hs as [_ Hs]. rewrite Forall_forall in Hs. apply (Hs _ H').
  - apply NoDup_cons in Hnd as [Hni Hnd]. apply IH; [by apply StronglySorted_inv in Hs as [? _]|done|].
    intros t' p'. rewrite lookup_delete_Some, <- Hm, elem_of_cons. split.
    + intros Hin. split; [|by right]. intros ->. apply Hni. apply list_elem_of_fmap. by exists (t', p').
    + intros [Hne [[= -> ->]|Hin]]; done.
Qed.

Lemma take_below_prefix stop l : exists n, take_below stop l = take n l.
Proof.
  induction l as [|kv l [n IH]]; [by exists 0%nat|]. simpl. case_match; [by exists 0%nat|].
  exists (S n). simpl. by rewrite IH.
Qed.

Lemma elem_of_take_below stop l kv : kv ∈ take_below stop l -> kv.1 < stop /\ kv ∈ l.
Proof.
  induction l as [|kv' l IH]; simpl; [by intros ?%not_elem_of_nil|].
  destruct (Z.leb_spec stop kv'.1); [by intros ?%not_elem_of_nil|].
  intros [->|H']%elem_of_cons; [split; [done|left]|]. destruct (IH H'). split; [done|by right].
Qed.

Lemma candidates_oldest_first stop m : oldest_first m (delete_candidates stop m).
Proof.
  unfold delete_candidates. destruct (take_below_prefix stop (map_items m)) as [n ->].
  rewrite take_take. apply sorted_oldest_first.
  - apply map_items_sorted.
  - apply map_items_nodup.
  - intros. apply elem_of_map_items.
Qed.

Lemma candidates_nil stop m : delete_candidates stop m = [] ->
  forall t p, m !! t = Some p -> stop <= t.
Proof.
  unfold delete_candidates, DELETE_BATCH. intros Hn t p Hp. apply elem_of_map_items in Hp.
  pose proof (map_items_sorted m) as Hs. destruct (map_items m) as [|kv l]; [by apply not_elem_of_nil in Hp|].
  simpl in Hn. destruct (Z.leb_spec stop kv.1); [|done].
  apply StronglySorted_inv in Hs as [_ Hs]. rewrite Forall_forall in Hs.
  apply elem_of_cons in Hp as [<-|Hp]; [done|]. specialize (Hs _ Hp). unfold key_le in Hs. simpl in *. lia.
Qed.

Lemma delete_keys_sub batch m : delete_keys m batch ⊆ m.
Proof.
  revert m. induction batch as [|kv b IH]; intros m; [done|]. simpl.
  etrans; [apply IH|]. apply delete_subseteq.
Qed.

(** Freeing along a batch: every step finds its entry live. *)
Lemma free_batch_ok batch : forall st m, log_heap_inv (set_cache m st) -> oldest_first m batch ->
  exists st', mapM_ (fun kv => free_prev_chunk kv.2) batch st = (Ok tt, st') /\
    log_heap_inv (set_cache (delete_keys m batch) st') /\
    log_frame st st' (kept st (delete_keys m batch)) /\
    (forall a, in_current_chunk st a -> in_current_chunk st' a).
Proof.
  induction batch as [|[t p] batch IH]; intros st m Hi Ho; cbn [mapM_ delete_keys foldl].
  - exists st. split_and!; try done.
  - inversion Ho as [|? ? ? ? Hp Hmin Ho']; subst.
    destruct (free_prev_oldest st m t p Hi Hp Hmin) as (st1 & E1 & Hi1 & [L1 C1 D1 F1] & K1).
    destruct (IH st1 (delete t m) Hi1 Ho') as (st' & E & Hi' & [L C D F] & K).
    exists st'. split_and!; [by rewrite (bind_step _ _ _ _ _ E1)|done| |by auto].
    split; try congruence. intros a Ha. rewrite F, F1; [done| |].
    + destruct Ha as [[t' Ht']|Ha]; [left; exists t'|by right].
      eapply lookup_weaken; [exact Ht'|]. etrans; [apply delete_keys_sub|apply delete_subseteq].
    + destruct Ha as [Ha|Ha]; [by left|right; by apply K1].
Qed.

Definition cache_from (stop : Z) (m : gmap Z Z) : gmap Z Z := filter (fun kv => stop <= kv.1) m.

Lemma cache_from_sub stop m : cache_from stop m ⊆ m.
Proof. apply map_filter_subseteq. Qed.

Lemma cache_from_delete_keys stop batch m :
  (forall kv, kv ∈ batch -> kv.1 < stop) -> cache_from stop (delete_keys m batch) = cache_from stop m.
Proof.
  revert m. induction batch as [|kv b IH]; intros m Hb; [done|]. simpl.
  rewrite IH by (intros; apply Hb; by right). apply map_eq. intros t. unfold cache_from.
  assert (kv.1 < stop) by (apply Hb; left).
  apply option_eq. intros p. rewrite !map_lookup_filter_Some, lookup_delete_Some. simpl.
  split; [naive_solver|]. intros [? ?]. split_and!; try done. lia.
Qed.

Lemma delete_keys_size batch m : oldest_first m batch ->
  (size (delete_keys m batch) + length batch = size m)%nat.
Proof.
  induction 1 as [|m t p l Hp Hmin Ho IH]; simpl; [lia|]. rewrite map_size_delete_Some in IH by eauto.
  assert (size m <> 0%nat). { intros E. apply map_size_empty_inv in E. by rewrite E, lookup_empty in Hp. }
  unfold delete_keys in *. simpl. lia.
Qed.

Definition has_below (stop : Z) (m : gmap Z Z) : Prop := exists t p, m !! t = Some p /\ t < stop.

Lemma delete_log_loop_ok stop fuel : forall st did, log_heap_inv st -> (size (ls_cache st) < fuel)%nat ->
  exists did' st', delete_log_loop fuel stop did st = (Ok did', st') /\ log_heap_inv st' /\
    ls_cache st' = cache_from stop (ls_cache st) /\ ls_log st' = ls_log st /\
    (did' = true <-> did = true \/ has_below stop (ls_cache st)) /\
    (forall p, kept st (cache_from stop (ls_cache st)) p -> ls_ents st' !! p = ls_ents st !! p) /\
    (forall a, in_current_chunk st a -> in_current_chunk st' a).
Proof.
  induction fuel as [|fuel IH]; intros st did Hi Hf; [lia|]. cbn [delete_log_loop].
  set (batch := delete_candidates stop (ls_cache st)).
  assert (Ho : oldest_first (ls_cache st) batch) by apply candidates_oldest_first.
  destruct (free_batch_ok batch st (ls_cache st)) as (st1 & E1 & Hi1 & [L1 C1 D1 F1] & K1);
    [by rewrite set_cache_id|done|].
  assert (Hpass : delete_log_pass stop st = (Ok (length batch), set_cache (delete_keys (ls_cache st) batch) st1)).
  { unfold delete_log_pass. fold batch. rewrite (bind_step _ _ _ _ _ E1). unfold bind, modify, ret.
    by rewrite C1. }
  rewrite (bind_step _ _ _ _ _ Hpass). destruct batch as [|kv b] eqn:Eb.
  - exists did, (set_cache (delete_keys (ls_cache st) []) st1). simpl.
    assert (Hall : forall t p, ls_cache st !! t = Some p -> stop <= t) by (by apply candidates_nil).
    assert (Hsame : cache_from stop (ls_cache st) = ls_cache st).
    { apply map_filter_id. intros t p Hp. simpl. by eapply Hall. }
    split_and!; try done.
    + split; [by left|]. intros [?|(t & p & Hp & ?)]; [done|]. apply Hall in Hp. lia.
    + rewrite Hsame. exact F1.
  - assert (Hlow : forall kv', kv' ∈ kv :: b -> kv'.1 < stop).
    { intros kv' Hin. apply (elem_of_take_below stop (map_items (ls_cache st))).
      rewrite <- Eb in Hin. unfold batch, delete_candidates in Hin.
      rewrite <- (take_drop DELETE_BATCH (take_below _ _)). apply elem_of_app. by left. }
    pose proof (delete_keys_size _ _ Ho) as Hsz. simpl in Hsz.
    destruct (IH (set_cache (delete_keys (ls_cache st) (kv :: b)) st1) true) as (did' & st' & E & Hi' & C' & L' & Hd & F' & K');
      [done|simpl; lia|].
    exists did', st'. cbn [set_cache ls_cache ls_log ls_ents] in C', L', Hd, F'. rewrite cache_from_delete_keys in C', F' by exact Hlow.
    split_and!; try done; try congruence.
    + split; [|tauto]. intros _. right. inversion Ho as [|? t p ? Hp]; subst.
      exists t, p. split; [done|]. apply (Hlow (t, p)). left.
    + intros p Hp. rewrite F', F1; [done| |].
      * destruct Hp as [[t Ht]|Hp]; [left; exists t|by right].
        rewrite <- (cache_from_delete_keys stop (kv :: b)) in Ht by done.
        eapply lookup_weaken; [exact Ht|apply cache_from_sub].
      * destruct Hp as [Hp|Hp]; [by left|right; by apply K1].
    + intros a Ha. apply K'. by apply K1.
Qed.

(** The result of garbage collecting the log below [stop]. *)
Record deleted (st st' : log_state) (stop : Z) (did : bool) : Prop := {
  de_inv : log_inv st';
  de_cache : ls_cache st' = cache_from stop (ls_cache st);
  de_log : ls_log st' = ls_log st;
  de_ts : ls_deleted_ts st' = stop;
  de_did : did = true <-> has_below stop (ls_cache st);
  de_ents : forall t p, stop <= t -> ls_cache st !! t = Some p -> ls_ents st' !! p = ls_ents st !! p;
  de_latest : forall p, log_latest (ls_log st) = Some p -> ls_ents st' !! p = ls_ents st !! p
}.

Lemma delete_log_ok st stop : log_inv st -> stop <> SIVFS_INVALID_TS ->
  exists did st', sivfs_delete_log stop st = (Ok did, st') /\ deleted st st' stop did.
Proof.
  intros [Hi Hlat] Hstop. unfold sivfs_delete_log.
  destruct (delete_log_loop_ok stop (S (size (ls_cache st))) st false Hi ltac:(lia))
    as (did & st1 & E & Hi1 & C & L & Hd & F & K).
  rewrite (bind_step _ _ _ _ _ E), (proj2 (Z.eqb_neq _ _)) by done.
  exists did. eexists; split; [reflexivity|]. split; simpl; try done.
  - split; [by destruct Hi1|]. intros p Hp. simpl in *. rewrite L in Hp.
    destruct (Hlat p Hp) as [Hlive Hin]. rewrite F by (by right). split; [done|].
    rewrite L. specialize (K p Hin). unfold in_current_chunk in K. by rewrite L in K.
  - rewrite Hd. split; [by intros [?|?]|by right].
  - intros t p Ht Hp. apply F. left. exists t. unfold cache_from. by apply map_lookup_filter_Some.
  - intros p Hp. apply F. right. by apply Hlat.
Qed.
