(* ===== verification/LogView.v ===== *)
(** Reading the log: the view of the heap as a sequence of entries with
    consecutive timestamps, the loop that follows the [next] pointers (shared
    by sivfs_find_first_write, sivfs_validate, sivfs_apply_logs_workingset and
    my_sivfs_update_page) and sivfs_find_first_write of
    kern/sivfs_shared_state.h. *)
From S2P Require Import Prelude Types RadixTree Writeset Log.

(** ** The loop over log entries

    [while(1){ body; if (check_stop && clog->ts == ts_stop) break;
               next = clog->next; if (!next || next->ts > ts_stop) break;
               clog = next; }]. *)
Fixpoint log_iter {S : Type} (fuel : nat) (ents : gmap Z sivfs_log_entry) (check_stop : bool)
    (body : sivfs_log_entry -> M S wstep) (ts_stop : Z) (clog : Z) : M S unit :=
  match fuel with
  | O => lift OutOfFuel
  | S fuel =>
    let! e := lift (deref (ents !! clog)) in
    let! r := body e in
    match r with
    | Break => ret tt
    | Continue =>
      if check_stop && (le_ts e =? ts_stop) then ret tt
      else
        match le_next e with
        | None => ret tt
        | Some next_clog =>
          let! e' := lift (deref (ents !! next_clog)) in
          if ts_stop <? le_ts e' then ret tt
          else log_iter fuel ents check_stop body ts_stop next_clog
        end
    end
  end.

Lemma log_iter_keeps {S} (P : S -> Prop) fuel ents cs body ts_stop : (forall e, keeps P (body e)) ->
  forall clog, keeps P (log_iter fuel ents cs body ts_stop clog).
Proof.
  intros Hb. induction fuel as [|fuel IH]; intros clog; [by intros s ?|]. cbn [log_iter].
  apply keeps_bind; [by intros s ?|intros e]. apply keeps_bind; [apply Hb|intros []]; [|by intros s ?].
  destruct (_ && _); [by intros s ?|]. destruct (le_next e); [|by intros s ?].
  apply keeps_bind; [by intros s ?|intros e']. destruct (_ <? _); [by intros s ?|apply IH].
Qed.

(** Fuel for a walk up to [ts_stop] from the entry of timestamp [ts]. *)
Definition log_fuel (ts ts_stop : Z) : nat := S (Z.to_nat (ts_stop - ts)).

(** ** The view *)

Record log_view (st : log_state) (lo n : Z) : Prop := {
  lv_inv : log_inv st;
  lv_lo : 1 <= lo;
  lv_deleted : ls_deleted_ts st <= lo;
  lv_n : 0 <= n < 2 ^ 63;
  lv_nonempty : (n = 0 /\ lo = 1) \/ lo <= n;
  lv_dom : forall t, is_Some (ls_cache st !! t) <-> lo <= t <= n;
  lv_ent : forall t p, ls_cache st !! t = Some p -> exists e, ls_ents st !! p = Some e /\
    le_ts e = t /\ le_next e = ls_cache st !! (t + 1) /\ exists es, ws_repr (le_ws e) es;
  lv_latest : log_latest (ls_log st) = ls_cache st !! n
}.

(** The entry of timestamp [t]. *)
Definition entry_at (st : log_state) (t : Z) : option sivfs_log_entry :=
  ls_cache st !! t ≫= fun p => ls_ents st !! p.

(** The entries of timestamps [t], ..., [t + k - 1]. *)
Fixpoint log_slice (st : log_state) (t : Z) (k : nat) : list sivfs_log_entry :=
  match k with
  | O => []
  | S k => match entry_at st t with
           | Some e => e :: log_slice st (t + 1) k
           | None => []
           end
  end.

Lemma init_log_view : log_view init_log_state 1 0.
Proof.
  split; try done; try lia.
  - apply init_log_inv.
  - intros t. simpl. rewrite lookup_empty. split; [by intros [? ?]|lia].
Qed.

Section view.
Context (st : log_state) (lo n : Z) (Hv : log_view st lo n).

Lemma view_entry t : lo <= t <= n -> exists p e, ls_cache st !! t = Some p /\
  ls_ents st !! p = Some e /\ entry_at st t = Some e /\ le_ts e = t /\
  le_next e = ls_cache st !! (t + 1) /\ exists es, ws_repr (le_ws e) es.
Proof.
  intros Ht. apply (lv_dom _ _ _ Hv) in Ht as [p Hp].
  destruct (lv_ent _ _ _ Hv _ _ Hp) as (e & He & ? & ? & ?).
  exists p, e. split_and!; try done. unfold entry_at. by rewrite Hp.
Qed.

Lemma view_none t : ~ (lo <= t <= n) -> ls_cache st !! t = None.
Proof.
  intros Ht. destruct (ls_cache st !! t) as [p|] eqn:E; [|done].
  exfalso. apply Ht, (lv_dom _ _ _ Hv). eauto.
Qed.

(** The loop visits exactly the entries of the requested range. *)
Lemma log_iter_slice {S} check (body : sivfs_log_entry -> M S wstep) stop k :
  forall t p fuel s, lo <= t -> stop <= n -> stop = t + Z.of_nat k -> ls_cache st !! t = Some p ->
  (k < fuel)%nat ->
  log_iter fuel (ls_ents st) check body stop p s = foldM body (log_slice st t (1 + k)) s.
Proof.
  induction k as [|k IH]; intros t p fuel s Hlo Hn Hk Hp Hf;
    destruct fuel as [|fuel]; try lia; cbn [log_iter log_slice foldM Nat.add];
    destruct (view_entry t ltac:(lia)) as (p' & e & Hp' & He & Ht & Hts & Hnext & _);
    rewrite Hp in Hp'; injection Hp' as <-; rewrite He, Ht; cbn [deref foldM];
    rewrite (bind_step (lift (Ok e)) _ s e s eq_refl).
  - destruct (body e s) as [[[] | | |] s1] eqn:Eb; try (unfold bind; by rewrite Eb).
    rewrite !(bind_step (body e) _ s _ s1 Eb).
    rewrite Hnext. destruct (check && (le_ts e =? stop)); [done|].
    destruct (ls_cache st !! (t + 1)) as [q|] eqn:Eq; [|done].
    destruct (lv_ent _ _ _ Hv _ _ Eq) as (e' & He' & Hts' & _).
    rewrite He'. unfold bind, lift. simpl. rewrite (proj2 (Z.ltb_lt _ _)) by lia. done.
  - destruct (body e s) as [[[] | | |] s1] eqn:Eb; try (unfold bind; by rewrite Eb).
    rewrite !(bind_step (body e) _ s _ s1 Eb).
    rewrite (proj2 (Z.eqb_neq (le_ts e) stop)), andb_false_r by lia. rewrite Hnext.
    destruct (view_entry (t + 1) ltac:(lia)) as (q & e' & Hq & He' & Ht' & Hts' & _).
    rewrite Hq, He'. cbn [deref]. rewrite (bind_step (lift (Ok e')) _ s1 e' s1 eq_refl).
    rewrite (proj2 (Z.ltb_ge _ _)) by lia. rewrite (IH (t + 1) q) by (done || lia).
    by cbn [log_slice foldM].
Qed.

Lemma log_slice_lookup t k i : lo <= t -> t + Z.of_nat k <= n + 1 -> (i < k)%nat ->
  log_slice st t k !! i = entry_at st (t + Z.of_nat i).
Proof.
  revert t i. induction k as [|k IH]; intros t i Hlo Hn Hi; [lia|]. cbn [log_slice].
  destruct (view_entry t ltac:(lia)) as (p & e & _ & _ & He & _). rewrite He.
  destruct i as [|i]; simpl.
  - by rewrite Z.add_0_r.
  - rewrite IH by lia. f_equal. lia.
Qed.

(** Looking up the first entry of a range. *)
Lemma ts_to_log_entry_ok t t1 : lo <= t <= n ->
  exists p, sivfs_ts_to_log_entry t t t1 st = Ok (Some p) /\ ls_cache st !! t = Some p.
Proof.
  intros Ht. destruct (view_entry t Ht) as (p & e & Hp & _). exists p.
  unfold sivfs_ts_to_log_entry. pose proof (lv_deleted _ _ _ Hv).
  rewrite (proj2 (Z.ltb_ge _ _)) by lia. by rewrite Hp.
Qed.
End view.

(** ** Garbage collection and the view *)

Lemma delete_view st lo n stop : log_view st lo n -> 0 <= stop <= n ->
  exists did st', sivfs_delete_log stop st = (Ok did, st') /\ deleted st st' stop did /\
    log_view st' (Z.max lo stop) n /\
    (forall t, stop <= t -> entry_at st' t = entry_at st t).
Proof.
  intros Hv Hstop. pose proof (lv_n _ _ _ Hv) as Hn. pose proof (lv_nonempty _ _ _ Hv) as Hne.
  pose proof (lv_lo _ _ _ Hv) as Hlo.
  destruct (delete_log_ok st stop (lv_inv _ _ _ Hv)) as (did & st' & E & D);
    [rewrite invalid_ts_val, two64_val; lia|].
  exists did, st'. split; [done|]. split; [done|].
  assert (Hc : forall t, ls_cache st' !! t = if decide (stop <= t) then ls_cache st !! t else None).
  { intros t. rewrite (de_cache _ _ _ _ D). unfold cache_from. apply option_eq. intros p.
    rewrite map_lookup_filter_Some. simpl. case_decide; naive_solver. }
  split.
  - split; try done; try lia.
    + apply D.
    + rewrite (de_ts _ _ _ _ D). lia.
    + intros t. rewrite Hc. case_decide as Ht.
      * rewrite (lv_dom _ _ _ Hv). lia.
      * split; [by intros [? ?]|lia].
    + intros t p. rewrite Hc. case_decide as Ht; [|done]. intros Hp.
      destruct (lv_ent _ _ _ Hv _ _ Hp) as (e & He & Hts & Hnx & Hws).
      exists e. rewrite (de_ents _ _ _ _ D t p Ht Hp), Hc, decide_True by lia. done.
    + rewrite Hc, decide_True, (de_log _ _ _ _ D) by lia. apply Hv.
  - intros t Ht. unfold entry_at. rewrite Hc, decide_True by done.
    destruct (ls_cache st !! t) as [p|] eqn:Hp; [|done]. simpl.
    by apply (de_ents _ _ _ _ D t).
Qed.

(** ** sivfs_find_first_write *)

Definition sivfs_range_overlaps_wsent (start end_ file_offset : Z) : bool :=
  (start <=? file_offset) && (file_offset <? end_).

(** The walk over one write set; a hit records the entry's timestamp. *)
Definition find_write_in_ws (e : sivfs_log_entry) (file_ino offset_start offset_end : Z)
    : M (option Z) unit :=
  ws_walk (le_ws e) (fun ent _ out =>
    match (let? ino := rd (ws_entries (le_ws e)) ent in
           let? off := rd (ws_entries (le_ws e)) (ent + 1) in
           Ok (ino, off)) with
    | Ok (ino, off) =>
      if (ino =? file_ino) && sivfs_range_overlaps_wsent offset_start offset_end off
      then (Ok Break, Some (le_ts e))
      else (Ok Continue, out)
    | _ => (Fault, out)
    end).

Definition find_write_body (file_ino offset_start offset_end : Z) (e : sivfs_log_entry)
    : M (option Z) wstep :=
  if le_aborted e then ret Continue
  else
    do! find_write_in_ws e file_ino offset_start offset_end in
    let! out := gets (fun o => o) in
    ret (match out with Some _ => Break | None => Continue end).

(** The result is the value stored through [first_modifier_out]. *)
Definition sivfs_find_first_write (st : log_state) (start_ts end_ts file_ino
    offset_start offset_end : Z) : res Z :=
  if (end_ts <? start_ts) || (offset_end <=? offset_start) then Err EINVAL
  else if end_ts =? start_ts then Ok SIVFS_INVALID_TS
  else
    let? o := sivfs_ts_to_log_entry (uadd start_ts 1) (uadd start_ts 1) end_ts st in
    match o with
    | None => Err EINVAL
    | Some log_ent =>
      match log_iter (log_fuel (uadd start_ts 1) end_ts) (ls_ents st) false
              (find_write_body file_ino offset_start offset_end) end_ts log_ent None with
      | (Ok _, Some ts) => Ok ts
      | (Ok _, None) => Ok SIVFS_INVALID_TS
      | (Err e, _) => Err e
      | (Fault, _) => Fault
      | (OutOfFuel, _) => OutOfFuel
      end
    end.

(** The entry is a committed write to the range (first words only). *)
Definition entry_hits (file_ino offset_start offset_end : Z) (e : sivfs_log_entry) : bool :=
  negb (le_aborted e) &&
  existsb (fun '(ino, off, _, _) =>
    (ino =? file_ino) && (offset_start <=? off) && (off <? offset_end)) (ws_contents (le_ws e)).2.

Lemma find_write_in_ws_spec e es ino a b out : ws_repr (le_ws e) es ->
  find_write_in_ws e ino a b out =
    (Ok tt, if existsb (fun '(i, off, _, _) => (i =? ino) && (a <=? off) && (off <? b))
                 (entry_header <$> es) then Some (le_ts e) else out).
Proof.
  intros Hr. unfold find_write_in_ws.
  rewrite (ws_walk_encoded _ es _ (fun w out =>
    if (e_ino w =? ino) && sivfs_range_overlaps_wsent a b (e_offset w)
    then (Ok Break, Some (le_ts e)) else (Ok Continue, out))); [|done|].
  - clear Hr. induction es as [|w es IH]; [done|].
    cbn [foldM]. unfold bind, sivfs_range_overlaps_wsent in *.
    rewrite fmap_cons. cbn [existsb]. unfold entry_header at 1. rewrite andb_assoc.
    destruct ((e_ino w =? ino) && (a <=? e_offset w) && (e_offset w <? b)); [done|apply IH].
  - intros i w s Hb _. destruct (rd_fields _ _ _ Hb) as (-> & -> & _ & _). done.
Qed.

Lemma find_write_body_spec ino a b e : (exists es, ws_repr (le_ws e) es) ->
  find_write_body ino a b e None =
    if entry_hits ino a b e then (Ok Break, Some (le_ts e)) else (Ok Continue, None).
Proof.
  intros [es Hr]. unfold find_write_body, entry_hits.
  destruct (le_aborted e); [done|]. simpl.
  rewrite (bind_step _ _ _ _ _ (find_write_in_ws_spec e es ino a b None Hr)).
  rewrite (ws_contents_repr _ _ Hr). simpl. by destruct (existsb _ _).
Qed.

Lemma fold_find ino a b l : Forall (fun e => exists es, ws_repr (le_ws e) es) l ->
  foldM (find_write_body ino a b) l None =
    (Ok tt, le_ts <$> List.find (entry_hits ino a b) l).
Proof.
  induction 1 as [|e l Hr _ IH]; [done|]. cbn [foldM List.find].
  pose proof (find_write_body_spec ino a b e Hr) as Hb.
  destruct (entry_hits ino a b e); by rewrite (bind_step _ _ _ _ _ Hb).
Qed.

(** ** Appending an entry: the log part of sivfs_commit_changes, phase I *)

Definition with_ts (ts : Z) (e : sivfs_log_entry) : sivfs_log_entry :=
  mk_le ts (le_ws e) (le_aborted e) (le_commit_status_filled_in e) (le_ws_has_metadata e)
    (le_first_in_chunk e) (le_prev e) (le_next e).
Definition with_ws (ws : sivfs_writeset) (e : sivfs_log_entry) : sivfs_log_entry :=
  mk_le (le_ts e) ws (le_aborted e) (le_commit_status_filled_in e) (le_ws_has_metadata e)
    (le_first_in_chunk e) (le_prev e) (le_next e).
Definition with_aborted (b : bool) (e : sivfs_log_entry) : sivfs_log_entry :=
  mk_le (le_ts e) (le_ws e) b (le_commit_status_filled_in e) (le_ws_has_metadata e)
    (le_first_in_chunk e) (le_prev e) (le_next e).
Definition with_filled (b : bool) (e : sivfs_log_entry) : sivfs_log_entry :=
  mk_le (le_ts e) (le_ws e) (le_aborted e) b (le_ws_has_metadata e)
    (le_first_in_chunk e) (le_prev e) (le_next e).

Definition commit_append (km : option Z) (ins : bool) (next_ts : Z)
    (log_writeset : sivfs_log_entry) : M log_state Z :=
  let! log_dest := sivfs_create_log_entry km ins next_ts log_writeset in
  let! e := load_ent log_dest in
  let! ws := lift (let '(r, ws) := sivfs_writeset_copy (le_ws log_writeset) (le_ws e) in
                   let? _ := r in Ok ws) in
  do! store_ent log_dest (with_aborted false (with_ts next_ts (with_ws ws e))) in
  ret log_dest.

(** What a successful append does to the view. *)
Record appended (st st' : log_state) (lo n a : Z) (es : list wse) : Prop := {
  ap_view : log_view st' lo (n + 1);
  ap_at : ls_cache st' !! (n + 1) = Some a;
  ap_new : exists e, ls_ents st' !! a = Some e /\ ws_repr (le_ws e) es /\
    le_aborted e = false /\ le_commit_status_filled_in e = false;
  ap_cache : forall t, t <= n -> ls_cache st' !! t = ls_cache st !! t;
  ap_old : forall t p e, ls_cache st !! t = Some p -> ls_ents st !! p = Some e ->
    exists nx, ls_ents st' !! p = Some (with_next nx e);
  ap_deleted : ls_deleted_ts st' = ls_deleted_ts st
}.

Lemma blank_repr_cap wb first es ws : ws_repr ws es -> ws_size_bytes ws = wb ->
  exists ws', sivfs_writeset_copy ws (le_ws (blank_entry wb first)) = (Ok tt, ws') /\ ws_repr ws' es
    /\ ws_capacity_bytes ws' = wb.
Proof.
  intros Hr Hwb. destruct (writeset_copy_repr ws es (le_ws (blank_entry wb first)) Hr) as (ws' & E & Hr').
  - simpl. pose proof (repr_cap _ _ Hr). lia.
  - simpl. rewrite length_replicate. pose proof (repr_words _ _ Hr) as Hw. rewrite Hwb in Hw.
    unfold SIZEOF_WORD. lia.
  - exists ws'. split_and!; try done. revert E. unfold sivfs_writeset_copy. simpl.
    rewrite (proj2 (Z.ltb_ge _ _)) by lia. destruct (copy_words _ _ _ _); intros [= <-]; done.
Qed.

(** Overwriting a live entry in place keeps the whole invariant. *)
Lemma update_ent_log_inv st p e e' : log_inv st -> ls_ents st !! p = Some e ->
  ws_capacity_bytes (le_ws e') = ws_capacity_bytes (le_ws e) ->
  le_first_in_chunk e' = le_first_in_chunk e ->
  log_inv (set_ents (<[p := e']> (ls_ents st)) st).
Proof.
  intros [Hi Hl] He Hc Hf. split; [by apply (update_ent_inv _ _ e)|].
  intros q Hq. destruct (Hl q Hq) as [? ?]. split; [|done].
  simpl. rewrite lookup_insert. case_decide; eauto.
Qed.

Section append.
Context (st : log_state) (lo n : Z) (Hv : log_view st lo n) (Hn : n + 1 < 2 ^ 63).
Context (lw : sivfs_log_entry) (es : list wse) (Hr : ws_repr (le_ws lw) es).


Lemma view_latest_entry t p : ls_cache st !! t = Some p -> log_latest (ls_log st) = Some p -> t = n.
Proof.
  rewrite (lv_latest _ _ _ Hv). intros H1 H2.
  by apply (lh_cache_inj _ (proj1 (lv_inv _ _ _ Hv)) _ _ p).
Qed.

(** The view after linking and filling in the new entry. *)
Lemma created_view st1 a ws' first :
  created st st1 (n + 1) a (ws_size_bytes (le_ws lw)) -> ws_repr ws' es -> ws_capacity_bytes ws' = (ws_size_bytes (le_ws lw)) ->
  ls_ents st1 !! a = Some (with_prev (log_latest (ls_log st)) (blank_entry (ws_size_bytes (le_ws lw)) first)) ->
  appended st (set_ents (<[a := with_aborted false (with_ts (n + 1) (with_ws ws'
    (with_prev (log_latest (ls_log st)) (blank_entry (ws_size_bytes (le_ws lw)) first))))]> (ls_ents st1)) st1) lo n a es.
Proof.
  intros [Hi1 Hfr _ Hold Hc Hl Hd] Hr' Hcap Ha.
  pose proof (lv_nonempty _ _ _ Hv) as Hne. pose proof (lv_n _ _ _ Hv). pose proof (lv_lo _ _ _ Hv).
  assert (Hne_a : forall t p, ls_cache st !! t = Some p -> p <> a).
  { intros t p Hp ->. destruct (lv_ent _ _ _ Hv _ _ Hp) as (? & ? & _). congruence. }
  assert (Hcache : forall t, ls_cache st1 !! t = if decide (t = n + 1) then Some a else ls_cache st !! t).
  { intros t. rewrite Hc, lookup_insert. repeat case_decide; congruence. }
  assert (Hent : forall t p e, ls_cache st !! t = Some p -> ls_ents st !! p = Some e ->
    ls_ents st1 !! p = Some (if decide (t = n) then with_next (Some a) e else e)).
  { intros t p e Hp He. rewrite Hold by (by eapply Hne_a). rewrite He. case_decide as E1.
    - by rewrite decide_True by (by eapply view_latest_entry).
    - rewrite decide_False; [done|]. intros ->. apply E1. by rewrite (lv_latest _ _ _ Hv). }
  split; cbn [set_ents ls_cache ls_ents ls_deleted_ts ls_log].
  - split; cbn [set_ents ls_cache ls_ents ls_deleted_ts ls_log]; try lia.
    + by eapply update_ent_log_inv.
    + rewrite Hd. apply Hv.
    + intros t. rewrite Hcache. case_decide; [split; [lia|eauto]|]. rewrite (lv_dom _ _ _ Hv). lia.
    + intros t p. rewrite !Hcache. case_decide as Et.
      * intros [= <-]. eexists. rewrite lookup_insert_eq. split; [done|]. simpl.
        rewrite decide_False, (view_none _ _ _ Hv) by lia. eauto.
      * intros Hp. destruct (lv_ent _ _ _ Hv _ _ Hp) as (e & He & Hts & Hnx & Hws).
        eexists. rewrite lookup_insert_ne by (symmetry; by eapply Hne_a).
        split; [by apply (Hent t)|]. case_decide as En.
        -- subst t. rewrite decide_True by lia. done.
        -- rewrite decide_False by lia. done.
    + by rewrite Hl, Hcache, decide_True.
  - by rewrite Hcache, decide_True.
  - eexists. rewrite lookup_insert_eq. split; [done|]. done.
  - intros t Ht. by rewrite Hcache, decide_False by lia.
  - intros t p e Hp He. rewrite lookup_insert_ne by (symmetry; by eapply Hne_a).
    rewrite (Hent t p e Hp He). case_decide; [eauto|]. exists (le_next e). by destruct e.
  - done.
Qed.

Lemma append_ok km :
  (forall p, km = Some p -> fresh_chunk st p (new_chunk_bytes (ws_size_bytes (le_ws lw)))) ->
  (exists a st', commit_append km true (n + 1) lw st = (Ok a, st') /\ appended st st' lo n a es)
  \/ (km = None /\ commit_append km true (n + 1) lw st = (Err ENOMEM, st)).
Proof.
  intros Hkm. destruct (create_ok st (n + 1) km lw) as [(a & st1 & E & C)|[-> E]]; try done.
  - apply Hv.
  - pose proof (repr_cap _ _ Hr). pose proof (repr_size _ _ Hr). lia.
  - intros t p Hp. pose proof (proj1 (lv_dom _ _ _ Hv t) ltac:(eauto)). lia.
  - left. destruct (cr_new _ _ _ _ _ C) as [first Ha].
    destruct (blank_repr_cap (ws_size_bytes (le_ws lw)) first es (le_ws lw) Hr eq_refl) as (ws' & Ews & Hr' & Hcap).
    exists a. eexists. split; [|by eapply created_view].
    unfold commit_append. rewrite (bind_step _ _ _ _ _ E), (bind_step _ _ _ _ _ (load_ent_ok _ _ _ Ha)).
    cbn [le_ws with_prev] in *. rewrite Ews. cbn [rbind].
    rewrite (bind_step (lift (Ok ws')) _ st1 ws' st1 eq_refl).
    by rewrite (bind_step _ _ _ _ _ (store_ent_ok _ _ _ _ Ha)).
  - right. split; [done|]. unfold commit_append. by rewrite (bind_err _ _ _ _ _ E).
Qed.
End append.

(** ** A small log, for concrete instances *)

Definition ws_of (es : list wse) : sivfs_writeset :=
  mk_ws (8 * Z.of_nat (length (encode es))) (8 * Z.of_nat (length (encode es))) (encode es).
Definition writeset_entry (es : list wse) : sivfs_log_entry :=
  mk_le SIVFS_INVALID_TS (ws_of es) false false true false None None.

Lemma ws_of_repr es : Forall wf_wse es -> Z.of_nat (length (encode es)) < 2 ^ 58 -> ws_repr (ws_of es) es.
Proof.
  intros Hf Hs. split; simpl; try done; try lia.
  - by rewrite firstn_all.
  - by rewrite Z.mul_comm, Z.div_mul.
Qed.

Definition append_run (chunk_at : Z) (n : Z) (es : list wse) (st : log_state) : log_state :=
  (commit_append (Some chunk_at) true (n + 1) (writeset_entry es) st).2.

Lemma append_run_view p st lo n es : log_view st lo n -> n + 1 < 2 ^ 63 -> ws_repr (ws_of es) es ->
  fresh_chunk st p (new_chunk_bytes (ws_size_bytes (ws_of es))) ->
  log_view (append_run p n es st) lo (n + 1).
Proof.
  intros Hv Hn Hr Hf. unfold append_run.
  destruct (append_ok st lo n Hv Hn (writeset_entry es) es Hr (Some p)) as [(a & st' & -> & A)|[? _]];
    [by intros ? [= <-]|apply A|done].
Qed.

(** Two transactions that write the same word, and one elsewhere. *)
Definition word_write (ino off v : Z) : wse := mk_wse ino off 0 (Single v).
Definition sample_log1 : log_state := append_run 4096 0 [word_write 7 16 1] init_log_state.
Definition sample_log2 : log_state := append_run 8192 1 [word_write 7 4096 2; word_write 8 0 3] sample_log1.
Definition sample_log3 : log_state := append_run 12288 2 [word_write 7 16 4] sample_log2.

Lemma fresh_by_size st p n : 0 < p -> p + n < 2 ^ 63 ->
  bool_decide (map_Forall (fun s c => s + ck_size c <= p \/ p + n <= s) (ls_chunks st)) = true ->
  fresh_chunk st p n.
Proof. intros ? ? H%bool_decide_eq_true_1. split_and!; done. Qed.

Lemma sample_log1_view : log_view sample_log1 1 1.
Proof.
  apply (append_run_view 4096 _ 1 0); [apply init_log_view|lia| |].
  - apply ws_of_repr; [repeat constructor|done].
  - by apply fresh_by_size; [| |vm_compute].
Qed.

Lemma sample_log2_view : log_view sample_log2 1 2.
Proof.
  apply (append_run_view 8192 _ 1 1); [apply sample_log1_view|lia| |].
  - apply ws_of_repr; [repeat constructor|done].
  - by apply fresh_by_size; [| |vm_compute].
Qed.

Lemma sample_log3_view : log_view sample_log3 1 3.
Proof.
  apply (append_run_view 12288 _ 1 2); [apply sample_log2_view|lia| |].
  - apply ws_of_repr; [repeat constructor|done].
  - by apply fresh_by_size; [| |vm_compute].
Qed.

(** ** Properties *)

(** C21. Appending to the log, the locked part of a commit. With memory for a
    chunk (or room in the current one) the new entry gets the next timestamp,
    holds exactly the committed writes and is linked last; every older entry
    keeps its contents; out of memory leaves the log unchanged. *)
Theorem append_extends_log st lo n lw es km :
  log_view st lo n -> n + 1 < 2 ^ 63 -> ws_repr (le_ws lw) es ->
  (forall p, km = Some p -> fresh_chunk st p (new_chunk_bytes (ws_size_bytes (le_ws lw)))) ->
  (exists a st' e, commit_append km true (n + 1) lw st = (Ok a, st')
     /\ log_view st' lo (n + 1)
     /\ entry_at st' (n + 1) = Some e /\ ws_repr (le_ws e) es /\ le_aborted e = false
     /\ (forall t e0, t <= n -> entry_at st t = Some e0 ->
           exists nx, entry_at st' t = Some (with_next nx e0)))
  \/ (km = None /\ commit_append km true (n + 1) lw st = (Err ENOMEM, st)).
Proof.
  intros Hv Hn Hr Hkm. destruct (append_ok st lo n Hv Hn lw es Hr km Hkm) as [(a & st' & E & A)|H];
    [left|by right].
  destruct (ap_new _ _ _ _ _ _ A) as (e & He & ? & ? & _). exists a, st', e. split_and!; try done.
  - apply A.
  - unfold entry_at. by rewrite (ap_at _ _ _ _ _ _ A).
  - intros t e0 Ht. unfold entry_at. rewrite (ap_cache _ _ _ _ _ _ A) by done.
    destruct (ls_cache st !! t) as [p|] eqn:Hp; [|done]. simpl. intros He0. by eapply A.
Qed.

Lemma append_extends_log_witness :
  (exists a st' e, commit_append None true (2 + 1) (writeset_entry [word_write 7 16 4]) sample_log2 = (Ok a, st')
     /\ log_view st' 1 (2 + 1)
     /\ entry_at st' (2 + 1) = Some e /\ ws_repr (le_ws e) [word_write 7 16 4] /\ le_aborted e = false
     /\ (forall t e0, t <= 2 -> entry_at sample_log2 t = Some e0 ->
           exists nx, entry_at st' t = Some (with_next nx e0)))
  \/ (@None Z = None /\ commit_append None true (2 + 1) (writeset_entry [word_write 7 16 4]) sample_log2
        = (Err ENOMEM, sample_log2)).
Proof.
  apply (append_extends_log sample_log2 1 2); [apply sample_log2_view|lia| |done].
  apply ws_of_repr; [repeat constructor|done].
Defined.

(** C22. Log garbage collection terminates without touching freed memory and
    removes exactly the timestamps below [stop]: the entries from [stop] on,
    and the log's own latest entry, are still readable and unchanged. *)
Theorem delete_log_keeps_suffix st lo n stop :
  log_view st lo n -> 0 <= stop <= n ->
  exists did st', sivfs_delete_log stop st = (Ok did, st') /\ log_view st' (Z.max lo stop) n
    /\ (forall t, stop <= t -> entry_at st' t = entry_at st t)
    /\ (forall t, t < stop -> entry_at st' t = None)
    /\ (did = true <-> lo < stop).
Proof.
  intros Hv Hs. destruct (delete_view st lo n stop Hv Hs) as (did & st' & E & D & Hv' & Hk).
  exists did, st'. split_and!; try done.
  - intros t Ht. unfold entry_at. rewrite (view_none _ _ _ Hv') by lia. done.
  - rewrite (de_did _ _ _ _ D). pose proof (lv_nonempty _ _ _ Hv). split.
    + intros (t & p & Hp & Ht). pose proof (proj1 (lv_dom _ _ _ Hv t) ltac:(eauto)). lia.
    + intros Hlt. destruct (view_entry _ _ _ Hv lo ltac:(lia)) as (p & _ & Hp & _). by exists lo, p.
Qed.

Lemma delete_log_keeps_suffix_witness :
  exists did st', sivfs_delete_log 3 sample_log3 = (Ok did, st') /\ log_view st' (Z.max 1 3) 3
    /\ (forall t, 3 <= t -> entry_at st' t = entry_at sample_log3 t)
    /\ (forall t, t < 3 -> entry_at st' t = None)
    /\ (did = true <-> 1 < 3).
Proof. apply (delete_log_keeps_suffix sample_log3 1 3 3); [apply sample_log3_view|lia]. Defined.

Lemma find_slice_spec (f : sivfs_log_entry -> bool) st lo n t k :
  log_view st lo n -> lo <= t -> t + Z.of_nat k <= n + 1 ->
  match List.find f (log_slice st t k) with
  | Some e => t <= le_ts e < t + Z.of_nat k /\ entry_at st (le_ts e) = Some e /\ f e = true /\
      forall t' e', t <= t' < le_ts e -> entry_at st t' = Some e' -> f e' = false
  | None => forall t' e', t <= t' < t + Z.of_nat k -> entry_at st t' = Some e' -> f e' = false
  end.
Proof.
  intros Hv. revert t. induction k as [|k IH]; intros t Hlo Hn; cbn [log_slice]; [simpl; intros; lia|].
  destruct (view_entry _ _ _ Hv t ltac:(lia)) as (p & e & _ & _ & He & Hts & _). rewrite He. cbn [List.find].
  destruct (f e) eqn:Hf.
  - rewrite Hts. split_and!; try done; try lia.
  - specialize (IH (t + 1) ltac:(lia) ltac:(lia)).
    destruct (List.find f (log_slice st (t + 1) k)) as [e1|].
    + destruct IH as (? & ? & ? & Hb). split_and!; try done; try lia.
      intros t' e' Ht' He'. destruct (decide (t' = t)) as [->|]; [congruence|]. apply (Hb t'); [lia|done].
    + intros t' e' Ht' He'. destruct (decide (t' = t)) as [->|]; [congruence|]. apply (IH t'); [lia|done].
Qed.

Lemma view_slice_repr st lo n t k : log_view st lo n -> lo <= t -> t + Z.of_nat k <= n + 1 ->
  Forall (fun e => exists es, ws_repr (le_ws e) es) (log_slice st t k).
Proof.
  intros Hv. revert t. induction k as [|k IH]; intros t Hlo Hn; cbn [log_slice]; [done|].
  destruct (view_entry _ _ _ Hv t ltac:(lia)) as (p & e & _ & _ & He & _ & _ & Hr). rewrite He.
  constructor; [done|]. apply IH; lia.
Qed.

Lemma find_first_write_ok st lo n start end_ ino a b :
  log_view st lo n -> lo <= start + 1 -> start < end_ <= n -> a < b ->
  exists r, sivfs_find_first_write st start end_ ino a b = Ok r /\
    ((r <> SIVFS_INVALID_TS /\ start < r <= end_ /\
      (exists e, entry_at st r = Some e /\ entry_hits ino a b e = true) /\
      (forall t e, start < t < r -> entry_at st t = Some e -> entry_hits ino a b e = false))
     \/ (r = SIVFS_INVALID_TS /\
         forall t e, start < t <= end_ -> entry_at st t = Some e -> entry_hits ino a b e = false)).
Proof.
  intros Hv Hlo He Hab. pose proof (lv_n _ _ _ Hv). pose proof (lv_lo _ _ _ Hv).
  unfold sivfs_find_first_write.
  rewrite (proj2 (Z.ltb_ge _ _)), (proj2 (Z.leb_gt _ _)), (proj2 (Z.eqb_neq _ _)) by lia. cbn [orb].
  rewrite uadd_small by u64_lia.
  destruct (ts_to_log_entry_ok _ _ _ Hv (start + 1) end_ ltac:(lia)) as (p & -> & Hp). cbn [rbind].
  set (k := Z.to_nat (end_ - (start + 1))).
  rewrite (log_iter_slice _ _ _ Hv _ _ end_ k (start + 1)) by (unfold log_fuel, k; done || lia).
  rewrite fold_find by (eapply view_slice_repr; [done|lia|unfold k; lia]).
  pose proof (find_slice_spec (entry_hits ino a b) _ _ _ (start + 1) (1 + k) Hv Hlo ltac:(unfold k; lia)) as Hs.
  destruct (List.find _ _) as [e|]; simpl; eexists; (split; [done|]).
  - left. destruct Hs as (Ht & ? & ? & Hb). unfold k in Ht. split_and!; try lia; eauto.
    + rewrite invalid_ts_val, two64_val. lia.
    + intros t e' Ht'. apply Hb. lia.
  - right. split; [done|]. intros t e Ht'. apply Hs. unfold k. lia.
Qed.

(** sivfs_find_first_write over a range that is still in the log always
    answers: with the first timestamp in (start, end] of a transaction that
    did not abort and has a write into the byte range, or with the invalid
    timestamp exactly when there is none. *)
Theorem find_first_write_first st lo n start end_ ino a b :
  log_view st lo n -> lo <= start + 1 -> start < end_ <= n -> a < b ->
  exists r, sivfs_find_first_write st start end_ ino a b = Ok r /\
    ((r <> SIVFS_INVALID_TS /\ start < r <= end_ /\
      (exists e, entry_at st r = Some e /\ entry_hits ino a b e = true) /\
      (forall t e, start < t < r -> entry_at st t = Some e -> entry_hits ino a b e = false))
     \/ (r = SIVFS_INVALID_TS /\
         forall t e, start < t <= end_ -> entry_at st t = Some e -> entry_hits ino a b e = false)).
Proof. apply find_first_write_ok. Qed.

Lemma find_first_write_first_witness :
  exists r, sivfs_find_first_write sample_log3 1 3 7 0 4096 = Ok r /\
    ((r <> SIVFS_INVALID_TS /\ 1 < r <= 3 /\
      (exists e, entry_at sample_log3 r = Some e /\ entry_hits 7 0 4096 e = true) /\
      (forall t e, 1 < t < r -> entry_at sample_log3 t = Some e -> entry_hits 7 0 4096 e = false))
     \/ (r = SIVFS_INVALID_TS /\
         forall t e, 1 < t <= 3 -> entry_at sample_log3 t = Some e -> entry_hits 7 0 4096 e = false)).
Proof. apply (find_first_write_first sample_log3 1 3 1 3 7 0 4096); [apply sample_log3_view|lia..]. Defined.

(** When the insertion into the log cache fails and the entry was to go
    into the current chunk, the error path frees that chunk although the log
    still uses it: the latest entry becomes inaccessible while
    [master_log.latest] keeps pointing to it. *)
Theorem failed_insert_frees_live_chunk st p ts lw km :
  log_inv st -> log_latest (ls_log st) = Some p -> 0 <= ws_size_bytes (le_ws lw) < 2 ^ 62 ->
  SIZEOF_LOG_ENTRY + ws_size_bytes (le_ws lw) <= log_bytes_remaining_chunk (ls_log st) ->
  ls_cache st !! ts = None ->
  exists st', commit_append km false ts lw st = (Err ENOMEM, st') /\
    is_Some (ls_ents st !! p) /\ log_latest (ls_log st') = Some p /\ ls_ents st' !! p = None.
Proof.
  intros [Hi Hlat] Hp Hwb Hrem Hts. destruct (Hlat p Hp) as [Hlive (c & Hc & Hin)].
  pose proof (lh_chunk_ok _ Hi _ _ Hc) as Hok.
  unfold commit_append, sivfs_create_log_entry, sivfs_allocate_log_insert_log_cache.
  rewrite (uadd_small SIZEOF_LOG_ENTRY) by (unfold SIZEOF_LOG_ENTRY in *; u64_lia).
  unfold bind, log_pick_chunk. rewrite (proj2 (Z.ltb_ge _ _)) by lia.
  unfold modify, log_cache_insert, radix_tree_insert. cbn [set_ents ls_cache ls_chunks ls_log].
  unfold radix_tree_lookup. simpl. rewrite Hts. unfold kfree_chunk. cbn [ls_chunks].
  rewrite (proj2 (Z.eqb_neq _ 0)) by lia. rewrite Hc. eexists. split; [reflexivity|].
  split_and!; try done. cbn [ls_ents]. apply map_lookup_filter_None. right.
  intros x _. simpl. tauto.
Qed.

Lemma failed_insert_frees_live_chunk_witness :
  exists st', commit_append None false 3 (writeset_entry [word_write 7 16 4]) sample_log2
      = (Err ENOMEM, st') /\
    is_Some (ls_ents sample_log2 !! 4200) /\ log_latest (ls_log st') = Some 4200
    /\ ls_ents st' !! 4200 = None.
Proof.
  apply (failed_insert_frees_live_chunk sample_log2 4200 3); try (vm_compute; done).
  apply (lv_inv _ _ _ sample_log2_view).
Defined.
