(* ===== verification/Commit.v ===== *)
(** Commit: validation and the three phases of sivfs_commit_changes
    (kern/sivfs_commit_update_checkpoints.c). *)
From S2P Require Import Prelude Types RadixTree Writeset Log LogView.

(** ** Validation *)

(** [ent->ino] and [ent->file_offset]. *)
Definition ent_key (buf : list Z) (ent : Z) : res (Z * Z) :=
  let? ino := rd buf ent in
  let? off := rd buf (ent + 1) in
  Ok (ino, off).

Definition sivfs_ws_ent_conflicts (a b : Z * Z) : bool :=
  (a.1 =? b.1) && (a.2 =? b.2).

Definition sivfs_ws_ent_conflicts_log (conflict_ent : Z * Z) (log : sivfs_log_entry) : res bool :=
  match ws_walk (le_ws log) (fun ent _ conflicts =>
          match ent_key (ws_entries (le_ws log)) ent with
          | Ok k => if sivfs_ws_ent_conflicts k conflict_ent then (Ok Break, true)
                    else (Ok Continue, conflicts)
          | _ => (Fault, conflicts)
          end) false with
  | (Ok _, conflicts) => Ok conflicts
  | (Err e, _) => Err e
  | (Fault, _) => Fault
  | (OutOfFuel, _) => OutOfFuel
  end.

(** The value of [log_writeset->aborted] afterwards. *)
Definition _sivfs_validate (log_writeset other_log : sivfs_log_entry) : res bool :=
  if le_aborted other_log then Ok (le_aborted log_writeset)
  else
    match ws_walk (le_ws log_writeset) (fun ent _ aborted =>
            match ent_key (ws_entries (le_ws log_writeset)) ent with
            | Ok k =>
              match sivfs_ws_ent_conflicts_log k other_log with
              | Ok true => (Ok Break, true)
              | Ok false => (Ok Continue, aborted)
              | Err _ => (Ok Break, true)
              | Fault => (Fault, aborted)
              | OutOfFuel => (OutOfFuel, aborted)
              end
            | _ => (Fault, aborted)
            end) (le_aborted log_writeset) with
    | (Ok _, aborted) => Ok aborted
    | (Err _, _) => Ok true
    | (Fault, _) => Fault
    | (OutOfFuel, _) => OutOfFuel
    end.

Inductive vnext : Type := VDone | VAborted | VNext (clog : Z).

(** One iteration of the loop of sivfs_validate. *)
Definition validate_iter (log_writeset clog ts_stop : Z) : M log_state vnext :=
  let! me := load_ent log_writeset in
  let! other := load_ent clog in
  let! aborted := lift (_sivfs_validate me other) in
  do! store_ent log_writeset (with_aborted aborted me) in
  if aborted then ret VAborted
  else if le_ts other =? ts_stop then ret VDone
  else
    match le_next other with
    | None => ret VDone
    | Some next_clog =>
      let! e := load_ent next_clog in
      if ts_stop <? le_ts e then ret VDone else ret (VNext next_clog)
    end.

Definition set_aborted (log_writeset : Z) : M log_state unit :=
  let! me := load_ent log_writeset in
  store_ent log_writeset (with_aborted true me).

Fixpoint validate_loop (fuel : nat) (log_writeset clog ts_stop : Z) : M log_state unit :=
  match fuel with
  | O => lift OutOfFuel
  | S fuel =>
    let! r := validate_iter log_writeset clog ts_stop in
    match r with
    | VDone => ret tt
    | VAborted => set_aborted log_writeset
    | VNext next_clog => validate_loop fuel log_writeset next_clog ts_stop
    end
  end.

(** A missing first entry is dereferenced by [_sivfs_validate]. *)
Definition sivfs_validate (log_writeset ts_start ts_stop : Z) : M log_state unit := fun st =>
  if ts_stop <? ts_start then set_aborted log_writeset st
  else
    match sivfs_ts_to_log_entry ts_start ts_start ts_stop st with
    | Ok (Some clog) => validate_loop (log_fuel ts_start ts_stop) log_writeset clog ts_stop st
    | Ok None => (Fault, st)
    | Err _ => set_aborted log_writeset st
    | Fault => (Fault, st)
    | OutOfFuel => (OutOfFuel, st)
    end.

(** ** Conflicts between write sets *)

Definition wse_key (e : wse) : Z * Z := (e_ino e, e_offset e).

Definition ws_conflict (es es' : list wse) : bool :=
  existsb (fun a => existsb (fun b => sivfs_ws_ent_conflicts (wse_key b) (wse_key a)) es') es.

Lemma ent_conflicts_spec a b : sivfs_ws_ent_conflicts a b = true <-> a = b.
Proof.
  destruct a as [i o], b as [i' o']. unfold sivfs_ws_ent_conflicts. simpl.
  rewrite andb_true_iff, !Z.eqb_eq. split; [by intros [-> ->]|by intros [= -> ->]].
Qed.

Lemma ws_conflict_spec es es' : ws_conflict es es' = true <->
  exists a b, a ∈ es /\ b ∈ es' /\ wse_key a = wse_key b.
Proof.
  unfold ws_conflict. rewrite existsb_exists. split.
  - intros (a & Ha%list_elem_of_In & (b & Hb%list_elem_of_In & Hk%ent_conflicts_spec)%existsb_exists).
    by exists a, b.
  - intros (a & b & Ha & Hb & Hk). exists a. split; [by apply list_elem_of_In|].
    apply existsb_exists. exists b. split; [by apply list_elem_of_In|]. by apply ent_conflicts_spec.
Qed.

Lemma ent_key_encoded buf i e : buf_at buf i (encode_wse e) -> ent_key buf i = Ok (wse_key e).
Proof. intros H. unfold ent_key. by destruct (rd_fields _ _ _ H) as (-> & -> & _). Qed.

(** A walk that stops at the first entry satisfying [p]. *)
Lemma foldM_exists {A} (p : A -> bool) l b :
  foldM (fun a s => if p a then (Ok Break, true) else (Ok Continue, s)) l b = (Ok tt, b || existsb p l).
Proof.
  induction l as [|a l IH]; cbn [foldM existsb]; [by rewrite orb_false_r|].
  unfold bind. destruct (p a); simpl; [by rewrite orb_true_r|apply IH].
Qed.

Lemma conflicts_log_spec k log es : ws_repr (le_ws log) es ->
  sivfs_ws_ent_conflicts_log k log = Ok (existsb (fun b => sivfs_ws_ent_conflicts (wse_key b) k) es).
Proof.
  intros Hr. unfold sivfs_ws_ent_conflicts_log.
  rewrite (ws_walk_encoded _ es _ (fun b s =>
    if sivfs_ws_ent_conflicts (wse_key b) k then (Ok Break, true) else (Ok Continue, s))); [|done|].
  - by rewrite foldM_exists.
  - intros i e s Hb _. by rewrite (ent_key_encoded _ _ _ Hb).
Qed.

Lemma validate_one_spec me other es es' : ws_repr (le_ws me) es -> ws_repr (le_ws other) es' ->
  _sivfs_validate me other = Ok (le_aborted me || (negb (le_aborted other) && ws_conflict es es')).
Proof.
  intros Hr Hr'. unfold _sivfs_validate. destruct (le_aborted other); simpl; [by rewrite orb_false_r|].
  rewrite (ws_walk_encoded _ es _ (fun a s =>
    if existsb (fun b => sivfs_ws_ent_conflicts (wse_key b) (wse_key a)) es'
    then (Ok Break, true) else (Ok Continue, s))); [|done|].
  - by rewrite foldM_exists.
  - intros i e s Hb _. rewrite (ent_key_encoded _ _ _ Hb), (conflicts_log_spec _ _ _ Hr').
    by destruct (existsb _ _).
Qed.

(** ** Updating the status of an entry in place *)

Definition same_identity (e e' : sivfs_log_entry) : Prop :=
  le_ts e' = le_ts e /\ le_ws e' = le_ws e /\ le_first_in_chunk e' = le_first_in_chunk e /\
  le_next e' = le_next e.

Definition put_ent (a : Z) (e : sivfs_log_entry) (st : log_state) : log_state :=
  set_ents (<[a := e]> (ls_ents st)) st.

Lemma put_ent_view st lo n t a e e' : log_view st lo n -> ls_cache st !! t = Some a ->
  ls_ents st !! a = Some e -> same_identity e e' ->
  log_view (put_ent a e' st) lo n /\ entry_at (put_ent a e' st) t = Some e' /\
  forall t', t' <> t -> entry_at (put_ent a e' st) t' = entry_at st t'.
Proof.
  intros Hv Ha He (Hts & Hws & Hf & Hnx). split_and!.
  - split; cbn [put_ent set_ents ls_cache ls_ents ls_log ls_deleted_ts]; try apply Hv.
    + apply (update_ent_log_inv _ _ e); [apply Hv|done|by rewrite Hws|done].
    + intros t' p Hp. destruct (lv_ent _ _ _ Hv _ _ Hp) as (x & Hx & ? & ? & ?).
      rewrite lookup_insert. case_decide; subst; [|eauto]. exists e'. simplify_eq.
      rewrite Hts, Hnx, Hws. done.
  - unfold entry_at. simpl. rewrite Ha. simpl. by rewrite lookup_insert_eq.
  - intros t' Ht'. unfold entry_at. simpl. destruct (ls_cache st !! t') as [p|] eqn:Hp; [|done]. simpl.
    rewrite lookup_insert_ne; [done|]. intros ->. apply Ht'.
    by apply (lh_cache_inj _ (proj1 (lv_inv _ _ _ Hv)) _ _ p).
Qed.

(** One validation iteration, in the view. *)
Lemma validate_iter_ok st lo n c T a clog me other es es' :
  log_view st lo n -> lo <= c < T -> T <= n ->
  ls_cache st !! T = Some a -> ls_ents st !! a = Some me -> ws_repr (le_ws me) es ->
  ls_cache st !! c = Some clog -> ls_ents st !! clog = Some other -> ws_repr (le_ws other) es' ->
  le_aborted me = false ->
  let b := negb (le_aborted other) && ws_conflict es es' in
  exists r, validate_iter a clog (T - 1) st = (Ok r, put_ent a (with_aborted b me) st) /\
    (if b then r = VAborted
     else if decide (c = T - 1) then r = VDone
     else exists q, r = VNext q /\ ls_cache st !! (c + 1) = Some q).
Proof.
  intros Hv Hc HT Ha Hme Hr Hcl Hot Hr' Hab b.
  unfold validate_iter. rewrite (bind_step _ _ _ _ _ (load_ent_ok _ _ _ Hme)).
  rewrite (bind_step _ _ _ _ _ (load_ent_ok _ _ _ Hot)), (validate_one_spec me other es es') by done.
  rewrite Hab. cbn [orb]. fold b. rewrite (bind_step (lift (Ok b)) _ st b st eq_refl).
  rewrite (bind_step _ _ _ _ _ (store_ent_ok _ _ _ _ Hme)). fold (put_ent a (with_aborted b me) st).
  destruct b; [by exists VAborted|].
  destruct (lv_ent _ _ _ Hv _ _ Hcl) as (x & Hx & Hts & Hnx & _). rewrite Hot in Hx. injection Hx as <-.
  case_decide as Ec; [exists VDone; by rewrite Hts, (proj2 (Z.eqb_eq _ _))|].
  rewrite Hts, (proj2 (Z.eqb_neq c (T - 1))), Hnx by done.
  destruct (view_entry _ _ _ Hv (c + 1) ltac:(lia)) as (q & e & Hq & He & _ & Hets & _).
  rewrite Hq. exists (VNext q). split; [|by exists q].
  assert (exists e', ls_ents (put_ent a (with_aborted false me) st) !! q = Some e' /\ le_ts e' = c + 1)
    as (e' & He' & Hts').
  { simpl. rewrite lookup_insert. case_decide; [|by exists e]. subst q. eexists. split; [done|].
    simpl. congruence. }
  rewrite (bind_step _ _ _ _ _ (load_ent_ok _ _ _ He')), Hts'.
  by rewrite (proj2 (Z.ltb_ge _ _)) by lia.
Qed.

(** ** sivfs_validate as a whole *)

Definition ws_keys (e : sivfs_log_entry) : list (Z * Z) :=
  (fun '(ino, off, _, _) => (ino, off)) <$> (ws_contents (le_ws e)).2.

(** [other] did not abort and wrote a word that [me] also wrote. *)
Definition entry_conflicts (me other : sivfs_log_entry) : bool :=
  negb (le_aborted other) &&
  existsb (fun a => existsb (fun b => sivfs_ws_ent_conflicts b a) (ws_keys other)) (ws_keys me).

Lemma ws_keys_repr e es : ws_repr (le_ws e) es -> ws_keys e = wse_key <$> es.
Proof.
  intros Hr. unfold ws_keys. rewrite (ws_contents_repr _ _ Hr). simpl.
  rewrite <- list_fmap_compose. by apply list_fmap_ext.
Qed.

Lemma existsb_fmap {A B} (f : A -> B) (p : B -> bool) l :
  existsb p (f <$> l) = existsb (fun a => p (f a)) l.
Proof. induction l as [|a l IH]; [done|]. rewrite fmap_cons. simpl. by rewrite IH. Qed.

Lemma entry_conflicts_repr me other es es' : ws_repr (le_ws me) es -> ws_repr (le_ws other) es' ->
  entry_conflicts me other = negb (le_aborted other) && ws_conflict es es'.
Proof.
  intros Hr Hr'. unfold entry_conflicts, ws_conflict. f_equal.
  rewrite (ws_keys_repr _ _ Hr), (ws_keys_repr _ _ Hr'), existsb_fmap.
  clear Hr. induction es as [|a es IH]; [done|]. simpl. by rewrite existsb_fmap, IH.
Qed.

Lemma same_identity_aborted b e : same_identity e (with_aborted b e).
Proof. done. Qed.

Lemma with_aborted_id e : le_aborted e = false -> with_aborted false e = e.
Proof. destruct e. simpl. by intros ->. Qed.

Lemma put_ent_id a e st : ls_ents st !! a = Some e -> put_ent a e st = st.
Proof. intros H. unfold put_ent. rewrite insert_id by done. by destruct st. Qed.

Lemma set_aborted_put a me st :
  set_aborted a (put_ent a (with_aborted true me) st) = (Ok tt, put_ent a (with_aborted true me) st).
Proof.
  assert (H : ls_ents (put_ent a (with_aborted true me) st) !! a = Some (with_aborted true me))
    by apply lookup_insert_eq.
  unfold set_aborted. rewrite (bind_step _ _ _ _ _ (load_ent_ok _ _ _ H)), (store_ent_ok _ _ _ _ H).
  f_equal. by apply put_ent_id.
Qed.

Section validate.
Context (lo n T a : Z) (me : sivfs_log_entry) (st : log_state).
Context (HT : T <= n) (Hab : le_aborted me = false) (Hv : log_view st lo n).
Context (Ha : ls_cache st !! T = Some a) (Hme : ls_ents st !! a = Some me).

(** Validation against [c], ..., [T - 1]. *)
Lemma validate_loop_ok k : forall c clog fuel,
  lo <= c -> T = c + 1 + Z.of_nat k -> (k < fuel)%nat -> ls_cache st !! c = Some clog ->
  validate_loop fuel a clog (T - 1) st =
    (Ok tt, put_ent a (with_aborted (existsb (entry_conflicts me) (log_slice st c (1 + k))) me) st).
Proof.
  destruct (lv_ent _ _ _ Hv _ _ Ha) as (x & Hx & _ & _ & (es & Hr)).
  rewrite Hme in Hx. injection Hx as <-.
  induction k as [|k IH]; intros c clog fuel Hlo Hk Hf Hc; destruct fuel as [|fuel]; try lia;
    cbn [validate_loop Nat.add log_slice];
    destruct (view_entry _ _ _ Hv c ltac:(lia)) as (p & other & Hp & Ho & Hoc & _ & _ & (es' & Hr'));
    rewrite Hc in Hp; injection Hp as <-; rewrite Hoc; cbn [existsb];
    rewrite (entry_conflicts_repr _ _ _ _ Hr Hr');
    destruct (validate_iter_ok st lo n c T a clog me other es es' Hv) as (r & Hit & Hres);
      try done; try lia;
    rewrite (bind_step _ _ _ _ _ Hit); clear Hit;
    destruct (negb (le_aborted other) && ws_conflict es es');
    try (subst r; apply set_aborted_put); rewrite (with_aborted_id me Hab) in *;
    rewrite (put_ent_id a me st Hme).
  - rewrite decide_True in Hres by lia. subst r. simpl. by rewrite with_aborted_id, put_ent_id.
  - rewrite decide_False in Hres by lia. destruct Hres as (q & -> & Hq).
    rewrite (IH (c + 1) q) by (done || lia). by cbn [orb].
Qed.

Lemma validate_ok ts_start : lo <= ts_start < T ->
  sivfs_validate a ts_start (T - 1) st =
    (Ok tt, put_ent a (with_aborted (existsb (entry_conflicts me)
       (log_slice st ts_start (Z.to_nat (T - ts_start)))) me) st).
Proof.
  intros Hs. unfold sivfs_validate. rewrite (proj2 (Z.ltb_ge _ _)) by lia.
  destruct (ts_to_log_entry_ok _ _ _ Hv ts_start (T - 1) ltac:(lia)) as (p & -> & Hp).
  rewrite (validate_loop_ok (Z.to_nat (T - 1 - ts_start)) ts_start) by (unfold log_fuel; done || lia).
  do 5 f_equal. lia.
Qed.
End validate.

(** ** sivfs_commit_changes, running alone *)

Record commit_state : Type := mk_cs {
  cs_log : log_state;
  cs_commit_started_ts : Z;
  cs_master_ts : Z
}.

Definition on_log {A} (m : M log_state A) : M commit_state A := fun s =>
  let '(r, l) := m (cs_log s) in (r, mk_cs l (cs_commit_started_ts s) (cs_master_ts s)).

(** Phase I, with [commit_lock] held: (next_ts, log_dest). *)
Definition commit_phase_I (km : option Z) (ins : bool) (log_writeset : sivfs_log_entry)
    : M commit_state (Z * Z) :=
  let! next_ts := gets (fun s => uadd (cs_commit_started_ts s) 1) in
  let! log_dest := on_log (commit_append km ins next_ts log_writeset) in
  do! modify (fun s => mk_cs (cs_log s) next_ts (cs_master_ts s)) in
  ret (next_ts, log_dest).

(** Phase II: validate, then publish the commit status. *)
Definition commit_phase_II (state_ts next_ts log_dest : Z) : M commit_state unit :=
  do! (if uadd state_ts 2 <=? next_ts
       then on_log (sivfs_validate log_dest (uadd state_ts 1) (usub next_ts 1))
       else ret tt) in
  let! e := on_log (load_ent log_dest) in
  on_log (store_ent log_dest (with_filled true e)).

(** Phase III: wait for the predecessor (running alone, a mismatch waits for
    ever), release the timestamp. The result is the pair stored through [out_ts] and [aborted]. *)
Definition commit_phase_III (next_ts log_dest : Z) : M commit_state (Z * bool) :=
  let! master := gets cs_master_ts in
  if master =? usub next_ts 1 then
    do! modify (fun s => mk_cs (cs_log s) (cs_commit_started_ts s) next_ts) in
    let! e := on_log (load_ent log_dest) in
    ret (next_ts, le_aborted e)
  else lift OutOfFuel.

Definition sivfs_commit_changes (km : option Z) (ins : bool) (state_ts : Z)
    (log_writeset : sivfs_log_entry) : M commit_state (Z * bool) :=
  let! p := commit_phase_I km ins log_writeset in
  let '(next_ts, log_dest) := p in
  do! commit_phase_II state_ts next_ts log_dest in
  commit_phase_III next_ts log_dest.

Lemma on_log_step {A} (m : M log_state A) s r l :
  m (cs_log s) = (r, l) -> on_log m s = (r, mk_cs l (cs_commit_started_ts s) (cs_master_ts s)).
Proof. intros H. unfold on_log. by rewrite H. Qed.

Lemma entry_conflicts_ext me me' o o' : le_ws me = le_ws me' -> le_ws o = le_ws o' ->
  le_aborted o = le_aborted o' -> entry_conflicts me o = entry_conflicts me' o'.
Proof. intros H1 H2 H3. unfold entry_conflicts, ws_keys. by rewrite H1, H2, H3. Qed.

(** The slice below the new entry has the same conflicts as before the append. *)
Lemma appended_conflicts st st' lo n a es me lw k : forall t,
  log_view st lo n -> appended st st' lo n a es -> ws_keys me = ws_keys lw ->
  lo <= t -> t + Z.of_nat k <= n + 1 ->
  existsb (entry_conflicts me) (log_slice st' t k) = existsb (entry_conflicts lw) (log_slice st t k).
Proof.
  induction k as [|k IH]; intros t Hv A Hk Hlo Hn; [done|]. cbn [log_slice].
  destruct (view_entry _ _ _ Hv t ltac:(lia)) as (p & e & Hp & He & Het & _). rewrite Het.
  destruct (ap_old _ _ _ _ _ _ A _ _ _ Hp He) as [nx He'].
  assert (entry_at st' t = Some (with_next nx e)) as ->.
  { unfold entry_at. rewrite (ap_cache _ _ _ _ _ _ A), Hp by lia. done. }
  cbn [existsb]. rewrite (IH (t + 1)) by (done || lia). f_equal.
  unfold entry_conflicts. rewrite Hk. done.
Qed.

(** Phases II and III once the entry is in the log. *)
Lemma commit_tail_ok l lo n a e state_ts :
  log_view l lo (n + 1) -> ls_cache l !! (n + 1) = Some a -> ls_ents l !! a = Some e ->
  le_aborted e = false -> lo <= state_ts + 1 -> 0 <= state_ts <= n -> n + 1 < 2 ^ 63 ->
  exists s', (do! commit_phase_II state_ts (n + 1) a in commit_phase_III (n + 1) a) (mk_cs l (n + 1) n)
      = (Ok (n + 1, existsb (entry_conflicts e) (log_slice l (state_ts + 1) (Z.to_nat (n - state_ts)))), s')
    /\ cs_commit_started_ts s' = n + 1 /\ cs_master_ts s' = n + 1 /\ log_view (cs_log s') lo (n + 1)
    /\ (forall t, t <= n -> entry_at (cs_log s') t = entry_at l t)
    /\ (exists e', entry_at (cs_log s') (n + 1) = Some e' /\ le_ws e' = le_ws e
          /\ le_commit_status_filled_in e' = true
          /\ le_aborted e' = existsb (entry_conflicts e) (log_slice l (state_ts + 1) (Z.to_nat (n - state_ts)))).
Proof.
  intros Hv Ha He Hab Hlo Hts Hn.
  set (b := existsb _ _).
  destruct (put_ent_view l lo (n + 1) (n + 1) a e (with_aborted b e) Hv Ha He ltac:(done))
    as (Hv1 & He1 & Ho1).
  assert (Hval : (if uadd state_ts 2 <=? n + 1
      then on_log (sivfs_validate a (uadd state_ts 1) (usub (n + 1) 1)) else ret tt) (mk_cs l (n + 1) n)
      = (Ok tt, mk_cs (put_ent a (with_aborted b e) l) (n + 1) n)).
  { rewrite !uadd_small, usub_small by u64_lia. destruct (Z.leb_spec (state_ts + 2) (n + 1)).
    - apply (on_log_step _ (mk_cs l (n + 1) n)). cbn [cs_log].
      rewrite (validate_ok lo (n + 1) (n + 1) a e) by (done || lia). unfold b.
      do 6 f_equal. lia.
    - assert (b = false) as ->. { unfold b. by replace (Z.to_nat (n - state_ts)) with 0%nat by lia. }
      by rewrite with_aborted_id, put_ent_id. }
  assert (Ha1 : ls_ents (put_ent a (with_aborted b e) l) !! a = Some (with_aborted b e))
    by apply lookup_insert_eq.
  destruct (put_ent_view _ lo (n + 1) (n + 1) a _ (with_filled true (with_aborted b e)) Hv1 Ha Ha1 ltac:(done))
    as (Hv2 & He2 & Ho2).
  eexists. split.
  - assert (HII : commit_phase_II state_ts (n + 1) a (mk_cs l (n + 1) n)
      = (Ok tt, mk_cs (put_ent a (with_filled true (with_aborted b e)) (put_ent a (with_aborted b e) l)) (n + 1) n)).
    { unfold commit_phase_II. rewrite (bind_step _ _ _ _ _ Hval).
      rewrite (bind_step _ _ _ _ _ (on_log_step _ (mk_cs _ _ _) _ _ (load_ent_ok _ _ _ Ha1))).
      apply (on_log_step _ (mk_cs _ _ _)). by apply (store_ent_ok _ _ _ _ Ha1). }
    rewrite (bind_step _ _ _ _ _ HII).
    unfold commit_phase_III, bind, gets, modify. cbn [cs_log cs_commit_started_ts cs_master_ts].
    rewrite usub_small, Z.add_simpl_r, Z.eqb_refl by u64_lia.
    unfold on_log, load_ent. cbn [cs_log]. unfold put_ent at 1 2. cbn [set_ents ls_ents].
    rewrite lookup_insert_eq. reflexivity.
  - cbn [cs_log cs_commit_started_ts cs_master_ts]. split_and!; try done.
    + intros t Ht. fold (put_ent a (with_filled true (with_aborted b e)) (put_ent a (with_aborted b e) l)).
      rewrite Ho2, Ho1 by lia. done.
    + eexists. split; [exact He2|done].
Qed.

(** What a commit running alone does. *)
Lemma commit_changes_ok l lo n state_ts lw es km :
  log_view l lo n -> n + 1 < 2 ^ 63 -> ws_repr (le_ws lw) es ->
  (forall p, km = Some p -> fresh_chunk l p (new_chunk_bytes (ws_size_bytes (le_ws lw)))) ->
  0 <= state_ts <= n -> lo <= state_ts + 1 ->
  (exists s', sivfs_commit_changes km true state_ts lw (mk_cs l n n)
      = (Ok (n + 1, existsb (entry_conflicts lw)
                      (log_slice l (state_ts + 1) (Z.to_nat (n - state_ts)))), s')
    /\ cs_commit_started_ts s' = n + 1 /\ cs_master_ts s' = n + 1 /\ log_view (cs_log s') lo (n + 1)
    /\ (exists e, entry_at (cs_log s') (n + 1) = Some e /\ ws_repr (le_ws e) es
          /\ le_commit_status_filled_in e = true
          /\ le_aborted e = existsb (entry_conflicts lw) (log_slice l (state_ts + 1) (Z.to_nat (n - state_ts))))
    /\ (forall t e, t <= n -> entry_at l t = Some e ->
          exists nx, entry_at (cs_log s') t = Some (with_next nx e)))
  \/ (km = None /\ sivfs_commit_changes km true state_ts lw (mk_cs l n n) = (Err ENOMEM, mk_cs l n n)).
Proof.
  intros Hv Hn Hr Hkm Hts Hlo. pose proof (lv_n _ _ _ Hv).
  unfold sivfs_commit_changes, commit_phase_I.
  rewrite bind_assoc, (bind_step (gets _) _ (mk_cs l n n) (n + 1) (mk_cs l n n)) by
    (unfold gets; simpl; by rewrite uadd_small by u64_lia).
  destruct (append_ok l lo n Hv Hn lw es Hr km Hkm) as [(a & l1 & E & A)|[-> E]]; [left|right].
  - rewrite bind_assoc, (bind_step _ _ _ _ _ (on_log_step _ (mk_cs l n n) _ _ E)).
    destruct (ap_new _ _ _ _ _ _ A) as (e & He & Hre & Hab & _).
    destruct (commit_tail_ok l1 lo n a e state_ts (ap_view _ _ _ _ _ _ A) (ap_at _ _ _ _ _ _ A) He Hab
      Hlo Hts Hn) as (s' & E' & ? & ? & ? & Hold & (e' & ? & Hws & ? & Hab')).
    assert (Hk : ws_keys e = ws_keys lw) by (by rewrite (ws_keys_repr _ _ Hr), (ws_keys_repr _ _ Hre)).
    rewrite (appended_conflicts l l1 lo n a es e lw) in E', Hab' by (done || lia).
    exists s'. split_and!; try done.
    + exists e'. rewrite Hws. done.
    + intros t e0 Ht. rewrite Hold by done. unfold entry_at.
      rewrite (ap_cache _ _ _ _ _ _ A) by done. destruct (ls_cache l !! t) as [p|] eqn:Hp; [|done].
      simpl. intros He0. by eapply A.
  - split; [done|]. by rewrite bind_assoc, (bind_err _ _ _ _ _ (on_log_step _ (mk_cs l n n) _ _ E)).
Qed.

(** A commit running alone. It never faults or blocks: it gets the next
    timestamp, its outcome is "aborted" exactly when some transaction that
    committed after its snapshot wrote a word it writes too, the log records
    its writes with the status filled in, and older entries keep their contents
    and outcome; running out of memory reports ENOMEM and changes nothing. *)
Theorem commit_changes_outcome l lo n state_ts lw es km :
  log_view l lo n -> n + 1 < 2 ^ 63 -> ws_repr (le_ws lw) es ->
  (forall p, km = Some p -> fresh_chunk l p (new_chunk_bytes (ws_size_bytes (le_ws lw)))) ->
  0 <= state_ts <= n -> lo <= state_ts + 1 ->
  (exists s', sivfs_commit_changes km true state_ts lw (mk_cs l n n)
      = (Ok (n + 1, existsb (entry_conflicts lw)
                      (log_slice l (state_ts + 1) (Z.to_nat (n - state_ts)))), s')
    /\ cs_commit_started_ts s' = n + 1 /\ cs_master_ts s' = n + 1 /\ log_view (cs_log s') lo (n + 1)
    /\ (exists e, entry_at (cs_log s') (n + 1) = Some e /\ ws_repr (le_ws e) es
          /\ le_commit_status_filled_in e = true)
    /\ (forall t e, t <= n -> entry_at l t = Some e ->
          exists nx, entry_at (cs_log s') t = Some (with_next nx e)))
  \/ (km = None /\ sivfs_commit_changes km true state_ts lw (mk_cs l n n) = (Err ENOMEM, mk_cs l n n)).
Proof.
  intros Hv Hn Hr Hkm Hts Hlo.
  destruct (commit_changes_ok l lo n state_ts lw es km Hv Hn Hr Hkm Hts Hlo) as [(s' & ? & ? & ? & ? & (e & ? & ? & ? & _) & ?)|?]; [left|by right].
  exists s'. split_and!; try done. by exists e.
Qed.

Lemma commit_changes_outcome_witness :
  (exists s', sivfs_commit_changes (Some 16384) true 1 (writeset_entry [word_write 7 16 4]) (mk_cs sample_log3 3 3)
      = (Ok (3 + 1, existsb (entry_conflicts (writeset_entry [word_write 7 16 4]))
                      (log_slice sample_log3 (1 + 1) (Z.to_nat (3 - 1)))), s')
    /\ cs_commit_started_ts s' = 3 + 1 /\ cs_master_ts s' = 3 + 1 /\ log_view (cs_log s') 1 (3 + 1)
    /\ (exists e, entry_at (cs_log s') (3 + 1) = Some e /\ ws_repr (le_ws e) [word_write 7 16 4]
          /\ le_commit_status_filled_in e = true)
    /\ (forall t e, t <= 3 -> entry_at sample_log3 t = Some e ->
          exists nx, entry_at (cs_log s') t = Some (with_next nx e)))
  \/ (Some 16384 = None /\ sivfs_commit_changes (Some 16384) true 1 (writeset_entry [word_write 7 16 4])
        (mk_cs sample_log3 3 3) = (Err ENOMEM, mk_cs sample_log3 3 3)).
Proof.
  apply (commit_changes_outcome sample_log3 1 3); [apply sample_log3_view|lia| | |lia|lia].
  - apply ws_of_repr; [repeat constructor|done].
  - intros p [= <-]. by apply fresh_by_size; [| |vm_compute].
Defined.
