(* ===== verification/Protocol.v ===== *)
(** Concurrent transactions.

    The commit protocol of kern/sivfs_commit_update_checkpoints.c as a
    transition system over any number of threads: each step is one atomic
    section of the code (the locked phase I, the lookup of the first concurrent
    log entry, one iteration of the validation loop, the publication of the
    commit status, the release of the timestamp; the double-read checkout of
    the latest checkpoint of my_sivfs_commit_update, the reading of [master_ts],
    the lookup of the first entry to apply, and one entry of the walk of
    sivfs_apply_logs_workingset; the scan and the deletion of sivfs_gc_log; a
    checkpoint being published). The heap is the log heap of Log.v, and the steps
    run the definitions of Commit.v on it. [s_txns] is a ghost record of every
    transaction that ever entered the log, so that the theorems can speak about
    transactions whose entries were collected.

    Two things are left out of the steps, because with them the claims fail and
    they are stated as defects instead: a radix-tree insertion that fails under
    the commit lock frees a chunk that is in use ([failed_insert_frees_live_chunk]
    of Log.v), and between the two writes that publish a checkpoint a new thread
    can go on without any checkpoint ([checkout_skipped_during_publication] of
    Checkout.v); here publication is one step. *)
From S2P Require Import Prelude Types RadixTree Writeset Log LogView Commit.

Record txn : Type := mk_txn {
  tx_snap : Z;
  tx_writes : list wse;
  tx_aborted : bool
}.

Inductive pc : Type :=
  | PStart
  | PRead (c : Z)
  | PWrote (c : Z)
  | PChecked
  | PNext (m : Z)
  | PUpdate (m clog : Z)
  | PTxn
  | PLookup (T a : Z)
  | PValidate (T a clog : Z)
  | PDecided (T a : Z)
  | PFilled (T a : Z).

(** [state->ts], [state->checkpoint_ts], [state->prior_checkpoint_ts]. *)
Record thread : Type := mk_th {
  th_ts : Z;
  th_cp : Z;
  th_prior : Z;
  th_pc : pc
}.

Record sys : Type := mk_sys {
  s_log : log_state;
  s_started : Z;
  s_master : Z;
  s_cp : Z;
  s_gc : option Z;
  s_threads : gmap Z thread;
  s_txns : gmap Z txn
}.

Definition sys_init : sys := mk_sys init_log_state 0 0 0 None ∅ ∅.

Definition with_pc (p : pc) (th : thread) : thread :=
  mk_th (th_ts th) (th_cp th) (th_prior th) p.
Definition set_thread (i : Z) (th : thread) (s : sys) : sys :=
  mk_sys (s_log s) (s_started s) (s_master s) (s_cp s) (s_gc s) (<[i := th]> (s_threads s)) (s_txns s).
Definition drop_thread (i : Z) (s : sys) : sys :=
  mk_sys (s_log s) (s_started s) (s_master s) (s_cp s) (s_gc s) (delete i (s_threads s)) (s_txns s).
Definition with_log (l : log_state) (s : sys) : sys :=
  mk_sys l (s_started s) (s_master s) (s_cp s) (s_gc s) (s_threads s) (s_txns s).

(** sivfs_get_checked_out_versions: both checkpoint timestamps of every thread. *)
Definition sivfs_get_checked_out_versions (s : sys) : list Z :=
  map_to_list (s_threads s) ≫= fun '(_, th) => [th_cp th; th_prior th].

(** The timestamp below which sivfs_gc_log deletes the log. *)
Definition gc_log_stop (s : sys) : Z :=
  foldl Z.min (s_cp s) (sivfs_get_checked_out_versions s).

Definition abort_txn (T : Z) (b : bool) (m : gmap Z txn) : gmap Z txn :=
  alter (fun x => mk_txn (tx_snap x) (tx_writes x) b) T m.

(** One iteration of the loop of sivfs_apply_logs_workingset, as far as the log
    is concerned: the entry is read, and the next one is looked at. *)
Definition update_iter (clog ts_stop : Z) : M log_state (option Z) :=
  let! e := load_ent clog in
  if le_ts e =? ts_stop then ret None
  else
    match le_next e with
    | None => ret None
    | Some next_clog =>
      let! e' := load_ent next_clog in
      if ts_stop <? le_ts e' then ret None else ret (Some next_clog)
    end.

(** The end of an update to [m]: [state->ts] and the checkpoint let go of. *)
Definition updated (m : Z) (th : thread) : thread := mk_th m (th_cp th) (th_cp th) PTxn.

(** sivfs_update and sivfs_update_direct_access have no log entry to apply. *)
Definition nothing_to_apply (s : sys) (th : thread) (m : Z) : Prop :=
  th_ts th = SIVFS_INVALID_TS \/ m <= th_ts th \/ (th_cp th = m /\ s_started s = m).

Definition validated_pc (T a : Z) (r : vnext) : pc :=
  match r with VNext q => PValidate T a q | _ => PDecided T a end.

Inductive step : sys -> sys -> Prop :=
  | step_new s i : s_threads s !! i = None ->
      step s (set_thread i (mk_th SIVFS_INVALID_TS SIVFS_INVALID_TS SIVFS_INVALID_TS PStart) s)
  | step_exit s i th : s_threads s !! i = Some th -> th_pc th = PStart -> step s (drop_thread i s)
  | step_checkpoint s c : s_cp s <= c <= s_master s ->
      step s (mk_sys (s_log s) (s_started s) (s_master s) c (s_gc s) (s_threads s) (s_txns s))
  | step_reuse s i th : s_threads s !! i = Some th -> th_pc th = PStart -> th_cp th = s_cp s ->
      step s (set_thread i (with_pc PChecked th) s)
  | step_read s i th : s_threads s !! i = Some th -> th_pc th = PStart ->
      step s (set_thread i (with_pc (PRead (s_cp s)) th) s)
  | step_write s i th c : s_threads s !! i = Some th -> th_pc th = PRead c ->
      step s (set_thread i (mk_th (th_ts th) c (th_prior th) (PWrote c)) s)
  | step_recheck s i th c : s_threads s !! i = Some th -> th_pc th = PWrote c ->
      step s (set_thread i (with_pc (if s_cp s =? c then PChecked else PRead (s_cp s)) th) s)
  | step_next s i th : s_threads s !! i = Some th -> th_pc th = PChecked ->
      step s (set_thread i (with_pc (PNext (s_master s)) th) s)
  | step_update s i th m : s_threads s !! i = Some th -> th_pc th = PNext m -> nothing_to_apply s th m ->
      step s (set_thread i (updated m th) s)
  | step_update_lookup s i th m clog : s_threads s !! i = Some th -> th_pc th = PNext m ->
      th_ts th < m ->
      sivfs_ts_to_log_entry (th_ts th + 1) (th_ts th + 1) m (s_log s) = Ok (Some clog) ->
      step s (set_thread i (with_pc (PUpdate m clog) th) s)
  | step_update_iter s i th m clog r : s_threads s !! i = Some th -> th_pc th = PUpdate m clog ->
      update_iter clog m (s_log s) = (Ok r, s_log s) ->
      step s (set_thread i (match r with Some q => with_pc (PUpdate m q) th | None => updated m th end) s)
  | step_update_fail s i th m clog : s_threads s !! i = Some th -> th_pc th = PUpdate m clog ->
      step s (set_thread i (with_pc PTxn th) s)
  | step_finish s i th : s_threads s !! i = Some th -> th_pc th = PTxn ->
      step s (set_thread i (with_pc PStart th) s)
  | step_commit s i th km lw es a l : s_threads s !! i = Some th -> th_pc th = PTxn ->
      ws_repr (le_ws lw) es ->
      (forall p, km = Some p -> fresh_chunk (s_log s) p (new_chunk_bytes (ws_size_bytes (le_ws lw)))) ->
      s_started s + 1 < 2 ^ 63 ->
      commit_append km true (s_started s + 1) lw (s_log s) = (Ok a, l) ->
      step s (mk_sys l (s_started s + 1) (s_master s) (s_cp s) (s_gc s)
                (<[i := with_pc (PLookup (s_started s + 1) a) th]> (s_threads s))
                (<[s_started s + 1 := mk_txn (th_ts th) es false]> (s_txns s)))
  | step_lookup s i th T a clog : s_threads s !! i = Some th -> th_pc th = PLookup T a ->
      th_ts th + 2 <= T ->
      sivfs_ts_to_log_entry (th_ts th + 1) (th_ts th + 1) (T - 1) (s_log s) = Ok (Some clog) ->
      step s (set_thread i (with_pc (PValidate T a clog) th) s)
  | step_no_concurrent s i th T a : s_threads s !! i = Some th -> th_pc th = PLookup T a ->
      T < th_ts th + 2 ->
      step s (set_thread i (with_pc (PDecided T a) th) s)
  | step_validate s i th T a clog r l : s_threads s !! i = Some th -> th_pc th = PValidate T a clog ->
      validate_iter a clog (T - 1) (s_log s) = (Ok r, l) ->
      step s (mk_sys l (s_started s) (s_master s) (s_cp s) (s_gc s)
                (<[i := with_pc (validated_pc T a r) th]> (s_threads s))
                (abort_txn T (match r with VAborted => true | _ => false end) (s_txns s)))
  | step_fill s i th T a e l : s_threads s !! i = Some th -> th_pc th = PDecided T a ->
      load_ent a (s_log s) = (Ok e, s_log s) ->
      store_ent a (with_filled true e) (s_log s) = (Ok tt, l) ->
      step s (set_thread i (with_pc (PFilled T a) th) (with_log l s))
  | step_release s i th T a : s_threads s !! i = Some th -> th_pc th = PFilled T a ->
      s_master s = T - 1 ->
      step s (mk_sys (s_log s) (s_started s) T (s_cp s) (s_gc s)
                (<[i := with_pc PStart th]> (s_threads s)) (s_txns s))
  | step_gc_scan s : s_gc s = None ->
      step s (mk_sys (s_log s) (s_started s) (s_master s) (s_cp s) (Some (gc_log_stop s))
                (s_threads s) (s_txns s))
  | step_gc_delete s g did l : s_gc s = Some g -> sivfs_delete_log g (s_log s) = (Ok did, l) ->
      step s (mk_sys l (s_started s) (s_master s) (s_cp s) None (s_threads s) (s_txns s)).

Definition reach : sys -> Prop := reachable (fun s => s = sys_init) step.

(** ** The invariant *)

Definition inflight (p : pc) : option Z :=
  match p with
  | PLookup T _ | PValidate T _ _ | PDecided T _ | PFilled T _ => Some T
  | _ => None
  end.

(** The log entries above [y] are and stay in the log. *)
Definition guarded (lo : Z) (gc : option Z) (y : Z) : Prop :=
  lo <= Z.max 1 y /\ forall g, gc = Some g -> g <= y.

(** [T] does not conflict with [t], or [t] aborted. *)
Definition resolved (m : gmap Z txn) (t T : Z) : Prop :=
  forall x y, m !! t = Some x -> m !! T = Some y ->
    tx_aborted x = true \/ ws_conflict (tx_writes y) (tx_writes x) = false.

Definition cleared (m : gmap Z txn) (snap c T : Z) : Prop :=
  forall t, snap < t < c -> resolved m t T.

(** What a thread that owns timestamp [T] and log entry [a] relies on. *)
Record owns (s : sys) (th : thread) (T a : Z) (x : txn) : Prop := {
  ow_range : s_master s < T <= s_started s;
  ow_cache : ls_cache (s_log s) !! T = Some a;
  ow_txn : s_txns s !! T = Some x;
  ow_snap : tx_snap x = th_ts th
}.

Definition pc_inv (s : sys) (lo : Z) (th : thread) : Prop :=
  match th_pc th with
  | PChecked => guarded lo (s_gc s) (th_cp th) /\ th_cp th <= s_cp s
  | PNext m => guarded lo (s_gc s) (th_cp th) /\ th_cp th <= m <= s_master s
  | PUpdate m clog => guarded lo (s_gc s) (th_cp th) /\ th_cp th <= m <= s_master s /\
      m <= s_started s /\ exists t, th_ts th < t <= m /\ ls_cache (s_log s) !! t = Some clog
  | PLookup T a => exists x, owns s th T a x /\ tx_aborted x = false
  | PValidate T a clog => exists x c, owns s th T a x /\ tx_aborted x = false /\ th_ts th < c < T /\
      ls_cache (s_log s) !! c = Some clog /\ cleared (s_txns s) (th_ts th) c T
  | PDecided T a | PFilled T a => exists x, owns s th T a x /\
      (tx_aborted x = true \/ cleared (s_txns s) (th_ts th) T T)
  | PRead c => 0 <= c
  | _ => True
  end.

Definition idle (p : pc) : Prop :=
  match p with PStart | PRead _ | PWrote _ | PChecked | PNext _ => True | _ => False end.

(** The thread is past the double read: its checkpoint timestamp is protected. *)
Definition holds_cp (p : pc) : Prop :=
  match p with PChecked | PNext _ | PUpdate _ _ => True | _ => False end.

Record thread_inv (s : sys) (lo : Z) (th : thread) : Prop := {
  ti_cp : 0 <= th_cp th;
  ti_prior : 0 <= th_prior th;
  ti_guard : guarded lo (s_gc s) (th_prior th);
  ti_ts : (idle (th_pc th) /\ th_ts th = SIVFS_INVALID_TS) \/ th_prior th <= th_ts th <= s_master s;
  ti_pc : pc_inv s lo th;
  ti_wrote : forall c, th_pc th = PWrote c -> th_cp th = c
}.

Record sys_inv (lo : Z) (s : sys) : Prop := {
  si_view : log_view (s_log s) lo (s_started s);
  si_dom : forall t, is_Some (s_txns s !! t) <-> 1 <= t <= s_started s;
  si_match : forall t x e, s_txns s !! t = Some x -> entry_at (s_log s) t = Some e ->
    ws_repr (le_ws e) (tx_writes x) /\ le_aborted e = tx_aborted x;
  si_cp : 0 <= s_cp s <= s_master s;
  si_master : s_master s <= s_started s;
  si_guard : guarded lo (s_gc s) (s_cp s);
  si_gc : forall g, s_gc s = Some g -> 0 <= g;
  si_threads : forall i th, s_threads s !! i = Some th -> thread_inv s lo th;
  si_inj : forall i j th th' T, s_threads s !! i = Some th -> s_threads s !! j = Some th' ->
    inflight (th_pc th) = Some T -> inflight (th_pc th') = Some T -> i = j;
  si_cover : forall T, s_master s < T <= s_started s ->
    exists i th, s_threads s !! i = Some th /\ inflight (th_pc th) = Some T;
  si_done : forall T x, s_txns s !! T = Some x -> T <= s_master s ->
    tx_aborted x = true \/ cleared (s_txns s) (tx_snap x) T T;
  si_snap : forall T x, s_txns s !! T = Some x -> 0 <= tx_snap x < T
}.

(** ** The ghost record only grows and abort flags only rise *)

Definition txn_le (x y : txn) : Prop :=
  tx_snap y = tx_snap x /\ tx_writes y = tx_writes x /\ (tx_aborted x = true -> tx_aborted y = true).

Definition txns_le (m m' : gmap Z txn) : Prop :=
  forall t x, m !! t = Some x -> exists y, m' !! t = Some y /\ txn_le x y.

#[export] Instance txn_le_preorder : PreOrder txn_le.
Proof. split; [done|]. intros x y z (? & ? & ?) (? & ? & ?). split_and!; [congruence..|auto]. Qed.

#[export] Instance txns_le_preorder : PreOrder txns_le.
Proof.
  split; [intros m t x H; by exists x|]. intros m1 m2 m3 H1 H2 t x Hx.
  apply H1 in Hx as (y & Hy & ?). apply H2 in Hy as (z & Hz & ?). exists z. split; [done|by etrans].
Qed.

Lemma cleared_mono m m' snap c T : txns_le m m' -> is_Some (m !! T) ->
  (forall t, snap < t < c -> is_Some (m !! t)) ->
  cleared m snap c T -> cleared m' snap c T.
Proof.
  intros Hle [y Hy] Hdom Hc t Ht x' y' Hx' Hy'. destruct (Hdom t Ht) as [x Hx].
  destruct (Hle _ _ Hx) as (x2 & Hx2 & _ & Hw & Ha), (Hle _ _ Hy) as (y2 & Hy2 & _ & Hwy & _).
  simplify_eq. rewrite Hw, Hwy. destruct (Hc t Ht x y Hx Hy); auto.
Qed.

(** ** Preservation *)

(** What a step may change without disturbing a thread. *)
Record quiet (s s' : sys) (th : thread) : Prop := {
  q_master : s_master s <= s_master s';
  q_started : s_started s <= s_started s';
  q_cp : s_cp s <= s_cp s';
  q_owned : forall T, inflight (th_pc th) = Some T -> s_master s' < T /\ s_txns s' !! T = s_txns s !! T;
  q_cache : forall t, th_ts th < t <= s_started s -> ls_cache (s_log s') !! t = ls_cache (s_log s) !! t;
  q_txns : txns_le (s_txns s) (s_txns s')
}.

Lemma owns_quiet s s' th T a x : quiet s s' th -> inflight (th_pc th) = Some T -> th_ts th <= s_master s ->
  owns s th T a x -> owns s' th T a x.
Proof.
  intros Q Hf Hts [Hr Hc Ht Hs]. destruct (q_owned _ _ _ Q T Hf) as [Hm Hx].
  pose proof (q_started _ _ _ Q). split; [lia| |congruence|done].
  rewrite (q_cache _ _ _ Q) by lia. done.
Qed.

Lemma thread_inv_quiet lo lo' s s' th :
  (forall t, is_Some (s_txns s !! t) <-> 1 <= t <= s_started s) -> quiet s s' th ->
  guarded lo' (s_gc s') (th_prior th) ->
  (holds_cp (th_pc th) -> guarded lo' (s_gc s') (th_cp th)) ->
  thread_inv s lo th -> thread_inv s' lo' th.
Proof.
  intros Hdom Q Hg Hg' [Hcp Hpr _ Hts Hpc Hwr]. split; try done.
  - destruct Hts as [?|?]; [by left|right]. pose proof (q_master _ _ _ Q). lia.
  - unfold pc_inv in *. destruct (th_pc th) eqn:E; try done.
    + split; [by apply Hg'|]. pose proof (q_cp _ _ _ Q). lia.
    + split; [by apply Hg'|]. pose proof (q_master _ _ _ Q). lia.
    + destruct Hpc as (_ & Hm & Hm' & t & Ht & Hc). pose proof (q_master _ _ _ Q). pose proof (q_started _ _ _ Q).
      split; [by apply Hg'|]. split; [lia|]. split; [lia|]. exists t. split; [done|].
      rewrite (q_cache _ _ _ Q) by lia. done.
    + destruct Hpc as (x & Ho & Ha), Hts as [[[] _]|Hts].
      exists x. split; [|done]. eapply owns_quiet; [done|by rewrite E|lia|done].
    + destruct Hpc as (x & c & Ho & Ha & Hc & Hcl & Hcle), Hts as [[[] _]|Hts].
      pose proof (ow_range _ _ _ _ _ Ho). exists x, c. split_and!; try done; try lia.
      * eapply owns_quiet; [done|by rewrite E|lia|done].
      * rewrite (q_cache _ _ _ Q) by lia. done.
      * eapply cleared_mono; [apply Q|apply Hdom; lia|intros; apply Hdom; lia|done].
    + destruct Hpc as (x & Ho & Ha), Hts as [[[] _]|Hts]. pose proof (ow_range _ _ _ _ _ Ho).
      exists x. split; [eapply owns_quiet; [done|by rewrite E|lia|done]|].
      destruct Ha; [by left|right]. eapply cleared_mono; [apply Q|apply Hdom; lia|intros; apply Hdom; lia|done].
    + destruct Hpc as (x & Ho & Ha), Hts as [[[] _]|Hts]. pose proof (ow_range _ _ _ _ _ Ho).
      exists x. split; [eapply owns_quiet; [done|by rewrite E|lia|done]|].
      destruct Ha; [by left|right]. eapply cleared_mono; [apply Q|apply Hdom; lia|intros; apply Hdom; lia|done].
Qed.

Lemma quiet_same_shared s th m : quiet s (mk_sys (s_log s) (s_started s) (s_master s) (s_cp s) (s_gc s) m (s_txns s)) th
  <-> forall T, inflight (th_pc th) = Some T -> s_master s < T.
Proof. split; [intros Q T HT; apply Q, HT|intros H; split; simpl; try done; auto]. Qed.

Lemma inflight_above s lo th T : thread_inv s lo th -> inflight (th_pc th) = Some T ->
  s_master s < T <= s_started s.
Proof.
  intros [_ _ _ _ Hpc _] Hf. unfold pc_inv in Hpc. destruct (th_pc th); simplify_eq/=;
    repeat match goal with H : exists _, _ |- _ => destruct H | H : _ /\ _ |- _ => destruct H end;
    by eapply ow_range.
Qed.

Lemma checked_guard s lo th : thread_inv s lo th -> holds_cp (th_pc th) -> guarded lo (s_gc s) (th_cp th).
Proof. intros [_ _ _ _ Hpc _] E. unfold pc_inv in Hpc. destruct (th_pc th); try done; apply Hpc. Qed.

(** The map of threads does not matter to a thread. *)
Lemma thread_inv_frame lo s m th :
  (forall t, is_Some (s_txns s !! t) <-> 1 <= t <= s_started s) -> thread_inv s lo th ->
  thread_inv (mk_sys (s_log s) (s_started s) (s_master s) (s_cp s) (s_gc s) m (s_txns s)) lo th.
Proof.
  intros D Ht. eapply (thread_inv_quiet lo lo s); [done| |apply Ht|intros E; by apply (checked_guard s)|done].
  apply quiet_same_shared. intros T HT. by apply (inflight_above s lo th).
Qed.

(** Replacing one thread whose owned timestamp does not change. *)
Lemma set_thread_inv lo s i th' : sys_inv lo s ->
  inflight (th_pc th') = (s_threads s !! i ≫= fun th => inflight (th_pc th)) ->
  thread_inv s lo th' -> sys_inv lo (set_thread i th' s).
Proof.
  intros Hi Hf Ht. destruct Hi as [V D M C Ms G Gc Th Inj Cov Dn Sn].
  split; try done; cbn [set_thread s_threads s_log s_started s_master s_cp s_gc s_txns].
  - intros j th. rewrite lookup_insert. case_decide; intros Hj; simplify_eq;
      apply thread_inv_frame; eauto.
  - assert (Hback : forall j th T, <[i:=th']> (s_threads s) !! j = Some th -> inflight (th_pc th) = Some T ->
      exists th0, s_threads s !! j = Some th0 /\ inflight (th_pc th0) = Some T).
    { intros j th T. rewrite lookup_insert. case_decide; intros; simplify_eq; [|eauto].
      rewrite Hf in *. destruct (s_threads s !! j) as [th0|]; simplify_eq/=; eauto. }
    intros j k th1 th2 T H1 H2 F1 F2. destruct (Hback _ _ _ H1 F1) as (? & ? & ?), (Hback _ _ _ H2 F2) as (? & ? & ?).
    by eapply Inj.
  - intros T HT. destruct (Cov T HT) as (j & th & Hj & HfT). destruct (decide (j = i)) as [->|].
    + exists i, th'. rewrite lookup_insert_eq. split; [done|]. by rewrite Hf, Hj.
    + exists j, th. by rewrite lookup_insert_ne.
Qed.

Section local_steps.
Context (lo : Z) (s : sys) (Hi : sys_inv lo s) (i : Z) (th : thread).
Context (Hth : s_threads s !! i = Some th).

Lemma set_pc_inv p : inflight p = inflight (th_pc th) -> (idle (th_pc th) -> idle p) ->
  pc_inv s lo (with_pc p th) -> (forall c, p = PWrote c -> th_cp th = c) ->
  sys_inv lo (set_thread i (with_pc p th) s).
Proof.
  intros Hf Hid Hp Hw. apply set_thread_inv; [done|by rewrite Hth|].
  destruct (si_threads _ _ Hi _ _ Hth) as [? ? ? Ht ? ?]. split; try done.
  simpl. destruct Ht as [[? ?]|?]; [left|right]; eauto.
Qed.

Lemma reuse_inv : th_pc th = PStart -> th_cp th = s_cp s -> sys_inv lo (set_thread i (with_pc PChecked th) s).
Proof.
  intros E Ec. apply set_pc_inv; [by rewrite E|done| |done].
  unfold pc_inv. simpl. rewrite Ec. split; [apply Hi|lia].
Qed.

Lemma read_inv : th_pc th = PStart -> sys_inv lo (set_thread i (with_pc (PRead (s_cp s)) th) s).
Proof. intros E. apply set_pc_inv; [by rewrite E|done| |done]. unfold pc_inv. simpl. apply Hi. Qed.

Lemma write_inv c : th_pc th = PRead c ->
  sys_inv lo (set_thread i (mk_th (th_ts th) c (th_prior th) (PWrote c)) s).
Proof.
  intros E. apply set_thread_inv; [done|by rewrite Hth; simpl; rewrite E|].
  destruct (si_threads _ _ Hi _ _ Hth) as [? ? ? Ht Hp ?]. unfold pc_inv in Hp. rewrite E in *.
  split; try done. simpl. by intros ? [= <-].
Qed.

Lemma recheck_inv c : th_pc th = PWrote c ->
  sys_inv lo (set_thread i (with_pc (if s_cp s =? c then PChecked else PRead (s_cp s)) th) s).
Proof.
  intros E. pose proof (ti_wrote _ _ _ (si_threads _ _ Hi _ _ Hth) _ E) as Hc.
  destruct (Z.eqb_spec (s_cp s) c) as [Ec|Ec]; (apply set_pc_inv; [by rewrite E|done| |done]);
    unfold pc_inv; simpl; [rewrite Hc, <- Ec; split; [apply Hi|lia]|apply Hi].
Qed.

Lemma next_inv : th_pc th = PChecked -> sys_inv lo (set_thread i (with_pc (PNext (s_master s)) th) s).
Proof.
  intros E. apply set_pc_inv; [by rewrite E|done| |done].
  destruct (si_threads _ _ Hi _ _ Hth) as [? ? ? Ht Hp ?]. unfold pc_inv in *. rewrite E in Hp. simpl.
  destruct Hp. pose proof (si_cp _ _ Hi). split; [done|lia].
Qed.

(** The end of an update. *)
Lemma update_inv m : inflight (th_pc th) = None -> guarded lo (s_gc s) (th_cp th) -> th_cp th <= m <= s_master s ->
  sys_inv lo (set_thread i (updated m th) s).
Proof.
  intros E Hg Hm. apply set_thread_inv; [done|by rewrite Hth|].
  destruct (si_threads _ _ Hi _ _ Hth) as [? ? ? Ht Hp ?]. split; try done. simpl. right. lia.
Qed.

Lemma update_lookup_inv m clog : th_pc th = PNext m -> th_ts th < m ->
  sivfs_ts_to_log_entry (th_ts th + 1) (th_ts th + 1) m (s_log s) = Ok (Some clog) ->
  sys_inv lo (set_thread i (with_pc (PUpdate m clog) th) s).
Proof.
  intros E Hm Hl. destruct (si_threads _ _ Hi _ _ Hth) as [Hcp Hpr Hg Ht Hp Hw].
  pose proof (si_master _ _ Hi). pose proof (lv_n _ _ _ (si_view _ _ Hi)).
  unfold pc_inv in Hp. rewrite E in *. destruct Hp as [Hgc Hmm].
  destruct Ht as [[_ Ht]|Ht]; [rewrite invalid_ts_val, two64_val in Ht; lia|].
  apply set_thread_inv; [done|by rewrite Hth; simpl; rewrite E|].
  split; try done; [by right|]. unfold pc_inv. simpl. split; [done|]. split; [done|]. split; [lia|].
  exists (th_ts th + 1). split; [lia|].
  unfold sivfs_ts_to_log_entry in Hl. case_match; [done|]. by simplify_eq.
Qed.

(** The iteration runs and finds the next entry or the end. *)
Lemma update_runs m clog : th_pc th = PUpdate m clog -> exists t r,
  th_ts th < t <= m /\ ls_cache (s_log s) !! t = Some clog /\ update_iter clog m (s_log s) = (Ok r, s_log s) /\
  (if decide (t = m) then r = None else exists q, r = Some q /\ ls_cache (s_log s) !! (t + 1) = Some q).
Proof.
  intros E. destruct (si_threads _ _ Hi _ _ Hth) as [Hcp Hpr [Hg _] Ht Hp _].
  unfold pc_inv in Hp. rewrite E in *. destruct Hp as (_ & Hm & Hm' & t & Htm & Hc), Ht as [[[] _]|Ht].
  pose proof (si_view _ _ Hi) as Hv. pose proof (lv_lo _ _ _ Hv).
  destruct (lv_ent _ _ _ Hv _ _ Hc) as (e & He & Hts & Hnx & _).
  exists t. unfold update_iter. rewrite (bind_step _ _ _ _ _ (load_ent_ok _ _ _ He)), Hts.
  case_decide as Et; [exists None; by rewrite (proj2 (Z.eqb_eq _ _))|].
  destruct (view_entry _ _ _ Hv (t + 1) ltac:(lia)) as (q & e' & Hq & He' & _ & Hets & _).
  rewrite (proj2 (Z.eqb_neq t m)), Hnx, Hq by done. exists (Some q).
  rewrite (bind_step _ _ _ _ _ (load_ent_ok _ _ _ He')), Hets, (proj2 (Z.ltb_ge _ _)) by lia.
  split_and!; eauto; lia.
Qed.

Lemma update_iter_inv m clog r : th_pc th = PUpdate m clog -> update_iter clog m (s_log s) = (Ok r, s_log s) ->
  sys_inv lo (set_thread i (match r with Some q => with_pc (PUpdate m q) th | None => updated m th end) s).
Proof.
  intros E Hit. destruct (update_runs m clog E) as (t & r0 & Ht & Hc & Hit0 & Hr).
  rewrite Hit in Hit0. injection Hit0 as <-.
  destruct (si_threads _ _ Hi _ _ Hth) as [Hcp Hpr Hg Hts Hp _].
  unfold pc_inv in Hp. rewrite E in *. destruct Hp as (Hgc & Hm & Hm' & _).
  case_decide; [subst r; apply update_inv; by rewrite ?E|]. destruct Hr as (q & -> & Hq).
  apply set_pc_inv; [by rewrite E|by rewrite E| |done]. unfold pc_inv. simpl. split_and!; try done; try lia.
  exists (t + 1). split; [lia|done].
Qed.

Lemma update_fail_inv m clog : th_pc th = PUpdate m clog -> sys_inv lo (set_thread i (with_pc PTxn th) s).
Proof. intros E. by apply set_pc_inv; rewrite ?E. Qed.

Lemma finish_inv : th_pc th = PTxn -> sys_inv lo (set_thread i (with_pc PStart th) s).
Proof. intros E. by apply set_pc_inv; rewrite ?E. Qed.

Lemma lookup_inv T a clog : th_pc th = PLookup T a -> th_ts th + 2 <= T ->
  sivfs_ts_to_log_entry (th_ts th + 1) (th_ts th + 1) (T - 1) (s_log s) = Ok (Some clog) ->
  sys_inv lo (set_thread i (with_pc (PValidate T a clog) th) s).
Proof.
  intros E HT Hl. destruct (si_threads _ _ Hi _ _ Hth) as [? ? ? Ht Hp ?].
  unfold pc_inv in Hp. rewrite E in Hp. destruct Hp as (x & [? ? ? ?] & Hx).
  apply set_pc_inv; [by rewrite E|by rewrite E| |done].
  unfold pc_inv. simpl. exists x, (th_ts th + 1). split_and!; try done; try lia.
  - unfold sivfs_ts_to_log_entry in Hl. case_match; [done|]. by simplify_eq.
  - intros t Hlt. lia.
Qed.

Lemma no_concurrent_inv T a : th_pc th = PLookup T a -> T < th_ts th + 2 ->
  sys_inv lo (set_thread i (with_pc (PDecided T a) th) s).
Proof.
  intros E HT. destruct (si_threads _ _ Hi _ _ Hth) as [? ? ? Ht Hp ?].
  unfold pc_inv in Hp. rewrite E in Hp. destruct Hp as (x & [? ? ? ?] & Hx).
  apply set_pc_inv; [by rewrite E|by rewrite E| |done].
  unfold pc_inv. simpl. exists x. split; [done|]. right. intros t Hlt. lia.
Qed.
End local_steps.

Lemma new_inv lo s i : sys_inv lo s -> s_threads s !! i = None ->
  sys_inv lo (set_thread i (mk_th SIVFS_INVALID_TS SIVFS_INVALID_TS SIVFS_INVALID_TS PStart) s).
Proof.
  intros Hi Hn. pose proof (lv_n _ _ _ (si_view _ _ Hi)). pose proof (si_cp _ _ Hi). pose proof (si_master _ _ Hi).
  apply set_thread_inv; [done|by rewrite Hn|].
  assert (0 <= s_cp s <= SIVFS_INVALID_TS) by (rewrite invalid_ts_val, two64_val; lia).
  destruct (si_guard _ _ Hi) as [Hg1 Hg2]. split; simpl; try lia; try done.
  - split; [lia|]. intros g Hg. specialize (Hg2 _ Hg). lia.
Qed.

Lemma exit_inv lo s i th : sys_inv lo s -> s_threads s !! i = Some th -> th_pc th = PStart ->
  sys_inv lo (drop_thread i s).
Proof.
  intros [V D M C Ms G Gc Th Inj Cov Dn Sn] Hth E.
  split; try done; cbn [drop_thread s_threads s_log s_started s_master s_cp s_gc s_txns].
  - intros j th' [_ Hj]%lookup_delete_Some. apply thread_inv_frame; eauto.
  - intros j k th1 th2 T [_ H1]%lookup_delete_Some [_ H2]%lookup_delete_Some. by apply Inj.
  - intros T HT. destruct (Cov T HT) as (j & th' & Hj & Hf). exists j, th'. split; [|done].
    rewrite lookup_delete_ne; [done|]. intros ->. simplify_eq. by rewrite E in Hf.
Qed.

Lemma checkpoint_inv lo s c : sys_inv lo s -> s_cp s <= c <= s_master s ->
  sys_inv lo (mk_sys (s_log s) (s_started s) (s_master s) c (s_gc s) (s_threads s) (s_txns s)).
Proof.
  intros [V D M C Ms [G1 G2] Gc Th Inj Cov Dn Sn] Hc.
  split; try done; cbn [s_threads s_log s_started s_master s_cp s_gc s_txns]; try lia.
  - split; [lia|]. intros g Hg. specialize (G2 _ Hg). lia.
  - intros i th Hth. specialize (Th _ _ Hth).
    eapply (thread_inv_quiet lo lo s); [done| |apply Th|intros E; by apply (checked_guard s)|done].
    split; simpl; try done; [lia|]. intros T HT. split; [by apply (inflight_above s lo th)|done].
Qed.

Lemma insert_txns_le m t x : m !! t = None -> txns_le m (<[t := x]> m).
Proof.
  intros Hn u y Hu. exists y. split; [|done]. rewrite lookup_insert_ne; [done|]. congruence.
Qed.

Lemma appended_entry st st' lo n a es t e' : log_view st lo n -> appended st st' lo n a es -> t <= n ->
  entry_at st' t = Some e' -> exists e nx, entry_at st t = Some e /\ e' = with_next nx e.
Proof.
  intros Hv A Ht. unfold entry_at. rewrite (ap_cache _ _ _ _ _ _ A) by done.
  destruct (ls_cache st !! t) as [p|] eqn:Hp; [|done]. simpl. intros He'.
  destruct (lv_ent _ _ _ Hv _ _ Hp) as (e & He & _). destruct (ap_old _ _ _ _ _ _ A _ _ _ Hp He) as [nx ?].
  exists e, nx. split; [done|congruence].
Qed.

Lemma commit_inv lo s i th km lw es a l : sys_inv lo s -> s_threads s !! i = Some th -> th_pc th = PTxn ->
  ws_repr (le_ws lw) es ->
  (forall p, km = Some p -> fresh_chunk (s_log s) p (new_chunk_bytes (ws_size_bytes (le_ws lw)))) ->
  s_started s + 1 < 2 ^ 63 ->
  commit_append km true (s_started s + 1) lw (s_log s) = (Ok a, l) ->
  sys_inv lo (mk_sys l (s_started s + 1) (s_master s) (s_cp s) (s_gc s)
                (<[i := with_pc (PLookup (s_started s + 1) a) th]> (s_threads s))
                (<[s_started s + 1 := mk_txn (th_ts th) es false]> (s_txns s))).
Proof.
  intros Hi Hth E Hr Hkm Hn Hap. set (n := s_started s) in *.
  destruct (append_ok (s_log s) lo n (si_view _ _ Hi) Hn lw es Hr km Hkm) as [(a' & l' & E' & A)|[_ E']];
    [|congruence]. rewrite Hap in E'. injection E' as <- <-.
  pose proof (si_threads _ _ Hi _ _ Hth) as Hti. destruct Hi as [V D M C Ms G Gc Th Inj Cov Dn Sn].
  fold n in V, D, Ms, Cov.
  assert (Hnone : s_txns s !! (n + 1) = None).
  { destruct (s_txns s !! (n + 1)) eqn:Ex; [|done]. pose proof (proj1 (D (n + 1)) ltac:(eauto)). lia. }
  pose proof (insert_txns_le _ _ (mk_txn (th_ts th) es false) Hnone) as Hle.
  assert (Hts : 0 <= th_ts th <= s_master s).
  { destruct (ti_ts _ _ _ Hti) as [[Hid _]|?]; [by rewrite E in Hid|]. pose proof (ti_prior _ _ _ Hti). lia. }
  assert (Hquiet : forall th', thread_inv s lo th' -> quiet s (mk_sys l (n + 1) (s_master s) (s_cp s) (s_gc s)
      (<[i := with_pc (PLookup (n + 1) a) th]> (s_threads s))
      (<[n + 1 := mk_txn (th_ts th) es false]> (s_txns s))) th').
  { intros th' Hth'. split; simpl; try done; fold n; try lia.
    - intros T HT. pose proof (inflight_above _ _ _ _ Hth' HT) as HT'. fold n in HT'.
      split; [lia|]. apply lookup_insert_ne. lia.
    - intros t Ht. apply (ap_cache _ _ _ _ _ _ A). lia. }
  split; cbn [s_threads s_log s_started s_master s_cp s_gc s_txns]; try done; try lia.
  - apply A.
  - intros t. rewrite lookup_insert. case_decide; [split; [lia|eauto]|]. rewrite D. lia.
  - intros t x e. rewrite lookup_insert. case_decide as Et; intros Hx He; simplify_eq.
    + destruct (ap_new _ _ _ _ _ _ A) as (e' & He' & ? & ? & _). unfold entry_at in He.
      rewrite (ap_at _ _ _ _ _ _ A) in He. simplify_eq/=. done.
    + assert (t <= n) as Hle_t by (pose proof (proj1 (D t) ltac:(eauto)); lia).
      destruct (appended_entry _ _ _ _ _ _ _ _ V A Hle_t He) as (e0 & nx & He0 & ->). by apply (M t x e0).
  - intros j th'. rewrite lookup_insert. case_decide; intros Hj; simplify_eq.
    + destruct Hti as [? ? ? Ht _ _]. split; try done.
      * right. simpl. destruct Ht as [[Hid _]|?]; [by rewrite E in Hid|done].
      * unfold pc_inv. simpl. eexists. split; [split; simpl|]; [lia|apply A|apply lookup_insert_eq|done|done].
    + specialize (Th _ _ Hj). eapply (thread_inv_quiet lo lo s); [done|by apply Hquiet|apply Th| |done].
      intros E'. by apply (checked_guard s).
  - assert (Hback : forall j th' T, <[i := with_pc (PLookup (n + 1) a) th]> (s_threads s) !! j = Some th' ->
      inflight (th_pc th') = Some T -> (j = i /\ T = n + 1) \/ (j <> i /\ T <= n /\ s_threads s !! j = Some th')).
    { intros j th' T. rewrite lookup_insert. case_decide; intros; simplify_eq/=; [by left|right].
      pose proof (inflight_above _ _ _ _ (Th j th' ltac:(done)) ltac:(done)) as Hab. fold n in Hab.
      split_and!; [congruence|lia|done]. }
    intros j k th1 th2 T H1 H2 F1 F2.
    destruct (Hback _ _ _ H1 F1) as [[-> ->]|(? & ? & ?)], (Hback _ _ _ H2 F2) as [[-> ?]|(? & ? & ?)];
      try lia; try done. by eapply Inj.
  - intros T HT. destruct (decide (T = n + 1)) as [->|].
    + exists i. eexists. rewrite lookup_insert_eq. done.
    + destruct (Cov T ltac:(lia)) as (j & th' & Hj & HfT). exists j, th'. rewrite lookup_insert_ne; [done|].
      intros ->. simplify_eq. by rewrite E in HfT.
  - intros T x. rewrite lookup_insert. case_decide; [lia|]. intros Hx HT.
    destruct (Dn T x Hx HT) as [?|Hc]; [by left|right]. pose proof (Sn _ _ Hx).
    eapply cleared_mono; [done|eauto|intros; apply D; lia|done].
  - intros T x. rewrite lookup_insert. case_decide; intros Hx; simplify_eq/=; [lia|eauto].
Qed.

Lemma abort_txn_le T b m : (forall x, m !! T = Some x -> tx_aborted x = false) -> txns_le m (abort_txn T b m).
Proof.
  intros Hf t x Hx. unfold abort_txn. destruct (decide (t = T)) as [->|].
  - rewrite lookup_alter_eq, Hx. eexists. split; [done|]. split_and!; try done.
    rewrite (Hf _ Hx). done.
  - rewrite lookup_alter_ne by done. by exists x.
Qed.

(** The ghost record after a validation step. *)
Lemma abort_txn_lookup T b m t x' : abort_txn T b m !! t = Some x' ->
  exists x, m !! t = Some x /\ tx_snap x' = tx_snap x /\ tx_writes x' = tx_writes x /\
    tx_aborted x' = (if decide (t = T) then b else tx_aborted x).
Proof.
  unfold abort_txn. destruct (decide (t = T)) as [->|].
  - rewrite lookup_alter_eq. destruct (m !! T) as [x|]; simpl; [|done]. intros [= <-]. by exists x.
  - rewrite lookup_alter_ne by done. intros. by exists x'.
Qed.

Section validate_step.
Context (lo : Z) (s : sys) (Hi : sys_inv lo s) (i : Z) (th : thread) (T a clog : Z).
Context (Hth : s_threads s !! i = Some th) (E : th_pc th = PValidate T a clog).

(** The iteration runs, with this effect. *)
Lemma validate_runs : exists x c xc me r,
  owns s th T a x /\ tx_aborted x = false /\ th_ts th < c < T /\ s_txns s !! c = Some xc /\
  ls_ents (s_log s) !! a = Some me /\ cleared (s_txns s) (th_ts th) c T /\
  ls_cache (s_log s) !! c = Some clog /\
  let b := negb (tx_aborted xc) && ws_conflict (tx_writes x) (tx_writes xc) in
  validate_iter a clog (T - 1) (s_log s) = (Ok r, put_ent a (with_aborted b me) (s_log s)) /\
  (if b then r = VAborted else if decide (c = T - 1) then r = VDone
   else exists q, r = VNext q /\ ls_cache (s_log s) !! (c + 1) = Some q).
Proof.
  destruct (si_threads _ _ Hi _ _ Hth) as [_ Hpr [Hg _] Hts Hpc _]. unfold pc_inv in Hpc. rewrite E in *.
  destruct Hpc as (x & c & Ho & Hab & Hc & Hcl & Hcle), Hts as [[[] _]|Hts].
  pose proof (si_view _ _ Hi) as Hv. pose proof (lv_lo _ _ _ Hv). destruct Ho as [Hr Hca Htx Hs].
  destruct (lv_ent _ _ _ Hv _ _ Hca) as (me & Hme & _).
  destruct (lv_ent _ _ _ Hv _ _ Hcl) as (ot & Hot & _).
  destruct (proj2 (si_dom _ _ Hi c) ltac:(lia)) as [xc Hxc].
  destruct (si_match _ _ Hi T x me Htx) as [Hrm Ham]; [by unfold entry_at; rewrite Hca|].
  destruct (si_match _ _ Hi c xc ot Hxc) as [Hro Hao]; [by unfold entry_at; rewrite Hcl|].
  destruct (validate_iter_ok (s_log s) lo (s_started s) c T a clog me ot (tx_writes x) (tx_writes xc) Hv)
    as (r & Hit & Hres); try done; try lia; [congruence|].
  rewrite Hao in Hit, Hres. exists x, c, xc, me, r. split_and!; done || lia.
Qed.

Lemma validate_inv r l : validate_iter a clog (T - 1) (s_log s) = (Ok r, l) ->
  sys_inv lo (mk_sys l (s_started s) (s_master s) (s_cp s) (s_gc s)
    (<[i := with_pc (validated_pc T a r) th]> (s_threads s))
    (abort_txn T (match r with VAborted => true | _ => false end) (s_txns s))).
Proof.
  intros Hit. destruct validate_runs as (x & c & xc & me & r0 & Ho & Hx & Hc & Hxc & Hme & Hcle & _ & Hit0 & Hres).
  rewrite Hit in Hit0. injection Hit0 as -> ->.
  set (b := negb (tx_aborted xc) && ws_conflict (tx_writes x) (tx_writes xc)) in *.
  assert (Hb : match r0 with VAborted => true | _ => false end = b).
  { destruct b; [by subst|]. case_decide; [by subst|]. by destruct Hres as (q & -> & _). }
  assert (Hr0 : (b = true /\ r0 = VAborted) \/ (b = false /\ c = T - 1 /\ r0 = VDone) \/
    (b = false /\ c <> T - 1 /\ exists q, r0 = VNext q /\ ls_cache (s_log s) !! (c + 1) = Some q)).
  { destruct b; [by left|right]. case_decide; [by left|by right]. }
  rewrite Hb. clear Hres.
  destruct Ho as [Hr Hca Htx Hsn].
  destruct (put_ent_view _ _ _ _ a me (with_aborted b me) (si_view _ _ Hi) Hca Hme ltac:(done)) as (Hv' & HeT & Hoth).
  destruct Hi as [V D M C Ms G Gc Th Inj Cov Dn Sn].
  assert (Hle : txns_le (s_txns s) (abort_txn T b (s_txns s))).
  { apply abort_txn_le. intros. congruence. }
  assert (HtxT : abort_txn T b (s_txns s) !! T = Some (mk_txn (tx_snap x) (tx_writes x) b)).
  { unfold abort_txn. by rewrite lookup_alter_eq, Htx. }
  assert (Hinf : inflight (th_pc th) = Some T) by (by rewrite E).
  split; cbn [s_threads s_log s_started s_master s_cp s_gc s_txns]; try done.
  - intros t. unfold abort_txn. destruct (decide (t = T)) as [->|].
    + rewrite lookup_alter_eq, Htx. split; [intros _; lia|eauto].
    + rewrite lookup_alter_ne by done. apply D.
  - intros t x' e Hx' He. apply abort_txn_lookup in Hx' as (x0 & Hx0 & _ & -> & ->). case_decide as Et.
    + subst t. rewrite HeT in He. injection He as <-. split; [|done]. simpl. eapply M; [exact Hx0|].
      unfold entry_at. by rewrite Hca.
    + rewrite Hoth in He by done. by apply (M t).
  - intros j th'. rewrite lookup_insert. case_decide as Ej; intros Hj; [injection Hj as <-; subst j|].
    + pose proof (Th _ _ Hth) as [? ? ? Ht _ _]. split; try done.
      * simpl. destruct Ht as [[Hid _]|?]; [by rewrite E in Hid|by right].
      * assert (Hown : forall p, owns (mk_sys (put_ent a (with_aborted b me) (s_log s)) (s_started s) (s_master s)
          (s_cp s) (s_gc s) (<[i := with_pc (validated_pc T a r0) th]> (s_threads s)) (abort_txn T b (s_txns s)))
          (with_pc p th) T a (mk_txn (tx_snap x) (tx_writes x) b)) by (intros; by split).
        assert (Hcl' : cleared (abort_txn T b (s_txns s)) (th_ts th) c T).
        { eapply cleared_mono; [done|eauto|intros; apply D; pose proof (Sn _ _ Htx); lia|done]. }
        assert (Hnext : b = false -> cleared (abort_txn T b (s_txns s)) (th_ts th) (c + 1) T).
        { intros Hbf t Hlt. destruct (decide (t = c)) as [->|]; [|apply Hcl'; lia].
          intros x1 y1 Hx1 Hy1. rewrite HtxT in Hy1. injection Hy1 as <-.
          apply abort_txn_lookup in Hx1 as (x0 & Hx0 & _ & -> & ->). rewrite Hxc in Hx0. injection Hx0 as <-. rewrite decide_False by lia. simpl.
          unfold b in Hbf. apply andb_false_iff in Hbf as [Hbf|Hbf]; [left|by right].
          by apply negb_false_iff in Hbf. }
        unfold pc_inv. destruct Hr0 as [[Hbt ->]|[(Hbf & Hce & ->)|(Hbf & Hce & q & -> & Hq)]]; simpl.
        -- eexists. split; [done|by left].
        -- eexists. split; [done|right]. replace T with (c + 1) at 2 by lia. by apply Hnext.
        -- eexists _, (c + 1). split_and!; try done; try lia. by apply Hnext.
      * simpl. intros c0 Hc0. destruct r0; discriminate.
    + specialize (Th _ _ Hj). eapply (thread_inv_quiet lo lo s); [done| |apply Th|intros Ec; by apply (checked_guard s)|done].
      split; simpl; try done. intros T' HT'. split; [by apply (inflight_above s lo th')|].
      unfold abort_txn. rewrite lookup_alter_ne; [done|]. intros <-. apply Ej. symmetry. by eapply Inj.
  - assert (Hback : forall j th' T', <[i := with_pc (validated_pc T a r0) th]> (s_threads s) !! j = Some th' ->
      inflight (th_pc th') = Some T' -> exists th0, s_threads s !! j = Some th0 /\ inflight (th_pc th0) = Some T').
    { intros j th' T'. rewrite lookup_insert. case_decide as Ej; intros Hj HfT; [|eauto].
      injection Hj as <-. subst j. exists th. split; [done|]. rewrite Hinf, <- HfT. by destruct r0. }
    intros j k th1 th2 T' H1 H2 F1 F2.
    destruct (Hback _ _ _ H1 F1) as (? & ? & ?), (Hback _ _ _ H2 F2) as (? & ? & ?). by eapply Inj.
  - intros T' HT'. destruct (Cov T' HT') as (j & th' & Hj & HfT). destruct (decide (j = i)) as [->|].
    + exists i. eexists. rewrite lookup_insert_eq. split; [done|]. rewrite Hth in Hj. injection Hj as <-. rewrite Hinf in HfT. by destruct r0.
    + exists j, th'. by rewrite lookup_insert_ne.
  - intros T' x' Hx' HT'. apply abort_txn_lookup in Hx' as (x0 & Hx0 & -> & _ & ->).
    rewrite decide_False by lia. destruct (Dn _ _ Hx0 HT') as [?|Hcl]; [by left|right].
    pose proof (proj1 (D T') ltac:(eauto)). pose proof (Sn _ _ Hx0).
    eapply cleared_mono; [done|eauto|intros; apply D; lia|done].
  - intros T' x' Hx'. apply abort_txn_lookup in Hx' as (x0 & Hx0 & -> & _). eauto.
Qed.
End validate_step.

Lemma fill_inv lo s i th T a e l : sys_inv lo s -> s_threads s !! i = Some th -> th_pc th = PDecided T a ->
  load_ent a (s_log s) = (Ok e, s_log s) -> store_ent a (with_filled true e) (s_log s) = (Ok tt, l) ->
  sys_inv lo (set_thread i (with_pc (PFilled T a) th) (with_log l s)).
Proof.
  intros Hi Hth E Hl Hs.
  destruct (si_threads _ _ Hi _ _ Hth) as [Hcp Hpr Hg Hts Hpc Hw]. unfold pc_inv in Hpc. rewrite E in Hpc.
  destruct Hpc as (x & Ho & Hdec). pose proof (ow_cache _ _ _ _ _ Ho) as Hca.
  assert (He : ls_ents (s_log s) !! a = Some e).
  { unfold load_ent in Hl. destruct (ls_ents (s_log s) !! a); by simplify_eq/=. }
  rewrite (store_ent_ok _ _ _ _ He) in Hs. injection Hs as <-.
  destruct (put_ent_view _ _ _ _ a e (with_filled true e) (si_view _ _ Hi) Hca He ltac:(done)) as (Hv' & HeT & Hoth).
  fold (put_ent a (with_filled true e) (s_log s)).
  assert (Hi' : sys_inv lo (with_log (put_ent a (with_filled true e) (s_log s)) s)).
  { destruct Hi as [V D M C Ms G Gc Th Inj Cov Dn Sn].
    split; cbn [with_log s_threads s_log s_started s_master s_cp s_gc s_txns]; try done.
    - intros t x' e' Hx' He'. destruct (decide (t = T)) as [->|]; [|apply (M t); by rewrite <- ?Hoth].
      rewrite HeT in He'. injection He' as <-. apply (M T x' e Hx'). unfold entry_at. by rewrite Hca.
    - intros j th' Hj. specialize (Th _ _ Hj).
      eapply (thread_inv_quiet lo lo s); [done| |apply Th|intros Ec; by apply (checked_guard s)|done].
      split; simpl; try done. intros T' HT'. split; [by apply (inflight_above s lo th')|done]. }
  apply set_pc_inv; try done; [by rewrite E|by rewrite E|].
  unfold pc_inv. simpl. exists x. split; [|done]. by destruct Ho.
Qed.

Lemma release_inv lo s i th T a : sys_inv lo s -> s_threads s !! i = Some th -> th_pc th = PFilled T a ->
  s_master s = T - 1 ->
  sys_inv lo (mk_sys (s_log s) (s_started s) T (s_cp s) (s_gc s) (<[i := with_pc PStart th]> (s_threads s)) (s_txns s)).
Proof.
  intros Hi Hth E Hm. pose proof (si_threads _ _ Hi _ _ Hth) as [Hcp Hpr Hg Hts Hpc Hw].
  unfold pc_inv in Hpc. rewrite E in Hpc. destruct Hpc as (x & Ho & Hdec).
  destruct Ho as [Hr Hca Htx Hsn]. destruct Hi as [V D M C Ms G Gc Th Inj Cov Dn Sn].
  split; cbn [s_threads s_log s_started s_master s_cp s_gc s_txns]; try done; try lia.
  - intros j th'. rewrite lookup_insert. case_decide as Ej; intros Hj; [injection Hj as <-; subst j|].
    + split; try done. simpl. rewrite E in Hts. destruct Hts as [[[] _]|?]. right. lia.
    + specialize (Th _ _ Hj).
      eapply (thread_inv_quiet lo lo s); [done| |apply Th|intros Ec; by apply (checked_guard s)|done].
      split; simpl; try done; [lia|]. intros T' HT'. pose proof (inflight_above s lo th' _ Th HT').
      split; [|done]. enough (T' <> T) by lia. intros ->. apply Ej. eapply Inj; try done. by rewrite E.
  - intros j k th1 th2 T'. rewrite !lookup_insert. repeat case_decide; intros; simplify_eq/=; by eapply Inj.
  - intros T' HT'. destruct (Cov T' ltac:(lia)) as (j & th' & Hj & HfT). exists j, th'.
    rewrite lookup_insert_ne; [done|]. intros ->. rewrite Hth in Hj. injection Hj as <-.
    rewrite E in HfT. simplify_eq/=. lia.
  - intros T' x' Hx' HT'. destruct (decide (T' = T)) as [->|]; [|apply Dn; [done|lia]].
    rewrite Htx in Hx'. injection Hx' as <-. by rewrite Hsn.
Qed.

Lemma foldl_min_le l m : foldl Z.min m l <= m /\ forall x, x ∈ l -> foldl Z.min m l <= x.
Proof.
  revert m. induction l as [|y l IH]; intros m; simpl; [split; [lia|by intros ? ?%not_elem_of_nil]|].
  destruct (IH (Z.min m y)) as [H1 H2]. split; [lia|]. intros x [->|Hx]%elem_of_cons; [lia|auto].
Qed.

Lemma foldl_min_ge l m b : b <= m -> Forall (fun x => b <= x) l -> b <= foldl Z.min m l.
Proof. intros Hm Hl. revert m Hm. induction Hl as [|y l Hy _ IH]; intros m Hm; simpl; [done|]. apply IH. lia. Qed.

Lemma gc_log_stop_le s : gc_log_stop s <= s_cp s /\
  forall i th, s_threads s !! i = Some th -> gc_log_stop s <= th_cp th /\ gc_log_stop s <= th_prior th.
Proof.
  unfold gc_log_stop. destruct (foldl_min_le (sivfs_get_checked_out_versions s) (s_cp s)) as [H1 H2].
  split; [done|]. intros i th Hth.
  assert (forall v, v ∈ [th_cp th; th_prior th] -> v ∈ sivfs_get_checked_out_versions s) as Hin.
  { intros v Hv. apply list_elem_of_bind. exists (i, th). split; [done|]. by apply elem_of_map_to_list. }
  split; apply H2, Hin; set_solver.
Qed.

Lemma gc_scan_inv lo s : sys_inv lo s -> s_gc s = None ->
  sys_inv lo (mk_sys (s_log s) (s_started s) (s_master s) (s_cp s) (Some (gc_log_stop s)) (s_threads s) (s_txns s)).
Proof.
  intros [V D M C Ms G Gc Th Inj Cov Dn Sn] Hg. destruct (gc_log_stop_le s) as [H1 H2].
  split; cbn [s_threads s_log s_started s_master s_cp s_gc s_txns]; try done.
  - split; [apply G|]. by intros g [= <-].
  - intros g [= <-]. unfold gc_log_stop. apply foldl_min_ge; [lia|]. apply Forall_forall.
    intros v Hv. apply list_elem_of_bind in Hv as ([i th] & Hv & Hin%elem_of_map_to_list).
    destruct (Th _ _ Hin). set_unfold. naive_solver.
  - intros i th Hth. specialize (Th _ _ Hth). destruct (H2 _ _ Hth).
    eapply (thread_inv_quiet lo lo s); [done| | | |done]; simpl.
    + split; simpl; try done. intros T' HT'. split; [by apply (inflight_above s lo th)|done].
    + split; [apply Th|]. by intros g [= <-].
    + intros Ec. split; [by apply (checked_guard s lo)|]. by intros g [= <-].
Qed.

Lemma gc_delete_inv lo s g did l : sys_inv lo s -> s_gc s = Some g -> sivfs_delete_log g (s_log s) = (Ok did, l) ->
  sys_inv (Z.max lo g) (mk_sys l (s_started s) (s_master s) (s_cp s) None (s_threads s) (s_txns s)).
Proof.
  intros [V D M C Ms G Gc Th Inj Cov Dn Sn] Hg Hd. pose proof (Gc _ Hg) as Hg0. rewrite Hg in *.
  assert (Hgd : forall y, guarded lo (Some g) y -> guarded (Z.max lo g) None y).
  { intros y [Ha Hb]. specialize (Hb g eq_refl). split; [lia|done]. }
  pose proof (proj2 G g eq_refl) as Hgc.
  destruct (delete_view _ _ _ g V) as (did' & l' & E & De & Hv' & Hk); [lia|].
  rewrite Hd in E. injection E as <- <-.
  split; cbn [s_threads s_log s_started s_master s_cp s_gc s_txns]; try done.
  - intros t x e Hx He. destruct (Z.lt_ge_cases t g); [|apply (M t); by rewrite <- ?Hk].
    unfold entry_at in He. by rewrite (view_none _ _ _ Hv') in He by lia.
  - by apply Hgd.
  - intros i th Hth. specialize (Th _ _ Hth).
    eapply (thread_inv_quiet lo _ s); [done| | | |done]; simpl.
    + split; simpl; try done.
      * intros T HT. split; [by apply (inflight_above s lo th)|done].
      * intros t Ht. pose proof (lv_n _ _ _ V). pose proof (ti_guard _ _ _ Th) as [_ Hgp]. rewrite Hg in Hgp.
        specialize (Hgp g eq_refl). destruct (ti_ts _ _ _ Th) as [[_ Hts]|Hts].
        { rewrite invalid_ts_val, two64_val in Hts. lia. }
        rewrite (de_cache _ _ _ _ De). unfold cache_from. apply option_eq. intros p.
        rewrite map_lookup_filter_Some. simpl. split; [by intros [? _]|]. intros. split; [done|lia].
    + apply Hgd. rewrite <- Hg. apply Th.
    + intros Ec. apply Hgd. rewrite <- Hg. by apply (checked_guard s).
Qed.

Lemma init_inv : sys_inv 1 sys_init.
Proof.
  split; simpl; try (intros; by rewrite lookup_empty in * ); try lia.
  - apply init_log_view.
  - intros t. rewrite lookup_empty. split; [by intros [? ?]|lia].
  - split; [lia|done].
  - done.
Qed.

Lemma step_inv s s' lo : sys_inv lo s -> step s s' -> exists lo', sys_inv lo' s'.
Proof.
  intros Hi Hs. destruct Hs; [exists lo..|exists (Z.max lo g)].
  - by apply new_inv.
  - by apply (exit_inv lo s i th).
  - by apply checkpoint_inv.
  - by apply reuse_inv.
  - by apply read_inv.
  - by apply write_inv.
  - by apply recheck_inv.
  - by apply next_inv.
  - pose proof (si_threads _ _ Hi _ _ H) as Ht. pose proof (ti_pc _ _ _ Ht) as Hp. unfold pc_inv in Hp.
    rewrite H0 in Hp. destruct Hp. by apply update_inv; rewrite ?H0.
  - by apply update_lookup_inv.
  - by apply (update_iter_inv lo s Hi i th H m clog).
  - by apply (update_fail_inv lo s Hi i th H m clog).
  - by apply finish_inv.
  - by apply (commit_inv lo s i th km lw).
  - by apply lookup_inv.
  - by apply no_concurrent_inv.
  - by apply (validate_inv lo s) with (clog := clog).
  - by apply (fill_inv lo s i th T a e).
  - by apply (release_inv lo s i th T a).
  - by apply gc_scan_inv.
  - by apply (gc_delete_inv lo s g did).
Qed.

Lemma reach_inv s : reach s -> exists lo, sys_inv lo s.
Proof.
  apply (invariant_reachable _ _ (fun s => exists lo, sys_inv lo s)).
  - intros ? ->. exists 1. apply init_inv.
  - intros s1 s2 [lo Hi] Hs. by eapply step_inv.
Qed.

Lemma step_txns_le s s' lo : sys_inv lo s -> step s s' -> txns_le (s_txns s) (s_txns s').
Proof.
  intros Hi Hs. destruct Hs; simpl; try done.
  - apply insert_txns_le. destruct (s_txns s !! (s_started s + 1)) eqn:Ex; [|done].
    pose proof (proj1 (si_dom _ _ Hi (s_started s + 1)) ltac:(eauto)). lia.
  - apply abort_txn_le. intros x Hx. destruct (validate_runs lo s Hi i th T a clog H H0)
      as (x' & c & xc & me & r0 & Ho & Hab & _). pose proof (ow_txn _ _ _ _ _ Ho). congruence.
Qed.

(** The next access of a thread to the log finds live memory. *)
Definition next_access_live (s : sys) (th : thread) : Prop :=
  match th_pc th with
  | PNext m => th_ts th < m ->
      exists p, sivfs_ts_to_log_entry (th_ts th + 1) (th_ts th + 1) m (s_log s) = Ok (Some p)
        /\ is_Some (ls_ents (s_log s) !! p)
  | PUpdate m clog => exists r, update_iter clog m (s_log s) = (Ok r, s_log s)
  | PLookup T a => th_ts th + 2 <= T ->
      exists p, sivfs_ts_to_log_entry (th_ts th + 1) (th_ts th + 1) (T - 1) (s_log s) = Ok (Some p)
        /\ is_Some (ls_ents (s_log s) !! p)
  | PValidate T a clog => exists r l, validate_iter a clog (T - 1) (s_log s) = (Ok r, l)
  | PDecided T a => exists e l, load_ent a (s_log s) = (Ok e, s_log s) /\
      store_ent a (with_filled true e) (s_log s) = (Ok tt, l)
  | _ => True
  end.

Lemma accesses_live lo s i th : sys_inv lo s -> s_threads s !! i = Some th -> next_access_live s th.
Proof.
  intros Hi Hth. pose proof (si_view _ _ Hi) as Hv. pose proof (lv_lo _ _ _ Hv) as Hlo.
  pose proof (si_threads _ _ Hi _ _ Hth) as [_ Hpr [Hg _] Hts Hpc _].
  assert (Hl : forall t1 t2, th_prior th <= th_ts th -> th_ts th < s_started s ->
    exists p, sivfs_ts_to_log_entry (th_ts th + 1) t1 t2 (s_log s) = Ok (Some p) /\
      is_Some (ls_ents (s_log s) !! p) \/ t1 < ls_deleted_ts (s_log s)).
  { intros t1 t2 H1 H2. destruct (view_entry _ _ _ Hv (th_ts th + 1) ltac:(lia)) as (p & e & Hp & He & _).
    exists p. unfold sivfs_ts_to_log_entry. destruct (Z.ltb_spec t1 (ls_deleted_ts (s_log s))); [by right|left].
    rewrite Hp. eauto. }
  pose proof (lv_deleted _ _ _ Hv) as Hdel.
  unfold next_access_live. unfold pc_inv in Hpc. destruct (th_pc th) eqn:E; try done.
  + intros Hlt. pose proof (si_master _ _ Hi). destruct Hts as [[_ Hts]|Hts].
    { rewrite invalid_ts_val, two64_val in Hts. pose proof (lv_n _ _ _ Hv). lia. }
    destruct (Hl (th_ts th + 1) m) as (p & [?|?]); [lia|lia|by exists p|lia].
  + destruct (update_runs lo s Hi i th Hth m clog E) as (t & r & _ & _ & Hit & _). eauto.
  + intros Hlt. destruct Hpc as (x & Ho & _), Hts as [[[] _]|Hts]. pose proof (ow_range _ _ _ _ _ Ho).
    destruct (Hl (th_ts th + 1) (T - 1)) as (p & [?|?]); [lia|lia|by exists p|lia].
  + destruct (validate_runs lo s Hi i th T a clog Hth E) as (? & ? & ? & me & r & _ & _ & _ & _ & _ & _ & _ & Hit & _).
    eauto.
  + destruct Hpc as (x & Ho & _). destruct (lv_ent _ _ _ Hv _ _ (ow_cache _ _ _ _ _ Ho)) as (e & He & _).
    exists e. eexists. split; [by apply load_ent_ok|by apply (store_ent_ok _ _ e)].
Qed.

(** ** Properties *)

(** C4. Snapshot isolation: in every reachable state, for every interleaving
    of commits, validation, checkouts, checkpoints and log collection, two
    transactions that are both committed and whose lifetimes overlap (the later
    one took its snapshot before the earlier one committed) wrote disjoint sets
    of words: the first committer wins. *)
Theorem first_committer_wins s t T x y : reach s ->
  s_txns s !! t = Some x -> s_txns s !! T = Some y -> T <= s_master s ->
  tx_snap y < t < T -> tx_aborted x = false -> tx_aborted y = false ->
  forall a b, a ∈ tx_writes x -> b ∈ tx_writes y -> wse_key a <> wse_key b.
Proof.
  intros [lo Hi]%reach_inv Hx Hy HT Ht Hxa Hya a b Ha Hb Hk.
  destruct (si_done _ _ Hi T y Hy HT) as [?|Hc]; [congruence|].
  destruct (Hc t Ht x y Hx Hy) as [?|Hf]; [congruence|].
  enough (ws_conflict (tx_writes y) (tx_writes x) = true) by congruence.
  apply ws_conflict_spec. by exists b, a.
Qed.

(** C7. Once published (timestamp at most [master_ts]) a transaction's outcome
    and writes never change again, in the ghost record and in the log. *)
Theorem published_outcome_stable s s' t x : reach s -> step s s' ->
  s_txns s !! t = Some x -> t <= s_master s ->
  s_txns s' !! t = Some x /\
  forall e', entry_at (s_log s') t = Some e' -> le_aborted e' = tx_aborted x /\ ws_repr (le_ws e') (tx_writes x).
Proof.
  intros [lo Hi]%reach_inv Hs Hx Ht.
  destruct (step_inv _ _ _ Hi Hs) as [lo' Hi'].
  assert (Hx' : s_txns s' !! t = Some x).
  { destruct Hs; simpl; try done.
    - rewrite lookup_insert_ne; [done|]. pose proof (si_master _ _ Hi). lia.
    - unfold abort_txn. rewrite lookup_alter_ne; [done|].
      pose proof (inflight_above s lo th T (si_threads _ _ Hi _ _ H)) as Hab. rewrite H0 in Hab.
      specialize (Hab eq_refl). lia. }
  split; [done|]. intros e' He'. destruct (si_match _ _ Hi' t x e' Hx' He'). done.
Qed.

(** [T], in the log and not aborted in [s], is found to conflict with [t], which
    entered the log after [T]'s snapshot and is itself not aborted in [s]. *)
Definition conflict_found (s : sys) (T : Z) (x' : txn) : Prop :=
  exists x t y a b, s_txns s !! T = Some x /\ tx_aborted x = false /\
    tx_snap x' = tx_snap x /\ tx_writes x' = tx_writes x /\
    tx_snap x < t < T /\ s_txns s !! t = Some y /\ tx_aborted y = false /\
    (forall e, entry_at (s_log s) t = Some e -> le_aborted e = false) /\
    a ∈ tx_writes x /\ b ∈ tx_writes y /\ wse_key a = wse_key b.

(** A step aborts a transaction on such a conflict only. *)
Lemma abort_step lo s s' T x' : sys_inv lo s -> step s s' -> s_txns s' !! T = Some x' -> tx_aborted x' = true ->
  s_txns s !! T = Some x' \/ conflict_found s T x'.
Proof.
  intros Hi Hs Hx' Ha. destruct Hs; cbn [s_txns set_thread drop_thread with_log] in Hx'; try (by left).
  - apply lookup_insert_Some in Hx' as [[_ <-]|[_ ?]]; [done|by left].
  - pose proof (abort_txn_lookup _ _ _ _ _ Hx') as (x0 & Hx0 & Hsn & Hwr & Hab). case_decide as E.
    2: { left. rewrite Hx0. f_equal. destruct x0, x'. simpl in *. congruence. }
    subst T0. right. destruct (validate_runs lo s Hi i th T a clog H H0)
      as (x & c & xc & me & r0 & Ho & Hx & Hc & Hxc & _ & _ & _ & Hit & Hres).
    rewrite H1 in Hit. injection Hit as <- ->. destruct (negb _ && _) eqn:Eb.
    2: { rewrite Ha in Hab. case_decide; [by subst r|]. by destruct Hres as (? & -> & _). }
    apply andb_true_iff in Eb as [Hnc (u & v & Hu & Hv & Huv)%ws_conflict_spec].
    apply negb_true_iff in Hnc. rewrite (ow_txn _ _ _ _ _ Ho) in Hx0. injection Hx0 as <-.
    exists x, c, xc, u, v. pose proof (ow_snap _ _ _ _ _ Ho).
    split_and!; try done; try lia; [apply Ho|].
    intros e He. by destruct (si_match _ _ Hi c xc e Hxc He) as [_ ->].
Qed.

(** C9. Validation aborts a transaction only because of a real write-write
    conflict: in every reachable state, a transaction marked aborted was marked
    by one earlier step, at which it and a transaction that entered the log
    after its snapshot, and that was not aborted itself at that moment, had
    written the same word. (That other transaction may still abort later on
    account of a third one: validation does not wait for its outcome, see
    [abort_for_an_aborting_one].) *)
Theorem abort_only_on_conflict s T x : reach s -> s_txns s !! T = Some x -> tx_aborted x = true ->
  exists s0 s1, reach s0 /\ conflict_found s0 T x /\ step s0 s1 /\ s_txns s1 !! T = Some x /\ rtc step s1 s.
Proof.
  intros Hr. revert x. induction Hr as [? ->|s s' Hr IH Hs]; [done|]. intros x Hx Ha.
  destruct (reach_inv _ Hr) as [lo Hi]. destruct (abort_step lo s s' T x Hi Hs Hx Ha) as [Hold|Hc].
  - destruct (IH x Hold Ha) as (s0 & s1 & ? & ? & ? & ? & Hrun). exists s0, s1.
    split_and!; try done. etrans; [done|by apply rtc_once].
  - exists s, s'. by split_and!.
Qed.

(** C6. The log is never read after it was collected, in the executions of
    [step] (no radix-tree insertion fails, a checkpoint is published at once): in
    every reachable state the next access of each thread (the lookup of the first
    concurrent entry, a validation iteration, the publication of the status, the
    lookup of the first entry to apply and each entry of the walk that moves a
    thread to the latest version, while others commit and the log is collected)
    and of the collector finds live memory. *)
Theorem log_accesses_are_live s : reach s ->
  (forall i th, s_threads s !! i = Some th ->
    next_access_live s th) /\
  (forall g, s_gc s = Some g -> exists did l, sivfs_delete_log g (s_log s) = (Ok did, l)).
Proof.
  intros [lo Hi]%reach_inv. split.
  - intros i th Hth. by eapply accesses_live.
  - pose proof (si_view _ _ Hi) as Hv. intros g Hg. pose proof (proj2 (si_guard _ _ Hi) _ Hg). pose proof (si_cp _ _ Hi). pose proof (si_master _ _ Hi).
    destruct (delete_view _ _ _ g Hv) as (did & l & E & _); [pose proof (si_gc _ _ Hi _ Hg); lia|eauto].
Qed.

(** ** Every started commit reaches its outcome *)

(** A step of a thread that is between phase I of its commit and the release of
    its timestamp. *)
Definition commit_step (s s' : sys) : Prop :=
  step s s' /\ exists i th, s_threads s !! i = Some th /\ is_Some (inflight (th_pc th)) /\
    s_threads s' !! i <> Some th.

(** An upper bound on the steps the commit of a thread still takes. *)
Definition commit_work (s : sys) (th : thread) : nat :=
  match th_pc th with
  | PLookup T _ => Z.to_nat (T - th_ts th) + 3
  | PValidate T _ clog =>
    match le_ts <$> (ls_ents (s_log s) !! clog) with Some c => Z.to_nat (T - c) + 2 | None => 0 end
  | PDecided _ _ => 2
  | PFilled _ _ => 1
  | _ => 0
  end%nat.

Definition pipeline_work (s : sys) : nat :=
  sum_list (commit_work s <$> (map_to_list (s_threads s)).*2).

Lemma sum_insert (f : thread -> nat) (m : gmap Z thread) (i : Z) x y : m !! i = Some x ->
  (sum_list (f <$> (map_to_list (<[i := y]> m)).*2) + f x = sum_list (f <$> (map_to_list m).*2) + f y)%nat.
Proof.
  intros Hx. rewrite <- (insert_delete_eq m i y).
  rewrite (map_to_list_insert (delete i m)) by apply lookup_delete_eq.
  rewrite <- (map_to_list_delete m i x Hx). simpl. lia.
Qed.

(** What a commit step does: one thread moves on, with less work left. *)
Record moves_on (s s' : sys) (i : Z) (th th' : thread) (T : Z) : Prop := {
  mo_old : s_threads s !! i = Some th;
  mo_inflight : inflight (th_pc th) = Some T;
  mo_new : s_threads s' = <[i := th']> (s_threads s);
  mo_next : inflight (th_pc th') = Some T \/ (th_pc th' = PStart /\ T <= s_master s');
  mo_ts : th_ts th' = th_ts th;
  mo_ents : forall p, le_ts <$> (ls_ents (s_log s') !! p) = le_ts <$> (ls_ents (s_log s) !! p);
  mo_less : (commit_work s' th' < commit_work s th)%nat;
  mo_master : s_master s <= s_master s';
  mo_started : s_started s' = s_started s
}.

Lemma put_ent_ts l a e e' p : ls_ents l !! a = Some e -> le_ts e' = le_ts e ->
  le_ts <$> (ls_ents (put_ent a e' l) !! p) = le_ts <$> (ls_ents l !! p).
Proof. intros He Ht. simpl. rewrite lookup_insert. case_decide; [|done]. subst. rewrite He. simpl. by f_equal. Qed.

Lemma validate_moves lo s i th T a clog r l : sys_inv lo s -> s_threads s !! i = Some th ->
  th_pc th = PValidate T a clog -> validate_iter a clog (T - 1) (s_log s) = (Ok r, l) ->
  moves_on s (mk_sys l (s_started s) (s_master s) (s_cp s) (s_gc s)
      (<[i := with_pc (validated_pc T a r) th]> (s_threads s))
      (abort_txn T (match r with VAborted => true | _ => false end) (s_txns s)))
    i th (with_pc (validated_pc T a r) th) T.
Proof.
  intros Hi Hth E Hit. destruct (validate_runs lo s Hi i th T a clog Hth E)
    as (x & c & xc & me & r0 & Ho & _ & Hc & _ & Hme & _ & Hcl & Hit0 & Hres).
  rewrite Hit in Hit0. injection Hit0 as <- ->.
  destruct (lv_ent _ _ _ (si_view _ _ Hi) _ _ Hcl) as (ec & Hec & Hets & _).
  assert (Hents : forall p b, le_ts <$> (ls_ents (put_ent a (with_aborted b me) (s_log s)) !! p)
    = le_ts <$> (ls_ents (s_log s) !! p)) by (intros; by apply put_ent_ts with me).
  split; cbn [s_log s_threads s_master s_started]; try done; [by rewrite E| |].
  - left. by destruct r.
  - unfold commit_work. rewrite E, Hec. cbn [fmap option_fmap option_map s_log with_pc th_pc]. rewrite Hets.
    destruct (negb _ && _); [subst r; simpl; lia|]. case_decide; [subst r; simpl; lia|].
    destruct Hres as (q & -> & Hq). cbn [validated_pc]. rewrite Hents.
    destruct (lv_ent _ _ _ (si_view _ _ Hi) _ _ Hq) as (eq & Heq & Heqts & _). rewrite Heq. simpl. lia.
Qed.

Lemma commit_step_moves lo s s' : sys_inv lo s -> commit_step s s' -> exists i th th' T, moves_on s s' i th th' T.
Proof.
  intros Hi [Hs (j & tj & Hj & Hin & Hne)].
  destruct Hs; cbn [s_threads set_thread drop_thread with_log] in Hne; try done;
    match type of Hne with
    | <[?i := _]> _ !! _ <> _ => destruct (decide (i = j)) as [->|]; [|by rewrite lookup_insert_ne in Hne]
    | delete ?i _ !! _ <> _ => destruct (decide (i = j)) as [->|]; [|by rewrite lookup_delete_ne in Hne]
    end; rewrite Hj in H; first [discriminate H|injection H as <-];
    try (rewrite H0 in Hin; by destruct Hin); clear Hne;
    exists j, tj; eexists; exists T;
    pose proof (si_threads _ _ Hi _ _ Hj) as Ht.
  - pose proof (ti_pc _ _ _ Ht) as Hp. unfold pc_inv in Hp. rewrite H0 in Hp.
    unfold sivfs_ts_to_log_entry in H2. case_match; [done|]. injection H2 as H2.
    destruct (lv_ent _ _ _ (si_view _ _ Hi) _ _ H2) as (e & He & Hets & _).
    split; simpl; try done; [by rewrite H0|by left|]. unfold commit_work. simpl. rewrite H0, He. simpl. lia.
  - split; simpl; try done; [by rewrite H0|by left|]. unfold commit_work. simpl. rewrite H0. lia.
  - by apply (validate_moves lo s j tj T a clog r l).
  - unfold load_ent in H1. destruct (ls_ents (s_log s) !! a) as [e0|] eqn:He; simplify_eq/=.
    rewrite (store_ent_ok _ _ _ _ He) in H2. simplify_eq.
    split; simpl; try done; [by rewrite H0|by left| |].
    + intros p. by apply (put_ent_ts _ _ e).
    + unfold commit_work. simpl. rewrite H0. lia.
  - split; simpl; try done; [by rewrite H0|right; split; [done|lia]| |lia].
    unfold commit_work. simpl. rewrite H0. lia.
Qed.

Lemma commit_step_work lo s s' : sys_inv lo s -> commit_step s s' -> (pipeline_work s' < pipeline_work s)%nat.
Proof.
  intros Hi Hs. destruct (commit_step_moves lo s s' Hi Hs) as (i & th & th' & T & M).
  unfold pipeline_work. rewrite (mo_new _ _ _ _ _ _ M).
  assert (Hsame : forall t, commit_work s' t = commit_work s t).
  { intros t. unfold commit_work. destruct (th_pc t); try done. by rewrite (mo_ents _ _ _ _ _ _ M). }
  rewrite (list_fmap_ext (commit_work s') (commit_work s)) by auto.
  pose proof (sum_insert (commit_work s) (s_threads s) i th th' (mo_old _ _ _ _ _ _ M)).
  pose proof (mo_less _ _ _ _ _ _ M). rewrite Hsame in *. lia.
Qed.

(** The thread that owns the next timestamp to release can run. *)
Lemma head_can_run lo s : sys_inv lo s -> s_master s < s_started s -> exists s', commit_step s s'.
Proof.
  intros Hi Hlt. destruct (si_cover _ _ Hi (s_master s + 1) ltac:(lia)) as (i & th & Hth & Hf).
  pose proof (accesses_live lo s i th Hi Hth) as Hl. unfold next_access_live in Hl.
  assert (Hgo : forall s' p, step s s' -> s_threads s' !! i = Some (with_pc p th) -> p <> th_pc th ->
    commit_step s s').
  { intros s' p Hs Hi' Hp. split; [done|]. exists i, th. split_and!; [done|by rewrite Hf|].
    rewrite Hi'. intros [= Heq]. apply Hp. by rewrite <- Heq. }
  destruct (th_pc th) eqn:E; simplify_eq/=.
  - destruct (Z.le_gt_cases (th_ts th + 2) (s_master s + 1)) as [Hc|Hc].
    + destruct (Hl Hc) as (p & Hp & _). eexists. eapply Hgo; [by eapply step_lookup|by apply lookup_insert_eq|done].
    + eexists. eapply Hgo; [by eapply step_no_concurrent|by apply lookup_insert_eq|done].
  - destruct Hl as (r & l & Hit). eexists. split; [by eapply step_validate|]. exists i, th.
    split_and!; [done|by rewrite E|]. cbn [s_threads]. rewrite lookup_insert_eq. intros Heq.
    pose proof (mo_less _ _ _ _ _ _ (validate_moves lo s i th _ a clog r l Hi Hth E Hit)) as Hless.
    injection Heq as Heq. rewrite Heq in Hless.
    pose proof (mo_ents _ _ _ _ _ _ (validate_moves lo s i th _ a clog r l Hi Hth E Hit) clog) as He.
    unfold commit_work in Hless. rewrite E in Hless. cbn [s_log] in *. rewrite He in Hless. lia.
  - destruct Hl as (e & l & He & Hs). eexists. eapply Hgo; [by eapply step_fill|by apply lookup_insert_eq|done].
  - eexists. eapply Hgo; [eapply step_release; [done|done|lia]|by apply lookup_insert_eq|done].
Qed.

(** Along a run, a committing thread is still committing or done. *)
Definition committing_or_done (i T ts : Z) (s : sys) : Prop :=
  exists th, s_threads s !! i = Some th /\ th_ts th = ts /\
    (inflight (th_pc th) = Some T \/ (th_pc th = PStart /\ T <= s_master s)).

Lemma commit_run lo s s' : sys_inv lo s -> rtc commit_step s s' ->
  (exists lo', sys_inv lo' s') /\ s_started s' = s_started s /\
  forall i T ts, committing_or_done i T ts s -> committing_or_done i T ts s'.
Proof.
  intros Hi Hr. revert lo Hi. induction Hr as [s|s s1 s' Hs _ IH]; intros lo Hi; [by eauto|].
  destruct (commit_step_moves lo s s1 Hi Hs) as (j & th & th' & T & M).
  destruct (step_inv _ _ _ Hi (proj1 Hs)) as [lo1 Hi1]. destruct (IH lo1 Hi1) as (Hi' & Hst & Hk).
  split; [done|]. split; [by rewrite Hst; apply M|]. intros i U ts (t & Ht & Hts & Hd). apply Hk. clear Hk IH.
  unfold committing_or_done. rewrite (mo_new _ _ _ _ _ _ M), lookup_insert.
  pose proof (mo_master _ _ _ _ _ _ M). pose proof (mo_old _ _ _ _ _ _ M) as Ho.
  case_decide; [subst j|exists t; split_and!; try done; destruct Hd as [|[? ?]]; [by left|right; split; [done|lia]]].
  rewrite Ho in Ht. injection Ht as <-. exists th'. split_and!; [done|by rewrite (mo_ts _ _ _ _ _ _ M)|].
  pose proof (mo_inflight _ _ _ _ _ _ M) as Hf. destruct Hd as [Hd|[Hd _]]; [|by rewrite Hd in Hf].
  rewrite Hf in Hd. injection Hd as ->. apply M.
Qed.

Lemma pipeline_drains n : forall lo s, sys_inv lo s -> (pipeline_work s <= n)%nat ->
  exists s', rtc commit_step s s' /\ s_master s' = s_started s'.
Proof.
  induction n as [|n IH]; intros lo s Hi Hn;
    (destruct (decide (s_master s = s_started s)); [by exists s|]);
    (destruct (head_can_run lo s Hi) as [s1 Hs]; [pose proof (si_master _ _ Hi); lia|]);
    pose proof (commit_step_work lo s s1 Hi Hs); [lia|].
  destruct (step_inv _ _ _ Hi (proj1 Hs)) as [lo1 Hi1].
  destruct (IH lo1 s1 Hi1 ltac:(lia)) as (s' & ? & ?). exists s'. split; [by eapply rtc_l|done].
Qed.

(** C20. Every started commit reaches its outcome, whatever the schedule of the
    committing threads: from every reachable state, (1) any sequence of their
    steps is finite, bounded by [pipeline_work]; (2) some sequence of them releases
    every started timestamp; (3) when no committing thread can take another step,
    every started timestamp is released and each of those threads is back at the
    end of its commit, with its snapshot as it was. *)
Theorem commit_pipeline_progress s : reach s ->
  (forall n s', nsteps commit_step n s s' -> (n <= pipeline_work s)%nat) /\
  (exists s', rtc commit_step s s' /\ s_master s' = s_started s) /\
  (forall s', rtc commit_step s s' -> (forall s'', ~ commit_step s' s'') ->
    s_master s' = s_started s /\
    forall i th T, s_threads s !! i = Some th -> inflight (th_pc th) = Some T ->
      exists th', s_threads s' !! i = Some th' /\ th_pc th' = PStart /\ th_ts th' = th_ts th).
Proof.
  intros [lo Hi]%reach_inv. split_and!.
  - intros n. revert lo s Hi. induction n as [|n IH]; intros lo s Hi s' Hn; [lia|].
    inversion Hn as [|? ? s1 ? Hs Hn']; subst. destruct (step_inv _ _ _ Hi (proj1 Hs)) as [lo1 Hi1].
    pose proof (commit_step_work lo s s1 Hi Hs). pose proof (IH lo1 s1 Hi1 s' Hn'). lia.
  - destruct (pipeline_drains _ lo s Hi (le_n _)) as (s' & Hr & Hm). exists s'. split; [done|].
    destruct (commit_run lo s s' Hi Hr) as (_ & <- & _). done.
  - intros s' Hr Hno. destruct (commit_run lo s s' Hi Hr) as ([lo' Hi'] & Hst & Hk).
    assert (Hm : s_master s' = s_started s').
    { destruct (decide (s_master s' = s_started s')); [done|]. exfalso.
      destruct (head_can_run lo' s' Hi') as [s'' ?]; [pose proof (si_master _ _ Hi'); lia|by apply (Hno s'')]. }
    split; [by rewrite Hm|]. intros i th T Hth Hf.
    destruct (Hk i T (th_ts th)) as (th' & Hth' & Hts & Hd); [exists th; by eauto|].
    exists th'. split_and!; try done. destruct Hd as [Hd|[? _]]; [|done].
    pose proof (inflight_above s' lo' th' T (si_threads _ _ Hi' _ _ Hth') Hd). lia.
Qed.

(** ** An executable scheduler, for concrete runs *)

Inductive action : Type :=
  | ANew (i : Z) | ACheckpoint (c : Z) | AStart (i : Z) | ANext (i : Z)
  | ACommit (i p : Z) (es : list wse) | AScan | ADelete.

Definition wf_wse_b (e : wse) : bool :=
  match e_payload e with
  | Single _ => true
  | ConstStream n _ => (1 <=? n) && (n <? 2 ^ 60)
  | Stream _ vs => 1 + Z.of_nat (length vs) <? 2 ^ 60
  end.

(** One step of thread [i] that needs no argument. *)
Definition exec_next (i : Z) (th : thread) (s : sys) : option sys :=
  match th_pc th with
  | PRead c => Some (set_thread i (mk_th (th_ts th) c (th_prior th) (PWrote c)) s)
  | PWrote c => Some (set_thread i (with_pc (if s_cp s =? c then PChecked else PRead (s_cp s)) th) s)
  | PChecked => Some (set_thread i (with_pc (PNext (s_master s)) th) s)
  | PNext m =>
    if (th_ts th =? SIVFS_INVALID_TS) || (m <=? th_ts th) then Some (set_thread i (updated m th) s)
    else match sivfs_ts_to_log_entry (th_ts th + 1) (th_ts th + 1) m (s_log s) with
      | Ok (Some clog) => Some (set_thread i (with_pc (PUpdate m clog) th) s)
      | _ => None
      end
  | PUpdate m clog =>
    match update_iter clog m (s_log s) with
    | (Ok r, l) => Some (set_thread i (match r with Some q => with_pc (PUpdate m q) th | None => updated m th end) s)
    | _ => None
    end
  | PLookup T a =>
    if th_ts th + 2 <=? T then
      match sivfs_ts_to_log_entry (th_ts th + 1) (th_ts th + 1) (T - 1) (s_log s) with
      | Ok (Some clog) => Some (set_thread i (with_pc (PValidate T a clog) th) s)
      | _ => None
      end
    else Some (set_thread i (with_pc (PDecided T a) th) s)
  | PValidate T a clog =>
    match validate_iter a clog (T - 1) (s_log s) with
    | (Ok r, l) => Some (mk_sys l (s_started s) (s_master s) (s_cp s) (s_gc s)
                (<[i := with_pc (validated_pc T a r) th]> (s_threads s))
                (abort_txn T (match r with VAborted => true | _ => false end) (s_txns s)))
    | _ => None
    end
  | PDecided T a =>
    match ls_ents (s_log s) !! a with
    | Some e => Some (set_thread i (with_pc (PFilled T a) th)
                        (with_log (put_ent a (with_filled true e) (s_log s)) s))
    | None => None
    end
  | PFilled T a =>
    if s_master s =? T - 1 then
      Some (mk_sys (s_log s) (s_started s) T (s_cp s) (s_gc s)
              (<[i := with_pc PStart th]> (s_threads s)) (s_txns s))
    else None
  | _ => None
  end.

Definition exec (a : action) (s : sys) : option sys :=
  match a with
  | ANew i =>
    match s_threads s !! i with
    | None => Some (set_thread i (mk_th SIVFS_INVALID_TS SIVFS_INVALID_TS SIVFS_INVALID_TS PStart) s)
    | Some _ => None
    end
  | ACheckpoint c =>
    if (s_cp s <=? c) && (c <=? s_master s)
    then Some (mk_sys (s_log s) (s_started s) (s_master s) c (s_gc s) (s_threads s) (s_txns s))
    else None
  | AStart i =>
    th ← s_threads s !! i;
    match th_pc th with
    | PStart => Some (set_thread i (with_pc (PRead (s_cp s)) th) s)
    | _ => None
    end
  | ANext i => th ← s_threads s !! i; exec_next i th s
  | ACommit i p es =>
    th ← s_threads s !! i;
    match th_pc th with
    | PTxn =>
      if forallb wf_wse_b es && (Z.of_nat (length (encode es)) <? 2 ^ 58) && (s_started s + 1 <? 2 ^ 63)
         && (0 <? p) && (p + new_chunk_bytes (ws_size_bytes (ws_of es)) <? 2 ^ 63)
         && bool_decide (map_Forall (fun q c => q + ck_size c <= p \/
              p + new_chunk_bytes (ws_size_bytes (ws_of es)) <= q) (ls_chunks (s_log s)))
      then
        match commit_append (Some p) true (s_started s + 1) (writeset_entry es) (s_log s) with
        | (Ok a, l) => Some (mk_sys l (s_started s + 1) (s_master s) (s_cp s) (s_gc s)
                (<[i := with_pc (PLookup (s_started s + 1) a) th]> (s_threads s))
                (<[s_started s + 1 := mk_txn (th_ts th) es false]> (s_txns s)))
        | _ => None
        end
      else None
    | _ => None
    end
  | AScan =>
    match s_gc s with
    | None => Some (mk_sys (s_log s) (s_started s) (s_master s) (s_cp s) (Some (gc_log_stop s))
                      (s_threads s) (s_txns s))
    | Some _ => None
    end
  | ADelete =>
    g ← s_gc s;
    match sivfs_delete_log g (s_log s) with
    | (Ok did, l) => Some (mk_sys l (s_started s) (s_master s) (s_cp s) None (s_threads s) (s_txns s))
    | _ => None
    end
  end.

Lemma wf_wse_b_spec es : forallb wf_wse_b es = true -> Forall wf_wse es.
Proof.
  intros H. apply Forall_forall. intros e He. rewrite forallb_forall in H.
  specialize (H e (proj1 (list_elem_of_In _ _) He)). unfold wf_wse_b, wf_wse in *.
  destruct (e_payload e); [done| |]; rewrite ?andb_true_iff, ?Z.leb_le, ?Z.ltb_lt in H; lia.
Qed.

Lemma update_iter_log clog m l : (update_iter clog m l).2 = l.
Proof.
  unfold update_iter, load_ent, bind. simpl. destruct (ls_ents l !! clog) as [e|]; simpl; [|done].
  case_match; [done|]. destruct (le_next e) as [q|]; [|done]. unfold bind. simpl.
  destruct (ls_ents l !! q); simpl; [|done]. by case_match.
Qed.

Lemma exec_next_sound i th s s' : s_threads s !! i = Some th -> exec_next i th s = Some s' -> step s s'.
Proof.
  intros Hth. unfold exec_next. destruct (th_pc th) eqn:E; intros H; simplify_eq.
  - by apply step_write.
  - by apply step_recheck.
  - by apply step_next.
  - destruct (Z.eqb_spec (th_ts th) SIVFS_INVALID_TS); [simpl in H; simplify_eq; by eapply step_update; [..|left]|].
    destruct (Z.leb_spec m (th_ts th)); [simpl in H; simplify_eq; by eapply step_update; [..|right; left]|].
    simpl in H. destruct (sivfs_ts_to_log_entry _ _ _ _) as [[clog|]| | |] eqn:El; simplify_eq.
    by eapply step_update_lookup.
  - pose proof (update_iter_log clog m (s_log s)) as Hl.
    destruct (update_iter _ _ _) as [[r| | |] l] eqn:Eu; simplify_eq/=. by eapply step_update_iter.
  - destruct (Z.leb_spec (th_ts th + 2) T).
    + destruct (sivfs_ts_to_log_entry _ _ _ _) as [[clog|]| | |] eqn:El; simplify_eq. by eapply step_lookup.
    + simplify_eq. by apply step_no_concurrent.
  - destruct (validate_iter _ _ _ _) as [[r| | |] l] eqn:Ev; simplify_eq. by apply (step_validate s i th T a clog).
  - destruct (ls_ents (s_log s) !! a) as [e|] eqn:Ee; simplify_eq.
    eapply step_fill; [done|done|by apply load_ent_ok|]. by rewrite (store_ent_ok _ _ e).
  - destruct (Z.eqb_spec (s_master s) (T - 1)); simplify_eq. by eapply step_release.
Qed.

Lemma exec_sound a s s' : exec a s = Some s' -> step s s'.
Proof.
  destruct a as [i|c|i|i|i p es| |]; simpl; intros H.
  - destruct (s_threads s !! i) eqn:E; simplify_eq. by apply step_new.
  - destruct (_ && _) eqn:E; simplify_eq. apply andb_true_iff in E as [?%Z.leb_le ?%Z.leb_le].
    by apply step_checkpoint.
  - destruct (s_threads s !! i) as [th|] eqn:E; simplify_eq/=. destruct (th_pc th) eqn:Ep; simplify_eq.
    by apply step_read.
  - destruct (s_threads s !! i) as [th|] eqn:E; simplify_eq/=. by eapply exec_next_sound.
  - destruct (s_threads s !! i) as [th|] eqn:E; simplify_eq/=. destruct (th_pc th) eqn:Ep; simplify_eq.
    destruct (_ && _) eqn:Ec; [|done].
    apply andb_true_iff in Ec as [[[[[Hwf Hl]%andb_true_iff Hs]%andb_true_iff Hp]%andb_true_iff Hb]%andb_true_iff Hf].
    apply Z.ltb_lt in Hl, Hs, Hp, Hb.
    destruct (commit_append _ _ _ _ _) as [[a| | |] l] eqn:Ea; simplify_eq.
    eapply step_commit; try done.
    + apply ws_of_repr; [by apply wf_wse_b_spec|done].
    + intros q [= <-]. by apply fresh_by_size.
  - destruct (s_gc s) eqn:E; simplify_eq. by apply step_gc_scan.
  - destruct (s_gc s) as [g|] eqn:E; simplify_eq/=.
    destruct (sivfs_delete_log g (s_log s)) as [[did| | |] l] eqn:Ed; simplify_eq. by eapply step_gc_delete.
Qed.

Fixpoint run (acts : list action) (s : sys) : option sys :=
  match acts with
  | [] => Some s
  | a :: acts => s' ← exec a s; run acts s'
  end.

Lemma run_reach acts s s' : reach s -> run acts s = Some s' -> reach s'.
Proof.
  revert s. induction acts as [|a acts IH]; simpl; intros s Hr H; simplify_eq; [done|].
  destruct (exec a s) as [s1|] eqn:E; simplify_eq/=. eapply IH; [|done].
  eapply (reach_step _ _ s s1); [done|by apply (exec_sound a)].
Qed.

Definition run_state (acts : list action) : sys := default sys_init (run acts sys_init).

Lemma run_state_reach acts : reach (run_state acts).
Proof.
  unfold run_state. destruct (run acts sys_init) as [s|] eqn:E; simpl; [|by constructor].
  eapply run_reach; [|done]. by constructor.
Qed.

(** Two threads check out version 0 and commit writes to different words; a
    third writes the word of the first one and must abort. *)
Definition checkout (i : Z) : list action := [ANew i; AStart i; ANext i; ANext i; ANext i; ANext i].
Definition race_until_validation : list action :=
  checkout 1 ++ checkout 2 ++ checkout 3 ++
  [ACommit 1 4096 [word_write 7 16 1]; ACommit 2 8192 [word_write 7 24 2];
   ACommit 3 12288 [word_write 9 0 0; word_write 7 16 3];
   ANext 1; ANext 2].
Definition race_done : list action :=
  race_until_validation ++
  [ANext 3; ANext 3; ANext 2; ANext 3; ANext 2; ANext 1; ANext 1; ANext 2; ANext 3].

Lemma first_committer_wins_witness :
  reach (run_state race_done) /\
  forall a b, a ∈ [word_write 7 16 1] -> b ∈ [word_write 7 24 2] -> wse_key a <> wse_key b.
Proof.
  split; [apply run_state_reach|].
  apply (first_committer_wins (run_state race_done) 1 2
    (mk_txn 0 [word_write 7 16 1] false) (mk_txn 0 [word_write 7 24 2] false));
    [apply run_state_reach|vm_compute; done..].
Defined.

Lemma log_accesses_are_live_witness :
  (forall i th, s_threads (run_state (race_done ++ [ACheckpoint 2; AScan])) !! i = Some th ->
     next_access_live (run_state (race_done ++ [ACheckpoint 2; AScan])) th) /\
  (forall g, s_gc (run_state (race_done ++ [ACheckpoint 2; AScan])) = Some g ->
     exists did l, sivfs_delete_log g (s_log (run_state (race_done ++ [ACheckpoint 2; AScan]))) = (Ok did, l)).
Proof. apply log_accesses_are_live. apply run_state_reach. Defined.

Lemma published_outcome_stable_witness :
  s_txns (run_state (race_done ++ [ACheckpoint 3])) !! 3
    = Some (mk_txn 0 [word_write 9 0 0; word_write 7 16 3] true) /\
  forall e', entry_at (s_log (run_state (race_done ++ [ACheckpoint 3]))) 3 = Some e' ->
    le_aborted e' = true /\ ws_repr (le_ws e') [word_write 9 0 0; word_write 7 16 3].
Proof.
  apply (published_outcome_stable (run_state race_done) (run_state (race_done ++ [ACheckpoint 3])) 3
    (mk_txn 0 [word_write 9 0 0; word_write 7 16 3] true)).
  - apply run_state_reach.
  - apply (exec_sound (ACheckpoint 3)). vm_compute. reflexivity.
  - vm_compute. reflexivity.
  - vm_compute. done.
Defined.

Lemma abort_only_on_conflict_witness : exists s0 s1, reach s0 /\
  conflict_found s0 3 (mk_txn 0 [word_write 9 0 0; word_write 7 16 3] true) /\ step s0 s1 /\
  s_txns s1 !! 3 = Some (mk_txn 0 [word_write 9 0 0; word_write 7 16 3] true) /\
  rtc step s1 (run_state race_done).
Proof.
  apply (abort_only_on_conflict (run_state race_done) 3 (mk_txn 0 [word_write 9 0 0; word_write 7 16 3] true));
    [apply run_state_reach|vm_compute; reflexivity|reflexivity].
Defined.

(** Thread 3 aborts on account of thread 2, which then aborts on account of
    thread 1: transaction 3 conflicts with no transaction that commits. *)
Definition race_chain : list action :=
  checkout 1 ++ checkout 2 ++ checkout 3 ++
  [ACommit 1 4096 [word_write 7 16 1]; ACommit 2 8192 [word_write 7 16 2; word_write 7 24 2];
   ACommit 3 12288 [word_write 7 24 3];
   ANext 3; ANext 3; ANext 3; ANext 2; ANext 2].

Example abort_for_an_aborting_one :
  (tx_aborted <$> s_txns (run_state race_chain) !! 1) = Some false /\
  (tx_aborted <$> s_txns (run_state race_chain) !! 2) = Some true /\
  (tx_aborted <$> s_txns (run_state race_chain) !! 3) = Some true.
Proof. vm_compute. done. Qed.

Lemma commit_pipeline_progress_witness :
  (forall n s', nsteps commit_step n (run_state race_until_validation) s' -> (n <= 11)%nat) /\
  (exists s', rtc commit_step (run_state race_until_validation) s' /\ s_master s' = 3) /\
  (forall s', rtc commit_step (run_state race_until_validation) s' -> (forall s'', ~ commit_step s' s'') ->
    s_master s' = 3 /\
    forall i th T, s_threads (run_state race_until_validation) !! i = Some th -> inflight (th_pc th) = Some T ->
      exists th', s_threads s' !! i = Some th' /\ th_pc th' = PStart /\ th_ts th' = th_ts th).
Proof.
  assert (pipeline_work (run_state race_until_validation) = 11%nat) as <- by (vm_compute; reflexivity).
  assert (s_started (run_state race_until_validation) = 3) as <- by (vm_compute; reflexivity).
  apply commit_pipeline_progress. apply run_state_reach.
Defined.
