(* ===== verification/LogChunks.v ===== *)
(** Who frees the chunks of the log: in every reachable state of the protocol a
    live chunk is the current one or the predecessor that some cached entry will
    free, so that deleting the whole log, as unmounting does, leaves no chunk. *)
From S2P Require Import Prelude Types RadixTree Writeset Log LogView Commit Protocol.

(** Every live chunk is the current one, or a cached first entry frees it. *)
Definition chunks_owned (st : log_state) : Prop := forall s c, ls_chunks st !! s = Some c ->
  s = log_chunk_start_ptr (ls_log st) \/ exists t p, first_prev st t p s.

(** Two states with the same chunks, the same cache and the same first entries. *)
Record same_chunks (st st' : log_state) : Prop := {
  sc_chunks : ls_chunks st' = ls_chunks st;
  sc_cache : ls_cache st' = ls_cache st;
  sc_start : log_chunk_start_ptr (ls_log st') = log_chunk_start_ptr (ls_log st);
  sc_first : forall p, le_first_in_chunk <$> ls_ents st' !! p = le_first_in_chunk <$> ls_ents st !! p
}.

#[export] Instance same_chunks_preorder : PreOrder same_chunks.
Proof. split; [by intros st|]. intros x y z [? ? ? Hf] [? ? ? Hg]. split; congruence. Qed.

Lemma owned_same st st' : same_chunks st st' -> chunks_owned st -> chunks_owned st'.
Proof.
  intros [Hk Hc Hs Hf] Ho s c Hsc. rewrite Hk in Hsc. destruct (Ho s c Hsc) as [->|(t & p & e & c' & Ht & He & Hfi & Hck & Hq)]; [by left|right].
  pose proof (Hf p) as Hp. rewrite He in Hp. destruct (ls_ents st' !! p) as [e'|] eqn:He'; [|done]. injection Hp as Hp.
  exists t, p, e', c'. rewrite Hk, Hc. split_and!; try done; [congruence|apply Hq..].
Qed.

(** A store that keeps the mark of a first entry. *)
Lemma store_same st p e e' st' r : ls_ents st !! p = Some e -> le_first_in_chunk e' = le_first_in_chunk e ->
  store_ent p e' st = (r, st') -> same_chunks st st'.
Proof.
  intros He Hf Es. rewrite (store_ent_ok _ _ _ _ He) in Es. injection Es as <- <-. split; try done.
  intros q. simpl. rewrite lookup_insert. case_decide; [|done]. subst. rewrite He. simpl. by f_equal.
Qed.

Lemma load_ent_inv p st e st' : load_ent p st = (Ok e, st') -> ls_ents st !! p = Some e /\ st' = st.
Proof. unfold load_ent. destruct (ls_ents st !! p); by intros [= <- <-]. Qed.

(** Linking an entry and filling it in. *)
Lemma append_tail_same km ins ts lw st a st' : commit_append km ins ts lw st = (Ok a, st') ->
  exists b st1, sivfs_allocate_log_insert_log_cache km ins ts (ws_size_bytes (le_ws lw)) st = (Ok b, st1) /\ same_chunks st1 st'.
Proof.
  unfold commit_append, sivfs_create_log_entry. intros (b & s5 & Hcreate & Hrest)%bind_Ok.
  apply bind_Ok in Hcreate as (l & s1 & Ea & Hcreate). exists l, s1. split; [done|].
  apply bind_Ok in Hcreate as (pm & s1' & [= <- <-] & Hcreate). apply bind_Ok in Hcreate as (e & s1' & [He ->]%load_ent_inv & Hcreate).
  apply bind_Ok in Hcreate as ([] & s2 & S1 & Hcreate). apply (store_same _ _ _ _ _ _ He) in S1; [|done].
  apply bind_Ok in Hcreate as ([] & s3 & Hlink & Hcreate).
  assert (S2 : same_chunks s2 s3).
  { destruct (log_latest (ls_log s1)) as [q|]; [|by injection Hlink as <-].
    apply bind_Ok in Hlink as (pe & s2' & [Hpe ->]%load_ent_inv & Hst). by apply (store_same _ _ _ _ _ _ Hpe) in Hst. }
  apply bind_Ok in Hcreate as ([] & s4 & [= <-] & Hcreate). injection Hcreate as <- <-.
  apply bind_Ok in Hrest as (e' & s5' & [He' ->]%load_ent_inv & Hrest).
  apply bind_Ok in Hrest as (ws & s5' & Hws & Hrest). injection Hws as Hws <-.
  apply bind_Ok in Hrest as ([] & s6 & S4 & Hrest). apply (store_same _ _ _ _ _ _ He') in S4; [|done].
  injection Hrest as <- <-. etrans; [exact S1|]. etrans; [exact S2|]. etrans; [|exact S4]. by split.
Qed.

(** The chunk of a new entry is the current one, or it is new, points to the one
    before, and the entry is its first. *)
Definition chunk_used (km : option Z) (wb a : Z) (st st' : log_state) : Prop :=
  (ls_chunks st' = ls_chunks st /\ log_chunk_start_ptr (ls_log st') = log_chunk_start_ptr (ls_log st)) \/
  exists p, km = Some p /\ a = p + SIZEOF_PTR /\ log_chunk_start_ptr (ls_log st') = p /\
    ls_chunks st' = <[p := mk_chunk (new_chunk_bytes wb) (log_chunk_start_ptr (ls_log st))]> (ls_chunks st) /\
    le_first_in_chunk <$> ls_ents st' !! a = Some true.

Lemma allocate_chunk km ts wb st a st' : 0 <= wb < 2 ^ 62 ->
  (forall p, km = Some p -> fresh_chunk st p (new_chunk_bytes wb)) ->
  sivfs_allocate_log_insert_log_cache km true ts wb st = (Ok a, st') -> chunk_used km wb a st st'.
Proof.
  intros Hwb Hkm. unfold sivfs_allocate_log_insert_log_cache, SIZEOF_LOG_ENTRY. rewrite uadd_small by u64_lia.
  intros ([[s p] rem] & s1 & Hpick & E)%bind_Ok. apply bind_Ok in E as ([] & s2 & [= <-] & E). unfold log_cache_insert in E.
  destruct (radix_tree_insert _ _ _ _) as [[[]| | |] m]; [|by destruct (kfree_chunk _ _) as [[] ?]|done..].
  injection E as <- <-. unfold log_pick_chunk in Hpick. destruct (_ <? _); [|by injection Hpick as <- <- <- <-; left].
  destruct km as [q|]; [|done]. destruct (Hkm q eq_refl) as (Hq & Hlim & _). injection Hpick as <- <- <- <-. right. exists q.
  unfold new_chunk_bytes, SIVFS_LOG_CHUNK_SIZE, SIZEOF_LOG_ENTRY, SIZEOF_PTR in *.
  rewrite !uadd_small by u64_lia. split_and!; try done.
  cbn. rewrite ?uadd_small, lookup_insert_eq by u64_lia. cbn. by rewrite Z.eqb_refl.
Qed.

Lemma allocate_owned km ts wb st a st' : log_heap_inv st -> 0 <= wb < 2 ^ 62 ->
  (forall t p, ls_cache st !! t = Some p -> t < ts) ->
  (forall p, km = Some p -> fresh_chunk st p (new_chunk_bytes wb)) ->
  sivfs_allocate_log_insert_log_cache km true ts wb st = (Ok a, st') -> chunks_owned st -> chunks_owned st'.
Proof.
  intros Hi Hwb Hts Hkm E Ho. pose proof (allocate_chunk km ts wb st a st' Hwb Hkm E) as Hu.
  destruct (allocate_ok st ts wb Hi Hwb Hts km Hkm) as [(a' & st1 & E1 & A)|[_ E1]]; rewrite E in E1; [|done].
  injection E1 as <- <-. pose proof (al_fresh _ _ _ _ _ A) as Hfresh. destruct (al_ents _ _ _ _ _ A) as [fi He].
  assert (Hkeep : forall t p q, (forall s c, ls_chunks st !! s = Some c -> ls_chunks st' !! s = Some c) ->
    first_prev st t p q -> first_prev st' t p q).
  { intros t p q Hc (e & c & Ht & Hp & Hf & Hck & Hq). exists e, c. rewrite He, (al_cache _ _ _ _ _ A).
    rewrite !lookup_insert_ne; [split_and!; auto; tauto|congruence|intros <-; apply Hts in Ht; lia]. }
  intros s c Hs. destruct Hu as [[Hk Hst]|(p & -> & -> & Hst & Hk & Hf)].
  - rewrite Hk in Hs. rewrite Hst. destruct (Ho s c Hs) as [?|(t & p & Hp)]; [by left|right]. exists t, p. apply Hkeep; [by rewrite Hk|done].
  - assert (Hnone : ls_chunks st !! p = None).
    { apply (fresh_chunk_None st p (new_chunk_bytes wb)); [done|unfold new_chunk_bytes, SIVFS_LOG_CHUNK_SIZE; lia|by apply Hkm]. }
    rewrite Hst. rewrite Hk in Hs. apply lookup_insert_Some in Hs as [[-> _]|[Hne Hs]]; [by left|right].
    destruct (Ho s c Hs) as [->|(t & p' & Hp)].
    + exists ts, (p + SIZEOF_PTR). destruct (ls_ents st' !! _) as [e|] eqn:Ee; [|done]. injection Hf as Hf.
      exists e. eexists. rewrite (al_cache _ _ _ _ _ A), lookup_insert_eq, Hk. replace (p + SIZEOF_PTR - SIZEOF_PTR) with p by lia.
      rewrite lookup_insert_eq. split_and!; try done. pose proof (lh_chunk_ok _ Hi _ _ Hs). lia.
    + exists t, p'. apply Hkeep; [|done]. intros s' c' Hs'. rewrite Hk, lookup_insert_ne; [done|congruence].
Qed.

Lemma append_owned km lw es st lo n a st' : log_view st lo n -> ws_repr (le_ws lw) es ->
  (forall p, km = Some p -> fresh_chunk st p (new_chunk_bytes (ws_size_bytes (le_ws lw)))) ->
  commit_append km true (n + 1) lw st = (Ok a, st') -> chunks_owned st -> chunks_owned st'.
Proof.
  intros Hv Hr Hkm E Ho. destruct (append_tail_same _ _ _ _ _ _ _ E) as (b & st1 & Ea & Hs). apply (owned_same st1); [done|].
  eapply (allocate_owned km (n + 1)); [apply Hv| | |exact Hkm|exact Ea|done].
  - pose proof (repr_cap _ _ Hr). pose proof (repr_size _ _ Hr). lia.
  - intros t p Hp. pose proof (proj1 (lv_dom _ _ _ Hv t) ltac:(eauto)). lia.
Qed.

(** ** Deleting *)

Lemma free_prev_owned st m t p st' : log_heap_inv (set_cache m st) -> m !! t = Some p ->
  (forall t' p', m !! t' = Some p' -> t <= t') -> free_prev_chunk p st = (Ok tt, st') ->
  chunks_owned (set_cache m st) -> chunks_owned (set_cache (delete t m) st').
Proof.
  intros Hi Ht Hmin E Ho. destruct (free_prev_oldest st m t p Hi Ht Hmin) as (st1 & E1 & Hi1 & [L C D F] & _).
  rewrite E in E1. injection E1 as <-.
  assert (Hown : exists q, (forall s c, ls_chunks st' !! s = Some c -> ls_chunks st !! s = Some c /\ s <> q) /\
    forall s, first_prev (set_cache m st) t p s -> s = q).
  { revert E. unfold free_prev_chunk. intros (e & s1 & [He ->]%load_ent_inv & E)%bind_Ok.
    assert (Hq : forall s, first_prev (set_cache m st) t p s -> le_first_in_chunk e = true /\ s <> 0 /\
      exists c, ls_chunks st !! (p - SIZEOF_PTR) = Some c /\ ck_prev c = s).
    { intros s (e' & c & _ & He' & Hf & Hc & Hs & Hs0). simpl in He'. rewrite He in He'. injection He' as <-. eauto. }
    destruct (le_first_in_chunk e).
    2: { injection E as <-. exists 0. split; [|intros s Hs; by destruct (Hq s Hs)]. intros s c Hs. split; [done|].
         pose proof (lh_chunk_ok _ Hi s c Hs). lia. }
    destruct (ls_chunks st !! (p - SIZEOF_PTR)) as [c|] eqn:Ec; [|done]. exists (ck_prev c).
    split; [|intros s Hs; destruct (Hq s Hs) as (_ & _ & c' & [= ->] & ->); done].
    unfold kfree_chunk in E. destruct (Z.eqb_spec (ck_prev c) 0) as [E0|].
    - injection E as <-. intros s c' Hs. split; [done|]. pose proof (lh_chunk_ok _ Hi s c' Hs). lia.
    - destruct (ls_chunks st !! ck_prev c); [|done]. injection E as <-. intros s c' Hs. cbn [ls_chunks] in Hs.
      by apply lookup_delete_Some in Hs as [? ?]. }
  destruct Hown as (q & Hsub & Hq). intros s c Hs. destruct (Hsub s c Hs) as [Hs0 Hne].
  cbn [set_cache ls_log]. rewrite L. destruct (Ho s c Hs0) as [?|(t' & p' & Hp)]; [by left|right]. exists t', p'.
  destruct Hp as (e & c' & Ht' & He & Hf & Hck & Hpr). simpl in Ht', He, Hck.
  assert (Hnt : t' <> t). { intros ->. rewrite Ht in Ht'. injection Ht' as <-. apply Hne, Hq. exists e, c'. done. }
  assert (He' : ls_ents st' !! p' = Some e).
  { rewrite F; [done|]. left. by exists t'. }
  exists e, c'. cbn [set_cache ls_cache ls_ents ls_chunks]. rewrite lookup_delete_ne by done. split_and!; try done; try apply Hpr.
  destruct (lh_first _ Hi1 p' e He' Hf) as [c2 Hc2]. cbn in Hc2. by destruct (Hsub _ _ Hc2) as [? _]; simplify_eq.
Qed.

Lemma free_batch_owned batch : forall st m st', log_heap_inv (set_cache m st) -> oldest_first m batch ->
  mapM_ (fun kv => free_prev_chunk kv.2) batch st = (Ok tt, st') ->
  chunks_owned (set_cache m st) -> chunks_owned (set_cache (delete_keys m batch) st').
Proof.
  induction batch as [|[t p] batch IH]; intros st m st' Hi Hold E Ho; cbn [mapM_] in E; [by injection E as <-|].
  inversion Hold as [|? ? ? ? Hp Hmin Hold']; subst. apply bind_Ok in E as ([] & st1 & E1 & E).
  destruct (free_prev_oldest st m t p Hi Hp Hmin) as (st2 & E2 & Hi1 & _). change (free_prev_chunk p st = (Ok tt, st1)) in E1. rewrite E1 in E2. injection E2 as <-.
  exact (IH st1 (delete t m) st' Hi1 Hold' E (free_prev_owned st m t p st1 Hi Hp Hmin E1 Ho)).
Qed.

Lemma delete_pass_owned stop st n st' : log_heap_inv st -> delete_log_pass stop st = (Ok n, st') -> chunks_owned st ->
  log_heap_inv st' /\ chunks_owned st'.
Proof.
  intros Hi E Ho. set (batch := delete_candidates stop (ls_cache st)) in *.
  pose proof (candidates_oldest_first stop (ls_cache st) : oldest_first _ batch) as Hold. rewrite <- (set_cache_id st) in Hi, Ho.
  destruct (free_batch_ok batch st (ls_cache st) Hi Hold) as (st1 & E1 & Hi1 & [L C D _] & _).
  assert (Es : st' = set_cache (delete_keys (ls_cache st) batch) st1).
  { revert E. unfold delete_log_pass. fold batch. rewrite (bind_step _ _ _ _ _ E1). unfold bind, modify, ret. rewrite C. by intros [= _ <-]. }
  rewrite Es. split; [done|]. by apply (free_batch_owned batch st).
Qed.

Lemma delete_loop_owned stop fuel : forall st did did' st', log_heap_inv st ->
  delete_log_loop fuel stop did st = (Ok did', st') -> chunks_owned st -> log_heap_inv st' /\ chunks_owned st'.
Proof.
  induction fuel as [|fuel IH]; intros st did did' st' Hi E Ho; [done|]. cbn [delete_log_loop] in E.
  apply bind_Ok in E as (n & st1 & E1 & E). destruct (delete_pass_owned _ _ _ _ Hi E1 Ho) as [Hi1 Ho1].
  destruct n; [by injection E as <- <-|]. by apply (IH st1 true did').
Qed.

Lemma delete_owned stop st did st' : log_heap_inv st -> stop <> SIVFS_INVALID_TS ->
  sivfs_delete_log stop st = (Ok did, st') -> chunks_owned st -> chunks_owned st'.
Proof.
  intros Hi Hs E Ho. unfold sivfs_delete_log in E. apply bind_Ok in E as (d & st1 & E1 & E).
  rewrite (proj2 (Z.eqb_neq _ _) Hs) in E. injection E as <- <-.
  destruct (delete_loop_owned _ _ _ _ _ _ Hi E1 Ho) as [_ Ho1]. exact Ho1.
Qed.

(** Deleting everything frees every chunk, and with it every entry. *)
Lemma delete_whole_log st : log_inv st -> (forall t p, ls_cache st !! t = Some p -> t < SIVFS_INVALID_TS) -> chunks_owned st ->
  exists did st', sivfs_delete_log SIVFS_INVALID_TS st = (Ok did, st') /\
    ls_cache st' = ∅ /\ ls_chunks st' = ∅ /\ ls_ents st' = ∅.
Proof.
  intros [Hi _] Hlt Ho. unfold sivfs_delete_log.
  destruct (delete_log_loop_ok SIVFS_INVALID_TS (S (size (ls_cache st))) st false Hi ltac:(lia)) as (did & st1 & E & Hi1 & Hc & Hl & _).
  destruct (delete_loop_owned _ _ _ _ _ _ Hi E Ho) as [_ Ho1].
  assert (He : ls_cache st1 = ∅).
  { rewrite Hc. apply map_empty. intros t. unfold cache_from. apply map_lookup_filter_None. right. intros p Hp. apply Hlt in Hp. simpl. lia. }
  assert (Honly : forall s c, ls_chunks st1 !! s = Some c -> s = log_chunk_start_ptr (ls_log st1)).
  { intros s c Hs. destruct (Ho1 s c Hs) as [?|(t & p & e & c' & Ht & _)]; [done|]. by rewrite He, lookup_empty in Ht. }
  rewrite (bind_step _ _ _ _ _ E), Z.eqb_refl, bind_assoc. set (start := log_chunk_start_ptr (ls_log st1)) in *.
  rewrite (bind_step (gets (fun st => log_chunk_start_ptr (ls_log st))) _ st1 start st1 eq_refl), bind_assoc.
  set (st2 := set_log (mk_log (log_latest (ls_log st1)) 0 (log_chunk_ptr (ls_log st1)) start) st1).
  rewrite (bind_step (modify (fun st => set_log (mk_log (log_latest (ls_log st)) 0 (log_chunk_ptr (ls_log st)) (log_chunk_start_ptr (ls_log st))) st)) _ st1 tt st2 eq_refl).
  assert (Hents : forall c p e, ls_chunks st1 !! start = Some c -> ls_ents st1 !! p = Some e -> in_chunk start c p).
  { intros c p e Hc1 Hp. destruct (lh_ent_chunk _ Hi1 _ _ Hp) as (? & s & c' & Hs & ? & ?). pose proof (Honly _ _ Hs) as ->.
    rewrite Hc1 in Hs. injection Hs as <-. unfold in_chunk, ent_end, SIZEOF_PTR, SIZEOF_LOG_ENTRY in *. lia. }
  assert (Hk : exists st3, kfree_chunk start st2 = (Ok tt, st3) /\ ls_cache st3 = ∅ /\ ls_chunks st3 = ∅ /\ ls_ents st3 = ∅).
  { unfold kfree_chunk. destruct (Z.eqb_spec start 0) as [E0|Hne].
    - exists st2. split; [done|]. split; [done|]. assert (Hnone : ls_chunks st1 = ∅).
      { apply map_empty. intros s. destruct (ls_chunks st1 !! s) as [c|] eqn:Es; [|done]. pose proof (lh_chunk_ok _ Hi1 _ _ Es).
        apply Honly in Es. lia. }
      split; [done|]. apply map_empty. intros p. destruct (ls_ents st2 !! p) as [e|] eqn:Ep; [|done].
      destruct (lh_ent_chunk _ Hi1 p e Ep) as (_ & s & c & Hs & _). by rewrite Hnone, lookup_empty in Hs.
    - destruct (lh_current _ Hi1) as [[? _]|(c & Hck & _)]; [done|]. fold start in Hck. cbn [ls_chunks st2 set_log]. rewrite Hck.
      eexists. split; [reflexivity|]. cbn. split; [done|]. split; apply map_empty; intros s.
      + destruct (decide (s = start)) as [->|]; [apply lookup_delete_eq|]. rewrite lookup_delete_ne by done.
        destruct (ls_chunks st1 !! s) as [c'|] eqn:Es; [|done]. by apply Honly in Es.
      + apply map_lookup_filter_None. right. intros e Hp Hn. apply Hn. by apply (Hents c s e). }
  destruct Hk as (st3 & E3 & Hk). rewrite (bind_step _ _ _ _ _ E3). eexists did, _. split; [reflexivity|]. exact Hk.
Qed.

(** ** Reachable states *)

Lemma put_ent_owned a e e' st : ls_ents st !! a = Some e -> le_first_in_chunk e' = le_first_in_chunk e ->
  chunks_owned st -> chunks_owned (put_ent a e' st).
Proof. intros He Hf. apply owned_same. apply (store_same st a e e' _ (Ok tt)); [done|done|]. by apply (store_ent_ok _ _ e). Qed.

Lemma step_owned lo s s' : sys_inv lo s -> step s s' -> chunks_owned (s_log s) -> chunks_owned (s_log s').
Proof.
  intros Hi Hs Ho. destruct Hs; cbn [s_log set_thread drop_thread with_log]; try done.
  - by apply (append_owned km lw es (s_log s) lo (s_started s) a l (si_view _ _ Hi)).
  - destruct (validate_runs lo s Hi i th T a clog H H0) as (x & c & xc & me & r0 & _ & _ & _ & _ & Hme & _ & _ & Hit & _).
    rewrite H1 in Hit. injection Hit as _ ->. by apply (put_ent_owned a me).
  - apply load_ent_inv in H1 as [He _]. rewrite (store_ent_ok _ _ _ _ He) in H2. injection H2 as <-. by apply (put_ent_owned a e).
  - pose proof (proj2 (si_guard _ _ Hi) g H). pose proof (si_cp _ _ Hi). pose proof (si_master _ _ Hi). pose proof (lv_n _ _ _ (si_view _ _ Hi)).
    apply (delete_owned g (s_log s) did); [apply (si_view _ _ Hi)|rewrite invalid_ts_val, two64_val; lia|done|done].
Qed.

(** What unmounting relies on holds of the log in every reachable state. *)
Lemma reach_log s : reach s -> log_inv (s_log s) /\ chunks_owned (s_log s) /\
  forall t p, ls_cache (s_log s) !! t = Some p -> t < SIVFS_INVALID_TS.
Proof.
  intros Hr. assert (H : exists lo, sys_inv lo s /\ chunks_owned (s_log s)).
  { revert s Hr. apply (invariant_reachable _ _ (fun s => exists lo, sys_inv lo s /\ chunks_owned (s_log s))).
    - intros ? ->. exists 1. split; [apply init_inv|]. intros q c H. simpl in H. by rewrite lookup_empty in H.
    - intros s1 s2 (lo & Hi & Ho) Hs. destruct (step_inv _ _ _ Hi Hs) as [lo' Hi']. exists lo'. split; [done|]. by apply (step_owned lo s1). }
  destruct H as (lo & Hi & Ho). pose proof (si_view _ _ Hi) as Hv. split_and!; [apply Hv|done|].
  intros t p Hp. pose proof (proj1 (lv_dom _ _ _ Hv t) ltac:(eauto)). pose proof (lv_n _ _ _ Hv). rewrite invalid_ts_val, two64_val. lia.
Qed.
