(* ===== verification/PageTree.v ===== *)
(** Checkpoint pages: the page store, the iterator over the levels of a
    checkpoint, allocation and release of pages, the shared zero pages,
    traversal and reading (kern/sivfs_checkpoints.h, kern/sivfs_checkpoints.c).

    A page is named by its physical address; [p_pages] maps the address of every
    allocated checkpoint page to its 512 words and to its metadata (the fields
    of [struct sivfs_checkpoint_pginfo] and of [struct page] that the code
    uses). The results of [alloc_page] are a list of pages, consumed in order;
    a new page holds arbitrary words. The architecture's page-table flags and
    the address of ZERO_PAGE(0) are parameters. *)
From S2P Require Import Prelude Types Stack.

Definition SIVFS_CHECKPOINT_INO_LEVELS : nat := 3.
Definition SIVFS_CHECKPOINT_FOFFSET_LEVELS : nat := 4.
Definition SIVFS_CHECKPOINT_TOTAL_LEVELS : nat := 7.
Definition SIVFS_CHECKPOINT_MIN_INO_LEVEL : nat := SIVFS_CHECKPOINT_FOFFSET_LEVELS.
Definition SIVFS_CHECKPOINT_NODE_SHIFT : Z := 9.
Definition SIVFS_CHECKPOINT_CHILDREN_PER_NODE : Z := PAGE_SIZE / SIZEOF_WORD.
Definition SIVFS_CHECKPOINT_NODE_MASK : Z := SIVFS_CHECKPOINT_CHILDREN_PER_NODE - 1.
Definition SIVFS_MAX_CHECKPOINT_PAGES : Z := (4000 * 2 ^ 20) / PAGE_SIZE.

(** ** The iterator *)

(** The offset emitted at [level] for [v] when the lowest level of its group is
    [base]; the top level of a group of [n] levels bounds [v]. *)
Definition iter_offset (v : Z) (base n level : nat) : res Z :=
  let sublevel := (level - base)%nat in
  let shift := Z.of_nat sublevel * SIVFS_CHECKPOINT_NODE_SHIFT in
  if (sublevel =? n - 1)%nat && (SIVFS_CHECKPOINT_CHILDREN_PER_NODE <=? Z.shiftr v shift)
  then Err EINVAL
  else Ok (Z.land (Z.shiftr v shift) SIVFS_CHECKPOINT_NODE_MASK).

(** [for (level = base + n - 1; level >= base; level--)], [k] levels left. *)
Fixpoint iter_offsets (v : Z) (base n k : nat) : res (list Z) :=
  match k with
  | O => Ok []
  | S k =>
    let? o := iter_offset v base n (base + k) in
    let? os := iter_offsets v base n k in
    Ok (o :: os)
  end.

(** The offsets array; the cursor [cur_i] is the head of the list. *)
Definition sivfs_checkpoint_iter_init (file_ino file_offset : Z) : res (list Z) :=
  let file_offset_pg := file_offset / PAGE_SIZE in
  let? a := iter_offsets file_ino SIVFS_CHECKPOINT_MIN_INO_LEVEL SIVFS_CHECKPOINT_INO_LEVELS
              SIVFS_CHECKPOINT_INO_LEVELS in
  let? b := iter_offsets file_offset_pg 1 (SIVFS_CHECKPOINT_FOFFSET_LEVELS - 1)
              (SIVFS_CHECKPOINT_FOFFSET_LEVELS - 1) in
  Ok (a ++ b).

Definition sivfs_checkpoint_iter_next_offset (iter : list Z) : res Z := deref (head iter).
Definition sivfs_checkpoint_iter_advance (iter : list Z) : list Z := tail iter.

(** ** The page store *)

Record cpage : Type := mk_cpage {
  cp_words : list Z;
  cp_checkpoint_ts : Z;
  cp_obsoleted_ts : Z;
  cp_level : Z;
  cp_is_zero : bool;
  cp_index : Z;
  cp_refct : Z;
  cp_mapct : Z;
  cp_locked : bool
}.

(** A page offered by the allocator: its address, its stale words, whether it is
    in high memory and whether the allocation of its pginfo succeeds. *)
Record supply_page : Type := mk_supply {
  sp_pa : Z;
  sp_words : list Z;
  sp_highmem : bool;
  sp_pginfo : bool
}.

Record pstore : Type := mk_ps {
  p_pages : gmap Z cpage;
  p_count : Z;
  p_supply : list (option supply_page);
  p_zero_pxd : list Z;
  p_zero_refs : Z;
  p_new : Z;
  p_obsoleted : sivfs_stack
}.

Definition set_pages (m : gmap Z cpage) (s : pstore) : pstore :=
  mk_ps m (p_count s) (p_supply s) (p_zero_pxd s) (p_zero_refs s) (p_new s) (p_obsoleted s).
Definition set_count (n : Z) (s : pstore) : pstore :=
  mk_ps (p_pages s) n (p_supply s) (p_zero_pxd s) (p_zero_refs s) (p_new s) (p_obsoleted s).
Definition set_supply (l : list (option supply_page)) (s : pstore) : pstore :=
  mk_ps (p_pages s) (p_count s) l (p_zero_pxd s) (p_zero_refs s) (p_new s) (p_obsoleted s).
Definition set_zero_pxd (l : list Z) (s : pstore) : pstore :=
  mk_ps (p_pages s) (p_count s) (p_supply s) l (p_zero_refs s) (p_new s) (p_obsoleted s).
Definition set_zero_refs (n : Z) (s : pstore) : pstore :=
  mk_ps (p_pages s) (p_count s) (p_supply s) (p_zero_pxd s) n (p_new s) (p_obsoleted s).
Definition add_new (s : pstore) : pstore :=
  mk_ps (p_pages s) (p_count s) (p_supply s) (p_zero_pxd s) (p_zero_refs s) (p_new s + 1) (p_obsoleted s).
Definition set_obsoleted (o : sivfs_stack) (s : pstore) : pstore :=
  mk_ps (p_pages s) (p_count s) (p_supply s) (p_zero_pxd s) (p_zero_refs s) (p_new s) o.

Definition with_words (w : list Z) (p : cpage) : cpage :=
  mk_cpage w (cp_checkpoint_ts p) (cp_obsoleted_ts p) (cp_level p) (cp_is_zero p) (cp_index p)
    (cp_refct p) (cp_mapct p) (cp_locked p).
Definition with_obsoleted (t : Z) (p : cpage) : cpage :=
  mk_cpage (cp_words p) (cp_checkpoint_ts p) t (cp_level p) (cp_is_zero p) (cp_index p)
    (cp_refct p) (cp_mapct p) (cp_locked p).
Definition with_zero (b : bool) (p : cpage) : cpage :=
  mk_cpage (cp_words p) (cp_checkpoint_ts p) (cp_obsoleted_ts p) (cp_level p) b (cp_index p)
    (cp_refct p) (cp_mapct p) (cp_locked p).
Definition with_index (i : Z) (p : cpage) : cpage :=
  mk_cpage (cp_words p) (cp_checkpoint_ts p) (cp_obsoleted_ts p) (cp_level p) (cp_is_zero p) i
    (cp_refct p) (cp_mapct p) (cp_locked p).
Definition with_refct (n : Z) (b : bool) (p : cpage) : cpage :=
  mk_cpage (cp_words p) (cp_checkpoint_ts p) (cp_obsoleted_ts p) (cp_level p) (cp_is_zero p) (cp_index p)
    n (cp_mapct p) b.

Definition load_page (pa : Z) : M pstore cpage := fun s => (deref (p_pages s !! pa), s).
Definition store_page (pa : Z) (p : cpage) : M pstore unit := fun s =>
  match p_pages s !! pa with
  | Some _ => (Ok tt, set_pages (<[pa := p]> (p_pages s)) s)
  | None => (Fault, s)
  end.

(** [table[offset]] and [table[offset] = e]. *)
Definition rd_word (p : cpage) (offset : Z) : res Z :=
  if offset <? 0 then Fault else deref (cp_words p !! Z.to_nat offset).
Definition wr_word (p : cpage) (offset e : Z) : res cpage :=
  if (0 <=? offset) && (offset <? Z.of_nat (length (cp_words p)))
  then Ok (with_words (<[Z.to_nat offset := e]> (cp_words p)) p)
  else Fault.

(** ** Allocation and release *)

(** [page_out] is the value that [*page_out] holds before the call: it is
    returned unchanged on the path that jumps to [error2] without an error code
    (a page in high memory). *)
Definition sivfs_new_checkpoint_page (page_out checkpoint_ts level : Z) : M pstore Z := fun s =>
  let n := p_count s + 1 in
  if SIVFS_MAX_CHECKPOINT_PAGES <? n then (Err ENOMEM, s)
  else
    match p_supply s with
    | Some sp :: rest =>
      if sp_pginfo sp then
        if sp_highmem sp then (Ok page_out, set_supply rest s)
        else
          (Ok (sp_pa sp),
           set_pages (<[sp_pa sp := mk_cpage (sp_words sp) checkpoint_ts SIVFS_INVALID_TS level false 0 1 0 false]>
                        (p_pages s))
             (set_count n (set_supply rest s)))
      else (Err ENOMEM, set_supply rest s)
    | None :: rest => (Err ENOMEM, set_supply rest s)
    | [] => (Err ENOMEM, s)
    end.

(** A page that is still referenced, mapped or locked is left allocated. *)
Definition sivfs_put_checkpoint_page (page : Z) : M pstore unit := fun s =>
  match p_pages s !! page with
  | None => (Fault, s)
  | Some p =>
    if negb (cp_refct p =? 1) || negb (cp_mapct p =? 0) then (Ok tt, s)
    else if cp_locked p then (Ok tt, s)
    else (Ok tt, set_pages (delete page (p_pages s)) (set_count (p_count s - 1) s))
  end.

Section pagetree.
Context (F : pt_flags) (ZERO_PAGE : Z).

Definition sivfs_is_zero_page (page : Z) (p : cpage) : bool :=
  (page =? ZERO_PAGE) || cp_is_zero p.

(** The entry that makes [pa] visible from a table of level [level_parent]. *)
Definition entry_for (level_parent : nat) (pa : Z) : Z :=
  if (level_parent =? 1)%nat then sivfs_mk_pte F pa
  else if (level_parent <? SIVFS_CHECKPOINT_FOFFSET_LEVELS)%nat then sivfs_mk_pxd_ent F pa
  else pa.

(** The words written by sivfs_mk_zero_checkpoint_page. *)
Definition sivfs_mk_zero_checkpoint_page (level : nat) (s : pstore) : res (list Z) :=
  if (level =? 0)%nat then Ok (replicate WORDS_PER_PAGE 0)
  else
    let? ent_to_fill :=
      (if (level =? 1)%nat then Ok (sivfs_mk_pte F ZERO_PAGE)
       else if (level <=? SIVFS_CHECKPOINT_FOFFSET_LEVELS)%nat then
         let? z := deref (p_zero_pxd s !! (level - 1)%nat) in
         Ok (sivfs_mk_pxd_ent F z)
       else Ok 0) in
    Ok (replicate WORDS_PER_PAGE ent_to_fill).

(** [for (level = 1; level < FOFFSET_LEVELS; level++)], [k] levels left. *)
Fixpoint destroy_zero_loop (level : nat) (k : nat) : M pstore unit :=
  match k with
  | O => ret tt
  | S k =>
    let! z := gets (fun s => default 0 (p_zero_pxd s !! level)) in
    do! (if z =? 0 then ret tt else sivfs_put_checkpoint_page z) in
    destroy_zero_loop (S level) k
  end.
Definition _sivfs_destroy_zero_checkpoint_pages : M pstore unit := destroy_zero_loop 1 3.

Fixpoint init_zero_loop (level : nat) (k : nat) : M pstore unit :=
  match k with
  | O => ret tt
  | S k =>
    let! new_page := sivfs_new_checkpoint_page 0 0 (Z.of_nat level) in
    let! p := load_page new_page in
    do! store_page new_page (with_zero true p) in
    do! modify (fun s => set_zero_pxd (<[level := new_page]> (p_zero_pxd s)) s) in
    let! w := (fun s => (sivfs_mk_zero_checkpoint_page level s, s)) in
    do! store_page new_page (with_words w (with_zero true p)) in
    init_zero_loop (S level) k
  end.

Definition _sivfs_init_zero_checkpoint_pages : M pstore unit :=
  do! modify (fun s => set_zero_pxd (<[0%nat := ZERO_PAGE]> (p_zero_pxd s)) s) in
  fun s =>
  match init_zero_loop 1 3 s with
  | (Err e, s') =>
    match _sivfs_destroy_zero_checkpoint_pages s' with
    | (Ok _, s'') => (Err e, s'')
    | r => r
    end
  | r => r
  end.

Definition sivfs_get_zero_checkpoint_pages : M pstore unit :=
  let! n := gets p_zero_refs in
  do! (if n =? 0 then _sivfs_init_zero_checkpoint_pages else ret tt) in
  modify (fun s => set_zero_refs (p_zero_refs s + 1) s).

Definition sivfs_put_zero_checkpoint_pages : M pstore unit :=
  let! n := gets p_zero_refs in
  if n <=? 0 then ret tt
  else
    do! modify (set_zero_refs (n - 1)) in
    if n - 1 =? 0 then _sivfs_destroy_zero_checkpoint_pages else ret tt.

(** ** Traversal *)

(** The loop of sivfs_checkpoint_traverse_partial; [None] is NULL. *)
Fixpoint traverse_loop (level : nat) (level_stop : nat) (iter : list Z) (pa : Z)
    (pages : gmap Z cpage) : res (option Z) :=
  if (level =? level_stop)%nat then Ok (if pa =? 0 then None else Some pa)
  else if pa =? 0 then Ok None
  else
    let? p := deref (pages !! pa) in
    let? offset := sivfs_checkpoint_iter_next_offset iter in
    let? e := rd_word p offset in
    match level with
    | O => Fault
    | S l => traverse_loop l level_stop (sivfs_checkpoint_iter_advance iter) (sivfs_pxd_to_pa F e) pages
    end.

(** [checkpoint_root] is the address of the root page, 0 for NULL. *)
Definition sivfs_checkpoint_traverse_partial (checkpoint_root file_ino file_offset : Z)
    (level_stop : nat) (pages : gmap Z cpage) : res (option Z) :=
  let? iter := sivfs_checkpoint_iter_init file_ino file_offset in
  traverse_loop (SIVFS_CHECKPOINT_TOTAL_LEVELS - 1) level_stop iter checkpoint_root pages.

Definition sivfs_checkpoint_traverse (checkpoint_root file_ino file_offset : Z)
    (pages : gmap Z cpage) : res (option Z) :=
  sivfs_checkpoint_traverse_partial checkpoint_root file_ino file_offset 0 pages.

(** The contents copied to [mem]; [cp_root] is the root of the checkpoint. *)
Definition sivfs_read_checkpoint (mem_size cp_root file_ino file_offset : Z)
    (pages : gmap Z cpage) : res (list Z) :=
  if negb (file_offset mod PAGE_SIZE =? 0) || negb (mem_size =? PAGE_SIZE) then Err EINVAL
  else
    let? cp_page := sivfs_checkpoint_traverse cp_root file_ino file_offset pages in
    match cp_page with
    | Some pa => let? p := deref (pages !! pa) in Ok (cp_words p)
    | None => Ok (replicate WORDS_PER_PAGE 0)
    end.

(** A new reference on the leaf page, locked or not; [None] is NULL. *)
Definition get_cp_page_with (lock : bool) (cp_root file_ino file_offset : Z) : M pstore (option Z) :=
  fun s =>
  match sivfs_checkpoint_traverse cp_root file_ino file_offset (p_pages s) with
  | Ok None => (Ok None, s)
  | Ok (Some pa) =>
    (let! p := load_page pa in
     do! store_page pa (with_refct (cp_refct p + 1) (lock || cp_locked p) p) in
     ret (Some pa)) s
  | Err _ => (Err EFAULT, s)
  | Fault => (Fault, s)
  | OutOfFuel => (OutOfFuel, s)
  end.
Definition sivfs_lock_cp_page := get_cp_page_with true.
Definition sivfs_get_cp_page := get_cp_page_with false.

Definition sivfs_lookup_cp_page_at_level (cp_root file_ino file_offset : Z) (level_stop : nat)
    (pages : gmap Z cpage) : res (option Z) :=
  if (SIVFS_CHECKPOINT_FOFFSET_LEVELS <? level_stop)%nat then Err EINVAL
  else sivfs_checkpoint_traverse_partial cp_root file_ino file_offset level_stop pages.

(** ** Freeing a whole checkpoint *)

Fixpoint free_children (free : Z -> M pstore Z) (table : list Z) : M pstore Z :=
  match table with
  | [] => ret 0
  | e :: table =>
    let! n := (if sivfs_pxd_present F e then
                 let child := sivfs_pxd_to_pa F e in
                 let! p := load_page child in
                 if sivfs_is_zero_page child p then ret 0 else free child
               else ret 0) in
    let! m := free_children free table in
    ret (n + m)
  end.

(** Number of pages freed. *)
Fixpoint __sivfs_checkpoint_root_free (node : Z) (level : nat) : M pstore Z :=
  if node =? 0 then ret 0
  else
    let! p := load_page node in
    if sivfs_is_zero_page node p then ret 0
    else
      let! n := (match level with
                 | O => ret 0
                 | S l => free_children (fun child =>
                            match l with
                            | O => do! sivfs_put_checkpoint_page child in ret 1
                            | S _ => __sivfs_checkpoint_root_free child l
                            end) (cp_words p)
                 end) in
      do! sivfs_put_checkpoint_page node in
      ret (n + 1).

Definition _sivfs_checkpoint_root_free (root : Z) : M pstore Z :=
  __sivfs_checkpoint_root_free root (SIVFS_CHECKPOINT_TOTAL_LEVELS - 1).
End pagetree.

(** ** The iterator addresses every page of every file once *)

Lemma shift_mask v k : 0 <= k -> Z.land (Z.shiftr v k) SIVFS_CHECKPOINT_NODE_MASK = (v / 2 ^ k) mod 512.
Proof.
  intros Hk. change SIVFS_CHECKPOINT_NODE_MASK with (Z.ones 9).
  by rewrite Z.land_ones, Z.shiftr_div_pow2.
Qed.

Lemma iter_offsets_3 v base : 0 <= v ->
  iter_offsets v base 3 3 =
    if v <? 2 ^ 27 then Ok [(v / 2 ^ 18) mod 512; (v / 2 ^ 9) mod 512; (v / 2 ^ 0) mod 512] else Err EINVAL.
Proof.
  intros Hv. unfold iter_offsets, iter_offset.
  replace (base + 2 - base)%nat with 2%nat by lia.
  replace (base + 1 - base)%nat with 1%nat by lia. replace (base + 0 - base)%nat with 0%nat by lia.
  cbn [Nat.eqb Nat.sub andb]. rewrite !shift_mask by done.
  change (Z.of_nat 2 * SIVFS_CHECKPOINT_NODE_SHIFT) with 18.
  change (Z.of_nat 1 * SIVFS_CHECKPOINT_NODE_SHIFT) with 9.
  change (Z.of_nat 0 * SIVFS_CHECKPOINT_NODE_SHIFT) with 0.
  change SIVFS_CHECKPOINT_CHILDREN_PER_NODE with 512.
  rewrite Z.shiftr_div_pow2 by done.
  destruct (Z.ltb_spec v (2 ^ 27)) as [Hlt|Hge].
  - rewrite (proj2 (Z.leb_gt _ _)); [done|]. apply Z.div_lt_upper_bound; lia.
  - rewrite (proj2 (Z.leb_le _ _)); [done|]. apply Z.div_le_lower_bound; lia.
Qed.

(** The six offsets of a page. *)
Definition page_path (file_ino pg : Z) : list Z :=
  [(file_ino / 2 ^ 18) mod 512; (file_ino / 2 ^ 9) mod 512; (file_ino / 2 ^ 0) mod 512;
   (pg / 2 ^ 18) mod 512; (pg / 2 ^ 9) mod 512; (pg / 2 ^ 0) mod 512].

Lemma iter_init_spec ino off : 0 <= ino -> 0 <= off ->
  sivfs_checkpoint_iter_init ino off =
    if (ino <? 2 ^ 27) && (off / PAGE_SIZE <? 2 ^ 27) then Ok (page_path ino (off / PAGE_SIZE))
    else Err EINVAL.
Proof.
  intros Hi Ho. unfold sivfs_checkpoint_iter_init.
  change SIVFS_CHECKPOINT_INO_LEVELS with 3%nat. change (SIVFS_CHECKPOINT_FOFFSET_LEVELS - 1)%nat with 3%nat.
  assert (0 <= off / PAGE_SIZE) by (apply Z.div_pos; [lia|reflexivity]).
  rewrite !iter_offsets_3 by done. destruct (ino <? 2 ^ 27); [|done]. simpl.
  by destruct (off / PAGE_SIZE <? 2 ^ 27).
Qed.

Lemma digits_inj v w : 0 <= v < 2 ^ 27 -> 0 <= w < 2 ^ 27 ->
  (v / 2 ^ 18) mod 512 = (w / 2 ^ 18) mod 512 -> (v / 2 ^ 9) mod 512 = (w / 2 ^ 9) mod 512 ->
  (v / 2 ^ 0) mod 512 = (w / 2 ^ 0) mod 512 -> v = w.
Proof.
  intros Hv Hw. change (2 ^ 18) with (512 * 512). change (2 ^ 9) with 512. change (2 ^ 0) with 1.
  rewrite <- !Z.div_div, !Z.div_1_r by lia. intros H2 H1 H0.
  assert (Hs : forall x, 0 <= x < 2 ^ 27 -> x / 512 / 512 < 512).
  { intros x Hx. apply Z.div_lt_upper_bound; [lia|]. apply Z.div_lt_upper_bound; lia. }
  rewrite (Z.mod_small (v / 512 / 512)), (Z.mod_small (w / 512 / 512)) in H2
    by (split; [apply Z.div_pos; [apply Z.div_pos|]|apply Hs]; lia).
  rewrite (Z.div_mod v 512), (Z.div_mod w 512), H0 by lia. f_equal.
  rewrite (Z.div_mod (v / 512) 512), (Z.div_mod (w / 512) 512), H1, H2 by lia. done.
Qed.

Lemma page_path_inj ino pg ino' pg' : 0 <= ino < 2 ^ 27 -> 0 <= ino' < 2 ^ 27 ->
  0 <= pg < 2 ^ 27 -> 0 <= pg' < 2 ^ 27 ->
  page_path ino pg = page_path ino' pg' -> ino = ino' /\ pg = pg'.
Proof. unfold page_path. intros ? ? ? ? [= ? ? ? ? ? ?]. split; by apply digits_inj. Qed.

Lemma page_path_bounds ino pg : Forall (fun o => 0 <= o < 512) (page_path ino pg).
Proof. repeat constructor; by apply Z.mod_pos_bound. Qed.

(** The iterator accepts exactly the inode numbers below 2^27 and the
    offsets below 2^39 and reports EINVAL for all others; the six offsets it
    yields index into tables of 512 entries, and two positions get the same
    offsets only when they are the same page of the same file. *)
Theorem iter_init_injective ino off ino' off' : 0 <= ino -> 0 <= off -> 0 <= ino' -> 0 <= off' ->
  match sivfs_checkpoint_iter_init ino off with
  | Ok path =>
      ino < 2 ^ 27 /\ off < 2 ^ 39 /\ length path = 6%nat /\ Forall (fun o => 0 <= o < 512) path /\
      (sivfs_checkpoint_iter_init ino' off' = Ok path -> ino' = ino /\ off' / PAGE_SIZE = off / PAGE_SIZE)
  | Err e => e = EINVAL /\ (2 ^ 27 <= ino \/ 2 ^ 39 <= off)
  | _ => False
  end.
Proof.
  intros Hi Ho Hi' Ho'. rewrite !iter_init_spec by done. unfold PAGE_SIZE.
  pose proof (Z.div_mod off 4096 ltac:(lia)). pose proof (Z.mod_pos_bound off 4096 ltac:(lia)).
  pose proof (Z.div_pos off 4096 Ho ltac:(lia)). pose proof (Z.div_pos off' 4096 Ho' ltac:(lia)).
  destruct (Z.ltb_spec ino (2 ^ 27)), (Z.ltb_spec (off / 4096) (2 ^ 27)); simpl; try (split; [done|lia]).
  split_and!; try lia; [apply page_path_bounds|].
  destruct (Z.ltb_spec ino' (2 ^ 27)), (Z.ltb_spec (off' / 4096) (2 ^ 27)); try done.
  intros Hp. apply (f_equal (fun r => match r with Ok l => l | _ => [] end)) in Hp. apply page_path_inj in Hp as [-> ->]; done || lia.
Qed.

Lemma iter_init_injective_witness :
  match sivfs_checkpoint_iter_init 5 8192 with
  | Ok path =>
      5 < 2 ^ 27 /\ 8192 < 2 ^ 39 /\ length path = 6%nat /\ Forall (fun o => 0 <= o < 512) path /\
      (sivfs_checkpoint_iter_init 5 8200 = Ok path -> 5 = 5 /\ 8200 / PAGE_SIZE = 8192 / PAGE_SIZE)
  | Err e => e = EINVAL /\ (2 ^ 27 <= 5 \/ 2 ^ 39 <= 8192)
  | _ => False
  end.
Proof. apply (iter_init_injective 5 8192 5 8200); lia. Defined.
