(* ===== verification/MakeCheckpoint.v ===== *)
(** Copy-on-write update of a checkpoint: sivfs_apply_change_checkpoint and the
    replay of the log by _sivfs_make_checkpoint (kern/sivfs_make_checkpoint.c). *)
From S2P Require Import Prelude Types Stack Writeset Log LogView PageTree.

Definition SIVFS_APPLY_CHANGE_CP_NOWRITE : Z := 4.

(** The page pointed to by [root_page_ptr] and the page store. *)
Definition rstate : Type := Z * pstore.
Definition on_ps {A} (m : M pstore A) : M rstate A := fun s =>
  let '(r, ps) := m s.2 in (r, (s.1, ps)).

(** Where [root_ptr] points: the local root or a cell of a table. *)
Inductive slot : Type := SRoot | STable (page offset : Z).

(** The level of the root page. *)
Notation ROOT_LEVEL := 6%nat.

Section make_checkpoint.
Context (F : pt_flags) (ZERO_PAGE : Z) `{HF : !PtFlagsOk F}.

Definition read_slot (sl : slot) : M rstate Z :=
  match sl with
  | SRoot => gets fst
  | STable page offset =>
    let! p := on_ps (load_page page) in
    lift (rd_word p offset)
  end.
Definition write_slot (sl : slot) (e : Z) : M rstate unit :=
  match sl with
  | SRoot => modify (fun s => (e, s.2))
  | STable page offset =>
    let! p := on_ps (load_page page) in
    let! p' := lift (wr_word p offset e) in
    on_ps (store_page page p')
  end.

(** sivfs_on_obsolete_page with a stack: the obsoleted stack of the checkpoint
    being made. [vz q] tells whether pushing [q] finds memory when the stack
    has to grow. *)
Definition sivfs_on_obsolete_page_stack (vz : Z -> bool) (old_page : Z) : M pstore unit := fun s =>
  let '(r, o) := sivfs_stack_push (vz old_page) old_page (p_obsoleted s) in (r, set_obsoleted o s).

(** The page to use at this level: [on_obsolete] is sivfs_on_obsolete_page. *)
Definition cow_page (on_obsolete : Z -> M pstore unit) (checkpoint_ts : Z) (level : nat) (root_ent : Z)
    : M pstore Z :=
  if root_ent =? 0 then
    let! new_page := sivfs_new_checkpoint_page 0 checkpoint_ts (Z.of_nat level) in
    do! modify add_new in
    let! p := load_page new_page in
    let! w := (fun s => (sivfs_mk_zero_checkpoint_page F ZERO_PAGE level s, s)) in
    do! store_page new_page (with_words w p) in
    ret new_page
  else
    let old_page := sivfs_pxd_to_pa F root_ent in
    let! old := load_page old_page in
    let old_is_zero_page := sivfs_is_zero_page ZERO_PAGE old_page old in
    let old_pg_checkpoint_ts := if old_is_zero_page then 0 else cp_checkpoint_ts old in
    if old_pg_checkpoint_ts =? checkpoint_ts then ret old_page
    else
      let! new_page := sivfs_new_checkpoint_page 0 checkpoint_ts (Z.of_nat level) in
      do! modify add_new in
      let! p := load_page new_page in
      do! store_page new_page (with_words (cp_words old) p) in
      if old_is_zero_page then ret new_page
      else
        do! store_page old_page (with_obsoleted checkpoint_ts old) in
        fun s =>
        match on_obsolete old_page s with
        | (Ok _, s') => (Ok new_page, s')
        | (Err e, s') =>
          match sivfs_put_checkpoint_page new_page s' with
          | (Ok _, s'') => (Err e, s'')
          | (_, s'') => (Fault, s'')
          end
        | (_, s') => (Fault, s')
        end.

(** The change to a leaf: the word, unless suppressed, and [page->index]. *)
Definition apply_leaf (file_offset value : Z) (nowrite : bool) (page : Z) : M pstore unit :=
  let! p := load_page page in
  let! w := lift (if nowrite then Ok (cp_words p)
                  else sivfs_apply_ws_ent_pg file_offset value (cp_words p)) in
  store_page page (with_index (Z.shiftr file_offset PAGE_SHIFT) (with_words w p)).

(** The loop, from [level] down to the leaf. *)
Fixpoint apply_levels (on_obsolete : Z -> M pstore unit) (checkpoint_ts file_offset value : Z)
    (nowrite : bool) (level : nat) (sl : slot) (iter : list Z) : M rstate unit :=
  let! root_ent := read_slot sl in
  let! new_page := on_ps (cow_page on_obsolete checkpoint_ts level root_ent) in
  do! (match level with
       | O => on_ps (apply_leaf file_offset value nowrite new_page)
       | S _ => ret tt
       end) in
  do! write_slot sl (entry_for F (S level) new_page) in
  match level with
  | O => ret tt
  | S l =>
    let! offset := lift (sivfs_checkpoint_iter_next_offset iter) in
    apply_levels on_obsolete checkpoint_ts file_offset value nowrite l (STable new_page offset)
      (sivfs_checkpoint_iter_advance iter)
  end.

Definition sivfs_apply_change_checkpoint (on_obsolete : Z -> M pstore unit)
    (ino file_offset value checkpoint_ts options : Z) : M rstate unit :=
  let! iter := lift (sivfs_checkpoint_iter_init ino file_offset) in
  apply_levels on_obsolete checkpoint_ts file_offset value
    (negb (Z.land options SIVFS_APPLY_CHANGE_CP_NOWRITE =? 0))
    (SIVFS_CHECKPOINT_TOTAL_LEVELS - 1) SRoot iter.

(** The writeset loop over one log entry. *)
Definition apply_log_entry (on_obsolete : Z -> M pstore unit) (next_ts : Z) (log : sivfs_log_entry)
    : M rstate wstep :=
  if le_aborted log then ret Continue
  else
    do! ws_walk (le_ws log) (fun ent _ =>
          let buf := ws_entries (le_ws log) in
          let! ino := lift (rd buf ent) in
          let! file_offset := lift (rd buf (ent + 1)) in
          let! value := lift (rd buf (ent + 4)) in
          do! sivfs_apply_change_checkpoint on_obsolete ino file_offset value next_ts 0 in
          ret Continue) in
    ret Continue.

(** [st] is the log read by the replay. *)
Definition _sivfs_make_checkpoint (on_obsolete : Z -> M pstore unit) (st : log_state)
    (latest_checkpoint next_ts : Z) : M rstate unit :=
  if next_ts =? latest_checkpoint then throw EINVAL
  else
    let first := uadd latest_checkpoint 1 in
    let! o := lift (sivfs_ts_to_log_entry first first next_ts st) in
    match o with
    | None => throw EINVAL
    | Some log =>
      let! e := lift (deref (ls_ents st !! log)) in
      if next_ts <? le_ts e then ret tt
      else log_iter (log_fuel first next_ts) (ls_ents st) true (apply_log_entry on_obsolete next_ts) next_ts log
    end.

(** ** The tree below a page *)

Notation pa_of := (sivfs_pxd_to_pa F).
Notation pages := (gmap Z cpage).

(** The words read at the end of [path] below the page [pa] of level [level]. *)
Fixpoint sub_read (h : pages) (level : nat) (pa : Z) (path : list Z) : list Z :=
  if pa =? 0 then replicate WORDS_PER_PAGE 0
  else
    match h !! pa, level, path with
    | Some p, O, _ => cp_words p
    | Some p, S l, o :: path => sub_read h l (pa_of (default 0 (cp_words p !! Z.to_nat o))) path
    | _, _, _ => replicate WORDS_PER_PAGE 0
    end.

(** The address of that page, 0 when there is none. *)
Fixpoint sub_leaf (h : pages) (level : nat) (pa : Z) (path : list Z) : Z :=
  if pa =? 0 then 0
  else
    match level, path with
    | O, _ => pa
    | S l, o :: path =>
      match h !! pa with
      | Some p => sub_leaf h l (pa_of (default 0 (cp_words p !! Z.to_nat o))) path
      | None => 0
      end
    | _, _ => 0
    end.

(** A page that belongs to the checkpoint being made. *)
Definition owned (h : pages) (ts : Z) (q : Z) : Prop :=
  exists p, h !! q = Some p /\ sivfs_is_zero_page ZERO_PAGE q p = false /\ cp_checkpoint_ts p = ts.

(** [q] is an owned page of the tree below [pa]. *)
Fixpoint in_sub (h : pages) (ts : Z) (level : nat) (pa q : Z) : Prop :=
  pa <> 0 /\ exists p, h !! pa = Some p /\
    ((q = pa /\ owned h ts q) \/
     match level with
     | O => False
     | S l => exists o w, cp_words p !! o = Some w /\ in_sub h ts l (pa_of w) q
     end).

(** A page whose address can be stored in a table and that is no younger than [ts]. *)
Definition node_ok (ts pa : Z) (p : cpage) : Prop :=
  pa_ok F pa /\ (sivfs_is_zero_page ZERO_PAGE pa p = true \/ cp_checkpoint_ts p <= ts).

(** A well-formed tree in which every owned page occurs once. *)
Fixpoint wf_sub (h : pages) (ts : Z) (level : nat) (pa : Z) : Prop :=
  pa = 0 \/ exists p, h !! pa = Some p /\ length (cp_words p) = WORDS_PER_PAGE /\ node_ok ts pa p /\
    match level with
    | O => True
    | S l =>
      (forall o w, cp_words p !! o = Some w ->
         (pa_of w = 0 -> w = 0) /\ wf_sub h ts l (pa_of w) /\ ~ in_sub h ts l (pa_of w) pa) /\
      (forall o1 o2 w1 w2 q, cp_words p !! o1 = Some w1 -> cp_words p !! o2 = Some w2 -> o1 <> o2 ->
         in_sub h ts l (pa_of w1) q -> in_sub h ts l (pa_of w2) q -> False)
    end.

(** ** Framing *)

(** [h'] extends [h] and keeps the metadata of every page, and the words of
    those outside [X]. *)
Definition frame (h h' : pages) (X : Z -> Prop) : Prop :=
  forall q p, h !! q = Some p -> exists p', h' !! q = Some p' /\
    cp_checkpoint_ts p' = cp_checkpoint_ts p /\ cp_is_zero p' = cp_is_zero p /\
    length (cp_words p') = length (cp_words p) /\ (~ X q -> cp_words p' = cp_words p).

Lemma frame_refl h : frame h h (fun _ => False).
Proof. intros q p Hq. exists p. split_and!; done. Qed.

Lemma frame_weaken h h' (X Y : Z -> Prop) : (forall q, X q -> Y q) -> frame h h' X -> frame h h' Y.
Proof. intros HXY Hf q p Hq. destruct (Hf q p Hq) as (p' & ? & ? & ? & ? & ?). exists p'. split_and!; auto. Qed.

(** Only pages of [h] matter in the exception set of the second step. *)
Lemma frame_trans h1 h2 h3 (X Y : Z -> Prop) : frame h1 h2 X -> frame h2 h3 Y ->
  (forall q, is_Some (h1 !! q) -> Y q -> X q) -> frame h1 h3 X.
Proof.
  intros H12 H23 HYX q p Hq. destruct (H12 q p Hq) as (p2 & Hp2 & ? & ? & ? & Hw).
  destruct (H23 q p2 Hp2) as (p3 & ? & ? & ? & ? & Hw3). exists p3. split_and!; try congruence.
  intros Hn. rewrite Hw3; [by apply Hw|]. intros HY. apply Hn, HYX; eauto.
Qed.

Lemma owned_frame h h' X ts q : frame h h' X -> is_Some (h !! q) -> owned h' ts q <-> owned h ts q.
Proof.
  intros Hf [p Hp]. destruct (Hf q p Hp) as (p' & Hp' & Ht & Hz & _ & _).
  unfold owned, sivfs_is_zero_page. split; intros (x & Hx & ? & ?); simplify_eq.
  - exists p. rewrite <- Ht, <- Hz. done.
  - exists p'. rewrite Ht, Hz. done.
Qed.

Lemma in_sub_owned h ts level : forall pa q, in_sub h ts level pa q -> owned h ts q.
Proof.
  induction level as [|l IH]; intros pa q (_ & p & _ & [[-> ?]|Hs]); try done.
  destruct Hs as (o & w & _ & ?). by eapply IH.
Qed.

Lemma wf_sub_nonzero h ts level pa : wf_sub h ts level pa -> pa <> 0 -> exists p,
  h !! pa = Some p /\ length (cp_words p) = WORDS_PER_PAGE /\ pa_ok F pa.
Proof. destruct level; intros [?|(p & ? & ? & [? _] & _)]; by eauto. Qed.

Lemma node_ok_same ts pa p p' : cp_checkpoint_ts p' = cp_checkpoint_ts p -> cp_is_zero p' = cp_is_zero p ->
  node_ok ts pa p -> node_ok ts pa p'.
Proof. unfold node_ok, sivfs_is_zero_page. by intros -> ->. Qed.

Lemma owned_node_ok h ts q p : owned h ts q -> h !! q = Some p -> pa_ok F q -> node_ok ts q p.
Proof. intros (x & Hx & _ & Ht) Hp Hok. simplify_eq. split; [done|right; lia]. Qed.

(** A tree none of whose owned pages is changed is the same tree. *)
Lemma sub_frame h h' ts X level : frame h h' X -> (forall q, X q -> owned h ts q) -> forall pa,
  (forall q, in_sub h ts level pa q -> ~ X q) -> wf_sub h ts level pa ->
  wf_sub h' ts level pa /\ (forall q, in_sub h' ts level pa q <-> in_sub h ts level pa q) /\
  (forall path, sub_read h' level pa path = sub_read h level pa path).
Proof.
  intros Hf HX. induction level as [|l IH]; intros pa Hd Hwf.
  - destruct Hwf as [->|(p & Hp & Hl & Hok & _)].
    { split_and!; [by left|by split; intros [? _]|done]. }
    destruct (Hf pa p Hp) as (p' & Hp' & Ht & Hz & Hl' & Hw).
    assert (pa <> 0 -> ~ X pa) as HnX.
    { intros Hnz Hx. apply (Hd pa); [|done]. split; [done|]. exists p. split; [done|left]. split; [done|by apply HX]. }
    split_and!.
    + right. exists p'. split_and!; try done; [congruence|]. by apply (node_ok_same ts pa p).
    + intros q. simpl. rewrite Hp, Hp'. split; intros (Hnz & x & [= <-] & [[-> Ho]|[]]); split; try done;
        eexists; (split; [done|left; split; [done|]]); by apply (owned_frame h h' X).
    + intros path. simpl. rewrite Hp, Hp'. destruct (Z.eqb_spec pa 0); [done|]. apply Hw; auto.
  - destruct (decide (pa = 0)) as [->|Hnz].
    { split_and!; [by left|by split; intros [? _]|done]. }
    destruct Hwf as [->|(p & Hp & Hl & Hok & Hch & Hdis)]; [done|].
    destruct (Hf pa p Hp) as (p' & Hp' & Ht & Hz & Hl' & Hw).
    assert (~ X pa) as HnX.
    { intros Hx. apply (Hd pa); [|done]. split; [done|]. exists p. split; [done|left]. split; [done|by apply HX]. }
    specialize (Hw HnX).
    assert (Hchild : forall o w, cp_words p !! o = Some w ->
      wf_sub h' ts l (pa_of w) /\ (forall q, in_sub h' ts l (pa_of w) q <-> in_sub h ts l (pa_of w) q) /\
      (forall path, sub_read h' l (pa_of w) path = sub_read h l (pa_of w) path)).
    { intros o w Ho. apply IH; [|by apply (Hch o)]. intros q Hq. apply Hd. split; [done|].
      exists p. split; [done|right]. eauto. }
    split_and!.
    + right. exists p'. rewrite Hw. split_and!; try done; [by apply (node_ok_same ts pa p)| |].
      * intros o w Ho. destruct (Hchild o w Ho) as (? & Hin & _), (Hch o w Ho) as (? & _ & ?).
        rewrite Hin. done.
      * intros o1 o2 w1 w2 q H1 H2 Hne. destruct (Hchild o1 w1 H1) as (_ & -> & _), (Hchild o2 w2 H2) as (_ & -> & _).
        by eapply Hdis.
    + intros q. cbn [in_sub]. rewrite Hp, Hp'. split; intros (_ & x & [= <-] & [[-> Ho]|(o & w & Ho & Hq)]);
        (split; [done|]); eexists; (split; [done|]).
      * left. split; [done|]. by apply (owned_frame h h' X).
      * right. rewrite Hw in Ho. exists o, w. split; [done|]. by apply (Hchild o w Ho).
      * left. split; [done|]. by apply (owned_frame h h' X).
      * right. rewrite Hw. exists o, w. split; [done|]. by apply (Hchild o w Ho).
    + intros path. cbn [sub_read]. rewrite Hp, Hp'. destruct (Z.eqb_spec pa 0); [done|].
      destruct path as [|o path]; [done|]. rewrite Hw.
      destruct (cp_words p !! Z.to_nat o) as [w|] eqn:Ho; simpl;
        [by destruct (Hchild _ w Ho) as (_ & _ & ->)|].
      assert (pa_of 0 = 0) as -> by (apply Z.land_0_l). by destruct l.
Qed.

(** ** The state of the store *)

Definition supply_fresh (h : pages) (l : list (option supply_page)) : Prop :=
  (forall i sp, l !! i = Some (Some sp) -> h !! sp_pa sp = None /\ sp_pa sp <> 0 /\ pa_ok F (sp_pa sp) /\
     sp_highmem sp = false /\ length (sp_words sp) = WORDS_PER_PAGE) /\
  (forall i j sp sp', l !! i = Some (Some sp) -> l !! j = Some (Some sp') -> sp_pa sp = sp_pa sp' -> i = j).

(** A tree that reads as zeros and holds no owned page. *)
Definition zeroes (h : pages) (ts : Z) (level : nat) (z : Z) : Prop :=
  wf_sub h ts level z /\ (forall q, ~ in_sub h ts level z q) /\
  (forall path, length path = level -> sub_read h level z path = replicate WORDS_PER_PAGE 0).

Lemma limit_quarter : stack_limit / 4 + stack_limit / 4 <= stack_limit / 2 /\ 0 < stack_limit / 4.
Proof. by vm_compute. Qed.

(** Room on the obsoleted stack for [k] pages more than the allocator can still provide. *)
Definition stack_room (k : Z) (s : pstore) : Prop :=
  stack_wf (p_obsoleted s) /\
  st_size (p_obsoleted s) + Z.of_nat (length (p_supply s)) + k + 1 < stack_limit / 4.

Record store_ok (ts : Z) (s : pstore) : Prop := {
  so_supply : supply_fresh (p_pages s) (p_supply s);
  so_stack : stack_room 0 s;
  so_zero_page : p_zero_pxd s !! 0%nat = Some ZERO_PAGE;
  so_zero_in : is_Some (p_pages s !! ZERO_PAGE);
  so_zero : forall l, (l < SIVFS_CHECKPOINT_FOFFSET_LEVELS)%nat -> exists z, p_zero_pxd s !! l = Some z /\
    z <> 0 /\ pa_ok F z /\ zeroes (p_pages s) ts l z
}.

Lemma zeroes_null h ts level : zeroes h ts level 0.
Proof.
  split_and!.
  - destruct level; by left.
  - intros q. destruct level; by intros [? _].
  - intros path _. by destruct level.
Qed.

Lemma zeroes_frame h h' ts X level z : frame h h' X -> (forall q, X q -> owned h ts q) ->
  zeroes h ts level z -> zeroes h' ts level z.
Proof.
  intros Hf HX (Hwf & Hin & Hr). destruct (sub_frame h h' ts X level Hf HX z) as (? & Hin' & Hr'); [|done|].
  - intros q Hq. by apply Hin in Hq.
  - split_and!; [done| |].
    + intros q Hq. apply Hin' in Hq. by eapply Hin.
    + intros path Hl. rewrite Hr'. by apply Hr.
Qed.

Lemma store_ok_frame s s' ts X : store_ok ts s -> frame (p_pages s) (p_pages s') X ->
  (forall q, X q -> owned (p_pages s) ts q) -> p_zero_pxd s' = p_zero_pxd s ->
  supply_fresh (p_pages s') (p_supply s') -> stack_room 0 s' -> store_ok ts s'.
Proof.
  intros [_ _ Hz0 [zp Hzi] Hz] Hf HX Hzp Hs Hk. split; [done|done|by rewrite Hzp| |].
  - destruct (Hf _ _ Hzi) as (p' & Hp' & _). eauto.
  - intros l Hl. destruct (Hz l Hl) as (z & ? & ? & ? & ?). exists z. rewrite Hzp. split_and!; try done.
    by eapply zeroes_frame.
Qed.

Lemma supply_fresh_sub h h' l : supply_fresh h l -> (forall q, is_Some (h' !! q) -> is_Some (h !! q)) ->
  supply_fresh h' l.
Proof.
  intros [H1 H2] Hsub. split; [|done]. intros i sp Hi. destruct (H1 i sp Hi) as (Hn & ?). split; [|done].
  destruct (h' !! sp_pa sp) eqn:E; [|done]. destruct (Hsub (sp_pa sp)); [eauto|congruence].
Qed.

Lemma supply_fresh_tail h o l : supply_fresh h (o :: l) -> supply_fresh h l.
Proof.
  intros [H1 H2]. split; [intros i sp Hi; by apply (H1 (S i))|].
  intros i j sp sp' Hi Hj E. pose proof (H2 (S i) (S j) sp sp' Hi Hj E). lia.
Qed.

Lemma supply_fresh_take h sp l p : supply_fresh h (Some sp :: l) -> supply_fresh (<[sp_pa sp := p]> h) l.
Proof.
  intros H. pose proof (supply_fresh_tail _ _ _ H) as [H1 H2]. split; [|done].
  intros i sp' Hi. destruct (H1 i sp' Hi) as (? & ?). split; [|done]. rewrite lookup_insert_ne; [done|].
  intros E. pose proof (proj2 H 0%nat (S i) sp sp' eq_refl Hi E). lia.
Qed.

Lemma frame_insert h q p : h !! q = None -> frame h (<[q := p]> h) (fun _ => False).
Proof. intros Hn x y Hx. exists y. rewrite lookup_insert_ne by congruence. split_and!; done. Qed.

Lemma frame_update h q p p' X : h !! q = Some p -> cp_checkpoint_ts p' = cp_checkpoint_ts p ->
  cp_is_zero p' = cp_is_zero p -> length (cp_words p') = length (cp_words p) ->
  (~ X q -> cp_words p' = cp_words p) -> frame h (<[q := p']> h) X.
Proof.
  intros Hq Ht Hz Hl Hw x y Hx. destruct (decide (q = x)) as [->|].
  - exists p'. rewrite lookup_insert_eq. simplify_eq. done.
  - exists y. rewrite lookup_insert_ne by done. split_and!; done.
Qed.

Lemma store_page_ok pa p p' s : p_pages s !! pa = Some p ->
  store_page pa p' s = (Ok tt, set_pages (<[pa := p']> (p_pages s)) s).
Proof. intros H. unfold store_page. by rewrite H. Qed.
Lemma load_page_ok pa p s : p_pages s !! pa = Some p -> load_page pa s = (Ok p, s).
Proof. intros H. unfold load_page. by rewrite H. Qed.

(** Allocation: a fresh page, or ENOMEM and the same pages. *)
Definition new_page_of (sp : supply_page) (ts level : Z) : cpage :=
  mk_cpage (sp_words sp) ts SIVFS_INVALID_TS level false 0 1 0 false.

Lemma new_page_ok ts lvl s : supply_fresh (p_pages s) (p_supply s) ->
  (exists sp rest, p_supply s = Some sp :: rest /\
     sivfs_new_checkpoint_page 0 ts lvl s = (Ok (sp_pa sp),
       set_pages (<[sp_pa sp := new_page_of sp ts lvl]> (p_pages s)) (set_count (p_count s + 1) (set_supply rest s))))
  \/ (exists s', sivfs_new_checkpoint_page 0 ts lvl s = (Err ENOMEM, s') /\ p_pages s' = p_pages s).
Proof.
  intros [Hs _]. unfold sivfs_new_checkpoint_page.
  destruct (SIVFS_MAX_CHECKPOINT_PAGES <? p_count s + 1); [right; by eexists|].
  destruct (p_supply s) as [|[sp|] rest] eqn:E; [right; by eexists| |right; by eexists].
  destruct (sp_pginfo sp); [|right; by eexists].
  destruct (Hs 0%nat sp eq_refl) as (_ & _ & _ & -> & _). left. by exists sp, rest.
Qed.

(** A fresh node over existing children. *)
Lemma new_node h h1 ts level n pn : frame h h1 (fun _ => False) -> h !! n = None -> n <> 0 -> pa_ok F n ->
  h1 !! n = Some pn -> owned h1 ts n -> length (cp_words pn) = WORDS_PER_PAGE ->
  (forall l, level = S l ->
    (forall o w, cp_words pn !! o = Some w -> (pa_of w = 0 -> w = 0) /\ wf_sub h ts l (pa_of w)) /\
    (forall o1 o2 w1 w2 q, cp_words pn !! o1 = Some w1 -> cp_words pn !! o2 = Some w2 -> o1 <> o2 ->
       in_sub h ts l (pa_of w1) q -> in_sub h ts l (pa_of w2) q -> False)) ->
  wf_sub h1 ts level n /\
  (forall q, in_sub h1 ts level n q -> q = n \/
     exists l o w, level = S l /\ cp_words pn !! o = Some w /\ in_sub h ts l (pa_of w) q) /\
  (forall o path l, level = S l ->
     sub_read h1 (S l) n (o :: path) = sub_read h l (pa_of (default 0 (cp_words pn !! Z.to_nat o))) path).
Proof.
  intros Hf Hn Hnz Hok Hpn Ho Hl Hch. pose proof (owned_node_ok _ _ _ _ Ho Hpn Hok) as Hnok. destruct level as [|l].
  - split_and!; [|intros q (_ & p & _ & [[-> _]|[]]); by left|done].
    right. exists pn. done.
  - destruct (Hch l eq_refl) as [Hc Hd].
    assert (Hchild : forall o w, cp_words pn !! o = Some w ->
      wf_sub h1 ts l (pa_of w) /\ (forall q, in_sub h1 ts l (pa_of w) q <-> in_sub h ts l (pa_of w) q) /\
      (forall path, sub_read h1 l (pa_of w) path = sub_read h l (pa_of w) path)).
    { intros o w Hw. apply (sub_frame h h1 ts (fun _ => False)); try done; [by intros ? _ ?|by apply (Hc o)]. }
    split_and!.
    + right. exists pn. split_and!; try done.
      * intros o w Hw. destruct (Hchild o w Hw) as (? & Hin & _), (Hc o w Hw) as [? _]. split_and!; try done.
        rewrite Hin. intros Hq%in_sub_owned. destruct Hq as (x & Hx & _). congruence.
      * intros o1 o2 w1 w2 q H1 H2 Hne. destruct (Hchild o1 w1 H1) as (_ & -> & _), (Hchild o2 w2 H2) as (_ & -> & _).
        by eapply Hd.
    + intros q (_ & x & Hx & [[-> _]|(o & w & Hw & Hq)]); [by left|right]. simplify_eq.
      exists l, o, w. split_and!; try done. by apply (Hchild o w Hw).
    + intros o path l' [= <-]. cbn [sub_read]. rewrite Hpn, (proj2 (Z.eqb_neq _ _)) by done.
      destruct (cp_words pn !! Z.to_nat o) as [w|] eqn:Hw; simpl; [by destruct (Hchild _ w Hw) as (_ & _ & ->)|].
      assert (pa_of 0 = 0) as -> by (apply Z.land_0_l). by destruct l.
Qed.

(** ** One level of copy-on-write *)

Record cowed (s s1 : pstore) (ts : Z) (level : nat) (pa n : Z) : Prop := {
  cw_store : store_ok ts s1;
  cw_frame : frame (p_pages s) (p_pages s1) (fun _ => False);
  cw_nonzero : n <> 0;
  cw_pa_ok : pa_ok F n;
  cw_owned : owned (p_pages s1) ts n;
  cw_wf : wf_sub (p_pages s1) ts level n;
  cw_in : forall q, in_sub (p_pages s1) ts level n q -> in_sub (p_pages s) ts level pa q \/ p_pages s !! q = None;
  cw_read : forall path, length path = level ->
    sub_read (p_pages s1) level n path = sub_read (p_pages s) level pa path
}.

(** What the callback for obsolete pages may do: record the page. *)
Definition records_only (on_obsolete : Z -> M pstore unit) : Prop :=
  forall q s, stack_room 1 s -> exists r s', on_obsolete q s = (r, s') /\ (r = Ok tt \/ exists e, r = Err e) /\
    p_pages s' = p_pages s /\ p_supply s' = p_supply s /\ p_zero_pxd s' = p_zero_pxd s /\ stack_room 0 s'.

(** The callback that pushes on the obsoleted stack is one of those. *)
Lemma on_obsolete_page_stack_records vz : records_only (sivfs_on_obsolete_page_stack vz).
Proof.
  intros q s [Hwf Hroom]. unfold sivfs_on_obsolete_page_stack.
  destruct (push_ok_inv (vz q) q (p_obsoleted s) Hwf) as [(o & -> & Hwf' & _ & Hsz)|[-> _]];
    [pose proof limit_quarter; lia| |].
  - exists (Ok tt), (set_obsoleted o s). split_and!; try done; [by left|]. split; [done|]. simpl. lia.
  - exists (Err ENOMEM), (set_obsoleted (p_obsoleted s) s). split_and!; try done; [eauto|]. split; [done|]. simpl. lia.
Qed.

Lemma stack_room_take s s' o rest k : stack_room k s -> p_supply s = o :: rest ->
  p_obsoleted s' = p_obsoleted s -> p_supply s' = rest -> stack_room (k + 1) s'.
Proof. intros [Hwf Hr] Es Eo Es'. split; rewrite Eo; [done|]. rewrite Es in Hr. rewrite Es'. simpl in Hr. lia. Qed.

Lemma stack_room_le s k k' : k' <= k -> stack_room k s -> stack_room k' s.
Proof. intros ? [? ?]. split; [done|lia]. Qed.

Lemma mk_zero_words ts level s : store_ok ts s -> exists w fill,
  sivfs_mk_zero_checkpoint_page F ZERO_PAGE level s = Ok w /\ w = replicate WORDS_PER_PAGE fill /\
  (level = 0%nat -> fill = 0) /\
  (forall l, level = S l -> (pa_of fill = 0 -> fill = 0) /\ zeroes (p_pages s) ts l (pa_of fill)).
Proof.
  intros [_ _ Hz0 _ Hz]. unfold sivfs_mk_zero_checkpoint_page.
  destruct (Nat.eqb_spec level 0) as [->|Hl0]; [eexists _, 0; split_and!; done|].
  assert (Hfill : forall z fill l, level = S l -> pa_ok F z -> z <> 0 -> zeroes (p_pages s) ts l z ->
    pa_of fill = z -> (pa_of fill = 0 -> fill = 0) /\ zeroes (p_pages s) ts l (pa_of fill)).
  { intros z fill l _ _ Hnz Hzz ->. split; [done|done]. }
  destruct (Nat.eqb_spec level 1) as [->|Hl1].
  - destruct (Hz 0%nat) as (z & Hz1 & ? & ? & ?); [unfold SIVFS_CHECKPOINT_FOFFSET_LEVELS; lia|].
    rewrite Hz0 in Hz1. injection Hz1 as <-. eexists _, _. split_and!; [done|done|done|].
    intros l [= <-]. eapply Hfill; try done. by apply pxd_roundtrip.
  - destruct (Nat.leb_spec level SIVFS_CHECKPOINT_FOFFSET_LEVELS) as [Hle|Hgt].
    + destruct (Hz (level - 1)%nat) as (z & Hz1 & ? & ? & ?); [lia|]. rewrite Hz1. simpl.
      eexists _, _. split_and!; [done|done|done|]. intros l ->. rewrite Nat.sub_succ, Nat.sub_0_r in *.
      eapply Hfill; try done. by apply pxd_roundtrip.
    + eexists _, 0. split_and!; [done|done|done|]. intros l _. split; [done|].
      rewrite (Z.land_0_l (PTE_PFN_MASK F) : pa_of 0 = 0). apply zeroes_null.
Qed.

Lemma fresh_owned s h n p ts : store_ok ts s -> p_pages s !! n = None -> h !! n = Some p ->
  cp_is_zero p = false -> cp_checkpoint_ts p = ts -> owned h ts n.
Proof.
  intros Hs Hn Hp Hz Ht. exists p. split_and!; try done. unfold sivfs_is_zero_page. rewrite Hz, orb_false_r.
  apply Z.eqb_neq. intros ->. destruct (so_zero_in _ _ Hs). congruence.
Qed.

(** No page yet: a fresh page of zeros. *)
Lemma cow_empty_ok on_obsolete ts level s : store_ok ts s ->
  (exists n s1, cow_page on_obsolete ts level 0 s = (Ok n, s1) /\ cowed s s1 ts level 0 n)
  \/ (exists s1, cow_page on_obsolete ts level 0 s = (Err ENOMEM, s1) /\ p_pages s1 = p_pages s).
Proof.
  intros Hs. unfold cow_page. simpl.
  destruct (new_page_ok ts (Z.of_nat level) s (so_supply _ _ Hs)) as [(sp & rest & Es & E)|(s1 & E & Hp)];
    [left|right; exists s1; by rewrite (bind_err _ _ _ _ _ E)].
  rewrite (bind_step _ _ _ _ _ E). pose proof (so_supply _ _ Hs) as Hsup. rewrite Es in Hsup.
  destruct (proj1 Hsup 0%nat sp eq_refl) as (Hn & Hnz & Hok & _ & Hlen).
  set (pn := new_page_of sp ts (Z.of_nat level)). set (n := sp_pa sp) in *.
  set (s1 := add_new (set_pages (<[n := pn]> (p_pages s)) (set_count (p_count s + 1) (set_supply rest s)))).
  rewrite (bind_step (modify add_new) _ _ tt s1 eq_refl).
  assert (Hl1 : p_pages s1 !! n = Some pn) by apply lookup_insert_eq.
  rewrite (bind_step _ _ _ _ _ (load_page_ok _ _ _ Hl1)).
  assert (Hf1 : frame (p_pages s) (p_pages s1) (fun _ => False)) by (by apply frame_insert).
  assert (Hs1 : store_ok ts s1).
  { apply (store_ok_frame s s1 ts _ Hs Hf1); [done|done|by apply supply_fresh_take|].
    eapply (stack_room_le _ (0 + 1)); [lia|]. by apply (stack_room_take s s1 _ rest 0 (so_stack _ _ Hs) Es). }
  destruct (mk_zero_words ts level s Hs) as (w & fill & Ew & Hw & Hl0 & Hfill).
  rewrite (bind_step (fun s => (sivfs_mk_zero_checkpoint_page F ZERO_PAGE level s, s)) _ s1 w s1).
  2: { change (sivfs_mk_zero_checkpoint_page F ZERO_PAGE level s1)
         with (sivfs_mk_zero_checkpoint_page F ZERO_PAGE level s). by rewrite Ew. }
  rewrite (bind_step _ _ _ _ _ (store_page_ok _ _ _ _ Hl1)).
  exists n. eexists. split; [reflexivity|].
  set (s2 := set_pages _ s1).
  assert (Hp2 : p_pages s2 !! n = Some (with_words w pn)) by apply lookup_insert_eq.
  assert (Hlw : length w = WORDS_PER_PAGE) by (by rewrite Hw, length_replicate).
  assert (Hf2 : frame (p_pages s) (p_pages s2) (fun _ => False)).
  { simpl. rewrite insert_insert_eq. by apply frame_insert. }
  assert (Ho : owned (p_pages s2) ts n) by (exact (fresh_owned s _ n _ ts Hs Hn Hp2 eq_refl eq_refl)).
  assert (Hw_fill : forall o x, w !! o = Some x -> x = fill).
  { intros o x. rewrite Hw. by intros [-> _]%lookup_replicate. }
  destruct (new_node (p_pages s) (p_pages s2) ts level n (with_words w pn) Hf2 Hn Hnz Hok Hp2 Ho Hlw)
    as (Hwf & Hin & Hrd).
  { intros l El. destruct (Hfill l El) as [Hf0 (Hzw & Hzi & _)]. split.
    - intros o x ->%Hw_fill. done.
    - intros o1 o2 w1 w2 q ->%Hw_fill _ _ Hq. by apply Hzi in Hq. }
  split; try done.
  - apply (store_ok_frame s1 s2 ts (fun q => q = n) Hs1); [| |done| |apply (so_stack _ _ Hs1)].
    + apply (frame_update _ n pn); try done. simpl; congruence.
    + intros q ->. exact (fresh_owned s _ n _ ts Hs Hn Hl1 eq_refl eq_refl).
    + eapply supply_fresh_sub; [apply (so_supply _ _ Hs1)|]. intros q.
      simpl. rewrite !lookup_insert. case_decide; eauto.
  - intros q Hq. right. destruct (Hin q Hq) as [->|(l & o & x & El & Hx & Hq')]; [done|].
    apply Hw_fill in Hx. subst x. destruct (Hfill l El) as [_ (_ & Hzi & _)]. by apply Hzi in Hq'.
  - intros path Hp. destruct level as [|l].
    + cbn [sub_read]. rewrite Hp2, (proj2 (Z.eqb_neq _ _)) by done. simpl. by rewrite Hw, Hl0.
    + destruct path as [|o path]; [done|]. rewrite (Hrd o path l eq_refl). injection Hp as Hp.
      destruct (Hfill l eq_refl) as [_ (_ & _ & Hzr)]. cbn [cp_words with_words].
      destruct (w !! Z.to_nat o) as [x|] eqn:Hx; simpl.
      * apply Hw_fill in Hx. subst x. by apply Hzr.
      * rewrite (Z.land_0_l (PTE_PFN_MASK F) : pa_of 0 = 0). by apply zeroes_null.
Qed.

(** The children of a well-formed page. *)
Lemma wf_sub_children h ts level pa p : wf_sub h ts level pa -> pa <> 0 -> h !! pa = Some p ->
  forall l, level = S l ->
    (forall o w, cp_words p !! o = Some w -> (pa_of w = 0 -> w = 0) /\ wf_sub h ts l (pa_of w)) /\
    (forall o1 o2 w1 w2 q, cp_words p !! o1 = Some w1 -> cp_words p !! o2 = Some w2 -> o1 <> o2 ->
       in_sub h ts l (pa_of w1) q -> in_sub h ts l (pa_of w2) q -> False).
Proof.
  intros Hwf Hnz Hp l ->. destruct Hwf as [?|(x & Hx & _ & _ & Hc & Hd)]; [done|]. simplify_eq.
  split; [|done]. intros o w Hw. destruct (Hc o w Hw) as (? & ? & _). done.
Qed.

(** A page of an older checkpoint, or a zero page: a fresh copy. [s2] is the
    store after the copy and after the old page was marked obsolete. *)
Lemma copied s s2 ts level pa n old pn : store_ok ts s -> wf_sub (p_pages s) ts level pa -> pa <> 0 ->
  p_pages s !! pa = Some old -> p_pages s !! n = None -> n <> 0 -> pa_ok F n ->
  p_pages s2 !! n = Some pn -> cp_words pn = cp_words old -> cp_is_zero pn = false -> cp_checkpoint_ts pn = ts ->
  frame (p_pages s) (p_pages s2) (fun _ => False) -> p_zero_pxd s2 = p_zero_pxd s ->
  supply_fresh (p_pages s2) (p_supply s2) -> stack_room 0 s2 ->
  cowed s s2 ts level pa n.
Proof.
  intros Hs Hwf Hpa Hold Hn Hnz Hok Hpn Hw Hz Ht Hf Hzp Hsup Hroom.
  destruct (wf_sub_nonzero _ _ _ _ Hwf Hpa) as (x & Hx & Hlen & _). simplify_eq.
  assert (Ho : owned (p_pages s2) (cp_checkpoint_ts pn) n) by (exact (fresh_owned s _ n _ _ Hs Hn Hpn Hz eq_refl)).
  pose proof (wf_sub_children _ _ _ _ _ Hwf Hpa Hold) as Hch.
  destruct (new_node (p_pages s) (p_pages s2) (cp_checkpoint_ts pn) level n pn Hf Hn Hnz Hok Hpn Ho)
    as (Hwf2 & Hin & Hrd); [congruence|by rewrite Hw|].
  split; try done.
  - by eapply (store_ok_frame s s2 _ (fun _ => False)).
  - intros q Hq. destruct (Hin q Hq) as [->|(l & o & w & -> & Hwo & Hq')]; [by right|left].
    split; [done|]. exists old. split; [done|right]. rewrite <- Hw. eauto.
  - intros path Hp. destruct level as [|l].
    + cbn [sub_read]. by rewrite Hpn, Hold, !(proj2 (Z.eqb_neq _ _)) by done.
    + destruct path as [|o path]; [done|]. rewrite (Hrd o path l eq_refl). cbn [sub_read].
      by rewrite Hold, Hw, (proj2 (Z.eqb_neq _ _)) by done.
Qed.

(** A page of this checkpoint is used in place. *)
Lemma in_place s ts level pa old : store_ok ts s -> wf_sub (p_pages s) ts level pa -> pa <> 0 ->
  p_pages s !! pa = Some old -> sivfs_is_zero_page ZERO_PAGE pa old = false -> cp_checkpoint_ts old = ts ->
  cowed s s ts level pa pa.
Proof.
  intros Hs Hwf Hpa Hold Hz Ht. destruct (wf_sub_nonzero _ _ _ _ Hwf Hpa) as (x & Hx & _ & Hok).
  split; try done; [apply frame_refl| |by left]. exists old. done.
Qed.

Definition cow_error (s s1 : pstore) : Prop := frame (p_pages s) (p_pages s1) (fun _ => False).

Lemma cow_ok on_obsolete ts level e s : records_only on_obsolete -> ts <> 0 -> store_ok ts s ->
  wf_sub (p_pages s) ts level (pa_of e) -> (pa_of e = 0 -> e = 0) ->
  (exists n s1, cow_page on_obsolete ts level e s = (Ok n, s1) /\ cowed s s1 ts level (pa_of e) n)
  \/ (exists er s1, cow_page on_obsolete ts level e s = (Err er, s1) /\ cow_error s s1).
Proof.
  intros Hrec Hts Hs Hwf He0. unfold cow_error. destruct (Z.eq_dec e 0) as [->|Hne].
  { rewrite (Z.land_0_l (PTE_PFN_MASK F) : pa_of 0 = 0).
    destruct (cow_empty_ok on_obsolete ts level s Hs) as [?|(s1 & E & Hp)]; [by left|right].
    exists ENOMEM, s1. rewrite Hp. split; [done|apply frame_refl]. }
  assert (Hpa : pa_of e <> 0) by auto. set (pa := pa_of e) in *.
  destruct (wf_sub_nonzero _ _ _ _ Hwf Hpa) as (old & Hold & Hlen & _).
  unfold cow_page. fold pa. rewrite (proj2 (Z.eqb_neq _ _)) by done.
  rewrite (bind_step _ _ _ _ _ (load_page_ok _ _ _ Hold)).
  set (zero := sivfs_is_zero_page ZERO_PAGE pa old). destruct (Z.eqb_spec (if zero then 0 else cp_checkpoint_ts old) ts) as [Et|Et].
  { left. exists pa, s. split; [done|]. destruct zero eqn:Ez; [congruence|]. by apply (in_place s ts level pa old). }
  destruct (new_page_ok ts (Z.of_nat level) s (so_supply _ _ Hs)) as [(sp & rest & Es & E)|(s1 & E & Hp)].
  2: { right. exists ENOMEM, s1. rewrite (bind_err _ _ _ _ _ E), Hp. split; [done|apply frame_refl]. }
  rewrite (bind_step _ _ _ _ _ E). pose proof (so_supply _ _ Hs) as Hsup. rewrite Es in Hsup.
  destruct (proj1 Hsup 0%nat sp eq_refl) as (Hn & Hnz & Hok & _ & Hlsp).
  set (pn := new_page_of sp ts (Z.of_nat level)). set (n := sp_pa sp) in *.
  set (s1 := add_new (set_pages (<[n := pn]> (p_pages s)) (set_count (p_count s + 1) (set_supply rest s)))).
  rewrite (bind_step (modify add_new) _ _ tt s1 eq_refl).
  assert (Hl1 : p_pages s1 !! n = Some pn) by apply lookup_insert_eq.
  rewrite (bind_step _ _ _ _ _ (load_page_ok _ _ _ Hl1)).
  rewrite (bind_step _ _ _ _ _ (store_page_ok _ _ _ _ Hl1)).
  set (pc := with_words (cp_words old) pn). set (s2 := set_pages (<[n := pc]> (p_pages s1)) s1).
  assert (Hpn : n <> pa) by congruence.
  assert (E2 : p_pages s2 = <[n := pc]> (p_pages s)) by (simpl; by rewrite insert_insert_eq).
  assert (Hsup2 : supply_fresh (<[n := pc]> (p_pages s)) rest) by (by apply supply_fresh_take).
  assert (Hf2 : frame (p_pages s) (<[n := pc]> (p_pages s)) (fun _ => False)) by (by apply frame_insert).
  assert (Hroom2 : stack_room (0 + 1) s2) by (by apply (stack_room_take s s2 _ rest 0 (so_stack _ _ Hs) Es)).
  destruct zero eqn:Ez.
  { left. exists n, s2. split; [done|]. eapply (copied s s2 ts level pa n old pc); rewrite ?E2; try done;
      [apply lookup_insert_eq|by eapply stack_room_le; [|exact Hroom2]]. }
  assert (Ho2 : p_pages s2 !! pa = Some old) by (by rewrite E2, lookup_insert_ne).
  rewrite (bind_step _ _ _ _ _ (store_page_ok _ _ _ _ Ho2)).
  set (s3 := set_pages _ s2).
  assert (Hf3 : frame (p_pages s) (p_pages s3) (fun _ => False)).
  { apply (frame_trans _ _ _ _ (fun _ => False) Hf2); [|done]. rewrite <- E2. by apply (frame_update _ pa old). }
  destruct (Hrec pa s3 Hroom2) as (r & s4 & Er & [->|[er ->]] & Hp4 & Hs4 & Hz4 & Hroom4); rewrite Er.
  - left. exists n, s4. split; [done|]. eapply (copied s s4 ts level pa n old pc); rewrite ?Hp4; try done.
    + simpl. rewrite lookup_insert_ne by done. apply lookup_insert_eq.
    + rewrite Hs4. eapply supply_fresh_sub; [exact Hsup2|]. intros q. rewrite <- E2.
      destruct (decide (q = pa)) as [->|Hq]; [by rewrite Ho2|]. unfold s3. cbn [p_pages set_pages].
      by rewrite lookup_insert_ne.
  - right. assert (Hn4 : p_pages s4 !! n = Some pc).
    { rewrite Hp4. simpl. rewrite lookup_insert_ne by done. apply lookup_insert_eq. }
    unfold sivfs_put_checkpoint_page. rewrite Hn4. simpl. eexists er, _. split; [done|].
    intros q p Hq. destruct (Hf3 q p Hq) as (p' & Hp' & ?). exists p'. split; [|done]. simpl.
    rewrite lookup_delete_ne by congruence. by rewrite Hp4.
Qed.

(** ** Updating along a path *)

Definition in_bounds (path : list Z) : Prop := Forall (fun o => 0 <= o < Z.of_nat WORDS_PER_PAGE) path.

(** The tree below [pa'] in [h'] is the tree below [pa] in [h] with [upd]
    applied to the page at [path]. *)
Record updated (h h' : pages) (ts : Z) (level : nat) (pa pa' : Z) (path : list Z)
    (upd : list Z -> list Z) : Prop := {
  up_wf : wf_sub h' ts level pa';
  up_nonzero : pa' <> 0;
  up_in : forall q, in_sub h' ts level pa' q -> in_sub h ts level pa q \/ h !! q = None;
  up_read : forall path', length path' = level -> in_bounds path' ->
    sub_read h' level pa' path' =
      if decide (path' = path) then upd (sub_read h level pa path) else sub_read h level pa path';
  up_leaf : sub_leaf h' level pa' path <> 0 /\ owned h' ts (sub_leaf h' level pa' path)
}.

Lemma frame_None h h' X q : frame h h' X -> h' !! q = None -> h !! q = None.
Proof.
  intros Hf Hq. destruct (h !! q) as [p|] eqn:E; [|done]. destruct (Hf q p E) as (? & ? & _). congruence.
Qed.

Lemma updated_child h h' ts l n pn pn' o c c' path upd :
  wf_sub h ts (S l) n -> n <> 0 -> h !! n = Some pn -> owned h ts n ->
  cp_words pn !! o = Some c -> h' !! n = Some pn' -> cp_words pn' = <[o := c']> (cp_words pn) ->
  frame h h' (fun q => q = n \/ in_sub h ts l (pa_of c) q) ->
  updated h h' ts l (pa_of c) (pa_of c') path upd ->
  updated h h' ts (S l) n n (Z.of_nat o :: path) upd.
Proof.
  intros Hwf Hnz Hn Hown Hc Hn' Hw' Hf [Uwf Unz Uin Urd Ulf].
  destruct (wf_sub_nonzero _ _ _ _ Hwf Hnz) as (x & Hx & Hlen & Hok). simplify_eq.
  destruct Hwf as [?|(x & Hx & _ & _ & Hch & Hdis)]; [done|]. simplify_eq.
  assert (Ho : (o < length (cp_words x))%nat) by (eapply lookup_lt_Some; done).
  assert (Hlook : forall o' w, cp_words pn' !! o' = Some w -> (o' = o /\ w = c') \/ (o' <> o /\ cp_words x !! o' = Some w)).
  { intros o' w. rewrite Hw'. destruct (decide (o' = o)) as [->|].
    - rewrite list_lookup_insert_eq by done. intros [= <-]. by left.
    - rewrite list_lookup_insert_ne by done. by right. }
  assert (HX : forall q, q = n \/ in_sub h ts l (pa_of c) q -> owned h ts q).
  { intros q [->|Hq]; [done|]. by eapply in_sub_owned. }
  assert (Hother : forall o' w, o' <> o -> cp_words x !! o' = Some w ->
    wf_sub h' ts l (pa_of w) /\ (forall q, in_sub h' ts l (pa_of w) q <-> in_sub h ts l (pa_of w) q) /\
    (forall path, sub_read h' l (pa_of w) path = sub_read h l (pa_of w) path)).
  { intros o' w Hne Hw. destruct (Hch o' w Hw) as (_ & Hwfw & Hnw).
    eapply sub_frame; [exact Hf|exact HX| |done]. intros q Hq [->|Hq']; [done|]. by eapply (Hdis o' o). }
  assert (Hin_dom : forall w q, in_sub h ts l w q -> h !! q <> None).
  { intros w q Hq. apply in_sub_owned in Hq as (y & Hy & _). congruence. }
  split.
  - right. exists pn'. split_and!; [done|by rewrite Hw', length_insert| | |].
    { apply (owned_node_ok h' ts); [|done..]. apply (owned_frame _ _ _ _ _ Hf); [by eexists|done]. }
    + intros o' w [[-> ->]|[Hne Hw]]%Hlook.
      * split_and!; [done|done|]. intros [Hq|Hq]%Uin; [|congruence]. by apply (Hch o c).
      * destruct (Hother o' w Hne Hw) as (? & Hin & _), (Hch o' w Hw) as (? & _ & ?). by rewrite Hin.
    + intros o1 o2 w1 w2 q H1 H2 Hne Q1 Q2.
      apply Hlook in H1 as [[-> ->]|[N1 H1]], H2 as [[-> ->]|[N2 H2]]; try done.
      * apply (Hother o2 w2 N2 H2) in Q2. apply Uin in Q1 as [Q1|Q1]; [by eapply (Hdis o o2)|by eapply Hin_dom].
      * apply (Hother o1 w1 N1 H1) in Q1. apply Uin in Q2 as [Q2|Q2]; [by eapply (Hdis o1 o)|by eapply Hin_dom].
      * apply (Hother o1 w1 N1 H1) in Q1. apply (Hother o2 w2 N2 H2) in Q2. by eapply (Hdis o1 o2).
  - done.
  - intros q (_ & y & Hy & [[-> _]|(o' & w & Hw & Hq)]).
    + left. split; [done|]. exists x. split; [done|by left].
    + simplify_eq. apply Hlook in Hw as [[-> ->]|[Hne Hw]].
      * apply Uin in Hq as [Hq|Hq]; [left|by right]. split; [done|]. exists x. split; [done|right]. eauto.
      * left. apply (Hother o' w Hne Hw) in Hq. split; [done|]. exists x. split; [done|right]. eauto.
  - intros [|o' path'] Hl Hb; [done|]. injection Hl as Hl. apply Forall_cons_1 in Hb as [Hb Hbs].
    cbn [sub_read]. rewrite Hn', Hx, (proj2 (Z.eqb_neq _ _)), Hw' by done.
    destruct (decide (Z.to_nat o' = o)) as [Eo|Hne].
    + rewrite Eo, list_lookup_insert_eq by done. cbn [default from_option id]. rewrite Urd by done.
      replace o' with (Z.of_nat o) by lia. rewrite Nat2Z.id, Hc. cbn [default from_option id].
      destruct (decide (path' = path)) as [->|Hnp]; [by rewrite decide_True|].
      rewrite decide_False; [done|]. by intros [= ->].
    + rewrite list_lookup_insert_ne by done. rewrite decide_False by (intros [= -> _]; lia).
      destruct (cp_words x !! Z.to_nat o') as [w|] eqn:Hw; cbn [default from_option id];
        [by destruct (Hother _ w Hne Hw) as (_ & _ & ->)|].
      rewrite (Z.land_0_l (PTE_PFN_MASK F) : pa_of 0 = 0). by destruct l.
  - cbn [sub_leaf]. rewrite Hn', Hw', Nat2Z.id, list_lookup_insert_eq, (proj2 (Z.eqb_neq _ _)) by done. exact Ulf.
Qed.

Lemma updated_compose s s1 h2 h3 ts level pa n X path upd : cowed s s1 ts level pa n ->
  frame (p_pages s1) h2 X -> (forall q, X q -> owned (p_pages s1) ts q) ->
  (forall q, in_sub (p_pages s1) ts level n q -> ~ X q) -> length path = level ->
  updated h2 h3 ts level n n path upd -> updated (p_pages s) h3 ts level pa n path upd.
Proof.
  intros C Hf HX Hd Hl [Uwf Unz Uin Urd Ulf].
  destruct (sub_frame _ _ ts X level Hf HX n Hd (cw_wf _ _ _ _ _ _ C)) as (_ & Hin & Hr).
  split; try done.
  - intros q [Hq|Hq]%Uin; [by apply (cw_in _ _ _ _ _ _ C), Hin|right].
    eapply frame_None; [apply C|]. by eapply frame_None.
  - intros path' Hl' Hb. rewrite Urd, !Hr by done. by rewrite !(cw_read _ _ _ _ _ _ C).
Qed.

Lemma entry_for_ok level n : pa_ok F n -> n <> 0 -> pa_of (entry_for F level n) = n /\ entry_for F level n <> 0.
Proof.
  intros Hok Hnz. assert (pa_of (entry_for F level n) = n) as H.
  { destruct (pxd_roundtrip n Hok). unfold entry_for. by repeat case_match. }
  split; [done|]. intros E. rewrite E in H. rewrite (Z.land_0_l (PTE_PFN_MASK F) : pa_of 0 = 0) in H. done.
Qed.

Section levels.
Context (on_obsolete : Z -> M pstore unit) (ts file_offset value : Z) (nowrite : bool).
Context (Hrec : records_only on_obsolete) (Hts : ts <> 0).
Context (Hoff : 0 <= file_offset) (Hword : file_offset mod SIZEOF_WORD = 0).

(** The word written to the leaf. *)
Definition leaf_upd (w : list Z) : list Z :=
  if nowrite then w else <[Z.to_nat (file_offset mod PAGE_SIZE / SIZEOF_WORD) := value]> w.

Lemma apply_leaf_ok n p s : p_pages s !! n = Some p ->
  apply_leaf file_offset value nowrite n s =
    (Ok tt, set_pages (<[n := with_index (Z.shiftr file_offset PAGE_SHIFT)
       (with_words (leaf_upd (cp_words p)) p)]> (p_pages s)) s).
Proof.
  intros Hp. unfold apply_leaf, leaf_upd. rewrite (bind_step _ _ _ _ _ (load_page_ok _ _ _ Hp)).
  assert (Hm : file_offset mod PAGE_SIZE mod SIZEOF_WORD = 0).
  { unfold PAGE_SIZE, SIZEOF_WORD in *. replace 4096 with (8 * 512) by done. rewrite Z.rem_mul_r by lia.
    rewrite Hword, Z.add_0_l, Z.mul_comm, Z.mod_mul; done. }
  assert (E : (if nowrite then Ok (cp_words p) else sivfs_apply_ws_ent_pg file_offset value (cp_words p))
    = Ok (if nowrite then cp_words p
          else <[Z.to_nat (file_offset mod PAGE_SIZE / SIZEOF_WORD) := value]> (cp_words p))).
  { destruct nowrite; [done|]. unfold sivfs_apply_ws_ent_pg. by rewrite Hm. }
  rewrite E. rewrite (bind_step (lift (Ok _)) _ s _ s eq_refl). by apply (store_page_ok _ p).
Qed.

Lemma length_leaf_upd w : length (leaf_upd w) = length w.
Proof. unfold leaf_upd. destruct nowrite; [done|apply length_insert]. Qed.

(** The leaf itself. *)
Lemma leaf_updated h h' n p p' : h !! n = Some p -> n <> 0 -> owned h ts n -> pa_ok F n ->
  length (cp_words p) = WORDS_PER_PAGE -> h' !! n = Some p' -> cp_words p' = leaf_upd (cp_words p) ->
  owned h' ts n -> updated h h' ts 0 n n [] leaf_upd.
Proof.
  intros Hp Hnz Ho Hok Hl Hp' Hw Hown'. split; try done.
  - right. exists p'. rewrite Hw, length_leaf_upd. split_and!; try done.
    apply (owned_node_ok h' ts); [|done..]. apply Hown'.
  - intros q (_ & y & _ & [[-> _]|[]]). left. split; [done|]. exists p. split; [done|by left].
  - intros [|? ?] ? _; [|done]. rewrite decide_True by done. simpl.
    by rewrite Hp, Hp', (proj2 (Z.eqb_neq _ _)), Hw by done.
  - cbn [sub_leaf]. by rewrite (proj2 (Z.eqb_neq _ _)) by done.
Qed.

(** What is known of the cell [table[offset]] the loop works on. *)
Record cell (s : pstore) (level : nat) (p offset e : Z) : Prop := {
  ce_owned : owned (p_pages s) ts p;
  ce_word : exists pp, p_pages s !! p = Some pp /\ cp_words pp !! Z.to_nat offset = Some e /\
    length (cp_words pp) = WORDS_PER_PAGE;
  ce_bound : 0 <= offset < Z.of_nat WORDS_PER_PAGE;
  ce_entry : pa_of e = 0 -> e = 0;
  ce_wf : wf_sub (p_pages s) ts level (pa_of e);
  ce_out : ~ in_sub (p_pages s) ts level (pa_of e) p
}.

Lemma read_cell r s level p offset e : cell s level p offset e ->
  read_slot (STable p offset) (r, s) = (Ok e, (r, s)).
Proof.
  intros [_ (pp & Hpp & He & _) Hb _ _ _]. unfold read_slot.
  rewrite (bind_step _ _ (r, s) pp (r, s)) by (unfold on_ps, load_page; simpl; by rewrite Hpp).
  unfold rd_word. rewrite (proj2 (Z.ltb_ge _ _)) by lia. by rewrite He.
Qed.

Lemma write_cell r s p offset pp e : p_pages s !! p = Some pp ->
  0 <= offset < Z.of_nat (length (cp_words pp)) ->
  write_slot (STable p offset) e (r, s) =
    (Ok tt, (r, set_pages (<[p := with_words (<[Z.to_nat offset := e]> (cp_words pp)) pp]> (p_pages s)) s)).
Proof.
  intros Hpp Hb. unfold write_slot.
  rewrite (bind_step _ _ (r, s) pp (r, s)) by (unfold on_ps, load_page; simpl; by rewrite Hpp).
  unfold wr_word. rewrite (proj2 (Z.leb_le _ _)), (proj2 (Z.ltb_lt _ _)) by lia. cbn [andb].
  rewrite (bind_step (lift _) _ (r, s) _ (r, s) eq_refl). unfold on_ps. simpl. by rewrite (store_page_ok _ pp _ s Hpp).
Qed.

Notation run := (apply_levels on_obsolete ts file_offset value nowrite).

(** The cell after the loop. *)
Record cell_done (s s' : pstore) (level : nat) (p offset e : Z) (path : list Z) : Prop := {
  cd_store : store_ok ts s';
  cd_frame : frame (p_pages s) (p_pages s') (fun q => q = p \/ in_sub (p_pages s) ts level (pa_of e) q);
  cd_word : exists pp pp' e', p_pages s !! p = Some pp /\ p_pages s' !! p = Some pp' /\
    cp_words pp' = <[Z.to_nat offset := e']> (cp_words pp) /\ e' <> 0 /\
    updated (p_pages s) (p_pages s') ts level (pa_of e) (pa_of e') path leaf_upd
}.

Definition cell_error (s s' : pstore) (level : nat) (p e : Z) : Prop :=
  frame (p_pages s) (p_pages s') (fun q => q = p \/ in_sub (p_pages s) ts level (pa_of e) q).

Lemma cowed_not_cell s s1 level p offset e n : cell s level p offset e ->
  cowed s s1 ts level (pa_of e) n -> forall q, in_sub (p_pages s1) ts level n q -> q <> p.
Proof.
  intros [Ho _ _ _ _ Hout] C q Hq ->. apply (cw_in _ _ _ _ _ _ C) in Hq as [?|Hq]; [done|].
  destruct Ho as (y & Hy & _). congruence.
Qed.

Lemma node_in_own_sub h level n : owned h ts n -> n <> 0 -> in_sub h ts level n n.
Proof.
  intros Ho Hn. destruct Ho as (p & Hp & ?). destruct level; (split; [done|]); exists p; (split; [done|left]);
    (split; [done|]); by exists p.
Qed.

(** Writing pages owned by the checkpoint, other than its shape. *)
Lemma store_ok_write s q p p' : store_ok ts s -> owned (p_pages s) ts q -> p_pages s !! q = Some p ->
  cp_checkpoint_ts p' = cp_checkpoint_ts p -> cp_is_zero p' = cp_is_zero p ->
  length (cp_words p') = length (cp_words p) ->
  store_ok ts (set_pages (<[q := p']> (p_pages s)) s) /\
  frame (p_pages s) (<[q := p']> (p_pages s)) (fun x => x = q).
Proof.
  intros Hs Ho Hq Ht Hz Hl.
  assert (Hf : frame (p_pages s) (<[q := p']> (p_pages s)) (fun x => x = q)).
  { apply (frame_update _ q p); done. }
  split; [|done]. apply (store_ok_frame s (set_pages (<[q := p']> (p_pages s)) s) ts (fun x => x = q) Hs Hf); [by intros ? ->|done| |apply (so_stack _ _ Hs)].
  apply (supply_fresh_sub (p_pages s)); [apply Hs|]. intros x. simpl. rewrite lookup_insert.
  case_decide; subst; eauto.
Qed.

(** The loop at the leaf level. *)
Lemma run_leaf r s p offset e : store_ok ts s -> cell s 0 p offset e ->
  (exists s', run 0 (STable p offset) [] (r, s) = (Ok tt, (r, s')) /\ cell_done s s' 0 p offset e [])
  \/ (exists er s', run 0 (STable p offset) [] (r, s) = (Err er, (r, s')) /\ cell_error s s' 0 p e).
Proof.
  intros Hs Hc. cbn [apply_levels]. rewrite (bind_step _ _ _ _ _ (read_cell r s 0 p offset e Hc)).
  destruct (cow_ok on_obsolete ts 0 e s Hrec Hts Hs (ce_wf _ _ _ _ _ Hc) (ce_entry _ _ _ _ _ Hc))
    as [(n & s1 & E & C)|(er & s1 & E & Hf)].
  2: { right. exists er, s1. rewrite (bind_err _ _ _ er (r, s1)) by (unfold on_ps; simpl; by rewrite E).
       split; [done|]. eapply frame_weaken; [|exact Hf]. done. }
  left. rewrite (bind_step _ _ (r, s) n (r, s1)) by (unfold on_ps; simpl; by rewrite E).
  destruct (cw_owned _ _ _ _ _ _ C) as (pn & Hpn & Hpz & Hpt).
  destruct (wf_sub_nonzero _ _ _ _ (cw_wf _ _ _ _ _ _ C) (cw_nonzero _ _ _ _ _ _ C)) as (x & Hx & Hln & Hok).
  rewrite Hpn in Hx. injection Hx as <-.
  set (pn' := with_index (Z.shiftr file_offset PAGE_SHIFT) (with_words (leaf_upd (cp_words pn)) pn)).
  set (s2 := set_pages (<[n := pn']> (p_pages s1)) s1).
  rewrite (bind_step _ _ (r, s1) tt (r, s2)) by (unfold on_ps; cbn [snd fst]; by rewrite (apply_leaf_ok n pn s1 Hpn)).
  assert (Hnp : n <> p).
  { apply (cowed_not_cell _ _ _ _ _ _ _ Hc C), node_in_own_sub; [apply C|apply C]. }
  destruct (store_ok_write s1 n pn pn' (cw_store _ _ _ _ _ _ C)) as [Hs2 Hf2]; try done; [apply C|apply length_leaf_upd|].
  destruct (ce_word _ _ _ _ _ Hc) as (pp & Hpp & He & Hlp).
  destruct (cw_frame _ _ _ _ _ _ C p pp Hpp) as (pp1 & Hpp1 & Ht1 & Hz1 & Hl1 & Hw1). specialize (Hw1 (fun x => x)).
  assert (Hpp2 : p_pages s2 !! p = Some pp1) by (simpl; by rewrite lookup_insert_ne).
  rewrite (bind_step _ _ (r, s2) tt _ (write_cell r s2 p offset pp1 _ Hpp2 ltac:(rewrite Hl1, Hlp; apply Hc))).
  eexists. split; [reflexivity|].
  destruct (entry_for_ok 1 n Hok (cw_nonzero _ _ _ _ _ _ C)) as [Hpe Hne].
  assert (Hop : owned (p_pages s2) ts p).
  { apply (owned_frame _ _ _ _ _ Hf2); [eauto|]. apply (owned_frame _ _ _ _ _ (cw_frame _ _ _ _ _ _ C)); [eauto|apply Hc]. }
  destruct (store_ok_write s2 p pp1 (with_words (<[Z.to_nat offset := entry_for F 1 n]> (cp_words pp1)) pp1) Hs2 Hop Hpp2)
    as [Hs3 Hf3]; try done; [apply length_insert|].
  assert (Hall : frame (p_pages s) (<[p := with_words (<[Z.to_nat offset := entry_for F 1 n]> (cp_words pp1)) pp1]> (p_pages s2))
    (fun q => q = p \/ in_sub (p_pages s) ts 0 (pa_of e) q)).
  { eapply frame_trans; [eapply frame_weaken; [|apply (cw_frame _ _ _ _ _ _ C)]; done|
      eapply (frame_trans _ _ _ (fun q => q = n \/ q = p)); [eapply frame_weaken; [|exact Hf2]; by left|exact Hf3|by right]|].
    intros q Hq [Eq|Eq]; subst q; [|by left]. right.
    destruct (cw_in _ _ _ _ _ _ C n) as [?|Hnone]; [apply node_in_own_sub; apply C|done|].
    rewrite Hnone in Hq. by destruct Hq. }
  split; [done|done|]. exists pp, (with_words (<[Z.to_nat offset := entry_for F 1 n]> (cp_words pp1)) pp1), (entry_for F 1 n).
  split_and!; [done|apply lookup_insert_eq|by rewrite <- Hw1|done|].
  rewrite Hpe. apply (updated_compose s s1 (p_pages s1) _ ts 0 (pa_of e) n (fun _ => False) [] leaf_upd C (frame_refl _));
    [done|by intros ? _ ?|done|].
  apply (leaf_updated _ _ n pn pn'); try done; [apply C|apply C| |].
  - simpl. rewrite lookup_insert_ne by done. apply lookup_insert_eq.
  - apply (owned_frame _ _ _ _ _ (frame_trans _ _ _ _ _ (frame_weaken _ _ _ _ (fun q E => or_introl E) Hf2)
      (frame_weaken _ _ _ (fun q => q = n \/ q = p) (fun q E => or_intror E) Hf3) (fun q _ E => E)));
      [eauto|apply C].
Qed.

(** The cell after the new page was made visible in it. *)
Lemma publish s s1 level p offset e n k : cell s level p offset e -> cowed s s1 ts level (pa_of e) n ->
  exists pp pp1, p_pages s !! p = Some pp /\ p_pages s1 !! p = Some pp1 /\ cp_words pp1 = cp_words pp /\
    length (cp_words pp1) = WORDS_PER_PAGE /\ owned (p_pages s1) ts p /\
    let pp2 := with_words (<[Z.to_nat offset := entry_for F k n]> (cp_words pp1)) pp1 in
    store_ok ts (set_pages (<[p := pp2]> (p_pages s1)) s1) /\
    frame (p_pages s1) (<[p := pp2]> (p_pages s1)) (fun x => x = p).
Proof.
  intros Hc C. destruct (ce_word _ _ _ _ _ Hc) as (pp & Hpp & He & Hlp).
  destruct (cw_frame _ _ _ _ _ _ C p pp Hpp) as (pp1 & Hpp1 & Ht1 & Hz1 & Hl1 & Hw1).
  specialize (Hw1 (fun x => x)).
  assert (Hop : owned (p_pages s1) ts p).
  { apply (owned_frame _ _ _ _ _ (cw_frame _ _ _ _ _ _ C)); [eauto|apply Hc]. }
  exists pp, pp1. split_and!; try done; [congruence|].
  apply (store_ok_write s1 p pp1); try done; [apply C|]. simpl. apply length_insert.
Qed.

(** The cell of the next level. *)
Lemma next_cell s2 l n o : store_ok ts s2 -> owned (p_pages s2) ts n -> wf_sub (p_pages s2) ts (S l) n ->
  n <> 0 -> 0 <= o < Z.of_nat WORDS_PER_PAGE ->
  exists pn c, p_pages s2 !! n = Some pn /\ cp_words pn !! Z.to_nat o = Some c /\ cell s2 l n o c.
Proof.
  intros Hs Ho [?|(pn & Hpn & Hl & _ & Hch & _)] Hnz Hb; [done|].
  destruct (lookup_lt_is_Some_2 (cp_words pn) (Z.to_nat o)) as [c Hc]; [lia|].
  destruct (Hch _ _ Hc) as (? & ? & ?). exists pn, c. split_and!; try done. split; eauto.
Qed.

Lemma run_step l (IH : forall r s p offset e path, store_ok ts s -> cell s l p offset e ->
    length path = l -> in_bounds path ->
    (exists s', run l (STable p offset) path (r, s) = (Ok tt, (r, s')) /\ cell_done s s' l p offset e path)
    \/ (exists er s', run l (STable p offset) path (r, s) = (Err er, (r, s')) /\ cell_error s s' l p e))
  r s p offset e o rest : store_ok ts s -> cell s (S l) p offset e -> length rest = l ->
  in_bounds (o :: rest) ->
  (exists s', run (S l) (STable p offset) (o :: rest) (r, s) = (Ok tt, (r, s'))
     /\ cell_done s s' (S l) p offset e (o :: rest))
  \/ (exists er s', run (S l) (STable p offset) (o :: rest) (r, s) = (Err er, (r, s'))
     /\ cell_error s s' (S l) p e).
Proof.
  intros Hs Hc Hlen Hb. apply Forall_cons_1 in Hb as [Hbo Hbr]. cbn [apply_levels].
  rewrite (bind_step _ _ _ _ _ (read_cell r s (S l) p offset e Hc)).
  destruct (cow_ok on_obsolete ts (S l) e s Hrec Hts Hs (ce_wf _ _ _ _ _ Hc) (ce_entry _ _ _ _ _ Hc))
    as [(n & s1 & E & C)|(er & s1 & E & Hf)].
  2: { right. exists er, s1. rewrite (bind_err _ _ _ er (r, s1)) by (unfold on_ps; simpl; by rewrite E).
       split; [done|]. eapply frame_weaken; [|exact Hf]. done. }
  rewrite (bind_step _ _ (r, s) n (r, s1)) by (unfold on_ps; simpl; by rewrite E).
  rewrite (bind_step (ret tt) _ (r, s1) tt (r, s1) eq_refl).
  destruct (publish s s1 (S l) p offset e n (S (S l)) Hc C)
    as (pp & pp1 & Hpp & Hpp1 & Hw1 & Hlp1 & Hop & Hs2 & Hf2).
  rewrite (bind_step _ _ _ _ _ (write_cell r s1 p offset pp1 _ Hpp1 ltac:(rewrite Hlp1; apply Hc))).
  set (pp2 := with_words _ pp1) in *. set (s2 := set_pages (<[p := pp2]> (p_pages s1)) s1) in *.
  rewrite (bind_step (lift (Ok o)) _ (r, s2) o (r, s2) eq_refl).
  pose proof (cowed_not_cell _ _ _ _ _ _ _ Hc C) as Hnp.
  pose proof (cw_nonzero _ _ _ _ _ _ C) as Hnz.
  assert (HX2 : forall q, q = p -> owned (p_pages s1) ts q) by (by intros ? ->).
  destruct (sub_frame _ _ ts _ (S l) Hf2 HX2 n Hnp (cw_wf _ _ _ _ _ _ C)) as (Hwf2 & Hin2 & _).
  assert (Hn1 : in_sub (p_pages s1) ts (S l) n n) by (apply node_in_own_sub; [apply C|done]).
  assert (Hon2 : owned (p_pages s2) ts n) by (eapply in_sub_owned, Hin2, Hn1).
  destruct (next_cell s2 l n o Hs2 Hon2 Hwf2 Hnz Hbo) as (pn & c & Hpn & Hcw & Hcell).
  assert (Hlift : forall q, in_sub (p_pages s1) ts (S l) n q -> is_Some (p_pages s !! q) ->
    q = p \/ in_sub (p_pages s) ts (S l) (pa_of e) q).
  { intros q Hq [y Hy]. apply (cw_in _ _ _ _ _ _ C) in Hq as [?|?]; [by right|congruence]. }
  assert (HX3 : forall q, is_Some (p_pages s !! q) -> q = n \/ in_sub (p_pages s2) ts l (pa_of c) q ->
    q = p \/ in_sub (p_pages s) ts (S l) (pa_of e) q).
  { intros q Hq [->|Hq']; [by apply Hlift|]. apply Hlift; [|done]. apply Hin2. split; [done|].
    exists pn. split; [done|right]. eauto. }
  assert (H12 : frame (p_pages s) (p_pages s2) (fun q => q = p \/ in_sub (p_pages s) ts (S l) (pa_of e) q)).
  { eapply frame_trans; [eapply frame_weaken; [|apply (cw_frame _ _ _ _ _ _ C)]; done|exact Hf2|]. by left. }
  destruct (IH r s2 n o c rest Hs2 Hcell Hlen Hbr) as [(s3 & E3 & D)|(er & s3 & E3 & Hf3)].
  2: { right. exists er, s3. split; [exact E3|]. by eapply frame_trans. }
  left. exists s3. split; [exact E3|]. destruct D as [Ds Df (pn0 & pn3 & c' & Hpn0 & Hpn3 & Hw3 & Hc' & Hup)].
  rewrite Hpn in Hpn0. injection Hpn0 as <-.
  assert (Hp2 : p_pages s2 !! p = Some pp2) by apply lookup_insert_eq.
  destruct (Df p pp2 Hp2) as (pp3 & Hpp3 & _ & _ & _ & Hwp3).
  assert (Hpw : cp_words pp3 = cp_words pp2).
  { apply Hwp3. intros [->|Hq]; [by apply (Hnp n)|]. apply (Hnp p); [|done]. apply Hin2.
    split; [done|]. exists pn. split; [done|right]. eauto. }
  destruct (entry_for_ok (S (S l)) n (cw_pa_ok _ _ _ _ _ _ C) Hnz) as [Hpe Hne].
  split; [done|by eapply frame_trans|]. exists pp, pp3, (entry_for F (S (S l)) n).
  split_and!; [done|done|rewrite Hpw; simpl; by rewrite Hw1|done|]. rewrite Hpe.
  apply (updated_compose s s1 (p_pages s2) _ ts (S l) (pa_of e) n (fun x => x = p) (o :: rest) leaf_upd C Hf2 HX2 Hnp);
    [simpl; congruence|].
  rewrite <- (Z2Nat.id o) by lia.
  by apply (updated_child _ _ ts l n pn pn3 (Z.to_nat o) c c').
Qed.

(** The whole loop below a cell. *)
Lemma run_cell level : forall r s p offset e path, store_ok ts s -> cell s level p offset e ->
  length path = level -> in_bounds path ->
  (exists s', run level (STable p offset) path (r, s) = (Ok tt, (r, s')) /\ cell_done s s' level p offset e path)
  \/ (exists er s', run level (STable p offset) path (r, s) = (Err er, (r, s')) /\ cell_error s s' level p e).
Proof.
  induction level as [|l IH]; intros r s p offset e path Hs Hc Hl Hb.
  - destruct path; [|done]. by apply run_leaf.
  - destruct path as [|o rest]; [done|]. injection Hl as Hl. by apply run_step.
Qed.
End levels.

(** ** A whole change, from the root *)


Record change_done (r r' : Z) (s s' : pstore) (ts : Z) (path : list Z) (upd : list Z -> list Z) : Prop := {
  ch_store : store_ok ts s';
  ch_frame : frame (p_pages s) (p_pages s') (in_sub (p_pages s) ts ROOT_LEVEL r);
  ch_updated : updated (p_pages s) (p_pages s') ts ROOT_LEVEL r r' path upd
}.

Lemma pa_of_root h ts r : wf_sub h ts ROOT_LEVEL r -> pa_of r = r.
Proof.
  intros Hwf. destruct (Z.eq_dec r 0) as [->|Hr]; [apply Z.land_0_l|].
  by destruct (wf_sub_nonzero _ _ _ _ Hwf Hr) as (p & _ & _ & ?).
Qed.

Lemma run_root on_obsolete ts file_offset value nowrite r s o path :
  records_only on_obsolete -> ts <> 0 -> file_offset mod SIZEOF_WORD = 0 ->
  store_ok ts s -> wf_sub (p_pages s) ts ROOT_LEVEL r -> length path = 5%nat -> in_bounds (o :: path) ->
  (exists r' s', apply_levels on_obsolete ts file_offset value nowrite ROOT_LEVEL SRoot (o :: path) (r, s)
      = (Ok tt, (r', s')) /\ change_done r r' s s' ts (o :: path) (leaf_upd file_offset value nowrite))
  \/ (exists er r' s', apply_levels on_obsolete ts file_offset value nowrite ROOT_LEVEL SRoot (o :: path) (r, s)
      = (Err er, (r', s')) /\ frame (p_pages s) (p_pages s') (in_sub (p_pages s) ts ROOT_LEVEL r)).
Proof.
  intros Hrec Hts Hword Hs Hwf Hlen Hb. apply Forall_cons_1 in Hb as [Hbo Hbr].
  pose proof (pa_of_root _ _ _ Hwf) as Hpr.
  cbn [apply_levels read_slot]. rewrite (bind_step (gets fst) _ (r, s) r (r, s) eq_refl).
  destruct (cow_ok on_obsolete ts ROOT_LEVEL r s Hrec Hts Hs) as [(n & s1 & E & C)|(er & s1 & E & Hf)];
    rewrite ?Hpr in *; try done.
  2: { right. exists er, r, s1. rewrite (bind_err _ _ _ er (r, s1)) by (unfold on_ps; simpl; by rewrite E).
       split; [done|]. eapply frame_weaken; [|exact Hf]. done. }
  rewrite (bind_step _ _ (r, s) n (r, s1)) by (unfold on_ps; simpl; by rewrite E).
  rewrite (bind_step (ret tt) _ (r, s1) tt (r, s1) eq_refl). change (entry_for F 7 n) with n. cbn [write_slot].
  rewrite (bind_step (modify _) _ (r, s1) tt (n, s1) eq_refl).
  rewrite (bind_step (lift (Ok o)) _ (n, s1) o (n, s1) eq_refl).
  pose proof (cw_nonzero _ _ _ _ _ _ C) as Hnz.
  assert (Hn1 : in_sub (p_pages s1) ts ROOT_LEVEL n n) by (apply node_in_own_sub; [apply C|done]).
  destruct (next_cell ts s1 5 n o (cw_store _ _ _ _ _ _ C) (cw_owned _ _ _ _ _ _ C) (cw_wf _ _ _ _ _ _ C) Hnz Hbo)
    as (pn & c & Hpn & Hcw & Hcell).
  assert (HX : forall q, is_Some (p_pages s !! q) -> q = n \/ in_sub (p_pages s1) ts 5 (pa_of c) q ->
    in_sub (p_pages s) ts ROOT_LEVEL r q).
  { intros q [y Hy] Hq. assert (Hq' : in_sub (p_pages s1) ts ROOT_LEVEL n q).
    { destruct Hq as [->|Hq]; [done|]. split; [done|]. exists pn. split; [done|right]. eauto. }
    apply (cw_in _ _ _ _ _ _ C) in Hq' as [?|?]; [done|congruence]. }
  assert (Hfr : frame (p_pages s) (p_pages s1) (in_sub (p_pages s) ts ROOT_LEVEL r)).
  { eapply frame_weaken; [|apply (cw_frame _ _ _ _ _ _ C)]. done. }
  destruct (run_cell on_obsolete ts file_offset value nowrite Hrec Hts Hword 5 n s1 n o c path
    (cw_store _ _ _ _ _ _ C) Hcell Hlen Hbr) as [(s3 & E3 & D)|(er & s3 & E3 & Hf3)].
  2: { right. exists er, n, s3. split; [exact E3|]. by eapply frame_trans. }
  left. exists n, s3. split; [exact E3|]. destruct D as [Ds Df (pn0 & pn3 & c' & Hpn0 & Hpn3 & Hw3 & Hc' & Hup)].
  rewrite Hpn in Hpn0. injection Hpn0 as <-.
  split; [done|by eapply frame_trans|].
  apply (updated_compose s s1 (p_pages s1) _ ts ROOT_LEVEL r n (fun _ => False) (o :: path) _ C (frame_refl _));
    [done|by intros ? _ ?|simpl; congruence|].
  rewrite <- (Z2Nat.id o) by lia.
  apply (updated_child _ _ ts 5 n pn pn3 (Z.to_nat o) c c'); try done; [apply C|apply C].
Qed.

(** Traversal and reading follow the same tree. *)
Lemma traverse_read h ts level : forall pa path, wf_sub h ts level pa -> length path = level -> in_bounds path ->
  match traverse_loop F level 0 path pa h with
  | Ok None => sub_read h level pa path = replicate WORDS_PER_PAGE 0
  | Ok (Some q) => exists p, h !! q = Some p /\ sub_read h level pa path = cp_words p
  | _ => False
  end.
Proof.
  induction level as [|l IH]; intros pa path Hwf Hl Hb.
  - simpl. destruct (Z.eqb_spec pa 0) as [->|Hnz]; [done|].
    destruct (wf_sub_nonzero _ _ _ _ Hwf Hnz) as (p & Hp & _). exists p. by rewrite Hp.
  - destruct path as [|o path]; [done|]. injection Hl as Hl. apply Forall_cons_1 in Hb as [Hbo Hbr].
    cbn [traverse_loop Nat.eqb sub_read]. destruct (Z.eqb_spec pa 0) as [->|Hnz]; [done|].
    destruct Hwf as [?|(p & Hp & Hlp & _ & Hch & _)]; [done|]. rewrite Hp.
    cbn [deref rbind sivfs_checkpoint_iter_next_offset head].
    destruct (lookup_lt_is_Some_2 (cp_words p) (Z.to_nat o)) as [w Hw]; [lia|].
    unfold rd_word. rewrite (proj2 (Z.ltb_ge _ _)), Hw by lia. cbn [deref rbind default from_option id].
    apply IH; [|done|done]. by destruct (Hch _ w Hw) as (_ & ? & _).
Qed.

Lemma traverse_leaf h ts level : forall pa path, wf_sub h ts level pa -> length path = level -> in_bounds path ->
  sub_leaf h level pa path <> 0 -> traverse_loop F level 0 path pa h = Ok (Some (sub_leaf h level pa path)).
Proof.
  induction level as [|l IH]; intros pa path Hwf Hl Hb; cbn [sub_leaf].
  - intros Hnz. simpl. by destruct (Z.eqb_spec pa 0).
  - destruct (Z.eqb_spec pa 0) as [->|Hnz]; [done|]. destruct path as [|o path]; [done|].
    injection Hl as Hl. apply Forall_cons_1 in Hb as [Hbo Hbr].
    destruct Hwf as [?|(p & Hp & Hlp & _ & Hch & _)]; [done|]. cbn [traverse_loop Nat.eqb].
    rewrite (proj2 (Z.eqb_neq _ _)) by done. rewrite Hp. cbn [deref rbind].
    destruct (lookup_lt_is_Some_2 (cp_words p) (Z.to_nat o)) as [w Hw]; [lia|].
    cbn [sivfs_checkpoint_iter_next_offset head deref rbind]. unfold rd_word. rewrite (proj2 (Z.ltb_ge _ _)), Hw by lia.
    cbn [default from_option id deref rbind]. intros Hlf. apply IH; try done. by apply (Hch (Z.to_nat o) w).
Qed.

Lemma read_checkpoint_sub h ts root ino off : wf_sub h ts ROOT_LEVEL root -> 0 <= ino < 2 ^ 27 ->
  0 <= off < 2 ^ 39 -> off mod PAGE_SIZE = 0 ->
  sivfs_read_checkpoint F PAGE_SIZE root ino off h = Ok (sub_read h ROOT_LEVEL root (page_path ino (off / PAGE_SIZE))).
Proof.
  intros Hwf Hi Ho Hal. unfold sivfs_read_checkpoint. rewrite Hal. simpl negb. cbn [orb].
  unfold sivfs_checkpoint_traverse, sivfs_checkpoint_traverse_partial.
  assert (off / PAGE_SIZE < 2 ^ 27) by (apply Z.div_lt_upper_bound; [done|unfold PAGE_SIZE; lia]).
  rewrite iter_init_spec, (proj2 (Z.ltb_lt ino _)), (proj2 (Z.ltb_lt (off / PAGE_SIZE) _)) by lia. cbn [andb rbind].
  pose proof (traverse_read h ts ROOT_LEVEL root (page_path ino (off / PAGE_SIZE)) Hwf eq_refl (page_path_bounds _ _)) as Ht.
  change (SIVFS_CHECKPOINT_TOTAL_LEVELS - 1)%nat with ROOT_LEVEL.
  destruct (traverse_loop F ROOT_LEVEL 0 _ root h) as [[q|]| | |]; try done; cbn [rbind].
  - destruct Ht as (p & Hp & ->). by rewrite Hp.
  - by rewrite Ht.
Qed.

(** ** Replaying writes *)

(** The page [pg] of file [ino] as seen from a root. *)
Definition view (h : pages) (root ino pg : Z) : list Z := sub_read h ROOT_LEVEL root (page_path ino pg).

(** A write to one word, on files as functions from page numbers to pages. *)
Definition write_word (w : Z * Z * Z) (m : Z -> Z -> list Z) : Z -> Z -> list Z := fun ino pg =>
  let '(i, off, v) := w in
  if (ino =? i) && (pg =? off / PAGE_SIZE)
  then <[Z.to_nat (off mod PAGE_SIZE / SIZEOF_WORD) := v]> (m ino pg) else m ino pg.

Definition write_ok (w : Z * Z * Z) : Prop :=
  let '(i, off, _) := w in 0 <= i < 2 ^ 27 /\ 0 <= off < 2 ^ 39 /\ off mod SIZEOF_WORD = 0.

Definition page_ok (ino pg : Z) : Prop := 0 <= ino < 2 ^ 27 /\ 0 <= pg < 2 ^ 27.

(** Checkpoints with no page of the one being made are untouched. *)
Definition old_safe (ts : Z) (h h' : pages) : Prop := forall R,
  wf_sub h ts ROOT_LEVEL R -> (forall q, ~ in_sub h ts ROOT_LEVEL R q) ->
  wf_sub h' ts ROOT_LEVEL R /\ (forall q, ~ in_sub h' ts ROOT_LEVEL R q) /\
  forall path, sub_read h' ROOT_LEVEL R path = sub_read h ROOT_LEVEL R path.

Lemma old_safe_frame ts h h' X : frame h h' X -> (forall q, X q -> owned h ts q) -> old_safe ts h h'.
Proof.
  intros Hf HX R Hwf Hn. destruct (sub_frame h h' ts X ROOT_LEVEL Hf HX R) as (? & Hin & ?); [|done|].
  - intros q Hq. by apply Hn in Hq.
  - split_and!; try done. intros q Hq. apply Hin in Hq. by eapply Hn.
Qed.

(** The state after replaying the writes [ws]. *)
Record replayed (ts : Z) (ws : list (Z * Z * Z)) (s : pstore) (r : Z) (s' : pstore) (r' : Z) : Prop := {
  rp_store : store_ok ts s';
  rp_wf : wf_sub (p_pages s') ts ROOT_LEVEL r';
  rp_frame : frame (p_pages s) (p_pages s') (in_sub (p_pages s) ts ROOT_LEVEL r);
  rp_in : forall q, in_sub (p_pages s') ts ROOT_LEVEL r' q -> in_sub (p_pages s) ts ROOT_LEVEL r q \/ p_pages s !! q = None;
  rp_view : forall ino pg, page_ok ino pg ->
    view (p_pages s') r' ino pg = foldl (fun m w => write_word w m) (view (p_pages s) r) ws ino pg
}.

(** The outcome of a replay: done, or an error that leaves older checkpoints intact. *)
Definition replay_result {A} (ts : Z) (ws : list (Z * Z * Z)) (s : pstore) (r : Z) (res : Prelude.res A * rstate)
    (a : A) : Prop :=
  (exists r' s', res = (Ok a, (r', s')) /\ replayed ts ws s r s' r') \/
  (exists e r' s', res = (Err e, (r', s')) /\ frame (p_pages s) (p_pages s') (in_sub (p_pages s) ts ROOT_LEVEL r)).

Lemma replayed_refl ts s r : store_ok ts s -> wf_sub (p_pages s) ts ROOT_LEVEL r -> replayed ts [] s r s r.
Proof.
  intros. split; try done; [|by left]. eapply frame_weaken; [|apply frame_refl]. done.
Qed.

(** A later step only writes to pages of the root it started from or to new ones. *)
Lemma replayed_frame ts ws s1 r1 s2 r2 h3 : replayed ts ws s1 r1 s2 r2 ->
  frame (p_pages s2) h3 (in_sub (p_pages s2) ts ROOT_LEVEL r2) ->
  frame (p_pages s1) h3 (in_sub (p_pages s1) ts ROOT_LEVEL r1).
Proof.
  intros R Hf. eapply frame_trans; [apply R|exact Hf|].
  intros q [p Hq] [?|Hn]%(rp_in _ _ _ _ _ _ R); [done|]. congruence.
Qed.

Lemma foldl_write_ext ws : forall m m', (forall ino pg, page_ok ino pg -> m ino pg = m' ino pg) ->
  forall ino pg, page_ok ino pg ->
  foldl (fun m w => write_word w m) m ws ino pg = foldl (fun m w => write_word w m) m' ws ino pg.
Proof.
  induction ws as [|[[i off] v] ws IH]; intros m m' Hm ino pg Hp; simpl; [by apply Hm|].
  apply IH; [|done]. intros ino' pg' Hp'. simpl. by rewrite Hm.
Qed.

Lemma replayed_trans ts ws1 ws2 s1 r1 s2 r2 s3 r3 : replayed ts ws1 s1 r1 s2 r2 ->
  replayed ts ws2 s2 r2 s3 r3 -> replayed ts (ws1 ++ ws2) s1 r1 s3 r3.
Proof.
  intros R1 R2. pose proof (replayed_frame _ _ _ _ _ _ _ R1 (rp_frame _ _ _ _ _ _ R2)) as Hf.
  destruct R1 as [_ _ F1 I1 V1], R2 as [S2 W2 _ I2 V2]. split; try done.
  { intros q [Hq|Hq]%I2; [by apply I1|right]. by apply (frame_None _ _ _ q F1). }
  intros ino pg Hp. rewrite V2, foldl_app by done. apply foldl_write_ext; [|done]. apply V1.
Qed.

Section replay.
Context (on_obsolete : Z -> M pstore unit) (ts : Z).
Context (Hrec : records_only on_obsolete) (Hts : ts <> 0).

Lemma apply_change_replays w s r : store_ok ts s -> wf_sub (p_pages s) ts ROOT_LEVEL r -> write_ok w ->
  replay_result ts [w] s r
    (sivfs_apply_change_checkpoint on_obsolete w.1.1 w.1.2 w.2 ts 0 (r, s)) tt.
Proof.
  destruct w as [[ino off] v]. intros Hs Hwf (Hi & Ho & Hal). cbn [fst snd].
  assert (Hpg : 0 <= off / PAGE_SIZE < 2 ^ 27).
  { unfold PAGE_SIZE. split; [apply Z.div_pos; lia|apply Z.div_lt_upper_bound; lia]. }
  unfold sivfs_apply_change_checkpoint.
  rewrite iter_init_spec, (proj2 (Z.ltb_lt ino _)), (proj2 (Z.ltb_lt (off / PAGE_SIZE) _)) by lia. cbn [andb].
  rewrite (bind_step (lift _) _ (r, s) _ (r, s) eq_refl).
  destruct (run_root on_obsolete ts off v false r s ((ino / 2 ^ 18) mod 512) (tail (page_path ino (off / PAGE_SIZE)))
    Hrec Hts Hal Hs Hwf eq_refl (page_path_bounds _ _))
    as [(r' & s' & E & [Cs Cf Cu])|(er & r' & s' & E & Cf)].
  - left. exists r', s'. split; [exact E|]. split; [done|by apply (up_wf _ _ _ _ _ _ _ _ Cu)|done|apply (up_in _ _ _ _ _ _ _ _ Cu)|].
    + intros ino' pg' [Hi' Hp']. unfold view, write_word. cbn [foldl].
      rewrite (up_read _ _ _ _ _ _ _ _ Cu) by (done || apply page_path_bounds).
      change (_ :: tail (page_path ino (off / PAGE_SIZE))) with (page_path ino (off / PAGE_SIZE)).
      case_decide as Hp.
      * apply page_path_inj in Hp as [-> ->]; try done. by rewrite !Z.eqb_refl.
      * destruct (Z.eqb_spec ino' ino) as [->|], (Z.eqb_spec pg' (off / PAGE_SIZE)) as [->|]; done.
  - right. exists er, r', s'. split; [exact E|exact Cf].
Qed.

(** Without a write: the page becomes the checkpoint's own, nothing reads differently. *)
Lemma apply_change_nowrite ino off s r : store_ok ts s -> wf_sub (p_pages s) ts ROOT_LEVEL r ->
  write_ok (ino, off, 0) ->
  (exists r' s', sivfs_apply_change_checkpoint on_obsolete ino off 0 ts SIVFS_APPLY_CHANGE_CP_NOWRITE (r, s)
      = (Ok tt, (r', s')) /\ store_ok ts s' /\ wf_sub (p_pages s') ts ROOT_LEVEL r' /\
     frame (p_pages s) (p_pages s') (in_sub (p_pages s) ts ROOT_LEVEL r) /\
     (forall ino' pg', page_ok ino' pg' -> view (p_pages s') r' ino' pg' = view (p_pages s) r ino' pg') /\
     exists q, sivfs_checkpoint_traverse F r' ino off (p_pages s') = Ok (Some q) /\ owned (p_pages s') ts q)
  \/ (exists e r' s', sivfs_apply_change_checkpoint on_obsolete ino off 0 ts SIVFS_APPLY_CHANGE_CP_NOWRITE (r, s)
      = (Err e, (r', s')) /\ frame (p_pages s) (p_pages s') (in_sub (p_pages s) ts ROOT_LEVEL r)).
Proof.
  intros Hs Hwf (Hi & Ho & Hal).
  assert (Hpg : 0 <= off / PAGE_SIZE < 2 ^ 27).
  { unfold PAGE_SIZE. split; [apply Z.div_pos; lia|apply Z.div_lt_upper_bound; lia]. }
  assert (Hit : sivfs_checkpoint_iter_init ino off = Ok (page_path ino (off / PAGE_SIZE))).
  { by rewrite iter_init_spec, (proj2 (Z.ltb_lt ino _)), (proj2 (Z.ltb_lt (off / PAGE_SIZE) _)) by lia. }
  unfold sivfs_apply_change_checkpoint. rewrite Hit, (bind_step (lift _) _ (r, s) _ (r, s) eq_refl).
  destruct (run_root on_obsolete ts off 0 true r s ((ino / 2 ^ 18) mod 512) (tail (page_path ino (off / PAGE_SIZE)))
    Hrec Hts Hal Hs Hwf eq_refl (page_path_bounds _ _))
    as [(r' & s' & E & [Cs Cf Cu])|(er & r' & s' & E & Cf)].
  2: { right. exists er, r', s'. split; [exact E|exact Cf]. }
  left. exists r', s'. split; [exact E|]. pose proof (up_wf _ _ _ _ _ _ _ _ Cu) as Hwf'. split_and!; try done.
  - intros ino' pg' Hp. unfold view. rewrite (up_read _ _ _ _ _ _ _ _ Cu) by (done || apply page_path_bounds).
    case_decide as Hpp; [by rewrite Hpp|done].
  - destruct (up_leaf _ _ _ _ _ _ _ _ Cu) as [Hnz Hown]. eexists. split; [|exact Hown].
    unfold sivfs_checkpoint_traverse, sivfs_checkpoint_traverse_partial. rewrite Hit. cbn [rbind].
    by apply (traverse_leaf (p_pages s') ts ROOT_LEVEL r' (page_path ino (off / PAGE_SIZE)) Hwf' eq_refl (page_path_bounds _ _)).
Qed.

(** A fold of replaying bodies. *)
Lemma foldM_replays {A} (body : A -> M rstate wstep) (wr : A -> list (Z * Z * Z)) l :
  (forall a s r, a ∈ l -> store_ok ts s -> wf_sub (p_pages s) ts ROOT_LEVEL r ->
     replay_result ts (wr a) s r (body a (r, s)) Continue) ->
  forall s r, store_ok ts s -> wf_sub (p_pages s) ts ROOT_LEVEL r ->
  replay_result ts (l ≫= wr) s r (foldM body l (r, s)) tt.
Proof.
  induction l as [|a l IH]; intros Hb s r Hs Hwf.
  - left. exists r, s. split; [done|by apply replayed_refl].
  - cbn [foldM]. destruct (Hb a s r ltac:(left) Hs Hwf) as [(r1 & s1 & E1 & R1)|(e & r1 & s1 & E1 & O1)].
    2: { right. exists e, r1, s1. by rewrite (bind_err _ _ _ _ _ E1). }
    rewrite (bind_step _ _ _ _ _ E1).
    destruct (IH (fun a s r Ha => Hb a s r ltac:(by right)) s1 r1 (rp_store _ _ _ _ _ _ R1) (rp_wf _ _ _ _ _ _ R1))
      as [(r2 & s2 & E2 & R2)|(e & r2 & s2 & E2 & O2)].
    + left. exists r2, s2. split; [done|]. by eapply replayed_trans.
    + right. exists e, r2, s2. split; [done|]. by eapply replayed_frame.
Qed.

Definition wse_write (e : wse) : Z * Z * Z := (e_ino e, e_offset e, e_value e).

(** The committed writes of a log entry. *)
Definition entry_writes (e : sivfs_log_entry) : list (Z * Z * Z) :=
  if le_aborted e then []
  else (fun '(ino, off, _, v) => (ino, off, v)) <$> (ws_contents (le_ws e)).2.

Lemma entry_writes_repr e es : ws_repr (le_ws e) es ->
  entry_writes e = if le_aborted e then [] else wse_write <$> es.
Proof.
  intros Hr. unfold entry_writes. destruct (le_aborted e); [done|].
  rewrite (ws_contents_repr _ _ Hr). cbn [snd]. rewrite <- list_fmap_compose. by apply list_fmap_ext.
Qed.

Lemma apply_log_entry_replays e s r : (exists es, ws_repr (le_ws e) es) -> Forall write_ok (entry_writes e) ->
  store_ok ts s -> wf_sub (p_pages s) ts ROOT_LEVEL r ->
  replay_result ts (entry_writes e) s r (apply_log_entry on_obsolete ts e (r, s)) Continue.
Proof.
  intros [es Hr] Hok Hs Hwf. rewrite (entry_writes_repr _ _ Hr) in *. unfold apply_log_entry.
  destruct (le_aborted e).
  { left. exists r, s. split; [done|by apply replayed_refl]. }
  set (body' := fun w : wse => do! sivfs_apply_change_checkpoint on_obsolete (e_ino w) (e_offset w) (e_value w) ts 0 in
                ret Continue : M rstate wstep).
  assert (Hwalk : forall st, ws_walk (le_ws e) (fun ent _ =>
        let buf := ws_entries (le_ws e) in
        let! ino := lift (rd buf ent) in
        let! file_offset := lift (rd buf (ent + 1)) in
        let! value := lift (rd buf (ent + 4)) in
        do! sivfs_apply_change_checkpoint on_obsolete ino file_offset value ts 0 in
        ret Continue) st = foldM body' es st).
  { intros st. apply (ws_walk_encoded _ _ _ _ _ Hr). intros i w st' Hb _.
    cbn beta zeta. destruct (rd_fields _ _ _ Hb) as (-> & -> & _ & ->). done. }
  destruct (foldM_replays body' (fun w => [wse_write w]) es) with (s := s) (r := r)
    as [(r' & s' & E & R)|(er & r' & s' & E & O)]; try done.
  - intros w s0 r0 Hw Hs0 Hwf0. rewrite Forall_fmap, Forall_forall in Hok.
    destruct (apply_change_replays (wse_write w) s0 r0 Hs0 Hwf0 (Hok w Hw)) as [(r1 & s1 & E & R)|(er & r1 & s1 & E & O)].
    + left. exists r1, s1. split; [|done]. unfold body'. by rewrite (bind_step _ _ _ _ _ E).
    + right. exists er, r1, s1. split; [|done]. unfold body'. by rewrite (bind_err _ _ _ _ _ E).
  - left. exists r', s'. split; [by rewrite (bind_step _ _ _ tt (r', s')) by (by rewrite Hwalk)|].
    replace (wse_write <$> es) with (es ≫= (fun w => [wse_write w])); [done|].
    clear. induction es as [|w es IH]; [done|]. rewrite bind_cons, fmap_cons, IH. done.
  - right. exists er, r', s'. split; [by rewrite (bind_err _ _ _ er (r', s')) by (by rewrite Hwalk)|done].
Qed.
End replay.

(** ** The replay of the log *)

Lemma log_replay st lo n on_obsolete latest next s r :
  log_view st lo n -> records_only on_obsolete -> lo <= latest + 1 -> latest < next <= n ->
  Forall write_ok (log_slice st (latest + 1) (Z.to_nat (next - latest)) ≫= entry_writes) ->
  store_ok next s -> wf_sub (p_pages s) next ROOT_LEVEL r ->
  replay_result next (log_slice st (latest + 1) (Z.to_nat (next - latest)) ≫= entry_writes) s r
    (_sivfs_make_checkpoint on_obsolete st latest next (r, s)) tt.
Proof.
  intros Hv Hrec Hlo Hn Hok Hs Hwf. pose proof (lv_n _ _ _ Hv). pose proof (lv_lo _ _ _ Hv).
  unfold _sivfs_make_checkpoint. rewrite (proj2 (Z.eqb_neq _ _)) by lia.
  rewrite uadd_small by u64_lia.
  destruct (ts_to_log_entry_ok _ _ _ Hv (latest + 1) next ltac:(lia)) as (p & Hl & Hp).
  rewrite Hl. rewrite (bind_step (lift _) _ (r, s) _ (r, s) eq_refl).
  destruct (lv_ent _ _ _ Hv _ _ Hp) as (e & He & Hts & _). rewrite He.
  rewrite (bind_step (lift _) _ (r, s) e (r, s) eq_refl). rewrite (proj2 (Z.ltb_ge _ _)) by lia.
  set (k := Z.to_nat (next - (latest + 1))).
  replace (Z.to_nat (next - latest)) with (1 + k)%nat in * by (unfold k; lia).
  rewrite (log_iter_slice _ _ _ Hv _ _ next k (latest + 1)) by (unfold log_fuel, k; done || lia).
  apply foldM_replays; try done. intros a s0 r0 Ha Hs0 Hwf0.
  apply apply_log_entry_replays; try done; [lia| |].
  - pose proof (view_slice_repr _ _ _ (latest + 1) (1 + k) Hv Hlo ltac:(unfold k; lia)) as Hf.
    rewrite Forall_forall in Hf. by apply Hf.
  - apply Forall_forall. intros w Hw. rewrite Forall_forall in Hok. apply Hok.
    apply list_elem_of_bind. by exists a.
Qed.

(** ** What every outcome keeps *)

(** The zero pages are the same, the allocator offers pages that are not in
    use, and there is room for [k] more obsoleted pages. *)
Definition quiet (z : list Z) (k : Z) (s : pstore) : Prop :=
  p_zero_pxd s = z /\ supply_fresh (p_pages s) (p_supply s) /\ stack_room k s.

Lemma quiet_le z k k' s : k' <= k -> quiet z k s -> quiet z k' s.
Proof. intros ? (? & ? & ?). split_and!; [done|done|by eapply stack_room_le]. Qed.

Lemma load_page_keeps P pa : keeps P (load_page pa).
Proof. intros s H. done. Qed.

Lemma store_page_keeps z k pa p : keeps (quiet z k) (store_page pa p).
Proof.
  intros s (Hz & Hs & Hr). unfold store_page. destruct (p_pages s !! pa) eqn:E; [|done].
  split_and!; [done| |done]. eapply supply_fresh_sub; [exact Hs|]. intros q. simpl.
  rewrite lookup_insert. case_decide; subst; eauto.
Qed.

Lemma put_page_keeps z k pa : keeps (quiet z k) (sivfs_put_checkpoint_page pa).
Proof.
  intros s (Hz & Hs & Hr). unfold sivfs_put_checkpoint_page. repeat case_match; try done.
  split_and!; [done| |done]. eapply supply_fresh_sub; [exact Hs|]. intros q [x Hx]. simpl in Hx.
  apply lookup_delete_Some in Hx as [_ Hx]. eauto.
Qed.

Lemma new_page_quiet z ts lvl s : quiet z 0 s ->
  match sivfs_new_checkpoint_page 0 ts lvl s with
  | (Ok _, s') => quiet z 1 s'
  | (_, s') => quiet z 0 s'
  end.
Proof.
  intros Hq. assert (Hq' := Hq). destruct Hq' as (Hz & Hs & Hr). unfold sivfs_new_checkpoint_page.
  assert (Htail : forall o rest, p_supply s = o :: rest -> quiet z 1 (set_supply rest s)).
  { intros o rest E. split_and!; [done| |by apply (stack_room_take s _ o rest 0)].
    rewrite E in Hs. by eapply supply_fresh_tail. }
  destruct (_ <? _); [done|]. destruct (p_supply s) as [|[sp|] rest] eqn:E; [done| |eapply (quiet_le _ 1); [lia|by eapply Htail]].
  pose proof (Htail _ _ eq_refl) as Ht. destruct (sp_pginfo sp); [|eapply (quiet_le _ 1); [lia|exact Ht]].
  destruct (sp_highmem sp); [done|]. destruct Ht as (? & _ & Hr1). split; [done|]. split; [by apply supply_fresh_take|exact Hr1].
Qed.

Section quiet.
Context (on_obsolete : Z -> M pstore unit) (Hrec : records_only on_obsolete) (z : list Z).

Lemma on_obsolete_quiet q s : quiet z 1 s -> quiet z 0 (on_obsolete q s).2.
Proof.
  intros (Hz & Hs & Hr). destruct (Hrec q s Hr) as (r & s' & -> & _ & Hp & Hsu & Hzp & Hr'). cbn [snd].
  split_and!; [by rewrite <- Hz|by rewrite Hp, Hsu|done].
Qed.

Lemma after_new_page {A} ts lvl (k : Z -> M pstore A) :
  (forall n s, quiet z 1 s -> quiet z 0 (k n s).2) ->
  keeps (quiet z 0) (bind (sivfs_new_checkpoint_page 0 ts lvl) k).
Proof.
  intros Hk s Hq. pose proof (new_page_quiet z ts lvl s Hq) as Hn. unfold bind.
  destruct (sivfs_new_checkpoint_page 0 ts lvl s) as [[n| | |] s']; try done. by apply Hk.
Qed.

Lemma cow_page_keeps ts level e : keeps (quiet z 0) (cow_page on_obsolete ts level e).
Proof.
  unfold cow_page. destruct (e =? 0).
  - apply after_new_page. intros n s Hq. apply (quiet_le _ 1); [lia|]. revert s Hq.
    apply (keeps_bind (quiet z 1)); [by intros s ?|intros _].
    apply keeps_bind; [apply load_page_keeps|intros p].
    apply keeps_bind; [by intros s ?|intros w].
    apply keeps_bind; [apply store_page_keeps|intros _; by intros s ?].
  - apply keeps_bind; [apply load_page_keeps|intros old]. set (iz := sivfs_is_zero_page _ _ _).
    destruct (_ =? _); [by intros s ?|]. apply after_new_page. intros n s Hq.
    set (Q := fun s : pstore => quiet z 0 s).
    unfold bind at 1. cbn [modify]. set (s1 := add_new s). assert (H1 : quiet z 1 s1) by done. clearbody s1.
    unfold bind at 1. pose proof (load_page_keeps (quiet z 1) n s1 H1) as H2.
    destruct (load_page n s1) as [[p| | |] s2]; try (eapply (quiet_le _ 1); [lia|exact H2]).
    unfold bind at 1. pose proof (store_page_keeps z 1 n (with_words (cp_words old) p) s2 H2) as H3.
    destruct (store_page n _ s2) as [[u| | |] s3]; try (eapply (quiet_le _ 1); [lia|exact H3]).
    destruct iz; [eapply (quiet_le _ 1); [lia|exact H3]|].
    set (pa := pa_of e). unfold bind at 1. pose proof (store_page_keeps z 1 pa (with_obsoleted ts old) s3 H3) as H4.
    destruct (store_page pa _ s3) as [[u'| | |] s4]; try (eapply (quiet_le _ 1); [lia|exact H4]).
    pose proof (on_obsolete_quiet pa s4 H4) as H5. destruct (on_obsolete pa s4) as [[u''|er| |] s5]; try done.
    pose proof (put_page_keeps z 0 n s5 H5) as H6. by destruct (sivfs_put_checkpoint_page n s5) as [[] s6].
Qed.

(** On the store behind the root pointer. *)
Definition rquiet (s : rstate) : Prop := quiet z 0 s.2.

Lemma on_ps_keeps {A} (m : M pstore A) : keeps (quiet z 0) m -> keeps rquiet (on_ps m).
Proof. intros Hm [r s] Hq. unfold on_ps. specialize (Hm s Hq). simpl. by destruct (m s). Qed.

Lemma apply_levels_keeps ts off v nowrite level : forall sl iter,
  keeps rquiet (apply_levels on_obsolete ts off v nowrite level sl iter).
Proof.
  assert (Hread : forall sl, keeps rquiet (read_slot sl)).
  { intros [|pg o]; [by intros s ?|]. apply keeps_bind; [apply on_ps_keeps, load_page_keeps|intros p; by intros s ?]. }
  assert (Hwrite : forall sl e, keeps rquiet (write_slot sl e)).
  { intros [|pg o] e; [by intros s ?|]. apply keeps_bind; [apply on_ps_keeps, load_page_keeps|intros p].
    apply keeps_bind; [by intros s ?|intros p']. apply on_ps_keeps, store_page_keeps. }
  assert (Hleaf : forall n, keeps rquiet (on_ps (apply_leaf off v nowrite n))).
  { intros n. apply on_ps_keeps. apply keeps_bind; [apply load_page_keeps|intros p].
    apply keeps_bind; [by intros s ?|intros w]. apply store_page_keeps. }
  induction level as [|l IH]; intros sl iter; cbn [apply_levels];
    (apply keeps_bind; [apply Hread|intros e]; apply keeps_bind; [apply on_ps_keeps, cow_page_keeps|intros n]).
  - apply keeps_bind; [apply Hleaf|intros _]. apply keeps_bind; [apply Hwrite|intros _; by intros s ?].
  - apply keeps_bind; [by intros s ?|intros _]. apply keeps_bind; [apply Hwrite|intros _].
    apply keeps_bind; [by intros s ?|intros o]. apply IH.
Qed.

Lemma apply_change_keeps ino off v ts opt :
  keeps rquiet (sivfs_apply_change_checkpoint on_obsolete ino off v ts opt).
Proof. apply keeps_bind; [by intros s ?|intros it]. apply apply_levels_keeps. Qed.

Lemma replay_keeps st latest next : keeps rquiet (_sivfs_make_checkpoint on_obsolete st latest next).
Proof.
  unfold _sivfs_make_checkpoint. destruct (_ =? _); [by intros s ?|].
  apply keeps_bind; [by intros s ?|intros [log|]; [|by intros s ?]].
  apply keeps_bind; [by intros s ?|intros e]. destruct (_ <? _); [by intros s ?|].
  apply log_iter_keeps. intros e'. unfold apply_log_entry. destruct (le_aborted e'); [by intros s ?|].
  apply keeps_bind; [|intros _; by intros s ?]. apply ws_for_each_keeps. intros ent info. cbv zeta.
  do 3 (apply keeps_bind; [by intros s ?|intros ?]). apply keeps_bind; [apply apply_change_keeps|intros _; by intros s ?].
Qed.
End quiet.

(** ** A finished checkpoint *)

(** For a later timestamp a tree is just as well formed, and owns nothing. *)
Lemma wf_sub_later h ts ts' level : ts < ts' -> forall pa, wf_sub h ts level pa ->
  wf_sub h ts' level pa /\ forall q, ~ in_sub h ts' level pa q.
Proof.
  intros Hlt. assert (Hno : forall pa p, node_ok ts pa p -> h !! pa = Some p -> ~ owned h ts' pa).
  { intros pa p [_ [Hz|Hle]] Hp (x & Hx & Hzx & Ht); simplify_eq; [congruence|lia]. }
  assert (Hnode : forall pa p, node_ok ts pa p -> node_ok ts' pa p).
  { intros pa p [? [?|?]]; split; [done|by left|done|right; lia]. }
  induction level as [|l IH]; intros pa [->|(p & Hp & Hl & Hn & Hch)];
    try (split; [by left|by intros q [? _]]).
  - split; [right; exists p; by auto|]. intros q (_ & x & Hx & [[-> Ho]|[]]). by eapply Hno.
  - destruct Hch as [Hch Hdis]. assert (Hsub : forall o w, cp_words p !! o = Some w ->
      wf_sub h ts' l (pa_of w) /\ forall q, ~ in_sub h ts' l (pa_of w) q).
    { intros o w Hw. apply IH. by apply (Hch o). }
    split.
    + right. exists p. split_and!; [done|done|by auto| |].
      * intros o w Hw. destruct (Hch o w Hw) as [? _], (Hsub o w Hw) as [? Hn']. split_and!; [done|done|apply Hn'].
      * intros o1 o2 w1 w2 q H1 _ _ Hq _. by apply (Hsub o1 w1 H1) in Hq.
    + intros q (_ & x & Hx & [[-> Ho]|(o & w & Hw & Hq)]); [by eapply Hno|]. simplify_eq.
      by apply (Hsub o w Hw) in Hq.
Qed.

(** ** The shared zero pages *)

Definition zero_upto (k : nat) (s : pstore) : Prop :=
  p_zero_pxd s !! 0%nat = Some ZERO_PAGE /\ is_Some (p_pages s !! ZERO_PAGE) /\
  supply_fresh (p_pages s) (p_supply s) /\ stack_room 0 s /\
  (length (p_zero_pxd s) = SIVFS_CHECKPOINT_FOFFSET_LEVELS) /\
  forall l, (l < k)%nat -> exists z, p_zero_pxd s !! l = Some z /\ z <> 0 /\ pa_ok F z /\
    forall ts, zeroes (p_pages s) ts l z.

Lemma zero_upto_store ts s : zero_upto SIVFS_CHECKPOINT_FOFFSET_LEVELS s -> store_ok ts s.
Proof.
  intros (H0 & Hz & Hs & Hk & _ & Hl). split; try done. intros l Hl'. destruct (Hl l Hl') as (z & ? & ? & ? & ?). eauto 10.
Qed.

(** A zero page over zero children. *)
Lemma zero_node h ts l z p fill : h !! z = Some p -> cp_is_zero p = true -> z <> 0 -> pa_ok F z ->
  cp_words p = replicate WORDS_PER_PAGE fill -> (pa_of fill = 0 -> fill = 0) ->
  zeroes h ts l (pa_of fill) -> zeroes h ts (S l) z.
Proof.
  intros Hp Hz Hnz Hok Hw Hf (Zw & Zi & Zr).
  assert (Hfill : forall o w, cp_words p !! o = Some w -> w = fill).
  { intros o w. rewrite Hw. by intros [-> _]%lookup_replicate. }
  assert (Hno : ~ owned h ts z).
  { intros (x & Hx & Hzx & _). simplify_eq. unfold sivfs_is_zero_page in Hzx. rewrite Hz, orb_true_r in Hzx. done. }
  split_and!.
  - right. exists p. split_and!; [done|by rewrite Hw, length_replicate| | |].
    { split; [done|left]. unfold sivfs_is_zero_page. by rewrite Hz, orb_true_r. }
    + intros o w ->%Hfill. split_and!; [done|done|apply Zi].
    + intros o1 o2 w1 w2 q ->%Hfill _ _ Hq. by apply Zi in Hq.
  - intros q (_ & x & Hx & [[-> ?]|(o & w & Hwo & Hq)]); [done|]. simplify_eq. apply Hfill in Hwo. subst. by apply Zi in Hq.
  - intros [|o path] Hl; [done|]. injection Hl as Hl. cbn [sub_read]. rewrite Hp, (proj2 (Z.eqb_neq _ _)) by done.
    destruct (cp_words p !! Z.to_nat o) as [w|] eqn:Hwo; cbn [default from_option id].
    + apply Hfill in Hwo. subst w. by apply Zr.
    + rewrite (Z.land_0_l (PTE_PFN_MASK F) : pa_of 0 = 0). by apply zeroes_null.
Qed.

Lemma zero_upto_fill level s : zero_upto (S level) s -> (level < 3)%nat ->
  exists fill, sivfs_mk_zero_checkpoint_page F ZERO_PAGE (S level) s = Ok (replicate WORDS_PER_PAGE fill) /\
    (pa_of fill = 0 -> fill = 0) /\ forall ts, zeroes (p_pages s) ts level (pa_of fill).
Proof.
  intros (H0 & _ & _ & _ & _ & Hl) Hlt. destruct (Hl level ltac:(lia)) as (z & Hz & Hnz & Hok & Hzz).
  destruct (pxd_roundtrip z Hok) as [R1 R2].
  unfold sivfs_mk_zero_checkpoint_page. cbn [Nat.eqb]. destruct level as [|l].
  - rewrite H0 in Hz. injection Hz as <-. eexists. split; [done|]. rewrite R2. split; [done|]. done.
  - unfold SIVFS_CHECKPOINT_FOFFSET_LEVELS. rewrite (proj2 (Nat.eqb_neq _ _)), (proj2 (Nat.leb_le _ _)) by lia.
    cbn [Nat.sub]. rewrite Hz. eexists. split; [done|]. rewrite R1. split; done.
Qed.

(** The store with one more zero page. *)
Definition zero_added (level : nat) (sp : supply_page) (rest : list (option supply_page)) (w : list Z) (s : pstore) : pstore :=
  set_pages (<[sp_pa sp := with_words w (with_zero true (new_page_of sp 0 (Z.of_nat level)))]> (p_pages s))
    (set_zero_pxd (<[level := sp_pa sp]> (p_zero_pxd s)) (set_count (p_count s + 1) (set_supply rest s))).

Lemma init_zero_step level k s : zero_upto (S level) s -> (level < 3)%nat ->
  (exists sp rest w, p_supply s = Some sp :: rest /\ zero_upto (S (S level)) (zero_added (S level) sp rest w s) /\
     init_zero_loop F ZERO_PAGE (S level) (S k) s = init_zero_loop F ZERO_PAGE (S (S level)) k (zero_added (S level) sp rest w s))
  \/ (exists s', init_zero_loop F ZERO_PAGE (S level) (S k) s = (Err ENOMEM, s') /\ p_pages s' = p_pages s /\ p_zero_pxd s' = p_zero_pxd s).
Proof.
  intros Hu Hlt. assert (Hu' := Hu). destruct Hu' as (H0 & Hzp & Hsup & Hroom & Hlen & Hl).
  cbn [init_zero_loop].
  destruct (new_page_ok 0 (Z.of_nat (S level)) s Hsup) as [(sp & rest & Es & E)|(s1 & E & Ep)];
    [left|right; exists s1; split; [by rewrite (bind_err _ _ _ _ _ E)|split; [done|]]].
  2: { pose proof (new_page_quiet (p_zero_pxd s) 0 (Z.of_nat (S level)) s (conj eq_refl (conj Hsup Hroom))) as Hq. rewrite E in Hq. apply Hq. }
  rewrite (bind_step _ _ _ _ _ E). rewrite Es in Hsup.
  destruct (proj1 Hsup 0%nat sp eq_refl) as (Hn & Hnz & Hok & _ & Hlsp).
  set (n := sp_pa sp) in *. set (pn := new_page_of sp 0 (Z.of_nat (S level))).
  set (s1 := set_pages (<[n := pn]> (p_pages s)) (set_count (p_count s + 1) (set_supply rest s))).
  assert (Hl1 : p_pages s1 !! n = Some pn) by apply lookup_insert_eq.
  rewrite (bind_step _ _ _ _ _ (load_page_ok _ _ _ Hl1)), (bind_step _ _ _ _ _ (store_page_ok _ _ _ _ Hl1)).
  rewrite (bind_step (modify _) _ _ tt _ eq_refl). set (s2 := set_zero_pxd _ _).
  destruct (zero_upto_fill level s Hu Hlt) as (fill & Ew & Hf0 & Hzf).
  assert (Ew2 : sivfs_mk_zero_checkpoint_page F ZERO_PAGE (S level) s2 = Ok (replicate WORDS_PER_PAGE fill)).
  { rewrite <- Ew. unfold sivfs_mk_zero_checkpoint_page. cbn [Nat.eqb]. unfold s2. cbn [p_zero_pxd set_zero_pxd set_pages].
    destruct (level =? 0)%nat; [done|]. destruct (_ <=? _)%nat; [|done].
    rewrite Nat.sub_succ, Nat.sub_0_r. cbn [p_zero_pxd s1 set_pages set_count set_supply].
    by rewrite list_lookup_insert_ne by lia. }
  rewrite (bind_step (fun s => (sivfs_mk_zero_checkpoint_page F ZERO_PAGE (S level) s, s)) _ s2 _ s2) by (by rewrite Ew2).
  assert (Hl2 : p_pages s2 !! n = Some (with_zero true pn)) by apply lookup_insert_eq.
  rewrite (bind_step _ _ _ _ _ (store_page_ok _ _ _ _ Hl2)).
  set (p3 := with_words (replicate WORDS_PER_PAGE fill) _). set (s3 := zero_added (S level) sp rest (replicate WORDS_PER_PAGE fill) s).
  assert (E3 : p_pages s3 = <[n := p3]> (p_pages s)) by done.
  exists sp, rest, (replicate WORDS_PER_PAGE fill). split; [done|]. split.
  2: { f_equal. unfold s3, zero_added, s2, s1. cbn [p_pages set_pages set_zero_pxd set_supply set_count]. by rewrite !insert_insert_eq. }
  assert (Hf3 : frame (p_pages s) (p_pages s3) (fun _ => False)) by (rewrite E3; by apply frame_insert).
  change (zero_added (S level) sp rest (replicate WORDS_PER_PAGE fill) s) with s3. split_and!.
  - simpl. by rewrite list_lookup_insert_ne.
  - rewrite E3, lookup_insert. case_decide; eauto.
  - rewrite E3. by apply supply_fresh_take.
  - eapply (stack_room_le _ (0 + 1)); [lia|]. by apply (stack_room_take s s3 _ rest 0 Hroom Es).
  - simpl. by rewrite length_insert.
  - intros l Hle. simpl. destruct (decide (l = S level)) as [->|Hne].
    + exists n. rewrite list_lookup_insert_eq by (rewrite Hlen; unfold SIVFS_CHECKPOINT_FOFFSET_LEVELS; lia).
      split_and!; try done. intros ts. fold (p_pages s3).
      apply (zero_node _ ts level n p3 fill); try done; [apply lookup_insert_eq|].
      apply (zeroes_frame (p_pages s) _ ts (fun _ => False)); done.
    + rewrite list_lookup_insert_ne by done. destruct (Hl l ltac:(lia)) as (z & ? & ? & ? & Hzz). exists z.
      split_and!; try done. intros ts. apply (zeroes_frame (p_pages s) _ ts (fun _ => False)); done.
Qed.

(** A store with no zero pages yet: only ZERO_PAGE(0) itself. *)
Record store_init (s : pstore) : Prop := {
  si_zero_page : exists p, p_pages s !! ZERO_PAGE = Some p /\ cp_is_zero p = true /\
    cp_words p = replicate WORDS_PER_PAGE 0;
  si_zero_pa : ZERO_PAGE <> 0 /\ pa_ok F ZERO_PAGE;
  si_supply : supply_fresh (p_pages s) (p_supply s);
  si_stack : stack_room 0 s;
  si_pxd : length (p_zero_pxd s) = SIVFS_CHECKPOINT_FOFFSET_LEVELS;
  si_refs : p_zero_refs s = 0
}.

Lemma init_zero_upto s : store_init s -> zero_upto 1 (set_zero_pxd (<[0%nat := ZERO_PAGE]> (p_zero_pxd s)) s).
Proof.
  intros [(p & Hp & Hz & Hw) [Hnz Hok] Hsup Hroom Hlen _]. unfold zero_upto. cbn [p_zero_pxd set_zero_pxd p_pages p_supply].
  assert (Hl0 : <[0%nat := ZERO_PAGE]> (p_zero_pxd s) !! 0%nat = Some ZERO_PAGE).
  { apply list_lookup_insert_eq. rewrite Hlen. unfold SIVFS_CHECKPOINT_FOFFSET_LEVELS. lia. }
  split_and!; [done|eauto|done|done|by rewrite length_insert|].
  intros l Hl. replace l with 0%nat by lia. exists ZERO_PAGE. split_and!; try done. intros ts. split_and!.
  - right. exists p. rewrite Hw, length_replicate. split_and!; try done. split; [done|left].
    unfold sivfs_is_zero_page. by rewrite Z.eqb_refl.
  - intros q (_ & x & Hx & [[-> (y & Hy & Hzy & _)]|[]]). simplify_eq.
    unfold sivfs_is_zero_page in Hzy. by rewrite Z.eqb_refl in Hzy.
  - intros path _. simpl. by rewrite Hp, (proj2 (Z.eqb_neq _ _)).
Qed.

Lemma get_zero_pages_ok s : store_init s ->
  (exists s', sivfs_get_zero_checkpoint_pages F ZERO_PAGE s = (Ok tt, s') /\
     zero_upto SIVFS_CHECKPOINT_FOFFSET_LEVELS s')
  \/ (exists r s', sivfs_get_zero_checkpoint_pages F ZERO_PAGE s = (r, s') /\ r <> Ok tt).
Proof.
  intros Hi. unfold sivfs_get_zero_checkpoint_pages.
  rewrite (bind_step (gets p_zero_refs) _ s _ s eq_refl), (si_refs _ Hi). cbn [Z.eqb].
  set (s0 := set_zero_pxd (<[0%nat := ZERO_PAGE]> (p_zero_pxd s)) s).
  assert (Hloop : (exists s', init_zero_loop F ZERO_PAGE 1 3 s0 = (Ok tt, s') /\ zero_upto 4 s') \/
    exists s', init_zero_loop F ZERO_PAGE 1 3 s0 = (Err ENOMEM, s')).
  { destruct (init_zero_step 0 2 s0 (init_zero_upto s Hi) ltac:(lia)) as [(? & ? & ? & _ & U1 & ->)|(? & ? & _)]; [|by right; eexists]. set (s1 := zero_added _ _ _ _ _) in U1 |- *.
    destruct (init_zero_step 1 1 s1 U1 ltac:(lia)) as [(? & ? & ? & _ & U2 & ->)|(? & ? & _)]; [|by right; eexists]. set (s2 := zero_added _ _ _ _ _) in U2 |- *.
    destruct (init_zero_step 2 0 s2 U2 ltac:(lia)) as [(? & ? & ? & _ & U3 & ->)|(? & ? & _)]; [|by right; eexists].
    left. by eexists. }
  cbn [Z.eqb]. unfold _sivfs_init_zero_checkpoint_pages.
  rewrite bind_assoc, (bind_step _ _ s tt s0) by done.
  destruct Hloop as [(s' & E & U)|(s' & E)]; [left|right].
  - erewrite bind_step by (cbv beta; fold s0; by rewrite E). eexists. split; [reflexivity|]. exact U.
  - destruct (_sivfs_destroy_zero_checkpoint_pages s') as [[a|e| |] s''] eqn:Ed.
    + exists (Err ENOMEM), s''. split; [|done]. apply bind_err. cbv beta. rewrite E, Ed. done.
    + exists (Err e), s''. split; [|done]. apply bind_err. cbv beta. rewrite E, Ed. done.
    + exists Fault, s''. split; [|done]. unfold bind. rewrite E, Ed. done.
    + exists OutOfFuel, s''. split; [|done]. unfold bind. rewrite E, Ed. done.
Qed.
End make_checkpoint.

(** ** A concrete store *)

Definition ZERO_PA : Z := 4096.
Definition sample_supply (n : nat) : list (option supply_page) :=
  (fun k => Some (mk_supply (4096 * (2 + Z.of_nat k)) (replicate WORDS_PER_PAGE 7) false true)) <$> seq 0 n.
Definition base_store : pstore :=
  mk_ps {[ZERO_PA := mk_cpage (replicate WORDS_PER_PAGE 0) 0 SIVFS_INVALID_TS 0 true 0 1 0 false]}
    1 (sample_supply 40) (replicate 4 0) 0 0 zero_stack.
Definition sample_store : pstore := (sivfs_get_zero_checkpoint_pages x86_flags ZERO_PA base_store).2.

Lemma sample_supply_fresh n h : (forall a, is_Some (h !! a) -> a <= 4096) ->
  forallb (fun k => Z.land (4096 * (2 + Z.of_nat k)) (PTE_PFN_MASK x86_flags) =? 4096 * (2 + Z.of_nat k)) (seq 0 n) = true ->
  supply_fresh x86_flags h (sample_supply n).
Proof.
  intros Hh Hb. rewrite forallb_forall in Hb. split.
  - intros i sp Hi. unfold sample_supply in Hi. apply list_lookup_fmap_Some in Hi as (k & [= ->] & Hk).
    cbn [sp_pa sp_highmem sp_words]. apply list_elem_of_lookup_2, list_elem_of_In in Hk.
    specialize (Hb k Hk). split_and!; try done.
    + destruct (h !! (4096 * (2 + Z.of_nat k))) eqn:E; [|done]. specialize (Hh _ ltac:(eauto)). lia.
    + lia.
    + by apply Z.eqb_eq.
  - intros i j sp sp' Hi Hj E. unfold sample_supply in Hi, Hj.
    apply list_lookup_fmap_Some in Hi as (k & [= ->] & Hk), Hj as (k' & [= ->] & Hk').
    apply lookup_seq in Hk as [-> _], Hk' as [-> _]. cbn [sp_pa] in E. lia.
Qed.

Lemma base_store_init : store_init x86_flags ZERO_PA base_store.
Proof.
  split; try done.
  - eexists. split; [apply lookup_insert_eq|]. done.
  - apply sample_supply_fresh; [|vm_compute; reflexivity].
    intros a [x Hx]. change (p_pages base_store) with ({[ZERO_PA := mk_cpage (replicate WORDS_PER_PAGE 0) 0 SIVFS_INVALID_TS 0 true 0 1 0 false]} : gmap Z cpage) in Hx.
    apply lookup_singleton_Some in Hx as [<- _]. done.
Qed.

Lemma sample_store_zero : zero_upto x86_flags ZERO_PA SIVFS_CHECKPOINT_FOFFSET_LEVELS sample_store.
Proof.
  unfold sample_store. destruct (get_zero_pages_ok x86_flags ZERO_PA base_store base_store_init)
    as [(s' & -> & H)|(r & s' & E & Hr)]; [exact H|].
  exfalso. apply Hr. change r with (fst (r, s')). rewrite <- E. vm_compute. by destruct s'.
Qed.

Lemma sample_store_ok ts : store_ok x86_flags ZERO_PA ts sample_store.
Proof. apply zero_upto_store, sample_store_zero. Qed.

(** ** The promises of the component, in terms of reading *)

(** Reading every page of every file of the checkpoint with root [root] gives [m]. *)
Definition reads (F : pt_flags) (h : gmap Z cpage) (root : Z) (m : Z -> Z -> list Z) : Prop :=
  forall ino pg, page_ok ino pg -> sivfs_read_checkpoint F PAGE_SIZE root ino (pg * PAGE_SIZE) h = Ok (m ino pg).

(** The tree of a checkpoint that holds no page of the one being made. *)
Definition older (F : pt_flags) (ZERO_PAGE : Z) (h : gmap Z cpage) (ts root : Z) : Prop :=
  wf_sub F ZERO_PAGE h ts ROOT_LEVEL root /\ forall q, ~ in_sub F ZERO_PAGE h ts ROOT_LEVEL root q.

(** Older checkpoints still read the same. *)
Definition older_unchanged (F : pt_flags) (ZERO_PAGE ts : Z) (h h' : gmap Z cpage) : Prop :=
  forall root m, older F ZERO_PAGE h ts root -> reads F h root m -> older F ZERO_PAGE h' ts root /\ reads F h' root m.

Section reading.
Context (F : pt_flags) (ZERO_PAGE : Z) `{HF : !PtFlagsOk F}.

Lemma reads_view h ts root : wf_sub F ZERO_PAGE h ts ROOT_LEVEL root -> reads F h root (view F h root).
Proof.
  intros Hwf ino pg [Hi Hp]. rewrite (read_checkpoint_sub F ZERO_PAGE h ts root ino (pg * PAGE_SIZE) Hwf);
    unfold PAGE_SIZE in *; [|lia|lia|by rewrite Z.mod_mul].
  by rewrite Z.div_mul.
Qed.

Lemma reads_functional h root m m' ino pg : reads F h root m -> reads F h root m' -> page_ok ino pg ->
  m ino pg = m' ino pg.
Proof. intros H H' Hp. specialize (H _ _ Hp). rewrite (H' _ _ Hp) in H. by injection H. Qed.

Lemma reads_ext h root m m' : reads F h root m -> (forall ino pg, page_ok ino pg -> m' ino pg = m ino pg) ->
  reads F h root m'.
Proof. intros H E ino pg Hp. rewrite E by done. by apply H. Qed.

Lemma old_safe_unchanged ts h h' : old_safe F ZERO_PAGE ts h h' -> older_unchanged F ZERO_PAGE ts h h'.
Proof.
  intros Ho R m [Hwf Hin] Hm. destruct (Ho R Hwf Hin) as (Hwf' & Hin' & Hr). split; [done|].
  eapply reads_ext; [by eapply reads_view|]. intros ino pg Hp.
  rewrite (reads_functional h R m (view F h R) ino pg Hm (reads_view _ _ _ Hwf) Hp). unfold view. by rewrite Hr.
Qed.

(** Any tree survives a step that only adds pages. *)
Lemma reads_frame h h' ts root : frame h h' (fun _ => False) -> wf_sub F ZERO_PAGE h ts ROOT_LEVEL root ->
  wf_sub F ZERO_PAGE h' ts ROOT_LEVEL root /\ forall m, reads F h root m -> reads F h' root m.
Proof.
  intros Hf Hwf. destruct (sub_frame F ZERO_PAGE h h' ts (fun _ => False) ROOT_LEVEL Hf ltac:(done) root) as (Hwf' & _ & Hr);
    [by intros ? _ ?|done|]. split; [done|]. intros m Hm.
  eapply reads_ext; [by eapply reads_view|]. intros ino pg Hp.
  rewrite (reads_functional h root m (view F h root) ino pg Hm (reads_view _ _ _ Hwf) Hp). unfold view. by rewrite Hr.
Qed.

Definition zero_ready (s : pstore) : Prop := zero_upto F ZERO_PAGE SIVFS_CHECKPOINT_FOFFSET_LEVELS s.

Lemma zero_ready_frame s s' : zero_ready s -> frame (p_pages s) (p_pages s') (fun _ => False) ->
  quiet F (p_zero_pxd s) 0 s' -> zero_ready s'.
Proof.
  intros (H0 & [zp Hz] & Hs & Hk & Hlen & Hl) Hf (Ezp & Hs' & Hk'). unfold zero_ready, zero_upto. rewrite Ezp.
  split_and!; try done; [by destruct (Hf _ _ Hz) as (p & Hp & _); eexists|].
  intros l Hlt. destruct (Hl l Hlt) as (z & ? & ? & ? & Hzz). exists z. split_and!; try done.
  intros ts. by apply (zeroes_frame F ZERO_PAGE (p_pages s) _ ts (fun _ => False)).
Qed.

Lemma zero_ready_quiet s : zero_ready s -> quiet F (p_zero_pxd s) 0 s.
Proof. intros (_ & _ & ? & ? & _). done. Qed.

(** The whole replay, from the latest checkpoint. *)
Lemma replay_outcome st lo n on_obsolete latest next s r :
  records_only on_obsolete -> log_view st lo n -> lo <= latest + 1 -> latest < next <= n ->
  Forall write_ok (log_slice st (latest + 1) (Z.to_nat (next - latest)) ≫= entry_writes) ->
  zero_ready s -> wf_sub F ZERO_PAGE (p_pages s) latest ROOT_LEVEL r ->
  exists res r' s', _sivfs_make_checkpoint F ZERO_PAGE on_obsolete st latest next (r, s) = (res, (r', s')) /\
    frame (p_pages s) (p_pages s') (fun _ => False) /\ zero_ready s' /\
    ((res = Ok tt /\ wf_sub F ZERO_PAGE (p_pages s') next ROOT_LEVEL r' /\
      forall m, reads F (p_pages s) r m -> reads F (p_pages s') r'
        (foldl (fun m w => write_word w m) m (log_slice st (latest + 1) (Z.to_nat (next - latest)) ≫= entry_writes)))
     \/ exists e, res = Err e).
Proof.
  intros Hrec Hv Hlo Hn Hok Hz Hwf. destruct (wf_sub_later F ZERO_PAGE (p_pages s) latest next ROOT_LEVEL ltac:(lia) r Hwf) as [Hwf' Hno].
  pose proof (zero_upto_store F ZERO_PAGE next s Hz) as Hs.
  pose proof (log_replay F ZERO_PAGE st lo n on_obsolete latest next s r Hv Hrec Hlo Hn Hok Hs Hwf') as HR.
  pose proof (replay_keeps F ZERO_PAGE on_obsolete Hrec (p_zero_pxd s) st latest next (r, s) (zero_ready_quiet s Hz)) as Hq.
  assert (HX : forall h', frame (p_pages s) h' (in_sub F ZERO_PAGE (p_pages s) next ROOT_LEVEL r) ->
    frame (p_pages s) h' (fun _ => False)) by (intros h'; by apply frame_weaken).
  destruct HR as [(r' & s' & E & R)|(e & r' & s' & E & Hf)]; rewrite E in Hq |- *; eexists _, r', s'; (split; [done|]).
  - pose proof (HX _ (rp_frame _ _ _ _ _ _ _ _ R)) as Hf. split; [done|].
    split; [by eapply zero_ready_frame|left]. split; [done|]. split; [apply (rp_wf _ _ _ _ _ _ _ _ R)|].
    intros m Hm. eapply reads_ext; [by eapply reads_view, (rp_wf _ _ _ _ _ _ _ _ R)|]. intros ino pg Hp.
    rewrite (rp_view _ _ _ _ _ _ _ _ R) by done. apply foldl_write_ext; [|done]. intros ino' pg' Hp'.
    apply (reads_functional _ _ _ _ _ _ Hm); [by eapply reads_view|done].
  - pose proof (HX _ Hf). split; [done|]. split; [by eapply zero_ready_frame|right; by eexists].
Qed.

(** What a replay of [ws] onto the checkpoint [r] promises of its outcome. *)
Definition replay_promise (ts : Z) (ws : list (Z * Z * Z)) (s : pstore) (r : Z)
    (o : res unit * rstate) : Prop :=
  match o with
  | (Ok _, (r', s')) =>
      (forall m, reads F (p_pages s) r m -> reads F (p_pages s') r' (foldl (fun m w => write_word w m) m ws)) /\
      older_unchanged F ZERO_PAGE ts (p_pages s) (p_pages s') /\
      store_ok F ZERO_PAGE ts s' /\ wf_sub F ZERO_PAGE (p_pages s') ts ROOT_LEVEL r'
  | (Err _, (_, s')) => older_unchanged F ZERO_PAGE ts (p_pages s) (p_pages s')
  | _ => False
  end.

Lemma replay_frame_safe ts r h h' : frame h h' (in_sub F ZERO_PAGE h ts ROOT_LEVEL r) -> old_safe F ZERO_PAGE ts h h'.
Proof. intros Hf. eapply old_safe_frame; [exact Hf|]. intros q. apply in_sub_owned. Qed.

Lemma replay_result_promise ts ws s r o : wf_sub F ZERO_PAGE (p_pages s) ts ROOT_LEVEL r ->
  replay_result F ZERO_PAGE ts ws s r o tt -> replay_promise ts ws s r o.
Proof.
  intros Hwf [(r' & s' & -> & R)|(e & r' & s' & -> & O)]; [|by eapply old_safe_unchanged, replay_frame_safe].
  destruct R as [Rs Rw Ro _ Rv]. split_and!; try done; [|by eapply old_safe_unchanged, replay_frame_safe].
  intros m Hm. eapply reads_ext; [by eapply reads_view|]. intros ino pg Hp. rewrite Rv by done.
  apply foldl_write_ext; [|done]. intros ino' pg' Hp'.
  apply (reads_functional _ _ _ _ _ _ Hm); [by eapply reads_view|done].
Qed.
End reading.

(** C18. Copy-on-write application of one committed word to the checkpoint being
    made: on a well-formed tree it never faults; when it succeeds, reading the
    new root gives the old contents with exactly that word changed, whatever
    mixture of absent tables, shared zero pages, pages of older checkpoints and
    pages already copied lies on the path; and, also when it runs out of memory
    half-way, every older checkpoint still reads exactly as before. *)
Theorem apply_change_copy_on_write F ZERO_PAGE `{HF : !PtFlagsOk F} vz ino off v ts s r :
  ts <> 0 -> 0 <= ino < 2 ^ 27 -> 0 <= off < 2 ^ 39 -> off mod SIZEOF_WORD = 0 ->
  store_ok F ZERO_PAGE ts s -> wf_sub F ZERO_PAGE (p_pages s) ts ROOT_LEVEL r ->
  replay_promise F ZERO_PAGE ts [(ino, off, v)] s r
    (sivfs_apply_change_checkpoint F ZERO_PAGE (sivfs_on_obsolete_page_stack vz) ino off v ts 0 (r, s)).
Proof.
  intros Hts Hi Ho Ha Hs Hwf. apply replay_result_promise; [done|].
  by apply (apply_change_replays F ZERO_PAGE _ ts (on_obsolete_page_stack_records vz) Hts (ino, off, v)).
Qed.

Lemma apply_change_copy_on_write_witness :
  store_ok x86_flags ZERO_PA 3 sample_store /\
  replay_promise x86_flags ZERO_PA 3 [(5, 4104, 42)] sample_store 0
    (sivfs_apply_change_checkpoint x86_flags ZERO_PA (sivfs_on_obsolete_page_stack (fun _ => true)) 5 4104 42 3 0 (0, sample_store)).
Proof.
  split; [apply sample_store_ok|].
  apply (apply_change_copy_on_write x86_flags ZERO_PA); try lia; [reflexivity|apply sample_store_ok|exact (or_introl eq_refl)].
Defined.

(** Making a checkpoint replays the committed log: starting from the root of
    the checkpoint at [latest], the loop over the log entries (latest, next]
    produces a root whose contents are those of the old checkpoint after all the
    writes of the transactions that committed in that interval, in log order,
    and of no aborted transaction; it never faults, and neither success nor
    failure changes what an older checkpoint reads. *)
Theorem make_checkpoint_replays_log F ZERO_PAGE `{HF : !PtFlagsOk F} st lo n vz latest next s r :
  log_view st lo n -> lo <= latest + 1 -> latest < next <= n ->
  Forall write_ok (log_slice st (latest + 1) (Z.to_nat (next - latest)) ≫= entry_writes) ->
  store_ok F ZERO_PAGE next s -> wf_sub F ZERO_PAGE (p_pages s) next ROOT_LEVEL r ->
  replay_promise F ZERO_PAGE next (log_slice st (latest + 1) (Z.to_nat (next - latest)) ≫= entry_writes) s r
    (_sivfs_make_checkpoint F ZERO_PAGE (sivfs_on_obsolete_page_stack vz) st latest next (r, s)).
Proof.
  intros Hv Hlo Hn Hok Hs Hwf. apply replay_result_promise; [done|].
  apply (log_replay F ZERO_PAGE st lo n); try done. apply on_obsolete_page_stack_records.
Qed.

Lemma make_checkpoint_replays_log_witness :
  log_slice sample_log3 1 3 ≫= entry_writes = [(7, 16, 1); (7, 4096, 2); (8, 0, 3); (7, 16, 4)] /\
  replay_promise x86_flags ZERO_PA 3 (log_slice sample_log3 (0 + 1) (Z.to_nat (3 - 0)) ≫= entry_writes) sample_store 0
    (_sivfs_make_checkpoint x86_flags ZERO_PA (sivfs_on_obsolete_page_stack (fun _ => true)) sample_log3 0 3 (0, sample_store)).
Proof.
  assert (E : log_slice sample_log3 1 3 ≫= entry_writes = [(7, 16, 1); (7, 4096, 2); (8, 0, 3); (7, 16, 4)])
    by (vm_compute; reflexivity).
  split; [exact E|].
  apply (make_checkpoint_replays_log x86_flags ZERO_PA sample_log3 1 3 (fun _ => true) 0 3);
    [apply sample_log3_view|lia|lia| |apply sample_store_ok|exact (or_introl eq_refl)].
  change (log_slice sample_log3 (0 + 1) (Z.to_nat (3 - 0))) with (log_slice sample_log3 1 3). rewrite E.
  repeat constructor; lia || reflexivity.
Defined.
