(* ===== verification/CheckpointMemory.v ===== *)
(** When the replay of the log into a new checkpoint gives up: only when memory
    is refused ([refused]). A replay of well-formed writes has no other error
    (sivfs_apply_change_checkpoint and _sivfs_make_checkpoint,
    kern/sivfs_make_checkpoint.c), and the pages it obsoletes are aligned, so
    that the collector can take them (sivfs_gc_make_entry_page). *)
From S2P Require Import Prelude Types Stack Writeset Log LogView PageTree MakeCheckpoint.

(** An offer of the page allocator that gives a page with its page info. *)
Definition offered (o : option supply_page) : bool :=
  match o with Some sp => sp_pginfo sp | None => false end.

(** Between [s] and [s'] only the front of the supply was used. *)
Definition spent (s s' : pstore) : Prop := exists used, p_supply s = used ++ p_supply s'.

(** Why no page was to be had: the limit on checkpoint pages, a dry supply, or a refused offer. *)
Definition out_of_pages (s s' : pstore) : Prop :=
  SIVFS_MAX_CHECKPOINT_PAGES < p_count s' + 1 \/ p_supply s' = [] \/
  exists used o, p_supply s = used ++ o :: p_supply s' /\ offered o = false.

(** An address whose low bits are free for the tag of a collector entry. *)
Definition tag_free (a : Z) : Prop := Z.land a 7 = 0.

Lemma spent_refl s : spent s s.
Proof. by exists []. Qed.

Lemma spent_trans s1 s2 s3 : spent s1 s2 -> spent s2 s3 -> spent s1 s3.
Proof. intros [a Ha] [b Hb]. exists (a ++ b). by rewrite Ha, Hb, app_assoc. Qed.

Lemma spent_same s s' : p_supply s' = p_supply s -> spent s s'.
Proof. intros E. exists []. by rewrite E. Qed.

Lemma out_of_pages_trans s1 s2 s3 : spent s1 s2 -> out_of_pages s2 s3 -> out_of_pages s1 s3.
Proof.
  intros [a Ha] [?|[?|(b & o & Hb & ?)]]; [by left|by right; left|]. right; right.
  exists (a ++ b), o. split; [|done]. by rewrite Ha, Hb, app_assoc.
Qed.

Section memory.
Context (F : pt_flags) (ZERO_PAGE : Z) `{HF : !PtFlagsOk F} (push : Z -> bool).

(** Memory was refused: to a page, or to the stack of obsoleted pages. *)
Definition refused (s s' : pstore) : Prop := out_of_pages s s' \/ exists q, push q = false.

(** What holds between two steps: [k] obsoleted pages more may be pushed. *)
Definition calm (z : list Z) (k : Z) (s : pstore) : Prop :=
  quiet F z k s /\ Forall tag_free (elems (p_obsoleted s)).

(** [m], from a calm store, fails only when memory is refused. *)
Definition thrifty {S A} (st : S -> pstore) (m : M S A) : Prop := forall z s, calm z 0 (st s) ->
  match m s with
  | (Ok _, s') => calm z 0 (st s') /\ spent (st s) (st s')
  | (Err _, s') => refused (st s) (st s')
  | _ => True
  end.

Lemma calm_le z k k' s : k' <= k -> calm z k s -> calm z k' s.
Proof. intros H [? ?]. split; [by eapply quiet_le|done]. Qed.

Lemma refused_trans s1 s2 s3 : spent s1 s2 -> refused s2 s3 -> refused s1 s3.
Proof. intros H [?|?]; [left|by right]. by eapply out_of_pages_trans. Qed.

Lemma thrifty_bind {S A B} (st : S -> pstore) (m : M S A) (k : A -> M S B) :
  thrifty st m -> (forall a, thrifty st (k a)) -> thrifty st (bind m k).
Proof.
  intros Hm Hk z s Hs. specialize (Hm z s Hs). unfold bind. destruct (m s) as [[a|e| |] s1]; try done.
  destruct Hm as [H1 S1]. specialize (Hk a z s1 H1). destruct (k a s1) as [[b|e| |] s2]; try done.
  - split; [apply Hk|by eapply spent_trans, Hk].
  - by eapply refused_trans.
Qed.

(** A step that leaves the store alone and has no error. *)
Lemma thrifty_pure {S A} (st : S -> pstore) (m : M S A) : (forall s, st (m s).2 = st s) ->
  (forall s e, (m s).1 <> Err e) -> thrifty st m.
Proof.
  intros Hs He z s H. specialize (Hs s). specialize (He s). destruct (m s) as [[a|e| |] s1]; cbn in *; try done.
  - rewrite Hs. split; [done|apply spent_refl].
  - by destruct (He e).
Qed.

Lemma thrifty_deref {S A} (st : S -> pstore) (o : option A) : thrifty st (lift (deref o)).
Proof. apply thrifty_pure; [done|]. intros s e. by destruct o. Qed.

Lemma thrifty_ret {S A} (st : S -> pstore) (a : A) : thrifty st (ret a).
Proof. by apply thrifty_pure. Qed.

Lemma thrifty_foldM {S A} (st : S -> pstore) (body : A -> M S wstep) l :
  (forall a, a ∈ l -> thrifty st (body a)) -> thrifty st (foldM body l).
Proof.
  induction l as [|a l IH]; intros Hb; [apply thrifty_ret|]. cbn [foldM].
  apply thrifty_bind; [apply Hb; left|]. intros []; [|apply thrifty_ret]. apply IH. intros b Hin. apply Hb. by right.
Qed.

(** ** The pages *)

Lemma pa_tag_free e : tag_free (sivfs_pxd_to_pa F e).
Proof. unfold tag_free, sivfs_pxd_to_pa. by rewrite <- Z.land_assoc, frame_bits_ok, Z.land_0_r. Qed.

Lemma thrifty_load pa : thrifty id (load_page pa).
Proof. apply thrifty_pure; [done|]. intros s e. unfold load_page. by destruct (p_pages s !! pa). Qed.

Lemma store_page_calm z k pa p s : calm z k s -> calm z k (store_page pa p s).2 /\
  p_supply (store_page pa p s).2 = p_supply s /\ forall e, (store_page pa p s).1 <> Err e.
Proof.
  intros [Hq Ha]. pose proof (store_page_keeps F z k pa p s Hq) as Hq'. revert Hq'. unfold store_page.
  by destruct (p_pages s !! pa).
Qed.

Lemma thrifty_store pa p : thrifty id (store_page pa p).
Proof.
  intros z s H. destruct (store_page_calm z 0 pa p s H) as (Hc & Hs & He).
  destruct (store_page pa p s) as [[u|e| |] s1]; cbn in *; try done.
  - split; [done|by apply spent_same].
  - by destruct (He e).
Qed.

Lemma new_page_calm z ts lvl s : calm z 0 s ->
  match sivfs_new_checkpoint_page 0 ts lvl s with
  | (Ok _, s') => calm z 1 s' /\ spent s s'
  | (Err _, s') => out_of_pages s s'
  | _ => True
  end.
Proof.
  intros [Hq Ha]. pose proof (new_page_quiet F z ts lvl s Hq) as Hn. revert Hn. unfold sivfs_new_checkpoint_page.
  destruct (Z.ltb_spec SIVFS_MAX_CHECKPOINT_PAGES (p_count s + 1)); [intros _; by left|].
  destruct (p_supply s) as [|[sp|] rest] eqn:E.
  - intros _. right; left. exact E.
  - destruct (sp_pginfo sp) eqn:Ep.
    + assert (Hsp : spent s (set_supply rest s)) by (exists [Some sp]; exact E).
      destruct (sp_highmem sp); intros Hn; (split; [split; [exact Hn|exact Ha]|exact Hsp]).
    + intros _. right; right. exists [], (Some sp). split; [exact E|exact Ep].
  - intros _. right; right. exists [], None. split; [exact E|done].
Qed.

Notation callback := (sivfs_on_obsolete_page_stack push).

(** After a fresh page there is room for one page more on the stack. *)
Lemma thrifty_after_new {A} ts lvl (k : Z -> M pstore A) :
  (forall n z s, calm z 1 s -> match k n s with
    | (Ok _, s') => calm z 0 s' /\ spent s s'
    | (Err _, s') => refused s s'
    | _ => True end) ->
  thrifty id (bind (sivfs_new_checkpoint_page 0 ts lvl) k).
Proof.
  intros Hk z s H. pose proof (new_page_calm z ts lvl s H) as Hn. unfold bind.
  destruct (sivfs_new_checkpoint_page 0 ts lvl s) as [[n|e| |] s1]; try done; [|by left].
  destruct Hn as [H1 S1]. specialize (Hk n z s1 H1). destruct (k n s1) as [[b|e| |] s2]; try done.
  - split; [apply Hk|by eapply spent_trans, Hk].
  - by eapply refused_trans.
Qed.

Lemma callback_calm z e s : calm z 1 s ->
  match callback (sivfs_pxd_to_pa F e) s with
  | (Ok _, s') => calm z 0 s' /\ spent s s'
  | (Err _, s') => refused s s'
  | _ => True
  end.
Proof.
  intros [Hq Ha]. pose proof (on_obsolete_quiet F callback (on_obsolete_page_stack_records push) z (sivfs_pxd_to_pa F e) s Hq) as Hq'.
  revert Hq'. unfold sivfs_on_obsolete_page_stack. set (q := sivfs_pxd_to_pa F e). destruct Hq as (_ & _ & [Hwf Hroom]).
  pose proof limit_quarter.
  destruct (push_ok_inv (push q) q (p_obsoleted s) Hwf) as [(o & -> & _ & He & _)|[-> Hp]]; [lia| |].
  - intros Hq'. split; [split; [exact Hq'|]|by apply spent_same]. cbn [p_obsoleted set_obsoleted]. rewrite He.
    apply Forall_app. split; [done|]. constructor; [apply pa_tag_free|done].
  - intros _. right. by exists q.
Qed.

Lemma calm_end z s : calm z 1 s -> calm z 0 s /\ spent s s.
Proof. intros H. split; [by eapply calm_le; [|exact H]|apply spent_refl]. Qed.

(** A store of one page, with room for one page on the stack. *)
Lemma store_step {A} z pa p (k : M pstore A) s : calm z 1 s ->
  (forall s1, calm z 1 s1 -> match k s1 with
    | (Ok _, s') => calm z 0 s' /\ spent s1 s'
    | (Err _, s') => refused s1 s'
    | _ => True end) ->
  match (do! store_page pa p in k) s with
  | (Ok _, s') => calm z 0 s' /\ spent s s'
  | (Err _, s') => refused s s'
  | _ => True
  end.
Proof.
  intros H Hk. unfold bind. destruct (store_page_calm z 1 pa p s H) as (Hc & Hs & He).
  destruct (store_page pa p s) as [[u|e| |] s1]; cbn in *; try done; [|by destruct (He e)].
  specialize (Hk s1 Hc). destruct (k s1) as [[a|e| |] s2]; try done.
  - split; [apply Hk|eapply spent_trans; [by apply spent_same|apply Hk]].
  - eapply refused_trans; [by apply spent_same|done].
Qed.

Lemma load_step {A} z pa (k : cpage -> M pstore A) s :
  (forall p, match k p s with
    | (Ok _, s') => calm z 0 s' /\ spent s s'
    | (Err _, s') => refused s s'
    | _ => True end) ->
  match (let! p := load_page pa in k p) s with
  | (Ok _, s') => calm z 0 s' /\ spent s s'
  | (Err _, s') => refused s s'
  | _ => True
  end.
Proof. intros Hk. unfold bind, load_page. destruct (p_pages s !! pa) as [p|]; [exact (Hk p)|done]. Qed.

(** Counting a new page changes nothing that matters here. *)
Lemma add_new_step {A} z (k : M pstore A) s : calm z 1 s ->
  (forall s1, calm z 1 s1 -> match k s1 with
    | (Ok _, s') => calm z 0 s' /\ spent s1 s'
    | (Err _, s') => refused s1 s'
    | _ => True end) ->
  match (do! modify add_new in k) s with
  | (Ok _, s') => calm z 0 s' /\ spent s s'
  | (Err _, s') => refused s s'
  | _ => True
  end.
Proof. intros H Hk. exact (Hk (add_new s) H). Qed.

Lemma mk_zero_no_error level s e : sivfs_mk_zero_checkpoint_page F ZERO_PAGE level s <> Err e.
Proof.
  unfold sivfs_mk_zero_checkpoint_page. destruct (level =? 0)%nat; [done|].
  destruct (level =? 1)%nat; [done|]. destruct (level <=? _)%nat; [|done].
  by destruct (p_zero_pxd s !! (level - 1)%nat).
Qed.

Lemma thrifty_cow ts level e : thrifty id (cow_page F ZERO_PAGE callback ts level e).
Proof.
  unfold cow_page. destruct (e =? 0).
  - apply thrifty_after_new. intros n z s0 H0. apply add_new_step; [exact H0|]. intros s H. apply load_step. intros p.
    unfold bind at 1. destruct (sivfs_mk_zero_checkpoint_page F ZERO_PAGE level s) as [w|er| |] eqn:Ew; try done.
    + apply store_step; [exact H|]. intros s1 H1. by apply calm_end.
    + by destruct (mk_zero_no_error level s er).
  - apply thrifty_bind; [apply thrifty_load|intros old]. set (iz := sivfs_is_zero_page _ _ _).
    destruct (_ =? _); [apply thrifty_ret|]. apply thrifty_after_new. intros n z s0 H0.
    apply add_new_step; [exact H0|]. intros s H.
    apply load_step. intros p. apply store_step; [exact H|]. intros s1 H1.
    destruct iz; [by apply calm_end|]. apply store_step; [exact H1|]. intros s2 H2.
    pose proof (callback_calm z e s2 H2) as Hc.
    destruct (callback (sivfs_pxd_to_pa F e) s2) as [[u|er| |] s3] eqn:Ecb; try done.
    assert (Hp : exists q, push q = false).
    { revert Ecb. unfold sivfs_on_obsolete_page_stack. pose proof limit_quarter.
      destruct H2 as [(_ & _ & [Hwf Hroom]) _].
      destruct (push_ok_inv (push (sivfs_pxd_to_pa F e)) (sivfs_pxd_to_pa F e) (p_obsoleted s2) Hwf)
        as [(o & -> & _)|[-> Hp]]; [lia|done|eauto]. }
    destruct (sivfs_put_checkpoint_page n s3) as [[u|er'| |] s4]; try done. by right.
Qed.

(** ** One change, one log entry, the whole log *)

Notation rpages := (snd : rstate -> pstore).

Lemma thrifty_on_ps {A} (m : M pstore A) : thrifty id m -> thrifty rpages (on_ps m).
Proof. intros Hm z [r s] H. specialize (Hm z s H). unfold on_ps. cbn [snd fst]. by destruct (m s) as [[] s1]. Qed.

Lemma thrifty_lift {A} (r : res A) : (forall e, r <> Err e) -> thrifty rpages (lift r).
Proof. intros H. by apply thrifty_pure. Qed.

Lemma thrifty_read sl : thrifty rpages (read_slot sl).
Proof.
  destruct sl as [|pg o]; [by apply thrifty_pure|].
  apply thrifty_bind; [apply thrifty_on_ps, thrifty_load|intros p]. apply thrifty_lift.
  intros e. unfold rd_word, deref. by repeat case_match.
Qed.

Lemma thrifty_write sl e : thrifty rpages (write_slot sl e).
Proof.
  destruct sl as [|pg o]; [by apply thrifty_pure|].
  apply thrifty_bind; [apply thrifty_on_ps, thrifty_load|intros p].
  apply thrifty_bind; [|intros p'; apply thrifty_on_ps, thrifty_store].
  apply thrifty_lift. intros er. unfold wr_word. by case_match.
Qed.

Lemma thrifty_leaf off v nowrite n : thrifty rpages (on_ps (apply_leaf off v nowrite n)).
Proof.
  apply thrifty_on_ps. apply thrifty_bind; [apply thrifty_load|intros p].
  apply thrifty_bind; [|intros w; apply thrifty_store]. apply thrifty_pure; [done|].
  intros s e. unfold sivfs_apply_ws_ent_pg. cbn [lift fst]. by repeat case_match.
Qed.

Lemma thrifty_levels ts off v nowrite level : forall sl iter,
  thrifty rpages (apply_levels F ZERO_PAGE callback ts off v nowrite level sl iter).
Proof.
  induction level as [|l IH]; intros sl iter; cbn [apply_levels];
    (apply thrifty_bind; [apply thrifty_read|intros e]; apply thrifty_bind; [apply thrifty_on_ps, thrifty_cow|intros n]).
  - apply thrifty_bind; [apply thrifty_leaf|intros _]. apply thrifty_bind; [apply thrifty_write|intros _; apply thrifty_ret].
  - apply thrifty_bind; [apply thrifty_ret|intros _]. apply thrifty_bind; [apply thrifty_write|intros _].
    apply thrifty_bind; [apply thrifty_deref|intros o]. apply IH.
Qed.

Lemma thrifty_change ino off v ts opt : write_ok (ino, off, v) ->
  thrifty rpages (sivfs_apply_change_checkpoint F ZERO_PAGE callback ino off v ts opt).
Proof.
  intros (Hi & Ho & Hal). unfold sivfs_apply_change_checkpoint. apply thrifty_bind; [|intros it; apply thrifty_levels].
  apply thrifty_lift. intros e. rewrite iter_init_spec by lia.
  assert (off / PAGE_SIZE < 2 ^ 27) by (unfold PAGE_SIZE; apply Z.div_lt_upper_bound; lia).
  rewrite (proj2 (Z.ltb_lt ino _)), (proj2 (Z.ltb_lt (off / PAGE_SIZE) _)) by lia. done.
Qed.
Lemma thrifty_entry next_ts e : (exists es, ws_repr (le_ws e) es) -> Forall write_ok (entry_writes e) ->
  thrifty rpages (apply_log_entry F ZERO_PAGE callback next_ts e).
Proof.
  intros [es Hr] Hok. rewrite (entry_writes_repr _ _ Hr) in Hok. unfold apply_log_entry.
  destruct (le_aborted e); [apply thrifty_ret|]. apply thrifty_bind; [|intros _; apply thrifty_ret].
  intros z s. rewrite (ws_walk_encoded _ es _ (fun w => do! sivfs_apply_change_checkpoint F ZERO_PAGE callback
    (e_ino w) (e_offset w) (e_value w) next_ts 0 in ret Continue) s Hr).
  2: { intros i w st' Hb _. cbn beta zeta. destruct (rd_fields _ _ _ Hb) as (-> & -> & _ & ->). done. }
  apply (thrifty_foldM rpages). intros w Hw. rewrite Forall_fmap, Forall_forall in Hok.
  apply thrifty_bind; [|intros _; apply thrifty_ret]. apply thrifty_change, (Hok w Hw).
Qed.

(** The replay fails only when memory is refused, and obsoletes aligned pages. *)
Lemma replay_memory st lo n latest next s r z :
  log_view st lo n -> lo <= latest + 1 -> latest < next <= n ->
  Forall write_ok (log_slice st (latest + 1) (Z.to_nat (next - latest)) ≫= entry_writes) ->
  quiet F z 0 s -> Forall tag_free (elems (p_obsoleted s)) ->
  match _sivfs_make_checkpoint F ZERO_PAGE callback st latest next (r, s) with
  | (Ok _, (_, s')) => Forall tag_free (elems (p_obsoleted s')) /\ spent s s'
  | (Err _, (_, s')) => refused s s'
  | _ => True
  end.
Proof.
  intros Hv Hlo Hn Hok Hq Ha. pose proof (lv_n _ _ _ Hv). pose proof (lv_lo _ _ _ Hv).
  unfold _sivfs_make_checkpoint. rewrite (proj2 (Z.eqb_neq _ _)) by lia. rewrite uadd_small by u64_lia.
  destruct (ts_to_log_entry_ok _ _ _ Hv (latest + 1) next ltac:(lia)) as (p & Hl & Hp).
  rewrite Hl, (bind_step (lift _) _ (r, s) _ (r, s) eq_refl).
  destruct (lv_ent _ _ _ Hv _ _ Hp) as (e & He & Hts & _). rewrite He.
  rewrite (bind_step (lift _) _ (r, s) e (r, s) eq_refl). rewrite (proj2 (Z.ltb_ge _ _)) by lia.
  set (k := Z.to_nat (next - (latest + 1))).
  replace (Z.to_nat (next - latest)) with (1 + k)%nat in * by (unfold k; lia).
  rewrite (log_iter_slice _ _ _ Hv _ _ next k (latest + 1)) by (unfold log_fuel, k; done || lia).
  assert (Ht : thrifty rpages (foldM (apply_log_entry F ZERO_PAGE callback next) (log_slice st (latest + 1) (1 + k)))).
  { apply thrifty_foldM. intros a Ha'. apply thrifty_entry.
    - pose proof (view_slice_repr _ _ _ (latest + 1) (1 + k) Hv Hlo ltac:(unfold k; lia)) as Hf.
      rewrite Forall_forall in Hf. by apply Hf.
    - apply Forall_forall. intros w Hw. rewrite Forall_forall in Hok. apply Hok. apply list_elem_of_bind. by exists a. }
  specialize (Ht z (r, s) (conj Hq Ha)). revert Ht. generalize (foldM (apply_log_entry F ZERO_PAGE callback next) (log_slice st (latest + 1) (1 + k)) (r, s)).
  intros [[u|er| |] [r' s']] Ht; try done.
  destruct Ht as [[_ ?] ?]. done.
Qed.
End memory.
