(* ===== verification/Trees.v ===== *)
(** The trees of checkpoint pages as trees: in the tree of the latest
    checkpoint every page that is not a shared zero page is pointed to from one
    place, and the replay of the log (kern/sivfs_make_checkpoint.c) keeps it so.
    The pages it takes out of the tree are the ones it pushes on the obsoleted
    stack, each once, and no other page changes. *)
From S2P Require Import Prelude Types Stack Writeset Log LogView PageTree MakeCheckpoint.

#[export] Instance slot_eq_dec : EqDecision slot.
Proof. solve_decision. Defined.

(** ** Loops over the log *)

Lemma ws_for_each_sound {S} (J K : S -> Prop) getbuf body fuel : (forall s, J s -> K s) ->
  (forall ent info, sound J K (body ent info)) -> forall ent left, sound J K (ws_for_each getbuf body fuel ent left).
Proof.
  intros HJK Hb. induction fuel as [|fuel IH]; intros ent left s Hs; [by apply HJK|]. cbn [ws_for_each].
  destruct (left =? 0); [done|]. destruct (rbind _ _) as [info| | |]; try by apply HJK.
  specialize (Hb ent info s Hs). destruct (body ent info s) as [[[]| | |] s']; try done. by apply IH.
Qed.

Lemma log_iter_sound {S} (J K : S -> Prop) fuel ents cs body ts_stop : (forall s, J s -> K s) ->
  (forall e, sound J K (body e)) -> forall clog, sound J K (log_iter fuel ents cs body ts_stop clog).
Proof.
  intros HJK Hb. induction fuel as [|fuel IH]; intros clog; [intros s ?; by apply HJK|]. cbn [log_iter].
  apply sound_bind; [by apply sound_lift|intros e]. apply sound_bind; [apply Hb|intros []]; [|apply sound_ret].
  destruct (_ && _); [apply sound_ret|]. destruct (le_next e); [|apply sound_ret].
  apply sound_bind; [by apply sound_lift|intros e']. destruct (_ <? _); [apply sound_ret|apply IH].
Qed.

Section trees.
Context (F : pt_flags) (ZERO_PAGE : Z) `{HF : !PtFlagsOk F}.

Notation pa_of := (sivfs_pxd_to_pa F).
Notation pages := (gmap Z cpage).
Notation is_zero := (sivfs_is_zero_page ZERO_PAGE).

(** ** Trees of zero pages *)

(** NULL, or a zero page above such trees. *)
Fixpoint ztree (h : pages) (level : nat) (q : Z) : Prop :=
  q = 0 \/ exists p, h !! q = Some p /\ is_zero q p = true /\
    match level with
    | O => True
    | S l => forall o w, cp_words p !! o = Some w -> (pa_of w = 0 -> w = 0) /\ ztree h l (pa_of w)
    end.

Definition zsame (h h' : pages) : Prop := forall q p, h !! q = Some p -> is_zero q p = true -> h' !! q = Some p.

Lemma ztree_same h h' level : zsame h h' -> forall q, ztree h level q -> ztree h' level q.
Proof.
  intros Hs. induction level as [|l IH]; intros q [->|(p & Hp & Hz & Hc)]; try (by left); right; exists p;
    (split; [by apply Hs|split; [done|]]); [done|].
  intros o w Hw. destruct (Hc o w Hw) as [? ?]. auto.
Qed.

Lemma ztree_null h level : ztree h level 0.
Proof. destruct level; by left. Qed.

Lemma ztree_zero h level q p : ztree h level q -> q <> 0 -> h !! q = Some p -> is_zero q p = true.
Proof. destruct level; intros [?|(x & Hx & Hz & _)] Hq Hp; simplify_eq; done. Qed.

(** A tree that owns no page at any time consists of zero pages. *)
Lemma zeroes_ztree h level : forall q, (forall ts, wf_sub F ZERO_PAGE h ts level q) ->
  (forall ts x, ~ in_sub F ZERO_PAGE h ts level q x) -> ztree h level q.
Proof.
  induction level as [|l IH]; intros q Hwf Hin; destruct (decide (q = 0)) as [->|Hq]; try (by left); right;
    destruct (Hwf 0) as [?|(p & Hp & _ & _ & Hch)]; try done; exists p; (split; [done|]);
    (assert (Hz : is_zero q p = true) by (destruct (is_zero q p) eqn:E; [done|]; destruct (Hin (cp_checkpoint_ts p) q);
       split; [done|]; exists p; split; [done|left]; split; [done|]; by exists p)); (split; [done|]); [done|].
  intros o w Hw. split; [by apply (proj1 Hch o w Hw)|]. apply IH.
  - intros ts. destruct (Hwf ts) as [?|(x & Hx & _ & _ & Hx' & _)]; [done|]. simplify_eq. by apply (Hx' o w Hw).
  - intros ts x Hx. apply (Hin ts x). split; [done|]. exists p. split; [done|right]. eauto.
Qed.

(** ** Slots *)

(** The entry in a slot, [r] being the root. *)
Definition entry (r : Z) (h : pages) (sl : slot) : option Z :=
  match sl with
  | SRoot => Some r
  | STable p o => pp ← h !! p; if o <? 0 then None else cp_words pp !! Z.to_nat o
  end.

(** The level of the pages that a slot of the tree points to; [C] gives the
    pages of the tree with their levels. *)
Definition slot_level (C : gmap Z nat) (sl : slot) : option nat :=
  match sl with
  | SRoot => Some ROOT_LEVEL
  | STable p _ => match C !! p with Some (S l) => Some l | _ => None end
  end.

(** [e] is written to the slot. *)
Definition put_slot (sl : slot) (e r : Z) (h : pages) : Z * pages :=
  match sl with
  | SRoot => (e, h)
  | STable p o => (r, alter (fun pp => with_words (<[Z.to_nat o := e]> (cp_words pp)) pp) p h)
  end.

Record tree (r : Z) (h : pages) (C : gmap Z nat) : Prop := {
  t_page : forall q l, C !! q = Some l -> q <> 0 /\ pa_ok F q /\ exists p, h !! q = Some p /\ is_zero q p = false;
  t_closed : forall sl l e, slot_level C sl = Some l -> entry r h sl = Some e ->
    (pa_of e = 0 -> e = 0) /\ (ztree h l (pa_of e) \/ C !! pa_of e = Some l);
  t_ref : forall q l, C !! q = Some l -> exists sl e, slot_level C sl = Some l /\ entry r h sl = Some e /\ pa_of e = q;
  t_uniq : forall sl sl' l l' e e', slot_level C sl = Some l -> slot_level C sl' = Some l' ->
    entry r h sl = Some e -> entry r h sl' = Some e' -> pa_of e = pa_of e' -> is_Some (C !! pa_of e) -> sl = sl'
}.

Lemma slot_level_table C p o l : slot_level C (STable p o) = Some l <-> C !! p = Some (S l).
Proof. simpl. destruct (C !! p) as [[|k]|]; split; intros; simplify_eq; done. Qed.

Lemma entry_words r h h' sl : (forall p o pp, sl = STable p o -> h !! p = Some pp ->
  exists pp', h' !! p = Some pp' /\ cp_words pp' = cp_words pp) ->
  forall e, entry r h sl = Some e -> entry r h' sl = Some e.
Proof.
  intros Hw e. destruct sl as [|p o]; [done|]. simpl. destruct (h !! p) as [pp|] eqn:Ep; [|done].
  destruct (Hw p o pp eq_refl Ep) as (pp' & -> & E). simpl. by rewrite E.
Qed.

(** Tables of the tree that keep their words make the same tree. *)
Lemma tree_same r h h' C : tree r h C -> zsame h h' ->
  (forall q l p, C !! q = Some l -> h !! q = Some p -> exists p', h' !! q = Some p' /\
     (l = 0%nat \/ cp_words p' = cp_words p) /\ cp_is_zero p' = cp_is_zero p) -> tree r h' C.
Proof.
  intros [Tp Tc Tr Tu] Hz Hw.
  assert (Hback : forall sl l e, slot_level C sl = Some l -> entry r h' sl = Some e -> entry r h sl = Some e).
  { intros [|p o] l e Hl; [done|]. apply slot_level_table in Hl. destruct (Tp p _ Hl) as (_ & _ & pp & Hp & _).
    destruct (Hw p _ pp Hl Hp) as (pp' & Hp' & [?|Ew] & _); [done|]. simpl. rewrite Hp, Hp'. simpl. by rewrite Ew. }
  assert (Hto : forall sl l e, slot_level C sl = Some l -> entry r h sl = Some e -> entry r h' sl = Some e).
  { intros sl l e Hl. apply entry_words. intros p o pp -> Hp. apply slot_level_table in Hl.
    destruct (Hw p _ pp Hl Hp) as (pp' & ? & [?|?] & _); [done|]. eauto. }
  split.
  - intros q l Hq. destruct (Tp q l Hq) as (? & ? & p & Hp & Hzp). destruct (Hw q l p Hq Hp) as (p' & Hp' & _ & Ez).
    split_and!; [done|done|]. exists p'. split; [done|]. unfold sivfs_is_zero_page in *. by rewrite Ez.
  - intros sl l e Hl He. destruct (Tc sl l e Hl (Hback _ _ _ Hl He)) as (? & [?|?]); (split; [done|]); [left|by right].
    by apply (ztree_same h).
  - intros q l Hq. destruct (Tr q l Hq) as (sl & e & ? & ? & ?). eauto 10.
  - intros sl sl' l l' e e' Hl Hl' He He'. eapply Tu; eauto.
Qed.

(** The page below a slot of the tree is not the page the slot is in. *)
Lemma slot_page_ne r h C p o l e : tree r h C -> slot_level C (STable p o) = Some l ->
  entry r h (STable p o) = Some e -> p <> pa_of e.
Proof.
  intros T Hl He Ep. pose proof Hl as Hp%slot_level_table.
  destruct (t_closed _ _ _ T _ _ _ Hl He) as [_ [Hz|Hc]]; rewrite <- Ep in *; [|rewrite Hp in Hc; injection Hc; lia].
  destruct (t_page _ _ _ T _ _ Hp) as (Hp0 & _ & pp & Hpp & Hnz). by rewrite (ztree_zero _ _ _ _ Hz Hp0 Hpp) in Hnz.
Qed.

Section install.
Context (r : Z) (h h1 : pages) (C : gmap Z nat) (sl : slot) (l : nat) (e e' n : Z) (pn : cpage).
Context (T : tree r h C) (Hsl : slot_level C sl = Some l) (He : entry r h sl = Some e).
Context (Hn : h !! n = None) (Hn1 : h1 !! n = Some pn) (He' : pa_of e' = n).
Context (Hsame : forall q p, h !! q = Some p -> exists p', h1 !! q = Some p' /\ cp_words p' = cp_words p /\
  cp_is_zero p' = cp_is_zero p).
Let C1 : gmap Z nat := <[n := l]> (delete (pa_of e) C).
Let r1 : Z := (put_slot sl e' r h1).1.
Let h2 : pages := (put_slot sl e' r h1).2.

Lemma install_fresh : C !! n = None.
Proof. destruct (C !! n) eqn:E; [|done]. destruct (t_page _ _ _ T _ _ E) as (_ & _ & p & Hp & _). congruence. Qed.

Lemma install_level p k : p <> n -> p <> pa_of e -> C !! p = Some k -> C1 !! p = Some k.
Proof. intros. unfold C1. rewrite lookup_insert_ne, lookup_delete_ne; done. Qed.

(** The entry that replaces [e] is in the slot. *)
Lemma install_here : slot_level C1 sl = Some l /\ entry r1 h2 sl = Some e'.
Proof.
  unfold C1, r1, h2. pose proof install_fresh. destruct sl as [|p o]; [done|].
  pose proof (slot_page_ne _ _ _ _ _ _ _ T Hsl He). apply slot_level_table in Hsl.
  split; [apply slot_level_table, install_level; congruence|]. simpl in He. destruct (h !! p) as [pp|] eqn:Ep; [|done].
  destruct (Hsame p pp Ep) as (pp' & Ep' & Ew & _). simpl in He |- *. rewrite lookup_alter_eq, Ep'. simpl.
  destruct (o <? 0); [done|]. rewrite Ew. apply list_lookup_insert_eq. by eapply lookup_lt_Some.
Qed.

Lemma install_new o w l' : l = S l' -> cp_words pn !! o = Some w ->
  slot_level C1 (STable n (Z.of_nat o)) = Some l' /\ entry r1 h2 (STable n (Z.of_nat o)) = Some w.
Proof.
  intros El Hw. unfold C1, r1, h2. pose proof install_fresh.
  split; [apply slot_level_table; rewrite lookup_insert_eq; congruence|].
  assert (E : (put_slot sl e' r h1).2 !! n = Some pn).
  { destruct sl as [|p x]; [done|]. simpl. rewrite lookup_alter_ne; [done|]. intros ->.
    apply slot_level_table in Hsl. congruence. }
  cbn [entry]. rewrite E. simpl. rewrite (proj2 (Z.ltb_ge _ _)), Nat2Z.id by lia. done.
Qed.

(** Entries of other slots. *)
Lemma install_other sl' l' x : sl' <> sl -> slot_level C sl' = Some l' -> (forall p o, sl' = STable p o -> p <> pa_of e) ->
  slot_level C1 sl' = Some l' /\ (entry r1 h2 sl' = Some x <-> entry r h sl' = Some x).
Proof.
  intros Hne Hl Hp. unfold C1, r1, h2. pose proof install_fresh as Hf. destruct sl' as [|p o].
  { destruct sl; [done|]. done. }
  pose proof Hl as Hl'%slot_level_table. assert (p <> n) by congruence. specialize (Hp p o eq_refl).
  split; [by apply slot_level_table, install_level|].
  destruct (t_page _ _ _ T _ _ Hl') as (_ & _ & pp & Hpp & _). destruct (Hsame p pp Hpp) as (pp' & Hpp' & Ew & _).
  cbn [entry]. rewrite Hpp. destruct sl as [|p' o'].
  - simpl. rewrite Hpp'. simpl. by rewrite Ew.
  - simpl. destruct (decide (p' = p)) as [->|Hpne].
    + rewrite lookup_alter_eq, Hpp'. simpl. rewrite Ew. simpl in He. rewrite Hpp in He. simpl in He.
      destruct (Z.ltb_spec o' 0); [done|]. destruct (Z.ltb_spec o 0); [done|].
      rewrite list_lookup_insert_ne; [done|]. intros E. apply Hne. f_equal. lia.
    + rewrite lookup_alter_ne, Hpp' by done. simpl. by rewrite Ew.
Qed.

(** Where an entry of the new tree comes from. *)
Lemma install_inv sl' l' x : slot_level C1 sl' = Some l' -> entry r1 h2 sl' = Some x ->
  (sl' = sl /\ x = e' /\ l' = l) \/
  (exists o, sl' = STable n (Z.of_nat o) /\ l = S l' /\ cp_words pn !! o = Some x) \/
  (sl' <> sl /\ slot_level C sl' = Some l' /\ entry r h sl' = Some x /\ forall p o, sl' = STable p o -> p <> pa_of e).
Proof.
  intros Hl Hx. destruct (decide (sl' = sl)) as [->|Hne].
  { left. destruct install_here as [Hl1 Hx1]. rewrite Hl1 in Hl. rewrite Hx1 in Hx. by simplify_eq. }
  right. destruct sl' as [|p o].
  - right. destruct (install_other SRoot l' x Hne Hl) as [_ Hi]; [done|]. by apply Hi in Hx.
  - apply slot_level_table in Hl. unfold C1 in Hl. destruct (decide (p = n)) as [->|Hpn].
    + rewrite lookup_insert_eq in Hl. injection Hl as El. left. exists (Z.to_nat o).
      assert (E : h2 !! n = Some pn).
      { unfold h2. destruct sl as [|p x']; [done|]. simpl. rewrite lookup_alter_ne; [done|]. intros ->.
        apply slot_level_table in Hsl. by rewrite install_fresh in Hsl. }
      cbn [entry] in Hx. rewrite E in Hx. simpl in Hx. destruct (Z.ltb_spec o 0); [done|].
      rewrite Z2Nat.id by lia. done.
    + rewrite lookup_insert_ne in Hl by done. apply lookup_delete_Some in Hl as [Hpe Hl].
      assert (Hl' : slot_level C (STable p o) = Some l') by (by apply slot_level_table).
      assert (Hpp : forall p0 o0, STable p o = STable p0 o0 -> p0 <> pa_of e) by (intros ? ? [= -> ->]; done).
      right. destruct (install_other (STable p o) l' x Hne Hl' Hpp) as [_ Hi]. by apply Hi in Hx.
Qed.

Context (Hnz : n <> 0) (Hok : pa_ok F n) (Hzn : is_zero n pn = false) (He0 : e' <> 0) (Hz : zsame h h1).
(** The new page has the children of the old one, or zero pages. *)
Context (Hkids : forall l', l = S l' ->
  (is_Some (C !! pa_of e) -> exists old, h !! pa_of e = Some old /\ cp_words pn = cp_words old) /\
  (C !! pa_of e = None -> forall o w, cp_words pn !! o = Some w -> (pa_of w = 0 -> w = 0) /\ ztree h l' (pa_of w))).

(** The slot of the old page that a slot of the new one copies. *)
Lemma install_old o w l' k : l = S l' -> C !! pa_of e = Some k -> cp_words pn !! o = Some w ->
  slot_level C (STable (pa_of e) (Z.of_nat o)) = Some l' /\ entry r h (STable (pa_of e) (Z.of_nat o)) = Some w.
Proof.
  intros El Hc Hw. destruct (proj1 (Hkids l' El) (ex_intro _ k Hc)) as (old & Ho & Ew).
  destruct (t_closed _ _ _ T _ _ _ Hsl He) as [_ [Hzt|Hc']].
  { destruct (t_page _ _ _ T _ _ Hc) as (H0 & _ & p & Hp & Hzp). by rewrite (ztree_zero _ _ _ _ Hzt H0 Hp) in Hzp. }
  split; [apply slot_level_table; by rewrite Hc', El|]. simpl. rewrite Ho. simpl.
  rewrite (proj2 (Z.ltb_ge _ _)), Nat2Z.id by lia. by rewrite <- Ew.
Qed.

Lemma zsame_put : zsame h h2.
Proof.
  intros q p Hq Hzq. specialize (Hz q p Hq Hzq). unfold h2. destruct sl as [|p' o]; [done|]. simpl.
  rewrite lookup_alter_ne; [done|]. intros ->. apply slot_level_table in Hsl.
  destruct (t_page _ _ _ T _ _ Hsl) as (_ & _ & x & Hx & Hzx). congruence.
Qed.

(** A reference from elsewhere is not to the page that was taken out. *)
Lemma other_target sl' l' x : sl' <> sl -> slot_level C sl' = Some l' -> entry r h sl' = Some x ->
  C !! pa_of x = Some l' -> C1 !! pa_of x = Some l'.
Proof.
  intros Hne Hl Hx Hc. apply install_level; [intros E; by rewrite E, install_fresh in Hc| |done].
  intros E. apply Hne. eapply (t_uniq _ _ _ T); eauto.
Qed.

(** Where the targets of the new page's entries are. *)
Lemma kid_target o w l' : l = S l' -> cp_words pn !! o = Some w -> is_Some (C1 !! pa_of w) ->
  pa_of w <> n /\ is_Some (C !! pa_of w) /\
  slot_level C (STable (pa_of e) (Z.of_nat o)) = Some l' /\ entry r h (STable (pa_of e) (Z.of_nat o)) = Some w.
Proof.
  intros El Hw Hs. assert (Hzt : ~ (ztree h l' (pa_of w))).
  { intros Hzt. unfold C1 in Hs. destruct (decide (pa_of w = n)) as [E|E].
    - rewrite E in Hzt. destruct l'; destruct Hzt as [?|(p & Hp & _)]; congruence.
    - rewrite lookup_insert_ne in Hs by done. destruct Hs as [k [_ Hk]%lookup_delete_Some].
      destruct (t_page _ _ _ T _ _ Hk) as (H0 & _ & p & Hp & Hzp). by rewrite (ztree_zero _ _ _ _ Hzt H0 Hp) in Hzp. }
  assert (Hd : C !! pa_of e = None \/ exists k, C !! pa_of e = Some k) by (destruct (C !! pa_of e); eauto).
  destruct Hd as [Hc|[k Hc]]; [by destruct (proj2 (Hkids l' El) Hc o w Hw)|].
  destruct (install_old o w l' k El Hc Hw) as [Hs' Hx'].
  destruct (t_closed _ _ _ T _ _ _ Hs' Hx') as [_ [?|Hcw]]; [done|].
  split; [intros E; by rewrite E, install_fresh in Hcw|]. by rewrite Hcw.
Qed.

Lemma other_ne sl' l' x : slot_level C sl' = Some l' -> entry r h sl' = Some x -> pa_of x <> n.
Proof.
  intros Hl Hx E. destruct (t_closed _ _ _ T _ _ _ Hl Hx) as [_ [Hzt|Hc]]; rewrite E in *.
  - destruct l'; destruct Hzt as [?|(p & Hp & _)]; congruence.
  - by rewrite install_fresh in Hc.
Qed.

Lemma other_in sl' l' x : slot_level C sl' = Some l' -> entry r h sl' = Some x -> is_Some (C1 !! pa_of x) ->
  is_Some (C !! pa_of x).
Proof.
  intros Hl Hx [k Hk]. unfold C1 in Hk. pose proof (other_ne _ _ _ Hl Hx).
  rewrite lookup_insert_ne in Hk by done. apply lookup_delete_Some in Hk as [_ Hk]. eauto.
Qed.

Lemma tree_install : tree r1 h2 C1.
Proof.
  split.
  - intros q k Hq. unfold C1 in Hq. apply lookup_insert_Some in Hq as [[<- _]|[Hqn [_ Hq]%lookup_delete_Some]].
    + split_and!; [done|done|]. destruct sl as [|p o] eqn:Es; [by exists pn|]. exists pn. split; [|done].
      unfold h2. simpl. rewrite lookup_alter_ne; [done|]. intros ->. apply slot_level_table in Hsl. by rewrite install_fresh in Hsl.
    + destruct (t_page _ _ _ T _ _ Hq) as (? & ? & p & Hp & Hzp). split_and!; [done|done|].
      destruct (Hsame q p Hp) as (p' & Hp' & _ & Ez). unfold sivfs_is_zero_page in Hzp |- *. unfold h2.
      destruct sl as [|p0 o]; [exists p'; by rewrite Ez|]. simpl. destruct (decide (p0 = q)) as [->|].
      * rewrite lookup_alter_eq, Hp'. eexists. split; [done|]. simpl. by rewrite Ez.
      * rewrite lookup_alter_ne by done. exists p'. by rewrite Ez.
  - intros sl' l' x Hl Hx. destruct (install_inv sl' l' x Hl Hx) as [(-> & -> & ->)|[(o & -> & El & Hw)|(Hne & Hl0 & Hx0 & Hp)]].
    + rewrite He'. split; [done|right]. unfold C1. by rewrite lookup_insert_eq.
    + assert (Hd : C !! pa_of e = None \/ exists k, C !! pa_of e = Some k) by (destruct (C !! pa_of e); eauto).
      destruct Hd as [Hc|[k Hc]].
      { destruct (proj2 (Hkids l' El) Hc o x Hw) as [? ?]. split; [done|left]. by apply (ztree_same h h2 _ zsame_put). }
      destruct (install_old o x l' k El Hc Hw) as [Hs Hx'].
      destruct (t_closed _ _ _ T _ _ _ Hs Hx') as [? [Hzt|Hc']]; (split; [done|]);
        [left; by apply (ztree_same h h2 _ zsame_put)|right].
      apply (other_target (STable (pa_of e) (Z.of_nat o)) l' x); try done. intros E. rewrite E in Hs. rewrite Hsl in Hs.
      injection Hs. lia.
    + destruct (t_closed _ _ _ T _ _ _ Hl0 Hx0) as [H0 [Hzt|Hc]]; (split; [done|]).
      * left. by apply (ztree_same h h2 _ zsame_put).
      * right. by eapply other_target.
  - intros q k Hq. unfold C1 in Hq. apply lookup_insert_Some in Hq as [[<- <-]|[Hqn [Hqe Hq]%lookup_delete_Some]].
    { exists sl, e'. destruct install_here. done. }
    destruct (t_ref _ _ _ T _ _ Hq) as (s0 & x & Hl0 & Hx0 & Ex).
    assert (Hne : s0 <> sl) by (intros ->; rewrite He in Hx0; injection Hx0 as <-; done).
    destruct s0 as [|p o] eqn:Es0; [|destruct (decide (p = pa_of e)) as [->|Hpe]].
    + exists SRoot, x. destruct (install_other SRoot k x Hne Hl0) as [? Hi]; [done|]. split; [done|]. split; [by apply Hi|done].
    + pose proof Hl0 as Hc%slot_level_table. destruct (t_closed _ _ _ T _ _ _ Hsl He) as [_ [Hzt|Hc']].
      { destruct (t_page _ _ _ T _ _ Hc) as (H0 & _ & p & Hp & Hzp). by rewrite (ztree_zero _ _ _ _ Hzt H0 Hp) in Hzp. }
      assert (El : l = S k) by congruence. simpl in Hx0. destruct (h !! pa_of e) as [old|] eqn:Eo; [|done]. simpl in Hx0.
      destruct (Z.ltb_spec o 0); [done|]. 
      destruct (proj1 (Hkids k El) (ex_intro _ _ Hc)) as (old' & Ho' & Ew). assert (old' = old) as -> by congruence. rewrite <- Ew in Hx0.
      destruct (install_new (Z.to_nat o) x k El Hx0) as [? ?]. eauto.
    + exists (STable p o), x. destruct (install_other (STable p o) k x Hne Hl0) as [? Hi]; [by intros ? ? [= -> ->]|].
      split; [done|]. split; [by apply Hi|done].
  - intros s1 s2 l1 l2 x1 x2 Hl1 Hl2 Hx1 Hx2 E Hs.
    destruct (install_inv s1 l1 x1 Hl1 Hx1) as [(-> & -> & ->)|[(o1 & -> & El1 & Hw1)|(Hne1 & Ho1 & Hy1 & Hp1)]];
    destruct (install_inv s2 l2 x2 Hl2 Hx2) as [(-> & -> & ->)|[(o2 & -> & El2 & Hw2)|(Hne2 & Ho2 & Hy2 & Hp2)]]; try done.
    + rewrite E in Hs. destruct (kid_target o2 x2 l2 El2 Hw2 Hs) as [? _]. congruence.
    + destruct (other_ne s2 l2 x2 Ho2 Hy2). congruence.
    + destruct (kid_target o1 x1 l1 El1 Hw1 Hs) as [? _]. congruence.
    + destruct (kid_target o1 x1 l1 El1 Hw1 Hs) as (_ & Hc & Ha & Hb). rewrite E in Hs.
      destruct (kid_target o2 x2 l2 El2 Hw2 Hs) as (_ & _ & Ha2 & Hb2).
      pose proof (t_uniq _ _ _ T _ _ _ _ _ _ Ha Ha2 Hb Hb2 E Hc) as Eo. injection Eo as Eo. by rewrite Eo.
    + destruct (kid_target o1 x1 l1 El1 Hw1 Hs) as (_ & Hc & Ha & Hb).
      pose proof (t_uniq _ _ _ T _ _ _ _ _ _ Ha Ho2 Hb Hy2 E Hc) as Eo. by destruct (Hp2 _ _ (eq_sym Eo)).
    + destruct (other_ne s1 l1 x1 Ho1 Hy1). congruence.
    + rewrite E in Hs. destruct (kid_target o2 x2 l2 El2 Hw2 Hs) as (_ & Hc & Ha & Hb). rewrite <- E in Hc.
      pose proof (t_uniq _ _ _ T _ _ _ _ _ _ Ho1 Ha Hy1 Hb E Hc) as Eo. by destruct (Hp1 _ _ Eo).
    + eapply (t_uniq _ _ _ T s1 s2); [exact Ho1|exact Ho2|exact Hy1|exact Hy2|done|exact (other_in _ _ _ Ho1 Hy1 Hs)].
Qed.
End install.

(** ** The zero pages that new tables point to *)

Definition zpool (s : pstore) : Prop := p_zero_pxd s !! 0%nat = Some ZERO_PAGE /\
  forall l, (l < SIVFS_CHECKPOINT_FOFFSET_LEVELS)%nat -> exists z, p_zero_pxd s !! l = Some z /\ z <> 0 /\ pa_ok F z /\
    ztree (p_pages s) l z.

Lemma zpool_ready s : zero_ready F ZERO_PAGE s -> zpool s.
Proof.
  intros (H0 & _ & _ & _ & _ & Hl). split; [done|]. intros l Hlt. destruct (Hl l Hlt) as (z & ? & ? & ? & Hz).
  exists z. split_and!; try done. apply zeroes_ztree; intros ts; apply Hz.
Qed.

Lemma zpool_same s s' : p_zero_pxd s' = p_zero_pxd s -> zsame (p_pages s) (p_pages s') -> zpool s -> zpool s'.
Proof.
  intros Ez Hs [H0 Hl]. split; [by rewrite Ez|]. intros l Hlt. destruct (Hl l Hlt) as (z & ? & ? & ? & ?). rewrite Ez.
  exists z. split_and!; try done. by apply (ztree_same _ _ _ Hs).
Qed.

Lemma Ok_eq {A} (a b : A) : Ok a = Ok b -> a = b.
Proof. by intros [=]. Qed.

Lemma mk_zero_kids level s w : zpool s -> sivfs_mk_zero_checkpoint_page F ZERO_PAGE level s = Ok w ->
  forall l, level = S l -> forall o x, w !! o = Some x -> (pa_of x = 0 -> x = 0) /\ ztree (p_pages s) l (pa_of x).
Proof.
  intros [H0 Hl] Hw l -> o x Hx. unfold sivfs_mk_zero_checkpoint_page in Hw. cbn [Nat.eqb] in Hw.
  assert (Hfill : forall z y, (pa_of y = z) -> z <> 0 -> ztree (p_pages s) l z -> (pa_of y = 0 -> y = 0) /\ ztree (p_pages s) l (pa_of y))
    by (by intros z y -> ? ?).
  destruct (decide (l = 0%nat)) as [El|Hl0].
  - subst l. cbn [Nat.eqb rbind] in Hw. apply Ok_eq in Hw. rewrite <- Hw in Hx. apply lookup_replicate in Hx as [-> _].
    destruct (Hl 0%nat) as (z & Hz & Hnz & Hok & Hzt); [unfold SIVFS_CHECKPOINT_FOFFSET_LEVELS; lia|].
    rewrite H0 in Hz. injection Hz as <-. apply (Hfill ZERO_PAGE); [by apply pxd_roundtrip|done..].
  - rewrite (proj2 (Nat.eqb_neq _ _)) in Hw by done. destruct (Nat.leb_spec (S l) SIVFS_CHECKPOINT_FOFFSET_LEVELS) as [Hle|Hgt].
    + rewrite Nat.sub_succ, Nat.sub_0_r in Hw. destruct (Hl l) as (z & Hz & Hnz & Hok & Hzt); [lia|]. rewrite Hz in Hw.
      cbn [deref rbind] in Hw. apply Ok_eq in Hw. rewrite <- Hw in Hx. apply lookup_replicate in Hx as [-> _].
      apply (Hfill z); [by apply pxd_roundtrip|done..].
    + cbn [rbind] in Hw. apply Ok_eq in Hw. rewrite <- Hw in Hx. apply lookup_replicate in Hx as [-> _]. split; [done|].
      rewrite (Z.land_0_l (PTE_PFN_MASK F) : pa_of 0 = 0). apply ztree_null.
Qed.

(** ** One page copied on write *)

(** [n] comes from the pages the allocator offers. *)
Definition from_supply (s s1 : pstore) (n : Z) : Prop :=
  (exists sp, Some sp ∈ p_supply s /\ sp_pa sp = n) /\ forall o, o ∈ p_supply s1 -> o ∈ p_supply s.

(** What a fresh page at [n] is: contents, and what happened to the old page. *)
Definition fresh_page (ts : Z) (level : nat) (e : Z) (s s1 : pstore) (n : Z) : Prop :=
  p_pages s !! n = None /\ n <> 0 /\ pa_ok F n /\ p_zero_pxd s1 = p_zero_pxd s /\
  supply_fresh F (p_pages s1) (p_supply s1) /\ (stack_room 0 s1 /\ from_supply s s1 n) /\
  exists pn, is_zero n pn = false /\ cp_checkpoint_ts pn = ts /\
    ((e = 0 /\ sivfs_mk_zero_checkpoint_page F ZERO_PAGE level s = Ok (cp_words pn) /\
        p_pages s1 = <[n := pn]> (p_pages s) /\ p_obsoleted s1 = p_obsoleted s) \/
     (exists old, e <> 0 /\ p_pages s !! pa_of e = Some old /\ cp_words pn = cp_words old /\
        ((is_zero (pa_of e) old = true /\ p_pages s1 = <[n := pn]> (p_pages s) /\ p_obsoleted s1 = p_obsoleted s) \/
         (is_zero (pa_of e) old = false /\ cp_checkpoint_ts old <> ts /\
          p_pages s1 = <[pa_of e := with_obsoleted ts old]> (<[n := pn]> (p_pages s)) /\
          elems (p_obsoleted s1) = elems (p_obsoleted s) ++ [pa_of e])))).

(** What is left of the pages when it fails. *)
Definition cow_kept (e : Z) (s s1 : pstore) : Prop := forall q p, p_pages s !! q = Some p ->
  p_pages s1 !! q = Some p \/ (e <> 0 /\ q = pa_of e /\ is_zero q p = false).

Notation obsolete_on vz := (sivfs_on_obsolete_page_stack vz).

(** The store after a page was allocated and filled with [w]. *)
Definition filled (sp : supply_page) (rest : list (option supply_page)) (ts : Z) (level : nat) (w : list Z) (s : pstore) : pstore :=
  let pn := new_page_of sp ts (Z.of_nat level) in
  let s1 := add_new (set_pages (<[sp_pa sp := pn]> (p_pages s)) (set_count (p_count s + 1) (set_supply rest s))) in
  set_pages (<[sp_pa sp := with_words w pn]> (p_pages s1)) s1.

Lemma filled_ok sp rest ts level w s : supply_fresh F (p_pages s) (p_supply s) -> stack_room 0 s ->
  is_Some (p_pages s !! ZERO_PAGE) -> p_supply s = Some sp :: rest ->
  let n := sp_pa sp in let pn := with_words w (new_page_of sp ts (Z.of_nat level)) in let s2 := filled sp rest ts level w s in
  p_pages s !! n = None /\ n <> 0 /\ pa_ok F n /\ p_pages s2 = <[n := pn]> (p_pages s) /\
  supply_fresh F (p_pages s2) (p_supply s2) /\ stack_room 1 s2 /\ is_zero n pn = false /\ from_supply s s2 n.
Proof.
  intros Hsup Hroom [zp Hzp] Es n pn s2. rewrite Es in Hsup. destruct (proj1 Hsup 0%nat sp eq_refl) as (Hn & Hnz0 & Hok & _).
  assert (E2 : p_pages s2 = <[n := pn]> (p_pages s)) by (unfold s2, filled; cbn [p_pages set_pages add_new]; apply insert_insert_eq).
  split_and!; try done.
  - rewrite E2. by apply supply_fresh_take.
  - by apply (stack_room_take s s2 _ rest 0 Hroom Es).
  - unfold sivfs_is_zero_page, pn. simpl. rewrite orb_false_r. apply Z.eqb_neq. intros E. fold n in Hn. rewrite E in Hn. congruence.
  - split; [exists sp; rewrite Es; split; [left|done]|]. intros o Ho. rewrite Es. by right.
Qed.

Lemma cow_spec vz ts level e s : ts <> 0 -> supply_fresh F (p_pages s) (p_supply s) -> stack_room 0 s ->
  is_Some (p_pages s !! ZERO_PAGE) -> (e <> 0 -> is_Some (p_pages s !! pa_of e)) ->
  match cow_page F ZERO_PAGE (obsolete_on vz) ts level e s with
  | (Ok n, s1) =>
      (s1 = s /\ e <> 0 /\ n = pa_of e /\ exists old, p_pages s !! n = Some old /\ is_zero n old = false /\ cp_checkpoint_ts old = ts)
      \/ fresh_page ts level e s s1 n
  | (_, s1) => cow_kept e s s1
  end.
Proof.
  intros Hts Hsup Hroom Hzp He. unfold cow_page. assert (Hkept : forall s1, p_pages s1 = p_pages s -> cow_kept e s s1).
  { intros s1 E q p Hq. left. by rewrite E. }
  destruct (Z.eqb_spec e 0) as [He0|He0].
  - destruct (new_page_ok F ts (Z.of_nat level) s Hsup) as [(sp & rest & Es & E)|(s1 & E & Hp)];
      [rewrite (bind_step _ _ _ _ _ E)|rewrite (bind_err _ _ _ _ _ E); by apply Hkept].
    set (pn := new_page_of sp ts (Z.of_nat level)).
    set (s1 := add_new (set_pages (<[sp_pa sp := pn]> (p_pages s)) (set_count (p_count s + 1) (set_supply rest s)))).
    rewrite (bind_step (modify add_new) _ _ tt s1 eq_refl).
    assert (Hl1 : p_pages s1 !! sp_pa sp = Some pn) by apply lookup_insert_eq.
    rewrite (bind_step _ _ _ _ _ (load_page_ok _ _ _ Hl1)). unfold bind at 1.
    change (sivfs_mk_zero_checkpoint_page F ZERO_PAGE level s1) with (sivfs_mk_zero_checkpoint_page F ZERO_PAGE level s).
    destruct (filled_ok sp rest ts level [] s Hsup Hroom Hzp Es) as (Hn & _).
    assert (Hk1 : cow_kept e s s1).
    { intros q p Hq. left. unfold s1. cbn [p_pages add_new set_pages]. rewrite lookup_insert_ne; [done|congruence]. }
    destruct (sivfs_mk_zero_checkpoint_page F ZERO_PAGE level s) as [w| | |] eqn:Ew; try done.
    rewrite (bind_step _ _ _ _ _ (store_page_ok _ _ _ _ Hl1)). right.
    destruct (filled_ok sp rest ts level w s Hsup Hroom Hzp Es) as (_ & ? & ? & ? & ? & Hr & Hz & ?).
    split_and!; try done; [by eapply stack_room_le; [|exact Hr]|].
    eexists. split; [exact Hz|]. split; [done|]. left. done.
  - destruct (He He0) as [old Hold]. set (pa := pa_of e) in *. rewrite (bind_step _ _ _ _ _ (load_page_ok _ _ _ Hold)).
    set (zero := is_zero pa old). destruct (Z.eqb_spec (if zero then 0 else cp_checkpoint_ts old) ts) as [Et|Et].
    { left. split_and!; try done. exists old. destruct zero eqn:Ez; [|done].
      by destruct Hts. }
    destruct (new_page_ok F ts (Z.of_nat level) s Hsup) as [(sp & rest & Es & E)|(s1 & E & Hp)];
      [rewrite (bind_step _ _ _ _ _ E)|rewrite (bind_err _ _ _ _ _ E); by apply Hkept].
    set (pn := new_page_of sp ts (Z.of_nat level)).
    set (s1 := add_new (set_pages (<[sp_pa sp := pn]> (p_pages s)) (set_count (p_count s + 1) (set_supply rest s)))).
    rewrite (bind_step (modify add_new) _ _ tt s1 eq_refl).
    assert (Hl1 : p_pages s1 !! sp_pa sp = Some pn) by apply lookup_insert_eq.
    rewrite (bind_step _ _ _ _ _ (load_page_ok _ _ _ Hl1)), (bind_step _ _ _ _ _ (store_page_ok _ _ _ _ Hl1)).
    destruct (filled_ok sp rest ts level (cp_words old) s Hsup Hroom Hzp Es) as (Hn & Hnz & Hok & E2 & Hsup2 & Hr & Hz & ?).
    change (set_pages _ s1) with (filled sp rest ts level (cp_words old) s). set (s2 := filled _ _ _ _ _ s) in *.
    set (n := sp_pa sp) in *. set (pc := with_words (cp_words old) pn) in *.
    destruct zero eqn:Ez.
    { right. split_and!; try done; [by eapply stack_room_le; [|exact Hr]|].
      exists pc. split; [done|]. split; [done|]. right. exists old. split_and!; try done. by left. }
    assert (Hpn : n <> pa) by congruence.
    assert (Ho2 : p_pages s2 !! pa = Some old) by (by rewrite E2, lookup_insert_ne).
    rewrite (bind_step _ _ _ _ _ (store_page_ok _ _ _ _ Ho2)).
    set (s3 := set_pages (<[pa := with_obsoleted ts old]> (p_pages s2)) s2).
    assert (Hsup3 : supply_fresh F (p_pages s3) (p_supply s3)).
    { eapply supply_fresh_sub; [exact Hsup2|]. intros q. unfold s3. cbn [p_pages set_pages]. rewrite lookup_insert.
      case_decide; [subst; by rewrite Ho2|done]. }
    assert (Hk3 : cow_kept e s s3).
    { intros q p Hq. unfold s3. cbn [p_pages set_pages]. destruct (decide (pa = q)) as [<-|Hqne].
      - right. split; [done|]. split; [done|]. by simplify_eq.
      - left. rewrite lookup_insert_ne, E2, lookup_insert_ne by congruence. done. }
    unfold sivfs_on_obsolete_page_stack. pose proof limit_quarter. destruct Hr as [Hwf Hr].
    destruct (push_ok_inv (vz pa) pa (p_obsoleted s3) Hwf) as [(o & -> & Hwf' & Eo & Hsz)|[-> _]].
    + change (p_obsoleted s3) with (p_obsoleted s2). lia.
    + right. split_and!; try done; [split; [done|]; cbn [p_obsoleted set_obsoleted p_supply]; change (p_supply s3) with (p_supply s2); change (p_obsoleted s3) with (p_obsoleted s2) in Hsz; lia|].
      exists pc. split; [done|]. split; [done|]. right. exists old. split_and!; try done. right.
      split_and!; try done. cbn [p_pages set_obsoleted]. unfold s3. cbn [p_pages set_pages]. by rewrite E2.
    + set (s4 := set_obsoleted _ s3).
      assert (Hk4 : cow_kept e s (sivfs_put_checkpoint_page n s4).2).
      { unfold sivfs_put_checkpoint_page. destruct (p_pages s4 !! n) as [x|]; [|exact Hk3].
        destruct (_ || _); [exact Hk3|]. destruct (cp_locked x); [exact Hk3|]. intros q p Hq. cbn [snd p_pages set_pages].
        rewrite lookup_delete_ne by congruence. by apply Hk3. }
      by destruct (sivfs_put_checkpoint_page n s4) as [[] s5].
Qed.

Lemma put_slot_lookup sl e r h q p : h !! q = Some p -> exists p', (put_slot sl e r h).2 !! q = Some p' /\
  cp_checkpoint_ts p' = cp_checkpoint_ts p /\ cp_obsoleted_ts p' = cp_obsoleted_ts p /\ cp_is_zero p' = cp_is_zero p /\
  (p' = p \/ exists o, sl = STable q o).
Proof.
  intros Hq. destruct sl as [|x o]; [exists p; split_and!; by auto|]. cbn [put_slot snd]. destruct (decide (x = q)) as [->|].
  - rewrite lookup_alter_eq, Hq. eexists. split; [done|]. split_and!; try done. eauto.
  - rewrite lookup_alter_ne by done. exists p. split_and!; by auto.
Qed.

Lemma put_slot_back sl e r h q : is_Some ((put_slot sl e r h).2 !! q) -> is_Some (h !! q).
Proof.
  destruct sl as [|x o]; [done|]. cbn [put_slot snd]. destruct (decide (x = q)) as [->|].
  - rewrite lookup_alter_eq. by destruct (h !! q).
  - by rewrite lookup_alter_ne.
Qed.

(** ** The books kept during a replay *)

(** [U] holds of the pages of the machine. The replay starts with the pages [h0] and the tree [C0] of the latest
    checkpoint, and makes the one of time [ts]. *)
Section replay.
Context (U : Z -> Prop) (h0 : pages) (C0 : gmap Z nat) (ts : Z) (Hts : ts <> 0).
Context (HC0 : forall q, is_Some (C0 !! q) -> exists p, h0 !! q = Some p /\ cp_checkpoint_ts p <> ts).

(** [C] is the tree now: pages of [C0] that are not on the obsoleted stack, and new ones. *)
Record book (r : Z) (s : pstore) (C : gmap Z nat) : Prop := {
  b_tree : tree r (p_pages s) C;
  b_zero : zpool s;
  b_supply : supply_fresh F (p_pages s) (p_supply s);
  b_stack : stack_room 0 s;
  b_old : forall q p, C0 !! q = None -> h0 !! q = Some p -> p_pages s !! q = Some p;
  b_meta : forall q p, h0 !! q = Some p -> exists p', p_pages s !! q = Some p' /\
    cp_checkpoint_ts p' = cp_checkpoint_ts p /\ cp_is_zero p' = cp_is_zero p;
  b_cover : forall q, is_Some (C0 !! q) -> is_Some (C !! q) \/ q ∈ elems (p_obsoleted s);
  b_gone : forall q, q ∈ elems (p_obsoleted s) -> is_Some (C0 !! q) /\ C !! q = None /\
    exists p, p_pages s !! q = Some p /\ cp_obsoleted_ts p = ts;
  b_nodup : NoDup (elems (p_obsoleted s));
  b_new : forall q l, C !! q = Some l -> is_Some (C0 !! q) \/
    (h0 !! q = None /\ exists p, p_pages s !! q = Some p /\ cp_checkpoint_ts p = ts);
  b_all : forall q, is_Some (p_pages s !! q) -> is_Some (h0 !! q) \/ is_Some (C !! q);
  b_dom : forall q, is_Some (C !! q) -> U q;
  b_offer : forall sp, Some sp ∈ p_supply s -> U (sp_pa sp)
}.

(** What holds also when the replay fails. *)
Definition kept_outside (rs : rstate) : Prop := forall q p, C0 !! q = None -> h0 !! q = Some p -> p_pages rs.2 !! q = Some p.

Lemma book_kept r s C : book r s C -> kept_outside (r, s).
Proof. intros B q p. apply (b_old _ _ _ B). Qed.

Lemma book_in r s C q l p : book r s C -> C !! q = Some l -> C0 !! q = None -> h0 !! q = Some p -> False.
Proof. intros B Hq Hn Hp. destruct (b_new _ _ _ B q l Hq) as [[]|[? _]]; congruence. Qed.

(** A zero page is not in the tree. *)
Lemma zero_not_in r h C q p : tree r h C -> h !! q = Some p -> is_zero q p = true -> C !! q = None.
Proof.
  intros T Hp Hz. destruct (C !! q) as [l|] eqn:E; [|done]. destruct (t_page _ _ _ T _ _ E) as (_ & _ & x & ? & ?). congruence.
Qed.

Section visit.
Context (r : Z) (s s1 : pstore) (C : gmap Z nat) (sl : slot) (l : nat) (e e' n : Z) (pn' : cpage).
Context (B : book r s C) (Hsl : slot_level C sl = Some l) (He : entry r (p_pages s) sl = Some e).
Context (Hf : fresh_page ts l e s s1 n) (He' : pa_of e' = n) (He0 : e' <> 0).
Context (Hpn : exists pn, p_pages s1 !! n = Some pn /\ (l = 0%nat \/ cp_words pn' = cp_words pn) /\
  is_zero n pn' = false /\ cp_checkpoint_ts pn' = ts).
Let h1 : pages := <[n := pn']> (p_pages s1).
Let h2 : pages := (put_slot sl e' r h1).2.
Let C1 : gmap Z nat := <[n := l]> (delete (pa_of e) C).

(** A page that was there before: only the one replaced is marked. *)
Lemma visit_lookup q p : p_pages s !! q = Some p -> exists p', h1 !! q = Some p' /\
  cp_words p' = cp_words p /\ cp_checkpoint_ts p' = cp_checkpoint_ts p /\ cp_is_zero p' = cp_is_zero p /\
  (p' = p \/ (q = pa_of e /\ is_Some (C !! q))).
Proof.
  intros Hq. destruct Hf as (Hn & _ & _ & _ & _ & _ & pn & Hz & _ & Hc).
  assert (Hqn : q <> n) by congruence. unfold h1. rewrite lookup_insert_ne by done.
  destruct Hc as [(_ & _ & -> & _)|(old & Hne & Ho & _ & [(_ & -> & _)|(Hzo & _ & -> & _)])].
  - rewrite lookup_insert_ne by done. exists p. split_and!; by auto.
  - rewrite lookup_insert_ne by done. exists p. split_and!; by auto.
  - destruct (decide (pa_of e = q)) as [<-|Hqe].
    + rewrite lookup_insert_eq. simplify_eq. eexists. split; [done|]. split_and!; try done. right. split; [done|].
      destruct (t_closed _ _ _ (b_tree _ _ _ B) _ _ _ Hsl He) as [Hnull [Hzt| ->]]; [|by eexists].
      rewrite (ztree_zero _ _ _ _ Hzt) in Hzo; try done. intros E. by apply Hne, Hnull.
    + rewrite !lookup_insert_ne by done. exists p. split_and!; by auto.
Qed.

Lemma visit_same q p : p_pages s !! q = Some p -> C !! q = None -> h1 !! q = Some p.
Proof. intros Hq Hc. destruct (visit_lookup q p Hq) as (p' & ? & _ & _ & _ & [->|[_ Hs]]); [done|]. rewrite Hc in Hs. by destruct Hs. Qed.

Lemma visit_zsame : zsame (p_pages s) h1.
Proof. intros q p Hq Hz. apply visit_same; [done|]. by eapply zero_not_in; [apply B| |]. Qed.

Lemma visit_tree : tree (put_slot sl e' r h1).1 h2 C1.
Proof.
  destruct Hf as (Hn & Hnz & Hok & _ & _ & _ & pn & Hz & Ht & Hc). destruct Hpn as (pn1 & Hpn1 & Hw & Hz' & _).
  assert (pn1 = pn) as ->.
  { assert (E : p_pages s1 !! n = Some pn); [|congruence].
    destruct Hc as [(_ & _ & -> & _)|(old & _ & Ho & _ & [(_ & -> & _)|(_ & _ & -> & _)])]; try apply lookup_insert_eq.
    rewrite lookup_insert_ne by congruence. apply lookup_insert_eq. }
  apply (tree_install r (p_pages s) h1 C sl l e e' n pn'); try done; try apply B.
  - unfold h1. apply lookup_insert_eq.
  - intros q p Hq. destruct (visit_lookup q p Hq) as (p' & ? & ? & _ & ? & _). eauto.
  - apply visit_zsame.
  - intros l' ->. destruct Hw as [?|Hw]; [done|]. rewrite Hw.
    pose proof (t_closed _ _ _ (b_tree _ _ _ B) _ _ _ Hsl He) as [Hnull Hcl].
    destruct Hc as [(-> & Hmk & _)|(old & Hne & Ho & Hwo & _)].
    + assert (Hc0 : C !! pa_of 0 = None).
      { rewrite (Z.land_0_l (PTE_PFN_MASK F) : pa_of 0 = 0). destruct (C !! 0) eqn:E0; [|done].
        by destruct (t_page _ _ _ (b_tree _ _ _ B) _ _ E0). }
      rewrite Hc0. split; [by intros []|]. intros _ o w Hwo. by apply (mk_zero_kids (S l') s (cp_words pn) (b_zero _ _ _ B) Hmk l' eq_refl o w).
    + split; [by exists old|]. intros Hcn o w Hwo'. destruct Hcl as [Hzt|Hcl]; [|congruence].
      destruct Hzt as [E|(x & Hx & _ & Hk)]; [by destruct Hne; apply Hnull|]. simplify_eq. rewrite Hwo in Hwo'. by apply (Hk o w).
Qed.

(** The slot is in a page of the tree. *)
Lemma visit_slot q o : sl = STable q o -> is_Some (C !! q).
Proof. intros ->. apply slot_level_table in Hsl. by rewrite Hsl. Qed.

(** The pages after the slot was written. *)
Lemma visit_final q p : p_pages s !! q = Some p -> exists p', h2 !! q = Some p' /\
  cp_checkpoint_ts p' = cp_checkpoint_ts p /\ cp_is_zero p' = cp_is_zero p /\ (C !! q = None -> p' = p).
Proof.
  intros Hq. destruct (visit_lookup q p Hq) as (p1 & Hp1 & _ & Ht1 & Hz1 & Hk1).
  destruct (put_slot_lookup sl e' r h1 q p1 Hp1) as (p2 & Hp2 & Ht2 & _ & Hz2 & Hk2). exists p2.
  split_and!; [done|congruence|congruence|]. intros Hc.
  destruct Hk1 as [->|[_ Hs]]; [|rewrite Hc in Hs; by destruct Hs].
  destruct Hk2 as [->|[o Ho]]; [done|]. apply visit_slot in Ho. rewrite Hc in Ho. by destruct Ho.
Qed.

Lemma visit_back q : is_Some (h2 !! q) -> q = n \/ is_Some (p_pages s !! q).
Proof.
  intros Hq%put_slot_back. unfold h1 in Hq. destruct (decide (q = n)) as [->|Hqn]; [by left|right].
  rewrite lookup_insert_ne in Hq by done. destruct Hf as (Hn & _ & _ & _ & _ & _ & pn & _ & _ & Hc).
  destruct Hc as [(_ & _ & E & _)|(old & _ & Ho & _ & [(_ & E & _)|(_ & _ & E & _)])]; rewrite E in Hq.
  - by rewrite lookup_insert_ne in Hq.
  - by rewrite lookup_insert_ne in Hq.
  - destruct (decide (pa_of e = q)) as [<-|]; [by eexists|]. by rewrite !lookup_insert_ne in Hq.
Qed.

Lemma visit_obsoleted : (p_obsoleted s1 = p_obsoleted s /\ C !! pa_of e = None) \/
  (elems (p_obsoleted s1) = elems (p_obsoleted s) ++ [pa_of e] /\ is_Some (C !! pa_of e) /\
   (exists p, h2 !! pa_of e = Some p /\ cp_obsoleted_ts p = ts) /\
   exists old, p_pages s !! pa_of e = Some old /\ cp_checkpoint_ts old <> ts).
Proof.
  destruct Hf as (Hn & _ & _ & _ & _ & _ & pn & _ & _ & Hc).
  pose proof (t_closed _ _ _ (b_tree _ _ _ B) _ _ _ Hsl He) as [Hnull Hcl].
  destruct Hc as [(-> & _ & _ & Eo)|(old & Hne & Ho & _ & [(Hz & _ & Eo)|(Hz & Ht & Ep & Eo)])].
  - left. split; [done|]. rewrite (Z.land_0_l (PTE_PFN_MASK F) : pa_of 0 = 0). destruct (C !! 0) eqn:E0; [|done].
    by destruct (t_page _ _ _ (b_tree _ _ _ B) _ _ E0).
  - left. split; [done|]. by eapply zero_not_in; [apply B| |].
  - right. split; [done|]. destruct Hcl as [Hzt|Hcl].
    { rewrite (ztree_zero _ _ _ _ Hzt) in Hz; try done. intros E. by apply Hne, Hnull. }
    split; [by eexists|]. split; [|by exists old].
    assert (Hh1 : h1 !! pa_of e = Some (with_obsoleted ts old)).
    { unfold h1. rewrite lookup_insert_ne by congruence. rewrite Ep. apply lookup_insert_eq. }
    destruct (put_slot_lookup sl e' r h1 _ _ Hh1) as (p2 & Hp2 & _ & Ho2 & _). exists p2. split; [done|]. by rewrite Ho2.
Qed.

Lemma visit_fresh : p_pages s !! n = None /\ C !! n = None /\ h0 !! n = None.
Proof.
  destruct Hf as (Hn & _). split; [done|]. split.
  - destruct (C !! n) eqn:E; [|done]. destruct (t_page _ _ _ (b_tree _ _ _ B) _ _ E) as (_ & _ & x & ? & _). congruence.
  - destruct (h0 !! n) as [p|] eqn:E; [|done]. destruct (b_meta _ _ _ B n p E) as (x & ? & _). congruence.
Qed.

(** The new page is in the tree, and its slot points to it. *)
Lemma visit_book : book (put_slot sl e' r h1).1 (set_pages h2 s1) C1 /\ C1 !! n = Some l.
Proof.
  split; [|apply lookup_insert_eq]. destruct visit_fresh as (Hn & HnC & Hn0). pose proof visit_obsoleted as Hobs.
  pose proof Hf as (_ & _ & _ & Ez & Hsup & [Hroom [(sp & Hsp & Esp) Hsup']] & _). destruct Hpn as (pn & Hpn1 & _ & _ & Ht').
  assert (HC1 : forall q k, q <> pa_of e -> C !! q = Some k -> C1 !! q = Some k).
  { intros q k Hq Hk. unfold C1. rewrite lookup_insert_ne, lookup_delete_ne by congruence. done. }
  split; cbn [p_pages set_pages p_obsoleted p_supply].
  - apply visit_tree.
  - apply (zpool_same s); [done| |apply B]. intros q p Hq Hz. destruct (visit_final q p Hq) as (p' & Hp' & _ & _ & E).
    rewrite <- E; [done|]. by eapply zero_not_in; [apply B| |].
  - eapply supply_fresh_sub; [exact Hsup|]. intros q Hq%put_slot_back. unfold h1 in Hq.
    destruct (decide (q = n)) as [->|]; [by eexists|]. by rewrite lookup_insert_ne in Hq.
  - exact Hroom.
  - intros q p Hc0 Hq. pose proof (b_old _ _ _ B q p Hc0 Hq) as Hs. destruct (visit_final q p Hs) as (p' & Hp' & _ & _ & E).
    rewrite <- E; [done|]. destruct (C !! q) as [k|] eqn:Ek; [|done]. destruct (book_in _ _ _ _ _ _ B Ek Hc0 Hq).
  - intros q p Hq. destruct (b_meta _ _ _ B q p Hq) as (p1 & H1 & ? & ?), (visit_final q p1 H1) as (p2 & H2 & ? & ? & _).
    exists p2. split_and!; [done|congruence..].
  - intros q Hq. destruct (b_cover _ _ _ B q Hq) as [[k Hk]|Hq'].
    + destruct (decide (q = pa_of e)) as [->|Hqe]; [|left; rewrite (HC1 q k Hqe Hk); by eexists].
      destruct Hobs as [[_ ?]|[E _]]; [congruence|right]. rewrite E. apply elem_of_app. right. left.
    + right. destruct Hobs as [[-> _]|[E _]]; [done|]. rewrite E. apply elem_of_app. by left.
  - intros q Hq. assert (Hold : q ∈ elems (p_obsoleted s) -> is_Some (C0 !! q) /\ C1 !! q = None /\
      exists p, h2 !! q = Some p /\ cp_obsoleted_ts p = ts).
    { intros Hq0. destruct (b_gone _ _ _ B q Hq0) as (Hc0 & HcN & p & Hp & Hpt). split; [done|]. split.
      - unfold C1. rewrite lookup_insert_ne by congruence. apply lookup_delete_None. by right.
      - destruct (visit_final q p Hp) as (p' & Hp' & _ & _ & E). exists p'. rewrite (E HcN) in *. done. }
    destruct Hobs as [[E _]|(E & [k Hk] & Hp & old & Ho & Hto)]; rewrite E in Hq; [by apply Hold|].
    apply elem_of_app in Hq as [Hq|Hq%list_elem_of_singleton]; [by apply Hold|]. subst q. split; [|split; [|done]].
    + destruct (b_new _ _ _ B _ _ Hk) as [?|[_ (p & Hp' & ?)]]; [done|congruence].
    + unfold C1. rewrite lookup_insert_ne by congruence. apply lookup_delete_eq.
  - destruct Hobs as [[-> _]|(-> & [k Hk] & _)]; [apply B|]. apply NoDup_app. split; [apply B|]. split; [|apply NoDup_singleton].
    intros x Hx ->%list_elem_of_singleton. destruct (b_gone _ _ _ B _ Hx) as (_ & HcN & _). congruence.
  - intros q k Hq. unfold C1 in Hq. apply lookup_insert_Some in Hq as [[<- _]|[Hqn [Hqe Hq]%lookup_delete_Some]].
    + right. split; [done|]. assert (Hh : h1 !! n = Some pn') by apply lookup_insert_eq.
      destruct (put_slot_lookup sl e' r h1 n pn' Hh) as (p' & Hp' & Ht & _). exists p'. split; [done|congruence].
    + destruct (b_new _ _ _ B q k Hq) as [?|[? (p & Hp & Ht)]]; [by left|right]. split; [done|].
      destruct (visit_final q p Hp) as (p' & Hp' & ? & _). exists p'. split; [done|congruence].
  - intros q [->|Hq]%visit_back; [right; by eexists (l : nat); apply lookup_insert_eq|].
    destruct (b_all _ _ _ B q Hq) as [?|[k Hk]]; [by left|].
    destruct (decide (q = pa_of e)) as [->|Hqe]; [|right; rewrite (HC1 q k Hqe Hk); by eexists].
    left. destruct (b_new _ _ _ B _ _ Hk) as [[k0 Hk0]|[Hnone (p & Hp & Ht)]].
    + destruct (HC0 _ (ex_intro _ k0 Hk0)) as (p & ? & _). by eexists.
    + destruct Hobs as [[_ ?]|(_ & _ & _ & old & Ho & Hto)]; congruence.
  - intros q [k Hq]. unfold C1 in Hq. apply lookup_insert_Some in Hq as [[<- _]|[_ [_ Hq]%lookup_delete_Some]].
    + rewrite <- Esp. by apply (b_offer _ _ _ B).
    + apply (b_dom _ _ _ B). by eexists.
  - intros sp' Hsp'. by apply (b_offer _ _ _ B), Hsup'.
Qed.
End visit.

(** Pages of the tree are changed, not their timestamps. *)
Lemma book_touch r s C r' h' : book r s C -> tree r' h' C ->
  (forall q p, p_pages s !! q = Some p -> exists p', h' !! q = Some p' /\ cp_checkpoint_ts p' = cp_checkpoint_ts p /\
     cp_is_zero p' = cp_is_zero p /\ (C !! q = None -> p' = p)) ->
  (forall q, is_Some (h' !! q) -> is_Some (p_pages s !! q)) -> book r' (set_pages h' s) C.
Proof.
  intros B T Hto Hback. split; cbn [p_pages set_pages p_obsoleted p_supply]; try apply B; try done.
  - apply (zpool_same s); [done| |apply B]. intros q p Hq Hz. destruct (Hto q p Hq) as (p' & Hp' & _ & _ & E).
    rewrite <- E; [done|]. by eapply zero_not_in; [apply B| |].
  - eapply supply_fresh_sub; [apply B|]. exact Hback.
  - intros q p Hc0 Hq. pose proof (b_old _ _ _ B q p Hc0 Hq) as Hs. destruct (Hto q p Hs) as (p' & Hp' & _ & _ & E).
    rewrite <- E; [done|]. destruct (C !! q) as [k|] eqn:Ek; [|done]. destruct (book_in _ _ _ _ _ _ B Ek Hc0 Hq).
  - intros q p Hq. destruct (b_meta _ _ _ B q p Hq) as (p1 & H1 & ? & ?), (Hto q p1 H1) as (p2 & H2 & ? & ? & _).
    exists p2. split_and!; [done|congruence..].
  - intros q Hq. destruct (b_gone _ _ _ B q Hq) as (? & HcN & p & Hp & ?). split_and!; [done|done|].
    destruct (Hto q p Hp) as (p' & Hp' & _ & _ & E). exists p'. by rewrite (E HcN) in *.
  - intros q k Hq. destruct (b_new _ _ _ B q k Hq) as [?|[? (p & Hp & Ht)]]; [by left|right]. split; [done|].
    destruct (Hto q p Hp) as (p' & Hp' & ? & _). exists p'. split; [done|congruence].
  - intros q Hq. by apply (b_all _ _ _ B), Hback.
Qed.

(** A slot is written again with an entry for the same page. *)
Lemma tree_rewrite r h C sl l e e' : tree r h C -> slot_level C sl = Some l -> entry r h sl = Some e ->
  pa_of e' = pa_of e -> e' <> 0 -> pa_of e <> 0 -> tree (put_slot sl e' r h).1 (put_slot sl e' r h).2 C.
Proof.
  intros T Hsl He Epa He0 Hpa. assert (T' := T). destruct T as [Tp Tc Tr Tu].
  assert (Hent : forall sl' l' x, slot_level C sl' = Some l' ->
    entry (put_slot sl e' r h).1 (put_slot sl e' r h).2 sl' = Some x ->
    exists y, entry r h sl' = Some y /\ pa_of x = pa_of y /\ (pa_of y = 0 -> x = y)).
  { intros sl' l' x Hl Hx. destruct sl as [|p o].
    - destruct sl' as [|p' o']; [|by exists x]. injection Hx as <-. injection He as ->. exists e. done.
    - destruct sl' as [|p' o']; [by exists x|]. cbn [put_slot fst snd entry] in Hx, He |- *. destruct (decide (p = p')) as [->|Hne].
      + rewrite lookup_alter_eq in Hx. destruct (h !! p') as [pp|]; [|done]. simpl in Hx, He |- *.
        destruct (Z.ltb_spec o 0); [done|]. destruct (Z.ltb_spec o' 0); [done|].
        destruct (decide (o = o')) as [->|Ho].
        * rewrite list_lookup_insert_eq in Hx by (by eapply lookup_lt_Some). injection Hx as <-. by exists e.
        * rewrite list_lookup_insert_ne in Hx by lia. by exists x.
      + rewrite lookup_alter_ne in Hx by done. by exists x. }
  assert (Hback : forall sl' l' y, slot_level C sl' = Some l' -> entry r h sl' = Some y ->
    exists x, entry (put_slot sl e' r h).1 (put_slot sl e' r h).2 sl' = Some x /\ pa_of x = pa_of y).
  { intros sl' l' y Hl Hy. destruct sl as [|p o].
    - destruct sl' as [|p' o']; [|by exists y]. injection He as ->. injection Hy as ->. by exists e'.
    - destruct sl' as [|p' o']; [by exists y|]. cbn [put_slot fst snd entry] in Hy, He |- *. destruct (decide (p = p')) as [->|Hne].
      + rewrite lookup_alter_eq. destruct (h !! p') as [pp|]; [|done]. simpl in Hy, He |- *.
        destruct (Z.ltb_spec o 0); [done|]. destruct (Z.ltb_spec o' 0); [done|].
        destruct (decide (o = o')) as [->|Ho].
        * rewrite list_lookup_insert_eq by (by eapply lookup_lt_Some). exists e'. split; [done|congruence].
        * rewrite list_lookup_insert_ne by lia. by exists y.
      + rewrite lookup_alter_ne by done. by exists y. }
  assert (Hzs : zsame h (put_slot sl e' r h).2).
  { intros q p Hq Hz. destruct (put_slot_lookup sl e' r h q p Hq) as (p' & Hp' & _ & _ & _ & [->|[o ->]]); [done|].
    apply slot_level_table in Hsl. by rewrite (zero_not_in r h C q p T' Hq Hz) in Hsl. }
  split.
  - intros q k Hq. destruct (Tp q k Hq) as (? & ? & p & Hp & Hz). split_and!; [done|done|].
    destruct (put_slot_lookup sl e' r h q p Hp) as (p' & Hp' & _ & _ & Ez & _). exists p'. split; [done|].
    unfold sivfs_is_zero_page in *. by rewrite Ez.
  - intros sl' l' x Hl Hx. destruct (Hent sl' l' x Hl Hx) as (y & Hy & E & E0).
    destruct (Tc sl' l' y Hl Hy) as [Hn Hk]. rewrite E. split; [intros Hy0; rewrite (E0 Hy0); auto|].
    destruct Hk as [Hk|?]; [left|by right]. by apply (ztree_same h).
  - intros q k Hq. destruct (Tr q k Hq) as (s0 & y & Hl & Hy & <-). destruct (Hback s0 k y Hl Hy) as (x & Hx & E). eauto.
  - intros s1 s2 l1 l2 x1 x2 Hl1 Hl2 Hx1 Hx2 E Hs.
    destruct (Hent s1 l1 x1 Hl1 Hx1) as (y1 & Hy1 & E1 & _), (Hent s2 l2 x2 Hl2 Hx2) as (y2 & Hy2 & E2 & _).
    eapply (Tu s1 s2 l1 l2 y1 y2); try done; [congruence|by rewrite <- E1].
Qed.

(** ** The loop over the levels *)

Lemma read_slot_entry sl r s : match read_slot sl (r, s) with
  | (Ok e, st) => st = (r, s) /\ entry r (p_pages s) sl = Some e
  | (_, st) => st = (r, s)
  end.
Proof.
  destruct sl as [|p o]; [done|]. unfold read_slot, bind, on_ps, load_page, lift. cbn [snd fst entry].
  destruct (p_pages s !! p) as [pp|]; [|done]. simpl. unfold rd_word. destruct (o <? 0); [done|].
  by destruct (cp_words pp !! Z.to_nat o).
Qed.

Lemma write_slot_put sl e r s : match write_slot sl e (r, s) with
  | (Ok _, st) => st = ((put_slot sl e r (p_pages s)).1, set_pages (put_slot sl e r (p_pages s)).2 s)
  | (_, st) => st = (r, s)
  end.
Proof.
  destruct sl as [|p o]; [by destruct s|]. unfold write_slot, bind, on_ps, load_page, lift, store_page, wr_word. cbn [snd fst].
  destruct (p_pages s !! p) as [pp|] eqn:Ep; [|done]. cbn [deref]. destruct (_ && _); [|done]. cbn [snd fst].
  cbn [put_slot fst snd]. do 2 f_equal. f_equal. apply map_eq. intros q. rewrite lookup_insert, lookup_alter.
  case_decide as E; [|done]. subst q. by rewrite Ep.
Qed.

(** The leaf changes only the new page. *)
Lemma apply_leaf_spec off v nowrite n s pn : p_pages s !! n = Some pn ->
  match apply_leaf off v nowrite n s with
  | (Ok _, s') => exists w i, s' = set_pages (<[n := with_index i (with_words w pn)]> (p_pages s)) s
  | (_, s') => s' = s
  end.
Proof.
  intros Hn. unfold apply_leaf. rewrite (bind_step _ _ _ _ _ (load_page_ok _ _ _ Hn)). unfold bind, lift.
  destruct (if nowrite then _ else _) as [w| | |]; try done. rewrite (store_page_ok _ _ _ _ Hn). eauto.
Qed.

Lemma cow_kept_outside r s C sl l e s1 : book r s C -> slot_level C sl = Some l -> entry r (p_pages s) sl = Some e ->
  cow_kept e s s1 -> kept_outside (r, s1).
Proof.
  intros B Hsl He Hk q p Hc0 Hq. pose proof (b_old _ _ _ B q p Hc0 Hq) as Hs.
  destruct (Hk q p Hs) as [?|(Hne & -> & Hz)]; [done|].
  destruct (t_closed _ _ _ (b_tree _ _ _ B) _ _ _ Hsl He) as [Hnull [Hzt|Hc]].
  - rewrite (ztree_zero _ _ _ _ Hzt) in Hz; [done|by intros E; apply Hne, Hnull|done].
  - destruct (book_in _ _ _ _ _ _ B Hc Hc0 Hq).
Qed.

(** What holds after a page was chosen for a slot: whatever is done to a leaf
    ([pn'] is the page then), the slot may be written. *)
Definition ready_to_link (r : Z) (s1 : pstore) (C : gmap Z nat) (sl : slot) (l : nat) (n : Z) : Prop :=
  exists pn, p_pages s1 !! n = Some pn /\
  forall pn' e', (l = 0%nat \/ cp_words pn' = cp_words pn) -> cp_is_zero pn' = cp_is_zero pn ->
    cp_checkpoint_ts pn' = cp_checkpoint_ts pn -> pa_of e' = n -> e' <> 0 ->
    let h1 := <[n := pn']> (p_pages s1) in kept_outside (r, set_pages h1 s1) /\
    exists C', book (put_slot sl e' r h1).1 (set_pages (put_slot sl e' r h1).2 s1) C' /\ C' !! n = Some l.

(** A page of this checkpoint is used as it is. *)
Lemma link_in_place r s C sl l e old : book r s C -> slot_level C sl = Some l -> entry r (p_pages s) sl = Some e ->
  C !! pa_of e = Some l -> p_pages s !! pa_of e = Some old -> ready_to_link r s C sl l (pa_of e).
Proof.
  intros B Hsl He Hc Ho. exists old. split; [done|]. intros pn' e' Hw Ez Et Epa He0 h1.
  destruct (t_page _ _ _ (b_tree _ _ _ B) _ _ Hc) as (Hn0 & _).
  assert (Hto : forall q p, p_pages s !! q = Some p -> exists p', h1 !! q = Some p' /\
    (forall k, C !! q = Some k -> k = 0%nat \/ cp_words p' = cp_words p) /\
    cp_checkpoint_ts p' = cp_checkpoint_ts p /\ cp_is_zero p' = cp_is_zero p /\ (C !! q = None -> p' = p)).
  { intros q p Hq. unfold h1. rewrite lookup_insert. case_decide as E; [|exists p; split_and!; by auto].
    subst q. simplify_eq. exists pn'. split_and!; try done; [|congruence]. intros k Hk. rewrite Hc in Hk. by injection Hk as <-. }
  assert (B1 : book r (set_pages h1 s) C).
  { eapply book_touch; [done| | |].
    - apply (tree_same r (p_pages s)); [apply B| |].
      + intros q p Hq Hzq. destruct (Hto q p Hq) as (p' & Hp' & _ & _ & _ & E). rewrite <- E; [done|].
        by eapply zero_not_in; [apply B| |].
      + intros q k p Hk Hq. destruct (Hto q p Hq) as (p' & Hp' & E & _ & ? & _). exists p'. split_and!; [done|by apply E|done].
    - intros q p Hq. destruct (Hto q p Hq) as (p' & ? & _ & ? & ? & ?). eauto 10.
    - intros q. unfold h1. rewrite lookup_insert. case_decide as E; [subst q; intros _; by eexists|done]. }
  split; [by eapply book_kept|]. exists C. split; [|done].
  assert (He1 : entry r h1 sl = Some e).
  { eapply entry_words; [|exact He]. intros p o pp -> Hp. destruct (Hto p pp Hp) as (p' & Hp' & E & _).
    apply slot_level_table in Hsl. destruct (E _ Hsl) as [?|?]; [done|]. eauto. }
  change (set_pages ?x s) with (set_pages x (set_pages h1 s)). eapply book_touch; [exact B1| | |].
  - by apply (tree_rewrite r h1 C sl l e e' (b_tree _ _ _ B1)).
  - intros q p Hq. destruct (put_slot_lookup sl e' r h1 q p Hq) as (p' & ? & ? & _ & ? & E). exists p'. split_and!; try done.
    intros HcN. destruct E as [->|[o ->]]; [done|]. apply slot_level_table in Hsl. congruence.
  - intros q. apply put_slot_back.
Qed.

(** A fresh page. *)
Lemma link_fresh r s s1 C sl l e n : book r s C -> slot_level C sl = Some l -> entry r (p_pages s) sl = Some e ->
  fresh_page ts l e s s1 n -> kept_outside (r, s1) /\ ready_to_link r s1 C sl l n.
Proof.
  intros B Hsl He Hf. pose proof Hf as (Hn & _ & _ & _ & _ & _ & pn & Hzn & Htn & Hc).
  assert (Hpn : p_pages s1 !! n = Some pn).
  { destruct Hc as [(_ & _ & -> & _)|(old & _ & Ho & _ & [(_ & -> & _)|(_ & _ & -> & _)])]; try apply lookup_insert_eq.
    rewrite lookup_insert_ne by congruence. apply lookup_insert_eq. }
  assert (Hh0 : h0 !! n = None).
  { destruct (h0 !! n) as [p|] eqn:E; [|done]. destruct (b_meta _ _ _ B n p E) as (x & ? & _). congruence. }
  assert (Hk1 : kept_outside (r, s1)).
  { intros q p Hc0 Hq. assert (q <> n) by congruence. pose proof (b_old _ _ _ B q p Hc0 Hq) as Hs. cbn [snd].
    destruct Hc as [(_ & _ & -> & _)|(old & Hne & Ho & _ & [(_ & -> & _)|(Hz & _ & -> & _)])]; try (by rewrite lookup_insert_ne).
    rewrite !lookup_insert_ne; [done|done|]. intros <-.
    destruct (t_closed _ _ _ (b_tree _ _ _ B) _ _ _ Hsl He) as [Hnull [Hzt|Hcl]]; [|by destruct (book_in _ _ _ _ _ _ B Hcl Hc0 Hq)].
    rewrite (ztree_zero _ _ _ _ Hzt) in Hz; [done|by intros E; apply Hne, Hnull|done]. }
  split; [done|]. exists pn. split; [done|]. intros pn' e' Hw Ezn Et Epa He0 h1. split.
  - intros q p Hc0 Hq. cbn [snd p_pages set_pages]. unfold h1. rewrite lookup_insert_ne by congruence. by apply Hk1.
  - exists (<[n := l]> (delete (pa_of e) C)). apply (visit_book r s s1 C sl l e e' n pn' B Hsl He Hf Epa).
    exists pn. split_and!; [done|done| |congruence]. unfold sivfs_is_zero_page in *. by rewrite Ezn.
Qed.

(** One level of the loop, up to the write to the slot. *)
Lemma visit_ok vz r s C sl l e : book r s C -> slot_level C sl = Some l -> entry r (p_pages s) sl = Some e ->
  match cow_page F ZERO_PAGE (obsolete_on vz) ts l e s with
  | (Ok n, s1) => n <> 0 /\ pa_ok F n /\ kept_outside (r, s1) /\ ready_to_link r s1 C sl l n
  | (_, s1) => kept_outside (r, s1)
  end.
Proof.
  intros B Hsl He. pose proof (t_closed _ _ _ (b_tree _ _ _ B) _ _ _ Hsl He) as [Hnull Hcl].
  assert (Hzp : is_Some (p_pages s !! ZERO_PAGE)).
  { destruct (b_zero _ _ _ B) as [Hz0 Hz]. destruct (Hz 0%nat) as (z & Hz1 & Hnz & _ & Hzt); [unfold SIVFS_CHECKPOINT_FOFFSET_LEVELS; lia|].
    rewrite Hz0 in Hz1. injection Hz1 as <-. destruct Hzt as [?|(p & Hp & _)]; [done|by eexists]. }
  assert (Hpage : e <> 0 -> is_Some (p_pages s !! pa_of e)).
  { intros Hne. destruct Hcl as [Hzt|Hc].
    - destruct l; destruct Hzt as [E|(p & Hp & _)]; try (by eexists); by destruct Hne; apply Hnull.
    - destruct (t_page _ _ _ (b_tree _ _ _ B) _ _ Hc) as (_ & _ & p & Hp & _). by eexists. }
  pose proof (cow_spec vz ts l e s Hts (b_supply _ _ _ B) (b_stack _ _ _ B) Hzp Hpage) as Hcow.
  destruct (cow_page F ZERO_PAGE (obsolete_on vz) ts l e s) as [[n| | |] s1]; try (by eapply cow_kept_outside).
  destruct Hcow as [(-> & Hne & -> & old & Ho & Hz & Ht)|Hf].
  - destruct Hcl as [Hzt|Hc].
    { rewrite (ztree_zero _ _ _ _ Hzt) in Hz; [done|by intros E; apply Hne, Hnull|done]. }
    destruct (t_page _ _ _ (b_tree _ _ _ B) _ _ Hc) as (Hn0 & Hok & _).
    split_and!; [done|done|by eapply book_kept|]. by eapply link_in_place.
  - destruct (link_fresh r s s1 C sl l e n B Hsl He Hf). by destruct Hf as (_ & ? & ? & _).
Qed.

Definition booked (rs : rstate) : Prop := exists C, book rs.1 rs.2 C.

Lemma booked_kept rs : booked rs -> kept_outside rs.
Proof. intros [C B]. destruct rs as [r s]. by eapply book_kept. Qed.

Lemma levels_sound vz off v nowrite level : forall r s C sl iter, book r s C -> slot_level C sl = Some level ->
  match apply_levels F ZERO_PAGE (obsolete_on vz) ts off v nowrite level sl iter (r, s) with
  | (Ok _, st) => booked st
  | (_, st) => kept_outside st
  end.
Proof.
  induction level as [|l IH]; intros r s C sl iter B Hsl; cbn [apply_levels]; unfold bind at 1;
    pose proof (read_slot_entry sl r s) as Hrd; destruct (read_slot sl (r, s)) as [[e| | |] st];
    try (subst st; by eapply book_kept); destruct Hrd as [-> He]; unfold bind at 1, on_ps at 1; cbn [fst snd].
  - pose proof (visit_ok vz r s C sl 0 e B Hsl He) as Hv.
    destruct (cow_page F ZERO_PAGE (obsolete_on vz) ts 0 e s) as [[n| | |] s1]; try exact Hv.
    destruct Hv as (Hn0 & Hok & Hk1 & pn & Hpn & Hlink). unfold bind at 1, on_ps at 1. cbn [fst snd].
    pose proof (apply_leaf_spec off v nowrite n s1 pn Hpn) as Hlf.
    destruct (apply_leaf off v nowrite n s1) as [[[]| | |] s2]; try (subst s2; exact Hk1).
    destruct Hlf as (w & i & ->). set (pn' := with_index i (with_words w pn)).
    destruct (entry_for_ok F 1 n Hok Hn0) as [Epa He0].
    destruct (Hlink pn' (entry_for F 1 n)) as [Hk2 (C' & B' & _)]; try done; [by left|].
    unfold bind. pose proof (write_slot_put sl (entry_for F 1 n) r (set_pages (<[n := pn']> (p_pages s1)) s1)) as Hw.
    destruct (write_slot sl _ _) as [[[]| | |] st]; subst st; try exact Hk2. by exists C'.
  - pose proof (visit_ok vz r s C sl (S l) e B Hsl He) as Hv.
    destruct (cow_page F ZERO_PAGE (obsolete_on vz) ts (S l) e s) as [[n| | |] s1]; try exact Hv.
    destruct Hv as (Hn0 & Hok & Hk1 & pn & Hpn & Hlink). unfold bind at 1. cbn [ret].
    destruct (entry_for_ok F (S (S l)) n Hok Hn0) as [Epa He0].
    destruct (Hlink pn (entry_for F (S (S l)) n)) as [Hk2 (C' & B' & Hn')]; try done; [by right|].
    rewrite (insert_id _ _ _ Hpn) in Hk2, B'. unfold bind at 1.
    pose proof (write_slot_put sl (entry_for F (S (S l)) n) r s1) as Hw.
    destruct (write_slot sl _ _) as [[[]| | |] st]; subst st; try exact Hk1.
    unfold bind, lift. destruct (sivfs_checkpoint_iter_next_offset iter) as [o| | |]; try (by eapply book_kept).
    eapply IH; [exact B'|]. by apply slot_level_table.
Qed.

Lemma change_sound vz ino off v opt :
  sound booked kept_outside (sivfs_apply_change_checkpoint F ZERO_PAGE (obsolete_on vz) ino off v ts opt).
Proof.
  apply sound_bind; [apply sound_lift, booked_kept|]. intros iter [r s] [C B]. by apply (levels_sound _ _ _ _ _ _ _ C).
Qed.

(** Every committed write of the log entries. *)
Lemma replay_sound vz st latest :
  sound booked kept_outside (_sivfs_make_checkpoint F ZERO_PAGE (obsolete_on vz) st latest ts).
Proof.
  pose proof booked_kept as HJK. unfold _sivfs_make_checkpoint. destruct (_ =? _); [by apply (sound_lift _ _ (Err EINVAL))|].
  apply sound_bind; [by apply sound_lift|intros [log|]; [|by apply (sound_lift _ _ (Err EINVAL))]].
  apply sound_bind; [by apply sound_lift|intros e]. destruct (_ <? _); [apply sound_ret|].
  apply log_iter_sound; [done|]. intros e'. unfold apply_log_entry. destruct (le_aborted e'); [apply sound_ret|].
  apply sound_bind; [|intros _; apply sound_ret]. apply ws_for_each_sound; [done|]. intros ent info. cbv zeta.
  do 3 (apply sound_bind; [by apply sound_lift|intros ?]). apply sound_bind; [apply change_sound|intros _; apply sound_ret].
Qed.
End replay.
End trees.
