(* ===== verification/Checkpoints.v ===== *)
(** The checkpoints of a mounted file system: the checkpoint inodes, the reverse
    index and its lookup, publication of a checkpoint, the list of obsoleted
    entries, making a checkpoint and preparing it for direct access
    (kern/sivfs_checkpoints.h, kern/sivfs_checkpoints.c,
    kern/sivfs_make_checkpoint.c, sivfs_gc_mark_pages_obsoleted of
    kern/sivfs_gc_checkpoints.c).

    A checkpoint inode is named by a number, 0 for NULL; [c_inodes] holds the
    checkpoint fields of the inodes that are alive. The stacks of
    gc_blocked_entries are each owned by one slot of the tree, so the tree maps
    timestamps to stacks. *)
From S2P Require Import Prelude Types Stack RadixTree Writeset Log LogView PageTree MakeCheckpoint CheckpointMemory.

(** ** Entries of the garbage collector (sivfs_checkpoints.h) *)

Definition SIVFS_GC_ENTRY_PAGE : Z := 2.
Definition SIVFS_GC_ENTRY_INODE : Z := 4.
Definition SIVFS_GC_ENTRY_FLAGS : Z := 7.

Definition sivfs_gc_entry_to_type (entry : Z) : res Z :=
  let flags := Z.land entry SIVFS_GC_ENTRY_FLAGS in
  if flags =? SIVFS_GC_ENTRY_PAGE then Ok SIVFS_GC_ENTRY_PAGE
  else if flags =? SIVFS_GC_ENTRY_INODE then Ok SIVFS_GC_ENTRY_INODE
  else Err EINVAL.

Definition sivfs_gc_make_entry_page (page : Z) : res Z :=
  if negb (Z.land page SIVFS_GC_ENTRY_FLAGS =? 0) then Err EINVAL
  else Ok (Z.lor page SIVFS_GC_ENTRY_PAGE).

Definition sivfs_gc_make_entry_inode (inode : Z) : res Z :=
  if negb (Z.land inode SIVFS_GC_ENTRY_FLAGS =? 0) then Err EINVAL
  else Ok (Z.lor inode SIVFS_GC_ENTRY_INODE).

Definition sivfs_gc_entry_to_page (entry : Z) : Z := Z.land entry (unot SIVFS_GC_ENTRY_FLAGS).
Definition sivfs_gc_entry_to_inode (entry : Z) : Z := Z.land entry (unot SIVFS_GC_ENTRY_FLAGS).

(** ** Marking pages and a checkpoint obsoleted *)

(** The loop that writes past [obsoleted_entries->size]; the result is [new_size]. *)
Fixpoint put_page_entries (pages : list Z) (new_size : Z) : M sivfs_stack Z :=
  match pages with
  | [] => ret new_size
  | page :: pages =>
    let! toAdd := lift (sivfs_gc_make_entry_page page) in
    do! stack_set new_size toAdd in
    put_page_entries pages (uadd new_size 1)
  end.

(** On [checkpoints->obsoleted_entries]; [vz] tells whether growing it finds memory. *)
Definition sivfs_gc_mark_pages_obsoleted (vz : bool) (obsoleted_pages : sivfs_stack)
    (obsoleted_checkpoint : option Z) : M sivfs_stack unit :=
  let! size := gets st_size in
  do! sivfs_stack_reserve vz (uadd (uadd size (st_size obsoleted_pages)) 1) in
  let! new_size := put_page_entries (elems obsoleted_pages) size in
  let! new_size :=
    (match obsoleted_checkpoint with
     | None => ret new_size
     | Some inode =>
       let! toAdd := lift (sivfs_gc_make_entry_inode inode) in
       do! stack_set new_size toAdd in
       ret (uadd new_size 1)
     end) in
  set_size new_size.

(** ** State *)

Record cp_inode : Type := mk_inode {
  ci_root : Z;
  ci_ts : Z;
  ci_obsoleted_ts : Z
}.

Record cps : Type := mk_cps {
  c_latest : Z;
  c_latest_ts : Z;
  c_published : Z;
  c_reverse : gmap Z Z;
  c_inodes : gmap Z cp_inode;
  c_obsoleted : sivfs_stack;
  c_blocked : gmap Z sivfs_stack;
  c_store : pstore;
  c_ncheckpoints : Z;
  c_ncheckpoint_txns : Z
}.

Definition set_latest (cp ts pub : Z) (c : cps) : cps :=
  mk_cps cp ts pub (c_reverse c) (c_inodes c) (c_obsoleted c) (c_blocked c) (c_store c)
    (c_ncheckpoints c) (c_ncheckpoint_txns c).
Definition set_reverse (t : gmap Z Z) (c : cps) : cps :=
  mk_cps (c_latest c) (c_latest_ts c) (c_published c) t (c_inodes c) (c_obsoleted c) (c_blocked c) (c_store c)
    (c_ncheckpoints c) (c_ncheckpoint_txns c).
Definition set_inodes (m : gmap Z cp_inode) (c : cps) : cps :=
  mk_cps (c_latest c) (c_latest_ts c) (c_published c) (c_reverse c) m (c_obsoleted c) (c_blocked c) (c_store c)
    (c_ncheckpoints c) (c_ncheckpoint_txns c).
Definition set_obsoleted_entries (o : sivfs_stack) (c : cps) : cps :=
  mk_cps (c_latest c) (c_latest_ts c) (c_published c) (c_reverse c) (c_inodes c) o (c_blocked c) (c_store c)
    (c_ncheckpoints c) (c_ncheckpoint_txns c).
Definition set_blocked (b : gmap Z sivfs_stack) (c : cps) : cps :=
  mk_cps (c_latest c) (c_latest_ts c) (c_published c) (c_reverse c) (c_inodes c) (c_obsoleted c) b (c_store c)
    (c_ncheckpoints c) (c_ncheckpoint_txns c).
Definition set_store (s : pstore) (c : cps) : cps :=
  mk_cps (c_latest c) (c_latest_ts c) (c_published c) (c_reverse c) (c_inodes c) (c_obsoleted c) (c_blocked c) s
    (c_ncheckpoints c) (c_ncheckpoint_txns c).
Definition count_checkpoint (txns : Z) (c : cps) : cps :=
  mk_cps (c_latest c) (c_latest_ts c) (c_published c) (c_reverse c) (c_inodes c) (c_obsoleted c) (c_blocked c)
    (c_store c) (uadd (c_ncheckpoints c) 1) (uadd (c_ncheckpoint_txns c) txns).

(** Runs on one field of the state. *)
Definition on_entries {A} (m : M sivfs_stack A) : M cps A := fun c =>
  let '(r, o) := m (c_obsoleted c) in (r, set_obsoleted_entries o c).
Definition on_reverse {A} (m : M (gmap Z Z) A) : M cps A := fun c =>
  let '(r, t) := m (c_reverse c) in (r, set_reverse t c).

(** A replay through [&cpinfo->cp_root] of the checkpoint inode [ino]. *)
Definition on_root {A} (ino : Z) (m : M rstate A) : M cps A := fun c =>
  match c_inodes c !! ino with
  | None => (Fault, c)
  | Some i =>
    let '(r, (root, ps)) := m (ci_root i, c_store c) in
    (r, set_store ps (set_inodes (<[ino := mk_inode root (ci_ts i) (ci_obsoleted_ts i)]> (c_inodes c)) c))
  end.

Definition load_inode (ino : Z) : M cps cp_inode := fun c => (deref (c_inodes c !! ino), c).
Definition store_inode (ino : Z) (i : cp_inode) : M cps unit :=
  modify (fun c => set_inodes (<[ino := i]> (c_inodes c)) c).

(** [iput] of a checkpoint inode drops its only reference. *)
Definition iput (ino : Z) : M cps unit := modify (fun c => set_inodes (delete ino (c_inodes c)) c).

(** [sivfs_get_inode] with a zeroed [sivfs_inode_info] whose obsoleted_ts is
    SIVFS_INVALID_TS; [alloc] is the inode the kernel returns. *)
Definition sivfs_create_checkpoint_inode (alloc : option Z) : M cps Z :=
  match alloc with
  | None => throw ENOMEM
  | Some ino => do! store_inode ino (mk_inode 0 0 SIVFS_INVALID_TS) in ret ino
  end.

(** ** Lookup, insertion and publication *)

(** The first value at an index of at least [start]. *)
Definition radix_first_from (start : Z) (t : gmap Z Z) : option Z :=
  snd <$> head (filter (fun kv : Z * Z => start <= kv.1) (radix_tree_items t)).

(** 0 for NULL. *)
Definition sivfs_checkpoint_lookup (desired_ts : Z) (c : cps) : Z :=
  let latest_snapshot := c_published c in
  let desired_ts := if latest_snapshot <? desired_ts then latest_snapshot else desired_ts in
  default 0 (radix_first_from (sivfs_checkpoints_ts_to_reverse_index desired_ts) (c_reverse c)).

(** [signal]: the mutex is interrupted; [mem]: the tree finds memory. *)
Definition _sivfs_checkpoints_insert (signal mem : bool) (checkpoint : Z) : M cps unit :=
  if checkpoint =? 0 then throw EINVAL
  else
    let! cpinfo := load_inode checkpoint in
    if signal then throw EINTR
    else on_reverse (radix_tree_insert mem (sivfs_checkpoints_ts_to_reverse_index (ci_ts cpinfo)) checkpoint).

Definition _sivfs_checkpoints_insert_finish (checkpoint : Z) : M cps unit :=
  let! cpinfo := load_inode checkpoint in
  let cp_ts := ci_ts cpinfo in
  modify (set_latest checkpoint cp_ts cp_ts).

Definition sivfs_checkpoints_insert (signal mem : bool) (checkpoint : Z) : M cps unit :=
  do! _sivfs_checkpoints_insert signal mem checkpoint in
  _sivfs_checkpoints_insert_finish checkpoint.

Definition _sivfs_checkpoints_remove (checkpoint : Z) : M cps unit :=
  let! cp_info := load_inode checkpoint in
  modify (fun c => set_reverse
    (radix_tree_delete (c_reverse c) (sivfs_checkpoints_ts_to_reverse_index (ci_ts cp_info))) c).

Section checkpoints.
Context (F : pt_flags) (ZERO_PAGE : Z).

(** The page ([None] for NULL) and the timestamp of the checkpoint it is from. *)
Definition sivfs_checkpoint_lookup_page (desired_ts file_ino file_offset : Z) (c : cps)
    : res (option Z * Z) :=
  let checkpoint := sivfs_checkpoint_lookup desired_ts c in
  if checkpoint =? 0 then Err EINVAL
  else
    let? cpinfo := deref (c_inodes c !! checkpoint) in
    let? checkpoint_page :=
      sivfs_checkpoint_traverse F (ci_root cpinfo) file_ino file_offset (p_pages (c_store c)) in
    Ok (checkpoint_page, ci_ts cpinfo).

(** On a zeroed structure. *)
Definition sivfs_init_checkpoints : M cps unit :=
  do! modify (fun c => mk_cps 0 0 0 ∅ (c_inodes c) zero_stack ∅ (c_store c)
                         (c_ncheckpoints c) (c_ncheckpoint_txns c)) in
  fun c => let '(r, s) := sivfs_get_zero_checkpoint_pages F ZERO_PAGE (c_store c) in (r, set_store s c).

(** The empty checkpoint at time 0 (sivfs_init_shared_state). *)
Definition first_checkpoint (alloc : option Z) (signal mem : bool) : M cps unit :=
  do! sivfs_init_checkpoints in
  let! first := sivfs_create_checkpoint_inode alloc in
  let! cpinfo := load_inode first in
  do! store_inode first (mk_inode 0 0 (ci_obsoleted_ts cpinfo)) in
  on_error (sivfs_checkpoints_insert signal mem first) (iput first).

(** ** Making a checkpoint *)

(** What the environment of one call decides. *)
Record cp_env : Type := mk_env {
  ev_state : bool;
  ev_kz : bool;
  ev_inode : option Z;
  ev_push : Z -> bool;
  ev_signal : bool;
  ev_node : bool;
  ev_reserve : bool
}.

(** Under [error0]: out of memory is reported as success. *)
Definition throttle (m : M cps bool) : M cps bool := fun c =>
  match m c with
  | (Err ENOMEM, c') => (Ok false, c')
  | r => r
  end.

Definition set_root_ts (ino root ts : Z) : M cps unit :=
  let! i := load_inode ino in
  store_inode ino (mk_inode root ts (ci_obsoleted_ts i)).
Definition set_obsoleted_ts (ino ts : Z) : M cps unit :=
  let! i := load_inode ino in
  store_inode ino (mk_inode (ci_root i) (ci_ts i) ts).

(** A fresh [obsoleted_pages] stack, and [sivfs_put_stack] of it. *)
Definition new_obsoleted_pages (kz : bool) : M cps unit :=
  let! st := lift (sivfs_new_stack kz) in
  modify (fun c => set_store (set_obsoleted st (c_store c)) c).
Definition put_obsoleted_pages : M cps unit :=
  modify (fun c => set_store (set_obsoleted zero_stack (c_store c)) c).

(** From [_sivfs_make_checkpoint] to the point of no return. *)
Definition build_checkpoint (ev : cp_env) (log : log_state) (prior new_checkpoint : Z)
    (prior_ts next_ts : Z) : M cps unit :=
  do! on_root new_checkpoint
        (_sivfs_make_checkpoint F ZERO_PAGE (sivfs_on_obsolete_page_stack (ev_push ev)) log prior_ts next_ts) in
  do! _sivfs_checkpoints_insert (ev_signal ev) (ev_node ev) new_checkpoint in
  on_error
    (do! set_obsoleted_ts prior next_ts in
     let! obsoleted_pages := gets (fun c => p_obsoleted (c_store c)) in
     on_entries (sivfs_gc_mark_pages_obsoleted (ev_reserve ev) obsoleted_pages (Some prior)))
    (_sivfs_checkpoints_remove new_checkpoint).

Definition sivfs_make_checkpoint (ev : cp_env) (log : log_state) (latest_commit : Z) : M cps bool :=
  throttle (
    if negb (ev_state ev) then throw EINVAL
    else
      let! latest_checkpoint_ts := gets c_latest_ts in
      let! prior := gets c_latest in
      if latest_commit =? latest_checkpoint_ts then ret false
      else
        let next_ts := latest_commit in
        if prior =? 0 then throw EINVAL
        else
          let! prior_cpinfo := load_inode prior in
          if negb (ci_ts prior_cpinfo =? latest_checkpoint_ts) then throw EINVAL
          else
            do! new_obsoleted_pages (ev_kz ev) in
            let! new_checkpoint := on_error
              (let! new_checkpoint := sivfs_create_checkpoint_inode (ev_inode ev) in
               do! set_root_ts new_checkpoint (ci_root prior_cpinfo) next_ts in
               do! on_error
                     (build_checkpoint ev log prior new_checkpoint (ci_ts prior_cpinfo) next_ts)
                     (iput new_checkpoint) in
               ret new_checkpoint)
              put_obsoleted_pages in
            do! _sivfs_checkpoints_insert_finish new_checkpoint in
            do! modify (count_checkpoint (usub next_ts latest_checkpoint_ts)) in
            do! put_obsoleted_pages in
            ret true).

(** sivfs_on_obsolete_page without a stack: straight to the collector. The
    stack the callback works on is then checkpoints->obsoleted_entries. *)
Definition sivfs_on_obsolete_page_gc (vz : Z -> bool) (old_page : Z) : M pstore unit := fun s =>
  let '(r, o) := sivfs_gc_mark_pages_obsoleted (vz old_page) (mk_stack 1 1 [old_page]) None (p_obsoleted s) in
  (r, set_obsoleted o s).

Definition sivfs_prepare_direct_access_page (vz : Z -> bool) (checkpoint file_ino file_offset : Z)
    : M cps unit := fun c =>
  match c_inodes c !! checkpoint with
  | None => (Fault, c)
  | Some i =>
    let own := p_obsoleted (c_store c) in
    let s := set_obsoleted (c_obsoleted c) (c_store c) in
    let '(r, (root, s')) :=
      sivfs_apply_change_checkpoint F ZERO_PAGE (sivfs_on_obsolete_page_gc vz) file_ino file_offset 0
        (ci_ts i) SIVFS_APPLY_CHANGE_CP_NOWRITE (ci_root i, s) in
    (r, set_store (set_obsoleted own s')
          (set_obsoleted_entries (p_obsoleted s')
             (set_inodes (<[checkpoint := mk_inode root (ci_ts i) (ci_obsoleted_ts i)]> (c_inodes c)) c)))
  end.
End checkpoints.

(** ** Entries and the obsoleted list *)

Lemma gc_tag_parts a tag : is_u64 a -> Z.land a SIVFS_GC_ENTRY_FLAGS = 0 -> 0 <= tag < 8 ->
  Z.land (Z.lor a tag) SIVFS_GC_ENTRY_FLAGS = tag /\ Z.land (Z.lor a tag) (unot SIVFS_GC_ENTRY_FLAGS) = a.
Proof.
  intros Ha Hf Ht. assert (Hm : unot SIVFS_GC_ENTRY_FLAGS = Z.shiftl (Z.ones 61) 3) by reflexivity.
  change SIVFS_GC_ENTRY_FLAGS with (Z.ones 3) in *.
  assert (Htag : Z.land tag (Z.ones 3) = tag) by (rewrite Z.land_ones by lia; apply Z.mod_small; lia).
  rewrite !Z.land_lor_distr_l. split; [by rewrite Hf, Z.lor_0_l|].
  assert (Ht0 : Z.land tag (unot (Z.ones 3)) = 0).
  { rewrite <- Htag, Hm, <- Z.land_assoc. change (Z.land (Z.ones 3) (Z.shiftl (Z.ones 61) 3)) with 0. apply Z.land_0_r. }
  rewrite Ht0, Z.lor_0_r.
  assert (Hall : Z.lor (Z.ones 3) (unot (Z.ones 3)) = Z.ones 64) by reflexivity.
  rewrite <- (Z.lor_0_l (Z.land a _)), <- Hf, <- Z.land_lor_distr_r, Hall, Z.land_ones by lia.
  apply Z.mod_small. exact Ha.
Qed.

(** The entries that sivfs_gc_mark_pages_obsoleted adds. *)
Definition page_entry (page : Z) : Z := Z.lor page SIVFS_GC_ENTRY_PAGE.
Definition inode_entry (inode : Z) : Z := Z.lor inode SIVFS_GC_ENTRY_INODE.
Definition marked (pages : list Z) (inode : option Z) : list Z :=
  (page_entry <$> pages) ++ match inode with Some i => [inode_entry i] | None => [] end.

(** [s'] is [s] with cells at and above [n] possibly overwritten. *)
Record above (n : Z) (s s' : sivfs_stack) : Prop := {
  ab_wf : stack_wf s';
  ab_size : st_size s' = st_size s;
  ab_cap : st_capacity s' = st_capacity s;
  ab_take : take (Z.to_nat n) (st_values s') = take (Z.to_nat n) (st_values s)
}.

Lemma above_trans n m s1 s2 s3 : n <= m -> above n s1 s2 -> above m s2 s3 -> above n s1 s3.
Proof.
  intros Hnm [? ? ? T1] [? ? ? T2]. split; [done|congruence|congruence|].
  rewrite <- T1. replace (Z.to_nat n) with (Z.to_nat n `min` Z.to_nat m)%nat by lia.
  by rewrite <- !take_take, T2.
Qed.

Lemma above_elems n s s' : st_size s <= n -> above n s s' -> elems s' = elems s.
Proof.
  intros Hn [_ Hs _ T]. unfold elems. rewrite Hs.
  replace (Z.to_nat (st_size s)) with (Z.to_nat (st_size s) `min` Z.to_nat n)%nat by lia.
  by rewrite <- !take_take, T.
Qed.

Lemma stack_set_above n v s : stack_wf s -> st_size s <= n < st_capacity s ->
  exists s', stack_set n v s = (Ok tt, s') /\ above n s s' /\
    take (Z.to_nat (n + 1)) (st_values s') = take (Z.to_nat n) (st_values s) ++ [v].
Proof.
  intros [[Hs0 Hs] Hv Hl] Hn. unfold stack_set.
  rewrite (proj2 (Z.leb_le _ _)), (proj2 (Z.ltb_lt _ _)) by lia. eexists. split; [done|]. split.
  - split; cbn [st_size st_capacity st_values]; rewrite ?length_insert; try done.
    { split; cbn [st_size st_capacity st_values]; rewrite ?length_insert; done. }
    by rewrite take_insert_ge.
  - cbn [st_values]. replace (Z.to_nat (n + 1)) with (S (Z.to_nat n)) by lia. apply take_insert_at. lia.
Qed.

Lemma put_page_entries_ok pages : forall n s, stack_wf s -> st_size s <= n -> n + Z.of_nat (length pages) <= st_capacity s ->
  exists r s', put_page_entries pages n s = (r, s') /\ above n s s' /\
    ((r = Ok (n + Z.of_nat (length pages)) /\
      take (Z.to_nat (n + Z.of_nat (length pages))) (st_values s') = take (Z.to_nat n) (st_values s) ++ (page_entry <$> pages))
     \/ (r = Err EINVAL /\ ~ Forall tag_free pages)).
Proof.
  induction pages as [|p pages IH]; intros n s Hwf Hn Hc.
  - exists (Ok n), s. split; [done|]. split; [by split|left]. rewrite Z.add_0_r. by rewrite app_nil_r.
  - cbn [put_page_entries length] in *. unfold sivfs_gc_make_entry_page.
    destruct (negb _) eqn:Ef.
    { exists (Err EINVAL), s. split; [done|]. split; [by split|right]. split; [done|]. intros Hf. inversion_clear Hf as [|? ? Hp].
      unfold tag_free in Hp. unfold SIVFS_GC_ENTRY_FLAGS in Ef. by rewrite Hp in Ef. }
    rewrite (bind_step (lift _) _ s _ s eq_refl).
    destruct (stack_set_above n (page_entry p) s Hwf) as (s1 & E & A1 & T1); [lia|].
    unfold page_entry in E. rewrite (bind_step _ _ _ _ _ E).
    assert (Hu : uadd n 1 = n + 1).
    { apply uadd_small. destruct Hwf as [? _ Hl]. unfold stack_limit in Hl. u64_lia. }
    rewrite Hu. destruct (IH (n + 1) s1) as (r & s2 & E2 & A2 & HR);
      [apply A1|rewrite (ab_size _ _ _ A1); lia|rewrite (ab_cap _ _ _ A1); lia|].
    exists r, s2. split; [done|]. split; [apply (above_trans n (n + 1) s s1); by try lia|].
    destruct HR as [[-> HT]|[-> Hna]]; [left|right; split; [done|]; intros Hf; apply Hna; by inversion_clear Hf]. replace (n + 1 + Z.of_nat (length pages)) with (n + Z.of_nat (S (length pages))) in * by lia.
    split; [done|]. rewrite HT, T1, <- app_assoc. done.
Qed.

(** All the entries are appended, or the list is unchanged. *)
Lemma mark_pages_ok vz pages inode s : stack_wf s -> stack_wf pages ->
  st_size s + st_size pages + 1 < stack_limit / 2 ->
  exists r s', sivfs_gc_mark_pages_obsoleted vz pages inode s = (r, s') /\ stack_wf s' /\
    ((r = Ok tt /\ elems s' = elems s ++ marked (elems pages) inode)
     \/ ((r = Err ENOMEM \/ r = Err EINVAL) /\ elems s' = elems s /\
         (vz = false \/ ~ Forall tag_free (elems pages) \/ exists i, inode = Some i /\ ~ tag_free i))).
Proof.
  intros Hwf Hwp Hlim. pose proof (elems_length pages Hwp) as Hlen. pose proof (wf_size _ Hwf). pose proof (wf_size _ Hwp).
  unfold sivfs_gc_mark_pages_obsoleted. rewrite (bind_step (gets st_size) _ s _ s eq_refl).
  assert (Hlim2 : st_size s + st_size pages + 1 < 2 ^ 59) by exact Hlim. rewrite (uadd_small (st_size s)) by u64_lia. rewrite uadd_small by u64_lia.
  destruct (reserve_no_fault vz (st_size s + st_size pages + 1) s) as (r & s1 & E & [->|(-> & -> & Hvz)]).
  2: { exists (Err ENOMEM), s. rewrite (bind_err _ _ _ _ _ E). split; [done|]. split; [done|right]. auto. }
  rewrite (bind_step _ _ _ _ _ E).
  destruct (reserve_ok vz (st_size s + st_size pages + 1) s s1 Hwf ltac:(lia) E) as (Hwf1 & Hel1 & Hsz1 & Hcap1).
  destruct (put_page_entries_ok (elems pages) (st_size s) s1 Hwf1) as (r & s2 & E2 & A2 & HR); [lia|lia|].
  assert (He2 : elems s2 = elems s) by (rewrite <- Hel1; apply (above_elems (st_size s)); [lia|exact A2]).
  destruct HR as [[-> HT]|[-> Hna]].
  2: { exists (Err EINVAL), s2. rewrite (bind_err _ _ _ _ _ E2). split; [done|]. split; [apply A2|right]. auto. }
  rewrite (bind_step _ _ _ _ _ E2). rewrite Hlen in *. set (n := st_size s + st_size pages) in *.
  assert (Hhead : take (Z.to_nat (st_size s)) (st_values s1) = elems s) by (rewrite <- Hel1; unfold elems; by rewrite Hsz1).
  rewrite Hhead in HT. destruct A2 as [W2 S2 C2 _]. unfold marked. destruct inode as [i|].
  - unfold sivfs_gc_make_entry_inode. destruct (negb _) eqn:Ef.
    { exists (Err EINVAL), s2. split; [done|]. split; [done|right]. split; [by right|]. split; [done|]. right; right.
      exists i. split; [done|]. unfold tag_free, SIVFS_GC_ENTRY_FLAGS in *. intros Hi. by rewrite Hi in Ef. }
    destruct (stack_set_above n (inode_entry i) s2 W2 ltac:(lia)) as (s3 & E3 & [W3 S3 C3 _] & T3).
    rewrite (bind_step _ _ s2 (uadd n 1) s3).
    2: { rewrite (bind_step (lift _) _ s2 _ s2 eq_refl). unfold inode_entry in E3. by rewrite (bind_step _ _ _ _ _ E3). }
    rewrite uadd_small by (unfold n; u64_lia). eexists _, _. split; [reflexivity|].
    split; [destruct W3; split; cbn [st_size st_capacity st_values]; by try lia|left]. split; [done|].
    unfold elems at 1. cbn [st_size st_values]. by rewrite T3, HT, <- app_assoc.
  - rewrite (bind_step (ret n) _ s2 n s2 eq_refl). eexists _, _. split; [reflexivity|].
    split; [destruct W2; split; cbn [st_size st_capacity st_values]; by try lia|left]. split; [done|].
    unfold elems at 1. cbn [st_size st_values]. by rewrite HT, app_nil_r.
Qed.

(** ** The reverse index *)

Notation ridx := sivfs_checkpoints_ts_to_reverse_index.

Lemma ridx_antitone a b : is_u64 a -> is_u64 b -> ridx a <= ridx b <-> b <= a.
Proof. intros Ha Hb. rewrite !reverse_index_val by done. lia. Qed.

Lemma ridx_u64 a : is_u64 (ridx a).
Proof. apply u64_range. Qed.

Lemma ridx_inj a b : is_u64 a -> is_u64 b -> ridx a = ridx b -> a = b.
Proof. intros Ha Hb. rewrite !reverse_index_val by done. lia. Qed.

(** The first of the sorted items at or after [start]. *)
Lemma radix_first_from_spec start t :
  match radix_first_from start t with
  | Some v => exists i, t !! i = Some v /\ start <= i /\ forall j, start <= j < i -> t !! j = None
  | None => forall j, start <= j -> t !! j = None
  end.
Proof.
  unfold radix_first_from. cbn [radix_tree_items radix_gmap]. pose proof (map_items_sorted t) as Hs.
  pose proof (fun i v => elem_of_map_items t i v) as He. set (P := fun kv : Z * Z => start <= kv.1).
  assert (Hnone : forall l, filter P l = [] -> forall j v, (j, v) ∈ l -> ~ start <= j).
  { intros l Hl j v Hin Hle. assert (H : (j, v) ∈ filter P l) by (by apply list_elem_of_filter). rewrite Hl in H.
    by apply not_elem_of_nil in H. }
  revert Hs He. generalize (map_items t). intros l. destruct (filter P l) as [|[i v] l'] eqn:E; intros Hs He; cbn [head fmap option_fmap option_map].
  - intros j Hj. destruct (t !! j) as [w|] eqn:Ej; [|done]. apply He in Ej. by destruct (Hnone l E j w Ej).
  - assert (Hin : (i, v) ∈ filter P l) by (rewrite E; left). apply list_elem_of_filter in Hin as [Hle Hin].
    exists i. split; [by apply He|]. split; [done|]. intros j Hj. destruct (t !! j) as [w|] eqn:Ej; [|done].
    apply He in Ej. assert (Hf : StronglySorted key_le (filter P l)).
    { clear -Hs. induction Hs as [|x l Hs IH Hall]; [constructor|]. rewrite filter_cons. case_decide; [|done].
      constructor; [done|]. apply Forall_forall. intros y [_ Hy]%list_elem_of_filter. rewrite Forall_forall in Hall. by apply Hall. }
    assert (Hjin : (j, w) ∈ filter P l) by (apply list_elem_of_filter; split; [unfold P; simpl; lia|done]).
    rewrite E in Hf, Hjin. apply StronglySorted_inv in Hf as [_ Hall]. rewrite Forall_forall in Hall.
    apply elem_of_cons in Hjin as [[= -> ->]|Hjin]; [lia|]. specialize (Hall _ Hjin). unfold key_le in Hall. simpl in Hall. lia.
Qed.

(** C38. Looking up a checkpoint returns the newest one that is registered at a
    timestamp no later than both the desired one and the published one, and NULL
    exactly when there is none: the search forwards through negated timestamps
    goes back in time, and an unpublished checkpoint is never returned. *)
Theorem lookup_newest_published desired c :
  is_u64 desired -> is_u64 (c_published c) -> (forall i, is_Some (c_reverse c !! i) -> is_u64 i) ->
  let bound := Z.min desired (c_published c) in
  (exists ts, 0 <= ts <= bound /\ c_reverse c !! ridx ts = Some (sivfs_checkpoint_lookup desired c) /\
     forall ts', ts < ts' <= bound -> c_reverse c !! ridx ts' = None)
  \/ (sivfs_checkpoint_lookup desired c = 0 /\ forall ts, 0 <= ts <= bound -> c_reverse c !! ridx ts = None).
Proof.
  intros Hd Hp Hdom bound. unfold sivfs_checkpoint_lookup.
  replace (if c_published c <? desired then c_published c else desired) with bound
    by (unfold bound; destruct (Z.ltb_spec (c_published c) desired); lia).
  assert (Hb : is_u64 bound) by (unfold bound; u64_lia).
  pose proof (radix_first_from_spec (ridx bound) (c_reverse c)) as H.
  destruct (radix_first_from _ _) as [v|]; simpl.
  - destruct H as (i & Hi & Hle & Hno). left. pose proof (Hdom i (ex_intro _ v Hi)) as Hiu.
    pose proof (reverse_index_val bound Hb) as Eb. exists (two64 - 1 - i).
    assert (Hts : is_u64 (two64 - 1 - i)) by u64_lia.
    assert (Ei : ridx (two64 - 1 - i) = i) by (rewrite reverse_index_val by done; lia).
    rewrite Ei. split; [u64_lia|]. split; [done|]. intros ts' Hlt. apply Hno.
    rewrite (reverse_index_val ts') by u64_lia. lia.
  - right. split; [done|]. intros ts Hts. apply H. apply ridx_antitone; u64_lia.
Qed.

Lemma lookup_newest_published_witness :
  let c := mk_cps 16 8 8 {[ridx 0 := 32; ridx 3 := 64; ridx 8 := 16; ridx 12 := 128]} ∅ zero_stack ∅ sample_store 0 0 in
  sivfs_checkpoint_lookup 5 c = 64 /\ sivfs_checkpoint_lookup 20 c = 16 /\
  let bound := Z.min 20 (c_published c) in
  (exists ts, 0 <= ts <= bound /\ c_reverse c !! ridx ts = Some (sivfs_checkpoint_lookup 20 c) /\
     forall ts', ts < ts' <= bound -> c_reverse c !! ridx ts' = None)
  \/ (sivfs_checkpoint_lookup 20 c = 0 /\ forall ts, 0 <= ts <= bound -> c_reverse c !! ridx ts = None).
Proof.
  intros c. split; [vm_compute; reflexivity|]. split; [vm_compute; reflexivity|].
  apply (lookup_newest_published 20 c); [by vm_compute|by vm_compute|].
  intros i [v Hv]. unfold c in Hv. cbn [c_reverse] in Hv.
  repeat (apply lookup_insert_Some in Hv as [[<- _]|[_ Hv]]; [apply ridx_u64|]).
  apply lookup_singleton_Some in Hv as [<- _]. apply ridx_u64.
Defined.

(** ** What making a checkpoint keeps *)

Section making.
Context (F : pt_flags) (ZERO_PAGE : Z) `{HF : !PtFlagsOk F}.

Notation tree_ok h ts root := (wf_sub F ZERO_PAGE h ts ROOT_LEVEL root).
Notation cpages c := (p_pages (c_store c)).

Definition ready (c : cps) : Prop := zero_ready F ZERO_PAGE (c_store c) /\ stack_wf (c_obsoleted c).

(** Inodes keep their tree and timestamp, pages are only added. *)
Record grew (c c' : cps) : Prop := {
  gr_inodes : forall j i, c_inodes c !! j = Some i -> exists i', c_inodes c' !! j = Some i' /\
    ci_root i' = ci_root i /\ ci_ts i' = ci_ts i;
  gr_frame : frame (cpages c) (cpages c') (fun _ => False)
}.

Definition same_heads (c c' : cps) : Prop :=
  c_latest c' = c_latest c /\ c_latest_ts c' = c_latest_ts c /\ c_published c' = c_published c.

Lemma grew_refl c : grew c c.
Proof. split; [eauto|apply frame_refl]. Qed.

Lemma grew_trans c1 c2 c3 : grew c1 c2 -> grew c2 c3 -> grew c1 c3.
Proof.
  intros [I1 F1] [I2 F2]. split; [|by eapply frame_trans].
  intros j i Hj. destruct (I1 j i Hj) as (i2 & H2 & ? & ?), (I2 j i2 H2) as (i3 & H3 & ? & ?).
  exists i3. split; [done|]. split; congruence.
Qed.

(** The invariant between two calls. *)
Record cps_inv (c : cps) : Prop := {
  inv_ready : ready c;
  inv_latest : c_latest c <> 0;
  inv_ts : 0 <= c_latest_ts c < SIVFS_INVALID_TS;
  inv_published : c_published c = c_latest_ts c;
  inv_inode : exists i, c_inodes c !! c_latest c = Some i /\ ci_ts i = c_latest_ts c /\
    tree_ok (cpages c) (c_latest_ts c) (ci_root i);
  inv_indexed : c_reverse c !! ridx (c_latest_ts c) = Some (c_latest c);
  inv_reverse : forall i, is_Some (c_reverse c !! i) -> is_u64 i /\ ridx (c_latest_ts c) <= i
}.

(** The checkpoint inode [ino] reads as [m]. *)
Definition cp_reads (c : cps) (ino : Z) (m : Z -> Z -> list Z) : Prop :=
  exists i, c_inodes c !! ino = Some i /\ reads F (cpages c) (ci_root i) m.

(** Every checkpoint keeps its timestamp and still reads the same. *)
Definition cps_kept (c c' : cps) : Prop := forall ino i m, c_inodes c !! ino = Some i ->
  tree_ok (cpages c) (ci_ts i) (ci_root i) -> reads F (cpages c) (ci_root i) m ->
  exists i', c_inodes c' !! ino = Some i' /\ ci_ts i' = ci_ts i /\ reads F (cpages c') (ci_root i') m.

Lemma grew_kept c c' : grew c c' -> cps_kept c c'.
Proof.
  intros [Hi Hf] ino i m Hino Hwf Hm.
  destruct (Hi ino i Hino) as (i' & Hi' & Hr & Ht). exists i'. split; [done|]. split; [done|]. rewrite Hr.
  by apply (reads_frame F ZERO_PAGE (cpages c) _ (ci_ts i)).
Qed.

Lemma grew_inv c c' : cps_inv c -> grew c c' -> same_heads c c' -> c_reverse c' = c_reverse c -> ready c' -> cps_inv c'.
Proof.
  intros [_ ? ? ? (i & Hi & Hts & Hwf) ? ?] [Gi Gf] (El & Et & Ep) Er Hr.
  split; rewrite ?El, ?Et, ?Ep, ?Er; try done. destruct (Gi _ _ Hi) as (i' & Hi' & Hroot & Hts').
  exists i'. split; [done|]. split; [congruence|]. rewrite Hroot.
  by apply (reads_frame F ZERO_PAGE (cpages c) _ (c_latest_ts c) (ci_root i) Gf).
Qed.

Lemma insert_grew c ino i : c_inodes c !! ino = None -> grew c (set_inodes (<[ino := i]> (c_inodes c)) c).
Proof.
  intros Hn. split; [|apply frame_refl]. intros j x Hj. exists x. split; [|done]. cbn [c_inodes set_inodes].
  rewrite lookup_insert_ne; [done|]. congruence.
Qed.

Lemma delete_grew c c' ino : c_inodes c !! ino = None -> grew c c' -> grew c (set_inodes (delete ino (c_inodes c')) c').
Proof.
  intros Hn [Gi Gf]. split; [|done]. intros j x Hj. destruct (Gi j x Hj) as (x' & Hx' & ?). exists x'. split; [|done].
  cbn [c_inodes set_inodes]. rewrite lookup_delete_ne; [done|]. congruence.
Qed.

(** The store where the obsoleted stack is replaced. *)
Lemma zero_ready_obsoleted s o : zero_ready F ZERO_PAGE s -> stack_wf o ->
  st_size o + Z.of_nat (length (p_supply s)) + 0 + 1 < stack_limit / 4 -> zero_ready F ZERO_PAGE (set_obsoleted o s).
Proof. intros (? & ? & ? & _ & ? & ?) Hwf Hl. split_and!; done. Qed.

Lemma zero_ready_empty s : zero_ready F ZERO_PAGE s -> zero_ready F ZERO_PAGE (set_obsoleted zero_stack s).
Proof.
  intros H. pose proof H as (_ & _ & _ & [Hwf Hr] & _). apply zero_ready_obsoleted; [done|apply zero_stack_wf|].
  pose proof (wf_size _ Hwf). simpl. lia.
Qed.

(** Why no checkpoint is made: memory is refused, a signal arrives while the
    mutex is waited for, or the address of the [prior] checkpoint leaves no room
    for the tag of a collector entry. *)
Definition refusal (ev : cp_env) (prior : Z) (c c' : cps) : Prop :=
  ev_kz ev = false \/ ev_inode ev = None \/ ev_node ev = false \/ ev_reserve ev = false \/
  refused (ev_push ev) (c_store c) (c_store c') \/ ev_signal ev = true \/ ~ tag_free prior.

Section one_checkpoint.
Context (st : log_state) (lo N n latest prior ino : Z) (ev : cp_env).
Context (Hv : log_view st lo N) (HN : n <= N) (Hlo : lo <= latest + 1) (Hn : 0 <= latest < n) (Hmax : n < SIVFS_INVALID_TS).
Let writes := log_slice st (latest + 1) (Z.to_nat (n - latest)) ≫= entry_writes.
Context (Hok : Forall write_ok writes).

(** The state in which the new inode is being filled: [root] is the tree of
    the prior checkpoint. *)
Record filling (c : cps) (root : Z) : Prop := {
  fi_ready : ready c;
  fi_room : st_size (c_obsoleted c) < stack_limit / 4;
  fi_ino : exists o, c_inodes c !! ino = Some (mk_inode root n o);
  fi_prior : ino <> 0 /\ ino <> prior /\ is_Some (c_inodes c !! prior);
  fi_tree : tree_ok (cpages c) latest root;
  fi_free : c_reverse c !! ridx n = None;
  fi_tags : Forall tag_free (elems (p_obsoleted (c_store c)))
}.

(** The new checkpoint, complete. *)
Definition complete (c c' : cps) (root : Z) : Prop :=
  exists i', c_inodes c' !! ino = Some i' /\ ci_ts i' = n /\ tree_ok (cpages c') n (ci_root i') /\
    forall m, reads F (cpages c) root m -> reads F (cpages c') (ci_root i') (foldl (fun m w => write_word w m) m writes).

(** All inodes but the new one. *)
Definition grew_but (c c' : cps) : Prop :=
  (forall j i, j <> ino -> c_inodes c !! j = Some i -> exists i', c_inodes c' !! j = Some i' /\
     ci_root i' = ci_root i /\ ci_ts i' = ci_ts i) /\
  frame (cpages c) (cpages c') (fun _ => False).

Lemma fill_root c root : filling c root -> exists r c',
  on_root ino (_sivfs_make_checkpoint F ZERO_PAGE (sivfs_on_obsolete_page_stack (ev_push ev)) st latest n) c = (r, c') /\
  grew_but c c' /\ same_heads c c' /\ c_reverse c' = c_reverse c /\ ready c' /\ c_obsoleted c' = c_obsoleted c /\
  is_Some (c_inodes c' !! prior) /\ ((r = Ok tt /\ complete c c' root /\ Forall tag_free (elems (p_obsoleted (c_store c'))))
   \/ (exists e, r = Err e) /\ refused (ev_push ev) (c_store c) (c_store c')).
Proof.
  intros [[Hz Hw] Hroom (o & Hi) (Hi0 & Hip & Hpr) Ht Hfree Htags]. unfold on_root. rewrite Hi. cbn [ci_root].
  pose proof (replay_memory F ZERO_PAGE (ev_push ev) st lo N latest n (c_store c) root _ Hv Hlo ltac:(lia) Hok
    (zero_ready_quiet F ZERO_PAGE _ Hz) Htags) as Hmem.
  destruct (replay_outcome F ZERO_PAGE st lo N _ latest n (c_store c) root
    (on_obsolete_page_stack_records (ev_push ev)) Hv Hlo ltac:(lia) Hok Hz Ht)
    as (r & r' & s' & E & Hf & Hz' & HR). rewrite E in Hmem |- *. eexists _, _. split; [reflexivity|].
  split; [|split; [done|split; [done|split; [done|split; [done|split]]]]].
  - split; [|done]. intros j i Hj Hji. exists i. split; [|done]. simpl. by rewrite lookup_insert_ne.
  - simpl. by rewrite lookup_insert_ne.
  - destruct HR as [(-> & Ht' & Hm)|[e ->]]; [left|right; by eauto]. split; [done|]. split; [|apply Hmem].
    exists (mk_inode r' n o). split; [apply lookup_insert_eq|]. done.
Qed.

Lemma load_ok c j i : c_inodes c !! j = Some i -> load_inode j c = (Ok i, c).
Proof. intros H. unfold load_inode. by rewrite H. Qed.

Lemma insert_reverse c i : ino <> 0 -> c_inodes c !! ino = Some i -> c_reverse c !! ridx (ci_ts i) = None ->
  (_sivfs_checkpoints_insert (ev_signal ev) (ev_node ev) ino c
     = (Ok tt, set_reverse (<[ridx (ci_ts i) := ino]> (c_reverse c)) c))
  \/ (exists e, _sivfs_checkpoints_insert (ev_signal ev) (ev_node ev) ino c = (Err e, c)) /\
     (ev_signal ev = true \/ ev_node ev = false).
Proof.
  intros H0 Hi Hn'. unfold _sivfs_checkpoints_insert. rewrite (proj2 (Z.eqb_neq _ _)) by done.
  rewrite (bind_step _ _ _ _ _ (load_ok _ _ _ Hi)). destruct (ev_signal ev); [right; split; [by eexists|by left]|].
  unfold on_reverse, radix_tree_insert. cbn [radix_tree_lookup radix_gmap]. rewrite Hn'.
  destruct (ev_node ev); [by left|right]. split; [|by right]. exists ENOMEM. by destruct c.
Qed.

(** Registering the checkpoint and handing the obsoleted pages to the collector. *)
Lemma hand_over c i : ready c -> st_size (c_obsoleted c) < stack_limit / 4 -> is_Some (c_inodes c !! prior) ->
  prior <> ino -> c_inodes c !! ino = Some i ->
  exists r c', on_error
    (do! set_obsoleted_ts prior n in
     let! obsoleted_pages := gets (fun c => p_obsoleted (c_store c)) in
     on_entries (sivfs_gc_mark_pages_obsoleted (ev_reserve ev) obsoleted_pages (Some prior)))
    (_sivfs_checkpoints_remove ino) c = (r, c') /\
  grew c c' /\ same_heads c c' /\ ready c' /\ c_store c' = c_store c /\ c_inodes c' !! ino = Some i /\
  ((r = Ok tt /\ c_reverse c' = c_reverse c) \/ (exists e, r = Err e) /\ c_reverse c' = delete (ridx (ci_ts i)) (c_reverse c) /\
     (ev_reserve ev = false \/ ~ Forall tag_free (elems (p_obsoleted (c_store c))) \/ ~ tag_free prior)).
Proof.
  intros [Hz Hw] Hroom [p Hp] Hne Hi. unfold on_error, set_obsoleted_ts. rewrite bind_assoc.
  rewrite (bind_step _ _ _ _ _ (load_ok _ _ _ Hp)).
  set (c1 := set_inodes (<[prior := mk_inode (ci_root p) (ci_ts p) n]> (c_inodes c)) c).
  rewrite (bind_step (store_inode _ _) _ c tt c1 eq_refl).
  rewrite (bind_step (gets _) _ c1 (p_obsoleted (c_store c)) c1 eq_refl).
  pose proof Hz as (_ & _ & _ & [Hwo Hro] & _). pose proof limit_quarter.
  destruct (mark_pages_ok (ev_reserve ev) (p_obsoleted (c_store c)) (Some prior) (c_obsoleted c) Hw Hwo ltac:(lia))
    as (r & o' & E & Hwo' & HR).
  unfold on_entries. change (c_obsoleted c1) with (c_obsoleted c). rewrite E.
  set (c2 := set_obsoleted_entries o' c1).
  assert (Hi2 : c_inodes c2 !! ino = Some i) by (simpl; by rewrite lookup_insert_ne).
  assert (Hg : grew c c2).
  { split; [|apply frame_refl]. intros j x Hj. simpl. destruct (decide (prior = j)) as [<-|Hnj].
    - rewrite lookup_insert_eq. simplify_eq. eexists. done.
    - rewrite lookup_insert_ne by done. eexists. done. }
  assert (Herr : forall e, exists c', (match _sivfs_checkpoints_remove ino c2 with
      | (Ok _, s'') | (Err _, s'') => (Err e, s'') | (Fault, s'') => (Fault, s'')
      | (OutOfFuel, s'') => (OutOfFuel, s'') end) = (Err e : res unit, c') /\
    grew c c' /\ same_heads c c' /\ ready c' /\ c_store c' = c_store c /\ c_inodes c' !! ino = Some i /\
    c_reverse c' = delete (ridx (ci_ts i)) (c_reverse c)).
  { intros e. unfold _sivfs_checkpoints_remove. rewrite (bind_step _ _ _ _ _ (load_ok _ _ _ Hi2)).
    eexists. split; [reflexivity|]. split; [by destruct Hg|]. done. }
  assert (Hwhy : r <> Ok tt -> ev_reserve ev = false \/ ~ Forall tag_free (elems (p_obsoleted (c_store c))) \/ ~ tag_free prior).
  { intros Hr. destruct HR as [[-> _]|(_ & _ & [?|[?|(j & [= <-] & ?)]])]; [done|by left|by right; left|by right; right]. }
  destruct HR as [[-> _]|[[-> | ->] _]].
  - exists (Ok tt), c2. split_and!; try done. by left.
  - destruct (Herr ENOMEM) as (c' & -> & ? & ? & ? & ? & ? & ?). exists (Err ENOMEM), c'. split_and!; try done. right. split; [eauto|]. split; [done|by apply Hwhy].
  - destruct (Herr EINVAL) as (c' & -> & ? & ? & ? & ? & ? & ?). exists (Err EINVAL), c'. split_and!; try done. right. split; [eauto|]. split; [done|by apply Hwhy].
Qed.

Lemma complete_grew c c1 c2 root : complete c c1 root -> c_store c2 = c_store c1 ->
  c_inodes c2 !! ino = c_inodes c1 !! ino -> complete c c2 root.
Proof. intros (i & Hi & H) Es Ei. exists i. rewrite Ei, Es. done. Qed.

Lemma build_ok c root : filling c root -> exists r c',
  build_checkpoint F ZERO_PAGE ev st prior ino latest n c = (r, c') /\
  grew_but c c' /\ same_heads c c' /\ ready c' /\
  ((r = Ok tt /\ complete c c' root /\ c_reverse c' = <[ridx n := ino]> (c_reverse c))
   \/ (exists e, r = Err e) /\ c_reverse c' = c_reverse c /\ refusal ev prior c c').
Proof.
  intros Hf. pose proof Hf as [_ Hroom _ (Hi0 & Hip & _) _ Hfree _].
  destruct (fill_root c root Hf) as (r1 & c1 & E1 & G1 & H1 & R1 & Rd1 & O1 & P1 & HR). unfold build_checkpoint.
  destruct HR as [(-> & Hc & Htag)|[[e ->] Href]].
  2: { exists (Err e), c1. rewrite (bind_err _ _ _ _ _ E1). split_and!; try done. right. split; [eauto|]. split; [done|].
       unfold refusal. tauto. }
  rewrite (bind_step _ _ _ _ _ E1). pose proof Hc as (i & Hi & Hti & _).
  destruct (insert_reverse c1 i Hi0 Hi) as [E2|[[e E2] Hw]]; [by rewrite R1, Hti| |].
  2: { exists (Err e), c1. rewrite (bind_err _ _ _ _ _ E2). split_and!; try done. right. split; [eauto|]. split; [done|].
       unfold refusal. tauto. }
  rewrite (bind_step _ _ _ _ _ E2). set (c2 := set_reverse _ c1).
  destruct (hand_over c2 i) as (r & c3 & -> & G3 & H3 & Rd3 & S3 & I3 & HR3); try done; [by rewrite <- O1 in Hroom|].
  exists r, c3. split; [done|]. split.
  { destruct G1 as [G1 F1], G3 as [G3 F3]. split; [|by eapply frame_trans]. intros j x Hj Hx.
    destruct (G1 j x Hj Hx) as (x1 & Hx1 & ? & ?), (G3 j x1 Hx1) as (x3 & Hx3 & ? & ?).
    exists x3. split; [done|]. split; congruence. }
  split; [unfold same_heads in *; naive_solver congruence|]. split; [done|].
  destruct HR3 as [[-> Er]|(? & Er & Hw)]; [left|right]; (split; [done|]); rewrite Er; simpl; rewrite R1, Hti.
  - split; [|done]. apply (complete_grew c c1 c3 root Hc S3). by rewrite I3.
  - split; [by apply delete_insert_id|]. change (c_store c2) with (c_store c1) in Hw. unfold refusal. tauto.
Qed.
End one_checkpoint.

(** A state reached without publishing anything. *)
Lemma quiet_outcome c c' : cps_inv c -> grew c c' -> same_heads c c' -> c_reverse c' = c_reverse c -> ready c' ->
  cps_inv c' /\ same_heads c c' /\ cps_kept c c'.
Proof. intros. split_and!; [by eapply grew_inv|done|by apply grew_kept]. Qed.

(** What one call promises about its outcome. *)
Definition making_promise (writes : list (Z * Z * Z)) (n : Z) (c : cps) (o : res bool * cps) : Prop :=
  match o with
  | (Ok true, c') =>
      cps_inv c' /\ c_latest_ts c' = n /\ c_published c' = n /\ cps_kept c c' /\
      forall m, cp_reads c (c_latest c) m -> cp_reads c' (c_latest c') (foldl (fun m w => write_word w m) m writes)
  | (Ok false, c') | (Err _, c') => cps_inv c' /\ same_heads c c' /\ cps_kept c c'
  | _ => False
  end.

(** Why a call makes no checkpoint: there is nothing new, it runs without a
    task state, or something it needs is refused. *)
Definition why_not (ev : cp_env) (n : Z) (c c' : cps) : Prop :=
  n = c_latest_ts c \/ ev_state ev = false \/ refusal ev (c_latest c) c c'.

Definition explained (ev : cp_env) (n : Z) (c : cps) (o : res bool * cps) : Prop :=
  o.1 = Ok true \/ why_not ev n c o.2.

Lemma throttle_promise ev writes n c (m : M cps bool) : making_promise writes n c (m c) /\ explained ev n c (m c) ->
  making_promise writes n c (throttle m c) /\ explained ev n c (throttle m c).
Proof. unfold throttle, explained. destruct (m c) as [[[]|[]| |] c']; cbn; intros H; try exact H.
  destruct H as [? [?|?]]; [done|]. split; [done|by right].
Qed.

Lemma ready_empty c : ready c -> ready (set_store (set_obsoleted zero_stack (c_store c)) c).
Proof. intros [? ?]. split; [by apply zero_ready_empty|done]. Qed.

Lemma put_obsoleted_ok c : ready c -> exists c', put_obsoleted_pages c = (Ok tt, c') /\
  grew c c' /\ same_heads c c' /\ ready c' /\ c_inodes c' = c_inodes c /\ c_reverse c' = c_reverse c /\ cpages c' = cpages c.
Proof.
  intros Hr. eexists. split; [reflexivity|]. split; [split; [eauto|apply frame_refl]|].
  split; [done|]. split; [by apply ready_empty|done].
Qed.

(** The attempt, from the allocation of the inode on. *)
Lemma attempt_ok st lo N n ev c i : log_view st lo N -> n <= N -> lo <= c_latest_ts c + 1 -> c_latest_ts c < n < SIVFS_INVALID_TS ->
  Forall write_ok (log_slice st (c_latest_ts c + 1) (Z.to_nat (n - c_latest_ts c)) ≫= entry_writes) ->
  (forall ino, ev_inode ev = Some ino -> ino <> 0 /\ c_inodes c !! ino = None) ->
  st_size (c_obsoleted c) < stack_limit / 4 ->
  Forall tag_free (elems (p_obsoleted (c_store c))) ->
  cps_inv c -> c_inodes c !! c_latest c = Some i -> ci_ts i = c_latest_ts c ->
  let attempt := (let! new_checkpoint := sivfs_create_checkpoint_inode (ev_inode ev) in
     do! set_root_ts new_checkpoint (ci_root i) n in
     do! on_error (build_checkpoint F ZERO_PAGE ev st (c_latest c) new_checkpoint (ci_ts i) n) (iput new_checkpoint) in
     ret new_checkpoint) in
  exists r c', attempt c = (r, c') /\ grew c c' /\ same_heads c c' /\ ready c' /\
    ((exists ino, r = Ok ino /\ ino <> 0 /\ c_reverse c' = <[ridx n := ino]> (c_reverse c) /\
        exists i', c_inodes c' !! ino = Some i' /\ ci_ts i' = n /\ tree_ok (cpages c') n (ci_root i') /\
        forall m, reads F (cpages c) (ci_root i) m -> reads F (cpages c') (ci_root i') (foldl (fun m w => write_word w m) m
          (log_slice st (c_latest_ts c + 1) (Z.to_nat (n - c_latest_ts c)) ≫= entry_writes)))
     \/ (exists e, r = Err e) /\ c_reverse c' = c_reverse c /\ refusal ev (c_latest c) c c').
Proof.
  intros Hv HN Hlo Hn Hok Hino Hroom Htags Hinv Hi Hti attempt. pose proof Hinv as [Hr _ Hts _ (x & Hx & _ & Hwf) _ Hrev].
  simplify_eq. unfold attempt, sivfs_create_checkpoint_inode. destruct (ev_inode ev) as [ino|] eqn:Eino.
  2: { exists (Err ENOMEM), c. split; [done|]. split; [apply grew_refl|]. split_and!; try done. right. split; [eauto|].
       split; [done|]. right; left. exact Eino. }
  destruct (Hino ino eq_refl) as [Hi0 Hfree]. clear attempt.
  set (c1 := set_inodes (<[ino := mk_inode 0 0 SIVFS_INVALID_TS]> (c_inodes c)) c).
  rewrite (bind_step _ _ c ino c1) by done. unfold set_root_ts. rewrite bind_assoc.
  assert (Hl1 : c_inodes c1 !! ino = Some (mk_inode 0 0 SIVFS_INVALID_TS)) by apply lookup_insert_eq.
  rewrite (bind_step _ _ _ _ _ (load_ok _ _ _ Hl1)).
  set (c2 := set_inodes (<[ino := mk_inode (ci_root i) n SIVFS_INVALID_TS]> (c_inodes c1)) c1).
  rewrite (bind_step (store_inode _ _) _ c1 tt c2 eq_refl).
  assert (Hg2 : grew c c2).
  { split; [|apply frame_refl]. intros j y Hj. exists y. split; [|done]. simpl. rewrite !lookup_insert_ne by congruence. done. }
  assert (Hf : filling n (c_latest_ts c) (c_latest c) ino c2 (ci_root i)).
  { split; try done.
    - exists SIVFS_INVALID_TS. apply lookup_insert_eq.
    - split; [done|]. split; [congruence|]. destruct (gr_inodes _ _ Hg2 _ _ Hi) as (y & Hy & _). by exists y.
    - destruct (c_reverse c2 !! ridx n) as [v|] eqn:E; [|done]. destruct (Hrev (ridx n) (ex_intro _ v E)) as [_ Hle].
      pose proof invalid_ts_val. apply (proj1 (ridx_antitone (c_latest_ts c) n ltac:(u64_lia) ltac:(u64_lia))) in Hle. lia. }
  rewrite Hti. destruct (build_ok st lo N n (c_latest_ts c) (c_latest c) ino ev Hv HN Hlo ltac:(lia) Hok c2 (ci_root i) Hf)
    as (r & c3 & E & [G3 F3] & H3 & Rd3 & HR).
  assert (Hg3 : grew c c3).
  { split; [|apply (frame_trans _ _ _ _ _ (gr_frame _ _ Hg2) F3); done]. intros j y Hj.
    destruct (gr_inodes _ _ Hg2 j y Hj) as (y2 & Hy2 & ? & ?), (G3 j y2 ltac:(congruence) Hy2) as (y3 & Hy3 & ? & ?).
    exists y3. split; [done|]. split; congruence. }
  destruct HR as [(-> & Hc & Er)|([e ->] & Er & Hw)].
  - rewrite (bind_step _ _ _ _ _ (on_error_ok _ _ _ _ _ E)). exists (Ok ino), c3. split; [done|].
    split; [done|]. split; [done|]. split; [done|left]. exists ino. done.
  - rewrite (bind_err _ _ _ _ _ (on_error_err _ (iput ino) _ _ _ (set_inodes (delete ino (c_inodes c3)) c3) E eq_refl)).
    exists (Err e), (set_inodes (delete ino (c_inodes c3)) c3). split; [done|]. split; [by apply delete_grew|].
    split; [done|]. split; [done|right]. split; [eauto|]. split; [done|exact Hw].
Qed.

Lemma publish_inv c c' n ino i' : cps_inv c -> c_latest_ts c < n < SIVFS_INVALID_TS -> ready c' -> ino <> 0 ->
  c_reverse c' = <[ridx n := ino]> (c_reverse c) -> c_inodes c' !! ino = Some i' -> ci_ts i' = n ->
  tree_ok (cpages c') n (ci_root i') -> cps_inv (set_latest ino n n c').
Proof.
  intros [_ _ Hts _ _ _ Hrev] Hn Hr Hi0 Er Hi Ht Hwf. split; try done; cbn [c_latest_ts c_latest c_reverse set_latest].
  - lia.
  - by exists i'.
  - rewrite Er. apply lookup_insert_eq.
  - rewrite Er. intros j. rewrite lookup_insert. pose proof invalid_ts_val. case_decide as Hj.
    + intros _. subst j. split; [apply ridx_u64|lia].
    + intros Hs. destruct (Hrev j Hs) as [Hj' Hle]. split; [done|]. etrans; [|exact Hle]. apply ridx_antitone; u64_lia.
Qed.

Lemma make_checkpoint_full st lo N n ev c : log_view st lo N -> n <= N -> lo <= c_latest_ts c + 1 -> c_latest_ts c <= n < SIVFS_INVALID_TS ->
  Forall write_ok (log_slice st (c_latest_ts c + 1) (Z.to_nat (n - c_latest_ts c)) ≫= entry_writes) ->
  (forall ino, ev_inode ev = Some ino -> ino <> 0 /\ c_inodes c !! ino = None) ->
  st_size (c_obsoleted c) < stack_limit / 4 -> cps_inv c ->
  making_promise (log_slice st (c_latest_ts c + 1) (Z.to_nat (n - c_latest_ts c)) ≫= entry_writes) n c
    (sivfs_make_checkpoint F ZERO_PAGE ev st n c) /\
  explained ev n c (sivfs_make_checkpoint F ZERO_PAGE ev st n c).
Proof.
  intros Hv HN Hlo Hn Hok Hino Hroom Hinv. unfold sivfs_make_checkpoint. apply throttle_promise.
  assert (Hsame : making_promise (log_slice st (c_latest_ts c + 1) (Z.to_nat (n - c_latest_ts c)) ≫= entry_writes) n c (Ok false, c)).
  { apply quiet_outcome; try done; [apply grew_refl|apply Hinv]. }
  destruct (ev_state ev) eqn:Est; cbn [negb]; [|split; [done|right; by right; left]].
  rewrite (bind_step (gets c_latest_ts) _ c _ c eq_refl), (bind_step (gets c_latest) _ c _ c eq_refl).
  destruct (Z.eqb_spec n (c_latest_ts c)) as [->|Hne]; [split; [done|right; by left]|].
  pose proof Hinv as [Hr Hl0 _ _ (i & Hi & Hti & _) _ _]. rewrite (proj2 (Z.eqb_neq _ 0)) by done.
  rewrite (bind_step _ _ _ _ _ (load_ok _ _ _ Hi)). rewrite Hti, Z.eqb_refl. cbn [negb].
  unfold new_obsoleted_pages. rewrite bind_assoc. destruct (ev_kz ev) eqn:Ekz; [|split; [done|right; right; right; by left]].
  cbn [sivfs_new_stack]. rewrite (bind_step (lift _) _ c _ c eq_refl).
  set (c1 := set_store (set_obsoleted zero_stack (c_store c)) c). rewrite (bind_step _ _ c tt c1) by reflexivity.
  assert (Hg1 : grew c c1) by (split; [eauto|apply frame_refl]).
  assert (Hinv1 : cps_inv c1) by (apply (grew_inv c c1); try done; by apply ready_empty).
  destruct (attempt_ok st lo N n ev c1 i Hv) as (r & c2 & E & G2 & H2 & R2 & HR); try done; [simpl; lia|].
  rewrite Hti in E. change (c_latest c1) with (c_latest c) in E.
  destruct (put_obsoleted_ok c2 R2) as (c3 & E3 & G3 & H3 & R3 & I3 & V3 & P3).
  assert (E3' := E3). injection E3' as E3'.
  assert (G : grew c c2) by (by eapply grew_trans).
  destruct HR as [(ino & -> & Hi0 & Er & i' & Hi' & Ht' & Hw' & Hm)|([e ->] & Er & Hwhy)].
  2: { rewrite (bind_err _ _ _ _ _ (on_error_err _ _ _ _ _ _ E E3)).
       split; [|right; right; right; rewrite <- E3'; exact Hwhy].
       apply quiet_outcome; try done; [by eapply grew_trans|unfold same_heads in *; naive_solver congruence|by rewrite V3, Er]. }
  rewrite (bind_step _ _ _ _ _ (on_error_ok _ _ _ _ _ E)).
  unfold _sivfs_checkpoints_insert_finish. rewrite bind_assoc, (bind_step _ _ _ _ _ (load_ok _ _ _ Hi')), Ht'.
  rewrite (bind_step _ _ c2 tt (set_latest ino n n c2)) by reflexivity.
  assert (Hfin : cps_inv (set_latest ino n n c2)) by (eapply (publish_inv c1 c2 n ino i'); try done; simpl; lia).
  set (c4 := count_checkpoint (usub n (c_latest_ts c)) (set_latest ino n n c2)).
  rewrite (bind_step _ _ (set_latest ino n n c2) tt c4) by reflexivity.
  set (c5 := set_store (set_obsoleted zero_stack (c_store c4)) c4). rewrite (bind_step put_obsoleted_pages _ c4 tt c5 eq_refl).
  assert (G5 : grew (set_latest ino n n c2) c5) by (split; [eauto|apply frame_refl]).
  assert (Hinv5 : cps_inv c5).
  { apply (grew_inv (set_latest ino n n c2) c5); try done. by apply (ready_empty c2). }
  split; [|by left]. split; [done|]. split; [done|]. split; [done|]. split.
  - apply grew_kept. eapply grew_trans; [exact G|]. by destruct G5.
  - intros m (i0 & Hi0' & Hm0). simplify_eq. exists i'. split; [done|]. by apply Hm.
Qed.

Lemma make_checkpoint_ok st lo n ev c : log_view st lo n -> lo <= c_latest_ts c + 1 -> c_latest_ts c <= n < SIVFS_INVALID_TS ->
  Forall write_ok (log_slice st (c_latest_ts c + 1) (Z.to_nat (n - c_latest_ts c)) ≫= entry_writes) ->
  (forall ino, ev_inode ev = Some ino -> ino <> 0 /\ c_inodes c !! ino = None) ->
  st_size (c_obsoleted c) < stack_limit / 4 -> cps_inv c ->
  making_promise (log_slice st (c_latest_ts c + 1) (Z.to_nat (n - c_latest_ts c)) ≫= entry_writes) n c
    (sivfs_make_checkpoint F ZERO_PAGE ev st n c).
Proof. intros. by apply (make_checkpoint_full st lo n n). Qed.
End making.

(** C10. Making a checkpoint at the commit timestamp [n], from a log that may
    have grown beyond [n], on every branch of the environment. It never faults.
    When it reports a new checkpoint, that one is published at [n] and reads as
    the previously latest checkpoint with all writes of the transactions
    committed since, up to [n], replayed in log order. When it reports none or
    an error (out of memory is swallowed), the latest checkpoint, its timestamp
    and what is published are unchanged; that happens only when there is nothing
    new, the task has no state, memory is refused (to the stack, the inode, the
    index, the collector's list or a page), a signal arrives, or the latest
    checkpoint has an address that cannot be tagged. In every case all existing
    checkpoints still read the same and the invariant holds again. *)
Theorem make_checkpoint_publishes F ZERO_PAGE `{HF : !PtFlagsOk F} st lo N n ev c :
  log_view st lo N -> n <= N -> lo <= c_latest_ts c + 1 -> c_latest_ts c <= n < SIVFS_INVALID_TS ->
  Forall write_ok (log_slice st (c_latest_ts c + 1) (Z.to_nat (n - c_latest_ts c)) ≫= entry_writes) ->
  (forall ino, ev_inode ev = Some ino -> ino <> 0 /\ c_inodes c !! ino = None) ->
  st_size (c_obsoleted c) < stack_limit / 4 -> cps_inv F ZERO_PAGE c ->
  making_promise F ZERO_PAGE (log_slice st (c_latest_ts c + 1) (Z.to_nat (n - c_latest_ts c)) ≫= entry_writes) n c
    (sivfs_make_checkpoint F ZERO_PAGE ev st n c) /\
  explained ev n c (sivfs_make_checkpoint F ZERO_PAGE ev st n c).
Proof. intros. by apply (make_checkpoint_full F ZERO_PAGE st lo N n). Qed.

(** The first checkpoint of a new file system, in inode 16. *)
Definition sample_cps : cps :=
  mk_cps 16 0 0 {[ridx 0 := 16]} {[16 := mk_inode 0 0 SIVFS_INVALID_TS]} zero_stack ∅ sample_store 0 0.
Definition good_env : cp_env := mk_env true true (Some 32) (fun _ => true) false true true.

Lemma sample_cps_inv : cps_inv x86_flags ZERO_PA sample_cps.
Proof.
  split; try done.
  - split; [exact sample_store_zero|exact zero_stack_wf].
  - exists (mk_inode 0 0 SIVFS_INVALID_TS). split; [by vm_compute|]. split; [done|exact (or_introl eq_refl)].
  - intros i [v Hv]. cbn [c_reverse sample_cps] in Hv. apply lookup_singleton_Some in Hv as [<- _]. split; [apply ridx_u64|done].
Qed.

Lemma sample_writes_ok : Forall write_ok
  (log_slice sample_log3 (c_latest_ts sample_cps + 1) (Z.to_nat (3 - c_latest_ts sample_cps)) ≫= entry_writes).
Proof.
  assert (E : log_slice sample_log3 1 3 ≫= entry_writes = [(7, 16, 1); (7, 4096, 2); (8, 0, 3); (7, 16, 4)])
    by (vm_compute; reflexivity).
  change (log_slice sample_log3 (c_latest_ts sample_cps + 1) (Z.to_nat (3 - c_latest_ts sample_cps)))
    with (log_slice sample_log3 1 3). rewrite E. repeat constructor; lia || reflexivity.
Qed.

Lemma good_env_inode ino : ev_inode good_env = Some ino -> ino <> 0 /\ c_inodes sample_cps !! ino = None.
Proof. intros [= <-]. split; [done|by vm_compute]. Qed.

Lemma make_checkpoint_publishes_witness :
  (sivfs_make_checkpoint x86_flags ZERO_PA good_env sample_log3 3 sample_cps).1 = Ok true /\
  making_promise x86_flags ZERO_PA (log_slice sample_log3 (0 + 1) (Z.to_nat (3 - 0)) ≫= entry_writes) 3 sample_cps
    (sivfs_make_checkpoint x86_flags ZERO_PA good_env sample_log3 3 sample_cps) /\
  explained good_env 3 sample_cps (sivfs_make_checkpoint x86_flags ZERO_PA good_env sample_log3 3 sample_cps).
Proof.
  split; [vm_compute; reflexivity|].
  apply (make_checkpoint_publishes x86_flags ZERO_PA sample_log3 1 3 3 good_env sample_cps).
  - apply sample_log3_view.
  - reflexivity.
  - by vm_compute.
  - by vm_compute.
  - exact sample_writes_ok.
  - exact good_env_inode.
  - by vm_compute.
  - exact sample_cps_inv.
Defined.

(** ** Direct access *)

Lemma on_obsolete_page_gc_records vz : records_only (sivfs_on_obsolete_page_gc vz).
Proof.
  intros q s [Hwf Hroom]. unfold sivfs_on_obsolete_page_gc. pose proof limit_quarter.
  assert (Hw1 : stack_wf (mk_stack 1 1 [q])) by (split; [simpl; lia|done|by vm_compute]).
  destruct (mark_pages_ok (vz q) _ None (p_obsoleted s) Hwf Hw1) as (r & o & -> & Hwo & HR); [simpl; lia|].
  pose proof (elems_length _ Hwf) as Hl. pose proof (elems_length _ Hwo) as Hlo.
  exists r, (set_obsoleted o s). split; [done|].
  assert (Hsz : st_size o <= st_size (p_obsoleted s) + 1).
  { destruct HR as [[_ He]|(_ & He & _)]; rewrite He in Hlo; [|lia].
    change (elems (mk_stack 1 1 [q])) with [q] in Hlo. change (marked [q] None) with [page_entry q] in Hlo.
    rewrite length_app in Hlo. cbn [length] in Hlo. lia. }
  split; [destruct HR as [[-> _]|[[-> | ->] _]]; eauto|]. split_and!; try done. split; [done|]. cbn [p_obsoleted p_supply set_obsoleted]. lia.
Qed.

(** What preparing a page for direct access promises. *)
Definition direct_promise (F : pt_flags) (ZERO_PAGE checkpoint ino off : Z) (i : cp_inode) (c : cps)
    (o : res unit * cps) : Prop :=
  let h := p_pages (c_store c) in
  let h' := p_pages (c_store o.2) in
  older_unchanged F ZERO_PAGE (ci_ts i) h h' /\
  match o.1 with
  | Ok _ => exists i' q, c_inodes o.2 !! checkpoint = Some i' /\ ci_ts i' = ci_ts i /\
      wf_sub F ZERO_PAGE h' (ci_ts i) ROOT_LEVEL (ci_root i') /\
      sivfs_checkpoint_traverse F (ci_root i') ino off h' = Ok (Some q) /\ owned ZERO_PAGE h' (ci_ts i) q /\
      forall m, cp_reads F c checkpoint m -> cp_reads F o.2 checkpoint m
  | Err _ => True
  | _ => False
  end.

(** Preparing a page of a checkpoint (not the one at time 0) for direct
    access: it never faults; on success the page is present, is not a shared
    zero page and belongs to this very checkpoint, while everything the
    checkpoint reads is unchanged; older checkpoints are unchanged also when it
    fails half-way. *)
Theorem direct_access_page_is_private F ZERO_PAGE `{HF : !PtFlagsOk F} vz checkpoint ino off i c :
  c_inodes c !! checkpoint = Some i -> ci_ts i <> 0 -> write_ok (ino, off, 0) ->
  zero_ready F ZERO_PAGE (set_obsoleted (c_obsoleted c) (c_store c)) ->
  wf_sub F ZERO_PAGE (p_pages (c_store c)) (ci_ts i) ROOT_LEVEL (ci_root i) ->
  direct_promise F ZERO_PAGE checkpoint ino off i c
    (sivfs_prepare_direct_access_page F ZERO_PAGE vz checkpoint ino off c).
Proof.
  intros Hi Hts Hw Hz Hwf. unfold sivfs_prepare_direct_access_page, direct_promise. rewrite Hi.
  set (s := set_obsoleted (c_obsoleted c) (c_store c)) in *.
  destruct (apply_change_nowrite F ZERO_PAGE _ (ci_ts i) (on_obsolete_page_gc_records vz) Hts ino off s (ci_root i)
    (zero_upto_store F ZERO_PAGE (ci_ts i) s Hz) Hwf Hw)
    as [(r' & s' & -> & _ & Hwf' & Hf & Hview & q & Hq & Ho)|(e & r' & s' & -> & Hf)];
    (split; [by eapply old_safe_unchanged, replay_frame_safe|]); [|done].
  exists (mk_inode r' (ci_ts i) (ci_obsoleted_ts i)), q. split; [apply lookup_insert_eq|]. split_and!; try done.
  intros m (i0 & Hi0 & Hm). simplify_eq. eexists. split; [apply lookup_insert_eq|]. cbn [ci_root].
  eapply reads_ext; [by eapply reads_view|]. intros ino' pg Hp. cbn [c_store set_store p_pages set_obsoleted].
  rewrite Hview by done. apply (reads_functional _ _ _ _ _ _ _ Hm); [by eapply reads_view|done].
Qed.

(** The checkpoint at time 3 of the sample file system. *)
Definition sample_cps3 : cps := (sivfs_make_checkpoint x86_flags ZERO_PA good_env sample_log3 3 sample_cps).2.

Lemma sample_cps3_inv : cps_inv x86_flags ZERO_PA sample_cps3 /\ c_latest_ts sample_cps3 = 3.
Proof.
  assert (H : making_promise x86_flags ZERO_PA (log_slice sample_log3 (c_latest_ts sample_cps + 1)
      (Z.to_nat (3 - c_latest_ts sample_cps)) ≫= entry_writes) 3 sample_cps
      (sivfs_make_checkpoint x86_flags ZERO_PA good_env sample_log3 3 sample_cps)).
  { apply (make_checkpoint_ok x86_flags ZERO_PA sample_log3 1 3 good_env sample_cps).
    - apply sample_log3_view.
    - by vm_compute.
    - by vm_compute.
    - exact sample_writes_ok.
    - exact good_env_inode.
    - by vm_compute.
    - exact sample_cps_inv. }
  unfold sample_cps3. assert (E : (sivfs_make_checkpoint x86_flags ZERO_PA good_env sample_log3 3 sample_cps).1 = Ok true)
    by (vm_compute; reflexivity).
  revert H E. generalize (sivfs_make_checkpoint x86_flags ZERO_PA good_env sample_log3 3 sample_cps).
  intros [r c'] H E. simpl in E. subst r. destruct H as (Hinv & Ht & _). done.
Qed.

Lemma direct_access_page_is_private_witness : exists i, c_inodes sample_cps3 !! 32 = Some i /\ ci_ts i = 3 /\
  direct_promise x86_flags ZERO_PA 32 9 8192 i sample_cps3
    (sivfs_prepare_direct_access_page x86_flags ZERO_PA (fun _ => true) 32 9 8192 sample_cps3).
Proof.
  destruct sample_cps3_inv as [Hinv Ht]. destruct (inv_inode _ _ _ Hinv) as (i & Hi & Hti & Hwf).
  assert (El : c_latest sample_cps3 = 32) by (vm_compute; reflexivity). rewrite El in Hi.
  exists i. split; [exact Hi|]. split; [congruence|].
  apply (direct_access_page_is_private x86_flags ZERO_PA).
  - exact Hi.
  - rewrite Hti, Ht. discriminate.
  - repeat split; lia || reflexivity.
  - apply zero_ready_obsoleted; [apply (inv_ready _ _ _ Hinv)|apply (inv_ready _ _ _ Hinv)|].
    assert (Es : (st_size (c_obsoleted sample_cps3) + Z.of_nat (length (p_supply (c_store sample_cps3))) + 0 + 1 <?
      stack_limit / 4) = true) by (vm_compute; reflexivity).
    exact (proj1 (Z.ltb_lt _ _) Es).
  - rewrite Hti. exact Hwf.
Defined.

(** The checkpoint at time 0 is the exception: the zero pages count as made
    at time 0, so the shared zero page is taken for a page of that checkpoint,
    and direct access gets the shared ZERO_PAGE itself. *)
Theorem direct_access_at_time_zero_shares_zero_page :
  let '(r, c') := sivfs_prepare_direct_access_page x86_flags ZERO_PA (fun _ => true) 16 9 8192 sample_cps in
  r = Ok tt /\ exists i, c_inodes c' !! 16 = Some i /\
    sivfs_checkpoint_traverse x86_flags (ci_root i) 9 8192 (p_pages (c_store c')) = Ok (Some ZERO_PA) /\
    (cp_index <$> p_pages (c_store c') !! ZERO_PA) = Some 2.
Proof.
  assert (H : let '(r, c') := sivfs_prepare_direct_access_page x86_flags ZERO_PA (fun _ => true) 16 9 8192 sample_cps in
    (r, ci_root <$> c_inodes c' !! 16, (match c_inodes c' !! 16 with
      | Some i => sivfs_checkpoint_traverse x86_flags (ci_root i) 9 8192 (p_pages (c_store c'))
      | None => Fault end), cp_index <$> p_pages (c_store c') !! ZERO_PA)
    = (Ok tt, ci_root <$> c_inodes c' !! 16, Ok (Some ZERO_PA), Some 2)) by (vm_compute; reflexivity).
  destruct (sivfs_prepare_direct_access_page x86_flags ZERO_PA (fun _ => true) 16 9 8192 sample_cps) as [r c'].
  injection H as -> Hi Hx. split; [done|]. destruct (c_inodes c' !! 16) as [i|]; [|done]. by exists i.
Qed.

(** ** Round trips of the entries *)

(** The low-bit encoding of collector entries loses nothing: an aligned
    address tagged as a page or as an inode reads back with its type and its
    address, and an address whose low bits are in use is refused. *)
Theorem gc_entry_roundtrip a : is_u64 a ->
  match sivfs_gc_make_entry_page a, sivfs_gc_make_entry_inode a with
  | Ok p, Ok i =>
      a mod 8 = 0 /\
      sivfs_gc_entry_to_type p = Ok SIVFS_GC_ENTRY_PAGE /\ sivfs_gc_entry_to_page p = a /\
      sivfs_gc_entry_to_type i = Ok SIVFS_GC_ENTRY_INODE /\ sivfs_gc_entry_to_inode i = a
  | Err e, Err e' => a mod 8 <> 0 /\ e = EINVAL /\ e' = EINVAL
  | _, _ => False
  end.
Proof.
  intros Ha. unfold sivfs_gc_make_entry_page, sivfs_gc_make_entry_inode.
  assert (Em : Z.land a SIVFS_GC_ENTRY_FLAGS = a mod 8) by (change SIVFS_GC_ENTRY_FLAGS with (Z.ones 3); by rewrite Z.land_ones).
  destruct (Z.eqb_spec (Z.land a SIVFS_GC_ENTRY_FLAGS) 0) as [E|E]; cbn [negb].
  - unfold sivfs_gc_entry_to_type, sivfs_gc_entry_to_page, sivfs_gc_entry_to_inode.
    destruct (gc_tag_parts a SIVFS_GC_ENTRY_PAGE Ha E ltac:(done)) as [-> ->].
    destruct (gc_tag_parts a SIVFS_GC_ENTRY_INODE Ha E ltac:(done)) as [-> ->]. split; [congruence|done].
  - split; [congruence|done].
Qed.

Lemma gc_entry_roundtrip_witness : is_u64 4096 /\
  match sivfs_gc_make_entry_page 4096, sivfs_gc_make_entry_inode 4096 with
  | Ok p, Ok i =>
      4096 mod 8 = 0 /\
      sivfs_gc_entry_to_type p = Ok SIVFS_GC_ENTRY_PAGE /\ sivfs_gc_entry_to_page p = 4096 /\
      sivfs_gc_entry_to_type i = Ok SIVFS_GC_ENTRY_INODE /\ sivfs_gc_entry_to_inode i = 4096
  | Err e, Err e' => 4096 mod 8 <> 0 /\ e = EINVAL /\ e' = EINVAL
  | _, _ => False
  end.
Proof. split; [by vm_compute|]. apply (gc_entry_roundtrip 4096). by vm_compute. Defined.
