(* ===== verification/GC.v ===== *)
(** Garbage collection of checkpoint pages and checkpoint inodes
    (kern/sivfs_gc_checkpoints.c, sivfs_gc_free_entry of
    kern/sivfs_checkpoints.c).

    The tree gc_blocked_entries maps a timestamp to the stack of entries that
    this timestamp blocks. A group is named by its timestamp, which is what the
    pointer returned by sivfs_gc_get_blocked_entries stands for. The iteration
    over the tree visits the groups that exist when it starts; the groups that
    the loop itself creates are blocked, and would be skipped. *)
From S2P Require Import Prelude Types Stack PageTree MakeCheckpoint Checkpoints.

(** ** The operations *)

(** Which allocations succeed: a new stack and a new tree node for a group, the
    growth of a group when an entry is pushed, the growth of the uncategorized
    group, the stack of versions; [gv_signal]: the mutex is interrupted. *)
Record gc_env : Type := mk_gc_env {
  gv_state : bool;
  gv_signal : bool;
  gv_stack : Z -> bool;
  gv_node : Z -> bool;
  gv_push : Z -> bool;
  gv_push_all : bool;
  gv_versions : bool
}.

(** The checkpoints and the statistics of the calling thread. *)
Record gcs : Type := mk_gcs {
  g_cps : cps;
  g_pages_freed : Z;
  g_inodes_freed : Z
}.

Definition on_cps {A} (m : M cps A) : M gcs A := fun g =>
  let '(r, c) := m (g_cps g) in (r, mk_gcs c (g_pages_freed g) (g_inodes_freed g)).

(** Runs on the stack of the group [ts]. *)
Definition on_group {A} (ts : Z) (m : M sivfs_stack A) : M cps A := fun c =>
  match c_blocked c !! ts with
  | None => (Fault, c)
  | Some st => let '(r, st') := m st in (r, set_blocked (<[ts := st']> (c_blocked c)) c)
  end.

Definition sivfs_gc_get_blocked_entries (ev : gc_env) (ts : Z) : M cps unit := fun c =>
  match c_blocked c !! ts with
  | Some _ => (Ok tt, c)
  | None =>
    match sivfs_new_stack (gv_stack ev ts) with
    | Ok st => if gv_node ev ts then (Ok tt, set_blocked (<[ts := st]> (c_blocked c)) c) else (Err ENOMEM, c)
    | Err e => (Err e, c)
    | Fault => (Fault, c)
    | OutOfFuel => (OutOfFuel, c)
    end
  end.

Definition sivfs_ts_range_contains (start end_ ts : Z) : bool := (start <=? ts) && (ts <? end_).

Definition sivfs_gc_entry_to_lifetime (entry : Z) (c : cps) : res (Z * Z) :=
  let? type := sivfs_gc_entry_to_type entry in
  if type =? SIVFS_GC_ENTRY_INODE then
    let? cpinfo := deref (c_inodes c !! sivfs_gc_entry_to_inode entry) in
    Ok (ci_ts cpinfo, ci_obsoleted_ts cpinfo)
  else
    let? pginfo := deref (p_pages (c_store c) !! sivfs_gc_entry_to_page entry) in
    Ok (cp_checkpoint_ts pginfo, cp_obsoleted_ts pginfo).

(** An entry of a bad type is skipped. *)
Definition sivfs_gc_free_entry (entry : Z) : M gcs unit := fun g =>
  match sivfs_gc_entry_to_type entry with
  | Ok type =>
    if type =? SIVFS_GC_ENTRY_PAGE then
      let '(r, s) := sivfs_put_checkpoint_page (sivfs_gc_entry_to_page entry) (c_store (g_cps g)) in
      (r, mk_gcs (set_store s (g_cps g)) (uadd (g_pages_freed g) 1) (g_inodes_freed g))
    else
      let '(r, c) := iput (sivfs_gc_entry_to_inode entry) (g_cps g) in
      (r, mk_gcs c (g_pages_freed g) (uadd (g_inodes_freed g) 1))
  | _ => (Ok tt, g)
  end.

(** The group an entry has to wait in, SIVFS_INVALID_TS when it can be freed:
    the last of the checked-out versions in its lifetime. *)
Definition reassign_to (start_ts obsoleted_ts latest_snapshot : Z) (versions : list Z) : Z :=
  if latest_snapshot <? obsoleted_ts then latest_snapshot
  else foldl (fun r blocker => if sivfs_ts_range_contains start_ts obsoleted_ts blocker then blocker else r)
         SIVFS_INVALID_TS versions.

(** True when the entry was freed. *)
Definition sivfs_gc_or_reassign_entry (ev : gc_env) (entry : Z) (versions : list Z) (latest_snapshot : Z)
    : M gcs bool := fun g =>
  match sivfs_gc_entry_to_lifetime entry (g_cps g) with
  | Ok (start_ts, obsoleted_ts) =>
    let to := reassign_to start_ts obsoleted_ts latest_snapshot versions in
    if to =? SIVFS_INVALID_TS then (do! sivfs_gc_free_entry entry in ret true) g
    else
      (do! on_cps (sivfs_gc_get_blocked_entries ev to) in
       do! on_cps (on_group to (sivfs_stack_push (gv_push ev entry) entry)) in
       ret false) g
  | Err e => (Err e, g)
  | Fault => (Fault, g)
  | OutOfFuel => (OutOfFuel, g)
  end.

Definition sivfs_gc_blocked_entries_empty (c : cps) : bool :=
  forallb (fun kv : Z * sivfs_stack => st_size kv.2 =? 0) (map_to_list (c_blocked c)).

(** [while (!sivfs_stack_empty(entries))], with [fuel] iterations left. *)
Fixpoint drain_group (ev : gc_env) (fuel : nat) (ts : Z) (versions : list Z) (latest_snapshot : Z)
    (did_gc : bool) : M gcs bool :=
  let! entries := on_cps (fun c => (deref (c_blocked c !! ts), c)) in
  if sivfs_stack_empty entries then ret did_gc
  else
    match fuel with
    | O => lift OutOfFuel
    | S fuel =>
      let! entry := lift (sivfs_stack_peek entries) in
      let! freed := sivfs_gc_or_reassign_entry ev entry versions latest_snapshot in
      do! on_cps (on_group ts sivfs_stack_pop) in
      drain_group ev fuel ts versions latest_snapshot (did_gc || freed)
    end.

(** The group still has to wait. *)
Definition still_blocked (blocked_ts latest_snapshot : Z) (versions : list Z) : bool :=
  if blocked_ts =? SIVFS_INVALID_TS then false
  else (latest_snapshot <=? blocked_ts) || existsb (fun v => v =? blocked_ts) versions.

Fixpoint gc_groups (ev : gc_env) (keys : list Z) (versions : list Z) (latest_snapshot : Z)
    (did_gc : bool) : M gcs bool :=
  match keys with
  | [] => ret did_gc
  | ts :: keys =>
    if still_blocked ts latest_snapshot versions then gc_groups ev keys versions latest_snapshot did_gc
    else
      let! entries := on_cps (fun c => (deref (c_blocked c !! ts), c)) in
      let! did_gc := drain_group ev (Z.to_nat (st_size entries)) ts versions latest_snapshot did_gc in
      do! on_cps (modify (fun c => set_blocked (delete ts (c_blocked c)) c)) in
      gc_groups ev keys versions latest_snapshot did_gc
  end.

(** The keys of the tree in the order of the iteration. *)
Definition group_keys (c : cps) : list Z := merge_sort Z.le (map_to_list (c_blocked c)).*1.

(** Step 0: everything obsoleted goes to the uncategorized group. *)
Definition take_obsoleted (ev : gc_env) : M cps unit := fun c =>
  match c_blocked c !! SIVFS_INVALID_TS with
  | None => (Fault, c)
  | Some uncategorized =>
    match sivfs_stack_push_all (gv_push_all ev) (Some (c_obsoleted c)) (Some uncategorized) with
    | (Ok _, Some st) =>
      let o := c_obsoleted c in
      (Ok tt, set_obsoleted_entries (mk_stack 0 (st_capacity o) (st_values o))
                (set_blocked (<[SIVFS_INVALID_TS := st]> (c_blocked c)) c))
    | (Err e, Some st) => (Err e, set_blocked (<[SIVFS_INVALID_TS := st]> (c_blocked c)) c)
    | _ => (Fault, c)
    end
  end.

(** [versions] is what sivfs_get_checked_out_versions reports. *)
Definition sivfs_gc_checkpoints (ev : gc_env) (versions : res (list Z)) : M gcs bool :=
  if negb (gv_state ev) then throw EINVAL
  else if gv_signal ev then throw EINTR
  else
    do! on_cps (sivfs_gc_get_blocked_entries ev SIVFS_INVALID_TS) in
    do! on_cps (take_obsoleted ev) in
    let! empty := gets (fun g => sivfs_gc_blocked_entries_empty (g_cps g)) in
    if (empty : bool) then ret false
    else
      let! latest_snapshot := gets (fun g => c_published (g_cps g)) in
      do! lift (sivfs_new_stack (gv_versions ev)) in
      let! versions := lift versions in
      let! keys := gets (fun g => group_keys (g_cps g)) in
      gc_groups ev keys versions latest_snapshot false.

(** ** The entries that are listed *)

Definition grp (c : cps) (ts : Z) : list Z :=
  match c_blocked c !! ts with Some st => elems st | None => [] end.
Definition listed (c : cps) (e : Z) : Prop := e ∈ elems (c_obsoleted c) \/ exists ts, e ∈ grp c ts.

(** The object of an entry is allocated. *)
Definition entry_live (c : cps) (e : Z) : Prop :=
  is_u64 e /\
  ((sivfs_gc_entry_to_type e = Ok SIVFS_GC_ENTRY_PAGE /\
    exists p, p_pages (c_store c) !! sivfs_gc_entry_to_page e = Some p /\ cp_is_zero p = false)
   \/ (sivfs_gc_entry_to_type e = Ok SIVFS_GC_ENTRY_INODE /\ is_Some (c_inodes c !! sivfs_gc_entry_to_inode e))).

(** Every listed entry names its own live object, and is listed once; [L]
    bounds the entries, so that no stack can grow beyond what its size field
    counts. *)
Record gc_inv (L : list Z) (c : cps) : Prop := {
  gi_obs : stack_wf (c_obsoleted c);
  gi_grp : forall ts st, c_blocked c !! ts = Some st -> stack_wf st;
  gi_obs_nodup : NoDup (elems (c_obsoleted c));
  gi_grp_nodup : forall ts, NoDup (grp c ts);
  gi_disjoint : forall ts ts' e, e ∈ grp c ts -> e ∈ grp c ts' -> ts = ts';
  gi_obs_disjoint : forall ts e, e ∈ elems (c_obsoleted c) -> e ∉ grp c ts;
  gi_live : forall e, listed c e -> entry_live c e;
  gi_in : forall e, listed c e -> e ∈ L;
  gi_bound : Z.of_nat (length L) < stack_limit / 4
}.

(** The entry may be freed: its object was obsoleted by a published checkpoint
    and no checked-out version can see it. *)
Definition collectable (versions : list Z) (latest : Z) (c : cps) (e : Z) : Prop :=
  exists s o, sivfs_gc_entry_to_lifetime e c = Ok (s, o) /\ o <= latest /\
    forall v, v ∈ versions -> ~ (s <= v < o).

(** [c'] results from [c] by freeing collectable entries and regrouping others:
    what enters a group other than the uncategorized one has to wait there. *)
Record reclaims (versions : list Z) (latest : Z) (c c' : cps) : Prop := {
  rc_listed : forall e, listed c' e -> listed c e;
  rc_gone : forall e, listed c e -> ~ listed c' e -> collectable versions latest c e;
  rc_pages : forall q p, p_pages (c_store c) !! q = Some p -> p_pages (c_store c') !! q = Some p \/
    exists e, listed c e /\ ~ listed c' e /\ sivfs_gc_entry_to_type e = Ok SIVFS_GC_ENTRY_PAGE /\ sivfs_gc_entry_to_page e = q;
  rc_inodes : forall j i, c_inodes c !! j = Some i -> c_inodes c' !! j = Some i \/
    exists e, listed c e /\ ~ listed c' e /\ sivfs_gc_entry_to_type e = Ok SIVFS_GC_ENTRY_INODE /\ sivfs_gc_entry_to_inode e = j;
  rc_old_pages : forall q p, p_pages (c_store c') !! q = Some p -> p_pages (c_store c) !! q = Some p;
  rc_old_inodes : forall j i, c_inodes c' !! j = Some i -> c_inodes c !! j = Some i;
  rc_heads : same_heads c c' /\ c_reverse c' = c_reverse c;
  rc_obs : forall e, e ∈ elems (c_obsoleted c') -> e ∈ elems (c_obsoleted c);
  rc_lifetime : forall e, listed c' e -> sivfs_gc_entry_to_lifetime e c' = sivfs_gc_entry_to_lifetime e c;
  rc_waits : forall k e, e ∈ grp c' k -> e ∈ grp c k \/ k = SIVFS_INVALID_TS \/
    (still_blocked k latest versions = true /\ ~ collectable versions latest c e)
}.

Lemma lifetime_still c c' e x :
  (forall q p, p_pages (c_store c') !! q = Some p -> p_pages (c_store c) !! q = Some p) ->
  (forall j i, c_inodes c' !! j = Some i -> c_inodes c !! j = Some i) ->
  sivfs_gc_entry_to_lifetime e c' = Ok x -> sivfs_gc_entry_to_lifetime e c = Ok x.
Proof.
  intros Hp Hi. unfold sivfs_gc_entry_to_lifetime. destruct (sivfs_gc_entry_to_type e) as [ty| | |]; try done. cbn [rbind].
  destruct (ty =? SIVFS_GC_ENTRY_INODE).
  - destruct (c_inodes c' !! _) as [i|] eqn:E; [|done]. by rewrite (Hi _ _ E).
  - destruct (p_pages (c_store c') !! _) as [p|] eqn:E; [|done]. by rewrite (Hp _ _ E).
Qed.

Lemma lifetime_old versions latest c c' e x : reclaims versions latest c c' ->
  sivfs_gc_entry_to_lifetime e c' = Ok x -> sivfs_gc_entry_to_lifetime e c = Ok x.
Proof. intros R. apply lifetime_still; apply R. Qed.

Lemma live_lifetime c e : entry_live c e -> exists s o, sivfs_gc_entry_to_lifetime e c = Ok (s, o).
Proof.
  intros [_ [(Ht & p & Hp & _)|(Ht & i & Hi)]]; unfold sivfs_gc_entry_to_lifetime; rewrite Ht; cbn [rbind].
  - rewrite Hp. by eexists _, _.
  - rewrite Hi. by eexists _, _.
Qed.

Lemma grp_listed c k e : e ∈ grp c k -> listed c e.
Proof. intros H. right. by exists k. Qed.

Lemma reclaims_refl versions latest c : reclaims versions latest c c.
Proof. split; try by auto. Qed.

(** Decidability of being listed is what lets the two steps be composed. *)
Lemma listed_dec c e : listed c e \/ ~ listed c e.
Proof.
  destruct (decide (e ∈ elems (c_obsoleted c))) as [?|Ho]; [by left; left|].
  destruct (decide (Exists (fun kv : Z * sivfs_stack => e ∈ elems kv.2) (map_to_list (c_blocked c)))) as [Hg|Hg].
  - left. right. apply Exists_exists in Hg as ([ts st] & Hin & He). apply elem_of_map_to_list in Hin.
    exists ts. unfold grp. by rewrite Hin.
  - right. intros [?|(ts & He)]; [done|]. apply Hg, Exists_exists. unfold grp in He.
    destruct (c_blocked c !! ts) as [st|] eqn:E; [|by apply not_elem_of_nil in He].
    exists (ts, st). split; [by apply elem_of_map_to_list|done].
Qed.

Lemma reclaims_trans versions latest c1 c2 c3 : reclaims versions latest c1 c2 -> reclaims versions latest c2 c3 ->
  reclaims versions latest c1 c3.
Proof.
  intros R1 R2. split.
  - intros e He. by apply (rc_listed _ _ _ _ R1), (rc_listed _ _ _ _ R2).
  - intros e He Hn. destruct (listed_dec c2 e) as [H2|H2]; [|by apply (rc_gone _ _ _ _ R1)].
    destruct (rc_gone _ _ _ _ R2 e H2 Hn) as (s & o & Hl & ? & ?). exists s, o. split; [|done]. by eapply lifetime_old.
  - intros q p Hq. destruct (rc_pages _ _ _ _ R1 q p Hq) as [H2|(e & ? & Hn & ? & ?)].
    + destruct (rc_pages _ _ _ _ R2 q p H2) as [?|(e & He & ? & ? & ?)]; [by left|right]. exists e.
      split; [by apply (rc_listed _ _ _ _ R1)|done].
    + right. exists e. split_and!; try done. intros H3. by apply Hn, (rc_listed _ _ _ _ R2).
  - intros j i Hj. destruct (rc_inodes _ _ _ _ R1 j i Hj) as [H2|(e & ? & Hn & ? & ?)].
    + destruct (rc_inodes _ _ _ _ R2 j i H2) as [?|(e & He & ? & ? & ?)]; [by left|right]. exists e.
      split; [by apply (rc_listed _ _ _ _ R1)|done].
    + right. exists e. split_and!; try done. intros H3. by apply Hn, (rc_listed _ _ _ _ R2).
  - intros q p Hq. by apply (rc_old_pages _ _ _ _ R1), (rc_old_pages _ _ _ _ R2).
  - intros j i Hj. by apply (rc_old_inodes _ _ _ _ R1), (rc_old_inodes _ _ _ _ R2).
  - destruct (rc_heads _ _ _ _ R1) as [(? & ? & ?) ?], (rc_heads _ _ _ _ R2) as [(? & ? & ?) ?].
    unfold same_heads. split_and!; congruence.
  - intros e He. by apply (rc_obs _ _ _ _ R1), (rc_obs _ _ _ _ R2).
  - intros e He. rewrite (rc_lifetime _ _ _ _ R2) by done. by apply (rc_lifetime _ _ _ _ R1), (rc_listed _ _ _ _ R2).
  - intros k e He. destruct (rc_waits _ _ _ _ R2 k e He) as [H2|[?|[Hb Hn]]]; [by apply (rc_waits _ _ _ _ R1)|by right; left|].
    right; right. split; [done|]. intros (s & o & Hl & Hc). apply Hn. exists s, o. split; [|done].
    rewrite (rc_lifetime _ _ _ _ R1); [done|]. by eapply (rc_listed _ _ _ _ R2), grp_listed.
Qed.

(** ** One entry *)

(** An entry is determined by its type and its address. *)
Lemma entry_split e : is_u64 e ->
  Z.lor (Z.land e (unot SIVFS_GC_ENTRY_FLAGS)) (Z.land e SIVFS_GC_ENTRY_FLAGS) = e.
Proof.
  intros He. rewrite <- Z.land_lor_distr_r.
  change (Z.lor (unot SIVFS_GC_ENTRY_FLAGS) SIVFS_GC_ENTRY_FLAGS) with (Z.ones 64).
  rewrite Z.land_ones by lia. apply Z.mod_small. exact He.
Qed.

Lemma entry_type_flags e t : sivfs_gc_entry_to_type e = Ok t -> Z.land e SIVFS_GC_ENTRY_FLAGS = t.
Proof. unfold sivfs_gc_entry_to_type. repeat case_match; intros [= <-]; by apply Z.eqb_eq. Qed.

Lemma entry_eq e x t : is_u64 e -> is_u64 x -> sivfs_gc_entry_to_type e = Ok t -> sivfs_gc_entry_to_type x = Ok t ->
  sivfs_gc_entry_to_page e = sivfs_gc_entry_to_page x -> e = x.
Proof.
  intros He Hx Te Tx Ha. rewrite <- (entry_split e He), <- (entry_split x Hx).
  apply entry_type_flags in Te, Tx. unfold sivfs_gc_entry_to_page in Ha. congruence.
Qed.

(** [e] left the top of group [A], for group [B] if there is one. *)
Record moved (A e : Z) (l : list Z) (B : option Z) (c c' : cps) : Prop := {
  mv_from : grp c A = l ++ [e];
  mv_to : grp c' A = l;
  mv_ne : B <> Some A;
  mv_others : forall k, k <> A -> grp c' k = grp c k ++ (if decide (B = Some k) then [e] else []);
  mv_wf : forall k st, c_blocked c' !! k = Some st -> stack_wf st;
  mv_obs : c_obsoleted c' = c_obsoleted c;
  mv_heads : same_heads c c' /\ c_reverse c' = c_reverse c;
  mv_old_pages : forall q p, p_pages (c_store c') !! q = Some p -> p_pages (c_store c) !! q = Some p;
  mv_old_inodes : forall j i, c_inodes c' !! j = Some i -> c_inodes c !! j = Some i;
  mv_pages : forall q p, p_pages (c_store c) !! q = Some p -> p_pages (c_store c') !! q = Some p \/
    (B = None /\ sivfs_gc_entry_to_type e = Ok SIVFS_GC_ENTRY_PAGE /\ sivfs_gc_entry_to_page e = q);
  mv_inodes : forall j i, c_inodes c !! j = Some i -> c_inodes c' !! j = Some i \/
    (B = None /\ sivfs_gc_entry_to_type e = Ok SIVFS_GC_ENTRY_INODE /\ sivfs_gc_entry_to_inode e = j)
}.

Section moved.
Context (L : list Z) (A e : Z) (l : list Z) (B : option Z) (c c' : cps) (Hinv : gc_inv L c) (Hm : moved A e l B c c').

Lemma moved_in_A : e ∈ grp c A.
Proof. rewrite (mv_from _ _ _ _ _ _ Hm). set_solver. Qed.

Lemma moved_fresh : e ∉ l /\ NoDup l.
Proof.
  pose proof (gi_grp_nodup _ _ Hinv A) as H. rewrite (mv_from _ _ _ _ _ _ Hm) in H.
  apply NoDup_app in H as (? & Hd & _). split; [|done]. intros He. apply (Hd e He). set_solver.
Qed.

(** The groups after the move. *)
Lemma moved_grp k x : x ∈ grp c' k <-> (x ∈ grp c k /\ (k = A -> x <> e)) \/ (x = e /\ B = Some k).
Proof.
  pose proof (mv_ne _ _ _ _ _ _ Hm) as Hne. pose proof moved_fresh as [Hf _].
  destruct (decide (k = A)) as [->|Hk].
  - rewrite (mv_to _ _ _ _ _ _ Hm), (mv_from _ _ _ _ _ _ Hm), elem_of_app, list_elem_of_singleton. naive_solver.
  - rewrite (mv_others _ _ _ _ _ _ Hm) by done. rewrite elem_of_app.
    destruct (decide (B = Some k)); [rewrite list_elem_of_singleton|rewrite elem_of_nil]; naive_solver.
Qed.

Lemma moved_only_A k : e ∈ grp c k -> k = A.
Proof. intros H. by apply (gi_disjoint _ _ Hinv k A e H), moved_in_A. Qed.

Lemma moved_listed x : listed c' x <-> listed c x /\ (x <> e \/ B <> None).
Proof.
  unfold listed. rewrite (mv_obs _ _ _ _ _ _ Hm). split.
  - intros [Ho|(k & Hk)].
    + split; [by left|]. left. intros ->. by apply (gi_obs_disjoint _ _ Hinv A e Ho), moved_in_A.
    + apply moved_grp in Hk as [[Hk Hne]|[-> HB]].
      * split; [right; eauto|]. destruct (decide (x = e)) as [->|]; [|by left]. apply moved_only_A in Hk as ->. naive_solver.
      * split; [right; exists A; apply moved_in_A|right; congruence].
  - intros [[Ho|(k & Hk)] HB]; [by left|right]. destruct (decide (x = e)) as [->|Hx].
    + destruct HB as [|[b HB]%not_eq_None_Some]; [done|]. exists b. apply moved_grp. by right.
    + exists k. apply moved_grp. left. split; [done|naive_solver].
Qed.

Lemma moved_live x : listed c' x -> entry_live c' x.
Proof.
  intros Hx. apply moved_listed in Hx as [Hx HB]. destruct (gi_live _ _ Hinv x Hx) as [Hu Hl]. split; [done|].
  destruct (gi_live _ _ Hinv e) as [Hue _]; [right; exists A; apply moved_in_A|].
  destruct Hl as [(Ht & p & Hp & Hz)|(Ht & i & Hi)]; [left|right]; (split; [done|]).
  - exists p. split; [|done]. destruct (mv_pages _ _ _ _ _ _ Hm _ _ Hp) as [?|(E & Te & Ha)]; [done|].
    destruct HB as [HB|]; [|done]. destruct HB. by apply (entry_eq x e SIVFS_GC_ENTRY_PAGE).
  - destruct (mv_inodes _ _ _ _ _ _ Hm _ _ Hi) as [?|(E & Te & Ha)]; [by eexists|].
    destruct HB as [HB|]; [|done]. destruct HB. by apply (entry_eq x e SIVFS_GC_ENTRY_INODE).
Qed.

Lemma moved_inv : gc_inv L c'.
Proof.
  pose proof moved_fresh as [Hf Hl]. split.
  - rewrite (mv_obs _ _ _ _ _ _ Hm). apply (gi_obs _ _ Hinv).
  - apply (mv_wf _ _ _ _ _ _ Hm).
  - rewrite (mv_obs _ _ _ _ _ _ Hm). apply (gi_obs_nodup _ _ Hinv).
  - intros k. destruct (decide (k = A)) as [->|Hk]; [by rewrite (mv_to _ _ _ _ _ _ Hm)|].
    rewrite (mv_others _ _ _ _ _ _ Hm) by done. apply NoDup_app. split; [apply (gi_grp_nodup _ _ Hinv)|].
    split; [|case_decide; [apply NoDup_singleton|constructor]].
    intros x Hx Hx'. case_decide; [|by apply elem_of_nil in Hx']. apply list_elem_of_singleton in Hx' as ->. by apply moved_only_A in Hx.
  - intros k k' x Hk Hk'. apply moved_grp in Hk as [[Hk Hn]|[-> HB]], Hk' as [[Hk' Hn']|[E HB']].
    + by apply (gi_disjoint _ _ Hinv k k' x).
    + rewrite E in Hk, Hn. by destruct (Hn (moved_only_A _ Hk)).
    + by destruct (Hn' (moved_only_A _ Hk')).
    + rewrite HB in HB'. by injection HB'.
  - intros k x Ho Hk. rewrite (mv_obs _ _ _ _ _ _ Hm) in Ho. apply moved_grp in Hk as [[Hk _]|[-> _]].
    + by apply (gi_obs_disjoint _ _ Hinv k x).
    + by apply (gi_obs_disjoint _ _ Hinv A e), moved_in_A.
  - apply moved_live.
  - intros x Hx. apply moved_listed in Hx as [Hx _]. by apply (gi_in _ _ Hinv).
  - apply (gi_bound _ _ Hinv).
Qed.

Lemma moved_reclaims versions latest : (B = None -> collectable versions latest c e) ->
  (forall to, B = Some to -> still_blocked to latest versions = true /\ ~ collectable versions latest c e) ->
  reclaims versions latest c c'.
Proof.
  intros Hc Hto. assert (He : listed c e) by (right; exists A; apply moved_in_A).
  assert (Hgone : B = None -> ~ listed c' e) by (intros HB H; apply moved_listed in H as [_ [?|?]]; done).
  split.
  - intros x Hx. by apply moved_listed in Hx as [Hx _].
  - intros x Hx Hn. destruct (decide (B = None)) as [EB|EB].
    2: { destruct Hn. apply moved_listed. split; [done|by right]. }
    destruct (decide (x = e)) as [->|Hxe]; [by apply Hc|]. destruct Hn. apply moved_listed. split; [done|by left].
  - intros q p Hq. destruct (mv_pages _ _ _ _ _ _ Hm q p Hq) as [?|(? & ? & ?)]; [by left|right]. exists e. auto.
  - intros j i Hj. destruct (mv_inodes _ _ _ _ _ _ Hm j i Hj) as [?|(? & ? & ?)]; [by left|right]. exists e. auto.
  - apply (mv_old_pages _ _ _ _ _ _ Hm).
  - apply (mv_old_inodes _ _ _ _ _ _ Hm).
  - apply (mv_heads _ _ _ _ _ _ Hm).
  - by rewrite (mv_obs _ _ _ _ _ _ Hm).
  - intros x Hx. destruct (live_lifetime _ _ (moved_live x Hx)) as (s & o & E). rewrite E. symmetry.
    by apply (lifetime_still c c'); [apply (mv_old_pages _ _ _ _ _ _ Hm)|apply (mv_old_inodes _ _ _ _ _ _ Hm)|].
  - intros k x [[Hx _]|[-> HB]]%moved_grp; [by left|right; right; by apply Hto].
Qed.
End moved.

(** ** Collecting *)

Section collecting.
Context (ev : gc_env) (L : list Z) (versions : list Z) (latest : Z) (Hlat : latest < SIVFS_INVALID_TS).

Notation blocked k := (still_blocked k latest versions = true).

Lemma blocker_fold s o vs : forall r,
  let r' := foldl (fun r blocker => if sivfs_ts_range_contains s o blocker then blocker else r) r vs in
  (r' = r /\ forall v, v ∈ vs -> ~ (s <= v < o)) \/ (r' ∈ vs /\ s <= r' < o).
Proof.
  induction vs as [|v vs IH]; intros r; [left; split; [done|]; intros v H; by apply not_elem_of_nil in H|].
  cbn [foldl]. destruct (sivfs_ts_range_contains s o v) eqn:E; unfold sivfs_ts_range_contains in E.
  - right. destruct (IH v) as [[-> _]|[? ?]]; split; rewrite ?elem_of_cons; auto. lia.
  - destruct (IH r) as [[-> Hn]|[? ?]]; [left|by right; rewrite elem_of_cons; auto]. split; [done|].
    intros x [->|Hx]%elem_of_cons; [lia|by apply Hn].
Qed.

Lemma reassign_spec s o :
  let to := reassign_to s o latest versions in
  (to = SIVFS_INVALID_TS /\ o <= latest /\ forall v, v ∈ versions -> ~ (s <= v < o)) \/
  (to <> SIVFS_INVALID_TS /\ blocked to /\ (latest < o \/ exists v, v ∈ versions /\ s <= v < o)).
Proof.
  unfold reassign_to, still_blocked. destruct (Z.ltb_spec latest o).
  - right. split; [lia|]. rewrite (proj2 (Z.eqb_neq _ _)), Z.leb_refl by lia. by auto.
  - destruct (blocker_fold s o versions SIVFS_INVALID_TS) as [[-> Hn]|[Hin ?]]; [left; done|right].
    set (to := foldl _ _ _) in *. split; [lia|]. rewrite (proj2 (Z.eqb_neq _ _)) by lia.
    split; [|right; by exists to].
    apply orb_true_intro. right. apply existsb_exists. exists to. split; [by apply list_elem_of_In|apply Z.eqb_refl].
Qed.

(** Groups are only added when they have to wait. *)
Definition keys_grew (c c' : cps) : Prop :=
  (forall k, is_Some (c_blocked c !! k) -> is_Some (c_blocked c' !! k)) /\
  (forall k, is_Some (c_blocked c' !! k) -> is_Some (c_blocked c !! k) \/ blocked k).

Lemma keys_grew_refl c : keys_grew c c.
Proof. split; auto. Qed.

Lemma keys_grew_trans c1 c2 c3 : keys_grew c1 c2 -> keys_grew c2 c3 -> keys_grew c1 c3.
Proof. intros [A1 B1] [A2 B2]. split; [auto|]. intros k H. destruct (B2 k H); auto. Qed.

Lemma keys_insert c k st : is_Some (c_blocked c !! k) \/ blocked k -> keys_grew c (set_blocked (<[k := st]> (c_blocked c)) c).
Proof.
  intros Hk. split; intros j; cbn [c_blocked set_blocked]; destruct (decide (k = j)) as [<-|Hne].
  - by rewrite lookup_insert_eq.
  - by rewrite lookup_insert_ne.
  - intros _. exact Hk.
  - rewrite lookup_insert_ne by done. by left.
Qed.

Lemma grp_insert c k st j : grp (set_blocked (<[k := st]> (c_blocked c)) c) j = if decide (k = j) then elems st else grp c j.
Proof. unfold grp. cbn [c_blocked set_blocked]. rewrite lookup_insert. by case_decide. Qed.

(** The state with one group replaced by a stack of the same elements. *)
Lemma same_groups_inv c c' : gc_inv L c -> (forall k, grp c' k = grp c k) ->
  (forall k st, c_blocked c' !! k = Some st -> stack_wf st) -> c_obsoleted c' = c_obsoleted c ->
  c_store c' = c_store c -> c_inodes c' = c_inodes c -> same_heads c c' -> c_reverse c' = c_reverse c ->
  gc_inv L c' /\ reclaims versions latest c c'.
Proof.
  intros Hinv Hg Hw Ho Hs Hi Hh Hr. assert (Hl : forall e, listed c' e <-> listed c e).
  { intros e. unfold listed. rewrite Ho. split; (intros [?|(k & ?)]; [by left|right; exists k]); [by rewrite <- Hg|by rewrite Hg]. }
  split.
  - destruct Hinv as [? ? ? ? ? ? Hlive ? ?]. split; rewrite ?Ho; try done; try (intros *; rewrite ?Hg; by eauto).
    + intros e He%Hl. unfold entry_live. rewrite Hs, Hi. by apply Hlive.
    + intros e He%Hl. auto.
  - split; rewrite ?Hs, ?Hi, ?Ho; try (by auto); try done.
    + intros e He. by apply Hl.
    + intros e He Hn. destruct Hn. by apply Hl.
    + intros e _. unfold sivfs_gc_entry_to_lifetime. by rewrite Hs, Hi.
    + intros k e He. left. by rewrite <- Hg.
Qed.

Lemma get_blocked_ok ts c : gc_inv L c ->
  exists r c', sivfs_gc_get_blocked_entries ev ts c = (r, c') /\ gc_inv L c' /\ reclaims versions latest c c' /\
    (forall k, grp c' k = grp c k) /\ c_obsoleted c' = c_obsoleted c /\ c_store c' = c_store c /\ c_inodes c' = c_inodes c /\
    (forall k, is_Some (c_blocked c' !! k) <-> is_Some (c_blocked c !! k) \/ (k = ts /\ r = Ok tt)) /\
    (r = Ok tt \/ r = Err ENOMEM).
Proof.
  intros Hinv. unfold sivfs_gc_get_blocked_entries.
  assert (Hsame : forall r, (r = Ok tt -> is_Some (c_blocked c !! ts)) -> r = Ok tt \/ r = Err ENOMEM ->
    exists r' c', (r, c) = (r', c') /\ gc_inv L c' /\ reclaims versions latest c c' /\
    (forall k, grp c' k = grp c k) /\ c_obsoleted c' = c_obsoleted c /\ c_store c' = c_store c /\ c_inodes c' = c_inodes c /\
    (forall k, is_Some (c_blocked c' !! k) <-> is_Some (c_blocked c !! k) \/ (k = ts /\ r' = Ok tt)) /\
    (r' = Ok tt \/ r' = Err ENOMEM)).
  { intros r Hk Hr. exists r, c. split; [done|]. split; [done|]. split; [apply reclaims_refl|]. split_and!; try done.
    intros k. split; [auto|]. intros [?|[-> ?]]; auto. }
  destruct (c_blocked c !! ts) as [st|] eqn:E; [apply Hsame; auto|].
  unfold sivfs_new_stack. destruct (gv_stack ev ts); [|apply Hsame; [done|auto]].
  destruct (gv_node ev ts); [|apply Hsame; [done|auto]].
  assert (Hg : forall k, grp (set_blocked (<[ts := zero_stack]> (c_blocked c)) c) k = grp c k).
  { intros k. rewrite grp_insert. case_decide as Hk; [subst k|done]. unfold grp. by rewrite E. }
  eexists _, _. split; [reflexivity|].
  destruct (same_groups_inv c (set_blocked (<[ts := zero_stack]> (c_blocked c)) c)) as [? ?]; try done.
  { intros k st. cbn [c_blocked set_blocked]. rewrite lookup_insert. case_decide; [intros [= <-]; apply zero_stack_wf|apply (gi_grp _ _ Hinv)]. }
  split_and!; try done; [|by left]. intros k. cbn [c_blocked set_blocked]. rewrite lookup_insert.
  case_decide as Hk; [subst k; split; [by right|by eexists]|]. split; [by left|]. intros [?|[-> _]]; done.
Qed.

(** Freeing releases the object of the entry, or leaves it. *)
Lemma free_entry_ok e g : entry_live (g_cps g) e -> exists g', sivfs_gc_free_entry e g = (Ok tt, g') /\
  (forall k, c_blocked (g_cps g') !! k = c_blocked (g_cps g) !! k) /\ c_obsoleted (g_cps g') = c_obsoleted (g_cps g) /\
  same_heads (g_cps g) (g_cps g') /\ c_reverse (g_cps g') = c_reverse (g_cps g) /\
  (forall q p, p_pages (c_store (g_cps g')) !! q = Some p -> p_pages (c_store (g_cps g)) !! q = Some p) /\
  (forall j i, c_inodes (g_cps g') !! j = Some i -> c_inodes (g_cps g) !! j = Some i) /\
  (forall q p, p_pages (c_store (g_cps g)) !! q = Some p -> p_pages (c_store (g_cps g')) !! q = Some p \/
    (sivfs_gc_entry_to_type e = Ok SIVFS_GC_ENTRY_PAGE /\ sivfs_gc_entry_to_page e = q)) /\
  (forall j i, c_inodes (g_cps g) !! j = Some i -> c_inodes (g_cps g') !! j = Some i \/
    (sivfs_gc_entry_to_type e = Ok SIVFS_GC_ENTRY_INODE /\ sivfs_gc_entry_to_inode e = j)).
Proof.
  intros [_ [(Ht & p & Hp & _)|(Ht & i & Hi)]]; unfold sivfs_gc_free_entry; rewrite Ht.
  - change (SIVFS_GC_ENTRY_PAGE =? SIVFS_GC_ENTRY_PAGE) with true. cbv iota.
    unfold sivfs_put_checkpoint_page. rewrite Hp.
    destruct (negb _ || negb _); [|destruct (cp_locked p)]; (eexists; split; [reflexivity|]);
      split_and!; try done; try (by auto); cbn [g_cps c_store set_store p_pages set_pages].
    + by intros q x [_ H]%lookup_delete_Some.
    + intros q x Hq. rewrite lookup_delete. case_decide; auto.
  - change (SIVFS_GC_ENTRY_INODE =? SIVFS_GC_ENTRY_PAGE) with false. cbv iota.
    unfold iput, modify. eexists; split; [reflexivity|]. split_and!; try done; try (by auto); cbn [g_cps c_inodes set_inodes].
    + by intros j x [_ H]%lookup_delete_Some.
    + intros j x Hj. rewrite lookup_delete. case_decide; auto.
Qed.

(** The body of the loop. *)
Definition drain_step (A : Z) (e : Z) : M gcs bool :=
  let! freed := sivfs_gc_or_reassign_entry ev e versions latest in
  do! on_cps (on_group A sivfs_stack_pop) in
  ret freed.

Lemma pop_group A c st l e : c_blocked c !! A = Some st -> stack_wf st -> elems st = l ++ [e] ->
  exists st', on_group A sivfs_stack_pop c = (Ok e, set_blocked (<[A := st']> (c_blocked c)) c) /\ stack_wf st' /\ elems st' = l.
Proof.
  intros HA Hw He. destruct (pop_ok st l e Hw He) as (st' & Hp & ? & ?). exists st'. unfold on_group.
  by rewrite HA, Hp.
Qed.

(** There is room for one more entry in every group. *)
Lemma group_room c k st : gc_inv L c -> c_blocked c !! k = Some st -> st_size st + 1 < stack_limit / 2.
Proof.
  intros Hinv Hk. pose proof (elems_length st (gi_grp _ _ Hinv k st Hk)) as Hlen. pose proof (gi_bound _ _ Hinv) as Hb.
  assert (Hg : grp c k = elems st) by (unfold grp; by rewrite Hk).
  assert (Hs : elems st ⊆+ L).
  { rewrite <- Hg. apply NoDup_submseteq; [apply (gi_grp_nodup _ _ Hinv)|]. intros x Hx. apply (gi_in _ _ Hinv). right. by exists k. }
  apply submseteq_length in Hs. change (stack_limit / 4) with (2 ^ 58) in Hb. change (stack_limit / 2) with (2 ^ 59). lia.
Qed.

(** The entry moves to the group [to]. *)
Definition wait_in (to A e : Z) : M cps unit :=
  do! sivfs_gc_get_blocked_entries ev to in
  do! on_group to (sivfs_stack_push (gv_push ev e) e) in
  do! on_group A sivfs_stack_pop in
  ret tt.

Lemma wait_in_ok to A c l e : gc_inv L c -> is_Some (c_blocked c !! A) -> grp c A = l ++ [e] -> to <> A -> blocked to ->
  ~ collectable versions latest c e -> exists r c', wait_in to A e c = (r, c') /\ gc_inv L c' /\ reclaims versions latest c c' /\ keys_grew c c' /\
    (r = Ok tt /\ (exists st', c_blocked c' !! A = Some st' /\ elems st' = l) \/ r = Err ENOMEM).
Proof.
  intros Hinv HA HgA Hne Hbl Hnc. unfold wait_in.
  destruct (get_blocked_ok to c Hinv) as (r1 & c1 & E1 & Hi1 & R1 & Hg1 & Ho1 & Hs1 & Hn1 & Hk1 & Hr1).
  assert (K1 : keys_grew c c1).
  { split; intros k Hk; [apply Hk1; by left|]. apply Hk1 in Hk as [?|[-> _]]; auto. }
  destruct Hr1 as [-> | ->].
  2: { rewrite (bind_err _ _ _ _ _ E1). exists (Err ENOMEM), c1. split_and!; try done. by right. }
  rewrite (bind_step _ _ _ _ _ E1).
  assert (Hto : is_Some (c_blocked c1 !! to)) by (apply Hk1; by right). destruct Hto as [st Hst].
  assert (Hgt : grp c1 to = elems st) by (unfold grp; by rewrite Hst).
  assert (Hw : stack_wf st) by by apply (gi_grp _ _ Hi1 to).
  assert (HA1 : is_Some (c_blocked c1 !! A)) by (apply Hk1; by left). destruct HA1 as [sA HsA].
  assert (HgA1 : elems sA = l ++ [e]) by (rewrite <- HgA, <- Hg1; unfold grp; by rewrite HsA).
  unfold on_group at 1. unfold bind at 1. rewrite Hst.
  destruct (push_ok_inv (gv_push ev e) e st Hw (group_room c1 to st Hi1 Hst)) as [(st1 & Ep & Hw1 & He1 & _)|[Ep _]]; rewrite Ep.
  - set (c2 := set_blocked (<[to := st1]> (c_blocked c1)) c1).
    destruct (pop_group A c2 sA l e) as (st' & Epop & Hw' & He'); try done.
    { unfold c2. cbn [c_blocked set_blocked]. by rewrite lookup_insert_ne. }
    { by apply (gi_grp _ _ Hi1 A). }
    rewrite (bind_step _ _ _ _ _ Epop). set (c3 := set_blocked _ c2). exists (Ok tt), c3. split; [done|].
    assert (Hm : moved A e l (Some to) c1 c3).
    { split; try done; try (by left).
      - by rewrite Hg1.
      - unfold c3. rewrite grp_insert. by rewrite decide_True.
      - congruence.
      - intros k Hk. unfold c3. rewrite grp_insert, decide_False by done. unfold c2. rewrite grp_insert.
        destruct (decide (to = k)) as [<-|Hnk]; [by rewrite decide_True, He1, Hgt|]. rewrite decide_False by congruence. by rewrite app_nil_r.
      - intros k x. unfold c3, c2. cbn [c_blocked set_blocked]. rewrite !lookup_insert. repeat case_decide; try by intros [= <-].
        apply (gi_grp _ _ Hi1). }
    split; [by eapply moved_inv|]. split.
    { eapply reclaims_trans; [exact R1|]. eapply moved_reclaims; [exact Hi1|exact Hm|done|]. intros t' [= <-]. split; [done|].
      intros (s & o & Hl & Hc). apply Hnc. exists s, o. split; [by apply (lifetime_old _ _ _ _ _ _ R1)|done]. } split.
    + eapply keys_grew_trans; [exact K1|]. apply (keys_grew_trans _ c2); apply keys_insert; left; [by eexists|].
      unfold c2. cbn [c_blocked set_blocked]. rewrite lookup_insert_ne by done. by eexists.
    + left. split; [done|]. exists st'. split; [apply lookup_insert_eq|done].
  - set (c2 := set_blocked (<[to := st]> (c_blocked c1)) c1). exists (Err ENOMEM), c2. split; [done|].
    destruct (same_groups_inv c1 c2 Hi1) as [Hi2 R2]; try done.
    { intros k. unfold c2. rewrite grp_insert. case_decide as E; [by rewrite <- E|done]. }
    { intros k x. unfold c2. cbn [c_blocked set_blocked]. rewrite lookup_insert. case_decide; [by intros [= <-]|apply (gi_grp _ _ Hi1)]. }
    split; [done|]. split; [by eapply reclaims_trans|]. split; [|by right].
    eapply keys_grew_trans; [exact K1|]. apply keys_insert. left. by eexists.
Qed.

(** The same inside the collector's state. *)
Definition drain_wait (to A e : Z) : M gcs bool :=
  let! freed :=
    (do! on_cps (sivfs_gc_get_blocked_entries ev to) in
     do! on_cps (on_group to (sivfs_stack_push (gv_push ev e) e)) in
     ret false) in
  do! on_cps (on_group A sivfs_stack_pop) in
  ret freed.

Lemma drain_wait_eq to A e g r c' : wait_in to A e (g_cps g) = (r, c') -> exists g', g_cps g' = c' /\
  drain_wait to A e g = (match r with Ok _ => Ok false | Err x => Err x | Fault => Fault | OutOfFuel => OutOfFuel end, g').
Proof.
  unfold wait_in, drain_wait, bind, on_cps, ret. destruct (sivfs_gc_get_blocked_entries ev to (g_cps g)) as [[] c1]; cbn [g_cps];
    [destruct (on_group to _ c1) as [[] c2]; cbn [g_cps]; [destruct (on_group A _ c2) as [[] c3]; cbn [g_cps]|..]|..];
    intros [= <- <-]; (eexists; split; [|reflexivity]); reflexivity.
Qed.

(** Outcome of one step: a move of the top entry, or out of memory. *)
Lemma drain_step_ok A g st l e : gc_inv L (g_cps g) -> c_blocked (g_cps g) !! A = Some st -> elems st = l ++ [e] ->
  still_blocked A latest versions = false ->
  exists r g', drain_step A e g = (r, g') /\ gc_inv L (g_cps g') /\ reclaims versions latest (g_cps g) (g_cps g') /\
    keys_grew (g_cps g) (g_cps g') /\
    ((exists b, r = Ok b) /\ (exists st', c_blocked (g_cps g') !! A = Some st' /\ elems st' = l) \/ r = Err ENOMEM).
Proof.
  intros Hinv HA He Hnb. set (c := g_cps g) in *.
  assert (HgA : grp c A = l ++ [e]) by (unfold grp; by rewrite HA).
  assert (HwA : stack_wf st) by by apply (gi_grp _ _ Hinv A).
  assert (Hlive : entry_live c e) by (apply (gi_live _ _ Hinv); right; exists A; rewrite HgA; set_solver).
  destruct (live_lifetime c e Hlive) as (s & o & Elt). unfold drain_step, sivfs_gc_or_reassign_entry.
  change (g_cps g) with c. unfold bind at 1. cbv beta. change (g_cps g) with c. rewrite Elt. cbv zeta.
  destruct (reassign_spec s o) as [(Ht & Hol & Hno)|(Ht & Hbl & Hwhy)]; set (to := reassign_to s o latest versions) in *.
  - rewrite (proj2 (Z.eqb_eq _ _) Ht).
    destruct (free_entry_ok e g Hlive) as (g1 & E1 & Hb & Ho & Hh & Hr & Hop & Hoi & Hp & Hi).
    rewrite (bind_step _ _ _ _ _ E1). unfold ret at 1.
    destruct (pop_group A (g_cps g1) st l e) as (st' & Epop & Hw' & He'); [by rewrite Hb|done|done|].
    unfold bind, on_cps. rewrite Epop. eexists _, _. split; [reflexivity|]. cbn [g_cps].
    set (c' := set_blocked _ _).
    assert (Hm : moved A e l None c c').
    { split; try done.
      - unfold c'. rewrite grp_insert. by rewrite decide_True.
      - intros k Hk. unfold c'. rewrite grp_insert, decide_False by done. unfold grp. rewrite Hb. by rewrite app_nil_r.
      - intros k x. unfold c'. cbn [c_blocked set_blocked]. rewrite lookup_insert. case_decide; [by intros [= <-]|].
        rewrite Hb. apply (gi_grp _ _ Hinv).
      - intros q p Hq. destruct (Hp q p Hq) as [?|[? ?]]; [by left|by right].
      - intros q p Hq. destruct (Hi q p Hq) as [?|[? ?]]; [by left|by right]. }
    split; [by eapply moved_inv|]. split; [eapply moved_reclaims; try done; intros _; by exists s, o|].
    split.
    + eapply keys_grew_trans; [|apply keys_insert; left; rewrite Hb; by eexists]. split; intros k; rewrite Hb; auto.
    + left. split; [by eexists|]. exists st'. split; [apply lookup_insert_eq|done].
  - rewrite (proj2 (Z.eqb_neq _ _) Ht).
    destruct (wait_in_ok to A c l e Hinv) as (r & c' & E & Hi & R & K & HR);
      [by eexists|done|intros ->; congruence|done| |].
    { intros (s' & o' & Hl & Ho & Hv). rewrite Elt in Hl. injection Hl as <- <-. destruct Hwhy as [?|(v & ? & ?)]; [lia|by apply (Hv v)]. }
    assert (Hw : exists g', g_cps g' = c' /\ drain_wait to A e g = (match r with Ok _ => Ok false | Err x => Err x | Fault => Fault | OutOfFuel => OutOfFuel end, g')).
    { by apply drain_wait_eq. }
    destruct Hw as (g' & Eg & Hw). unfold drain_wait, bind at 1 in Hw. rewrite Hw. eexists _, g'. split; [reflexivity|].
    rewrite Eg. split_and!; try done. destruct HR as [[-> ?]| ->]; [left|by right]. split; [by eexists|done].
Qed.

(** As many iterations as the group has entries empty it. *)
Lemma drain_ok A : still_blocked A latest versions = false -> forall fuel did g st, gc_inv L (g_cps g) ->
  c_blocked (g_cps g) !! A = Some st -> (length (elems st) <= fuel)%nat ->
  exists r g', drain_group ev fuel A versions latest did g = (r, g') /\ gc_inv L (g_cps g') /\
    reclaims versions latest (g_cps g) (g_cps g') /\ keys_grew (g_cps g) (g_cps g') /\
    ((exists b, r = Ok b) /\ grp (g_cps g') A = [] \/ r = Err ENOMEM).
Proof.
  intros Hnb. induction fuel as [|fuel IH]; intros did g st Hinv HA Hlen; cbn [drain_group];
    assert (Hw : stack_wf st) by (by apply (gi_grp _ _ Hinv A));
    rewrite (bind_step _ _ g st g) by (unfold on_cps; rewrite HA; by destruct g).
  - assert (He : elems st = []) by (apply length_zero_iff_nil; lia). rewrite (proj2 (empty_elems st Hw) He).
    exists (Ok did), g. split; [done|]. split; [done|]. split; [apply reclaims_refl|]. split; [apply keys_grew_refl|].
    left. split; [by eexists|]. unfold grp. by rewrite HA.
  - destruct (sivfs_stack_empty st) eqn:Ee.
    { apply (empty_elems st Hw) in Ee. exists (Ok did), g. split; [done|]. split; [done|]. split; [apply reclaims_refl|].
      split; [apply keys_grew_refl|]. left. split; [by eexists|]. unfold grp. by rewrite HA. }
    destruct (exists_last (l := elems st)) as (l & e & He).
    { intros E. apply (empty_elems st Hw) in E. congruence. }
    rewrite (peek_ok st l e Hw He). rewrite (bind_step (lift _) _ g e g eq_refl).
    destruct (drain_step_ok A g st l e Hinv HA He Hnb) as (r & g1 & E & Hi1 & R1 & K1 & HR).
    unfold drain_step in E.
    assert (Hstep : forall (k : bool -> M gcs bool), (let! freed := sivfs_gc_or_reassign_entry ev e versions latest in
        do! on_cps (on_group A sivfs_stack_pop) in k freed) g =
        match r with Ok b => k b g1 | Err x => (Err x, g1) | Fault => (Fault, g1) | OutOfFuel => (OutOfFuel, g1) end).
    { intros k. revert E. unfold bind, ret. destruct (sivfs_gc_or_reassign_entry ev e versions latest g) as [[] ?];
        [destruct (on_cps (on_group A sivfs_stack_pop) _) as [[] ?]|..]; by intros [= <- <-]. }
    rewrite (Hstep (fun freed => drain_group ev fuel A versions latest (did || freed))).
    destruct HR as [[[b ->] (st' & HA' & He')]| ->].
    2: { exists (Err ENOMEM), g1. split; [done|]. split_and!; try done. by right. }
    destruct (IH (did || b) g1 st' Hi1 HA') as (r2 & g2 & E2 & Hi2 & R2 & K2 & HR2).
    { rewrite He'. rewrite He, length_app in Hlen. cbn [length] in Hlen. lia. }
    exists r2, g2. split; [done|]. split; [done|]. split; [by eapply reclaims_trans|]. split; [by eapply keys_grew_trans|done].
Qed.

Lemma drop_group A c : gc_inv L c -> grp c A = [] -> let c' := set_blocked (delete A (c_blocked c)) c in
  gc_inv L c' /\ reclaims versions latest c c'.
Proof.
  intros Hinv HA. apply same_groups_inv; try done.
  - intros k. unfold grp at 1. cbn [c_blocked set_blocked]. rewrite lookup_delete. case_decide as E; [by rewrite <- E, HA|done].
  - intros k st. cbn [c_blocked set_blocked]. rewrite lookup_delete. case_decide; [done|apply (gi_grp _ _ Hinv)].
Qed.

(** Every group the loop visits is emptied and dropped, or still has to wait. *)
Lemma groups_ok keys : forall did g, gc_inv L (g_cps g) -> NoDup keys ->
  (forall k, k ∈ keys -> is_Some (c_blocked (g_cps g) !! k)) ->
  exists r g', gc_groups ev keys versions latest did g = (r, g') /\ gc_inv L (g_cps g') /\
    reclaims versions latest (g_cps g) (g_cps g') /\
    ((exists b, r = Ok b) /\ (forall k, is_Some (c_blocked (g_cps g') !! k) -> blocked k \/
        (k ∉ keys /\ is_Some (c_blocked (g_cps g) !! k))) \/ r = Err ENOMEM).
Proof.
  induction keys as [|A keys IH]; intros did g Hinv Hnd Hk; cbn [gc_groups].
  { exists (Ok did), g. split; [done|]. split; [done|]. split; [apply reclaims_refl|]. left. split; [by eexists|].
    intros k Hs. right. split; [apply not_elem_of_nil|done]. }
  apply NoDup_cons in Hnd as [HnA Hnd]. destruct (still_blocked A latest versions) eqn:Hb.
  { destruct (IH did g Hinv Hnd) as (r & g' & -> & Hi & R & HR); [intros k Hin; apply Hk; by right|].
    exists r, g'. split; [done|]. split; [done|]. split; [done|]. destruct HR as [[Hr HR]| ->]; [left|by right].
    split; [done|]. intros k Hs. destruct (HR k Hs) as [?|[? ?]]; [by left|].
    destruct (decide (k = A)) as [->|]; [by left|right]. split; [by apply not_elem_of_cons|done]. }
  destruct (Hk A) as [st HA]; [by left|].
  rewrite (bind_step _ _ g st g) by (unfold on_cps; rewrite HA; by destruct g).
  destruct (drain_ok A Hb (Z.to_nat (st_size st)) did g st Hinv HA) as (r & g1 & E1 & Hi1 & R1 & [K1 K1'] & HR).
  { pose proof (elems_length st (gi_grp _ _ Hinv A st HA)). lia. }
  destruct HR as [[[b ->] Hg1]| ->].
  2: { rewrite (bind_err _ _ _ _ _ E1). exists (Err ENOMEM), g1. split; [done|]. split; [done|]. split; [done|by right]. }
  rewrite (bind_step _ _ _ _ _ E1). destruct (drop_group A (g_cps g1) Hi1 Hg1) as [Hi2 R2].
  set (c2 := set_blocked _ _) in *. set (g2 := mk_gcs c2 (g_pages_freed g1) (g_inodes_freed g1)).
  rewrite (bind_step (on_cps (modify _)) _ g1 tt g2) by reflexivity.
  destruct (IH b g2 Hi2 Hnd) as (r & g' & -> & Hi & R & HR).
  { intros k Hin. cbn [g2 g_cps c2 c_blocked set_blocked]. rewrite lookup_delete_ne by (intros ->; done).
    apply K1, Hk. by right. }
  exists r, g'. split; [done|]. split; [done|]. split; [eapply reclaims_trans; [exact R1|by eapply reclaims_trans]|].
  destruct HR as [[Hr HR]| ->]; [left|by right]. split; [done|]. intros k Hs.
  destruct (HR k Hs) as [?|[Hn [x Hx]]]; [by left|]. cbn [g2 g_cps c2 c_blocked set_blocked] in Hx.
  apply lookup_delete_Some in Hx as [Hne Hx]. destruct (K1' k (ex_intro _ x Hx)) as [?|?]; [right|by left].
  split; [apply not_elem_of_cons; split; [congruence|done]|done].
Qed.

(** Step 0 only regroups. *)
Lemma take_ok c : gc_inv L c -> is_Some (c_blocked c !! SIVFS_INVALID_TS) -> exists r c',
  take_obsoleted ev c = (r, c') /\ gc_inv L c' /\ reclaims versions latest c c' /\
  (r = Ok tt /\ elems (c_obsoleted c') = [] \/ r = Err ENOMEM).
Proof.
  intros Hinv [st Hst]. unfold take_obsoleted. rewrite Hst. set (A := SIVFS_INVALID_TS) in *.
  assert (Hw : stack_wf st) by (by apply (gi_grp _ _ Hinv A)). pose proof (gi_obs _ _ Hinv) as Hwo.
  assert (HgA : grp c A = elems st) by (unfold grp; by rewrite Hst).
  assert (Hroom : st_size st + st_size (c_obsoleted c) < stack_limit / 2).
  { pose proof (group_room c A st Hinv Hst). pose proof (gi_bound _ _ Hinv) as Hb.
    assert (Hs : elems st ++ elems (c_obsoleted c) ⊆+ L).
    { apply NoDup_submseteq.
      - apply NoDup_app. rewrite <- HgA. split; [apply (gi_grp_nodup _ _ Hinv)|]. split; [|apply (gi_obs_nodup _ _ Hinv)].
        intros x Hx Ho. by apply (gi_obs_disjoint _ _ Hinv A x).
      - intros x [Hx|Hx]%elem_of_app; apply (gi_in _ _ Hinv); [right; exists A; by rewrite HgA|by left]. }
    apply submseteq_length in Hs. rewrite length_app in Hs. pose proof (elems_length _ Hw). pose proof (elems_length _ Hwo).
    change (stack_limit / 4) with (2 ^ 58) in Hb. change (stack_limit / 2) with (2 ^ 59). lia. }
  destruct (push_all_ok (gv_push_all ev) _ _ Hwo Hw Hroom) as [(d & -> & Hwd & Hd)|[-> _]].
  - set (c1 := set_blocked (<[A := d]> (c_blocked c)) c). set (o := mk_stack 0 _ _).
    set (c2 := set_obsoleted_entries o c1). exists (Ok tt), c2. split; [done|].
    assert (Ho : elems (c_obsoleted c2) = []) by done.
    assert (Hg : forall k, grp c2 k = if decide (A = k) then elems d else grp c k) by (intros k; apply (grp_insert c A d k)).
    assert (Hin : forall k x, x ∈ grp c2 k <-> x ∈ grp c k \/ (k = A /\ x ∈ elems (c_obsoleted c))).
    { intros k x. rewrite Hg. destruct (decide (A = k)) as [<-|]; [|naive_solver]. rewrite Hd, elem_of_app, HgA. naive_solver. }
    assert (Hl : forall x, listed c2 x <-> listed c x).
    { intros x. unfold listed. rewrite Ho. split.
      - intros [Hx|(k & [?|[-> ?]]%Hin)]; [by apply not_elem_of_nil in Hx|right; by exists k|by left].
      - intros [Hx|(k & Hx)]; right; [exists A; apply Hin; auto|exists k; apply Hin; auto]. }
    split; [|split; [|by left]].
    + split.
      * destruct Hwo. split; cbn [o c2 c_obsoleted set_obsoleted_entries st_size st_capacity st_values]; by try lia.
      * intros k x. unfold c2, c1. cbn [c_blocked set_obsoleted_entries set_blocked]. rewrite lookup_insert.
        case_decide; [by intros [= <-]|apply (gi_grp _ _ Hinv)].
      * rewrite Ho. constructor.
      * intros k. rewrite Hg. case_decide as E; [|apply (gi_grp_nodup _ _ Hinv)]. rewrite Hd. apply NoDup_app.
        rewrite <- HgA. split; [apply (gi_grp_nodup _ _ Hinv)|]. split; [|apply (gi_obs_nodup _ _ Hinv)].
        intros x Hx Hx'. by apply (gi_obs_disjoint _ _ Hinv A x).
      * intros k k' x [Hx|[-> Hx]]%Hin [Hx'|[-> Hx']]%Hin; [by apply (gi_disjoint _ _ Hinv k k' x)| | |done].
        -- by destruct (gi_obs_disjoint _ _ Hinv k x).
        -- by destruct (gi_obs_disjoint _ _ Hinv k' x).
      * intros k x Hx. rewrite Ho in Hx. by apply not_elem_of_nil in Hx.
      * intros x Hx%Hl. by apply (gi_live _ _ Hinv).
      * intros x Hx%Hl. by apply (gi_in _ _ Hinv).
      * apply (gi_bound _ _ Hinv).
    + split; try (by auto); try done.
      * intros x Hx. by apply Hl.
      * intros x Hx Hn. destruct Hn. by apply Hl.
      * intros x Hx. rewrite Ho in Hx. by apply not_elem_of_nil in Hx.
      * intros k x [?|[-> _]]%Hin; [by left|by right; left].
  - eexists _, _. split; [reflexivity|]. destruct (same_groups_inv c (set_blocked (<[A := st]> (c_blocked c)) c) Hinv) as [? ?]; try done.
    + intros k. rewrite grp_insert. case_decide as E; [by rewrite <- E|done].
    + intros k x. cbn [c_blocked set_blocked]. rewrite lookup_insert. case_decide; [by intros [= <-]|apply (gi_grp _ _ Hinv)].
    + split; [done|]. split; [done|]. by right.
Qed.
End collecting.

(** ** What a collection promises *)

Definition gc_promise (L : list Z) (vs : list Z) (c : cps) (o : res bool * gcs) : Prop :=
  let c' := g_cps o.2 in
  gc_inv L c' /\ reclaims vs (c_published c) c c' /\
  match o.1 with
  | Ok _ => elems (c_obsoleted c') = [] /\
      forall k e, e ∈ grp c' k -> still_blocked k (c_published c) vs = true /\
        (e ∈ grp c k \/ ~ collectable vs (c_published c) c e)
  | Err _ => True
  | _ => False
  end.

Lemma group_keys_ok c : NoDup (group_keys c) /\ forall k, k ∈ group_keys c <-> is_Some (c_blocked c !! k).
Proof.
  unfold group_keys. assert (P : merge_sort Z.le (map_to_list (c_blocked c)).*1 ≡ₚ (map_to_list (c_blocked c)).*1)
    by apply merge_sort_Permutation.
  split; [rewrite P; apply NoDup_fst_map_to_list|]. intros k. rewrite P. split.
  - intros ((k' & st) & -> & Hin)%list_elem_of_fmap. apply elem_of_map_to_list in Hin. by exists st.
  - intros [st Hst]. apply list_elem_of_fmap. exists (k, st). split; [done|by apply elem_of_map_to_list].
Qed.

Lemma blocked_empty_ok L c : gc_inv L c -> sivfs_gc_blocked_entries_empty c = true -> forall k, grp c k = [].
Proof.
  intros Hinv He k. unfold grp. destruct (c_blocked c !! k) as [st|] eqn:E; [|done].
  apply (empty_elems st); [by apply (gi_grp _ _ Hinv k)|]. unfold sivfs_gc_blocked_entries_empty in He. rewrite forallb_forall in He.
  apply (He (k, st)), list_elem_of_In, elem_of_map_to_list. done.
Qed.

Lemma gc_ok ev L vs versions g : gc_inv L (g_cps g) -> c_published (g_cps g) < SIVFS_INVALID_TS ->
  versions = Ok vs \/ (exists e, versions = Err e) ->
  gc_promise L vs (g_cps g) (sivfs_gc_checkpoints ev versions g).
Proof.
  intros Hinv Hlat Hvs. unfold sivfs_gc_checkpoints. set (c := g_cps g) in *. set (latest := c_published c) in *.
  assert (Hbad : forall e c' g', gc_inv L c' -> reclaims vs latest c c' -> g_cps g' = c' -> gc_promise L vs c (Err e, g'))
    by (intros e c' g' ? ? <-; done).
  destruct (negb (gv_state ev)); [apply (Hbad _ c); [done|apply reclaims_refl|done]|].
  destruct (gv_signal ev); [apply (Hbad _ c); [done|apply reclaims_refl|done]|].
  destruct (get_blocked_ok ev L vs latest SIVFS_INVALID_TS c Hinv) as (r1 & c1 & E1 & Hi1 & R1 & _ & _ & _ & _ & Hk1 & Hr1).
  set (up := fun c' => mk_gcs c' (g_pages_freed g) (g_inodes_freed g)).
  assert (E1' : on_cps (sivfs_gc_get_blocked_entries ev SIVFS_INVALID_TS) g = (r1, up c1)) by (unfold on_cps; fold c; by rewrite E1).
  destruct Hr1 as [-> | ->]; [|rewrite (bind_err _ _ _ _ _ E1'); by apply (Hbad _ c1)].
  rewrite (bind_step _ _ _ _ _ E1').
  destruct (take_ok ev L vs latest c1 Hi1) as (r2 & c2 & E2 & Hi2 & R2 & HR2); [apply Hk1; by right|].
  assert (R12 : reclaims vs latest c c2) by (by eapply reclaims_trans).
  assert (E2' : on_cps (take_obsoleted ev) (up c1) = (r2, up c2)) by (unfold on_cps; cbn [up g_cps]; by rewrite E2).
  destruct HR2 as [[-> Ho2]| ->]; [|rewrite (bind_err _ _ _ _ _ E2'); by apply (Hbad _ c2)].
  rewrite (bind_step _ _ _ _ _ E2'). rewrite (bind_step (gets _) _ (up c2) _ (up c2) eq_refl). cbv beta. cbn [up g_cps].
  destruct (sivfs_gc_blocked_entries_empty c2) eqn:Eem.
  { split; [done|]. split; [done|]. cbn [fst snd g_cps]. split; [done|]. intros k e Hk.
    rewrite (blocked_empty_ok L c2) in Hk by done. by apply not_elem_of_nil in Hk. }
  rewrite (bind_step (gets _) _ (up c2) _ (up c2) eq_refl).
  destruct (rc_heads _ _ _ _ R12) as [(_ & _ & Hpub) _]. cbn [up g_cps]. rewrite Hpub. fold latest.
  unfold sivfs_new_stack. destruct (gv_versions ev); [|by apply (Hbad _ c2)].
  rewrite (bind_step (lift _) _ (up c2) _ (up c2) eq_refl).
  destruct Hvs as [->|[e ->]]; [|by apply (Hbad _ c2)].
  rewrite (bind_step (lift _) _ (up c2) _ (up c2) eq_refl), (bind_step (gets _) _ (up c2) _ (up c2) eq_refl).
  cbn [up g_cps]. destruct (group_keys_ok c2) as [Hnd Hkeys].
  destruct (groups_ok ev L vs latest Hlat (group_keys c2) false (up c2) Hi2 Hnd) as (r & g' & E & Hi & R & HR);
    [intros k; apply Hkeys|]. rewrite E.
  assert (R' : reclaims vs latest c (g_cps g')) by (by eapply reclaims_trans).
  destruct HR as [[[b ->] HR]| ->]; [|by apply (Hbad _ (g_cps g'))].
  split; [done|]. split; [done|]. cbn [fst snd]. split.
  - destruct (elems (c_obsoleted (g_cps g'))) as [|x l] eqn:Ex; [done|].
    assert (Hx : x ∈ elems (c_obsoleted (g_cps g'))) by (rewrite Ex; left).
    apply (rc_obs _ _ _ _ R) in Hx. cbn [up g_cps] in Hx. rewrite Ho2 in Hx. by apply not_elem_of_nil in Hx.
  - intros k e He. assert (Hb : still_blocked k latest vs = true).
    { pose proof He as Hk. unfold grp in Hk. destruct (c_blocked (g_cps g') !! k) as [st|] eqn:Ek; [|by apply not_elem_of_nil in Hk].
      destruct (HR k (ex_intro _ st Ek)) as [?|[Hn Hs]]; [done|]. destruct Hn. by apply Hkeys. }
    split; [done|]. destruct (rc_waits _ _ _ _ R' k e He) as [?|[->|[_ ?]]]; [by left|done|by right].
Qed.

(** ** What readers see *)

(** The pages that a reader starting at [pa] can get to. *)
Fixpoint reaches (F : pt_flags) (h : gmap Z cpage) (level : nat) (pa q : Z) : Prop :=
  pa <> 0 /\ (q = pa \/
    match level with
    | O => False
    | S l => exists p o w, h !! pa = Some p /\ cp_words p !! o = Some w /\ reaches F h l (sivfs_pxd_to_pa F w) q
    end).

Lemma traverse_kept F h h' level : forall iter pa,
  (forall q, reaches F h level pa q -> h' !! q = h !! q) ->
  traverse_loop F level 0 iter pa h' = traverse_loop F level 0 iter pa h /\
  forall q, traverse_loop F level 0 iter pa h = Ok (Some q) -> h' !! q = h !! q.
Proof.
  induction level as [|l IH]; intros iter pa Hk; cbn [traverse_loop]; destruct (Z.eqb_spec pa 0) as [->|Hne]; try done.
  - split; [done|]. intros q [= <-]. apply Hk. by split; [|left].
  - change (S l =? 0)%nat with false. cbv iota. rewrite (Hk pa) by (by split; [|left]).
    destruct (h !! pa) as [p|] eqn:Ep; [|done]. cbn [deref rbind].
    destruct (sivfs_checkpoint_iter_next_offset iter) as [o| | |]; try done. cbn [rbind].
    unfold rd_word. destruct (o <? 0); [done|]. destruct (cp_words p !! Z.to_nat o) as [w|] eqn:Ew; [|done]. cbn [deref rbind].
    apply IH. intros q Hq. apply Hk. split; [done|]. right. exists p, (Z.to_nat o), w. done.
Qed.

Lemma reads_kept F h h' root m : (forall q, reaches F h ROOT_LEVEL root q -> h' !! q = h !! q) ->
  reads F h root m -> reads F h' root m.
Proof.
  intros Hk Hm ino pg Hp. rewrite <- (Hm ino pg Hp). unfold sivfs_read_checkpoint.
  destruct (_ || _); [done|]. unfold sivfs_checkpoint_traverse, sivfs_checkpoint_traverse_partial.
  destruct (sivfs_checkpoint_iter_init ino (pg * PAGE_SIZE)) as [iter| | |]; try done. cbn [rbind].
  destruct (traverse_kept F h h' _ iter root Hk) as [E Hq]. change (SIVFS_CHECKPOINT_TOTAL_LEVELS - 1)%nat with ROOT_LEVEL.
  rewrite E. revert Hq. generalize (traverse_loop F ROOT_LEVEL 0 iter root h). intros [[q|]| | |] Hq; cbn [rbind]; [|reflexivity..].
  by rewrite (Hq q eq_refl).
Qed.

(** The lifetime of every listed entry that the checkpoint [ino] needs contains
    its timestamp [v]. *)
Definition visible_at (F : pt_flags) (c : cps) (ino : Z) (i : cp_inode) (v : Z) : Prop :=
  forall e s o, listed c e -> sivfs_gc_entry_to_lifetime e c = Ok (s, o) ->
    (sivfs_gc_entry_to_type e = Ok SIVFS_GC_ENTRY_INODE /\ sivfs_gc_entry_to_inode e = ino) \/
    (sivfs_gc_entry_to_type e = Ok SIVFS_GC_ENTRY_PAGE /\
     reaches F (p_pages (c_store c)) ROOT_LEVEL (ci_root i) (sivfs_gc_entry_to_page e)) ->
    s <= v < o.

Lemma visible_kept F vs c c' ino i v m : reclaims vs (c_published c) c c' ->
  c_inodes c !! ino = Some i -> v ∈ vs \/ c_published c <= v -> visible_at F c ino i v ->
  cp_reads F c ino m -> c_inodes c' !! ino = Some i /\ cp_reads F c' ino m.
Proof.
  intros R Hi Hv Hvis (i0 & Hi0 & Hm). simplify_eq.
  assert (Hno : forall e, listed c e -> ~ listed c' e ->
    (sivfs_gc_entry_to_type e = Ok SIVFS_GC_ENTRY_INODE /\ sivfs_gc_entry_to_inode e = ino) \/
    (sivfs_gc_entry_to_type e = Ok SIVFS_GC_ENTRY_PAGE /\
     reaches F (p_pages (c_store c)) ROOT_LEVEL (ci_root i) (sivfs_gc_entry_to_page e)) -> False).
  { intros e He Hn Hx. destruct (rc_gone _ _ _ _ R e He Hn) as (s & o & Hl & Ho & Hnv).
    pose proof (Hvis e s o He Hl Hx). destruct Hv as [Hv|Hv]; [by apply (Hnv v Hv)|lia]. }
  assert (Hi' : c_inodes c' !! ino = Some i).
  { destruct (rc_inodes _ _ _ _ R ino i Hi) as [?|(e & He & Hn & ? & ?)]; [done|]. destruct (Hno e He Hn). by left. }
  split; [done|]. exists i. split; [done|]. eapply reads_kept; [|exact Hm]. intros q Hq.
  destruct (p_pages (c_store c) !! q) as [p|] eqn:Ep.
  - destruct (rc_pages _ _ _ _ R q p Ep) as [?|(e & He & Hn & ? & Ha)]; [done|]. destruct (Hno e He Hn). right. by rewrite Ha.
  - destruct (p_pages (c_store c') !! q) as [p'|] eqn:Ep'; [|done]. by rewrite (rc_old_pages _ _ _ _ R q p' Ep') in Ep.
Qed.

(** ** Properties *)

(** C11. Collection frees an entry (a page, or a checkpoint inode) only when it
    was obsoleted by a published checkpoint and no checked-out version lies in
    its lifetime; every entry is freed at most once, no freed object stays
    listed, nothing else is touched, on every path (memory, signals, an error
    reading the versions). When it succeeds every entry that could be freed was:
    the obsoleted list is empty, and an entry that is left either may not be
    freed, or waits where it waited before, in a group whose version is still
    checked out or not yet superseded (such groups are not looked at). The loop always
    terminates: a group is drained in as many iterations as it has entries. *)
Theorem gc_checkpoints_safe ev L vs versions g :
  gc_inv L (g_cps g) -> c_published (g_cps g) < SIVFS_INVALID_TS ->
  versions = Ok vs \/ (exists e, versions = Err e) ->
  gc_promise L vs (g_cps g) (sivfs_gc_checkpoints ev versions g).
Proof. apply gc_ok. Qed.

(** A checkpoint that is checked out, or is at least as new as the
    published one, survives any collection with its contents, provided the
    entries it needs have a lifetime that contains its timestamp. *)
Theorem gc_keeps_checked_out_checkpoints F ev L vs versions g ino i v m :
  gc_inv L (g_cps g) -> c_published (g_cps g) < SIVFS_INVALID_TS ->
  versions = Ok vs \/ (exists e, versions = Err e) ->
  c_inodes (g_cps g) !! ino = Some i -> v ∈ vs \/ c_published (g_cps g) <= v ->
  visible_at F (g_cps g) ino i v -> cp_reads F (g_cps g) ino m ->
  let c' := g_cps (sivfs_gc_checkpoints ev versions g).2 in
  c_inodes c' !! ino = Some i /\ cp_reads F c' ino m.
Proof.
  intros Hinv Hlat Hvs Hi Hv Hvis Hm c'. destruct (gc_ok ev L vs versions g Hinv Hlat Hvs) as (_ & R & _).
  by eapply visible_kept.
Qed.

(** The file system whose checkpoint at time 3 has replaced the one at time 0. *)
Definition sample_gcs : gcs := mk_gcs sample_cps3 0 0.
Definition gc_good_env : gc_env := mk_gc_env true false (fun _ => true) (fun _ => true) (fun _ => true) true true.

Lemma latest_reads F ZERO_PAGE `{HF : !PtFlagsOk F} c : cps_inv F ZERO_PAGE c -> exists i m,
  c_inodes c !! c_latest c = Some i /\ cp_reads F c (c_latest c) m.
Proof.
  intros Hinv. destruct (inv_inode _ _ _ Hinv) as (i & Hi & _ & Hwf). exists i, (view F (p_pages (c_store c)) (ci_root i)).
  split; [done|]. exists i. split; [done|]. by eapply reads_view.
Qed.

Lemma sample_listed e : listed sample_cps3 e -> e = inode_entry 16.
Proof.
  assert (Ho : elems (c_obsoleted sample_cps3) = [inode_entry 16]) by (vm_compute; reflexivity).
  assert (Hb : c_blocked sample_cps3 = ∅) by (vm_compute; reflexivity).
  intros [H|(k & H)]; [rewrite Ho in H; by apply list_elem_of_singleton in H|].
  unfold grp in H. rewrite Hb, lookup_empty in H. exact (match not_elem_of_nil e H with end).
Qed.

Lemma entry_live_inode c e i : (0 <=? e) && (e <? two64) = true -> sivfs_gc_entry_to_type e = Ok SIVFS_GC_ENTRY_INODE ->
  c_inodes c !! sivfs_gc_entry_to_inode e = Some i -> entry_live c e.
Proof. intros He Ht Hi. split; [unfold is_u64; lia|]. right. rewrite Hi. split; [done|by eexists]. Qed.

Lemma sample_gcs_inv : gc_inv [inode_entry 16] sample_cps3.
Proof.
  assert (Ho : elems (c_obsoleted sample_cps3) = [inode_entry 16]) by (vm_compute; reflexivity).
  assert (Hb : c_blocked sample_cps3 = ∅) by (vm_compute; reflexivity).
  assert (Hg : forall k, grp sample_cps3 k = []) by (intros k; unfold grp; rewrite Hb, lookup_empty; reflexivity).
  assert (Hi : c_inodes sample_cps3 !! 16 = Some (mk_inode 0 0 3)) by (vm_compute; reflexivity).
  split.
  - apply (inv_ready _ _ _ (proj1 sample_cps3_inv)).
  - intros ts st H. rewrite Hb in H. discriminate H.
  - rewrite Ho. apply NoDup_singleton.
  - intros ts. rewrite Hg. exact (NoDup_nil_2).
  - intros ts ts' e H. rewrite Hg in H. exact (match not_elem_of_nil e H with end).
  - intros ts e _ H. rewrite Hg in H. exact (match not_elem_of_nil e H with end).
  - intros e ->%sample_listed. exact (entry_live_inode sample_cps3 20 _ eq_refl eq_refl Hi).
  - intros e ->%sample_listed. left.
  - by vm_compute.
Qed.

Lemma gc_checkpoints_safe_witness :
  (sivfs_gc_checkpoints gc_good_env (Ok [3]) sample_gcs).1 = Ok true /\
  c_inodes (g_cps (sivfs_gc_checkpoints gc_good_env (Ok [3]) sample_gcs).2) !! 16 = None /\
  gc_promise [inode_entry 16] [3] (g_cps sample_gcs) (sivfs_gc_checkpoints gc_good_env (Ok [3]) sample_gcs).
Proof.
  split; [vm_compute; reflexivity|]. split; [vm_compute; reflexivity|].
  apply (gc_checkpoints_safe gc_good_env [inode_entry 16] [3] (Ok [3]) sample_gcs).
  - exact sample_gcs_inv.
  - by vm_compute.
  - left. reflexivity.
Defined.

Lemma gc_keeps_checked_out_checkpoints_witness : exists i m,
  c_inodes sample_cps3 !! 32 = Some i /\ cp_reads x86_flags sample_cps3 32 m /\
  let c' := g_cps (sivfs_gc_checkpoints gc_good_env (Ok [3]) sample_gcs).2 in
  c_inodes c' !! 32 = Some i /\ cp_reads x86_flags c' 32 m.
Proof.
  destruct (latest_reads x86_flags ZERO_PA sample_cps3 (proj1 sample_cps3_inv)) as (i & m & Hi & Hm).
  assert (El : c_latest sample_cps3 = 32) by (vm_compute; reflexivity). rewrite El in Hi, Hm.
  exists i, m. split; [exact Hi|].
  split; [exact Hm|].
  apply (gc_keeps_checked_out_checkpoints x86_flags gc_good_env [inode_entry 16] [3] (Ok [3]) sample_gcs 32 i 3).
  - exact sample_gcs_inv.
  - by vm_compute.
  - left. reflexivity.
  - exact Hi.
  - left. left.
  - intros e s o ->%sample_listed _ [[_ H]|[H _]]; vm_compute in H; discriminate H.
  - exact Hm.
Defined.
