(* ===== verification/Snapshots.v ===== *)
(** Checkpoints over time: making checkpoints (kern/sivfs_make_checkpoint.c),
    collecting them (kern/sivfs_gc_checkpoints.c) and checking them out, as one
    system. A page is obsoleted at the time of the checkpoint that replaces it,
    so that its lifetime covers every checkpoint that can see it, and a
    checkpoint that is checked out keeps its contents. *)
From S2P Require Import Prelude Types Stack RadixTree Writeset Log LogView PageTree MakeCheckpoint Trees Checkpoints GC.

Notation cpages c := (p_pages (c_store c)).

(** ** What one call of sivfs_make_checkpoint does to the lists and the inodes *)

Section making.
Context (F : pt_flags) (ZERO_PAGE : Z) `{HF : !PtFlagsOk F} (ev : cp_env) (st : log_state) (n : Z).

(** The replay that the new checkpoint is made by. *)
Definition replay (latest root : Z) (s : pstore) : res unit * rstate :=
  _sivfs_make_checkpoint F ZERO_PAGE (sivfs_on_obsolete_page_stack (ev_push ev)) st latest n (root, s).

(** Nothing was published; [s1] is the store afterwards. *)
Record not_made (c c' : cps) (s1 : pstore) : Prop := {
  nm_pages : cpages c' = p_pages s1;
  nm_elems : elems (c_obsoleted c') = elems (c_obsoleted c);
  nm_blocked : c_blocked c' = c_blocked c;
  nm_inodes : forall j, j <> c_latest c -> c_inodes c' !! j = c_inodes c !! j;
  nm_prior : forall i, c_inodes c !! c_latest c = Some i -> exists o, c_inodes c' !! c_latest c = Some (mk_inode (ci_root i) (ci_ts i) o)
}.

(** The inode [ino] with the tree [root'] was published. *)
Record made (c c' : cps) (ino root' : Z) (s1 : pstore) : Prop := {
  md_pages : cpages c' = p_pages s1;
  md_elems : elems (c_obsoleted c') = elems (c_obsoleted c) ++ marked (elems (p_obsoleted s1)) (Some (c_latest c));
  md_blocked : c_blocked c' = c_blocked c;
  md_new : c_inodes c' !! ino = Some (mk_inode root' n SIVFS_INVALID_TS);
  md_prior : forall i, c_inodes c !! c_latest c = Some i -> c_inodes c' !! c_latest c = Some (mk_inode (ci_root i) (ci_ts i) n);
  md_inodes : forall j, j <> c_latest c -> j <> ino -> c_inodes c' !! j = c_inodes c !! j;
  md_latest : c_latest c' = ino
}.

Section build.
Context (prior ino root latest : Z) (p : cp_inode) (c1 : cps) (s1 : pstore) (root' : Z) (res : Prelude.res unit).
Context (Hne : ino <> prior) (Hi0 : ino <> 0) (Hp : c_inodes c1 !! prior = Some p).
Context (Hino : c_inodes c1 !! ino = Some (mk_inode root n SIVFS_INVALID_TS)).
Context (HR : replay latest root (c_store c1) = (res, (root', s1))) (Hres : res = Ok tt \/ exists e, res = Err e).
Context (Hw : stack_wf (c_obsoleted c1)) (Hroom : st_size (c_obsoleted c1) < stack_limit / 4).
Context (Hs1 : stack_wf (p_obsoleted s1)) (Hroom1 : st_size (p_obsoleted s1) + 1 < stack_limit / 4).
Context (Hfree : c_reverse c1 !! sivfs_checkpoints_ts_to_reverse_index n = None).

(** The inode [ino] is complete, and the collector is told. *)
Lemma hand_over_walk c2 : c_inodes c2 !! prior = Some p -> is_Some (c_inodes c2 !! ino) -> c_obsoleted c2 = c_obsoleted c1 ->
  c_store c2 = s1 -> exists r c', on_error
    (do! set_obsoleted_ts prior n in
     let! obsoleted_pages := gets (fun c => p_obsoleted (c_store c)) in
     on_entries (sivfs_gc_mark_pages_obsoleted (ev_reserve ev) obsoleted_pages (Some prior)))
    (_sivfs_checkpoints_remove ino) c2 = (r, c') /\ c_store c' = s1 /\ c_blocked c' = c_blocked c2 /\
  c_inodes c' = <[prior := mk_inode (ci_root p) (ci_ts p) n]> (c_inodes c2) /\
  ((r = Ok tt /\ elems (c_obsoleted c') = elems (c_obsoleted c1) ++ marked (elems (p_obsoleted s1)) (Some prior))
   \/ (exists e, r = Err e) /\ elems (c_obsoleted c') = elems (c_obsoleted c1)).
Proof.
  intros Hp2 [x Hx] Ho Es. unfold on_error, set_obsoleted_ts. rewrite bind_assoc.
  rewrite (bind_step _ _ _ _ _ (load_ok _ _ _ Hp2)).
  set (c3 := set_inodes (<[prior := mk_inode (ci_root p) (ci_ts p) n]> (c_inodes c2)) c2).
  rewrite (bind_step (store_inode _ _) _ c2 tt c3 eq_refl), (bind_step (gets _) _ c3 (p_obsoleted (c_store c3)) c3 eq_refl).
  change (c_store c3) with (c_store c2). rewrite Es.
  destruct (mark_pages_ok (ev_reserve ev) (p_obsoleted s1) (Some prior) (c_obsoleted c1) Hw Hs1) as (r & o' & E & _ & HM).
  { pose proof limit_quarter. lia. }
  unfold on_entries. change (c_obsoleted c3) with (c_obsoleted c2). rewrite Ho, E.
  set (c4 := set_obsoleted_entries o' c3).
  assert (Hx4 : c_inodes c4 !! ino = Some x) by (simpl; by rewrite lookup_insert_ne).
  destruct HM as [[-> HE]|(Hr & HE & _)].
  - exists (Ok tt), c4. split_and!; try done. by left.
  - assert (Hrm : exists c5, _sivfs_checkpoints_remove ino c4 = (Ok tt, c5) /\ c_store c5 = c_store c4 /\
      c_blocked c5 = c_blocked c4 /\ c_inodes c5 = c_inodes c4 /\ c_obsoleted c5 = c_obsoleted c4).
    { unfold _sivfs_checkpoints_remove. rewrite (bind_step _ _ _ _ _ (load_ok _ _ _ Hx4)). by eexists. }
    destruct Hrm as (c5 & Erm & Es5 & Eb5 & Ei5 & Eo).
    destruct Hr as [-> | ->]; rewrite Erm; eexists _, c5; (split; [reflexivity|]); rewrite Es5, Eb5, Ei5, Eo;
      (split; [done|]); (split; [done|]); (split; [done|]); right; (split; [by eexists|done]).
Qed.

Lemma build_walk : exists r c', build_checkpoint F ZERO_PAGE ev st prior ino latest n c1 = (r, c') /\
  c_store c' = s1 /\ c_blocked c' = c_blocked c1 /\
  ((r = Ok tt /\ res = Ok tt /\ elems (c_obsoleted c') = elems (c_obsoleted c1) ++ marked (elems (p_obsoleted s1)) (Some prior) /\
    c_inodes c' = <[prior := mk_inode (ci_root p) (ci_ts p) n]> (<[ino := mk_inode root' n SIVFS_INVALID_TS]> (c_inodes c1)))
   \/ (exists e, r = Err e) /\ elems (c_obsoleted c') = elems (c_obsoleted c1) /\
      (forall j, j <> prior -> j <> ino -> c_inodes c' !! j = c_inodes c1 !! j) /\
      exists o, c_inodes c' !! prior = Some (mk_inode (ci_root p) (ci_ts p) o)).
Proof.
  unfold build_checkpoint. set (c2 := set_store s1 (set_inodes (<[ino := mk_inode root' n SIVFS_INVALID_TS]> (c_inodes c1)) c1)).
  assert (E2 : on_root ino (_sivfs_make_checkpoint F ZERO_PAGE (sivfs_on_obsolete_page_stack (ev_push ev)) st latest n) c1 = (res, c2)).
  { unfold on_root. rewrite Hino. cbn [ci_root ci_ts ci_obsoleted_ts]. fold (replay latest root (c_store c1)). by rewrite HR. }
  assert (Hp2 : c_inodes c2 !! prior = Some p) by (simpl; by rewrite lookup_insert_ne).
  assert (Hi2 : c_inodes c2 !! ino = Some (mk_inode root' n SIVFS_INVALID_TS)) by apply lookup_insert_eq.
  assert (Hbad : forall e (r : Prelude.res unit) c', r = Err e -> c_store c' = s1 -> c_blocked c' = c_blocked c1 -> c_inodes c' = c_inodes c2 ->
    c_obsoleted c' = c_obsoleted c1 -> exists r' c'', (r, c') = (r', c'') /\ c_store c'' = s1 /\ c_blocked c'' = c_blocked c1 /\
    ((r' = Ok tt /\ res = Ok tt /\ elems (c_obsoleted c'') = elems (c_obsoleted c1) ++ marked (elems (p_obsoleted s1)) (Some prior) /\
      c_inodes c'' = <[prior := mk_inode (ci_root p) (ci_ts p) n]> (<[ino := mk_inode root' n SIVFS_INVALID_TS]> (c_inodes c1)))
     \/ (exists e, r' = Err e) /\ elems (c_obsoleted c'') = elems (c_obsoleted c1) /\
        (forall j, j <> prior -> j <> ino -> c_inodes c'' !! j = c_inodes c1 !! j) /\
        exists o, c_inodes c'' !! prior = Some (mk_inode (ci_root p) (ci_ts p) o))).
  { intros e r c' -> ? ? Ei Eo. eexists _, c'. split; [reflexivity|]. split_and!; try done. right. rewrite Eo, Ei.
    split; [by eexists|]. split; [done|]. split; [intros j _ Hj; simpl; by rewrite lookup_insert_ne|].
    exists (ci_obsoleted_ts p). rewrite Hp2. by destruct p. }
  destruct Hres as [Hok|[e Her]]; rewrite ?Hok, ?Her in E2.
  2: { rewrite (bind_err _ _ _ _ _ E2). by apply (Hbad e). }
  rewrite (bind_step _ _ _ _ _ E2). destruct (insert_reverse ino ev c2 _ Hi0 Hi2 Hfree) as [E3|[[e E3] _]].
  2: { rewrite (bind_err _ _ _ _ _ E3). by apply (Hbad e). }
  set (c3 := set_reverse _ c2) in E3. rewrite (bind_step _ _ _ _ _ E3).
  destruct (hand_over_walk c3) as (r & c' & -> & ? & ? & Ei & HM); try done.
  exists r, c'. split_and!; try done. destruct HM as [[-> ?]|[? ?]]; [left|right].
  - by split_and!.
  - split_and!; try done.
    + intros j Hj Hj'. rewrite Ei, lookup_insert_ne by done. simpl. by rewrite lookup_insert_ne.
    + exists n. rewrite Ei. apply lookup_insert_eq.
Qed.
End build.

(** ** The whole call *)

Section walk.
Context (lo : Z) (c : cps) (i : cp_inode) (Hinv : cps_inv F ZERO_PAGE c) (Hi : c_inodes c !! c_latest c = Some i).
Context (Hv : log_view st lo n) (Hlo : lo <= c_latest_ts c + 1) (Hn : c_latest_ts c <= n < SIVFS_INVALID_TS).
Context (Hok : Forall write_ok (log_slice st (c_latest_ts c + 1) (Z.to_nat (n - c_latest_ts c)) ≫= entry_writes)).
Context (Hino : forall ino, ev_inode ev = Some ino -> ino <> 0 /\ c_inodes c !! ino = None).
Context (Hroom : st_size (c_obsoleted c) < stack_limit / 4) (Hscr : p_obsoleted (c_store c) = zero_stack).

Definition make_result (r : Prelude.res bool) (c' : cps) : Prop :=
  p_obsoleted (c_store c') = zero_stack /\
  ((r = Ok false \/ exists e, r = Err e) /\
     (exists s1, (p_pages s1 = cpages c \/
         (c_latest_ts c < n /\ exists res root', replay (c_latest_ts c) (ci_root i) (c_store c) = (res, (root', s1)))) /\
        not_made c c' s1)
   \/ (r = Ok true /\ c_latest_ts c < n /\ exists ino root' s1, ev_inode ev = Some ino /\
        replay (c_latest_ts c) (ci_root i) (c_store c) = (Ok tt, (root', s1)) /\ made c c' ino root' s1)).

Lemma not_made_refl : not_made c c (c_store c).
Proof. split; try done. intros x Hx. exists (ci_obsoleted_ts x). rewrite Hx. by destruct x. Qed.

Lemma scratch_id : set_store (set_obsoleted zero_stack (c_store c)) c = c.
Proof. destruct c as [a0 a1 a2 a3 a4 a5 a6 [] a8 a9]. simpl in *. by rewrite Hscr. Qed.

Lemma latest_record : ci_ts i = c_latest_ts c /\ wf_sub F ZERO_PAGE (cpages c) (c_latest_ts c) ROOT_LEVEL (ci_root i).
Proof. destruct (inv_inode _ _ _ Hinv) as (x & Hx & ? & ?). by simplify_eq. Qed.

(** From the allocation of the inode on. *)
Lemma attempt_walk : c_latest_ts c < n ->
  let attempt := (let! new_checkpoint := sivfs_create_checkpoint_inode (ev_inode ev) in
     do! set_root_ts new_checkpoint (ci_root i) n in
     do! on_error (build_checkpoint F ZERO_PAGE ev st (c_latest c) new_checkpoint (ci_ts i) n) (iput new_checkpoint) in
     ret new_checkpoint) in
  exists r c', attempt c = (r, c') /\
   (((exists e, r = Err e) /\ exists s1, (p_pages s1 = cpages c \/ exists res root', replay (c_latest_ts c) (ci_root i) (c_store c) = (res, (root', s1))) /\
        not_made c c' s1)
    \/ exists ino root' s1, r = Ok ino /\ ev_inode ev = Some ino /\ replay (c_latest_ts c) (ci_root i) (c_store c) = (Ok tt, (root', s1)) /\
        made c (set_latest ino n n c') ino root' s1).
Proof.
  intros Hlt attempt. unfold attempt, sivfs_create_checkpoint_inode. destruct latest_record as [Hti Hwf].
  destruct (ev_inode ev) as [ino|].
  2: { exists (Err ENOMEM), c. split; [done|left]. split; [by eexists|]. exists (c_store c). split; [by left|apply not_made_refl]. }
  destruct (Hino ino eq_refl) as [Hi0 Hfree]. clear attempt.
  set (c1 := set_inodes (<[ino := mk_inode 0 0 SIVFS_INVALID_TS]> (c_inodes c)) c).
  rewrite (bind_step _ _ c ino c1) by done. unfold set_root_ts. rewrite bind_assoc.
  assert (Hl1 : c_inodes c1 !! ino = Some (mk_inode 0 0 SIVFS_INVALID_TS)) by apply lookup_insert_eq.
  rewrite (bind_step _ _ _ _ _ (load_ok _ _ _ Hl1)).
  set (c2 := set_inodes (<[ino := mk_inode (ci_root i) n SIVFS_INVALID_TS]> (c_inodes c1)) c1).
  rewrite (bind_step (store_inode _ _) _ c1 tt c2 eq_refl).
  assert (E2 : c_inodes c2 = <[ino := mk_inode (ci_root i) n SIVFS_INVALID_TS]> (c_inodes c)) by (simpl; apply insert_insert_eq).
  assert (Hne : ino <> c_latest c) by congruence. pose proof Hinv as [[Hz Hw] _ Hts _ _ _ Hrev].
  destruct (replay_outcome F ZERO_PAGE st lo n _ (c_latest_ts c) n (c_store c) (ci_root i)
    (on_obsolete_page_stack_records (ev_push ev)) Hv Hlo ltac:(lia) Hok Hz Hwf) as (res & root' & s1 & HR & _ & Hz1 & Hres).
  pose proof Hz1 as (_ & _ & _ & [Hws1 Hr1] & _). rewrite Hti.
  destruct (build_walk (c_latest c) ino (ci_root i) (c_latest_ts c) i c2 s1 root' res) as (r & c3 & E & Es & Eb & HB); try done.
  - rewrite E2, lookup_insert_ne by done. done.
  - rewrite E2. apply lookup_insert_eq.
  - destruct Hres as [[? _]|?]; [by left|by right].
  - lia.
  - change (c_reverse c2) with (c_reverse c).
    destruct (c_reverse c !! ridx n) as [v|] eqn:E; [|done]. destruct (Hrev (ridx n) (ex_intro _ v E)) as [_ Hle].
    pose proof invalid_ts_val. apply (proj1 (ridx_antitone (c_latest_ts c) n ltac:(u64_lia) ltac:(u64_lia))) in Hle. lia.
  - rewrite E2 in HB. destruct HB as [(-> & Hr' & He & Ei)|([e ->] & He & Hj & o & Ho)].
    + rewrite (bind_step _ _ _ _ _ (on_error_ok _ _ _ _ _ E)). exists (Ok ino), c3. split; [done|right].
      exists ino, root', s1. split; [done|]. split; [done|]. split; [by rewrite <- Hr'|].
      split; cbn [c_store set_latest c_obsoleted c_blocked c_inodes c_latest].
      * by rewrite Es.
      * done.
      * done.
      * rewrite Ei, lookup_insert_ne by done. apply lookup_insert_eq.
      * intros x Hx. simplify_eq. rewrite Ei. apply lookup_insert_eq.
      * intros j Hj Hj'. rewrite Ei, !lookup_insert_ne by done. done.
      * done.
    + rewrite (bind_err _ _ _ _ _ (on_error_err _ (iput ino) _ _ _ (set_inodes (delete ino (c_inodes c3)) c3) E eq_refl)).
      eexists _, _. split; [reflexivity|left]. split; [by eexists|]. exists s1. split; [right; by eexists _, _|].
      split; cbn [c_store set_inodes c_obsoleted c_blocked c_inodes].
      * by rewrite Es.
      * done.
      * done.
      * intros j Hjl. destruct (decide (j = ino)) as [->|Hji]; [by rewrite lookup_delete_eq, Hfree|].
        rewrite lookup_delete_ne, Hj by done. by rewrite lookup_insert_ne.
      * intros x Hx. simplify_eq. exists o. by rewrite lookup_delete_ne.
Qed.

Lemma make_walk : exists r c', sivfs_make_checkpoint F ZERO_PAGE ev st n c = (r, c') /\ make_result r c'.
Proof.
  assert (Hthr : forall m : M cps bool, (exists r c', m c = (r, c') /\ make_result r c') ->
    exists r c', throttle m c = (r, c') /\ make_result r c').
  { intros m (r & c' & E & Hr). unfold throttle. rewrite E. destruct r as [b|[]| |]; try (by eexists _, c').
    exists (Ok false), c'. split; [done|]. destruct Hr as [Hs [[_ Hr]|[? _]]]; [|done]. split; [done|left]. split; [by left|done]. }
  assert (Hsame : forall r, r = Ok false \/ (exists e, r = Err e) -> make_result r c).
  { intros r Hr. split; [done|left]. split; [done|]. exists (c_store c). split; [by left|apply not_made_refl]. }
  apply Hthr. clear Hthr. destruct (negb (ev_state ev)); [eexists _, c; split; [reflexivity|apply Hsame; right; by eexists]|].
  rewrite (bind_step (gets c_latest_ts) _ c _ c eq_refl), (bind_step (gets c_latest) _ c _ c eq_refl).
  destruct (Z.eqb_spec n (c_latest_ts c)) as [En|Hne]; [eexists _, c; split; [reflexivity|apply Hsame; by left]|].
  rewrite (proj2 (Z.eqb_neq _ 0)) by apply Hinv. rewrite (bind_step _ _ _ _ _ (load_ok _ _ _ Hi)).
  destruct latest_record as [Hti _]. rewrite Hti, Z.eqb_refl. cbn [negb]. unfold new_obsoleted_pages. rewrite bind_assoc.
  destruct (ev_kz ev); [|eexists _, c; split; [reflexivity|apply Hsame; right; by eexists]].
  cbn [sivfs_new_stack]. rewrite (bind_step (lift _) _ c _ c eq_refl).
  rewrite (bind_step _ _ c tt c) by (by rewrite <- scratch_id at 2).
  destruct (attempt_walk ltac:(lia)) as (r & c2 & E & HA). rewrite Hti in E.
  set (c3 := set_store (set_obsoleted zero_stack (c_store c2)) c2).
  destruct HA as [([e ->] & s1 & Hs1 & [N1 N2 N3 N4 N5])|(ino & root' & s1 & -> & Hev & HR & [M1 M2 M3 M4 M5 M6 M7])].
  - rewrite (bind_err _ _ _ _ _ (on_error_err _ put_obsoleted_pages _ _ _ c3 E eq_refl)). eexists _, c3. split; [reflexivity|].
    split; [done|left]. split; [right; by eexists|]. exists s1. split; [|by split]. destruct Hs1; [by left|right]. split; [lia|done].
  - rewrite (bind_step _ _ _ _ _ (on_error_ok _ _ _ _ _ E)). unfold _sivfs_checkpoints_insert_finish. rewrite bind_assoc.
    rewrite (bind_step _ _ _ _ _ (load_ok c2 ino _ M4)). cbn [ci_ts].
    eexists _, _. split; [reflexivity|]. split; [done|right]. split; [done|]. split; [lia|]. exists ino, root', s1. split; [done|]. split; [done|].
    by split.
Qed.
End walk.
End making.

(** ** What a reader reaches *)

Section reaching.
Context (F : pt_flags) (ZERO_PAGE : Z) `{HF : !PtFlagsOk F}.

Notation pa_of := (sivfs_pxd_to_pa F).
Notation is_zero := (sivfs_is_zero_page ZERO_PAGE).

Lemma ztree_reaches h level : forall z q, ztree F ZERO_PAGE h level z -> reaches F h level z q ->
  exists p, h !! q = Some p /\ is_zero q p = true.
Proof.
  induction level as [|l IH]; intros z q [->|(p & Hp & Hz & Hk)] [Hz0 Hq]; try done.
  - destruct Hq as [->|[]]. eauto.
  - destruct Hq as [->|(x & o & w & Hx & Hw & Hq)]; [eauto|]. simplify_eq. destruct (Hk o w Hw) as [_ Hzt]. by apply (IH (pa_of w)).
Qed.

(** A page of the tree, or a zero page. *)
Lemma tree_reaches r h C level : tree F ZERO_PAGE r h C -> forall pa q,
  ztree F ZERO_PAGE h level pa \/ C !! pa = Some level -> reaches F h level pa q ->
  is_Some (C !! q) \/ exists p, h !! q = Some p /\ is_zero q p = true.
Proof.
  intros T. induction level as [|l IH]; intros pa q Hpa Hq; destruct Hpa as [Hz|Hc]; try (right; by eapply ztree_reaches).
  - destruct Hq as [_ [->|[]]]. left. by eexists.
  - destruct Hq as [_ [->|(p & o & w & Hp & Hw & Hq)]]; [left; by eexists|]. apply (IH (pa_of w)); [|done].
    apply (t_closed _ _ _ _ _ T (STable pa (Z.of_nat o)) l w); [by apply slot_level_table|].
    cbn [entry]. rewrite Hp. simpl. rewrite (proj2 (Z.ltb_ge _ _)), Nat2Z.id by lia. done.
Qed.

Lemma tree_root r h C q : tree F ZERO_PAGE r h C -> reaches F h ROOT_LEVEL (pa_of r) q ->
  is_Some (C !! q) \/ exists p, h !! q = Some p /\ is_zero q p = true.
Proof.
  intros T. apply (tree_reaches r h C ROOT_LEVEL T). by apply (t_closed _ _ _ _ _ T SRoot ROOT_LEVEL r).
Qed.

(** A page of a checkpoint is no younger than the checkpoint. *)
Lemma wf_sub_reaches h ts level : forall pa q, wf_sub F ZERO_PAGE h ts level pa -> reaches F h level pa q ->
  exists p, h !! q = Some p /\ (is_zero q p = true \/ cp_checkpoint_ts p <= ts).
Proof.
  induction level as [|l IH]; intros pa q [->|(p & Hp & _ & [_ Hn] & Hk)] [Hp0 Hq]; try done.
  - destruct Hq as [->|[]]. eauto.
  - destruct Hq as [->|(x & o & w & Hx & Hw & Hq)]; [eauto|]. simplify_eq. destruct Hk as [Hk _].
    destruct (Hk o w Hw) as (_ & Hwf & _). by apply (IH (pa_of w)).
Qed.

(** Pages are only added: a reader reaches the same ones. *)
Lemma reaches_frame h h' ts level : frame h h' (fun _ => False) -> forall pa q, wf_sub F ZERO_PAGE h ts level pa ->
  reaches F h' level pa q -> reaches F h level pa q.
Proof.
  intros Hf. induction level as [|l IH]; intros pa q Hwf [Hp0 Hq]; (split; [done|]); [done|].
  destruct Hq as [->|(x & o & w & Hx & Hw & Hq)]; [by left|right].
  destruct Hwf as [?|(p & Hp & _ & _ & Hk & _)]; [done|]. destruct (Hf pa p Hp) as (p' & Hp' & _ & _ & _ & Ew).
  simplify_eq. rewrite (Ew (fun x => x)) in Hw. exists p, o, w. split; [done|]. split; [done|].
  apply IH; [|done]. by apply (Hk o w).
Qed.

Lemma reaches_sub h h' level : (forall q p, h' !! q = Some p -> h !! q = Some p) -> forall pa q,
  reaches F h' level pa q -> reaches F h level pa q.
Proof.
  intros Hs. induction level as [|l IH]; intros pa q [Hp0 Hq]; (split; [done|]); [done|].
  destruct Hq as [->|(x & o & w & Hx & Hw & Hq)]; [by left|right]. exists x, o, w. auto.
Qed.

(** A tree all of whose pages are kept is the same tree. *)
Lemma sub_kept h h' ts level : forall pa, (forall q, reaches F h level pa q -> h' !! q = h !! q) ->
  wf_sub F ZERO_PAGE h ts level pa -> wf_sub F ZERO_PAGE h' ts level pa /\
  (forall q, in_sub F ZERO_PAGE h' ts level pa q <-> in_sub F ZERO_PAGE h ts level pa q) /\
  (forall path, sub_read F h' level pa path = sub_read F h level pa path).
Proof.
  assert (Hown : forall q, h' !! q = h !! q -> owned ZERO_PAGE h' ts q <-> owned ZERO_PAGE h ts q).
  { intros q E. unfold owned. by rewrite E. }
  induction level as [|l IH]; intros pa Hk Hwf; destruct (decide (pa = 0)) as [->|Hp0];
    try (split_and!; [by left|by split; intros [? _]|done]);
    (assert (Hpa : h' !! pa = h !! pa) by (apply Hk; split; [done|by left]));
    destruct Hwf as [?|(p & Hp & Hl & Hn & Hc)]; try done.
  - split_and!; [right; exists p; by rewrite Hpa| |intros path; cbn [sub_read]; by rewrite Hpa].
    intros q. cbn [in_sub]. rewrite Hpa. split; intros (_ & x & Hx & [[-> Ho]|[]]); (split; [done|]); exists x; (split; [done|]);
      left; (split; [done|]); by apply Hown.
  - destruct Hc as [Hc Hd]. assert (Hkid : forall o w, cp_words p !! o = Some w -> wf_sub F ZERO_PAGE h' ts l (pa_of w) /\
      (forall q, in_sub F ZERO_PAGE h' ts l (pa_of w) q <-> in_sub F ZERO_PAGE h ts l (pa_of w) q) /\
      (forall path, sub_read F h' l (pa_of w) path = sub_read F h l (pa_of w) path)).
    { intros o w Hw. apply IH; [|by apply (Hc o w)]. intros q Hq. apply Hk. split; [done|right]. by exists p, o, w. }
    split_and!.
    + right. exists p. rewrite Hpa. split_and!; try done.
      * intros o w Hw. destruct (Hkid o w Hw) as (? & Hin & _), (Hc o w Hw) as (? & _ & ?). rewrite Hin. done.
      * intros o1 o2 w1 w2 q H1 H2 Hne. destruct (Hkid o1 w1 H1) as (_ & -> & _), (Hkid o2 w2 H2) as (_ & -> & _). by eapply Hd.
    + intros q. cbn [in_sub]. rewrite Hpa. split; intros (_ & x & Hx & [[-> Ho]|(o & w & Hw & Hq)]);
        assert (x = p) as -> by congruence; (split; [done|]); exists p; (split; [done|]).
      * left. split; [done|]. by apply Hown.
      * right. exists o, w. split; [done|]. by apply (Hkid o w Hw).
      * left. split; [done|]. by apply Hown.
      * right. exists o, w. split; [done|]. by apply (Hkid o w Hw).
    + intros path. cbn [sub_read]. rewrite Hpa, Hp. destruct (pa =? 0); [done|]. destruct path as [|o path]; [done|].
      destruct (cp_words p !! Z.to_nat o) as [w|] eqn:Hw; cbn [default from_option id]; [by destruct (Hkid _ w Hw) as (_ & _ & ->)|].
      assert (pa_of 0 = 0) as -> by (apply Z.land_0_l). by destruct l.
Qed.

(** The zero pages of a store survive when pages are only taken away and zero pages are kept. *)
Lemma zero_ready_kept s s' : zero_ready F ZERO_PAGE s -> zsame ZERO_PAGE (p_pages s) (p_pages s') ->
  (exists p, p_pages s !! ZERO_PAGE = Some p) -> quiet F (p_zero_pxd s) 0 s' -> zero_ready F ZERO_PAGE s'.
Proof.
  intros Hz Hs [zp Hzp] (Ez & Hsup & Hst). pose proof (zpool_ready F ZERO_PAGE s Hz) as [_ Hpool].
  destruct Hz as (H0 & _ & _ & _ & Hlen & Hl).
  unfold zero_ready, zero_upto. rewrite Ez. split_and!; try done.
  { exists zp. apply Hs; [done|]. unfold sivfs_is_zero_page. by rewrite Z.eqb_refl. }
  intros l Hlt. destruct (Hl l Hlt) as (z & Hz & ? & ? & Hzz). exists z. split_and!; try done. intros ts.
  destruct (Hpool l Hlt) as (z' & Hz' & _ & _ & Hzt). assert (z' = z) as -> by congruence. destruct (Hzz ts) as (Hw & Hi & Hr).
  destruct (sub_kept (p_pages s) (p_pages s') ts l z) as (Hw' & Hi' & Hr'); [|done|].
  - intros q Hq. destruct (ztree_reaches _ _ _ _ Hzt Hq) as (p & Hp & Hzp'). rewrite Hp. by apply Hs.
  - split_and!; [done|intros q Hq; by apply (Hi q), Hi'|]. intros path Hpl. rewrite Hr'. by apply Hr.
Qed.
End reaching.

(** ** The page store during a collection *)

Section gc_store.
Context (P : pstore -> Prop) (Hput : forall q, keeps P (sivfs_put_checkpoint_page q)).

Definition on_store (g : gcs) : Prop := P (c_store (g_cps g)).

(** A step that only moves entries between lists. *)
Lemma on_cps_store {A} (m : M cps A) : (forall c, c_store (m c).2 = c_store c) -> keeps on_store (on_cps m).
Proof. intros Hm g Hg. unfold on_cps, on_store in *. specialize (Hm (g_cps g)). destruct (m (g_cps g)) as [r c]. simpl in *. by rewrite Hm. Qed.

Lemma get_entries_store ev ts c : c_store (sivfs_gc_get_blocked_entries ev ts c).2 = c_store c.
Proof.
  unfold sivfs_gc_get_blocked_entries. destruct (c_blocked c !! ts); [done|].
  destruct (sivfs_new_stack _); try done. by destruct (gv_node ev ts).
Qed.

Lemma on_group_store {A} ts (m : M sivfs_stack A) c : c_store (on_group ts m c).2 = c_store c.
Proof. unfold on_group. destruct (c_blocked c !! ts) as [st|]; [|done]. by destruct (m st). Qed.

Lemma take_store ev c : c_store (take_obsoleted ev c).2 = c_store c.
Proof. unfold take_obsoleted. destruct (c_blocked c !! _); [|done]. by destruct (sivfs_stack_push_all _ _ _) as [[] []]. Qed.

Lemma free_entry_store e : keeps on_store (sivfs_gc_free_entry e).
Proof.
  intros g Hg. unfold sivfs_gc_free_entry, on_store in *. destruct (sivfs_gc_entry_to_type e) as [t| | |]; try done.
  destruct (t =? _).
  - pose proof (Hput (sivfs_gc_entry_to_page e) _ Hg) as Hp. by destruct (sivfs_put_checkpoint_page _ _).
  - done.
Qed.

Lemma or_reassign_store ev e vs latest : keeps on_store (sivfs_gc_or_reassign_entry ev e vs latest).
Proof.
  intros g Hg. unfold sivfs_gc_or_reassign_entry. destruct (sivfs_gc_entry_to_lifetime e (g_cps g)) as [[s o]| | |]; try done.
  cbv zeta. destruct (_ =? _).
  - revert g Hg. apply keeps_bind; [apply free_entry_store|by intros _ g ?].
  - revert g Hg. apply keeps_bind; [apply on_cps_store, get_entries_store|intros _].
    apply keeps_bind; [apply on_cps_store, on_group_store|by intros _ g ?].
Qed.

Lemma drain_store ev ts vs latest fuel : forall did, keeps on_store (drain_group ev fuel ts vs latest did).
Proof.
  induction fuel as [|fuel IH]; intros did; cbn [drain_group]; (apply keeps_bind; [by apply on_cps_store|intros st]);
    (destruct (sivfs_stack_empty st); [by intros g ?|]); [by intros g ?|].
  apply keeps_bind; [by intros g ?|intros e]. apply keeps_bind; [apply or_reassign_store|intros freed].
  apply keeps_bind; [apply on_cps_store, on_group_store|intros _]. apply IH.
Qed.

Lemma groups_store ev vs latest keys : forall did, keeps on_store (gc_groups ev keys vs latest did).
Proof.
  induction keys as [|k keys IH]; intros did; cbn [gc_groups]; [by intros g ?|]. destruct (still_blocked _ _ _); [apply IH|].
  apply keeps_bind; [by apply on_cps_store|intros st]. apply keeps_bind; [apply drain_store|intros did'].
  apply keeps_bind; [by apply on_cps_store|intros _]. apply IH.
Qed.

Lemma gc_store ev versions : keeps on_store (sivfs_gc_checkpoints ev versions).
Proof.
  unfold sivfs_gc_checkpoints. destruct (negb _); [by intros g ?|]. destruct (gv_signal ev); [by intros g ?|].
  apply keeps_bind; [apply on_cps_store, get_entries_store|intros _]. apply keeps_bind; [apply on_cps_store, take_store|intros _].
  apply keeps_bind; [by intros g ?|intros e]. destruct (e : bool); [by intros g ?|].
  apply keeps_bind; [by intros g ?|intros latest]. apply keeps_bind; [by intros g ?|intros _].
  apply keeps_bind; [by intros g ?|intros vs]. apply keeps_bind; [by intros g ?|intros keys]. apply groups_store.
Qed.
End gc_store.

(** ** The system *)

(** A checkpoint that is checked out: its inode, and what it read as when it was
    checked out. *)
Record holding : Type := mk_held { h_ino : Z; h_reads : Z -> Z -> list Z }.

Lemma tagged_u64 a tag : is_u64 a -> 0 <= tag < 8 -> is_u64 (Z.lor a tag).
Proof.
  intros Ha Ht. assert (E : Z.lor a tag = Z.land (Z.lor a tag) (Z.ones 64)).
  { rewrite Z.land_lor_distr_l, !Z.land_ones by lia. rewrite (Z.mod_small a), (Z.mod_small tag) by u64_lia. done. }
  rewrite E, Z.land_ones by lia. pose proof (Z.mod_pos_bound (Z.lor a tag) (2 ^ 64) ltac:(lia)). u64_lia.
Qed.

Section system.
Context (F : pt_flags) (ZERO_PAGE : Z) `{HF : !PtFlagsOk F}.

(** [L] lists the collector's entries for the pages and the inodes of the machine. *)
Context (L : list Z).

Definition machine_page (q : Z) : Prop := is_u64 q /\ Z.land q SIVFS_GC_ENTRY_FLAGS = 0 /\ page_entry q ∈ L.
Definition machine_inode (j : Z) : Prop := is_u64 j /\ Z.land j SIVFS_GC_ENTRY_FLAGS = 0 /\ inode_entry j ∈ L.

(** The pages that the allocator has to offer to the next checkpoint. *)
Definition offer (l : list (option supply_page)) (c : cps) : cps := set_store (set_supply l (c_store c)) c.

(** A held checkpoint reads as it did, and what it needs is not obsolete at its time. *)
Definition held_ok (c : cps) (h : holding) : Prop := exists i, c_inodes c !! h_ino h = Some i /\
  ci_ts i <= c_latest_ts c /\ wf_sub F ZERO_PAGE (cpages c) (ci_ts i) ROOT_LEVEL (ci_root i) /\
  reads F (cpages c) (ci_root i) (h_reads h) /\ visible_at F c (h_ino h) i (ci_ts i).

(** [C] is the tree of the latest checkpoint. *)
Record live (c : cps) (H : list holding) (C : gmap Z nat) : Prop := {
  lv_cps : cps_inv F ZERO_PAGE c;
  lv_gc : gc_inv L c;
  lv_scratch : p_obsoleted (c_store c) = zero_stack;
  lv_zero_page : exists p, cpages c !! ZERO_PAGE = Some p /\ cp_is_zero p = true;
  lv_tree : exists i, c_inodes c !! c_latest c = Some i /\ tree F ZERO_PAGE (ci_root i) (cpages c) C;
  lv_pages : forall q, is_Some (C !! q) -> ~ listed c (page_entry q) /\ machine_page q /\
    exists p, cpages c !! q = Some p /\ cp_checkpoint_ts p <= c_latest_ts c;
  lv_inode : machine_inode (c_latest c) /\ ~ listed c (inode_entry (c_latest c));
  lv_held : forall h, h ∈ H -> held_ok c h
}.

(** Entries of pages and inodes. *)
Lemma page_entry_ok q : machine_page q -> is_u64 (page_entry q) /\
  sivfs_gc_entry_to_type (page_entry q) = Ok SIVFS_GC_ENTRY_PAGE /\ sivfs_gc_entry_to_page (page_entry q) = q.
Proof.
  intros (Hu & Ha & _). destruct (gc_tag_parts q SIVFS_GC_ENTRY_PAGE Hu Ha ltac:(done)) as [Hf Hp].
  split; [|split; [|done]]; [by apply tagged_u64|]. unfold sivfs_gc_entry_to_type, page_entry. by rewrite Hf.
Qed.

Lemma inode_entry_ok j : machine_inode j -> is_u64 (inode_entry j) /\
  sivfs_gc_entry_to_type (inode_entry j) = Ok SIVFS_GC_ENTRY_INODE /\ sivfs_gc_entry_to_inode (inode_entry j) = j.
Proof.
  intros (Hu & Ha & _). destruct (gc_tag_parts j SIVFS_GC_ENTRY_INODE Hu Ha ltac:(done)) as [Hf Hp].
  split; [|split; [|done]]; [by apply tagged_u64|]. unfold sivfs_gc_entry_to_type, inode_entry. by rewrite Hf.
Qed.

(** The entry [e] names something that the checkpoint [ino] needs. *)
Definition needs (c : cps) (ino : Z) (i : cp_inode) (e : Z) : Prop :=
  (sivfs_gc_entry_to_type e = Ok SIVFS_GC_ENTRY_INODE /\ sivfs_gc_entry_to_inode e = ino) \/
  (sivfs_gc_entry_to_type e = Ok SIVFS_GC_ENTRY_PAGE /\
   reaches F (cpages c) ROOT_LEVEL (ci_root i) (sivfs_gc_entry_to_page e)).

(** What a checkpoint needs is not younger than it. *)
Lemma needed_is_old c ino i e s o : gc_inv L c -> (exists p, cpages c !! ZERO_PAGE = Some p /\ cp_is_zero p = true) ->
  c_inodes c !! ino = Some i -> wf_sub F ZERO_PAGE (cpages c) (ci_ts i) ROOT_LEVEL (ci_root i) -> listed c e ->
  sivfs_gc_entry_to_lifetime e c = Ok (s, o) -> needs c ino i e -> s <= ci_ts i.
Proof.
  intros Hgc (zp & Hzp & Hz) Hi Hwf He Hl Hn. unfold sivfs_gc_entry_to_lifetime in Hl.
  destruct Hn as [[Ht Ha]|[Ht Ha]]; rewrite Ht in Hl; cbn [rbind] in Hl.
  - rewrite Ha, Hi in Hl. cbn in Hl. injection Hl as <- _. lia.
  - destruct (gi_live _ _ Hgc e He) as [_ [(_ & p & Hp & Hpz)|[Ht' _]]]; [|by rewrite Ht in Ht'].
    destruct (wf_sub_reaches F ZERO_PAGE _ _ _ _ _ Hwf Ha) as (p' & Hp' & Hor). rewrite Hp in Hl, Hp'. injection Hp' as <-.
    cbn in Hl. injection Hl as <- _. destruct Hor as [Hzz|?]; [|done]. unfold sivfs_is_zero_page in Hzz. rewrite Hpz, orb_false_r in Hzz.
    apply Z.eqb_eq in Hzz. rewrite Hzz in Hp. congruence.
Qed.

Lemma held_step c c' h i i' : held_ok c h -> gc_inv L c' -> (exists p, cpages c !! ZERO_PAGE = Some p /\ cp_is_zero p = true) ->
  frame (cpages c) (cpages c') (fun _ => False) -> c_latest_ts c <= c_latest_ts c' ->
  c_inodes c !! h_ino h = Some i -> c_inodes c' !! h_ino h = Some i' -> ci_root i' = ci_root i -> ci_ts i' = ci_ts i ->
  (forall e s o, listed c' e -> sivfs_gc_entry_to_lifetime e c' = Ok (s, o) ->
     (listed c e /\ sivfs_gc_entry_to_lifetime e c = Ok (s, o)) \/ c_latest_ts c < o) -> held_ok c' h.
Proof.
  intros (x & Hx & Hts & Hwf & Hm & Hvis) Hgc' (zp & Hzp & Hz) Hf Hle Hi Hi' Er Et Hold. assert (x = i) as -> by congruence.
  destruct (reads_frame F ZERO_PAGE (cpages c) (cpages c') (ci_ts i) (ci_root i) Hf Hwf) as [Hwf' Hm'].
  rewrite <- Er in Hwf', Hm'. rewrite <- Et in Hwf'. exists i'.
  split; [done|]. split; [lia|]. split; [done|]. split; [apply Hm'; by rewrite Er|].
  assert (Hzp' : exists p, cpages c' !! ZERO_PAGE = Some p /\ cp_is_zero p = true).
  { destruct (Hf _ _ Hzp) as (p' & Hp' & _ & Hz' & _). exists p'. split; [done|congruence]. }
  intros e s o He Hl Hn. pose proof (needed_is_old c' (h_ino h) i' e s o Hgc' Hzp' Hi' Hwf' He Hl Hn).
  split; [done|]. destruct (Hold e s o He Hl) as [[He0 Hl0]|?]; [|lia].
  assert (Hn0 : needs c (h_ino h) i e).
  { destruct Hn as [?|[? Hr]]; [by left|right]. split; [done|]. rewrite Er in Hr. by eapply reaches_frame. }
  destruct (Hvis e s o He0 Hl0 Hn0). lia.
Qed.

(** The latest checkpoint needs nothing that is listed. *)
Lemma latest_held c H C m : live c H C -> cp_reads F c (c_latest c) m -> held_ok c (mk_held (c_latest c) m).
Proof.
  intros Hlv (i & Hi & Hm). destruct (inv_inode _ _ _ (lv_cps _ _ _ Hlv)) as (x & Hx & Hts & Hwf).
  destruct (lv_tree _ _ _ Hlv) as (y & Hy & T).
  assert (x = i) as -> by congruence. assert (y = i) as -> by congruence. exists i. cbn [h_ino h_reads].
  split; [done|]. split; [lia|]. split; [by rewrite Hts|]. split; [done|].
  intros e s o He Hl Hn. exfalso. destruct (gi_live _ _ (lv_gc _ _ _ Hlv) e He) as [Hu [(Ht & p & Hp & Hz)|[Ht [j Hj]]]].
  - destruct Hn as [[Ht' _]|[_ Hr]]; [by rewrite Ht in Ht'|].
    rewrite <- (pa_of_root F ZERO_PAGE _ _ _ Hwf) in Hr.
    destruct (tree_root F ZERO_PAGE _ _ _ _ T Hr) as [Hc|(p' & Hp' & Hzz)].
    + destruct (lv_pages _ _ _ Hlv _ Hc) as (Hnl & Hmp & _). destruct (page_entry_ok _ Hmp) as (Hu' & Ht' & Ep).
      destruct Hnl. by rewrite (entry_eq (page_entry _) e SIVFS_GC_ENTRY_PAGE Hu' Hu Ht' Ht).
    + simplify_eq. destruct (lv_zero_page _ _ _ Hlv) as (zp & Hzp & Hzt). unfold sivfs_is_zero_page in Hzz.
      rewrite Hz, orb_false_r in Hzz. apply Z.eqb_eq in Hzz. rewrite Hzz in Hp. congruence.
  - destruct Hn as [[_ Ha]|[Ht' _]]; [|by rewrite Ht in Ht']. destruct (lv_inode _ _ _ Hlv) as [Hmi Hnl].
    destruct (inode_entry_ok _ Hmi) as (Hu' & Ht' & Ep). destruct Hnl.
    rewrite (entry_eq (inode_entry (c_latest c)) e SIVFS_GC_ENTRY_INODE Hu' Hu Ht' Ht); [done|].
    change (sivfs_gc_entry_to_page (inode_entry (c_latest c))) with (sivfs_gc_entry_to_inode (inode_entry (c_latest c))).
    by rewrite Ep.
Qed.

(** ** Making a checkpoint *)

Section make_step.
Context (ev : cp_env) (st : log_state) (lo n : Z) (c : cps) (H : list holding) (C : gmap Z nat).
Context (Hlv : live c H C) (Hv : log_view st lo n) (Hlo : lo <= c_latest_ts c + 1) (Hn : c_latest_ts c <= n < SIVFS_INVALID_TS).
Context (Hok : Forall write_ok (log_slice st (c_latest_ts c + 1) (Z.to_nat (n - c_latest_ts c)) ≫= entry_writes)).
Context (Hino : forall ino, ev_inode ev = Some ino -> ino <> 0 /\ c_inodes c !! ino = None /\ machine_inode ino).
Context (Hoff : forall sp, Some sp ∈ p_supply (c_store c) -> machine_page (sp_pa sp)).

Notation book_of := (book F ZERO_PAGE machine_page (cpages c) C n).

(** The replay starts from the tree of the latest checkpoint. *)
Lemma book_start i : c_latest_ts c < n -> c_inodes c !! c_latest c = Some i -> book_of (ci_root i) (c_store c) C.
Proof.
  intros Hlt Hi. destruct (lv_tree _ _ _ Hlv) as (x & Hx & T). assert (x = i) as -> by congruence.
  pose proof (proj1 (inv_ready _ _ _ (lv_cps _ _ _ Hlv))) as Hz. pose proof (zpool_ready F ZERO_PAGE _ Hz) as Hpool.
  destruct Hz as (_ & _ & Hs & Hk & _). pose proof (lv_scratch _ _ _ Hlv) as Hscr.
  assert (He : elems (p_obsoleted (c_store c)) = []) by (by rewrite Hscr).
  split; try done; rewrite ?He; try (by left).
  - intros q p Hq. exists p. done.
  - intros q Hq. by apply not_elem_of_nil in Hq.
  - intros q Hq. by apply (lv_pages _ _ _ Hlv).
Qed.

Lemma book_base q : c_latest_ts c < n -> is_Some (C !! q) -> exists p, cpages c !! q = Some p /\ cp_checkpoint_ts p <> n.
Proof. intros Hlt Hq. destruct (lv_pages _ _ _ Hlv q Hq) as (_ & _ & p & Hp & ?). exists p. split; [done|lia]. Qed.

(** What the replay changes: pages of the tree, and when it succeeds the books are kept. *)
Lemma replay_facts i res root' s1 : c_latest_ts c < n -> c_inodes c !! c_latest c = Some i ->
  replay F ZERO_PAGE ev st n (c_latest_ts c) (ci_root i) (c_store c) = (res, (root', s1)) ->
  frame (cpages c) (p_pages s1) (fun _ => False) /\
  (forall q p, C !! q = None -> cpages c !! q = Some p -> p_pages s1 !! q = Some p) /\
  (res = Ok tt -> exists C', book_of root' s1 C').
Proof.
  intros Hlt Hi HR. destruct (inv_inode _ _ _ (lv_cps _ _ _ Hlv)) as (x & Hx & _ & Hwf). assert (x = i) as -> by congruence.
  pose proof (inv_ts _ _ _ (lv_cps _ _ _ Hlv)).
  destruct (replay_outcome F ZERO_PAGE st lo n _ (c_latest_ts c) n (c_store c) (ci_root i)
    (on_obsolete_page_stack_records (ev_push ev)) Hv Hlo ltac:(lia) Hok (proj1 (inv_ready _ _ _ (lv_cps _ _ _ Hlv))) Hwf)
    as (res2 & root2 & s2 & HR2 & Hf & _).
  unfold replay in HR. rewrite HR in HR2. injection HR2 as <- <- <-. split; [done|].
  pose proof (replay_sound F ZERO_PAGE machine_page (cpages c) C n ltac:(lia) (fun q => book_base q Hlt) (ev_push ev) st (c_latest_ts c)
    (ci_root i, c_store c) (ex_intro _ C (book_start i Hlt Hi))) as Hs.
  rewrite HR in Hs. destruct res as [[]| | |].
  - split; [by apply (booked_kept _ _ _ _ _ _ _ Hs)|]. intros _. exact Hs.
  - split; [exact Hs|done].
  - split; [exact Hs|done].
  - split; [exact Hs|done].
Qed.

(** A listed object keeps its record as long as it is no page of the tree and
    not the latest inode. *)
Lemma lifetime_same c' e : gc_inv L c -> listed c e ->
  (forall q p, C !! q = None -> cpages c !! q = Some p -> cpages c' !! q = Some p) ->
  (forall j i, j <> c_latest c -> c_inodes c !! j = Some i -> c_inodes c' !! j = Some i) ->
  sivfs_gc_entry_to_lifetime e c' = sivfs_gc_entry_to_lifetime e c /\ entry_live c' e.
Proof.
  intros Hgc He Hp Hi. destruct (gi_live _ _ Hgc e He) as [Hu Hl]. unfold sivfs_gc_entry_to_lifetime.
  destruct Hl as [(Ht & p & Hq & Hz)|[Ht [i Hj]]]; rewrite Ht; cbn [rbind].
  - assert (HcN : C !! sivfs_gc_entry_to_page e = None).
    { destruct (C !! _) as [l|] eqn:E; [|done]. destruct (lv_pages _ _ _ Hlv _ (ex_intro _ l E)) as (Hnl & Hmp & _).
      destruct (page_entry_ok _ Hmp) as (Hu' & Ht' & Ep). destruct Hnl. by rewrite (entry_eq (page_entry _) e _ Hu' Hu Ht' Ht). }
    pose proof (Hp _ p HcN Hq) as Hq'. rewrite Hq, Hq'. split; [done|]. split; [done|]. left. split; [done|]. by exists p.
  - assert (Hne : sivfs_gc_entry_to_inode e <> c_latest c).
    { intros E. destruct (lv_inode _ _ _ Hlv) as [Hmi Hnl]. destruct (inode_entry_ok _ Hmi) as (Hu' & Ht' & Ep).
      destruct Hnl. rewrite (entry_eq (inode_entry (c_latest c)) e SIVFS_GC_ENTRY_INODE Hu' Hu Ht' Ht); [done|].
      change (sivfs_gc_entry_to_page ?x) with (sivfs_gc_entry_to_inode x). by rewrite Ep. }
    pose proof (Hi _ i Hne Hj) as Hj'. rewrite Hj, Hj'. split; [done|]. split; [done|]. right. split; [done|]. by eexists.
Qed.

Section outcome.
Context (c' : cps) (s1 : pstore).
Context (Hpages : cpages c' = p_pages s1) (Hfr : frame (cpages c) (p_pages s1) (fun _ => False)).
Context (Hkept : forall q p, C !! q = None -> cpages c !! q = Some p -> p_pages s1 !! q = Some p).
Context (Hcps : cps_inv F ZERO_PAGE c') (Hscr : p_obsoleted (c_store c') = zero_stack).

Lemma kept_zero : exists p, cpages c' !! ZERO_PAGE = Some p /\ cp_is_zero p = true.
Proof.
  destruct (lv_zero_page _ _ _ Hlv) as (p & Hp & Hz). rewrite Hpages. destruct (Hfr _ _ Hp) as (p' & ? & _ & ? & _).
  exists p'. split; [done|congruence].
Qed.

Lemma kept_zsame : zsame ZERO_PAGE (cpages c) (p_pages s1).
Proof.
  intros q p Hq Hz. apply Hkept; [|done]. destruct (lv_tree _ _ _ Hlv) as (i & _ & T). by eapply zero_not_in.
Qed.

Lemma kept_tree r : tree F ZERO_PAGE r (cpages c) C -> tree F ZERO_PAGE r (p_pages s1) C.
Proof.
  intros T. apply (tree_same F ZERO_PAGE r (cpages c)); [done|apply kept_zsame|]. intros q l p _ Hq.
  destruct (Hfr q p Hq) as (p' & ? & _ & ? & _ & Hw). exists p'. split_and!; [done|right; apply Hw; by intros []|done].
Qed.

(** ** Nothing was published *)

Lemma not_made_live : not_made c c' s1 -> same_heads c c' -> live c' H C.
Proof.
  intros [_ He Hb Hj Hpr] (El & Et & _).
  assert (Hg : forall k, grp c' k = grp c k) by (intros k; unfold grp; by rewrite Hb).
  assert (Hls : forall e, listed c' e <-> listed c e).
  { intros e. unfold listed. rewrite He. setoid_rewrite Hg. done. }
  pose proof (lv_gc _ _ _ Hlv) as Hgc.
  assert (Hold : forall e, listed c e -> sivfs_gc_entry_to_lifetime e c' = sivfs_gc_entry_to_lifetime e c /\ entry_live c' e).
  { intros e Hle. apply lifetime_same; [done|done|by rewrite Hpages|]. intros j i Hne Hi. by rewrite Hj. }
  assert (Hgc' : gc_inv L c').
  { split.
    - apply (inv_ready _ _ _ Hcps).
    - rewrite Hb. apply Hgc.
    - rewrite He. apply Hgc.
    - intros k. rewrite Hg. apply Hgc.
    - intros k k' e. rewrite !Hg. apply Hgc.
    - intros k e. rewrite He, Hg. apply Hgc.
    - intros e Hle. by apply Hold, Hls.
    - intros e Hle. by apply (gi_in _ _ Hgc), Hls.
    - apply Hgc. }
  split; try done.
  - apply kept_zero.
  - destruct (lv_tree _ _ _ Hlv) as (i & Hi & T). destruct (Hpr i Hi) as [o Ho]. rewrite El, Hpages.
    eexists. split; [exact Ho|]. by apply kept_tree.
  - intros q Hq. destruct (lv_pages _ _ _ Hlv q Hq) as (Hnl & ? & p & Hp & Hts). split; [by rewrite Hls|]. split; [done|].
    rewrite Hpages, Et. destruct (Hfr q p Hp) as (p' & Hp' & Ht & _). exists p'. split; [done|lia].
  - rewrite El, Hls. apply Hlv.
  - intros h Hh. pose proof (lv_held _ _ _ Hlv h Hh) as Hheld. pose proof Hheld as (i & Hi & _).
    assert (Hi' : exists o, c_inodes c' !! h_ino h = Some (mk_inode (ci_root i) (ci_ts i) o)).
    { destruct (decide (h_ino h = c_latest c)) as [E|E]; [rewrite E in *; by apply Hpr|].
      exists (ci_obsoleted_ts i). rewrite Hj, Hi by done. by destruct i. }
    destruct Hi' as [o Hi']. apply (held_step c c' h i _ Hheld Hgc' (lv_zero_page _ _ _ Hlv)) in Hi'; try done; [by rewrite Hpages|lia|].
    intros e s o' Hle Hlt. apply Hls in Hle. left. split; [done|]. by rewrite <- (proj1 (Hold e Hle)).
Qed.

(** ** A checkpoint was published *)

Section published.
Context (ino root' : Z) (C' : gmap Z nat) (Hlt : c_latest_ts c < n) (Hmade : made n c c' ino root' s1).
Context (Hi0 : ino <> 0) (Hfree : c_inodes c !! ino = None) (Hmi : machine_inode ino) (B : book_of root' s1 C').
Context (Et : c_latest_ts c' = n).
Let O : list Z := elems (p_obsoleted s1).

Lemma made_grp k : grp c' k = grp c k.
Proof. unfold grp. by rewrite (md_blocked _ _ _ _ _ _ Hmade). Qed.

Lemma made_ne : ino <> c_latest c.
Proof. destruct (lv_tree _ _ _ Hlv) as (il & Hil & _). congruence. Qed.

Lemma made_old e : listed c e -> sivfs_gc_entry_to_lifetime e c' = sivfs_gc_entry_to_lifetime e c /\ entry_live c' e.
Proof.
  intros Hle. apply lifetime_same; [apply Hlv|done|by rewrite Hpages|]. intros j i Hjl Hi.
  rewrite (md_inodes _ _ _ _ _ _ Hmade); [done|done|congruence].
Qed.

(** The pages taken out of the tree. *)
Lemma made_obsoleted q : q ∈ O -> machine_page q /\ ~ listed c (page_entry q) /\ C' !! q = None /\
  exists p, cpages c' !! q = Some p /\ cp_obsoleted_ts p = n /\ cp_is_zero p = false.
Proof.
  intros Hq. destruct (b_gone _ _ _ _ _ _ _ _ _ B q Hq) as (HC & HCN & p & Hp & Ho).
  destruct (lv_pages _ _ _ Hlv q HC) as (? & ? & p0 & Hp0 & _). split_and!; try done. rewrite Hpages. exists p. split_and!; try done.
  destruct HC as [l HC]. destruct (lv_tree _ _ _ Hlv) as (i & _ & T). destruct (t_page _ _ _ _ _ T q l HC) as (_ & _ & x & Hx & Hz).
  assert (x = p0) as -> by congruence. destruct (Hfr q p0 Hp0) as (p' & Hp' & _ & Ez & _). assert (p' = p) as -> by congruence.
  rewrite Ez. unfold sivfs_is_zero_page in Hz. by apply orb_false_iff in Hz as [_ ?].
Qed.

Lemma made_prior : exists i, c_inodes c !! c_latest c = Some i /\ c_inodes c' !! c_latest c = Some (mk_inode (ci_root i) (ci_ts i) n).
Proof.
  destruct (lv_tree _ _ _ Hlv) as (i & Hi & _). exists i. split; [done|]. by apply (md_prior _ _ _ _ _ _ Hmade).
Qed.

(** The entries that were added. *)
Definition added (e : Z) : Prop := (exists q, q ∈ O /\ e = page_entry q) \/ e = inode_entry (c_latest c).

Lemma made_listed e : listed c' e <-> listed c e \/ added e.
Proof.
  unfold listed, added. rewrite (md_elems _ _ _ _ _ _ Hmade). setoid_rewrite made_grp. unfold marked.
  rewrite !elem_of_app, list_elem_of_singleton, list_elem_of_fmap. fold O. naive_solver.
Qed.

Lemma added_new e : added e -> ~ listed c e /\ entry_live c' e /\ e ∈ L /\ exists s, sivfs_gc_entry_to_lifetime e c' = Ok (s, n).
Proof.
  intros [(q & Hq & ->)| -> ].
  - destruct (made_obsoleted q Hq) as (Hm & Hnl & _ & p & Hp & Ho & Hz). destruct (page_entry_ok q Hm) as (Hu & Ht & Ep).
    split; [done|]. split; [|split; [apply Hm|]].
    + split; [done|]. left. split; [done|]. rewrite Ep. by exists p.
    + exists (cp_checkpoint_ts p). unfold sivfs_gc_entry_to_lifetime. rewrite Ht. cbn [rbind]. rewrite Ep, Hp. cbn. by rewrite Ho.
  - destruct (lv_inode _ _ _ Hlv) as [Hm Hnl]. destruct (inode_entry_ok _ Hm) as (Hu & Ht & Ep).
    destruct made_prior as (i & _ & Hi'). split; [done|]. split; [|split; [apply Hm|]].
    + split; [done|]. right. split; [done|]. rewrite Ep. by eexists.
    + exists (ci_ts i). unfold sivfs_gc_entry_to_lifetime. rewrite Ht. cbn [rbind]. rewrite Ep, Hi'. done.
Qed.

Lemma made_gc_inv : gc_inv L c'.
Proof.
  pose proof (lv_gc _ _ _ Hlv) as Hgc. pose proof (b_nodup _ _ _ _ _ _ _ _ _ B) as Hnd.
  assert (Hpe : NoDup (page_entry <$> O)).
  { apply NoDup_fmap_2_strong; [|done]. intros x y Hx Hy E. destruct (made_obsoleted x Hx) as (Hmx & _), (made_obsoleted y Hy) as (Hmy & _).
    destruct (page_entry_ok x Hmx) as (_ & _ & <-), (page_entry_ok y Hmy) as (_ & _ & <-). by rewrite E. }
  assert (Hadd : forall e, e ∈ marked O (Some (c_latest c)) <-> added e).
  { intros e. unfold marked, added. rewrite elem_of_app, list_elem_of_singleton, list_elem_of_fmap. naive_solver. }
  split.
  - apply (inv_ready _ _ _ Hcps).
  - rewrite (md_blocked _ _ _ _ _ _ Hmade). apply Hgc.
  - rewrite (md_elems _ _ _ _ _ _ Hmade). apply NoDup_app. split; [apply Hgc|]. split.
    + intros e He Ha%Hadd. destruct (added_new e Ha) as [Hnl _]. apply Hnl. by left.
    + apply NoDup_app. split; [done|]. split; [|apply NoDup_singleton].
      intros e (q & -> & Hq)%list_elem_of_fmap E%list_elem_of_singleton. destruct (made_obsoleted q Hq) as (Hm & _).
      destruct (page_entry_ok q Hm) as (_ & Ht & _), (inode_entry_ok _ (proj1 (lv_inode _ _ _ Hlv))) as (_ & Ht' & _).
      rewrite E in Ht. by rewrite Ht in Ht'.
  - intros k. rewrite made_grp. apply Hgc.
  - intros k k' e. rewrite !made_grp. apply Hgc.
  - intros k e. rewrite made_grp, (md_elems _ _ _ _ _ _ Hmade). intros [He|Ha%Hadd]%elem_of_app Hg; [by eapply (gi_obs_disjoint _ _ Hgc)|].
    destruct (added_new e Ha) as [Hnl _]. apply Hnl. right. by exists k.
  - intros e [He|He]%made_listed; [by apply made_old|by apply added_new].
  - intros e [He|He]%made_listed; [by apply (gi_in _ _ Hgc)|by apply added_new].
  - apply Hgc.
Qed.

(** The pages of the new tree. *)
Lemma made_pages q : is_Some (C' !! q) -> ~ listed c' (page_entry q) /\ machine_page q /\
  exists p, cpages c' !! q = Some p /\ cp_checkpoint_ts p <= n.
Proof.
  intros Hq. pose proof (b_dom _ _ _ _ _ _ _ _ _ B q Hq) as Hm. destruct Hq as [l Hq].
  destruct (page_entry_ok q Hm) as (Hu & Ht & Ep). split; [|split; [done|]].
  - intros [Hle|[ (q2 & Hq2 & E)|E] ]%made_listed.
    + destruct (b_new _ _ _ _ _ _ _ _ _ B q l Hq) as [HC|[HN _]].
      * destruct (lv_pages _ _ _ Hlv q HC) as [Hnl _]. done.
      * destruct (gi_live _ _ (lv_gc _ _ _ Hlv) _ Hle) as [_ [(_ & p & Hp & _)|[Ht' _]]]; [rewrite Ep in Hp; congruence|by rewrite Ht in Ht'].
    + destruct (made_obsoleted q2 Hq2) as (Hm2 & _ & HCN & _). destruct (page_entry_ok q2 Hm2) as (_ & _ & Ep2).
      rewrite E in Ep. rewrite Ep in Ep2. congruence.
    + destruct (inode_entry_ok _ (proj1 (lv_inode _ _ _ Hlv))) as (_ & Ht' & _). rewrite E in Ht. by rewrite Ht in Ht'.
  - rewrite Hpages. destruct (b_new _ _ _ _ _ _ _ _ _ B q l Hq) as [HC|[_ (p & Hp & Hts)]].
    + destruct (lv_pages _ _ _ Hlv q HC) as (_ & _ & p & Hp & Hts). destruct (Hfr q p Hp) as (p' & Hp' & Ht' & _).
      exists p'. split; [done|lia].
    + exists p. split; [done|lia].
Qed.

Lemma made_live : live c' H C'.
Proof.
  pose proof made_gc_inv as Hgc'. pose proof (md_latest _ _ _ _ _ _ Hmade) as El. split; try done.
  - apply kept_zero.
  - rewrite El. eexists. split; [apply (md_new _ _ _ _ _ _ Hmade)|]. rewrite Hpages. apply B.
  - intros q Hq. rewrite Et. by apply made_pages.
  - rewrite El. split; [done|]. destruct (inode_entry_ok _ Hmi) as (_ & Ht & Ep). intros [Hle|[ (q & Hq & E)|E] ]%made_listed.
    + destruct (gi_live _ _ (lv_gc _ _ _ Hlv) _ Hle) as [_ [(Ht' & _)|[_ [x Hx]]]]; [by rewrite Ht in Ht'|].
      rewrite Ep in Hx. congruence.
    + destruct (made_obsoleted q Hq) as (Hm & _). destruct (page_entry_ok q Hm) as (_ & Ht' & _). rewrite <- E in Ht'. by rewrite Ht in Ht'.
    + destruct (inode_entry_ok _ (proj1 (lv_inode _ _ _ Hlv))) as (_ & _ & Ep'). apply made_ne. by rewrite <- Ep, E, Ep'.
  - intros h Hh. pose proof (lv_held _ _ _ Hlv h Hh) as Hheld. pose proof Hheld as (i & Hi & Hts & _).
    assert (Hi' : exists o, c_inodes c' !! h_ino h = Some (mk_inode (ci_root i) (ci_ts i) o)).
    { destruct (decide (h_ino h = c_latest c)) as [E|E]; [rewrite E in *; exists n; by apply (md_prior _ _ _ _ _ _ Hmade)|].
      exists (ci_obsoleted_ts i). rewrite (md_inodes _ _ _ _ _ _ Hmade), Hi by congruence. by destruct i. }
    destruct Hi' as [o Hi']. apply (held_step c c' h i _ Hheld Hgc' (lv_zero_page _ _ _ Hlv)) in Hi'; try done; [by rewrite Hpages|lia|].
    intros e s o' [Hle|Ha]%made_listed Hl.
    + left. split; [done|]. by rewrite <- (proj1 (made_old e Hle)).
    + right. destruct (added_new e Ha) as (_ & _ & _ & s' & Hl'). rewrite Hl in Hl'. injection Hl' as _ ->. done.
Qed.
End published.
End outcome.

(** The obsoleted list has room: its entries are among those of the machine. *)
Lemma obsoleted_room : st_size (c_obsoleted c) < stack_limit / 4.
Proof.
  pose proof (lv_gc _ _ _ Hlv) as Hgc. rewrite <- (elems_length _ (gi_obs _ _ Hgc)).
  assert (Hsub : elems (c_obsoleted c) ⊆+ L).
  { apply NoDup_submseteq; [apply Hgc|]. intros e He. apply (gi_in _ _ Hgc). by left. }
  apply submseteq_length in Hsub. pose proof (gi_bound _ _ Hgc). lia.
Qed.

Lemma make_live : let o := sivfs_make_checkpoint F ZERO_PAGE ev st n c in
  (exists C', live o.2 H C') /\ c_latest_ts c <= c_latest_ts o.2.
Proof.
  pose proof (lv_cps _ _ _ Hlv) as Hinv. destruct (lv_tree _ _ _ Hlv) as (i & Hi & T).
  assert (Hino' : forall ino, ev_inode ev = Some ino -> ino <> 0 /\ c_inodes c !! ino = None) by (intros ino E; by destruct (Hino ino E) as (? & ? & _)).
  pose proof (make_checkpoint_ok F ZERO_PAGE st lo n ev c Hv Hlo Hn Hok Hino' obsoleted_room Hinv) as Hpr.
  destruct (make_walk F ZERO_PAGE ev st n lo c i Hinv Hi Hv Hlo Hn Hok Hino' obsoleted_room (lv_scratch _ _ _ Hlv)) as (r & c' & E & Hscr & HW).
  cbv zeta. rewrite E in Hpr |- *. cbn [snd]. destruct HW as [(Hr & s1 & Hs1 & Hnm)|(-> & Hlt & ino & root' & s1 & Hev & HR & Hmd)].
  - assert (Hq : cps_inv F ZERO_PAGE c' /\ same_heads c c').
    { destruct Hr as [->|[e ->]]; by destruct Hpr as (? & ? & _). }
    destruct Hq as [Hcps Hh]. split; [|destruct Hh as (_ & -> & _); lia]. exists C.
    assert (Hfk : frame (cpages c) (p_pages s1) (fun _ => False) /\
      forall q p, C !! q = None -> cpages c !! q = Some p -> p_pages s1 !! q = Some p).
    { destruct Hs1 as [->|(Hlt & res & root' & HR)]; [split; [apply frame_refl|done]|].
      by destruct (replay_facts i res root' s1 Hlt Hi HR) as (? & ? & _). }
    destruct Hfk. by apply (not_made_live c' s1 (nm_pages _ _ _ Hnm)).
  - destruct (replay_facts i _ root' s1 Hlt Hi HR) as (Hf & Hk & HB). destruct (HB eq_refl) as [C' B].
    destruct Hpr as (Hcps & Et & _). destruct (Hino ino Hev) as (? & ? & ?).
    split; [|lia]. exists C'. by apply (made_live c' s1 (md_pages _ _ _ _ _ _ Hmd) Hf Hk Hcps Hscr ino root').
Qed.
End make_step.

(** The allocator offers other pages. *)
Lemma offer_live l c H C : live c H C -> supply_fresh F (cpages c) l -> Z.of_nat (length l) + 1 < stack_limit / 4 ->
  live (offer l c) H C.
Proof.
  intros [[[Hz Hw] Hinv1 Hinv2 Hinv3 Hinv4 Hinv5 Hinv6] [] Hscr Hzp Ht Hp Hi Hh] Hs Hl. split; try done. split; try done.
  split; [|done]. destruct Hz as (H0 & Hz1 & _ & _ & Hlen & Hl1). split_and!; try done.
  unfold stack_room. cbn [p_obsoleted c_store offer set_store set_supply]. rewrite Hscr. split; [apply zero_stack_wf|]. simpl. lia.
Qed.

(** ** Collecting *)

Section collect.
Context (ev : gc_env) (vs : list Z) (versions : Prelude.res (list Z)) (g : gcs) (c : cps) (H : list holding) (C : gmap Z nat).
Context (Ec : g_cps g = c).
Context (Hlv : live c H C) (Hvs : versions = Ok vs \/ exists e, versions = Err e).
Context (Hall : forall h i, h ∈ H -> c_inodes c !! h_ino h = Some i -> ci_ts i ∈ vs).

Let c' : cps := g_cps (sivfs_gc_checkpoints ev versions g).2.

Lemma collected : gc_inv L c' /\ reclaims vs (c_published c) c c'.
Proof.
  pose proof (lv_cps _ _ _ Hlv) as Hinv. destruct (gc_ok ev L vs versions g) as (Hg & R & _); [rewrite Ec; apply Hlv| |done|]; rewrite Ec in *; [|done].
  rewrite (inv_published _ _ _ Hinv). apply (inv_ts _ _ _ Hinv).
Qed.

(** A page of the tree, or a zero page, is not collected. *)
Lemma collect_keeps q p : cpages c !! q = Some p -> is_Some (C !! q) \/ sivfs_is_zero_page ZERO_PAGE q p = true -> cpages c' !! q = Some p.
Proof.
  intros Hq Hor. destruct collected as [_ R]. destruct (rc_pages _ _ _ _ R q p Hq) as [?|(e & He & _ & Ht & <-)]; [done|exfalso].
  destruct (gi_live _ _ (lv_gc _ _ _ Hlv) e He) as [Hu [(_ & x & Hx & Hz)|[Ht' _]]]; [|by rewrite Ht in Ht']. assert (x = p) as -> by congruence. destruct Hor as [Hc|Hzz].
  - destruct (lv_pages _ _ _ Hlv _ Hc) as (Hnl & Hm & _). destruct (page_entry_ok _ Hm) as (Hu' & Ht' & Ep). apply Hnl.
    by rewrite (entry_eq (page_entry _) e SIVFS_GC_ENTRY_PAGE Hu' Hu Ht' Ht).
  - unfold sivfs_is_zero_page in Hzz. rewrite Hz, orb_false_r in Hzz. apply Z.eqb_eq in Hzz.
    destruct (lv_zero_page _ _ _ Hlv) as (zp & Hzp & Hzt). rewrite Hzz in Hq. congruence.
Qed.

Lemma collect_store : quiet F (p_zero_pxd (c_store c)) 0 (c_store c') /\ p_obsoleted (c_store c') = zero_stack.
Proof.
  set (P := fun s => quiet F (p_zero_pxd (c_store c)) 0 s /\ p_obsoleted s = zero_stack).
  assert (Hput : forall q, keeps P (sivfs_put_checkpoint_page q)).
  { intros q s [Hs Ho]. split; [by apply put_page_keeps|]. unfold sivfs_put_checkpoint_page. by repeat case_match. }
  apply (gc_store P Hput). unfold on_store. rewrite Ec.
  split; [|apply Hlv]. apply zero_ready_quiet with (ZERO_PAGE := ZERO_PAGE). apply (inv_ready _ _ _ (lv_cps _ _ _ Hlv)).
Qed.

(** The latest checkpoint is kept with its tree. *)
Lemma collect_latest i : c_inodes c !! c_latest c = Some i -> c_inodes c' !! c_latest c = Some i.
Proof.
  intros Hi. destruct collected as [_ R]. destruct (rc_inodes _ _ _ _ R _ i Hi) as [?|(e & He & _ & Ht & Ha)]; [done|exfalso].
  destruct (lv_inode _ _ _ Hlv) as [Hm Hnl]. destruct (inode_entry_ok _ Hm) as (Hu' & Ht' & Ep).
  destruct (gi_live _ _ (lv_gc _ _ _ Hlv) e He) as [Hu _]. apply Hnl.
  rewrite (entry_eq (inode_entry (c_latest c)) e SIVFS_GC_ENTRY_INODE Hu' Hu Ht' Ht); [done|].
  change (sivfs_gc_entry_to_page ?x) with (sivfs_gc_entry_to_inode x). by rewrite Ep, Ha.
Qed.

Lemma collect_tree r : tree F ZERO_PAGE r (cpages c) C -> tree F ZERO_PAGE r (cpages c') C.
Proof.
  intros T. apply (tree_same F ZERO_PAGE r (cpages c)); [done| |].
  - intros q p Hq Hz. apply collect_keeps; [done|by right].
  - intros q l p Hc Hq. exists p. split; [|split; [by right|done]]. apply collect_keeps; [done|left; by eexists].
Qed.

Lemma collect_cps : cps_inv F ZERO_PAGE c'.
Proof.
  destruct collected as [Hgc' R]. pose proof (lv_cps _ _ _ Hlv) as [[Hz _] Hl0 Hts Hpub (i & Hi & Hti & Hwf) Hidx Hrev].
  destruct (rc_heads _ _ _ _ R) as [(El & Et & Ep) Er]. destruct (lv_tree _ _ _ Hlv) as (x & Hx & T).
  assert (x = i) as -> by congruence.
  split; rewrite ?El, ?Et, ?Ep, ?Er; try done.
  - split; [|apply Hgc']. apply (zero_ready_kept F ZERO_PAGE (c_store c)); [done| | |apply collect_store].
    + intros q p Hq Hzp. apply collect_keeps; [done|by right].
    + destruct (lv_zero_page _ _ _ Hlv) as (zp & ? & _). by exists zp.
  - exists i. split; [by apply collect_latest|]. split; [done|].
    apply (sub_kept F ZERO_PAGE (cpages c)); [|done]. intros q Hq. rewrite <- (pa_of_root F ZERO_PAGE _ _ _ Hwf) in Hq.
    destruct (tree_root F ZERO_PAGE _ _ _ _ T Hq) as [[l Hc]|(p & Hp & Hzp)].
    + destruct (t_page _ _ _ _ _ T _ _ Hc) as (_ & _ & p & Hp & _). rewrite Hp. apply collect_keeps; [done|left; by eexists].
    + rewrite Hp. apply collect_keeps; [done|by right].
Qed.

(** What is held is kept. *)
Lemma collect_held h : h ∈ H -> held_ok c' h.
Proof.
  intros Hh. destruct collected as [Hgc' R]. destruct (lv_held _ _ _ Hlv h Hh) as (i & Hi & Hts & Hwf & Hm & Hvis).
  destruct (rc_heads _ _ _ _ R) as [(_ & Et & _) _].
  destruct (visible_kept F vs c c' (h_ino h) i (ci_ts i) (h_reads h) R Hi (or_introl (Hall h i Hh Hi)) Hvis) as [Hi' (i2 & Hi2 & Hm2)];
    [by exists i|]. assert (i2 = i) as -> by congruence. exists i. split; [done|]. split; [lia|].
  assert (Hkept : forall q, reaches F (cpages c) ROOT_LEVEL (ci_root i) q -> cpages c' !! q = cpages c !! q).
  { intros q Hq. destruct (wf_sub_reaches F ZERO_PAGE _ _ _ _ _ Hwf Hq) as (p & Hp & _). rewrite Hp.
    destruct (rc_pages _ _ _ _ R q p Hp) as [?|(e & He & Hn & Ht & Ha)]; [done|exfalso].
    destruct (rc_gone _ _ _ _ R e He Hn) as (s & o & Hl & _ & Hno).
    apply (Hno (ci_ts i) (Hall h i Hh Hi)). apply (Hvis e s o He Hl). right. by rewrite Ha. }
  split; [by apply (sub_kept F ZERO_PAGE (cpages c))|]. split; [done|].
  intros e s o He Hl Hn. apply (Hvis e s o); [by apply (rc_listed _ _ _ _ R)|by eapply lifetime_old|].
  destruct Hn as [?|[? Hr]]; [by left|right]. split; [done|].
  apply (reaches_sub F (cpages c)) in Hr; [done|apply (rc_old_pages _ _ _ _ R)].
Qed.

Lemma collect_live : live c' H C.
Proof.
  destruct collected as [Hgc' R]. destruct (rc_heads _ _ _ _ R) as [(El & Et & _) _]. split; try done.
  - apply collect_cps.
  - apply collect_store.
  - destruct (lv_zero_page _ _ _ Hlv) as (zp & Hzp & Hz). exists zp. split; [|done]. apply collect_keeps; [done|right].
    unfold sivfs_is_zero_page. by rewrite Z.eqb_refl.
  - destruct (lv_tree _ _ _ Hlv) as (i & Hi & T). rewrite El. exists i. split; [by apply collect_latest|by apply collect_tree].
  - intros q Hq. destruct (lv_pages _ _ _ Hlv q Hq) as (Hnl & Hm & p & Hp & Hts). rewrite Et.
    split; [intros He; by apply Hnl, (rc_listed _ _ _ _ R)|]. split; [done|]. exists p. split; [|done]. apply collect_keeps; [done|by left].
  - rewrite El. destruct (lv_inode _ _ _ Hlv) as [Hm Hnl]. split; [done|]. intros He. by apply Hnl, (rc_listed _ _ _ _ R).
  - apply collect_held.
Qed.
End collect.

(** ** The transition system *)

Inductive snap_step : cps * list holding -> cps * list holding -> Prop :=
  | snap_make ev st lo n l c H :
      log_view st lo n -> lo <= c_latest_ts c + 1 -> c_latest_ts c <= n < SIVFS_INVALID_TS ->
      Forall write_ok (log_slice st (c_latest_ts c + 1) (Z.to_nat (n - c_latest_ts c)) ≫= entry_writes) ->
      (forall ino, ev_inode ev = Some ino -> ino <> 0 /\ c_inodes c !! ino = None /\ machine_inode ino) ->
      supply_fresh F (cpages c) l -> Z.of_nat (length l) + 1 < stack_limit / 4 ->
      (forall sp, Some sp ∈ l -> machine_page (sp_pa sp)) ->
      snap_step (c, H) ((sivfs_make_checkpoint F ZERO_PAGE ev st n (offer l c)).2, H)
  | snap_collect ev vs versions g H :
      versions = Ok vs \/ (exists e, versions = Err e) ->
      (forall h i, h ∈ H -> c_inodes (g_cps g) !! h_ino h = Some i -> ci_ts i ∈ vs) ->
      snap_step (g_cps g, H) (g_cps (sivfs_gc_checkpoints ev versions g).2, H)
  | snap_checkout c H m :
      cp_reads F c (c_latest c) m -> snap_step (c, H) (c, mk_held (c_latest c) m :: H)
  | snap_release c H1 h H2 : snap_step (c, H1 ++ h :: H2) (c, H1 ++ H2).

Lemma live_step x y : (exists C, live x.1 x.2 C) -> snap_step x y -> exists C, live y.1 y.2 C.
Proof.
  intros [C Hlv] Hs. destruct Hs; cbn [fst snd] in *.
  - eapply (make_live ev st lo n (offer l c) H C); try done. by apply offer_live.
  - exists C. by eapply collect_live.
  - exists C. assert (Hl : held_ok c (mk_held (c_latest c) m)) by (by eapply latest_held).
    destruct Hlv as [? ? ? ? ? ? ? Hh]. split; try done. intros h [->|Hin]%elem_of_cons; [done|by apply Hh].
  - exists C. destruct Hlv as [? ? ? ? ? ? ? Hh]. split; try done. intros h' Hin. apply Hh. set_solver.
Qed.

(** ** The file system when it is mounted *)

(** Neither the zero page nor the scratch stack is touched by the creation of
    the zero pages. *)
Definition untouched (s : pstore) : Prop := supply_fresh F (p_pages s) (p_supply s) /\
  (exists p, p_pages s !! ZERO_PAGE = Some p /\ cp_is_zero p = true) /\ p_obsoleted s = zero_stack.

Lemma init_loop_next level k s s' : supply_fresh F (p_pages s) (p_supply s) ->
  init_zero_loop F ZERO_PAGE level (S k) s = (Ok tt, s') -> exists sp rest w, p_supply s = Some sp :: rest /\
  init_zero_loop F ZERO_PAGE (S level) k (zero_added level sp rest w s) = (Ok tt, s').
Proof.
  intros Hs E. cbn [init_zero_loop] in E.
  destruct (new_page_ok F 0 (Z.of_nat level) s Hs) as [(sp & rest & Es & En)|(s1 & En & _)];
    [|by rewrite (bind_err _ _ _ _ _ En) in E].
  rewrite (bind_step _ _ _ _ _ En) in E.
  set (n := sp_pa sp) in *. set (pn := new_page_of sp 0 (Z.of_nat level)) in E.
  set (s1 := set_pages (<[n := pn]> (p_pages s)) (set_count (p_count s + 1) (set_supply rest s))) in E.
  assert (Hl1 : p_pages s1 !! n = Some pn) by apply lookup_insert_eq.
  rewrite (bind_step _ _ _ _ _ (load_page_ok _ _ _ Hl1)), (bind_step _ _ _ _ _ (store_page_ok _ _ _ _ Hl1)) in E.
  rewrite (bind_step (modify _) _ _ tt _ eq_refl) in E. set (s2 := set_zero_pxd _ _) in E.
  apply bind_Ok in E as (w & s3 & Ew & E). injection Ew as _ <-.
  assert (Hl2 : p_pages s2 !! n = Some (with_zero true pn)) by apply lookup_insert_eq.
  rewrite (bind_step _ _ _ _ _ (store_page_ok _ _ _ _ Hl2)) in E. exists sp, rest, w. split; [done|].
  unfold s2, s1 in E. cbn [p_pages set_pages set_zero_pxd set_supply set_count] in E. rewrite !insert_insert_eq in E. exact E.
Qed.

Lemma init_loop_untouched k : forall level s s', untouched s -> init_zero_loop F ZERO_PAGE level k s = (Ok tt, s') -> untouched s'.
Proof.
  induction k as [|k IH]; intros level s s' Hu E; [by injection E as <-|].
  destruct Hu as (Hs & (zp & Hzp & Hz) & Ho). destruct (init_loop_next _ _ _ _ Hs E) as (sp & rest & w & Es & E').
  rewrite Es in Hs. destruct (proj1 Hs 0%nat sp eq_refl) as (Hn & _). apply IH in E'; [done|]. split; [by apply supply_fresh_take|].
  split; [|done]. exists zp. split; [|done]. cbn [zero_added p_pages set_pages]. rewrite lookup_insert_ne by congruence. done.
Qed.

(** The first [n] zero pages are different pages of the store. *)
Definition pool_upto (n : nat) (s : pstore) : Prop :=
  (n <= length (p_zero_pxd s))%nat /\
  (forall i z, (i < n)%nat -> p_zero_pxd s !! i = Some z -> is_Some (p_pages s !! z)) /\
  forall i j z, (i < n)%nat -> (j < n)%nat -> p_zero_pxd s !! i = Some z -> p_zero_pxd s !! j = Some z -> i = j.

Lemma init_loop_pool k : forall level s s', supply_fresh F (p_pages s) (p_supply s) -> (level + k <= length (p_zero_pxd s))%nat ->
  pool_upto level s -> init_zero_loop F ZERO_PAGE level k s = (Ok tt, s') -> pool_upto (level + k) s'.
Proof.
  induction k as [|k IH]; intros level s s' Hs Hlen (Hl & Hin & Hd) E; [injection E as <-; by rewrite Nat.add_0_r|].
  destruct (init_loop_next _ _ _ _ Hs E) as (sp & rest & w & Es & E'). rewrite Es in Hs. destruct (proj1 Hs 0%nat sp eq_refl) as (Hn & _).
  replace (level + S k)%nat with (S level + k)%nat by lia. apply IH in E'; [done|by apply supply_fresh_take| |];
    cbn [zero_added p_zero_pxd set_pages set_zero_pxd]; [rewrite length_insert; lia|].
  assert (Hat : <[level := sp_pa sp]> (p_zero_pxd s) !! level = Some (sp_pa sp)) by (apply list_lookup_insert_eq; lia).
  assert (Hold : forall i z, (i < S level)%nat -> <[level := sp_pa sp]> (p_zero_pxd s) !! i = Some z ->
    (i = level /\ z = sp_pa sp) \/ ((i < level)%nat /\ p_zero_pxd s !! i = Some z /\ z <> sp_pa sp)).
  { intros i z Hi Hz. destruct (decide (i = level)) as [->|Hne]; [left; split; congruence|right]. rewrite list_lookup_insert_ne in Hz by done.
    split; [lia|]. split; [done|]. intros ->. destruct (Hin i _ ltac:(lia) Hz). congruence. }
  split; [cbn [p_zero_pxd zero_added set_pages set_zero_pxd]; rewrite length_insert; lia|].
  split; cbn [p_zero_pxd p_pages zero_added set_pages set_zero_pxd].
  - intros i z Hi Hz. rewrite lookup_insert. case_decide; [by eexists|]. destruct (Hold i z Hi Hz) as [[_ ?]|(? & ? & _)]; [congruence|by eapply Hin].
  - intros i j z Hi Hj Hzi Hzj. destruct (Hold i z Hi Hzi) as [[? ?]|(? & ? & ?)], (Hold j z Hj Hzj) as [[? ?]|(? & ? & ?)];
      try congruence. by apply (Hd i j z).
Qed.

Lemma get_zero_untouched s s' : store_init F ZERO_PAGE s -> p_obsoleted s = zero_stack ->
  sivfs_get_zero_checkpoint_pages F ZERO_PAGE s = (Ok tt, s') ->
  zero_ready F ZERO_PAGE s' /\ untouched s' /\ pool_upto SIVFS_CHECKPOINT_FOFFSET_LEVELS s'.
Proof.
  intros Hi Ho E. split.
  { destruct (get_zero_pages_ok F ZERO_PAGE s Hi) as [(x & Ex & Hz)|(r & x & Ex & Hr)]; rewrite E in Ex; [by injection Ex as <-|].
    injection Ex as <- _. by destruct Hr. }
  unfold sivfs_get_zero_checkpoint_pages in E. rewrite (bind_step (gets p_zero_refs) _ s _ s eq_refl), (si_refs _ _ _ Hi) in E.
  cbn [Z.eqb] in E. apply bind_Ok in E as ([] & s1 & E1 & E2). injection E2 as <-. unfold _sivfs_init_zero_checkpoint_pages in E1.
  set (s0 := set_zero_pxd (<[0%nat := ZERO_PAGE]> (p_zero_pxd s)) s) in E1. rewrite (bind_step _ _ s tt s0) in E1 by done.
  destruct (init_zero_loop F ZERO_PAGE 1 3 s0) as [[[]|e| |] s2] eqn:E3; try done.
  2: { by destruct (_sivfs_destroy_zero_checkpoint_pages s2) as [[]]. }
  injection E1 as <-. destruct (si_zero_page _ _ _ Hi) as (p & Hp & ? & _).
  assert (Hlen : length (p_zero_pxd s0) = SIVFS_CHECKPOINT_FOFFSET_LEVELS) by (cbn; rewrite length_insert; apply Hi).
  split.
  - apply (init_loop_untouched 3 1 s0) in E3; [exact E3|]. split; [apply Hi|]. split; [by exists p|done].
  - apply (init_loop_pool 3 1 s0) in E3; [exact E3|apply Hi|by rewrite Hlen|]. split; [rewrite Hlen; unfold SIVFS_CHECKPOINT_FOFFSET_LEVELS; lia|].
    split; [|intros; lia]. intros i z Hlt Hz. replace i with 0%nat in Hz by lia. cbn in Hz.
    rewrite list_lookup_insert_eq in Hz by (rewrite (si_pxd _ _ _ Hi); unfold SIVFS_CHECKPOINT_FOFFSET_LEVELS; lia). injection Hz as <-. by eexists.
Qed.

(** The state after sivfs_init_shared_state has inserted the empty checkpoint. *)
Definition snap_init (x : cps * list holding) : Prop := exists c0 ino signal mem,
  store_init F ZERO_PAGE (c_store c0) /\ p_obsoleted (c_store c0) = zero_stack /\ ino <> 0 /\ machine_inode ino /\
  Z.of_nat (length L) < stack_limit / 4 /\ first_checkpoint F ZERO_PAGE (Some ino) signal mem c0 = (Ok tt, x.1) /\ x.2 = [].

Lemma init_live x : snap_init x -> exists C, live x.1 x.2 C.
Proof.
  destruct x as [c H]. intros (c0 & ino & signal & mem & Hst & Hscr & Hi0 & Hm & HL & E & HH). cbn [fst snd] in *. subst H. exists ∅.
  unfold first_checkpoint in E. apply bind_Ok in E as ([] & c1 & E1 & E). unfold sivfs_init_checkpoints in E1.
  rewrite (bind_step (modify _) _ c0 tt _ eq_refl) in E1. cbn [c_store] in E1.
  destruct (sivfs_get_zero_checkpoint_pages F ZERO_PAGE (c_store c0)) as [r s] eqn:Es. injection E1 as -> <-.
  destruct (get_zero_untouched (c_store c0) s Hst Hscr Es) as (Hz & (_ & Hzp & Hscr') & _).
  set (c1 := set_store s _) in E. cbn [sivfs_create_checkpoint_inode] in E.
  set (c2 := set_inodes (<[ino := mk_inode 0 0 SIVFS_INVALID_TS]> (c_inodes c1)) c1).
  rewrite (bind_step _ _ c1 ino c2) in E by done.
  assert (Hl2 : c_inodes c2 !! ino = Some (mk_inode 0 0 SIVFS_INVALID_TS)) by apply lookup_insert_eq.
  rewrite (bind_step _ _ _ _ _ (load_ok _ _ _ Hl2)) in E. cbn [ci_obsoleted_ts] in E.
  set (c3 := set_inodes (<[ino := mk_inode 0 0 SIVFS_INVALID_TS]> (c_inodes c2)) c2).
  rewrite (bind_step (store_inode _ _) _ c2 tt c3 eq_refl) in E.
  assert (Hl3 : c_inodes c3 !! ino = Some (mk_inode 0 0 SIVFS_INVALID_TS)) by apply lookup_insert_eq.
  assert (Ec : c = set_latest ino 0 0 (set_reverse {[ridx 0 := ino]} c3)).
  { unfold on_error in E. destruct (sivfs_checkpoints_insert signal mem ino c3) as [[[]|e| |] c4] eqn:Ei; try done. injection E as <-. unfold sivfs_checkpoints_insert in Ei.
    apply bind_Ok in Ei as ([] & c5 & E5 & E6). unfold _sivfs_checkpoints_insert in E5. rewrite (proj2 (Z.eqb_neq _ _)) in E5 by done.
    rewrite (bind_step _ _ _ _ _ (load_ok _ _ _ Hl3)) in E5. destruct signal; [done|]. unfold on_reverse, radix_tree_insert in E5.
    change (c_reverse c3) with (∅ : gmap Z Z) in E5. cbn [radix_tree_lookup radix_gmap ci_ts] in E5. rewrite lookup_empty in E5.
    destruct mem; [|done]. injection E5 as <-. unfold _sivfs_checkpoints_insert_finish in E6.
    apply bind_Ok in E6 as (cpinfo & c6 & E6 & E7). unfold load_inode in E6. cbn [c_inodes set_reverse] in E6.
    rewrite Hl3 in E6. injection E6 as <- <-. by injection E7 as <-. }
  assert (Hg : forall k, grp c k = []) by (intros k; by rewrite Ec).
  assert (Hls : forall e, ~ listed c e).
  { intros e [He|(k & He)]; [rewrite Ec in He|rewrite Hg in He]; by apply not_elem_of_nil in He. }
  assert (Hino : c_inodes c !! ino = Some (mk_inode 0 0 SIVFS_INVALID_TS)) by (by rewrite Ec).
  assert (Hsto : c_store c = s) by (by rewrite Ec). assert (El : c_latest c = ino) by (by rewrite Ec).
  assert (Hcps : cps_inv F ZERO_PAGE c).
  { assert (Ets : c_latest_ts c = 0 /\ c_published c = 0 /\ c_reverse c = {[ridx 0 := ino]}) by (by rewrite Ec).
    destruct Ets as (Et & Ep & Er). split; rewrite ?El, ?Et, ?Ep, ?Er; try done.
    - split; [by rewrite Hsto|]. rewrite Ec. apply zero_stack_wf.
    - eexists. split; [exact Hino|]. split; [done|]. by left.
    - intros j [v Hv]. apply lookup_singleton_Some in Hv as [<- _]. split; [apply ridx_u64|done]. }
  split; try done.
  - split; try (intros; by rewrite ?Hg); try (intros e He; by destruct (Hls e)); try done.
    + rewrite Ec. apply zero_stack_wf.
    + intros k st Hk. by rewrite Ec in Hk.
    + rewrite Ec. constructor.
    + intros k. rewrite Hg. constructor.
    + intros k k' e He. rewrite Hg in He. by apply not_elem_of_nil in He.
    + intros k e _. rewrite Hg. apply not_elem_of_nil.
  - by rewrite Hsto.
  - by rewrite Hsto.
  - rewrite El. eexists. split; [exact Hino|]. cbn [ci_root]. split; try done.
    + intros sl l e Hl He. destruct sl as [|p o]; [|done]. injection He as <-. rewrite (Z.land_0_l (PTE_PFN_MASK F) : sivfs_pxd_to_pa F 0 = 0).
      split; [done|left]. apply ztree_null.
    + intros sl sl' l l' e e' _ _ _ _ _ [x Hx]. done.
  - intros q [l Hq]. done.
  - by rewrite El.
  - intros h Hh. by apply not_elem_of_nil in Hh.
Qed.

End system.

(** ** Properties *)

(** C5. In every state that mounting, making checkpoints, collecting, checking
    out and letting go can reach, whatever runs out of memory or is interrupted
    on the way: every checkpoint that is checked out still reads as it did when
    it was checked out, the latest checkpoint can be read, every entry of the
    collector names its own object that is allocated, and no page of the latest
    tree, in which every page is pointed to from one place, awaits collection.
    The collector is only asked to respect the timestamps that are in use. *)
Theorem checked_out_contents_stable F ZERO_PAGE `{HF : !PtFlagsOk F} L x :
  reachable (snap_init F ZERO_PAGE L) (snap_step F ZERO_PAGE L) x ->
  (forall h, h ∈ x.2 -> cp_reads F x.1 (h_ino h) (h_reads h)) /\
  (exists m, cp_reads F x.1 (c_latest x.1) m) /\
  (forall e, listed x.1 e -> entry_live x.1 e) /\
  exists C i, c_inodes x.1 !! c_latest x.1 = Some i /\ tree F ZERO_PAGE (ci_root i) (cpages x.1) C /\
    forall q, is_Some (C !! q) -> ~ listed x.1 (page_entry q).
Proof.
  intros Hr. assert (Hl : exists C, live F ZERO_PAGE L x.1 x.2 C).
  { revert x Hr. apply (invariant_reachable _ _ (fun x => exists C, live F ZERO_PAGE L x.1 x.2 C));
      [intros s Hs; by apply init_live|intros s s' Hs Hst; exact (live_step F ZERO_PAGE L s s' Hs Hst)]. }
  destruct Hl as [C Hlv]. split; [|split; [|split]].
  - intros h Hh. destruct (lv_held _ _ _ _ _ _ Hlv h Hh) as (i & Hi & _ & _ & Hm & _). by exists i.
  - destruct (latest_reads F ZERO_PAGE _ (lv_cps _ _ _ _ _ _ Hlv)) as (i & m & _ & Hm). by exists m.
  - apply (gi_live _ _ (lv_gc _ _ _ _ _ _ Hlv)).
  - destruct (lv_tree _ _ _ _ _ _ Hlv) as (i & Hi & T). exists C, i. split; [done|]. split; [done|].
    intros q Hq. by apply (lv_pages _ _ _ _ _ _ Hlv).
Qed.

(** A machine with 60 pages and two inodes. *)
Definition sample_machine : list Z :=
  inode_entry 16 :: inode_entry 32 :: ((fun k => page_entry (4096 * (2 + Z.of_nat k))) <$> seq 0 60).
Definition unmounted : cps := mk_cps 0 0 0 ∅ ∅ zero_stack ∅ base_store 0 0.
(** The checkpoint at time 0 is checked out, the one at time 3 is made, and the
    collector runs. *)
Definition sample_view : Z -> Z -> list Z := view x86_flags (cpages sample_cps) 0.
Definition sample_end : cps * list holding :=
  (g_cps (sivfs_gc_checkpoints gc_good_env (Ok [0]) sample_gcs).2, [mk_held 16 sample_view]).

Lemma sample_supply_machine n h : (n <= 60)%nat -> forall sp, Some sp ∈ drop h (sample_supply n) -> machine_page sample_machine (sp_pa sp).
Proof.
  intros Hn sp Hsp. assert (Hin : Some sp ∈ sample_supply n).
  { apply list_elem_of_lookup in Hsp as [i Hi]. rewrite lookup_drop in Hi. by eapply list_elem_of_lookup_2. }
  apply list_elem_of_fmap in Hin as (k & [= ->] & Hk). apply elem_of_seq in Hk. cbn [sp_pa].
  split; [u64_lia|]. split.
  - change SIVFS_GC_ENTRY_FLAGS with (Z.ones 3). rewrite Z.land_ones by lia.
    replace (4096 * (2 + Z.of_nat k)) with ((512 * (2 + Z.of_nat k)) * 2 ^ 3) by lia. apply Z.mod_mul. lia.
  - unfold sample_machine. right. right. apply list_elem_of_fmap. exists k. split; [done|]. apply elem_of_seq. lia.
Qed.

Lemma sample_inode j : j = 16 \/ j = 32 -> machine_inode sample_machine j.
Proof.
  intros Hj. unfold machine_inode. split; [destruct Hj; subst; by vm_compute|]. split; [destruct Hj; subst; by vm_compute|].
  unfold sample_machine. destruct Hj; subst; [left|right; left].
Qed.

Lemma sample_offer : offer (p_supply (c_store sample_cps)) sample_cps = sample_cps.
Proof. unfold offer, set_supply. by destruct sample_cps as [? ? ? ? ? ? ? [] ? ?]. Qed.

Lemma sample_init : snap_init x86_flags ZERO_PA sample_machine (sample_cps, []).
Proof.
  exists unmounted, 16, false, true. split; [exact base_store_init|]. split; [reflexivity|]. split; [discriminate|].
  split; [apply sample_inode; by left|]. split; [by vm_compute|]. split; [|reflexivity].
  vm_compute. reflexivity.
Qed.

Lemma sample_checked_out : cp_reads x86_flags sample_cps (c_latest sample_cps) sample_view.
Proof.
  exists (mk_inode 0 0 SIVFS_INVALID_TS). split; [vm_compute; reflexivity|].
  exact (reads_view x86_flags ZERO_PA (cpages sample_cps) 0 0 (or_introl eq_refl)).
Qed.

Lemma sample_made_step : snap_step x86_flags ZERO_PA sample_machine (sample_cps, [mk_held 16 sample_view])
  (sample_cps3, [mk_held 16 sample_view]).
Proof.
  unfold sample_cps3. rewrite <- sample_offer at 2.
  apply (snap_make x86_flags ZERO_PA sample_machine good_env sample_log3 1 3 (p_supply (c_store sample_cps))).
  - apply sample_log3_view.
  - by vm_compute.
  - by vm_compute.
  - exact sample_writes_ok.
  - intros ino E. destruct (good_env_inode ino E). split; [done|]. split; [done|]. injection E as <-. apply sample_inode. by right.
  - apply (inv_ready _ _ _ sample_cps_inv).
  - by vm_compute.
  - intros sp Hsp. apply (sample_supply_machine 40 3); [lia|].
    replace (drop 3 (sample_supply 40)) with (p_supply (c_store sample_cps)); [done|]. vm_compute. reflexivity.
Qed.

Lemma sample_reachable : reachable (snap_init x86_flags ZERO_PA sample_machine) (snap_step x86_flags ZERO_PA sample_machine) sample_end.
Proof.
  assert (R0 := reach_init _ (snap_step x86_flags ZERO_PA sample_machine) _ sample_init).
  assert (S1 := snap_checkout x86_flags ZERO_PA sample_machine sample_cps [] sample_view sample_checked_out).
  assert (R1 := reach_step _ _ _ _ R0 S1). change (c_latest sample_cps) with 16 in R1.
  assert (R2 := reach_step _ _ _ _ R1 sample_made_step).
  eapply reach_step; [exact R2|].
  apply (snap_collect x86_flags ZERO_PA sample_machine gc_good_env [0] (Ok [0]) sample_gcs [mk_held 16 sample_view]).
  - by left.
  - intros h i ->%list_elem_of_singleton Hi. cbn [h_ino] in Hi.
    assert (E : (ci_ts <$> c_inodes (g_cps sample_gcs) !! 16) = Some 0) by (vm_compute; reflexivity).
    rewrite Hi in E. injection E as ->. left.
Qed.

Lemma checked_out_contents_stable_witness :
  reachable (snap_init x86_flags ZERO_PA sample_machine) (snap_step x86_flags ZERO_PA sample_machine) sample_end /\
  c_latest sample_end.1 = 32 /\ cp_reads x86_flags sample_end.1 16 sample_view.
Proof.
  split; [exact sample_reachable|]. split; [vm_compute; reflexivity|].
  apply (proj1 (checked_out_contents_stable x86_flags ZERO_PA sample_machine sample_end sample_reachable) (mk_held 16 sample_view)).
  left.
Defined.
