(* ===== verification/Teardown.v ===== *)
(** Unmounting: sivfs_destroy_checkpoints (kern/sivfs_checkpoints.c) frees the
    latest checkpoint, everything that waits for the collector and the shared
    zero pages. Its comment claims that every page is in exactly one of these
    places; the theorem says that no page is freed twice or forgotten. *)
From S2P Require Import Prelude Types Stack RadixTree Writeset Log LogView PageTree MakeCheckpoint Trees Checkpoints GC Snapshots.

Notation cpages c := (p_pages (c_store c)).

(** ** The code *)

(** [sivfs_gc_free_entry(entry, NULL)]: without a state nothing is counted. *)
Definition free_uncounted (entry : Z) : M cps unit := fun c =>
  let '(r, g) := sivfs_gc_free_entry entry (mk_gcs c 0 0) in (r, g_cps g).

(** The loop over the elements of a stack. *)
Fixpoint free_entries (entries : list Z) : M cps unit :=
  match entries with
  | [] => ret tt
  | entry :: entries => do! free_uncounted entry in free_entries entries
  end.

(** The loop over the slots of one batch. The stack in a slot dies with it. *)
Fixpoint free_slots (indices : list Z) : M cps unit :=
  match indices with
  | [] => ret tt
  | index :: indices =>
    let! blocked_entries := (fun c => (deref (c_blocked c !! index), c)) in
    do! free_entries (elems blocked_entries) in
    free_slots indices
  end.

Definition DESTROY_BATCH : nat := 16.

(** [do ... while (nr > 0)] over gc_blocked_entries. *)
Fixpoint destroy_blocked (fuel : nat) : M cps unit :=
  match fuel with
  | O => fun c => (OutOfFuel, c)
  | S fuel =>
    let! keys := gets group_keys in
    let indices := take DESTROY_BATCH keys in
    do! free_slots indices in
    do! modify (fun c => set_blocked (foldl (fun t i => delete i t) (c_blocked c) indices) c) in
    match indices with
    | [] => ret tt
    | _ :: _ => destroy_blocked fuel
    end
  end.

(** The same loop over checkpoints_reverse, which owns nothing. *)
Definition destroy_reverse : M cps unit := fun c =>
  match batch_clear DESTROY_BATCH (S (length (radix_tree_items (c_reverse c)))) (c_reverse c) with
  | Ok t => (Ok tt, set_reverse t c)
  | Err e => (Err e, c)
  | Fault => (Fault, c)
  | OutOfFuel => (OutOfFuel, c)
  end.

Section destroy.
Context (F : pt_flags) (ZERO_PAGE : Z).

Definition on_cp_store {A} (m : M pstore A) : M cps A := fun c =>
  let '(r, s) := m (c_store c) in (r, set_store s c).

(** The number of pages freed is only compared in messages. *)
Definition destroy_latest : M cps unit :=
  let! latest_checkpoint := gets c_latest in
  if latest_checkpoint =? 0 then ret tt
  else
    let! cpinfo := load_inode latest_checkpoint in
    let! _ := on_cp_store (_sivfs_checkpoint_root_free F ZERO_PAGE (ci_root cpinfo)) in
    iput latest_checkpoint.

Definition sivfs_destroy_checkpoints : M cps unit :=
  do! destroy_latest in
  do! destroy_reverse in
  do! (fun c => destroy_blocked (S (size (c_blocked c))) c) in
  do! (fun c => free_entries (elems (c_obsoleted c)) c) in
  do! modify (set_obsoleted_entries zero_stack) in
  on_cp_store sivfs_put_zero_checkpoint_pages.
End destroy.

(** ** Freeing pages *)

(** Nobody but the checkpoint refers to the page. *)
Definition idle (p : cpage) : Prop := cp_refct p = 1 /\ cp_mapct p = 0 /\ cp_locked p = false.

(** [s'] is [s] without the pages [X]. *)
Record freed (X : Z -> Prop) (s s' : pstore) : Prop := {
  fr_gone : forall q, X q -> p_pages s' !! q = None;
  fr_kept : forall q, ~ X q -> p_pages s' !! q = p_pages s !! q;
  fr_old : forall q p, p_pages s' !! q = Some p -> p_pages s !! q = Some p;
  fr_zero : p_zero_pxd s' = p_zero_pxd s /\ p_zero_refs s' = p_zero_refs s
}.

Lemma freed_none X s : (forall q, ~ X q) -> freed X s s.
Proof. intros HX. split; try done. intros q Hq. by destruct (HX q). Qed.

Lemma freed_trans X Y Z0 s1 s2 s3 : freed X s1 s2 -> freed Y s2 s3 -> (forall q, Z0 q <-> X q \/ Y q) -> freed Z0 s1 s3.
Proof.
  intros [G1 K1 O1 [E1 R1]] [G2 K2 O2 [E2 R2]] HZ. split.
  - intros q [Hx|Hy]%HZ; [|by apply G2]. destruct (p_pages s3 !! q) as [p|] eqn:E; [|done].
    apply O2 in E. by rewrite G1 in E.
  - intros q Hn. rewrite K2, K1; [done| |]; intros H; apply Hn, HZ; auto.
  - auto.
  - by rewrite E2, E1, R2, R1.
Qed.

Lemma put_idle q p s : p_pages s !! q = Some p -> idle p -> exists s',
  sivfs_put_checkpoint_page q s = (Ok tt, s') /\ freed (fun x => x = q) s s'.
Proof.
  intros Hp (Hr & Hm & Hl). unfold sivfs_put_checkpoint_page. rewrite Hp, Hr, Hm, Hl. simpl.
  eexists. split; [reflexivity|]. split; cbn [p_pages set_pages set_count]; try done.
  - intros x ->. apply lookup_delete_eq.
  - intros x Hx. by apply lookup_delete_ne.
  - by intros x y [_ ?]%lookup_delete_Some.
Qed.

(** ** The pages under a page of the tree *)

Section tree_free.
Context (F : pt_flags) (ZERO_PAGE : Z) (r : Z) (h : gmap Z cpage) (C : gmap Z nat).
Context (T : tree F ZERO_PAGE r h C) (Hidle : forall q p, h !! q = Some p -> idle p).

Notation pa_of := (sivfs_pxd_to_pa F).
Notation is_zero := (sivfs_is_zero_page ZERO_PAGE).

Fixpoint under (level : nat) (q x : Z) : Prop :=
  x = q \/
  match level with
  | O => False
  | S l => exists p o w, h !! q = Some p /\ cp_words p !! o = Some w /\ C !! pa_of w = Some l /\ under l (pa_of w) x
  end.

Lemma under_self level q : under level q q.
Proof. destruct level; by left. Qed.

(** A word of a page of the tree is the entry of a slot. *)
Lemma word_slot q p l (o : nat) w : C !! q = Some (S l) -> h !! q = Some p -> cp_words p !! o = Some w ->
  slot_level C (STable q (Z.of_nat o)) = Some l /\ entry r h (STable q (Z.of_nat o)) = Some w.
Proof.
  intros Hc Hp Hw. split; [by apply slot_level_table|]. simpl. rewrite Hp. simpl.
  by rewrite (proj2 (Z.ltb_ge _ _)), Nat2Z.id by lia.
Qed.

Lemma under_level level : forall q x, C !! q = Some level -> under level q x -> exists k, (k <= level)%nat /\ C !! x = Some k.
Proof.
  induction level as [|l IH]; intros q x Hq [->|Hu]; try done; try (by eexists).
  destruct Hu as (p & o & w & _ & _ & Hw & Hu). destruct (IH _ _ Hw Hu) as (k & ? & ?). exists k. split; [lia|done].
Qed.

(** A page is under one page of every level only. *)
Lemma under_unique level : forall q q' x, C !! q = Some level -> C !! q' = Some level ->
  under level q x -> under level q' x -> q = q'.
Proof.
  assert (Hself : forall l q q', C !! q = Some (S l) -> C !! q' = Some (S l) -> under (S l) q' q -> q = q').
  { intros l q q' Hq Hq' [?|(p & o & w & _ & _ & Hw & Hu)]; [done|].
    destruct (under_level _ _ _ Hw Hu) as (k & ? & Hk). simplify_eq. lia. }
  induction level as [|l IH]; intros q q' x Hq Hq' Hu Hu'.
  - destruct Hu as [->|[]], Hu' as [->|[]]. done.
  - destruct Hu as [->|(p & o & w & Hp & Ho & Hw & Hu)]; [by eapply Hself|].
    destruct Hu' as [->|(p' & o' & w' & Hp' & Ho' & Hw' & Hu')]; [symmetry; apply (Hself l _ _ Hq' Hq); right; eauto 10|].
    pose proof (IH _ _ _ Hw Hw' Hu Hu') as E.
    destruct (word_slot q p l o w Hq Hp Ho) as [L1 E1], (word_slot q' p' l o' w' Hq' Hp' Ho') as [L2 E2].
    by pose proof (t_uniq _ _ _ _ _ T _ _ _ _ _ _ L1 L2 E1 E2 E ltac:(by eexists)) as [= -> _].
Qed.

Lemma under_extend level : forall q x p l (o : nat) w, under level q x -> C !! q = Some level -> C !! x = Some (S l) ->
  h !! x = Some p -> cp_words p !! o = Some w -> C !! pa_of w = Some l -> under level q (pa_of w).
Proof.
  induction level as [|k IH]; intros q x p l o w Hu Hq Hx Hp Ho Hw.
  - destruct Hu as [->|[]]. simplify_eq.
  - destruct Hu as [->|(p' & o' & w' & Hp' & Ho' & Hw' & Hu)].
    + simplify_eq. right. exists p, o, w. split_and!; try done. apply under_self.
    + right. exists p', o', w'. split_and!; try done. by eapply IH.
Qed.

Lemma levels_bounded : exists N, forall q l, C !! q = Some l -> (l <= N)%nat.
Proof.
  clear T. induction C as [|q l m Hq IH] using map_ind; [by exists 0%nat|].
  destruct IH as [N HN]. exists (N `max` l)%nat. intros x k. rewrite lookup_insert. case_decide; intros E; [injection E as <-; lia|].
  apply HN in E. lia.
Qed.

(** Every page of the tree is under the root. *)
Lemma all_under x : is_Some (C !! x) -> C !! pa_of r = Some ROOT_LEVEL /\ under ROOT_LEVEL (pa_of r) x.
Proof.
  destruct levels_bounded as [N HN]. intros [l Hx]. assert (exists d, d = (N - l)%nat) as [d Hd] by eauto.
  revert l x Hx Hd. induction d as [d IH] using lt_wf_ind. intros l x Hx ->.
  destruct (t_ref _ _ _ _ _ T x l Hx) as (sl & e & Hl & He & <-). destruct sl as [|q o].
  - injection Hl as <-. injection He as <-. split; [done|]. by left.
  - apply slot_level_table in Hl. pose proof (HN _ _ Hl). destruct (t_page _ _ _ _ _ T q _ Hl) as (_ & _ & p & Hp & _).
    simpl in He. rewrite Hp in He. simpl in He. destruct (o <? 0); [done|].
    destruct (IH (N - S l)%nat ltac:(lia) (S l) q Hl eq_refl) as [Hr Hu]. split; [done|]. by eapply under_extend.
Qed.

(** ** Freeing them *)

(** The pages under [q] are still what they were, and so are the zero pages. *)
Definition intact (l : nat) (q : Z) (s : pstore) : Prop :=
  (forall x, under l q x -> p_pages s !! x = h !! x) /\ zsame ZERO_PAGE h (p_pages s).

Definition frees (l : nat) (free : Z -> M pstore Z) : Prop := forall q s, C !! q = Some l -> intact l q s ->
  exists n s', free q s = (Ok n, s') /\ freed (under l q) s s'.

(** What lies under the entries [ws] of a table. *)
Definition under_entries (l : nat) (ws : list Z) (x : Z) : Prop :=
  exists o w, ws !! o = Some w /\ C !! pa_of w = Some l /\ under l (pa_of w) x.

Lemma under_not_zero l q x p : C !! q = Some l -> under l q x -> h !! x = Some p -> is_zero x p = false.
Proof.
  intros Hq Hu Hp. destruct (under_level _ _ _ Hq Hu) as (k & _ & Hk).
  destruct (t_page _ _ _ _ _ T _ _ Hk) as (_ & _ & p' & Hp' & Hz). by simplify_eq.
Qed.

Lemma zsame_freed l q s s' : C !! q = Some l -> zsame ZERO_PAGE h (p_pages s) -> freed (under l q) s s' ->
  zsame ZERO_PAGE h (p_pages s').
Proof.
  intros Hq Hz Hf x p Hp Hzp. rewrite (fr_kept _ _ _ Hf); [by apply Hz|]. intros Hu.
  by rewrite (under_not_zero _ _ _ _ Hq Hu Hp) in Hzp.
Qed.

Lemma free_children_ok l q p free : frees l free -> C !! q = Some (S l) -> h !! q = Some p ->
  forall ws k s, (forall (o : nat) w, ws !! o = Some w -> cp_words p !! (k + o)%nat = Some w) ->
  (forall x, under_entries l ws x -> p_pages s !! x = h !! x) -> zsame ZERO_PAGE h (p_pages s) ->
  exists n s', free_children F ZERO_PAGE free ws s = (Ok n, s') /\ freed (under_entries l ws) s s'.
Proof.
  intros Hfree Hq Hp. induction ws as [|w ws IH]; intros k s Hws Hin Hz; cbn [free_children].
  { exists 0, s. split; [done|]. apply freed_none. by intros x (o & w & ? & _). }
  pose proof (Hws 0%nat w eq_refl) as Hw. destruct (word_slot q p l _ w Hq Hp Hw) as [L1 E1].
  assert (Hnext : forall (o : nat) x, ws !! o = Some x -> cp_words p !! (S k + o)%nat = Some x).
  { intros o x Hx. replace (S k + o)%nat with (k + S o)%nat by lia. by apply Hws. }
  destruct (t_closed _ _ _ _ _ T _ _ _ L1 E1) as [H0 Hc].
  set (X := fun x => C !! pa_of w = Some l /\ under l (pa_of w) x).
  assert (Hall : forall x, under_entries l (w :: ws) x <-> X x \/ under_entries l ws x).
  { intros x. split; [intros ([|o] & y & Hy & ? & ?); [left; by simplify_eq/=|right; by exists o, y]|].
    intros [[? ?]|(o & y & ? & ? & ?)]; [by exists 0%nat, w|by exists (S o), y]. }
  assert (Hhead : exists n s1, (if sivfs_pxd_present F w then
      let child := pa_of w in let! p := load_page child in
      if is_zero child p then ret 0 else free child else ret 0) s = (Ok n, s1) /\ freed X s s1).
  { unfold sivfs_pxd_present. destruct (Z.eqb_spec (pa_of w) 0) as [E|Hne]; cbn [negb].
    { exists 0, s. split; [done|]. apply freed_none. intros x [HC _]. rewrite E in HC. by apply (t_page _ _ _ _ _ T) in HC as [? _]. }
    destruct Hc as [Hzt|HC].
    - assert (exists pz, h !! pa_of w = Some pz /\ is_zero (pa_of w) pz = true) as (pz & Hpz & Hzz).
      { destruct l; destruct Hzt as [?|(pz & ? & ? & _)]; try done; by exists pz. }
      exists 0, s. cbv zeta. rewrite (bind_step _ _ _ _ _ (load_page_ok _ _ _ (Hz _ _ Hpz Hzz))), Hzz. split; [done|].
      apply freed_none. intros x [HC _]. pose proof (under_not_zero _ _ _ _ HC (under_self l _) Hpz). congruence.
    - destruct (t_page _ _ _ _ _ T _ _ HC) as (_ & _ & pc & Hpc & Hzc).
      assert (Hi : intact l (pa_of w) s) by (split; [intros x Hx; apply Hin, Hall; by left|done]).
      destruct (Hfree _ _ HC Hi) as (n & s1 & Ef & Hf). exists n, s1. cbv zeta.
      assert (Hls : p_pages s !! pa_of w = Some pc) by (by rewrite (proj1 Hi _ (under_self l _))).
      rewrite (bind_step _ _ _ _ _ (load_page_ok _ _ _ Hls)), Hzc.
      split; [done|]. destruct Hf as [G K O Z']. split; try done; [by intros x [_ ?]; apply G|].
      intros x Hx. apply K. intros Hu. by apply Hx. }
  destruct Hhead as (n & s1 & E & Hf). rewrite (bind_step _ _ _ _ _ E).
  destruct (IH (S k) s1 Hnext) as (m & s2 & E2 & Hf2).
  - intros x Hx. rewrite (fr_kept _ _ _ Hf); [apply Hin, Hall; by right|]. intros [HC Hu].
    destruct Hx as (o & y & Hy & HCy & Huy). pose proof (under_unique _ _ _ _ HC HCy Hu Huy) as Ey.
    destruct (word_slot q p l _ y Hq Hp (Hnext _ _ Hy)) as [L2 E2].
    pose proof (t_uniq _ _ _ _ _ T _ _ _ _ _ _ L1 L2 E1 E2 Ey ltac:(by eexists)) as [= Ek]. lia.
  - intros x px Hpx Hzx. rewrite (fr_kept _ _ _ Hf); [by apply Hz|]. intros [HC Hu].
    by rewrite (under_not_zero _ _ _ _ HC Hu Hpx) in Hzx.
  - rewrite (bind_step _ _ _ _ _ E2). exists (n + m), s2. split; [done|]. by eapply freed_trans.
Qed.

Lemma root_free_ok level : frees level (fun q => __sivfs_checkpoint_root_free F ZERO_PAGE q level).
Proof.
  induction level as [|l IH]; intros q s Hq [Hin Hz]; destruct (t_page _ _ _ _ _ T _ _ Hq) as (Hq0 & _ & p & Hp & Hzp);
    assert (Hls : p_pages s !! q = Some p) by (by rewrite Hin by apply under_self);
    cbn [__sivfs_checkpoint_root_free]; rewrite (proj2 (Z.eqb_neq _ _) Hq0), (bind_step _ _ _ _ _ (load_page_ok _ _ _ Hls)), Hzp.
  - destruct (put_idle q p s Hls (Hidle _ _ Hp)) as (s' & E & Hf).
    rewrite (bind_step (ret 0) _ s 0 s eq_refl), (bind_step _ _ _ _ _ E). exists (0 + 1), s'. split; [done|].
    apply (freed_trans _ _ _ _ _ _ Hf (freed_none (fun _ => False) s' (fun _ H => H))). intros x. simpl. tauto.
  - set (free := fun child => match l with O => _ | S _ => _ end). assert (Hfree : frees l free).
    { unfold free. destruct l as [|l]; [|exact IH]. intros ch s0 Hc [Hi _]. destruct (t_page _ _ _ _ _ T _ _ Hc) as (_ & _ & pc & Hpc & _).
      destruct (put_idle ch pc s0) as (s' & E & Hf); [by rewrite Hi by apply under_self|by eapply Hidle|].
      exists 1, s'. rewrite (bind_step _ _ _ _ _ E). split; [done|].
      apply (freed_trans _ _ _ _ _ _ Hf (freed_none (fun _ => False) s' (fun _ H => H))). intros x. simpl. tauto. }
    assert (Hsub : forall x, under_entries l (cp_words p) x -> under (S l) q x).
    { intros x (o & w & Hw & HC & Hu). right. by exists p, o, w. }
    destruct (free_children_ok l q p free Hfree Hq Hp (cp_words p) 0 s) as (n & s1 & E1 & Hf1); [done|auto|done|].
    rewrite (bind_step _ _ _ _ _ E1).
    assert (Hnot : ~ under_entries l (cp_words p) q).
    { intros (o & w & Hw & HC & Hu). destruct (under_level _ _ _ HC Hu) as (k & ? & Hk). assert (k = S l) by congruence. lia. }
    destruct (put_idle q p s1) as (s2 & E2 & Hf2); [by rewrite (fr_kept _ _ _ Hf1)|by eapply Hidle|].
    rewrite (bind_step _ _ _ _ _ E2). exists (n + 1), s2. split; [done|]. apply (freed_trans _ _ _ _ _ _ Hf1 Hf2).
    intros x. split; [intros [->|(p' & o & w & Hp' & ?)]|intros [?| ->]]; [by right| |by apply Hsub|apply under_self].
    left. assert (p' = p) as -> by congruence. by exists o, w.
Qed.

(** The whole tree is freed, and nothing else. *)
Lemma tree_free_ok s : p_pages s = h -> pa_of r = r -> exists n s',
  _sivfs_checkpoint_root_free F ZERO_PAGE r s = (Ok n, s') /\ freed (fun q => is_Some (C !! q)) s s'.
Proof.
  intros Hs Er. destruct (t_closed _ _ _ _ _ T SRoot ROOT_LEVEL r eq_refl eq_refl) as [_ Hc]. rewrite Er in Hc. destruct Hc as [Hzt|HC].
  - assert (Hnone : forall q, ~ is_Some (C !! q)).
    { intros q Hq. destruct (all_under q Hq) as [HC _]. rewrite Er in HC. destruct (t_page _ _ _ _ _ T _ _ HC) as (Hr0 & _ & p & Hp & Hz).
      by rewrite (ztree_zero _ _ _ _ _ _ Hzt Hr0 Hp) in Hz. }
    exists 0, s. split; [|by apply freed_none]. unfold _sivfs_checkpoint_root_free. cbn [__sivfs_checkpoint_root_free Nat.sub SIVFS_CHECKPOINT_TOTAL_LEVELS].
    destruct (Z.eqb_spec r 0) as [|Hr0]; [done|]. destruct Hzt as [?|(p & Hp & Hz & _)]; [done|]. rewrite <- Hs in Hp.
    by rewrite (bind_step _ _ _ _ _ (load_page_ok _ _ _ Hp)), Hz.
  - destruct (root_free_ok ROOT_LEVEL r s HC) as (n & s' & E & Hf); [by split; [intros; rewrite Hs|intros x p ? _; rewrite Hs]|].
    exists n, s'. split; [exact E|]. apply (freed_trans _ _ _ _ _ _ Hf (freed_none (fun _ => False) s' (fun _ H => H))).
    intros q. split; [intros Hq; left; rewrite <- Er; by apply all_under|]. intros [Hu|[]].
    destruct (under_level _ _ _ HC Hu) as (k & _ & ?). by eexists.
Qed.
End tree_free.

(** ** Freeing what waits for the collector *)

Definition all_idle (c : cps) : Prop := forall q p, cpages c !! q = Some p -> idle p.

Definition names_page (E : Z -> Prop) (q : Z) : Prop := exists e, E e /\
  sivfs_gc_entry_to_type e = Ok SIVFS_GC_ENTRY_PAGE /\ sivfs_gc_entry_to_page e = q.
Definition names_inode (E : Z -> Prop) (j : Z) : Prop := exists e, E e /\
  sivfs_gc_entry_to_type e = Ok SIVFS_GC_ENTRY_INODE /\ sivfs_gc_entry_to_inode e = j.

(** [c'] is [c] without the objects of the entries [E]. *)
Record swept (E : Z -> Prop) (c c' : cps) : Prop := {
  sw_pages : freed (names_page E) (c_store c) (c_store c');
  sw_gone : forall j, names_inode E j -> c_inodes c' !! j = None;
  sw_kept : forall j, ~ names_inode E j -> c_inodes c' !! j = c_inodes c !! j;
  sw_old : forall j i, c_inodes c' !! j = Some i -> c_inodes c !! j = Some i;
  sw_rest : c_reverse c' = c_reverse c /\ c_obsoleted c' = c_obsoleted c
}.

Lemma swept_none E c : (forall e, ~ E e) -> swept E c c.
Proof.
  intros HE. split; try done; [apply freed_none|]; intros x (e & He & _); by destruct (HE e).
Qed.

Lemma swept_trans E1 E2 E c1 c2 c3 : swept E1 c1 c2 -> swept E2 c2 c3 -> (forall e, E e <-> E1 e \/ E2 e) -> swept E c1 c3.
Proof.
  intros [P1 G1 K1 O1 [R1 B1]] [P2 G2 K2 O2 [R2 B2]] HE. split.
  - apply (freed_trans _ _ _ _ _ _ P1 P2). intros q. unfold names_page. split.
    + intros (e & [?|?]%HE & ?); [left|right]; by exists e.
    + intros [(e & He & ?)|(e & He & ?)]; exists e; (split; [apply HE; auto|done]).
  - intros j (e & [He|He]%HE & Hj); [|apply G2; by exists e].
    destruct (c_inodes c3 !! j) as [i|] eqn:Ei; [|done]. apply O2 in Ei. by rewrite G1 in Ei by (by exists e).
  - intros j Hn. rewrite K2, K1; [done| |]; intros (e & He & Hj); apply Hn; exists e; (split; [apply HE; auto|done]).
  - auto.
  - by rewrite R2, R1, B2, B1.
Qed.

Lemma swept_idle E c c' : swept E c c' -> all_idle c -> all_idle c'.
Proof. intros S Hi q p Hq. apply (Hi q p). by apply (fr_old _ _ _ (sw_pages _ _ _ S)). Qed.

(** Entries that were not freed still name a live object. *)
Lemma swept_live E c c' e : swept E c c' -> (forall x, E x -> is_u64 x) -> ~ E e -> entry_live c e -> entry_live c' e.
Proof.
  intros S HE Hn [Hu [(Ht & p & Hp & Hz)|[Ht Hi]]]; (split; [done|]).
  - left. split; [done|]. exists p. split; [|done]. rewrite (fr_kept _ _ _ (sw_pages _ _ _ S)); [done|].
    intros (x & Hx & Htx & Hax). apply Hn. by rewrite (entry_eq e x SIVFS_GC_ENTRY_PAGE Hu (HE _ Hx) Ht Htx).
  - right. split; [done|]. rewrite (sw_kept _ _ _ S); [done|].
    intros (x & Hx & Htx & Hax). apply Hn. by rewrite (entry_eq e x SIVFS_GC_ENTRY_INODE Hu (HE _ Hx) Ht Htx).
Qed.

Lemma free_uncounted_ok e c : entry_live c e -> all_idle c -> exists c', free_uncounted e c = (Ok tt, c') /\
  swept (fun x => x = e) c c' /\ c_blocked c' = c_blocked c.
Proof.
  intros [_ [(Ht & p & Hp & _)|(Ht & i & Hi)]] Hid; unfold free_uncounted, sivfs_gc_free_entry; rewrite Ht.
  - change (SIVFS_GC_ENTRY_PAGE =? SIVFS_GC_ENTRY_PAGE) with true. cbv iota. cbn [g_cps].
    destruct (put_idle _ p _ Hp (Hid _ _ Hp)) as (s' & -> & [G K O Z']). eexists. split; [reflexivity|]. split; [|done].
    split; try done; [|intros j (x & -> & Ht' & _); by rewrite Ht in Ht'].
    split; try done; [intros q (x & -> & _ & <-); by apply G|]. intros q Hn. apply K. intros ->. apply Hn. by exists e.
  - change (SIVFS_GC_ENTRY_INODE =? SIVFS_GC_ENTRY_PAGE) with false. cbv iota. cbn [g_cps].
    eexists. split; [reflexivity|]. split; [|done]. split; try done; cbn [c_inodes set_inodes g_cps].
    + apply freed_none. intros q (x & -> & Ht' & _). by rewrite Ht in Ht'.
    + intros j (x & -> & _ & <-). apply lookup_delete_eq.
    + intros j Hn. apply lookup_delete_ne. intros <-. apply Hn. by exists e.
    + by intros j x [_ ?]%lookup_delete_Some.
Qed.

Lemma free_entries_ok es : forall c, NoDup es -> (forall e, e ∈ es -> entry_live c e) -> all_idle c -> exists c',
  free_entries es c = (Ok tt, c') /\ swept (fun e => e ∈ es) c c' /\ c_blocked c' = c_blocked c.
Proof.
  induction es as [|e es IH]; intros c Hnd Hl Hid; cbn [free_entries].
  { exists c. split; [done|]. split; [|done]. apply swept_none. apply not_elem_of_nil. }
  apply NoDup_cons in Hnd as [Hne Hnd]. assert (He : entry_live c e) by (apply Hl; left).
  destruct (free_uncounted_ok e c He Hid) as (c1 & E & S & Eb). rewrite (bind_step _ _ _ _ _ E).
  destruct (IH c1 Hnd) as (c2 & E2 & S2 & Eb2); [|by eapply swept_idle|].
  - intros x Hx. apply (swept_live _ _ _ _ S); [by intros y ->; apply He|by intros ->|apply Hl; by right].
  - exists c2. split; [done|]. split; [|by rewrite Eb2]. apply (swept_trans _ _ _ _ _ _ S S2). intros x. apply elem_of_cons.
Qed.

(** A batch of slots: the elements of the stacks, one after the other. *)
Lemma free_slots_flat ks : forall c, (forall k, k ∈ ks -> is_Some (c_blocked c !! k)) -> NoDup (ks ≫= grp c) ->
  (forall k e, k ∈ ks -> e ∈ grp c k -> entry_live c e) -> all_idle c -> exists c',
  free_slots ks c = (Ok tt, c') /\ swept (fun e => e ∈ ks ≫= grp c) c c' /\ c_blocked c' = c_blocked c.
Proof.
  induction ks as [|k ks IH]; intros c Hin Hnd Hl Hid; cbn [free_slots].
  { exists c. split; [done|]. split; [|done]. apply swept_none. apply not_elem_of_nil. }
  destruct (Hin k ltac:(left)) as [st Hst]. assert (Eg : grp c k = elems st) by (unfold grp; by rewrite Hst).
  cbn in Hnd. rewrite Eg in Hnd. apply NoDup_app in Hnd as (Hnd1 & Hdis & Hnd2).
  rewrite (bind_step (fun c => _) _ c st c) by (by rewrite Hst).
  destruct (free_entries_ok (elems st) c Hnd1) as (c1 & E & S & Eb); [|done|].
  { intros e He. apply (Hl k); [left|by rewrite Eg]. }
  rewrite (bind_step _ _ _ _ _ E). assert (Egr : forall j, grp c1 j = grp c j) by (intros j; unfold grp; by rewrite Eb).
  assert (Ebd : ks ≫= grp c1 = ks ≫= grp c) by (by apply list_bind_ext).
  destruct (IH c1) as (c2 & E2 & S2 & Eb2).
  - intros j Hj. rewrite Eb. apply Hin. by right.
  - by rewrite Ebd.
  - intros j e Hj He. rewrite Egr in He. apply (swept_live _ _ _ _ S).
    + intros x Hx. apply (Hl k); [left|by rewrite Eg].
    + intros Hx. apply (Hdis e Hx). apply list_elem_of_bind. by exists j.
    + apply (Hl j); [by right|done].
  - by eapply swept_idle.
  - exists c2. split; [done|]. split; [|by rewrite Eb2]. apply (swept_trans _ _ _ _ _ _ S S2). intros e. cbn. rewrite Eg, Ebd. apply elem_of_app.
Qed.

(** ** All groups, sixteen at a time *)

Definition in_groups (c : cps) (e : Z) : Prop := exists k, e ∈ grp c k.

Record groups_ready (c : cps) : Prop := {
  gr_nodup : forall k, NoDup (grp c k);
  gr_disjoint : forall k k' e, e ∈ grp c k -> e ∈ grp c k' -> k = k';
  gr_live : forall e, in_groups c e -> entry_live c e
}.

Lemma lookup_delete_all {A} (ks : list Z) : forall (m : gmap Z A) j,
  foldl (fun t i => delete i t) m ks !! j = if decide (j ∈ ks) then None else m !! j.
Proof.
  induction ks as [|k ks IH]; intros m j; cbn [foldl]; [done|]. rewrite IH. destruct (decide (j ∈ ks)).
  - rewrite decide_True by (by right). done.
  - rewrite lookup_delete. case_decide as E; [subst; by rewrite decide_True by left|].
    rewrite decide_False; [done|]. intros [?|?]%elem_of_cons; congruence.
Qed.

Lemma delete_all_shrinks {A} k (ks : list Z) (m : gmap Z A) : is_Some (m !! k) ->
  (size (foldl (fun t i => delete i t) m (k :: ks)) < size m)%nat.
Proof.
  intros [x Hk]. apply map_subset_size. split.
  - apply map_subseteq_spec. intros j y Hj. rewrite lookup_delete_all in Hj. by case_decide.
  - rewrite map_subseteq_spec. intros Hs. specialize (Hs k x Hk). rewrite lookup_delete_all in Hs.
    by rewrite decide_True in Hs by left.
Qed.

Lemma groups_nodup c ks : groups_ready c -> NoDup ks -> NoDup (ks ≫= grp c).
Proof.
  intros G. induction ks as [|k ks IH]; intros Hk; [constructor|]. apply NoDup_cons in Hk as [Hn Hk]. cbn. apply NoDup_app.
  split; [apply G|]. split; [|by apply IH]. intros e He (j & Hj & Hin)%list_elem_of_bind.
  by rewrite (gr_disjoint _ G k j e He Hj) in Hn.
Qed.

Lemma destroy_blocked_ok fuel : forall c, (size (c_blocked c) < fuel)%nat -> groups_ready c -> all_idle c -> exists c',
  destroy_blocked fuel c = (Ok tt, c') /\ swept (in_groups c) c c' /\ c_blocked c' = ∅.
Proof.
  induction fuel as [|fuel IH]; intros c Hsz G Hid; [lia|]. cbn [destroy_blocked].
  rewrite (bind_step (gets group_keys) _ c _ c eq_refl). cbv zeta. destruct (group_keys_ok c) as [Hkn Hkeys].
  set (ks := take DESTROY_BATCH (group_keys c)).
  assert (Hks : forall k, k ∈ ks -> is_Some (c_blocked c !! k)) by (intros k Hk; apply Hkeys; by apply elem_of_take in Hk as (i & ? & _); apply list_elem_of_lookup; exists i).
  assert (Hnd : NoDup ks) by (eapply sublist_NoDup; [exact Hkn|apply sublist_take]).
  destruct (free_slots_flat ks c Hks (groups_nodup c ks G Hnd)) as (c1 & E & S & Eb); [|done|].
  { intros k e _ He. apply G. by exists k. }
  rewrite (bind_step _ _ _ _ _ E). set (c2 := set_blocked (foldl (fun t i => delete i t) (c_blocked c1) ks) c1).
  rewrite (bind_step (modify (fun c => set_blocked (foldl (fun t i => delete i t) (c_blocked c) ks) c)) _ c1 tt c2 eq_refl).
  assert (Eg : forall k, grp c2 k = if decide (k ∈ ks) then [] else grp c k).
  { intros k. unfold grp, c2. cbn [c_blocked set_blocked]. rewrite lookup_delete_all, Eb. by case_decide. }
  assert (S2 : swept (fun e => e ∈ ks ≫= grp c) c c2) by (by destruct S).
  destruct ks as [|k ks'] eqn:Eks.
  - exists c2. split; [done|]. assert (Hno : forall k, c_blocked c !! k = None).
    { intros k. destruct (c_blocked c !! k) eqn:Ek; [|done]. assert (Hin : k ∈ group_keys c) by (apply Hkeys; by eexists).
      destruct (group_keys c); [by apply not_elem_of_nil in Hin|done]. }
    split; [|apply map_empty; intros k; cbn; by rewrite Eb].
    apply (swept_trans _ _ _ _ _ _ S2 (swept_none (fun _ => False) c2 (fun _ H => H))). intros e. split; [|intros [He|[]]; by apply not_elem_of_nil in He].
    intros (k & He). unfold grp in He. rewrite Hno in He. by apply not_elem_of_nil in He.
  - rewrite <- Eks in *. destruct (IH c2) as (c3 & E3 & S3 & Eb3).
    + pose proof (delete_all_shrinks k ks' (c_blocked c) (Hks k ltac:(rewrite Eks; left))). rewrite <- Eks in H.
      unfold c2. cbn [c_blocked set_blocked]. rewrite Eb, <- Eks. lia.
    + split.
      * intros j. rewrite Eg. case_decide; [constructor|apply G].
      * intros j j' e. rewrite !Eg. do 2 (case_decide; [by intros ?%not_elem_of_nil || by intros _ ?%not_elem_of_nil|]). apply G.
      * intros e (j & He). rewrite Eg in He. case_decide as Hj; [by apply not_elem_of_nil in He|].
        apply (swept_live _ _ _ _ S2); [| |apply G; by exists j].
        -- intros x (i & Hx & _)%list_elem_of_bind. apply (gr_live _ G). by exists i.
        -- intros (i & Hx & Hi)%list_elem_of_bind. by rewrite (gr_disjoint _ G j i e He Hx) in Hj.
    + by eapply swept_idle.
    + exists c3. split; [exact E3|]. split; [|done]. apply (swept_trans _ _ _ _ _ _ S2 S3). intros e. split.
      * intros (j & He). destruct (decide (j ∈ ks)) as [Hj|Hj]; [left; apply list_elem_of_bind; by exists j|].
        right. exists j. by rewrite Eg, decide_False.
      * intros [(j & He & _)%list_elem_of_bind|(j & He)]; exists j; [done|]. rewrite Eg in He. case_decide; [by apply not_elem_of_nil in He|done].
Qed.

(** ** The zero pages stay what they are *)

Section zero_pool.
Context (F : pt_flags) (ZERO_PAGE : Z) `{HF : !PtFlagsOk F}.

Definition store_of (P : pstore -> Prop) (c : cps) : Prop := P (c_store c).

Lemma insert_store P signal mem ino : keeps (store_of P) (_sivfs_checkpoints_insert signal mem ino).
Proof.
  unfold _sivfs_checkpoints_insert. destruct (_ =? _); [by intros x ?|]. apply keeps_bind; [by intros x ?|intros j].
  destruct signal; [by intros x ?|]. intros x Hx. unfold on_reverse. by destruct (radix_tree_insert _ _ _ _).
Qed.

Lemma first_checkpoint_store alloc signal mem c0 c : first_checkpoint F ZERO_PAGE alloc signal mem c0 = (Ok tt, c) ->
  sivfs_get_zero_checkpoint_pages F ZERO_PAGE (c_store c0) = (Ok tt, c_store c).
Proof.
  intros E. unfold first_checkpoint in E. apply bind_Ok in E as ([] & c1 & E1 & E). unfold sivfs_init_checkpoints in E1.
  rewrite (bind_step (modify (fun c => mk_cps 0 0 0 ∅ (c_inodes c) zero_stack ∅ (c_store c) (c_ncheckpoints c) (c_ncheckpoint_txns c))) _ c0 tt _ eq_refl) in E1.
  cbn [c_store] in E1. destruct (sivfs_get_zero_checkpoint_pages F ZERO_PAGE (c_store c0)) as [r s]. injection E1 as -> <-.
  set (P := fun x : pstore => x = s). enough (H : store_of P c) by (by rewrite H).
  match type of E with ?m ?x = _ => enough (Hk : keeps (store_of P) m) by (specialize (Hk x eq_refl); by rewrite E in Hk) end.
  apply keeps_bind; [destruct alloc; by intros x ?|intros ino]. apply keeps_bind; [by intros x ?|intros i].
  apply keeps_bind; [by intros x ?|intros _]. apply keeps_on_error; [|by intros x ?].
  apply keeps_bind; [apply insert_store|intros _]. apply keeps_bind; [by intros x ?|intros j]. by intros x ?.
Qed.

Lemma build_quiet ev st prior ino ts n z : keeps (store_of (quiet F z 0)) (build_checkpoint F ZERO_PAGE ev st prior ino ts n).
Proof.
  unfold build_checkpoint. apply keeps_bind; [|intros _].
  - intros x Hx. unfold on_root. destruct (c_inodes x !! ino) as [i|]; [|done].
    pose proof (replay_keeps F ZERO_PAGE _ (on_obsolete_page_stack_records (ev_push ev)) z st ts n (ci_root i, c_store x) Hx) as Hq.
    destruct (_sivfs_make_checkpoint _ _ _ _ _ _ _) as [r [root s]]. exact Hq.
  - apply keeps_bind; [apply insert_store|intros _].
    apply keeps_on_error; [|apply keeps_bind; [by intros x ?|intros j]; by intros x ?].
    apply keeps_bind; [apply keeps_bind; [by intros x ?|intros j]; by intros x ?|intros _]. apply keeps_bind; [by intros x ?|intros o].
    intros x Hx. unfold on_entries. by destruct (sivfs_gc_mark_pages_obsoleted _ _ _ _).
Qed.

Lemma make_quiet ev st n z : keeps (store_of (quiet F z 0)) (sivfs_make_checkpoint F ZERO_PAGE ev st n).
Proof.
  assert (Hset : keeps (store_of (quiet F z 0)) put_obsoleted_pages).
  { intros c (Hz & Hs & Hw & Hr). split; [done|]. split; [done|]. split; [apply zero_stack_wf|]. destruct Hw as [[? _] _ _]. cbn in *. lia. }
  intros c Hc. unfold sivfs_make_checkpoint, throttle.
  match goal with |- store_of _ (match ?m c with _ => _ end).2 => enough (Hk : keeps (store_of (quiet F z 0)) m) end.
  { specialize (Hk c Hc). by destruct (_ c) as [[| [] | |] c']. }
  destruct (negb (ev_state ev)); [by intros x ?|].
  do 2 (apply keeps_bind; [by intros x ?|intros ?]). destruct (_ =? _); [by intros x ?|]. cbv zeta.
  destruct (_ =? 0); [by intros x ?|]. apply keeps_bind; [by intros x ?|intros i]. destruct (negb _); [by intros x ?|].
  apply keeps_bind; [|intros _].
  { unfold new_obsoleted_pages, sivfs_new_stack. destruct (ev_kz ev); [exact Hset|by intros x ?]. }
  apply keeps_bind; [|intros ino].
  - apply keeps_on_error; [|exact Hset]. apply keeps_bind; [destruct (ev_inode ev); by intros x ?|intros ino].
    apply keeps_bind; [apply keeps_bind; by intros x ?|intros _]. apply keeps_bind; [|by intros _ x ?].
    apply keeps_on_error; [apply build_quiet|by intros x ?].
  - apply keeps_bind; [apply keeps_bind; [by intros x ?|intros j]; by intros x ?|intros _].
    apply keeps_bind; [by intros x ?|intros _]. apply keeps_bind; [exact Hset|by intros _ x ?].
Qed.

(** In every reachable state the zero pages are different from each other. *)
Lemma pool_distinct L x : reachable (snap_init F ZERO_PAGE L) (snap_step F ZERO_PAGE L) x ->
  (exists C, live F ZERO_PAGE L x.1 x.2 C) /\ NoDup (p_zero_pxd (c_store x.1)).
Proof.
  revert x. apply (invariant_reachable _ _ (fun x => (exists C, live F ZERO_PAGE L x.1 x.2 C) /\ NoDup (p_zero_pxd (c_store x.1)))).
  - intros [c H] Hi. split; [by apply init_live|]. destruct Hi as (c0 & ino & signal & mem & Hst & Hscr & _ & _ & _ & E & _).
    apply first_checkpoint_store in E. destruct (get_zero_untouched F ZERO_PAGE _ _ Hst Hscr E) as (Hz & _ & _ & _ & Hd).
    destruct Hz as (_ & _ & _ & _ & Hlen & _). apply NoDup_alt. intros i j z Hiz Hjz.
    apply (Hd i j z); try done; rewrite <- Hlen; by eapply lookup_lt_Some.
  - intros s s' [[C Hl] Hn] Hs. split; [apply (live_step F ZERO_PAGE L s s'); [by exists C|done]|].
    set (z := p_zero_pxd (c_store s.1)) in *. destruct Hs as [ev st lo n l c H Hv Hlo Hts Hok Hino Hsf Hll Hm|ev vs versions g H Hvs Hh| |]; try done;
      cbn [fst] in *; match goal with |- NoDup (p_zero_pxd ?s') => enough (Hq : quiet F z 0 s') by (by rewrite (proj1 Hq)) end.
    + apply make_quiet. pose proof (offer_live F ZERO_PAGE L l c H C Hl Hsf Hll) as [[[Hz _]] _ _ _ _ _ _ _].
      by apply (zero_ready_quiet F ZERO_PAGE) in Hz.
    + apply (gc_store (quiet F z 0) (put_page_keeps F z 0)). destruct Hl as [[[Hz _]] _ _ _ _ _ _ _]. by apply (zero_ready_quiet F ZERO_PAGE) in Hz.
Qed.
End zero_pool.

(** The pages that the pool allocated: all but ZERO_PAGE(0). *)
Definition pool_from (level k : nat) (z : list Z) (q : Z) : Prop := q <> 0 /\ exists i, (level <= i < level + k)%nat /\ z !! i = Some q.
Definition pool_page (z : list Z) : Z -> Prop := pool_from 1 3 z.

(** Each entry of the pool from [level] on is NULL or an idle page of its own. *)
Definition pool_ok (level k : nat) (s : pstore) : Prop :=
  (forall i, (level <= i < level + k)%nat -> exists q, p_zero_pxd s !! i = Some q /\ (q = 0 \/ exists p, p_pages s !! q = Some p /\ idle p)) /\
  forall i j q, (level <= i < level + k)%nat -> (level <= j < level + k)%nat -> q <> 0 ->
    p_zero_pxd s !! i = Some q -> p_zero_pxd s !! j = Some q -> i = j.

Lemma destroy_zero_ok k : forall level s, pool_ok level k s ->
  exists s', destroy_zero_loop level k s = (Ok tt, s') /\ freed (pool_from level k (p_zero_pxd s)) s s'.
Proof.
  induction k as [|k IH]; intros level s [Hin Hd]; cbn [destroy_zero_loop].
  { exists s. split; [done|]. apply freed_none. intros q (_ & i & ? & _). lia. }
  destruct (Hin level ltac:(lia)) as (q & Hq & Hp).
  assert (Hstep : exists s1, (if q =? 0 then ret tt else sivfs_put_checkpoint_page q) s = (Ok tt, s1) /\ freed (fun x => x = q /\ q <> 0) s s1).
  { destruct (Z.eqb_spec q 0) as [->|Hq0]; [exists s; split; [done|]; apply freed_none; tauto|].
    destruct Hp as [?|(p & Hp & Hid)]; [done|]. destruct (put_idle q p s Hp Hid) as (s1 & E & Hf). exists s1. split; [done|].
    apply (freed_trans _ _ _ _ _ _ Hf (freed_none (fun _ => False) s1 (fun _ H => H))). tauto. }
  destruct Hstep as (s1 & E & Hf). rewrite (bind_step (gets _) _ s q s) by (unfold gets; by rewrite Hq). rewrite (bind_step _ _ _ _ _ E).
  destruct (fr_zero _ _ _ Hf) as [Ez _]. destruct (IH (S level) s1) as (s2 & E2 & Hf2).
  - split; rewrite Ez; [|intros i j x ? ?; apply Hd; lia].
    intros i Hi. destruct (Hin i ltac:(lia)) as (q' & Hq' & Hp'). exists q'. split; [done|]. destruct Hp' as [?|(p' & Hp' & ?)]; [by left|right].
    exists p'. split; [|done]. rewrite (fr_kept _ _ _ Hf); [done|]. intros [-> Hq0]. pose proof (Hd level i q ltac:(lia) ltac:(lia) Hq0 Hq Hq'). lia.
  - exists s2. split; [done|]. apply (freed_trans _ _ _ _ _ _ Hf Hf2). rewrite Ez. intros x. split.
    + intros (Hx0 & i & Hi & Hx). destruct (decide (i = level)) as [->|]; [left; assert (x = q) as -> by congruence; done|].
      right. split; [done|]. exists i. split; [lia|done].
    + intros [[-> ?]|(? & i & Hi & Hx)]; (split; [done|]); [by exists level; split; [lia|]|exists i; split; [lia|done]].
Qed.

Lemma put_zero_ok s : pool_ok 1 3 s -> exists s', sivfs_put_zero_checkpoint_pages s = (Ok tt, s') /\
    (forall q, p_zero_refs s = 1 /\ pool_page (p_zero_pxd s) q -> p_pages s' !! q = None) /\
    (forall q, ~ (p_zero_refs s = 1 /\ pool_page (p_zero_pxd s) q) -> p_pages s' !! q = p_pages s !! q) /\
    p_zero_pxd s' = p_zero_pxd s /\ (0 < p_zero_refs s -> p_zero_refs s' = p_zero_refs s - 1).
Proof.
  intros Hin. unfold sivfs_put_zero_checkpoint_pages. rewrite (bind_step (gets p_zero_refs) _ s _ s eq_refl).
  destruct (Z.leb_spec (p_zero_refs s) 0). { exists s. split; [done|]. split; [intros q [? _]; lia|]. split; [done|]. split; [done|lia]. }
  rewrite (bind_step (modify (set_zero_refs (p_zero_refs s - 1))) _ s tt _ eq_refl). set (s1 := set_zero_refs _ s).
  destruct (Z.eqb_spec (p_zero_refs s - 1) 0).
  - destruct (destroy_zero_ok 3 1 s1 Hin) as (s2 & E & Hf). exists s2. split; [exact E|].
    split; [intros q [_ Hq]; by apply (fr_gone _ _ _ Hf)|]. split; [|by destruct (fr_zero _ _ _ Hf) as [-> ->]].
    intros q Hq. apply (fr_kept _ _ _ Hf). intros Hp. apply Hq. split; [lia|done].
  - exists s1. split; [done|]. split; [intros q [? _]; lia|done].
Qed.

(** ** The whole of it *)

(** The pages that unmounting frees: the latest tree, what waits for the
    collector, and the zero pages with their last user. *)
Definition released (c : cps) (C : gmap Z nat) (q : Z) : Prop :=
  is_Some (C !! q) \/ names_page (listed c) q \/ (p_zero_refs (c_store c) = 1 /\ pool_page (p_zero_pxd (c_store c)) q).

(** What unmounting does to [c]. *)
Definition destroyed (c : cps) (C : gmap Z nat) (o : res unit * cps) : Prop :=
  fst o = Ok tt /\
  (forall q, released c C q -> cpages o.2 !! q = None) /\
  (forall q, ~ released c C q -> cpages o.2 !! q = cpages c !! q) /\
  (forall j, j = c_latest c \/ names_inode (listed c) j -> c_inodes o.2 !! j = None) /\
  (forall j, ~ (j = c_latest c \/ names_inode (listed c) j) -> c_inodes o.2 !! j = c_inodes c !! j) /\
  c_reverse o.2 = ∅ /\ c_blocked o.2 = ∅ /\ elems (c_obsoleted o.2) = [].

Section teardown.
Context (F : pt_flags) (ZERO_PAGE : Z) `{HF : !PtFlagsOk F} (L : list Z) (c : cps) (H : list holding) (C : gmap Z nat) (i : cp_inode).
Context (Hlv : live F ZERO_PAGE L c H C) (Hi : c_inodes c !! c_latest c = Some i) (Hidle : all_idle c).

(** The latest checkpoint goes, with its tree. *)
Record latest_freed (c1 : cps) : Prop := {
  lf_pages : freed (fun q => is_Some (C !! q)) (c_store c) (c_store c1);
  lf_gone : c_inodes c1 !! c_latest c = None;
  lf_inodes : forall j, j <> c_latest c -> c_inodes c1 !! j = c_inodes c !! j;
  lf_rest : c_blocked c1 = c_blocked c /\ c_obsoleted c1 = c_obsoleted c
}.

Lemma the_tree : tree F ZERO_PAGE (ci_root i) (cpages c) C.
Proof. destruct (lv_tree _ _ _ _ _ _ Hlv) as (x & Hx & T). by assert (x = i) as -> by congruence. Qed.

Lemma destroy_latest_ok : exists c1, destroy_latest F ZERO_PAGE c = (Ok tt, c1) /\ latest_freed c1.
Proof.
  destruct (inv_inode _ _ _ (lv_cps _ _ _ _ _ _ Hlv)) as (x & Hx & _ & Hwf). assert (x = i) as -> by congruence.
  unfold destroy_latest. rewrite (bind_step (gets c_latest) _ c _ c eq_refl), (proj2 (Z.eqb_neq _ _) (inv_latest _ _ _ (lv_cps _ _ _ _ _ _ Hlv))).
  rewrite (bind_step _ _ _ _ _ (load_ok _ _ _ Hi)).
  destruct (tree_free_ok F ZERO_PAGE (ci_root i) (cpages c) C the_tree Hidle (c_store c) eq_refl (pa_of_root F ZERO_PAGE _ _ _ Hwf)) as (n & s & E & Hf).
  rewrite (bind_step (on_cp_store _) _ c n (set_store s c)) by (unfold on_cp_store; by rewrite E).
  eexists. split; [reflexivity|]. split; try done; cbn [c_inodes set_inodes set_store].
  - apply lookup_delete_eq.
  - intros j Hj. by apply lookup_delete_ne.
Qed.

(** The collector's entries name other objects. *)
Lemma latest_freed_live c1 e : latest_freed c1 -> listed c e -> entry_live c1 e.
Proof.
  intros [Hf _ Hin _] He. apply (lifetime_same F ZERO_PAGE L c H C Hlv c1 e (lv_gc _ _ _ _ _ _ Hlv) He).
  - intros q p HC Hq. rewrite (fr_kept _ _ _ Hf); [done|]. rewrite HC. by intros [].
  - intros j x Hj Hx. by rewrite Hin.
Qed.

Lemma destroy_reverse_ok c1 : destroy_reverse c1 = (Ok tt, set_reverse ∅ c1).
Proof.
  unfold destroy_reverse. destruct (batch_clear_ok 15 (S (length (radix_tree_items (c_reverse c1)))) (c_reverse c1)) as (t & E & Ht); [lia|].
  change DESTROY_BATCH with 16%nat. rewrite E. f_equal. f_equal. by apply map_empty.
Qed.

(** Then everything that was listed. *)
Lemma destroy_listed_ok c1 : latest_freed c1 -> exists c2 c3,
  destroy_blocked (S (size (c_blocked c1))) (set_reverse ∅ c1) = (Ok tt, c2) /\
  free_entries (elems (c_obsoleted c2)) c2 = (Ok tt, c3) /\
  swept (listed c) (set_reverse ∅ c1) c3 /\ c_blocked c3 = ∅.
Proof.
  intros Hf. assert (Hf' := Hf). destruct Hf' as [Hp _ _ [Eb Eo]]. set (c0 := set_reverse ∅ c1). pose proof (lv_gc _ _ _ _ _ _ Hlv) as Hgc.
  assert (Eg : forall k, grp c0 k = grp c k) by (intros k; unfold grp, c0; cbn; by rewrite Eb).
  assert (Hgr : forall e, in_groups c0 e -> listed c e) by (intros e (k & Hk); right; exists k; by rewrite <- Eg).
  assert (G : groups_ready c0).
  { split; [intros k; rewrite Eg; apply Hgc|intros k k' e; rewrite !Eg; apply Hgc|]. intros e He. exact (latest_freed_live c1 e Hf (Hgr e He)). }
  assert (Hid : all_idle c0) by (intros q p Hq; apply (Hidle q p); by apply (fr_old _ _ _ Hp)).
  destruct (destroy_blocked_ok (S (size (c_blocked c1))) c0 ltac:(cbn; lia) G Hid) as (c2 & E2 & S2 & Eb2).
  assert (Eo2 : c_obsoleted c2 = c_obsoleted c) by (rewrite (proj2 (sw_rest _ _ _ S2)); exact Eo).
  destruct (free_entries_ok (elems (c_obsoleted c2)) c2) as (c3 & E3 & S3 & Eb3).
  - rewrite Eo2. apply Hgc.
  - intros e He. rewrite Eo2 in He. apply (swept_live _ _ _ _ S2); [intros x Hx; apply (gr_live _ G x Hx)| |].
    + intros (k & Hk). rewrite Eg in Hk. by apply (gi_obs_disjoint _ _ Hgc k e).
    + apply (latest_freed_live c1 e Hf). by left.
  - by eapply swept_idle.
  - exists c2, c3. split; [done|]. split; [done|]. split; [|by rewrite Eb3]. apply (swept_trans _ _ _ _ _ _ S2 S3).
    intros e. rewrite Eo2. split; [intros [?|(k & Hk)]; [by right|left; exists k; by rewrite Eg]|intros [He|?]; [by apply Hgr|by left]].
Qed.

(** A zero page is neither in the tree nor listed. *)
Lemma zero_page_left q p : cpages c !! q = Some p -> sivfs_is_zero_page ZERO_PAGE q p = true ->
  ~ is_Some (C !! q) /\ ~ names_page (listed c) q.
Proof.
  intros Hp Hz. split.
  - intros [l HC]. destruct (t_page _ _ _ _ _ the_tree _ _ HC) as (_ & _ & x & Hx & Hzx). congruence.
  - intros (e & He & Ht & <-). destruct (gi_live _ _ (lv_gc _ _ _ _ _ _ Hlv) e He) as [_ [(_ & x & Hx & Hzx)|[Ht' _]]]; [|by rewrite Ht in Ht'].
    assert (x = p) as -> by congruence. unfold sivfs_is_zero_page in Hz. rewrite Hzx, orb_false_r in Hz. apply Z.eqb_eq in Hz.
    destruct (lv_zero_page _ _ _ _ _ _ Hlv) as (zp & Hzp & Hzt). rewrite Hz in Hp. congruence.
Qed.

(** The zero pages are there. *)
Lemma pool_live l : (l < 4)%nat -> exists q p, p_zero_pxd (c_store c) !! l = Some q /\ cpages c !! q = Some p /\ sivfs_is_zero_page ZERO_PAGE q p = true.
Proof.
  intros Hl. destruct (zpool_ready F ZERO_PAGE _ (proj1 (inv_ready _ _ _ (lv_cps _ _ _ _ _ _ Hlv)))) as [_ Hpool].
  destruct (Hpool l Hl) as (q & Hq & Hq0 & _ & Hzt). destruct l; destruct Hzt as [?|(p & ? & ? & _)]; try done; by exists q, p.
Qed.

Lemma destroy_ok : NoDup (p_zero_pxd (c_store c)) -> destroyed c C (sivfs_destroy_checkpoints F ZERO_PAGE c).
Proof.
  intros Hnd. destruct destroy_latest_ok as (c1 & E1 & Hf).
  destruct (destroy_listed_ok c1 Hf) as (c2 & c3 & E2 & E3 & S & Eb).
  set (c4 := set_obsoleted_entries zero_stack c3). destruct Hf as [Hp Hig Hin [Eb1 Eo1]]. destruct S as [P3 G3 K3 O3 [Er3 _]].
  destruct (fr_zero _ _ _ Hp) as [Z1 R1], (fr_zero _ _ _ P3) as [Z3 R3]. cbn [c_store set_reverse] in Z3, R3. rewrite Z1 in Z3. rewrite R1 in R3.
  assert (Hk : forall q, ~ is_Some (C !! q) -> ~ names_page (listed c) q -> cpages c3 !! q = cpages c !! q).
  { intros q H1 H2. rewrite (fr_kept _ _ _ P3 q H2). apply (fr_kept _ _ _ Hp q H1). }
  destruct (put_zero_ok (c_store c4)) as (s' & E4 & Hg & Hkz & _); cbn [c4 c_store set_obsoleted_entries] in *; rewrite ?Z3, ?R3 in *.
  { split; rewrite Z3; [|intros l l' q _ _ _; by apply (proj1 (NoDup_alt _) Hnd)]. intros l Hl. destruct (pool_live l ltac:(lia)) as (q & p & Hq & Hpq & Hz).
    destruct (zero_page_left q p Hpq Hz). exists q. split; [done|]. right. exists p. split; [by rewrite Hk|by apply (Hidle q)]. }
  assert (E : sivfs_destroy_checkpoints F ZERO_PAGE c = (Ok tt, set_store s' c4)).
  { unfold sivfs_destroy_checkpoints. rewrite (bind_step _ _ _ _ _ E1), (bind_step _ _ _ _ _ (destroy_reverse_ok c1)).
    rewrite (bind_step (fun c => destroy_blocked (S (size (c_blocked c))) c) _ (set_reverse ∅ c1) tt c2) by exact E2.
    rewrite (bind_step (fun c => free_entries (elems (c_obsoleted c)) c) _ c2 tt c3) by exact E3.
    rewrite (bind_step (modify (set_obsoleted_entries zero_stack)) _ c3 tt c4 eq_refl). unfold on_cp_store, c4. cbn [c_store set_obsoleted_entries]. by rewrite E4. }
  unfold destroyed. rewrite E. cbn [fst snd c_store c_inodes c_reverse c_blocked c_obsoleted set_store c4 set_obsoleted_entries]. split_and!; try done.
  - intros q Hq. destruct (decide (p_pages s' !! q = None)) as [|Hne]; [done|exfalso]. apply not_eq_None_Some in Hne as [p Hs].
    assert (Hpool : ~ (p_zero_refs (c_store c) = 1 /\ pool_page (p_zero_pxd (c_store c)) q)) by (intros Hq'; by rewrite Hg in Hs).
    rewrite Hkz in Hs by done. destruct Hq as [HC|[Hn|?]]; [|by rewrite (fr_gone _ _ _ P3) in Hs|done].
    apply (fr_old _ _ _ P3) in Hs. cbn in Hs. by rewrite (fr_gone _ _ _ Hp) in Hs.
  - intros q Hq. rewrite Hkz by (intros ?; apply Hq; right; by right). apply Hk; intros ?; apply Hq; [by left|right; by left].
  - intros j [->|Hn]; [|by apply G3]. destruct (c_inodes c3 !! c_latest c) as [x|] eqn:Ex; [|done]. apply O3 in Ex. cbn in Ex. congruence.
  - intros j Hn. rewrite K3 by (intros ?; apply Hn; by right). cbn. apply Hin. intros ->. apply Hn. by left.
Qed.
End teardown.

(** ** Properties *)

(** C12. Whatever happened since the file system was mounted, unmounting it
    succeeds when nobody refers to its pages any more: it never touches freed
    memory and frees no page twice, frees every page of the latest tree, every
    page and inode that waits for the collector, the latest inode and, with
    their last user, the shared zero pages, leaves every other page and inode
    alone, and empties the lists. *)
Theorem destroy_frees_everything F ZERO_PAGE `{HF : !PtFlagsOk F} L (x : cps * list holding) :
  reachable (snap_init F ZERO_PAGE L) (snap_step F ZERO_PAGE L) x -> let c := x.1 in all_idle c ->
  exists C i, c_inodes c !! c_latest c = Some i /\ tree F ZERO_PAGE (ci_root i) (cpages c) C /\
    destroyed c C (sivfs_destroy_checkpoints F ZERO_PAGE c).
Proof.
  intros Hr c Hid. destruct (pool_distinct F ZERO_PAGE L _ Hr) as [[C Hlv] Hnd].
  destruct (lv_tree _ _ _ _ _ _ Hlv) as (i & Hi & T). exists C, i. split; [done|]. split; [done|]. by eapply destroy_ok.
Qed.

Lemma sample_end_idle : all_idle sample_end.1.
Proof.
  assert (Hb : forallb (fun kv : Z * cpage => (cp_refct kv.2 =? 1) && (cp_mapct kv.2 =? 0) && negb (cp_locked kv.2)) (map_to_list (cpages sample_end.1)) = true)
    by (vm_compute; reflexivity).
  intros q p Hq. apply elem_of_map_to_list in Hq. apply list_elem_of_In in Hq.
  pose proof (proj1 (forallb_forall _ _) Hb _ Hq) as Hc. cbn [snd] in Hc. apply andb_prop in Hc as [[H1 H2]%andb_prop H3]. split; [by apply Z.eqb_eq|]. split; [by apply Z.eqb_eq|by apply negb_true_iff].
Qed.

Lemma destroy_frees_everything_witness : exists C i c', c_inodes sample_end.1 !! 32 = Some i /\
  sivfs_destroy_checkpoints x86_flags ZERO_PA sample_end.1 = (Ok tt, c') /\
  (forall q, released sample_end.1 C q -> cpages c' !! q = None) /\ c_inodes c' !! 32 = None /\ c_blocked c' = ∅.
Proof.
  destruct (destroy_frees_everything x86_flags ZERO_PA sample_machine sample_end sample_reachable sample_end_idle)
    as (C & i & Hi & _ & E & Hg & _ & Hj & _ & _ & Hb & _).
  assert (El : c_latest sample_end.1 = 32) by (vm_compute; reflexivity). rewrite El in *. exists C, i.
  destruct (sivfs_destroy_checkpoints x86_flags ZERO_PA sample_end.1) as [r c']. cbn [fst snd] in *. subst r.
  exists c'. split; [exact Hi|]. split; [reflexivity|]. split; [exact Hg|]. split; [|exact Hb]. apply Hj. by left.
Defined.

(** The addresses of the zero pages stay in their array when the pages are
    freed. When the last file system was unmounted and mounting another one runs
    out of memory at once, the clean-up of that mount works on the pages that
    unmounting has freed. *)
Theorem failed_mount_uses_freed_zero_pages F ZERO_PAGE s rest q : pool_ok 1 3 s -> p_zero_pxd s !! 1%nat = Some q -> q <> 0 ->
  p_zero_refs s = 1 -> exists s1, sivfs_put_zero_checkpoint_pages s = (Ok tt, s1) /\
    fst (sivfs_get_zero_checkpoint_pages F ZERO_PAGE (set_supply (None :: rest) s1)) = Fault.
Proof.
  intros Hin Hq Hq0 Hr. destruct (put_zero_ok s Hin) as (s1 & E & Hg & _ & Ez & Hr1). exists s1. split; [done|].
  assert (Hgone : p_pages s1 !! q = None) by (apply Hg; split; [done|split; [done|exists 1%nat; split; [lia|done]]]).
  unfold sivfs_get_zero_checkpoint_pages. rewrite (bind_step (gets p_zero_refs) _ _ 0 _) by (unfold gets; cbn; rewrite Hr1 by lia; by rewrite Hr).
  cbn [Z.eqb]. unfold _sivfs_init_zero_checkpoint_pages.
  set (s2 := set_zero_pxd (<[0%nat := ZERO_PAGE]> (p_zero_pxd s1)) (set_supply (None :: rest) s1)).
  rewrite bind_assoc, (bind_step _ _ _ tt s2) by done.
  assert (E2 : exists s3, init_zero_loop F ZERO_PAGE 1 3 s2 = (Err ENOMEM, s3) /\ p_zero_pxd s3 = p_zero_pxd s2 /\ p_pages s3 = p_pages s2).
  { cbn [init_zero_loop]. unfold sivfs_new_checkpoint_page, bind at 1. cbn [p_supply set_zero_pxd set_supply]. destruct (_ <? _); by eexists. }
  destruct E2 as (s3 & E2 & Ez3 & Ep3). unfold bind. rewrite E2. unfold _sivfs_destroy_zero_checkpoint_pages. cbn [destroy_zero_loop]. unfold bind, gets.
  rewrite Ez3. cbn [p_zero_pxd set_zero_pxd s2]. rewrite Ez, list_lookup_insert_ne, Hq by done. cbn [default from_option id].
  rewrite (proj2 (Z.eqb_neq _ _) Hq0). unfold sivfs_put_checkpoint_page. rewrite Ep3. cbn [p_pages s2 set_zero_pxd set_supply]. by rewrite Hgone.
Qed.
