(* ===== verification/Mount.v ===== *)
(** Mounting and unmounting: kern/super.c, sivfs_init_shared_state and
    sivfs_destroy_shared_state of kern/sivfs_shared_state.c, starting and
    stopping the threads of kern/sivfs_background_threads.c.

    The kernel's part of it (making the root directory's entry, dropping the
    tree of entries) is a class with the documented laws. Everything that can
    fail does so at the word of the environment. *)
From stdpp Require Import strings.
From S2P Require Import Prelude Types Stack RadixTree Writeset Log LogView Commit Protocol LogChunks PageTree MakeCheckpoint Trees Checkpoints GC Snapshots Teardown.

(** ** State *)

Inductive bgt : Type := make_checkpoint_bgt | gc_checkpoints_bgt | gc_log_bgt.

#[export] Instance bgt_eq_dec : EqDecision bgt.
Proof. solve_decision. Defined.

(** [ms_inited]: sivfs_shared_state_inited; [ms_bdi]: the device information is
    initialised; [ms_root]: sb->s_root; [ms_creds]: the references to
    direct_access_creds; [ms_bgt]: the thread pointers that are set; [ms_live]:
    the threads that run; [ms_inodes]: the directories' inodes with their
    reference counts. *)
Record mstate : Type := mk_ms {
  ms_inited : bool;
  ms_bdi : bool;
  ms_root : option Z;
  ms_log : log_state;
  ms_cps : cps;
  ms_creds : Z;
  ms_bgt : list bgt;
  ms_live : list bgt;
  ms_inodes : gmap Z Z
}.

Definition set_inited (b : bool) (w : mstate) : mstate :=
  mk_ms b (ms_bdi w) (ms_root w) (ms_log w) (ms_cps w) (ms_creds w) (ms_bgt w) (ms_live w) (ms_inodes w).
Definition set_bdi (b : bool) (w : mstate) : mstate :=
  mk_ms (ms_inited w) b (ms_root w) (ms_log w) (ms_cps w) (ms_creds w) (ms_bgt w) (ms_live w) (ms_inodes w).
Definition set_root (r : option Z) (w : mstate) : mstate :=
  mk_ms (ms_inited w) (ms_bdi w) r (ms_log w) (ms_cps w) (ms_creds w) (ms_bgt w) (ms_live w) (ms_inodes w).
Definition set_creds (n : Z) (w : mstate) : mstate :=
  mk_ms (ms_inited w) (ms_bdi w) (ms_root w) (ms_log w) (ms_cps w) n (ms_bgt w) (ms_live w) (ms_inodes w).
Definition set_threads (p l : list bgt) (w : mstate) : mstate :=
  mk_ms (ms_inited w) (ms_bdi w) (ms_root w) (ms_log w) (ms_cps w) (ms_creds w) p l (ms_inodes w).

Definition set_master_log (l : log_state) (w : mstate) : mstate :=
  mk_ms (ms_inited w) (ms_bdi w) (ms_root w) l (ms_cps w) (ms_creds w) (ms_bgt w) (ms_live w) (ms_inodes w).
Definition set_cps (c : cps) (w : mstate) : mstate :=
  mk_ms (ms_inited w) (ms_bdi w) (ms_root w) (ms_log w) c (ms_creds w) (ms_bgt w) (ms_live w) (ms_inodes w).
Definition set_directories (i : gmap Z Z) (w : mstate) : mstate :=
  mk_ms (ms_inited w) (ms_bdi w) (ms_root w) (ms_log w) (ms_cps w) (ms_creds w) (ms_bgt w) (ms_live w) i.

Definition on_master_log {A} (m : M log_state A) : M mstate A := fun w =>
  let '(r, l) := m (ms_log w) in (r, set_master_log l w).
Definition on_checkpoints {A} (m : M cps A) : M mstate A := fun w =>
  let '(r, c) := m (ms_cps w) in (r, set_cps c w).
Definition on_inodes {A} (m : M (gmap Z Z) A) : M mstate A := fun w =>
  let '(r, i) := m (ms_inodes w) in (r, set_directories i w).

(** What the system answers during one call. [me_thread t]: the error of
    kthread_run, if any; [me_dead t]: the thread ended on its own;
    [me_cp_inode], [me_root_inode]: the inodes that are allocated. *)
Record mount_env : Type := mk_menv {
  me_bdi_init : option errno;
  me_bdi_register : option errno;
  me_creds : bool;
  me_cp_inode : option Z;
  me_signal : bool;
  me_node : bool;
  me_thread : bgt -> option errno;
  me_dead : bgt -> bool;
  me_root_inode : option Z;
  me_dentry : bool
}.

Definition fail_with (e : option errno) : M mstate unit := match e with Some e => throw e | None => ret tt end.

(** ** Background threads *)

Definition sivfs_bgt_run (ev : mount_env) (t : bgt) : M mstate unit :=
  do! fail_with (me_thread ev t) in
  modify (fun w => set_threads (t :: ms_bgt w) (t :: ms_live w) w).

(** A thread that ended on its own is reported; stopping one that was stopped
    uses its freed task. *)
Definition sivfs_bgt_stop (ev : mount_env) (t : bgt) : M mstate unit := fun w =>
  if decide (t ∈ ms_bgt w) then
    if me_dead ev t || bool_decide (t ∈ ms_live w)
    then (Ok tt, set_threads (ms_bgt w) (filter (fun x => x <> t) (ms_live w)) w)
    else (Fault, w)
  else (Ok tt, w).

Definition sivfs_init_background_work (ev : mount_env) : M mstate unit :=
  do! sivfs_bgt_run ev make_checkpoint_bgt in
  on_error
    (do! sivfs_bgt_run ev gc_checkpoints_bgt in
     on_error (sivfs_bgt_run ev gc_log_bgt) (sivfs_bgt_stop ev gc_checkpoints_bgt))
    (sivfs_bgt_stop ev make_checkpoint_bgt).

Definition sivfs_destroy_background_work (ev : mount_env) : M mstate unit :=
  do! sivfs_bgt_stop ev make_checkpoint_bgt in
  do! sivfs_bgt_stop ev gc_checkpoints_bgt in
  sivfs_bgt_stop ev gc_log_bgt.

(** ** The shared state *)

Definition prepare_creds (ev : mount_env) : M mstate unit :=
  if me_creds ev then modify (fun w => set_creds (ms_creds w + 1) w) else throw ENOMEM.
Definition put_cred : M mstate unit := fun w =>
  if ms_creds w <=? 0 then (Fault, w) else (Ok tt, set_creds (ms_creds w - 1) w).

(** [memset]: the structure forgets what it pointed to. *)
Definition zero_cps (c : cps) : cps :=
  mk_cps 0 0 0 ∅ (c_inodes c) zero_stack ∅ (c_store c) (c_ncheckpoints c) (c_ncheckpoint_txns c).
Definition zero_log (l : log_state) : log_state := mk_ls sivfs_init_log ∅ 0 (ls_chunks l) (ls_ents l).
Definition zero_shared_state (w : mstate) : mstate :=
  mk_ms (ms_inited w) (ms_bdi w) (ms_root w) (zero_log (ms_log w)) (zero_cps (ms_cps w)) (ms_creds w) [] (ms_live w) (ms_inodes w).

(** Making and inserting the first checkpoint. *)
Definition insert_first (alloc : option Z) (signal mem : bool) : M cps unit :=
  let! first := sivfs_create_checkpoint_inode alloc in
  let! cpinfo := load_inode first in
  do! store_inode first (mk_inode 0 0 (ci_obsoleted_ts cpinfo)) in
  on_error (sivfs_checkpoints_insert signal mem first) (iput first).

Section shared_state.
Context (F : pt_flags) (ZERO_PAGE : Z).

Definition sivfs_init_shared_state (ev : mount_env) : M mstate unit :=
  do! modify zero_shared_state in
  do! prepare_creds ev in
  on_error
    (do! on_checkpoints (sivfs_init_checkpoints F ZERO_PAGE) in
     on_error
       (do! on_checkpoints (insert_first (me_cp_inode ev) (me_signal ev) (me_node ev)) in
        sivfs_init_background_work ev)
       (on_checkpoints (sivfs_destroy_checkpoints F ZERO_PAGE)))
    put_cred.

Definition sivfs_destroy_shared_state (ev : mount_env) : M mstate unit :=
  do! sivfs_destroy_background_work ev in
  let! _ := on_master_log (sivfs_delete_log SIVFS_INVALID_TS) in
  do! put_cred in
  on_checkpoints (sivfs_destroy_checkpoints F ZERO_PAGE).
End shared_state.

(** ** Options *)

Definition SIVFS_DEFAULT_MODE : Z := 493.
Definition S_IALLUGO : Z := 4095.

(** The pieces between the commas. [match_mode] is match_token with the pattern
    mode=%o and match_octal: no match, a number, or a number that cannot be read. *)
Fixpoint parse_pieces (match_mode : string -> option (option Z)) (pieces : list string) (mode : Z) : res Z :=
  match pieces with
  | [] => Ok mode
  | EmptyString :: pieces => parse_pieces match_mode pieces mode
  | p :: pieces =>
    match match_mode p with
    | Some None => Err EINVAL
    | Some (Some option) => parse_pieces match_mode pieces (Z.land option S_IALLUGO)
    | None => parse_pieces match_mode pieces mode
    end
  end.
Definition sivfs_parse_options (match_mode : string -> option (option Z)) (pieces : list string) : res Z :=
  parse_pieces match_mode pieces SIVFS_DEFAULT_MODE.

(** ** The superblock *)

(** [d_make_root] takes over the reference to the inode, and drops it when it
    fails; [kill_litter_super] drops the root. *)
Class KernelRoot : Type := {
  k_d_make_root : bool -> Z -> M (gmap Z Z) (option Z);
  k_kill_litter_super : option Z -> M (gmap Z Z) unit
}.
Class KernelRootLaws `{KernelRoot} : Prop := {
  kr_make i m : m !! i = Some 1 -> exists r, k_d_make_root true i m = (Ok (Some r), m) /\
    k_kill_litter_super (Some r) m = (Ok tt, delete i m);
  kr_make_fails i m : m !! i = Some 1 -> k_d_make_root false i m = (Ok None, delete i m);
  kr_kill_nothing m : k_kill_litter_super None m = (Ok tt, m)
}.

#[export] Instance direct_root : KernelRoot := {|
  k_d_make_root mem i m := if mem then (Ok (Some i), m) else (Ok None, delete i m);
  k_kill_litter_super r m := (Ok tt, match r with Some i => delete i m | None => m end)
|}.
#[export] Instance direct_root_laws : KernelRootLaws.
Proof. split; try done. intros i m Hi. by exists i. Qed.

Definition new_directory (alloc : option Z) : M (gmap Z Z) Z :=
  match alloc with
  | None => throw ENOMEM
  | Some i => do! modify (<[i := 1]>) in ret i
  end.
Definition iput_directory (i : Z) : M (gmap Z Z) unit := fun m =>
  match m !! i with
  | Some n => (Ok tt, if n =? 1 then delete i m else <[i := n - 1]> m)
  | None => (Fault, m)
  end.

Definition sivfs_init_bdi (ev : mount_env) : M mstate unit :=
  do! fail_with (me_bdi_init ev) in
  do! modify (set_bdi true) in
  fail_with (me_bdi_register ev).
Definition bdi_destroy : M mstate unit := modify (set_bdi false).

Section super.
Context `{KernelRoot} (F : pt_flags) (ZERO_PAGE : Z) (match_mode : string -> option (option Z)).

(** The root directory. *)
Definition make_root (ev : mount_env) : M mstate unit :=
  let! inode := on_inodes (new_directory (me_root_inode ev)) in
  let! s_root := on_inodes (k_d_make_root (me_dentry ev) inode) in
  match s_root with
  | None => do! on_inodes (iput_directory inode) in throw ENOMEM
  | Some r => modify (set_root (Some r))
  end.

(** For a superblock without a root yet. When another mount is active the code
    leaves through error2 with [rc] 0. *)
Definition sivfs_fill_super (ev : mount_env) (options : list string) : M mstate unit :=
  do! lift (let? mode := sivfs_parse_options match_mode options in Ok tt) in
  do! sivfs_init_bdi ev in
  let! inited := gets ms_inited in
  if inited then bdi_destroy
  else
    do! on_error
      (do! sivfs_init_shared_state F ZERO_PAGE ev in
       on_error (make_root ev) (sivfs_destroy_shared_state F ZERO_PAGE ev))
      bdi_destroy in
    modify (set_inited true).

Definition sivfs_kill_sb (ev : mount_env) : M mstate unit :=
  let! inited := gets ms_inited in
  do! (if inited then
         do! bdi_destroy in
         sivfs_destroy_shared_state F ZERO_PAGE ev
       else ret tt) in
  let! s_root := gets ms_root in
  on_inodes (k_kill_litter_super s_root).
End super.

(** ** The pool of zero pages *)

Section pool.
Context (F : pt_flags) (ZERO_PAGE : Z) `{HF : !PtFlagsOk F}.

(** [s] is [s0] with zero pages in the first [n] entries of the pool; the
    others are NULL. *)
Record pool_filled (s0 : pstore) (n : nat) (s : pstore) : Prop := {
  pf_null : forall i, (n <= i < 4)%nat -> p_zero_pxd s !! i = Some 0;
  pf_page : forall i, (1 <= i < n)%nat -> exists q p, p_zero_pxd s !! i = Some q /\ q <> 0 /\
    p_pages s0 !! q = None /\ p_pages s !! q = Some p /\ idle p;
  pf_distinct : forall i j q, (1 <= i < n)%nat -> (1 <= j < n)%nat -> p_zero_pxd s !! i = Some q -> p_zero_pxd s !! j = Some q -> i = j;
  pf_kept : forall q, (forall i, (1 <= i < n)%nat -> p_zero_pxd s !! i <> Some q) -> p_pages s !! q = p_pages s0 !! q
}.

Lemma pool_filled_add s0 n s sp rest w : (1 <= n < 4)%nat -> length (p_zero_pxd s) = 4%nat -> pool_filled s0 n s ->
  p_pages s !! sp_pa sp = None -> sp_pa sp <> 0 -> pool_filled s0 (S n) (zero_added n sp rest w s).
Proof.
  intros Hn Hlen [N P D K] Hf Hnz. assert (Hat : <[n := sp_pa sp]> (p_zero_pxd s) !! n = Some (sp_pa sp)) by (apply list_lookup_insert_eq; lia).
  assert (Hne : forall i, i <> n -> <[n := sp_pa sp]> (p_zero_pxd s) !! i = p_zero_pxd s !! i) by (intros; by apply list_lookup_insert_ne).
  assert (Hold : forall i q, (1 <= i < n)%nat -> p_zero_pxd s !! i = Some q -> q <> sp_pa sp).
  { intros i q Hi Hq ->. destruct (P i Hi) as (x & p & Hx & _ & _ & Hp & _). congruence. }
  assert (Hf0 : p_pages s0 !! sp_pa sp = None) by (rewrite <- K; [done|]; intros i Hi Hq; by apply (Hold i _ Hi Hq)).
  split; cbn [zero_added p_zero_pxd p_pages set_pages set_zero_pxd].
  - intros i Hi. rewrite Hne by lia. apply N. lia.
  - intros i Hi. destruct (decide (i = n)) as [->|Hin].
    + eexists _, _. split; [exact Hat|]. split; [done|]. split; [done|]. split; [apply lookup_insert_eq|done].
    + destruct (P i ltac:(lia)) as (q & p & Hq & ? & Hq0 & Hp & Hid). exists q, p. rewrite Hne by done. split; [done|]. split; [done|]. split; [done|]. split; [|done].
      rewrite lookup_insert_ne; [done|]. intros E. by apply (Hold i q ltac:(lia) Hq).
  - intros i j q Hi Hj. destruct (decide (i = n)) as [->|Hin], (decide (j = n)) as [->|Hjn]; rewrite ?Hat, ?Hne by done; try done.
    + intros [= <-] Hq. by destruct (Hold j _ ltac:(lia) Hq).
    + intros Hq [= <-]. by destruct (Hold i _ ltac:(lia) Hq).
    + apply D; lia.
  - intros q Hq. rewrite lookup_insert_ne.
    + apply K. intros i Hi. rewrite <- Hne by lia. apply Hq. lia.
    + intros <-. by apply (Hq n ltac:(lia)).
Qed.

Lemma pool_filled_ok s0 n s : (1 <= n <= 4)%nat -> pool_filled s0 n s -> pool_ok 1 3 s.
Proof.
  intros Hn [N P D K]. assert (Hnull : forall i q, (1 <= i < 4)%nat -> p_zero_pxd s !! i = Some q -> q <> 0 -> (i < n)%nat).
  { intros i q Hi Hq Hq0. destruct (decide (i < n)%nat); [done|]. rewrite N in Hq by lia. congruence. }
  split.
  - intros i Hi. destruct (decide (i < n)%nat); [|exists 0; split; [apply N; lia|by left]].
    destruct (P i ltac:(lia)) as (q & p & Hq & _ & _ & Hp & Hid). exists q. split; [done|]. right. by exists p.
  - intros i j q Hi Hj Hq0 Hqi Hqj. apply (D i j q); [|..]; try done; (split; [lia|]); by eapply Hnull.
Qed.

(** Without its pool the store is as it was. *)
Lemma pool_filled_gone s0 n s s' : (1 <= n <= 4)%nat -> pool_filled s0 n s ->
  (forall q, pool_page (p_zero_pxd s) q -> p_pages s' !! q = None) ->
  (forall q, ~ pool_page (p_zero_pxd s) q -> p_pages s' !! q = p_pages s !! q) -> p_pages s' = p_pages s0.
Proof.
  intros Hn [N P D K] Hg Hk. apply map_eq. intros q.
  destruct (decide (Exists (fun i => p_zero_pxd s !! i = Some q) (seq 1 (n - 1)))) as [Hin|Hout].
  - apply Exists_exists in Hin as (i & Hi & Hq). apply elem_of_seq in Hi. destruct (P i ltac:(lia)) as (x & p & Hx & Hx0 & Hnone & _).
    assert (x = q) as -> by congruence. rewrite Hnone. apply Hg. split; [done|]. exists i. split; [lia|done].
  - rewrite Hk, K; [done| |].
    + intros i Hi Hq. apply Hout, Exists_exists. exists i. split; [apply elem_of_seq; lia|done].
    + intros (Hq0 & i & Hi & Hq). destruct (decide (i < n)%nat); [|rewrite N in Hq by lia; congruence].
      apply Hout, Exists_exists. exists i. split; [apply elem_of_seq; lia|done].
Qed.

(** Filling the pool: it is full, or memory ran out on the way. *)
Lemma init_loop_fills s0 k : forall l s, (l + k = 3)%nat -> zero_upto F ZERO_PAGE (S l) s -> pool_filled s0 (S l) s -> exists s',
  (init_zero_loop F ZERO_PAGE (S l) k s = (Ok tt, s') /\ pool_filled s0 4 s' /\ p_zero_refs s' = p_zero_refs s) \/
  (init_zero_loop F ZERO_PAGE (S l) k s = (Err ENOMEM, s') /\ exists n, (1 <= n <= 4)%nat /\ pool_filled s0 n s').
Proof.
  induction k as [|k IH]; intros l s Hl U P.
  - exists s. left. split; [done|]. split; [|done]. by replace 4%nat with (S l) by lia.
  - assert (U' := U). destruct U' as (_ & _ & Hs & _ & Hlen & _).
    destruct (init_zero_step F ZERO_PAGE l k s U ltac:(lia)) as [(sp & rest & w & Es & U2 & E)|(s1 & E & Ep & Ez)].
    + rewrite E. rewrite Es in Hs. destruct (proj1 Hs 0%nat sp eq_refl) as (Hn & Hnz & _).
      destruct (IH (S l) _ ltac:(lia) U2) as (s' & H); [apply pool_filled_add; [lia|done..]|]. by exists s'.
    + exists s1. right. split; [done|]. exists (S l). split; [lia|]. destruct P as [N P D K]. split; rewrite ?Ez, ?Ep; done.
Qed.

(** No zero page yet, and none from an earlier mount. *)
Definition unused_pool (s : pstore) : Prop := forall i, (1 <= i < 4)%nat -> p_zero_pxd s !! i = Some 0.

Lemma get_zero_fills s : store_init F ZERO_PAGE s -> unused_pool s -> exists s',
  (sivfs_get_zero_checkpoint_pages F ZERO_PAGE s = (Ok tt, s') /\ pool_filled s 4 s' /\ p_zero_refs s' = 1) \/
  (sivfs_get_zero_checkpoint_pages F ZERO_PAGE s = (Err ENOMEM, s') /\ p_pages s' = p_pages s).
Proof.
  intros Hi Hu. unfold sivfs_get_zero_checkpoint_pages. rewrite (bind_step (gets p_zero_refs) _ s _ s eq_refl), (si_refs _ _ _ Hi).
  set (s0 := set_zero_pxd (<[0%nat := ZERO_PAGE]> (p_zero_pxd s)) s).
  assert (P0 : pool_filled s 1 s0).
  { split; cbn; try (intros; lia); try done. intros i Hlt. rewrite list_lookup_insert_ne by lia. apply Hu. lia. }
  cbn [Z.eqb]. unfold _sivfs_init_zero_checkpoint_pages. rewrite bind_assoc, (bind_step _ _ s tt s0) by done.
  destruct (init_loop_fills s 3 0 s0 eq_refl (init_zero_upto F ZERO_PAGE s Hi) P0) as (s1 & [(E & P & Er)|(E & n & Hn & P)]).
  - exists (set_zero_refs (p_zero_refs s1 + 1) s1). left. erewrite bind_step by (cbv beta; fold s0; by rewrite E). split; [reflexivity|].
    split; [by destruct P|]. cbn. rewrite Er. cbn. by rewrite (si_refs _ _ _ Hi).
  - destruct (destroy_zero_ok 3 1 s1 (pool_filled_ok s n s1 Hn P)) as (s2 & E2 & Hf). exists s2. right. split.
    + apply bind_err. cbv beta. fold s0. rewrite E. unfold _sivfs_destroy_zero_checkpoint_pages. by rewrite E2.
    + apply (pool_filled_gone s n s1); [done|done| |]; [apply (fr_gone _ _ _ Hf)|apply (fr_kept _ _ _ Hf)].
Qed.
End pool.

(** ** Checkpoints at mount time *)

Section checkpoints.
Context (F : pt_flags) (ZERO_PAGE : Z) `{HF : !PtFlagsOk F}.

Lemma first_checkpoint_split alloc signal mem c :
  first_checkpoint F ZERO_PAGE alloc signal mem c = (do! sivfs_init_checkpoints F ZERO_PAGE in insert_first alloc signal mem) (zero_cps c).
Proof. reflexivity. Qed.

(** The checkpoints [c] with another store and nothing listed. *)
Definition unmounted_with (s : pstore) (c : cps) : cps := set_store s (zero_cps c).

Lemma init_checkpoints_ok c : store_init F ZERO_PAGE (c_store c) -> unused_pool (c_store c) -> exists s,
  (sivfs_init_checkpoints F ZERO_PAGE (zero_cps c) = (Ok tt, unmounted_with s c) /\ pool_filled (c_store c) 4 s /\ p_zero_refs s = 1) \/
  (sivfs_init_checkpoints F ZERO_PAGE (zero_cps c) = (Err ENOMEM, unmounted_with s c) /\ p_pages s = p_pages (c_store c)).
Proof.
  intros Hi Hu. destruct (get_zero_fills F ZERO_PAGE _ Hi Hu) as (s & [(E & P & Hr)|(E & Hp)]); exists s; [left|right];
    (split; [|done]); unfold sivfs_init_checkpoints, bind, modify; cbn [c_store zero_cps]; by rewrite E.
Qed.

(** Nothing is listed, and the latest checkpoint, if any, is the empty one. *)
Record plain (c : cps) : Prop := {
  pl_blocked : c_blocked c = ∅;
  pl_obsoleted : c_obsoleted c = zero_stack;
  pl_latest : c_latest c <> 0 -> exists i, c_inodes c !! c_latest c = Some i /\ ci_root i = 0
}.

(** Nothing that the first checkpoint needs is refused. *)
Definition first_granted (alloc : option Z) (signal mem : bool) : Prop := alloc <> None /\ signal = false /\ mem = true.

Lemma insert_first_ok alloc signal mem c : plain c -> c_latest c = 0 -> c_reverse c = ∅ ->
  (forall ino, alloc = Some ino -> ino <> 0 /\ c_inodes c !! ino = None) -> exists c',
  c_store c' = c_store c /\ plain c' /\
  ((insert_first alloc signal mem c = (Ok tt, c') /\ first_granted alloc signal mem /\ exists ino, alloc = Some ino /\ c_latest c' = ino /\ delete ino (c_inodes c') = c_inodes c) \/
   ((exists e, insert_first alloc signal mem c = (Err e, c')) /\ ~ first_granted alloc signal mem) /\ c_latest c' = 0 /\ c_inodes c' = c_inodes c).
Proof.
  intros [Hb Ho _] Hl Hr Ha. unfold insert_first. destruct alloc as [ino|].
  2: { exists c; split; [done|]; split; [by split|right; split; [split; [by eexists|by intros [[] _]]|done]]. }
  destruct (Ha ino eq_refl) as [Hi0 Hfresh]. set (i := mk_inode 0 0 SIVFS_INVALID_TS).
  set (c1 := set_inodes (<[ino := i]> (c_inodes c)) c). rewrite (bind_step (sivfs_create_checkpoint_inode (Some ino)) _ c ino c1 eq_refl).
  assert (Hl1 : c_inodes c1 !! ino = Some i) by apply lookup_insert_eq. rewrite (bind_step _ _ _ _ _ (load_ok _ _ _ Hl1)).
  set (c2 := set_inodes (<[ino := i]> (c_inodes c1)) c1). rewrite (bind_step (store_inode ino _) _ c1 tt c2 eq_refl).
  assert (Hl2 : c_inodes c2 !! ino = Some i) by apply lookup_insert_eq.
  assert (Hd : delete ino (c_inodes c2) = c_inodes c) by (cbn; rewrite insert_insert_eq; by apply delete_insert_id).
  assert (Hfail : exists c', c_store c' = c_store c /\ plain c' /\ iput ino c2 = (Ok tt, c') /\ c_latest c' = 0 /\ c_inodes c' = c_inodes c).
  { eexists. split; [|split; [|split; [reflexivity|split; [exact Hl|exact Hd]]]]; [done|]. by split. }
  destruct Hfail as (cf & Hs & Hp & Ef & Hlf & Hif).
  assert (Hins : (sivfs_checkpoints_insert signal mem ino c2 = (Ok tt, set_latest ino 0 0 (set_reverse {[ridx 0 := ino]} c2)) /\ signal = false /\ mem = true) \/
    (exists e, sivfs_checkpoints_insert signal mem ino c2 = (Err e, c2)) /\ ~ (signal = false /\ mem = true)).
  { unfold sivfs_checkpoints_insert, _sivfs_checkpoints_insert, bind. rewrite (proj2 (Z.eqb_neq _ _) Hi0), (load_ok _ _ _ Hl2). unfold bind.
    destruct signal; [right; split; [by eexists|by intros [? _]]|]. unfold on_reverse, radix_tree_insert. cbn [c_reverse c2 c1 set_inodes]. rewrite Hr.
    cbn [radix_tree_lookup radix_gmap]. rewrite lookup_empty. destruct mem; [left; split; [|done]|right; split; [|by intros [_ ?]]; exists ENOMEM; f_equal; unfold c2, c1, set_inodes, set_reverse; cbn; by rewrite Hr].
    cbn [radix_tree_store radix_gmap]. unfold _sivfs_checkpoints_insert_finish, bind, load_inode. cbn [c_inodes set_reverse]. rewrite Hl2. reflexivity. }
  unfold on_error. destruct Hins as [(-> & Hsig & Hmem)|[[e ->] Hno]].
  - eexists. split; [|split; [|left; split; [reflexivity|split; [by split_and!|exists ino; split; [done|split; [done|exact Hd]]]]]]; [done|]. split; try done. intros _. by exists i.
  - rewrite Ef. exists cf. split; [done|]. split; [done|]. right. split; [split; [by eexists|by intros (_ & ? & ?); apply Hno]|done].
Qed.

Lemma destroy_plain c s0 : plain c -> pool_filled s0 4 (c_store c) -> p_zero_refs (c_store c) = 1 -> exists c',
  sivfs_destroy_checkpoints F ZERO_PAGE c = (Ok tt, c') /\ cpages c' = p_pages s0 /\
  c_inodes c' = if c_latest c =? 0 then c_inodes c else delete (c_latest c) (c_inodes c).
Proof.
  intros [Hb Ho Hl] P Hr. set (c1 := if c_latest c =? 0 then c else set_inodes (delete (c_latest c) (c_inodes c)) c).
  assert (E1 : destroy_latest F ZERO_PAGE c = (Ok tt, c1)).
  { unfold destroy_latest, c1. rewrite (bind_step (gets c_latest) _ c _ c eq_refl). destruct (Z.eqb_spec (c_latest c) 0) as [|Hne]; [done|].
    destruct (Hl Hne) as (i & Hi & Hroot). rewrite (bind_step _ _ _ _ _ (load_ok _ _ _ Hi)), Hroot.
    rewrite (bind_step (on_cp_store _) _ c 0 c); [done|]. unfold on_cp_store. cbn. by destruct c. }
  assert (Hc1 : c_blocked c1 = ∅ /\ c_obsoleted c1 = zero_stack /\ c_store c1 = c_store c) by (unfold c1; by destruct (_ =? 0)).
  destruct Hc1 as (Hb1 & Ho1 & Hs1). destruct (put_zero_ok (c_store c) (pool_filled_ok s0 4 _ ltac:(lia) P)) as (s' & E4 & Hg & Hk & _).
  set (c2 := set_blocked ∅ (set_reverse ∅ c1)).
  assert (E2 : destroy_blocked (S (size (c_blocked (set_reverse ∅ c1)))) (set_reverse ∅ c1) = (Ok tt, c2)).
  { cbn [c_blocked set_reverse destroy_blocked]. assert (Ek : group_keys (set_reverse ∅ c1) = []).
    { destruct (group_keys (set_reverse ∅ c1)) as [|k ks] eqn:Ek; [done|]. destruct (group_keys_ok (set_reverse ∅ c1)) as [_ H]. rewrite Ek in H.
      destruct (proj1 (H k) ltac:(left)) as [x Hx]. cbn in Hx. by rewrite Hb1, lookup_empty in Hx. }
    rewrite (bind_step (gets group_keys) _ _ _ _ eq_refl), Ek. cbv zeta. cbn [take]. rewrite (bind_step (free_slots []) _ _ tt _ eq_refl).
    unfold c2, bind, modify. cbn [foldl c_blocked set_reverse]. by rewrite Hb1. }
  set (c3 := set_obsoleted_entries zero_stack c2). exists (set_store s' c3). split; [|split].
  - unfold sivfs_destroy_checkpoints. rewrite (bind_step _ _ _ _ _ E1), (bind_step _ _ _ _ _ (destroy_reverse_ok c1)).
    rewrite (bind_step (fun c => destroy_blocked (S (size (c_blocked c))) c) _ _ tt c2) by exact E2.
    rewrite (bind_step (fun c => free_entries (elems (c_obsoleted c)) c) _ c2 tt c2) by (cbn [c2 c_obsoleted set_blocked set_reverse]; by rewrite Ho1).
    rewrite (bind_step (modify (set_obsoleted_entries zero_stack)) _ c2 tt c3 eq_refl). unfold on_cp_store.
    cbn [c3 c2 c_store set_obsoleted_entries set_blocked set_reverse]. by rewrite Hs1, E4.
  - cbn. apply (pool_filled_gone s0 4 (c_store c)); [lia|done|intros q Hq; by apply Hg|intros q Hq; apply Hk; by intros [_ ?]].
  - cbn. unfold c1. by destruct (_ =? 0).
Qed.
End checkpoints.

(** ** Steps on one part of the state *)

Lemma cp_step {A} (m : M cps A) w r c : m (ms_cps w) = (r, c) -> on_checkpoints m w = (r, set_cps c w).
Proof. intros E. unfold on_checkpoints. by rewrite E. Qed.
Lemma dir_step {A} (m : M (gmap Z Z) A) w r i : m (ms_inodes w) = (r, i) -> on_inodes m w = (r, set_directories i w).
Proof. intros E. unfold on_inodes. by rewrite E. Qed.

Lemma stop_ok ev t w : t ∈ ms_bgt w -> t ∈ ms_live w ->
  sivfs_bgt_stop ev t w = (Ok tt, set_threads (ms_bgt w) (filter (fun x => x <> t) (ms_live w)) w).
Proof. intros Hp Hl. unfold sivfs_bgt_stop. rewrite decide_True, bool_decide_eq_true_2 by done. by rewrite orb_true_r. Qed.

Definition all_threads : list bgt := [gc_log_bgt; gc_checkpoints_bgt; make_checkpoint_bgt].

(** All three threads run, or none. *)
Lemma init_background_ok ev w : ms_live w = [] -> ms_bgt w = [] ->
  (sivfs_init_background_work ev w = (Ok tt, set_threads all_threads all_threads w) /\ forall t, me_thread ev t = None) \/
  (exists t, me_thread ev t <> None) /\ exists e p, sivfs_init_background_work ev w = (Err e, set_threads p [] w).
Proof.
  destruct w as [wi wb wr wl wc wcr bg lv dir]. cbn [ms_live ms_bgt]. intros -> ->. unfold sivfs_init_background_work, sivfs_bgt_run.
  destruct (me_thread ev make_checkpoint_bgt) as [e|] eqn:Et1; [right; split; [exists make_checkpoint_bgt; congruence|by exists e, []]|].
  set (w0 := mk_ms _ _ _ _ _ _ _ _ _). set (w1 := set_threads [make_checkpoint_bgt] [make_checkpoint_bgt] w0).
  rewrite (bind_step _ _ w0 tt w1) by done. destruct (me_thread ev gc_checkpoints_bgt) as [e|] eqn:Et2.
  { right. split; [exists gc_checkpoints_bgt; congruence|]. exists e, [make_checkpoint_bgt]. apply (on_error_err _ _ w1 e w1); [done|]. by rewrite stop_ok by (by left). }
  set (w2 := set_threads [gc_checkpoints_bgt; make_checkpoint_bgt] [gc_checkpoints_bgt; make_checkpoint_bgt] w1).
  destruct (me_thread ev gc_log_bgt) as [e|] eqn:Et3; [|left; split; [done|by intros []]].
  right. split; [exists gc_log_bgt; congruence|]. exists e, [gc_checkpoints_bgt; make_checkpoint_bgt].
  apply (on_error_err _ _ w1 e (set_threads [gc_checkpoints_bgt; make_checkpoint_bgt] [make_checkpoint_bgt] w1)).
  - rewrite (bind_step _ _ w1 tt w2) by done. apply (on_error_err _ _ w2 e w2); [done|]. by rewrite stop_ok by (by left).
  - rewrite stop_ok by set_solver. done.
Qed.

Lemma destroy_background_ok ev w : (forall t, t ∈ ms_bgt w /\ t ∈ ms_live w) ->
  sivfs_destroy_background_work ev w = (Ok tt, set_threads (ms_bgt w) [] w).
Proof.
  intros Ht. unfold sivfs_destroy_background_work. set (drop := fun t (l : list bgt) => filter (fun x => x <> t) l).
  set (w1 := set_threads (ms_bgt w) (drop make_checkpoint_bgt (ms_live w)) w).
  set (w2 := set_threads (ms_bgt w) (drop gc_checkpoints_bgt (drop make_checkpoint_bgt (ms_live w))) w).
  rewrite (bind_step _ _ w tt w1) by (apply stop_ok; apply Ht).
  rewrite (bind_step _ _ w1 tt w2) by (apply (stop_ok ev _ w1); [apply Ht|apply list_elem_of_filter; split; [done|apply Ht]]).
  rewrite (stop_ok ev _ w2); [|apply Ht|do 2 (apply list_elem_of_filter; split; [done|]); apply Ht].
  unfold w2, w1, set_threads, drop. cbn. rewrite !list_filter_filter. clear. f_equal. f_equal. by induction (ms_live w) as [|[] l IH].
Qed.

(** ** The shared state *)

Section outcome.
Context (F : pt_flags) (ZERO_PAGE : Z) `{HF : !PtFlagsOk F}.

(** Nothing is mounted and nothing was mounted before. *)
Record not_mounted (w : mstate) : Prop := {
  um_flags : ms_inited w = false /\ ms_root w = None /\ ms_creds w = 0 /\ ms_live w = [];
  um_log : ls_chunks (ms_log w) = ∅ /\ ls_ents (ms_log w) = ∅;
  um_store : store_init F ZERO_PAGE (c_store (ms_cps w)) /\ unused_pool (c_store (ms_cps w))
}.

(** [w'] holds the same pages, inodes, credentials, log memory and threads as [w]. *)
Record restored (w w' : mstate) : Prop := {
  re_pages : cpages (ms_cps w') = cpages (ms_cps w);
  re_inodes : c_inodes (ms_cps w') = c_inodes (ms_cps w);
  re_dirs : ms_inodes w' = ms_inodes w;
  re_log : ls_chunks (ms_log w') = ∅ /\ ls_ents (ms_log w') = ∅;
  re_flags : ms_inited w' = ms_inited w /\ ms_root w' = ms_root w /\ ms_creds w' = 0 /\ ms_live w' = []
}.

(** The shared state was set up: the empty checkpoint at time 0, an empty log,
    and all threads. *)
Record started (ev : mount_env) (w w' : mstate) : Prop := {
  sd_first : first_checkpoint F ZERO_PAGE (me_cp_inode ev) (me_signal ev) (me_node ev) (ms_cps w) = (Ok tt, ms_cps w');
  sd_log : ms_log w' = init_log_state;
  sd_threads : ms_bgt w' = all_threads /\ ms_live w' = all_threads;
  sd_creds : ms_creds w' = 1;
  sd_flags : ms_inited w' = ms_inited w /\ ms_root w' = ms_root w /\ ms_bdi w' = ms_bdi w /\ ms_inodes w' = ms_inodes w
}.

(** What unmounting relies on. *)
Record removable (w w' : mstate) : Prop := {
  rm_plain : plain (ms_cps w');
  rm_pool : pool_filled (c_store (ms_cps w)) 4 (c_store (ms_cps w')) /\ p_zero_refs (c_store (ms_cps w')) = 1;
  rm_inodes : (if c_latest (ms_cps w') =? 0 then c_inodes (ms_cps w') else delete (c_latest (ms_cps w')) (c_inodes (ms_cps w'))) = c_inodes (ms_cps w)
}.

Context (ev : mount_env).

(** Nothing that setting up the shared state asks for is refused: credentials,
    zero pages, the first checkpoint and the threads. *)
Definition shared_granted (c : cps) : Prop :=
  me_creds ev = true /\ fst (sivfs_init_checkpoints F ZERO_PAGE (zero_cps c)) = Ok tt /\
  first_granted (me_cp_inode ev) (me_signal ev) (me_node ev) /\ forall t, me_thread ev t = None.

Lemma destroy_checkpoints_step w w' : removable w w' -> exists c,
  on_checkpoints (sivfs_destroy_checkpoints F ZERO_PAGE) w' = (Ok tt, set_cps c w') /\
  cpages c = cpages (ms_cps w) /\ c_inodes c = c_inodes (ms_cps w).
Proof.
  intros [Hp [P Hr] Hi]. destruct (destroy_plain F ZERO_PAGE (ms_cps w') _ Hp P Hr) as (c & E & Hpg & Hin).
  exists c. split; [by apply cp_step|]. split; [done|]. by rewrite Hin.
Qed.

Lemma init_shared_ok w : not_mounted w -> (forall ino, me_cp_inode ev = Some ino -> ino <> 0 /\ c_inodes (ms_cps w) !! ino = None) ->
  (shared_granted (ms_cps w) /\ exists w', sivfs_init_shared_state F ZERO_PAGE ev w = (Ok tt, w') /\ started ev w w' /\ removable w w') \/
  (~ shared_granted (ms_cps w) /\ exists e w', sivfs_init_shared_state F ZERO_PAGE ev w = (Err e, w') /\ restored w w' /\ ms_bdi w' = ms_bdi w).
Proof.
  intros [(Hi & Hroot & Hc & Hl) (Hch & Hen) (Hst & Hun)] Hino. unfold sivfs_init_shared_state. set (w0 := zero_shared_state w).
  rewrite (bind_step (modify zero_shared_state) _ w tt w0 eq_refl).
  assert (R0 : forall c, cpages c = cpages (ms_cps w) -> c_inodes c = c_inodes (ms_cps w) -> forall p, restored w (set_creds 0 (set_cps c (set_threads p [] w0)))).
  { intros c Hpg Hin p. by split. }
  unfold prepare_creds, shared_granted. destruct (me_creds ev).
  2: { right. split; [by intros [? _]|]. exists ENOMEM, w0. split; [done|]. split; [|done]. split; cbn; by rewrite ?Hl, ?Hc. }
  set (w1 := set_creds (ms_creds w0 + 1) w0). rewrite (bind_step (modify (fun w => set_creds (ms_creds w + 1) w)) _ w0 tt w1 eq_refl).
  assert (Hput : forall c p l, put_cred (set_cps c (set_threads p l w1)) = (Ok tt, set_creds 0 (set_cps c (set_threads p l w0)))).
  { intros c p l. unfold put_cred. cbn [ms_creds set_cps set_threads w1 set_creds]. change (ms_creds w0) with (ms_creds w). by rewrite Hc. }
  assert (W1 : forall c, set_cps c w1 = set_cps c (set_threads [] [] w1)) by (intros c; unfold w1, w0, zero_shared_state, set_cps, set_threads, set_creds; cbn; by rewrite Hl).
  destruct (init_checkpoints_ok F ZERO_PAGE (ms_cps w) Hst Hun) as (s & [(E1 & P & Hr)|(E1 & Hpg)]).
  2: { right. split; [rewrite E1; by intros (_ & ? & _)|]. exists ENOMEM, (set_creds 0 (set_cps (unmounted_with s (ms_cps w)) (set_threads [] [] w0))). split; [|split; [by apply R0|done]].
       apply (on_error_err _ _ w1 ENOMEM (set_cps (unmounted_with s (ms_cps w)) w1)); [|by rewrite W1, Hput].
       apply bind_err. by apply cp_step. }
  set (c1 := unmounted_with s (ms_cps w)) in *. set (w2 := set_cps c1 w1).
  assert (E1' : on_checkpoints (sivfs_init_checkpoints F ZERO_PAGE) w1 = (Ok tt, w2)) by (by apply cp_step).
  assert (Hpl1 : plain c1) by (by split).
  destruct (insert_first_ok (me_cp_inode ev) (me_signal ev) (me_node ev) c1 Hpl1 eq_refl eq_refl Hino) as (c2 & Hs2 & Hpl2 & Hres).
  set (w3 := set_cps c2 w2).
  assert (Hfail : forall e p, (do! on_checkpoints (insert_first (me_cp_inode ev) (me_signal ev) (me_node ev)) in sivfs_init_background_work ev) w2 = (Err e, set_threads p [] w3) ->
    removable w w3 -> exists w', on_error (do! on_checkpoints (sivfs_init_checkpoints F ZERO_PAGE) in
       on_error (do! on_checkpoints (insert_first (me_cp_inode ev) (me_signal ev) (me_node ev)) in sivfs_init_background_work ev)
         (on_checkpoints (sivfs_destroy_checkpoints F ZERO_PAGE))) put_cred w1 = (Err e, w') /\ restored w w' /\ ms_bdi w' = ms_bdi w).
  { intros e p Ee Hrm. assert (Hrm' : removable w (set_threads p [] w3)) by (by destruct Hrm).
    destruct (destroy_checkpoints_step w _ Hrm') as (c & Ed & Hpg & Hin). exists (set_creds 0 (set_cps c (set_threads p [] w0))).
    split; [|split; [by apply R0|done]]. apply (on_error_err _ _ w1 e (set_cps c (set_threads p [] w1))); [|by rewrite Hput].
    rewrite (bind_step _ _ _ _ _ E1'). by apply (on_error_err _ _ w2 e _ _ Ee). }
  rewrite E1. destruct Hres as [(E2 & Hfg & ino & Ea & Hl2 & Hd2)|(((e & E2) & Hfg) & Hl2 & Hin2)].
  - destruct (Hino ino Ea) as [Hi0 _].
    assert (Hrm : removable w w3).
    { split; [done|split; [cbn; by rewrite Hs2|cbn; by rewrite Hs2]|]. cbn. rewrite Hl2, (proj2 (Z.eqb_neq _ _) Hi0). exact Hd2. }
    destruct (init_background_ok ev w3) as [(Eb & Hth)|((t & Ht) & e & p & Eb)]; [cbn; exact Hl|done| |].
    + left. split; [by split_and!|]. exists (set_threads all_threads all_threads w3). split; [|split].
      * apply on_error_ok. rewrite (bind_step _ _ _ _ _ E1'). apply on_error_ok. by rewrite (bind_step _ _ _ _ _ (cp_step _ w2 _ _ E2)).
      * split; try done; cbn; [| |by rewrite Hc].
        -- rewrite first_checkpoint_split. by rewrite (bind_step _ _ _ _ _ E1).
        -- unfold zero_log. by rewrite Hch, Hen.
      * by destruct Hrm.
    + right. split; [intros (_ & _ & _ & Hth); by apply Ht|]. destruct (Hfail e p) as (w' & ? & ?); [by rewrite (bind_step _ _ _ _ _ (cp_step _ w2 _ _ E2))|done|]. by exists e, w'.
  - right. split; [by intros (_ & _ & ? & _)|]. destruct (Hfail e []) as (w' & ? & ?); [| |by exists e, w'].
    + rewrite (bind_err _ _ _ _ _ (cp_step _ w2 _ _ E2)). fold w3. f_equal. unfold w3, w2, w1, w0, zero_shared_state, set_cps, set_threads, set_creds. cbn. by rewrite Hl.
    + split; [done|split; [cbn; by rewrite Hs2|cbn; by rewrite Hs2]|]. cbn. rewrite Hl2. exact Hin2.
Qed.
End outcome.

(** ** Mounting *)

Section super_outcome.
Context `{KR : KernelRootLaws} (F : pt_flags) (ZERO_PAGE : Z) `{HF : !PtFlagsOk F} (match_mode : string -> option (option Z)).

(** The inodes that are allocated are new. *)
Definition fresh_inodes (ev : mount_env) (w : mstate) : Prop :=
  (forall ino, me_cp_inode ev = Some ino -> ino <> 0 /\ c_inodes (ms_cps w) !! ino = None) /\
  (forall i, me_root_inode ev = Some i -> ms_inodes w !! i = None).

Lemma destroy_started_ok ev w0 w w' dirs : started F ZERO_PAGE ev w w' -> removable w w' -> restored w0 w -> ms_inodes w = dirs ->
  exists w'', sivfs_destroy_shared_state F ZERO_PAGE ev (set_directories dirs w') = (Ok tt, w'') /\ restored w0 w'' /\ ms_bdi w'' = ms_bdi w.
Proof.
  intros [_ Hlog [Hp Hl] Hc (Hi & Hroot & Hb & Hd)] Hrm R Hdirs. unfold sivfs_destroy_shared_state. set (w1 := set_directories dirs w').
  assert (Hall : forall t, t ∈ ms_bgt w1 /\ t ∈ ms_live w1) by (intros t; cbn; rewrite Hp, Hl; destruct t; set_solver).
  rewrite (bind_step _ _ _ _ _ (destroy_background_ok ev w1 Hall)). set (w2 := set_threads _ [] w1).
  set (l := mk_ls (mk_log None 0 0 0) ∅ SIVFS_INVALID_TS ∅ ∅).
  rewrite (bind_step (on_master_log _) _ w2 false (set_master_log l w2)) by (unfold on_master_log; cbn [ms_log w2 w1 set_threads set_directories]; by rewrite Hlog).
  set (w3 := set_master_log l w2). set (w4 := set_creds 0 w3).
  rewrite (bind_step put_cred _ w3 tt w4) by (unfold put_cred; cbn [ms_creds w3 w2 w1 set_master_log set_threads set_directories]; by rewrite Hc).
  assert (Hrm4 : removable w w4) by (by destruct Hrm). destruct (destroy_checkpoints_step F ZERO_PAGE w w4 Hrm4) as (c & E & Hpg & Hin).
  rewrite E. eexists. split; [reflexivity|]. split; [|done]. destruct R as [R1 R2 R3 R4 (R5 & R6 & R7 & R8)]. split; cbn; try congruence.
  - done.
  - split; [congruence|]. split; [congruence|done].
Qed.

(** The options are understood and the device information is set up. *)
Definition bdi_started (ev : mount_env) (options : list string) : Prop :=
  (exists mode, sivfs_parse_options match_mode options = Ok mode) /\ me_bdi_init ev = None.

(** Nothing that a mount asks for is refused, but the root's entry. *)
Definition mount_granted (ev : mount_env) (options : list string) (w : mstate) : Prop :=
  bdi_started ev options /\ me_bdi_register ev = None /\ shared_granted F ZERO_PAGE ev (ms_cps w) /\ me_root_inode ev <> None.

(** What a failed mount leaves of the device information. *)
Definition bdi_left (ev : mount_env) (options : list string) (w w' : mstate) : Prop :=
  (~ bdi_started ev options /\ ms_bdi w' = ms_bdi w) \/
  (bdi_started ev options /\ ms_bdi w' = match me_bdi_register ev with Some _ => true | None => false end).

(** What fill_super promises. *)
Definition mount_promise (ev : mount_env) (options : list string) (w : mstate) (o : res unit * mstate) : Prop :=
  match o with
  | (Ok _, w') =>
      mount_granted ev options w /\ me_dentry ev = true /\
      first_checkpoint F ZERO_PAGE (me_cp_inode ev) (me_signal ev) (me_node ev) (ms_cps w) = (Ok tt, ms_cps w') /\
      ms_log w' = init_log_state /\ ms_live w' = all_threads /\ ms_bgt w' = all_threads /\ ms_creds w' = 1 /\
      ms_inited w' = true /\ ms_bdi w' = true /\
      exists r, ms_root w' = Some r /\ k_kill_litter_super (Some r) (ms_inodes w') = (Ok tt, ms_inodes w)
  | (Err _, w') => ~ mount_granted ev options w /\ restored w w' /\ bdi_left ev options w w'
  | (Fault, _) => mount_granted ev options w /\ me_dentry ev = false
  | (OutOfFuel, _) => False
  end.

Lemma fill_super_ok ev options w : not_mounted F ZERO_PAGE w -> fresh_inodes ev w ->
  mount_promise ev options w (sivfs_fill_super F ZERO_PAGE match_mode ev options w).
Proof.
  intros U [Hcp Hdir]. destruct (um_flags _ _ _ U) as (Hi & Hroot & Hc & Hl). destruct (um_log _ _ _ U) as [Hch Hen].
  assert (R0 : forall b, restored w (set_bdi b w)) by (intros b; by split).
  unfold sivfs_fill_super. set (opts := let? mode := _ in _).
  assert (Ho : opts = Ok tt \/ exists e, opts = Err e).
  { unfold opts, sivfs_parse_options. clear. generalize SIVFS_DEFAULT_MODE as mode. induction options as [|[|a p] ps IH]; intros mode; cbn [parse_pieces]; [by left|apply IH|].
    destruct (match_mode (String a p)) as [[o|]|]; [apply IH|right; by eexists|apply IH]. }
  assert (Hop : bdi_started ev options -> opts = Ok tt) by (intros [[mode Em] _]; unfold opts; by rewrite Em).
  assert (Hno : opts = Ok tt -> exists mode, sivfs_parse_options match_mode options = Ok mode).
  { unfold opts. destruct (sivfs_parse_options match_mode options) as [mode| | |]; try done. by exists mode. }
  destruct Ho as [Ho|[e Ho]]; rewrite Ho in *.
  2: { assert (Hnb : ~ bdi_started ev options) by (intros Hb; by apply Hop in Hb).
       split; [by intros [? _]|]. split; [|by left]. specialize (R0 (ms_bdi w)). by destruct w. }
  destruct (Hno eq_refl) as [mode Hmode]. clear Hop Hno.
  rewrite (bind_step (lift (Ok tt)) _ w tt w eq_refl). unfold sivfs_init_bdi. destruct (me_bdi_init ev) as [e|] eqn:Ebi.
  { assert (Hnb : ~ bdi_started ev options) by (intros [_ Hb]; congruence).
    split; [by intros [? _]|]. split; [|by left]. specialize (R0 (ms_bdi w)). by destruct w. }
  assert (Hbd : bdi_started ev options) by (split; [by exists mode|done]).
  set (w1 := set_bdi true w). rewrite bind_assoc, (bind_step (fail_with None) _ w tt w eq_refl), bind_assoc, (bind_step (modify (set_bdi true)) _ w tt w1 eq_refl).
  destruct (me_bdi_register ev) as [e|] eqn:Eb; [split; [intros (_ & ? & _); congruence|]; split; [apply R0|right; split; [done|by rewrite Eb]]|].
  rewrite (bind_step (fail_with None) _ w1 tt w1 eq_refl), (bind_step (gets ms_inited) _ w1 false w1) by (unfold gets; cbn; by rewrite Hi).
  assert (U1 : not_mounted F ZERO_PAGE w1) by (by destruct U).
  destruct (init_shared_ok F ZERO_PAGE ev w1 U1 Hcp) as [(Hsg & w2 & E & S & Hrm)|(Hnsg & e & w2 & E & R & _)].
  2: { rewrite (bind_err _ _ _ e (set_bdi false w2)); [split; [by intros (_ & _ & ? & _)|]; split; [by destruct R|right; by rewrite Eb]|].
       apply (on_error_err _ _ w1 e w2); [by apply bind_err|done]. }
  destruct (sd_flags _ _ _ _ _ S) as (Hi2 & Hr2 & Hb2 & Hd2).
  assert (Hfail : forall e, make_root ev w2 = (Err e, set_directories (ms_inodes w1) w2) -> me_root_inode ev = None -> mount_promise ev options w
    ((do! on_error (do! sivfs_init_shared_state F ZERO_PAGE ev in on_error (make_root ev) (sivfs_destroy_shared_state F ZERO_PAGE ev)) bdi_destroy in modify (set_inited true)) w1)).
  { intros e Ee Hnr. destruct (destroy_started_ok ev w w1 w2 (ms_inodes w1) S Hrm (R0 true) eq_refl) as (w3 & E3 & R & _).
    rewrite (bind_err _ _ _ e (set_bdi false w3)); [split; [by intros (_ & _ & _ & ?)|]; split; [by destruct R|right; by rewrite Eb]|].
    apply (on_error_err _ _ w1 e w3); [|done]. rewrite (bind_step _ _ _ _ _ E). by apply (on_error_err _ _ w2 e _ _ Ee). }
  assert (Hgr : me_root_inode ev <> None -> mount_granted ev options w) by (by intros ?; split_and!).
  unfold make_root in *. destruct (me_root_inode ev) as [i|] eqn:Eri.
  2: { apply (Hfail ENOMEM); [|done]. apply bind_err. rewrite <- Hd2. by apply dir_step. }
  specialize (Hdir i eq_refl). set (w3 := set_directories (<[i := 1]> (ms_inodes w2)) w2).
  assert (E3 : on_inodes (new_directory (Some i)) w2 = (Ok i, w3)) by (by apply dir_step).
  assert (Hone : ms_inodes w3 !! i = Some 1) by apply lookup_insert_eq.
  assert (Hback : delete i (ms_inodes w3) = ms_inodes w) by (cbn; rewrite Hd2; by apply delete_insert_id).
  destruct (me_dentry ev) eqn:Ed.
  - destruct (kr_make i (ms_inodes w3) Hone) as (r & Em & Ek).
    set (w4 := set_root (Some r) (set_directories (ms_inodes w3) w3)). destruct S as [S1 S2 [S3 S4] S5 _].
    rewrite (bind_step _ _ w1 tt w4); [unfold modify, mount_promise; cbn [ms_cps ms_log ms_live ms_bgt ms_creds ms_inited ms_bdi ms_root ms_inodes set_inited set_root set_directories w4]; split; [by apply Hgr|]; split_and!; try done; [exists r; split; [done|by rewrite Ek, Hback]]|].
    apply on_error_ok. rewrite (bind_step _ _ _ _ _ E). apply on_error_ok.
    by rewrite (bind_step _ _ _ _ _ E3), (bind_step _ _ _ _ _ (dir_step _ w3 _ _ Em)).
  - assert (Em := kr_make_fails i (ms_inodes w3) Hone). set (w4 := set_directories (delete i (ms_inodes w3)) w3).
    assert (Ef : exists w5, on_inodes (iput_directory i) w4 = (Fault, w5)).
    { unfold on_inodes, iput_directory. cbn [ms_inodes w4 set_directories]. rewrite lookup_delete_eq. by eexists. }
    destruct Ef as [w5 Ef]. unfold bind at 1, on_error at 1. rewrite (bind_step _ _ _ _ _ E). unfold on_error.
    rewrite (bind_step _ _ _ _ _ E3), (bind_step _ _ _ _ _ (dir_step _ w3 _ _ Em)). fold w4. unfold bind. rewrite Ef. split; [by apply Hgr|done].
Qed.
End super_outcome.

(** ** Properties *)

(** C17. The first mount is all or nothing, but for two things. It succeeds exactly
    when nothing it asks for is refused, and then leaves the empty checkpoint at
    time 0, an empty log, all three threads running and a root directory that
    unmounting drops again. When something other than the root's entry is
    refused it fails, wherever that is, and leaves the pages, inodes, directories,
    credentials, log memory and threads it found; the device information is gone
    too, except that it stays when registering it is refused
    ([failed_register_leaks_bdi]). When only the root's entry cannot be made the
    code puts the root inode a second time, a misuse of freed memory
    ([failed_root_puts_twice]). Mounting again is [remount_has_no_root]. *)
Theorem mount_outcome `{KR : KernelRootLaws} F ZERO_PAGE `{HF : !PtFlagsOk F} match_mode ev options w :
  not_mounted F ZERO_PAGE w -> fresh_inodes ev w -> mount_promise F ZERO_PAGE match_mode ev options w (sivfs_fill_super F ZERO_PAGE match_mode ev options w).
Proof. intros. by eapply fill_super_ok. Qed.

(** What unmounting does. *)
Definition unmount_promise (w : mstate) (dirs : gmap Z Z) (C : gmap Z nat) (o : res unit * mstate) : Prop :=
  destroyed (ms_cps w) C (fst o, ms_cps o.2) /\ (ls_cache (ms_log o.2) = ∅ /\ ls_chunks (ms_log o.2) = ∅ /\ ls_ents (ms_log o.2) = ∅) /\ ms_live o.2 = [] /\ ms_creds o.2 = 0 /\
  ms_bdi o.2 = false /\ ms_inodes o.2 = dirs /\ ms_inited o.2 = ms_inited w.

(** C19. Unmounting a file system that was mounted, with the checkpoints of any
    reachable state of Snapshots.v and the log of any reachable state of
    Protocol.v, succeeds when nobody refers to the pages any more: the threads
    stop, the whole log is freed (no entry stays in the cache, no chunk and no
    entry stays allocated), the credentials and the device information go, the
    tree of directory entries is dropped, and everything the checkpoints own is
    freed exactly once. Only the flag that says that the shared state is in use
    stays set. *)
Theorem unmount_frees_everything `{KernelRoot} F ZERO_PAGE `{HF : !PtFlagsOk F} L (x : cps * list holding) (y : sys) ev w dirs :
  reachable (snap_init F ZERO_PAGE L) (snap_step F ZERO_PAGE L) x -> ms_cps w = x.1 -> all_idle x.1 ->
  Protocol.reach y -> ms_log w = s_log y ->
  ms_inited w = true -> ms_bgt w = all_threads -> ms_live w = all_threads -> ms_creds w = 1 ->
  k_kill_litter_super (ms_root w) (ms_inodes w) = (Ok tt, dirs) ->
  exists C i, c_inodes x.1 !! c_latest x.1 = Some i /\ tree F ZERO_PAGE (ci_root i) (cpages x.1) C /\
    unmount_promise w dirs C (sivfs_kill_sb F ZERO_PAGE ev w).
Proof.
  intros Hr Ew Hid Hy Ey Hi Hp Hl Hc Hk. destruct (reach_log y Hy) as (Hlog & Hown & Hts). rewrite <- Ey in *.
  destruct (pool_distinct F ZERO_PAGE L _ Hr) as [[C Hlv] Hnd].
  destruct (lv_tree _ _ _ _ _ _ Hlv) as (i & Hii & T). exists C, i. split; [done|]. split; [done|].
  pose proof (destroy_ok F ZERO_PAGE L x.1 x.2 C i Hlv Hii Hid Hnd) as D. unfold sivfs_kill_sb, sivfs_destroy_shared_state.
  rewrite (bind_step (gets ms_inited) _ w true w) by (unfold gets; by rewrite Hi). set (w1 := set_bdi false w).
  rewrite bind_assoc, (bind_step bdi_destroy _ w tt w1 eq_refl), bind_assoc. set (w2 := set_threads (ms_bgt w1) [] w1).
  rewrite (bind_step _ _ w1 tt w2) by (apply destroy_background_ok; intros t; cbn; rewrite Hp, Hl; destruct t; set_solver).
  rewrite bind_assoc. destruct (delete_whole_log _ Hlog Hts Hown) as (did & l & El & Hcl). set (w3 := set_master_log l w2).
  rewrite (bind_step (on_master_log _) _ w2 did w3) by (unfold on_master_log; cbn [ms_log w2 w1 set_threads set_bdi]; by rewrite El).
  rewrite bind_assoc. set (w4 := set_creds 0 w3).
  rewrite (bind_step put_cred _ w3 tt w4) by (unfold put_cred; cbn [ms_creds w3 w2 w1 set_master_log set_threads set_bdi]; by rewrite Hc).
  destruct (sivfs_destroy_checkpoints F ZERO_PAGE x.1) as [r c'] eqn:Ed. assert (Er : r = Ok tt) by apply D. subst r.
  set (w5 := set_cps c' w4). rewrite (bind_step (on_checkpoints _) _ w4 tt w5) by (apply cp_step; change (ms_cps w4) with (ms_cps w); by rewrite Ew).
  rewrite (bind_step (gets ms_root) _ w5 (ms_root w) w5 eq_refl), (dir_step _ w5 _ _ Hk).
  split; [|split; [exact Hcl|split_and!; done]]. rewrite Ew. exact D.
Qed.

(** ** Examples *)

Definition sample_mount_env : mount_env :=
  mk_menv None None true (Some 16) false true (fun _ => None) (fun _ => false) (Some 7) true.
(** [gc_log_bgt] cannot be started. *)
Definition no_thread_env : mount_env :=
  mk_menv None None true (Some 16) false true (fun t => if decide (t = gc_log_bgt) then Some ENOMEM else None) (fun _ => false) (Some 7) true.
Definition no_entry_env : mount_env :=
  mk_menv None None true (Some 16) false true (fun _ => None) (fun _ => false) (Some 7) false.

Definition no_log : log_state := mk_ls (mk_log None 0 0 0) ∅ 0 ∅ ∅.
Definition sample_boot : mstate := mk_ms false false None no_log Snapshots.unmounted 0 [] [] ∅.
Definition no_pattern (s : string) : option (option Z) := None.

Lemma sample_boot_not_mounted : not_mounted x86_flags ZERO_PA sample_boot.
Proof.
  split; [done|done|]. split; [exact base_store_init|]. intros i Hi. destruct i as [|[|[|[|i]]]]; try lia; reflexivity.
Qed.

Lemma sample_fresh ev : me_cp_inode ev = Some 16 -> fresh_inodes ev sample_boot.
Proof. intros E. split; [intros ino Hino|done]. rewrite E in Hino. injection Hino as <-. by split. Qed.

Lemma mount_outcome_witness :
  (fst (sivfs_fill_super x86_flags ZERO_PA no_pattern sample_mount_env [EmptyString] sample_boot) = Ok tt /\
   ms_live (snd (sivfs_fill_super x86_flags ZERO_PA no_pattern sample_mount_env [EmptyString] sample_boot)) = all_threads) /\
  (fst (sivfs_fill_super x86_flags ZERO_PA no_pattern no_thread_env [EmptyString] sample_boot) = Err ENOMEM /\
   restored sample_boot (snd (sivfs_fill_super x86_flags ZERO_PA no_pattern no_thread_env [EmptyString] sample_boot))).
Proof.
  pose proof (mount_outcome x86_flags ZERO_PA no_pattern sample_mount_env [EmptyString] sample_boot sample_boot_not_mounted (sample_fresh sample_mount_env eq_refl)) as M1.
  pose proof (mount_outcome x86_flags ZERO_PA no_pattern no_thread_env [EmptyString] sample_boot sample_boot_not_mounted (sample_fresh no_thread_env eq_refl)) as M2.
  assert (E1 : fst (sivfs_fill_super x86_flags ZERO_PA no_pattern sample_mount_env [EmptyString] sample_boot) = Ok tt) by (vm_compute; reflexivity).
  assert (E2 : fst (sivfs_fill_super x86_flags ZERO_PA no_pattern no_thread_env [EmptyString] sample_boot) = Err ENOMEM) by (vm_compute; reflexivity).
  destruct (sivfs_fill_super _ _ _ sample_mount_env _ _) as [r1 w1], (sivfs_fill_super _ _ _ no_thread_env _ _) as [r2 w2].
  cbn [fst snd] in *. subst r1 r2. split; (split; [done|]); [apply M1|apply M2].
Defined.

(** A mount of the file system with the checkpoints [sample_end] and a log of two
    commits that fill a chunk each. *)
Definition many_writes (ino : Z) : list wse := (fun i => word_write ino (8 * Z.of_nat i) 1) <$> seq 0 40.
Definition sample_run : sys :=
  run_state (checkout 1 ++ checkout 2 ++ [ACommit 1 4096 (many_writes 1); ACommit 2 8192 (many_writes 2)] ++
    replicate 3 (ANext 1) ++ replicate 4 (ANext 2)).
Definition sample_mounted : mstate :=
  mk_ms true true (Some 7) (s_log sample_run) sample_end.1 1 all_threads all_threads {[7 := 1]}.

Example sample_mounted_chunks : size (ls_chunks (ms_log sample_mounted)) = 2%nat.
Proof. vm_compute. reflexivity. Qed.

Lemma unmount_frees_everything_witness : exists C w',
  sivfs_kill_sb x86_flags ZERO_PA sample_mount_env sample_mounted = (Ok tt, w') /\
  (forall q, released sample_end.1 C q -> cpages (ms_cps w') !! q = None) /\ ls_chunks (ms_log w') = ∅ /\ ms_live w' = [] /\ ms_inodes w' = ∅.
Proof.
  destruct (unmount_frees_everything x86_flags ZERO_PA sample_machine sample_end sample_run sample_mount_env sample_mounted ∅ sample_reachable eq_refl sample_end_idle (run_state_reach _) eq_refl)
    as (C & i & _ & _ & (Hr & Hg & _) & (_ & Hc & _) & Hl & _ & _ & Hd & _); try reflexivity.
  exists C. destruct (sivfs_kill_sb x86_flags ZERO_PA sample_mount_env sample_mounted) as [r w']. cbn [fst snd] in *. subst r.
  exists w'. by split_and!.
Defined.

(** ** Defects *)

(** Nothing resets [ms_inited], and fill_super leaves through error2 with the
    result 0 when it is set: mounting again after unmounting reports success for
    a superblock without a root directory. *)
Theorem remount_has_no_root `{KernelRoot} F ZERO_PAGE match_mode ev options w mode :
  sivfs_parse_options match_mode options = Ok mode -> me_bdi_init ev = None -> me_bdi_register ev = None -> ms_inited w = true ->
  exists w', sivfs_fill_super F ZERO_PAGE match_mode ev options (set_root None w) = (Ok tt, w') /\ ms_root w' = None /\ ms_bdi w' = false.
Proof.
  intros Ep E1 E2 Hi. unfold sivfs_fill_super. rewrite Ep. set (w0 := set_root None w). set (w1 := set_bdi true w0).
  rewrite (bind_step (lift _) _ w0 tt w0 eq_refl), (bind_step (sivfs_init_bdi ev) _ w0 tt w1) by (unfold sivfs_init_bdi; by rewrite E1, E2).
  rewrite (bind_step (gets ms_inited) _ w1 true w1) by (unfold gets; cbn; by rewrite Hi). by exists (set_bdi false w1).
Qed.

(** When d_make_root fails it has put the inode already; error4 puts it again. *)
Theorem failed_root_puts_twice :
  fst (sivfs_fill_super x86_flags ZERO_PA no_pattern no_entry_env [EmptyString] sample_boot) = Fault.
Proof. vm_compute. reflexivity. Qed.

(** When bdi_register_dev fails, what bdi_init set up stays. *)
Theorem failed_register_leaks_bdi `{KernelRoot} F ZERO_PAGE match_mode ev options w mode e :
  sivfs_parse_options match_mode options = Ok mode -> me_bdi_init ev = None -> me_bdi_register ev = Some e ->
  sivfs_fill_super F ZERO_PAGE match_mode ev options w = (Err e, set_bdi true w).
Proof.
  intros Ep E1 E2. unfold sivfs_fill_super. rewrite Ep. set (w1 := set_bdi true w).
  rewrite (bind_step (lift _) _ w tt w eq_refl). apply bind_err. unfold sivfs_init_bdi. by rewrite E1, E2.
Qed.
