(* ===== verification/Alloc.v ===== *)
(** The block allocator of a file (kern/alloc/sivfs_allocation.h,
    kern/alloc/sivfs_allocation.c): chunks that tile the file, the boundary
    recorded in each page, the free list, and the lists of chunks that a
    transaction allocated or will free.

    Chunks, files and threads are named by their addresses, 0 for NULL. A chunk
    has two list nodes; a list is the list of its chunks, first element first.
    Adding a node that is already in a list, and removing one that is in none,
    would corrupt the kernel's lists and is a [Fault]. A pginfo belongs to one
    page of one file, so the pointer to it is that page's number. *)
From S2P Require Import Prelude Types.

Definition SIVFS_CHUNK_ALLOCATED : Z := Z.shiftl 1 63.
Definition SIVFS_CHUNK_FREEING : Z := Z.shiftl 1 62.
Definition SIVFS_CHUNK_ALLOC_FLAGS : Z := Z.lor SIVFS_CHUNK_ALLOCATED SIVFS_CHUNK_FREEING.
Definition SIVFS_CHUNK_BOUNDARY_NULL : Z := u64 (-1).
Definition MAX_BLOCK_ALLOC_SIZE : Z := 64 * 1024 * 1024 * 1024.
(** [(size_t)-1]: the size of the wilderness. *)
Definition SIZE_MINUS_ONE : Z := u64 (-1).

(** ** State *)

Record sivfs_alloc_chunk : Type := mk_chunk {
  k_last_freed_ts : Z;
  k_start : Z;
  k_size : Z;
  k_ainfo : Z
}.

Record sivfs_allocator_pginfo : Type := mk_pginfo {
  pg_boundary_offset : Z;
  pg_ends_chunk : Z;
  pg_starts_chunk : Z
}.

Record sivfs_allocator_info : Type := mk_ainfo {
  ai_bestfit : list Z;
  ai_pginfo : gmap Z sivfs_allocator_pginfo
}.

(** The fields of [struct sivfs_state] that the allocator uses. *)
Record tstate : Type := mk_tstate {
  t_ts : Z;
  t_allocated_chunks : list Z;
  t_chunks_to_free : list Z;
  t_should_abort : bool
}.

Record astate : Type := mk_astate {
  a_infos : gmap Z sivfs_allocator_info;
  a_chunks : gmap Z sivfs_alloc_chunk;
  a_threads : gmap Z tstate
}.

Definition set_infos (m : gmap Z sivfs_allocator_info) (s : astate) : astate := mk_astate m (a_chunks s) (a_threads s).
Definition set_chunks (m : gmap Z sivfs_alloc_chunk) (s : astate) : astate := mk_astate (a_infos s) m (a_threads s).
Definition set_threads (m : gmap Z tstate) (s : astate) : astate := mk_astate (a_infos s) (a_chunks s) m.

Definition with_last_freed (t : Z) (k : sivfs_alloc_chunk) : sivfs_alloc_chunk := mk_chunk t (k_start k) (k_size k) (k_ainfo k).
Definition with_size (n : Z) (k : sivfs_alloc_chunk) : sivfs_alloc_chunk := mk_chunk (k_last_freed_ts k) (k_start k) n (k_ainfo k).
Definition with_bestfit (l : list Z) (i : sivfs_allocator_info) : sivfs_allocator_info := mk_ainfo l (ai_pginfo i).
Definition with_pginfo (m : gmap Z sivfs_allocator_pginfo) (i : sivfs_allocator_info) : sivfs_allocator_info := mk_ainfo (ai_bestfit i) m.
Definition with_allocated (l : list Z) (t : tstate) : tstate := mk_tstate (t_ts t) l (t_chunks_to_free t) (t_should_abort t).
Definition with_to_free (l : list Z) (t : tstate) : tstate := mk_tstate (t_ts t) (t_allocated_chunks t) l (t_should_abort t).
Definition with_should_abort (b : bool) (t : tstate) : tstate := mk_tstate (t_ts t) (t_allocated_chunks t) (t_chunks_to_free t) b.

Definition load_chunk (c : Z) : M astate sivfs_alloc_chunk := fun s => (deref (a_chunks s !! c), s).
Definition load_info (a : Z) : M astate sivfs_allocator_info := fun s => (deref (a_infos s !! a), s).
Definition load_thread (t : Z) : M astate tstate := fun s => (deref (a_threads s !! t), s).
Definition store_chunk (c : Z) (k : sivfs_alloc_chunk) : M astate unit := modify (fun s => set_chunks (<[c := k]> (a_chunks s)) s).
Definition store_info (a : Z) (i : sivfs_allocator_info) : M astate unit := modify (fun s => set_infos (<[a := i]> (a_infos s)) s).
Definition store_thread (t : Z) (x : tstate) : M astate unit := modify (fun s => set_threads (<[t := x]> (a_threads s)) s).

(** Through the pointer to the pginfo of page [pgoff] of file [a]. *)
Definition load_pginfo (a pgoff : Z) : M astate sivfs_allocator_pginfo :=
  let! i := load_info a in
  lift (deref (ai_pginfo i !! pgoff)).
Definition store_pginfo (a pgoff : Z) (p : sivfs_allocator_pginfo) : M astate unit :=
  let! i := load_info a in
  store_info a (with_pginfo (<[pgoff := p]> (ai_pginfo i)) i).

(** ** The lists *)

Definition in_bestfit_node (c : Z) (s : astate) : bool :=
  existsb (fun ai : Z * sivfs_allocator_info => bool_decide (c ∈ ai_bestfit ai.2)) (map_to_list (a_infos s))
  || existsb (fun t : Z * tstate => bool_decide (c ∈ t_allocated_chunks t.2)) (map_to_list (a_threads s)).
Definition in_free_node (c : Z) (s : astate) : bool :=
  existsb (fun t : Z * tstate => bool_decide (c ∈ t_chunks_to_free t.2)) (map_to_list (a_threads s)).

Definition without (c : Z) (l : list Z) : list Z := filter (fun x => x <> c) l.

(** [list_del(&c->lh_bestfit)], from whichever list holds the node. *)
Definition list_del_bestfit (c : Z) : M astate unit := fun s =>
  if in_bestfit_node c s then
    (Ok tt, mk_astate ((fun i => with_bestfit (without c (ai_bestfit i)) i) <$> a_infos s) (a_chunks s)
              ((fun t => with_allocated (without c (t_allocated_chunks t)) t) <$> a_threads s))
  else (Fault, s).
Definition list_del_to_free (c : Z) : M astate unit := fun s =>
  if in_free_node c s then
    (Ok tt, set_threads ((fun t => with_to_free (without c (t_chunks_to_free t)) t) <$> a_threads s) s)
  else (Fault, s).

(** [list_add(&c->lh_bestfit, list)]. *)
Definition list_add_bestfit (c a : Z) : M astate unit := fun s =>
  if in_bestfit_node c s then (Fault, s)
  else (let! i := load_info a in store_info a (with_bestfit (c :: ai_bestfit i) i)) s.
Definition list_add_allocated (c t : Z) : M astate unit := fun s =>
  if in_bestfit_node c s then (Fault, s)
  else (let! x := load_thread t in store_thread t (with_allocated (c :: t_allocated_chunks x) x)) s.
Definition list_add_to_free (c t : Z) : M astate unit := fun s =>
  if in_free_node c s then (Fault, s)
  else (let! x := load_thread t in store_thread t (with_to_free (c :: t_chunks_to_free x) x)) s.

(** ** Chunks and pginfos *)

Definition sivfs_alloc_chunk_is_free (chunk : sivfs_alloc_chunk) : bool :=
  Z.land (k_last_freed_ts chunk) SIVFS_CHUNK_ALLOCATED =? 0.
Definition sivfs_alloc_chunk_is_free_visible (chunk : sivfs_alloc_chunk) (test_ts : Z) : bool :=
  sivfs_alloc_chunk_is_free chunk &&
  (Z.land (k_last_freed_ts chunk) (unot SIVFS_CHUNK_ALLOC_FLAGS) <=? test_ts).

(** [km]: the address kzalloc returns. *)
Definition sivfs_new_alloc_chunk (km : option Z) (ainfo : Z) : M astate Z :=
  match km with
  | None => throw ENOMEM
  | Some c => do! store_chunk c (mk_chunk 0 0 0 ainfo) in ret c
  end.
Definition sivfs_put_alloc_chunk (c : Z) : M astate unit := fun s =>
  if c =? 0 then (Ok tt, s)
  else match a_chunks s !! c with
       | None => (Fault, s)
       | Some _ => (Ok tt, set_chunks (delete c (a_chunks s)) s)
       end.

(** Which allocations succeed: a pginfo and its tree node, by page; a chunk. *)
Record alloc_env : Type := mk_aenv {
  av_pginfo : Z -> bool;
  av_node : Z -> bool;
  av_chunk : option Z
}.

Definition zero_pginfo : sivfs_allocator_pginfo := mk_pginfo 0 0 0.

(** The pginfo of [offset], inserted when there is none. *)
Definition sivfs_alloc_get_pginfo (ev : alloc_env) (ainfo offset : Z) : M astate Z :=
  let pgoff := offset / PAGE_SIZE in
  let! i := load_info ainfo in
  match ai_pginfo i !! pgoff with
  | Some _ => ret pgoff
  | None =>
    if av_pginfo ev pgoff then
      if av_node ev pgoff then
        do! store_info ainfo (with_pginfo (<[pgoff := zero_pginfo]> (ai_pginfo i)) i) in
        ret pgoff
      else throw ENOMEM
    else throw ENOMEM
  end.

Definition sivfs_new_allocator_info (km : option Z) : M astate Z :=
  match km with
  | None => throw ENOMEM
  | Some a => do! store_info a (mk_ainfo [] ∅) in ret a
  end.

Definition sivfs_alloc_info_recover (ev : alloc_env) (ainfo : Z) (recovery_info : bool) : M astate unit :=
  if recovery_info then throw EINVAL
  else
    let wild_start := 0 in
    let! start_pginfo := sivfs_alloc_get_pginfo ev ainfo wild_start in
    let! wilderness := sivfs_new_alloc_chunk (av_chunk ev) ainfo in
    let! p := load_pginfo ainfo start_pginfo in
    do! store_pginfo ainfo start_pginfo (mk_pginfo 0 (pg_ends_chunk p) wilderness) in
    let! k := load_chunk wilderness in
    do! store_chunk wilderness (with_size SIZE_MINUS_ONE k) in
    list_add_bestfit wilderness ainfo.

(** ** Allocating a block *)

(** The walk over the free list: the chunk found, and the last wilderness seen. *)
Fixpoint first_fit (l : list Z) (size_requested ts wilderness : Z) : M astate (option Z * Z) :=
  match l with
  | [] => ret (None, wilderness)
  | cur :: l =>
    let! k := load_chunk cur in
    if k_size k <? size_requested then first_fit l size_requested ts wilderness
    else if k_size k =? SIZE_MINUS_ONE then first_fit l size_requested ts cur
    else if negb (sivfs_alloc_chunk_is_free_visible k ts) then first_fit l size_requested ts wilderness
    else ret (Some cur, wilderness)
  end.

(** Splitting [cur] after [size_requested] bytes. *)
Definition split_chunk (ev : alloc_env) (ainfo cur size_requested : Z) : M astate unit :=
  let! k := load_chunk cur in
  let split_boundary := uadd (k_start k) size_requested in
  let has_end := negb (k_size k =? SIZE_MINUS_ONE) in
  let remain_size := if has_end then usub (k_size k) size_requested else k_size k in
  let! bound_pginfo := sivfs_alloc_get_pginfo ev ainfo split_boundary in
  let! end_pginfo := (if has_end then sivfs_alloc_get_pginfo ev ainfo (uadd (k_start k) (k_size k)) else ret 0) in
  let! remain_chunk := sivfs_new_alloc_chunk (av_chunk ev) ainfo in
  do! store_chunk cur (with_size size_requested k) in
  do! store_chunk remain_chunk (mk_chunk (k_last_freed_ts k) split_boundary remain_size ainfo) in
  do! store_pginfo ainfo bound_pginfo (mk_pginfo (split_boundary mod PAGE_SIZE) cur remain_chunk) in
  do! (if has_end then
         let! p := load_pginfo ainfo end_pginfo in
         store_pginfo ainfo end_pginfo (mk_pginfo (pg_boundary_offset p) remain_chunk (pg_starts_chunk p))
       else ret tt) in
  list_add_bestfit remain_chunk ainfo.

(** The offset and the size of the block. *)
Definition sivfs_alloc_block (ev : alloc_env) (state ainfo size_requested : Z) : M astate (Z * Z) :=
  if MAX_BLOCK_ALLOC_SIZE <? size_requested then throw EINVAL
  else if negb (size_requested mod SIZEOF_WORD =? 0) then throw EINVAL
  else
    let! i := load_info ainfo in
    let! th := load_thread state in
    let! r := first_fit (ai_bestfit i) size_requested (t_ts th) 0 in
    let '(found, wilderness) := r in
    match (match found with Some c => Some c | None => if wilderness =? 0 then None else Some wilderness end) with
    | None => throw ENOMEM
    | Some cur =>
      let! k := load_chunk cur in
      do! (if uadd size_requested PAGE_SIZE <? k_size k then split_chunk ev ainfo cur size_requested else ret tt) in
      do! list_del_bestfit cur in
      do! list_add_allocated cur state in
      let! k := load_chunk cur in
      do! store_chunk cur (with_last_freed (Z.lor (k_last_freed_ts k) SIVFS_CHUNK_ALLOCATED) k) in
      ret (k_start k, k_size k)
    end.

(** ** Freeing a block *)

Definition set_should_abort (state : Z) : M astate unit :=
  let! th := load_thread state in
  store_thread state (with_should_abort true th).

Definition sivfs_free_block (ev : alloc_env) (state ainfo block_offset : Z) : M astate unit :=
  let! pginfo := sivfs_alloc_get_pginfo ev ainfo block_offset in
  let! p := load_pginfo ainfo pginfo in
  if pg_boundary_offset p =? SIVFS_CHUNK_BOUNDARY_NULL then set_should_abort state
  else if negb (pg_boundary_offset p =? block_offset mod PAGE_SIZE) then set_should_abort state
  else
    let chunk := pg_starts_chunk p in
    let! k := load_chunk chunk in
    if sivfs_alloc_chunk_is_free k then set_should_abort state
    else
      let! th := load_thread state in
      if t_ts th <? Z.land (k_last_freed_ts k) (unot SIVFS_CHUNK_ALLOC_FLAGS) then set_should_abort state
      else
        do! store_chunk chunk (with_last_freed
              (Z.lor (Z.land (k_last_freed_ts k) (unot SIVFS_CHUNK_ALLOCATED)) SIVFS_CHUNK_FREEING) k) in
        list_add_to_free chunk state.

(** ** Coalescing *)

(** Whether the next chunk was merged into [chunk], and the budget left. *)
Definition sivfs_coalesce_with_next (ev : alloc_env) (coalesce_budget chunk ainfo : Z) : M astate (bool * Z) :=
  let! k := load_chunk chunk in
  let coalesce_boundary := uadd (k_start k) (k_size k) in
  let! coalesce_pginfo := sivfs_alloc_get_pginfo ev ainfo coalesce_boundary in
  let! p := load_pginfo ainfo coalesce_pginfo in
  let coalesce_chunk := pg_starts_chunk p in
  if coalesce_chunk =? 0 then ret (false, coalesce_budget)
  else
    let! kc := load_chunk coalesce_chunk in
    if negb (Z.land (k_last_freed_ts kc) (Z.lor SIVFS_CHUNK_FREEING SIVFS_CHUNK_ALLOCATED) =? 0)
    then ret (false, coalesce_budget)
    else if k_size kc =? SIZE_MINUS_ONE then ret (false, coalesce_budget)
    else if coalesce_budget <? k_size kc then ret (false, coalesce_budget)
    else
      let coalesce_end := uadd (k_start kc) (k_size kc) in
      let! coalesce_end_pginfo := sivfs_alloc_get_pginfo ev ainfo coalesce_end in
      do! sivfs_alloc_get_pginfo ev ainfo (k_start k) in
      do! store_chunk chunk (with_size (uadd (k_size k) (k_size kc)) k) in
      do! store_pginfo ainfo coalesce_pginfo (mk_pginfo SIVFS_CHUNK_BOUNDARY_NULL 0 0) in
      let! e := load_pginfo ainfo coalesce_end_pginfo in
      do! store_pginfo ainfo coalesce_end_pginfo (mk_pginfo (pg_boundary_offset e) chunk (pg_starts_chunk e)) in
      do! list_del_bestfit coalesce_chunk in
      do! sivfs_put_alloc_chunk coalesce_chunk in
      ret (true, usub coalesce_budget (k_size kc)).

(** The chunk that [chunk] was merged into, 0 for none. *)
Definition sivfs_coalesce_with_prev (ev : alloc_env) (coalesce_budget chunk ainfo : Z) : M astate (Z * Z) :=
  let! k := load_chunk chunk in
  let! chunk_pginfo := sivfs_alloc_get_pginfo ev ainfo (k_start k) in
  let! p := load_pginfo ainfo chunk_pginfo in
  let prev := pg_ends_chunk p in
  if prev =? 0 then ret (0, coalesce_budget)
  else
    let! r := sivfs_coalesce_with_next ev coalesce_budget prev ainfo in
    let '(did_coalesce, coalesce_budget) := r in
    ret (if did_coalesce then prev else 0, coalesce_budget).

Fixpoint coalesce_next_loop (ev : alloc_env) (fuel : nat) (coalesce_budget chunk ainfo : Z) : M astate Z :=
  match fuel with
  | O => lift OutOfFuel
  | S fuel =>
    let! r := sivfs_coalesce_with_next ev coalesce_budget chunk ainfo in
    let '(did_coalesce, coalesce_budget) := r in
    if did_coalesce then coalesce_next_loop ev fuel coalesce_budget chunk ainfo else ret coalesce_budget
  end.

Fixpoint coalesce_prev_loop (ev : alloc_env) (fuel : nat) (coalesce_budget chunk ainfo : Z) : M astate unit :=
  match fuel with
  | O => lift OutOfFuel
  | S fuel =>
    let! r := sivfs_coalesce_with_prev ev coalesce_budget chunk ainfo in
    let '(merged_into, coalesce_budget) := r in
    if merged_into =? 0 then ret tt else coalesce_prev_loop ev fuel coalesce_budget merged_into ainfo
  end.

Definition _sivfs_free_block (ev : alloc_env) (chunk commit_ts : Z) : M astate unit :=
  let! k := load_chunk chunk in
  let alloc_info := k_ainfo k in
  if alloc_info =? 0 then throw EINVAL
  else
    let last := if commit_ts =? SIVFS_INVALID_TS then k_last_freed_ts k else commit_ts in
    do! store_chunk chunk (with_last_freed
          (Z.land (Z.land last (unot SIVFS_CHUNK_ALLOCATED)) (unot SIVFS_CHUNK_FREEING)) k) in
    do! list_add_bestfit chunk alloc_info in
    let! n := gets (fun s => S (size (a_chunks s))) in
    let! coalesce_budget := coalesce_next_loop ev n (umul (k_size k) 4) chunk alloc_info in
    coalesce_prev_loop ev n coalesce_budget chunk alloc_info.

(** ** Commit and abort *)

(** [list_for_each_entry_safe]; any error of the body is reported as EINVAL. *)
Fixpoint for_each_chunk (body : Z -> M astate unit) (l : list Z) : M astate unit :=
  match l with
  | [] => ret tt
  | cur :: l => do! body cur in for_each_chunk body l
  end.

Definition as_einval (m : M astate unit) : M astate unit := fun s =>
  match m s with
  | (Err _, s') => (Err EINVAL, s')
  | r => r
  end.

Definition _sivfs_allocation_on_commit (ev : alloc_env) (state commit_ts : Z) : M astate unit :=
  let! th := load_thread state in
  do! for_each_chunk list_del_bestfit (t_allocated_chunks th) in
  let! th := load_thread state in
  for_each_chunk (fun cur =>
    do! list_del_to_free cur in
    as_einval (_sivfs_free_block ev cur commit_ts)) (t_chunks_to_free th).

(** Undoing the tentative free of a chunk. *)
Definition abort_free (cur : Z) : M astate unit :=
  do! list_del_to_free cur in
  let! k := load_chunk cur in
  if k_ainfo k =? 0 then throw EINVAL
  else store_chunk cur (with_last_freed
         (Z.lor (Z.land (k_last_freed_ts k) SIVFS_CHUNK_ALLOC_FLAGS) SIVFS_CHUNK_ALLOCATED) k).

Definition _sivfs_allocation_on_abort (ev : alloc_env) (state : Z) : M astate unit :=
  let! th := load_thread state in
  do! for_each_chunk abort_free (t_chunks_to_free th) in
  let! th := load_thread state in
  for_each_chunk (fun cur =>
    do! list_del_bestfit cur in
    as_einval (_sivfs_free_block ev cur SIVFS_INVALID_TS)) (t_allocated_chunks th).

Definition sivfs_allocation_on_commit (ev : alloc_env) (state : Z) (aborted : bool) (commit_ts : Z) : M astate unit :=
  if aborted then _sivfs_allocation_on_abort ev state
  else _sivfs_allocation_on_commit ev state commit_ts.
