(* ===== verification/AllocLayout.v ===== *)
(** How chunks tile a file and how the boundaries are recorded in its pages:
    the data invariant of kern/alloc/sivfs_allocation.c, and what splitting and
    merging chunks do to it. *)
From S2P Require Import Prelude Types Alloc.

(** ** The list of boundaries *)

Definition kstart (ch : gmap Z sivfs_alloc_chunk) (c : Z) : Z := match ch !! c with Some k => k_start k | None => 0 end.

(** A boundary: its offset, the chunk it ends (0 for none) and the one it starts. *)
Definition boundary : Type := Z * (Z * Z).
Definition bpage (b : boundary) : Z := b.1 / PAGE_SIZE.
Definition binfo (b : boundary) : sivfs_allocator_pginfo := mk_pginfo (b.1 mod PAGE_SIZE) b.2.1 b.2.2.

Fixpoint bounds (ch : gmap Z sivfs_alloc_chunk) (prev : Z) (l : list Z) : list boundary :=
  match l with
  | [] => []
  | c :: l => (kstart ch c, (prev, c)) :: bounds ch c l
  end.

Definition last_of (prev : Z) (l : list Z) : Z := default prev (last l).

Lemma bounds_app ch prev l1 l2 : bounds ch prev (l1 ++ l2) = bounds ch prev l1 ++ bounds ch (last_of prev l1) l2.
Proof.
  revert prev. induction l1 as [|c l1 IH]; intros prev; [done|]. cbn [bounds app]. rewrite IH.
  unfold last_of. rewrite last_cons. by destruct (last l1).
Qed.

Lemma bounds_ext ch ch' prev l : (forall c, c ∈ l -> kstart ch' c = kstart ch c) -> bounds ch' prev l = bounds ch prev l.
Proof.
  revert prev. induction l as [|c l IH]; intros prev H; [done|]. cbn [bounds].
  rewrite H by left. f_equal. apply IH. intros x Hx. apply H. by right.
Qed.

(** ** The pages record exactly the boundaries *)

Definition blank (g : sivfs_allocator_pginfo) : Prop :=
  pg_ends_chunk g = 0 /\ pg_starts_chunk g = 0 /\ (pg_boundary_offset g = 0 \/ pg_boundary_offset g = SIVFS_CHUNK_BOUNDARY_NULL).

Definition pg_ok (P : list boundary) (pgs : gmap Z sivfs_allocator_pginfo) : Prop :=
  (forall b, b ∈ P -> pgs !! bpage b = Some (binfo b)) /\
  (forall p g, pgs !! p = Some g -> p ∈ bpage <$> P \/ blank g).

Lemma pg_ok_blank P pgs p : pg_ok P pgs -> pgs !! p = None -> pg_ok P (<[p := zero_pginfo]> pgs).
Proof.
  intros [H1 H2] Hp. split.
  - intros b Hb. rewrite lookup_insert_ne; [by apply H1|]. intros ->. by rewrite (H1 b Hb) in Hp.
  - intros q g. rewrite lookup_insert. case_decide; [intros [= <-]; right; repeat split; by left|apply H2].
Qed.

(** A page in which no boundary lies may be blanked, a boundary added. *)
Lemma pg_ok_add P1 P2 b pgs : pg_ok (P1 ++ P2) pgs -> bpage b ∉ bpage <$> (P1 ++ P2) ->
  pg_ok (P1 ++ b :: P2) (<[bpage b := binfo b]> pgs).
Proof.
  intros [H1 H2] Hn. split.
  - intros x Hx. rewrite lookup_insert. case_decide as E.
    + assert (x = b) as ->; [|done].
      assert (Hin : x ∈ P1 ++ P2 \/ x = b) by (revert Hx; rewrite !elem_of_app, elem_of_cons; tauto).
      destruct Hin as [Hin|?]; [|done]. destruct Hn. rewrite E. by apply list_elem_of_fmap_2.
    + apply H1. revert Hx. rewrite !elem_of_app, elem_of_cons. intros [?|[->|?]]; auto. done.
  - intros q g. rewrite lookup_insert. rewrite fmap_app, fmap_cons. case_decide as E.
    + intros _. left. subst q. rewrite elem_of_app, elem_of_cons. auto.
    + intros Hg. destruct (H2 q g Hg) as [Hq|?]; [left|by right]. revert Hq. rewrite fmap_app, !elem_of_app, elem_of_cons. tauto.
Qed.

Lemma pg_ok_remove P1 b P2 pgs : pg_ok (P1 ++ b :: P2) pgs -> NoDup (bpage <$> (P1 ++ b :: P2)) ->
  pg_ok (P1 ++ P2) (<[bpage b := mk_pginfo SIVFS_CHUNK_BOUNDARY_NULL 0 0]> pgs).
Proof.
  intros [H1 H2] Hnd. rewrite fmap_app, fmap_cons in Hnd. apply NoDup_app in Hnd as (_ & Hd & Hc).
  apply NoDup_cons in Hc as [Hb _]. split.
  - intros x Hx. rewrite lookup_insert_ne.
    + apply H1. revert Hx. rewrite !elem_of_app, elem_of_cons. tauto.
    + intros E. apply elem_of_app in Hx as [Hx|Hx].
      * apply (Hd (bpage x)); [by apply list_elem_of_fmap_2|rewrite E; left].
      * apply Hb. rewrite E. by apply list_elem_of_fmap_2.
  - intros q g. rewrite lookup_insert. case_decide; [intros [= <-]; right; repeat split; by right|].
    intros Hg. destruct (H2 q g Hg) as [Hq|?]; [left|by right]. revert Hq.
    rewrite !fmap_app, fmap_cons, !elem_of_app, elem_of_cons. naive_solver.
Qed.

(** A boundary replaced by one in the same page. *)
Lemma pg_ok_update P1 b b' P2 pgs : pg_ok (P1 ++ b :: P2) pgs -> NoDup (bpage <$> (P1 ++ b :: P2)) -> bpage b' = bpage b ->
  pg_ok (P1 ++ b' :: P2) (<[bpage b := binfo b']> pgs).
Proof.
  intros Hok Hnd E. pose proof (pg_ok_remove _ _ _ _ Hok Hnd) as Hr.
  rewrite fmap_app, fmap_cons in Hnd. apply NoDup_app in Hnd as (_ & Hd & Hc). apply NoDup_cons in Hc as [Hb _].
  eapply (pg_ok_add _ _ b') in Hr; [by rewrite E, insert_insert_eq in Hr|].
  rewrite E, fmap_app, elem_of_app. intros [H|H]; [|done]. apply (Hd _ H). left.
Qed.

(** ** The tiling *)

Definition busy (k : sivfs_alloc_chunk) : bool := negb (Z.land (k_last_freed_ts k) SIVFS_CHUNK_ALLOC_FLAGS =? 0).

(** The chunks of [l] cover [pos, pos') one after the other. *)
Fixpoint tiles (ch : gmap Z sivfs_alloc_chunk) (a pos : Z) (l : list Z) (pos' : Z) : Prop :=
  match l with
  | [] => pos = pos'
  | c :: l => exists k, ch !! c = Some k /\ k_ainfo k = a /\ k_start k = pos /\ c <> 0 /\ PAGE_SIZE <= k_size k /\
      tiles ch a (pos + k_size k) l pos'
  end.

Definition wilderness_at (ch : gmap Z sivfs_alloc_chunk) (a e w : Z) : Prop :=
  exists k, ch !! w = Some k /\ k_ainfo k = a /\ k_start k = e /\ w <> 0 /\ k_size k = SIZE_MINUS_ONE /\ busy k = false.

(** Offsets stay below this bound, so that none of them wraps. *)
Definition FILE_LIMIT : Z := 2 ^ 62.

Record layout (ch : gmap Z sivfs_alloc_chunk) (a : Z) (pgs : gmap Z sivfs_allocator_pginfo) (l : list Z) (w : Z) : Prop := {
  lo_tiles : exists e, e < FILE_LIMIT /\ tiles ch a 0 l e /\ wilderness_at ch a e w;
  lo_pg : pg_ok (bounds ch 0 (l ++ [w])) pgs;
  lo_all : forall c k, ch !! c = Some k -> k_ainfo k = a -> c ∈ l ++ [w]
}.

Lemma tiles_app ch a l1 l2 : forall pos pos', tiles ch a pos (l1 ++ l2) pos' <-> exists m, tiles ch a pos l1 m /\ tiles ch a m l2 pos'.
Proof.
  induction l1 as [|c l1 IH]; intros pos pos'; cbn [app tiles].
  - split; [by exists pos|]. by intros (m & <- & H).
  - split.
    + intros (k & ? & ? & ? & ? & ? & (m & ? & ?)%IH). exists m. split; [|done]. exists k. done.
    + intros (m & (k & ? & ? & ? & ? & ? & ?) & ?). exists k. split_and!; try done. apply IH. by exists m.
Qed.

Lemma tiles_ext ch ch' a l : forall pos pos', (forall c, c ∈ l -> ch' !! c = ch !! c) -> tiles ch a pos l pos' -> tiles ch' a pos l pos'.
Proof.
  induction l as [|c l IH]; intros pos pos' He; cbn [tiles]; [done|].
  intros (k & Hk & ? & ? & ? & ? & Ht). exists k. rewrite He by left. split_and!; try done.
  apply IH; [|done]. intros x Hx. apply He. by right.
Qed.

Lemma tiles_le ch a l : forall pos pos', tiles ch a pos l pos' -> pos <= pos'.
Proof.
  induction l as [|c l IH]; intros pos pos'; cbn [tiles]; [lia|].
  intros (k & _ & _ & _ & _ & Hs & Ht%IH). unfold PAGE_SIZE in Hs. lia.
Qed.

Lemma tiles_member ch a l c : forall pos pos', tiles ch a pos l pos' -> c ∈ l ->
  exists k, ch !! c = Some k /\ k_ainfo k = a /\ c <> 0 /\ PAGE_SIZE <= k_size k /\ pos <= k_start k /\ k_start k + k_size k <= pos'.
Proof.
  induction l as [|d l IH]; intros pos pos'; cbn [tiles]; [by intros _ H%not_elem_of_nil|].
  intros (k & Hk & Ha & Hs & H0 & Hz & Ht) [->|Hin]%elem_of_cons.
  - exists k. pose proof (tiles_le _ _ _ _ _ Ht). split_and!; try done; lia.
  - destruct (IH _ _ Ht Hin) as (k' & ? & ? & ? & ? & ? & ?). exists k'. unfold PAGE_SIZE in *. split_and!; try done; lia.
Qed.

Section layout_facts.
Context (ch : gmap Z sivfs_alloc_chunk) (a : Z) (pgs : gmap Z sivfs_allocator_pginfo) (l : list Z) (w : Z) (Hlo : layout ch a pgs l w).

(** Starts are strictly increasing by at least a page. *)
Lemma tiles_bounds prev l' : forall pos pos', tiles ch a pos l' pos' -> forall b, b ∈ bounds ch prev l' -> pos <= b.1 /\ b.1 + PAGE_SIZE <= pos'.
Proof.
  revert prev. induction l' as [|c l' IH]; intros prev pos pos'; cbn [tiles bounds]; [by intros _ b H%not_elem_of_nil|].
  intros (k & Hk & _ & Hs & _ & Hz & Ht) b [->|Hb]%elem_of_cons; unfold PAGE_SIZE in *.
  - simpl. unfold kstart. rewrite Hk. pose proof (tiles_le _ _ _ _ _ Ht). lia.
  - destruct (IH _ _ _ Ht b Hb). unfold PAGE_SIZE in *. lia.
Qed.

Lemma bounds_pages_nodup prev e l' : forall pos, 0 <= pos -> tiles ch a pos l' e -> wilderness_at ch a e w ->
  NoDup (bpage <$> bounds ch prev (l' ++ [w])) /\ forall b, b ∈ bounds ch prev (l' ++ [w]) -> pos <= b.1.
Proof.
  revert prev. induction l' as [|c l' IH]; intros prev pos H0; cbn [app tiles bounds].
  - intros <- (k & Hk & _ & Hs & _). split; [apply NoDup_singleton|]. intros b ->%list_elem_of_singleton. simpl. unfold kstart. rewrite Hk. lia.
  - intros (k & Hk & _ & Hs & _ & Hz & Ht) Hw. unfold PAGE_SIZE in Hz. destruct (IH c (pos + k_size k) ltac:(lia) Ht Hw) as [Hnd Hle].
    assert (Hst : kstart ch c = pos) by (unfold kstart; by rewrite Hk). split.
    + rewrite fmap_cons. apply NoDup_cons. split; [|done]. intros (b & E & Hb)%list_elem_of_fmap.
      specialize (Hle b Hb). unfold bpage, PAGE_SIZE in E. simpl in E. rewrite Hst in E.
      assert (pos / 4096 + 1 <= b.1 / 4096); [|lia]. apply Z.div_le_lower_bound; [lia|]. pose proof (Z.mul_div_le pos 4096). lia.
    + intros b [->|Hb]%elem_of_cons; [simpl; lia|]. specialize (Hle b Hb). lia.
Qed.

Lemma layout_nodup : NoDup (bpage <$> bounds ch 0 (l ++ [w])).
Proof. destruct (lo_tiles _ _ _ _ _ Hlo) as (e & _ & Ht & Hw). by apply (bounds_pages_nodup 0 e l 0). Qed.

Lemma bounds_snd prev l' : (fun b : boundary => b.2.2) <$> bounds ch prev l' = l'.
Proof. revert prev. induction l' as [|c l' IH]; intros prev; [done|]. cbn [bounds]. rewrite fmap_cons, IH. done. Qed.

Lemma layout_members : NoDup (l ++ [w]).
Proof.
  rewrite <- (bounds_snd 0 (l ++ [w])). pose proof layout_nodup as H.
  assert (Hinj : forall P : list boundary, NoDup (bpage <$> P) -> (forall b b', b ∈ P -> b' ∈ P -> b.2.2 = b'.2.2 -> bpage b = bpage b') ->
    NoDup ((fun b : boundary => b.2.2) <$> P)).
  { induction P as [|b P IH]; [constructor|]. rewrite !fmap_cons. intros [Hn Hd]%NoDup_cons Heq. apply NoDup_cons. split.
    - intros (b' & E & Hb')%list_elem_of_fmap. apply Hn. rewrite (Heq b b'); [by apply list_elem_of_fmap_2|left|by right|done].
    - apply IH; [done|]. intros x y Hx Hy. apply Heq; by right. }
  apply Hinj; [done|]. intros b b' Hb Hb' E. unfold bpage.
  assert (Hs : forall prev l' x, x ∈ bounds ch prev l' -> x.1 = kstart ch x.2.2).
  { clear. intros prev l' x. revert prev. induction l' as [|c l' IH]; intros prev; cbn [bounds]; [by intros H%not_elem_of_nil|].
    intros [->|H]%elem_of_cons; [done|by eapply IH]. }
  by rewrite (Hs _ _ _ Hb), (Hs _ _ _ Hb'), E.
Qed.
End layout_facts.

(** ** One chunk of the tiling *)

Lemma last_of_snoc p l c : last_of p (l ++ [c]) = c.
Proof. unfold last_of. by rewrite last_snoc. Qed.

(** The first boundary after [c] is where [c] ends. *)
Lemma next_start ch a pos l e w : tiles ch a pos l e -> wilderness_at ch a e w ->
  exists h t, l ++ [w] = h :: t /\ kstart ch h = pos /\ h <> 0 /\ is_Some (ch !! h).
Proof.
  destruct l as [|h l]; cbn [tiles app].
  - intros <- (k & Hk & _ & Hs & H0 & _). exists w, []. unfold kstart. rewrite Hk. done.
  - intros (k & Hk & _ & Hs & H0 & _) _. exists h, (l ++ [w]). unfold kstart. rewrite Hk. done.
Qed.

(** What holds of a chunk of the tiling other than the wilderness. *)
Record chunk_at (ch : gmap Z sivfs_alloc_chunk) (a : Z) (l1 : list Z) (c : Z) (l2 : list Z) (w : Z) (k : sivfs_alloc_chunk) : Prop := {
  ca_info : k_ainfo k = a /\ c <> 0;
  ca_size : PAGE_SIZE <= k_size k;
  ca_range : 0 <= k_start k /\ k_start k + k_size k < FILE_LIMIT;
  ca_next : exists h t, l2 ++ [w] = h :: t /\ kstart ch h = k_start k + k_size k /\ h <> 0 /\ is_Some (ch !! h)
}.

Lemma layout_chunk ch a pgs l1 c l2 w k : layout ch a pgs (l1 ++ c :: l2) w -> ch !! c = Some k -> chunk_at ch a l1 c l2 w k.
Proof.
  intros [(e & He & Ht & Hw) _ _] Hk. apply tiles_app in Ht as (m & Ht1 & (k' & Hk' & Ha & Hs & H0 & Hz & Ht2)). simplify_eq.
  pose proof (tiles_le _ _ _ _ _ Ht1). pose proof (tiles_le _ _ _ _ _ Ht2). split; try done; [lia|].
  eapply next_start; done.
Qed.

(** The page of a boundary. *)
Lemma layout_boundary ch a pgs l w L1 d L2 : layout ch a pgs l w -> l ++ [w] = L1 ++ d :: L2 ->
  pgs !! (kstart ch d / PAGE_SIZE) = Some (mk_pginfo (kstart ch d mod PAGE_SIZE) (last_of 0 L1) d).
Proof.
  intros Hlo E. destruct (lo_pg _ _ _ _ _ Hlo) as [H _]. rewrite E, bounds_app in H. cbn [bounds] in H.
  apply (H (kstart ch d, (last_of 0 L1, d))). rewrite elem_of_app. right. left.
Qed.

Section member.
Context (ch : gmap Z sivfs_alloc_chunk) (a : Z) (pgs : gmap Z sivfs_allocator_pginfo).

(** The chunk of a split or merge occurs once. *)
Lemma member_once l1 c l2 w : layout ch a pgs (l1 ++ c :: l2) w -> c ∉ l1 /\ c ∉ l2 ++ [w] /\ NoDup (l2 ++ [w]) /\ NoDup l1 /\
  forall x, x ∈ l1 -> x ∉ l2 ++ [w].
Proof.
  intros H%layout_members. rewrite <- app_assoc in H. cbn [app] in H. apply NoDup_app in H as (H1 & Hd & [Hc H2]%NoDup_cons).
  split_and!; try done.
  - intros Hin. apply (Hd c Hin). left.
  - intros x Hx Hx'. apply (Hd x Hx). by right.
Qed.

(** Resizing [c] moves no start. *)
Lemma kstart_resize c k n x : ch !! c = Some k -> kstart (<[c := with_size n k]> ch) x = kstart ch x.
Proof. intros Hk. unfold kstart. rewrite lookup_insert. case_decide as E; [subst x; by rewrite Hk|done]. Qed.

Lemma kstart_insert_ne r kr x : r <> x -> kstart (<[r := kr]> ch) x = kstart ch x.
Proof. intros H. unfold kstart. by rewrite lookup_insert_ne. Qed.
Lemma kstart_delete_ne r x : r <> x -> kstart (delete r ch) x = kstart ch x.
Proof. intros H. unfold kstart. by rewrite lookup_delete_ne. Qed.

(** The pages after a split of [c] into [c] and [r]: [c] ended where [h] starts. *)
Lemma pg_split ch1 L1 c r h L2 :
  (forall x, x ∈ L1 ++ c :: h :: L2 -> kstart ch1 x = kstart ch x) -> pg_ok (bounds ch 0 (L1 ++ c :: h :: L2)) pgs ->
  NoDup (bpage <$> bounds ch1 0 (L1 ++ c :: r :: h :: L2)) ->
  pg_ok (bounds ch1 0 (L1 ++ c :: r :: h :: L2)) (<[bpage (kstart ch h, (r, h)) := binfo (kstart ch h, (r, h))]>
    (<[bpage (kstart ch1 r, (c, r)) := binfo (kstart ch1 r, (c, r))]> pgs)).
Proof.
  intros Hs Hpg Hnd. set (B1 := bounds ch 0 (L1 ++ [c])). set (T := bounds ch h L2).
  assert (Eold : bounds ch 0 (L1 ++ c :: h :: L2) = B1 ++ (kstart ch h, (c, h)) :: T).
  { change (L1 ++ c :: h :: L2) with (L1 ++ [c] ++ h :: L2). by rewrite app_assoc, bounds_app, last_of_snoc. }
  assert (Enew : bounds ch1 0 (L1 ++ c :: r :: h :: L2) = B1 ++ (kstart ch1 r, (c, r)) :: (kstart ch h, (r, h)) :: T).
  { change (L1 ++ c :: r :: h :: L2) with (L1 ++ [c] ++ r :: h :: L2). rewrite app_assoc, bounds_app, last_of_snoc. cbn [bounds].
    rewrite (Hs h) by set_solver. f_equal; [apply bounds_ext; intros x Hx; apply Hs; set_solver|].
    do 2 f_equal. apply bounds_ext. intros x Hx. apply Hs. set_solver. }
  rewrite Enew in Hnd |- *. rewrite Eold in Hpg.
  assert (Hadd : pg_ok (B1 ++ (kstart ch1 r, (c, r)) :: (kstart ch h, (c, h)) :: T)
    (<[bpage (kstart ch1 r, (c, r)) := binfo (kstart ch1 r, (c, r))]> pgs)).
  { apply pg_ok_add; [done|]. rewrite fmap_app, !fmap_cons in Hnd. apply NoDup_app in Hnd as (_ & Hd & [Hb _]%NoDup_cons).
    rewrite fmap_app, fmap_cons, elem_of_app. intros [Hx|Hx]; [apply (Hd _ Hx); left|exact (Hb Hx)]. }
  rewrite (cons_middle _ B1), app_assoc in Hadd |- *. rewrite (cons_middle _ B1), app_assoc in Hnd.
  apply (pg_ok_update _ _ (kstart ch h, (r, h))) in Hadd; [done| |done]. by rewrite !fmap_app, !fmap_cons in *.
Qed.

(** The same when [c] was the wilderness. *)
Lemma pg_split_last ch1 L1 c r : (forall x, x ∈ L1 ++ [c] -> kstart ch1 x = kstart ch x) -> pg_ok (bounds ch 0 (L1 ++ [c])) pgs ->
  NoDup (bpage <$> bounds ch1 0 ((L1 ++ [c]) ++ [r])) ->
  pg_ok (bounds ch1 0 ((L1 ++ [c]) ++ [r])) (<[bpage (kstart ch1 r, (c, r)) := binfo (kstart ch1 r, (c, r))]> pgs).
Proof.
  intros Hs Hpg Hnd. rewrite bounds_app, last_of_snoc in Hnd |- *. cbn [bounds] in *. rewrite (bounds_ext ch) in Hnd |- * by done.
  apply pg_ok_add; [by rewrite app_nil_r|]. rewrite app_nil_r. rewrite fmap_app in Hnd. apply NoDup_app in Hnd as (_ & Hd & _).
  intros Hx. apply (Hd _ Hx). left.
Qed.

(** Every chunk of the layout exists. *)
Lemma layout_exists l w x : layout ch a pgs l w -> x ∈ l ++ [w] -> is_Some (ch !! x).
Proof.
  intros [(e & _ & Ht & (kw & Hkw & _)) _ _] [Hx|Hx]%elem_of_app.
  - destruct (tiles_member _ _ _ x _ _ Ht Hx) as (kx & Hkx & _). by eexists.
  - apply list_elem_of_singleton in Hx as ->. by eexists.
Qed.

(** The chunks after a split. *)
Definition split_map (c r n : Z) (k : sivfs_alloc_chunk) (size_r : Z) : gmap Z sivfs_alloc_chunk :=
  <[r := mk_chunk (k_last_freed_ts k) (k_start k + n) size_r a]> (<[c := with_size n k]> ch).

Lemma split_starts c r n k size_r x : ch !! c = Some k -> ch !! r = None -> is_Some (ch !! x) ->
  kstart (split_map c r n k size_r) x = kstart ch x.
Proof.
  intros Hk Hr [kx Hx]. unfold split_map, kstart. rewrite lookup_insert_ne by congruence. by apply kstart_resize.
Qed.

Lemma split_others c r n k size_r x : x <> c -> x <> r -> split_map c r n k size_r !! x = ch !! x.
Proof. intros. unfold split_map. by rewrite !lookup_insert_ne. Qed.

Lemma split_here c r n k size_r : c <> r -> split_map c r n k size_r !! c = Some (with_size n k).
Proof. intros. unfold split_map. by rewrite lookup_insert_ne, lookup_insert_eq. Qed.

Lemma split_new c r n k size_r : split_map c r n k size_r !! r = Some (mk_chunk (k_last_freed_ts k) (k_start k + n) size_r a).
Proof. apply lookup_insert_eq. Qed.

Lemma split_all c r n k size_r (L L' : list Z) : ch !! c = Some k -> (forall x, x ∈ L -> x ∈ L') -> c ∈ L' -> r ∈ L' ->
  (forall x kx, ch !! x = Some kx -> k_ainfo kx = a -> x ∈ L) ->
  forall x kx, split_map c r n k size_r !! x = Some kx -> k_ainfo kx = a -> x ∈ L'.
Proof.
  intros Hk Hs Hc Hr Hall x kx. unfold split_map. rewrite !lookup_insert.
  repeat case_decide; [by subst x|by subst x|]. intros Hx Ha. by eapply Hs, Hall.
Qed.

Lemma split_mid l1 c l2 w k r n : layout ch a pgs (l1 ++ c :: l2) w -> ch !! c = Some k -> ch !! r = None -> r <> 0 ->
  PAGE_SIZE <= n -> n + PAGE_SIZE < k_size k ->
  exists h, pgs !! ((k_start k + k_size k) / PAGE_SIZE) = Some (mk_pginfo ((k_start k + k_size k) mod PAGE_SIZE) c h) /\
  layout (split_map c r n k (k_size k - n)) a
    (<[(k_start k + k_size k) / PAGE_SIZE := mk_pginfo ((k_start k + k_size k) mod PAGE_SIZE) r h]>
      (<[(k_start k + n) / PAGE_SIZE := mk_pginfo ((k_start k + n) mod PAGE_SIZE) c r]> pgs)) (l1 ++ c :: r :: l2) w.
Proof.
  intros Hlo Hk Hr Hr0 Hn Hz. pose proof (layout_chunk _ _ _ _ _ _ _ _ Hlo Hk) as [[Ha Hc0] _ _ (h & t & El2 & Hsh & _)].
  destruct (member_once _ _ _ _ Hlo) as (Hc1 & Hc2 & _). set (ch' := split_map c r n k (k_size k - n)).
  assert (El : (l1 ++ c :: l2) ++ [w] = l1 ++ c :: h :: t) by (rewrite <- El2, <- app_assoc; done).
  assert (Hin : forall x, x ∈ l1 ++ c :: h :: t -> is_Some (ch !! x)) by (intros x; rewrite <- El; by eapply layout_exists).
  assert (Hext : forall x, x ∈ l1 \/ x ∈ l2 ++ [w] -> ch' !! x = ch !! x).
  { intros x Hx. apply split_others; [intros ->; naive_solver|]. intros ->. destruct (Hin r); [|congruence].
    rewrite El2 in Hx. rewrite elem_of_app, elem_of_cons. tauto. }
  assert (Htw : exists e, e < FILE_LIMIT /\ tiles ch' a 0 (l1 ++ c :: r :: l2) e /\ wilderness_at ch' a e w).
  { destruct (lo_tiles _ _ _ _ _ Hlo) as (e & He & Ht & (kw & Hkw & Hw)). exists e. split; [done|].
    apply tiles_app in Ht as (m & Ht1 & (k' & Hk' & _ & Hs & _ & _ & Ht2)). rewrite Hk in Hk'. injection Hk' as <-. split.
    - apply tiles_app. exists m. split; [apply (tiles_ext ch); [|done]; intros x Hx; apply Hext; by left|].
      cbn [tiles]. exists (with_size n k). split; [apply split_here; intros ->; congruence|]. do 4 (split; [done|]).
      eexists. split; [apply split_new|]. cbn [k_ainfo k_start k_size with_size]. split_and!; try done; [lia|lia|].
      replace (m + n + (k_size k - n)) with (m + k_size k) by lia.
      apply (tiles_ext ch); [|done]. intros x Hx. apply Hext. right. set_solver.
    - exists kw. split; [|done]. rewrite Hext; [done|]. right. set_solver. }
  assert (Hnd : NoDup (bpage <$> bounds ch' 0 ((l1 ++ c :: r :: l2) ++ [w]))).
  { destruct Htw as (e & _ & Ht & Hw). by apply (bounds_pages_nodup ch' a w 0 e _ 0). }
  assert (El' : (l1 ++ c :: r :: l2) ++ [w] = l1 ++ c :: r :: h :: t) by (rewrite <- El2, <- app_assoc; done).
  exists h. split; [rewrite <- Hsh; pose proof (layout_boundary _ _ _ _ _ (l1 ++ [c]) h t Hlo) as Hb;
    rewrite last_of_snoc in Hb; apply Hb; by rewrite El, <- app_assoc|].
  split; [done| |].
  - pose proof (lo_pg _ _ _ _ _ Hlo) as Hpg. rewrite El in Hpg. rewrite El' in Hnd |- *.
    pose proof (pg_split ch' l1 c r h t (fun x Hx => split_starts c r n k _ x Hk Hr (Hin x Hx)) Hpg Hnd) as Hok.
    assert (Hkr : kstart ch' r = k_start k + n) by (unfold ch', split_map, kstart; by rewrite lookup_insert_eq).
    unfold bpage, binfo in Hok. cbn [fst snd] in Hok. by rewrite Hkr, Hsh in Hok.
  - apply (split_all c r n k _ ((l1 ++ c :: l2) ++ [w])); [done|set_solver..|apply (lo_all _ _ _ _ _ Hlo)].
Qed.

Lemma split_wild l c k r n : layout ch a pgs l c -> ch !! c = Some k -> ch !! r = None -> r <> 0 ->
  PAGE_SIZE <= n -> k_start k + n < FILE_LIMIT ->
  layout (split_map c r n k SIZE_MINUS_ONE) a
    (<[(k_start k + n) / PAGE_SIZE := mk_pginfo ((k_start k + n) mod PAGE_SIZE) c r]> pgs) (l ++ [c]) r.
Proof.
  intros Hlo Hk Hr Hr0 Hn Hlim. set (ch' := split_map c r n k SIZE_MINUS_ONE).
  assert (Hcl : c ∉ l) by (pose proof (layout_members _ _ _ _ _ Hlo) as [_ [Hd _]]%NoDup_app; intros H; apply (Hd c H); left).
  assert (Hin : forall x, x ∈ l ++ [c] -> is_Some (ch !! x)) by (intros x; by eapply layout_exists).
  assert (Hrc : r <> c) by (intros ->; congruence).
  assert (Htw : k_start k + n < FILE_LIMIT /\ tiles ch' a 0 (l ++ [c]) (k_start k + n) /\ wilderness_at ch' a (k_start k + n) r).
  { destruct (lo_tiles _ _ _ _ _ Hlo) as (e & He & Ht & (k' & Hk' & Hai & Hs & Hc0 & Hz & Hb)). rewrite Hk in Hk'. injection Hk' as <-.
    split; [done|]. split.
    - apply tiles_app. exists e. split.
      + apply (tiles_ext ch); [|done]. intros x Hx. apply split_others; [intros ->; done|].
        intros ->. destruct (Hin r); [rewrite elem_of_app; by left|congruence].
      + cbn [tiles]. exists (with_size n k). rewrite Hs. split; [by apply split_here|done].
    - eexists. split; [apply split_new|done]. }
  assert (Hnd : NoDup (bpage <$> bounds ch' 0 ((l ++ [c]) ++ [r]))).
  { destruct Htw as (_ & Ht & Hw). by apply (bounds_pages_nodup ch' a r 0 (k_start k + n) _ 0). }
  split; [by exists (k_start k + n)| |].
  - pose proof (pg_split_last ch' l c r (fun x Hx => split_starts c r n k _ x Hk Hr (Hin x Hx)) (lo_pg _ _ _ _ _ Hlo) Hnd) as Hok.
    assert (Hkr : kstart ch' r = k_start k + n) by (unfold ch', split_map, kstart; by rewrite lookup_insert_eq).
    unfold bpage, binfo in Hok. cbn [fst snd] in Hok. by rewrite Hkr in Hok.
  - apply (split_all c r n k _ (l ++ [c])); [done|set_solver..|apply (lo_all _ _ _ _ _ Hlo)].
Qed.
(** The pages after [d] was merged into [c]. *)
Lemma pg_merge ch1 L1 c d h L2 : (forall x, x ∈ L1 ++ c :: h :: L2 -> kstart ch1 x = kstart ch x) ->
  pg_ok (bounds ch 0 (L1 ++ c :: d :: h :: L2)) pgs -> NoDup (bpage <$> bounds ch 0 (L1 ++ c :: d :: h :: L2)) ->
  pg_ok (bounds ch1 0 (L1 ++ c :: h :: L2)) (<[bpage (kstart ch h, (c, h)) := binfo (kstart ch h, (c, h))]>
    (<[bpage (kstart ch d, (c, d)) := mk_pginfo SIVFS_CHUNK_BOUNDARY_NULL 0 0]> pgs)).
Proof.
  intros Hs Hpg Hnd. set (B1 := bounds ch 0 (L1 ++ [c])). set (T := bounds ch h L2).
  assert (Enew : bounds ch1 0 (L1 ++ c :: h :: L2) = B1 ++ (kstart ch h, (c, h)) :: T).
  { rewrite (bounds_ext ch) by done. change (L1 ++ c :: h :: L2) with (L1 ++ [c] ++ h :: L2). by rewrite app_assoc, bounds_app, last_of_snoc. }
  assert (Eold : bounds ch 0 (L1 ++ c :: d :: h :: L2) = B1 ++ (kstart ch d, (c, d)) :: (kstart ch h, (d, h)) :: T).
  { change (L1 ++ c :: d :: h :: L2) with (L1 ++ [c] ++ d :: h :: L2). by rewrite app_assoc, bounds_app, last_of_snoc. }
  rewrite Enew. rewrite Eold in Hpg, Hnd. apply pg_ok_remove in Hpg; [|done].
  apply (pg_ok_update _ _ (kstart ch h, (c, h))) in Hpg; [done| |done].
  rewrite fmap_app, !fmap_cons in Hnd |- *. apply NoDup_app in Hnd as (? & Hd & [_ ?]%NoDup_cons). apply NoDup_app.
  split; [done|]. split; [|done]. intros x Hx Hx'. apply (Hd x Hx). by right.
Qed.

Definition merge_map (c d : Z) (k kd : sivfs_alloc_chunk) : gmap Z sivfs_alloc_chunk :=
  delete d (<[c := with_size (k_size k + k_size kd) k]> ch).

Lemma merge_here c d k kd : c <> d -> merge_map c d k kd !! c = Some (with_size (k_size k + k_size kd) k).
Proof. intros. unfold merge_map. by rewrite lookup_delete_ne, lookup_insert_eq by done. Qed.

Lemma merge_others c d k kd x : x <> c -> x <> d -> merge_map c d k kd !! x = ch !! x.
Proof. intros. unfold merge_map. by rewrite lookup_delete_ne, lookup_insert_ne by done. Qed.

Lemma merge_layout l1 c d l2 w k kd : layout ch a pgs (l1 ++ c :: d :: l2) w -> ch !! c = Some k -> ch !! d = Some kd ->
  exists h, pgs !! ((k_start kd + k_size kd) / PAGE_SIZE) = Some (mk_pginfo ((k_start kd + k_size kd) mod PAGE_SIZE) d h) /\
  layout (merge_map c d k kd) a
    (<[(k_start kd + k_size kd) / PAGE_SIZE := mk_pginfo ((k_start kd + k_size kd) mod PAGE_SIZE) c h]>
      (<[k_start kd / PAGE_SIZE := mk_pginfo SIVFS_CHUNK_BOUNDARY_NULL 0 0]> pgs)) (l1 ++ c :: l2) w.
Proof.
  intros Hlo Hk Hd. destruct (member_once _ _ _ _ Hlo) as (Hc1 & Hc2 & Hnd2 & _ & Hl1).
  apply NoDup_cons in Hnd2 as [Hd2 _]. change (d ∉ l2 ++ [w]) in Hd2.
  pose proof (layout_chunk ch a pgs (l1 ++ [c]) d l2 w kd) as Hca. rewrite <- app_assoc in Hca.
  destruct (Hca Hlo Hd) as [_ _ _ (h & t & El2 & Hsh & _)]. clear Hca. set (ch' := merge_map c d k kd).
  assert (Hcd : c <> d) by (intros ->; apply Hc2; left).
  assert (Hd1 : d ∉ l1) by (intros H; apply (Hl1 d H); left).
  assert (Hext : forall x, x ∈ l1 \/ x ∈ l2 ++ [w] -> ch' !! x = ch !! x).
  { intros x Hx. apply merge_others; intros ->; [|naive_solver]. destruct Hx as [|Hx]; [done|]. apply Hc2. by right. }
  assert (El : (l1 ++ c :: d :: l2) ++ [w] = l1 ++ c :: d :: h :: t) by (rewrite <- El2, <- app_assoc; done).
  assert (Hkd : kstart ch d = k_start kd) by (unfold kstart; by rewrite Hd).
  exists h. split; [rewrite <- Hsh; pose proof (layout_boundary _ _ _ _ _ (l1 ++ [c; d]) h t Hlo) as Hb;
    change [c; d] with ([c] ++ [d]) in Hb; rewrite app_assoc, last_of_snoc in Hb; apply Hb; by rewrite El, <- !app_assoc|].
  split.
  - destruct (lo_tiles _ _ _ _ _ Hlo) as (e & He & Ht & (kw & Hkw & Hw)). exists e. split; [done|].
    apply tiles_app in Ht as (m & Ht1 & (k' & Hk' & Ha & Hs & H0 & Hz & (kd' & Hkd' & _ & Hsd & _ & Hzd & Ht2))).
    rewrite Hk in Hk'. rewrite Hd in Hkd'. injection Hk' as <-. injection Hkd' as <-. split.
    + apply tiles_app. exists m. split; [apply (tiles_ext ch); [|done]; intros x Hx; apply Hext; by left|].
      cbn [tiles]. exists (with_size (k_size k + k_size kd) k). split; [by apply merge_here|]. do 3 (split; [done|]).
      cbn [k_size with_size]. unfold PAGE_SIZE in *. split; [lia|]. replace (m + (k_size k + k_size kd)) with (m + k_size k + k_size kd) by lia.
      apply (tiles_ext ch); [|done]. intros x Hx. apply Hext. right. set_solver.
    + exists kw. split; [|done]. rewrite Hext; [done|]. right. set_solver.
  - assert (Hs : forall x, x ∈ l1 ++ c :: h :: t -> kstart ch' x = kstart ch x).
    { intros x Hx. destruct (decide (x = c)) as [->|Hxc]; [unfold kstart, ch'; by rewrite merge_here, Hk|].
      unfold kstart. rewrite Hext; [done|]. rewrite El2. set_solver. }
    pose proof (lo_pg _ _ _ _ _ Hlo) as Hpg. pose proof (layout_nodup _ _ _ _ _ Hlo) as Hnd. rewrite El in Hpg, Hnd.
    pose proof (pg_merge ch' l1 c d h t Hs Hpg Hnd) as Hok. unfold bpage, binfo in Hok. cbn [fst snd] in Hok. rewrite Hsh, Hkd in Hok.
    replace ((l1 ++ c :: l2) ++ [w]) with (l1 ++ c :: h :: t) by (rewrite <- El2, <- app_assoc; done). exact Hok.
  - intros x kx Hx Hax. unfold ch', merge_map in Hx. apply lookup_delete_Some in Hx as [Hne Hx].
    rewrite lookup_insert in Hx. case_decide as E; [subst x; set_solver|].
    pose proof (lo_all _ _ _ _ _ Hlo x kx Hx Hax). set_solver.
Qed.
End member.

(** ** Chunks of one file never overlap *)

Lemma tiles_disjoint ch a l : forall pos pos' c c' k k', tiles ch a pos l pos' -> c ∈ l -> c' ∈ l -> c <> c' ->
  ch !! c = Some k -> ch !! c' = Some k' -> k_start k + k_size k <= k_start k' \/ k_start k' + k_size k' <= k_start k.
Proof.
  induction l as [|x l IH]; intros pos pos' c c' k k'; cbn [tiles]; [by intros _ H%not_elem_of_nil|].
  intros (kx & Hx & _ & Hs & _ & _ & Ht) [->|Hc]%elem_of_cons [->|Hc']%elem_of_cons Hne Hk Hk'; [done| | |exact (IH _ _ c c' k k' Ht Hc Hc' Hne Hk Hk')].
  - destruct (tiles_member _ _ _ _ _ _ Ht Hc') as (k1 & Hk1 & _ & _ & _ & Hle & _). rewrite Hx in Hk. rewrite Hk' in Hk1. injection Hk as <-. injection Hk1 as <-. left. lia.
  - destruct (tiles_member _ _ _ _ _ _ Ht Hc) as (k1 & Hk1 & _ & _ & _ & Hle & _). rewrite Hx in Hk'. rewrite Hk in Hk1. injection Hk' as <-. injection Hk1 as <-. right. lia.
Qed.

(** The wilderness has no end; it counts as ending nowhere. *)
Definition overlap (k k' : sivfs_alloc_chunk) : Prop :=
  exists x, k_start k <= x < k_start k' + k_size k' /\ k_start k' <= x < k_start k + k_size k.

Lemma layout_disjoint ch a pgs l w c c' k k' : layout ch a pgs l w -> c <> c' ->
  ch !! c = Some k -> ch !! c' = Some k' -> k_ainfo k = a -> k_ainfo k' = a -> ~ overlap k k'.
Proof.
  intros Hlo Hne Hk Hk' Ha Ha' (x & Hx & Hx'). destruct (lo_tiles _ _ _ _ _ Hlo) as (e & _ & Ht & (kw & Hkw & _ & Hsw & _)).
  pose proof (lo_all _ _ _ _ _ Hlo c k Hk Ha) as Hc. pose proof (lo_all _ _ _ _ _ Hlo c' k' Hk' Ha') as Hc'.
  apply elem_of_app in Hc as [Hc|Hc], Hc' as [Hc'|Hc']; try (apply list_elem_of_singleton in Hc); try (apply list_elem_of_singleton in Hc').
  - destruct (tiles_disjoint _ _ _ _ _ c c' k k' Ht Hc Hc' Hne Hk Hk'); lia.
  - subst c'. destruct (tiles_member _ _ _ c _ _ Ht Hc) as (k1 & Hk1 & _ & _ & _ & _ & ?). simplify_eq. lia.
  - subst c. destruct (tiles_member _ _ _ c' _ _ Ht Hc') as (k1 & Hk1 & _ & _ & _ & _ & ?). simplify_eq. lia.
  - by subst.
Qed.


Lemma limit_small : FILE_LIMIT < SIZE_MINUS_ONE.
Proof. reflexivity. Qed.

(** Every offset lies in a chunk. *)
Lemma tiles_cover ch a l : forall pos pos' x, tiles ch a pos l pos' -> pos <= x < pos' ->
  exists c k, ch !! c = Some k /\ k_ainfo k = a /\ k_start k <= x < k_start k + k_size k.
Proof.
  induction l as [|c l IH]; intros pos pos' x; cbn [tiles]; [intros <-; lia|]. intros (k & Hk & Ha & Hs & _ & _ & Ht) Hx.
  destruct (Z.lt_ge_cases x (pos + k_size k)); [exists c, k; split_and!; try done; lia|].
  apply (IH (pos + k_size k) pos' x Ht). lia.
Qed.

Lemma layout_cover ch a pgs l w x : layout ch a pgs l w -> 0 <= x < FILE_LIMIT ->
  exists c k, ch !! c = Some k /\ k_ainfo k = a /\ k_start k <= x < k_start k + k_size k.
Proof.
  intros Hlo Hx. destruct (lo_tiles _ _ _ _ _ Hlo) as (e & He & Ht & (kw & Hkw & Ha & Hs & _ & Hz & _)).
  destruct (Z.lt_ge_cases x e); [apply (tiles_cover ch a l 0 e x Ht); lia|]. apply tiles_le in Ht.
  exists w, kw. pose proof limit_small. split_and!; try done; lia.
Qed.
