(* ===== verification/AllocInv.v ===== *)
(** The invariant of the block allocator, that every operation of
    kern/alloc/sivfs_allocation.c keeps it, and what each operation does. *)
From S2P Require Import Prelude Types Alloc AllocLayout.

(** ** Flags *)

Lemma busy_set_allocated x k : busy (with_last_freed (Z.lor x SIVFS_CHUNK_ALLOCATED) k) = true.
Proof.
  unfold busy. simpl. apply negb_true_iff, Z.eqb_neq. intros H. apply (f_equal (fun z => Z.testbit z 63)) in H.
  rewrite Z.land_spec, Z.lor_spec, Z.testbit_0_l in H. change (Z.testbit SIVFS_CHUNK_ALLOCATED 63) with true in H.
  change (Z.testbit SIVFS_CHUNK_ALLOC_FLAGS 63) with true in H. by rewrite orb_true_r in H.
Qed.

Lemma busy_cleared x k :
  busy (with_last_freed (Z.land (Z.land x (unot SIVFS_CHUNK_ALLOCATED)) (unot SIVFS_CHUNK_FREEING)) k) = false.
Proof.
  unfold busy. simpl. apply negb_false_iff, Z.eqb_eq. rewrite <- !Z.land_assoc.
  change (Z.land (unot SIVFS_CHUNK_ALLOCATED) (Z.land (unot SIVFS_CHUNK_FREEING) SIVFS_CHUNK_ALLOC_FLAGS)) with 0. apply Z.land_0_r.
Qed.

Lemma freeing_flags x k :
  let k' := with_last_freed (Z.lor (Z.land x (unot SIVFS_CHUNK_ALLOCATED)) SIVFS_CHUNK_FREEING) k in
  busy k' = true /\ sivfs_alloc_chunk_is_free k' = true.
Proof.
  split.
  - unfold busy. simpl. apply negb_true_iff, Z.eqb_neq. intros H. apply (f_equal (fun z => Z.testbit z 62)) in H.
    rewrite Z.land_spec, Z.lor_spec, Z.testbit_0_l in H. change (Z.testbit SIVFS_CHUNK_FREEING 62) with true in H.
    change (Z.testbit SIVFS_CHUNK_ALLOC_FLAGS 62) with true in H. by rewrite orb_true_r in H.
  - unfold sivfs_alloc_chunk_is_free. simpl. apply Z.eqb_eq. rewrite Z.land_lor_distr_l, <- Z.land_assoc.
    change (Z.land (unot SIVFS_CHUNK_ALLOCATED) SIVFS_CHUNK_ALLOCATED) with 0. by rewrite Z.land_0_r.
Qed.

Lemma not_free_busy k : sivfs_alloc_chunk_is_free k = false -> busy k = true.
Proof.
  unfold sivfs_alloc_chunk_is_free, busy. intros H. apply Z.eqb_neq in H. apply negb_true_iff, Z.eqb_neq. intros E. apply H.
  change SIVFS_CHUNK_ALLOCATED with (Z.land SIVFS_CHUNK_ALLOC_FLAGS SIVFS_CHUNK_ALLOCATED). by rewrite Z.land_assoc, E.
Qed.

(** ** The invariant *)

(** Chunks tile every file; exactly the chunks that are not busy are on their
    file's free list; the transactions' lists hold busy chunks, each at most once. *)
Record alloc_inv (s : astate) : Prop := {
  ai_files : forall a i, a_infos s !! a = Some i -> a <> 0 /\ exists l w, layout (a_chunks s) a (ai_pginfo i) l w;
  ai_owner : forall c k, a_chunks s !! c = Some k -> is_Some (a_infos s !! k_ainfo k);
  ai_best : forall a i c, a_infos s !! a = Some i ->
    (c ∈ ai_bestfit i <-> exists k, a_chunks s !! c = Some k /\ k_ainfo k = a /\ busy k = false);
  ai_alloc : forall t x c, a_threads s !! t = Some x -> c ∈ t_allocated_chunks x ->
    exists k, a_chunks s !! c = Some k /\ busy k = true;
  ai_alloc_nodup : forall t x, a_threads s !! t = Some x -> NoDup (t_allocated_chunks x);
  ai_alloc_disj : forall t x t' x' c, a_threads s !! t = Some x -> a_threads s !! t' = Some x' ->
    c ∈ t_allocated_chunks x -> c ∈ t_allocated_chunks x' -> t = t';
  ai_free : forall t x c, a_threads s !! t = Some x -> c ∈ t_chunks_to_free x ->
    exists k, a_chunks s !! c = Some k /\ busy k = true /\ sivfs_alloc_chunk_is_free k = true;
  ai_free_nodup : forall t x, a_threads s !! t = Some x -> NoDup (t_chunks_to_free x);
  ai_free_disj : forall t x t' x' c, a_threads s !! t = Some x -> a_threads s !! t' = Some x' ->
    c ∈ t_chunks_to_free x -> c ∈ t_chunks_to_free x' -> t = t';
  ai_cross : forall t x t' x' c, a_threads s !! t = Some x -> a_threads s !! t' = Some x' ->
    c ∈ t_chunks_to_free x -> c ∈ t_allocated_chunks x' -> t = t'
}.

(** The same place, possibly larger, but not the end of the file. *)
Definition grown (k k' : sivfs_alloc_chunk) : Prop :=
  k_ainfo k' = k_ainfo k /\ k_start k' = k_start k /\ k_size k <= k_size k' /\
  (k_size k' = SIZE_MINUS_ONE -> k_size k = SIZE_MINUS_ONE).

(** The same chunk, possibly larger. *)
Definition chunk_sim (k k' : sivfs_alloc_chunk) : Prop := k_last_freed_ts k' = k_last_freed_ts k /\ grown k k'.

Lemma grown_refl k : grown k k.
Proof. by repeat split. Qed.

Lemma grown_trans k1 k2 k3 : grown k1 k2 -> grown k2 k3 -> grown k1 k3.
Proof. intros (? & ? & ? & ?) (? & ? & ? & ?). split; [congruence|]. split; [congruence|]. split; [lia|auto]. Qed.

(** Chunks in use stay where they are. *)
Definition kept_but (X : Z -> Prop) (s s' : astate) : Prop := forall c k, ~ X c -> a_chunks s !! c = Some k -> busy k = true ->
  exists k', a_chunks s' !! c = Some k' /\ chunk_sim k k'.
Definition kept : astate -> astate -> Prop := kept_but (fun _ => False).

(** No chunk appears, and none changes its flags. *)
Definition only_merged (s s' : astate) : Prop := forall c k', a_chunks s' !! c = Some k' ->
  exists k, a_chunks s !! c = Some k /\ chunk_sim k k'.

Lemma chunk_sim_refl k : chunk_sim k k.
Proof. by repeat split. Qed.

Lemma chunk_sim_trans k1 k2 k3 : chunk_sim k1 k2 -> chunk_sim k2 k3 -> chunk_sim k1 k3.
Proof. intros [? ?] [? ?]. split; [congruence|by eapply grown_trans]. Qed.

Lemma chunk_sim_busy k k' : chunk_sim k k' -> busy k' = busy k.
Proof. intros [E _]. unfold busy. by rewrite E. Qed.

Lemma kept_refl X s : kept_but X s s.
Proof. intros c k _ Hc _. exists k. split; [done|apply chunk_sim_refl]. Qed.

Lemma kept_trans X s1 s2 s3 : kept_but X s1 s2 -> kept_but X s2 s3 -> kept_but X s1 s3.
Proof.
  intros H1 H2 c k Hx Hc Hb. destruct (H1 c k Hx Hc Hb) as (k2 & Hk2 & S2).
  destruct (H2 c k2 Hx Hk2) as (k3 & Hk3 & S3); [by rewrite (chunk_sim_busy _ _ S2)|].
  exists k3. split; [done|by eapply chunk_sim_trans].
Qed.

Lemma only_merged_trans s1 s2 s3 : only_merged s1 s2 -> only_merged s2 s3 -> only_merged s1 s3.
Proof.
  intros H1 H2 c k3 H3. destruct (H2 c k3 H3) as (k2 & Hk2 & ?). destruct (H1 c k2 Hk2) as (k1 & Hk1 & ?).
  exists k1. split; [done|by eapply chunk_sim_trans].
Qed.

Lemma kept_weaken (X Y : Z -> Prop) s s' : (forall c, X c -> Y c) -> kept_but X s s' -> kept_but Y s s'.
Proof. intros H K c k Hn. apply K. auto. Qed.

(** A file none of whose chunks changed. *)
Lemma layout_frame ch ch' a pgs l w :
  (forall c k, k_ainfo k = a -> ch !! c = Some k <-> ch' !! c = Some k) -> layout ch a pgs l w -> layout ch' a pgs l w.
Proof.
  intros H Hlo. assert (Hext : forall c, c ∈ l ++ [w] -> ch' !! c = ch !! c).
  { intros c Hc. destruct (lo_tiles _ _ _ _ _ Hlo) as (e & _ & Ht & (kw & Hkw & Ha & _)). apply elem_of_app in Hc as [Hc|Hc].
    - destruct (tiles_member _ _ _ _ _ _ Ht Hc) as (k & Hk & Hka & _). rewrite Hk. by apply H.
    - apply list_elem_of_singleton in Hc as ->. rewrite Hkw. by apply H. }
  destruct Hlo as [(e & He & Ht & (kw & Hkw & Hw)) Hpg Hall]. split.
  - exists e. split; [done|]. split; [apply (tiles_ext ch); [|done]; intros c Hc; apply Hext; rewrite elem_of_app; by left|].
    exists kw. split; [|done]. rewrite Hext; [done|]. rewrite elem_of_app. right. left.
  - rewrite (bounds_ext ch); [done|]. intros c Hc. unfold kstart. by rewrite Hext.
  - intros c k Hc Ha. apply (Hall c k); [by apply H|done].
Qed.

(** ** Lists *)

Lemma elem_of_without c x l : x ∈ without c l <-> x ∈ l /\ x <> c.
Proof. unfold without. rewrite list_elem_of_filter. tauto. Qed.

Lemma without_fresh c l : c ∉ l -> without c l = l.
Proof.
  unfold without. induction l as [|x l IH]; intros H; [done|]. apply not_elem_of_cons in H as [Hx Hl].
  rewrite filter_cons_True by congruence. by rewrite IH.
Qed.

Lemma in_bestfit_node_spec c s : in_bestfit_node c s = true <->
  (exists a i, a_infos s !! a = Some i /\ c ∈ ai_bestfit i) \/ (exists t x, a_threads s !! t = Some x /\ c ∈ t_allocated_chunks x).
Proof.
  unfold in_bestfit_node. rewrite orb_true_iff, !existsb_exists. split.
  - intros [([a i] & Hin%list_elem_of_In%elem_of_map_to_list & Hc%bool_decide_eq_true)|([t x] & Hin%list_elem_of_In%elem_of_map_to_list & Hc%bool_decide_eq_true)];
      [left; by exists a, i|right; by exists t, x].
  - intros [(a & i & Hi & Hc)|(t & x & Hx & Hc)]; [left; exists (a, i)|right; exists (t, x)];
      (split; [apply list_elem_of_In; by apply elem_of_map_to_list|by apply bool_decide_eq_true]).
Qed.

Lemma in_free_node_spec c s : in_free_node c s = true <-> exists t x, a_threads s !! t = Some x /\ c ∈ t_chunks_to_free x.
Proof.
  unfold in_free_node. rewrite existsb_exists. split.
  - intros ([t x] & Hin%list_elem_of_In%elem_of_map_to_list & Hc%bool_decide_eq_true). by exists t, x.
  - intros (t & x & Hx & Hc). exists (t, x). split; [apply list_elem_of_In; by apply elem_of_map_to_list|by apply bool_decide_eq_true].
Qed.

Lemma bool_false_iff b P : (b = true <-> P) -> ~ P -> b = false.
Proof. destruct b; [intros H Hn; destruct Hn; by apply H|done]. Qed.

(** A free chunk is on its file's free list and nowhere else. *)
Lemma free_in_node s c k : alloc_inv s -> a_chunks s !! c = Some k -> busy k = false -> in_bestfit_node c s = true.
Proof.
  intros Hinv Hc Hb. apply in_bestfit_node_spec. left. destruct (ai_owner _ Hinv c k Hc) as [i Hi].
  exists (k_ainfo k), i. split; [done|]. apply (ai_best _ Hinv _ _ _ Hi). by exists k.
Qed.

(** A busy chunk that no transaction lists as allocated. *)
Definition unlisted (s : astate) (c : Z) : Prop := forall t x, a_threads s !! t = Some x -> c ∉ t_allocated_chunks x.

Lemma busy_not_in_node s c k : alloc_inv s -> a_chunks s !! c = Some k -> busy k = true -> unlisted s c -> in_bestfit_node c s = false.
Proof.
  intros Hinv Hc Hb Hu. eapply bool_false_iff; [apply in_bestfit_node_spec|].
  intros [(a & i & Hi & Hin)|(t & x & Hx & Hin)]; [|by apply (Hu t x)].
  apply (ai_best _ Hinv _ _ _ Hi) in Hin as (k' & Hk' & _ & Hb'). congruence.
Qed.

Definition drop_best (c : Z) (m : gmap Z sivfs_allocator_info) : gmap Z sivfs_allocator_info :=
  (fun i => with_bestfit (without c (ai_bestfit i)) i) <$> m.
Definition drop_alloc (c : Z) (m : gmap Z tstate) : gmap Z tstate :=
  (fun t => with_allocated (without c (t_allocated_chunks t)) t) <$> m.
Definition drop_free (c : Z) (m : gmap Z tstate) : gmap Z tstate :=
  (fun t => with_to_free (without c (t_chunks_to_free t)) t) <$> m.

Lemma drop_alloc_fresh c m : (forall t x, m !! t = Some x -> c ∉ t_allocated_chunks x) -> drop_alloc c m = m.
Proof.
  intros H. apply map_eq. intros t. unfold drop_alloc. rewrite lookup_fmap. destruct (m !! t) as [x|] eqn:E; [|done].
  cbn [fmap option_fmap option_map]. rewrite without_fresh by by apply (H t). by destruct x.
Qed.

Lemma drop_best_fresh c m : (forall a i, m !! a = Some i -> c ∉ ai_bestfit i) -> drop_best c m = m.
Proof.
  intros H. apply map_eq. intros a. unfold drop_best. rewrite lookup_fmap. destruct (m !! a) as [i|] eqn:E; [|done].
  cbn [fmap option_fmap option_map]. rewrite without_fresh by by apply (H a). by destruct i.
Qed.

(** Removing a free chunk from its list. *)
Lemma del_free_ok s c k : alloc_inv s -> a_chunks s !! c = Some k -> busy k = false ->
  list_del_bestfit c s = (Ok tt, mk_astate (drop_best c (a_infos s)) (a_chunks s) (a_threads s)).
Proof.
  intros Hinv Hc Hb. unfold list_del_bestfit. rewrite (free_in_node s c k Hinv Hc Hb). fold (drop_best c (a_infos s)).
  do 2 f_equal. apply drop_alloc_fresh. intros t x Hx Hin. destruct (ai_alloc _ Hinv t x c Hx Hin) as (k' & Hk' & ?). congruence.
Qed.

(** ** Single accesses *)

Section access.
Context (s : astate) (a : Z) (i : sivfs_allocator_info) (Hi : a_infos s !! a = Some i).

Lemma load_info_ok : load_info a s = (Ok i, s).
Proof. unfold load_info. by rewrite Hi. Qed.

Lemma load_pginfo_ok p g : ai_pginfo i !! p = Some g -> load_pginfo a p s = (Ok g, s).
Proof. intros Hg. unfold load_pginfo. rewrite (bind_step _ _ _ _ _ load_info_ok). by rewrite Hg. Qed.

Lemma store_pginfo_ok p g : store_pginfo a p g s = (Ok tt, set_infos (<[a := with_pginfo (<[p := g]> (ai_pginfo i)) i]> (a_infos s)) s).
Proof. unfold store_pginfo. by rewrite (bind_step _ _ _ _ _ load_info_ok). Qed.

Lemma get_pginfo_hit ev off g : ai_pginfo i !! (off / PAGE_SIZE) = Some g -> sivfs_alloc_get_pginfo ev a off s = (Ok (off / PAGE_SIZE), s).
Proof. intros Hg. unfold sivfs_alloc_get_pginfo. rewrite (bind_step _ _ _ _ _ load_info_ok). by rewrite Hg. Qed.
End access.

Lemma load_chunk_ok s c k : a_chunks s !! c = Some k -> load_chunk c s = (Ok k, s).
Proof. intros H. unfold load_chunk. by rewrite H. Qed.

Lemma load_thread_ok s t x : a_threads s !! t = Some x -> load_thread t s = (Ok x, s).
Proof. intros H. unfold load_thread. by rewrite H. Qed.

(** ** A new pginfo changes nothing *)

Lemma alloc_inv_pgs s a i pgs : alloc_inv s -> a_infos s !! a = Some i ->
  (forall l w, layout (a_chunks s) a (ai_pginfo i) l w -> layout (a_chunks s) a pgs l w) ->
  alloc_inv (set_infos (<[a := with_pginfo pgs i]> (a_infos s)) s).
Proof.
  intros Hinv Hi Hlo. destruct Hinv as [Hf Ho Hb ? ? ? ? ? ? ?]. split; try done; cbn [set_infos a_infos a_chunks a_threads].
  - intros a' i'. rewrite lookup_insert. case_decide as E; [|apply Hf]. intros [= <-]. subst a'.
    destruct (Hf a i Hi) as (? & l & w & ?). split; [done|]. exists l, w. by apply Hlo.
  - intros c k Hc. rewrite lookup_insert. case_decide; [by eexists|by eapply Ho].
  - intros a' i' c. rewrite lookup_insert. case_decide as E; [|apply Hb]. intros [= <-]. subst a'. exact (Hb a i c Hi).
Qed.

Lemma layout_blank ch a pgs l w p : layout ch a pgs l w -> pgs !! p = None -> layout ch a (<[p := zero_pginfo]> pgs) l w.
Proof. intros [? ? ?] Hp. split; try done. by apply pg_ok_blank. Qed.

(** [s'] is [s] with more blank pages in file [a]. *)
Record more_pages (a : Z) (s s' : astate) (i i' : sivfs_allocator_info) : Prop := {
  mp_inv : alloc_inv s';
  mp_chunks : a_chunks s' = a_chunks s;
  mp_threads : a_threads s' = a_threads s;
  mp_info : a_infos s' !! a = Some i' /\ ai_bestfit i' = ai_bestfit i;
  mp_others : forall a', a' <> a -> a_infos s' !! a' = a_infos s !! a';
  mp_layout : forall l w, layout (a_chunks s) a (ai_pginfo i) l w -> layout (a_chunks s) a (ai_pginfo i') l w;
  mp_old : forall p g, ai_pginfo i !! p = Some g -> ai_pginfo i' !! p = Some g
}.

Lemma get_pginfo_ok ev s a i off : alloc_inv s -> a_infos s !! a = Some i ->
  exists r s' i', sivfs_alloc_get_pginfo ev a off s = (r, s') /\ more_pages a s s' i i' /\
    ((r = Ok (off / PAGE_SIZE) /\ exists g, ai_pginfo i' !! (off / PAGE_SIZE) = Some g /\
        (ai_pginfo i !! (off / PAGE_SIZE) = Some g \/ ai_pginfo i !! (off / PAGE_SIZE) = None /\ g = zero_pginfo)) \/ r = Err ENOMEM).
Proof.
  intros Hinv Hi. unfold sivfs_alloc_get_pginfo. rewrite (bind_step _ _ _ _ _ (load_info_ok s a i Hi)).
  assert (Hsame : more_pages a s s i i) by (split; try done).
  destruct (ai_pginfo i !! (off / PAGE_SIZE)) as [g|] eqn:Eg.
  { exists (Ok (off / PAGE_SIZE)), s, i. split; [done|]. split; [done|]. left. split; [done|]. exists g. auto. }
  destruct (av_pginfo ev _); [|exists (Err ENOMEM), s, i; auto]. destruct (av_node ev _); [|exists (Err ENOMEM), s, i; auto].
  set (i' := with_pginfo (<[off / PAGE_SIZE := zero_pginfo]> (ai_pginfo i)) i).
  exists (Ok (off / PAGE_SIZE)), (set_infos (<[a := i']> (a_infos s)) s), i'. split; [done|].
  assert (Hl : forall l w, layout (a_chunks s) a (ai_pginfo i) l w -> layout (a_chunks s) a (ai_pginfo i') l w)
    by (intros l w H; by apply layout_blank).
  split; [split; try done|].
  - by apply alloc_inv_pgs.
  - simpl. by rewrite lookup_insert_eq.
  - intros a' Ha. simpl. by rewrite lookup_insert_ne.
  - intros p g Hp. simpl. rewrite lookup_insert_ne; [done|]. intros <-. congruence.
  - left. split; [done|]. exists zero_pginfo. simpl. rewrite lookup_insert_eq. auto.
Qed.

(** ** Merging a chunk with the next one *)

(** The state after [d] was merged into [c] of file [a]. *)
Definition merged (a c d : Z) (k kd : sivfs_alloc_chunk) (pgs : gmap Z sivfs_allocator_pginfo) (i : sivfs_allocator_info) (s : astate) : astate :=
  mk_astate (drop_best d (<[a := with_pginfo pgs i]> (a_infos s))) (merge_map (a_chunks s) c d k kd) (a_threads s).

Lemma merged_inv a c d k kd pgs i s l w : alloc_inv s -> a_infos s !! a = Some i -> a_chunks s !! c = Some k -> a_chunks s !! d = Some kd ->
  c <> d -> k_ainfo k = a -> k_ainfo kd = a -> busy kd = false ->
  layout (merge_map (a_chunks s) c d k kd) a pgs l w -> alloc_inv (merged a c d k kd pgs i s).
Proof.
  intros Hinv Hi Hc Hd Hcd Hka Hkda Hbd Hlo.
  assert (Hkeep : forall x kx, busy kx = true -> a_chunks s !! x = Some kx -> exists k', merge_map (a_chunks s) c d k kd !! x = Some k' /\
    busy k' = true /\ sivfs_alloc_chunk_is_free k' = sivfs_alloc_chunk_is_free kx).
  { intros x kx Hb Hx. destruct (decide (x = c)) as [->|Hne].
    - assert (kx = k) as -> by congruence. exists (with_size (k_size k + k_size kd) k). split; [by apply merge_here|done].
    - exists kx. rewrite merge_others; [done|done|intros ->; congruence]. }
  destruct Hinv as [Hf Ho Hb Hal ? ? Hfr ? ? ?]. split; try done; cbn [merged a_infos a_chunks a_threads].
  - intros a' i'. unfold drop_best. rewrite lookup_fmap_Some. intros (i0 & <- & Hi0). rewrite lookup_insert in Hi0.
    case_decide as E; [injection Hi0 as <-; subst a'; split; [by destruct (Hf a i Hi)|by exists l, w]|].
    destruct (Hf a' i0 Hi0) as (? & l' & w' & Hlo'). split; [done|]. exists l', w'. eapply layout_frame; [|exact Hlo'].
    intros x kx Hax. destruct (decide (x = c)) as [->|Hxc]; [split; intros Hx; [congruence|rewrite merge_here in Hx by done; injection Hx as <-; simpl in Hax; congruence]|].
    destruct (decide (x = d)) as [->|Hxd]; [split; intros Hx; [congruence|unfold merge_map in Hx; by rewrite lookup_delete_eq in Hx]|].
    by rewrite merge_others.
  - intros x kx Hx. unfold drop_best. rewrite lookup_fmap, fmap_is_Some, lookup_insert. case_decide; [by eexists|].
    destruct (decide (x = c)) as [->|Hxc]; [rewrite merge_here in Hx by done; injection Hx as <-; simpl; rewrite Hka; by eexists|].
    unfold merge_map in Hx. apply lookup_delete_Some in Hx as [Hxd Hx]. rewrite lookup_insert_ne in Hx by done. exact (Ho x kx Hx).
  - intros a' i' x. unfold drop_best. rewrite lookup_fmap_Some. intros (i0 & <- & Hi0). simpl. rewrite elem_of_without.
    assert (Hbest : x ∈ ai_bestfit i0 <-> exists kx, a_chunks s !! x = Some kx /\ k_ainfo kx = a' /\ busy kx = false).
    { rewrite lookup_insert in Hi0. case_decide as E; [injection Hi0 as <-; subst a'; by apply (Hb a i)|by apply Hb]. }
    rewrite Hbest. split.
    + intros [(kx & Hx & Hax & Hbx) Hxd]. destruct (decide (x = c)) as [->|Hxc].
      * exists (with_size (k_size k + k_size kd) k). split; [by apply merge_here|]. assert (kx = k) as -> by congruence. done.
      * exists kx. rewrite merge_others by done. done.
    + intros (kx & Hx & Hax & Hbx). unfold merge_map in Hx. apply lookup_delete_Some in Hx as [Hdx Hx]. split; [|done].
      rewrite lookup_insert in Hx. case_decide as E; [|by exists kx]. injection Hx as <-. subst x. by exists k.
  - intros t x y Hx Hy. destruct (Hal t x y Hx Hy) as (ky & Hky & Hby). destruct (Hkeep y ky Hby Hky) as (k' & ? & ? & _). by exists k'.
  - intros t x y Hx Hy. destruct (Hfr t x y Hx Hy) as (ky & Hky & Hby & Hfy). destruct (Hkeep y ky Hby Hky) as (k' & ? & ? & E). exists k'. rewrite E. done.
Qed.

Lemma chunk_sim_merge k z : 0 <= z -> k_size k + z < FILE_LIMIT -> chunk_sim k (with_size (k_size k + z) k).
Proof.
  intros Hz Hl. split; [done|]. split; [done|]. split; [done|]. cbn [k_size with_size]. split; [lia|]. intros E.
  exfalso. rewrite E in Hl. revert Hl. by vm_compute.
Qed.

Lemma merged_kept a c d k kd pgs i s : a_chunks s !! c = Some k -> a_chunks s !! d = Some kd -> c <> d -> 0 <= k_size kd -> k_size k + k_size kd < FILE_LIMIT -> busy kd = false ->
  kept s (merged a c d k kd pgs i s).
Proof.
  intros Hc Hd Hcd Hz Hlim Hbd x kx _ Hx Hbx. cbn [merged a_chunks]. destruct (decide (x = c)) as [->|Hxc].
  - assert (kx = k) as -> by congruence. eexists. split; [by apply merge_here|]. by apply chunk_sim_merge.
  - exists kx. rewrite merge_others; [|done|intros ->; congruence]. split; [done|apply chunk_sim_refl].
Qed.

Lemma merged_only a c d k kd pgs i s : a_chunks s !! c = Some k -> c <> d -> 0 <= k_size kd -> k_size k + k_size kd < FILE_LIMIT -> only_merged s (merged a c d k kd pgs i s).
Proof.
  intros Hc Hcd Hz Hlim x k' Hx. cbn [merged a_chunks] in Hx. destruct (decide (x = c)) as [->|Hxc].
  - rewrite merge_here in Hx by done. injection Hx as <-. exists k. split; [done|]. by apply chunk_sim_merge.
  - unfold merge_map in Hx. apply lookup_delete_Some in Hx as [_ Hx]. rewrite lookup_insert_ne in Hx by done.
    exists k'. split; [done|apply chunk_sim_refl].
Qed.

Lemma busy_flags k : busy k = negb (Z.land (k_last_freed_ts k) (Z.lor SIVFS_CHUNK_FREEING SIVFS_CHUNK_ALLOCATED) =? 0).
Proof. reflexivity. Qed.

Lemma file_small x : 0 <= x < FILE_LIMIT -> is_u64 x.
Proof. unfold FILE_LIMIT. u64_lia. Qed.

(** Where the chunk after [c] is recorded. *)
Lemma next_pginfo ch a pgs l1 c l2 w k : layout ch a pgs (l1 ++ c :: l2) w -> ch !! c = Some k ->
  exists h t kh, l2 ++ [w] = h :: t /\ h <> 0 /\ ch !! h = Some kh /\ kstart ch h = k_start k + k_size k /\
  pgs !! ((k_start k + k_size k) / PAGE_SIZE) = Some (mk_pginfo ((k_start k + k_size k) mod PAGE_SIZE) c h).
Proof.
  intros Hlo Hk. destruct (layout_chunk _ _ _ _ _ _ _ _ Hlo Hk) as [_ _ _ (h & t & El & Hs & H0 & [kh Hkh])].
  exists h, t, kh. split_and!; try done. rewrite <- Hs.
  pose proof (layout_boundary _ _ _ _ _ (l1 ++ [c]) h t Hlo) as Hb. rewrite last_of_snoc in Hb. apply Hb.
  rewrite <- !app_assoc. cbn [app]. by rewrite El.
Qed.

(** One call: nothing, or the next chunk [d] is merged. *)
Definition merge_result (s : astate) (a : Z) (l1 : list Z) (c : Z) (l2 : list Z) (w : Z) (k : sivfs_alloc_chunk) (b : bool) (s' : astate) : Prop :=
  if b then exists d l2' i' k', l2 = d :: l2' /\ alloc_inv s' /\ (kept s s' /\ only_merged s s') /\ a_threads s' = a_threads s /\
    (size (a_chunks s') < size (a_chunks s))%nat /\ a_infos s' !! a = Some i' /\
    layout (a_chunks s') a (ai_pginfo i') (l1 ++ c :: l2') w /\ a_chunks s' !! c = Some k' /\ chunk_sim k k'
  else s' = s.

Lemma coalesce_next_ok ev budget s a i l1 c l2 w k : alloc_inv s -> a_infos s !! a = Some i ->
  layout (a_chunks s) a (ai_pginfo i) (l1 ++ c :: l2) w -> a_chunks s !! c = Some k ->
  exists b budget' s', sivfs_coalesce_with_next ev budget c a s = (Ok (b, budget'), s') /\ merge_result s a l1 c l2 w k b s'.
Proof.
  intros Hinv Hi Hlo Hk. destruct (layout_chunk _ _ _ _ _ _ _ _ Hlo Hk) as [[Hka Hc0] Hsz Hrng _].
  destruct (next_pginfo _ _ _ _ _ _ _ _ Hlo Hk) as (h & t & kh & El & Hh0 & Hkh & Hsh & Hpg).
  unfold sivfs_coalesce_with_next. rewrite (bind_step _ _ _ _ _ (load_chunk_ok _ _ _ Hk)). cbv zeta.
  assert (0 <= k_size k) as Hsz0 by (unfold PAGE_SIZE in Hsz; lia).
  rewrite uadd_small by (apply file_small; lia).
  rewrite (bind_step _ _ _ _ _ (get_pginfo_hit _ _ _ Hi ev _ _ Hpg)), (bind_step _ _ _ _ _ (load_pginfo_ok _ _ _ Hi _ _ Hpg)).
  cbn [pg_starts_chunk]. rewrite (proj2 (Z.eqb_neq _ _) Hh0), (bind_step _ _ _ _ _ (load_chunk_ok _ _ _ Hkh)), <- busy_flags.
  destruct (busy kh) eqn:Hb; [by exists false, budget, s|].
  destruct (Z.eqb_spec (k_size kh) SIZE_MINUS_ONE) as [|Hnw]; [by exists false, budget, s|].
  destruct (budget <? k_size kh); [by exists false, budget, s|].
  destruct l2 as [|d l2'].
  { cbn [app] in El. injection El as <- <-. destruct (lo_tiles _ _ _ _ _ Hlo) as (e & _ & _ & (kw & Hkw & _ & _ & _ & Hw & _)). congruence. }
  cbn [app] in El. injection El as <- Et. clear Et t. rename kh into kd, Hkh into Hd.
  pose proof Hlo as Hlod. rewrite (cons_middle c), app_assoc in Hlod.
  destruct (layout_chunk _ _ _ _ _ _ _ _ Hlod Hd) as [[Hkda _] Hdz Hdr _].
  destruct (merge_layout _ _ _ _ _ _ _ _ _ _ Hlo Hk Hd) as (h & Hend & Hlo').
  assert (Hcd : c <> d) by (destruct (member_once _ _ _ _ _ _ _ Hlo) as (_ & Hn & _); intros ->; apply Hn; left).
  assert (Hsd : k_start kd = k_start k + k_size k) by (rewrite <- Hsh; unfold kstart; by rewrite Hd).
  rewrite (uadd_small (k_start kd)) by (apply file_small; unfold PAGE_SIZE in Hdz; lia).
  rewrite (bind_step _ _ _ _ _ (get_pginfo_hit _ _ _ Hi ev _ _ Hend)).
  assert (Hcpg : ai_pginfo i !! (k_start k / PAGE_SIZE) = Some (mk_pginfo (k_start k mod PAGE_SIZE) (last_of 0 l1) c)).
  { pose proof (layout_boundary _ _ _ _ _ l1 c (d :: l2' ++ [w]) Hlo) as H. unfold kstart in H. rewrite Hk in H. apply H. by rewrite <- app_assoc. }
  rewrite (bind_step _ _ _ _ _ (get_pginfo_hit _ _ _ Hi ev _ _ Hcpg)).
  rewrite (uadd_small (k_size k)) by (apply file_small; unfold PAGE_SIZE in *; lia).
  set (k' := with_size (k_size k + k_size kd) k). set (s1 := set_chunks (<[c := k']> (a_chunks s)) s).
  rewrite (bind_step (store_chunk c k') _ s tt s1 eq_refl).
  assert (Hi1 : a_infos s1 !! a = Some i) by done. rewrite <- Hsd.
  rewrite (bind_step _ _ _ _ _ (store_pginfo_ok _ _ _ Hi1 _ _)). set (i2 := with_pginfo _ i). set (s2 := set_infos _ s1).
  assert (Hi2 : a_infos s2 !! a = Some i2) by apply lookup_insert_eq.
  assert (Hne : k_start kd / PAGE_SIZE <> (k_start kd + k_size kd) / PAGE_SIZE).
  { intros E. unfold PAGE_SIZE in *. assert (k_start kd / 4096 + 1 <= (k_start kd + k_size kd) / 4096); [|lia].
    apply Z.div_le_lower_bound; [lia|]. pose proof (Z.mul_div_le (k_start kd) 4096). lia. }
  assert (Hend2 : ai_pginfo i2 !! ((k_start kd + k_size kd) / PAGE_SIZE) = Some (mk_pginfo ((k_start kd + k_size kd) mod PAGE_SIZE) d h)).
  { unfold i2. simpl. by rewrite lookup_insert_ne. }
  rewrite (bind_step _ _ _ _ _ (load_pginfo_ok _ _ _ Hi2 _ _ Hend2)).
  rewrite (bind_step _ _ _ _ _ (store_pginfo_ok _ _ _ Hi2 _ _)). cbn [pg_boundary_offset pg_starts_chunk].
  set (s3 := set_infos _ s2). assert (Hbk : busy kd = false) by done.
  rewrite (bind_step _ _ s3 tt (mk_astate (drop_best d (a_infos s3)) (<[c := k']> (a_chunks s)) (a_threads s))).
  2: { unfold list_del_bestfit. rewrite (proj2 (in_bestfit_node_spec d s3)).
    - do 2 f_equal. apply (drop_alloc_fresh d (a_threads s)). intros t x Hx Hin. destruct (ai_alloc _ Hinv t x d Hx Hin) as (y & Hy & ?). congruence.
    - left. exists a, (with_pginfo (<[(k_start kd + k_size kd) / PAGE_SIZE := mk_pginfo ((k_start kd + k_size kd) mod PAGE_SIZE) c h]> (ai_pginfo i2)) i2).
      split; [apply lookup_insert_eq|]. apply (proj2 (ai_best _ Hinv a i d Hi)). by exists kd. }
  set (pgs := <[(k_start kd + k_size kd) / PAGE_SIZE := mk_pginfo ((k_start kd + k_size kd) mod PAGE_SIZE) c h]>
    (<[k_start kd / PAGE_SIZE := mk_pginfo SIVFS_CHUNK_BOUNDARY_NULL 0 0]> (ai_pginfo i))) in *.
  rewrite (bind_step _ _ _ tt (merged a c d k kd pgs i s)).
  2: { unfold sivfs_put_alloc_chunk. rewrite (proj2 (Z.eqb_neq _ _) Hh0). cbn [a_chunks]. rewrite lookup_insert_ne, Hd by done.
    unfold merged, pgs, set_chunks, s3, s2, s1, i2. cbn [a_infos a_chunks a_threads set_infos set_chunks with_pginfo ai_pginfo ai_bestfit].
    by rewrite insert_insert_eq. }
  eexists true, _, _. split; [reflexivity|].
  exists d, l2', (with_bestfit (without d (ai_bestfit i)) (with_pginfo pgs i)), k'. split; [done|].
  split; [eapply (merged_inv a c d k kd _ i s (l1 ++ c :: l2') w); done|].
  assert (Hkd0 : 0 <= k_size kd) by (unfold PAGE_SIZE in Hdz; lia).
  assert (Hlim : k_size k + k_size kd < FILE_LIMIT) by lia.
  split; [split; [by apply merged_kept|by apply merged_only]|]. split; [done|]. split; [|split; [|split; [exact Hlo'|split]]].
  - cbn [merged a_chunks]. unfold merge_map. rewrite map_size_delete, lookup_insert_ne, Hd by done. rewrite map_size_insert, Hk.
    assert (size (a_chunks s) <> 0%nat); [|unfold id; lia]. intros E%map_size_empty_inv. by rewrite E in Hk.
  - cbn [merged a_infos]. unfold drop_best. rewrite lookup_fmap, lookup_insert_eq. reflexivity.
  - by apply merge_here.
  - by apply chunk_sim_merge.
Qed.

(** ** The coalescing loops *)

(** [s'] results from [s] by merging chunks of file [a]. *)
Definition coalesced (s s' : astate) : Prop :=
  alloc_inv s' /\ (kept s s' /\ only_merged s s') /\ a_threads s' = a_threads s /\ (size (a_chunks s') <= size (a_chunks s))%nat.

Lemma coalesced_refl s : alloc_inv s -> coalesced s s.
Proof.
  intros H. split; [done|]. split; [|done]. split; [apply kept_refl|]. intros c k Hk. exists k. split; [done|apply chunk_sim_refl].
Qed.

Lemma coalesced_trans s1 s2 s3 : coalesced s1 s2 -> coalesced s2 s3 -> coalesced s1 s3.
Proof.
  intros (? & [? ?] & ? & ?) (? & [? ?] & ? & ?). split; [done|]. split; [|split; [congruence|lia]].
  split; [by eapply kept_trans|by eapply only_merged_trans].
Qed.

Lemma next_loop_ok ev a l1 c w : forall fuel budget s i l2 k, alloc_inv s -> a_infos s !! a = Some i ->
  layout (a_chunks s) a (ai_pginfo i) (l1 ++ c :: l2) w -> a_chunks s !! c = Some k -> (size (a_chunks s) < fuel)%nat ->
  exists budget' s' i' l2' k', coalesce_next_loop ev fuel budget c a s = (Ok budget', s') /\ coalesced s s' /\
    a_infos s' !! a = Some i' /\ layout (a_chunks s') a (ai_pginfo i') (l1 ++ c :: l2') w /\ a_chunks s' !! c = Some k' /\ chunk_sim k k'.
Proof.
  induction fuel as [|fuel IH]; intros budget s i l2 k Hinv Hi Hlo Hk Hf; [lia|]. cbn [coalesce_next_loop].
  destruct (coalesce_next_ok ev budget s a i l1 c l2 w k Hinv Hi Hlo Hk) as (b & bud & s1 & E & HR).
  rewrite (bind_step _ _ _ _ _ E). destruct b; cbn [merge_result] in HR.
  - destruct HR as (d & l2' & i1 & k1 & -> & Hinv1 & K1 & T1 & S1 & Hi1 & Hlo1 & Hk1 & Sim).
    destruct (IH bud s1 i1 l2' k1 Hinv1 Hi1 Hlo1 Hk1 ltac:(lia)) as (bud' & s2 & i2 & l2'' & k2 & E2 & C2 & ? & ? & ? & Sim2).
    exists bud', s2, i2, l2'', k2. split; [done|]. split; [eapply coalesced_trans; [|done]; split; [done|]; split; [done|]; split; [done|lia]|].
    split_and!; try done. by eapply chunk_sim_trans.
  - subst s1. exists bud, s, i, l2, k. split; [done|]. split; [by apply coalesced_refl|]. split; [done|]. split; [done|]. split; [done|apply chunk_sim_refl].
Qed.

Lemma prev_loop_ok ev a w : forall fuel budget s i l1 c l2 k, alloc_inv s -> a_infos s !! a = Some i ->
  layout (a_chunks s) a (ai_pginfo i) (l1 ++ c :: l2) w -> a_chunks s !! c = Some k -> (size (a_chunks s) < fuel)%nat ->
  exists s', coalesce_prev_loop ev fuel budget c a s = (Ok tt, s') /\ coalesced s s'.
Proof.
  induction fuel as [|fuel IH]; intros budget s i l1 c l2 k Hinv Hi Hlo Hk Hf; [lia|]. cbn [coalesce_prev_loop].
  assert (Hcpg : ai_pginfo i !! (k_start k / PAGE_SIZE) = Some (mk_pginfo (k_start k mod PAGE_SIZE) (last_of 0 l1) c)).
  { pose proof (layout_boundary _ _ _ _ _ l1 c (l2 ++ [w]) Hlo) as H. unfold kstart in H. rewrite Hk in H. apply H. by rewrite <- app_assoc. }
  destruct l1 as [|p l1 _] using rev_ind.
  { rewrite (bind_step _ _ s (0, budget) s).
    2: { unfold sivfs_coalesce_with_prev. rewrite (bind_step _ _ _ _ _ (load_chunk_ok _ _ _ Hk)).
      rewrite (bind_step _ _ _ _ _ (get_pginfo_hit _ _ _ Hi ev _ _ Hcpg)). by rewrite (bind_step _ _ _ _ _ (load_pginfo_ok _ _ _ Hi _ _ Hcpg)). }
    exists s. split; [done|by apply coalesced_refl]. }
  rewrite last_of_snoc in Hcpg. pose proof Hlo as Hlop. rewrite <- app_assoc in Hlop. cbn [app] in Hlop.
  destruct (layout_exists _ _ _ _ _ p Hlop) as [kp Hkp]; [set_solver|].
  destruct (layout_chunk _ _ _ _ _ _ _ _ Hlop Hkp) as [[_ Hp0] _ _ _].
  destruct (coalesce_next_ok ev budget s a i l1 p (c :: l2) w kp Hinv Hi Hlop Hkp) as (b & bud & s1 & E & HR).
  rewrite (bind_step _ _ s (if b then p else 0, bud) s1).
  2: { unfold sivfs_coalesce_with_prev. rewrite (bind_step _ _ _ _ _ (load_chunk_ok _ _ _ Hk)).
    rewrite (bind_step _ _ _ _ _ (get_pginfo_hit _ _ _ Hi ev _ _ Hcpg)), (bind_step _ _ _ _ _ (load_pginfo_ok _ _ _ Hi _ _ Hcpg)).
    cbn [pg_ends_chunk]. rewrite (proj2 (Z.eqb_neq _ _) Hp0). by rewrite (bind_step _ _ _ _ _ E). }
  destruct b; cbn [merge_result] in HR.
  - rewrite (proj2 (Z.eqb_neq _ _) Hp0). destruct HR as (d & l2' & i1 & k1 & [= <- <-] & Hinv1 & K1 & T1 & S1 & Hi1 & Hlo1 & Hk1 & _).
    destruct (IH bud s1 i1 l1 p l2 k1 Hinv1 Hi1 Hlo1 Hk1 ltac:(lia)) as (s2 & E2 & C2). exists s2. split; [done|].
    eapply coalesced_trans; [|done]. split; [done|]. split; [done|]. split; [done|lia].
  - subst s1. exists s. split; [done|by apply coalesced_refl].
Qed.

(** ** The real free *)

(** Every chunk but the wilderness has a place in the tiling. *)
Lemma chunk_split s c k : alloc_inv s -> a_chunks s !! c = Some k -> busy k = true ->
  exists i l1 l2 w, a_infos s !! k_ainfo k = Some i /\ k_ainfo k <> 0 /\ layout (a_chunks s) (k_ainfo k) (ai_pginfo i) (l1 ++ c :: l2) w.
Proof.
  intros Hinv Hc Hb. destruct (ai_owner _ Hinv c k Hc) as [i Hi]. destruct (ai_files _ Hinv _ _ Hi) as (Ha & l & w & Hlo).
  pose proof (lo_all _ _ _ _ _ Hlo c k Hc eq_refl) as Hin. apply elem_of_app in Hin as [Hin|Hin].
  - apply list_elem_of_split in Hin as (l1 & l2 & ->). by exists i, l1, l2, w.
  - apply list_elem_of_singleton in Hin as ->. destruct (lo_tiles _ _ _ _ _ Hlo) as (e & _ & _ & (kw & Hkw & _ & _ & _ & _ & Hbw)). congruence.
Qed.

(** Resetting the flags of a chunk moves no boundary. *)
Lemma layout_flags ch a pgs l w c k t : layout ch a pgs l w -> ch !! c = Some k -> c ∈ l ->
  layout (<[c := with_last_freed t k]> ch) a pgs l w.
Proof.
  intros Hlo Hk Hc. assert (Hcw : c <> w).
  { pose proof (layout_members _ _ _ _ _ Hlo) as (_ & Hd & _)%NoDup_app. intros ->. apply (Hd w Hc). left. }
  destruct Hlo as [(e & He & Ht & (kw & Hkw & Hw)) Hpg Hall]. split.
  - exists e. split; [done|]. split; [|exists kw; split; [by rewrite lookup_insert_ne|done]].
    clear -Ht Hk. revert Ht. generalize 0. induction l as [|x l IH]; intros pos; cbn [tiles]; [done|].
    intros (kx & Hx & Ha & Hs & H0 & Hz & Ht). destruct (decide (x = c)) as [->|Hne].
    + exists (with_last_freed t k). rewrite lookup_insert_eq. assert (kx = k) as -> by congruence. split_and!; try done. by apply IH.
    + exists kx. rewrite lookup_insert_ne by done. split_and!; try done. by apply IH.
  - rewrite (bounds_ext ch); [done|]. intros x _. unfold kstart. rewrite lookup_insert. case_decide as E; [subst x; by rewrite Hk|done].
  - intros x kx. rewrite lookup_insert. case_decide as E; [subst x; intros _ _; rewrite elem_of_app; by left|apply Hall].
Qed.

(** A busy chunk that is in no list, with its flags cleared and on the free list. *)
Definition released (c t : Z) (k : sivfs_alloc_chunk) (i : sivfs_allocator_info) (s : astate) : astate :=
  mk_astate (<[k_ainfo k := with_bestfit (c :: ai_bestfit i) i]> (a_infos s)) (<[c := with_last_freed t k]> (a_chunks s)) (a_threads s).

Lemma released_inv c t k i s : alloc_inv s -> a_chunks s !! c = Some k -> busy k = true -> a_infos s !! k_ainfo k = Some i ->
  (forall t' x, a_threads s !! t' = Some x -> c ∉ t_allocated_chunks x /\ c ∉ t_chunks_to_free x) ->
  busy (with_last_freed t k) = false -> alloc_inv (released c t k i s).
Proof.
  intros Hinv Hc Hb Hi Hun Hb'. destruct (chunk_split s c k Hinv Hc Hb) as (i' & l1 & l2 & w & Hi' & Ha0 & Hlo).
  rewrite Hi in Hi'. injection Hi' as <-. destruct Hinv as [Hf Ho Hbest Hal ? ? Hfr ? ? ?].
  split; try done; cbn [released a_infos a_chunks a_threads].
  - intros a j. rewrite lookup_insert. case_decide as E.
    + intros [= <-]. subst a. split; [done|]. exists (l1 ++ c :: l2), w. apply layout_flags; [done|done|set_solver].
    + intros Hj. destruct (Hf a j Hj) as (? & l & w' & Hl). split; [done|]. exists l, w'. eapply layout_frame; [|exact Hl].
      intros x kx Hx. rewrite lookup_insert. case_decide as E'; [subst x|done].
      split; [intros H'; congruence|intros [= <-]; simpl in Hx; congruence].
  - intros x kx Hx. rewrite lookup_insert in Hx. rewrite lookup_insert. case_decide as E.
    + injection Hx as <-. simpl. rewrite decide_True by done. by eexists.
    + case_decide; [by eexists|exact (Ho x kx Hx)].
  - intros a j x. rewrite lookup_insert. case_decide as E.
    + intros [= <-]. subst a. simpl. rewrite elem_of_cons, (Hbest _ _ x Hi). split.
      * intros [->|(kx & Hx & ? & ?)]; [eexists; split; [apply lookup_insert_eq|done]|].
        exists kx. rewrite lookup_insert_ne; [done|]. intros <-. congruence.
      * intros (kx & Hx & ? & ?). rewrite lookup_insert in Hx. case_decide; [by left|right; by exists kx].
    + intros Hj. rewrite (Hbest _ _ x Hj). split; intros (kx & Hx & Hax & ?).
      * exists kx. rewrite lookup_insert_ne; [done|]. intros <-. congruence.
      * rewrite lookup_insert in Hx. case_decide; [|by exists kx]. injection Hx as <-. simpl in Hax. congruence.
  - intros t' x y Hx Hy. destruct (Hal t' x y Hx Hy) as (ky & Hky & ?). exists ky. rewrite lookup_insert_ne; [done|].
    intros <-. by destruct (Hun t' x Hx).
  - intros t' x y Hx Hy. destruct (Hfr t' x y Hx Hy) as (ky & Hky & ?). exists ky. rewrite lookup_insert_ne; [done|].
    intros <-. by destruct (Hun t' x Hx).
Qed.

Lemma free_core_ok ev c ts s k : alloc_inv s -> a_chunks s !! c = Some k -> busy k = true ->
  (forall t' x, a_threads s !! t' = Some x -> c ∉ t_allocated_chunks x /\ c ∉ t_chunks_to_free x) ->
  exists s', _sivfs_free_block ev c ts s = (Ok tt, s') /\ alloc_inv s' /\ kept_but (fun x => x = c) s s' /\ a_threads s' = a_threads s /\
    forall x k', a_chunks s' !! x = Some k' -> exists k0, a_chunks s !! x = Some k0 /\ (if decide (x = c) then busy k' = false else chunk_sim k0 k') /\ grown k0 k'.
Proof.
  intros Hinv Hc Hb Hun. destruct (chunk_split s c k Hinv Hc Hb) as (i & l1 & l2 & w & Hi & Ha0 & Hlo).
  unfold _sivfs_free_block. rewrite (bind_step _ _ _ _ _ (load_chunk_ok _ _ _ Hc)), (proj2 (Z.eqb_neq _ _) Ha0). cbv zeta.
  set (t := Z.land (Z.land (if ts =? SIVFS_INVALID_TS then k_last_freed_ts k else ts) _) _).
  assert (Hbt : busy (with_last_freed t k) = false) by apply busy_cleared.
  set (s1 := set_chunks (<[c := with_last_freed t k]> (a_chunks s)) s). rewrite (bind_step (store_chunk _ _) _ s tt s1 eq_refl).
  pose proof (released_inv c t k i s Hinv Hc Hb Hi Hun Hbt) as Hinv2. set (s2 := released c t k i s) in *.
  rewrite (bind_step _ _ s1 tt s2).
  2: { unfold list_add_bestfit. replace (in_bestfit_node c s1) with (in_bestfit_node c s) by done.
    rewrite (busy_not_in_node s c k Hinv Hc Hb); [|intros t' x Hx; by apply (Hun t' x)].
    assert (Hi1 : a_infos s1 !! k_ainfo k = Some i) by done. by rewrite (bind_step _ _ _ _ _ (load_info_ok _ _ _ Hi1)). }
  rewrite (bind_step (gets _) _ s2 (S (size (a_chunks s2))) s2 eq_refl).
  assert (Hi2 : a_infos s2 !! k_ainfo k = Some (with_bestfit (c :: ai_bestfit i) i)) by apply lookup_insert_eq.
  assert (Hc2 : a_chunks s2 !! c = Some (with_last_freed t k)) by apply lookup_insert_eq.
  assert (Hlo2 : layout (a_chunks s2) (k_ainfo k) (ai_pginfo (with_bestfit (c :: ai_bestfit i) i)) (l1 ++ c :: l2) w)
    by (apply layout_flags; [done|done|set_solver]).
  destruct (next_loop_ok ev _ _ _ _ (S (size (a_chunks s2))) (umul (k_size k) 4) s2 _ l2 _ Hinv2 Hi2 Hlo2 Hc2 ltac:(lia))
    as (bud & s3 & i3 & l3 & k3 & E3 & (Hinv3 & [K3 O3] & T3 & S3) & Hi3 & Hlo3 & Hc3 & _).
  rewrite (bind_step _ _ _ _ _ E3).
  destruct (prev_loop_ok ev _ _ (S (size (a_chunks s2))) bud s3 i3 l1 c l3 k3 Hinv3 Hi3 Hlo3 Hc3 ltac:(lia))
    as (s4 & E4 & (Hinv4 & [K4 O4] & T4 & _)).
  exists s4. split; [done|]. split; [done|]. split; [|split; [by rewrite T4, T3|]].
  2: { intros x k' Hx. destruct (only_merged_trans _ _ _ O3 O4 x k' Hx) as (k0 & Hk0 & Sim). simpl in Hk0. rewrite lookup_insert in Hk0.
    destruct (decide (x = c)) as [->|Hxc]; [|rewrite decide_False in Hk0 by congruence; exists k0; split; [done|split; [done|apply Sim]]].
    rewrite decide_True in Hk0 by done. injection Hk0 as <-. exists k. split; [done|]. split; [by rewrite (chunk_sim_busy _ _ Sim)|apply Sim]. }
  eapply kept_trans; [|eapply kept_weaken; [|eapply kept_trans; [exact K3|exact K4]]; done].
  intros x kx Hx Hkx Hbx. exists kx. simpl. rewrite lookup_insert_ne by done. split; [done|apply chunk_sim_refl].
Qed.

(** ** The lists of a transaction *)

(** The threads' lists only shrink. *)
Definition threads_le (m m' : gmap Z tstate) : Prop := forall t x', m' !! t = Some x' -> exists x, m !! t = Some x /\
  t_allocated_chunks x' ⊆ t_allocated_chunks x /\ t_chunks_to_free x' ⊆ t_chunks_to_free x /\
  (NoDup (t_allocated_chunks x) -> NoDup (t_allocated_chunks x')) /\ (NoDup (t_chunks_to_free x) -> NoDup (t_chunks_to_free x')).

Lemma threads_le_inv s m : alloc_inv s -> threads_le (a_threads s) m -> alloc_inv (set_threads m s).
Proof.
  intros [? ? ? Hal Haln Hald Hfr Hfrn Hfrd Hx] Hle. split; try done; cbn [set_threads a_threads a_chunks].
  - intros t x' c H Hc. destruct (Hle t x' H) as (x & Ht & Hs & _). apply (Hal t x c Ht). by apply Hs.
  - intros t x' H. destruct (Hle t x' H) as (x & Ht & _ & _ & Hn & _). by apply Hn, (Haln t).
  - intros t x t' x' c H H' Hc Hc'. destruct (Hle t x H) as (y & Hy & Hs & _), (Hle t' x' H') as (y' & Hy' & Hs' & _).
    apply (Hald t y t' y' c Hy Hy'); [by apply Hs|by apply Hs'].
  - intros t x' c H Hc. destruct (Hle t x' H) as (x & Ht & _ & Hs & _). apply (Hfr t x c Ht). by apply Hs.
  - intros t x' H. destruct (Hle t x' H) as (x & Ht & _ & _ & _ & Hn). by apply Hn, (Hfrn t).
  - intros t x t' x' c H H' Hc Hc'. destruct (Hle t x H) as (y & Hy & _ & Hs & _), (Hle t' x' H') as (y' & Hy' & _ & Hs' & _).
    apply (Hfrd t y t' y' c Hy Hy'); [by apply Hs|by apply Hs'].
  - intros t x t' x' c H H' Hc Hc'. destruct (Hle t x H) as (y & Hy & _ & Hs & _), (Hle t' x' H') as (y' & Hy' & Hs' & _ & _).
    apply (Hx t y t' y' c Hy Hy'); [by apply Hs|by apply Hs'].
Qed.

Lemma without_sub c l : without c l ⊆ l /\ (NoDup l -> NoDup (without c l)).
Proof. split; [intros x Hx; by destruct (proj1 (elem_of_without _ _ _) Hx)|apply NoDup_filter]. Qed.

Lemma without_head c l : NoDup (c :: l) -> without c (c :: l) = l.
Proof.
  intros [Hc _]%NoDup_cons. unfold without. rewrite filter_cons_False by (intros H; by apply H). by apply without_fresh.
Qed.

Section lists.
Context (s : astate) (t : Z) (x : tstate) (Hinv : alloc_inv s) (Hx : a_threads s !! t = Some x).

Lemma insert_thread_le x' : t_allocated_chunks x' ⊆ t_allocated_chunks x -> t_chunks_to_free x' ⊆ t_chunks_to_free x ->
  (NoDup (t_allocated_chunks x) -> NoDup (t_allocated_chunks x')) -> (NoDup (t_chunks_to_free x) -> NoDup (t_chunks_to_free x')) ->
  alloc_inv (set_threads (<[t := x']> (a_threads s)) s).
Proof.
  intros. apply threads_le_inv; [done|]. intros t' y. rewrite lookup_insert. case_decide as E.
  - intros [= <-]. subst t'. exists x. done.
  - intros Hy. exists y. done.
Qed.

(** The head of the thread's list leaves it, and nothing else changes. *)
Lemma del_allocated_ok c l : t_allocated_chunks x = c :: l ->
  let s' := set_threads (<[t := with_allocated l x]> (a_threads s)) s in list_del_bestfit c s = (Ok tt, s') /\ alloc_inv s'.
Proof.
  intros El s'. assert (Hc : c ∈ t_allocated_chunks x) by (rewrite El; left).
  destruct (ai_alloc _ Hinv t x c Hx Hc) as (k & Hk & Hb).
  pose proof (ai_alloc_nodup _ Hinv t x Hx) as Hnd. rewrite El in Hnd. pose proof (without_head _ _ Hnd) as Hwh. split.
  - unfold list_del_bestfit. rewrite (proj2 (in_bestfit_node_spec c s)) by (right; by exists t, x).
    fold (drop_best c (a_infos s)). rewrite drop_best_fresh.
    2: { intros a i Hi Hin. apply (ai_best _ Hinv a i c Hi) in Hin as (k' & ? & ? & ?). congruence. }
    fold (drop_alloc c (a_threads s)). unfold s', set_threads. do 2 f_equal. apply map_eq. intros t'. unfold drop_alloc.
    rewrite lookup_fmap, lookup_insert. case_decide as E.
    + subst t'. rewrite Hx. cbn [fmap option_fmap option_map]. by rewrite El, Hwh.
    + destruct (a_threads s !! t') as [y|] eqn:Ey; [|done]. cbn [fmap option_fmap option_map]. rewrite without_fresh; [by destruct y|].
      intros Hin. apply E. by apply (ai_alloc_disj _ Hinv t x t' y c).
  - apply insert_thread_le; simpl; try done; rewrite El; [intros z Hz; by right|by intros [_ ?]%NoDup_cons].
Qed.

Lemma del_to_free_ok c l : t_chunks_to_free x = c :: l ->
  let s' := set_threads (<[t := with_to_free l x]> (a_threads s)) s in list_del_to_free c s = (Ok tt, s') /\ alloc_inv s'.
Proof.
  intros El s'. assert (Hc : c ∈ t_chunks_to_free x) by (rewrite El; left).
  pose proof (ai_free_nodup _ Hinv t x Hx) as Hnd. rewrite El in Hnd. pose proof (without_head _ _ Hnd) as Hwh. split.
  - unfold list_del_to_free. rewrite (proj2 (in_free_node_spec c s)) by (by exists t, x).
    fold (drop_free c (a_threads s)). unfold s', set_threads. do 2 f_equal. apply map_eq. intros t'. unfold drop_free.
    rewrite lookup_fmap, lookup_insert. case_decide as E.
    + subst t'. rewrite Hx. cbn [fmap option_fmap option_map]. by rewrite El, Hwh.
    + destruct (a_threads s !! t') as [y|] eqn:Ey; [|done]. cbn [fmap option_fmap option_map]. rewrite without_fresh; [by destruct y|].
      intros Hin. apply E. by apply (ai_free_disj _ Hinv t x t' y c).
  - apply insert_thread_le; simpl; try done; rewrite El; [intros z Hz; by right|by intros [_ ?]%NoDup_cons].
Qed.
End lists.

(** A busy chunk gets other flags and stays busy. *)
Lemma relabel_inv s c k n : alloc_inv s -> a_chunks s !! c = Some k -> busy k = true -> busy (with_last_freed n k) = true ->
  (forall t x, a_threads s !! t = Some x -> c ∈ t_chunks_to_free x -> sivfs_alloc_chunk_is_free (with_last_freed n k) = true) ->
  alloc_inv (set_chunks (<[c := with_last_freed n k]> (a_chunks s)) s).
Proof.
  intros Hinv Hc Hb Hb' Hfree. destruct (chunk_split s c k Hinv Hc Hb) as (i & l1 & l2 & w & Hi & Ha0 & Hlo).
  destruct Hinv as [Hf Ho Hbest Hal ? ? Hfr ? ? ?]. split; try done; cbn [set_chunks a_infos a_chunks a_threads].
  - intros a j Hj. destruct (decide (a = k_ainfo k)) as [->|Hne].
    + rewrite Hi in Hj. injection Hj as <-. split; [done|]. exists (l1 ++ c :: l2), w. apply layout_flags; [done|done|set_solver].
    + destruct (Hf a j Hj) as (? & l & w' & Hl). split; [done|]. exists l, w'. eapply layout_frame; [|exact Hl].
      intros x kx Hx. rewrite lookup_insert. case_decide as E'; [subst x|done].
      split; [intros H'; congruence|intros [= <-]; simpl in Hx; congruence].
  - intros x kx Hx. rewrite lookup_insert in Hx. case_decide; [injection Hx as <-; by eexists|exact (Ho x kx Hx)].
  - intros a j x Hj. rewrite (Hbest _ _ x Hj). split; intros (kx & Hx & Hax & Hbx).
    + exists kx. rewrite lookup_insert_ne; [done|]. intros <-. congruence.
    + rewrite lookup_insert in Hx. case_decide; [|by exists kx]. injection Hx as <-. congruence.
  - intros t x y Hx Hy. destruct (Hal t x y Hx Hy) as (ky & Hky & ?). rewrite lookup_insert. case_decide; [by eexists|by exists ky].
  - intros t x y Hx Hy. destruct (Hfr t x y Hx Hy) as (ky & Hky & ?). rewrite lookup_insert. case_decide as E; [|by exists ky].
    subst y. eexists. split; [done|]. split; [done|by eapply Hfree].
Qed.

(** ** The loops of commit and abort *)

Definition others_same (t : Z) (s s' : astate) : Prop := forall t', t' <> t -> a_threads s' !! t' = a_threads s !! t'.

Lemma unlist_loop_ok t : forall l s x, alloc_inv s -> a_threads s !! t = Some x -> t_allocated_chunks x = l ->
  exists s', for_each_chunk list_del_bestfit l s = (Ok tt, s') /\ alloc_inv s' /\ a_chunks s' = a_chunks s /\
    a_threads s' !! t = Some (with_allocated [] x) /\ others_same t s s'.
Proof.
  induction l as [|c l IH]; intros s x Hinv Hx El; cbn [for_each_chunk].
  - exists s. split; [done|]. split; [done|]. split; [done|]. split; [rewrite Hx, <- El; by destruct x|done].
  - destruct (del_allocated_ok s t x Hinv Hx c l El) as [E Hinv1]. rewrite (bind_step _ _ _ _ _ E).
    set (s1 := set_threads _ s) in *. destruct (IH s1 (with_allocated l x) Hinv1) as (s' & -> & Hinv' & Hc & Ht & Ho);
      [apply lookup_insert_eq|done|].
    exists s'. split; [done|]. split; [done|]. split; [done|]. split; [done|]. intros t' Hne. rewrite (Ho t' Hne). simpl. by rewrite lookup_insert_ne.
Qed.

(** Freeing the chunks of one of the thread's lists: [del] takes a chunk off the
    list [lst], whose new value is stored by [upd]. *)
Section release.
Context (ev : alloc_env) (ts t : Z) (del : Z -> M astate unit) (lst : tstate -> list Z) (upd : list Z -> tstate -> tstate) (P : tstate -> Prop).

Record release_step (s : astate) (x : tstate) (c : Z) (l : list Z) : Prop := {
  rs_del : del c s = (Ok tt, set_threads (<[t := upd l x]> (a_threads s)) s);
  rs_inv : alloc_inv (set_threads (<[t := upd l x]> (a_threads s)) s);
  rs_next : P (upd l x) /\ lst (upd l x) = l /\ upd [] (upd l x) = upd [] x /\ c ∉ l;
  rs_busy : exists k, a_chunks s !! c = Some k /\ busy k = true;
  rs_unlisted : forall t' y, <[t := upd l x]> (a_threads s) !! t' = Some y -> c ∉ t_allocated_chunks y /\ c ∉ t_chunks_to_free y
}.
Hypothesis Hstep : forall s x c l, alloc_inv s -> a_threads s !! t = Some x -> P x -> lst x = c :: l -> release_step s x c l.
Hypothesis Hnil : forall x, lst x = [] -> upd [] x = x.

Lemma release_loop_ok : forall l s x, alloc_inv s -> a_threads s !! t = Some x -> P x -> lst x = l ->
  exists s', for_each_chunk (fun cur => do! del cur in as_einval (_sivfs_free_block ev cur ts)) l s = (Ok tt, s') /\ alloc_inv s' /\
    a_threads s' !! t = Some (upd [] x) /\ others_same t s s' /\ kept_but (fun c => c ∈ l) s s' /\
    forall c k', a_chunks s' !! c = Some k' -> exists k, a_chunks s !! c = Some k /\ (if decide (c ∈ l) then busy k' = false else chunk_sim k k') /\ grown k k'.
Proof.
  induction l as [|c l IH]; intros s x Hinv Hx HP El; cbn [for_each_chunk].
  - exists s. split; [done|]. split; [done|]. split; [by rewrite Hnil|]. split; [done|]. split; [apply kept_refl|].
    intros c k' Hk. exists k'. split; [done|]. rewrite decide_False by apply not_elem_of_nil. split; [apply chunk_sim_refl|apply grown_refl].
  - destruct (Hstep s x c l Hinv Hx HP El) as [Ed Hinv1 (HP1 & El1 & Eu & Hcl) (k & Hk & Hb) Hun].
    set (s1 := set_threads (<[t := upd l x]> (a_threads s)) s) in *.
    destruct (free_core_ok ev c ts s1 k Hinv1 Hk Hb Hun) as (s2 & E2 & Hinv2 & K2 & T2 & O2).
    rewrite (bind_step _ _ s tt s2).
    2: { rewrite (bind_step _ _ _ _ _ Ed). unfold as_einval. by rewrite E2. }
    destruct (IH s2 (upd l x) Hinv2) as (s3 & -> & Hinv3 & Hx3 & Oth & K3 & O3); [rewrite T2; apply lookup_insert_eq|done|done|].
    exists s3. split; [done|]. split; [done|]. split; [by rewrite Hx3, Eu|]. split; [|split].
    + intros t' Hne. rewrite (Oth t' Hne), T2. simpl. by rewrite lookup_insert_ne.
    + eapply kept_trans; [eapply kept_weaken; [|exact K2]; intros y ->; left|eapply kept_weaken; [|exact K3]; intros y Hy; by right].
    + intros y k3 Hy. destruct (O3 y k3 Hy) as (k2 & Hk2 & H3 & G3). destruct (O2 y k2 Hk2) as (k1 & Hk1 & H2 & G2). exists k1. split; [done|].
      split; [|by eapply grown_trans].
      destruct (decide (y = c)) as [->|Hyc].
      * rewrite decide_False in H3 by done. rewrite decide_True by left. by rewrite (chunk_sim_busy _ _ H3).
      * destruct (decide (y ∈ l)); [rewrite decide_True by (by right); done|].
        rewrite decide_False by (by apply not_elem_of_cons). by eapply chunk_sim_trans.
Qed.
End release.

(** Undoing the tentative frees. *)
Lemma abort_loop_ok t : forall l s x, alloc_inv s -> a_threads s !! t = Some x -> t_chunks_to_free x = l ->
  exists s', for_each_chunk abort_free l s = (Ok tt, s') /\ alloc_inv s' /\ a_threads s' !! t = Some (with_to_free [] x) /\ others_same t s s' /\
    (forall c, is_Some (a_chunks s' !! c) -> is_Some (a_chunks s !! c)) /\
    forall c k, a_chunks s !! c = Some k -> exists k', a_chunks s' !! c = Some k' /\ k_start k' = k_start k /\ k_size k' = k_size k /\ k_ainfo k' = k_ainfo k /\
      (if decide (c ∈ l) then sivfs_alloc_chunk_is_free k' = false else k' = k).
Proof.
  induction l as [|c l IH]; intros s x Hinv Hx El; cbn [for_each_chunk].
  { exists s. split; [done|]. split; [done|]. split; [rewrite Hx, <- El; by destruct x|]. split; [done|]. split; [done|].
    intros c k Hk. exists k. rewrite decide_False by apply not_elem_of_nil. done. }
  destruct (del_to_free_ok s t x Hinv Hx c l El) as [Ed Hinv1]. set (s1 := set_threads (<[t := with_to_free l x]> (a_threads s)) s) in *.
  assert (Hcin : c ∈ t_chunks_to_free x) by (rewrite El; left).
  pose proof (ai_free_nodup _ Hinv t x Hx) as Hnd. rewrite El in Hnd. apply NoDup_cons in Hnd as [Hcl _].
  destruct (ai_free _ Hinv t x c Hx Hcin) as (k & Hk & Hb & _).
  destruct (chunk_split s c k Hinv Hk Hb) as (_ & _ & _ & _ & _ & Ha0 & _).
  set (n := Z.lor (Z.land (k_last_freed_ts k) SIVFS_CHUNK_ALLOC_FLAGS) SIVFS_CHUNK_ALLOCATED).
  set (s2 := set_chunks (<[c := with_last_freed n k]> (a_chunks s1)) s1).
  rewrite (bind_step _ _ s tt s2).
  2: { unfold abort_free. rewrite (bind_step _ _ _ _ _ Ed), (bind_step _ _ _ _ _ (load_chunk_ok s1 c k Hk)).
    by rewrite (proj2 (Z.eqb_neq _ _) Ha0). }
  assert (Hinv2 : alloc_inv s2).
  { apply (relabel_inv s1 c k n Hinv1 Hk Hb (busy_set_allocated _ k)). intros t' y Hy Hin. exfalso. simpl in Hy. rewrite lookup_insert in Hy.
    case_decide as E; [injection Hy as <-; done|]. apply E. by apply (ai_free_disj _ Hinv t x t' y c). }
  destruct (IH s2 (with_to_free l x) Hinv2) as (s3 & -> & Hinv3 & Hx3 & Oth & D3 & H3); [apply lookup_insert_eq|done|].
  exists s3. split; [done|]. split; [done|]. split; [done|]. split; [intros t' Hne; rewrite (Oth t' Hne); simpl; by rewrite lookup_insert_ne|].
  split; [intros y Hy; apply D3 in Hy as [z Hz]; simpl in Hz; rewrite lookup_insert in Hz; case_decide; [subst y; by exists k|by exists z]|].
  intros y ky Hy. destruct (decide (y = c)) as [->|Hyc].
  - assert (ky = k) as -> by congruence. destruct (H3 c (with_last_freed n k)) as (k' & Hk' & ? & ? & ? & Hd); [apply lookup_insert_eq|].
    rewrite decide_False in Hd by done. subst k'. exists (with_last_freed n k). rewrite decide_True by left. split_and!; try done.
    unfold sivfs_alloc_chunk_is_free. apply Z.eqb_neq. intros E. apply (f_equal (fun z => Z.testbit z 63)) in E.
    cbn [k_last_freed_ts with_last_freed] in E. unfold n in E. rewrite Z.land_spec, Z.lor_spec, Z.testbit_0_l in E.
    change (Z.testbit SIVFS_CHUNK_ALLOCATED 63) with true in E. by rewrite orb_true_r in E.
  - destruct (H3 y ky) as (k' & Hk' & ? & ? & ? & Hd); [simpl; by rewrite lookup_insert_ne|]. exists k'. split_and!; try done.
    destruct (decide (y ∈ l)); [rewrite decide_True by (by right); done|]. rewrite decide_False by (by apply not_elem_of_cons). done.
Qed.

(** No operation on a transaction's blocks forgets a file. *)
Definition has_file (a : Z) (s : astate) : Prop := is_Some (a_infos s !! a).

Create HintDb files.

Section files.
Context (a : Z).

Lemma files_same {A} (m : M astate A) : (forall s, a_infos (m s).2 = a_infos s) -> keeps (has_file a) m.
Proof. intros H s. unfold has_file. by rewrite H. Qed.

Lemma files_store_info b i : keeps (has_file a) (store_info b i).
Proof. intros s [j Hj]. unfold has_file. cbn. rewrite lookup_insert. case_decide; by eexists. Qed.

Lemma files_del_bestfit c : keeps (has_file a) (list_del_bestfit c).
Proof.
  intros s [j Hj]. unfold list_del_bestfit, has_file. destruct (in_bestfit_node c s); [|by exists j]. cbn [snd a_infos].
  rewrite lookup_fmap, Hj. by eexists.
Qed.

Lemma files_del_to_free c : keeps (has_file a) (list_del_to_free c).
Proof. apply files_same. intros s. unfold list_del_to_free. by destruct (in_free_node c s). Qed.

Lemma files_put_chunk c : keeps (has_file a) (sivfs_put_alloc_chunk c).
Proof. apply files_same. intros s. unfold sivfs_put_alloc_chunk. destruct (c =? 0); [done|]. by destruct (a_chunks s !! c). Qed.
End files.

#[export] Hint Resolve files_store_info files_del_bestfit files_del_to_free files_put_chunk : files.
#[export] Hint Extern 5 (keeps (has_file _) _) => apply files_same; intros; reflexivity : files.

(** One step of a proof that an operation keeps [has_file]. *)
Ltac files_step :=
  match goal with
  | |- keeps (has_file _) (bind _ _) => apply keeps_bind; [|intros ?]
  | |- keeps (has_file _) (if ?b then _ else _) => destruct b
  | |- keeps (has_file _) (match ?x with _ => _ end) => destruct x
  | |- keeps (has_file _) _ => solve [eauto with files]
  end.
Ltac files := cbv zeta; repeat files_step.

Lemma files_add_bestfit a c b : keeps (has_file a) (list_add_bestfit c b).
Proof.
  intros s. unfold list_add_bestfit. destruct (in_bestfit_node c s); [done|]. revert s.
  change (keeps (has_file a) (let! i := load_info b in store_info b (with_bestfit (c :: ai_bestfit i) i))). files.
Qed.
Lemma files_get_pginfo a ev b off : keeps (has_file a) (sivfs_alloc_get_pginfo ev b off).
Proof. unfold sivfs_alloc_get_pginfo. files. Qed.
Lemma files_store_pginfo a b p g : keeps (has_file a) (store_pginfo b p g).
Proof. unfold store_pginfo. files. Qed.
Lemma files_load_pginfo a b p : keeps (has_file a) (load_pginfo b p).
Proof. unfold load_pginfo. files. Qed.
#[export] Hint Resolve files_add_bestfit files_get_pginfo files_store_pginfo files_load_pginfo : files.

Lemma files_next a ev budget c b : keeps (has_file a) (sivfs_coalesce_with_next ev budget c b).
Proof. unfold sivfs_coalesce_with_next. files. Qed.
#[export] Hint Resolve files_next : files.
Lemma files_prev a ev budget c b : keeps (has_file a) (sivfs_coalesce_with_prev ev budget c b).
Proof. unfold sivfs_coalesce_with_prev. files. Qed.
#[export] Hint Resolve files_prev : files.
Lemma files_next_loop a ev : forall fuel budget c b, keeps (has_file a) (coalesce_next_loop ev fuel budget c b).
Proof. induction fuel as [|fuel IH]; intros; cbn [coalesce_next_loop]; files. Qed.
Lemma files_prev_loop a ev : forall fuel budget c b, keeps (has_file a) (coalesce_prev_loop ev fuel budget c b).
Proof. induction fuel as [|fuel IH]; intros; cbn [coalesce_prev_loop]; files. Qed.
#[export] Hint Resolve files_next_loop files_prev_loop : files.
Lemma files_free_core a ev c ts : keeps (has_file a) (_sivfs_free_block ev c ts).
Proof. unfold _sivfs_free_block. files. Qed.
Lemma files_as_einval a m : keeps (has_file a) m -> keeps (has_file a) (as_einval m).
Proof. intros Hm s Hs. specialize (Hm s Hs). unfold as_einval. by destruct (m s) as [[] ?]. Qed.
Lemma files_each a (body : Z -> M astate unit) l : (forall c, keeps (has_file a) (body c)) -> keeps (has_file a) (for_each_chunk body l).
Proof. intros Hb. induction l as [|c l IH]; cbn [for_each_chunk]; files. Qed.
Lemma files_abort_free a c : keeps (has_file a) (abort_free c).
Proof. unfold abort_free. files. Qed.
#[export] Hint Resolve files_free_core files_as_einval files_abort_free : files.

Lemma files_settle a ev t b ts : keeps (has_file a) (sivfs_allocation_on_commit ev t b ts).
Proof.
  unfold sivfs_allocation_on_commit, _sivfs_allocation_on_abort, _sivfs_allocation_on_commit.
  destruct b; files; apply files_each; intros; files.
Qed.

(** Where the bytes of the chunk [k] end up: in a chunk of the same file around them. *)
Definition within (k k' : sivfs_alloc_chunk) : Prop :=
  k_ainfo k' = k_ainfo k /\ k_start k' <= k_start k /\ k_start k + k_size k <= k_start k' + k_size k'.

(** What commit and abort promise about the chunks. Those that are given up end
    up free, alone or merged into a free neighbour, or as the end of a block in
    use that lies below them and grew over them ([sivfs_coalesce_with_prev] does
    not ask whether the block before is free). Those in use stay, with at least
    their size. *)
Record settled (s s' : astate) (t : Z) (x : tstate) (aborted : bool) : Prop := {
  st_inv : alloc_inv s';
  st_thread : a_threads s' !! t = Some (with_allocated [] (with_to_free [] x));
  st_others : others_same t s s';
  st_given_up : forall c k', c ∈ (if aborted then t_allocated_chunks x else t_chunks_to_free x) ->
    a_chunks s' !! c = Some k' -> busy k' = false;
  st_bytes : forall c k, c ∈ (if aborted then t_allocated_chunks x else t_chunks_to_free x) -> a_chunks s !! c = Some k ->
    exists c' k0 k', a_chunks s !! c' = Some k0 /\ a_chunks s' !! c' = Some k' /\ grown k0 k' /\ within k k' /\
      (busy k' = false \/
       (busy k' = true /\ busy k0 = true /\ c' ∉ (if aborted then t_allocated_chunks x else t_chunks_to_free x) /\
        k_start k0 + k_size k0 <= k_start k));
  st_in_use : forall c k, c ∉ (if aborted then t_allocated_chunks x else t_chunks_to_free x) ->
    a_chunks s !! c = Some k -> busy k = true ->
    exists k', a_chunks s' !! c = Some k' /\ k_start k' = k_start k /\ k_size k <= k_size k' /\ busy k' = true /\
      (c ∈ t_chunks_to_free x -> sivfs_alloc_chunk_is_free k' = false) /\ (c ∉ t_chunks_to_free x -> chunk_sim k k')
}.

Lemma bytes_end_up s s' (G : list Z) : alloc_inv s -> alloc_inv s' -> (forall a, has_file a s -> has_file a s') ->
  (forall c k', a_chunks s' !! c = Some k' -> exists k, a_chunks s !! c = Some k /\ grown k k' /\ (c ∉ G -> busy k' = busy k)) ->
  (forall c k', c ∈ G -> a_chunks s' !! c = Some k' -> busy k' = false) ->
  forall c k, c ∈ G -> a_chunks s !! c = Some k -> busy k = true ->
  exists c' k0 k', a_chunks s !! c' = Some k0 /\ a_chunks s' !! c' = Some k' /\ grown k0 k' /\ within k k' /\
    (busy k' = false \/ (busy k' = true /\ busy k0 = true /\ c' ∉ G /\ k_start k0 + k_size k0 <= k_start k)).
Proof.
  intros Hinv Hinv' Hfile Hold Hfree c k Hc Hk Hb. set (a := k_ainfo k).
  destruct (chunk_split s c k Hinv Hk Hb) as (i & l1 & l2 & w & Hi & _ & Hlo).
  destruct (layout_chunk _ _ _ _ _ _ _ _ Hlo Hk) as [_ Hsz Hrng _]. unfold PAGE_SIZE in Hsz.
  destruct (Hfile a ltac:(by exists i)) as [i' Hi']. destruct (ai_files _ Hinv' a i' Hi') as (_ & l' & w' & Hlo').
  destruct (layout_cover _ _ _ _ _ (k_start k + k_size k - 1) Hlo' ltac:(lia)) as (c' & k' & Hk' & Ha' & Hx).
  destruct (Hold c' k' Hk') as (k0 & Hk0 & Hg & Hbusy). exists c', k0, k'. pose proof Hg as (Ea & Es & Ez & _).
  assert (Hdis : c' = c \/ ~ overlap k0 k).
  { destruct (decide (c' = c)) as [|Hne]; [by left|right]. apply (layout_disjoint _ _ _ _ _ c' c k0 k Hlo Hne Hk0 Hk); [by rewrite <- Ea|done]. }
  assert (H0 : 0 < k_size k0).
  { destruct (ai_owner _ Hinv c' k0 Hk0) as [i0 Hi0]. destruct (ai_files _ Hinv _ _ Hi0) as (_ & l & v & Hl).
    pose proof (lo_all _ _ _ _ _ Hl c' k0 Hk0 eq_refl) as Hin. destruct (lo_tiles _ _ _ _ _ Hl) as (e & _ & Ht & (kw & Hkw & _ & _ & _ & Hw & _)).
    apply elem_of_app in Hin as [Hin|Hin%list_elem_of_singleton].
    - destruct (tiles_member _ _ _ _ _ _ Ht Hin) as (kx & Hkx & _ & _ & Hz & _). unfold PAGE_SIZE in Hz. simplify_eq. lia.
    - subst. simplify_eq. rewrite Hw. by vm_compute. }
  assert (Hle : k_start k' <= k_start k).
  { destruct Hdis as [->|Hd]; [simplify_eq; lia|]. destruct (Z.le_gt_cases (k_start k') (k_start k)); [done|]. exfalso. apply Hd.
    exists (k_start k0). lia. }
  split; [done|]. split; [done|]. split; [done|]. split; [split; [done|lia]|]. destruct (busy k') eqn:Eb; [right|by left].
  assert (Hn : c' ∉ G) by (intros Hin; rewrite (Hfree c' k' Hin Hk') in Eb; done).
  split; [done|]. split; [by rewrite <- Hbusy|]. split; [done|]. destruct Hdis as [->|Hd]; [done|].
  destruct (Z.le_gt_cases (k_start k0 + k_size k0) (k_start k)); [done|]. exfalso. apply Hd. exists (k_start k). lia.
Qed.

Lemma on_commit_ok ev s t x ts : alloc_inv s -> a_threads s !! t = Some x ->
  exists s', _sivfs_allocation_on_commit ev t ts s = (Ok tt, s') /\ settled s s' t x false.
Proof.
  intros Hinv Hx. unfold _sivfs_allocation_on_commit. rewrite (bind_step _ _ _ _ _ (load_thread_ok s t x Hx)).
  destruct (unlist_loop_ok t (t_allocated_chunks x) s x Hinv Hx eq_refl) as (s1 & E1 & Hinv1 & Hc1 & Hx1 & O1).
  rewrite (bind_step _ _ _ _ _ E1), (bind_step _ _ _ _ _ (load_thread_ok s1 t _ Hx1)).
  destruct (release_loop_ok ev ts t list_del_to_free t_chunks_to_free with_to_free (fun y => t_allocated_chunks y = []))
    with (l := t_chunks_to_free x) (s := s1) (x := with_allocated [] x) as (s2 & E2 & Hinv2 & Hx2 & O2 & K2 & F2); try done.
  - intros s' y c l Hi Hy Hal El. destruct (del_to_free_ok s' t y Hi Hy c l El) as [Ed Hi'].
    pose proof (ai_free_nodup _ Hi t y Hy) as Hnd. rewrite El in Hnd. apply NoDup_cons in Hnd as [Hcl _].
    assert (Hcin : c ∈ t_chunks_to_free y) by (rewrite El; left).
    split; try done; [by destruct (ai_free _ Hi t y c Hy Hcin) as (k & ? & ? & _); exists k|].
    intros t' y'. rewrite lookup_insert. case_decide as E.
    + intros [= <-]. simpl. rewrite Hal. split; [apply not_elem_of_nil|done].
    + intros Hy'. split; intros Hin; apply E; [by apply (ai_cross _ Hi t y t' y' c)|by apply (ai_free_disj _ Hi t y t' y' c)].
  - intros y E. rewrite <- E. by destruct y.
  - assert (Etot : sivfs_allocation_on_commit ev t false ts s = (Ok tt, s2)).
    { unfold sivfs_allocation_on_commit, _sivfs_allocation_on_commit. rewrite (bind_step _ _ _ _ _ (load_thread_ok s t x Hx)).
      by rewrite (bind_step _ _ _ _ _ E1), (bind_step _ _ _ _ _ (load_thread_ok s1 t _ Hx1)). }
    exists s2. split; [done|]. split; try done.
    + intros t' Hne. by rewrite (O2 t' Hne), (O1 t' Hne).
    + intros c k' Hin Hk. destruct (F2 c k' Hk) as (k & _ & H & _). by rewrite decide_True in H.
    + intros c k Hin Hk. destruct (ai_free _ Hinv t x c Hx Hin) as (k1 & Hk1 & Hb & _). simplify_eq.
      apply (bytes_end_up s s2 (t_chunks_to_free x)) with (c := c); try done.
      * intros a Ha. change s2 with ((Ok tt : res unit, s2).2). rewrite <- Etot. by apply files_settle.
      * intros c0 k0 H0. destruct (F2 c0 k0 H0) as (k1 & H1 & H2 & Hg). rewrite Hc1 in H1. exists k1. split; [done|]. split; [done|].
        intros Hn. rewrite decide_False in H2 by done. by rewrite (chunk_sim_busy _ _ H2).
      * intros c0 k0 Hin0 H0. destruct (F2 c0 k0 H0) as (k1 & _ & H2 & _). by rewrite decide_True in H2.
    + intros c k Hn Hk Hb. rewrite <- Hc1 in Hk. destruct (K2 c k Hn Hk Hb) as (k' & Hk' & Sim). exists k'.
      pose proof Sim as (_ & _ & ? & ? & _). split_and!; try done; [by rewrite (chunk_sim_busy _ _ Sim)].
Qed.

Lemma on_abort_ok ev s t x : alloc_inv s -> a_threads s !! t = Some x ->
  exists s', _sivfs_allocation_on_abort ev t s = (Ok tt, s') /\ settled s s' t x true.
Proof.
  intros Hinv Hx. unfold _sivfs_allocation_on_abort. rewrite (bind_step _ _ _ _ _ (load_thread_ok s t x Hx)).
  destruct (abort_loop_ok t (t_chunks_to_free x) s x Hinv Hx eq_refl) as (s1 & E1 & Hinv1 & Hx1 & O1 & D1 & C1).
  rewrite (bind_step _ _ _ _ _ E1), (bind_step _ _ _ _ _ (load_thread_ok s1 t _ Hx1)).
  destruct (release_loop_ok ev SIVFS_INVALID_TS t list_del_bestfit t_allocated_chunks with_allocated (fun y => t_chunks_to_free y = []))
    with (l := t_allocated_chunks x) (s := s1) (x := with_to_free [] x) as (s2 & E2 & Hinv2 & Hx2 & O2 & K2 & F2); try done.
  - intros s' y c l Hi Hy Hfr El. destruct (del_allocated_ok s' t y Hi Hy c l El) as [Ed Hi'].
    pose proof (ai_alloc_nodup _ Hi t y Hy) as Hnd. rewrite El in Hnd. apply NoDup_cons in Hnd as [Hcl _].
    assert (Hcin : c ∈ t_allocated_chunks y) by (rewrite El; left).
    split; try done; [by apply (ai_alloc _ Hi t y c)|].
    intros t' y'. rewrite lookup_insert. case_decide as E.
    + intros [= <-]. simpl. rewrite Hfr. split; [done|apply not_elem_of_nil].
    + intros Hy'. split; intros Hin; apply E; [by apply (ai_alloc_disj _ Hi t y t' y' c)|symmetry; by apply (ai_cross _ Hi t' y' t y c)].
  - intros y E. rewrite <- E. by destruct y.
  - assert (Etot : sivfs_allocation_on_commit ev t true 0 s = (Ok tt, s2)).
    { unfold sivfs_allocation_on_commit, _sivfs_allocation_on_abort. rewrite (bind_step _ _ _ _ _ (load_thread_ok s t x Hx)).
      by rewrite (bind_step _ _ _ _ _ E1), (bind_step _ _ _ _ _ (load_thread_ok s1 t _ Hx1)). }
    exists s2. split; [done|]. split; try done.
    + intros t' Hne. by rewrite (O2 t' Hne), (O1 t' Hne).
    + intros c k' Hin Hk. destruct (F2 c k' Hk) as (k & _ & H & _). by rewrite decide_True in H.
    + intros c k Hin Hk. destruct (ai_alloc _ Hinv t x c Hx Hin) as (k1 & Hk1 & Hb). simplify_eq.
      apply (bytes_end_up s s2 (t_allocated_chunks x)) with (c := c); try done.
      * intros a Ha. change s2 with ((Ok tt : res unit, s2).2). rewrite <- Etot. by apply files_settle.
      * intros c0 k0 H0. destruct (F2 c0 k0 H0) as (k1 & H1 & H2 & Hg). destruct (D1 c0 ltac:(by exists k1)) as [k2 Hk2].
        destruct (C1 c0 k2 Hk2) as (k1' & Hk1' & Hs1 & Hz1 & Ha1 & Hd). simplify_eq. exists k2. split; [done|]. split.
        { destruct Hg as (? & ? & ? & ?). split; [congruence|]. split; [congruence|]. rewrite <- Hz1. done. }
        intros Hn. rewrite decide_False in H2 by done. rewrite (chunk_sim_busy _ _ H2). case_decide as Hd0; [|by subst].
        destruct (ai_free _ Hinv t x c0 Hx Hd0) as (k3 & Hk3 & Hb3 & _). simplify_eq. rewrite Hb3. by apply not_free_busy.
      * intros c0 k0 Hin0 H0. destruct (F2 c0 k0 H0) as (k1 & _ & H2 & _). by rewrite decide_True in H2.
    + intros c k Hn Hk Hb. destruct (C1 c k Hk) as (k1 & Hk1 & Hs1 & Hz1 & _ & Hd).
      assert (Hb1 : busy k1 = true) by (case_decide; [by apply not_free_busy|congruence]).
      destruct (K2 c k1 Hn Hk1 Hb1) as (k' & Hk' & Sim). exists k'. pose proof Sim as (Hf & _ & Hs & Hz & _). split; [done|].
      split; [congruence|]. split; [lia|]. split; [by rewrite (chunk_sim_busy _ _ Sim)|]. split; intros Hc.
      * rewrite decide_True in Hd by done. unfold sivfs_alloc_chunk_is_free in *. by rewrite Hf.
      * rewrite decide_False in Hd by done. by subst k1.
Qed.

(** ** Freeing: the tentative part *)

Lemma bounds_start ch l : forall prev b, b ∈ bounds ch prev l -> b.1 = kstart ch b.2.2 /\ b.2.2 ∈ l.
Proof.
  induction l as [|c l IH]; intros prev b; cbn [bounds]; [by intros H%not_elem_of_nil|].
  intros [->|H]%elem_of_cons; [split; [done|left]|]. destruct (IH _ _ H). split; [done|by right].
Qed.

(** A page that records a start records the start of a chunk. *)
Lemma pginfo_chunk ch a pgs l w p g : layout ch a pgs l w -> pgs !! p = Some g -> ~ blank g ->
  exists c k, pg_starts_chunk g = c /\ ch !! c = Some k /\ k_ainfo k = a /\ k_start k / PAGE_SIZE = p /\ pg_boundary_offset g = k_start k mod PAGE_SIZE.
Proof.
  intros Hlo Hg Hnb. destruct (lo_pg _ _ _ _ _ Hlo) as [H1 H2]. destruct (H2 p g Hg) as [Hin|]; [|done].
  apply list_elem_of_fmap in Hin as (b & -> & Hb). rewrite (H1 b Hb) in Hg. injection Hg as <-.
  destruct (bounds_start _ _ _ _ Hb) as [Hs Hm]. destruct (layout_exists _ _ _ _ _ _ Hlo Hm) as [k Hk].
  exists b.2.2, k. unfold kstart in Hs. rewrite Hk in Hs. rewrite <- Hs. split_and!; try done.
  destruct (lo_tiles _ _ _ _ _ Hlo) as (e & _ & Ht & (kw & Hkw & Ha & _)). apply elem_of_app in Hm as [Hm|Hm].
  - destruct (tiles_member _ _ _ _ _ _ Ht Hm) as (k' & Hk' & ? & _). congruence.
  - apply list_elem_of_singleton in Hm. rewrite Hm in Hk. congruence.
Qed.

(** The offset is not page aligned, or its page records a start. *)
Definition free_offset_ok (i : sivfs_allocator_info) (off : Z) : Prop :=
  off mod PAGE_SIZE <> 0 \/ exists g, ai_pginfo i !! (off / PAGE_SIZE) = Some g /\ pg_starts_chunk g <> 0.

(** The block at [off] is in use and not younger than the transaction's snapshot. *)
Definition freeable (s : astate) (a off : Z) (x : tstate) (c : Z) (k : sivfs_alloc_chunk) : Prop :=
  a_chunks s !! c = Some k /\ k_ainfo k = a /\ k_start k = off /\ sivfs_alloc_chunk_is_free k = false /\
  Z.land (k_last_freed_ts k) (unot SIVFS_CHUNK_ALLOC_FLAGS) <= t_ts x.

(** No other transaction has just allocated the block. *)
Definition not_anothers (s : astate) (a off t : Z) : Prop := forall c k t' y, a_chunks s !! c = Some k -> k_ainfo k = a -> k_start k = off ->
  a_threads s !! t' = Some y -> c ∈ t_allocated_chunks y -> t' = t.

Definition mark_freeing (k : sivfs_alloc_chunk) : sivfs_alloc_chunk :=
  with_last_freed (Z.lor (Z.land (k_last_freed_ts k) (unot SIVFS_CHUNK_ALLOCATED)) SIVFS_CHUNK_FREEING) k.

Lemma tentative_free_inv s a off t x c k : alloc_inv s -> a_threads s !! t = Some x -> freeable s a off x c k -> not_anothers s a off t ->
  let s1 := set_chunks (<[c := mark_freeing k]> (a_chunks s)) s in
  in_free_node c s1 = false /\ alloc_inv (set_threads (<[t := with_to_free (c :: t_chunks_to_free x) x]> (a_threads s)) s1).
Proof.
  intros Hinv Hx (Hc & Ha & Hs & Hf & _) Hna s1.
  assert (Hnf : forall t' y, a_threads s !! t' = Some y -> c ∉ t_chunks_to_free y).
  { intros t' y Hy Hin. destruct (ai_free _ Hinv t' y c Hy Hin) as (k' & ? & _ & ?). congruence. }
  destruct (freeing_flags (k_last_freed_ts k) k) as [Hb2 Hf2].
  assert (Hinv1 : alloc_inv s1) by (apply relabel_inv; try done; by apply not_free_busy).
  split.
  - eapply bool_false_iff; [apply in_free_node_spec|]. intros (t' & y & Hy & Hin). by apply (Hnf t' y).
  - destruct Hinv1 as [? ? ? Hal ? Hald Hfr Hfrn Hfrd Hcr]. split; try done; cbn [set_threads a_threads a_chunks].
    + intros t' y z. rewrite lookup_insert. case_decide as E; [|apply Hal]. intros [= <-]. by apply (Hal t x).
    + intros t' y. rewrite lookup_insert. case_decide as E; [|eauto]. intros [= <-]. simpl. by apply (ai_alloc_nodup _ Hinv t).
    + intros t1 x1 t2 x2 z. rewrite !lookup_insert. repeat case_decide; intros; simplify_eq/=; try done; by eapply Hald.
    + intros t' y z. rewrite lookup_insert. case_decide as E; [|apply Hfr]. intros [= <-]. simpl.
      intros [->|Hz]%elem_of_cons; [eexists; split; [apply lookup_insert_eq|done]|by apply (Hfr t x)].
    + intros t' y. rewrite lookup_insert. case_decide as E; [|apply Hfrn]. intros [= <-]. simpl. apply NoDup_cons.
      split; [by apply (Hnf t)|by apply (Hfrn t)].
    + intros t1 x1 t2 x2 z. rewrite !lookup_insert.
      destruct (decide (t = t1)) as [<-|], (decide (t = t2)) as [<-|]; intros H1 H2; try done; simplify_eq/=.
      * intros [->|Hz]%elem_of_cons Hz2; [by destruct (Hnf t2 x2 H2)|by apply (Hfrd t x t2 x2 z)].
      * intros Hz [->|Hz2]%elem_of_cons; [by destruct (Hnf t1 x1 H1)|by apply (Hfrd t1 x1 t x z)].
      * by apply Hfrd.
    + intros t1 x1 t2 x2 z. rewrite !lookup_insert.
      destruct (decide (t = t1)) as [<-|], (decide (t = t2)) as [<-|]; intros H1 H2; try done; simplify_eq/=.
      * intros [->|Hz]%elem_of_cons Hz2; [symmetry; by apply (Hna c k t2 x2)|by apply (Hcr t x t2 x2 z)].
      * intros Hz Hz2. by apply (Hcr t1 x1 t x z).
      * by apply Hcr.
Qed.

(** Raising the flag that aborts the transaction. *)
Lemma should_abort_ok s t x : alloc_inv s -> a_threads s !! t = Some x ->
  let s' := set_threads (<[t := with_should_abort true x]> (a_threads s)) s in set_should_abort t s = (Ok tt, s') /\ alloc_inv s'.
Proof.
  intros Hinv Hx s'. split; [unfold set_should_abort; by rewrite (bind_step _ _ _ _ _ (load_thread_ok s t x Hx))|].
  apply (insert_thread_le s t x Hinv Hx); done.
Qed.

(** The outcomes of sivfs_free_block. *)
Inductive freed (s : astate) (a off t : Z) (x : tstate) : res unit -> astate -> Prop :=
  | freed_tentatively s' c k : freeable s a off x c k -> a_chunks s' = <[c := mark_freeing k]> (a_chunks s) ->
      a_threads s' = <[t := with_to_free (c :: t_chunks_to_free x) x]> (a_threads s) -> freed s a off t x (Ok tt) s'
  | freed_must_abort s' : (forall c k, ~ freeable s a off x c k) -> a_chunks s' = a_chunks s ->
      a_threads s' = <[t := with_should_abort true x]> (a_threads s) -> freed s a off t x (Ok tt) s'
  | freed_no_memory s' : (forall c k, a_chunks s !! c = Some k -> k_ainfo k = a -> k_start k <> off) -> a_chunks s' = a_chunks s ->
      a_threads s' = a_threads s -> freed s a off t x (Err ENOMEM) s'.

(** Every chunk's start is recorded in its page. *)
Lemma chunk_pginfo s a i c k : alloc_inv s -> a_infos s !! a = Some i -> a_chunks s !! c = Some k -> k_ainfo k = a ->
  exists e, ai_pginfo i !! (k_start k / PAGE_SIZE) = Some (mk_pginfo (k_start k mod PAGE_SIZE) e c) /\ c <> 0.
Proof.
  intros Hinv Hi Hc Ha. destruct (ai_files _ Hinv a i Hi) as (_ & l & w & Hlo). pose proof (lo_all _ _ _ _ _ Hlo c k Hc Ha) as Hin.
  assert (H0 : c <> 0).
  { destruct (lo_tiles _ _ _ _ _ Hlo) as (e & _ & Ht & (kw & Hkw & _ & _ & Hw0 & _)). apply elem_of_app in Hin as [Hm|Hm].
    - by destruct (tiles_member _ _ _ _ _ _ Ht Hm) as (k' & _ & _ & ? & _).
    - by apply list_elem_of_singleton in Hm as ->. }
  apply list_elem_of_split in Hin as (L1 & L2 & E). exists (last_of 0 L1). split; [|done].
  pose proof (layout_boundary _ _ _ _ _ _ _ _ Hlo E) as H. unfold kstart in H. by rewrite Hc in H.
Qed.

Lemma free_block_ok ev s a i t x off : alloc_inv s -> a_infos s !! a = Some i -> a_threads s !! t = Some x -> 0 <= off ->
  free_offset_ok i off -> not_anothers s a off t ->
  exists r s', sivfs_free_block ev t a off s = (r, s') /\ alloc_inv s' /\ freed s a off t x r s'.
Proof.
  intros Hinv Hi Hx Hoff Hok Hna. unfold sivfs_free_block.
  destruct (get_pginfo_ok ev s a i off Hinv Hi) as (r & s1 & i1 & E1 & [Hinv1 Hc1 Ht1 [Hi1 _] _ _ Hold] & HR).
  assert (Hrec : forall c k, a_chunks s !! c = Some k -> k_ainfo k = a -> k_start k = off ->
    exists e, ai_pginfo i !! (off / PAGE_SIZE) = Some (mk_pginfo (off mod PAGE_SIZE) e c) /\ c <> 0).
  { intros c k Hk Ha <-. exact (chunk_pginfo s a i c k Hinv Hi Hk Ha). }
  destruct HR as [(-> & g & Hg & Hgo)| ->].
  2: { rewrite (bind_err _ _ _ _ _ E1). exists (Err ENOMEM), s1. split; [done|]. split; [done|]. apply freed_no_memory; try done.
    intros c k Hk Ha Hs. destruct (Hrec c k Hk Ha Hs) as (e & He & _). unfold sivfs_alloc_get_pginfo in E1.
    rewrite (bind_step _ _ _ _ _ (load_info_ok s a i Hi)), He in E1. done. }
  rewrite (bind_step _ _ _ _ _ E1), (bind_step _ _ _ _ _ (load_pginfo_ok _ _ _ Hi1 _ _ Hg)).
  assert (Hmod : 0 <= off mod PAGE_SIZE < PAGE_SIZE) by by apply Z.mod_pos_bound.
  (* what the record says about a freeable block *)
  assert (Hfor : forall c k, freeable s a off x c k -> pg_boundary_offset g = off mod PAGE_SIZE /\ pg_starts_chunk g = c).
  { intros c k (Hk & Ha & Hs & _). destruct (Hrec c k Hk Ha Hs) as (e & He & _). destruct Hgo as [Hgo|[Hgo _]]; [|congruence].
    rewrite He in Hgo. by injection Hgo as <-. }
  assert (Habort : (forall c k, ~ freeable s a off x c k) -> exists r s', set_should_abort t s1 = (r, s') /\ alloc_inv s' /\ freed s a off t x r s').
  { intros Hn. rewrite <- Ht1 in Hx. destruct (should_abort_ok s1 t x Hinv1 Hx) as [-> Hinv2]. eexists _, _. split; [reflexivity|].
    split; [done|]. apply freed_must_abort; try done. simpl. by rewrite Ht1. }
  destruct (Z.eqb_spec (pg_boundary_offset g) SIVFS_CHUNK_BOUNDARY_NULL) as [Enull|Hnull].
  { apply Habort. intros c k H. apply Hfor in H as [H _]. rewrite H in Enull. unfold PAGE_SIZE in *.
    assert (off mod 4096 = 18446744073709551615) by (rewrite Enull; reflexivity). lia. }
  destruct (Z.eqb_spec (pg_boundary_offset g) (off mod PAGE_SIZE)) as [Eb|Hb]; cbn [negb].
  2: { apply Habort. intros c k H. by apply Hfor in H as [H _]. }
  assert (Hnb : ~ blank g).
  { intros (He & Hst & Hbo). destruct Hok as [Hnz|(g' & Hg' & Hst')].
    - destruct Hbo; congruence.
    - rewrite (Hold _ _ Hg') in Hg. congruence. }
  destruct (ai_files _ Hinv1 a i1 Hi1) as (_ & l & w & Hlo). rewrite Hc1 in Hlo.
  destruct (pginfo_chunk _ _ _ _ _ _ _ Hlo Hg Hnb) as (c & k & Est & Hk & Ha & Hpg & Hbo).
  assert (Hs : k_start k = off) by (rewrite (Z.div_mod (k_start k) PAGE_SIZE), (Z.div_mod off PAGE_SIZE) by done; congruence).
  rewrite Est. assert (Hk1 : a_chunks s1 !! c = Some k) by by rewrite Hc1. rewrite (bind_step _ _ _ _ _ (load_chunk_ok _ _ _ Hk1)).
  destruct (sivfs_alloc_chunk_is_free k) eqn:Ef.
  { apply Habort. intros c' k' H. pose proof (Hfor _ _ H) as [_ Est']. destruct H as (Hk' & _ & _ & Hf' & _). congruence. }
  assert (Hx1 : a_threads s1 !! t = Some x) by by rewrite Ht1. rewrite (bind_step _ _ _ _ _ (load_thread_ok _ _ _ Hx1)).
  destruct (Z.ltb_spec (t_ts x) (Z.land (k_last_freed_ts k) (unot SIVFS_CHUNK_ALLOC_FLAGS))) as [Hlt|Hle].
  { apply Habort. intros c' k' H. pose proof (Hfor _ _ H) as [_ Est']. destruct H as (Hk' & _ & _ & _ & Hle').
    assert (k' = k) as -> by congruence. lia. }
  assert (Hfr : freeable s1 a off x c k) by (split_and!; done).
  destruct (tentative_free_inv s1 a off t x c k Hinv1 Hx1 Hfr) as [Hnode Hinv2].
  { intros c' k' t' y. rewrite Hc1, Ht1. apply Hna. }
  fold (mark_freeing k). set (s2 := set_chunks (<[c := mark_freeing k]> (a_chunks s1)) s1) in *.
  rewrite (bind_step (store_chunk _ _) _ s1 tt s2 eq_refl). unfold list_add_to_free. rewrite Hnode.
  assert (Hx2 : a_threads s2 !! t = Some x) by done. rewrite (bind_step _ _ _ _ _ (load_thread_ok _ _ _ Hx2)).
  eexists _, _. split; [reflexivity|]. split; [exact Hinv2|]. apply (freed_tentatively _ _ _ _ _ _ c k).
  - unfold freeable in *. by rewrite <- Hc1.
  - simpl. by rewrite Hc1.
  - simpl. by rewrite Ht1.
Qed.

(** ** Allocating *)

Lemma first_fit_ok s req ts : forall l w0, (forall c, c ∈ l -> is_Some (a_chunks s !! c)) ->
  exists f w, first_fit l req ts w0 s = (Ok (f, w), s) /\
    match f with
    | Some c => c ∈ l /\ exists k, a_chunks s !! c = Some k /\ req <= k_size k /\ k_size k <> SIZE_MINUS_ONE /\
        sivfs_alloc_chunk_is_free_visible k ts = true
    | None => (exists c k, c ∈ l /\ a_chunks s !! c = Some k /\ k_size k = SIZE_MINUS_ONE /\ req <= SIZE_MINUS_ONE) \/ w <> w0 ->
        w ∈ l /\ exists k, a_chunks s !! w = Some k /\ k_size k = SIZE_MINUS_ONE
    end.
Proof.
  induction l as [|c l IH]; intros w0 Hl; cbn [first_fit].
  { exists None, w0. split; [done|]. intros [(c & _ & H & _)|?]; [by apply not_elem_of_nil in H|done]. }
  destruct (Hl c) as [k Hk]; [left|]. rewrite (bind_step _ _ _ _ _ (load_chunk_ok _ _ _ Hk)).
  assert (Hl' : forall c', c' ∈ l -> is_Some (a_chunks s !! c')) by (intros c' Hc'; apply Hl; by right).
  (* the walk goes on over [l] with the wilderness [w1] *)
  assert (Hgo : forall w1, (k_size k = SIZE_MINUS_ONE /\ req <= SIZE_MINUS_ONE -> w1 = c) -> (w1 = w0 \/ w1 = c /\ k_size k = SIZE_MINUS_ONE) ->
    exists f w, first_fit l req ts w1 s = (Ok (f, w), s) /\
    match f with
    | Some c0 => c0 ∈ c :: l /\ exists k0, a_chunks s !! c0 = Some k0 /\ req <= k_size k0 /\ k_size k0 <> SIZE_MINUS_ONE /\
        sivfs_alloc_chunk_is_free_visible k0 ts = true
    | None => (exists c0 k0, c0 ∈ c :: l /\ a_chunks s !! c0 = Some k0 /\ k_size k0 = SIZE_MINUS_ONE /\ req <= SIZE_MINUS_ONE) \/ w <> w0 ->
        w ∈ c :: l /\ exists k0, a_chunks s !! w = Some k0 /\ k_size k0 = SIZE_MINUS_ONE
    end).
  { intros w1 Hw1 Hw1'. destruct (IH w1 Hl') as (f & w & E & HR). exists f, w. split; [done|].
    destruct f as [c0|]; [destruct HR as [? HR]; split; [by right|done]|]. intros H.
    destruct (decide (w = w1)) as [->|Hne].
    2: { destruct HR as [? HR]; [by right|]. split; [by right|done]. }
    destruct (decide (w1 = c /\ k_size k = SIZE_MINUS_ONE)) as [[-> ?]|Hn]; [split; [left|by exists k]|].
    destruct Hw1' as [->|?]; [|done]. destruct H as [(c0 & k0 & [->|Hin]%elem_of_cons & Hk0 & Hz & Hr)|?]; [| |done].
    - assert (k0 = k) as -> by congruence. destruct Hn. split; [by apply Hw1|done].
    - destruct HR as [? HR]; [left; by exists c0, k0|]. split; [by right|done]. }
  destruct (Z.ltb_spec (k_size k) req); [apply Hgo; [lia|by left]|].
  destruct (Z.eqb_spec (k_size k) SIZE_MINUS_ONE); [apply Hgo; [done|by right]|].
  destruct (sivfs_alloc_chunk_is_free_visible k ts) eqn:Ev; cbn [negb]; [|apply Hgo; [naive_solver|by left]].
  exists (Some c), w0. split; [done|]. split; [left|by exists k].
Qed.

(** The state after a split of [c] that put [r] on the free list. *)
Definition split_state (s : astate) (a : Z) (i : sivfs_allocator_info) (c r n size_r : Z) (k : sivfs_alloc_chunk)
    (pgs : gmap Z sivfs_allocator_pginfo) : astate :=
  mk_astate (<[a := mk_ainfo (r :: ai_bestfit i) pgs]> (a_infos s)) (split_map (a_chunks s) a c r n k size_r) (a_threads s).

Lemma split_state_inv s a i c r n size_r k pgs l w : alloc_inv s -> a_infos s !! a = Some i -> a_chunks s !! c = Some k ->
  k_ainfo k = a -> busy k = false -> a_chunks s !! r = None ->
  layout (split_map (a_chunks s) a c r n k size_r) a pgs l w -> alloc_inv (split_state s a i c r n size_r k pgs).
Proof.
  intros Hinv Hi Hk Ha Hb Hr Hlo. assert (Hcr : c <> r) by congruence.
  assert (Hold : forall x kx, busy kx = true -> a_chunks s !! x = Some kx -> split_map (a_chunks s) a c r n k size_r !! x = Some kx).
  { intros x kx Hbx Hx. rewrite split_others; [done|congruence..]. }
  destruct Hinv as [Hf Ho Hbest Hal ? ? Hfr ? ? ?]. split; try done; cbn [split_state a_infos a_chunks a_threads].
  - intros a' j. rewrite lookup_insert. case_decide as E.
    + intros [= <-]. subst a'. split; [by destruct (Hf a i Hi)|by exists l, w].
    + intros Hj. destruct (Hf a' j Hj) as (? & l' & w' & Hl). split; [done|]. exists l', w'. eapply layout_frame; [|exact Hl].
      intros x kx Hx. unfold split_map. rewrite !lookup_insert. repeat case_decide; subst; try done.
      * split; [congruence|intros [= <-]; done].
      * split; [congruence|intros [= <-]; done].
  - intros x kx. unfold split_map. rewrite !lookup_insert. intros Hx. destruct (decide (a = k_ainfo kx)); [by eexists|].
    destruct (decide (r = x)); [injection Hx as <-; done|]. destruct (decide (c = x)); [injection Hx as <-; simpl in *; congruence|]. exact (Ho x kx Hx).
  - intros a' j x. rewrite lookup_insert. case_decide as E.
    + intros [= <-]. subst a'. simpl. rewrite elem_of_cons, (Hbest _ _ x Hi). unfold split_map. rewrite !lookup_insert. split.
      * intros [->|(kx & Hx & ? & ?)]; [rewrite decide_True by done; eexists; split; [done|]; split; [done|exact Hb]|].
        rewrite decide_False by congruence. case_decide; [|by exists kx]. eexists. split; [done|]. split; [done|exact Hb].
      * intros (kx & Hx & ? & ?). case_decide; [by left|right]. case_decide; [subst x; by exists k|by exists kx].
    + intros Hj. rewrite (Hbest _ _ x Hj). unfold split_map. rewrite !lookup_insert. split; intros (kx & Hx & Hax & ?).
      * rewrite !decide_False by congruence. by exists kx.
      * case_decide; [injection Hx as <-; done|]. case_decide; [injection Hx as <-; simpl in *; congruence|by exists kx].
  - intros t x y Hx Hy. destruct (Hal t x y Hx Hy) as (ky & ? & ?). exists ky. split; [by apply Hold|done].
  - intros t x y Hx Hy. destruct (Hfr t x y Hx Hy) as (ky & ? & ? & ?). exists ky. split; [by apply Hold|done].
Qed.

(** A free chunk goes to the transaction's list. *)
Definition mark_allocated (k : sivfs_alloc_chunk) : sivfs_alloc_chunk :=
  with_last_freed (Z.lor (k_last_freed_ts k) SIVFS_CHUNK_ALLOCATED) k.
Definition taken (s : astate) (t c : Z) (x : tstate) (k : sivfs_alloc_chunk) : astate :=
  mk_astate (drop_best c (a_infos s)) (<[c := mark_allocated k]> (a_chunks s)) (<[t := with_allocated (c :: t_allocated_chunks x) x]> (a_threads s)).

Lemma taken_inv s t c x k i l w : alloc_inv s -> a_threads s !! t = Some x -> a_chunks s !! c = Some k -> busy k = false ->
  a_infos s !! k_ainfo k = Some i -> layout (a_chunks s) (k_ainfo k) (ai_pginfo i) l w -> c ∈ l -> alloc_inv (taken s t c x k).
Proof.
  intros Hinv Hx Hk Hb Hi Hlo Hcl. assert (Hbusy : busy (mark_allocated k) = true) by apply busy_set_allocated.
  assert (Hun : forall t' y, a_threads s !! t' = Some y -> c ∉ t_allocated_chunks y /\ c ∉ t_chunks_to_free y).
  { intros t' y Hy. split; intros Hin; [destruct (ai_alloc _ Hinv t' y c Hy Hin) as (k' & ? & ?)|destruct (ai_free _ Hinv t' y c Hy Hin) as (k' & ? & ? & _)]; congruence. }
  destruct Hinv as [Hf Ho Hbest Hal Haln Hald Hfr Hfrn Hfrd Hcr]. split; cbn [taken a_infos a_chunks a_threads].
  - intros a j. unfold drop_best. rewrite lookup_fmap_Some. intros (j0 & <- & Hj). split; [by destruct (Hf a j0 Hj)|].
    destruct (decide (a = k_ainfo k)) as [->|Hne].
    + rewrite Hi in Hj. injection Hj as <-. exists l, w. by apply layout_flags.
    + destruct (Hf a j0 Hj) as (_ & l' & w' & Hl). exists l', w'. eapply layout_frame; [|exact Hl].
      intros y ky Hy. rewrite lookup_insert. case_decide as E'; [subst y|done].
      split; [intros H'; congruence|intros [= <-]; simpl in Hy; congruence].
  - intros y ky Hy. unfold drop_best. rewrite lookup_fmap, fmap_is_Some. rewrite lookup_insert in Hy.
    case_decide; [injection Hy as <-; by eexists|exact (Ho y ky Hy)].
  - intros a j y. unfold drop_best. rewrite lookup_fmap_Some. intros (j0 & <- & Hj). simpl. rewrite elem_of_without, (Hbest _ _ y Hj). split.
    + intros [(ky & Hy & ? & ?) Hyc]. exists ky. by rewrite lookup_insert_ne.
    + intros (ky & Hy & ? & ?). rewrite lookup_insert in Hy. case_decide; [injection Hy as <-; congruence|]. split; [by exists ky|done].
  - intros t' y z. rewrite lookup_insert. case_decide as E.
    + intros [= <-]. simpl. intros [->|Hz]%elem_of_cons; [eexists; split; [apply lookup_insert_eq|done]|].
      destruct (Hal t x z Hx Hz) as (kz & ? & ?). rewrite lookup_insert. case_decide; [by eexists|by exists kz].
    + intros Hy Hz. destruct (Hal t' y z Hy Hz) as (kz & ? & ?). rewrite lookup_insert. case_decide; [by eexists|by exists kz].
  - intros t' y. rewrite lookup_insert. case_decide as E; [|apply Haln]. intros [= <-]. simpl. apply NoDup_cons.
    split; [by apply (Hun t)|by apply (Haln t)].
  - intros t1 x1 t2 x2 z. rewrite !lookup_insert.
    destruct (decide (t = t1)) as [<-|], (decide (t = t2)) as [<-|]; intros H1 H2; try done; simplify_eq/=.
    + intros [->|Hz]%elem_of_cons Hz2; [by destruct (Hun t2 x2 H2)|by apply (Hald t x t2 x2 z)].
    + intros Hz [->|Hz2]%elem_of_cons; [by destruct (Hun t1 x1 H1)|by apply (Hald t1 x1 t x z)].
    + by apply Hald.
  - intros t' y z Hy Hz. assert (Hyo : exists y0, a_threads s !! t' = Some y0 /\ t_chunks_to_free y0 = t_chunks_to_free y).
    { rewrite lookup_insert in Hy. case_decide as E; [injection Hy as <-; subst t'; by exists x|by exists y]. }
    destruct Hyo as (y0 & Hy0 & Ey). rewrite <- Ey in Hz. destruct (Hfr t' y0 z Hy0 Hz) as (kz & ? & ? & ?). exists kz.
    rewrite lookup_insert_ne; [done|]. intros <-. by destruct (Hun t' y0 Hy0).
  - intros t' y. rewrite lookup_insert. case_decide as E; [|apply Hfrn]. intros [= <-]. simpl. by apply (Hfrn t x).
  - intros t1 x1 t2 x2 z. rewrite !lookup_insert.
    destruct (decide (t = t1)) as [<-|], (decide (t = t2)) as [<-|]; intros H1 H2; try done; simplify_eq/=;
      [intros; by apply (Hfrd t x t2 x2 z)|intros; by apply (Hfrd t1 x1 t x z)|by apply Hfrd].
  - intros t1 x1 t2 x2 z. rewrite !lookup_insert.
    destruct (decide (t = t1)) as [<-|], (decide (t = t2)) as [<-|]; intros H1 H2; try done; simplify_eq/=.
    + intros Hz Hz2. by apply (Hcr t x t2 x2 z).
    + intros Hz [->|Hz2]%elem_of_cons; [by destruct (Hun t1 x1 H1)|by apply (Hcr t1 x1 t x z)].
    + by apply Hcr.
Qed.

Lemma settle_ok ev s t x aborted ts : alloc_inv s -> a_threads s !! t = Some x ->
  exists s', sivfs_allocation_on_commit ev t aborted ts s = (Ok tt, s') /\ settled s s' t x aborted.
Proof. intros. destruct aborted; [by apply on_abort_ok|by apply on_commit_ok]. Qed.

(** ** What freeing, committing and aborting do *)

(** C24. sivfs_allocation_on_commit never fails, although coalescing asks for
    pginfos. It gives up, on a commit, the chunks the transaction freed, and on
    an abort those it allocated. A chunk given up is free if it is still there,
    and its bytes end up in a free chunk, itself or one it was merged with, or
    else at the end of a block in use that lies below it and grew over it,
    because sivfs_coalesce_with_prev does not ask whether the block before is
    free. Every other chunk in use stays in use where it is, aborted frees are in
    use again, and the invariant is kept. *)
Theorem allocation_settles ev s t x aborted ts : alloc_inv s -> a_threads s !! t = Some x ->
  exists s', sivfs_allocation_on_commit ev t aborted ts s = (Ok tt, s') /\ settled s s' t x aborted.
Proof. apply settle_ok. Qed.

(** C31. sivfs_free_block marks the block at the offset for freeing exactly when
    it is in use and its timestamp is not after the transaction's snapshot;
    otherwise the transaction is made to abort; it reports ENOMEM only when no
    chunk starts there. *)
Theorem free_block_outcome ev s a i t x off : alloc_inv s -> a_infos s !! a = Some i -> a_threads s !! t = Some x -> 0 <= off ->
  free_offset_ok i off -> not_anothers s a off t ->
  exists r s', sivfs_free_block ev t a off s = (r, s') /\ alloc_inv s' /\ freed s a off t x r s'.
Proof. apply free_block_ok. Qed.
