(* ===== verification/AllocBlock.v ===== *)
(** sivfs_alloc_block and what a file's allocator promises: the outcome of
    allocating, freeing, committing and aborting, for states in which chunks
    tile every file ([alloc_inv]). *)
From S2P Require Import Prelude Types Alloc AllocLayout AllocInv.

(** Some allocation of kernel memory fails. *)
Definition starved (ev : alloc_env) : Prop :=
  (exists p, av_pginfo ev p = false) \/ (exists p, av_node ev p = false) \/ av_chunk ev = None.

Lemma get_pginfo_starved ev s a i off e s' : a_infos s !! a = Some i ->
  sivfs_alloc_get_pginfo ev a off s = (Err e, s') -> starved ev.
Proof.
  intros Hi. unfold sivfs_alloc_get_pginfo. rewrite (bind_step _ _ _ _ _ (load_info_ok s a i Hi)).
  destruct (ai_pginfo i !! _); [done|]. destruct (av_pginfo ev _) eqn:E1; [|intros _; left; by eexists].
  destruct (av_node ev _) eqn:E2; [done|]. intros _. right. left. by eexists.
Qed.

(** ** Splitting *)

(** The address of a new chunk names no chunk yet. *)
Definition fresh_chunk (ev : alloc_env) (s : astate) : Prop :=
  forall r, av_chunk ev = Some r -> r <> 0 /\ a_chunks s !! r = None.

Lemma fresh_not_in_node s r : alloc_inv s -> a_chunks s !! r = None -> in_bestfit_node r s = false.
Proof.
  intros Hinv Hr. eapply bool_false_iff; [apply in_bestfit_node_spec|].
  intros [(a & i & Hi & Hin)|(t & x & Hx & Hin)].
  - apply (ai_best _ Hinv _ _ _ Hi) in Hin as (k & ? & _). congruence.
  - destruct (ai_alloc _ Hinv t x r Hx Hin) as (k & ? & _). congruence.
Qed.

(** The last step of a split: the new chunk goes on the free list. *)
Lemma split_add s s' a i i' r : in_bestfit_node r s = false -> a_infos s !! a = Some i ->
  a_infos s' = <[a := i']> (a_infos s) -> ai_bestfit i' = ai_bestfit i -> a_threads s' = a_threads s ->
  list_add_bestfit r a s' = (Ok tt, set_infos (<[a := with_bestfit (r :: ai_bestfit i) i']> (a_infos s)) s').
Proof.
  intros Hn Hi Hi' Hb Ht. unfold list_add_bestfit.
  assert (Hn' : in_bestfit_node r s' = false).
  { eapply bool_false_iff; [apply in_bestfit_node_spec|]. apply not_true_iff_false in Hn.
    intros [(a' & j & Hj & Hin)|(t & x & Hx & Hin)]; apply Hn, in_bestfit_node_spec.
    - left. rewrite Hi', lookup_insert in Hj. case_decide as E; [|by exists a', j]. injection Hj as <-. subst a'. exists a, i. by rewrite <- Hb.
    - right. rewrite Ht in Hx. by exists t, x. }
  rewrite Hn'. assert (Hi1 : a_infos s' !! a = Some i') by (rewrite Hi'; apply lookup_insert_eq).
  rewrite (bind_step _ _ _ _ _ (load_info_ok _ _ _ Hi1)), Hb. unfold store_info, modify. by rewrite Hi', insert_insert_eq.
Qed.


(** The outcomes of a split of [c], [n] bytes from its start. *)
Definition split_result (ev : alloc_env) (s : astate) (a c n : Z) (k : sivfs_alloc_chunk) (r : res unit) (s' : astate) : Prop :=
  alloc_inv s' /\ a_threads s' = a_threads s /\
  ((r = Ok tt /\ exists d, av_chunk ev = Some d /\
      a_chunks s' = split_map (a_chunks s) a c d n k (if k_size k =? SIZE_MINUS_ONE then SIZE_MINUS_ONE else k_size k - n)) \/
   (r = Err ENOMEM /\ a_chunks s' = a_chunks s /\ starved ev)).

(** Offsets more than a page apart lie in different pages. *)
Lemma page_far x y : x + PAGE_SIZE <= y -> x / PAGE_SIZE <> y / PAGE_SIZE.
Proof.
  unfold PAGE_SIZE. intros H E. assert (x / 4096 + 1 <= y / 4096); [|lia].
  apply Z.div_le_lower_bound; [lia|]. pose proof (Z.mul_div_le x 4096). lia.
Qed.

Lemma new_chunk_ok s d a : sivfs_new_alloc_chunk (Some d) a s = (Ok d, set_chunks (<[d := mk_chunk 0 0 0 a]> (a_chunks s)) s).
Proof. done. Qed.

Lemma split_state_eq s s' a i c r n size_r k pgs : c <> r ->
  a_infos s' = <[a := mk_ainfo (r :: ai_bestfit i) pgs]> (a_infos s) ->
  a_chunks s' = <[r := mk_chunk (k_last_freed_ts k) (k_start k + n) size_r a]> (<[c := with_size n k]> (<[r := mk_chunk 0 0 0 a]> (a_chunks s))) ->
  a_threads s' = a_threads s -> s' = split_state s a i c r n size_r k pgs.
Proof.
  intros Hne Hi Hc Ht. unfold split_state, split_map. destruct s'; simpl in *. f_equal; [done| |done].
  by rewrite Hc, (insert_insert_ne _ c r), insert_insert_eq.
Qed.

Lemma split_mid_ok ev s a i l1 c l2 w k n : alloc_inv s -> a_infos s !! a = Some i -> layout (a_chunks s) a (ai_pginfo i) (l1 ++ c :: l2) w ->
  a_chunks s !! c = Some k -> busy k = false -> PAGE_SIZE <= n -> n + PAGE_SIZE < k_size k -> fresh_chunk ev s ->
  exists r s', split_chunk ev a c n s = (r, s') /\ split_result ev s a c n k r s'.
Proof.
  intros Hinv Hi Hlo Hk Hb Hn Hz Hfr. destruct (layout_chunk _ _ _ _ _ _ _ _ Hlo Hk) as [[Ha Hc0] _ [Hs0 Hlim] _].
  unfold split_chunk. rewrite (bind_step _ _ _ _ _ (load_chunk_ok _ _ _ Hk)). cbv zeta.
  assert (Hsm : is_u64 (k_start k + n) /\ is_u64 (k_start k + k_size k) /\ is_u64 (k_size k - n)).
  { unfold PAGE_SIZE in *. split_and!; apply file_small; lia. }
  destruct Hsm as (Hsm1 & Hsm2 & Hsm3). rewrite !uadd_small by done.
  destruct (Z.eqb_spec (k_size k) SIZE_MINUS_ONE) as [E|_]; [exfalso; pose proof limit_small; lia|].
  cbn [negb]. destruct (get_pginfo_ok ev s a i (k_start k + n) Hinv Hi) as (r & s1 & i1 & E1 & [Hinv1 Hc1 Ht1 [Hi1 Hbf] _ Hlay _] & HR).
  destruct HR as [(-> & g & Hg & _)| ->].
  2: { rewrite (bind_err _ _ _ _ _ E1). exists (Err ENOMEM), s1. split; [done|]. split; [done|]. split; [done|]. right.
    split_and!; try done. exact (get_pginfo_starved _ _ _ _ _ _ _ Hi E1). }
  rewrite (bind_step _ _ _ _ _ E1). apply Hlay in Hlo. rewrite usub_small by done.
  assert (Hout : av_chunk ev = None -> exists r s', ((Err ENOMEM : res unit), s1) = (r, s') /\ split_result ev s a c n k r s').
  { intros En. exists (Err ENOMEM), s1. split; [done|]. split; [done|]. split; [done|]. right. split_and!; try done. right. by right. }
  rewrite <- Hc1 in Hk, Hlo. unfold fresh_chunk in Hfr. rewrite <- Hc1 in Hfr.
  assert (Hend : exists h, ai_pginfo i1 !! ((k_start k + k_size k) / PAGE_SIZE) = Some (mk_pginfo ((k_start k + k_size k) mod PAGE_SIZE) c h)).
  { destruct (next_pginfo _ _ _ _ _ _ _ _ Hlo Hk) as (h & t & kh & _ & _ & _ & _ & Hpg). by exists h. }
  destruct Hend as [h0 Hend]. rewrite (bind_step _ _ _ _ _ (get_pginfo_hit _ _ _ Hi1 ev _ _ Hend)).
  destruct (av_chunk ev) as [d|] eqn:Ed; [|exact (Hout eq_refl)]. destruct (Hfr d eq_refl) as [Hd0 Hd].
  destruct (split_mid _ _ _ _ _ _ _ _ d n Hlo Hk Hd Hd0 Hn Hz) as (h & Hend' & Hlo').
  assert (h = h0) as -> by congruence.
  rewrite (bind_step _ _ _ _ _ (new_chunk_ok s1 d a)). set (s2 := set_chunks _ s1).
  rewrite (bind_step (store_chunk c _) _ s2 tt _ eq_refl). set (s3 := set_chunks _ s2).
  rewrite (bind_step (store_chunk d _) _ s3 tt _ eq_refl). set (s4 := set_chunks _ s3).
  assert (Hi4 : a_infos s4 !! a = Some i1) by done. rewrite (bind_step _ _ _ _ _ (store_pginfo_ok _ _ _ Hi4 _ _)).
  set (s5 := set_infos _ s4). rewrite bind_assoc.
  assert (Hi5 : a_infos s5 !! a = Some (with_pginfo (<[(k_start k + n) / PAGE_SIZE := mk_pginfo ((k_start k + n) mod PAGE_SIZE) c d]> (ai_pginfo i1)) i1))
    by apply lookup_insert_eq.
  rewrite (bind_step _ _ _ _ _ (load_pginfo_ok _ _ _ Hi5 ((k_start k + k_size k) / PAGE_SIZE) (mk_pginfo ((k_start k + k_size k) mod PAGE_SIZE) c h0) ltac:(cbn [with_pginfo ai_pginfo]; rewrite lookup_insert_ne; [done|]; apply page_far; lia))).
  rewrite (bind_step _ _ _ _ _ (store_pginfo_ok _ _ _ Hi5 _ _)). cbn [pg_boundary_offset pg_starts_chunk].
  set (s6 := set_infos _ s5).
  set (i6 := with_pginfo (<[(k_start k + k_size k) / PAGE_SIZE := mk_pginfo ((k_start k + k_size k) mod PAGE_SIZE) d h0]>
    (<[(k_start k + n) / PAGE_SIZE := mk_pginfo ((k_start k + n) mod PAGE_SIZE) c d]> (ai_pginfo i1))) i1).
  rewrite (split_add s1 s6 a i1 i6 d (fresh_not_in_node s1 d Hinv1 Hd) Hi1); [|by unfold s6, s5, s4, s3, s2; simpl; rewrite insert_insert_eq|done..].
  eexists _, _. split; [reflexivity|].
  match goal with |- split_result _ _ _ _ _ _ _ ?S => rewrite (split_state_eq s1 S a i1 c d n (k_size k - n) k (ai_pginfo i6)); [|congruence|reflexivity|reflexivity|reflexivity] end.
  split; [by apply (split_state_inv s1 a i1 c d n (k_size k - n) k _ (l1 ++ c :: d :: l2) w)|]. split; [exact Ht1|]. left. split; [done|].
  exists d. split; [done|]. simpl. rewrite <- Hc1. destruct (Z.eqb_spec (k_size k) SIZE_MINUS_ONE); [pose proof limit_small; lia|done].
Qed.

Lemma split_wild_ok ev s a i l c k n : alloc_inv s -> a_infos s !! a = Some i -> layout (a_chunks s) a (ai_pginfo i) l c ->
  a_chunks s !! c = Some k -> busy k = false -> PAGE_SIZE <= n -> k_start k + n < FILE_LIMIT -> fresh_chunk ev s ->
  exists r s', split_chunk ev a c n s = (r, s') /\ split_result ev s a c n k r s'.
Proof.
  intros Hinv Hi Hlo Hk Hb Hn Hlim Hfr. destruct (lo_tiles _ _ _ _ _ Hlo) as (e & _ & Ht & (k' & Hk' & Ha & Hs & Hc0 & Hz & _)).
  rewrite Hk in Hk'. injection Hk' as <-. apply tiles_le in Ht.
  unfold split_chunk. rewrite (bind_step _ _ _ _ _ (load_chunk_ok _ _ _ Hk)). cbv zeta.
  rewrite uadd_small by (apply file_small; unfold PAGE_SIZE in Hn; lia). rewrite (proj2 (Z.eqb_eq _ _) Hz). cbn [negb].
  destruct (get_pginfo_ok ev s a i (k_start k + n) Hinv Hi) as (r & s1 & i1 & E1 & [Hinv1 Hc1 Ht1 [Hi1 Hbf] _ Hlay _] & HR).
  destruct HR as [(-> & g & Hg & _)| ->].
  2: { rewrite (bind_err _ _ _ _ _ E1). exists (Err ENOMEM), s1. split; [done|]. split; [done|]. split; [done|]. right.
    split_and!; try done. exact (get_pginfo_starved _ _ _ _ _ _ _ Hi E1). }
  rewrite (bind_step _ _ _ _ _ E1). apply Hlay in Hlo.
  rewrite (bind_step (ret 0) _ s1 0 s1 eq_refl). unfold fresh_chunk in Hfr. rewrite <- Hc1 in Hk, Hlo, Hfr.
  destruct (av_chunk ev) as [d|] eqn:Ed.
  2: { exists (Err ENOMEM), s1. split; [done|]. split; [done|]. split; [done|]. right. split_and!; try done. right. by right. }
  destruct (Hfr d eq_refl) as [Hd0 Hd]. pose proof (split_wild _ _ _ _ _ _ d n Hlo Hk Hd Hd0 Hn Hlim) as Hlo'.
  rewrite (bind_step _ _ _ _ _ (new_chunk_ok s1 d a)). set (s2 := set_chunks _ s1).
  rewrite (bind_step (store_chunk c _) _ s2 tt _ eq_refl). set (s3 := set_chunks _ s2).
  rewrite (bind_step (store_chunk d _) _ s3 tt _ eq_refl). set (s4 := set_chunks _ s3).
  assert (Hi4 : a_infos s4 !! a = Some i1) by done. rewrite (bind_step _ _ _ _ _ (store_pginfo_ok _ _ _ Hi4 _ _)).
  set (i5 := with_pginfo _ i1). set (s5 := set_infos _ s4). rewrite (bind_step (ret tt) _ s5 tt s5 eq_refl).
  rewrite (split_add s1 s5 a i1 i5 d (fresh_not_in_node s1 d Hinv1 Hd) Hi1) by done.
  eexists _, _. split; [reflexivity|].
  match goal with |- split_result _ _ _ _ _ _ _ ?S => rewrite (split_state_eq s1 S a i1 c d n SIZE_MINUS_ONE k (ai_pginfo i5));
    [|congruence|reflexivity|by simpl; rewrite Hz|reflexivity] end.
  split; [by apply (split_state_inv s1 a i1 c d n SIZE_MINUS_ONE k _ (l ++ [c]) d)|]. split; [exact Ht1|]. left. split; [done|].
  exists d. split; [done|]. simpl. rewrite <- Hc1. destruct (Z.eqb_spec (k_size k) SIZE_MINUS_ONE); done.
Qed.

(** ** Taking a chunk *)

Lemma take_chunk_ok s t c x k : alloc_inv s -> a_threads s !! t = Some x -> a_chunks s !! c = Some k -> busy k = false -> k_size k <> SIZE_MINUS_ONE ->
  (do! list_del_bestfit c in do! list_add_allocated c t in
   let! k := load_chunk c in
   do! store_chunk c (with_last_freed (Z.lor (k_last_freed_ts k) SIVFS_CHUNK_ALLOCATED) k) in
   ret (k_start k, k_size k)) s = (Ok (k_start k, k_size k), taken s t c x k) /\ alloc_inv (taken s t c x k).
Proof.
  intros Hinv Hx Hk Hb Hz. split.
  - rewrite (bind_step _ _ _ _ _ (del_free_ok s c k Hinv Hk Hb)). set (s1 := mk_astate _ _ _).
    assert (Hn : in_bestfit_node c s1 = false).
    { eapply bool_false_iff; [apply in_bestfit_node_spec|]. intros [(a & i & Hi & Hin)|(t' & y & Hy & Hin)].
      - unfold s1, drop_best in Hi. simpl in Hi. apply lookup_fmap_Some in Hi as (i0 & <- & _). simpl in Hin. by apply elem_of_without in Hin as [_ ?].
      - destruct (ai_alloc _ Hinv t' y c Hy Hin) as (k' & ? & ?). congruence. }
    unfold list_add_allocated at 1. unfold bind at 1. rewrite Hn.
    assert (Hx1 : a_threads s1 !! t = Some x) by done. rewrite (bind_step _ _ _ _ _ (load_thread_ok _ _ _ Hx1)).
    unfold store_thread, modify. assert (Hk1 : a_chunks (set_threads (<[t := with_allocated (c :: t_allocated_chunks x) x]> (a_threads s1)) s1) !! c = Some k) by done.
    by rewrite (bind_step _ _ _ _ _ (load_chunk_ok _ _ _ Hk1)).
  - destruct (ai_owner _ Hinv c k Hk) as [i Hi]. destruct (ai_files _ Hinv _ i Hi) as (_ & l & w & Hlo).
    apply (taken_inv s t c x k i l w Hinv Hx Hk Hb Hi Hlo).
    pose proof (lo_all _ _ _ _ _ Hlo c k Hk eq_refl) as Hin. apply elem_of_app in Hin as [Hin|Hin]; [done|].
    apply list_elem_of_singleton in Hin as ->. destruct (lo_tiles _ _ _ _ _ Hlo) as (e & _ & _ & (kw & Hkw & _ & _ & _ & Hw & _)). congruence.
Qed.

(** ** sivfs_alloc_block *)

(** The end of the file lies below the bound after the block is added to it. *)
Definition room (s : astate) (a n : Z) : Prop := forall w k, a_chunks s !! w = Some k -> k_ainfo k = a ->
  k_size k = SIZE_MINUS_ONE -> k_start k + n < FILE_LIMIT.

(** A free chunk that the transaction can see and that can hold the block. *)
Definition fits (s : astate) (a ts n c : Z) (k : sivfs_alloc_chunk) : Prop :=
  a_chunks s !! c = Some k /\ k_ainfo k = a /\ busy k = false /\ k_size k <> SIZE_MINUS_ONE /\ n <= k_size k /\
  sivfs_alloc_chunk_is_free_visible k ts = true.

(** The rest of the chunk after the block, a free chunk of its own. *)
Definition rest_of (k k' : sivfs_alloc_chunk) (n : Z) : Prop :=
  k_ainfo k' = k_ainfo k /\ k_last_freed_ts k' = k_last_freed_ts k /\ k_start k' = k_start k + n /\
  k_size k' = (if k_size k =? SIZE_MINUS_ONE then SIZE_MINUS_ONE else k_size k - n).

(** The outcomes of sivfs_alloc_block for [n] bytes of file [a]. *)
Inductive allocated (ev : alloc_env) (s : astate) (a t n : Z) (x : tstate) : res (Z * Z) -> astate -> Prop :=
  | allocated_block s' c k n' :
      fits s a (t_ts x) n c k \/
        (a_chunks s !! c = Some k /\ k_ainfo k = a /\ k_size k = SIZE_MINUS_ONE /\ busy k = false /\ forall c' k', ~ fits s a (t_ts x) n c' k') ->
      n <= n' <= n + PAGE_SIZE -> n' = n \/ n' = k_size k ->
      a_chunks s' !! c = Some (mark_allocated (with_size n' k)) ->
      (forall c' k', c' <> c -> a_chunks s !! c' = Some k' -> a_chunks s' !! c' = Some k') ->
      (forall c' k', c' <> c -> a_chunks s' !! c' = Some k' -> a_chunks s !! c' = Some k' \/ (n' = n /\ rest_of k k' n)) ->
      a_threads s' = <[t := with_allocated (c :: t_allocated_chunks x) x]> (a_threads s) ->
      allocated ev s a t n x (Ok (k_start k, n')) s'
  | allocated_nothing s' : starved ev -> a_chunks s' = a_chunks s -> a_threads s' = a_threads s ->
      allocated ev s a t n x (Err ENOMEM) s'.

Lemma first_fit_none s req ts : forall l w0 w, first_fit l req ts w0 s = (Ok (None, w), s) ->
  forall c k, c ∈ l -> a_chunks s !! c = Some k -> req <= k_size k -> k_size k <> SIZE_MINUS_ONE ->
  sivfs_alloc_chunk_is_free_visible k ts = false.
Proof.
  induction l as [|d l IH]; intros w0 w H c k Hc Hk Hr Hz; [by apply not_elem_of_nil in Hc|]. cbn [first_fit] in H.
  destruct (a_chunks s !! d) as [kd|] eqn:Hd.
  2: { unfold bind, load_chunk in H. rewrite Hd in H. discriminate H. }
  rewrite (bind_step _ _ _ _ _ (load_chunk_ok _ _ _ Hd)) in H. apply elem_of_cons in Hc as [->|Hc].
  - assert (kd = k) as -> by congruence.
    destruct (Z.ltb_spec (k_size k) req); [lia|]. destruct (Z.eqb_spec (k_size k) SIZE_MINUS_ONE); [done|].
    destruct (sivfs_alloc_chunk_is_free_visible k ts); done.
  - destruct (k_size kd <? req); [exact (IH _ _ H c k Hc Hk Hr Hz)|]. destruct (k_size kd =? SIZE_MINUS_ONE); [exact (IH _ _ H c k Hc Hk Hr Hz)|].
    destruct (sivfs_alloc_chunk_is_free_visible kd ts); [done|exact (IH _ _ H c k Hc Hk Hr Hz)].
Qed.

(** The chunk that sivfs_alloc_block uses. *)
Lemma choose_ok s a i t x n : alloc_inv s -> a_infos s !! a = Some i -> a_threads s !! t = Some x -> n <= SIZE_MINUS_ONE ->
  exists f w c k, first_fit (ai_bestfit i) n (t_ts x) 0 s = (Ok (f, w), s) /\
    match f with Some c => Some c | None => if w =? 0 then None else Some w end = Some c /\
    (fits s a (t_ts x) n c k \/
     (a_chunks s !! c = Some k /\ k_ainfo k = a /\ k_size k = SIZE_MINUS_ONE /\ busy k = false /\ forall c' k', ~ fits s a (t_ts x) n c' k')).
Proof.
  intros Hinv Hi Hx Hn. pose proof (fun c => ai_best _ Hinv a i c Hi) as Hb.
  destruct (first_fit_ok s n (t_ts x) (ai_bestfit i) 0) as (f & w & E & HR).
  { intros c Hc. apply Hb in Hc as (k & ? & _). by exists k. }
  destruct f as [c|].
  - destruct HR as (Hc & k & Hk & Hr & Hz & Hv). apply Hb in Hc as (k' & Hk' & Ha & Hf). assert (k' = k) as -> by congruence.
    exists (Some c), w, c, k. split; [done|]. split; [done|]. by left.
  - destruct (ai_files _ Hinv a i Hi) as (_ & l & w' & Hlo).
    destruct (lo_tiles _ _ _ _ _ Hlo) as (e & _ & _ & (kw & Hkw & Haw & _ & _ & Hzw & Hbw)).
    destruct HR as (Hin & k & Hk & Hz). { left. exists w', kw. split; [apply Hb; by exists kw|]. done. }
    apply Hb in Hin as (k' & Hk' & Ha & Hf). assert (k' = k) as -> by congruence. exists None, w, w, k. split; [done|]. split.
    + rewrite (proj2 (Z.eqb_neq _ _)); [done|]. by destruct (chunk_pginfo s a i w k Hinv Hi Hk Ha) as (_ & _ & ?).
    + right. split_and!; try done. intros c' k' (Hc' & Ha' & Hb' & Hz' & Hr' & Hv').
      rewrite (first_fit_none s n (t_ts x) _ _ _ E c' k') in Hv'; [done| |done..]. apply Hb. by exists k'.
Qed.

Lemma alloc_block_ok ev s a i t x n : alloc_inv s -> a_infos s !! a = Some i -> a_threads s !! t = Some x ->
  PAGE_SIZE <= n <= MAX_BLOCK_ALLOC_SIZE -> n mod SIZEOF_WORD = 0 -> room s a n -> fresh_chunk ev s ->
  exists r s', sivfs_alloc_block ev t a n s = (r, s') /\ alloc_inv s' /\ allocated ev s a t n x r s'.
Proof.
  intros Hinv Hi Hx Hn Hm Hroom Hfr. unfold sivfs_alloc_block. rewrite (proj2 (Z.ltb_ge _ _)) by lia.
  rewrite Hm. cbn [Z.eqb negb]. rewrite (bind_step _ _ _ _ _ (load_info_ok s a i Hi)), (bind_step _ _ _ _ _ (load_thread_ok s t x Hx)).
  assert (Hmax : MAX_BLOCK_ALLOC_SIZE + PAGE_SIZE < SIZE_MINUS_ONE) by reflexivity.
  destruct (choose_ok s a i t x n Hinv Hi Hx) as (f & w & c & k & E & Hsel & Hch); [unfold PAGE_SIZE in *; lia|].
  rewrite (bind_step _ _ _ _ _ E). cbv beta iota zeta. rewrite Hsel. cbv beta iota.
  assert (Hck : a_chunks s !! c = Some k /\ k_ainfo k = a /\ busy k = false /\ n <= k_size k).
  { destruct Hch as [(? & ? & ? & _ & ? & _)|(? & ? & Hz & ? & _)]; [done|]. split_and!; try done. unfold PAGE_SIZE in *. lia. }
  destruct Hck as (Hk & Ha & Hb & Hle). rewrite (bind_step _ _ _ _ _ (load_chunk_ok _ _ _ Hk)).
  rewrite uadd_small by (assert (SIZE_MINUS_ONE < two64) by reflexivity; unfold is_u64, PAGE_SIZE in *; lia).
  destruct (Z.ltb_spec (n + PAGE_SIZE) (k_size k)) as [Hsp|Hsp].
  - (* the chunk is split *)
    assert (Hs : exists r s', split_chunk ev a c n s = (r, s') /\ split_result ev s a c n k r s').
    { destruct (ai_files _ Hinv a i Hi) as (_ & l & w' & Hlo). pose proof (lo_all _ _ _ _ _ Hlo c k Hk Ha) as [Hin|Hin]%elem_of_app.
      - apply list_elem_of_split in Hin as (l1 & l2 & ->). eapply (split_mid_ok ev s a i l1 c l2 w'); try done. lia.
      - apply list_elem_of_singleton in Hin as ->. eapply (split_wild_ok ev s a i l w'); try done; [lia|]. apply (Hroom w' k Hk Ha).
        destruct (lo_tiles _ _ _ _ _ Hlo) as (e & _ & _ & (kw & Hkw & _ & _ & _ & Hw & _)). congruence. }
    destruct Hs as (r & s1 & E1 & Hinv1 & Ht1 & [(-> & d & Hd & Hc1)|(-> & Hc1 & Hst)]).
    2: { rewrite (bind_err _ _ _ _ _ E1). exists (Err ENOMEM), s1. split; [done|]. split; [done|]. by apply allocated_nothing. }
    rewrite (bind_step _ _ _ _ _ E1). destruct (Hfr d Hd) as [Hd0 Hdn]. assert (Hcd : c <> d) by congruence.
    assert (Hk1 : a_chunks s1 !! c = Some (with_size n k)) by (rewrite Hc1; by apply split_here).
    rewrite <- Ht1 in Hx. destruct (take_chunk_ok s1 t c x (with_size n k) Hinv1 Hx Hk1 Hb) as [-> Hinv2]; [cbn [k_size with_size]; unfold PAGE_SIZE in *; lia|].
    eexists _, _. split; [reflexivity|]. split; [done|]. cbn [k_start k_size with_size].
    apply (allocated_block _ _ _ _ _ _ _ c k n); try done; cbn [taken a_chunks a_threads].
    + unfold PAGE_SIZE. lia.
    + by left.
    + apply lookup_insert_eq.
    + intros c' k' Hne Hc'. rewrite lookup_insert_ne, Hc1, split_others by congruence. done.
    + intros c' k' Hne. rewrite lookup_insert_ne, Hc1 by congruence. destruct (decide (c' = d)) as [->|Hnd].
      * rewrite split_new. intros [= <-]. right. split; [done|]. unfold rest_of. simpl. by split_and!.
      * rewrite split_others by done. by left.
    + by rewrite Ht1.
  - (* the chunk is used as it is *)
    assert (Hz : k_size k <> SIZE_MINUS_ONE) by (intros E'; unfold PAGE_SIZE in *; lia).
    rewrite (bind_step (ret tt) _ s tt s eq_refl). destruct (take_chunk_ok s t c x k Hinv Hx Hk Hb Hz) as [-> Hinv2].
    eexists _, _. split; [reflexivity|]. split; [done|].
    apply (allocated_block _ _ _ _ _ _ _ c k (k_size k)); try done; cbn [taken a_chunks a_threads].
    + by right.
    + rewrite lookup_insert_eq. by destruct k.
    + intros c' k' Hne Hc'. by rewrite lookup_insert_ne.
    + intros c' k' Hne. rewrite lookup_insert_ne by congruence. by left.
Qed.

(** C23. sivfs_alloc_block returns a free chunk of the file that is large enough
    and that the transaction can see, at most a page larger than asked for;
    the end of the file is used only when there is none. The chunk is then in
    use and the transaction's, what was split off is a free chunk, and no
    other chunk changes. It fails only when kernel memory runs out. *)
Theorem alloc_block_outcome ev s a i t x n : alloc_inv s -> a_infos s !! a = Some i -> a_threads s !! t = Some x ->
  PAGE_SIZE <= n <= MAX_BLOCK_ALLOC_SIZE -> n mod SIZEOF_WORD = 0 -> room s a n -> fresh_chunk ev s ->
  exists r s', sivfs_alloc_block ev t a n s = (r, s') /\ alloc_inv s' /\ allocated ev s a t n x r s'.
Proof. apply alloc_block_ok. Qed.
