(* ===== verification/AllocFile.v ===== *)
(** The life of a file's allocator: sivfs_iinfo_get_alloc_info creates one on
    first use (kern/sivfs_inode_info.h), sivfs_put_allocator_info destroys it
    (kern/alloc/sivfs_allocation.h). Then the transition system of all the
    allocator's operations, and what holds in every state it reaches. *)
From S2P Require Import Prelude Types RadixTree Alloc AllocLayout AllocInv AllocBlock.

(** ** Destroying *)

(** [kfree] of the chunks that the pginfos of one batch start. *)
Fixpoint put_slots (l : list (Z * sivfs_allocator_pginfo)) : M astate unit :=
  match l with
  | [] => ret tt
  | (_, pginfo) :: l =>
    do! (if pg_starts_chunk pginfo =? 0 then ret tt else sivfs_put_alloc_chunk (pg_starts_chunk pginfo)) in
    put_slots l
  end.

(** Batches of 16 pginfos until the tree is empty. *)
Fixpoint destroy_pginfos (fuel : nat) (info : Z) : M astate unit :=
  match fuel with
  | O => lift OutOfFuel
  | S fuel =>
    let! i := load_info info in
    let batch := take 16 (map_items (ai_pginfo i)) in
    match batch with
    | [] => ret tt
    | _ :: _ =>
      do! put_slots batch in
      do! store_info info (with_pginfo (foldr delete (ai_pginfo i) batch.*1) i) in
      destroy_pginfos fuel info
    end
  end.

(** Nothing holds the lock of an allocator that is being destroyed. *)
Definition sivfs_destroy_allocator_info (info : Z) : M astate unit :=
  let! i := load_info info in
  destroy_pginfos (S (length (map_items (ai_pginfo i)))) info.

Definition sivfs_put_allocator_info (info : Z) : M astate unit :=
  if info =? 0 then ret tt
  else
    do! sivfs_destroy_allocator_info info in
    modify (fun s => set_infos (delete info (a_infos s)) s).

(** [alloc_info]: the field of the inode when the function starts;
    [race_winner]: its value at the compare-and-swap. The result: the
    allocator and the field's new value. *)
Definition sivfs_iinfo_get_alloc_info (km : option Z) (ev : alloc_env) (alloc_info race_winner : Z) : M astate (Z * Z) :=
  if alloc_info =? 0 then
    let! toRet := sivfs_new_allocator_info km in
    do! on_error (sivfs_alloc_info_recover ev toRet false) (sivfs_put_allocator_info toRet) in
    if race_winner =? 0 then ret (toRet, toRet)
    else
      do! sivfs_put_allocator_info toRet in
      ret (race_winner, race_winner)
  else ret (alloc_info, alloc_info).

(** ** The operations as steps *)

(** One operation of one thread, under the lock of the file. *)
Inductive alloc_step (s : astate) : astate -> Prop :=
  | step_file km ev race r s' : (forall a, km = Some a -> a <> 0 /\ a_infos s !! a = None) -> fresh_chunk ev s ->
      sivfs_iinfo_get_alloc_info km ev 0 race s = (r, s') -> alloc_step s s'
  | step_thread t ts : (forall x, a_threads s !! t = Some x -> t_allocated_chunks x = [] /\ t_chunks_to_free x = []) ->
      alloc_step s (set_threads (<[t := mk_tstate ts [] [] false]> (a_threads s)) s)
  | step_alloc ev a t n r s' : is_Some (a_infos s !! a) -> is_Some (a_threads s !! t) -> PAGE_SIZE <= n -> room s a n -> fresh_chunk ev s ->
      sivfs_alloc_block ev t a n s = (r, s') -> alloc_step s s'
  | step_free ev a i t off r s' : a_infos s !! a = Some i -> is_Some (a_threads s !! t) -> 0 <= off -> free_offset_ok i off -> not_anothers s a off t ->
      sivfs_free_block ev t a off s = (r, s') -> alloc_step s s'
  | step_settle ev t aborted ts r s' : is_Some (a_threads s !! t) ->
      sivfs_allocation_on_commit ev t aborted ts s = (r, s') -> alloc_step s s'.

Definition alloc_init (s : astate) : Prop := s = mk_astate ∅ ∅ ∅.

(** ** Lemmas: destroying *)

Definition slot_starts (l : list (Z * sivfs_allocator_pginfo)) : list Z := filter (fun c => c <> 0) (pg_starts_chunk <$> l.*2).

Lemma slot_starts_cons p g l : slot_starts ((p, g) :: l) =
  if decide (pg_starts_chunk g = 0) then slot_starts l else pg_starts_chunk g :: slot_starts l.
Proof. unfold slot_starts. rewrite !fmap_cons, filter_cons. cbn [snd]. repeat case_decide; done. Qed.

Lemma put_slots_ok : forall l s, NoDup (slot_starts l) -> (forall c, c ∈ slot_starts l -> is_Some (a_chunks s !! c)) ->
  exists s', put_slots l s = (Ok tt, s') /\ a_infos s' = a_infos s /\ a_threads s' = a_threads s /\
    forall c, a_chunks s' !! c = if decide (c ∈ slot_starts l) then None else a_chunks s !! c.
Proof.
  induction l as [|[p g] l IH]; intros s Hnd He; cbn [put_slots]; [by exists s|].
  rewrite slot_starts_cons in *. destruct (decide (pg_starts_chunk g = 0)) as [E|E].
  - rewrite E. cbn [Z.eqb]. rewrite (bind_step (ret tt) _ s tt s eq_refl). by apply IH.
  - rewrite (proj2 (Z.eqb_neq _ _) E). apply NoDup_cons in Hnd as [Hn Hnd]. destruct (He (pg_starts_chunk g)) as [k Hk]; [left|].
    rewrite (bind_step _ _ s tt (set_chunks (delete (pg_starts_chunk g) (a_chunks s)) s)).
    2: { unfold sivfs_put_alloc_chunk. by rewrite (proj2 (Z.eqb_neq _ _) E), Hk. }
    destruct (IH (set_chunks (delete (pg_starts_chunk g) (a_chunks s)) s) Hnd) as (s' & Es & Hi & Ht & Hc).
    { intros c Hc. cbn [a_chunks set_chunks]. rewrite lookup_delete_ne by congruence. apply He. by right. }
    exists s'. split; [done|]. split; [done|]. split; [done|]. intros c. rewrite Hc. cbn [a_chunks set_chunks].
    rewrite lookup_delete. pose proof (elem_of_cons (slot_starts l) c (pg_starts_chunk g)).
    destruct (decide (c ∈ slot_starts l)), (decide (pg_starts_chunk g = c)), (decide (c ∈ pg_starts_chunk g :: slot_starts l)); naive_solver.
Qed.

(** What is left after one batch. *)
Lemma batch_rest (m : gmap Z sivfs_allocator_pginfo) n :
  map_items (foldr delete m (take n (map_items m)).*1) ≡ₚ drop n (map_items m).
Proof.
  pose proof (map_items_nodup m) as Hnd. rewrite <- (take_drop n (map_items m)), fmap_app in Hnd. apply NoDup_app in Hnd as (_ & Hd & Hnd).
  apply NoDup_Permutation; [by eapply NoDup_fmap_1, map_items_nodup|by eapply NoDup_fmap_1|]. intros [p g].
  assert (Hin : forall x, x ∈ map_items m <-> x ∈ take n (map_items m) \/ x ∈ drop n (map_items m))
    by (intros x; by rewrite <- elem_of_app, take_drop).
  rewrite elem_of_map_items, lookup_foldr_delete_Some, <- elem_of_map_items, Hin. split; [by intros [Hn [Ht|?]]; [destruct Hn; apply list_elem_of_fmap; exists (p, g)|]|].
  intros Hx. split; [|by right]. intros Ht. apply (Hd p Ht). apply list_elem_of_fmap. by exists (p, g).
Qed.

Lemma slot_starts_perm l l' : l ≡ₚ l' -> slot_starts l ≡ₚ slot_starts l'.
Proof. intros H. unfold slot_starts. by rewrite H. Qed.

Lemma slot_starts_app l l' : slot_starts (l ++ l') = slot_starts l ++ slot_starts l'.
Proof. unfold slot_starts. by rewrite !fmap_app, filter_app. Qed.

Lemma destroy_pginfos_ok a : forall fuel s i, a_infos s !! a = Some i -> (length (map_items (ai_pginfo i)) < fuel)%nat ->
  NoDup (slot_starts (map_items (ai_pginfo i))) -> (forall c, c ∈ slot_starts (map_items (ai_pginfo i)) -> is_Some (a_chunks s !! c)) ->
  exists s', destroy_pginfos fuel a s = (Ok tt, s') /\ (exists i', a_infos s' = <[a := i']> (a_infos s)) /\ a_threads s' = a_threads s /\
    forall c, a_chunks s' !! c = if decide (c ∈ slot_starts (map_items (ai_pginfo i))) then None else a_chunks s !! c.
Proof.
  induction fuel as [|fuel IH]; intros s i Hi Hf Hnd He; [lia|]. cbn [destroy_pginfos].
  rewrite (bind_step _ _ _ _ _ (load_info_ok s a i Hi)). cbv zeta. set (batch := take 16 (map_items (ai_pginfo i))).
  pose proof (batch_rest (ai_pginfo i) 16) as Hrest. fold batch in Hrest. pose proof (take_drop 16 (map_items (ai_pginfo i))) as Hsplit. fold batch in Hsplit.
  destruct batch as [|b batch'] eqn:Eb.
  { exists s. split; [done|]. split; [exists i; by rewrite insert_id|]. split; [done|]. intros c.
    destruct (map_items (ai_pginfo i)); [|done]. rewrite decide_False; [done|apply not_elem_of_nil]. }
  assert (Hne : map_items (ai_pginfo i) <> []) by (intros E; unfold batch in Eb; by rewrite E in Eb).
  rewrite <- Eb in *. clear Eb b batch'. rewrite <- Hsplit, slot_starts_app in Hnd. apply NoDup_app in Hnd as (Hnd1 & Hd & Hnd2).
  destruct (put_slots_ok batch s Hnd1) as (s1 & E1 & Hi1 & Ht1 & Hc1).
  { intros c Hc. apply He. rewrite <- Hsplit, slot_starts_app, elem_of_app. by left. }
  rewrite (bind_step _ _ _ _ _ E1). set (i2 := with_pginfo (foldr delete (ai_pginfo i) batch.*1) i). set (s2 := set_infos (<[a := i2]> (a_infos s1)) s1).
  rewrite (bind_step (store_info a i2) _ s1 tt s2 eq_refl). fold batch. pose proof (slot_starts_perm _ _ Hrest) as Hp.
  destruct (IH s2 i2) as (s3 & E3 & (i3 & Hi3) & Ht3 & Hc3).
  - apply lookup_insert_eq.
  - cbn [i2 ai_pginfo with_pginfo]. rewrite Hrest, length_drop. destruct (map_items (ai_pginfo i)); [done|cbn [length] in *; lia].
  - cbn [i2 ai_pginfo with_pginfo]. by rewrite Hp.
  - cbn [i2 ai_pginfo with_pginfo]. intros c Hc. rewrite Hp in Hc. cbn [s2 a_chunks set_infos]. rewrite Hc1, decide_False by (intros Hc'; by apply (Hd c)).
    apply He. rewrite <- Hsplit, slot_starts_app, elem_of_app. by right.
  - exists s3. split; [done|]. split; [exists i3; rewrite Hi3; cbn [s2 a_infos set_infos]; by rewrite insert_insert_eq, Hi1|]. split; [by rewrite Ht3|].
    intros c. rewrite Hc3. cbn [i2 ai_pginfo with_pginfo s2 a_chunks set_infos]. rewrite Hc1.
    assert (Hin : c ∈ slot_starts (map_items (ai_pginfo i)) <-> c ∈ slot_starts batch \/ c ∈ slot_starts (map_items (foldr delete (ai_pginfo i) batch.*1)))
      by (rewrite Hp, <- elem_of_app, <- slot_starts_app, Hsplit; done).
    destruct (decide (c ∈ slot_starts batch)), (decide (c ∈ slot_starts (map_items (foldr delete (ai_pginfo i) batch.*1)))),
      (decide (c ∈ slot_starts (map_items (ai_pginfo i)))); tauto.
Qed.

Lemma put_info_ok s a i : a <> 0 -> a_infos s !! a = Some i -> NoDup (slot_starts (map_items (ai_pginfo i))) ->
  (forall c, c ∈ slot_starts (map_items (ai_pginfo i)) -> is_Some (a_chunks s !! c)) ->
  exists s', sivfs_put_allocator_info a s = (Ok tt, s') /\ a_infos s' = delete a (a_infos s) /\ a_threads s' = a_threads s /\
    forall c, a_chunks s' !! c = if decide (c ∈ slot_starts (map_items (ai_pginfo i))) then None else a_chunks s !! c.
Proof.
  intros Ha Hi Hnd He. unfold sivfs_put_allocator_info. rewrite (proj2 (Z.eqb_neq _ _) Ha).
  unfold sivfs_destroy_allocator_info. rewrite bind_assoc, (bind_step _ _ _ _ _ (load_info_ok s a i Hi)).
  destruct (destroy_pginfos_ok a (S (length (map_items (ai_pginfo i)))) s i Hi (Nat.lt_succ_diag_r _) Hnd He) as (s1 & E1 & (i' & Hi') & Ht1 & Hc1).
  rewrite (bind_step _ _ _ _ _ E1). eexists. split; [reflexivity|]. cbn [set_infos a_infos a_threads a_chunks]. split; [|done].
  by rewrite Hi', delete_insert_eq.
Qed.

Lemma filter_none {A} (P : A -> Prop) `{forall x, Decision (P x)} (l : list A) : (forall x, x ∈ l -> ~ P x) -> filter P l = [].
Proof.
  induction l as [|x l IH]; intros H'; [done|]. rewrite filter_cons_False; [|apply H'; left]. apply IH. intros y Hy. apply H'. by right.
Qed.

Lemma filter_every {A} (P : A -> Prop) `{forall x, Decision (P x)} (l : list A) : (forall x, x ∈ l -> P x) -> filter P l = l.
Proof.
  induction l as [|x l IH]; intros H'; [done|]. rewrite filter_cons_True; [|apply H'; left]. f_equal. apply IH. intros y Hy. apply H'. by right.
Qed.

(** The pages of a tiled file record the start of each of its chunks once. *)
Lemma layout_starts ch a pgs l w : layout ch a pgs l w -> slot_starts (map_items pgs) ≡ₚ l ++ [w].
Proof.
  intros Hlo. pose proof (layout_members _ _ _ _ _ Hlo) as Hnd. destruct (lo_tiles _ _ _ _ _ Hlo) as (e & _ & Ht & (kw & Hkw & _ & _ & Hw0 & _)).
  assert (H0 : forall c, c ∈ l ++ [w] -> c <> 0).
  { intros c [Hc|Hc]%elem_of_app; [by destruct (tiles_member _ _ _ _ _ _ Ht Hc) as (k & _ & _ & ? & _)|]. by apply list_elem_of_singleton in Hc as ->. }
  destruct (lo_pg _ _ _ _ _ Hlo) as [Hb Hg]. set (B := bounds ch 0 (l ++ [w])) in *.
  set (P := fun x : Z * sivfs_allocator_pginfo => x.1 ∈ bpage <$> B).
  rewrite <- (slot_starts_perm _ _ (filter_app_complement P (map_items pgs))), slot_starts_app.
  assert (Hrest : slot_starts (filter (fun x => ~ P x) (map_items pgs)) = []).
  { apply filter_none. intros c (x & -> & (y & -> & Hy)%list_elem_of_fmap)%list_elem_of_fmap.
    apply list_elem_of_filter in Hy as [Hn Hy]. destruct y as [p g]. apply elem_of_map_items in Hy.
    destruct (Hg p g Hy) as [?|(_ & ? & _)]; [by destruct Hn|by intros []]. }
  rewrite Hrest, app_nil_r.
  assert (Hmap : filter P (map_items pgs) ≡ₚ (fun b => (bpage b, binfo b)) <$> B).
  { apply NoDup_Permutation.
    - apply NoDup_filter. eapply NoDup_fmap_1, map_items_nodup.
    - apply (NoDup_fmap_1 fst). rewrite <- list_fmap_compose. exact (layout_nodup _ _ _ _ _ Hlo).
    - intros [p g]. rewrite list_elem_of_filter, elem_of_map_items, list_elem_of_fmap. split.
      + intros [Hp Hpg]. unfold P in Hp. apply list_elem_of_fmap in Hp as (b & Ep & Hin). cbn [fst] in Ep. subst p.
        exists b. rewrite (Hb b Hin) in Hpg. injection Hpg as <-. done.
      + intros (b & [= -> ->] & Hin). split; [apply list_elem_of_fmap; by exists b|by apply Hb]. }
  rewrite (slot_starts_perm _ _ Hmap). unfold slot_starts. rewrite <- !list_fmap_compose.
  replace (_ <$> B) with (l ++ [w]) by (symmetry; apply bounds_snd). by rewrite filter_every.
Qed.

(** The chunks of file [a], by the file they name. *)
Definition without_file (a : Z) (ch : gmap Z sivfs_alloc_chunk) : gmap Z sivfs_alloc_chunk :=
  filter (fun ck : Z * sivfs_alloc_chunk => k_ainfo ck.2 <> a) ch.

Lemma layout_owned ch a pgs l w c : layout ch a pgs l w -> c ∈ l ++ [w] <-> exists k, ch !! c = Some k /\ k_ainfo k = a.
Proof.
  intros Hlo. split; [|intros (k & Hk & Ha); exact (lo_all _ _ _ _ _ Hlo c k Hk Ha)].
  destruct (lo_tiles _ _ _ _ _ Hlo) as (e & _ & Ht & (kw & Hkw & Haw & _)). intros [Hc|Hc]%elem_of_app.
  - destruct (tiles_member _ _ _ _ _ _ Ht Hc) as (k & Hk & Ha & _). by exists k.
  - apply list_elem_of_singleton in Hc as ->. by exists kw.
Qed.

Lemma put_file_ok s a i : alloc_inv s -> a_infos s !! a = Some i ->
  exists s', sivfs_put_allocator_info a s = (Ok tt, s') /\ a_infos s' = delete a (a_infos s) /\ a_threads s' = a_threads s /\
    a_chunks s' = without_file a (a_chunks s).
Proof.
  intros Hinv Hi. destruct (ai_files _ Hinv a i Hi) as (Ha & l & w & Hlo). pose proof (layout_starts _ _ _ _ _ Hlo) as Hp.
  destruct (put_info_ok s a i Ha Hi) as (s' & E & Hi' & Ht & Hc).
  - rewrite Hp. by eapply layout_members.
  - intros c. rewrite Hp. by eapply layout_exists.
  - exists s'. split; [done|]. split; [done|]. split; [done|]. apply map_eq. intros c. rewrite Hc.
    assert (Hin : c ∈ slot_starts (map_items (ai_pginfo i)) <-> exists k, a_chunks s !! c = Some k /\ k_ainfo k = a)
      by (rewrite Hp; by eapply layout_owned).
    unfold without_file. rewrite map_lookup_filter. destruct (a_chunks s !! c) as [k|] eqn:Ek; simpl; [|by case_decide].
    destruct (decide (c ∈ _)) as [H|H]; destruct (decide (k_ainfo k = a)) as [E'|E'].
    + by rewrite option_guard_False by auto.
    + apply Hin in H as (k' & [= <-] & ?). done.
    + destruct H. apply Hin. by exists k.
    + by rewrite option_guard_True.
Qed.

(** ** Lemmas: creating *)

Definition new_file (a w : Z) (s : astate) : astate :=
  mk_astate (<[a := mk_ainfo [w] {[0 := mk_pginfo 0 0 w]}]> (a_infos s)) (<[w := mk_chunk 0 0 SIZE_MINUS_ONE a]> (a_chunks s)) (a_threads s).

Lemma new_file_inv s a w : alloc_inv s -> a <> 0 -> a_infos s !! a = None -> w <> 0 -> a_chunks s !! w = None -> alloc_inv (new_file a w s).
Proof.
  intros Hinv Ha Hi Hw Hc. destruct Hinv as [Hf Ho Hbest Hal ? ? Hfr ? ? ?].
  assert (Hna : forall c k, a_chunks s !! c = Some k -> k_ainfo k <> a) by (intros c k Hk <-; destruct (Ho c k Hk); congruence).
  split; try done; cbn [new_file a_infos a_chunks a_threads].
  - intros a' i'. rewrite lookup_insert. case_decide as E.
    + intros [= <-]. subst a'. split; [done|]. exists [], w. split.
      * exists 0. split; [done|]. split; [done|]. eexists. split; [apply lookup_insert_eq|done].
      * cbn [app bounds ai_pginfo]. unfold kstart. rewrite lookup_insert_eq. cbn [k_start]. split.
        -- intros b ->%list_elem_of_singleton. apply lookup_singleton_Some. done.
        -- intros p g [<- <-]%lookup_singleton_Some. left. rewrite fmap_cons. left.
      * intros c k. rewrite lookup_insert. case_decide; [intros; subst c; left|]. intros Hk Hka. by destruct (Hna c k Hk).
    + intros Hj. destruct (Hf a' i' Hj) as (? & l & w' & Hlo). split; [done|]. exists l, w'. eapply layout_frame; [|exact Hlo].
      intros c k Hk. rewrite lookup_insert. case_decide as E'; [subst c|done]. split; [congruence|intros [= <-]; by destruct E].
  - intros c k. rewrite lookup_insert. intros Hk. destruct (decide (a = k_ainfo k)) as [->|Hne]; [rewrite lookup_insert_eq; by eexists|].
    rewrite lookup_insert_ne by done. destruct (decide (w = c)); [injection Hk as <-; done|exact (Ho c k Hk)].
  - intros a' i' c. rewrite lookup_insert. destruct (decide (a = a')) as [<-|Hne].
    + intros [= <-]. cbn [ai_bestfit]. rewrite list_elem_of_singleton. split.
      * intros ->. eexists. split; [apply lookup_insert_eq|done].
      * intros (k & Hk & Hka & _). rewrite lookup_insert in Hk. destruct (decide (w = c)); [done|]. by destruct (Hna c k Hk).
    + intros Hj. rewrite (Hbest _ _ c Hj). split; intros (k & Hk & Hka & Hb).
      * exists k. rewrite lookup_insert_ne by congruence. done.
      * rewrite lookup_insert in Hk. destruct (decide (w = c)); [injection Hk as <-; done|]. by exists k.
  - intros t x c Hx Hin. destruct (Hal t x c Hx Hin) as (k & ? & ?). exists k. by rewrite lookup_insert_ne by congruence.
  - intros t x c Hx Hin. destruct (Hfr t x c Hx Hin) as (k & ? & ? & ?). exists k. by rewrite lookup_insert_ne by congruence.
Qed.

(** Destroying an allocator that has no chunk yet. *)
Lemma put_empty_file s a i : a <> 0 -> a_infos s !! a = None -> slot_starts (map_items (ai_pginfo i)) = [] ->
  sivfs_put_allocator_info a (set_infos (<[a := i]> (a_infos s)) s) = (Ok tt, s).
Proof.
  intros Ha Hi Hs. destruct (put_info_ok (set_infos (<[a := i]> (a_infos s)) s) a i Ha) as (s' & -> & Hi' & Ht & Hc).
  - apply lookup_insert_eq.
  - rewrite Hs. constructor.
  - rewrite Hs. by intros c ?%not_elem_of_nil.
  - f_equal. destruct s' as [I C T], s as [I0 C0 T0]. cbn [set_infos a_infos a_chunks a_threads] in *. f_equal; [|apply map_eq; intros c|done].
    + by rewrite Hi', delete_insert_eq, delete_id.
    + rewrite Hc, Hs. rewrite decide_False; [done|apply not_elem_of_nil].
Qed.

Lemma recover_ok ev s a : alloc_inv s -> a_infos s !! a = None -> fresh_chunk ev s ->
  let s0 := set_infos (<[a := mk_ainfo [] ∅]> (a_infos s)) s in
  (exists w, av_chunk ev = Some w /\ sivfs_alloc_info_recover ev a false s0 = (Ok tt, new_file a w s)) \/
  (starved ev /\ exists i, slot_starts (map_items (ai_pginfo i)) = [] /\
    sivfs_alloc_info_recover ev a false s0 = (Err ENOMEM, set_infos (<[a := i]> (a_infos s)) s)).
Proof.
  intros Hinv Hi Hfr s0. unfold sivfs_alloc_info_recover. cbv zeta.
  assert (Hi0 : a_infos s0 !! a = Some (mk_ainfo [] ∅)) by apply lookup_insert_eq.
  unfold sivfs_alloc_get_pginfo at 1 2. rewrite !bind_assoc, !(bind_step _ _ _ _ _ (load_info_ok _ _ _ Hi0)).
  cbn [ai_pginfo]. rewrite lookup_empty. change (0 / PAGE_SIZE) with 0.
  destruct (av_pginfo ev 0) eqn:E1; [|right; split; [left; by exists 0|]; exists (mk_ainfo [] ∅); done].
  destruct (av_node ev 0) eqn:E2; [|right; split; [right; left; by exists 0|]; exists (mk_ainfo [] ∅); done].
  rewrite !bind_assoc. set (i1 := with_pginfo _ _). set (s1 := set_infos (<[a := i1]> (a_infos s)) s).
  assert (Es : store_info a i1 s0 = (Ok tt, s1)) by (unfold store_info, modify, s0, set_infos; simpl; by rewrite insert_insert_eq).
  rewrite !(bind_step _ _ _ _ _ Es), !(bind_step (ret 0) _ s1 0 s1 eq_refl).
  destruct (av_chunk ev) as [w|] eqn:Ew.
  2: { right. split; [right; by right|]. exists i1. split; [|done]. vm_compute. done. }
  left. exists w. split; [done|]. destruct (Hfr w Ew) as [Hw0 Hw]. rewrite (bind_step _ _ _ _ _ (new_chunk_ok s1 w a)).
  set (s2 := set_chunks _ s1). assert (Hi2 : a_infos s2 !! a = Some i1) by apply lookup_insert_eq.
  rewrite (bind_step _ _ _ _ _ (load_pginfo_ok _ _ _ Hi2 0 zero_pginfo eq_refl)), (bind_step _ _ _ _ _ (store_pginfo_ok _ _ _ Hi2 _ _)).
  set (i3 := with_pginfo _ i1). set (s3 := set_infos _ s2).
  assert (Hk3 : a_chunks s3 !! w = Some (mk_chunk 0 0 0 a)) by apply lookup_insert_eq.
  rewrite (bind_step _ _ _ _ _ (load_chunk_ok _ _ _ Hk3)). cbn [with_size k_last_freed_ts k_start k_ainfo].
  rewrite (bind_step (store_chunk w _) _ s3 tt _ eq_refl). set (s4 := set_chunks _ s3).
  assert (Hn : in_bestfit_node w s4 = false).
  { eapply bool_false_iff; [apply in_bestfit_node_spec|]. pose proof (fresh_not_in_node s w Hinv Hw) as Hn0. apply not_true_iff_false in Hn0.
    intros [(a' & j & Hj & Hin)|(t & x & Hx & Hin)]; apply Hn0, in_bestfit_node_spec; [left|right; by exists t, x].
    cbn [s4 s3 s2 s1 a_infos set_infos set_chunks] in Hj. rewrite insert_insert_eq, lookup_insert in Hj. destruct (decide (a = a')).
    - injection Hj as <-. by apply not_elem_of_nil in Hin.
    - by exists a', j. }
  unfold list_add_bestfit. rewrite Hn. assert (Hi4 : a_infos s4 !! a = Some i3) by apply lookup_insert_eq.
  rewrite (bind_step _ _ _ _ _ (load_info_ok _ _ _ Hi4)). unfold store_info, modify. do 2 f_equal.
  unfold new_file, s4, s3, s2, s1, set_infos, set_chunks. cbn [a_infos a_chunks a_threads]. by rewrite !insert_insert_eq.
Qed.

(** The outcomes of sivfs_iinfo_get_alloc_info on a file without allocator. *)
Inductive got_info (s : astate) (km : option Z) (ev : alloc_env) (race : Z) : res (Z * Z) -> astate -> Prop :=
  | got_new a w : race = 0 -> km = Some a -> av_chunk ev = Some w -> got_info s km ev race (Ok (a, a)) (new_file a w s)
  | got_winner : race <> 0 -> got_info s km ev race (Ok (race, race)) s
  | got_nothing : km = None \/ starved ev -> got_info s km ev race (Err ENOMEM) s.

Lemma get_alloc_info_ok s km ev race : alloc_inv s -> (forall a, km = Some a -> a <> 0 /\ a_infos s !! a = None) -> fresh_chunk ev s ->
  exists r s', sivfs_iinfo_get_alloc_info km ev 0 race s = (r, s') /\ alloc_inv s' /\ got_info s km ev race r s'.
Proof.
  intros Hinv Hkm Hfr. unfold sivfs_iinfo_get_alloc_info. cbn [Z.eqb]. destruct km as [a|]; cbn [sivfs_new_allocator_info].
  2: { exists (Err ENOMEM), s. split; [done|]. split; [done|]. apply got_nothing. by left. }
  destruct (Hkm a eq_refl) as [Ha Hi]. rewrite bind_assoc. set (s0 := set_infos (<[a := mk_ainfo [] ∅]> (a_infos s)) s).
  rewrite (bind_step (store_info a _) _ s tt s0 eq_refl), (bind_step (ret a) _ s0 a s0 eq_refl).
  destruct (recover_ok ev s a Hinv Hi Hfr) as [(w & Hw & E)|(Hst & i & Hs & E)].
  - destruct (Hfr w Hw) as [Hw0 Hwn]. pose proof (new_file_inv s a w Hinv Ha Hi Hw0 Hwn) as Hinv'.
    rewrite (bind_step _ _ _ _ _ (on_error_ok _ _ _ _ _ E)). destruct (Z.eqb_spec race 0) as [Hr|Hr].
    + eexists _, _. split; [reflexivity|]. split; [done|]. by apply got_new.
    + assert (Hi' : a_infos (new_file a w s) !! a = Some (mk_ainfo [w] {[0 := mk_pginfo 0 0 w]})) by apply lookup_insert_eq.
      destruct (put_file_ok _ _ _ Hinv' Hi') as (s' & E' & Hi1 & Ht1 & Hc1). rewrite (bind_step _ _ _ _ _ E').
      assert (s' = s) as ->.
      { destruct s' as [I C T], s as [I0 C0 T0]. cbn [new_file a_infos a_chunks a_threads] in *. subst. f_equal; [by rewrite delete_insert_eq, delete_id|].
        unfold without_file. rewrite map_filter_insert_False by by intros []. rewrite delete_id by done. apply map_filter_id.
        intros c k Hk Hka. destruct (ai_owner _ Hinv c k Hk) as [j Hj]. simpl in *. congruence. }
      eexists _, _. split; [reflexivity|]. split; [done|]. by apply got_winner.
  - rewrite (bind_err _ _ _ _ _ (on_error_err _ _ _ _ _ _ E (put_empty_file s a i Ha Hi Hs))).
    eexists _, _. split; [reflexivity|]. split; [done|]. apply got_nothing. by right.
Qed.

(** ** Every state the allocator reaches *)

Lemma alloc_init_inv s : alloc_init s -> alloc_inv s.
Proof. intros ->. split; cbn [a_infos a_chunks a_threads]; intros *; rewrite lookup_empty; done. Qed.

Lemma new_thread_inv s t ts : alloc_inv s -> alloc_inv (set_threads (<[t := mk_tstate ts [] [] false]> (a_threads s)) s).
Proof.
  intros Hinv. destruct Hinv as [? ? ? Hal Haln Hald Hfr Hfrn Hfrd Hcr]. split; try done; cbn [set_threads a_threads a_chunks].
  - intros t' y z. rewrite lookup_insert. destruct (decide (t = t')); [intros [= <-] ?%not_elem_of_nil; done|apply Hal].
  - intros t' y. rewrite lookup_insert. destruct (decide (t = t')); [intros [= <-]; constructor|apply Haln].
  - intros t1 x1 t2 x2 z. rewrite !lookup_insert. destruct (decide (t = t1)), (decide (t = t2)); intros H1 H2; simplify_eq; try done;
      try (by intros ?%not_elem_of_nil); try (by intros ? ?%not_elem_of_nil). by apply Hald.
  - intros t' y z. rewrite lookup_insert. destruct (decide (t = t')); [intros [= <-] ?%not_elem_of_nil; done|apply Hfr].
  - intros t' y. rewrite lookup_insert. destruct (decide (t = t')); [intros [= <-]; constructor|apply Hfrn].
  - intros t1 x1 t2 x2 z. rewrite !lookup_insert. destruct (decide (t = t1)), (decide (t = t2)); intros H1 H2; simplify_eq; try done;
      try (by intros ?%not_elem_of_nil); try (by intros ? ?%not_elem_of_nil). by apply Hfrd.
  - intros t1 x1 t2 x2 z. rewrite !lookup_insert. destruct (decide (t = t1)), (decide (t = t2)); intros H1 H2; simplify_eq; try done;
      try (by intros ?%not_elem_of_nil); try (by intros ? ?%not_elem_of_nil). by apply Hcr.
Qed.

Lemma alloc_step_inv s s' : alloc_inv s -> alloc_step s s' -> alloc_inv s'.
Proof.
  intros Hinv [km ev race r s1 Hkm Hfr E|t ts Hx|ev a t n r s1 [i Hi] [x Hx] Hn Hr Hfr E|ev a i t off r s1 Hi [x Hx] H0 Hok Hna E|ev t ab ts r s1 [x Hx] E].
  - destruct (get_alloc_info_ok s km ev race Hinv Hkm Hfr) as (r' & s2 & E' & ? & _). congruence.
  - by apply new_thread_inv.
  - destruct (Z.le_gt_cases n MAX_BLOCK_ALLOC_SIZE); [destruct (decide (n mod SIZEOF_WORD = 0)) as [Hm|Hm]|].
    + destruct (alloc_block_ok ev s a i t x n Hinv Hi Hx) as (r' & s2 & E' & ? & _); [done..|]. congruence.
    + unfold sivfs_alloc_block in E. rewrite (proj2 (Z.ltb_ge _ _)), (proj2 (Z.eqb_neq _ _) Hm) in E by lia. by injection E as <- <-.
    + unfold sivfs_alloc_block in E. rewrite (proj2 (Z.ltb_lt _ _)) in E by lia. by injection E as <- <-.
  - destruct (free_block_ok ev s a i t x off Hinv Hi Hx H0 Hok Hna) as (r' & s2 & E' & ? & _). congruence.
  - destruct (settle_ok ev s t x ab ts Hinv Hx) as (s2 & E' & []). congruence.
Qed.

Lemma alloc_reachable_inv s : reachable alloc_init alloc_step s -> alloc_inv s.
Proof. apply invariant_reachable; [apply alloc_init_inv|apply alloc_step_inv]. Qed.

(** C25. In every state the allocator reaches, the chunks of a file never
    overlap and together cover it, and no chunk is held by two transactions. *)
Theorem allocator_reachable s : reachable alloc_init alloc_step s ->
  (forall c c' k k', c <> c' -> a_chunks s !! c = Some k -> a_chunks s !! c' = Some k' -> k_ainfo k = k_ainfo k' -> ~ overlap k k') /\
  (forall a i x, a_infos s !! a = Some i -> 0 <= x < FILE_LIMIT ->
    exists c k, a_chunks s !! c = Some k /\ k_ainfo k = a /\ k_start k <= x < k_start k + k_size k) /\
  (forall t t' y y' c, a_threads s !! t = Some y -> a_threads s !! t' = Some y' ->
    (c ∈ t_allocated_chunks y \/ c ∈ t_chunks_to_free y) -> (c ∈ t_allocated_chunks y' \/ c ∈ t_chunks_to_free y') -> t = t').
Proof.
  intros Hr. apply alloc_reachable_inv in Hr as Hinv. split; [|split].
  - intros c c' k k' Hne Hk Hk' Ha. destruct (ai_owner _ Hinv c k Hk) as [i Hi]. destruct (ai_files _ Hinv _ i Hi) as (_ & l & w & Hlo).
    by apply (layout_disjoint _ _ _ _ _ c c' k k' Hlo).
  - intros a i x Hi Hx. destruct (ai_files _ Hinv a i Hi) as (_ & l & w & Hlo). by apply (layout_cover _ _ _ _ _ _ Hlo).
  - intros t t' y y' c Hy Hy' [H|H] [H'|H'].
    + by apply (ai_alloc_disj _ Hinv t y t' y' c).
    + symmetry. by apply (ai_cross _ Hinv t' y' t y c).
    + by apply (ai_cross _ Hinv t y t' y' c).
    + by apply (ai_free_disj _ Hinv t y t' y' c).
Qed.

(** Destroying an allocator frees every chunk of its file, each once, and
    touches no other file. *)
Theorem put_allocator_info_frees_file s a i : alloc_inv s -> a_infos s !! a = Some i ->
  exists s', sivfs_put_allocator_info a s = (Ok tt, s') /\ a_infos s' = delete a (a_infos s) /\ a_threads s' = a_threads s /\
    a_chunks s' = without_file a (a_chunks s).
Proof. apply put_file_ok. Qed.

(** ** A concrete run *)

(** Memory is plentiful; the next chunk is at [c]. *)
Definition rich (c : Z) : alloc_env := mk_aenv (fun _ => true) (fun _ => true) (Some c).

(** File 1 with its first chunk at 100, thread 5 with snapshot 4. *)
Definition sample_new : astate := (sivfs_iinfo_get_alloc_info (Some 1) (rich 100) 0 0 (mk_astate ∅ ∅ ∅)).2.
Definition sample_file : astate := set_threads (<[5 := mk_tstate 4 [] [] false]> (a_threads sample_new)) sample_new.
(** The thread allocates 8192 bytes, then frees them. *)
Definition sample_allocated : astate := (sivfs_alloc_block (rich 101) 5 1 8192 sample_file).2.
Definition sample_freed : astate := (sivfs_free_block (rich 102) 5 1 0 sample_allocated).2.

Lemma sample_file_reachable : reachable alloc_init alloc_step sample_file.
Proof.
  apply (reach_step _ _ sample_new).
  - apply (reach_step _ _ (mk_astate ∅ ∅ ∅)); [by apply reach_init|].
    apply (step_file _ (Some 1) (rich 100) 0 (Ok (1, 1))); [by intros a [= <-]|by intros r [= <-]|reflexivity].
  - apply (step_thread _ 5 4). intros x Hx. discriminate Hx.
Qed.

Lemma sample_file_chunks : a_chunks sample_file = {[100 := mk_chunk 0 0 SIZE_MINUS_ONE 1]}.
Proof. reflexivity. Qed.

Lemma sample_file_room : room sample_file 1 8192.
Proof. intros w k. rewrite sample_file_chunks. intros [<- <-]%lookup_singleton_Some _ _. reflexivity. Qed.

Lemma sample_file_fresh : fresh_chunk (rich 101) sample_file.
Proof. intros r [= <-]. done. Qed.

Lemma sample_allocated_reachable : reachable alloc_init alloc_step sample_allocated.
Proof.
  apply (reach_step _ _ sample_file); [exact sample_file_reachable|].
  apply (step_alloc _ (rich 101) 1 5 8192 (Ok (0, 8192))); [by eexists|by eexists|done|exact sample_file_room|exact sample_file_fresh|reflexivity].
Qed.

Lemma sample_free_offset : exists i, a_infos sample_allocated !! 1 = Some i /\ free_offset_ok i 0.
Proof. eexists. split; [reflexivity|]. right. eexists. split; [reflexivity|done]. Qed.

Lemma sample_not_anothers : not_anothers sample_allocated 1 0 5.
Proof.
  intros c k t' y _ _ _ Hy _. assert (E : dom (a_threads sample_allocated) = {[5]}) by (vm_compute; reflexivity).
  apply elem_of_dom_2 in Hy. rewrite E in Hy. by apply elem_of_singleton in Hy.
Qed.

Lemma sample_freed_reachable : reachable alloc_init alloc_step sample_freed.
Proof.
  apply (reach_step _ _ sample_allocated); [exact sample_allocated_reachable|]. destruct sample_free_offset as (i & Hi & Hok).
  apply (step_free _ (rich 102) 1 i 5 0 (Ok tt)); [exact Hi|by eexists|done|exact Hok|exact sample_not_anothers|reflexivity].
Qed.

Lemma sample_file_in_freed : is_Some (a_infos sample_freed !! 1).
Proof. by eexists. Qed.

Lemma allocation_settles_witness : exists s', sivfs_allocation_on_commit (rich 103) 5 false 6 sample_freed = (Ok tt, s') /\
  settled sample_freed s' 5 (mk_tstate 4 [100] [100] false) false.
Proof. apply (allocation_settles (rich 103) sample_freed 5 (mk_tstate 4 [100] [100] false) false 6); [exact (alloc_reachable_inv _ sample_freed_reachable)|reflexivity]. Defined.

Lemma free_block_outcome_witness : exists r s', sivfs_free_block (rich 102) 5 1 0 sample_allocated = (r, s') /\ alloc_inv s' /\
  freed sample_allocated 1 0 5 (mk_tstate 4 [100] [] false) r s'.
Proof.
  destruct sample_free_offset as (i & Hi & Hok).
  apply (free_block_outcome (rich 102) sample_allocated 1 i 5 (mk_tstate 4 [100] [] false) 0);
    [exact (alloc_reachable_inv _ sample_allocated_reachable)|exact Hi|reflexivity|reflexivity|exact Hok|exact sample_not_anothers].
Defined.

Lemma alloc_block_outcome_witness : exists r s', sivfs_alloc_block (rich 101) 5 1 8192 sample_file = (r, s') /\ alloc_inv s' /\
  allocated (rich 101) sample_file 1 5 8192 (mk_tstate 4 [] [] false) r s'.
Proof.
  apply (alloc_block_outcome (rich 101) sample_file 1 (mk_ainfo [100] {[0 := mk_pginfo 0 0 100]}) 5 (mk_tstate 4 [] [] false) 8192);
    [exact (alloc_reachable_inv _ sample_file_reachable)|reflexivity|reflexivity|split; intros H; discriminate H|reflexivity|exact sample_file_room|exact sample_file_fresh].
Defined.

Lemma allocator_reachable_witness :
  exists c k, a_chunks sample_freed !! c = Some k /\ k_ainfo k = 1 /\ k_start k <= 9000 < k_start k + k_size k.
Proof.
  destruct sample_file_in_freed as [i Hi].
  apply (proj1 (proj2 (allocator_reachable sample_freed sample_freed_reachable)) 1 i 9000 Hi). done.
Defined.

Lemma put_allocator_info_frees_file_witness : exists s', sivfs_put_allocator_info 1 sample_file = (Ok tt, s') /\
  a_infos s' = delete 1 (a_infos sample_file) /\ a_threads s' = a_threads sample_file /\ a_chunks s' = without_file 1 (a_chunks sample_file).
Proof.
  apply (put_allocator_info_frees_file sample_file 1 (mk_ainfo [100] {[0 := mk_pginfo 0 0 100]}));
    [exact (alloc_reachable_inv _ sample_file_reachable)|reflexivity].
Defined.

(** ** What the model showed *)

(** One thread's operations in a row; the offset and size of the last block, if any. *)
Inductive alloc_op : Type := OpAlloc (c n : Z) | OpFree (off : Z) | OpSettle (aborted : bool) (ts : Z) | OpSnapshot (ts : Z).

Fixpoint run_ops (t : Z) (ops : list alloc_op) (last : Z * Z) : M astate (Z * Z) :=
  match ops with
  | [] => ret last
  | OpAlloc c n :: ops => let! r := sivfs_alloc_block (rich c) t 1 n in run_ops t ops r
  | OpFree off :: ops => do! sivfs_free_block (rich 0) t 1 off in run_ops t ops last
  | OpSettle aborted ts :: ops => do! sivfs_allocation_on_commit (rich 0) t aborted ts in run_ops t ops last
  | OpSnapshot ts :: ops =>
    do! modify (fun s => set_threads (<[t := mk_tstate ts [] [] false]> (a_threads s)) s) in run_ops t ops last
  end.

(** A block freed at time 6 is not given to a transaction with snapshot 2,
    unless in between a transaction allocated it, freed it and aborted: then it
    counts as freed at time 0. *)
Theorem aborted_free_forgets_time :
  let freed_at_6 := [OpAlloc 101 8192; OpSettle false 4; OpFree 0; OpSettle false 6] in
  let late := [OpSnapshot 2; OpAlloc 102 8192] in
  (run_ops 5 (freed_at_6 ++ late) (0, 0) sample_file).1 = Ok (8192, 8192) /\
  (run_ops 5 (freed_at_6 ++ [OpSnapshot 8; OpAlloc 103 8192; OpFree 0; OpSettle true SIVFS_INVALID_TS] ++ late) (0, 0) sample_file).1 = Ok (0, 8192).
Proof. split; vm_compute; reflexivity. Qed.

(** A block that is freed while the block before it is in use becomes a part of
    that block instead of a free chunk. *)
Theorem freed_block_joins_block_in_use :
  let s := (run_ops 5 [OpAlloc 101 8192; OpAlloc 102 8192; OpSettle false 4; OpSnapshot 4; OpFree 8192; OpSettle false 6] (0, 0) sample_file).2 in
  a_chunks s !! 100 = Some (mk_chunk SIVFS_CHUNK_ALLOCATED 0 16384 1) /\ a_chunks s !! 101 = None.
Proof. split; vm_compute; reflexivity. Qed.

(** A block smaller than a page shares its page with the next boundary and can
    never be freed: the attempt makes the transaction abort. *)
Theorem small_block_cannot_be_freed :
  let s := (run_ops 5 [OpAlloc 101 8; OpSettle false 4; OpSnapshot 4; OpFree 0] (0, 0) sample_file).2 in
  a_threads s !! 5 = Some (mk_tstate 4 [] [] true).
Proof. vm_compute. reflexivity. Qed.

(** Freeing a page-aligned offset at which no block starts dereferences NULL. *)
Theorem free_of_unrecorded_page_faults : (sivfs_free_block (rich 102) 5 1 4096 sample_allocated).1 = Fault.
Proof. vm_compute. reflexivity. Qed.
