(* ===== verification/AllocAlign.v ===== *)
(** Blocks consist of whole words: no operation of the block allocator, whether
    it succeeds or not, makes a chunk that starts inside a word, so that all
    blocks the allocator hands out have a size in words
    (kern/alloc/sivfs_allocation.c). *)
From S2P Require Import Prelude Types RadixTree Alloc AllocLayout AllocInv AllocBlock AllocFile.

Definition word_aligned (a : Z) : Prop := a mod SIZEOF_WORD = 0.
Definition aligned (s : astate) : Prop := forall c k, a_chunks s !! c = Some k -> word_aligned (k_start k).

(** ** Accesses *)

Create HintDb align.

Lemma aligned_ret {A} (x : A) : keeps aligned (ret x).
Proof. by intros s. Qed.
Lemma aligned_throw {A} e : keeps aligned (@throw astate A e).
Proof. by intros s. Qed.
Lemma aligned_lift {A} (r : res A) : keeps aligned (@lift astate A r).
Proof. by intros s. Qed.
Lemma aligned_gets {A} (f : astate -> A) : keeps aligned (gets f).
Proof. by intros s. Qed.
Lemma aligned_load_info a : keeps aligned (load_info a).
Proof. by intros s. Qed.
Lemma aligned_load_thread t : keeps aligned (load_thread t).
Proof. by intros s. Qed.
Lemma aligned_store_info a i : keeps aligned (store_info a i).
Proof. by intros s. Qed.
Lemma aligned_store_thread t x : keeps aligned (store_thread t x).
Proof. by intros s. Qed.

Lemma aligned_store_chunk c k : word_aligned (k_start k) -> keeps aligned (store_chunk c k).
Proof. intros Hk s Hs c' k'. cbn. rewrite lookup_insert. case_decide; [by intros [= <-]|apply Hs]. Qed.

(** What is loaded is aligned. *)
Lemma aligned_load_chunk {A} c (f : sivfs_alloc_chunk -> M astate A) :
  (forall k, word_aligned (k_start k) -> keeps aligned (f k)) -> keeps aligned (let! k := load_chunk c in f k).
Proof.
  intros Hf s Hs. unfold bind, load_chunk. destruct (a_chunks s !! c) as [k|] eqn:E; [|done]. apply Hf; [|done]. by apply (Hs c).
Qed.

Lemma aligned_bind {A B} (m : M astate A) (f : A -> M astate B) : keeps aligned m -> (forall x, keeps aligned (f x)) -> keeps aligned (bind m f).
Proof. apply keeps_bind. Qed.

Lemma aligned_del_bestfit c : keeps aligned (list_del_bestfit c).
Proof. intros s Hs. unfold list_del_bestfit. by destruct (in_bestfit_node c s). Qed.
Lemma aligned_del_to_free c : keeps aligned (list_del_to_free c).
Proof. intros s Hs. unfold list_del_to_free. by destruct (in_free_node c s). Qed.

#[export] Hint Resolve aligned_ret aligned_throw aligned_lift aligned_gets aligned_load_info aligned_load_thread aligned_store_info
  aligned_store_thread aligned_store_chunk aligned_del_bestfit aligned_del_to_free : align.
#[export] Hint Extern 1 (word_aligned _) => first [assumption | reflexivity] : align.

(** One step of a proof that an operation keeps [aligned]. *)
Ltac align_step :=
  match goal with
  | |- keeps aligned (bind (load_chunk _) _) => apply aligned_load_chunk; intros ? ?
  | |- keeps aligned (bind _ _) => apply aligned_bind; [|intros ?]
  | |- keeps aligned (on_error _ _) => apply keeps_on_error
  | |- keeps aligned (if ?b then _ else _) => destruct b
  | |- keeps aligned (match ?x with _ => _ end) => destruct x
  | |- keeps aligned (let '(_, _) := ?x in _) => destruct x
  | |- keeps aligned _ => solve [eauto with align]
  end.
Ltac align := cbv zeta; repeat align_step.

Lemma aligned_add_bestfit c a : keeps aligned (list_add_bestfit c a).
Proof. intros s. unfold list_add_bestfit. destruct (in_bestfit_node c s); [done|]. revert s. change (keeps aligned (let! i := load_info a in store_info a (with_bestfit (c :: ai_bestfit i) i))). align. Qed.
Lemma aligned_add_allocated c t : keeps aligned (list_add_allocated c t).
Proof. intros s. unfold list_add_allocated. destruct (in_bestfit_node c s); [done|]. revert s. change (keeps aligned (let! x := load_thread t in store_thread t (with_allocated (c :: t_allocated_chunks x) x))). align. Qed.
Lemma aligned_add_to_free c t : keeps aligned (list_add_to_free c t).
Proof. intros s. unfold list_add_to_free. destruct (in_free_node c s); [done|]. revert s. change (keeps aligned (let! x := load_thread t in store_thread t (with_to_free (c :: t_chunks_to_free x) x))). align. Qed.

Lemma aligned_put_chunk c : keeps aligned (sivfs_put_alloc_chunk c).
Proof.
  intros s Hs. unfold sivfs_put_alloc_chunk. destruct (c =? 0); [done|]. destruct (a_chunks s !! c); [|done].
  intros c' k' Hk. cbn in Hk. apply lookup_delete_Some in Hk as [_ Hk]. by apply (Hs c').
Qed.
#[export] Hint Resolve aligned_add_bestfit aligned_add_allocated aligned_add_to_free aligned_put_chunk : align.

(** ** Operations *)

Lemma aligned_load_pginfo a p : keeps aligned (load_pginfo a p).
Proof. unfold load_pginfo. align. Qed.
Lemma aligned_store_pginfo a p g : keeps aligned (store_pginfo a p g).
Proof. unfold store_pginfo. align. Qed.
Lemma aligned_get_pginfo ev a off : keeps aligned (sivfs_alloc_get_pginfo ev a off).
Proof. unfold sivfs_alloc_get_pginfo. align. Qed.
Lemma aligned_new_chunk km a : keeps aligned (sivfs_new_alloc_chunk km a).
Proof. unfold sivfs_new_alloc_chunk. align. Qed.
Lemma aligned_should_abort t : keeps aligned (set_should_abort t).
Proof. unfold set_should_abort. align. Qed.
#[export] Hint Resolve aligned_load_pginfo aligned_store_pginfo aligned_get_pginfo aligned_new_chunk aligned_should_abort : align.

Lemma aligned_first_fit l n ts : forall w, keeps aligned (first_fit l n ts w).
Proof. induction l as [|c l IH]; intros w; cbn [first_fit]; align. Qed.

Lemma aligned_sum a b : word_aligned a -> word_aligned b -> word_aligned (uadd a b).
Proof.
  unfold word_aligned, uadd, u64. intros Ha Hb. rewrite Z.mod_mod_divide by by exists (2 ^ 61).
  by rewrite Z.add_mod, Ha, Hb.
Qed.

Lemma aligned_split ev a c n : word_aligned n -> keeps aligned (split_chunk ev a c n).
Proof. intros Hn. unfold split_chunk. align. apply aligned_store_chunk. by apply aligned_sum. Qed.
#[export] Hint Resolve aligned_first_fit aligned_split : align.

Lemma aligned_alloc_block ev t a n : keeps aligned (sivfs_alloc_block ev t a n).
Proof.
  unfold sivfs_alloc_block. destruct (_ <? _); [align|]. destruct (Z.eqb_spec (n mod SIZEOF_WORD) 0) as [Hn|]; cbn [negb]; align.
Qed.
Lemma aligned_free_block ev t a off : keeps aligned (sivfs_free_block ev t a off).
Proof. unfold sivfs_free_block. align. Qed.

Lemma aligned_next ev budget c a : keeps aligned (sivfs_coalesce_with_next ev budget c a).
Proof. unfold sivfs_coalesce_with_next. align. Qed.
#[export] Hint Resolve aligned_alloc_block aligned_free_block aligned_next : align.
Lemma aligned_prev ev budget c a : keeps aligned (sivfs_coalesce_with_prev ev budget c a).
Proof. unfold sivfs_coalesce_with_prev. align. Qed.
#[export] Hint Resolve aligned_prev : align.

Lemma aligned_next_loop ev : forall fuel budget c a, keeps aligned (coalesce_next_loop ev fuel budget c a).
Proof. induction fuel as [|fuel IH]; intros; cbn [coalesce_next_loop]; align. Qed.
Lemma aligned_prev_loop ev : forall fuel budget c a, keeps aligned (coalesce_prev_loop ev fuel budget c a).
Proof. induction fuel as [|fuel IH]; intros; cbn [coalesce_prev_loop]; align. Qed.
#[export] Hint Resolve aligned_next_loop aligned_prev_loop : align.

Lemma aligned_free_core ev c ts : keeps aligned (_sivfs_free_block ev c ts).
Proof. unfold _sivfs_free_block. align. Qed.

Lemma aligned_each (body : Z -> M astate unit) l : (forall c, keeps aligned (body c)) -> keeps aligned (for_each_chunk body l).
Proof. intros Hb. induction l as [|c l IH]; cbn [for_each_chunk]; align. Qed.
Lemma aligned_as_einval m : keeps aligned m -> keeps aligned (as_einval m).
Proof. intros Hm s Hs. specialize (Hm s Hs). unfold as_einval. by destruct (m s) as [[] ?]. Qed.
Lemma aligned_abort_free c : keeps aligned (abort_free c).
Proof. unfold abort_free. align. Qed.
#[export] Hint Resolve aligned_free_core aligned_each aligned_as_einval aligned_abort_free : align.

Lemma aligned_settle ev t b ts : keeps aligned (sivfs_allocation_on_commit ev t b ts).
Proof.
  unfold sivfs_allocation_on_commit, _sivfs_allocation_on_abort, _sivfs_allocation_on_commit. destruct b; align; apply aligned_each; intros; align.
Qed.

(** ** Creation *)

Lemma aligned_new_info km : keeps aligned (sivfs_new_allocator_info km).
Proof. unfold sivfs_new_allocator_info. align. Qed.
Lemma aligned_recover ev a b : keeps aligned (sivfs_alloc_info_recover ev a b).
Proof. unfold sivfs_alloc_info_recover. align. Qed.
Lemma aligned_put_slots l : keeps aligned (put_slots l).
Proof. induction l as [|[p g] l IH]; cbn [put_slots]; align. Qed.
#[export] Hint Resolve aligned_new_info aligned_recover aligned_put_slots : align.
Lemma aligned_destroy : forall fuel a, keeps aligned (destroy_pginfos fuel a).
Proof. induction fuel as [|fuel IH]; intros a; cbn [destroy_pginfos]; align. Qed.
#[export] Hint Resolve aligned_destroy : align.
Lemma aligned_put_info a : keeps aligned (sivfs_put_allocator_info a).
Proof. unfold sivfs_put_allocator_info, sivfs_destroy_allocator_info. align. by intros s. Qed.
#[export] Hint Resolve aligned_put_info : align.
Lemma aligned_get_info km ev i race : keeps aligned (sivfs_iinfo_get_alloc_info km ev i race).
Proof. unfold sivfs_iinfo_get_alloc_info. align. Qed.
#[export] Hint Resolve aligned_settle aligned_get_info : align.

(** ** Sizes *)

Lemma tiles_next ch a l c : forall pos pos', tiles ch a pos l pos' -> c ∈ l ->
  exists k, ch !! c = Some k /\ (k_start k + k_size k = pos' \/ exists d kd, ch !! d = Some kd /\ k_start kd = k_start k + k_size k).
Proof.
  induction l as [|d l IH]; intros pos pos'; cbn [tiles]; [by intros _ ?%not_elem_of_nil|].
  intros (k & Hk & _ & Hs & _ & _ & Ht) [->|Hc]%elem_of_cons; [|by apply (IH _ _ Ht)]. exists k. split; [done|].
  destruct l as [|d' l]; cbn [tiles] in Ht; [left; lia|right]. destruct Ht as (k' & Hk' & _ & Hs' & _). exists d', k'. split; [done|lia].
Qed.

(** A block ends where the next one starts. *)
Lemma block_size_words s c k : alloc_inv s -> aligned s -> a_chunks s !! c = Some k -> k_size k <> SIZE_MINUS_ONE -> word_aligned (k_size k).
Proof.
  intros Hinv Hal Hc Hz. destruct (ai_owner _ Hinv c k Hc) as [i Hi]. destruct (ai_files _ Hinv _ _ Hi) as (_ & l & w & Hlo).
  destruct (lo_tiles _ _ _ _ _ Hlo) as (e & _ & Ht & (kw & Hkw & _ & Hsw & _ & Hzw & _)). pose proof (lo_all _ _ _ _ _ Hlo c k Hc eq_refl) as Hin.
  apply elem_of_app in Hin as [Hin| ->%list_elem_of_singleton]; [|congruence].
  destruct (tiles_next _ _ _ _ _ _ Ht Hin) as (k' & Hk' & Hnext). assert (k' = k) as -> by congruence.
  assert (Hend : exists d kd, a_chunks s !! d = Some kd /\ k_start kd = k_start k + k_size k) by (destruct Hnext as [He|]; [exists w, kw; split; [done|lia]|done]).
  destruct Hend as (d & kd & Hd & Es). pose proof (Hal d kd Hd) as Ad. pose proof (Hal c k Hc) as Ac. unfold word_aligned in *.
  rewrite Es, Z.add_mod, Ac, Z.add_0_l, Z.mod_mod in Ad by done. exact Ad.
Qed.

Lemma alloc_step_aligned s s' : aligned s -> alloc_step s s' -> aligned s'.
Proof.
  intros Hs [km ev race r s1 _ _ E|t ts _|ev a t n r s1 _ _ _ _ _ E|ev a i t off r s1 _ _ _ _ _ E|ev t ab ts r s1 _ E].
  - change s1 with (r, s1).2. rewrite <- E. by apply aligned_get_info.
  - exact Hs.
  - change s1 with (r, s1).2. rewrite <- E. by apply aligned_alloc_block.
  - change s1 with (r, s1).2. rewrite <- E. by apply aligned_free_block.
  - change s1 with (r, s1).2. rewrite <- E. by apply aligned_settle.
Qed.

Lemma reachable_aligned s : reachable alloc_init alloc_step s -> aligned s.
Proof. apply invariant_reachable; [intros s0 ->; intros c k Hk; discriminate Hk|apply alloc_step_aligned]. Qed.
