(* ===== verification/Workingset.v ===== *)
(** A transaction's working set (kern/sivfs_workingset.h, kern/sivfs_workingset.c,
    kern/sivfs_mm.h, kern/sivfs_mm.c): per file, the private pages in the page
    cache of its anonymous inode and the checkpoint pages that are mapped in.

    The page cache and the page tables are the kernel's, so they are an
    interface: [PageCache] lists the operations used and what can be observed,
    [PageCacheLaws] what the kernel documents of them; [pagecache_gmap] shows
    that the interface can be met. *)
From S2P Require Import Prelude Types RadixTree Writeset Log LogView PageTree MakeCheckpoint.

(** A page of the cache, whether it is marked as a checkpoint page, and PageUptodate. *)
Record wspage : Type := mk_wspage {
  wp_words : page;
  wp_checkpoint : bool;
  wp_uptodate : bool
}.
Definition set_words (w : page) (p : wspage) : wspage := mk_wspage w (wp_checkpoint p) (wp_uptodate p).

Class PageCache (T : Type) : Type := {
  find_get_page : T -> Z -> option wspage;
  (** the checkpoint page that the page tables of the task hold for a page of the file *)
  mapped_page : T -> Z -> option Z;
  (** the page table entry that the kernel makes of the page a fault returns *)
  map_page : T -> Z -> Z -> T;
  unmap_mapping_range : T -> Z -> Z -> T;
  (** a store through kmap *)
  page_store : T -> Z -> wspage -> T;
  (** [lstart], [lend]: bytes, the end included *)
  truncate_inode_pages_range : T -> Z -> Z -> T;
  (** the indices of page_tree, ascending *)
  page_tree_indices : T -> list Z
}.

Class PageCacheLaws (T : Type) `{PageCache T} : Prop := {
  pc_store m i p j : 0 <= i < 2 ^ 51 -> find_get_page (page_store m i p) j = if decide (i = j) then Some p else find_get_page m j;
  pc_store_mapped m i p j : mapped_page (page_store m i p) j = mapped_page m j;
  pc_map m i v j : 0 <= i < 2 ^ 51 -> mapped_page (map_page m i v) j = if decide (i = j) then Some v else mapped_page m j;
  pc_map_page m i v j : find_get_page (map_page m i v) j = find_get_page m j;
  pc_unmap m f s j : f mod PAGE_SIZE = 0 -> s mod PAGE_SIZE = 0 ->
    mapped_page (unmap_mapping_range m f s) j = if decide (f <= j * PAGE_SIZE < f + s) then None else mapped_page m j;
  pc_unmap_page m f s j : find_get_page (unmap_mapping_range m f s) j = find_get_page m j;
  pc_unmap_sub m f s j v : mapped_page (unmap_mapping_range m f s) j = Some v -> mapped_page m j = Some v;
  pc_truncate_mapped m a b j : mapped_page (truncate_inode_pages_range m a b) j = mapped_page m j;
  pc_mapped_range m j v : mapped_page m j = Some v -> 0 <= j < 2 ^ 51;
  pc_truncate m a b j : a mod PAGE_SIZE = 0 -> (b + 1) mod PAGE_SIZE = 0 ->
    find_get_page (truncate_inode_pages_range m a b) j
    = if decide (a <= j * PAGE_SIZE <= b) then None else find_get_page m j;
  pc_indices m i : i ∈ page_tree_indices m <-> is_Some (find_get_page m i);
  pc_indices_nodup m : NoDup (page_tree_indices m);
  pc_indices_range m i : i ∈ page_tree_indices m -> 0 <= i < 2 ^ 51
}.

(** A page cache and the entries of the page tables as finite maps. *)
Record mappings : Type := mk_mappings {
  mp_pages : gmap Z wspage;
  mp_ptes : gmap Z Z
}.

#[export] Instance pagecache_gmap : PageCache mappings := {
  find_get_page m i := if decide (0 <= i < 2 ^ 51) then mp_pages m !! i else None;
  mapped_page m i := if decide (0 <= i < 2 ^ 51) then mp_ptes m !! i else None;
  map_page m i v := mk_mappings (mp_pages m) (<[i := v]> (mp_ptes m));
  unmap_mapping_range m f s := mk_mappings (mp_pages m) (filter (fun iv : Z * Z => ~ (f <= iv.1 * PAGE_SIZE < f + s)) (mp_ptes m));
  page_store m i p := mk_mappings (<[i := p]> (mp_pages m)) (mp_ptes m);
  truncate_inode_pages_range m a b := mk_mappings (filter (fun ip : Z * wspage => ~ (a <= ip.1 * PAGE_SIZE <= b)) (mp_pages m)) (mp_ptes m);
  page_tree_indices m := filter (fun i => 0 <= i < 2 ^ 51) (map_items (mp_pages m)).*1
}.

Lemma lookup_filter_keys {A} (P : Z * A -> Prop) `{forall x, Decision (P x)} (Q : Z -> Prop) `{forall i, Decision (Q i)} (m : gmap Z A) j :
  (forall x, P x <-> ~ Q x.1) -> filter P m !! j = if decide (Q j) then None else m !! j.
Proof.
  intros HPQ. case_decide as E.
  - apply map_lookup_filter_None. right. by intros x _ []%HPQ.
  - destruct (m !! j) as [p|] eqn:Ej; [|apply map_lookup_filter_None; by left]. apply map_lookup_filter_Some. split; [done|by apply HPQ].
Qed.

#[export] Instance pagecache_gmap_laws : PageCacheLaws mappings.
Proof.
  split; intros [m t]; intros *; cbn [find_get_page mapped_page map_page unmap_mapping_range page_store truncate_inode_pages_range page_tree_indices pagecache_gmap mp_pages mp_ptes].
  - intros Hi. rewrite lookup_insert. destruct (decide (i = j)) as [<-|]; [by rewrite decide_True|done].
  - done.
  - intros Hi. rewrite lookup_insert. destruct (decide (i = j)) as [<-|]; [by rewrite decide_True|done].
  - done.
  - intros _ _. rewrite (lookup_filter_keys _ (fun j => f <= j * PAGE_SIZE < f + s)) by done. by destruct (decide (0 <= j < 2 ^ 51)), (decide _).
  - done.
  - case_decide; [|done]. by intros [? _]%map_lookup_filter_Some.
  - done.
  - by case_decide.
  - intros _ _. rewrite (lookup_filter_keys _ (fun j => a <= j * PAGE_SIZE <= b)) by done. by destruct (decide (0 <= j < 2 ^ 51)), (decide _).
  - rewrite list_elem_of_filter, list_elem_of_fmap. split.
    + intros [Hi ([i' p] & -> & Hin)]. rewrite decide_True by done. apply elem_of_map_items in Hin. by eexists.
    + destruct (decide (0 <= i < 2 ^ 51)) as [Hi|]; [|by intros [? ?]]. intros [p Hp]. split; [done|]. exists (i, p). split; [done|]. by apply elem_of_map_items.
  - apply NoDup_filter, map_items_nodup.
  - intros [Hi _]%list_elem_of_filter. done.
Qed.

Definition SIVFS_EVICT_CHECKPOINT : Z := 2.
Definition SIVFS_NO_INVALIDATE_CPS : Z := 4.
(** [SIVFS_FIGURE_WORKINGSET_HARDLIMIT_PLUS_ONE == 1]. *)
Definition SIVFS_FIGURE_WORKINGSET_HARDLIMIT_PLUS_ONE : Z := -1.
Definition SIVFS_TRACK_CLEAR_WORKINGSET_EVERY_TXN : bool := SIVFS_FIGURE_WORKINGSET_HARDLIMIT_PLUS_ONE =? 1.

(** The fields of [struct sivfs_inode_info] for an anonymous inode. *)
Record anon_iinfo : Type := mk_aiinfo {
  an_checkpoint_pages : gmap Z Z;
  an_checkpoint_checked_out : bool
}.

(** The values stored in a kernel radix tree. *)
Definition is_pointer (v : Z) : Prop := v <> 0 /\ v <> SIVFS_RADIX_TREE_TOMBSTONE.
#[export] Instance is_pointer_dec v : Decision (is_pointer v).
Proof. unfold is_pointer. apply _. Defined.

Section workingset.
Context {T : Type} `{PageCache T}.

Record anon_inode : Type := mk_anon {
  an_mapping : T;
  an_iinfo : option anon_iinfo
}.

(** [anon_inodes], by backing inode number. *)
Notation workingset := (gmap Z anon_inode).

Definition set_mapping (m : T) (a : anon_inode) : anon_inode := mk_anon m (an_iinfo a).
Definition set_iinfo (i : anon_iinfo) (a : anon_inode) : anon_inode := mk_anon (an_mapping a) (Some i).

Definition put_anon (ino : Z) (a : anon_inode) : M workingset unit := modify (fun ws => <[ino := a]> ws).

(** ** Unmapping *)

Definition sivfs_unmap_page_range (foffset size : Z) (mapping : T) : T :=
  if size =? 0 then mapping
  else truncate_inode_pages_range (unmap_mapping_range mapping foffset size) (PAGE_ROUND_DOWN foffset) (usub (PAGE_ROUND_UP (uadd foffset size)) 1).

(** Batches of 16 pages until none is left. *)
Fixpoint unmap_batches (fuel : nat) (mapping : T) : res T :=
  match fuel with
  | O => OutOfFuel
  | S fuel =>
    match take 16 (page_tree_indices mapping) with
    | [] => Ok mapping
    | indices =>
      unmap_batches fuel (foldl (fun m index => sivfs_unmap_page_range (u64 (Z.shiftl index PAGE_SHIFT)) PAGE_SIZE m) mapping indices)
    end
  end.

Definition sivfs_unmap_mapping_workingset (mapping : T) : res T :=
  unmap_batches (S (length (page_tree_indices mapping))) mapping.

(** The checkpoint pages: tombstones are skipped. *)
Fixpoint unmap_cp_batches (fuel : nat) (mapping : T) (tree : gmap Z Z) : res (T * gmap Z Z) :=
  match fuel with
  | O => OutOfFuel
  | S fuel =>
    match take 16 (filter (fun iv : Z * Z => iv.2 <> SIVFS_RADIX_TREE_TOMBSTONE) (map_items tree)).*1 with
    | [] => Ok (mapping, tree)
    | indices =>
      unmap_cp_batches fuel
        (foldl (fun m index => sivfs_unmap_page_range (u64 (Z.shiftl index PAGE_SHIFT)) PAGE_SIZE m) mapping indices)
        (foldr delete tree indices)
    end
  end.

Definition sivfs_unmap_mapping (a : anon_inode) : res anon_inode :=
  let? mapping := sivfs_unmap_mapping_workingset (an_mapping a) in
  let? iinfo := deref (an_iinfo a) in
  let? r := unmap_cp_batches (S (size (an_checkpoint_pages iinfo))) mapping (an_checkpoint_pages iinfo) in
  let '(mapping, tree) := r in
  Ok (mk_anon mapping (Some (mk_aiinfo tree (an_checkpoint_checked_out iinfo)))).

(** ** Finding a page *)

(** The page, if one is cached; NULL otherwise. *)
Definition sivfs_find_get_wspg (backing_ino offset flags : Z) : M workingset (option wspage) := fun ws =>
  let pgoff := Z.shiftr offset PAGE_SHIFT in
  match ws !! backing_ino with
  | None => (Ok None, ws)
  | Some anon =>
    match an_iinfo anon with
    | None => (Err EINVAL, ws)
    | Some _ =>
      let evict := negb (Z.land flags SIVFS_EVICT_CHECKPOINT =? 0) in
      let unmap := fun m => sivfs_unmap_page_range (PAGE_ROUND_DOWN offset) PAGE_SIZE m in
      (let! anon :=
         match an_iinfo anon with
         | Some i =>
           if an_checkpoint_checked_out i then
             if evict then
               let a := mk_anon (unmap (an_mapping anon)) (Some (mk_aiinfo (an_checkpoint_pages i) false)) in
               do! put_anon backing_ino a in ret a
             else throw EINVAL
           else ret anon
         | None => ret anon
         end in
       let! anon :=
         match an_iinfo anon with
         | Some i =>
           match an_checkpoint_pages i !! pgoff with
           | Some checkpoint_page =>
             if decide (is_pointer checkpoint_page) then
               if evict then
                 let a := mk_anon (unmap (an_mapping anon))
                            (Some (mk_aiinfo (delete pgoff (an_checkpoint_pages i)) (an_checkpoint_checked_out i))) in
                 do! put_anon backing_ino a in ret a
               else throw EINVAL
             else ret anon
           | None => ret anon
           end
         | None => ret anon
         end in
       ret (find_get_page (an_mapping anon) pgoff)) ws
    end
  end.

(** ** Invalidating *)

(** Every page that the log entry writes to, also when it is aborted. *)
Definition sivfs_invalidate_workingset_log (logent : sivfs_log_entry) : M workingset unit :=
  ws_walk (le_ws logent) (fun ent _ =>
    let buf := ws_entries (le_ws logent) in
    let! ino := lift (rd buf ent) in
    let! file_offset := lift (rd buf (ent + 1)) in
    let! anon := gets (fun ws : workingset => ws !! ino) in
    do! (match anon with
         | Some a => put_anon ino (set_mapping (sivfs_unmap_page_range (PAGE_ROUND_DOWN file_offset) PAGE_SIZE (an_mapping a)) a)
         | None => ret tt
         end) in
    ret Continue).

(** One anonymous inode after the other. *)
Fixpoint invalidate_inodes (options : Z) (l : list (Z * anon_inode)) : M workingset unit :=
  match l with
  | [] => ret tt
  | (ino, a) :: l =>
    if SIVFS_TRACK_CLEAR_WORKINGSET_EVERY_TXN then throw EINVAL
    else
      let! a' := lift (if negb (Z.land options SIVFS_NO_INVALIDATE_CPS =? 0)
                       then let? m := sivfs_unmap_mapping_workingset (an_mapping a) in Ok (set_mapping m a)
                       else sivfs_unmap_mapping a) in
      do! put_anon ino a' in
      invalidate_inodes options l
  end.

Definition sivfs_invalidate_workingset (options : Z) : M workingset unit :=
  let! l := gets (fun ws : workingset => map_items ws) in
  invalidate_inodes options l.

(** ** Applying a log entry *)

Definition _sivfs_apply_log_entry_workingset (log : sivfs_log_entry) : M workingset unit :=
  if le_aborted log then ret tt
  else
    ws_walk (le_ws log) (fun ent _ =>
      let buf := ws_entries (le_ws log) in
      let! ino := lift (rd buf ent) in
      let! file_offset := lift (rd buf (ent + 1)) in
      let! pg := sivfs_find_get_wspg ino file_offset SIVFS_EVICT_CHECKPOINT in
      match pg with
      | None => ret Continue
      | Some p =>
        if wp_checkpoint p then throw EINVAL
        else
          let! value := lift (rd buf (ent + 4)) in
          let! mem := lift (sivfs_apply_ws_ent_pg file_offset value (wp_words p)) in
          let! anon := gets (fun ws : workingset => ws !! ino) in
          do! (match anon with
               | Some a => put_anon ino (set_mapping (page_store (an_mapping a) (Z.shiftr file_offset PAGE_SHIFT) (set_words mem p)) a)
               | None => ret tt
               end) in
          ret Continue
      end).

Definition sivfs_apply_logs_workingset (st : log_state) (log ts_stop ts_skip : Z) : M workingset unit :=
  let! e := lift (deref (ls_ents st !! log)) in
  if ts_stop <? le_ts e then throw EINVAL
  else
    log_iter (log_fuel (le_ts e) ts_stop) (ls_ents st) true (fun clog =>
      do! (if le_ts clog =? ts_skip then ret tt else _sivfs_apply_log_entry_workingset clog) in
      ret Continue) ts_stop log.
End workingset.
Arguments anon_inode T : clear implicits.
Arguments mk_anon {T} _ _.

(** ** What a working set shows *)

Section views.
Context {T : Type} `{PageCacheLaws T}.
Notation workingset := (gmap Z (anon_inode T)).

(** The private page [pg] of file [ino], the checkpoint page mapped there, and
    the entry of the tree checkpoint_pages. *)
Definition cached (ws : workingset) (ino pg : Z) : option wspage :=
  ws !! ino ≫= fun a => find_get_page (an_mapping a) pg.
Definition mapped (ws : workingset) (ino pg : Z) : option Z :=
  ws !! ino ≫= fun a => mapped_page (an_mapping a) pg.
Definition tracked (ws : workingset) (ino pg : Z) : option Z :=
  ws !! ino ≫= fun a => an_iinfo a ≫= fun i => an_checkpoint_pages i !! pg ≫= fun v => if decide (is_pointer v) then Some v else None.

(** Mapped checkpoint pages are tracked, no tracked page is cached; whole
    checkpoints are not checked out (SIVFS_FIGURE_NO_CHECKOUT_CPS). *)
Record ws_ok (ws : workingset) : Prop := {
  wo_iinfo : forall ino a, ws !! ino = Some a -> exists i, an_iinfo a = Some i /\ an_checkpoint_checked_out i = false;
  wo_page : forall ino a pg p, ws !! ino = Some a -> find_get_page (an_mapping a) pg = Some p -> wp_checkpoint p = false;
  wo_tracked : forall ino pg, is_Some (mapped ws ino pg) -> is_Some (tracked ws ino pg);
  wo_excl : forall ino pg, is_Some (tracked ws ino pg) -> cached ws ino pg = None
}.

Lemma cached_insert ws ino a i g : cached (<[ino := a]> ws) i g =
  if decide (ino = i) then find_get_page (an_mapping a) g else cached ws i g.
Proof. unfold cached. rewrite lookup_insert. by case_decide. Qed.

Lemma mapped_insert ws ino a i g : mapped (<[ino := a]> ws) i g =
  if decide (ino = i) then mapped_page (an_mapping a) g else mapped ws i g.
Proof. unfold mapped. rewrite lookup_insert. by case_decide. Qed.

Lemma tracked_insert ws ino a i g : tracked (<[ino := a]> ws) i g =
  if decide (ino = i) then an_iinfo a ≫= fun j => an_checkpoint_pages j !! g ≫= fun v => if decide (is_pointer v) then Some v else None
  else tracked ws i g.
Proof. unfold tracked. rewrite lookup_insert. by case_decide. Qed.

(** Unmapping the page of an offset. *)
Lemma unmap_page off (m : T) j : 0 <= off < 2 ^ 63 ->
  find_get_page (sivfs_unmap_page_range (PAGE_ROUND_DOWN off) PAGE_SIZE m) j
    = (if decide (j = off / PAGE_SIZE) then None else find_get_page m j) /\
  mapped_page (sivfs_unmap_page_range (PAGE_ROUND_DOWN off) PAGE_SIZE m) j
    = if decide (j = off / PAGE_SIZE) then None else mapped_page m j.
Proof.
  intros Ho. assert (Hq : 0 <= off / 4096 < 2 ^ 51) by (split; [apply Z.div_pos; lia|apply Z.div_lt_upper_bound; lia]).
  assert (Hr : forall q, 0 <= q < 2 ^ 51 -> PAGE_ROUND_DOWN (q * 4096) = q * 4096 /\ PAGE_ROUND_UP (q * 4096) = q * 4096).
  { intros q Hq'. unfold PAGE_ROUND_UP, PAGE_ROUND_DOWN, PAGE_SIZE. rewrite (uadd_small _ 4096), (usub_small _ 1) by u64_lia.
    rewrite Z.div_mul by done. assert (E : (q * 4096 + 4096 - 1) / 4096 = q) by (symmetry; apply (Z.div_unique _ _ _ 4095); lia).
    rewrite E, umul_small by u64_lia. done. }
  assert (Hd : PAGE_ROUND_DOWN off = off / 4096 * 4096) by (unfold PAGE_ROUND_DOWN, PAGE_SIZE; rewrite umul_small; [done|u64_lia]).
  unfold sivfs_unmap_page_range. change (PAGE_SIZE =? 0) with false. cbv iota. unfold PAGE_SIZE. rewrite Hd. set (q := off / 4096) in *.
  destruct (Hr q Hq) as [Hr1 _]. rewrite (uadd_small _ 4096) by u64_lia. replace (q * 4096 + 4096) with ((q + 1) * 4096) by lia.
  assert (Hr2 : PAGE_ROUND_UP ((q + 1) * 4096) = (q + 1) * 4096).
  { destruct (decide (q + 1 < 2 ^ 51)); [apply Hr; lia|]. assert (q = 2 ^ 51 - 1) as -> by lia. reflexivity. }
  rewrite Hr1, Hr2, usub_small by u64_lia. split.
  2: { rewrite pc_truncate_mapped, pc_unmap by (unfold PAGE_SIZE; by rewrite ?Z.mod_mul). unfold PAGE_SIZE. repeat case_decide; try done; lia. }
  rewrite pc_truncate, pc_unmap_page; unfold PAGE_SIZE.
  - repeat case_decide; try done; lia.
  - by rewrite Z.mod_mul.
  - replace ((q + 1) * 4096 - 1 + 1) with ((q + 1) * 4096) by lia. by rewrite Z.mod_mul.
Qed.

(** What finding a page does: a checkpoint page mapped there goes away. *)
Record found (ws ws' : workingset) (ino pg : Z) (r : option wspage) : Prop := {
  fo_ok : ws_ok ws';
  fo_dom : forall i, is_Some (ws' !! i) <-> is_Some (ws !! i);
  fo_cached : forall i g, cached ws' i g = cached ws i g;
  fo_mapped : forall i g, mapped ws' i g = if decide (i = ino /\ g = pg) then None else mapped ws i g;
  fo_tracked : forall i g, tracked ws' i g = if decide (i = ino /\ g = pg) then None else tracked ws i g;
  fo_result : match r with
              | Some p => wp_checkpoint p = false /\ exists a, ws' !! ino = Some a /\ find_get_page (an_mapping a) pg = Some p
              | None => cached ws ino pg = None
              end
}.

(** Evicting the checkpoint page at an offset. *)
Definition evict_page (off : Z) (i : anon_iinfo) (a : anon_inode T) : anon_inode T :=
  mk_anon (sivfs_unmap_page_range (PAGE_ROUND_DOWN off) PAGE_SIZE (an_mapping a))
    (Some (mk_aiinfo (delete (off / PAGE_SIZE) (an_checkpoint_pages i)) (an_checkpoint_checked_out i))).

Lemma evict_found ws ino off a i v : ws_ok ws -> 0 <= off < 2 ^ 63 -> ws !! ino = Some a -> an_iinfo a = Some i ->
  an_checkpoint_pages i !! (off / PAGE_SIZE) = Some v -> is_pointer v ->
  found ws (<[ino := evict_page off i a]> ws) ino (off / PAGE_SIZE) None /\ find_get_page (an_mapping (evict_page off i a)) (off / PAGE_SIZE) = None.
Proof.
  intros Hok Ho Ea Hi Ev Hv. destruct (wo_iinfo _ Hok _ _ Ea) as (i0 & Hi0 & Hco). rewrite Hi in Hi0. injection Hi0 as <-.
  set (a' := evict_page off i a).
  pose proof (unmap_page off (an_mapping a)) as Hum.
  assert (Hm : is_Some (tracked ws ino (off / PAGE_SIZE))).
  { unfold tracked. rewrite Ea. simpl. rewrite Hi. simpl. rewrite Ev. simpl. by rewrite decide_True. }
  pose proof (wo_excl _ Hok _ _ Hm) as Hnc.
  assert (Hca : forall j g, cached (<[ino := a']> ws) j g = cached ws j g).
  { intros j g. rewrite cached_insert. case_decide as E; [subst j|done]. cbn [a' evict_page an_mapping]. rewrite (proj1 (Hum g Ho)).
    case_decide as E; [subst g; by rewrite Hnc|]. unfold cached. by rewrite Ea. }
  assert (Hmp : forall j g, mapped (<[ino := a']> ws) j g = if decide (j = ino /\ g = off / PAGE_SIZE) then None else mapped ws j g).
  { intros j g. rewrite mapped_insert. destruct (decide (ino = j)) as [<-|Hne].
    - cbn [a' evict_page an_mapping]. rewrite (proj2 (Hum g Ho)). destruct (decide (g = off / PAGE_SIZE)) as [->|].
      + by rewrite decide_True.
      + rewrite decide_False by naive_solver. unfold mapped. by rewrite Ea.
    - by rewrite decide_False by naive_solver. }
  assert (Hma : forall j g, tracked (<[ino := a']> ws) j g = if decide (j = ino /\ g = off / PAGE_SIZE) then None else tracked ws j g).
  { intros j g. rewrite tracked_insert. destruct (decide (ino = j)) as [<-|Hne].
    - cbn [a' evict_page an_iinfo]. cbn [mbind option_bind an_checkpoint_pages]. rewrite lookup_delete. destruct (decide (off / PAGE_SIZE = g)) as [<-|].
      + by rewrite decide_True.
      + rewrite decide_False by naive_solver. unfold tracked. rewrite Ea. simpl. by rewrite Hi.
    - by rewrite decide_False by naive_solver. }
  split; [|cbn [a' evict_page an_mapping]; rewrite (proj1 (Hum _ Ho)); by rewrite decide_True].
  split; try done.
  + split.
    * intros j b. rewrite lookup_insert. case_decide; [intros [= <-]; by eexists|apply Hok].
    * intros j b g p. rewrite lookup_insert. case_decide; [intros [= <-]|apply Hok]. cbn [a' evict_page an_mapping]. rewrite (proj1 (Hum g Ho)).
      case_decide; [done|by apply (wo_page _ Hok ino a)].
    * intros j g. rewrite Hma, Hmp. case_decide; [by intros [? ?]|apply Hok].
    * intros j g. rewrite Hma, Hca. case_decide; [by intros [? ?]|apply Hok].
  + intros j. rewrite lookup_insert. case_decide; [subst j; rewrite Ea; split; intros; by eexists|done].
Qed.

Lemma find_wspg_ok ws ino off : ws_ok ws -> 0 <= off < 2 ^ 63 ->
  exists r ws', sivfs_find_get_wspg ino off SIVFS_EVICT_CHECKPOINT ws = (Ok r, ws') /\ found ws ws' ino (off / PAGE_SIZE) r.
Proof.
  intros Hok Ho. unfold sivfs_find_get_wspg.
  assert (Hsh : Z.shiftr off PAGE_SHIFT = off / PAGE_SIZE) by (by rewrite Z.shiftr_div_pow2).
  rewrite Hsh. destruct (ws !! ino) as [a|] eqn:Ea.
  2: { exists None, ws. split; [done|]. split; try done.
    - intros i g. case_decide as E; [|done]. destruct E as [-> ->]. unfold mapped. by rewrite Ea.
    - intros i g. case_decide as E; [|done]. destruct E as [-> ->]. unfold tracked. by rewrite Ea.
    - unfold cached. by rewrite Ea. }
  destruct (wo_iinfo _ Hok _ _ Ea) as (i & Hi & Hco). rewrite Hi, Hco. rewrite (bind_step (ret a) _ ws a ws eq_refl). rewrite Hi.
  assert (Hplain : (forall v, an_checkpoint_pages i !! (off / PAGE_SIZE) = Some v -> ~ is_pointer v) ->
    found ws ws ino (off / PAGE_SIZE) (find_get_page (an_mapping a) (off / PAGE_SIZE))).
  { intros Hn. assert (Hnt : tracked ws ino (off / PAGE_SIZE) = None).
    { unfold tracked. rewrite Ea. simpl. rewrite Hi. simpl.
      destruct (an_checkpoint_pages i !! _) as [v|]; [|done]. simpl. rewrite decide_False; [done|]. by apply Hn. }
    split; try done.
    - intros j g. case_decide as E; [|done]. destruct E as [-> ->]. apply eq_None_not_Some. intros Hs%(wo_tracked _ Hok). rewrite Hnt in Hs. by destruct Hs.
    - intros j g. case_decide as E; [|done]. by destruct E as [-> ->].
    - destruct (find_get_page _ _) as [p|] eqn:Ep; [|unfold cached; rewrite Ea; simpl; by rewrite Ep].
      split; [by eapply (wo_page _ Hok)|by exists a]. }
  destruct (an_checkpoint_pages i !! (off / PAGE_SIZE)) as [v|] eqn:Ev; [destruct (decide (is_pointer v)) as [Hv|Hv]|].
  - cbn [SIVFS_EVICT_CHECKPOINT]. change (negb (Z.land SIVFS_EVICT_CHECKPOINT SIVFS_EVICT_CHECKPOINT =? 0)) with true. cbv iota.
    set (a' := mk_anon _ _). rewrite bind_assoc, (bind_step (put_anon ino a') _ ws tt (<[ino := a']> ws) eq_refl).
    rewrite (bind_step (ret a') _ (<[ino := a']> ws) a' (<[ino := a']> ws) eq_refl).
    destruct (evict_found ws ino off a i v Hok Ho Ea Hi Ev Hv) as [Hf Hg]. fold (evict_page off i a) in a'.
    exists None, (<[ino := a']> ws). split; [exact (f_equal (fun x => (Ok x, _)) Hg)|exact Hf].
  - rewrite (bind_step (ret a) _ ws a ws eq_refl). eexists _, ws. split; [reflexivity|]. apply Hplain. by intros v' [= <-].
  - rewrite (bind_step (ret a) _ ws a ws eq_refl). eexists _, ws. split; [reflexivity|]. by apply Hplain.
Qed.
(** ** Applying writes *)

Definition touches (ino pg : Z) (w : Z * Z * Z) : bool := let '(i, off, _) := w in (ino =? i) && (pg =? off / PAGE_SIZE).
(** A write to one word, on the page [pg] of file [ino]. *)
Definition page_upd (ino pg : Z) (p : page) (w : Z * Z * Z) : page :=
  if touches ino pg w then <[Z.to_nat (w.1.2 mod PAGE_SIZE / SIZEOF_WORD) := w.2]> p else p.

Lemma write_word_page w m ino pg : write_word w m ino pg = page_upd ino pg (m ino pg) w.
Proof. by destruct w as [[i off] v]. Qed.

Lemma write_words_page l : forall m ino pg, foldl (fun m w => write_word w m) m l ino pg = foldl (page_upd ino pg) (m ino pg) l.
Proof. induction l as [|w l IH]; intros m ino pg; [done|]. cbn [foldl]. by rewrite IH, write_word_page. Qed.

(** Private pages get the writes; checkpoint pages that are written to go away. *)
Record written (ws ws' : workingset) (l : list (Z * Z * Z)) : Prop := {
  wr_ok : ws_ok ws';
  wr_dom : forall i, is_Some (ws' !! i) <-> is_Some (ws !! i);
  wr_cached : forall ino pg, cached ws' ino pg = (fun p => set_words (foldl (page_upd ino pg) (wp_words p) l) p) <$> cached ws ino pg;
  wr_mapped : forall ino pg, mapped ws' ino pg = if existsb (touches ino pg) l then None else mapped ws ino pg
}.

Lemma written_nil ws : ws_ok ws -> written ws ws [].
Proof. intros. split; try done. intros. by destruct (cached ws ino pg) as [[]|]. Qed.

Lemma written_trans ws1 ws2 ws3 l1 l2 : written ws1 ws2 l1 -> written ws2 ws3 l2 -> written ws1 ws3 (l1 ++ l2).
Proof.
  intros [_ D1 C1 M1] [O2 D2 C2 M2]. split; [done| | |].
  - intros i. by rewrite D2.
  - intros ino pg. rewrite C2, C1. destruct (cached ws1 ino pg) as [p|]; [|done]. simpl. by rewrite foldl_app.
  - intros ino pg. rewrite M2, M1, existsb_app. destruct (existsb _ l1), (existsb _ l2); done.
Qed.

Definition apply_write (w : Z * Z * Z) : M workingset wstep :=
  let '(ino, file_offset, value) := w in
  let! pg := sivfs_find_get_wspg ino file_offset SIVFS_EVICT_CHECKPOINT in
  match pg with
  | None => ret Continue
  | Some p =>
    if wp_checkpoint p then throw EINVAL
    else
      let! mem := lift (sivfs_apply_ws_ent_pg file_offset value (wp_words p)) in
      let! anon := gets (fun ws : workingset => ws !! ino) in
      do! (match anon with
           | Some a => put_anon ino (set_mapping (page_store (an_mapping a) (Z.shiftr file_offset PAGE_SHIFT) (set_words mem p)) a)
           | None => ret tt
           end) in
      ret Continue
  end.

Definition offset_ok (w : Z * Z * Z) : Prop := 0 <= w.1.2 < 2 ^ 63 /\ w.1.2 mod SIZEOF_WORD = 0.

Lemma aligned_in_page off : 0 <= off -> off mod SIZEOF_WORD = 0 -> off mod PAGE_SIZE mod SIZEOF_WORD = 0.
Proof.
  unfold PAGE_SIZE, SIZEOF_WORD. intros Hz Ha. rewrite (Z.mod_eq off 4096) by done. rewrite Zminus_mod, Ha.
  replace (4096 * (off / 4096)) with (off / 4096 * 512 * 8) by lia. by rewrite Z.mod_mul.
Qed.

(** A private page is put where no checkpoint page is tracked. *)
Record stored (ws ws' : workingset) (ino pg : Z) (p : wspage) : Prop := {
  so_ok : ws_ok ws';
  so_dom : forall i, is_Some (ws' !! i) <-> is_Some (ws !! i);
  so_cached : forall i g, cached ws' i g = if decide (i = ino /\ g = pg) then Some p else cached ws i g;
  so_mapped : forall i g, mapped ws' i g = mapped ws i g;
  so_tracked : forall i g, tracked ws' i g = tracked ws i g
}.

Lemma store_private_ok ws ino a pg p : ws_ok ws -> ws !! ino = Some a -> tracked ws ino pg = None -> wp_checkpoint p = false -> 0 <= pg < 2 ^ 51 ->
  stored ws (<[ino := set_mapping (page_store (an_mapping a) pg p) a]> ws) ino pg p.
Proof.
  intros Hok Ha Htn Hcp Hpg. set (a' := set_mapping _ a).
  assert (Hc : forall i g, cached (<[ino := a']> ws) i g = if decide (i = ino /\ g = pg) then Some p else cached ws i g).
  { intros i g. rewrite cached_insert. destruct (decide (ino = i)) as [<-|Hne].
    - cbn [a' set_mapping an_mapping]. rewrite pc_store by done. destruct (decide (pg = g)) as [<-|].
      + by rewrite decide_True.
      + rewrite decide_False by naive_solver. unfold cached. by rewrite Ha.
    - by rewrite decide_False by naive_solver. }
  assert (Hm : forall i g, mapped (<[ino := a']> ws) i g = mapped ws i g).
  { intros i g. rewrite mapped_insert. case_decide as E'; [subst i|done]. unfold mapped. rewrite Ha. apply pc_store_mapped. }
  assert (Ht : forall i g, tracked (<[ino := a']> ws) i g = tracked ws i g).
  { intros i g. rewrite tracked_insert. case_decide as E'; [subst i|done]. unfold tracked. by rewrite Ha. }
  split; [split| |exact Hc|exact Hm|exact Ht].
  - intros i b. rewrite lookup_insert. case_decide; [intros [= <-]; apply (wo_iinfo _ Hok ino a Ha)|apply Hok].
  - intros i b g q. rewrite lookup_insert. case_decide; [intros [= <-]|apply Hok]. cbn [a' set_mapping an_mapping]. rewrite pc_store by done.
    case_decide; [by intros [= <-]|by apply (wo_page _ Hok ino a)].
  - intros i g. rewrite Hm, Ht. apply Hok.
  - intros i g. rewrite Ht, Hc. intros Hs. case_decide as E'; [|by apply Hok]. destruct E' as [-> ->]. rewrite Htn in Hs. by destruct Hs.
  - intros i. rewrite lookup_insert. case_decide; [subst i; rewrite Ha; split; intros; by eexists|done].
Qed.

Lemma apply_write_ok w ws : ws_ok ws -> offset_ok w -> exists ws', apply_write w ws = (Ok Continue, ws') /\ written ws ws' [w].
Proof.
  destruct w as [[ino off] v]. intros Hok [Ho Ha]. cbn [fst snd] in *. unfold apply_write.
  destruct (find_wspg_ok ws ino off Hok Ho) as (r & ws1 & E & F). rewrite (bind_step _ _ _ _ _ E).
  destruct F as [Ok1 Dom1 Ca1 Ma1 _ R1]. destruct r as [p|].
  - destruct R1 as (Hcp & a & Hws & Hp). rewrite Hcp. unfold sivfs_apply_ws_ent_pg. rewrite aligned_in_page, Z.eqb_refl by (done || lia).
    set (mem := <[_ := v]> (wp_words p)). rewrite (bind_step (lift (Ok mem)) _ ws1 mem ws1 eq_refl).
    rewrite (bind_step (gets _) _ ws1 (ws1 !! ino) ws1 eq_refl), Hws.
    rewrite Z.shiftr_div_pow2 by done. change (2 ^ PAGE_SHIFT) with PAGE_SIZE. set (a' := set_mapping _ a).
    rewrite (bind_step (put_anon ino a') _ ws1 tt (<[ino := a']> ws1) eq_refl). eexists. split; [reflexivity|].
    assert (Hpg : 0 <= off / PAGE_SIZE < 2 ^ 51) by (unfold PAGE_SIZE; split; [apply Z.div_pos; lia|apply Z.div_lt_upper_bound; lia]).
    assert (Hch : cached ws1 ino (off / PAGE_SIZE) = Some p) by (unfold cached; rewrite Hws; exact Hp).
    assert (Htn : tracked ws1 ino (off / PAGE_SIZE) = None).
    { apply eq_None_not_Some. intros Hs. rewrite (wo_excl _ Ok1 _ _ Hs) in Hch. done. }
    destruct (store_private_ok ws1 ino a (off / PAGE_SIZE) (set_words mem p) Ok1 Hws Htn Hcp Hpg) as [So Sd Sc Sm _]. fold a' in So, Sd, Sc, Sm.
    split; [exact So| | |].
    + intros i. by rewrite Sd, Dom1.
    + intros i g. rewrite Sc, <- Ca1. cbn [foldl]. unfold page_upd, touches. cbn [fst snd]. case_decide as E'.
      * destruct E' as [-> ->]. by rewrite Hch, !Z.eqb_refl.
      * destruct (Z.eqb_spec i ino), (Z.eqb_spec g (off / PAGE_SIZE)); try (destruct E'; done); by destruct (cached ws1 i g) as [[]|].
    + intros i g. rewrite Sm, Ma1. cbn [existsb touches]. rewrite orb_false_r.
      destruct (Z.eqb_spec i ino), (Z.eqb_spec g (off / PAGE_SIZE)), (decide (i = ino /\ g = off / PAGE_SIZE)); naive_solver.
  - eexists. split; [reflexivity|]. split; [done|done| |].
    + intros i g. rewrite Ca1. cbn [foldl]. unfold page_upd, touches. cbn [fst snd].
      destruct (Z.eqb_spec i ino) as [->|]; [|by destruct (cached ws i g) as [[]|]]. destruct (Z.eqb_spec g (off / PAGE_SIZE)) as [->|]; [by rewrite R1|by destruct (cached ws ino g) as [[]|]].
    + intros i g. rewrite Ma1. cbn [existsb touches]. rewrite orb_false_r.
      destruct (Z.eqb_spec i ino), (Z.eqb_spec g (off / PAGE_SIZE)), (decide (i = ino /\ g = off / PAGE_SIZE)); naive_solver.
Qed.

Lemma apply_writes_ok {A} (f : A -> Z * Z * Z) l : forall ws, ws_ok ws -> Forall offset_ok (f <$> l) ->
  exists ws', foldM (fun a => apply_write (f a)) l ws = (Ok tt, ws') /\ written ws ws' (f <$> l).
Proof.
  induction l as [|a l IH]; intros ws Hok Hf; [exists ws; split; [done|by apply written_nil]|].
  rewrite fmap_cons in Hf |- *. apply Forall_cons in Hf as [Ha Hf]. cbn [foldM].
  destruct (apply_write_ok (f a) ws Hok Ha) as (ws1 & E1 & W1). rewrite (bind_step _ _ _ _ _ E1).
  destruct (IH ws1 (wr_ok _ _ _ W1) Hf) as (ws2 & E2 & W2). exists ws2. split; [done|]. exact (written_trans _ _ _ [f a] _ W1 W2).
Qed.

Lemma apply_entry_ok e es ws : ws_repr (le_ws e) es -> ws_ok ws -> Forall offset_ok (entry_writes e) ->
  exists ws', _sivfs_apply_log_entry_workingset e ws = (Ok tt, ws') /\ written ws ws' (entry_writes e).
Proof.
  intros Hr Hok Hf. unfold _sivfs_apply_log_entry_workingset. rewrite (entry_writes_repr _ _ Hr) in *.
  destruct (le_aborted e); [exists ws; split; [done|by apply written_nil]|].
  destruct (apply_writes_ok wse_write es ws Hok Hf) as (ws' & E & W). exists ws'. split; [|done].
  rewrite <- E. apply (ws_walk_encoded _ _ _ _ _ Hr). intros i w s Hb _. cbn beta zeta.
  destruct (rd_fields _ _ _ Hb) as (-> & -> & _ & ->). done.
Qed.

(** The writes of a sequence of log entries, but those of the entry at [ts_skip]. *)
Definition writes_but (ts_skip : Z) (l : list sivfs_log_entry) : list (Z * Z * Z) :=
  l ≫= fun e => if le_ts e =? ts_skip then [] else entry_writes e.

Lemma apply_entries_ok skip l : forall ws, Forall (fun e => exists es, ws_repr (le_ws e) es) l -> ws_ok ws ->
  Forall offset_ok (writes_but skip l) ->
  exists ws', foldM (fun clog => do! (if le_ts clog =? skip then ret tt else _sivfs_apply_log_entry_workingset clog) in ret Continue) l ws
    = (Ok tt, ws') /\ written ws ws' (writes_but skip l).
Proof.
  induction l as [|e l IH]; intros ws Hr Hok Hf; [exists ws; split; [done|by apply written_nil]|].
  apply Forall_cons in Hr as [[es Hr] Hrl]. unfold writes_but in *. rewrite bind_cons in Hf |- *. apply Forall_app in Hf as [He Hf].
  cbn [foldM]. assert (E1 : exists ws1, (do! (if le_ts e =? skip then ret tt else _sivfs_apply_log_entry_workingset e) in ret Continue) ws
    = (Ok Continue, ws1) /\ written ws ws1 (if le_ts e =? skip then [] else entry_writes e)).
  { destruct (le_ts e =? skip); [exists ws; split; [done|by apply written_nil]|].
    destruct (apply_entry_ok e es ws Hr Hok He) as (ws1 & E1 & W1). exists ws1. split; [by rewrite (bind_step _ _ _ _ _ E1)|done]. }
  destruct E1 as (ws1 & E1 & W1). rewrite (bind_step _ _ _ _ _ E1).
  destruct (IH ws1 Hrl (wr_ok _ _ _ W1) Hf) as (ws2 & E2 & W2). exists ws2. split; [done|]. by eapply written_trans.
Qed.

(** Bringing a working set forward over the log entries from [t] on. *)
Lemma apply_logs_ok st lo n t stop skip p ws : log_view st lo n -> lo <= t -> t <= stop <= n -> ls_cache st !! t = Some p -> ws_ok ws ->
  Forall offset_ok (writes_but skip (log_slice st t (Z.to_nat (stop + 1 - t)))) ->
  exists ws', sivfs_apply_logs_workingset st p stop skip ws = (Ok tt, ws') /\
    written ws ws' (writes_but skip (log_slice st t (Z.to_nat (stop + 1 - t)))).
Proof.
  intros Hv Hlo Hs Hp Hok Hf. unfold sivfs_apply_logs_workingset.
  destruct (lv_ent _ _ _ Hv _ _ Hp) as (e & He & Hts & _). rewrite He. rewrite (bind_step (lift (deref (Some e))) _ ws e ws eq_refl).
  rewrite Hts, (proj2 (Z.ltb_ge _ _)) by lia. set (k := Z.to_nat (stop - t)).
  replace (Z.to_nat (stop + 1 - t)) with (1 + k)%nat in * by lia.
  rewrite (log_iter_slice _ _ _ Hv _ _ stop k t) by (unfold log_fuel, k; done || lia).
  apply apply_entries_ok; [|done|done]. apply (view_slice_repr st lo n t (1 + k) Hv Hlo). unfold k. lia.
Qed.
(** ** Invalidating what a transaction wrote *)

Record dropped (ws ws' : workingset) (l : list (Z * Z * Z)) : Prop := {
  dr_ok : ws_ok ws';
  dr_dom : forall i, is_Some (ws' !! i) <-> is_Some (ws !! i);
  dr_cached : forall ino pg, cached ws' ino pg = if existsb (touches ino pg) l then None else cached ws ino pg;
  dr_mapped : forall ino pg, mapped ws' ino pg = if existsb (touches ino pg) l then None else mapped ws ino pg
}.

Definition drop_write (w : Z * Z * Z) : M workingset wstep :=
  let! anon := gets (fun ws : workingset => ws !! w.1.1) in
  do! (match anon with
       | Some a => put_anon w.1.1 (set_mapping (sivfs_unmap_page_range (PAGE_ROUND_DOWN w.1.2) PAGE_SIZE (an_mapping a)) a)
       | None => ret tt
       end) in
  ret Continue.

Lemma drop_write_ok w ws : ws_ok ws -> offset_ok w -> exists ws', drop_write w ws = (Ok Continue, ws') /\ dropped ws ws' [w].
Proof.
  destruct w as [[ino off] v]. intros Hok [Ho _]. cbn [fst snd] in Ho. unfold drop_write. cbn [fst snd].
  rewrite (bind_step (gets _) _ ws (ws !! ino) ws eq_refl).
  assert (Ht : forall i g, existsb (touches i g) [(ino, off, v)] = bool_decide (i = ino /\ g = off / PAGE_SIZE)).
  { intros i g. cbn [existsb touches]. rewrite orb_false_r. destruct (Z.eqb_spec i ino), (Z.eqb_spec g (off / PAGE_SIZE)); symmetry;
      [by apply bool_decide_eq_true_2|apply bool_decide_eq_false_2; naive_solver..]. }
  destruct (ws !! ino) as [a|] eqn:Ea.
  - set (a' := set_mapping _ a). rewrite (bind_step (put_anon ino a') _ ws tt (<[ino := a']> ws) eq_refl). eexists. split; [reflexivity|].
    pose proof (fun j => unmap_page off (an_mapping a) j Ho) as Hum.
    assert (Hc : forall i g, cached (<[ino := a']> ws) i g = if existsb (touches i g) [(ino, off, v)] then None else cached ws i g).
    { intros i g. rewrite cached_insert, Ht. destruct (decide (ino = i)) as [<-|Hne].
      - cbn [a' set_mapping an_mapping]. rewrite (proj1 (Hum _)). unfold cached. rewrite Ea. cbn [mbind option_bind].
        case_bool_decide as E; case_decide; try done; [by destruct E|by destruct E].
      - rewrite bool_decide_eq_false_2; [done|]. naive_solver. }
    assert (Hm : forall i g, mapped (<[ino := a']> ws) i g = if existsb (touches i g) [(ino, off, v)] then None else mapped ws i g).
    { intros i g. rewrite mapped_insert, Ht. destruct (decide (ino = i)) as [<-|Hne].
      - cbn [a' set_mapping an_mapping]. rewrite (proj2 (Hum _)). unfold mapped. rewrite Ea. cbn [mbind option_bind].
        case_bool_decide as E; case_decide; try done; [by destruct E|by destruct E].
      - rewrite bool_decide_eq_false_2; [done|]. naive_solver. }
    assert (Htr : forall i g, tracked (<[ino := a']> ws) i g = tracked ws i g).
    { intros i g. rewrite tracked_insert. case_decide as E; [subst i|done]. unfold tracked. by rewrite Ea. }
    split; [split| |exact Hc|exact Hm].
    + intros i b. rewrite lookup_insert. case_decide; [intros [= <-]; apply (wo_iinfo _ Hok ino a Ea)|apply Hok].
    + intros i b g q. rewrite lookup_insert. case_decide; [intros [= <-]|apply Hok]. cbn [a' set_mapping an_mapping]. rewrite (proj1 (Hum _)).
      case_decide; [done|by apply (wo_page _ Hok ino a)].
    + intros i g. rewrite Hm, Htr. destruct (existsb _ _); [by intros [? ?]|apply Hok].
    + intros i g. rewrite Htr, Hc. intros Hs. by destruct (existsb _ _); [|apply Hok].
    + intros i. rewrite lookup_insert. case_decide; [subst i; rewrite Ea; split; intros; by eexists|done].
  - eexists. split; [reflexivity|]. split; try done; intros i g; rewrite Ht; (case_bool_decide as E; [|done]); destruct E as [-> ->]; unfold cached, mapped; by rewrite Ea.
Qed.

Lemma invalidate_log_ok e es ws : ws_repr (le_ws e) es -> ws_ok ws -> Forall offset_ok (wse_write <$> es) ->
  exists ws', sivfs_invalidate_workingset_log e ws = (Ok tt, ws') /\ dropped ws ws' (wse_write <$> es).
Proof.
  intros Hr Hok Hf. unfold sivfs_invalidate_workingset_log.
  rewrite (ws_walk_encoded _ es _ (fun w => drop_write (wse_write w)) ws Hr).
  2: { intros i w s Hb _. cbn beta zeta. destruct (rd_fields _ _ _ Hb) as (-> & -> & _). done. }
  clear Hr. revert ws Hok. induction es as [|w es IH]; intros ws Hok; [exists ws; by split|].
  rewrite fmap_cons in Hf |- *. apply Forall_cons in Hf as [Hw Hf]. cbn [foldM].
  destruct (drop_write_ok (wse_write w) ws Hok Hw) as (ws1 & E1 & [O1 D1 C1 M1]). rewrite (bind_step _ _ _ _ _ E1).
  destruct (IH Hf ws1 O1) as (ws2 & E2 & [O2 D2 C2 M2]). exists ws2. split; [done|]. split; [done| | |].
  - intros i. by rewrite D2.
  - intros ino pg. rewrite C2, C1. cbn [existsb]. rewrite orb_false_r. by destruct (touches ino pg (wse_write w)), (existsb _ _).
  - intros ino pg. rewrite M2, M1. cbn [existsb]. rewrite orb_false_r. by destruct (touches ino pg (wse_write w)), (existsb _ _).
Qed.

(** ** Invalidating everything *)

Lemma unmap_index i (m : T) j : 0 <= i < 2 ^ 51 ->
  find_get_page (sivfs_unmap_page_range (u64 (Z.shiftl i PAGE_SHIFT)) PAGE_SIZE m) j = (if decide (j = i) then None else find_get_page m j) /\
  mapped_page (sivfs_unmap_page_range (u64 (Z.shiftl i PAGE_SHIFT)) PAGE_SIZE m) j = if decide (j = i) then None else mapped_page m j.
Proof.
  intros Hi. assert (E : u64 (Z.shiftl i PAGE_SHIFT) = PAGE_ROUND_DOWN (i * 4096)).
  { rewrite Z.shiftl_mul_pow2 by done. unfold PAGE_ROUND_DOWN, PAGE_SIZE. change (2 ^ PAGE_SHIFT) with 4096.
    by rewrite Z.div_mul, umul_small, u64_small by (done || u64_lia). }
  rewrite E. destruct (unmap_page (i * 4096) m j ltac:(lia)) as [-> ->]. unfold PAGE_SIZE. by rewrite Z.div_mul.
Qed.

Definition unmap_indices (l : list Z) (m : T) : T :=
  foldl (fun m i => sivfs_unmap_page_range (u64 (Z.shiftl i PAGE_SHIFT)) PAGE_SIZE m) m l.

Lemma unmap_list l : forall (m : T) j, (forall i, i ∈ l -> 0 <= i < 2 ^ 51) ->
  find_get_page (unmap_indices l m) j = (if decide (j ∈ l) then None else find_get_page m j) /\
  mapped_page (unmap_indices l m) j = if decide (j ∈ l) then None else mapped_page m j.
Proof.
  induction l as [|i l IH]; intros m j Hl; [by destruct (decide (j ∈ [])) as [?%not_elem_of_nil|]|]. unfold unmap_indices in *. cbn [foldl].
  destruct (IH (sivfs_unmap_page_range (u64 (Z.shiftl i PAGE_SHIFT)) PAGE_SIZE m) j ltac:(intros; apply Hl; by right)) as [-> ->].
  destruct (unmap_index i m j ltac:(apply Hl; left)) as [-> ->].
  destruct (decide (j ∈ l)); [by rewrite !decide_True by by right|]. destruct (decide (j = i)) as [->|]; [by rewrite !decide_True by left|].
  rewrite !decide_False; [done|..]; by intros [?|?]%elem_of_cons.
Qed.

Lemma unmap_only_removes f sz (m : T) j : find_get_page m j = None -> find_get_page (sivfs_unmap_page_range f sz m) j = None.
Proof.
  intros Hj. unfold sivfs_unmap_page_range. destruct (sz =? 0); [done|]. assert (Hd : forall x, PAGE_ROUND_DOWN x mod PAGE_SIZE = 0).
  { intros x. unfold PAGE_ROUND_DOWN, PAGE_SIZE, umul, u64. change two64 with (4096 * 2 ^ 52). rewrite Z.mul_comm, Zmult_mod_distr_l, Z.mul_comm. by apply Z.mod_mul. }
  rewrite pc_truncate; [rewrite pc_unmap_page; by case_decide|apply Hd|]. unfold usub, u64, PAGE_ROUND_UP. set (x := PAGE_ROUND_DOWN _).
  pose proof (Hd (usub (uadd (uadd f sz) PAGE_SIZE) 1) : x mod PAGE_SIZE = 0) as Hx. unfold PAGE_SIZE in *.
  pose proof (Z.div_mod x 4096 ltac:(done)) as Ex. rewrite Hx in Ex. rewrite Ex. change two64 with (4096 * 2 ^ 52).
  rewrite (Z.mod_eq (_ - 1) (4096 * 2 ^ 52)) by done. set (K := (_ - 1) / _). change (2 ^ 52) with 4503599627370496.
  replace (_ - _ + 1) with ((x / 4096 - 4503599627370496 * K) * 4096) by lia. by rewrite Z.mod_mul.
Qed.

Lemma unmap_sub f sz (m : T) j v : mapped_page (sivfs_unmap_page_range f sz m) j = Some v -> mapped_page m j = Some v.
Proof. unfold sivfs_unmap_page_range. destruct (sz =? 0); [done|]. rewrite pc_truncate_mapped. apply pc_unmap_sub. Qed.

Lemma unmap_list_removes l : forall (m : T) j, find_get_page m j = None -> find_get_page (unmap_indices l m) j = None.
Proof. unfold unmap_indices. induction l as [|i l IH]; intros m j Hj; [done|]. cbn [foldl]. by apply IH, unmap_only_removes. Qed.

Lemma unmap_list_sub l : forall (m : T) j v, mapped_page (unmap_indices l m) j = Some v -> mapped_page m j = Some v /\ j ∉ l.
Proof.
  unfold unmap_indices. induction l as [|i l IH]; intros m j v Hj; [split; [done|apply not_elem_of_nil]|]. cbn [foldl] in Hj.
  apply IH in Hj as [Hj Hl]. pose proof (unmap_sub _ _ _ _ _ Hj) as Hm. split; [done|]. apply not_elem_of_cons. split; [|done]. intros ->.
  rewrite (proj2 (unmap_index i m i (pc_mapped_range _ _ _ Hm))), decide_True in Hj; done.
Qed.

(** The loop ends when the page cache is empty; checkpoint pages at other
    indices stay mapped. *)
Lemma unmap_batches_ok fuel : forall m : T, (length (page_tree_indices m) < fuel)%nat ->
  exists m', unmap_batches fuel m = Ok m' /\ (forall j, find_get_page m' j = None) /\
    (forall j, find_get_page m j = None -> mapped_page m' j = mapped_page m j) /\
    forall j v, mapped_page m' j = Some v -> mapped_page m j = Some v.
Proof.
  induction fuel as [|fuel IH]; intros m Hf; [lia|]. cbn [unmap_batches].
  destruct (take 16 (page_tree_indices m)) as [|i l] eqn:E.
  { exists m. split; [done|]. split; [|by split]. intros j. destruct (page_tree_indices m) as [|? ?] eqn:Em; [|done].
    apply eq_None_not_Some. intros Hs. apply pc_indices in Hs. rewrite Em in Hs. by apply not_elem_of_nil in Hs. }
  rewrite <- E. set (b := take 16 (page_tree_indices m)) in *. fold (unmap_indices b m).
  assert (Hb : forall k, k ∈ b -> k ∈ page_tree_indices m) by (intros k Hk; rewrite <- (take_drop 16); apply elem_of_app; by left).
  assert (Hm1 : forall j, find_get_page (unmap_indices b m) j = (if decide (j ∈ b) then None else find_get_page m j) /\
    mapped_page (unmap_indices b m) j = if decide (j ∈ b) then None else mapped_page m j).
  { intros j. apply unmap_list. intros k Hk. by apply (pc_indices_range m), Hb. }
  destruct (IH (unmap_indices b m)) as (m' & Em & Hf' & Hm' & Hs').
  { assert (Hsub : page_tree_indices (unmap_indices b m) ⊆+ drop 16 (page_tree_indices m)).
    { apply NoDup_submseteq; [apply pc_indices_nodup|]. intros j Hj. apply pc_indices in Hj. rewrite (proj1 (Hm1 j)) in Hj.
      destruct (decide (j ∈ b)) as [|Hn]; [by destruct Hj|]. apply pc_indices in Hj. rewrite <- (take_drop 16) in Hj. by apply elem_of_app in Hj as [?|?]. }
    apply submseteq_length in Hsub. rewrite length_drop in Hsub. assert ((0 < length (page_tree_indices m))%nat); [|lia].
    unfold b in E. destruct (page_tree_indices m); [done|]. simpl. lia. }
  exists m'. split; [done|]. split; [done|]. split; [|intros j v Hj%Hs'; by apply unmap_list_sub in Hj as [? _]]. intros j Hj. rewrite Hm', (proj2 (Hm1 j)); [|rewrite (proj1 (Hm1 j)); by case_decide].
  rewrite decide_False; [done|]. intros Hin%Hb%pc_indices. rewrite Hj in Hin. by destruct Hin.
Qed.

Lemma size_foldr_delete l : forall t : gmap Z Z, (forall i, i ∈ l -> is_Some (t !! i)) -> NoDup l -> (size (foldr delete t l) + length l = size t)%nat.
Proof.
  induction l as [|i l IH]; intros t Hl Hn; [simpl; lia|]. apply NoDup_cons in Hn as [Hi Hn]. cbn [foldr length].
  rewrite map_size_delete_Some by (rewrite lookup_foldr_delete_not_elem_of by done; apply Hl; left).
  specialize (IH t ltac:(intros; apply Hl; by right) Hn).
  assert (Hs : size (foldr delete t l) <> 0%nat).
  { intros E%map_size_empty_inv. assert (Hin : foldr delete t l !! i = t !! i) by by rewrite lookup_foldr_delete_not_elem_of.
    rewrite E, lookup_empty in Hin. destruct (Hl i ltac:(left)) as [v Hv]. congruence. }
  lia.
Qed.

Lemma nodup_filter_fst {A B} (P : A * B -> Prop) `{forall x, Decision (P x)} (l : list (A * B)) : NoDup l.*1 -> NoDup (filter P l).*1.
Proof.
  induction l as [|x l IH]; [done|]. rewrite fmap_cons, NoDup_cons, filter_cons. intros [Hx Hl]. case_decide; [|by apply IH].
  rewrite fmap_cons, NoDup_cons. split; [|by apply IH]. intros (y & E & [_ Hy]%list_elem_of_filter)%list_elem_of_fmap. apply Hx. rewrite E.
  apply list_elem_of_fmap. by exists y.
Qed.

Lemma unmap_cp_batches_ok fuel : forall (m : T) t, (size t < fuel)%nat -> (forall j, find_get_page m j = None) ->
  (forall j v, mapped_page m j = Some v -> exists e, t !! j = Some e /\ e <> SIVFS_RADIX_TREE_TOMBSTONE) ->
  exists m' t', unmap_cp_batches fuel m t = Ok (m', t') /\ (forall j, find_get_page m' j = None) /\ (forall j, mapped_page m' j = None) /\ forall i v, t' !! i = Some v -> v = SIVFS_RADIX_TREE_TOMBSTONE.
Proof.
  induction fuel as [|fuel IH]; intros m t Hf Hm Ht; [lia|]. cbn [unmap_cp_batches].
  destruct (take 16 _) as [|i l] eqn:E.
  - assert (Hall : forall i v, t !! i = Some v -> v = SIVFS_RADIX_TREE_TOMBSTONE).
    2: { exists m, t. split; [done|]. split; [done|]. split; [|done]. intros j. destruct (mapped_page m j) as [v|] eqn:Ej; [|done].
         destruct (Ht _ _ Ej) as (e & He & []). by eapply Hall. }
    intros i v Hi. destruct (decide (v = SIVFS_RADIX_TREE_TOMBSTONE)) as [|Hv]; [done|].
    assert (Hin : (i, v) ∈ filter (fun iv : Z * Z => iv.2 <> SIVFS_RADIX_TREE_TOMBSTONE) (map_items t)) by (apply list_elem_of_filter; split; [done|by apply elem_of_map_items]).
    destruct (filter _ _); [by apply not_elem_of_nil in Hin|done].
  - set (b := i :: l) in *. assert (Hb : NoDup b /\ forall k, k ∈ b -> is_Some (t !! k)).
    { rewrite <- E. split.
      - eapply sublist_NoDup; [|apply sublist_take]. apply nodup_filter_fst, map_items_nodup.
      - intros k Hk. assert (Hk' : k ∈ (filter (fun iv : Z * Z => iv.2 <> SIVFS_RADIX_TREE_TOMBSTONE) (map_items t)).*1) by (rewrite <- (take_drop 16); apply elem_of_app; by left).
        apply list_elem_of_fmap in Hk' as ([k' v] & -> & [_ Hin]%list_elem_of_filter). apply elem_of_map_items in Hin. by eexists. }
    destruct Hb as [Hn Hin]. fold (unmap_indices b m). apply IH; [|intros j; by apply unmap_list_removes|].
    2: { intros j v Hj. apply unmap_list_sub in Hj as [Hj Hnb]. destruct (Ht _ _ Hj) as (e & He & Hne). exists e. split; [|done].
         by rewrite lookup_foldr_delete_not_elem_of. }
    pose proof (size_foldr_delete b t Hin Hn). subst b. simpl in *. lia.
Qed.

(** One anonymous inode with all its private pages, and unless [keep] all its
    checkpoint pages, kicked out. *)
Record emptied_inode (keep : bool) (a a' : anon_inode T) : Prop := {
  ed_cached : forall j, find_get_page (an_mapping a') j = None;
  ed_mapped : forall j, mapped_page (an_mapping a') j = if keep then mapped_page (an_mapping a) j else None;
  ed_iinfo : forall i, an_iinfo a = Some i -> exists i', an_iinfo a' = Some i' /\ an_checkpoint_checked_out i' = an_checkpoint_checked_out i /\
    forall pg, an_checkpoint_pages i' !! pg ≫= (fun v => if decide (is_pointer v) then Some v else None)
      = if keep then an_checkpoint_pages i !! pg ≫= (fun v => if decide (is_pointer v) then Some v else None) else None
}.

Definition invalidate_one (options : Z) (a : anon_inode T) : res (anon_inode T) :=
  if negb (Z.land options SIVFS_NO_INVALIDATE_CPS =? 0)
  then let? m := sivfs_unmap_mapping_workingset (an_mapping a) in Ok (set_mapping m a)
  else sivfs_unmap_mapping a.

(** Its mapped pages are tracked and not cached. *)
Definition inode_ok (a : anon_inode T) (i : anon_iinfo) : Prop := forall j v, mapped_page (an_mapping a) j = Some v ->
  find_get_page (an_mapping a) j = None /\ exists e, an_checkpoint_pages i !! j = Some e /\ is_pointer e.

Lemma invalidate_one_ok options a i : an_iinfo a = Some i -> inode_ok a i ->
  exists a', invalidate_one options a = Ok a' /\ emptied_inode (negb (Z.land options SIVFS_NO_INVALIDATE_CPS =? 0)) a a'.
Proof.
  intros Hi Hok. unfold invalidate_one, sivfs_unmap_mapping, sivfs_unmap_mapping_workingset.
  destruct (unmap_batches_ok (S (length (page_tree_indices (an_mapping a)))) (an_mapping a) ltac:(lia)) as (m & -> & Hm & Hk & Hs). cbn [rbind].
  destruct (negb _).
  - eexists. split; [reflexivity|]. split; [done| |intros i' Hi'; by exists i']. intros j. cbn [set_mapping an_mapping].
    destruct (mapped_page (an_mapping a) j) as [v|] eqn:Ej; [rewrite Hk; [done|by apply (Hok j v)]|].
    destruct (mapped_page m j) as [v|] eqn:Em; [|done]. apply Hs in Em. congruence.
  - rewrite Hi. cbn [deref rbind].
    destruct (unmap_cp_batches_ok (S (size (an_checkpoint_pages i))) m (an_checkpoint_pages i) ltac:(lia) Hm) as (m' & t' & -> & Hm' & Hmp' & Ht).
    { intros j v Hj%Hs. destruct (Hok j v Hj) as (_ & e & He & _ & Hne). by exists e. }
    cbn [rbind]. eexists. split; [reflexivity|]. split; [done|exact Hmp'|]. intros i' Hi'. rewrite Hi in Hi'. injection Hi' as <-. eexists. split; [reflexivity|]. split; [done|].
    intros pg. cbn [an_checkpoint_pages]. destruct (t' !! pg) as [v|] eqn:E; [|done]. cbn [mbind option_bind]. rewrite decide_False; [done|].
    rewrite (Ht _ _ E). by intros [_ []].
Qed.

Lemma ws_inode_ok (ws : workingset) ino a i : ws_ok ws -> ws !! ino = Some a -> an_iinfo a = Some i -> inode_ok a i.
Proof.
  intros Hok Ha Hi j v Hj. assert (Hm : is_Some (mapped ws ino j)) by (exists v; unfold mapped; by rewrite Ha).
  pose proof (wo_tracked _ Hok _ _ Hm) as Ht. split.
  - pose proof (wo_excl _ Hok _ _ Ht) as Hc. unfold cached in Hc. rewrite Ha in Hc. exact Hc.
  - destruct Ht as [e He]. unfold tracked in He. rewrite Ha in He. cbn [mbind option_bind] in He. rewrite Hi in He. cbn [mbind option_bind] in He.
    destruct (an_checkpoint_pages i !! j) as [e'|]; [|done]. exists e'. split; [done|]. cbn [mbind option_bind] in He. by case_decide.
Qed.

(** What an invalidation leaves. *)
Record emptied (keep : bool) (ws ws' : workingset) : Prop := {
  em_ok : ws_ok ws';
  em_dom : forall i, is_Some (ws' !! i) <-> is_Some (ws !! i);
  em_cached : forall ino pg, cached ws' ino pg = None;
  em_mapped : forall ino pg, mapped ws' ino pg = if keep then mapped ws ino pg else None
}.

Lemma invalidate_inodes_ok options l : forall ws : workingset, NoDup l.*1 -> (forall ino a, (ino, a) ∈ l -> ws !! ino = Some a /\ exists i, an_iinfo a = Some i /\ inode_ok a i) ->
  exists ws', invalidate_inodes options l ws = (Ok tt, ws') /\ (forall ino, ino ∉ l.*1 -> ws' !! ino = ws !! ino) /\
    forall ino a, (ino, a) ∈ l -> exists a', ws' !! ino = Some a' /\ emptied_inode (negb (Z.land options SIVFS_NO_INVALIDATE_CPS =? 0)) a a'.
Proof.
  induction l as [|[ino a] l IH]; intros ws Hn Hl; [exists ws; split; [done|]; split; [done|]; by intros ? ? ?%not_elem_of_nil|].
  rewrite fmap_cons in Hn. apply NoDup_cons in Hn as [Hi Hn]. cbn [fst] in Hi. destruct (Hl ino a ltac:(left)) as [Ha (i & Hia & Hioi)].
  destruct (invalidate_one_ok options a i Hia Hioi) as (a' & E & He).
  destruct (IH (<[ino := a']> ws) Hn) as (ws' & E' & Hout & Hin).
  { intros ino' b Hb. destruct (Hl ino' b ltac:(by right)) as [Hws Hbi]. split; [|done]. rewrite lookup_insert_ne; [done|].
    intros ->. apply Hi. apply list_elem_of_fmap. by exists (ino', b). }
  exists ws'. split.
  - cbn [invalidate_inodes]. rewrite (eq_refl : SIVFS_TRACK_CLEAR_WORKINGSET_EVERY_TXN = false). fold (invalidate_one options a).
    rewrite E, (bind_step (lift (Ok a')) _ ws a' ws eq_refl). unfold put_anon.
    by rewrite (bind_step (modify _) _ ws tt (<[ino := a']> ws) eq_refl).
  - split.
    + intros ino' Hno. rewrite fmap_cons in Hno. apply not_elem_of_cons in Hno as [Hne Hno]. rewrite Hout by done. by apply lookup_insert_ne, not_eq_sym.
    + intros ino' b [[= -> ->]|Hb]%elem_of_cons; [|by apply Hin]. exists a'. split; [|done]. rewrite Hout by done. apply lookup_insert_eq.
Qed.

Lemma invalidate_workingset_ok options (ws : workingset) : ws_ok ws ->
  exists ws', sivfs_invalidate_workingset options ws = (Ok tt, ws') /\ emptied (negb (Z.land options SIVFS_NO_INVALIDATE_CPS =? 0)) ws ws'.
Proof.
  intros Hok. unfold sivfs_invalidate_workingset. rewrite (bind_step (gets _) _ ws (map_items ws) ws eq_refl).
  destruct (invalidate_inodes_ok options (map_items ws) ws) as (ws' & E & Hout & Hin); [apply map_items_nodup| |].
  { intros ino a Ha%elem_of_map_items. split; [done|]. destruct (wo_iinfo _ Hok _ _ Ha) as (i & Hi & _). exists i. split; [done|]. by apply (ws_inode_ok ws ino). }
  exists ws'. split; [done|]. set (keep := negb _) in *.
  assert (Hin' : forall ino a, ws !! ino = Some a -> exists a', ws' !! ino = Some a' /\ emptied_inode keep a a') by (intros ino a Ha; apply Hin; by apply elem_of_map_items).
  assert (Hnone : forall ino, ws !! ino = None -> ws' !! ino = None).
  { intros ino Hno. rewrite Hout; [done|]. intros ([i a] & -> & Ha%elem_of_map_items)%list_elem_of_fmap. simpl in *. congruence. }
  assert (Hc : forall ino pg, cached ws' ino pg = None).
  { intros ino pg. unfold cached. destruct (ws !! ino) as [a|] eqn:Ea; [|by rewrite Hnone]. destruct (Hin' _ _ Ea) as (a' & -> & He). cbn [mbind option_bind]. by rewrite (ed_cached _ _ _ He). }
  assert (Hmp : forall ino pg, mapped ws' ino pg = if keep then mapped ws ino pg else None).
  { intros ino pg. unfold mapped. destruct (ws !! ino) as [a|] eqn:Ea; [|rewrite Hnone by done; by destruct keep].
    destruct (Hin' _ _ Ea) as (a' & -> & He). cbn [mbind option_bind]. apply He. }
  assert (Htr : forall ino pg, tracked ws' ino pg = if keep then tracked ws ino pg else None).
  { intros ino pg. unfold tracked. destruct (ws !! ino) as [a|] eqn:Ea; [|rewrite Hnone by done; by destruct keep].
    destruct (Hin' _ _ Ea) as (a' & -> & He). cbn [mbind option_bind]. destruct (wo_iinfo _ Hok _ _ Ea) as (i & Hi & _).
    destruct (ed_iinfo _ _ _ He i Hi) as (i' & -> & _ & Hm). rewrite Hi. cbn [mbind option_bind]. by rewrite Hm. }
  assert (Hsome : forall ino a', ws' !! ino = Some a' -> exists a, ws !! ino = Some a /\ emptied_inode keep a a').
  { intros ino a' Ha'. destruct (ws !! ino) as [a|] eqn:Ea; [|rewrite Hnone in Ha'; done]. destruct (Hin' _ _ Ea) as (b & Hb & He). exists a. split; [done|]. congruence. }
  split; [split| |done|].
  - intros ino a' Ha'. destruct (Hsome _ _ Ha') as (a & Ea & He). destruct (wo_iinfo _ Hok _ _ Ea) as (i & Hi & Hco).
    destruct (ed_iinfo _ _ _ He i Hi) as (i' & Hi' & Hc' & _). exists i'. split; [done|congruence].
  - intros ino a' pg p Ha' Hp. destruct (Hsome _ _ Ha') as (a & _ & He). by rewrite (ed_cached _ _ _ He) in Hp.
  - intros ino pg. rewrite Hmp. destruct keep eqn:Ek; [|by intros [? ?]]. rewrite (Htr ino pg). apply (wo_tracked _ Hok).
  - intros ino pg _. apply Hc.
  - intros ino. split; [intros [a' Ha']; destruct (Hsome _ _ Ha') as (a & -> & _); by eexists|intros [a Ha]; destruct (Hin' _ _ Ha) as (a' & -> & _); by eexists].
  - done.
Qed.

(** Without SIVFS_EVICT_CHECKPOINT a page mapped from a checkpoint is an error,
    and nothing changes. *)
Lemma find_wspg_keep ws ino off flags : ws_ok ws -> 0 <= off < 2 ^ 63 -> Z.land flags SIVFS_EVICT_CHECKPOINT = 0 ->
  sivfs_find_get_wspg ino off flags ws =
    (if decide (is_Some (tracked ws ino (off / PAGE_SIZE))) then Err EINVAL else Ok (cached ws ino (off / PAGE_SIZE)), ws).
Proof.
  intros Hok Ho Hfl. unfold sivfs_find_get_wspg, tracked, cached. rewrite Z.shiftr_div_pow2 by done. change (2 ^ PAGE_SHIFT) with PAGE_SIZE.
  rewrite Hfl. cbn [Z.eqb negb]. destruct (ws !! ino) as [a|] eqn:Ea; cbn [mbind option_bind].
  2: { rewrite decide_False; [done|]. by intros [? ?]. }
  destruct (wo_iinfo _ Hok _ _ Ea) as (i & Hi & Hco). rewrite Hi, Hco. cbn [mbind option_bind].
  rewrite (bind_step (ret a) _ ws a ws eq_refl), Hi.
  destruct (an_checkpoint_pages i !! (off / PAGE_SIZE)) as [v|] eqn:Ev; cbn [mbind option_bind].
  - destruct (decide (is_pointer v)); [by rewrite decide_True by eauto|]. rewrite decide_False; [done|]. by intros [? ?].
  - rewrite decide_False; [done|]. by intros [? ?].
Qed.

(** C16. Four operations of a working set, from a well-formed one, in which no
    page is both private and mapped from a checkpoint. Each succeeds, leaves the
    set well-formed, and does exactly this:
    - finding a page with SIVFS_EVICT_CHECKPOINT gives the private page there or
      none, and kicks out only a checkpoint page mapped at that very place;
      without the flag it fails with EINVAL where a checkpoint page is, and
      changes nothing;
    - bringing the set forward over the log puts the committed words, in log
      order, in every private page, and kicks out just the checkpoint pages
      those writes touch;
    - invalidating what a transaction wrote kicks out the pages it touches and no
      other;
    - invalidating everything leaves no private page, and no checkpoint page
      unless it is asked to keep those. *)
Theorem working_set_well_formed (ws : workingset) : ws_ok ws ->
  (forall ino off, 0 <= off < 2 ^ 63 ->
     (exists r ws', sivfs_find_get_wspg ino off SIVFS_EVICT_CHECKPOINT ws = (Ok r, ws') /\ found ws ws' ino (off / PAGE_SIZE) r) /\
     (forall flags, Z.land flags SIVFS_EVICT_CHECKPOINT = 0 -> sivfs_find_get_wspg ino off flags ws =
       (if decide (is_Some (tracked ws ino (off / PAGE_SIZE))) then Err EINVAL else Ok (cached ws ino (off / PAGE_SIZE)), ws))) /\
  (forall st lo n t stop skip p, log_view st lo n -> lo <= t -> t <= stop <= n -> ls_cache st !! t = Some p ->
     Forall offset_ok (writes_but skip (log_slice st t (Z.to_nat (stop + 1 - t)))) ->
     exists ws', sivfs_apply_logs_workingset st p stop skip ws = (Ok tt, ws') /\
       written ws ws' (writes_but skip (log_slice st t (Z.to_nat (stop + 1 - t))))) /\
  (forall e es, ws_repr (le_ws e) es -> Forall offset_ok (wse_write <$> es) ->
     exists ws', sivfs_invalidate_workingset_log e ws = (Ok tt, ws') /\ dropped ws ws' (wse_write <$> es)) /\
  (forall options, exists ws', sivfs_invalidate_workingset options ws = (Ok tt, ws') /\
     emptied (negb (Z.land options SIVFS_NO_INVALIDATE_CPS =? 0)) ws ws').
Proof.
  intros Hok. split_and!.
  - intros ino off Ho. split; [by apply find_wspg_ok|]. intros flags Hf. by apply find_wspg_keep.
  - intros st lo n t stop skip p Hv H1 H2 Hp Hf. by apply (apply_logs_ok st lo n).
  - intros e es Hr Hf. by apply invalidate_log_ok.
  - intros options. by apply invalidate_workingset_ok.
Qed.
End views.
