(* ===== verification/Update.v ===== *)
(** Moving a transaction to a new snapshot and serving its page faults
    (kern/sivfs_commit_update_checkpoints.c): sivfs_add_metadata_to_changes,
    sivfs_update, sivfs_update_direct_access, my_sivfs_commit_update and
    my_sivfs_update_page; sivfs_find_vma of kern/sivfs_mm.c. *)
From S2P Require Import Prelude Types Stack RadixTree Writeset Log LogView Commit PageTree MakeCheckpoint Checkpoints Alloc Workingset.

Definition SIVFS_ABORT_FLAG : Z := Z.shiftl 1 1.
Definition SIVFS_DIRECT_ACCESS : Z := Z.shiftl 1 2.
(** SIVFS_FIGURE_NO_EXTERNAL_CONSISTENCY_TRICKS. *)
Definition SIVFS_FIGURE_EXTERNAL_CONSISTENCY_TRICKS : bool := false.

(** ** Addresses *)

(** A mapping of the process, with the backing inode's number and size. The
    last three: a mapping of no file, of another file system, of another task. *)
Record vma : Type := mk_vma {
  vm_start : Z;
  vm_end : Z;
  vm_pgoff : Z;
  vm_ino : Z;
  vm_size : Z;
  vm_anonymous : bool;
  vm_foreign_sb : bool;
  vm_foreign_state : bool
}.

(** [find_vma]: the kernel's search for the first mapping that ends after an address. *)
Definition sivfs_find_vma (find_vma : Z -> option vma) (start size : Z) (check_sivfs_current : bool) : res vma :=
  let end_ := uadd start size in
  if end_ <? start then Err EINVAL
  else
    match find_vma start with
    | None => Err EINVAL
    | Some v =>
      if (start <? vm_start v) || (vm_end v <? end_) then Err EINVAL
      else if check_sivfs_current && (vm_anonymous v || vm_foreign_sb v || vm_foreign_state v) then Err EINVAL
      else Ok v
    end.

(** ** sivfs_add_metadata_to_changes *)

Definition with_has_metadata (b : bool) (e : sivfs_log_entry) : sivfs_log_entry :=
  mk_le (le_ts e) (le_ws e) (le_aborted e) (le_commit_status_filled_in e) b (le_first_in_chunk e) (le_prev e) (le_next e).

(** [ent->ino], [ent->file_offset]. *)
Definition set_ent_key (ent ino file_offset : Z) (e : sivfs_log_entry) : sivfs_log_entry :=
  with_ws (mk_ws (ws_capacity_bytes (le_ws e)) (ws_size_bytes (le_ws e))
             (<[Z.to_nat (ent + 1) := file_offset]> (<[Z.to_nat ent := ino]> (ws_entries (le_ws e))))) e.

Definition add_metadata_ent (find_vma : Z -> option vma) (ent : Z) : M sivfs_log_entry wstep :=
  let! buf := gets (fun e => ws_entries (le_ws e)) in
  let! target_start := lift (rd buf (ent + 2)) in
  let! v := lift (sivfs_find_vma find_vma target_start SIZEOF_WORD true) in
  if negb (Z.land target_start 7 =? 0) then throw EINVAL
  else
    let file_offset := uadd (usub target_start (vm_start v)) (u64 (Z.shiftl (vm_pgoff v) PAGE_SHIFT)) in
    if vm_size v <=? file_offset then
      do! modify (with_aborted true) in
      ret Break
    else
      do! modify (set_ent_key ent (vm_ino v) file_offset) in
      ret Continue.

Definition sivfs_add_metadata_to_changes (find_vma : Z -> option vma) : M sivfs_log_entry unit :=
  let! log_writeset := gets (fun e => e) in
  if le_ws_has_metadata log_writeset then ret tt
  else
    do! ws_for_each (fun e => ws_entries (le_ws e)) (fun ent _ => add_metadata_ent find_vma ent)
          (ws_fuel (le_ws log_writeset)) 0 (ws_size_bytes (le_ws log_writeset)) in
    let! e := gets (fun e => e) in
    if le_aborted e then ret tt
    else modify (with_has_metadata true).

Section update.
Context {T : Type} `{PageCache T}.

(** The fields of [struct sivfs_state] that say which snapshot the task reads. *)
Record task : Type := mk_task {
  st_ts : Z;
  st_checkpoint : Z;
  st_checkpoint_ts : Z;
  st_prior_checkpoint_ts : Z;
  st_direct_access : bool;
  st_workingset : gmap Z (anon_inode T)
}.

Definition set_ts (t : Z) (s : task) : task :=
  mk_task t (st_checkpoint s) (st_checkpoint_ts s) (st_prior_checkpoint_ts s) (st_direct_access s) (st_workingset s).
Definition set_checkpoint (cp t : Z) (s : task) : task :=
  mk_task (st_ts s) cp t (st_prior_checkpoint_ts s) (st_direct_access s) (st_workingset s).
Definition set_prior_checkpoint_ts (t : Z) (s : task) : task :=
  mk_task (st_ts s) (st_checkpoint s) (st_checkpoint_ts s) t (st_direct_access s) (st_workingset s).
Definition set_direct_access (b : bool) (s : task) : task :=
  mk_task (st_ts s) (st_checkpoint s) (st_checkpoint_ts s) (st_prior_checkpoint_ts s) b (st_workingset s).
Definition set_workingset (ws : gmap Z (anon_inode T)) (s : task) : task :=
  mk_task (st_ts s) (st_checkpoint s) (st_checkpoint_ts s) (st_prior_checkpoint_ts s) (st_direct_access s) ws.

Definition on_ws {A} (m : M (gmap Z (anon_inode T)) A) : M task A := fun s =>
  let '(r, ws) := m (st_workingset s) in (r, set_workingset ws s).

(** ** Moving to another snapshot *)

Definition sivfs_update (st : log_state) (next_ts skip_ts : Z) : M task unit :=
  let! state := gets (fun s => s) in
  if st_direct_access state then throw EINVAL
  else if next_ts =? SIVFS_INVALID_TS then throw EINVAL
  else if st_ts state =? SIVFS_INVALID_TS then modify (set_ts next_ts)
  else
    let start_ts := uadd (st_ts state) 1 in
    if next_ts <? start_ts then modify (set_ts next_ts)
    else
      let! o := lift (sivfs_ts_to_log_entry start_ts start_ts next_ts st) in
      match o with
      | None => throw EINVAL
      | Some log =>
        do! on_ws (sivfs_apply_logs_workingset st log next_ts skip_ts) in
        modify (set_ts next_ts)
      end.

Definition sivfs_update_direct_access (commit_started_ts next_ts : Z) : M task unit :=
  let! state := gets (fun s => s) in
  if next_ts =? SIVFS_INVALID_TS then throw EINVAL
  else if negb (next_ts =? st_checkpoint_ts state) then throw EINVAL
  else if negb (commit_started_ts =? next_ts) then throw EINVAL
  else
    do! (if st_direct_access state then ret tt else on_ws (sivfs_invalidate_workingset SIVFS_NO_INVALIDATE_CPS)) in
    do! modify (set_ts next_ts) in
    modify (set_direct_access true).

(** ** Checking out a checkpoint *)

(** The double read of latest_cp. [seen] is what memory shows in each
    iteration: the pointer, the timestamp read to validate it, the timestamp
    read to try again. The result is the local checkpoint_ts. *)
Fixpoint read_latest (checkpoint_ts : Z) (seen : list (Z * Z * Z)) : M task Z :=
  match seen with
  | [] => lift OutOfFuel
  | (checkpoint, checkpoint_check, again) :: seen =>
    do! modify (set_checkpoint checkpoint checkpoint_ts) in
    if (checkpoint_check =? checkpoint_ts) && negb (checkpoint_ts =? SIVFS_INVALID_TS) then ret checkpoint_ts
    else read_latest again seen
  end.

Definition checkout_checkpoint (checkpoint_ts : Z) (seen : list (Z * Z * Z)) : M task Z :=
  let! state := gets (fun s => s) in
  if st_checkpoint_ts state =? checkpoint_ts then ret checkpoint_ts
  else
    let! checkpoint_ts := read_latest checkpoint_ts seen in
    let! state := gets (fun s => s) in
    if st_checkpoint state =? 0 then throw EINVAL else ret checkpoint_ts.

(** ** my_sivfs_commit_update *)

(** What the system does meanwhile: memory for the log and the allocator, the
    process's mappings, the timestamp of the latest checkpoint and what the
    double read sees. *)
Record upd_env : Type := mk_uenv {
  ue_chunk : option Z;
  ue_insert : bool;
  ue_alloc : alloc_env;
  ue_find_vma : Z -> option vma;
  ue_latest_ts : Z;
  ue_seen : list (Z * Z * Z)
}.

Record ustate : Type := mk_us {
  us_commit : commit_state;
  us_alloc : astate;
  us_task : task;
  us_writeset : option sivfs_log_entry
}.

Definition on_commit {A} (m : M commit_state A) : M ustate A := fun u =>
  let '(r, s) := m (us_commit u) in (r, mk_us s (us_alloc u) (us_task u) (us_writeset u)).
Definition on_alloc {A} (m : M astate A) : M ustate A := fun u =>
  let '(r, s) := m (us_alloc u) in (r, mk_us (us_commit u) s (us_task u) (us_writeset u)).
Definition on_task {A} (m : M task A) : M ustate A := fun u =>
  let '(r, s) := m (us_task u) in (r, mk_us (us_commit u) (us_alloc u) s (us_writeset u)).
Definition on_writeset (m : M sivfs_log_entry unit) : M ustate unit := fun u =>
  match us_writeset u with
  | None => (Fault, u)
  | Some e => let '(r, e) := m e in (r, mk_us (us_commit u) (us_alloc u) (us_task u) (Some e))
  end.

(** [state->should_abort], read and reset. *)
Definition take_should_abort (state : Z) : M astate bool :=
  let! th := load_thread state in
  if t_should_abort th then do! store_thread state (with_should_abort false th) in ret true else ret false.

(** [state->ts] as the allocator reads it. *)
Definition tell_ts (state ts : Z) : M astate unit :=
  let! th := load_thread state in
  store_thread state (mk_tstate ts (t_allocated_chunks th) (t_chunks_to_free th) (t_should_abort th)).

(** The part that commits: the commit timestamp and whether the transaction aborted. *)
Definition commit_writes (ev : upd_env) (aborted : bool) : M ustate (Z * bool) :=
  let! w := gets us_writeset in
  match w with
  | None => ret (SIVFS_INVALID_TS, aborted)
  | Some log_writeset =>
    if sivfs_writeset_empty (le_ws log_writeset) then ret (SIVFS_INVALID_TS, aborted)
    else
      do! on_writeset (sivfs_add_metadata_to_changes (ue_find_vma ev)) in
      let! w := gets us_writeset in
      let log_writeset := default log_writeset w in
      let! task := gets us_task in
      let! r := (if aborted then ret (SIVFS_INVALID_TS, true)
                 else on_commit (sivfs_commit_changes (ue_chunk ev) (ue_insert ev) (st_ts task) log_writeset)) in
      let '(commit_ts, aborted) := r in
      do! (if aborted && negb SIVFS_TRACK_CLEAR_WORKINGSET_EVERY_TXN
           then on_task (on_ws (sivfs_invalidate_workingset_log log_writeset)) else ret tt) in
      ret (commit_ts, aborted)
  end.

(** The part that moves to the new snapshot. *)
Definition move_snapshot (ev : upd_env) (state options commit_ts : Z) (aborted : bool) : M ustate unit :=
  let! checkpoint_ts := on_task (checkout_checkpoint (ue_latest_ts ev) (ue_seen ev)) in
  let! task := gets us_task in
  let! com := gets us_commit in
  let next_ts :=
    if SIVFS_FIGURE_EXTERNAL_CONSISTENCY_TRICKS && negb aborted && (commit_ts =? SIVFS_INVALID_TS) then
      if negb (st_ts task =? SIVFS_INVALID_TS) && (checkpoint_ts <=? st_ts task) then st_ts task else checkpoint_ts
    else cs_master_ts com in
  do! (if negb (Z.land options SIVFS_DIRECT_ACCESS =? 0) then
         on_task (sivfs_update_direct_access (cs_commit_started_ts com) next_ts)
       else
         do! (if st_direct_access task then on_task (on_ws (sivfs_invalidate_workingset 0)) else ret tt) in
         do! on_task (modify (set_direct_access false)) in
         on_task (sivfs_update (cs_log com) next_ts commit_ts)) in
  do! on_alloc (tell_ts state next_ts) in
  on_task (modify (fun s => if st_prior_checkpoint_ts s =? checkpoint_ts then s else set_prior_checkpoint_ts checkpoint_ts s)).

(** Whether the transaction aborted. *)
Definition my_sivfs_commit_update (ev : upd_env) (state options : Z) : M ustate bool :=
  let! w := gets us_writeset in
  if match w with Some e => le_aborted e | None => false end then throw EINVAL
  else
    let! doomed := on_alloc (take_should_abort state) in
    let aborted := doomed || negb (Z.land options SIVFS_ABORT_FLAG =? 0) in
    let! r := commit_writes ev aborted in
    let '(commit_ts, aborted) := r in
    do! on_alloc (sivfs_allocation_on_commit (ue_alloc ev) state aborted commit_ts) in
    do! (if SIVFS_FIGURE_WORKINGSET_HARDLIMIT_PLUS_ONE =? 1 then
           on_task (on_ws (sivfs_invalidate_workingset SIVFS_NO_INVALIDATE_CPS))
         else if SIVFS_FIGURE_WORKINGSET_HARDLIMIT_PLUS_ONE =? -1 then ret tt
         else throw EINVAL) in
    do! move_snapshot ev state options commit_ts aborted in
    ret aborted.
End update.
Arguments task T : clear implicits.
Arguments ustate T : clear implicits.

(** ** my_sivfs_update_page *)

Definition sivfs_same_page (a b : Z) : bool := a / PAGE_SIZE =? b / PAGE_SIZE.

(** The writes of one log entry to the page at [file_offset]. *)
Definition update_page_entry (file_ino file_offset : Z) (log_ent : sivfs_log_entry) : M page wstep :=
  if le_aborted log_ent then ret Continue
  else
    do! ws_walk (le_ws log_ent) (fun ent _ =>
      let buf := ws_entries (le_ws log_ent) in
      let! ino := lift (rd buf ent) in
      let! off := lift (rd buf (ent + 1)) in
      if (ino =? file_ino) && sivfs_same_page off file_offset then
        let! value := lift (rd buf (ent + 4)) in
        fun mem => match sivfs_apply_ws_ent_pg off value mem with
                   | Ok mem' => (Ok Continue, mem')
                   | Err e => (Err e, mem)
                   | Fault => (Fault, mem)
                   | OutOfFuel => (OutOfFuel, mem)
                   end
      else ret Continue) in
    ret Continue.

(** The contents written to [mem]. [target_ts], [checkpoint]: the task's. *)
Definition my_sivfs_update_page (F : pt_flags) (c : cps) (st : log_state) (target_ts checkpoint file_ino file_offset : Z) : res page :=
  if target_ts =? SIVFS_INVALID_TS then Err EINVAL
  else if negb (file_offset mod PAGE_SIZE =? 0) then Err EINVAL
  else if checkpoint =? 0 then Err EINVAL
  else
    let? cpinfo := deref (c_inodes c !! checkpoint) in
    let? mem := sivfs_read_checkpoint F PAGE_SIZE (ci_root cpinfo) file_ino file_offset (p_pages (c_store c)) in
    let start_ts := uadd (ci_ts cpinfo) 1 in
    if target_ts <? start_ts then Ok mem
    else
      let? o := sivfs_ts_to_log_entry start_ts start_ts target_ts st in
      match o with
      | None => Err EINVAL
      | Some log_ent =>
        match log_iter (log_fuel start_ts target_ts) (ls_ents st) false (update_page_entry file_ino file_offset) target_ts log_ent mem with
        | (Ok _, mem) => Ok mem
        | (Err e, _) => Err e
        | (Fault, _) => Fault
        | (OutOfFuel, _) => OutOfFuel
        end
      end.

(** ** Serving a page *)

(** The writes committed in (t0, t1], in log order, and a snapshot brought forward over them. *)
Definition log_writes (st : log_state) (t0 t1 : Z) : list (Z * Z * Z) :=
  log_slice st (t0 + 1) (Z.to_nat (t1 - t0)) ≫= entry_writes.
Definition advance (st : log_state) (t0 t1 : Z) (m : Z -> Z -> page) : Z -> Z -> page :=
  foldl (fun m w => write_word w m) m (log_writes st t0 t1).

Lemma write_ok_offset w : write_ok w -> offset_ok w.
Proof. destruct w as [[i off] v]. intros (? & ? & ?). unfold offset_ok. simpl. lia. Qed.

Lemma update_page_entry_ok e es ino pg mem : ws_repr (le_ws e) es -> Forall offset_ok (entry_writes e) ->
  update_page_entry ino (pg * PAGE_SIZE) e mem = (Ok Continue, foldl (page_upd ino pg) mem (entry_writes e)).
Proof.
  intros Hr Hf. rewrite (entry_writes_repr _ _ Hr) in *. unfold update_page_entry. destruct (le_aborted e); [done|].
  set (body' := fun (w : wse) (mem : page) => (Ok Continue : res wstep, page_upd ino pg mem (wse_write w))).
  assert (Hpure : forall l mem, foldM body' l mem = (Ok tt, foldl (page_upd ino pg) mem (wse_write <$> l))).
  { induction l as [|w l IH]; intros m; [done|]. cbn [foldM]. unfold bind at 1. cbn [body']. apply IH. }
  assert (Hw : ws_walk (le_ws e) (fun ent _ =>
      let buf := ws_entries (le_ws e) in
      let! i := lift (rd buf ent) in
      let! off := lift (rd buf (ent + 1)) in
      if (i =? ino) && sivfs_same_page off (pg * PAGE_SIZE) then
        let! value := lift (rd buf (ent + 4)) in
        fun mem => match sivfs_apply_ws_ent_pg off value mem with
                   | Ok mem' => (Ok Continue, mem')
                   | Err e => (Err e, mem)
                   | Fault => (Fault, mem)
                   | OutOfFuel => (OutOfFuel, mem)
                   end
      else ret Continue) mem = foldM body' es mem); [|by rewrite (bind_step _ _ _ _ _ (eq_trans Hw (Hpure es mem)))].
  rewrite (ws_walk_encoded _ es _ (fun (w : wse) (mem : page) =>
    if (e_ino w =? ino) && sivfs_same_page (e_offset w) (pg * PAGE_SIZE) then
      match sivfs_apply_ws_ent_pg (e_offset w) (e_value w) mem with
      | Ok mem' => (Ok Continue, mem') | Err e => (Err e, mem) | Fault => (Fault, mem) | OutOfFuel => (OutOfFuel, mem) end
    else (Ok Continue, mem)) mem Hr).
  2: { intros i w s Hb _. cbn beta zeta. destruct (rd_fields _ _ _ Hb) as (-> & -> & _ & ->).
    rewrite (bind_step (lift (Ok (e_ino w))) _ s _ s eq_refl), (bind_step (lift (Ok (e_offset w))) _ s _ s eq_refl). by destruct (_ && _). }
  clear Hr. revert mem. induction es as [|w l IH]; intros mem; [done|]. cbn [foldM].
  rewrite fmap_cons in Hf. apply Forall_cons in Hf as [[Ho Ha] Hf]. cbn [wse_write fst snd] in Ho, Ha.
  rewrite (bind_step (body' w) _ mem _ _ eq_refl). rewrite (bind_step _ _ mem Continue (page_upd ino pg mem (wse_write w))); [by apply IH|].
  unfold page_upd, touches, sivfs_same_page, sivfs_apply_ws_ent_pg. cbn [wse_write fst snd].
  rewrite Z.div_mul, aligned_in_page, Z.eqb_refl by (done || lia). rewrite (Z.eqb_sym (e_ino w) ino), (Z.eqb_sym (e_offset w / PAGE_SIZE) pg).
  by destruct ((ino =? e_ino w) && (pg =? e_offset w / PAGE_SIZE)).
Qed.

(** The page as the checkpoint and the log since define it. *)
Lemma update_page_ok F c st lo n cp i m ts ino pg : log_view st lo n -> c_inodes c !! cp = Some i -> cp <> 0 ->
  0 <= ci_ts i -> lo <= ci_ts i + 1 -> ci_ts i <= ts <= n -> reads F (p_pages (c_store c)) (ci_root i) m -> page_ok ino pg ->
  Forall write_ok (log_writes st (ci_ts i) ts) ->
  my_sivfs_update_page F c st ts cp ino (pg * PAGE_SIZE) = Ok (advance st (ci_ts i) ts m ino pg).
Proof.
  intros Hv Hi Hcp H0 Hlo Hts Hm Hp Hok. pose proof (lv_n _ _ _ Hv) as Hn. unfold my_sivfs_update_page.
  assert (Hinv : SIVFS_INVALID_TS = two64 - 1) by reflexivity. rewrite (proj2 (Z.eqb_neq _ _)) by u64_lia.
  rewrite Z.mod_mul by done. cbn [Z.eqb negb]. rewrite (proj2 (Z.eqb_neq _ _) Hcp), Hi. cbn [deref rbind].
  rewrite (Hm ino pg Hp). cbn [rbind]. rewrite uadd_small by u64_lia. unfold advance, log_writes in *. rewrite write_words_page.
  destruct (Z.ltb_spec ts (ci_ts i + 1)); [by replace (Z.to_nat (ts - ci_ts i)) with 0%nat by lia|].
  destruct (ts_to_log_entry_ok _ _ _ Hv (ci_ts i + 1) ts ltac:(lia)) as (p & -> & Hpt). cbn [rbind].
  set (k := Z.to_nat (ts - (ci_ts i + 1))). replace (Z.to_nat (ts - ci_ts i)) with (1 + k)%nat in * by lia.
  rewrite (log_iter_slice _ _ _ Hv _ _ ts k (ci_ts i + 1)) by (unfold log_fuel, k; done || lia).
  assert (Hsl := view_slice_repr st lo n (ci_ts i + 1) (1 + k) Hv Hlo ltac:(unfold k; lia)). clear Hpt.
  generalize (m ino pg) as mem. revert Hsl Hok. generalize (log_slice st (ci_ts i + 1) (1 + k)) as l. clear - F.
  assert (Hf : forall l mem, Forall (fun e => exists es, ws_repr (le_ws e) es) l -> Forall write_ok (l ≫= entry_writes) ->
    foldM (update_page_entry ino (pg * PAGE_SIZE)) l mem = (Ok tt, foldl (page_upd ino pg) mem (l ≫= entry_writes))).
  { induction l as [|e l IH]; intros mem Hr Hw; [done|]. apply Forall_cons in Hr as [[es Hr] Hrl]. rewrite bind_cons in Hw |- *.
    apply Forall_app in Hw as [He Hw]. cbn [foldM]. rewrite foldl_app.
    rewrite (bind_step _ _ _ _ _ (update_page_entry_ok e es ino pg mem Hr (Forall_impl _ _ _ He write_ok_offset))). by apply IH. }
  intros l Hr Hw mem. by rewrite Hf.
Qed.

(** ** Snapshots of a working set *)

Lemma log_slice_app st lo n t k1 k2 : log_view st lo n -> lo <= t -> t + Z.of_nat (k1 + k2) <= n + 1 ->
  log_slice st t (k1 + k2) = log_slice st t k1 ++ log_slice st (t + Z.of_nat k1) k2.
Proof.
  intros Hv. revert t. induction k1 as [|k1 IH]; intros t Hlo Hn; [cbn [Nat.add log_slice app]; f_equal; lia|].
  cbn [Nat.add log_slice]. destruct (view_entry _ _ _ Hv t ltac:(lia)) as (p & e & _ & _ & -> & _).
  rewrite IH by lia. cbn [app]. do 3 f_equal. lia.
Qed.

Lemma slice_ts st lo n t k e : log_view st lo n -> lo <= t -> t + Z.of_nat k <= n + 1 -> e ∈ log_slice st t k -> t <= le_ts e < t + Z.of_nat k.
Proof.
  intros Hv. revert t. induction k as [|k IH]; intros t Hlo Hn; cbn [log_slice]; [by intros ?%not_elem_of_nil|].
  destruct (view_entry _ _ _ Hv t ltac:(lia)) as (p & e0 & _ & _ & -> & Ht & _). intros [->|Hin]%elem_of_cons; [lia|].
  apply IH in Hin; lia.
Qed.

Lemma writes_but_all skip l : (forall e, e ∈ l -> le_ts e = skip -> entry_writes e = []) -> writes_but skip l = l ≫= entry_writes.
Proof.
  induction l as [|e l IH]; intros Hs; [done|]. unfold writes_but in *. rewrite !bind_cons, IH by (intros e' He'; apply Hs; by right).
  destruct (Z.eqb_spec (le_ts e) skip); [|done]. by rewrite Hs by (done || left).
Qed.

Lemma slice_entry_at st lo n t k e : log_view st lo n -> lo <= t -> t + Z.of_nat k <= n + 1 -> e ∈ log_slice st t k -> entry_at st (le_ts e) = Some e.
Proof.
  intros Hv. revert t. induction k as [|k IH]; intros t Hlo Hn; cbn [log_slice]; [by intros ?%not_elem_of_nil|].
  destruct (view_entry _ _ _ Hv t ltac:(lia)) as (p & e0 & _ & _ & E & Ht & _). rewrite E. intros [->|Hin]%elem_of_cons; [by rewrite Ht|].
  apply (IH (t + 1)); [lia|lia|done].
Qed.

(** Writes to different words. *)
Definition disjoint_writes (l l' : list (Z * Z * Z)) : Prop := forall w w', w ∈ l -> w' ∈ l' -> w.1 <> w'.1.

Lemma page_upd_comm ino pg p w w' : offset_ok w -> offset_ok w' -> w.1 <> w'.1 ->
  page_upd ino pg (page_upd ino pg p w) w' = page_upd ino pg (page_upd ino pg p w') w.
Proof.
  destruct w as [[i off] v], w' as [[i' off'] v']. unfold offset_ok, page_upd, touches, PAGE_SIZE, SIZEOF_WORD. cbn [fst snd].
  intros [Ho Ha] [Ho' Ha'] Hne. destruct (Z.eqb_spec ino i) as [<-|], (Z.eqb_spec pg (off / 4096)) as [Ep|],
    (Z.eqb_spec ino i') as [<-|], (Z.eqb_spec pg (off' / 4096)) as [Ep'|]; try done. cbn [andb].
  apply list_insert_insert_ne. intros E. apply Hne. f_equal.
  pose proof (Z.mod_pos_bound off 4096 eq_refl). pose proof (Z.mod_pos_bound off' 4096 eq_refl).
  assert (forall x, 0 <= x -> x mod 8 = 0 -> x = x / 4096 * 4096 + 8 * (x mod 4096 / 8)) as Hx.
  { clear. intros x Hx Hm. pose proof (aligned_in_page x Hx Hm) as Hm'. unfold PAGE_SIZE, SIZEOF_WORD in Hm'.
    rewrite (Z.div_mod x 4096) at 1 by done. rewrite (Z.div_mod (x mod 4096) 8) at 1 by done. lia. }
  apply Z2Nat.inj in E; [|apply Z.div_pos; lia..]. rewrite (Hx off (proj1 Ho) Ha), (Hx off' (proj1 Ho') Ha'), <- Ep, <- Ep', E. done.
Qed.

Lemma page_upds_comm ino pg l l' : Forall offset_ok l -> Forall offset_ok l' -> disjoint_writes l l' ->
  forall p, foldl (page_upd ino pg) (foldl (page_upd ino pg) p l') l = foldl (page_upd ino pg) (foldl (page_upd ino pg) p l) l'.
Proof.
  assert (Hone : forall w l', offset_ok w -> Forall offset_ok l' -> (forall w', w' ∈ l' -> w.1 <> w'.1) ->
    forall p, page_upd ino pg (foldl (page_upd ino pg) p l') w = foldl (page_upd ino pg) (page_upd ino pg p w) l').
  { intros w l0 Hw. induction l0 as [|w' l0 IH]; intros Hl Hd p; [done|]. apply Forall_cons in Hl as [Hw' Hl]. cbn [foldl].
    rewrite IH by (done || (intros x Hx; apply Hd; by right)). f_equal. apply page_upd_comm; [done..|]. apply not_eq_sym, Hd. left. }
  induction l as [|w l IH]; intros Hl Hl' Hd p; [done|]. apply Forall_cons in Hl as [Hw Hl]. cbn [foldl].
  rewrite Hone by (done || (intros w' Hw'; apply (Hd w w'); [left|done])). apply IH; [done..|]. intros x y Hx. apply Hd. by right.
Qed.

Lemma page_untouched ino pg l : existsb (touches ino pg) l = false -> forall p, foldl (page_upd ino pg) p l = p.
Proof.
  induction l as [|w l IH]; intros Hn p; [done|]. cbn [existsb] in Hn. apply orb_false_iff in Hn as [Hw Hn].
  cbn [foldl]. unfold page_upd at 2. rewrite Hw. by apply IH.
Qed.

Section shows.
Context {T : Type} `{PageCacheLaws T}.

(** The working set shows the snapshot [m] with the transaction's own writes:
    every up-to-date private page has them, every mapped checkpoint page has none. *)
Record shows (h : gmap Z cpage) (ws : gmap Z (anon_inode T)) (m : Z -> Z -> page) (own : list (Z * Z * Z)) : Prop := {
  sh_cached : forall ino pg p, page_ok ino pg -> cached ws ino pg = Some p -> wp_uptodate p = true -> wp_words p = foldl (page_upd ino pg) (m ino pg) own;
  sh_mapped : forall ino pg v, page_ok ino pg -> mapped ws ino pg = Some v ->
    existsb (touches ino pg) own = false /\ exists q, h !! v = Some q /\ cp_words q = m ino pg
}.

(** [ws'] holds no page that [ws] does not hold. *)
Definition no_new_pages (ws ws' : gmap Z (anon_inode T)) : Prop := forall ino pg,
  (cached ws ino pg = None -> cached ws' ino pg = None) /\ (mapped ws ino pg = None -> mapped ws' ino pg = None).

Lemma written_no_new ws ws' l : written ws ws' l -> no_new_pages ws ws'.
Proof. intros [_ _ C M] ino pg. rewrite C, M. split; [by intros ->|intros ->; by destruct (existsb _ _)]. Qed.
Lemma dropped_no_new ws ws' l : dropped ws ws' l -> no_new_pages ws ws'.
Proof. intros [_ _ C M] ino pg. rewrite C, M. split; intros ->; by destruct (existsb _ _). Qed.
Lemma no_new_refl ws : no_new_pages ws ws.
Proof. by split. Qed.
Lemma no_new_trans ws1 ws2 ws3 : no_new_pages ws1 ws2 -> no_new_pages ws2 ws3 -> no_new_pages ws1 ws3.
Proof. intros H1 H2 ino pg. destruct (H1 ino pg), (H2 ino pg). auto. Qed.

(** The transaction's own writes are those logged at [skip], and no earlier
    entry of the interval writes to the same words; or there are none. *)
Definition own_writes (st : log_state) (t0 skip next : Z) (own : list (Z * Z * Z)) : Prop :=
  (own = [] /\ forall e, e ∈ log_slice st (t0 + 1) (Z.to_nat (next - t0)) -> le_ts e = skip -> entry_writes e = []) \/
  (t0 < skip <= next /\ (exists e, entry_at st skip = Some e /\ entry_writes e = own) /\ disjoint_writes (log_writes st t0 (skip - 1)) own).

Lemma log_writes_split st lo n t0 skip next e : log_view st lo n -> lo <= t0 + 1 -> t0 < skip <= next -> next <= n -> entry_at st skip = Some e ->
  log_writes st t0 next = log_writes st t0 (skip - 1) ++ entry_writes e ++ log_writes st skip next /\
  writes_but skip (log_slice st (t0 + 1) (Z.to_nat (next - t0))) = log_writes st t0 (skip - 1) ++ log_writes st skip next.
Proof.
  intros Hv Hlo Hs Hn He. set (A := Z.to_nat (skip - 1 - t0)). set (B := Z.to_nat (next - skip)).
  assert (E : log_slice st (t0 + 1) (Z.to_nat (next - t0)) = log_slice st (t0 + 1) A ++ e :: log_slice st (skip + 1) B).
  { replace (Z.to_nat (next - t0)) with (A + S B)%nat by lia. rewrite (log_slice_app st lo n) by (done || lia).
    replace (t0 + 1 + Z.of_nat A) with skip by lia. cbn [log_slice]. by rewrite He. }
  unfold log_writes at 1. rewrite E. unfold writes_but. rewrite !bind_app, !bind_cons. split; [done|].
  assert (Hts : le_ts e = skip).
  { destruct (view_entry _ _ _ Hv skip ltac:(lia)) as (p & e' & _ & _ & He' & ? & _). congruence. }
  rewrite Hts, Z.eqb_refl. cbn [app]. fold (writes_but skip (log_slice st (t0 + 1) A)) (writes_but skip (log_slice st (skip + 1) B)).
  rewrite !writes_but_all; [done| |]; intros x Hx; apply (slice_ts _ lo n) in Hx; try done; lia.
Qed.

Lemma shows_advance h ws ws' st lo n m own t0 skip next : log_view st lo n -> lo <= t0 + 1 -> t0 <= next <= n -> shows h ws m own ->
  own_writes st t0 skip next own -> Forall offset_ok (log_writes st t0 next) ->
  written ws ws' (writes_but skip (log_slice st (t0 + 1) (Z.to_nat (next - t0)))) -> shows h ws' (advance st t0 next m) [].
Proof.
  intros Hv Hlo Hn [Hc Hm] Ho Hf [_ _ Wc Wm].
  assert (HA : forall ino pg p, foldl (page_upd ino pg) (foldl (page_upd ino pg) p own) (writes_but skip (log_slice st (t0 + 1) (Z.to_nat (next - t0))))
    = foldl (page_upd ino pg) p (log_writes st t0 next)).
  { intros ino pg p. destruct Ho as [[-> Hno]|(Hs & (e & He & Hown) & Hd)].
    - by rewrite writes_but_all.
    - destruct (log_writes_split st lo n t0 skip next e Hv Hlo Hs ltac:(lia) He) as [E1 E2]. rewrite E2. rewrite E1 in Hf |- *.
      apply Forall_app in Hf as [Hf1 [Hf2 Hf3]%Forall_app]. rewrite Hown in Hf2. rewrite !foldl_app, Hown. f_equal. by apply page_upds_comm. }
  assert (Hall : forall ino pg, existsb (touches ino pg) (writes_but skip (log_slice st (t0 + 1) (Z.to_nat (next - t0)))) = false ->
    existsb (touches ino pg) own = false -> existsb (touches ino pg) (log_writes st t0 next) = false).
  { intros ino pg H1 H2. destruct Ho as [[-> Hno]|(Hs & (e & He & Hown) & Hd)].
    - unfold log_writes. by rewrite <- (writes_but_all skip).
    - destruct (log_writes_split st lo n t0 skip next e Hv Hlo Hs ltac:(lia) He) as [E1 E2]. rewrite E2, existsb_app in H1.
      apply orb_false_iff in H1 as [H1 H3]. by rewrite E1, !existsb_app, H1, H3, Hown, H2. }
  split.
  - intros ino pg p Hp. rewrite Wc. destruct (cached ws ino pg) as [p0|] eqn:E; [|done]. cbn [fmap option_fmap option_map]. intros [= <-] Hu.
    cbn [foldl set_words wp_words wp_uptodate] in *. unfold advance. rewrite write_words_page, (Hc _ _ _ Hp E Hu). apply HA.
  - intros ino pg v Hp. rewrite Wm. destruct (existsb _ _) eqn:E; [done|]. intros Hv'. destruct (Hm _ _ _ Hp Hv') as (Hno & q & Hq & Hw).
    split; [done|]. exists q. split; [done|]. unfold advance. by rewrite write_words_page, page_untouched, Hw by (by apply Hall).
Qed.

Lemma sivfs_update_ok st lo n (s : task T) h m own next skip : log_view st lo n -> ws_ok (st_workingset s) -> st_direct_access s = false ->
  0 <= st_ts s <= next -> next <= n -> lo <= st_ts s + 1 -> Forall write_ok (log_writes st (st_ts s) next) ->
  shows h (st_workingset s) m own -> own_writes st (st_ts s) skip next own ->
  exists ws', sivfs_update st next skip s = (Ok tt, set_ts next (set_workingset ws' s)) /\ ws_ok ws' /\
    no_new_pages (st_workingset s) ws' /\ shows h ws' (advance st (st_ts s) next m) [].
Proof.
  intros Hv Hok Hda Hts Hn Hlo Hw Hsh Hown. pose proof (lv_n _ _ _ Hv).
  assert (Hoff : Forall offset_ok (log_writes st (st_ts s) next)) by (eapply Forall_impl; [exact Hw|apply write_ok_offset]).
  assert (Hinv : SIVFS_INVALID_TS = two64 - 1) by reflexivity.
  unfold sivfs_update. rewrite (bind_step (gets _) _ s s s eq_refl), Hda, !(proj2 (Z.eqb_neq _ SIVFS_INVALID_TS)) by u64_lia.
  rewrite uadd_small by u64_lia. destruct (Z.ltb_spec next (st_ts s + 1)) as [Hlt|Hle].
  - assert (E : next = st_ts s) by lia. exists (st_workingset s). split; [by destruct s|]. split; [done|]. split; [done|].
    apply (shows_advance h (st_workingset s) _ st lo n m own (st_ts s) skip next); try done; [lia|].
    rewrite E, Z.sub_diag. by apply written_nil.
  - destruct (ts_to_log_entry_ok _ _ _ Hv (st_ts s + 1) next ltac:(lia)) as (p & Hp & Hpt).
    rewrite Hp, (bind_step (lift (Ok (Some p))) _ s _ s eq_refl).
    destruct (apply_logs_ok st lo n (st_ts s + 1) next skip p (st_workingset s) Hv Hlo ltac:(lia) Hpt Hok) as (ws' & E & W).
    { replace (next + 1 - (st_ts s + 1)) with (next - st_ts s) by lia. apply Forall_forall. intros w Hin. rewrite Forall_forall in Hoff. apply Hoff.
      unfold writes_but, log_writes in *. apply list_elem_of_bind in Hin as (e & Hin & He). apply list_elem_of_bind. exists e. split; [|done].
      by destruct (le_ts e =? skip); [apply not_elem_of_nil in Hin|]. }
    replace (next + 1 - (st_ts s + 1)) with (next - st_ts s) in W by lia.
    exists ws'. split; [|split; [apply W|split; [exact (written_no_new _ _ _ W)|]]].
    + unfold on_ws. rewrite (bind_step _ _ s tt (set_workingset ws' s)) by by rewrite E. done.
    + apply (shows_advance h (st_workingset s) ws' st lo n m own (st_ts s) skip next); try done. lia.
Qed.
End shows.

(** ** sivfs_add_metadata_to_changes *)

Definition with_entries (buf : list Z) (e : sivfs_log_entry) : sivfs_log_entry :=
  with_ws (mk_ws (ws_capacity_bytes (le_ws e)) (ws_size_bytes (le_ws e)) buf) e.

Definition file_offset_of (v : vma) (address : Z) : Z :=
  uadd (usub address (vm_start v)) (u64 (Z.shiftl (vm_pgoff v) PAGE_SHIFT)).

(** The write's address lies in a mapping of the task, inside the file. *)
Definition in_file (fv : Z -> option vma) (w : wse) : Prop := exists v, sivfs_find_vma fv (e_address w) SIZEOF_WORD true = Ok v /\
  Z.land (e_address w) 7 = 0 /\ file_offset_of v (e_address w) < vm_size v.

(** The write with the file and the offset its address stands for. *)
Definition located (fv : Z -> option vma) (w : wse) : wse :=
  match sivfs_find_vma fv (e_address w) SIZEOF_WORD true with
  | Ok v => mk_wse (vm_ino v) (file_offset_of v (e_address w)) (e_address w) (e_payload w)
  | _ => w
  end.

Lemma buf_at_mid pre l post : buf_at (pre ++ l ++ post) (Z.of_nat (length pre)) l.
Proof. split; [lia|]. by rewrite Nat2Z.id, drop_app_length, take_app_length. Qed.

Lemma length_located fv w : length (encode_wse (located fv w)) = length (encode_wse w).
Proof. unfold located. by destruct (sivfs_find_vma _ _ _ _). Qed.

Lemma add_metadata_ent_ok fv w pre post e : in_file fv w -> ws_entries (le_ws e) = pre ++ encode_wse w ++ post ->
  add_metadata_ent fv (Z.of_nat (length pre)) e = (Ok Continue, with_entries (pre ++ encode_wse (located fv w) ++ post) e).
Proof.
  intros (v & Hv & Hal & Hsz) He. unfold add_metadata_ent. rewrite (bind_step (gets _) _ e _ e eq_refl), He.
  destruct (rd_fields _ _ _ (buf_at_mid pre (encode_wse w) post)) as (_ & _ & -> & _).
  rewrite (bind_step (lift _) _ e _ e eq_refl), Hv, (bind_step (lift _) _ e _ e eq_refl), Hal. cbn [Z.eqb negb].
  fold (file_offset_of v (e_address w)). rewrite (proj2 (Z.leb_gt _ _) Hsz). unfold set_ent_key, modify, bind, ret, with_entries. do 4 f_equal.
  rewrite He, Nat2Z.id. replace (Z.to_nat (Z.of_nat (length pre) + 1)) with (length pre + 1)%nat by lia.
  replace (length pre) with (length pre + 0)%nat at 2 by lia. rewrite !insert_app_r. f_equal. unfold located. by rewrite Hv.
Qed.

Lemma add_metadata_walk fv : forall es pre post e fuel, ws_entries (le_ws e) = pre ++ encode es ++ post -> Forall wf_wse es ->
  Z.of_nat (length pre + length (encode es)) < 2 ^ 60 -> (length es < fuel)%nat -> Forall (in_file fv) es ->
  ws_for_each (fun e => ws_entries (le_ws e)) (fun ent _ => add_metadata_ent fv ent) fuel (Z.of_nat (length pre)) (8 * Z.of_nat (length (encode es))) e
  = (Ok tt, with_entries (pre ++ encode (located fv <$> es) ++ post) e).
Proof.
  induction es as [|w es IH]; intros pre post e fuel He Hwf Hlim Hfuel Hin; (destruct fuel as [|fuel]; [simpl in Hfuel; lia|]).
  { cbn [ws_for_each]. unfold with_entries. destruct e as [? [? ? ?] ? ? ? ? ? ?]. simpl in *. by rewrite He. }
  apply Forall_cons in Hwf as [Hw Hwf]. apply Forall_cons in Hin as [Hi Hin]. rewrite encode_cons in He, Hlim |- *.
  rewrite length_app in Hlim |- *. rewrite Nat2Z.inj_add. pose proof (length_encode_wse w). rewrite <- app_assoc in He.
  cbn [ws_for_each]. rewrite (proj2 (Z.eqb_neq _ 0)) by lia. rewrite He at 1.
  rewrite (rd_control _ _ w (buf_at_mid _ _ _)). cbn [rbind]. rewrite stream_info_encoded by (done || lia).
  rewrite (add_metadata_ent_ok fv w pre _ e Hi He). rewrite wse_size_encoded by done. unfold ent_advance, SIZEOF_WORD.
  rewrite (Z.mul_comm 8 (Z.of_nat (length (encode_wse w)))), Z.div_mul by lia.
  rewrite Z.mod_small, usub_small by u64_lia.
  replace (_ - _) with (8 * Z.of_nat (length (encode es))) by lia.
  pose proof (length_located fv w) as Hll. replace (Z.of_nat (length pre) + Z.of_nat (length (encode_wse w))) with (Z.of_nat (length (pre ++ encode_wse (located fv w))))
    by (rewrite length_app, Hll; lia).
  rewrite (IH (pre ++ encode_wse (located fv w)) post); [|by cbn [with_entries with_ws le_ws ws_entries]; rewrite <- app_assoc|done| |simpl in Hfuel; lia|done].
  - rewrite fmap_cons, encode_cons, <- !app_assoc. by destruct e as [? [? ? ?] ? ? ? ? ? ?].
  - rewrite length_app, Hll. lia.
Qed.

Lemma encode_located fv es : length (encode (located fv <$> es)) = length (encode es).
Proof. induction es as [|w es IH]; [done|]. by rewrite fmap_cons, !encode_cons, !length_app, length_located, IH. Qed.

Lemma add_metadata_ok fv e es : ws_repr (le_ws e) es -> le_ws_has_metadata e = false -> le_aborted e = false -> Forall (in_file fv) es ->
  exists e', sivfs_add_metadata_to_changes fv e = (Ok tt, e') /\ ws_repr (le_ws e') (located fv <$> es) /\ le_aborted e' = false /\
    ws_size_bytes (le_ws e') = ws_size_bytes (le_ws e).
Proof.
  intros Hr Hm Ha Hin. destruct (repr_lens _ _ Hr) as (Hl1 & Hl2 & Hl3). unfold sivfs_add_metadata_to_changes.
  rewrite (bind_step (gets _) _ e e e eq_refl), Hm, (repr_size _ _ Hr).
  assert (Hb : ws_entries (le_ws e) = [] ++ encode es ++ drop (length (encode es)) (ws_entries (le_ws e))).
  { rewrite <- (repr_entries _ _ Hr) at 1. by rewrite take_drop. }
  rewrite (bind_step _ _ _ _ _ (add_metadata_walk fv es [] _ e _ Hb (repr_wf _ _ Hr) Hl2 Hl3 Hin)). set (buf := [] ++ _).
  rewrite (bind_step (gets _) _ (with_entries buf e) (with_entries buf e) _ eq_refl). cbn [with_entries with_ws le_aborted]. rewrite Ha.
  eexists. split; [reflexivity|]. split; [|split; [exact Ha|exact (repr_size _ _ Hr)]]. cbn [with_has_metadata with_entries with_ws le_ws]. unfold buf. cbn [app].
  destruct Hr as [Hs He Hf Hc Hal]. split; cbn [ws_size_bytes ws_capacity_bytes ws_entries]; rewrite ?encode_located; try done.
  - by rewrite <- (encode_located fv es), take_app_length.
  - rewrite Forall_fmap. eapply Forall_impl; [exact Hf|]. intros w Hw. unfold compose, located. by destruct (sivfs_find_vma _ _ _ _).
  - rewrite Hal, length_app, encode_located, length_drop. lia.
Qed.

(** ** A page served from the log and the checkpoint made from it *)

Lemma advance_advance st lo n t0 t1 t2 m ino pg : log_view st lo n -> lo <= t0 + 1 -> t0 <= t1 <= t2 -> t2 <= n ->
  advance st t0 t2 m ino pg = advance st t1 t2 (advance st t0 t1 m) ino pg.
Proof.
  intros Hv Hlo H1 H2. unfold advance, log_writes. replace (Z.to_nat (t2 - t0)) with (Z.to_nat (t1 - t0) + Z.to_nat (t2 - t1))%nat by lia.
  rewrite (log_slice_app st lo n) by (done || lia). replace (t0 + 1 + Z.of_nat (Z.to_nat (t1 - t0))) with (t1 + 1) by lia.
  by rewrite bind_app, foldl_app.
Qed.

Lemma log_writes_app st lo n t0 t1 t2 : log_view st lo n -> lo <= t0 + 1 -> t0 <= t1 <= t2 -> t2 <= n ->
  log_writes st t0 t2 = log_writes st t0 t1 ++ log_writes st t1 t2.
Proof.
  intros Hv Hlo H1 H2. unfold log_writes. replace (Z.to_nat (t2 - t0)) with (Z.to_nat (t1 - t0) + Z.to_nat (t2 - t1))%nat by lia.
  rewrite (log_slice_app st lo n) by (done || lia). replace (t0 + 1 + Z.of_nat (Z.to_nat (t1 - t0))) with (t1 + 1) by lia. apply bind_app.
Qed.

(** The two ways to the page [pg] of file [ino] at time [ts] are one. *)
Definition served_alike (F : pt_flags) (c c' : cps) (log : log_state) (ts old new ino pg : Z) : Prop :=
  exists p, my_sivfs_update_page F c log ts old ino (pg * PAGE_SIZE) = Ok p /\
    my_sivfs_update_page F c' log ts old ino (pg * PAGE_SIZE) = Ok p /\
    my_sivfs_update_page F c' log ts new ino (pg * PAGE_SIZE) = Ok p.

(** C13. Serving a page from a checkpoint and the log since agrees with the
    checkpoint that sivfs_make_checkpoint makes from that log: at its own
    timestamp the page served equals the page read from the new checkpoint, and
    at every later timestamp, over any log that has since grown, the old
    checkpoint (before and after the new one is published) and the new one
    serve the same page. *)
Theorem served_page_is_checkpoint_page F ZERO_PAGE `{HF : !PtFlagsOk F} st lo n ev c c' log N ts ino pg :
  log_view st lo n -> lo <= c_latest_ts c + 1 -> c_latest_ts c <= n < SIVFS_INVALID_TS -> cps_inv F ZERO_PAGE c ->
  (forall ino, ev_inode ev = Some ino -> ino <> 0 /\ c_inodes c !! ino = None) -> st_size (c_obsoleted c) < stack_limit / 4 ->
  sivfs_make_checkpoint F ZERO_PAGE ev st n c = (Ok true, c') ->
  log_view log lo N -> n <= ts <= N -> log_writes log (c_latest_ts c) n = log_writes st (c_latest_ts c) n ->
  Forall write_ok (log_writes log (c_latest_ts c) ts) -> page_ok ino pg ->
  served_alike F c c' log ts (c_latest c) (c_latest c') ino pg /\
  exists i', c_inodes c' !! c_latest c' = Some i' /\ ci_ts i' = n /\
    my_sivfs_update_page F c log n (c_latest c) ino (pg * PAGE_SIZE) = sivfs_read_checkpoint F PAGE_SIZE (ci_root i') ino (pg * PAGE_SIZE) (p_pages (c_store c')).
Proof.
  intros Hv Hlo Hn Hinv Hfresh Hroom E Hlog Hts Hw Hok Hp. pose proof (inv_ts _ _ _ Hinv) as Hlt.
  rewrite (log_writes_app _ lo N _ n) in Hok by (done || lia). apply Forall_app in Hok as [Hok1 Hok2].
  pose proof (make_checkpoint_ok F ZERO_PAGE st lo n ev c Hv Hlo Hn) as HP. fold (log_writes st (c_latest_ts c) n) in HP.
  rewrite Hw in Hok1. specialize (HP Hok1 Hfresh Hroom Hinv). rewrite E in HP. destruct HP as (Hinv' & Hts' & _ & Hkept & Hnew).
  destruct (inv_inode _ _ _ Hinv) as (i & Hi & Hti & Hwf). destruct (inv_inode _ _ _ Hinv') as (i' & Hi' & Hti' & _).
  set (m := view F (p_pages (c_store c)) (ci_root i)). assert (Hm : reads F (p_pages (c_store c)) (ci_root i) m) by by eapply reads_view.
  assert (Hcm : cp_reads F c (c_latest c) m) by by exists i.
  destruct (Hkept (c_latest c) i m Hi) as (i0 & Hi0 & Ht0 & Hm0); [by rewrite Hti|done|].
  destruct (Hnew m Hcm) as (i1 & Hi1 & Hm1). rewrite Hi' in Hi1. injection Hi1 as <-. rewrite Hts' in Hti'. rewrite <- Hw in Hok1, Hm1.
  change (foldl _ m _) with (advance log (c_latest_ts c) n m) in Hm1. split.
  - assert (Hall : Forall write_ok (log_writes log (c_latest_ts c) ts)) by (rewrite (log_writes_app log lo N _ n) by (done || lia); by apply Forall_app).
    exists (advance log (c_latest_ts c) ts m ino pg). split; [|split].
    + rewrite <- Hti. apply (update_page_ok F c log lo N); rewrite ?Hti; try done; try lia; apply (inv_latest _ _ _ Hinv).
    + rewrite <- Ht0 in Hti. rewrite <- Hti. apply (update_page_ok F c' log lo N); rewrite ?Hti; try done; try lia; apply (inv_latest _ _ _ Hinv).
    + rewrite (advance_advance log lo N _ n) by (done || lia). rewrite <- Hti'.
      apply (update_page_ok F c' log lo N); rewrite ?Hti'; try done; try lia; apply (inv_latest _ _ _ Hinv').
  - exists i'. split; [done|]. split; [done|]. rewrite (Hm1 ino pg Hp), <- Hti.
    apply (update_page_ok F c log lo N); rewrite ?Hti; try done; try lia; apply (inv_latest _ _ _ Hinv).
Qed.

(** The sample log with a fourth transaction. *)
Definition sample_log4 : log_state := append_run 16384 3 [word_write 7 24 9] sample_log3.

Lemma sample_log4_view : log_view sample_log4 1 4.
Proof.
  apply (append_run_view 16384 sample_log3 1 3); [apply sample_log3_view|lia|by apply ws_of_repr; [repeat constructor|]|].
  by apply fresh_by_size; [| |vm_compute].
Qed.

Lemma sample_log4_writes : log_writes sample_log4 (c_latest_ts sample_cps) 4 = [(7, 16, 1); (7, 4096, 2); (8, 0, 3); (7, 16, 4); (7, 24, 9)].
Proof. by vm_compute. Qed.

Lemma sample_made : sivfs_make_checkpoint x86_flags ZERO_PA good_env sample_log3 3 sample_cps = (Ok true, sample_cps3).
Proof.
  unfold sample_cps3. pose proof (eq_refl : (sivfs_make_checkpoint x86_flags ZERO_PA good_env sample_log3 3 sample_cps).1 = Ok true) as E.
  destruct (sivfs_make_checkpoint _ _ _ _ _ _) as [r c']. cbn [fst snd] in *. by rewrite E.
Qed.

Lemma served_page_is_checkpoint_page_witness :
  my_sivfs_update_page x86_flags sample_cps sample_log4 4 (c_latest sample_cps) 7 (0 * PAGE_SIZE)
    = Ok (<[3%nat := 9]> (<[2%nat := 4]> (replicate 512 0))) /\
  served_alike x86_flags sample_cps sample_cps3 sample_log4 4 (c_latest sample_cps) (c_latest sample_cps3) 7 0 /\
  exists i', c_inodes sample_cps3 !! c_latest sample_cps3 = Some i' /\ ci_ts i' = 3 /\
    my_sivfs_update_page x86_flags sample_cps sample_log4 3 (c_latest sample_cps) 7 (0 * PAGE_SIZE)
    = sivfs_read_checkpoint x86_flags PAGE_SIZE (ci_root i') 7 (0 * PAGE_SIZE) (p_pages (c_store sample_cps3)).
Proof.
  split; [by vm_compute|].
  apply (served_page_is_checkpoint_page x86_flags ZERO_PA sample_log3 1 3 good_env sample_cps sample_cps3 sample_log4 4 4 7 0).
  - apply sample_log3_view.
  - by vm_compute.
  - by vm_compute.
  - exact sample_cps_inv.
  - exact good_env_inode.
  - by vm_compute.
  - exact sample_made.
  - exact sample_log4_view.
  - lia.
  - by vm_compute.
  - rewrite sample_log4_writes. repeat (constructor; [split; [|split]; lia || reflexivity|]). constructor.
  - split; lia.
Defined.
