(* ===== verification/CommitUpdate.v ===== *)
(** my_sivfs_commit_update as a whole (kern/sivfs_commit_update_checkpoints.c):
    a transaction that commits, or is aborted, ends up at a new snapshot, and
    its pages show exactly that snapshot. *)
From S2P Require Import Prelude Types RadixTree Writeset Log LogView Commit PageTree MakeCheckpoint Checkpoints Alloc AllocLayout AllocInv AllocFile Workingset Update.

Section commit_update.
Context {T : Type} `{PageCacheLaws T}.

(** The caller's write set: none, one whose entries say which file they are in
    ([ws_has_metadata]), or one whose entries lie in mapped files; [own]: its
    writes, by file and offset. *)
Definition placed (ev : upd_env) (lw : sivfs_log_entry) (es : list wse) (own : list (Z * Z * Z)) : Prop :=
  if le_ws_has_metadata lw then own = wse_write <$> es
  else Forall (in_file (ue_find_vma ev)) es /\ own = wse_write <$> (located (ue_find_vma ev) <$> es).

Definition committing (ev : upd_env) (u : ustate T) (own : list (Z * Z * Z)) : Prop :=
  match us_writeset u with
  | None => own = []
  | Some lw => exists es, ws_repr (le_ws lw) es /\ le_aborted lw = false /\ placed ev lw es own
  end.

(** The task [t] reads the snapshot [m] and has made the writes [own]; the log
    holds the outcome of every transaction up to [n]. *)
Record running (ev : upd_env) (t : Z) (u : ustate T) (h : gmap Z cpage) (m : Z -> Z -> page) (own : list (Z * Z * Z)) (lo n : Z) : Prop := {
  ru_clock : us_commit u = mk_cs (cs_log (us_commit u)) n n;
  ru_log : log_view (cs_log (us_commit u)) lo n;
  ru_n : n + 1 < 2 ^ 63;
  ru_alloc : alloc_inv (us_alloc u);
  ru_thread : is_Some (a_threads (us_alloc u) !! t);
  ru_ws : ws_ok (st_workingset (us_task u));
  ru_direct : st_direct_access (us_task u) = false;
  ru_ts : 0 <= st_ts (us_task u) <= n /\ lo <= st_ts (us_task u) + 1;
  ru_writes : Forall write_ok (log_writes (cs_log (us_commit u)) (st_ts (us_task u)) n ++ own);
  ru_shows : shows h (st_workingset (us_task u)) m own;
  ru_committing : committing ev u own
}.

(** No checkpoint is published during the call; memory for the log is fresh. *)
Record undisturbed (ev : upd_env) (u : ustate T) : Prop := {
  un_latest : exists cp, cp <> 0 /\ ue_latest_ts ev <> SIVFS_INVALID_TS /\ ue_seen ev = [(cp, ue_latest_ts ev, ue_latest_ts ev)];
  un_insert : ue_insert ev = true;
  un_chunk : forall lw p, us_writeset u = Some lw -> ue_chunk ev = Some p -> Log.fresh_chunk (cs_log (us_commit u)) p (new_chunk_bytes (ws_size_bytes (le_ws lw)))
}.

Lemma placed_ok ev lw es own : ws_repr (le_ws lw) es -> le_aborted lw = false -> placed ev lw es own ->
  exists lw' es', sivfs_add_metadata_to_changes (ue_find_vma ev) lw = (Ok tt, lw') /\ ws_repr (le_ws lw') es' /\
    ws_size_bytes (le_ws lw') = ws_size_bytes (le_ws lw) /\ own = wse_write <$> es' /\ (le_ws_has_metadata lw = true -> lw' = lw).
Proof.
  intros Hr Hna. unfold placed. destruct (le_ws_has_metadata lw) eqn:Em.
  - intros ->. exists lw, es. split; [unfold sivfs_add_metadata_to_changes; by rewrite (bind_step (gets _) _ lw lw lw eq_refl), Em|done].
  - intros [Hin ->]. destruct (add_metadata_ok _ lw es Hr Em Hna Hin) as (lw' & E & Hr' & _ & Hsz). by exists lw', (located (ue_find_vma ev) <$> es).
Qed.

(** The caller's write set stays as it is when its entries say their file. *)
Definition writeset_kept (u : ustate T) (w : option sivfs_log_entry) : Prop :=
  forall lw, us_writeset u = Some lw -> le_ws_has_metadata lw = true -> w = Some lw.

(** ** The log after the commit *)

Lemma entry_writes_next nx e : entry_writes (with_next nx e) = entry_writes e.
Proof. done. Qed.

Lemma log_writes_same l l' lo n t0 : log_view l lo n -> lo <= t0 + 1 -> t0 <= n ->
  (forall t e, t <= n -> entry_at l t = Some e -> exists nx, entry_at l' t = Some (with_next nx e)) ->
  log_writes l' t0 n = log_writes l t0 n.
Proof.
  intros Hv Hlo Hn He. unfold log_writes. assert (Hk : t0 + Z.of_nat (Z.to_nat (n - t0)) <= n) by lia.
  revert Hlo Hk. generalize (Z.to_nat (n - t0)) as k. intros k. clear Hn. revert t0. induction k as [|k IH]; intros t Hlo Hk; [done|].
  cbn [log_slice]. destruct (view_entry _ _ _ Hv (t + 1) ltac:(lia)) as (p & e & _ & _ & E & _). rewrite E.
  destruct (He (t + 1) e ltac:(lia) E) as [nx ->]. rewrite !bind_cons, entry_writes_next. f_equal. apply IH; lia.
Qed.

Lemma log_writes_nil st t : log_writes st t t = [].
Proof. unfold log_writes. by rewrite Z.sub_diag. Qed.

(** The last entry's writes come last. *)
Lemma log_writes_last st lo n t0 e : log_view st lo (n + 1) -> lo <= t0 + 1 -> t0 <= n -> entry_at st (n + 1) = Some e ->
  log_writes st t0 (n + 1) = log_writes st t0 n ++ entry_writes e /\ log_writes st n (n + 1) = entry_writes e.
Proof.
  intros Hv Hlo Hn He. split.
  - destruct (log_writes_split st lo (n + 1) t0 (n + 1) (n + 1) e Hv Hlo ltac:(lia) ltac:(lia) He) as [-> _].
    by rewrite log_writes_nil, app_nil_r, Z.add_simpl_r.
  - unfold log_writes. replace (Z.to_nat (n + 1 - n)) with 1%nat by lia. cbn [log_slice]. rewrite He, bind_cons. apply app_nil_r.
Qed.

(** No conflict means that different words were written. *)
Lemma no_conflict_disjoint lw es l : ws_repr (le_ws lw) es -> Forall (fun e => exists es, ws_repr (le_ws e) es) l ->
  existsb (entry_conflicts lw) l = false <-> disjoint_writes (l ≫= entry_writes) (wse_write <$> es).
Proof.
  intros Hr Hl. assert (Hone : forall e es', ws_repr (le_ws e) es' ->
    entry_conflicts lw e = false <-> disjoint_writes (entry_writes e) (wse_write <$> es)).
  { intros e es' Hr'. rewrite (entry_conflicts_repr _ _ _ _ Hr Hr'), (entry_writes_repr _ _ Hr'). destruct (le_aborted e); [by split; [intros _ w w' ?%not_elem_of_nil|]|].
    cbn [negb andb]. rewrite <- not_true_iff_false, ws_conflict_spec. unfold disjoint_writes. setoid_rewrite list_elem_of_fmap. split.
    - intros Hn w w' (a & -> & Ha) (b & -> & Hb) E. apply Hn. exists b, a. split; [done|]. split; [done|]. by symmetry.
    - intros Hd (a & b & Ha & Hb & E). by apply (Hd (wse_write b) (wse_write a)); [exists b|exists a|]. }
  induction Hl as [|e l [es' Hr'] _ IH]; [by split; [intros _ w w' ?%not_elem_of_nil|]|]. cbn [existsb]. rewrite bind_cons, orb_false_iff, (Hone e es' Hr'), IH.
  unfold disjoint_writes. setoid_rewrite elem_of_app. naive_solver.
Qed.

Lemma shows_dropped h (ws ws' : gmap Z (anon_inode T)) m own : shows h ws m own -> dropped ws ws' own -> shows h ws' m [].
Proof.
  intros [Hc Hm] [_ _ Dc Dm]. split.
  - intros ino pg p Hp. rewrite Dc. destruct (existsb _ own) eqn:E; [done|]. intros Hcp Hu. rewrite (Hc _ _ _ Hp Hcp Hu). by apply page_untouched.
  - intros ino pg v Hp. rewrite Dm. destruct (existsb _ own); [done|]. intros Hv. by destruct (Hm _ _ _ Hp Hv).
Qed.

(** ** Committing the writes *)

(** From any time on, the log has grown by the transaction's writes, or by none. *)
Definition grown (u u1 : ustate T) (own : list (Z * Z * Z)) (lo n n' : Z) (b : bool) : Prop := forall t0, lo <= t0 + 1 -> t0 <= n ->
  log_writes (cs_log (us_commit u1)) t0 n' = log_writes (cs_log (us_commit u)) t0 n ++ if b then [] else own.

(** After the commit: the log is at [n']; the working set shows the old
    snapshot with those writes that sivfs_update has to skip. *)
Record logged (u u1 : ustate T) (h : gmap Z cpage) (m : Z -> Z -> page) (own : list (Z * Z * Z)) (lo n n' commit_ts : Z) (b : bool) : Prop := {
  lg_clock : us_commit u1 = mk_cs (cs_log (us_commit u1)) n' n';
  lg_log : log_view (cs_log (us_commit u1)) lo n';
  lg_n : n <= n' <= n + 1;
  lg_alloc : us_alloc u1 = us_alloc u;
  lg_writeset : writeset_kept u (us_writeset u1);
  lg_task : exists ws, us_task u1 = set_workingset ws (us_task u) /\ ws_ok ws /\ no_new_pages (st_workingset (us_task u)) ws /\
    exists own', shows h ws m own' /\ own_writes (cs_log (us_commit u1)) (st_ts (us_task u)) commit_ts n' own';
  lg_from : grown u u1 own lo n n' b
}.

(** Nothing is committed: no entry is added, none is skipped. *)
Lemma own_writes_none st lo n t0 : log_view st lo n -> lo <= t0 + 1 -> 0 <= t0 <= n -> own_writes st t0 SIVFS_INVALID_TS n [].
Proof.
  intros Hv Hlo Hn. left. split; [done|]. intros e He Hts. pose proof (lv_n _ _ _ Hv).
  apply (slice_ts _ lo n) in He; [|done|lia..]. revert Hts. change SIVFS_INVALID_TS with (two64 - 1). u64_lia.
Qed.

Lemma set_workingset_id (s : task T) : set_workingset (st_workingset s) s = s.
Proof. by destruct s. Qed.

Lemma empty_writeset_nil ws es : ws_repr ws es -> sivfs_writeset_empty ws = true -> es = [].
Proof.
  intros Hr. unfold sivfs_writeset_empty. rewrite (repr_size _ _ Hr). intros Hz%Z.eqb_eq. destruct es as [|w es]; [done|].
  exfalso. rewrite encode_cons, length_app in Hz. pose proof (length_encode_wse w). lia.
Qed.

Lemma commit_writes_nothing ev t u h m own lo n ab : running ev t u h m own lo n ->
  (us_writeset u = None \/ exists lw, us_writeset u = Some lw /\ sivfs_writeset_empty (le_ws lw) = true) ->
  own = [] /\ commit_writes ev ab u = (Ok (SIVFS_INVALID_TS, ab), u) /\ logged u u h m own lo n n SIVFS_INVALID_TS ab.
Proof.
  intros R Hw. assert (Hown : own = []).
  { pose proof (ru_committing _ _ _ _ _ _ _ _ R) as Hc. unfold committing in Hc. destruct Hw as [Hw|(lw & Hw & He)]; rewrite Hw in Hc; [done|].
    destruct Hc as (es & Hr & _ & Hp). pose proof (empty_writeset_nil _ _ Hr He) as ->. unfold placed in Hp.
    destruct (le_ws_has_metadata lw); [exact Hp|exact (proj2 Hp)]. }
  split; [done|]. subst own. split.
  - unfold commit_writes. rewrite (bind_step (gets us_writeset) _ u (us_writeset u) u eq_refl). destruct Hw as [Hw|(lw & Hw & He)]; rewrite Hw; [done|by rewrite He].
  - pose proof (ru_ts _ _ _ _ _ _ _ _ R) as [? ?]. split; [apply R|apply R|lia|done|by intros ? ? _| |intros t0 _ _; by destruct ab; rewrite app_nil_r].
    exists (st_workingset (us_task u)). split; [by rewrite set_workingset_id|]. split; [apply R|]. split; [done|]. exists []. split; [apply R|].
    apply (own_writes_none _ lo); [apply R|lia..].
Qed.

(** A step that only touches one part of the state. *)
Lemma on_task_step {A} (f : M (task T) A) u a s : f (us_task u) = (Ok a, s) -> on_task f u = (Ok a, mk_us (us_commit u) (us_alloc u) s (us_writeset u)).
Proof. intros E. unfold on_task. by rewrite E. Qed.
Lemma on_alloc_step {A} (f : M astate A) (u : ustate T) a s : f (us_alloc u) = (Ok a, s) -> on_alloc f u = (Ok a, mk_us (us_commit u) s (us_task u) (us_writeset u)).
Proof. intros E. unfold on_alloc. by rewrite E. Qed.
Lemma on_commit_run {A} (f : M commit_state A) (u : ustate T) r s : f (us_commit u) = (r, s) -> on_commit f u = (r, mk_us s (us_alloc u) (us_task u) (us_writeset u)).
Proof. intros E. unfold on_commit. by rewrite E. Qed.

Lemma invalidate_ok (u : ustate T) h m own lw es : shows h (st_workingset (us_task u)) m own -> ws_ok (st_workingset (us_task u)) ->
  ws_repr (le_ws lw) es -> own = wse_write <$> es -> Forall write_ok own ->
  exists ws, on_task (on_ws (sivfs_invalidate_workingset_log lw)) u
    = (Ok tt, mk_us (us_commit u) (us_alloc u) (set_workingset ws (us_task u)) (us_writeset u)) /\ ws_ok ws /\ no_new_pages (st_workingset (us_task u)) ws /\ shows h ws m [].
Proof.
  intros Hsh Hok Hr -> Hw. destruct (invalidate_log_ok lw es (st_workingset (us_task u)) Hr Hok) as (ws & E & D).
  { eapply Forall_impl; [exact Hw|apply write_ok_offset]. }
  exists ws. split; [|split; [apply D|split; [exact (dropped_no_new _ _ _ D)|by eapply shows_dropped]]]. apply on_task_step. unfold on_ws. by rewrite E.
Qed.

Lemma TRACK_off : SIVFS_TRACK_CLEAR_WORKINGSET_EVERY_TXN = false.
Proof. reflexivity. Qed.

(** An aborted transaction commits nothing. *)
Lemma logged_aborted u ws w lo n h m own t ev : running ev t u h m own lo n -> ws_ok ws -> no_new_pages (st_workingset (us_task u)) ws -> shows h ws m [] -> writeset_kept u w ->
  logged u (mk_us (us_commit u) (us_alloc u) (set_workingset ws (us_task u)) w) h m own lo n n SIVFS_INVALID_TS true.
Proof.
  intros R Hok Hnn Hsh Hkept. pose proof (ru_ts _ _ _ _ _ _ _ _ R) as [? ?].
  split; cbn [us_commit us_alloc us_task us_writeset]; [apply R|apply R|lia|done|done| |intros t0 _ _; by rewrite app_nil_r].
  exists ws. split; [done|]. split; [done|]. split; [done|]. exists []. split; [done|]. apply (own_writes_none _ lo); [apply R|lia..].
Qed.

(** The entry at [n + 1] is the transaction's: its writes, unless it aborted. *)
Lemma logged_committed u s' ws w ev t h m own own' es lo n (b : bool) e : running ev t u h m own lo n -> ws_ok ws -> no_new_pages (st_workingset (us_task u)) ws -> writeset_kept u w -> shows h ws m own' ->
  own' = (if b then [] else own) -> own = wse_write <$> es ->
  s' = mk_cs (cs_log s') (n + 1) (n + 1) -> log_view (cs_log s') lo (n + 1) ->
  entry_at (cs_log s') (n + 1) = Some e -> ws_repr (le_ws e) es -> le_aborted e = b ->
  (forall t e, t <= n -> entry_at (cs_log (us_commit u)) t = Some e -> exists nx, entry_at (cs_log s') t = Some (with_next nx e)) ->
  (b = false -> disjoint_writes (log_writes (cs_log (us_commit u)) (st_ts (us_task u)) n) own) ->
  logged u (mk_us s' (us_alloc u) (set_workingset ws (us_task u)) w) h m own lo n (n + 1) (n + 1) b.
Proof.
  intros R Hok Hnn Hkept Hsh Ho' Ho Hs Hv He Hr Hb Hold Hd. pose proof (ru_ts _ _ _ _ _ _ _ _ R) as [? ?].
  assert (Hsame : forall t0, lo <= t0 + 1 -> t0 <= n -> log_writes (cs_log s') t0 n = log_writes (cs_log (us_commit u)) t0 n)
    by (intros t0 ? ?; apply (log_writes_same _ _ lo n t0 (ru_log _ _ _ _ _ _ _ _ R)); done).
  assert (Hew : entry_writes e = own') by (rewrite (entry_writes_repr _ _ Hr), Hb, Ho', Ho; by destruct b).
  split; cbn [us_commit us_alloc us_task us_writeset]; [done|done|lia|done|done| |intros t0 Ht1 Ht2; cbn [us_commit]; destruct (log_writes_last _ lo n t0 e Hv Ht1 Ht2 He) as [-> _]; by rewrite (Hsame _ Ht1 Ht2), Hew, Ho'].
  exists ws. split; [done|]. split; [done|]. split; [done|]. exists own'. split; [done|]. destruct b; subst own'.
  - left. split; [done|]. intros e' Hin Hts. apply (slice_entry_at _ lo (n + 1)) in Hin; [|done|lia..]. rewrite Hts in Hin. congruence.
  - right. split; [lia|]. split; [by exists e|]. rewrite Z.add_simpl_r, Hsame by lia. by apply Hd.
Qed.

(** [doomed]: aborted by the caller or by the allocator; a transaction commits
    exactly when it is not, and no transaction since its snapshot wrote one of its words. *)
Definition commits (u : ustate T) (n : Z) (own : list (Z * Z * Z)) (doomed : bool) : Prop :=
  doomed = false /\ disjoint_writes (log_writes (cs_log (us_commit u)) (st_ts (us_task u)) n) own.

Lemma commit_writes_ok ev t u h m own lo n doomed : running ev t u h m own lo n -> undisturbed ev u ->
  (exists ct b u1 n', commit_writes ev doomed u = (Ok (ct, b), u1) /\ logged u u1 h m own lo n n' ct b /\ (b = false <-> commits u n own doomed)) \/
  (ue_chunk ev = None /\ exists u1, commit_writes ev doomed u = (Err ENOMEM, u1) /\ doomed = false /\ us_commit u1 = us_commit u /\ us_task u1 = us_task u /\ us_alloc u1 = us_alloc u).
Proof.
  intros R Un. destruct (us_writeset u) as [lw|] eqn:Hw.
  2: { left. destruct (commit_writes_nothing _ _ _ _ _ _ _ _ doomed R (or_introl Hw)) as (-> & E & L). eexists _, _, _, _. split; [exact E|].
       split; [exact L|]. split; [intros ->; by split; [|intros w w' _ ?%not_elem_of_nil]|by intros [-> _]]. }
  destruct (sivfs_writeset_empty (le_ws lw)) eqn:He.
  { left. destruct (commit_writes_nothing _ _ _ _ _ _ _ _ doomed R (or_intror (ex_intro _ lw (conj Hw He)))) as (-> & E & L). eexists _, _, _, _. split; [exact E|].
    split; [exact L|]. split; [intros ->; by split; [|intros w w' _ ?%not_elem_of_nil]|by intros [-> _]]. }
  pose proof (ru_committing _ _ _ _ _ _ _ _ R) as Hc. unfold committing in Hc. rewrite Hw in Hc. destruct Hc as (es & Hr & Hna & Hp).
  pose proof (ru_writes _ _ _ _ _ _ _ _ R) as [_ Hwo]%Forall_app. pose proof (ru_ts _ _ _ _ _ _ _ _ R) as [Hts Hlo].
  destruct (placed_ok ev lw es own Hr Hna Hp) as (lw' & es' & Em & Hr' & Hsz & Hown & Hsame).
  assert (Hkept : writeset_kept u (Some lw')) by (intros lw0 E Hm; rewrite Hw in E; injection E as <-; by rewrite Hsame). set (u0 := mk_us (us_commit u) (us_alloc u) (us_task u) (Some lw')).
  unfold commit_writes. rewrite (bind_step (gets us_writeset) _ u (us_writeset u) u eq_refl), Hw, He.
  rewrite (bind_step (on_writeset _) _ u tt u0) by (unfold on_writeset; by rewrite Hw, Em).
  rewrite (bind_step (gets us_writeset) _ u0 (Some lw') u0 eq_refl). cbn [default]. rewrite (bind_step (gets us_task) _ u0 (us_task u) u0 eq_refl), TRACK_off.
  destruct doomed.
  { left. rewrite (bind_step (ret _) _ u0 (SIVFS_INVALID_TS, true) u0 eq_refl). cbn [andb negb].
    destruct (invalidate_ok u0 h m own lw' _ (ru_shows _ _ _ _ _ _ _ _ R) (ru_ws _ _ _ _ _ _ _ _ R) Hr' Hown Hwo) as (ws & E & Hok & Hnn & Hsh).
    rewrite (bind_step _ _ _ _ _ E). eexists _, _, _, _. split; [reflexivity|]. split; [exact (logged_aborted u ws _ lo n h m own t ev R Hok Hnn Hsh Hkept)|]. by split; [|intros []]. }
  destruct (commit_changes_ok (cs_log (us_commit u)) lo n (st_ts (us_task u)) lw' _ (ue_chunk ev) (ru_log _ _ _ _ _ _ _ _ R) (ru_n _ _ _ _ _ _ _ _ R) Hr')
    as [(s' & E & Hs1 & Hs2 & Hv & (e & Hea & Hre & _ & Hab) & Hold)|[Hk E]]; [|done|done| |].
  { intros p Hpc. rewrite Hsz. by apply (un_chunk _ _ Un). }
  - left. set (b := existsb _ _) in *. rewrite <- (ru_clock _ _ _ _ _ _ _ _ R) in E. rewrite <- (un_insert _ _ Un) in E.
    rewrite (bind_step _ _ _ _ _ (on_commit_run _ u0 _ _ E)). set (u1 := mk_us s' _ _ _).
    assert (Hdis : b = false <-> disjoint_writes (log_writes (cs_log (us_commit u)) (st_ts (us_task u)) n) own).
    { rewrite Hown. apply no_conflict_disjoint; [done|]. apply (view_slice_repr _ lo n); [apply R|lia..]. }
    assert (Hcom : b = false <-> commits u n own false) by (unfold commits; rewrite Hdis; naive_solver).
    destruct b eqn:Eb; cbn [andb negb].
    + destruct (invalidate_ok u1 h m own lw' _ (ru_shows _ _ _ _ _ _ _ _ R) (ru_ws _ _ _ _ _ _ _ _ R) Hr' Hown Hwo) as (ws & E2 & Hok & Hnn & Hsh).
      rewrite (bind_step _ _ _ _ _ E2). eexists _, _, _, _. split; [reflexivity|]. split; [|done].
      apply (logged_committed u s' ws _ ev t h m own [] _ lo n true e R Hok Hnn Hkept Hsh eq_refl Hown); [by destruct s'; cbn in *; subst|done..].
    + rewrite (bind_step (ret tt) _ u1 tt u1 eq_refl). eexists _, _, _, _. split; [reflexivity|]. split; [|done]. assert (u1 = mk_us s' (us_alloc u) (set_workingset (st_workingset (us_task u)) (us_task u)) (Some lw')) as -> by (by rewrite set_workingset_id).
      apply (logged_committed u s' _ _ ev t h m own own _ lo n false e R (ru_ws _ _ _ _ _ _ _ _ R) (no_new_refl _) Hkept (ru_shows _ _ _ _ _ _ _ _ R) eq_refl Hown); [by destruct s'; cbn in *; subst|done..|].
      intros _. by apply Hdis.
  - right. split; [done|]. rewrite <- (ru_clock _ _ _ _ _ _ _ _ R) in E. rewrite <- (un_insert _ _ Un) in E.
    rewrite (bind_err _ _ _ _ _ (on_commit_run _ u0 _ _ E)). by eexists.
Qed.

(** ** Moving to the latest snapshot *)

Lemma checkout_ok ev (u : ustate T) (s : task T) : undisturbed ev u ->
  exists cp t, checkout_checkpoint (ue_latest_ts ev) (ue_seen ev) s = (Ok (ue_latest_ts ev), set_checkpoint cp t s) /\ t = ue_latest_ts ev.
Proof.
  intros [(cp & Hcp & Hinv & Hseen) _ _]. unfold checkout_checkpoint. rewrite (bind_step (gets _) _ s s s eq_refl).
  destruct (Z.eqb_spec (st_checkpoint_ts s) (ue_latest_ts ev)) as [E|_].
  { exists (st_checkpoint s), (st_checkpoint_ts s). split; [by destruct s|done]. }
  exists cp, (ue_latest_ts ev). split; [|done]. rewrite Hseen. set (s1 := set_checkpoint cp (ue_latest_ts ev) s).
  assert (E : read_latest (ue_latest_ts ev) [(cp, ue_latest_ts ev, ue_latest_ts ev)] s = (Ok (ue_latest_ts ev), s1)).
  { cbn [read_latest]. unfold modify, bind. by rewrite Z.eqb_refl, (proj2 (Z.eqb_neq _ _) Hinv). }
  rewrite (bind_step _ _ _ _ _ E), (bind_step (gets _) _ s1 s1 s1 eq_refl). cbn [s1 set_checkpoint st_checkpoint]. by rewrite (proj2 (Z.eqb_neq _ _) Hcp).
Qed.

(** The task reads the snapshot [m] at [n] and has written nothing. *)
Record arrived (ev : upd_env) (s : task T) (h : gmap Z cpage) (m : Z -> Z -> page) (n : Z) : Prop := {
  av_ts : st_ts s = n;
  av_checkpoint : st_checkpoint_ts s = ue_latest_ts ev /\ st_prior_checkpoint_ts s = ue_latest_ts ev;
  av_direct : st_direct_access s = false;
  av_ws : ws_ok (st_workingset s);
  av_shows : shows h (st_workingset s) m []
}.

Lemma move_snapshot_ok ev (u0 u : ustate T) t options ct b h m own lo n x : undisturbed ev u0 ->
  us_commit u = mk_cs (cs_log (us_commit u)) n n -> log_view (cs_log (us_commit u)) lo n ->
  a_threads (us_alloc u) !! t = Some x -> Z.land options SIVFS_DIRECT_ACCESS = 0 -> st_direct_access (us_task u) = false ->
  0 <= st_ts (us_task u) <= n -> lo <= st_ts (us_task u) + 1 -> ws_ok (st_workingset (us_task u)) ->
  Forall write_ok (log_writes (cs_log (us_commit u)) (st_ts (us_task u)) n) ->
  shows h (st_workingset (us_task u)) m own -> own_writes (cs_log (us_commit u)) (st_ts (us_task u)) ct n own ->
  exists s, move_snapshot ev t options ct b u = (Ok tt, mk_us (us_commit u)
      (set_threads (<[t := mk_tstate n (t_allocated_chunks x) (t_chunks_to_free x) (t_should_abort x)]> (a_threads (us_alloc u))) (us_alloc u)) s (us_writeset u)) /\
    arrived ev s h (advance (cs_log (us_commit u)) (st_ts (us_task u)) n m) n /\ no_new_pages (st_workingset (us_task u)) (st_workingset s).
Proof.
  intros Un Hcs Hv Hx Hopt Hda Hts Hlo Hok Hw Hsh Hown.
  destruct (checkout_ok ev u0 (us_task u) Un) as (cp & tc & E & ->). set (s1 := set_checkpoint cp _ _) in *.
  destruct (sivfs_update_ok (cs_log (us_commit u)) lo n (set_direct_access false s1) h m own n ct Hv Hok eq_refl Hts ltac:(lia) Hlo Hw Hsh Hown) as (ws' & E2 & Hok2 & Hnn & Hsh2).
  set (s2 := set_ts n _) in *. unfold move_snapshot. rewrite (bind_step _ _ _ _ _ (on_task_step _ u _ _ E)). set (u1 := mk_us _ _ s1 _).
  rewrite (bind_step (gets us_task) _ u1 s1 u1 eq_refl), (bind_step (gets us_commit) _ u1 (us_commit u) u1 eq_refl), Hopt.
  cbn [Z.eqb negb SIVFS_FIGURE_EXTERNAL_CONSISTENCY_TRICKS andb]. assert (Hd1 : st_direct_access s1 = false) by done. rewrite Hd1, bind_assoc.
  rewrite (bind_step (ret tt) _ u1 tt u1 eq_refl), bind_assoc. set (u2 := mk_us (us_commit u) (us_alloc u) (set_direct_access false s1) (us_writeset u)).
  rewrite (bind_step (on_task (modify _)) _ u1 tt u2 eq_refl). assert (Hm : cs_master_ts (us_commit u) = n) by by rewrite Hcs. rewrite Hm.
  rewrite (bind_step _ _ _ _ _ (on_task_step _ u2 _ _ E2)). set (u3 := mk_us _ _ s2 _). set (al := set_threads _ _).
  rewrite (bind_step _ _ _ _ _ (on_alloc_step (tell_ts t n) u3 tt al (bind_step _ _ _ _ _ (load_thread_ok (us_alloc u) t x Hx)))).
  exists (if st_prior_checkpoint_ts s2 =? ue_latest_ts ev then s2 else set_prior_checkpoint_ts (ue_latest_ts ev) s2).
  split; [reflexivity|]. assert (A : arrived ev (set_prior_checkpoint_ts (ue_latest_ts ev) s2) h (advance (cs_log (us_commit u)) (st_ts (us_task u)) n m) n) by by split.
  destruct (Z.eqb_spec (st_prior_checkpoint_ts s2) (ue_latest_ts ev)) as [Ep|]; (split; [|exact Hnn]); [|exact A].
  destruct A. by split.
Qed.

(** ** The whole call *)

Definition unflagged (t : Z) (x : tstate) (s : astate) : astate :=
  set_threads (<[t := with_should_abort false x]> (a_threads s)) s.

(** After the call: the log has grown by the transaction's writes, or by none;
    the allocator has settled; the task reads the newest snapshot. *)
Record committed (ev : upd_env) (u u' : ustate T) (t : Z) (x : tstate) (h : gmap Z cpage) (m : Z -> Z -> page) (own : list (Z * Z * Z)) (lo n n' : Z) (b : bool) : Prop := {
  cm_clock : us_commit u' = mk_cs (cs_log (us_commit u')) n' n';
  cm_log : log_view (cs_log (us_commit u')) lo n';
  cm_n : n <= n' <= n + 1;
  cm_writes : log_writes (cs_log (us_commit u')) (st_ts (us_task u)) n' =
    log_writes (cs_log (us_commit u)) (st_ts (us_task u)) n ++ if b then [] else own;
  cm_arrived : arrived ev (us_task u') h (advance (cs_log (us_commit u')) (st_ts (us_task u)) n' m) n';
  cm_alloc : alloc_inv (us_alloc u') /\ exists s1, settled (unflagged t x (us_alloc u)) s1 t (with_should_abort false x) b /\
    us_alloc u' = set_threads (<[t := mk_tstate n' [] [] false]> (a_threads s1)) s1
}.

Lemma unflagged_id t x s : a_threads s !! t = Some x -> t_should_abort x = false -> unflagged t x s = s.
Proof.
  intros Hx Hf. unfold unflagged. destruct x as [xt xa xf f]. cbn in Hf. subst f. unfold with_should_abort.
  cbn [t_ts t_allocated_chunks t_chunks_to_free t_should_abort]. rewrite insert_id by done. by destruct s.
Qed.

Lemma take_should_abort_ok s t x : alloc_inv s -> a_threads s !! t = Some x ->
  take_should_abort t s = (Ok (t_should_abort x), unflagged t x s) /\ alloc_inv (unflagged t x s).
Proof.
  intros Hinv Hx. split.
  - unfold take_should_abort. rewrite (bind_step _ _ _ _ _ (load_thread_ok s t x Hx)). destruct (t_should_abort x) eqn:Ef; [done|]. by rewrite unflagged_id.
  - by apply (insert_thread_le s t x Hinv Hx).
Qed.

Lemma HARDLIMIT_off : (SIVFS_FIGURE_WORKINGSET_HARDLIMIT_PLUS_ONE =? 1) = false /\ (SIVFS_FIGURE_WORKINGSET_HARDLIMIT_PLUS_ONE =? -1) = true.
Proof. done. Qed.

(** After the commit, the rest of the call. *)
Lemma settle_and_move ev u u1 t options x h m own lo n n' ct b : running ev t u h m own lo n -> undisturbed ev u ->
  Z.land options SIVFS_DIRECT_ACCESS = 0 -> alloc_inv (us_alloc u1) -> a_threads (us_alloc u1) !! t = Some x ->
  logged u u1 h m own lo n n' ct b -> 
  exists u' s1, (do! on_alloc (sivfs_allocation_on_commit (ue_alloc ev) t b ct) in
    do! (if SIVFS_FIGURE_WORKINGSET_HARDLIMIT_PLUS_ONE =? 1 then on_task (on_ws (sivfs_invalidate_workingset SIVFS_NO_INVALIDATE_CPS))
         else if SIVFS_FIGURE_WORKINGSET_HARDLIMIT_PLUS_ONE =? -1 then ret tt else throw EINVAL) in
    do! move_snapshot ev t options ct b in ret b) u1 = (Ok b, u') /\ us_commit u' = us_commit u1 /\
    arrived ev (us_task u') h (advance (cs_log (us_commit u1)) (st_ts (us_task u)) n' m) n' /\ alloc_inv (us_alloc u') /\
    settled (us_alloc u1) s1 t x b /\ us_alloc u' = set_threads (<[t := mk_tstate n' [] [] (t_should_abort x)]> (a_threads s1)) s1 /\
    no_new_pages (st_workingset (us_task u)) (st_workingset (us_task u')) /\ us_writeset u' = us_writeset u1.
Proof.
  intros R Un Hopt Hinv Hx L. pose proof (ru_ts _ _ _ _ _ _ _ _ R) as [Hts Hlo].
  pose proof (ru_writes _ _ _ _ _ _ _ _ R) as [Hw1 Hw2]%Forall_app. pose proof (lg_n _ _ _ _ _ _ _ _ _ _ L).
  destruct (settle_ok (ue_alloc ev) _ t x b ct Hinv Hx) as (s1 & E & S). rewrite (bind_step _ _ _ _ _ (on_alloc_step _ u1 _ _ E)).
  set (u2 := mk_us _ s1 _ _). destruct HARDLIMIT_off as [-> ->]. rewrite (bind_step (ret tt) _ u2 tt u2 eq_refl).
  destruct (lg_task _ _ _ _ _ _ _ _ _ _ L) as (ws & Ht & Hok & Hnn & own' & Hsh & Hown).
  assert (Ht2 : us_task u2 = set_workingset ws (us_task u)) by exact Ht.
  assert (Hall : Forall write_ok (log_writes (cs_log (us_commit u1)) (st_ts (us_task u)) n')).
  { rewrite (lg_from _ _ _ _ _ _ _ _ _ _ L) by lia. apply Forall_app. split; [done|]. by destruct b. }
  destruct (move_snapshot_ok ev u u2 t options ct b h m own' lo n' _ Un (lg_clock _ _ _ _ _ _ _ _ _ _ L) (lg_log _ _ _ _ _ _ _ _ _ _ L) (st_thread _ _ _ _ _ S) Hopt)
    as (s & Em & A & Hnn2); rewrite ?Ht2; try done; [apply R|cbn [set_workingset st_ts]; lia|].
  rewrite Ht2 in A, Hnn2. rewrite (bind_step _ _ _ _ _ Em). eexists _, s1. split; [reflexivity|]. split; [done|]. split; [exact A|]. split; [|split; [exact S|split; [reflexivity|split; [exact (no_new_trans _ _ _ Hnn Hnn2)|reflexivity]]]].
  cbn [us_alloc u2]. by apply (insert_thread_le s1 t _ (st_inv _ _ _ _ _ S) (st_thread _ _ _ _ _ S)).
Qed.

Lemma commit_update_full ev t options u x h m own lo n : running ev t u h m own lo n -> undisturbed ev u ->
  Z.land options SIVFS_DIRECT_ACCESS = 0 -> a_threads (us_alloc u) !! t = Some x ->
  (exists b u' n', my_sivfs_commit_update ev t options u = (Ok b, u') /\ committed ev u u' t x h m own lo n n' b /\
     (b = false <-> commits u n own (t_should_abort x || negb (Z.land options SIVFS_ABORT_FLAG =? 0))) /\
     no_new_pages (st_workingset (us_task u)) (st_workingset (us_task u')) /\ writeset_kept u (us_writeset u') /\ grown u u' own lo n n' b) \/
  (ue_chunk ev = None /\ exists u', my_sivfs_commit_update ev t options u = (Err ENOMEM, u') /\ us_commit u' = us_commit u /\ us_task u' = us_task u /\ us_alloc u' = us_alloc u).
Proof.
  intros R Un Hopt Hx. destruct (take_should_abort_ok _ t x (ru_alloc _ _ _ _ _ _ _ _ R) Hx) as [Ea Hinv].
  set (u0 := mk_us (us_commit u) (unflagged t x (us_alloc u)) (us_task u) (us_writeset u)).
  assert (Hx0 : a_threads (us_alloc u0) !! t = Some (with_should_abort false x)) by apply lookup_insert_eq.
  assert (R0 : running ev t u0 h m own lo n) by (destruct R; split; try done; by eexists).
  assert (Un0 : undisturbed ev u0) by (destruct Un; by split).
  assert (Hna : match us_writeset u with Some e => le_aborted e | None => false end = false).
  { pose proof (ru_committing _ _ _ _ _ _ _ _ R) as Hc. unfold committing in Hc. destruct (us_writeset u); [|done]. by destruct Hc as (? & _ & ? & _). }
  unfold my_sivfs_commit_update. rewrite (bind_step (gets us_writeset) _ u (us_writeset u) u eq_refl), Hna.
  rewrite (bind_step _ _ _ _ _ (on_alloc_step _ u _ _ Ea)). fold u0. set (doomed := _ || _).
  destruct (commit_writes_ok ev t u0 h m own lo n doomed R0 Un0) as [(ct & b & u1 & n' & E & L & Hb)|(Hk & u1 & E & Hd & Hc & Ht & Hal)].
  - left. rewrite (bind_step _ _ _ _ _ E). pose proof (lg_alloc _ _ _ _ _ _ _ _ _ _ L) as Hal.
    destruct (settle_and_move ev u0 u1 t options (with_should_abort false x) h m own lo n n' ct b R0 Un0 Hopt) as (u' & s1 & E' & Hc' & A & Hi & S & Hal' & Hnn & Hwk); [by rewrite Hal..|done|].
    rewrite E'. exists b, u', n'. split; [done|]. split; [|split; [done|split; [exact Hnn|split; [rewrite Hwk; exact (lg_writeset _ _ _ _ _ _ _ _ _ _ L)|unfold grown; rewrite Hc'; exact (lg_from _ _ _ _ _ _ _ _ _ _ L)]]]]. pose proof (lg_from _ _ _ _ _ _ _ _ _ _ L) as Hg. pose proof (ru_ts _ _ _ _ _ _ _ _ R) as [Ht1 Ht2].
    destruct L. split; rewrite ?Hc'; try done; [apply Hg; lia|]. split; [done|]. exists s1.
    split; [rewrite Hal in S; exact S|done].
  - right. split; [done|]. rewrite (bind_err _ _ _ _ _ E). exists u1. split_and!; try done. rewrite Hal. cbn [u0 us_alloc].
    apply orb_false_iff in Hd as [Hd _]. apply (unflagged_id t x (us_alloc u) Hx Hd).
Qed.

Lemma commit_update_ok ev t options u x h m own lo n : running ev t u h m own lo n -> undisturbed ev u ->
  Z.land options SIVFS_DIRECT_ACCESS = 0 -> a_threads (us_alloc u) !! t = Some x ->
  (exists b u' n', my_sivfs_commit_update ev t options u = (Ok b, u') /\ committed ev u u' t x h m own lo n n' b /\
     (b = false <-> commits u n own (t_should_abort x || negb (Z.land options SIVFS_ABORT_FLAG =? 0)))) \/
  (ue_chunk ev = None /\ exists u', my_sivfs_commit_update ev t options u = (Err ENOMEM, u') /\ us_commit u' = us_commit u /\ us_task u' = us_task u /\ us_alloc u' = us_alloc u).
Proof.
  intros R Un Hopt Hx. destruct (commit_update_full ev t options u x h m own lo n R Un Hopt Hx) as [(b & u' & n' & ? & ? & ? & _)|?]; [left|by right].
  by exists b, u', n'.
Qed.

(** C1. my_sivfs_commit_update commits exactly when the transaction is neither
    aborted (by its caller or by the allocator) nor in conflict with a word
    written since its snapshot. Either way the task ends at the newest
    snapshot: the log holds the old writes and, if it committed, its own, every
    page that the task keeps shows its old snapshot brought forward over that
    log, and the allocator has settled. Only missing memory for the log entry
    makes it fail, and then log, snapshot and allocator are as before. *)
Theorem commit_update_moves ev t options u x h m own lo n : running ev t u h m own lo n -> undisturbed ev u ->
  Z.land options SIVFS_DIRECT_ACCESS = 0 -> a_threads (us_alloc u) !! t = Some x ->
  (exists b u' n', my_sivfs_commit_update ev t options u = (Ok b, u') /\ committed ev u u' t x h m own lo n n' b /\
     (b = false <-> commits u n own (t_should_abort x || negb (Z.land options SIVFS_ABORT_FLAG =? 0)))) \/
  (ue_chunk ev = None /\ exists u', my_sivfs_commit_update ev t options u = (Err ENOMEM, u') /\ us_commit u' = us_commit u /\ us_task u' = us_task u /\ us_alloc u' = us_alloc u).
Proof. apply commit_update_ok. Qed.
End commit_update.

(** ** An example: the log of three transactions; a task at timestamp 1 has
    written word 24 of file 7, whose first page it caches and whose second page
    is mapped from a checkpoint. *)

Definition zero_words : page := replicate 512 0.
Definition sample_snapshot (ino pg : Z) : page := if (ino =? 7) && (pg =? 0) then <[2%nat := 1]> zero_words else zero_words.
Definition sample_pages : gmap Z cpage := {[ 77 := mk_cpage zero_words 1 0 0 false 0 0 0 false ]}.
Definition sample_cache : mappings := mk_mappings {[ 0 := mk_wspage (<[3%nat := 9]> (<[2%nat := 1]> zero_words)) false true ]} {[ 1 := 77 ]}.
Definition sample_ws : gmap Z (anon_inode mappings) := {[ 7 := mk_anon sample_cache (Some (mk_aiinfo {[ 1 := 2 ]} false)) ]}.
Definition sample_vma (a : Z) : option vma := Some (mk_vma 65536 131072 0 7 65536 false false false).
Definition sample_own : list (Z * Z * Z) := [(7, 24, 9)].
Definition sample_write : wse := mk_wse 0 0 65560 (Single 9).
Definition sample_task : task mappings := mk_task 1 50 0 0 false sample_ws.
Definition sample_ustate : ustate mappings :=
  mk_us (mk_cs sample_log3 3 3) sample_allocated sample_task (Some (with_has_metadata false (writeset_entry [sample_write]))).
Definition sample_env : upd_env := mk_uenv (Some 16384) true (rich 103) sample_vma 2 [(60, 2, 2)].

Lemma sample_cached ino pg p : cached sample_ws ino pg = Some p -> ino = 7 /\ pg = 0 /\ p = mk_wspage (<[3%nat := 9]> (<[2%nat := 1]> zero_words)) false true.
Proof.
  unfold cached, sample_ws. rewrite lookup_singleton. destruct (decide (7 = ino)) as [<-|]; [|done]. cbn [mbind option_bind an_mapping find_get_page pagecache_gmap].
  destruct (decide (0 <= pg < 2 ^ 51)); [|done]. unfold sample_cache. cbn [mp_pages]. rewrite lookup_singleton. destruct (decide (0 = pg)) as [<-|]; [|done]. by intros [= <-].
Qed.

Lemma sample_mapped ino pg v : mapped sample_ws ino pg = Some v -> ino = 7 /\ pg = 1 /\ v = 77.
Proof.
  unfold mapped, sample_ws. rewrite lookup_singleton. destruct (decide (7 = ino)) as [<-|]; [|done]. cbn [mbind option_bind an_mapping mapped_page pagecache_gmap].
  destruct (decide (0 <= pg < 2 ^ 51)); [|done]. unfold sample_cache. cbn [mp_ptes]. rewrite lookup_singleton. destruct (decide (1 = pg)) as [<-|]; [|done]. by intros [= <-].
Qed.

Lemma sample_tracked ino pg : is_Some (tracked sample_ws ino pg) <-> ino = 7 /\ pg = 1.
Proof.
  unfold tracked, sample_ws. rewrite lookup_singleton. destruct (decide (7 = ino)) as [<-|]; [|split; [by intros [? ?]|by intros [-> _]]].
  cbn [mbind option_bind an_iinfo an_checkpoint_pages]. rewrite lookup_singleton. destruct (decide (1 = pg)) as [<-|]; [|split; [by intros [? ?]|by intros [_ ->]]].
  cbn [mbind option_bind]. rewrite decide_True by done. split; [done|]. intros _. by eexists.
Qed.

Lemma sample_ws_ok : ws_ok sample_ws.
Proof.
  split.
  - intros ino a. unfold sample_ws. rewrite lookup_singleton. destruct (decide (7 = ino)); [|done]. intros [= <-]. exists (mk_aiinfo {[ 1 := 2 ]} false). by split.
  - intros ino a pg p. unfold sample_ws. rewrite lookup_singleton. destruct (decide (7 = ino)); [|done]. intros [= <-].
    cbn [an_mapping find_get_page pagecache_gmap]. destruct (decide (0 <= pg < 2 ^ 51)); [|done]. unfold sample_cache. cbn [mp_pages]. rewrite lookup_singleton.
    destruct (decide (0 = pg)); [|done]. by intros [= <-].
  - intros ino pg [v Hv]. apply sample_mapped in Hv as (-> & -> & _). by apply sample_tracked.
  - intros ino pg [-> ->]%sample_tracked. destruct (cached _ 7 1) eqn:E; [|done]. by apply sample_cached in E as (_ & ? & _).
Qed.

Lemma working_set_well_formed_witness : exists ws', sivfs_invalidate_workingset SIVFS_NO_INVALIDATE_CPS sample_ws = (Ok tt, ws') /\ emptied true sample_ws ws'.
Proof. destruct (working_set_well_formed sample_ws sample_ws_ok) as (_ & _ & _ & Hi). exact (Hi SIVFS_NO_INVALIDATE_CPS). Defined.

Lemma sample_running : running sample_env 5 sample_ustate sample_pages sample_snapshot sample_own 1 3.
Proof.
  split; cbn [us_commit us_alloc us_task us_writeset sample_ustate cs_log].
  - reflexivity.
  - apply sample_log3_view.
  - lia.
  - apply alloc_reachable_inv, sample_allocated_reachable.
  - eexists. vm_compute. reflexivity.
  - exact sample_ws_ok.
  - reflexivity.
  - cbn [sample_task st_ts]. lia.
  - assert (E : log_writes sample_log3 1 3 ++ sample_own = [(7, 4096, 2); (8, 0, 3); (7, 16, 4); (7, 24, 9)]) by by vm_compute.
    cbn [sample_task st_ts]. rewrite E. repeat (constructor; [split; [|split]; lia || reflexivity|]). constructor.
  - split.
    + intros ino pg p _ E _. by apply sample_cached in E as (-> & -> & ->).
    + intros ino pg v _ E. apply sample_mapped in E as (-> & -> & ->). split; [done|]. by eexists.
  - exists [sample_write]. split; [apply ws_of_repr; [repeat constructor|done]|]. split; [done|]. split; [|done].
    constructor; [|constructor]. eexists. split; [reflexivity|]. by split.
Qed.

Lemma sample_undisturbed : undisturbed sample_env sample_ustate.
Proof.
  split; [by exists 60|done|]. intros lw p [= <-] [= <-]. by apply fresh_by_size; [| |vm_compute].
Qed.

Lemma commit_update_moves_witness : exists b u' n', my_sivfs_commit_update sample_env 5 0 sample_ustate = (Ok b, u') /\
  committed sample_env sample_ustate u' 5 (mk_tstate 4 [100] [] false) sample_pages sample_snapshot sample_own 1 3 n' b /\
  (b = false <-> commits sample_ustate 3 sample_own (false || negb (Z.land 0 SIVFS_ABORT_FLAG =? 0))).
Proof.
  destruct (commit_update_moves sample_env 5 0 sample_ustate (mk_tstate 4 [100] [] false) sample_pages sample_snapshot sample_own 1 3
    sample_running sample_undisturbed eq_refl) as [R|[[=] _]]; [vm_compute; reflexivity|exact R].
Defined.
