(* ===== verification/Ioctl.v ===== *)
(** The ioctls of the device that allocate and free blocks (kern/module.c): what
    they copy from and to the process, and that they keep what the allocator
    promises. *)
From S2P Require Import Prelude Types RadixTree Alloc AllocLayout AllocInv AllocBlock AllocFile AllocAlign Workingset Update.

(** ** Blocks *)

Record sivfs_allocator_args : Type := mk_aargs {
  aa_mmap_start : Z;
  aa_mmap_size : Z;
  aa_alloc_ret : Z;
  aa_alloc_size : Z;
  aa_zone : Z;
  aa_block_alloc : Z
}.

(** The allocator, the field alloc_info of every inode that has an info (0 for
    NULL), and the process's argument block. *)
Record kfiles : Type := mk_kf {
  kf_alloc : astate;
  kf_alloc_info : gmap Z Z;
  kf_args : sivfs_allocator_args
}.

(** The calling task's state, if it has one; whether its argument block can be
    read; [bo_torn]: what copy_to_user leaves in the block when it fails; the
    mappings; the memory for an allocator and its first chunk, what another
    thread has meanwhile stored in alloc_info, and the memory for the block. *)
Record block_io : Type := mk_bio {
  bo_state : option Z;
  bo_copy_in : bool;
  bo_torn : option sivfs_allocator_args;
  bo_find_vma : Z -> option vma;
  bo_km : option Z;
  bo_new : alloc_env;
  bo_race : Z;
  bo_block : alloc_env
}.

Definition on_kalloc {A} (m : M astate A) : M kfiles A := fun k =>
  let '(r, s) := m (kf_alloc k) in (r, mk_kf s (kf_alloc_info k) (kf_args k)).
Definition set_alloc_info (ino ai : Z) (k : kfiles) : kfiles := mk_kf (kf_alloc k) (<[ino := ai]> (kf_alloc_info k)) (kf_args k).
Definition set_args (a : sivfs_allocator_args) (k : kfiles) : kfiles := mk_kf (kf_alloc k) (kf_alloc_info k) a.

(** Every error of [m] is reported as EINVAL. *)
Definition or_einval {S A} (m : M S A) : M S A := fun s =>
  match m s with
  | (Err _, s') => (Err EINVAL, s')
  | r => r
  end.

(** sivfs_vma_to_backing_iinfo, then sivfs_iinfo_get_alloc_info: the file's allocator. *)
Definition backing_alloc_info (io : block_io) (v : vma) : M kfiles Z :=
  let! infos := gets kf_alloc_info in
  match infos !! vm_ino v with
  | None => throw EINVAL
  | Some field =>
    let! r := or_einval (on_kalloc (sivfs_iinfo_get_alloc_info (bo_km io) (bo_new io) field (bo_race io))) in
    let '(ainfo, field) := r in
    do! modify (set_alloc_info (vm_ino v) field) in
    ret ainfo
  end.

(** What both ioctls start with: the arguments and the mapping of [zone]. *)
Definition block_request (io : block_io) : M kfiles (Z * sivfs_allocator_args * vma) :=
  match bo_state io with
  | None => throw EINVAL
  | Some state =>
    if negb (bo_copy_in io) then throw EFAULT
    else
      let! args := gets kf_args in
      let! v := or_einval (lift (sivfs_find_vma (bo_find_vma io) (aa_zone args) 1 true)) in
      let! infos := gets kf_alloc_info in
      match infos !! vm_ino v with
      | None => throw EINVAL
      | Some _ => ret (state, args, v)
      end
  end.

(** The address is that of the block's offset in a mapping from offset 0. A
    block is not given back when the arguments cannot be written. *)
Definition sivfs_ioctl_alloc_block (io : block_io) : M kfiles unit :=
  let! q := block_request io in
  let '(state, args, v) := q in
  let! b := (if aa_block_alloc args =? 0 then ret (aa_alloc_ret args, aa_alloc_size args)
             else
               let! ainfo := backing_alloc_info io v in
               let! r := or_einval (on_kalloc (sivfs_alloc_block (bo_block io) state ainfo (aa_block_alloc args))) in
               ret (uadd (vm_start v) r.1, r.2)) in
  let out := mk_aargs (vm_start v) (usub (vm_end v) (vm_start v)) b.1 b.2 (aa_zone args) (aa_block_alloc args) in
  match bo_torn io with
  | None => modify (set_args out)
  | Some torn => do! modify (set_args torn) in throw EFAULT
  end.

Definition sivfs_ioctl_free_block (io : block_io) : M kfiles unit :=
  let! q := block_request io in
  let '(state, args, v) := q in
  let file_offset := uadd (usub (aa_zone args) (vm_start v)) (u64 (Z.shiftl (vm_pgoff v) PAGE_SHIFT)) in
  let! ainfo := backing_alloc_info io v in
  or_einval (on_kalloc (sivfs_free_block (bo_block io) state ainfo file_offset)).

(** ** The allocator behind an inode *)

(** Every allocator an inode names exists, and is named by one inode. *)
Record kfiles_ok (k : kfiles) : Prop := {
  ko_inv : alloc_inv (kf_alloc k);
  ko_aligned : aligned (kf_alloc k);
  ko_info : forall ino a, kf_alloc_info k !! ino = Some a -> a <> 0 -> is_Some (a_infos (kf_alloc k) !! a);
  ko_one : forall ino ino' a, kf_alloc_info k !! ino = Some a -> kf_alloc_info k !! ino' = Some a -> a <> 0 -> ino = ino'
}.

(** What the system supplies is new; an allocator stored meanwhile is no other file's. *)
Record io_ok (io : block_io) (k : kfiles) : Prop := {
  io_km : forall a, bo_km io = Some a -> a <> 0 /\ a_infos (kf_alloc k) !! a = None;
  io_new : fresh_chunk (bo_new io) (kf_alloc k);
  io_race : bo_race io <> 0 -> is_Some (a_infos (kf_alloc k) !! bo_race io) /\ forall ino, kf_alloc_info k !! ino <> Some (bo_race io);
  io_block : fresh_chunk (bo_block io) (kf_alloc k) /\ forall c, av_chunk (bo_block io) = Some c -> av_chunk (bo_new io) <> Some c;
  io_thread : forall t, bo_state io = Some t -> is_Some (a_threads (kf_alloc k) !! t)
}.

(** The allocators a request in [v] may be served by, if the file has one. *)
Definition may_serve (io : block_io) (k : kfiles) (v : vma) (ai : Z) : Prop :=
  kf_alloc_info k !! vm_ino v = Some ai \/ (kf_alloc_info k !! vm_ino v = Some 0 /\ ai = bo_race io).

Definition made_file (v : vma) (ai w : Z) (k : kfiles) : kfiles :=
  mk_kf (new_file ai w (kf_alloc k)) (<[vm_ino v := ai]> (kf_alloc_info k)) (kf_args k).

Inductive opened (io : block_io) (k : kfiles) (v : vma) : res Z -> kfiles -> Prop :=
  | opened_same ai : ai <> 0 -> may_serve io k v ai -> opened io k v (Ok ai) (set_alloc_info (vm_ino v) ai k)
  | opened_new ai w : kf_alloc_info k !! vm_ino v = Some 0 -> bo_km io = Some ai -> av_chunk (bo_new io) = Some w ->
      opened io k v (Ok ai) (made_file v ai w k)
  | opened_none : bo_km io = None \/ starved (bo_new io) -> opened io k v (Err EINVAL) k.

Lemma kalloc_step {A} (m : M astate A) k r s : m (kf_alloc k) = (r, s) -> on_kalloc m k = (r, mk_kf s (kf_alloc_info k) (kf_args k)).
Proof. unfold on_kalloc. by intros ->. Qed.

Lemma kf_eta k : mk_kf (kf_alloc k) (kf_alloc_info k) (kf_args k) = k.
Proof. by destruct k. Qed.

Lemma or_einval_ok {S A} (m : M S A) s a s' : m s = (Ok a, s') -> or_einval m s = (Ok a, s').
Proof. unfold or_einval. by intros ->. Qed.
Lemma or_einval_err {S A} (m : M S A) s e s' : m s = (Err e, s') -> or_einval m s = (Err EINVAL, s').
Proof. unfold or_einval. by intros ->. Qed.

(** Naming an allocator that no other inode names. *)
Lemma name_allocator ino ai s infos args : kfiles_ok (mk_kf s infos args) -> is_Some (a_infos s !! ai) ->
  (forall ino', ino' <> ino -> infos !! ino' <> Some ai) -> kfiles_ok (mk_kf s (<[ino := ai]> infos) args).
Proof.
  intros [Hi Ha Hk H1] Hs Hn. split; cbn [kf_alloc kf_alloc_info] in *; [done|done| |].
  - intros i a. rewrite lookup_insert. case_decide; [intros [= <-]; done|apply Hk].
  - intros i i' a. rewrite !lookup_insert. repeat case_decide; subst; [done| | |apply H1].
    + intros [= <-] Hi' _. destruct (Hn i'); congruence.
    + intros Hi' [= <-] _. destruct (Hn i); congruence.
Qed.

Lemma backing_ok io k v f : kfiles_ok k -> io_ok io k -> kf_alloc_info k !! vm_ino v = Some f ->
  exists r k', backing_alloc_info io v k = (r, k') /\ kfiles_ok k' /\ opened io k v r k'.
Proof.
  intros Hk Hio Hf. unfold backing_alloc_info. rewrite (bind_step (gets kf_alloc_info) _ k (kf_alloc_info k) k eq_refl), Hf.
  destruct (decide (f = 0)) as [->|Hf0].
  2: { assert (E : sivfs_iinfo_get_alloc_info (bo_km io) (bo_new io) f (bo_race io) (kf_alloc k) = (Ok (f, f), kf_alloc k))
         by (unfold sivfs_iinfo_get_alloc_info; by rewrite (proj2 (Z.eqb_neq _ _) Hf0)).
    rewrite (bind_step _ _ _ _ _ (or_einval_ok _ _ _ _ (kalloc_step _ k _ _ E))), kf_eta. eexists _, _. split; [reflexivity|]. split; [|apply opened_same; [done|by left]].
    destruct k as [s infos args]. apply name_allocator; [done|by apply (ko_info _ Hk (vm_ino v))|]. intros i Hne E'. apply Hne. by apply (ko_one _ Hk i (vm_ino v) f). }
  destruct (get_alloc_info_ok (kf_alloc k) (bo_km io) (bo_new io) (bo_race io) (ko_inv _ Hk) (io_km _ _ Hio) (io_new _ _ Hio)) as (r & s & E & Hinv & Hgot).
  assert (Hal : aligned s) by (change s with (r, s).2; rewrite <- E; apply aligned_get_info, Hk).
  destruct Hgot as [ai w Hr0 Hkm Hw|Hr0|Hno].
  - rewrite (bind_step _ _ _ _ _ (or_einval_ok _ _ _ _ (kalloc_step _ k _ _ E))). eexists _, _. split; [reflexivity|]. split; [|exact (opened_new _ _ _ ai w Hf Hkm Hw)].
    destruct (io_km _ _ Hio ai Hkm) as [_ Hn]. apply name_allocator; [|cbn [kf_alloc new_file a_infos]; rewrite lookup_insert_eq; by eexists|].
    + split; cbn [kf_alloc kf_alloc_info]; [done|done| |exact (ko_one _ Hk)]. intros i a Ha Ha0. cbn [new_file a_infos]. rewrite lookup_insert. case_decide; [by eexists|by apply (ko_info _ Hk i)].
    + intros i _ Hi. destruct (io_km _ _ Hio ai Hkm) as [Hai _]. destruct (ko_info _ Hk i ai Hi Hai). congruence.
  - rewrite (bind_step _ _ _ _ _ (or_einval_ok _ _ _ _ (kalloc_step _ k _ _ E))), kf_eta. eexists _, _. split; [reflexivity|].
    destruct (io_race _ _ Hio Hr0) as [Hs Hn]. split; [|apply opened_same; [done|by right]]. destruct k as [s0 infos args]. by apply name_allocator.
  - rewrite (bind_err _ _ _ _ _ (or_einval_err _ _ _ _ (kalloc_step _ k _ _ E))), kf_eta. eexists _, _. split; [reflexivity|]. split; [done|by apply opened_none].
Qed.

Lemma block_request_ok io k t v f : bo_state io = Some t -> bo_copy_in io = true -> sivfs_find_vma (bo_find_vma io) (aa_zone (kf_args k)) 1 true = Ok v ->
  kf_alloc_info k !! vm_ino v = Some f -> block_request io k = (Ok (t, kf_args k, v), k).
Proof.
  intros Ht Hc Hv Hf. unfold block_request. rewrite Ht, Hc. cbn [negb]. rewrite (bind_step (gets kf_args) _ k (kf_args k) k eq_refl).
  erewrite bind_step; [|apply or_einval_ok; unfold lift; by rewrite Hv]. rewrite (bind_step (gets kf_alloc_info) _ k (kf_alloc_info k) k eq_refl), Hf. done.
Qed.

(** ** SIVFS_ALLOC_BLOCK *)

(** The outcomes for a request of [n] bytes by task [t] in mapping [v]. *)
Inductive served (io : block_io) (k : kfiles) (v : vma) (t n : Z) (x : tstate) : res unit -> kfiles -> Prop :=
  | served_block k1 ai off n' s : kfiles_ok k1 -> n <= MAX_BLOCK_ALLOC_SIZE -> opened io k v (Ok ai) k1 -> allocated (bo_block io) (kf_alloc k1) ai t n x (Ok (off, n')) s ->
      let out := mk_aargs (vm_start v) (usub (vm_end v) (vm_start v)) (uadd (vm_start v) off) n' (aa_zone (kf_args k)) n in
      served io k v t n x (match bo_torn io with None => Ok tt | Some _ => Err EFAULT end) (mk_kf s (kf_alloc_info k1) (default out (bo_torn io)))
  | served_nothing k1 ai s : opened io k v (Ok ai) k1 -> a_chunks s = a_chunks (kf_alloc k1) ->
      starved (bo_block io) \/ MAX_BLOCK_ALLOC_SIZE < n \/ n mod SIZEOF_WORD <> 0 -> served io k v t n x (Err EINVAL) (mk_kf s (kf_alloc_info k1) (kf_args k))
  | served_no_file : opened io k v (Err EINVAL) k -> served io k v t n x (Err EINVAL) k.

Lemma opened_args io k v r k' : opened io k v r k' -> kf_args k' = kf_args k /\ a_threads (kf_alloc k') = a_threads (kf_alloc k).
Proof. by intros []. Qed.

(** The allocator that was found, and the memory for the block still being new. *)
Lemma opened_alloc io k v ai k' : kfiles_ok k -> kfiles_ok k' -> io_ok io k -> opened io k v (Ok ai) k' ->
  is_Some (a_infos (kf_alloc k') !! ai) /\ fresh_chunk (bo_block io) (kf_alloc k').
Proof.
  intros Hk Hk' Hio Ho. destruct (io_block _ _ Hio) as [Hb Hne].
  assert (ai <> 0 /\ kf_alloc_info k' !! vm_ino v = Some ai /\ fresh_chunk (bo_block io) (kf_alloc k')) as (H0 & Hf & Hfr).
  { inversion Ho as [a H0 Hm Ea|a w Hf Hkm Hw Ea|]; subst; cbn [set_alloc_info made_file kf_alloc kf_alloc_info]; rewrite lookup_insert_eq; split_and!; try done.
    - by apply (io_km _ _ Hio).
    - intros c Hc. destruct (Hb c Hc) as [Hc0 Hcn]. split; [done|]. cbn [new_file a_chunks]. rewrite lookup_insert_ne; [done|]. intros ->. by apply (Hne c Hc). }
  split; [by apply (ko_info _ Hk' _ _ Hf)|done].
Qed.

Lemma opened_room io k v ai k' n : kfiles_ok k -> io_ok io k -> opened io k v (Ok ai) k' -> n <= MAX_BLOCK_ALLOC_SIZE ->
  (forall a, may_serve io k v a -> room (kf_alloc k) a n) -> room (kf_alloc k') ai n.
Proof.
  intros Hk Hio Ho Hn Hr. inversion Ho as [a H0 Hm Ea|a w Hf Hkm Hw Ea|]; subst; [by apply Hr|].
  intros c kc. cbn [made_file kf_alloc new_file a_chunks]. rewrite lookup_insert. case_decide.
  - intros [= <-] _ _. cbn. assert (MAX_BLOCK_ALLOC_SIZE < FILE_LIMIT) by reflexivity. lia.
  - intros Hc Ha _. destruct (ai_owner _ (ko_inv _ Hk) c kc Hc) as [i Hi]. destruct (io_km _ _ Hio _ Hkm) as [_ Hn0]. congruence.
Qed.

(** The allocator changed; the files' fields did not. *)
Lemma kfiles_ok_alloc s k args : kfiles_ok k -> alloc_inv s -> aligned s -> (forall a, is_Some (a_infos (kf_alloc k) !! a) -> is_Some (a_infos s !! a)) ->
  kfiles_ok (mk_kf s (kf_alloc_info k) args).
Proof. intros [_ _ Hk H1] Hi Ha Hs. split; cbn [kf_alloc kf_alloc_info]; [done|done| |done]. intros ino a Hf H0. apply Hs. by apply (Hk ino). Qed.

(** An allocator is there as long as its chunks are. *)
Lemma chunks_keep_infos s s' : alloc_inv s -> alloc_inv s' ->
  (forall c k, a_chunks s !! c = Some k -> exists k', a_chunks s' !! c = Some k' /\ k_ainfo k' = k_ainfo k) ->
  forall a, is_Some (a_infos s !! a) -> is_Some (a_infos s' !! a).
Proof.
  intros Hi Hi' Hc a [i Ha]. destruct (ai_files _ Hi a i Ha) as (_ & l & w & Hlo). destruct (lo_tiles _ _ _ _ _ Hlo) as (e & _ & _ & (kw & Hw & Ew & _)).
  destruct (Hc w kw Hw) as (k' & Hk' & E). rewrite <- Ew, <- E. by apply (ai_owner _ Hi' w).
Qed.

Lemma allocated_keeps ev s a t n x r s' : allocated ev s a t n x r s' ->
  forall c k, a_chunks s !! c = Some k -> exists k', a_chunks s' !! c = Some k' /\ k_ainfo k' = k_ainfo k.
Proof.
  intros [s1 c k n' Hsel _ _ Hc1 Hold _ _|s1 _ Hc1 _] d kd Hd; [|exists kd; by rewrite Hc1].
  destruct (decide (d = c)) as [->|Hne]; [|exists kd; split; [by apply Hold|done]]. eexists. split; [exact Hc1|]. cbn.
  assert (a_chunks s !! c = Some k) by (destruct Hsel as [(? & _)|(? & _)]; done). congruence.
Qed.

Lemma alloc_ioctl_ok io k t x v f : kfiles_ok k -> io_ok io k -> bo_state io = Some t -> bo_copy_in io = true -> a_threads (kf_alloc k) !! t = Some x ->
  sivfs_find_vma (bo_find_vma io) (aa_zone (kf_args k)) 1 true = Ok v -> kf_alloc_info k !! vm_ino v = Some f ->
  let n := aa_block_alloc (kf_args k) in PAGE_SIZE <= n -> (forall a, may_serve io k v a -> room (kf_alloc k) a n) ->
  exists r k', sivfs_ioctl_alloc_block io k = (r, k') /\ kfiles_ok k' /\ served io k v t n x r k'.
Proof.
  intros Hk Hio Ht Hcp Hx Hv Hf n Hn Hroom. unfold sivfs_ioctl_alloc_block. rewrite (bind_step _ _ _ _ _ (block_request_ok io k t v f Ht Hcp Hv Hf)).
  cbv beta iota. fold n. rewrite (proj2 (Z.eqb_neq n 0)) by (unfold PAGE_SIZE in *; lia). rewrite bind_assoc.
  destruct (backing_ok io k v f Hk Hio Hf) as (r & k1 & E1 & Hk1 & Ho). destruct (opened_args _ _ _ _ _ Ho) as [Ea Et].
  destruct r as [ai|e| |]; [|rewrite (bind_err _ _ _ _ _ E1)|exfalso; inversion Ho..].
  2: { inversion Ho; subst. exists (Err EINVAL), k1. split_and!; [done..|]. by apply served_no_file. }
  rewrite (bind_step _ _ _ _ _ E1). destruct (opened_alloc _ _ _ _ _ Hk Hk1 Hio Ho) as [[i Hi] Hfr].
  destruct (decide (n <= MAX_BLOCK_ALLOC_SIZE /\ n mod SIZEOF_WORD = 0)) as [[Hmax Hm]|Hbad].
  - rewrite <- Et in Hx. destruct (alloc_block_ok (bo_block io) (kf_alloc k1) ai i t x n (ko_inv _ Hk1) Hi Hx (conj Hn Hmax) Hm (opened_room _ _ _ _ _ _ Hk Hio Ho Hmax Hroom) Hfr)
      as (r & s & E & Hinv & Hal).
    assert (Hok : kfiles_ok (mk_kf s (kf_alloc_info k1) (kf_args k1))).
    { apply kfiles_ok_alloc; [done|done| |by apply (chunks_keep_infos _ _ (ko_inv _ Hk1) Hinv), (allocated_keeps _ _ _ _ _ _ _ _ Hal)].
      change s with (r, s).2. rewrite <- E. apply aligned_alloc_block, Hk1. }
    destruct r as [[off n']|e| |]; [|rewrite (bind_err _ _ _ _ _ (bind_err _ _ _ _ _ (or_einval_err _ _ _ _ (kalloc_step _ k1 _ _ E))))|exfalso; inversion Hal..].
    + rewrite (bind_step _ _ k1 (uadd (vm_start v) off, n') (mk_kf s (kf_alloc_info k1) (kf_args k1))) by by rewrite (bind_step _ _ _ _ _ (or_einval_ok _ _ _ _ (kalloc_step _ k1 _ _ E))).
      eexists _, _. split; [|split; [|exact (served_block io k v t n x k1 ai off n' s Hk1 Hmax Ho Hal)]]; [by destruct (bo_torn io)|by destruct Hok].
    + eexists _, _. split; [reflexivity|]. split; [done|]. rewrite Ea. inversion Hal; subst. by apply (served_nothing io k v t n x k1 ai); [..|left].
  - assert (E : exists e, sivfs_alloc_block (bo_block io) t ai n (kf_alloc k1) = (Err e, kf_alloc k1)).
    { unfold sivfs_alloc_block. destruct (Z.ltb_spec MAX_BLOCK_ALLOC_SIZE n); [by eexists|]. rewrite (proj2 (Z.eqb_neq (n mod _) 0)) by tauto. by eexists. }
    destruct E as [e E]. rewrite (bind_err _ _ _ _ _ (bind_err _ _ _ _ _ (or_einval_err _ _ _ _ (kalloc_step _ k1 _ _ E)))).
    eexists _, _. split; [reflexivity|]. split; [by rewrite kf_eta|]. rewrite Ea. apply (served_nothing io k v t n x k1 ai); [done|done|right; lia].
Qed.

(** ** SIVFS_FREE_BLOCK *)

(** One block starts at an offset. *)
Lemma start_unique s a c c' k k' : alloc_inv s -> a_chunks s !! c = Some k -> a_chunks s !! c' = Some k' -> k_ainfo k = a -> k_ainfo k' = a ->
  k_start k = k_start k' -> c = c'.
Proof.
  intros Hi Hc Hc' Ha Ha' Es. destruct (ai_owner _ Hi c k Hc) as [i Hii]. rewrite Ha in Hii.
  destruct (chunk_pginfo s a i c k Hi Hii Hc Ha) as (e & E & _). destruct (chunk_pginfo s a i c' k' Hi Hii Hc' Ha') as (e' & E' & _).
  rewrite <- Es, E in E'. by injection E'.
Qed.

Lemma allocated_flags k : sivfs_alloc_chunk_is_free (mark_allocated k) = false /\
  Z.land (k_last_freed_ts (mark_allocated k)) (unot SIVFS_CHUNK_ALLOC_FLAGS) = Z.land (k_last_freed_ts k) (unot SIVFS_CHUNK_ALLOC_FLAGS).
Proof.
  split.
  - unfold sivfs_alloc_chunk_is_free. apply Z.eqb_neq. intros E. apply (f_equal (fun z => Z.testbit z 63)) in E. cbn [mark_allocated with_last_freed k_last_freed_ts] in E.
    rewrite Z.land_spec, Z.lor_spec, Z.testbit_0_l in E. change (Z.testbit SIVFS_CHUNK_ALLOCATED 63) with true in E. by rewrite orb_true_r in E.
  - cbn [mark_allocated with_last_freed k_last_freed_ts]. rewrite Z.land_lor_distr_l. change (Z.land SIVFS_CHUNK_ALLOCATED (unot SIVFS_CHUNK_ALLOC_FLAGS)) with 0. apply Z.lor_0_r.
Qed.

(** The end of the file was there before the task's snapshot. *)
Definition end_visible (s : astate) (a : Z) (x : tstate) : Prop := forall w k, a_chunks s !! w = Some k -> k_ainfo k = a -> k_size k = SIZE_MINUS_ONE ->
  Z.land (k_last_freed_ts k) (unot SIVFS_CHUNK_ALLOC_FLAGS) <= t_ts x.

(** A block just allocated can be freed by its task. *)
Lemma allocated_freeable ev s a t n x off n' s' : alloc_inv s -> alloc_inv s' -> allocated ev s a t n x (Ok (off, n')) s' -> end_visible s a x ->
  exists c kc, a_threads s' !! t = Some (with_allocated (c :: t_allocated_chunks x) x) /\ k_size kc = n' /\
    freeable s' a off (with_allocated (c :: t_allocated_chunks x) x) c kc /\ not_anothers s' a off t.
Proof.
  intros Hi Hi' Hal Hend. inversion Hal as [s1 c k m Hsel Hm _ Hc Hold Hnew Ht|]; subst. exists c, (mark_allocated (with_size n' k)).
  assert (Hx : a_threads s' !! t = Some (with_allocated (c :: t_allocated_chunks x) x)) by (rewrite Ht; apply lookup_insert_eq).
  destruct (allocated_flags (with_size n' k)) as [Hfree Hts].
  assert (Hk : k_ainfo k = a /\ Z.land (k_last_freed_ts k) (unot SIVFS_CHUNK_ALLOC_FLAGS) <= t_ts x).
  { destruct Hsel as [(_ & Ha & _ & _ & _ & Hv)|(Hk & Ha & Hz & _)]; [|split; [done|by apply (Hend c)]]. split; [done|].
    unfold sivfs_alloc_chunk_is_free_visible in Hv. apply andb_true_iff in Hv as [_ Hv]. lia. }
  destruct Hk as [Ha Hv]. split; [done|]. split; [done|]. split.
  - split; [done|]. split; [done|]. split; [done|]. split; [done|]. rewrite Hts. exact Hv.
  - intros c' k' t' y Hc' Ha' Hs Hy Hin. assert (c' = c) as -> by by apply (start_unique s' a c' c k' (mark_allocated (with_size n' k))).
    apply (ai_alloc_disj _ Hi' t' y t _ c Hy Hx Hin). left.
Qed.

(** The file's first block, and the inode's field when the allocator is there. *)
Lemma opened_named io k v ai k' : opened io k v (Ok ai) k' -> kf_alloc_info k' !! vm_ino v = Some ai.
Proof. inversion 1; subst; cbn; apply lookup_insert_eq. Qed.

Lemma opened_visible io k v ai k' x : kfiles_ok k -> io_ok io k -> opened io k v (Ok ai) k' -> 0 <= t_ts x ->
  (forall a, may_serve io k v a -> end_visible (kf_alloc k) a x) -> end_visible (kf_alloc k') ai x.
Proof.
  intros Hk Hio Ho Hx Hv. inversion Ho as [a H0 Hm Ea|a w Hf Hkm Hw Ea|]; subst; [by apply Hv|].
  intros c kc. cbn [made_file kf_alloc new_file a_chunks]. rewrite lookup_insert. case_decide; [by intros [= <-] _ _|].
  intros Hc Ha _. destruct (ai_owner _ (ko_inv _ Hk) c kc Hc) as [i Hi]. destruct (io_km _ _ Hio _ Hkm) as [_ Hn0]. congruence.
Qed.

Definition with_zone (zone : Z) (a : sivfs_allocator_args) : sivfs_allocator_args :=
  mk_aargs (aa_mmap_start a) (aa_mmap_size a) (aa_alloc_ret a) (aa_alloc_size a) zone (aa_block_alloc a).

Lemma kfiles_ok_args k a : kfiles_ok k -> kfiles_ok (set_args a k).
Proof. intros []. by split. Qed.

(** What the second ioctl does to the block that the first returned. *)
Record given_back (k1 k' : kfiles) (v : vma) (t : Z) (x : tstate) : Prop := {
  gv_ok : kfiles_ok k';
  gv_block : exists c kc, a_chunks (kf_alloc k1) !! c = Some kc /\ vm_start v + k_start kc = aa_alloc_ret (kf_args k1) /\ k_size kc = aa_alloc_size (kf_args k1) /\
    a_chunks (kf_alloc k') = <[c := mark_freeing kc]> (a_chunks (kf_alloc k1)) /\
    a_threads (kf_alloc k') !! t = Some (mk_tstate (t_ts x) (c :: t_allocated_chunks x) (c :: t_chunks_to_free x) (t_should_abort x))
}.

Lemma file_offset_back v off : 0 <= vm_start v < 2 ^ 63 -> 0 <= off < FILE_LIMIT -> vm_pgoff v = 0 ->
  uadd (usub (uadd (vm_start v) off) (vm_start v)) (u64 (Z.shiftl (vm_pgoff v) PAGE_SHIFT)) = off.
Proof.
  unfold FILE_LIMIT. intros Hs Ho ->. rewrite (uadd_small (vm_start v)) by u64_lia. rewrite usub_small by u64_lia. change (u64 _) with 0. rewrite uadd_small by u64_lia. lia.
Qed.

Lemma chunk_bounds s c k : alloc_inv s -> a_chunks s !! c = Some k -> 0 <= k_start k < FILE_LIMIT /\ PAGE_SIZE <= k_size k.
Proof.
  intros Hi Hc. destruct (ai_owner _ Hi c k Hc) as [i Hii]. destruct (ai_files _ Hi _ _ Hii) as (_ & l & w & Hlo).
  destruct (lo_tiles _ _ _ _ _ Hlo) as (e & He & Ht & (kw & Hkw & _ & Hsw & _ & Hzw & _)). pose proof (tiles_le _ _ _ _ _ Ht).
  pose proof (lo_all _ _ _ _ _ Hlo c k Hc eq_refl) as [Hin| ->%list_elem_of_singleton]%elem_of_app.
  - destruct (tiles_member _ _ _ _ _ _ Ht Hin) as (k' & Hk' & _ & _ & Hz & Hs & Hend). assert (k' = k) as -> by congruence. unfold PAGE_SIZE in *. lia.
  - assert (kw = k) as -> by congruence. split; [lia|]. rewrite Hzw. done.
Qed.

Lemma chunk_start_range s c k : alloc_inv s -> a_chunks s !! c = Some k -> 0 <= k_start k < FILE_LIMIT.
Proof. intros Hi Hc. apply (chunk_bounds s c k Hi Hc). Qed.

Lemma freed_keeps s a off t x r s' : freed s a off t x r s' -> forall c k, a_chunks s !! c = Some k -> exists k', a_chunks s' !! c = Some k' /\ k_ainfo k' = k_ainfo k.
Proof.
  intros [s1 c k (Hc & _) Hc1 _|s1 _ Hc1 _|s1 _ Hc1 _] d kd Hd; rewrite Hc1; [|by exists kd..].
  rewrite lookup_insert. case_decide as E; [|by exists kd]. subst d. eexists. split; [reflexivity|]. cbn. congruence.
Qed.

(** The second ioctl on an address whose block can be freed. *)
Lemma free_ioctl_ok io k t x v ai i c kc : kfiles_ok k -> bo_state io = Some t -> bo_copy_in io = true -> a_threads (kf_alloc k) !! t = Some x ->
  sivfs_find_vma (bo_find_vma io) (aa_zone (kf_args k)) 1 true = Ok v -> kf_alloc_info k !! vm_ino v = Some ai -> ai <> 0 -> a_infos (kf_alloc k) !! ai = Some i ->
  let off := uadd (usub (aa_zone (kf_args k)) (vm_start v)) (u64 (Z.shiftl (vm_pgoff v) PAGE_SHIFT)) in
  freeable (kf_alloc k) ai off x c kc -> not_anothers (kf_alloc k) ai off t ->
  exists s, sivfs_ioctl_free_block io k = (Ok tt, mk_kf s (<[vm_ino v := ai]> (kf_alloc_info k)) (kf_args k)) /\ kfiles_ok (mk_kf s (<[vm_ino v := ai]> (kf_alloc_info k)) (kf_args k)) /\
    a_chunks s = <[c := mark_freeing kc]> (a_chunks (kf_alloc k)) /\ a_threads s = <[t := with_to_free (c :: t_chunks_to_free x) x]> (a_threads (kf_alloc k)).
Proof.
  intros Hk Ht Hcp Hx Hv Hf H0 Hi off Hfr Hna. pose proof Hfr as (Hc & Ha & Hs & _ & _). unfold sivfs_ioctl_free_block.
  rewrite (bind_step _ _ _ _ _ (block_request_ok io k t v ai Ht Hcp Hv Hf)). cbv beta iota zeta. fold off.
  assert (E : backing_alloc_info io v k = (Ok ai, set_alloc_info (vm_ino v) ai k)).
  { unfold backing_alloc_info. rewrite (bind_step (gets kf_alloc_info) _ k (kf_alloc_info k) k eq_refl), Hf.
    assert (E : sivfs_iinfo_get_alloc_info (bo_km io) (bo_new io) ai (bo_race io) (kf_alloc k) = (Ok (ai, ai), kf_alloc k))
      by (unfold sivfs_iinfo_get_alloc_info; by rewrite (proj2 (Z.eqb_neq _ _) H0)).
    by rewrite (bind_step _ _ _ _ _ (or_einval_ok _ _ _ _ (kalloc_step _ k _ _ E))), kf_eta. }
  rewrite (bind_step _ _ _ _ _ E). pose proof (chunk_start_range _ _ _ (ko_inv _ Hk) Hc) as Hrange. rewrite Hs in Hrange.
  assert (Hok : free_offset_ok i off).
  { right. destruct (chunk_pginfo _ ai i c kc (ko_inv _ Hk) Hi Hc Ha) as (e & Ep & Hc0). rewrite Hs in Ep. by eexists. }
  destruct (free_block_ok (bo_block io) (kf_alloc k) ai i t x off (ko_inv _ Hk) Hi Hx (proj1 Hrange) Hok Hna) as (r & s & E1 & Hinv & Hfreed).
  pose proof (freed_keeps _ _ _ _ _ _ _ Hfreed) as Hkeep. exists s.
  assert (Hr : r = Ok tt /\ a_chunks s = <[c := mark_freeing kc]> (a_chunks (kf_alloc k)) /\ a_threads s = <[t := with_to_free (c :: t_chunks_to_free x) x]> (a_threads (kf_alloc k))).
  { inversion Hfreed as [s1 c' k' (Hc' & Ha' & Hs' & _) Ec Et|s1 Hno|s1 Hno]; subst; [|by destruct (Hno c kc)|by destruct (Hno c kc)].
    assert (c' = c) as -> by (apply (start_unique _ (k_ainfo kc) c' c k' kc (ko_inv _ Hk)); congruence). assert (k' = kc) as -> by congruence. done. }
  destruct Hr as (-> & Hc1 & Ht1). split; [by rewrite (or_einval_ok _ _ _ _ (kalloc_step _ (set_alloc_info (vm_ino v) ai k) _ _ E1))|]. split; [|done].
  apply name_allocator.
  - apply kfiles_ok_alloc; [done|done| |by apply (chunks_keep_infos _ _ (ko_inv _ Hk) Hinv)]. change s with (@Ok unit tt, s).2. rewrite <- E1. apply aligned_free_block, Hk.
  - apply (chunks_keep_infos _ _ (ko_inv _ Hk) Hinv Hkeep). by eexists.
  - intros j Hne Ej. apply Hne. by apply (ko_one _ Hk j (vm_ino v) ai).
Qed.

(** C32. A task that passes the address it got from SIVFS_ALLOC_BLOCK to
    SIVFS_FREE_BLOCK frees exactly that block, when its mapping begins at the
    start of the file: the block stays in use until the task commits, and
    nothing else changes. *)
Theorem alloc_then_free io io' k k1 t x v v' f : kfiles_ok k -> io_ok io k -> bo_state io = Some t -> bo_copy_in io = true -> bo_torn io = None ->
  a_threads (kf_alloc k) !! t = Some x -> 0 <= t_ts x -> sivfs_find_vma (bo_find_vma io) (aa_zone (kf_args k)) 1 true = Ok v -> kf_alloc_info k !! vm_ino v = Some f ->
  PAGE_SIZE <= aa_block_alloc (kf_args k) -> (forall a, may_serve io k v a -> room (kf_alloc k) a (aa_block_alloc (kf_args k)) /\ end_visible (kf_alloc k) a x) ->
  sivfs_ioctl_alloc_block io k = (Ok tt, k1) ->
  let k2 := set_args (with_zone (aa_alloc_ret (kf_args k1)) (kf_args k1)) k1 in
  bo_state io' = Some t -> bo_copy_in io' = true -> sivfs_find_vma (bo_find_vma io') (aa_alloc_ret (kf_args k1)) 1 true = Ok v' ->
  vm_ino v' = vm_ino v -> vm_start v' = vm_start v -> vm_pgoff v' = 0 -> 0 <= vm_start v < 2 ^ 63 ->
  exists k', sivfs_ioctl_free_block io' k2 = (Ok tt, k') /\ given_back k1 k' v t x.
Proof.
  intros Hk Hio Ht Hcp Htorn Hx Hx0 Hv Hf Hn Hroom E1 k2 Ht' Hcp' Hv' Hino Hst Hpg Hvs.
  destruct (alloc_ioctl_ok io k t x v f Hk Hio Ht Hcp Hx Hv Hf Hn (fun a Ha => proj1 (Hroom a Ha))) as (r & k0 & E & Hk0 & Hsv).
  rewrite E1 in E. injection E as <- <-. subst k2. remember (Ok tt) as r eqn:Er. destruct Hsv as [k1 ai off n' s Hk1 _ Ho Hal out| |]; [|done..]. rewrite Htorn in *. cbn [default] in *.
  destruct (opened_args _ _ _ _ _ Ho) as [_ Et].
  assert (Hend : end_visible (kf_alloc k1) ai x) by (apply (opened_visible io k v ai k1); [done..|intros a Ha; by apply Hroom]).
  destruct (allocated_freeable _ _ _ _ _ _ _ _ _ (ko_inv _ Hk1) (ko_inv _ Hk0) Hal Hend) as (c & kc & Hx1 & Hsz & Hfr & Hna).
  pose proof Hfr as (Hc & Hca & Hcs & _ & _). pose proof (chunk_start_range _ _ _ (ko_inv _ Hk0) Hc) as Hrange. rewrite Hcs in Hrange.
  destruct (ai_owner _ (ko_inv _ Hk0) c kc Hc) as [i Hi]. rewrite Hca in Hi. cbn [kf_alloc] in Hi.
  assert (Hai : ai <> 0) by by destruct (ai_files _ (ko_inv _ Hk0) ai i Hi).
  pose proof (file_offset_back v' off ltac:(by rewrite Hst) Hrange Hpg) as Hback. rewrite Hst in Hback.
  destruct (free_ioctl_ok io' (set_args (with_zone (uadd (vm_start v) off) out) (mk_kf s (kf_alloc_info k1) out)) t _ v' ai i c kc (kfiles_ok_args _ _ Hk0) Ht' Hcp' Hx1 Hv') as (s' & E2 & Hk' & Hc' & Ht2); cbn [set_args with_zone kf_alloc kf_alloc_info kf_args aa_zone aa_alloc_ret out].
  - rewrite Hino. apply (opened_named _ _ _ _ _ Ho).
  - done.
  - done.
  - by rewrite Hst, Hback.
  - by rewrite Hst, Hback.
  - eexists. split; [exact E2|]. split; [exact Hk'|]. exists c, kc. cbn [kf_alloc kf_args out aa_alloc_ret aa_alloc_size]. split; [done|]. split; [|split; [done|split; [done|]]].
    + unfold FILE_LIMIT in Hrange. rewrite uadd_small by u64_lia. lia.
    + rewrite Ht2. apply lookup_insert_eq.
Qed.

(** *** Examples: thread 5 asks for 8192 bytes of file 7 *)

Definition block_args (zone n : Z) : sivfs_allocator_args := mk_aargs 0 0 0 0 zone n.
Definition window (pgoff a : Z) : option vma := Some (mk_vma 65536 131072 pgoff 7 65536 false false false).
Definition plain_io (pgoff c : Z) : block_io := mk_bio (Some 5) true None (window pgoff) (Some 2) (rich 200) 0 (rich c).
Definition sample_files : kfiles := mk_kf sample_file {[7 := 1]} (block_args 65536 8192).

Lemma sample_files_ok : kfiles_ok sample_files.
Proof.
  split; [exact (alloc_reachable_inv _ sample_file_reachable)|exact (reachable_aligned _ sample_file_reachable)|..]; cbn [kf_alloc kf_alloc_info sample_files].
  - intros ino a [<- <-]%lookup_singleton_Some _. by eexists.
  - by intros ino ino' a [<- <-]%lookup_singleton_Some [<- _]%lookup_singleton_Some.
Qed.

Lemma sample_io_ok pgoff : io_ok (plain_io pgoff 101) sample_files.
Proof.
  split; cbn.
  - by intros a [= <-].
  - by intros c [= <-].
  - done.
  - split; [by intros c [= <-]|by intros c [= <-]].
  - intros t [= <-]. by eexists.
Qed.

Lemma sample_serves pgoff v a : may_serve (plain_io pgoff 101) sample_files v a -> vm_ino v = 7 -> a = 1.
Proof. intros [H|[H _]] E; rewrite E in H; cbn [kf_alloc_info sample_files] in H; apply lookup_singleton_Some in H as [_ H]; [done|discriminate]. Qed.

Definition sample_after_alloc : kfiles := (sivfs_ioctl_alloc_block (plain_io 0 101) sample_files).2.

Lemma alloc_then_free_witness : aa_alloc_ret (kf_args sample_after_alloc) = 65536 /\ aa_alloc_size (kf_args sample_after_alloc) = 8192 /\
  exists k', sivfs_ioctl_free_block (plain_io 0 102) (set_args (with_zone 65536 (kf_args sample_after_alloc)) sample_after_alloc) = (Ok tt, k') /\
    given_back sample_after_alloc k' (mk_vma 65536 131072 0 7 65536 false false false) 5 (mk_tstate 4 [] [] false).
Proof.
  split; [by vm_compute|]. split; [by vm_compute|].
  apply (alloc_then_free (plain_io 0 101) (plain_io 0 102) sample_files sample_after_alloc 5 (mk_tstate 4 [] [] false)
    (mk_vma 65536 131072 0 7 65536 false false false) (mk_vma 65536 131072 0 7 65536 false false false) 1 sample_files_ok (sample_io_ok 0));
    try reflexivity; try done.
  intros a ->%sample_serves; [|done]. split; [exact sample_file_room|]. intros w k. cbn [kf_alloc sample_files]. rewrite sample_file_chunks. by intros [<- <-]%lookup_singleton_Some.
Defined.

(** In a mapping that begins at the second page of the file the two ioctls
    disagree on what an address means: of two blocks of a page each, freeing the
    first one by its address frees the second. *)
Definition two_blocks : kfiles :=
  let k := (sivfs_ioctl_alloc_block (plain_io 1 101) (set_args (block_args 65536 4096) sample_files)).2 in
  (sivfs_ioctl_alloc_block (plain_io 1 102) (set_args (block_args 65536 4096) k)).2.

Theorem free_takes_the_wrong_block : let k := two_blocks in
  (aa_alloc_ret <$> [kf_args (sivfs_ioctl_alloc_block (plain_io 1 101) (set_args (block_args 65536 4096) sample_files)).2; kf_args k] = [65536; 69632]) /\
  (k_start <$> (a_chunks (kf_alloc k) !! 101)) = Some 4096 /\
  let k' := sivfs_ioctl_free_block (plain_io 1 103) (set_args (with_zone 65536 (kf_args k)) k) in
  k'.1 = Ok tt /\ a_threads (kf_alloc k'.2) !! 5 = Some (mk_tstate 4 [101; 100] [101] false).
Proof. cbv zeta. split_and!; by vm_compute. Qed.

(** The block is not given back when the arguments cannot be written. *)
Theorem unwritable_arguments_keep_block : let io := mk_bio (Some 5) true (Some (block_args 65536 8192)) (window 0) (Some 2) (rich 200) 0 (rich 101) in
  let k := sivfs_ioctl_alloc_block io sample_files in
  k.1 = Err EFAULT /\ a_threads (kf_alloc k.2) !! 5 = Some (mk_tstate 4 [100] [] false).
Proof. cbv zeta. split; by vm_compute. Qed.
