(* ===== verification/CommitIoctl.v ===== *)
(** The ioctls of the device that commit a transaction and pause one
    (kern/module.c): the copy of the process's write set into the kernel, the
    commit, and what the process finds in its arguments afterwards. *)
From S2P Require Import Prelude Types RadixTree Writeset Log LogView Commit PageTree MakeCheckpoint Checkpoints Alloc AllocLayout AllocInv AllocBlock AllocFile Workingset Update CommitUpdate.

(** ** Committing *)

(** The arguments that a commit uses; [ar_ws] with the words its pointer designates. *)
Record sivfs_args : Type := mk_args {
  ar_aborted : bool;
  ar_ws : sivfs_writeset;
  ar_abort : bool;
  ar_wants_direct_access : bool
}.

(** Whether the arguments can be read; what the second reading finds ([None]:
    it fails); how many words of the entries can be read; whether the write set
    of the state can grow; what copy_to_user leaves when it fails. *)
Record commit_io : Type := mk_cio {
  co_copy_in : bool;
  co_again : option sivfs_args;
  co_readable : nat;
  co_grow : bool;
  co_torn : option sivfs_args
}.

(** The first [r] bytes of a word come from [v], the others from [d]. *)
Definition merge_word (r v d : Z) : Z := Z.lor (Z.land v (Z.ones (8 * r))) (Z.land d (Z.lnot (Z.ones (8 * r)))).

(** copy_from_user of [n] bytes, of which [readable] words can be read: zeros
    take the place of the others. *)
Definition copy_in (readable : nat) (src dst : list Z) (n : Z) : list Z :=
  let w := Z.to_nat (n / SIZEOF_WORD) in
  let src := take readable src ++ replicate (S w) 0 in
  take w src ++
  (if n mod SIZEOF_WORD =? 0 then drop w dst
   else merge_word (n mod SIZEOF_WORD) (default 0 (src !! w)) (default 0 (dst !! w)) :: drop (S w) dst).

Definition on_ws_of (m : M sivfs_writeset unit) : M sivfs_log_entry unit := fun e => let '(r, ws) := m (le_ws e) in (r, with_ws ws e).
Definition set_entries (l : list Z) (ws : sivfs_writeset) : sivfs_writeset := mk_ws (ws_capacity_bytes ws) (ws_size_bytes ws) l.

Definition sivfs_copy_argstruct_to_log_entry (io : commit_io) : M sivfs_log_entry unit :=
  match co_again io with
  | None => throw EFAULT
  | Some shallow =>
    let size := ws_size_bytes (ar_ws shallow) in
    let src := ws_entries (ar_ws shallow) in
    if sivfs_ws_is_disabled (ar_ws shallow) then throw EFAULT
    else if MAX_COMMIT_SIZE <? size then throw EFAULT
    else
      do! on_ws_of (sivfs_writeset_reserve (co_grow io) size) in
      do! on_ws_of (modify (fun ws => set_entries (copy_in (co_readable io) src (ws_entries ws) size) ws)) in
      if SIZEOF_WORD * Z.of_nat (Nat.min (co_readable io) (length src)) <? size then throw EFAULT
      else
        do! on_ws_of (modify (set_ws_size size)) in
        do! modify (with_aborted false) in
        modify (with_has_metadata false)
  end.

Section commit_ioctl.
Context {T : Type} `{PageCache T}.

(** The process's argument block, and the state of the task if it has one. *)
Record proc : Type := mk_proc {
  pr_args : sivfs_args;
  pr_state : option (ustate T)
}.
Definition on_state {A} (m : M (ustate T) A) : M proc A := fun p =>
  match pr_state p with
  | None => (Fault, p)
  | Some u => let '(r, u) := m u in (r, mk_proc (pr_args p) (Some u))
  end.

(** sivfs_commit_update only adds statistics to my_sivfs_commit_update. *)
Definition sivfs_ioctl_commit_update (io : commit_io) (ev : upd_env) (state : Z) : M proc unit :=
  let! st := gets pr_state in
  match st with
  | None => throw ENOMEM
  | Some _ =>
    if negb (co_copy_in io) then throw EFAULT
    else
      let! shallow := gets pr_args in
      do! on_state (on_writeset (sivfs_copy_argstruct_to_log_entry io)) in
      let options := Z.lor (if ar_abort shallow then SIVFS_ABORT_FLAG else 0) (if ar_wants_direct_access shallow then SIVFS_DIRECT_ACCESS else 0) in
      let! aborted := on_state (my_sivfs_commit_update ev state options) in
      let out := mk_args aborted (set_ws_size 0 (ar_ws shallow)) (ar_abort shallow) (ar_wants_direct_access shallow) in
      match co_torn io with
      | None => modify (fun p => mk_proc out (pr_state p))
      | Some torn => do! modify (fun p => mk_proc torn (pr_state p)) in throw EFAULT
      end
  end.

(** The task gives up its snapshot until its next update. *)
Definition pause : M (task T) unit :=
  do! on_ws (sivfs_invalidate_workingset 0) in
  do! modify (set_ts SIVFS_INVALID_TS) in
  do! modify (fun s => set_checkpoint (st_checkpoint s) SIVFS_INVALID_TS s) in
  do! modify (set_prior_checkpoint_ts SIVFS_INVALID_TS) in
  modify (fun s => set_checkpoint 0 (st_checkpoint_ts s) s).
Definition sivfs_ioctl_txn_pause : M proc unit :=
  let! st := gets pr_state in
  match st with
  | None => throw ENOMEM
  | Some _ => on_state (on_task pause)
  end.
End commit_ioctl.
Arguments proc T : clear implicits.

(** ** Copying the write set *)

Lemma copy_in_length r src dst n : (n <= length dst)%nat -> length (copy_in r src dst (8 * Z.of_nat n)) = length dst.
Proof.
  intros Hd. unfold copy_in. change SIZEOF_WORD with 8. rewrite (Z.mul_comm 8), Z.div_mul, Z.mod_mul, Nat2Z.id by done. cbn [Z.eqb].
  rewrite length_app, length_drop, length_take, length_app, length_replicate. lia.
Qed.

(** [n] words are read, and room for them is there. *)
Lemma copy_in_words r src dst n : (n <= length src)%nat -> (n <= length dst)%nat -> (n <= r)%nat ->
  take n (copy_in r src dst (8 * Z.of_nat n)) = take n src.
Proof.
  intros Hs Hd Hr. unfold copy_in. change SIZEOF_WORD with 8. rewrite (Z.mul_comm 8), Z.div_mul, Z.mod_mul, Nat2Z.id by done. cbn [Z.eqb].
  assert (E : take n (take r src ++ replicate (S n) 0) = take n src).
  { rewrite take_app_le by (rewrite length_take; lia). by rewrite take_take, Nat.min_l by lia. }
  rewrite E. assert (length (take n src) = n) by (rewrite length_take; lia). by rewrite take_app_length'.
Qed.

Definition entry_ready (e : sivfs_log_entry) (es : list wse) : Prop := ws_repr (le_ws e) es /\ le_aborted e = false /\ le_ws_has_metadata e = false.

(** A buffer with room for the words of its capacity. *)
Record buffer_ok (ws : sivfs_writeset) : Prop := {
  bu_size : 0 <= ws_size_bytes ws <= ws_capacity_bytes ws;
  bu_cap : ws_capacity_bytes ws < 2 ^ 62;
  bu_alloc : ws_capacity_bytes ws / 8 = Z.of_nat (length (ws_entries ws))
}.

Lemma repr_buffer ws es : ws_repr ws es -> buffer_ok ws.
Proof. intros [Hs _ _ Hc Ha]. split; [lia|lia|done]. Qed.

Lemma reserve_buffer kz n ws : buffer_ok ws -> 0 <= n < 2 ^ 60 ->
  (exists ws', sivfs_writeset_reserve kz n ws = (Ok tt, ws') /\ buffer_ok ws' /\ n <= ws_capacity_bytes ws') \/
  (kz = false /\ sivfs_writeset_reserve kz n ws = (Err ENOMEM, ws)).
Proof.
  intros [Hs Hc Ha] Hn. unfold sivfs_writeset_reserve, SIVFS_WRITESET_ENTRY_MIN_SIZE. destruct (Z.leb_spec (ws_capacity_bytes ws) n).
  2: { left. exists ws. split; [done|]. split; [by split|lia]. }
  destruct kz; [left; eexists; split; [done|]|by right]. rewrite max3_size_t_spec, umul_small by u64_lia. cbn [ws_size_bytes ws_capacity_bytes].
  split; [|lia]. split; cbn [ws_size_bytes ws_capacity_bytes ws_entries]; [lia|lia|]. rewrite length_ws_realloc. unfold SIZEOF_WORD. rewrite Z2Nat.id; [done|]. apply Z.div_pos; lia.
Qed.

Section copied.
Context (io : commit_io) (args : sivfs_args) (es : list wse) (Hagain : co_again io = Some args) (Hes : ws_repr (ar_ws args) es).
Context (Hmax : ws_size_bytes (ar_ws args) <= MAX_COMMIT_SIZE).

Lemma ws_of_step (f : M sivfs_writeset unit) e r ws : f (le_ws e) = (r, ws) -> on_ws_of f e = (r, with_ws ws e).
Proof. unfold on_ws_of. by intros ->. Qed.

(** Without memory nothing changes; when the entries cannot be read in full, the
    buffer holds what could be read, and is still of the size it was. *)
Lemma copy_argstruct_ok e : buffer_ok (le_ws e) ->
  (exists e', sivfs_copy_argstruct_to_log_entry io e = (Ok tt, e') /\ entry_ready e' es /\ (length (encode es) <= co_readable io)%nat) \/
  (co_grow io = false /\ exists e', sivfs_copy_argstruct_to_log_entry io e = (Err ENOMEM, e') /\ buffer_ok (le_ws e')) \/
  ((co_readable io < length (encode es))%nat /\ exists e', sivfs_copy_argstruct_to_log_entry io e = (Err EFAULT, e') /\ buffer_ok (le_ws e')).
Proof.
  intros Hb. pose proof (repr_size _ _ Hes) as Hs. pose proof (repr_cap _ _ Hes) as Hcap. pose proof (repr_alloc _ _ Hes) as Hal.
  set (n := length (encode es)) in *. set (src := ws_entries (ar_ws args)) in *. assert (Hsrc : (n <= length src)%nat).
  { pose proof (repr_entries _ _ Hes) as E. fold n src in E. apply (f_equal length) in E. rewrite length_take in E. fold n in E. lia. }
  unfold sivfs_copy_argstruct_to_log_entry. rewrite Hagain. cbv zeta. fold src.
  rewrite small_ws_enabled by (unfold MAX_COMMIT_SIZE in Hmax; lia). rewrite (proj2 (Z.ltb_ge _ _)) by lia.
  destruct (reserve_buffer (co_grow io) (ws_size_bytes (ar_ws args)) (le_ws e) Hb) as [(ws1 & E1 & [Hsz1 Hcap1 Hal1] & Hroom)|[Hg E1]]; [unfold MAX_COMMIT_SIZE in Hmax; lia| |].
  2: { right; left. split; [done|]. rewrite (bind_err _ _ _ _ _ (ws_of_step _ e _ _ E1)). by eexists. }
  rewrite (bind_step _ _ _ _ _ (ws_of_step _ e _ _ E1)). rewrite Hs.
  set (l := copy_in (co_readable io) src (ws_entries ws1) (8 * Z.of_nat n)).
  rewrite (bind_step _ _ _ tt (with_ws (set_entries l ws1) (with_ws ws1 e))) by done. change SIZEOF_WORD with 8.
  assert (Hdst : (n <= length (ws_entries ws1))%nat).
  { rewrite Hs in Hroom. apply Nat2Z.inj_le. rewrite <- Hal1. apply Z.div_le_lower_bound; lia. }
  assert (Hlen : length l = length (ws_entries ws1)) by (apply copy_in_length; lia).
  assert (Hb1 : buffer_ok (set_entries l ws1)) by (split; cbn; [lia|lia|by rewrite Hlen]).
  destruct (Z.ltb_spec (8 * Z.of_nat (Nat.min (co_readable io) (length src))) (8 * Z.of_nat n)) as [Hlt|Hge].
  - right; right. split; [lia|]. eexists. split; [reflexivity|]. done.
  - left. eexists. split; [reflexivity|]. split; [|lia]. split; [|done]. pose proof (copy_in_words (co_readable io) src (ws_entries ws1) n Hsrc Hdst ltac:(lia)) as Ht.
    cbn. split; cbn; [done| |apply Hes|lia|by rewrite Hlen]. fold n l. unfold l. rewrite Ht. apply Hes.
Qed.
End copied.

Section commit_ioctl_theorems.
Context {T : Type} `{PageCacheLaws T}.

Definition with_writeset (e : sivfs_log_entry) (u : ustate T) : ustate T := mk_us (us_commit u) (us_alloc u) (us_task u) (Some e).

(** The task may commit the write set [es] of its process, whose writes are
    [own]: what my_sivfs_commit_update asks for once the kernel has a copy. *)
Definition transacting (ev : upd_env) (t : Z) (u : ustate T) (es : list wse) (h : gmap Z cpage) (m : Z -> Z -> page) (own : list (Z * Z * Z)) (lo n : Z) : Prop :=
  forall e, entry_ready e es -> running ev t (with_writeset e u) h m own lo n /\ undisturbed ev (with_writeset e u).

(** The process's arguments after a transaction: its outcome and an empty write set. *)
Definition answered (b : bool) (a : sivfs_args) : sivfs_args := mk_args b (set_ws_size 0 (ar_ws a)) (ar_abort a) (ar_wants_direct_access a).

Definition told (io : commit_io) (out : sivfs_args) (u : ustate T) : res unit * proc T :=
  match co_torn io with
  | None => (Ok tt, mk_proc out (Some u))
  | Some torn => (Err EFAULT, mk_proc torn (Some u))
  end.

Lemma state_step {A} (f : M (ustate T) A) args u r u' : f u = (r, u') -> on_state f (mk_proc args (Some u)) = (r, mk_proc args (Some u')).
Proof. unfold on_state. cbn. by intros ->. Qed.

Lemma writeset_step (f : M sivfs_log_entry unit) u e r e' : us_writeset u = Some e -> f e = (r, e') -> on_writeset f u = (r, with_writeset e' u).
Proof. unfold on_writeset. by intros -> ->. Qed.

(** The process changes none of it during the call. *)
Record faithful (io : commit_io) (args : sivfs_args) (es : list wse) : Prop := {
  fa_first : co_copy_in io = true;
  fa_again : co_again io = Some args;
  fa_repr : ws_repr (ar_ws args) es;
  fa_size : ws_size_bytes (ar_ws args) <= MAX_COMMIT_SIZE;
  fa_direct : ar_wants_direct_access args = false
}.

(** Same log, same snapshot, same blocks, same arguments. *)
Definition undone (p p' : proc T) : Prop := pr_args p' = pr_args p /\ exists u u', pr_state p = Some u /\ pr_state p' = Some u' /\
  us_commit u' = us_commit u /\ us_task u' = us_task u /\ us_alloc u' = us_alloc u.

Lemma running_commits (u : ustate T) e n own d : commits (with_writeset e u) n own d <-> commits u n own d.
Proof. done. Qed.

Lemma running_committed ev (u : ustate T) e u' t x h m own lo n n' b : committed ev (with_writeset e u) u' t x h m own lo n n' b -> committed ev u u' t x h m own lo n n' b.
Proof. intros [? ? ? ? ? ?]. by split. Qed.

Lemma commit_ioctl_ok io ev t args u e x es h m own lo n : faithful io args es -> us_writeset u = Some e -> buffer_ok (le_ws e) ->
  transacting ev t u es h m own lo n -> a_threads (us_alloc u) !! t = Some x ->
  let p := mk_proc args (Some u) in
  (exists b u' n', sivfs_ioctl_commit_update io ev t p = told io (answered b args) u' /\ committed ev u u' t x h m own lo n n' b /\
     (b = false <-> commits u n own (t_should_abort x || ar_abort args))) \/
  exists err p', sivfs_ioctl_commit_update io ev t p = (Err err, p') /\ undone p p' /\
    ((err = ENOMEM /\ (co_grow io = false \/ ue_chunk ev = None)) \/ (err = EFAULT /\ (co_readable io < length (encode es))%nat)).
Proof.
  intros [Hf1 Hf2 Hr Hmax Hd] He Hb Htr Hx p. unfold sivfs_ioctl_commit_update. rewrite (bind_step (gets pr_state) _ p (Some u) p eq_refl), Hf1. cbn [negb].
  rewrite (bind_step (gets pr_args) _ p args p eq_refl).
  destruct (copy_argstruct_ok io args es Hf2 Hr Hmax e Hb) as [(e' & E & Hready & Hread)|Hfail].
  2: { right. assert (Hf : exists err e', sivfs_copy_argstruct_to_log_entry io e = (Err err, e') /\
         ((err = ENOMEM /\ (co_grow io = false \/ ue_chunk ev = None)) \/ (err = EFAULT /\ (co_readable io < length (encode es))%nat)))
         by (destruct Hfail as [(? & e' & E & _)|(? & e' & E & _)]; eexists _, e'; (split; [exact E|]); [left|right]; tauto).
    destruct Hf as (err & e' & E & Hwhy). rewrite (bind_err _ _ _ _ _ (state_step _ args u _ _ (writeset_step _ u e _ _ He E))).
    eexists err, _. split; [reflexivity|]. split; [|done]. split; [done|]. by eexists u, _. }
  rewrite (bind_step _ _ _ _ _ (state_step _ args u _ _ (writeset_step _ u e _ _ He E))). rewrite Hd, Z.lor_0_r. set (options := if ar_abort args then _ else _).
  destruct (Htr e' Hready) as [Hrun Hun].
  destruct (commit_update_ok ev t options _ x h m own lo n Hrun Hun) as [(b & u' & n' & E2 & Hc & Hcom)|(Hk & u' & E2 & Hc & Ht & Hal)];
    [unfold options; by destruct (ar_abort args)|done|left|right].
  - rewrite (bind_step _ _ _ _ _ (state_step _ args _ _ _ E2)). exists b, u', n'. split; [unfold told, answered; rewrite Hd; by destruct (co_torn io)|].
    split; [by apply (running_committed ev u e')|]. rewrite Hcom, (running_commits u e'). unfold options. by destruct (ar_abort args).
  - rewrite (bind_err _ _ _ _ _ (state_step _ args _ _ _ E2)). eexists ENOMEM, _. split; [reflexivity|]. split; [|left; tauto]. split; [done|]. exists u, u'. done.
Qed.



(** A commit whose outcome cannot be written back is in the log all the same,
    and the process is given the error of a commit that did not happen: trying
    again commits the writes once more. *)
Theorem unreported_commit io ev t args u e x es h m own lo n torn : faithful io args es -> us_writeset u = Some e -> buffer_ok (le_ws e) ->
  transacting ev t u es h m own lo n -> a_threads (us_alloc u) !! t = Some x ->
  co_torn io = Some torn -> co_grow io = true -> ue_chunk ev <> None -> (length (encode es) <= co_readable io)%nat ->
  commits u n own (t_should_abort x || ar_abort args) ->
  exists u' n', sivfs_ioctl_commit_update io ev t (mk_proc args (Some u)) = (Err EFAULT, mk_proc torn (Some u')) /\
    log_writes (cs_log (us_commit u')) (st_ts (us_task u)) n' = log_writes (cs_log (us_commit u)) (st_ts (us_task u)) n ++ own.
Proof.
  intros Hf He Hb Ht Hx Htorn Hg Hk Hr Hcm. destruct (commit_ioctl_ok io ev t args u e x es h m own lo n Hf He Hb Ht Hx)
    as [(b & u' & n' & E & Hc & Hcom)|(err & p' & _ & _ & [(_ & [?|?])|(_ & ?)])]; [|congruence|done|lia].
  apply Hcom in Hcm. subst b. unfold told in E. rewrite Htorn in E. exists u', n'. split; [exact E|]. exact (cm_writes _ _ _ _ _ _ _ _ _ _ _ _ Hc).
Qed.

(** Arguments that the kernel refuses: unreadable ones, a write set that was
    disabled for direct access, one that is too large. *)
Definition unacceptable (io : commit_io) : Prop := co_copy_in io = false \/ co_again io = None \/
  exists a, co_again io = Some a /\ (sivfs_ws_is_disabled (ar_ws a) = true \/ MAX_COMMIT_SIZE < ws_size_bytes (ar_ws a)).

Lemma refused_copy io e : unacceptable io -> co_copy_in io = true -> sivfs_copy_argstruct_to_log_entry io e = (Err EFAULT, e).
Proof.
  unfold sivfs_copy_argstruct_to_log_entry. intros [?|[->|(a & -> & Ha)]] Hc; [congruence|done|]. destruct (sivfs_ws_is_disabled (ar_ws a)) eqn:Ed; [done|].
  destruct Ha as [?|Ha]; [congruence|]. cbv zeta. by rewrite (proj2 (Z.ltb_lt _ _) Ha).
Qed.

(** C3. Refused arguments change nothing at all, the kernel's own buffer included. *)
Theorem commit_ioctl_refuses io ev t p : unacceptable io -> pr_state p <> None -> (forall u, pr_state p = Some u -> us_writeset u <> None) ->
  sivfs_ioctl_commit_update io ev t p = (Err EFAULT, p).
Proof.
  intros Hu Hs Hw. destruct p as [args [u|]]; [|done]. unfold sivfs_ioctl_commit_update. rewrite (bind_step (gets pr_state) _ (mk_proc args (Some u)) (Some u) (mk_proc args (Some u)) eq_refl).
  destruct (co_copy_in io) eqn:Ec; [|done]. cbn [negb]. rewrite (bind_step (gets pr_args) _ (mk_proc args (Some u)) args (mk_proc args (Some u)) eq_refl).
  destruct (us_writeset u) as [e|] eqn:He; [|by destruct (Hw u eq_refl)].
  rewrite (bind_err _ _ _ _ _ (state_step _ args u _ _ (writeset_step _ u e _ _ He (refused_copy io e Hu Ec)))). unfold with_writeset. rewrite <- He. by destruct u.
Qed.

(** ** Pausing *)

(** After a pause the task has no page of any snapshot and holds no checkpoint
    back: its faults are errors until it commits or aborts. *)
Record paused (s s' : task T) : Prop := {
  pa_pages : forall ino pg, cached (st_workingset s') ino pg = None /\ mapped (st_workingset s') ino pg = None;
  pa_ws : ws_ok (st_workingset s');
  pa_ts : st_ts s' = SIVFS_INVALID_TS;
  pa_versions : st_checkpoint_ts s' = SIVFS_INVALID_TS /\ st_prior_checkpoint_ts s' = SIVFS_INVALID_TS /\ st_checkpoint s' = 0
}.

(** sivfs_ioctl_txn_pause succeeds and leaves the task without a snapshot:
    no page of it is cached or mapped, no version is checked out, and a fault
    finds no page to serve. *)
Theorem pause_outcome (p : proc T) u F c st ino off : pr_state p = Some u -> ws_ok (st_workingset (us_task u)) ->
  exists u', sivfs_ioctl_txn_pause p = (Ok tt, mk_proc (pr_args p) (Some u')) /\ paused (us_task u) (us_task u') /\
    us_commit u' = us_commit u /\ us_alloc u' = us_alloc u /\
    my_sivfs_update_page F c st (st_ts (us_task u')) (st_checkpoint (us_task u')) ino off = Err EINVAL.
Proof.
  intros Hu Hok. destruct (invalidate_workingset_ok 0 (st_workingset (us_task u)) Hok) as (ws & E & [Hok' _ Hc Hm]).
  destruct p as [args o]; cbn [pr_state] in Hu; subst o. unfold sivfs_ioctl_txn_pause. rewrite (bind_step (gets pr_state) _ (mk_proc args (Some u)) (Some u) (mk_proc args (Some u)) eq_refl).
  assert (Ep : pause (us_task u) = (Ok tt, mk_task SIVFS_INVALID_TS 0 SIVFS_INVALID_TS SIVFS_INVALID_TS (st_direct_access (us_task u)) ws)).
  { unfold pause. rewrite (bind_step _ _ (us_task u) tt (set_workingset ws (us_task u))); [done|]. unfold on_ws. by rewrite E. }
  rewrite (state_step _ args u _ _ (on_task_step _ u _ _ Ep)). eexists. split; [reflexivity|]. split; [|done]. split; cbn; [|done..].
  intros ino' pg. split; [apply Hc|rewrite Hm; done].
Qed.
End commit_ioctl_theorems.

(** *** Examples: the task of CommitUpdate.v calls the ioctls *)

Definition sample_args : sivfs_args := mk_args false (le_ws (writeset_entry [sample_write])) false false.

Lemma sample_args_repr : ws_repr (ar_ws sample_args) [sample_write].
Proof. apply ws_of_repr; [repeat constructor|done]. Qed.

Lemma sample_transacting : transacting sample_env 5 sample_ustate [sample_write] sample_pages sample_snapshot sample_own 1 3.
Proof.
  intros e (Hr & Ha & Hm). split.
  - destruct sample_running as [H1 H2 H3 H4 H5 H6 H7 H8 H9 H10 _].
    split; [exact H1|exact H2|exact H3|exact H4|exact H5|exact H6|exact H7|exact H8|exact H9|exact H10|]. exists [sample_write]. split; [done|]. split; [done|]. unfold placed. cbn [with_writeset us_writeset]. rewrite Hm. split; [|done].
    constructor; [|constructor]. eexists. split; [reflexivity|]. by split.
  - split; [by exists 60|done|]. intros lw p [= <-] [= <-]. rewrite (repr_size _ _ Hr). by apply fresh_by_size; [| |vm_compute].
Qed.



Lemma unreported_commit_witness : let io := mk_cio true (Some sample_args) 100 true (Some sample_args) in
  exists u' n', sivfs_ioctl_commit_update io sample_env 5 (mk_proc sample_args (Some sample_ustate)) = (Err EFAULT, mk_proc sample_args (Some u')) /\
    log_writes (cs_log (us_commit u')) 1 n' = log_writes (cs_log (us_commit sample_ustate)) 1 3 ++ sample_own.
Proof.
  intros io. apply (unreported_commit io sample_env 5 sample_args sample_ustate (with_has_metadata false (writeset_entry [sample_write]))
    (mk_tstate 4 [100] [] false) [sample_write] sample_pages sample_snapshot sample_own 1 3 sample_args);
    [split; [done|done|exact sample_args_repr|by vm_compute|done]|done|exact (repr_buffer _ _ sample_args_repr)|exact sample_transacting|vm_compute; reflexivity|done..|cbn; lia|].
  split; [done|]. vm_compute. intros w w' Hw Hw'. set_unfold. naive_solver.
Defined.

Lemma commit_ioctl_refuses_witness : let big := mk_args false (mk_ws 300000 300000 []) false false in
  sivfs_ioctl_commit_update (mk_cio true (Some big) 100 true None) sample_env 5 (mk_proc big (Some sample_ustate)) = (Err EFAULT, mk_proc big (Some sample_ustate)).
Proof. intros big. apply commit_ioctl_refuses; [right; right; exists big; split; [done|by right]|done|by intros u [= <-]]. Defined.

Lemma pause_outcome_witness : exists u', sivfs_ioctl_txn_pause (mk_proc sample_args (Some sample_ustate)) = (Ok tt, mk_proc sample_args (Some u')) /\
  paused sample_task (us_task u') /\ us_commit u' = us_commit sample_ustate /\ us_alloc u' = us_alloc sample_ustate /\
  my_sivfs_update_page x86_flags sample_cps sample_log3 (st_ts (us_task u')) (st_checkpoint (us_task u')) 7 0 = Err EINVAL.
Proof. apply (pause_outcome (mk_proc sample_args (Some sample_ustate)) sample_ustate x86_flags sample_cps sample_log3 7 0); [reflexivity|exact sample_ws_ok]. Defined.
