(* ===== verification/Fault.v ===== *)
(** Page faults (kern/inode.c): sivfs_fault_checkpoint, sivfs_fault,
    sivfs_mkwrite, and what the kernel does with the page they return.

    Configuration: whole checkpoints are not checked out
    (SIVFS_FIGURE_NO_CHECKOUT_CPS), so sivfs_try_checkout_checkpoint does
    nothing and sivfs_checkpoint_mapped is false; single checkpoint pages are. *)
From S2P Require Import Prelude Types Stack RadixTree Writeset Log LogView Commit PageTree MakeCheckpoint Checkpoints Workingset Update.

(** The kernel's value for an entry that is no pointer. *)
Definition RADIX_TREE_EXCEPTIONAL_ENTRY : Z := 2.

(** The error codes of a fault handler. *)
Inductive vm_fault : Type := VM_FAULT_SIGBUS | VM_FAULT_RETRY | VM_FAULT_NOPAGE.

(** The page of a successful fault (VM_FAULT_LOCKED): one of a checkpoint, or
    the private one in the page cache. *)
Inductive fault_page : Type := CheckpointPage (pa : Z) | PrivatePage.

(** What the kernel answers: memory for a node of checkpoint_pages, for a page
    and its place in the page cache, the stale words of a new page, whether the
    page can be locked, and the stack of sivfs_prepare_direct_access_page. *)
Record fault_env : Type := mk_fenv {
  fe_node : bool;
  fe_alloc : bool;
  fe_add : bool;
  fe_words : page;
  fe_trylock : bool;
  fe_push : Z -> bool
}.

Section fault.
Context (F : pt_flags) (ZERO_PAGE : Z) {T : Type} `{PageCache T}.

(** [fs_cow]: cp_page_to_cow, 0 for NULL. *)
Record fstate : Type := mk_fs {
  fs_cps : cps;
  fs_task : task T;
  fs_cow : Z
}.

Definition on_cps {A} (m : M cps A) : M fstate A := fun s =>
  let '(r, c) := m (fs_cps s) in (r, mk_fs c (fs_task s) (fs_cow s)).
Definition on_pages {A} (m : M pstore A) : M fstate A := fun s =>
  let '(r, p) := m (c_store (fs_cps s)) in (r, mk_fs (set_store p (fs_cps s)) (fs_task s) (fs_cow s)).
Definition set_cow (cow : Z) (s : fstate) : fstate := mk_fs (fs_cps s) (fs_task s) cow.

(** The anonymous inode of the vma; faulting on none is no case here. *)
Definition load_anon (ino : Z) : M fstate (anon_inode T) := fun s => (deref (st_workingset (fs_task s) !! ino), s).
Definition store_anon (ino : Z) (a : anon_inode T) : M fstate unit := modify (fun s =>
  mk_fs (fs_cps s) (set_workingset (<[ino := a]> (st_workingset (fs_task s))) (fs_task s)) (fs_cow s)).

(** unlock_page and put_page. *)
Definition unlock_put (pa : Z) : M fstate unit := on_pages (
  let! p := load_page pa in
  store_page pa (with_refct (cp_refct p - 1) false p)).

(** A C call whose error the caller turns into VM_FAULT_SIGBUS. *)
Definition or_sigbus {A} (m : M fstate A) (k : A -> M fstate (vm_fault + option Z)) : M fstate (vm_fault + option Z) := fun s =>
  match m s with
  | (Ok a, s) => k a s
  | (Err _, s) => (Ok (inl VM_FAULT_SIGBUS), s)
  | (Fault, s) => (Fault, s)
  | (OutOfFuel, s) => (OutOfFuel, s)
  end.

(** ** sivfs_fault_checkpoint *)

Definition set_checkpoint_entry (ev : fault_env) (ino pgoff : Z) : M fstate unit :=
  let! a := load_anon ino in
  let! i := lift (deref (an_iinfo a)) in
  fun s =>
    let '(r, tree) := sivfs_radix_tree_set (fe_node ev) pgoff RADIX_TREE_EXCEPTIONAL_ENTRY (an_checkpoint_pages i) in
    let '(_, s) := store_anon ino (set_iinfo (mk_aiinfo tree (an_checkpoint_checked_out i)) a) s in
    (r, s).

Definition sivfs_fault_checkpoint (ev : fault_env) (st : log_state) (ino pgoff : Z) : M fstate (vm_fault + option Z) :=
  let! t := gets fs_task in
  let file_offset := u64 (Z.shiftl pgoff PAGE_SHIFT) in
  if st_ts t =? SIVFS_INVALID_TS then ret (inl VM_FAULT_SIGBUS)
  else if st_checkpoint t =? 0 then ret (inl VM_FAULT_SIGBUS)
  else
    let! c := gets fs_cps in
    let! cpinfo := lift (deref (c_inodes c !! st_checkpoint t)) in
    or_sigbus (lift (sivfs_find_first_write st (ci_ts cpinfo) (st_ts t) ino file_offset (uadd file_offset PAGE_SIZE))) (fun first_modifier =>
    if negb (first_modifier =? SIVFS_INVALID_TS) then ret (inr None)
    else
      let! a := load_anon ino in
      match find_get_page (an_mapping a) pgoff with
      | Some _ => ret (inr None)
      | None =>
        or_sigbus (on_pages (sivfs_lock_cp_page F (ci_root cpinfo) ino file_offset)) (fun cp_page =>
        let! pages := gets (fun s => p_pages (c_store (fs_cps s))) in
        let zero := match cp_page with
                    | None => true
                    | Some pa => match pages !! pa with Some p => sivfs_is_zero_page ZERO_PAGE pa p | None => false end
                    end in
        if st_direct_access t && zero then
          do! (match cp_page with Some pa => unlock_put pa | None => ret tt end) in
          or_sigbus (on_cps (sivfs_prepare_direct_access_page F ZERO_PAGE (fe_push ev) (st_checkpoint t) ino file_offset)) (fun _ =>
          ret (inl VM_FAULT_RETRY))
        else
          match cp_page with
          | None => ret (inr None)
          | Some pa => fun s =>
            match set_checkpoint_entry ev ino pgoff s with
            | (Err _, s) => (do! unlock_put pa in ret (inl VM_FAULT_SIGBUS)) s
            | (Ok _, s) => (Ok (inr (Some pa)), s)
            | (Fault, s) => (Fault, s)
            | (OutOfFuel, s) => (OutOfFuel, s)
            end
          end)
      end).

(** ** sivfs_fault *)

(** A checkpoint page that is mapped at the page goes away. *)
Definition evict_checkpoint_page (ino pgoff : Z) : M fstate unit :=
  let file_offset := u64 (Z.shiftl pgoff PAGE_SHIFT) in
  let! a := load_anon ino in
  let! i := lift (deref (an_iinfo a)) in
  match an_checkpoint_pages i !! pgoff with
  | Some checkpoint_entry =>
    if decide (is_pointer checkpoint_entry) then
      store_anon ino (mk_anon (sivfs_unmap_page_range (PAGE_ROUND_DOWN file_offset) PAGE_SIZE (an_mapping a))
                        (Some (mk_aiinfo (delete pgoff (an_checkpoint_pages i)) (an_checkpoint_checked_out i))))
    else ret tt
  | None => ret tt
  end.

Definition store_private (ino pgoff : Z) (p : wspage) : M fstate unit :=
  let! a := load_anon ino in
  store_anon ino (set_mapping (page_store (an_mapping a) pgoff p) a).

(** The page of the page cache, a new one if there is none. *)
Definition get_private (ev : fault_env) (ino pgoff : Z) : M fstate (vm_fault + wspage) :=
  let! a := load_anon ino in
  match find_get_page (an_mapping a) pgoff with
  | None =>
    if negb (fe_alloc ev && fe_add ev) then ret (inl VM_FAULT_SIGBUS)
    else
      let p := mk_wspage (fe_words ev) false false in
      do! store_private ino pgoff p in ret (inr p)
  | Some p =>
    if negb (fe_trylock ev) then ret (inl VM_FAULT_RETRY)
    else if negb (wp_uptodate p) then ret (inl VM_FAULT_SIGBUS)
    else ret (inr p)
  end.

(** The contents of a fresh page: those of the checkpoint page to copy, or of
    the checkpoint with the log applied. *)
Definition fill_page (st : log_state) (cp_page : option Z) (ino pgoff : Z) : M fstate page :=
  let! t := gets fs_task in
  let! c := gets fs_cps in
  match cp_page with
  | Some pa => let! p := lift (deref (p_pages (c_store c) !! pa)) in ret (cp_words p)
  | None => lift (my_sivfs_update_page F c st (st_ts t) (st_checkpoint t) ino (u64 (Z.shiftl pgoff PAGE_SHIFT)))
  end.

Definition fault_private (ev : fault_env) (st : log_state) (cp_page : option Z) (ino pgoff : Z) : M fstate (vm_fault + fault_page) :=
  do! (match cp_page with Some pa => unlock_put pa | None => ret tt end) in
  do! evict_checkpoint_page ino pgoff in
  let! r := get_private ev ino pgoff in
  match r with
  | inl code => ret (inl code)
  | inr p =>
    if wp_uptodate p then ret (inr PrivatePage)
    else fun s =>
      match fill_page st cp_page ino pgoff s with
      | (Ok mem, s) => (do! store_private ino pgoff (mk_wspage mem false true) in ret (inr PrivatePage)) s
      | (Err _, s) => (Ok (inl VM_FAULT_SIGBUS), s)
      | (Fault, s) => (Fault, s)
      | (OutOfFuel, s) => (OutOfFuel, s)
      end
  end.

(** [write]: VM_FAULT_WRITE. The task that faults is the one the inode belongs to. *)
Definition sivfs_fault (ev : fault_env) (st : log_state) (write : bool) (ino pgoff : Z) : M fstate (vm_fault + fault_page) :=
  let! a := load_anon ino in
  match an_iinfo a with
  | None => ret (inl VM_FAULT_SIGBUS)
  | Some i =>
    if an_checkpoint_checked_out i then ret (inl VM_FAULT_SIGBUS)
    else
      let! r := sivfs_fault_checkpoint ev st ino pgoff in
      match r with
      | inl code => ret (inl code)
      | inr cp_page =>
        let! s := gets (fun s => s) in
        do! modify (set_cow 0) in
        let should_cow_cp_page := fs_cow s =? default 0 cp_page in
        if st_direct_access (fs_task s) then
          match cp_page with
          | Some pa =>
            let zero := match p_pages (c_store (fs_cps s)) !! pa with Some p => sivfs_is_zero_page ZERO_PAGE pa p | None => false end in
            if should_cow_cp_page || zero then ret (inl VM_FAULT_SIGBUS) else ret (inr (CheckpointPage pa))
          | None => ret (inl VM_FAULT_SIGBUS)
          end
        else
          match cp_page with
          | Some pa => if negb write && negb should_cow_cp_page then ret (inr (CheckpointPage pa)) else fault_private ev st cp_page ino pgoff
          | None => fault_private ev st cp_page ino pgoff
          end
      end
  end.

(** The kernel's part: it maps the page, and drops the lock it was given. *)
Definition do_fault (ev : fault_env) (st : log_state) (write : bool) (ino pgoff : Z) : M fstate (vm_fault + fault_page) :=
  let! r := sivfs_fault ev st write ino pgoff in
  match r with
  | inr (CheckpointPage pa) =>
    let! a := load_anon ino in
    do! store_anon ino (set_mapping (map_page (an_mapping a) pgoff pa) a) in
    do! on_pages (let! p := load_page pa in store_page pa (with_refct (cp_refct p) false p)) in
    ret r
  | _ => ret r
  end.

(** ** sivfs_mkwrite *)

(** A write to a page that is mapped read-only: [mapped] is the checkpoint page
    there, none for a private page. [Ok None]: the write may proceed. *)
Definition sivfs_mkwrite (ino pgoff : Z) (page : option Z) : M fstate (option vm_fault) :=
  let! a := load_anon ino in
  match an_iinfo a with
  | None => ret (Some VM_FAULT_SIGBUS)
  | Some i =>
    let! s := gets (fun s => s) in
    if negb (fs_cow s =? 0) then ret (Some VM_FAULT_SIGBUS)
    else if st_direct_access (fs_task s) then
      match page with Some _ => ret None | None => ret (Some VM_FAULT_SIGBUS) end
    else
      match page with
      | Some pa =>
        do! modify (set_cow pa) in
        do! store_anon ino (mk_anon (sivfs_unmap_page_range (u64 (Z.shiftl pgoff PAGE_SHIFT)) PAGE_SIZE (an_mapping a))
                              (Some (mk_aiinfo (delete pgoff (an_checkpoint_pages i)) (an_checkpoint_checked_out i)))) in
        ret (Some VM_FAULT_NOPAGE)
      | None => ret None
      end
  end.
End fault.
Arguments fstate T : clear implicits.

(** ** No write since the checkpoint *)

Lemma hits_touches e ino pg : entry_hits ino (pg * PAGE_SIZE) (pg * PAGE_SIZE + PAGE_SIZE) e = existsb (touches ino pg) (entry_writes e).
Proof.
  unfold entry_hits, entry_writes. destruct (le_aborted e); [done|]. cbn [negb andb].
  induction (ws_contents (le_ws e)).2 as [|[[[i off] c] v] l IH]; [done|]. rewrite fmap_cons. cbn [existsb touches]. rewrite IH. f_equal.
  rewrite (Z.eqb_sym i ino). destruct (ino =? i); [|done]. cbn [andb]. unfold PAGE_SIZE.
  pose proof (Z.mod_pos_bound off 4096 eq_refl). pose proof (Z.div_mod off 4096 ltac:(done)).
  destruct (Z.leb_spec (pg * 4096) off), (Z.ltb_spec off (pg * 4096 + 4096)), (Z.eqb_spec pg (off / 4096)); cbn [andb]; try done; exfalso; lia.
Qed.

Lemma writes_untouched st lo n t0 t1 ino pg : log_view st lo n -> lo <= t0 + 1 -> t0 <= t1 <= n ->
  (forall t e, t0 < t <= t1 -> entry_at st t = Some e -> existsb (touches ino pg) (entry_writes e) = false) ->
  existsb (touches ino pg) (log_writes st t0 t1) = false.
Proof.
  intros Hv Hlo Ht Hno. apply not_true_iff_false. intros (w & Hw & Htw)%existsb_exists. apply list_elem_of_In in Hw.
  unfold log_writes in Hw. apply list_elem_of_bind in Hw as (e & Hwe & He).
  pose proof (slice_entry_at st lo n (t0 + 1) (Z.to_nat (t1 - t0)) e Hv Hlo ltac:(lia) He) as Hat. apply (slice_ts _ lo n) in He; [|done|lia..].
  specialize (Hno (le_ts e) e ltac:(lia) Hat). apply not_true_iff_false in Hno. apply Hno, existsb_exists. exists w. split; [by apply list_elem_of_In|done].
Qed.

(** The outcome of the search for a modifier, for the page [pg]. *)
Lemma first_modifier_ok st lo n t0 t1 ino pg : log_view st lo n -> lo <= t0 + 1 -> t0 <= t1 <= n ->
  exists r, sivfs_find_first_write st t0 t1 ino (pg * PAGE_SIZE) (pg * PAGE_SIZE + PAGE_SIZE) = Ok r /\
    (r = SIVFS_INVALID_TS -> existsb (touches ino pg) (log_writes st t0 t1) = false).
Proof.
  intros Hv Hlo Ht. destruct (Z.eq_dec t0 t1) as [<-|Hne].
  - exists SIVFS_INVALID_TS. unfold sivfs_find_first_write, PAGE_SIZE. rewrite Z.ltb_irrefl, (proj2 (Z.leb_gt _ _)), Z.eqb_refl by lia.
    split; [done|]. intros _. unfold log_writes. by rewrite Z.sub_diag.
  - destruct (find_first_write_ok st lo n t0 t1 ino (pg * PAGE_SIZE) (pg * PAGE_SIZE + PAGE_SIZE) Hv Hlo ltac:(lia) ltac:(unfold PAGE_SIZE; lia)) as (r & E & Hr).
    exists r. split; [done|]. intros ->. destruct Hr as [(? & _)|(_ & Hno)]; [done|].
    apply (writes_untouched st lo n); try done. intros t e Ht' He. rewrite <- hits_touches. by eapply Hno.
Qed.

Lemma advance_untouched st t0 t1 m ino pg : existsb (touches ino pg) (log_writes st t0 t1) = false -> advance st t0 t1 m ino pg = m ino pg.
Proof. intros Hno. unfold advance. by rewrite write_words_page, page_untouched. Qed.

(** ** Pages whose words do not change *)

(** Only reference counts and locks of pages change. *)
Definition same_words (h h' : gmap Z cpage) : Prop := forall pa, cp_words <$> h' !! pa = cp_words <$> h !! pa.

Lemma same_words_refl h : same_words h h.
Proof. done. Qed.
Lemma same_words_trans h1 h2 h3 : same_words h1 h2 -> same_words h2 h3 -> same_words h1 h3.
Proof. intros H1 H2 pa. by rewrite H2, H1. Qed.
Lemma same_words_store h pa p p' : h !! pa = Some p -> cp_words p' = cp_words p -> same_words h (<[pa := p']> h).
Proof. intros Hp Hw q. rewrite lookup_insert. case_decide; [subst q; rewrite Hp; simpl; by rewrite Hw|done]. Qed.
Lemma same_words_lookup h h' pa p : same_words h h' -> h !! pa = Some p -> exists p', h' !! pa = Some p' /\ cp_words p' = cp_words p.
Proof. intros Hs Hp. specialize (Hs pa). rewrite Hp in Hs. apply fmap_Some in Hs as (p' & ? & ?). by exists p'. Qed.

Lemma traverse_same_words F h h' stop : same_words h h' -> forall level iter pa,
  traverse_loop F level stop iter pa h' = traverse_loop F level stop iter pa h.
Proof.
  intros Hs level. induction level as [|level IH]; intros iter pa; cbn [traverse_loop]; (destruct (_ =? stop)%nat; [done|]); (destruct (pa =? 0); [done|]).
  all: specialize (Hs pa); destruct (h !! pa) as [p|], (h' !! pa) as [p'|]; try done; cbn [deref rbind].
  all: destruct (sivfs_checkpoint_iter_next_offset iter); try done; cbn [rbind]; unfold rd_word; injection Hs as ->; try done.
  destruct (if _ <? 0 then _ else _); try done. cbn [rbind]. apply IH.
Qed.

Lemma reads_same_words F h h' root m : same_words h h' -> reads F h root m -> reads F h' root m.
Proof.
  intros Hs Hr ino pg Hp. rewrite <- (Hr ino pg Hp). unfold sivfs_read_checkpoint, sivfs_checkpoint_traverse, sivfs_checkpoint_traverse_partial.
  destruct (_ || _); [done|]. destruct (sivfs_checkpoint_iter_init _ _); try done. cbn [rbind]. rewrite (traverse_same_words F h h' _ Hs).
  destruct (traverse_loop _ _ _ _ _ _) as [[pa|]| | |]; try done. cbn [rbind]. specialize (Hs pa).
  destruct (h !! pa), (h' !! pa); try done. cbn [deref rbind]. by injection Hs as ->.
Qed.

(** Locking the page of a checkpoint: there is none only where the page is zero. *)
Lemma lock_page_ok F root m ino pg s : reads F (p_pages s) root m -> page_ok ino pg ->
  exists r s', sivfs_lock_cp_page F root ino (pg * PAGE_SIZE) s = (Ok r, s') /\
    match r with
    | None => s' = s
    | Some pa => exists p, p_pages s !! pa = Some p /\ cp_words p = m ino pg /\ s' = set_pages (<[pa := with_refct (cp_refct p + 1) true p]> (p_pages s)) s
    end.
Proof.
  intros Hr Hp. specialize (Hr ino pg Hp). unfold sivfs_read_checkpoint, sivfs_lock_cp_page, get_cp_page_with in *.
  rewrite Z.mod_mul in Hr by done. cbn [Z.eqb negb orb] in Hr.
  destruct (sivfs_checkpoint_traverse _ _ _ _ _) as [[pa|]| | |]; try done; [|by exists None, s]. cbn [rbind] in Hr.
  destruct (p_pages s !! pa) as [p|] eqn:Ep; [|done]. cbn [deref rbind] in Hr. injection Hr as Hr.
  exists (Some pa). eexists. split; [|exists p; split; [done|]; split; [exact Hr|reflexivity]].
  unfold load_page, store_page, bind. by rewrite Ep.
Qed.

(** Marking a page that holds nothing but the marker or a tombstone. *)
Lemma set_entry_ok mem (t : gmap Z Z) pg : (forall v, t !! pg = Some v -> v = RADIX_TREE_EXCEPTIONAL_ENTRY \/ v = SIVFS_RADIX_TREE_TOMBSTONE) ->
  exists r t', sivfs_radix_tree_set mem pg RADIX_TREE_EXCEPTIONAL_ENTRY t = (r, t') /\ (forall j, j <> pg -> t' !! j = t !! j) /\
    match r with
    | Ok _ => t' !! pg = Some RADIX_TREE_EXCEPTIONAL_ENTRY
    | Err _ => mem = false /\ t' !! pg = None /\ t !! pg <> Some RADIX_TREE_EXCEPTIONAL_ENTRY
    | _ => False
    end.
Proof.
  intros Ht. unfold sivfs_radix_tree_set. cbn [radix_tree_lookup radix_tree_delete radix_gmap].
  destruct (t !! pg) as [v|] eqn:E.
  - destruct (Ht v eq_refl) as [-> | ->].
    + change (RADIX_TREE_EXCEPTIONAL_ENTRY =? SIVFS_RADIX_TREE_TOMBSTONE) with false. cbv iota. rewrite Z.eqb_refl. by exists (Ok tt), t.
    + rewrite Z.eqb_refl. unfold radix_tree_insert. cbn [radix_tree_lookup radix_tree_store radix_gmap]. rewrite lookup_delete_eq. destruct mem.
      * eexists _, _. split; [reflexivity|]. cbn. split; [intros j Hj; by rewrite lookup_insert_ne, lookup_delete_ne by done|]. apply lookup_insert_eq.
      * eexists _, _. split; [reflexivity|]. cbn. split; [intros j Hj; by rewrite lookup_delete_ne by done|]. split; [done|]. split; [apply lookup_delete_eq|done].
  - unfold radix_tree_insert. cbn [radix_tree_lookup radix_tree_store radix_gmap]. rewrite E. destruct mem.
    + eexists _, _. split; [reflexivity|]. cbn. split; [intros j Hj; by rewrite lookup_insert_ne by done|]. apply lookup_insert_eq.
    + by eexists _, _.
Qed.

(** ** The invariant of a task in a transaction *)

Section faulting.
Context (F : pt_flags) (ZERO_PAGE : Z) {T : Type} `{PageCacheLaws T}.

Notation fpages s := (p_pages (c_store (fs_cps s))).
Notation fws s := (st_workingset (fs_task s)).

(** The entries of checkpoint_pages. *)
Definition entries_ok (ws : gmap Z (anon_inode T)) : Prop := forall ino a i pg v, ws !! ino = Some a -> an_iinfo a = Some i ->
  an_checkpoint_pages i !! pg = Some v -> v = RADIX_TREE_EXCEPTIONAL_ENTRY \/ v = SIVFS_RADIX_TREE_TOMBSTONE.

(** The task reads the snapshot [m] at its timestamp, through its checkpoint
    and the log, and has made the writes [own]. *)
Record in_txn (st : log_state) (lo n : Z) (s : fstate T) (m : Z -> Z -> page) (own : list (Z * Z * Z)) : Prop := {
  it_log : log_view st lo n;
  it_direct : st_direct_access (fs_task s) = false;
  it_checkpoint : exists i m0, st_checkpoint (fs_task s) <> 0 /\ c_inodes (fs_cps s) !! st_checkpoint (fs_task s) = Some i /\
    0 <= ci_ts i /\ lo <= ci_ts i + 1 /\ ci_ts i <= st_ts (fs_task s) <= n /\
    Forall write_ok (log_writes st (ci_ts i) (st_ts (fs_task s))) /\
    reads F (fpages s) (ci_root i) m0 /\ forall ino pg, page_ok ino pg -> m ino pg = advance st (ci_ts i) (st_ts (fs_task s)) m0 ino pg;
  it_ws : ws_ok (fws s);
  it_entries : entries_ok (fws s);
  it_shows : shows (fpages s) (fws s) m own;
  it_own : forall ino pg, page_ok ino pg -> existsb (touches ino pg) own = true -> is_Some (cached (fws s) ino pg)
}.

(** What the steps of a fault keep: the words of all pages, the rest of the
    task, the checkpoint inodes; the working set only changes at the page. *)
Record only_page (ino pg : Z) (s s' : fstate T) : Prop := {
  op_words : same_words (fpages s) (fpages s');
  op_inodes : c_inodes (fs_cps s') = c_inodes (fs_cps s);
  op_task : fs_task s' = set_workingset (fws s') (fs_task s);
  op_ok : ws_ok (fws s');
  op_entries : entries_ok (fws s) -> entries_ok (fws s');
  op_dom : forall i, is_Some (fws s' !! i) <-> is_Some (fws s !! i);
  op_cached : forall i g, ~ (i = ino /\ g = pg) -> cached (fws s') i g = cached (fws s) i g;
  op_mapped : forall i g, ~ (i = ino /\ g = pg) -> mapped (fws s') i g = mapped (fws s) i g
}.

Lemma only_page_refl ino pg s : ws_ok (fws s) -> only_page ino pg s s.
Proof. intros Hok. split; try done. by destruct s as [? [] ?]. Qed.

Lemma only_page_trans ino pg s1 s2 s3 : only_page ino pg s1 s2 -> only_page ino pg s2 s3 -> only_page ino pg s1 s3.
Proof.
  intros [W1 I1 T1 _ E1 D1 C1 M1] [W2 I2 T2 O2 E2 D2 C2 M2]. split; [|congruence| |done|auto| | |].
  - by eapply same_words_trans.
  - transitivity (set_workingset (fws s3) (fs_task s2)); [done|]. by rewrite T1.
  - intros i. by rewrite D2.
  - intros i g Hn. by rewrite C2, C1.
  - intros i g Hn. by rewrite M2, M1.
Qed.

(** What a transaction sees survives, if the page shows the right contents. *)
Lemma in_txn_step st lo n s s' m own ino pg : in_txn st lo n s m own -> only_page ino pg s s' ->
  (forall p, cached (fws s') ino pg = Some p -> wp_uptodate p = true -> wp_words p = foldl (page_upd ino pg) (m ino pg) own) ->
  (forall v, mapped (fws s') ino pg = Some v -> existsb (touches ino pg) own = false /\ exists q, fpages s' !! v = Some q /\ cp_words q = m ino pg) ->
  (existsb (touches ino pg) own = true -> is_Some (cached (fws s') ino pg)) -> in_txn st lo n s' m own.
Proof.
  intros [Hv Hd Hcp Hok He [Hc Hm] Ho] [W I Tk Ok E D C M] Pc Pm Po. split; [done|by rewrite Tk| |done|auto|split|].
  - destruct Hcp as (i & m0 & Hz & Hi & H1 & H2 & H3 & H4 & Hr & Hs). exists i, m0. rewrite Tk, I. cbn [set_workingset st_checkpoint st_ts].
    repeat (split; [done|]). split; [by eapply reads_same_words|done].
  - intros i g p Hp Hp' Hu. destruct (decide (i = ino /\ g = pg)) as [[-> ->]|Hn]; [by apply Pc|]. rewrite C in Hp' by done. by apply Hc.
  - intros i g v Hp Hv'. destruct (decide (i = ino /\ g = pg)) as [[-> ->]|Hn]; [by apply Pm|]. rewrite M in Hv' by done.
    destruct (Hm _ _ _ Hp Hv') as (Hno & q & Hq & Hw). split; [done|]. destruct (same_words_lookup _ _ _ _ W Hq) as (q' & ? & ?). exists q'. split; [done|congruence].
  - intros i g Hp Ht. destruct (decide (i = ino /\ g = pg)) as [[-> ->]|Hn]; [by apply Po|]. rewrite C by done. by apply Ho.
Qed.

(** Putting a page back that was locked or referenced. *)
Lemma store_pages_only ino pg s pa p p' : ws_ok (fws s) -> fpages s !! pa = Some p -> cp_words p' = cp_words p ->
  only_page ino pg s (mk_fs (set_store (set_pages (<[pa := p']> (fpages s)) (c_store (fs_cps s))) (fs_cps s)) (fs_task s) (fs_cow s)).
Proof. intros Hok Hp Hw. split; try done; cbn; [by eapply same_words_store|by destruct (fs_task s)]. Qed.

(** The working set after [ws'] was made of it. *)
Definition set_fws (ws' : gmap Z (anon_inode T)) (s : fstate T) : fstate T := mk_fs (fs_cps s) (set_workingset ws' (fs_task s)) (fs_cow s).

Lemma set_fws_only ino pg s ws' : ws_ok ws' -> (entries_ok (fws s) -> entries_ok ws') -> (forall i, is_Some (ws' !! i) <-> is_Some (fws s !! i)) ->
  (forall i g, ~ (i = ino /\ g = pg) -> cached ws' i g = cached (fws s) i g) ->
  (forall i g, ~ (i = ino /\ g = pg) -> mapped ws' i g = mapped (fws s) i g) -> only_page ino pg s (set_fws ws' s).
Proof. intros. by split. Qed.

Lemma entries_ok_insert ws ino a a' i i' : ws !! ino = Some a -> an_iinfo a = Some i -> an_iinfo a' = Some i' ->
  (forall pg v, an_checkpoint_pages i' !! pg = Some v -> an_checkpoint_pages i !! pg = Some v \/ v = RADIX_TREE_EXCEPTIONAL_ENTRY) ->
  entries_ok ws -> entries_ok (<[ino := a']> ws).
Proof.
  intros Ha Hi Hi' Hs He j b k pg v. rewrite lookup_insert. case_decide as E; [|apply He]. subst j. intros [= <-] Hk Hv. rewrite Hi' in Hk. injection Hk as <-.
  destruct (Hs _ _ Hv) as [Hv'| ->]; [by eapply He|by left].
Qed.

(** ** sivfs_fault_checkpoint *)

(** Changing the entry of one page that is not cached. *)
Lemma set_tree_ok ws ino a i pg t' : ws_ok ws -> ws !! ino = Some a -> an_iinfo a = Some i ->
  (forall j, j <> pg -> t' !! j = an_checkpoint_pages i !! j) -> cached ws ino pg = None ->
  (is_Some (mapped ws ino pg) -> exists v, t' !! pg = Some v /\ is_pointer v) ->
  let ws' := <[ino := set_iinfo (mk_aiinfo t' (an_checkpoint_checked_out i)) a]> ws in
  ws_ok ws' /\ (forall j, is_Some (ws' !! j) <-> is_Some (ws !! j)) /\ (forall j g, cached ws' j g = cached ws j g) /\ (forall j g, mapped ws' j g = mapped ws j g).
Proof.
  intros Hok Ha Hi Ht Hc Hm ws'. destruct (wo_iinfo _ Hok _ _ Ha) as (i0 & Hi0 & Hco). rewrite Hi in Hi0. injection Hi0 as <-.
  assert (Hca : forall j g, cached ws' j g = cached ws j g) by (intros j g; unfold ws'; rewrite cached_insert; case_decide; [subst j; unfold cached; by rewrite Ha|done]).
  assert (Hma : forall j g, mapped ws' j g = mapped ws j g) by (intros j g; unfold ws'; rewrite mapped_insert; case_decide; [subst j; unfold mapped; by rewrite Ha|done]).
  assert (Htr : forall j g, ~ (j = ino /\ g = pg) -> tracked ws' j g = tracked ws j g).
  { intros j g Hn. unfold ws'. rewrite tracked_insert. case_decide; [subst j|done]. unfold tracked. rewrite Ha. cbn [mbind option_bind set_iinfo an_iinfo an_checkpoint_pages].
    rewrite Hi. cbn [mbind option_bind]. rewrite Ht by naive_solver. done. }
  split; [split|split; [|done]].
  - intros j b. unfold ws'. rewrite lookup_insert. case_decide; [intros [= <-]; by eexists|apply Hok].
  - intros j b g p. unfold ws'. rewrite lookup_insert. case_decide; [intros [= <-]; by apply (wo_page _ Hok ino a)|apply Hok].
  - intros j g. rewrite Hma. destruct (decide (j = ino /\ g = pg)) as [[-> ->]|Hn]; [|rewrite Htr by done; apply Hok].
    intros Hs. destruct (Hm Hs) as (v & Hv & Hp). unfold ws'. rewrite tracked_insert, decide_True by done.
    cbn [mbind option_bind set_iinfo an_iinfo an_checkpoint_pages]. rewrite Hv. cbn [mbind option_bind]. by rewrite decide_True.
  - intros j g. rewrite Hca. destruct (decide (j = ino /\ g = pg)) as [[-> ->]|Hn]; [done|rewrite Htr by done; apply Hok].
  - intros j. unfold ws'. rewrite lookup_insert. case_decide; [subst j; rewrite Ha; split; intros; by eexists|done].
Qed.

(** A step that maps nothing and caches nothing. *)
Record quiet (ino pg : Z) (s s' : fstate T) : Prop := {
  qu_only : only_page ino pg s s';
  qu_cached : cached (fws s') ino pg = cached (fws s) ino pg;
  qu_mapped : mapped (fws s') ino pg = mapped (fws s) ino pg;
  qu_cow : fs_cow s' = fs_cow s
}.

Lemma quiet_refl ino pg s : ws_ok (fws s) -> quiet ino pg s s.
Proof. intros Hok. split; try done. by apply only_page_refl. Qed.
Lemma quiet_trans ino pg s1 s2 s3 : quiet ino pg s1 s2 -> quiet ino pg s2 s3 -> quiet ino pg s1 s3.
Proof. intros [O1 C1 M1 W1] [O2 C2 M2 W2]. split; [by eapply only_page_trans|congruence..]. Qed.

Lemma set_checkpoint_entry_ok ev ino pg s : ws_ok (fws s) -> entries_ok (fws s) -> is_Some (fws s !! ino) -> cached (fws s) ino pg = None ->
  exists r s', set_checkpoint_entry ev ino pg s = (r, s') /\ quiet ino pg s s' /\ fs_cps s' = fs_cps s /\
    match r with
    | Ok _ => is_Some (tracked (fws s') ino pg)
    | Err _ => fe_node ev = false
    | _ => False
    end.
Proof.
  intros Hok He [a Ha] Hc. destruct (wo_iinfo _ Hok _ _ Ha) as (i & Hi & Hco). unfold set_checkpoint_entry.
  rewrite (bind_step (load_anon ino) _ s a s) by by unfold load_anon; rewrite Ha. rewrite Hi, (bind_step (lift _) _ s i s eq_refl).
  destruct (set_entry_ok (fe_node ev) (an_checkpoint_pages i) pg) as (r & t' & E & Ht & Hr); [intros v Hv; by apply (He ino a i pg)|]. rewrite E.
  cbn. eexists _, _. split; [reflexivity|]. set (ws' := <[ino := _]> (fws s)).
  destruct (set_tree_ok (fws s) ino a i pg t' Hok Ha Hi Ht Hc) as (Hok' & Hd & Hca & Hma).
  { intros Hs%(wo_tracked _ Hok). unfold tracked in Hs. rewrite Ha in Hs. cbn [mbind option_bind] in Hs. rewrite Hi in Hs. cbn [mbind option_bind] in Hs.
    destruct (an_checkpoint_pages i !! pg) as [v|] eqn:Ev; [|by destruct Hs]. cbn [mbind option_bind] in Hs. case_decide as Hp; [|by destruct Hs].
    destruct r; [|destruct (He _ _ _ _ _ Ha Hi Ev) as [-> | ->]; [by destruct Hr as (_ & _ & [])|by destruct Hp as [_ []]]|done..].
    exists RADIX_TREE_EXCEPTIONAL_ENTRY. by split. }
  fold ws' in Hok', Hd, Hca, Hma. split; [split; [apply (set_fws_only ino pg s ws')| | |]; try done|split; [done|]].
  - apply (entries_ok_insert _ _ a (set_iinfo (mk_aiinfo t' (an_checkpoint_checked_out i)) a) i _ Ha Hi eq_refl). intros g v. cbn [an_checkpoint_pages].
    destruct (decide (g = pg)) as [->|]; [|rewrite Ht by done; by left]. destruct r; [rewrite Hr; intros [= <-]; by right|destruct Hr as (_ & -> & _); done|done..].
  - destruct r; [|by destruct Hr|done..]. cbn. unfold ws'. rewrite tracked_insert, decide_True by done. cbn [mbind option_bind set_iinfo an_iinfo an_checkpoint_pages].
    rewrite Hr. by eexists.
Qed.

Lemma unlock_put_ok ino pg s pa p : ws_ok (fws s) -> fpages s !! pa = Some p ->
  exists s', unlock_put pa s = (Ok tt, s') /\ quiet ino pg s s' /\ fs_task s' = fs_task s.
Proof.
  intros Hok Hp. unfold unlock_put, on_pages, load_page, store_page, bind. rewrite Hp.
  eexists. split; [reflexivity|]. split; [|done]. split; try done. by eapply store_pages_only.
Qed.

(** What the fast path leaves: a locked checkpoint page to map or to copy. *)
Definition checkpoint_outcome (ev : fault_env) (m : Z -> Z -> page) (own : list (Z * Z * Z)) (ino pg : Z) (s' : fstate T) (r : vm_fault + option Z) : Prop :=
  match r with
  | inl code => code = VM_FAULT_SIGBUS /\ fe_node ev = false
  | inr None => True
  | inr (Some pa) => cached (fws s') ino pg = None /\ existsb (touches ino pg) own = false /\ is_Some (tracked (fws s') ino pg) /\
      exists p, fpages s' !! pa = Some p /\ cp_words p = m ino pg
  end.

Lemma fault_offset pg : 0 <= pg < 2 ^ 27 -> u64 (Z.shiftl pg PAGE_SHIFT) = pg * PAGE_SIZE.
Proof. intros Hp. rewrite Z.shiftl_mul_pow2 by done. change (2 ^ PAGE_SHIFT) with 4096. unfold PAGE_SIZE. apply u64_small. u64_lia. Qed.

Lemma fault_checkpoint_ok ev st lo n s m own ino pg : in_txn st lo n s m own -> page_ok ino pg -> is_Some (fws s !! ino) ->
  exists r s', sivfs_fault_checkpoint F ZERO_PAGE ev st ino pg s = (Ok r, s') /\ quiet ino pg s s' /\ checkpoint_outcome ev m own ino pg s' r.
Proof.
  intros Hin Hp Ha0. pose proof Hin as [Hv Hd (i & m0 & Hz & Hi & H1 & H2 & H3 & H4 & Hr & Hs) Hok He _ Ho].
  pose proof (lv_n _ _ _ Hv) as Hn. assert (Hinv : SIVFS_INVALID_TS = two64 - 1) by reflexivity.
  pose proof (quiet_refl ino pg s Hok) as Hq. unfold sivfs_fault_checkpoint.
  rewrite (bind_step (gets _) _ s (fs_task s) s eq_refl), (fault_offset pg (proj2 Hp)), (proj2 (Z.eqb_neq _ _)), (proj2 (Z.eqb_neq _ _) Hz) by u64_lia.
  rewrite (bind_step (gets _) _ s (fs_cps s) s eq_refl), Hi, (bind_step (lift _) _ s i s eq_refl).
  rewrite uadd_small by (unfold PAGE_SIZE; destruct Hp; u64_lia). unfold or_sigbus at 1. unfold lift at 1.
  destruct (first_modifier_ok st lo n (ci_ts i) (st_ts (fs_task s)) ino pg Hv H2 ltac:(lia)) as (fm & -> & Hfm).
  destruct (Z.eqb_spec fm SIVFS_INVALID_TS) as [Ef|]; cbn [negb]; [|by exists (inr None), s]. specialize (Hfm Ef).
  destruct Ha0 as [a Ha]. rewrite (bind_step (load_anon ino) _ s a s) by by unfold load_anon; rewrite Ha.
  destruct (find_get_page (an_mapping a) pg) eqn:Ec; [by exists (inr None), s|].
  assert (Hc : cached (fws s) ino pg = None) by (unfold cached; rewrite Ha; exact Ec).
  destruct (lock_page_ok F (ci_root i) m0 ino pg (c_store (fs_cps s)) Hr Hp) as (r & ps & El & Hl).
  unfold or_sigbus at 1, on_pages. rewrite El. destruct r as [pa|].
  - destruct Hl as (p & Hp' & Hw & ->). set (s1 := mk_fs _ _ _).
    assert (Hq1 : quiet ino pg s s1) by (split; try done; by apply (store_pages_only ino pg s pa p)).
    rewrite (bind_step (gets _) _ s1 _ s1 eq_refl), Hd. cbn [andb].
    destruct (set_checkpoint_entry_ok ev ino pg s1 Hok He ltac:(by exists a) Hc) as (r & s2 & E2 & Hq2 & Hcps & Hout). rewrite E2.
    assert (Hp2 : fpages s2 !! pa = Some (with_refct (cp_refct p + 1) true p)) by (rewrite Hcps; apply lookup_insert_eq).
    pose proof (quiet_trans _ _ _ _ _ Hq1 Hq2) as Hq3. destruct r; [| |done..].
    + exists (inr (Some pa)), s2. split; [done|]. split; [done|]. split; [by rewrite (qu_cached _ _ _ _ Hq3)|]. split; [|split; [done|]].
      * apply not_true_iff_false. intros Ht%Ho; [|done]. rewrite Hc in Ht. by destruct Ht.
      * eexists. split; [exact Hp2|]. cbn. by rewrite Hs, advance_untouched.
    + destruct (unlock_put_ok ino pg s2 pa _ (op_ok _ _ _ _ (qu_only _ _ _ _ Hq2)) Hp2) as (s3 & E3 & Hq4 & _).
      rewrite (bind_step _ _ _ _ _ E3). exists (inl VM_FAULT_SIGBUS), s3. split; [done|]. split; [by eapply quiet_trans|done].
  - subst ps. set (s1 := mk_fs _ _ _). assert (Hq1 : quiet ino pg s s1) by (split; try done; split; try done; by destruct s as [? [] ?]).
    rewrite (bind_step (gets _) _ s1 _ s1 eq_refl), Hd. cbn [andb]. by exists (inr None), s1.
Qed.

(** ** The private page *)

Lemma load_anon_ok ino (a : anon_inode T) (s : fstate T) : fws s !! ino = Some a -> load_anon ino s = (Ok a, s).
Proof. intros Ha. unfold load_anon. by rewrite Ha. Qed.

(** [tracked] as the fault handler looks at it. *)
Lemma tracked_entry ws ino (a : anon_inode T) i pg : ws !! ino = Some a -> an_iinfo a = Some i ->
  tracked ws ino pg = an_checkpoint_pages i !! pg ≫= fun v => if decide (is_pointer v) then Some v else None.
Proof. intros Ha Hi. unfold tracked. rewrite Ha. cbn [mbind option_bind]. by rewrite Hi. Qed.

(** Evicting a tracked page. *)
Lemma evict_only ino pg s a i : ws_ok (fws s) -> page_ok ino pg -> fws s !! ino = Some a -> an_iinfo a = Some i -> is_Some (tracked (fws s) ino pg) ->
  let s' := set_fws (<[ino := evict_page (pg * PAGE_SIZE) i a]> (fws s)) s in
  only_page ino pg s s' /\ cached (fws s') ino pg = cached (fws s) ino pg /\ mapped (fws s') ino pg = None /\ tracked (fws s') ino pg = None.
Proof.
  intros Hok [_ Hp] Ha Hi Ht. pose proof (tracked_entry _ _ _ _ pg Ha Hi) as Et. rewrite Et in Ht.
  destruct (an_checkpoint_pages i !! pg) as [v|] eqn:Ev; cbn [mbind option_bind] in Ht; [|by destruct Ht]. destruct (decide (is_pointer v)) as [Hv|]; [|by destruct Ht].
  assert (Ed : pg * PAGE_SIZE / PAGE_SIZE = pg) by by rewrite Z.div_mul. rewrite <- Ed in Ev.
  destruct (evict_found (fws s) ino (pg * PAGE_SIZE) a i v Hok ltac:(unfold PAGE_SIZE; lia) Ha Hi Ev Hv) as [[Fo Fd Fc Fm Ft _] _]. rewrite Ed in Fm, Ft.
  set (a' := evict_page _ _ _) in *. cbn. rewrite Fc, Fm, Ft, !decide_True by done. split; [|done].
  apply set_fws_only; try done; [|intros j g Hn; rewrite Fm; by rewrite decide_False].
  apply (entries_ok_insert _ _ a a' i _ Ha Hi eq_refl). intros g w. cbn. rewrite lookup_delete. case_decide; [done|by left].
Qed.

Lemma evict_checkpoint_page_ok ino pg s : ws_ok (fws s) -> page_ok ino pg -> is_Some (fws s !! ino) ->
  exists s', evict_checkpoint_page ino pg s = (Ok tt, s') /\ only_page ino pg s s' /\ cached (fws s') ino pg = cached (fws s) ino pg /\
    mapped (fws s') ino pg = None /\ tracked (fws s') ino pg = None /\ fs_cps s' = fs_cps s /\ fs_cow s' = fs_cow s.
Proof.
  intros Hok Hp [a Ha]. destruct (wo_iinfo _ Hok _ _ Ha) as (i & Hi & _). unfold evict_checkpoint_page.
  rewrite (bind_step _ _ _ _ _ (load_anon_ok ino a s Ha)), Hi, (bind_step (lift _) _ s i s eq_refl), (fault_offset pg (proj2 Hp)).
  assert (Hpl : tracked (fws s) ino pg = None -> mapped (fws s) ino pg = None).
  { intros Ht. apply eq_None_not_Some. intros Hs%(wo_tracked _ Hok). rewrite Ht in Hs. by destruct Hs. }
  pose proof (evict_only ino pg s a i Hok Hp Ha Hi) as Hev. cbv zeta in Hev. unfold evict_page in Hev. rewrite Z.div_mul in Hev by done.
  pose proof (tracked_entry _ _ _ _ pg Ha Hi) as Ht. destruct (an_checkpoint_pages i !! pg) as [v|]; cbn [mbind option_bind] in Ht; [destruct (decide (is_pointer v))|].
  1: { destruct Hev as (He & Hc & Hm & Htr); [by rewrite Ht|]. eexists. split; [reflexivity|]. done. }
  all: exists s; split; [done|]; split; [by apply only_page_refl|]; rewrite (Hpl Ht); done.
Qed.

Lemma store_private_only ino pg p s : ws_ok (fws s) -> page_ok ino pg -> is_Some (fws s !! ino) -> tracked (fws s) ino pg = None -> wp_checkpoint p = false ->
  exists s', store_private ino pg p s = (Ok tt, s') /\ only_page ino pg s s' /\ cached (fws s') ino pg = Some p /\
    mapped (fws s') ino pg = mapped (fws s) ino pg /\ tracked (fws s') ino pg = None /\ fs_cps s' = fs_cps s /\ fs_cow s' = fs_cow s.
Proof.
  intros Hok [_ Hp] [a Ha] Ht Hcp. destruct (wo_iinfo _ Hok _ _ Ha) as (i & Hi & _).
  destruct (store_private_ok (fws s) ino a pg p Hok Ha Ht Hcp ltac:(lia)) as [So Sd Sc Sm St]. unfold store_private.
  rewrite (bind_step _ _ _ _ _ (load_anon_ok ino a s Ha)). set (a' := set_mapping _ a) in *. exists (set_fws (<[ino := a']> (fws s)) s).
  split; [reflexivity|]. split; [|cbn; rewrite Sc, Sm, St, decide_True by done; done].
  apply set_fws_only; try done; [|intros j g Hn; by rewrite Sc, decide_False].
  apply (entries_ok_insert _ _ a a' i i Ha Hi Hi). intros g w. by left.
Qed.

(** The contents a fresh page gets: those of the snapshot. *)
Lemma fill_page_ok st lo n s m own ino pg cp_page : in_txn st lo n s m own -> page_ok ino pg ->
  (forall pa, cp_page = Some pa -> exists p, fpages s !! pa = Some p /\ cp_words p = m ino pg) ->
  fill_page F st cp_page ino pg s = (Ok (m ino pg), s).
Proof.
  intros [Hv Hd (i & m0 & Hz & Hi & H1 & H2 & H3 & H4 & Hr & Hs) _ _ _ _] Hp Hcp. unfold fill_page.
  rewrite (bind_step (gets _) _ s (fs_task s) s eq_refl), (bind_step (gets _) _ s (fs_cps s) s eq_refl). destruct cp_page as [pa|].
  - destruct (Hcp pa eq_refl) as (p & -> & Hw). rewrite (bind_step (lift _) _ s p s eq_refl). by rewrite <- Hw.
  - rewrite (fault_offset pg (proj2 Hp)). unfold lift. f_equal. rewrite (Hs ino pg Hp). by apply (update_page_ok F (fs_cps s) st lo n).
Qed.

(** Why no private page: memory ran out, the page was left unfilled by an
    earlier fault, or another thread holds its lock. *)
Definition private_outcome (ev : fault_env) (ino pg : Z) (s s' : fstate T) (r : vm_fault + fault_page) : Prop :=
  match r with
  | inr (CheckpointPage _) => False
  | inr PrivatePage => exists p, cached (fws s') ino pg = Some p /\ wp_uptodate p = true
  | inl VM_FAULT_SIGBUS => (cached (fws s) ino pg = None /\ fe_alloc ev && fe_add ev = false) \/
      exists p, cached (fws s) ino pg = Some p /\ wp_uptodate p = false
  | inl VM_FAULT_RETRY => is_Some (cached (fws s) ino pg) /\ fe_trylock ev = false
  | inl VM_FAULT_NOPAGE => False
  end.

(** Steps at the page that keep a transaction's view: nothing new is shown, or
    the mapped page goes away, or a page is put that is right if it is filled. *)
Lemma in_txn_quiet st lo n s s' m own ino pg : in_txn st lo n s m own -> page_ok ino pg -> quiet ino pg s s' -> in_txn st lo n s' m own.
Proof.
  intros Hin Hp [Ho Hc Hm _]. pose proof (it_shows _ _ _ _ _ _ Hin) as [Sc Sm]. apply (in_txn_step _ _ _ _ _ _ _ _ _ Hin Ho).
  - rewrite Hc. intros p. by apply Sc.
  - rewrite Hm. intros v Hv. destruct (Sm _ _ _ Hp Hv) as (Hno & q & Hq & Hw). split; [done|].
    destruct (same_words_lookup _ _ _ _ (op_words _ _ _ _ Ho) Hq) as (q' & ? & ?). exists q'. split; [done|congruence].
  - rewrite Hc. by apply (it_own _ _ _ _ _ _ Hin).
Qed.

Lemma in_txn_unmapped st lo n s s' m own ino pg : in_txn st lo n s m own -> page_ok ino pg -> only_page ino pg s s' ->
  cached (fws s') ino pg = cached (fws s) ino pg -> mapped (fws s') ino pg = None -> in_txn st lo n s' m own.
Proof.
  intros Hin Hp Ho Hc Hm. apply (in_txn_step _ _ _ _ _ _ _ _ _ Hin Ho); rewrite ?Hc, ?Hm; [|done|by apply (it_own _ _ _ _ _ _ Hin)].
  intros p. by apply (sh_cached _ _ _ _ (it_shows _ _ _ _ _ _ Hin)).
Qed.

Lemma in_txn_put st lo n s s' m own ino pg p : in_txn st lo n s m own -> only_page ino pg s s' ->
  cached (fws s') ino pg = Some p -> mapped (fws s') ino pg = None -> (wp_uptodate p = true -> wp_words p = foldl (page_upd ino pg) (m ino pg) own) ->
  in_txn st lo n s' m own.
Proof.
  intros Hin Ho Hc Hm Hw. apply (in_txn_step _ _ _ _ _ _ _ _ _ Hin Ho); rewrite ?Hc, ?Hm; [by intros ? [= <-]|done|by eexists].
Qed.

Lemma uncached_untouched st lo n s m own ino pg : in_txn st lo n s m own -> page_ok ino pg -> cached (fws s) ino pg = None ->
  existsb (touches ino pg) own = false.
Proof. intros Hin Hp Hc. apply not_true_iff_false. intros Ht%(it_own _ _ _ _ _ _ Hin); [|done]. rewrite Hc in Ht. by destruct Ht. Qed.

Lemma fault_private_ok ev st lo n s m own ino pg cp_page : in_txn st lo n s m own -> page_ok ino pg -> is_Some (fws s !! ino) ->
  (forall pa, cp_page = Some pa -> exists p, fpages s !! pa = Some p /\ cp_words p = m ino pg) ->
  exists r s', fault_private F ev st cp_page ino pg s = (Ok r, s') /\ in_txn st lo n s' m own /\ only_page ino pg s s' /\ private_outcome ev ino pg s s' r.
Proof.
  intros Hin Hp Ha Hcp. unfold fault_private.
  assert (H1 : exists s1, (match cp_page with Some pa => unlock_put pa | None => ret tt end) s = (Ok tt, s1) /\ quiet ino pg s s1 /\ fs_task s1 = fs_task s).
  { destruct cp_page as [pa|]; [destruct (Hcp pa eq_refl) as (p & Hpa & _); apply (unlock_put_ok ino pg s pa p)|exists s; split; [done|split; [apply quiet_refl|done]]]; done || apply (it_ws _ _ _ _ _ _ Hin). }
  destruct H1 as (s1 & E1 & Q1 & T1). rewrite (bind_step _ _ _ _ _ E1). pose proof (in_txn_quiet _ _ _ _ _ _ _ _ _ Hin Hp Q1) as In1. pose proof (qu_only _ _ _ _ Q1) as O1.
  destruct (evict_checkpoint_page_ok ino pg s1 (it_ws _ _ _ _ _ _ In1) Hp ltac:(by rewrite T1)) as (s2 & E2 & O2 & C2 & M2 & Tr2 & P2 & _).
  rewrite (bind_step _ _ _ _ _ E2). pose proof (in_txn_unmapped _ _ _ _ _ _ _ _ _ In1 Hp O2 C2 M2) as In2.
  pose proof (only_page_trans _ _ _ _ _ O1 O2) as O12. rewrite T1 in C2.
  destruct (proj2 (op_dom _ _ _ _ O12 ino) Ha) as [a Ha2]. unfold get_private. rewrite bind_assoc, (bind_step _ _ _ _ _ (load_anon_ok _ _ _ Ha2)).
  assert (Hc : cached (fws s) ino pg = find_get_page (an_mapping a) pg) by (rewrite <- C2; unfold cached; by rewrite Ha2).
  destruct (find_get_page (an_mapping a) pg) as [p|] eqn:Ef.
  - destruct (fe_trylock ev) eqn:El; cbn [negb]; [|exists (inl VM_FAULT_RETRY), s2; split; [done|]; split; [done|]; split; [done|]; split; [by rewrite Hc|done]].
    destruct (wp_uptodate p) eqn:Eu; cbn [negb]; [|exists (inl VM_FAULT_SIGBUS), s2; split; [done|]; split; [done|]; split; [done|]; right; by exists p].
    rewrite (bind_step (ret (inr p)) _ s2 (inr p) s2 eq_refl), Eu. exists (inr PrivatePage), s2. split; [done|]. split; [done|]. split; [done|]. exists p. by rewrite C2, Hc.
  - destruct (fe_alloc ev && fe_add ev) eqn:Ea; cbn [negb]; [|exists (inl VM_FAULT_SIGBUS), s2; split; [done|]; split; [done|]; split; [done|]; by left].
    set (p0 := mk_wspage (fe_words ev) false false).
    destruct (store_private_only ino pg p0 s2 (it_ws _ _ _ _ _ _ In2) Hp ltac:(by eexists) Tr2 eq_refl) as (s3 & E3 & O3 & C3 & M3 & Tr3 & P3 & _).
    rewrite bind_assoc, (bind_step _ _ _ _ _ E3), (bind_step (ret (inr p0)) _ s3 (inr p0) s3 eq_refl). cbn [p0 wp_uptodate].
    rewrite M2 in M3. pose proof (in_txn_put _ _ _ _ _ _ _ _ _ _ In2 O3 C3 M3 ltac:(done)) as In3.
    rewrite (fill_page_ok st lo n s3 m own ino pg cp_page In3 Hp).
    2: { intros pa Epa. destruct (Hcp pa Epa) as (q & Hq & Hw). rewrite P3, P2. destruct (same_words_lookup _ _ _ _ (op_words _ _ _ _ O1) Hq) as (q' & ? & ?). exists q'. split; [done|congruence]. }
    set (p1 := mk_wspage (m ino pg) false true).
    destruct (store_private_only ino pg p1 s3 (it_ws _ _ _ _ _ _ In3) Hp (proj2 (op_dom _ _ _ _ O3 ino) ltac:(by eexists)) Tr3 eq_refl) as (s4 & E4 & O4 & C4 & M4 & _).
    rewrite (bind_step _ _ _ _ _ E4). rewrite M3 in M4. exists (inr PrivatePage), s4. split; [done|]. split; [|split].
    + apply (in_txn_put _ _ _ _ _ _ _ _ _ _ In3 O4 C4 M4). intros _. cbn. rewrite page_untouched; [done|]. by apply (uncached_untouched _ _ _ _ _ _ _ _ Hin).
    + eapply only_page_trans; [exact O12|]. eapply only_page_trans; [exact O3|exact O4].
    + by exists p1.
Qed.

(** ** sivfs_fault and the kernel's part *)

(** Why a fault fails: the kernel had no memory, an earlier fault left the page
    unfilled, or another thread holds the lock of the page. *)
Definition fault_refused (ev : fault_env) (ino pg : Z) (s : fstate T) (code : vm_fault) : Prop :=
  match code with
  | VM_FAULT_SIGBUS => fe_node ev = false \/ (cached (fws s) ino pg = None /\ fe_alloc ev && fe_add ev = false) \/
      exists p, cached (fws s) ino pg = Some p /\ wp_uptodate p = false
  | VM_FAULT_RETRY => is_Some (cached (fws s) ino pg) /\ fe_trylock ev = false
  | VM_FAULT_NOPAGE => False
  end.

Definition fault_outcome (ev : fault_env) (write : bool) (m : Z -> Z -> page) (own : list (Z * Z * Z)) (ino pg : Z) (s s' : fstate T) (r : vm_fault + fault_page) : Prop :=
  match r with
  | inr (CheckpointPage pa) => write = false /\ checkpoint_outcome ev m own ino pg s' (inr (Some pa))
  | inr PrivatePage => exists p, cached (fws s') ino pg = Some p /\ wp_uptodate p = true
  | inl code => fault_refused ev ino pg s code
  end.

Lemma sivfs_fault_ok ev st lo n write s m own ino pg : in_txn st lo n s m own -> page_ok ino pg -> is_Some (fws s !! ino) ->
  exists r s', sivfs_fault F ZERO_PAGE ev st write ino pg s = (Ok r, s') /\ in_txn st lo n s' m own /\ only_page ino pg s s' /\ fault_outcome ev write m own ino pg s s' r.
Proof.
  intros Hin Hp Ha. destruct Ha as [a Ha]. destruct (wo_iinfo _ (it_ws _ _ _ _ _ _ Hin) _ _ Ha) as (i & Hi & Hco). unfold sivfs_fault.
  rewrite (bind_step _ _ _ _ _ (load_anon_ok ino a s Ha)), Hi, Hco.
  destruct (fault_checkpoint_ok ev st lo n s m own ino pg Hin Hp ltac:(by eexists)) as (r & s1 & E1 & Q1 & Hr). rewrite (bind_step _ _ _ _ _ E1).
  pose proof (in_txn_quiet _ _ _ _ _ _ _ _ _ Hin Hp Q1) as In1. pose proof (qu_only _ _ _ _ Q1) as O1.
  destruct r as [code|cp_page]; [destruct Hr as [-> Hn]; exists (inl VM_FAULT_SIGBUS), s1; split; [done|]; split; [done|]; split; [done|by left]|].
  rewrite (bind_step (gets _) _ s1 s1 s1 eq_refl), (bind_step (modify _) _ s1 tt (set_cow 0 s1) eq_refl), (it_direct _ _ _ _ _ _ In1).
  set (s2 := set_cow 0 s1). assert (Q2 : quiet ino pg s1 (mk_fs (fs_cps s2) (fs_task s2) (fs_cow s1))) by (destruct s1; apply quiet_refl, In1).
  assert (O2 : only_page ino pg s1 s2) by by destruct (qu_only _ _ _ _ Q2).
  assert (In2 : in_txn st lo n s2 m own) by by destruct (in_txn_quiet _ _ _ _ _ _ _ _ _ In1 Hp Q2).
  assert (Hpriv : (forall pa, cp_page = Some pa -> exists p, fpages s2 !! pa = Some p /\ cp_words p = m ino pg) ->
    exists r s', fault_private F ev st cp_page ino pg s2 = (Ok r, s') /\ in_txn st lo n s' m own /\ only_page ino pg s s' /\ fault_outcome ev write m own ino pg s s' r).
  { intros Hcp. destruct (fault_private_ok ev st lo n s2 m own ino pg cp_page In2 Hp) as (r & s3 & E3 & In3 & O3 & Hout); [by apply (op_dom _ _ _ _ O1 ino)|done|].
    exists r, s3. split; [done|]. split; [done|]. split; [eapply only_page_trans; [exact O1|]; by eapply only_page_trans|].
    pose proof (qu_cached _ _ _ _ Q1 : cached (fws s2) ino pg = cached (fws s) ino pg) as Hc.
    unfold private_outcome, fault_outcome, fault_refused in *. rewrite Hc in Hout. destruct r as [[]|[]]; try done. by right. }
  destruct cp_page as [pa|]; [|apply Hpriv; done]. pose proof Hr as (Hc & Hno & Ht & Hw). destruct (negb write && _) eqn:Ew; [|apply Hpriv; by intros ? [= <-]].
  exists (inr (CheckpointPage pa)), s2. split; [done|]. split; [done|]. split; [by eapply only_page_trans|]. split; [by destruct write|exact Hr].
Qed.

(** Entering a locked checkpoint page in the page tables. *)
Lemma map_page_only ino pg a pa s : ws_ok (fws s) -> page_ok ino pg -> fws s !! ino = Some a -> is_Some (tracked (fws s) ino pg) ->
  let s' := set_fws (<[ino := set_mapping (map_page (an_mapping a) pg pa) a]> (fws s)) s in
  only_page ino pg s s' /\ cached (fws s') ino pg = cached (fws s) ino pg /\ mapped (fws s') ino pg = Some pa.
Proof.
  intros Hok [_ Hp] Ha Ht. destruct (wo_iinfo _ Hok _ _ Ha) as (i & Hi & _). set (a' := set_mapping _ a). set (ws' := <[ino := a']> (fws s)). cbn.
  assert (Hca : forall j g, cached ws' j g = cached (fws s) j g).
  { intros j g. unfold ws'. rewrite cached_insert. case_decide; [subst j|done]. cbn [a' set_mapping an_mapping]. rewrite pc_map_page. unfold cached. by rewrite Ha. }
  assert (Hma : forall j g, mapped ws' j g = if decide (j = ino /\ g = pg) then Some pa else mapped (fws s) j g).
  { intros j g. unfold ws'. rewrite mapped_insert. destruct (decide (ino = j)) as [<-|]; [|by rewrite decide_False by naive_solver].
    cbn [a' set_mapping an_mapping]. rewrite pc_map by lia. destruct (decide (pg = g)) as [<-|]; [by rewrite decide_True|].
    rewrite decide_False by naive_solver. unfold mapped. by rewrite Ha. }
  assert (Htr : forall j g, tracked ws' j g = tracked (fws s) j g) by (intros j g; unfold ws'; rewrite tracked_insert; case_decide; [subst j; unfold tracked; by rewrite Ha|done]).
  split; [apply set_fws_only|split; [apply Hca|by rewrite Hma, decide_True]].
  - split.
    + intros j b. unfold ws'. rewrite lookup_insert. case_decide; [intros [= <-]; by apply (wo_iinfo _ Hok ino a)|apply Hok].
    + intros j b g p. unfold ws'. rewrite lookup_insert. case_decide; [intros [= <-]|apply Hok]. cbn [a' set_mapping an_mapping]. rewrite pc_map_page. by apply (wo_page _ Hok ino a).
    + intros j g. rewrite Hma, Htr. case_decide as E; [by destruct E as [-> ->]|apply Hok].
    + intros j g. rewrite Htr, Hca. apply Hok.
  - apply (entries_ok_insert _ _ a a' i i Ha Hi Hi). intros g w. by left.
  - intros j. unfold ws'. rewrite lookup_insert. case_decide; [subst j; rewrite Ha; split; intros; by eexists|done].
  - intros j g _. apply Hca.
  - intros j g Hn. by rewrite Hma, decide_False.
Qed.

(** What a load from the page gives: the private page if there is one,
    otherwise the checkpoint page that is mapped. *)
Definition visible (s : fstate T) (ino pg : Z) : option page :=
  match cached (fws s) ino pg with
  | Some p => Some (wp_words p)
  | None => mapped (fws s) ino pg ≫= fun v => cp_words <$> fpages s !! v
  end.

(** C14. A page fault shows the task its snapshot and its own writes: whatever
    memory the kernel grants, the handler returns, keeps what the task sees of
    all pages and, unless memory ran out, the page was left unfilled or its lock
    is taken, makes visible the contents the page has at the task's timestamp
    with the task's writes; a write gets a private page, never a checkpoint's. *)
Theorem fault_shows_snapshot ev st lo n write s m own ino pg : in_txn st lo n s m own -> page_ok ino pg -> is_Some (fws s !! ino) ->
  exists r s', do_fault F ZERO_PAGE ev st write ino pg s = (Ok r, s') /\ in_txn st lo n s' m own /\ only_page ino pg s s' /\
    match r with
    | inr page => visible s' ino pg = Some (foldl (page_upd ino pg) (m ino pg) own) /\
        (is_Some (cached (fws s') ino pg) <-> page = PrivatePage) /\ (write = true -> page = PrivatePage)
    | inl code => fault_refused ev ino pg s code
    end.
Proof.
  intros Hin Hp Ha. unfold do_fault.
  destruct (sivfs_fault_ok ev st lo n write s m own ino pg Hin Hp Ha) as (r & s1 & E1 & In1 & O1 & Hr). rewrite (bind_step _ _ _ _ _ E1).
  destruct r as [code|[pa|]]; [by exists (inl code), s1| |].
  - destruct Hr as (Hw & Hc & Hno & Ht & p & Hpa & Hwords). destruct (proj2 (op_dom _ _ _ _ O1 ino) Ha) as [a1 Ha1].
    rewrite (bind_step _ _ _ _ _ (load_anon_ok ino a1 s1 Ha1)). destruct (map_page_only ino pg a1 pa s1 (it_ws _ _ _ _ _ _ In1) Hp Ha1 Ht) as (O2 & C2 & M2).
    set (s2 := set_fws _ s1) in *. rewrite (bind_step (store_anon _ _) _ s1 tt s2 eq_refl). rewrite Hc in C2.
    assert (In2 : in_txn st lo n s2 m own).
    { apply (in_txn_step _ _ _ _ _ _ _ _ _ In1 O2); rewrite ?C2, ?M2; [done| |by rewrite Hno]. intros v [= <-]. split; [done|]. by exists p. }
    assert (E3 : exists s3, on_pages (let! p := load_page pa in store_page pa (with_refct (cp_refct p) false p)) s2 = (Ok tt, s3) /\ quiet ino pg s2 s3 /\ fpages s3 !! pa = Some (with_refct (cp_refct p) false p)).
    { unfold on_pages, load_page, store_page, bind. change (fpages s2) with (fpages s1). rewrite Hpa. eexists. split; [reflexivity|].
      split; [|apply lookup_insert_eq]. split; try done. apply (store_pages_only ino pg s2 pa p); [apply In2|done..]. }
    destruct E3 as (s3 & E3 & Q3 & Hp3). rewrite (bind_step _ _ _ _ _ E3). exists (inr (CheckpointPage pa)), s3. split; [done|].
    split; [by apply (in_txn_quiet _ _ _ _ _ _ _ _ _ In2 Hp Q3)|]. split; [eapply only_page_trans; [exact O1|]; eapply only_page_trans; [exact O2|apply Q3]|].
    unfold visible. rewrite (qu_cached _ _ _ _ Q3), C2, (qu_mapped _ _ _ _ Q3), M2. cbn [mbind option_bind]. rewrite Hp3. cbn.
    rewrite page_untouched, Hwords by done. split; [done|]. split; [|by rewrite Hw]. split; [by intros [? ?]|done].
  - destruct Hr as (p & Hc & Hu). exists (inr PrivatePage), s1. split; [done|]. split; [done|]. split; [done|]. unfold visible. rewrite Hc.
    split; [f_equal; by apply (sh_cached _ _ _ _ (it_shows _ _ _ _ _ _ In1))|]. split; [|done]. split; [done|by eexists].
Qed.

(** A write to a mapped checkpoint page makes way for a private copy:
    sivfs_mkwrite takes the page out of the page tables, remembers it for the
    fault that follows and keeps what the task sees elsewhere, so that the
    repeated write faults and, by fault_shows_snapshot, gets a private page; a
    private page may be written at once. *)
Theorem mkwrite_makes_way st lo n s m own ino pg : in_txn st lo n s m own -> page_ok ino pg -> is_Some (fws s !! ino) -> fs_cow s = 0 ->
  sivfs_mkwrite ino pg None s = (Ok None, s) /\
  forall pa, mapped (fws s) ino pg = Some pa ->
    exists s', sivfs_mkwrite ino pg (Some pa) s = (Ok (Some VM_FAULT_NOPAGE), s') /\ in_txn st lo n s' m own /\ only_page ino pg s s' /\
      visible s' ino pg = None /\ fs_cow s' = pa.
Proof.
  intros Hin Hp [a Ha] Hcow. pose proof (it_ws _ _ _ _ _ _ Hin) as Hok. destruct (wo_iinfo _ Hok _ _ Ha) as (i & Hi & _). unfold sivfs_mkwrite.
  rewrite !(bind_step _ _ _ _ _ (load_anon_ok ino a s Ha)), Hi, !(bind_step (gets _) _ s s s eq_refl), Hcow, (it_direct _ _ _ _ _ _ Hin). split; [done|].
  intros pa Hm. cbn [Z.eqb negb]. rewrite (bind_step (load_anon ino) _ s a s (load_anon_ok ino a s Ha)). rewrite Hi.
  rewrite (bind_step (gets _) _ s s s eq_refl), Hcow, (it_direct _ _ _ _ _ _ Hin). cbn [Z.eqb negb].
  rewrite (bind_step (modify _) _ s tt (set_cow pa s) eq_refl). rewrite (fault_offset pg (proj2 Hp)).
  assert (Ht : is_Some (tracked (fws s) ino pg)) by (apply (wo_tracked _ Hok); by eexists).
  destruct (evict_only ino pg s a i Hok Hp Ha Hi Ht) as (O1 & C1 & M1 & _). unfold evict_page in O1, C1, M1. rewrite Z.div_mul in O1, C1, M1 by done.
  assert (Hr : PAGE_ROUND_DOWN (pg * PAGE_SIZE) = pg * PAGE_SIZE).
  { destruct Hp. unfold PAGE_ROUND_DOWN, PAGE_SIZE. rewrite Z.div_mul by done. apply umul_small. u64_lia. }
  rewrite Hr in O1, C1, M1. set (s1 := set_fws _ s) in *. exists (set_cow pa s1). split; [reflexivity|].
  assert (O2 : only_page ino pg s (set_cow pa s1)) by by destruct O1.
  split; [by apply (in_txn_unmapped _ _ _ _ _ _ _ _ _ Hin Hp O2)|]. split; [done|]. split; [|done].
  unfold visible. change (fws (set_cow pa s1)) with (fws s1). rewrite C1, M1, (wo_excl _ Hok _ _ Ht). done.
Qed.
End faulting.

(** ** A sample: a task at time 4 with the checkpoint of time 3 *)

Definition sample_mapped_ws : gmap Z (anon_inode mappings) :=
  {[ 7 := mk_anon (mk_mappings ∅ {[ 1 := 49152 ]}) (Some (mk_aiinfo {[ 1 := RADIX_TREE_EXCEPTIONAL_ENTRY ]} false)) ]}.
Definition sample_fault : fstate mappings := mk_fs sample_cps3 (mk_task 4 32 3 3 false sample_mapped_ws) 0.
Definition sample_fenv : fault_env := mk_fenv true true true (replicate 512 7) true (fun _ => true).
Definition sample_view : Z -> Z -> page := advance sample_log4 3 4 (view x86_flags (p_pages (c_store sample_cps3)) 20480).

Lemma sample_ws_cases ino a : sample_mapped_ws !! ino = Some a ->
  ino = 7 /\ a = mk_anon (mk_mappings ∅ {[ 1 := 49152 ]}) (Some (mk_aiinfo {[ 1 := RADIX_TREE_EXCEPTIONAL_ENTRY ]} false)).
Proof. unfold sample_mapped_ws. rewrite lookup_singleton. case_decide; [|done]. by intros [= <-]. Qed.

Lemma sample_ws_uncached ino pg : cached sample_mapped_ws ino pg = None.
Proof. unfold cached. destruct (_ !! ino) as [a|] eqn:E; [|done]. apply sample_ws_cases in E as (_ & ->). cbn. by case_decide. Qed.

Lemma sample_ws_mapped ino pg v : mapped sample_mapped_ws ino pg = Some v -> ino = 7 /\ pg = 1 /\ v = 49152.
Proof.
  unfold mapped. destruct (_ !! ino) as [a|] eqn:E; [|done]. apply sample_ws_cases in E as (-> & ->). cbn. case_decide; [|done].
  rewrite lookup_singleton. case_decide; [|done]. by intros [= <-].
Qed.

Lemma sample_mapped_ws_ok : ws_ok sample_mapped_ws.
Proof.
  split.
  - intros ino a (-> & ->)%sample_ws_cases. eexists. split; reflexivity.
  - intros ino a pg p (-> & ->)%sample_ws_cases. cbn. case_decide; [|done]. by rewrite lookup_empty.
  - intros ino pg [v (-> & -> & ->)%sample_ws_mapped]. exists RADIX_TREE_EXCEPTIONAL_ENTRY. by vm_compute.
  - intros ino pg _. apply sample_ws_uncached.
Qed.

Lemma sample_mapped_ws_entries : entries_ok sample_mapped_ws.
Proof. intros ino a j pg v (-> & ->)%sample_ws_cases [= <-]. cbn. rewrite lookup_singleton. case_decide; [|done]. intros [= <-]. by left. Qed.

Lemma sample_in_txn : in_txn x86_flags sample_log4 1 4 sample_fault sample_view [].
Proof.
  destruct sample_cps3_inv as [Hinv Ht]. destruct (inv_inode _ _ _ Hinv) as (i & Hi & Hti & Hwf).
  assert (El : c_latest sample_cps3 = 32) by (vm_compute; reflexivity). rewrite El in Hi.
  assert (Er : (fun i => ci_root i) <$> c_inodes sample_cps3 !! 32 = Some 20480) by (vm_compute; reflexivity).
  rewrite Hi in Er. cbn in Er. injection Er as Er. rewrite Ht in Hti.
  assert (Hv : reads x86_flags (p_pages (c_store sample_cps3)) 20480 (view x86_flags (p_pages (c_store sample_cps3)) 20480)).
  { rewrite <- Er. eapply reads_view, Hwf. }
  split; cbn [sample_fault fs_task fs_cps st_direct_access st_checkpoint st_ts st_workingset].
  - exact sample_log4_view.
  - done.
  - exists i, (view x86_flags (p_pages (c_store sample_cps3)) 20480). rewrite Hti, Er. split; [done|]. split; [exact Hi|]. split; [lia|]. split; [lia|]. split; [lia|].
    split; [|by split]. assert (E : log_writes sample_log4 3 4 = [(7, 24, 9)]) by (vm_compute; reflexivity). rewrite E.
    repeat (constructor; [split; [|split]; lia || reflexivity|]). constructor.
  - exact sample_mapped_ws_ok.
  - exact sample_mapped_ws_entries.
  - split; [intros ino pg p _ Hp; rewrite sample_ws_uncached in Hp; discriminate|]. intros ino pg v _ (-> & -> & ->)%sample_ws_mapped. split; [reflexivity|].
    assert (E : cp_words <$> p_pages (c_store sample_cps3) !! 49152 = Some (sample_view 7 1)) by (vm_compute; reflexivity).
    apply fmap_Some in E as (q & Hq & Hw). exists q. split; [exact Hq|symmetry; exact Hw].
  - intros ino pg _ Hno. discriminate Hno.
Qed.

Lemma fault_shows_snapshot_witness :
  (do_fault x86_flags ZERO_PA sample_fenv sample_log4 true 7 1 sample_fault).1 = Ok (inr PrivatePage) /\
  exists r s', do_fault x86_flags ZERO_PA sample_fenv sample_log4 true 7 1 sample_fault = (Ok r, s') /\ in_txn x86_flags sample_log4 1 4 s' sample_view [] /\
    only_page 7 1 sample_fault s' /\
    match r with
    | inr page => visible s' 7 1 = Some (foldl (page_upd 7 1) (sample_view 7 1) []) /\
        (is_Some (cached (st_workingset (fs_task s')) 7 1) <-> page = PrivatePage) /\ (true = true -> page = PrivatePage)
    | inl code => fault_refused sample_fenv 7 1 sample_fault code
    end.
Proof.
  split; [vm_compute; reflexivity|].
  apply (fault_shows_snapshot x86_flags ZERO_PA sample_fenv sample_log4 1 4 true sample_fault sample_view [] 7 1).
  - exact sample_in_txn.
  - split; lia.
  - eexists. vm_compute. reflexivity.
Defined.

Lemma mkwrite_makes_way_witness : sivfs_mkwrite 7 1 None sample_fault = (Ok None, sample_fault) /\
  forall pa, mapped sample_mapped_ws 7 1 = Some pa ->
    exists s', sivfs_mkwrite 7 1 (Some pa) sample_fault = (Ok (Some VM_FAULT_NOPAGE), s') /\ in_txn x86_flags sample_log4 1 4 s' sample_view [] /\
      only_page 7 1 sample_fault s' /\ visible s' 7 1 = None /\ fs_cow s' = pa.
Proof.
  apply (mkwrite_makes_way x86_flags sample_log4 1 4 sample_fault sample_view [] 7 1).
  - exact sample_in_txn.
  - split; lia.
  - eexists. vm_compute. reflexivity.
  - reflexivity.
Defined.
