(* ===== verification/UserBins.v ===== *)
(** The size classes of the user-space allocator (lib/sivfs_allocator_bins.h).

    The code computes a class with the floating-point functions of the C
    library, floor(log(w) / log(1.15)) and floor(exp((i + 1) * log(1.15))). The
    code is [get_bin_with], over any two functions for these;
    [sivfs_allocator_bins_get_bin] takes their values over the real numbers,
    written with integers as 1.15 is 23/20. [bins_rounding] shows that functions
    with a relative error of at most 10^-5 ([log_near], [exp_near]) give the same
    classes. *)
From S2P Require Import Prelude Types.

Definition SIVFS_ALLOCATOR_NBINS : Z := 51.

(** The greatest [i] with 1.15^i <= w, counted up from [i]. *)
Fixpoint log115 (fuel : nat) (i w : Z) : Z :=
  match fuel with
  | O => i
  | S fuel => if 23 ^ (i + 1) <=? w * 20 ^ (i + 1) then log115 fuel (i + 1) w else i
  end.
Definition bin_index (words : Z) : Z := log115 400 0 words.

Definition sivfs_allocator_bin_maxsize (binindex : Z) : Z := u64 (23 ^ (binindex + 1) / 20 ^ (binindex + 1) * SIZEOF_WORD).

(** The size of the class and its index; [None] is a NULL bin. The logarithm of
    0 has no integer value. [lg w] is floor(log(w) / log(1.15)), [maxsize] is
    sivfs_allocator_bin_maxsize. *)
Definition get_bin_with (lg maxsize : Z -> Z) (size : Z) : res (option (Z * Z)) :=
  if negb (size mod SIZEOF_WORD =? 0) then Err EINVAL
  else if size / SIZEOF_WORD =? 0 then Fault
  else
    let binindex := lg (size / SIZEOF_WORD) in
    if SIVFS_ALLOCATOR_NBINS <=? binindex then Ok None
    else
      let binsize := maxsize binindex in
      if binsize <? size then Err EINVAL else Ok (Some (binsize, binindex)).

Definition sivfs_allocator_bins_get_bin : Z -> res (option (Z * Z)) := get_bin_with bin_index sivfs_allocator_bin_maxsize.

(** ** The class of a size *)

(** 1.15^i <= w. *)
Definition pow_le (i w : Z) : Prop := 23 ^ i <= w * 20 ^ i.

Lemma pow_le_step i w : 0 <= i -> pow_le (i + 1) w -> pow_le i w.
Proof.
  unfold pow_le. intros Hi H. rewrite !Z.pow_add_r, !Z.pow_1_r in H by lia.
  assert (0 < 20 ^ i) by (apply Z.pow_pos_nonneg; lia). assert (0 < 23 ^ i) by (apply Z.pow_pos_nonneg; lia). nia.
Qed.

Lemma pow_le_down i j w : 0 <= j <= i -> pow_le i w -> pow_le j w.
Proof.
  intros [Hj Hi] H. replace i with (j + Z.of_nat (Z.to_nat (i - j))) in H by lia. revert H.
  induction (Z.to_nat (i - j)) as [|k IH]; [by rewrite Z.add_0_r|]. intros H. apply IH, pow_le_step; [lia|].
  by replace (j + Z.of_nat k + 1) with (j + Z.of_nat (S k)) by lia.
Qed.

Lemma log115_spec fuel : forall i w, 0 <= i -> pow_le i w -> ~ pow_le (i + Z.of_nat fuel) w ->
  i <= log115 fuel i w /\ pow_le (log115 fuel i w) w /\ ~ pow_le (log115 fuel i w + 1) w.
Proof.
  induction fuel as [|fuel IH]; intros i w Hi H Hn; [by rewrite Z.add_0_r in Hn|]. cbn [log115].
  destruct (Z.leb_spec (23 ^ (i + 1)) (w * 20 ^ (i + 1))) as [Hle|Hgt].
  - destruct (IH (i + 1) w) as (? & ? & ?); [lia|done| |split; [lia|done]]. by replace (i + 1 + Z.of_nat fuel) with (i + Z.of_nat (S fuel)) by lia.
  - split; [lia|]. split; [done|]. unfold pow_le. lia.
Qed.

Lemma bin_index_spec w : 1 <= w < 2 ^ 61 -> 0 <= bin_index w /\ pow_le (bin_index w) w /\ ~ pow_le (bin_index w + 1) w.
Proof.
  intros Hw. apply log115_spec; [done|unfold pow_le; lia|]. unfold pow_le. change (0 + Z.of_nat 400) with 400.
  assert (2 ^ 61 * 20 ^ 400 < 23 ^ 400) by by vm_compute. assert (0 < 20 ^ 400) by by vm_compute. nia.
Qed.

Lemma bin_index_unique w i : 1 <= w < 2 ^ 61 -> 0 <= i -> pow_le i w -> ~ pow_le (i + 1) w -> bin_index w = i.
Proof.
  intros Hw Hi H Hn. destruct (bin_index_spec w Hw) as (Hb & Hb1 & Hb2). destruct (Z.lt_trichotomy (bin_index w) i) as [Hlt|[|Hgt]]; [|done|].
  - destruct Hb2. apply (pow_le_down i); [lia|done].
  - destruct Hn. apply (pow_le_down (bin_index w)); [lia|done].
Qed.

(** No power of 1.15 is a whole number: one side is odd, the other even. *)
Lemma pow_not_whole i w : 0 <= i -> 23 ^ (i + 1) <> w * 20 ^ (i + 1).
Proof.
  intros Hi E. assert (Ho : Z.odd (23 ^ (i + 1)) = true).
  { rewrite Z.odd_pow by lia. done. }
  rewrite E, Z.odd_mul, Z.odd_pow in Ho by lia. by rewrite andb_false_r in Ho.
Qed.

(** A statement about a range of integers, decided by computing it. *)
Lemma forall_range (P : Z -> bool) m n : forallb P (seqZ m n) = true -> forall i, m <= i < m + n -> P i = true.
Proof. intros H i Hi. rewrite forallb_forall in H. apply H, list_elem_of_In, elem_of_seqZ. lia. Qed.

Lemma maxsize_small i : 0 <= i < SIVFS_ALLOCATOR_NBINS -> 23 ^ (i + 1) / 20 ^ (i + 1) < 2 ^ 11.
Proof. intros Hi. apply Z.ltb_lt, (forall_range (fun i => 23 ^ (i + 1) / 20 ^ (i + 1) <? 2 ^ 11) 0 51); [by vm_compute|exact Hi]. Qed.

Lemma maxsize_bounds w i : 1 <= w -> 0 <= i < SIVFS_ALLOCATOR_NBINS -> pow_le i w -> ~ pow_le (i + 1) w ->
  exists b, sivfs_allocator_bin_maxsize i = b * SIZEOF_WORD /\ w <= b < 2 ^ 11 /\ pow_le i b /\ ~ pow_le (i + 1) b /\ 20 * b < 23 * w.
Proof.
  unfold pow_le, SIVFS_ALLOCATOR_NBINS. intros Hw Hi H Hn. exists (23 ^ (i + 1) / 20 ^ (i + 1)).
  assert (Hp : 0 < 20 ^ (i + 1)) by (apply Z.pow_pos_nonneg; lia). assert (Hp0 : 0 < 20 ^ i) by (apply Z.pow_pos_nonneg; lia).
  set (b := 23 ^ (i + 1) / 20 ^ (i + 1)).
  assert (Hwb : w <= b) by (apply Z.div_le_lower_bound; lia).
  assert (Hb : b * 20 ^ (i + 1) <= 23 ^ (i + 1)) by (rewrite Z.mul_comm; by apply Z.mul_div_le).
  assert (Hne := pow_not_whole i b (proj1 Hi)).
  assert (Hlt : b < 2 ^ 11) by by apply maxsize_small.
  split; [|split; [lia|split; [nia|split; [lia|]]]].
  - unfold sivfs_allocator_bin_maxsize, SIZEOF_WORD. fold b. apply u64_small. unfold is_u64, two64. nia.
  - rewrite !Z.pow_add_r, !Z.pow_1_r in Hb by lia. rewrite !Z.pow_add_r, !Z.pow_1_r in Hne by lia. nia.
Qed.

(** The logarithms that are taken, up to the largest class, are further than
    10^-4, relatively, from every class boundary but the first, which is 1. *)
Lemma bins_margin w i : 1 <= i < 52 -> 23 ^ i < 10000 * Z.abs (23 ^ i - w * 20 ^ i).
Proof.
  intros Hi. assert (E : forallb (fun i => let p := 23 ^ i in let q := 20 ^ i in (p <? 10000 * (p mod q)) && (p <? 10000 * (q - p mod q))) (seqZ 1 51) = true) by by vm_compute.
  pose proof (forall_range _ _ _ E i ltac:(lia)) as E'. cbv beta zeta in E'. apply andb_true_iff in E' as [E1%Z.ltb_lt E2%Z.ltb_lt].
  assert (Hq : 0 < 20 ^ i) by (apply Z.pow_pos_nonneg; lia). pose proof (Z.div_mod (23 ^ i) (20 ^ i) ltac:(lia)) as Ed.
  pose proof (Z.mod_pos_bound (23 ^ i) (20 ^ i) Hq). set (p := 23 ^ i) in *. set (q := 20 ^ i) in *. set (r := p mod q) in *.
  destruct (Z.le_gt_cases w (p / q)); nia.
Qed.

Lemma get_bin_value w b i : sivfs_allocator_bins_get_bin (w * SIZEOF_WORD) = Ok (Some (b, i)) -> b = sivfs_allocator_bin_maxsize (bin_index w).
Proof.
  unfold sivfs_allocator_bins_get_bin, get_bin_with. rewrite Z.div_mul by done. destruct (negb _); [done|]. destruct (w =? 0); [done|].
  destruct (_ <=? _); [done|]. destruct (_ <? _); [done|]. congruence.
Qed.

Lemma get_bin_words w : 1 <= w < 2 ^ 57 ->
  (sivfs_allocator_bins_get_bin (w * SIZEOF_WORD) = Ok None /\ PAGE_SIZE < w * SIZEOF_WORD) \/
  exists b, 0 <= bin_index w < SIVFS_ALLOCATOR_NBINS /\ sivfs_allocator_bins_get_bin (w * SIZEOF_WORD) = Ok (Some (b * SIZEOF_WORD, bin_index w)) /\
    w <= b < 2 ^ 11 /\ 20 * b < 23 * w /\ bin_index b = bin_index w.
Proof.
  intros Hw. unfold sivfs_allocator_bins_get_bin, get_bin_with, SIZEOF_WORD. rewrite Z.mod_mul, Z.div_mul, (proj2 (Z.eqb_neq w 0)) by lia. cbn [Z.eqb negb].
  destruct (bin_index_spec w ltac:(lia)) as (H0 & H1 & H2). destruct (Z.leb_spec SIVFS_ALLOCATOR_NBINS (bin_index w)) as [Hle|Hlt]; [left|right].
  - split; [done|]. apply (pow_le_down _ SIVFS_ALLOCATOR_NBINS) in H1; [|unfold SIVFS_ALLOCATOR_NBINS in *; lia]. unfold pow_le in H1. unfold PAGE_SIZE.
    assert (512 * 20 ^ SIVFS_ALLOCATOR_NBINS < 23 ^ SIVFS_ALLOCATOR_NBINS) by by vm_compute. assert (0 < 20 ^ SIVFS_ALLOCATOR_NBINS) by by vm_compute. nia.
  - destruct (maxsize_bounds w (bin_index w) ltac:(lia) ltac:(lia) H1 H2) as (b & Eb & Hb & Hb1 & Hb2 & Hb3). rewrite Eb. unfold SIZEOF_WORD.
    exists b. split; [lia|]. rewrite (proj2 (Z.ltb_ge _ _)) by lia. repeat (split; [done|lia|]). split; [done|]. split; [lia|]. split; [done|].
    apply bin_index_unique; [lia|lia|done|done].
Qed.

Lemma get_bin_class size : 0 < size < 2 ^ 60 -> size mod SIZEOF_WORD = 0 ->
  (sivfs_allocator_bins_get_bin size = Ok None /\ PAGE_SIZE < size) \/
  exists b i, sivfs_allocator_bins_get_bin size = Ok (Some (b, i)) /\ 0 <= i < SIVFS_ALLOCATOR_NBINS /\
    size <= b < 2 ^ 14 /\ 20 * b < 23 * size /\ b mod SIZEOF_WORD = 0 /\ sivfs_allocator_bins_get_bin b = Ok (Some (b, i)).
Proof.
  intros Hs Hm. pose proof (Z.div_mod size SIZEOF_WORD ltac:(done)) as E. rewrite Hm, Z.add_0_r, Z.mul_comm in E. set (w := size / SIZEOF_WORD) in *.
  rewrite E. assert (Hw : 1 <= w < 2 ^ 57) by (unfold SIZEOF_WORD in *; lia).
  destruct (get_bin_words w Hw) as [?|(b & Hi & Hg & Hb & Hb' & Hbi)]; [by left|right]. exists (b * SIZEOF_WORD), (bin_index w).
  split; [done|]. split; [done|]. split; [unfold SIZEOF_WORD; lia|]. split; [unfold SIZEOF_WORD; lia|]. split; [by apply Z.mod_mul|].
  destruct (get_bin_words b ltac:(lia)) as [[E' _]|(b' & _ & Hg' & Hb1 & _)].
  - exfalso. unfold sivfs_allocator_bins_get_bin, get_bin_with, SIZEOF_WORD in E'. rewrite Z.mod_mul, Z.div_mul, (proj2 (Z.eqb_neq b 0)), Hbi in E' by lia. cbn [Z.eqb negb] in E'.
    rewrite (proj2 (Z.leb_gt _ _)) in E' by lia. by destruct (_ <? _).
  - apply get_bin_value in Hg. pose proof (get_bin_value _ _ _ Hg') as E'. rewrite Hbi, <- Hg in E'. by rewrite Hg', E', Hbi.
Qed.

(** ** Rounding *)

(** [k] is the floor of the logarithm of [w] with a relative error of the
    argument of at most 10^-5; the logarithm of 1 is exact. *)
Definition log_near (w k : Z) : Prop :=
  if w =? 1 then k = 0
  else 0 <= k /\ 23 ^ k * 100000 <= w * 20 ^ k * 100001 /\ w * 20 ^ (k + 1) * 99999 < 23 ^ (k + 1) * 100000.

(** [b] is the floor of 1.15^i with a relative error of at most 10^-5. *)
Definition exp_near (i b : Z) : Prop :=
  b * 20 ^ i * 100000 <= 23 ^ i * 100001 /\ 23 ^ i * 99999 < (b + 1) * 20 ^ i * 100000.

(** A power of 1.15 that is nearly at most [w] is at most [w], and nearly above is above. *)
Lemma near_le i w : 1 <= i < 52 -> 23 ^ i * 100000 <= w * 20 ^ i * 100001 -> pow_le i w.
Proof. intros Hi H. pose proof (bins_margin w i Hi). unfold pow_le. lia. Qed.

Lemma near_gt i w : 1 <= i < 52 -> w * 20 ^ i * 99999 < 23 ^ i * 100000 -> ~ pow_le i w.
Proof. intros Hi H. pose proof (bins_margin w i Hi). unfold pow_le. lia. Qed.

(** The two conditions carry over to smaller and larger exponents. *)
Lemma near_le_down i j w : 0 <= j <= i -> 23 ^ i * 100000 <= w * 20 ^ i * 100001 -> 23 ^ j * 100000 <= w * 20 ^ j * 100001.
Proof.
  intros [Hj Hi]. replace i with (j + Z.of_nat (Z.to_nat (i - j))) by lia. induction (Z.to_nat (i - j)) as [|k IH]; [by rewrite Z.add_0_r|].
  intros H. apply IH. replace (j + Z.of_nat (S k)) with (j + Z.of_nat k + 1) in H by lia. rewrite !Z.pow_add_r, !Z.pow_1_r in H by lia.
  assert (0 < 20 ^ (j + Z.of_nat k)) by (apply Z.pow_pos_nonneg; lia). assert (0 < 23 ^ (j + Z.of_nat k)) by (apply Z.pow_pos_nonneg; lia).
  rewrite !Z.pow_add_r by lia. nia.
Qed.

Lemma near_gt_up i j w : 0 <= w -> 0 <= i <= j -> w * 20 ^ i * 99999 < 23 ^ i * 100000 -> w * 20 ^ j * 99999 < 23 ^ j * 100000.
Proof.
  intros Hw [Hi Hj]. replace j with (i + Z.of_nat (Z.to_nat (j - i))) by lia. induction (Z.to_nat (j - i)) as [|k IH]; [by rewrite Z.add_0_r|].
  intros H. specialize (IH H). replace (i + Z.of_nat (S k)) with (i + Z.of_nat k + 1) by lia. rewrite !(Z.pow_add_r _ _ 1), !Z.pow_1_r by lia.
  assert (0 < 20 ^ (i + Z.of_nat k)) by (apply Z.pow_pos_nonneg; lia). nia.
Qed.

(** A logarithm that is near is the right one, as far as there are classes. *)
Lemma log_near_index w k : 1 <= w < 2 ^ 61 -> log_near w k ->
  k = bin_index w \/ SIVFS_ALLOCATOR_NBINS <= k /\ SIVFS_ALLOCATOR_NBINS <= bin_index w.
Proof.
  intros Hw. unfold log_near. destruct (Z.eqb_spec w 1) as [->|Hne]; [intros ->; left; by vm_compute|]. intros (H0 & H1 & H2).
  destruct (bin_index_spec w Hw) as (Hj & Hj1 & Hj2). set (j := bin_index w) in *. change SIVFS_ALLOCATOR_NBINS with 51.
  destruct (Z.le_gt_cases 51 k) as [Hk|Hk].
  - right. split; [done|]. destruct (Z.le_gt_cases 51 j) as [|Hlt]; [done|]. exfalso. apply Hj2, near_le; [lia|]. by apply (near_le_down k); [lia|].
  - left. apply symmetry, bin_index_unique; [done|done| |apply near_gt; [lia|done]].
    destruct (Z.eq_dec k 0) as [->|]; [unfold pow_le; lia|]. apply near_le; [lia|done].
Qed.

Lemma exp_near_floor i b : 1 <= i < 52 -> exp_near i b -> b = 23 ^ i / 20 ^ i.
Proof.
  intros Hi [H1 H2]. assert (Hq : 0 < 20 ^ i) by (apply Z.pow_pos_nonneg; lia). pose proof (bins_margin b i Hi). pose proof (bins_margin (b + 1) i Hi).
  apply (Z.div_unique _ _ _ (23 ^ i - b * 20 ^ i)); [left|]; lia.
Qed.

(** Any two functions that are near give the classes of the model. *)
Lemma bins_rounding lg ex size : 0 < size < 2 ^ 60 -> size mod SIZEOF_WORD = 0 -> (forall w, 1 <= w < 2 ^ 57 -> log_near w (lg w)) ->
  (forall i, 0 <= i < SIVFS_ALLOCATOR_NBINS -> exp_near (i + 1) (ex i)) ->
  get_bin_with lg (fun i => u64 (ex i * SIZEOF_WORD)) size = sivfs_allocator_bins_get_bin size.
Proof.
  intros Hs Hm Hlg Hex. unfold sivfs_allocator_bins_get_bin, get_bin_with. rewrite Hm. cbn [Z.eqb negb].
  pose proof (Z.div_mod size SIZEOF_WORD ltac:(done)) as E. set (w := size / SIZEOF_WORD) in *. unfold SIZEOF_WORD in E.
  rewrite (proj2 (Z.eqb_neq w 0)) by (unfold SIZEOF_WORD in *; lia). assert (Hw : 1 <= w < 2 ^ 57) by (unfold SIZEOF_WORD in *; lia).
  destruct (log_near_index w (lg w) ltac:(lia) (Hlg w Hw)) as [->|[H1 H2]].
  2: { by rewrite !(proj2 (Z.leb_le _ _)) by done. }
  destruct (Z.leb_spec SIVFS_ALLOCATOR_NBINS (bin_index w)) as [|Hlt]; [done|]. destruct (bin_index_spec w ltac:(lia)) as (H0 & _).
  assert (E' : ex (bin_index w) = 23 ^ (bin_index w + 1) / 20 ^ (bin_index w + 1)).
  { apply exp_near_floor; [unfold SIVFS_ALLOCATOR_NBINS in *; lia|]. apply Hex. lia. }
  unfold sivfs_allocator_bin_maxsize. by rewrite E'.
Qed.

(** The exact functions are near. *)
Lemma exact_near : (forall w, 1 <= w < 2 ^ 57 -> log_near w (bin_index w)) /\
  forall i, 0 <= i < SIVFS_ALLOCATOR_NBINS -> exp_near (i + 1) (23 ^ (i + 1) / 20 ^ (i + 1)).
Proof.
  split.
  - intros w Hw. unfold log_near. destruct (Z.eqb_spec w 1) as [->|]; [by vm_compute|]. destruct (bin_index_spec w ltac:(lia)) as (H0 & H1 & H2).
    unfold pow_le in *. assert (0 < 20 ^ bin_index w) by (apply Z.pow_pos_nonneg; lia). assert (0 < 20 ^ (bin_index w + 1)) by (apply Z.pow_pos_nonneg; lia).
    split; [done|]. split; nia.
  - intros i Hi. assert (Hq : 0 < 20 ^ (i + 1)) by (apply Z.pow_pos_nonneg; lia). assert (Hp : 0 < 23 ^ (i + 1)) by (apply Z.pow_pos_nonneg; lia).
    pose proof (Z.mul_div_le (23 ^ (i + 1)) _ Hq). pose proof (Z.mul_succ_div_gt (23 ^ (i + 1)) _ Hq). unfold exp_near. split; lia.
Qed.

(** C40. The size classes, computed with any floating-point log and exp whose
    relative error is at most 10^-5 (and that take the logarithm of 1 to 0). A
    request of whole words up to a page has a class; a larger one has one or,
    above the largest class, none (NULL). The class holds the request, wastes
    less than 15 percent of it, and is the class of its own size, so that an
    object of that size goes back to the list it came from. *)
Theorem bins_exact lg ex size : 0 < size < 2 ^ 60 -> size mod SIZEOF_WORD = 0 -> (forall w, 1 <= w < 2 ^ 57 -> log_near w (lg w)) ->
  (forall i, 0 <= i < SIVFS_ALLOCATOR_NBINS -> exp_near (i + 1) (ex i)) ->
  let get_bin := get_bin_with lg (fun i => u64 (ex i * SIZEOF_WORD)) in
  get_bin size = sivfs_allocator_bins_get_bin size /\
  ((get_bin size = Ok None /\ PAGE_SIZE < size) \/
   exists b i, get_bin size = Ok (Some (b, i)) /\ 0 <= i < SIVFS_ALLOCATOR_NBINS /\
    size <= b < 2 ^ 14 /\ 20 * b < 23 * size /\ b mod SIZEOF_WORD = 0 /\ get_bin b = Ok (Some (b, i))).
Proof.
  intros Hs Hm Hlg Hex get_bin. assert (E : get_bin size = sivfs_allocator_bins_get_bin size) by by apply bins_rounding.
  split; [done|]. rewrite E. destruct (get_bin_class size Hs Hm) as [?|(b & i & H1 & H2 & H3 & H4 & H5 & H6)]; [by left|right].
  exists b, i. split_and!; try done; try lia. rewrite <- H6. apply bins_rounding; [lia|done..].
Qed.

Lemma bins_exact_witness : let get_bin := get_bin_with bin_index (fun i => u64 (23 ^ (i + 1) / 20 ^ (i + 1) * SIZEOF_WORD)) in
  get_bin 24 = Ok (Some (24, 7)) /\ get_bin 24 = sivfs_allocator_bins_get_bin 24 /\
  ((get_bin 24 = Ok None /\ PAGE_SIZE < 24) \/
   exists b i, get_bin 24 = Ok (Some (b, i)) /\ 0 <= i < SIVFS_ALLOCATOR_NBINS /\
    24 <= b < 2 ^ 14 /\ 20 * b < 23 * 24 /\ b mod SIZEOF_WORD = 0 /\ get_bin b = Ok (Some (b, i))).
Proof.
  split; [by vm_compute|]. apply (bins_exact bin_index (fun i => 23 ^ (i + 1) / 20 ^ (i + 1)) 24); [done|done|apply exact_near|apply exact_near].
Defined.

(** The size that sivfs_allocator_bin_maxsize calls an exclusive upper bound is
    itself in the class. *)
Theorem maxsize_is_in_its_class : forall i, 0 <= i < SIVFS_ALLOCATOR_NBINS -> 1 < sivfs_allocator_bin_maxsize i / SIZEOF_WORD ->
  exists j, sivfs_allocator_bins_get_bin (sivfs_allocator_bin_maxsize i) = Ok (Some (sivfs_allocator_bin_maxsize i, j)) /\
    sivfs_allocator_bin_maxsize j = sivfs_allocator_bin_maxsize i.
Proof.
  intros i Hi. pose proof (forall_range (fun i => implb (1 <? sivfs_allocator_bin_maxsize i / SIZEOF_WORD)
    (match sivfs_allocator_bins_get_bin (sivfs_allocator_bin_maxsize i) with
     | Ok (Some (b, j)) => (b =? sivfs_allocator_bin_maxsize i) && (sivfs_allocator_bin_maxsize j =? b)
     | _ => false end)) 0 51 ltac:(by vm_compute) i ltac:(unfold SIVFS_ALLOCATOR_NBINS in Hi; lia)) as H. cbv beta in H.
  intros Hg. rewrite (proj2 (Z.ltb_lt _ _) Hg) in H. cbn [implb] in H.
  destruct (sivfs_allocator_bins_get_bin (sivfs_allocator_bin_maxsize i)) as [[[b j]|]| | |]; try done.
  apply andb_true_iff in H as [->%Z.eqb_eq E%Z.eqb_eq]. by exists j.
Qed.
