(* ===== verification/UserAlloc.v ===== *)
(** The user-space allocator (lib/sivfs_allocator.h): objects cut out of the
    blocks of a file, with free lists whose nodes lie in the free objects.

    [u_mem] is the mapped memory of the task, by byte address, one 64-bit word
    per multiple of 8; what is not mapped, or not aligned, faults. All changes to
    it go through sivfs_write_ws, which also records them in the write set. A
    region is named by the address of its header; a list node is 8 bytes further,
    its prev field first. The states of the mappings lie in ordinary memory and
    are named by numbers; the slot of a free list, struct sivfs_allocator_lh** in
    the code, is named by the number of its state and the index of its bin.
    assert(0) and exit(1) end the process, as a [Fault] does. *)
From S2P Require Import Prelude Types Stack Writeset UserBins.

(** ** Memory and write set *)

Record mmap_state : Type := mk_mstate {
  ms_free_lists : list Z;
  ms_start : Z;
  ms_tag : Z;
  ms_size : Z
}.

(** [struct sivfs_allocator_state]. *)
Record lib_state : Type := mk_lib {
  l_mmap_states : sivfs_stack;
  l_restore_ptrs : sivfs_stack;
  l_restore_values : sivfs_stack;
  l_nAllocs : Z;
  l_nFrees : Z
}.

Record ulib : Type := mk_ulib {
  u_mem : gmap Z Z;
  u_ws : sivfs_writeset;
  u_mstates : gmap Z mmap_state;
  u_lib : option lib_state
}.

(** What the ioctl SIVFS_ALLOC_BLOCK fills in. *)
Record block_ret : Type := mk_blk {
  br_mmap_start : Z;
  br_mmap_size : Z;
  br_start : Z;
  br_size : Z
}.

(** The system: whether write sets and stacks can grow, whether malloc of the
    state and open of the device succeed, the state that malloc returns (0 for
    NULL), and the answers of the two ioctls. *)
Record lib_env : Type := mk_lenv {
  ie_mem : bool;
  ie_state : bool;
  ie_open : bool;
  ie_mstate : Z;
  ie_alloc_block : Z -> Z -> option block_ret;
  ie_free_block : Z -> bool
}.

Definition set_mem (m : gmap Z Z) (s : ulib) : ulib := mk_ulib m (u_ws s) (u_mstates s) (u_lib s).
Definition set_mstates (m : gmap Z mmap_state) (s : ulib) : ulib := mk_ulib (u_mem s) (u_ws s) m (u_lib s).
Definition set_lib (l : lib_state) (s : ulib) : ulib := mk_ulib (u_mem s) (u_ws s) (u_mstates s) (Some l).
Definition with_mmap_states (st : sivfs_stack) (l : lib_state) : lib_state := mk_lib st (l_restore_ptrs l) (l_restore_values l) (l_nAllocs l) (l_nFrees l).
Definition with_restore (p v : sivfs_stack) (l : lib_state) : lib_state := mk_lib (l_mmap_states l) p v (l_nAllocs l) (l_nFrees l).
Definition count_alloc (l : lib_state) : lib_state := mk_lib (l_mmap_states l) (l_restore_ptrs l) (l_restore_values l) (uadd (l_nAllocs l) 1) (l_nFrees l).
Definition count_free (l : lib_state) : lib_state := mk_lib (l_mmap_states l) (l_restore_ptrs l) (l_restore_values l) (l_nAllocs l) (uadd (l_nFrees l) 1).

Definition load (address : Z) : M ulib Z := fun s => (deref (u_mem s !! address), s).
Definition store (address value : Z) : M ulib unit := fun s =>
  match u_mem s !! address with
  | Some _ => (Ok tt, set_mem (<[address := value]> (u_mem s)) s)
  | None => (Fault, s)
  end.
Definition on_wset {A} (m : M sivfs_writeset A) : M ulib A := fun s =>
  let '(r, ws) := m (u_ws s) in (r, mk_ulib (u_mem s) ws (u_mstates s) (u_lib s)).
Definition on_lib {A} (m : M lib_state A) : M ulib A := fun s =>
  match u_lib s with
  | None => (Fault, s)
  | Some l => let '(r, l) := m l in (r, set_lib l s)
  end.

(** kern/sivfs.h: store the word and append it to the write set. *)
Definition sivfs_write_ws (ev : lib_env) (address value : Z) : M ulib unit :=
  if negb (address mod SIZEOF_WORD =? 0) then throw EINVAL
  else
    do! store address value in
    on_wset (sivfs_add_to_writeset (ie_mem ev) [0; 0; address; 0; value] 40).
Definition sivfs_write_wsp := sivfs_write_ws.

(** ** Lists *)

(** The fields of the node at [lh]. *)
Definition lh_prev (lh : Z) : Z := lh.
Definition lh_next (lh : Z) : Z := lh + 8.

Definition sivfs_alloc_list_empty (head : Z) : M ulib bool :=
  let! next := load (lh_next head) in ret (next =? head).

Definition sivfs_alloc_lh_add_ws (ev : lib_env) (list lh : Z) : M ulib unit :=
  let! target := load (lh_next list) in
  let! target_prev := load (lh_prev target) in
  do! sivfs_write_wsp ev (lh_next lh) target in
  do! sivfs_write_wsp ev (lh_prev lh) target_prev in
  do! sivfs_write_wsp ev (lh_next target_prev) lh in
  sivfs_write_wsp ev (lh_prev target) lh.

Definition sivfs_alloc_lh_remove_ws (ev : lib_env) (lh : Z) : M ulib unit :=
  let! prev := load (lh_prev lh) in
  let! next := load (lh_next lh) in
  if (lh =? prev) || (lh =? next) then throw EINVAL
  else if (prev =? 0) || (next =? 0) then throw EINVAL
  else
    do! sivfs_write_wsp ev (lh_prev lh) 0 in
    do! sivfs_write_wsp ev (lh_next lh) 0 in
    do! sivfs_write_wsp ev (lh_next prev) next in
    sivfs_write_wsp ev (lh_prev next) prev.

(** ** Regions and blocks *)

Definition SIVFS_BIG_ALLOCATION_FLAG : Z := Z.shiftl 1 63.
Definition SIVFS_LIST_HEAD_FLAG : Z := Z.shiftl 1 62.
Definition SIVFS_FREED_MAGIC : Z := Z.shiftl 57005 46.
Definition SIVFS_FREED_MAGIC_MASK : Z := Z.shiftl 65535 46.
Definition SIVFS_ALLOCATION_FLAGS : Z := Z.lor (Z.lor SIVFS_BIG_ALLOCATION_FLAG SIVFS_LIST_HEAD_FLAG) SIVFS_FREED_MAGIC_MASK.
Definition SIVFS_SLAB_INDEX_MASK : Z := Z.shiftl 65535 30.
Definition SIVFS_SLAB_INDEX_SHIFT : Z := 30.
Definition SIVFS_MAX_SLAB_ELTS : Z := Z.shiftl 1 16 - 1.
Definition SIVFS_ALLOCATOR_SLABSIZE : Z := 4096 * 4.
Definition SIVFS_ALLOC_REGION_HEADER_SIZE : Z := 8.
Definition SIVFS_BLOCK_HEADER_SIZE : Z := 8.
Definition SIVFS_BLOCK_FOOTER_SIZE : Z := 8 + 8.
Definition sizeof_region : Z := 24.

Definition has_flag (w flag : Z) : bool := negb (Z.land w flag =? 0).

Definition DIV_ROUND (x len : Z) : Z := usub (uadd x len) 1 / len.
Definition ROUND_UP (x align : Z) : Z := umul (DIV_ROUND x align) align.

(** Of the header word of a region. *)
Definition sivfs_allocated_region_size (w : Z) : Z :=
  if has_flag w SIVFS_BIG_ALLOCATION_FLAG then Z.land w (unot SIVFS_ALLOCATION_FLAGS)
  else Z.land (Z.land w (unot SIVFS_ALLOCATION_FLAGS)) (unot SIVFS_SLAB_INDEX_MASK).
Definition sivfs_allocated_region_flags (w : Z) : Z := Z.land w SIVFS_ALLOCATION_FLAGS.
Definition sivfs_allocated_region_slab_index (w : Z) : Z := Z.shiftr (Z.land w SIVFS_SLAB_INDEX_MASK) SIVFS_SLAB_INDEX_SHIFT.

Definition sivfs_allocated_region_set_flags (ev : lib_env) (region flags : Z) : M ulib unit :=
  if negb (Z.land flags (unot SIVFS_ALLOCATION_FLAGS) =? 0) then throw EINVAL
  else
    let! w := load region in
    sivfs_write_ws ev region (Z.lor (Z.land w (unot SIVFS_ALLOCATION_FLAGS)) flags).

Definition sivfs_alloc_ret_to_region (ptr : Z) : Z := ptr - SIVFS_ALLOC_REGION_HEADER_SIZE.
Definition sivfs_allocated_region_to_alloc_ret (region : Z) : Z := region + SIVFS_ALLOC_REGION_HEADER_SIZE.
Definition sivfs_allocator_lh_to_allocated_region (lh : Z) : Z := lh - 8.
Definition region_lh (region : Z) : Z := region + 8.

(** The head of the block of a region; 0 is NULL. *)
Definition sivfs_alloc_region_to_block_head (region : Z) : M ulib Z :=
  let! w := load region in
  if has_flag w SIVFS_BIG_ALLOCATION_FLAG then ret region
  else
    let slab_index := sivfs_allocated_region_slab_index w in
    let slab_elt_size := sivfs_allocated_region_size w in
    let region := region - umul slab_index slab_elt_size in
    let! w := load region in
    if negb (sivfs_allocated_region_slab_index w =? 0) then ret 0
    else
      let slab_head := region - SIVFS_BLOCK_HEADER_SIZE in
      let! block_size := load slab_head in
      if block_size =? 0 then ret 0
      else
        let block_footer_ptr := slab_head + block_size - SIVFS_BLOCK_FOOTER_SIZE in
        let! block_size' := load (block_footer_ptr + 8) in
        if negb (block_size' =? block_size) then ret 0 else ret slab_head.

Definition sivfs_block_tag (block_head : Z) : M ulib Z :=
  let! w := load block_head in
  let block_size := Z.land w (unot SIVFS_BIG_ALLOCATION_FLAG) in
  if block_size =? 0 then lift Fault
  else
    let block_footer_ptr := block_head + block_size - SIVFS_BLOCK_FOOTER_SIZE in
    let! block_size' := load (block_footer_ptr + 8) in
    if negb (block_size' =? block_size) then lift Fault else load block_footer_ptr.

(** ** The states of the mappings *)

Definition NBINS_nat : nat := Z.to_nat SIVFS_ALLOCATOR_NBINS.
Definition slot_name (mstate bin : Z) : Z := mstate * 64 + bin.

Definition load_slot (slot : Z) : M ulib Z := fun s =>
  (deref (u_mstates s !! (slot / 64) ≫= fun ms => ms_free_lists ms !! Z.to_nat (slot mod 64)), s).
Definition store_slot (slot value : Z) : M ulib unit := fun s =>
  match u_mstates s !! (slot / 64) with
  | Some ms =>
    if slot mod 64 <? Z.of_nat (length (ms_free_lists ms)) then
      (Ok tt, set_mstates (<[slot / 64 := mk_mstate (<[Z.to_nat (slot mod 64) := value]> (ms_free_lists ms)) (ms_start ms) (ms_tag ms) (ms_size ms)]> (u_mstates s)) s)
    else (Fault, s)
  | None => (Fault, s)
  end.

Definition sivfs_set_free_list (ev : lib_env) (slot list : Z) : M ulib unit :=
  let! old_list := load_slot slot in
  let! l := gets u_lib in
  match l with
  | None => throw EINVAL
  | Some l =>
    do! on_lib (fun l => let '(r, st) := sivfs_stack_push (ie_mem ev) slot (l_restore_ptrs l) in (r, with_restore st (l_restore_values l) l)) in
    do! on_error (on_lib (fun l => let '(r, st) := sivfs_stack_push (ie_mem ev) old_list (l_restore_values l) in (r, with_restore (l_restore_ptrs l) st l)))
          (on_lib (fun l => let '(r, st) := sivfs_stack_pop (l_restore_ptrs l) in
                            (match r with Ok _ => Ok tt | Err e => Err e | Fault => Fault | OutOfFuel => OutOfFuel end, with_restore st (l_restore_values l) l))) in
    store_slot slot list
  end.

(** Backwards over the history: the last change is undone first. *)
Fixpoint restore_free_lists (i : nat) (l : lib_state) : M ulib unit :=
  match i with
  | O => ret tt
  | S i =>
    let! slot := lift (deref (st_values (l_restore_ptrs l) !! i)) in
    let! slot_value := lift (deref (st_values (l_restore_values l) !! i)) in
    do! store_slot slot slot_value in
    restore_free_lists i l
  end.

Definition drop_history (l : lib_state) : lib_state :=
  with_restore (mk_stack 0 (st_capacity (l_restore_ptrs l)) (st_values (l_restore_ptrs l)))
    (mk_stack 0 (st_capacity (l_restore_values l)) (st_values (l_restore_values l))) l.

Definition sivfs_lib_allocation_on_commit (aborted : bool) : M ulib unit :=
  let! l := gets u_lib in
  match l with
  | None => ret tt
  | Some l =>
    do! (if aborted then restore_free_lists (Z.to_nat (st_size (l_restore_ptrs l))) l else ret tt) in
    on_lib (modify drop_history)
  end.

(** The first state that contains the address, NULL if there is none. *)
Fixpoint find_mmap_state (zone tag : Z) (states : list Z) : M ulib Z :=
  match states with
  | [] => ret 0
  | m :: states =>
    let! ms := gets u_mstates in
    let! mstate := lift (deref (ms !! m)) in
    let vend := ms_start mstate + ms_size mstate in
    if (ms_start mstate <=? zone) && (zone <? vend) && (ms_tag mstate =? tag) then ret m else find_mmap_state zone tag states
  end.

Definition sivfs_get_allocator_mmap_state (zone tag : Z) : M ulib Z :=
  let! l := gets u_lib in
  match l with
  | None => lift Fault
  | Some l => find_mmap_state zone tag (take (Z.to_nat (st_size (l_mmap_states l))) (st_values (l_mmap_states l)))
  end.

Definition sivfs_mmap_state_overlaps (state : mmap_state) (start tag size : Z) : bool :=
  let end_ := start + size in
  let vend := ms_start state + ms_size state in
  (ms_tag state =? tag) && (ms_start state <? end_) && (start <=? vend).

Definition sivfs_put_allocator_mmap_state (mstate : Z) : M ulib unit := modify (fun s => set_mstates (delete mstate (u_mstates s)) s).

(** States that overlap are removed and freed; the element that takes the place
    of a removed one is looked at next. *)
Fixpoint remove_overlaps (fuel : nat) (i : Z) (start tag size : Z) : M ulib unit :=
  match fuel with
  | O => lift OutOfFuel
  | S fuel =>
    let! l := gets u_lib in
    let! l := lift (deref l) in
    if i <? st_size (l_mmap_states l) then
      let! m := lift (deref (st_values (l_mmap_states l) !! Z.to_nat i)) in
      let! ms := gets u_mstates in
      let! mstate := lift (deref (ms !! m)) in
      if sivfs_mmap_state_overlaps mstate start tag size then
        do! on_lib (modify (fun l => with_mmap_states (sivfs_stack_remove i (l_mmap_states l)) l)) in
        do! sivfs_put_allocator_mmap_state m in
        remove_overlaps fuel (uadd (usub i 1) 1) start tag size
      else remove_overlaps fuel (uadd i 1) start tag size
    else ret tt
  end.

Definition sivfs_allocator_state_init (ev : lib_env) : res lib_state :=
  if ie_open ev then Ok (mk_lib zero_stack zero_stack zero_stack 0 0) else Err EINVAL.

Definition new_mmap_state (start tag size : Z) : mmap_state := mk_mstate (replicate NBINS_nat 0) start tag size.

Definition sivfs_allocator_add_mmap (ev : lib_env) (start tag size : Z) : M ulib unit :=
  let! l := gets u_lib in
  do! (match l with
       | Some _ => ret tt
       | None => if ie_state ev then let! l := lift (sivfs_allocator_state_init ev) in modify (set_lib l) else lift Fault
       end) in
  let! l := gets u_lib in
  let! l := lift (deref l) in
  do! remove_overlaps (S (Z.to_nat (st_size (l_mmap_states l)))) 0 start tag size in
  if ie_mstate ev =? 0 then lift Fault
  else
    do! modify (fun s => set_mstates (<[ie_mstate ev := new_mmap_state start tag size]> (u_mstates s)) s) in
    on_error (on_lib (fun l => let '(r, st) := sivfs_stack_push (ie_mem ev) (ie_mstate ev) (l_mmap_states l) in (r, with_mmap_states st l)))
      (sivfs_put_allocator_mmap_state (ie_mstate ev)).

(** ** Blocks *)

(** sivfs_alloc_block and sivfs_free_block of the library: the two ioctls. *)
Definition alloc_block_ioctl (ev : lib_env) (zone block_alloc : Z) : M ulib block_ret :=
  let! l := gets u_lib in
  match l with
  | None => throw EINVAL
  | Some _ => match ie_alloc_block ev zone block_alloc with Some b => ret b | None => throw EINVAL end
  end.
Definition free_block_ioctl (ev : lib_env) (block : Z) : M ulib unit :=
  let! l := gets u_lib in
  match l with
  | None => throw EINVAL
  | Some _ => if ie_free_block ev block then ret tt else throw EINVAL
  end.

(** Header and footer of a block, that tell its size and its tag. *)
Definition write_footer (ev : lib_env) (block block_size tag : Z) : M ulib unit :=
  do! sivfs_write_ws ev (block + block_size - SIVFS_BLOCK_FOOTER_SIZE) tag in
  sivfs_write_ws ev (block + block_size - SIVFS_BLOCK_FOOTER_SIZE + 8) block_size.

(** A new slab: one free region, the only one of its list. *)
Definition new_slab (ev : lib_env) (mstate : mmap_state) (zone tag slab_elt_size slot : Z) : M ulib unit :=
  let block_alloc := SIVFS_BLOCK_HEADER_SIZE + SIVFS_BLOCK_FOOTER_SIZE in
  let slab_elts_size := ROUND_UP (SIVFS_ALLOCATOR_SLABSIZE - block_alloc) slab_elt_size in
  let n_slab_elts := slab_elts_size / slab_elt_size in
  if SIVFS_MAX_SLAB_ELTS <? n_slab_elts then throw EINVAL
  else
    let block_alloc := uadd block_alloc slab_elts_size in
    if has_flag block_alloc (Z.lor SIVFS_ALLOCATION_FLAGS SIVFS_SLAB_INDEX_MASK) then throw EINVAL
    else
      let! b := alloc_block_ioctl ev zone block_alloc in
      let block := br_start b in
      let block_size := br_size b in
      if negb (br_mmap_start b =? ms_start mstate) then throw EINVAL
      else if negb (br_mmap_size b =? ms_size mstate) then throw EINVAL
      else if block_alloc =? 0 then throw EINVAL
      else if block_size <? block_alloc then throw EINVAL
      else
        do! sivfs_write_ws ev block block_size in
        do! write_footer ev block block_size tag in
        let free_region := block + SIVFS_BLOCK_HEADER_SIZE in
        do! sivfs_write_ws ev free_region
              (Z.lor (Z.lor (usub (usub block_size SIVFS_BLOCK_FOOTER_SIZE) SIVFS_BLOCK_HEADER_SIZE) SIVFS_FREED_MAGIC) SIVFS_LIST_HEAD_FLAG) in
        do! sivfs_write_wsp ev (lh_next (region_lh free_region)) (region_lh free_region) in
        do! sivfs_write_wsp ev (lh_prev (region_lh free_region)) (region_lh free_region) in
        sivfs_set_free_list ev slot (region_lh free_region).

(** The size of the elements of the list and its slot; slot 0 is NULL: the
    request is too large for a list. *)
Definition sivfs_get_free_list_slot (ev : lib_env) (zone tag size : Z) (sivfs_alloc : bool) : M ulib (Z * Z) :=
  if size =? 0 then throw EINVAL
  else if negb (size mod SIZEOF_WORD =? 0) then throw EINVAL
  else
    let! m := sivfs_get_allocator_mmap_state zone tag in
    if m =? 0 then throw EINVAL
    else
      let slab_elt_size := max2_size_t (uadd size SIVFS_ALLOC_REGION_HEADER_SIZE) sizeof_region in
      let! bin := lift (match sivfs_allocator_bins_get_bin slab_elt_size with Err _ => Err EINVAL | r => r end) in
      match bin with
      | None => ret (slab_elt_size, 0)
      | Some (binsize, bin) =>
        let slot := slot_name m bin in
        if binsize <? slab_elt_size then throw EINVAL
        else
          let slab_elt_size := binsize in
          let! list := load_slot slot in
          do! (if (list =? 0) && sivfs_alloc then
                 let! ms := gets u_mstates in
                 let! mstate := lift (deref (ms !! m)) in
                 new_slab ev mstate zone tag slab_elt_size slot
               else ret tt) in
          ret (slab_elt_size, slot)
      end.

(** ** sivfs_malloc_ws *)

(** A request too large for a list: a block of its own. *)
Definition malloc_big (ev : lib_env) (zone tag size : Z) : M ulib Z :=
  let block_size := max2_size_t (uadd (uadd size SIVFS_BLOCK_HEADER_SIZE) SIVFS_BLOCK_FOOTER_SIZE) (sizeof_region + SIVFS_BLOCK_FOOTER_SIZE) in
  if has_flag block_size SIVFS_ALLOCATION_FLAGS then throw EINVAL
  else
    let! b := alloc_block_ioctl ev zone block_size in
    if br_size b <? block_size then throw EINVAL
    else
      let block := br_start b in
      let block_size := br_size b in
      do! sivfs_write_ws ev block (Z.lor block_size SIVFS_BIG_ALLOCATION_FLAG) in
      do! write_footer ev block block_size tag in
      do! sivfs_write_wsp ev (lh_next (region_lh block)) (region_lh block) in
      do! sivfs_write_wsp ev (lh_prev (region_lh block)) (region_lh block) in
      ret block.

(** A region with room for two elements is cut behind its first one; the rest
    joins the list. *)
Definition split_region (ev : lib_env) (head region free_list_size region_size : Z) : M ulib unit :=
  let split_next := region + free_list_size in
  let split_next_size := usub region_size free_list_size in
  let! w := load region in
  let split_slab_index := sivfs_allocated_region_slab_index w + 1 in
  if SIVFS_MAX_SLAB_ELTS <? split_slab_index then throw EINVAL
  else
    do! sivfs_write_ws ev region (Z.lor (Z.lor free_list_size (sivfs_allocated_region_flags w)) (Z.land w SIVFS_SLAB_INDEX_MASK)) in
    do! sivfs_write_ws ev split_next (Z.lor (Z.lor split_next_size SIVFS_FREED_MAGIC) (u64 (Z.shiftl split_slab_index SIVFS_SLAB_INDEX_SHIFT))) in
    sivfs_alloc_lh_add_ws ev head (region_lh split_next).

(** Marks the region of node [iter] as allocated and takes it out of the list. *)
Definition take_region (ev : lib_env) (slot head iter free_list_size region_size : Z) : M ulib Z :=
  let region := sivfs_allocator_lh_to_allocated_region iter in
  if region_size <? free_list_size then throw EINVAL
  else
    let! w := load region in
    do! sivfs_write_ws ev region (Z.lor free_list_size (Z.land w SIVFS_SLAB_INDEX_MASK)) in
    do! (if iter =? head then
           let! empty := sivfs_alloc_list_empty head in
           if empty then sivfs_set_free_list ev slot 0 else throw EINVAL
         else sivfs_alloc_lh_remove_ws ev iter) in
    ret region.

(** The loop over the list, from split_head: its body ends the loop, or starts
    it again when the head was cut. *)
Fixpoint alloc_within (fuel : nat) (ev : lib_env) (slot head free_list_size : Z) : M ulib Z :=
  match fuel with
  | O => lift OutOfFuel
  | S fuel =>
    let! iter := load (lh_next head) in
    if iter =? 0 then throw EINVAL
    else
      let region := sivfs_allocator_lh_to_allocated_region iter in
      let! w := load region in
      if negb (Z.land w SIVFS_FREED_MAGIC_MASK =? SIVFS_FREED_MAGIC) then lift Fault
      else
        let region_size := sivfs_allocated_region_size w in
        if umul free_list_size 2 <=? region_size then
          do! split_region ev head region free_list_size region_size in
          if iter =? head then alloc_within fuel ev slot head free_list_size
          else take_region ev slot head iter free_list_size free_list_size
        else take_region ev slot head iter free_list_size region_size
  end.

(** The address of the object; 0 is NULL, whatever the error was. *)
Definition sivfs_malloc_ws (ev : lib_env) (zone tag size : Z) : M ulib Z :=
  let! l := gets u_lib in
  match l with
  | None => lift Fault
  | Some _ => fun s =>
    match (let size := ROUND_UP size SIZEOF_WORD in
           let! r := sivfs_get_free_list_slot ev zone tag size true in
           let '(free_list_size, free_list) := r in
           if free_list =? 0 then malloc_big ev zone tag size
           else
             let! head := load_slot free_list in
             if head =? 0 then throw ENOMEM
             else
               let! w := load (sivfs_allocator_lh_to_allocated_region head) in
               if negb (Z.land w SIVFS_FREED_MAGIC_MASK =? SIVFS_FREED_MAGIC) then lift Fault
               else alloc_within 2 ev free_list head free_list_size) s with
    | (Ok region, s) => (do! on_lib (modify count_alloc) in ret (sivfs_allocated_region_to_alloc_ret region)) s
    | (Err _, s) => (Ok 0, s)
    | (Fault, s) => (Fault, s)
    | (OutOfFuel, s) => (OutOfFuel, s)
    end
  end.

(** ** sivfs_free_ws *)

(** The block goes back to the kernel. The footer pointer has type size_t*, so
    that adding sizeof(uint64_t) moves it by 8 words. *)
Definition free_big (ev : lib_env) (ptr allocated_size : Z) : M ulib unit :=
  do! free_block_ioctl ev ptr in
  let footer_ptr := ptr + allocated_size - SIVFS_BLOCK_FOOTER_SIZE in
  do! sivfs_write_ws ev ptr 0 in
  do! sivfs_write_ws ev footer_ptr 0 in
  sivfs_write_ws ev (footer_ptr + 8 * SIZEOF_WORD) 0.

Definition free_slab_object (ev : lib_env) (ptr allocated_size : Z) : M ulib unit :=
  let object_size := usub allocated_size SIVFS_ALLOC_REGION_HEADER_SIZE in
  let! slab_head := sivfs_alloc_region_to_block_head ptr in
  if slab_head =? 0 then lift Fault
  else
    let! tag := sivfs_block_tag slab_head in
    let! r := sivfs_get_free_list_slot ev ptr tag object_size false in
    let '(_, free_list) := r in
    if free_list =? 0 then throw EINVAL
    else
      let! list := load_slot free_list in
      do! (if list =? 0 then
             do! sivfs_write_wsp ev (lh_prev (region_lh ptr)) (region_lh ptr) in
             do! sivfs_write_wsp ev (lh_next (region_lh ptr)) (region_lh ptr) in
             sivfs_set_free_list ev free_list (region_lh ptr)
           else sivfs_alloc_lh_add_ws ev list (region_lh ptr)) in
      sivfs_allocated_region_set_flags ev ptr (if list =? 0 then Z.lor SIVFS_FREED_MAGIC SIVFS_LIST_HEAD_FLAG else SIVFS_FREED_MAGIC).

Definition sivfs_free_ws (ev : lib_env) (ptr : Z) : M ulib unit :=
  let region := sivfs_alloc_ret_to_region ptr in
  let! l := gets u_lib in
  match l with
  | None => lift Fault
  | Some _ =>
    let! w := load region in
    if negb (Z.land w SIVFS_FREED_MAGIC_MASK =? 0) then lift Fault
    else
      let allocated_size := sivfs_allocated_region_size w in
      do! (if has_flag w SIVFS_BIG_ALLOCATION_FLAG then free_big ev region allocated_size
           else if allocated_size =? 0 then throw EINVAL
           else free_slab_object ev region allocated_size) in
      on_lib (modify count_free)
  end.
