(* ===== verification/UserHeap.v ===== *)
(** The heap of the user-space allocator: header words, writes that the write
    set records, circular lists of free regions, and the invariant that ties
    blocks, elements and free lists to the memory (lib/sivfs_allocator.h). *)
From S2P Require Import Prelude Types Stack Writeset UserBins UserAlloc.

(** ** Header words *)

(** A word is a size, an index in the slab and flags, at bits 0, 30 and 46. *)
Definition pack (x j f : Z) : Z := x + 2 ^ 30 * j + 2 ^ 46 * f.

Definition magic : Z := 57005.
Definition magic_head : Z := 57005 + 65536.
Definition flag_bits (free : bool) (f : Z) : Prop := if free then f = magic \/ f = magic_head else f = 0.

Record packed (w x j : Z) (free : bool) : Prop := {
  pk_size : 0 <= x < 2 ^ 30;
  pk_index : 0 <= j < 2 ^ 16;
  pk_word : exists f, w = pack x j f /\ flag_bits free f
}.

Lemma lor_disjoint a b k : 0 <= k -> 0 <= a < 2 ^ k -> Z.lor a (b * 2 ^ k) = a + b * 2 ^ k.
Proof.
  intros Hk Ha. rewrite <- Z.shiftl_mul_pow2 by done. assert (E : Z.land a (Z.shiftl b k) = 0).
  { apply Z.bits_inj'. intros n Hn. rewrite Z.land_spec, Z.testbit_0_l, Z.shiftl_spec by done. destruct (Z.lt_ge_cases n k).
    - by rewrite (Z.testbit_neg_r b), andb_false_r by lia.
    - replace a with (a mod 2 ^ k) by by apply Z.mod_small. by rewrite Z.mod_pow2_bits_high by lia. }
  rewrite <- Z.lxor_lor, Z.add_nocarry_lxor by done. done.
Qed.

Lemma land_low w k : 0 <= k -> Z.land w (Z.ones k) = w mod 2 ^ k.
Proof. apply Z.land_ones. Qed.

Lemma flag_masks : SIVFS_SLAB_INDEX_MASK = Z.shiftl (Z.ones 16) 30 /\ SIVFS_FREED_MAGIC_MASK = Z.shiftl (Z.ones 16) 46 /\
  SIVFS_ALLOCATION_FLAGS = Z.shiftl (Z.ones 18) 46 /\ SIVFS_BIG_ALLOCATION_FLAG = Z.shiftl (Z.ones 1) 63 /\ unot SIVFS_ALLOCATION_FLAGS = Z.ones 46.
Proof. by vm_compute. Qed.

(** The fields of a packed word. *)
Lemma pack_fields x j f : 0 <= x < 2 ^ 30 -> 0 <= j < 2 ^ 16 ->
  pack x j f mod 2 ^ 46 = x + 2 ^ 30 * j /\ pack x j f / 2 ^ 30 mod 2 ^ 16 = j /\ pack x j f / 2 ^ 46 = f.
Proof.
  unfold pack. intros Hx Hj. split; [|split].
  - symmetry. apply (Z.mod_unique _ _ f); lia.
  - assert (E : (x + 2 ^ 30 * j + 2 ^ 46 * f) / 2 ^ 30 = j + 2 ^ 16 * f) by (symmetry; apply (Z.div_unique _ _ _ x); lia).
    rewrite E. symmetry. apply (Z.mod_unique _ _ f); lia.
  - symmetry. apply (Z.div_unique _ _ _ (x + 2 ^ 30 * j)); lia.
Qed.

Lemma clear_index y : 0 <= y < 2 ^ 46 -> Z.land y (unot SIVFS_SLAB_INDEX_MASK) = y mod 2 ^ 30.
Proof.
  intros Hy. rewrite <- Z.land_ones by done. replace (unot SIVFS_SLAB_INDEX_MASK) with (Z.lor (Z.ones 30) (Z.shiftl (Z.ones 18) 46)) by by vm_compute.
  rewrite Z.land_lor_distr_r, land_field, (Z.div_small y) by (done || lia). by rewrite Zmod_0_l, Z.mul_0_l, Z.lor_0_r.
Qed.

Lemma packed_range w x j free : packed w x j free -> 0 <= w < 2 ^ 63.
Proof. intros [Hx Hj (f & -> & Hf)]. unfold pack, flag_bits, magic, magic_head in *. destruct free; lia. Qed.

(** What the allocator reads off a header. *)
Record header_reads (w x j : Z) (free : bool) : Prop := {
  hr_size : sivfs_allocated_region_size w = x;
  hr_index : sivfs_allocated_region_slab_index w = j;
  hr_magic : Z.land w SIVFS_FREED_MAGIC_MASK = if free then SIVFS_FREED_MAGIC else 0;
  hr_big : has_flag w SIVFS_BIG_ALLOCATION_FLAG = false;
  hr_index_bits : Z.land w SIVFS_SLAB_INDEX_MASK = j * 2 ^ 30;
  hr_flags : exists f, sivfs_allocated_region_flags w = f * 2 ^ 46 /\ flag_bits free f;
  hr_plain : Z.land w (unot SIVFS_ALLOCATION_FLAGS) = x + 2 ^ 30 * j
}.

Lemma packed_reads w x j free : packed w x j free -> header_reads w x j free.
Proof.
  intros [Hx Hj (f & -> & Hf)]. destruct (pack_fields x j f Hx Hj) as (E1 & E2 & E3). destruct flag_masks as (M1 & M2 & M3 & M4 & M5).
  assert (Hfr : 0 <= f < 2 ^ 17) by (unfold flag_bits, magic, magic_head in Hf; destruct free; lia).
  assert (Hbig : has_flag (pack x j f) SIVFS_BIG_ALLOCATION_FLAG = false).
  { unfold has_flag. rewrite M4, land_field, (Z.div_small _ (2 ^ 63)) by (done || unfold pack; lia). done. }
  assert (Hplain : Z.land (pack x j f) (unot SIVFS_ALLOCATION_FLAGS) = x + 2 ^ 30 * j) by by rewrite M5, land_low.
  split.
  - unfold sivfs_allocated_region_size. rewrite Hbig, Hplain, clear_index by lia. symmetry. apply (Z.mod_unique _ _ j); lia.
  - unfold sivfs_allocated_region_slab_index. rewrite M1, land_field, E2 by done. rewrite Z.shiftr_div_pow2 by done. by apply Z.div_mul.
  - rewrite M2, land_field, E3 by done. unfold flag_bits in Hf. destruct free; [destruct Hf as [-> | ->]|rewrite Hf]; by vm_compute.
  - exact Hbig.
  - by rewrite M1, land_field, E2.
  - exists f. split; [|done]. unfold sivfs_allocated_region_flags. rewrite M3, land_field, E3, Z.mod_small by (done || lia). done.
  - exact Hplain.
Qed.

(** The words that the allocator writes. *)
Lemma packed_intro x j f free : 0 <= x < 2 ^ 30 -> 0 <= j < 2 ^ 16 -> flag_bits free f -> packed (pack x j f) x j free.
Proof. intros. split; [done|done|]. by exists f. Qed.

Lemma packed_new x : 0 <= x < 2 ^ 30 -> packed (Z.lor (Z.lor x SIVFS_FREED_MAGIC) SIVFS_LIST_HEAD_FLAG) x 0 true.
Proof.
  intros Hx. change SIVFS_FREED_MAGIC with (57005 * 2 ^ 46). change SIVFS_LIST_HEAD_FLAG with (1 * 2 ^ 62).
  rewrite (lor_disjoint x), lor_disjoint by lia. replace (_ + _) with (pack x 0 magic_head) by (unfold pack, magic_head; lia).
  apply packed_intro; [done|lia|by right].
Qed.

Lemma packed_split x j : 0 <= x < 2 ^ 30 -> 0 <= j < 2 ^ 16 ->
  packed (Z.lor (Z.lor x SIVFS_FREED_MAGIC) (u64 (Z.shiftl j SIVFS_SLAB_INDEX_SHIFT))) x j true.
Proof.
  intros Hx Hj. unfold SIVFS_SLAB_INDEX_SHIFT. rewrite Z.shiftl_mul_pow2, u64_small by (lia || u64_lia). change SIVFS_FREED_MAGIC with (57005 * 2 ^ 46).
  rewrite <- Z.lor_assoc, (Z.lor_comm (57005 * _)), Z.lor_assoc, (lor_disjoint x j), lor_disjoint by lia.
  replace (_ + _) with (pack x j magic) by (unfold pack, magic; lia). apply packed_intro; [done|done|by left].
Qed.

Lemma packed_keep w x j x' : packed w x j true -> 0 <= x' < 2 ^ 30 ->
  packed (Z.lor (Z.lor x' (sivfs_allocated_region_flags w)) (Z.land w SIVFS_SLAB_INDEX_MASK)) x' j true.
Proof.
  intros Hp Hx'. pose proof (packed_reads _ _ _ _ Hp) as Hr. destruct (hr_flags _ _ _ _ Hr) as (f & -> & Hf). rewrite (hr_index_bits _ _ _ _ Hr). destruct Hp as [_ Hj _].
  rewrite <- Z.lor_assoc, (Z.lor_comm (f * _)), Z.lor_assoc, (lor_disjoint x' j), lor_disjoint by lia.
  replace (_ + _) with (pack x' j f) by (unfold pack; lia). by apply packed_intro.
Qed.

Lemma packed_take w x j x' free : packed w x j free -> 0 <= x' < 2 ^ 30 -> packed (Z.lor x' (Z.land w SIVFS_SLAB_INDEX_MASK)) x' j false.
Proof.
  intros Hp Hx'. rewrite (hr_index_bits _ _ _ _ (packed_reads _ _ _ _ Hp)), lor_disjoint by lia. destruct Hp as [_ Hj _].
  replace (_ + _) with (pack x' j 0) by (unfold pack; lia). by apply packed_intro.
Qed.

Lemma packed_free w x j (head : bool) : packed w x j false ->
  packed (Z.lor (Z.land w (unot SIVFS_ALLOCATION_FLAGS)) (if head then Z.lor SIVFS_FREED_MAGIC SIVFS_LIST_HEAD_FLAG else SIVFS_FREED_MAGIC)) x j true.
Proof.
  intros Hp. rewrite (hr_plain _ _ _ _ (packed_reads _ _ _ _ Hp)). destruct Hp as [Hx Hj _].
  replace (if head then _ else _) with ((if head then magic_head else magic) * 2 ^ 46) by by destruct head.
  rewrite lor_disjoint by lia. replace (_ + _) with (pack x j (if head then magic_head else magic)) by (unfold pack; lia).
  apply packed_intro; [done|done|]. destruct head; [by right|by left].
Qed.

(** ** Writes and the write set *)

Definition write_entry (w : Z * Z) : wse := mk_wse 0 0 w.1 (Single w.2).
Definition apply_writes (l : list (Z * Z)) (m : gmap Z Z) : gmap Z Z := foldl (fun m w => <[w.1 := w.2]> m) m l.

(** The write set holds [es] and has room for [n] more words. *)
Definition ws_has (n : nat) (ws : sivfs_writeset) (es : list wse) : Prop := ws_repr ws es /\ ws_size_bytes ws + 40 * Z.of_nat n < 2 ^ 60.

Definition writable (m : gmap Z Z) (a : Z) : Prop := a mod SIZEOF_WORD = 0 /\ is_Some (m !! a).

Fixpoint write_all (ev : lib_env) (l : list (Z * Z)) : M ulib unit :=
  match l with
  | [] => ret tt
  | w :: l => do! sivfs_write_ws ev w.1 w.2 in write_all ev l
  end.

Definition wrote (l : list (Z * Z)) (ws : sivfs_writeset) (s : ulib) : ulib := mk_ulib (apply_writes l (u_mem s)) ws (u_mstates s) (u_lib s).

Lemma write_cons ev a v k l : (forall s, k s = write_all ev l s) -> forall s, (do! sivfs_write_ws ev a v in k) s = write_all ev ((a, v) :: l) s.
Proof. intros Hk s. cbn [write_all fst snd]. unfold bind. by destruct (sivfs_write_ws ev a v s) as [[] ?]. Qed.

Lemma write_one ev a v s : sivfs_write_ws ev a v s = write_all ev [(a, v)] s.
Proof. cbn [write_all fst snd]. unfold bind. by destruct (sivfs_write_ws ev a v s) as [[[]| | |] ?]. Qed.

Lemma write_all_app ev l k : forall s, write_all ev (l ++ k) s = (do! write_all ev l in write_all ev k) s.
Proof.
  induction l as [|w l IH]; intros s; [done|]. cbn [app write_all]. rewrite bind_assoc. unfold bind. destruct (sivfs_write_ws ev w.1 w.2 s) as [[] ?]; [apply IH|done..].
Qed.

(** A sequence of writes as a list. *)
Ltac as_writes := unfold write_footer, sivfs_write_wsp; repeat (apply write_cons; intros); apply write_one.

Lemma writable_insert m a v b : writable m b -> writable (<[a := v]> m) b.
Proof. intros [Ha Hs]. split; [done|]. rewrite lookup_insert. case_decide; [by eexists|done]. Qed.

Lemma writable_writes l : forall m b, writable m b -> writable (apply_writes l m) b.
Proof. induction l as [|w l IH]; intros m b Hb; [done|]. by apply IH, writable_insert. Qed.

Lemma write_all_ok ev l : forall n s es, ie_mem ev = true -> (forall w, w ∈ l -> writable (u_mem s) w.1) -> ws_has (length l + n) (u_ws s) es ->
  exists ws, write_all ev l s = (Ok tt, wrote l ws s) /\ ws_has n ws (es ++ (write_entry <$> l)).
Proof.
  induction l as [|[a v] l IH]; intros n s es Hev Hw Hws; [exists (u_ws s); split; [by destruct s|by rewrite app_nil_r]|].
  destruct (Hw (a, v) ltac:(left)) as [Ha Hs]. cbn [fst] in Ha, Hs. destruct Hws as [Hr Hn]. cbn [length Nat.add] in Hn. pose proof (repr_size _ _ Hr) as Hsz.
  pose proof (small_ws_enabled (u_ws s) ltac:(lia)) as Hd.
  assert (Hlen : 8 * Z.of_nat (length (encode_wse (write_entry (a, v)))) = 40) by done.
  destruct (add_entry_repr (ie_mem ev) (u_ws s) es (write_entry (a, v)) 40 Hr I Hd ltac:(lia) ltac:(lia)) as [(ws1 & E1 & Hr1)|[Hm _]]; [|congruence].
  set (s1 := mk_ulib (<[a := v]> (u_mem s)) ws1 (u_mstates s) (u_lib s)).
  destruct (IH n s1 (es ++ [write_entry (a, v)]) Hev) as (ws & E & Hws).
  - intros w Hin. apply writable_insert, Hw. by right.
  - split; [done|]. pose proof (repr_size _ _ Hr1) as Hsz1. unfold encode in *. rewrite bind_app, length_app in Hsz1. cbn in Hsz1. cbn [u_ws s1]. lia.
  - exists ws. split; [|by rewrite <- (assoc_L (++)) in Hws]. cbn [write_all fst snd].
    rewrite (bind_step _ _ s tt s1); [exact E|]. unfold sivfs_write_ws. rewrite Ha. cbn [Z.eqb negb]. unfold store. destruct Hs as [v0 Hv0].
    unfold bind. rewrite Hv0. unfold on_wset. cbn [u_ws set_mem]. change [0; 0; a; 0; v] with (encode_wse (write_entry (a, v))). by rewrite E1.
Qed.

(** ** Circular lists *)

(** Neighbours point at each other: the fields of the node of region [x] lie at
    x + 8 (prev) and x + 16 (next). *)
Fixpoint chain (m : gmap Z Z) (l : list Z) : Prop :=
  match l with
  | x :: l' => match l' with y :: _ => m !! (x + 16) = Some (y + 8) /\ m !! (y + 8) = Some (x + 8) | [] => True end /\ chain m l'
  | [] => True
  end.

(** Regions do not overlap. *)
Definition spaced (l : list Z) : Prop := forall x y, x ∈ l -> y ∈ l -> x = y \/ 24 <= Z.abs (x - y).

Lemma chain_app m l x l' : chain m (l ++ x :: l') <-> chain m (l ++ [x]) /\ chain m (x :: l').
Proof.
  induction l as [|y l IH]; [cbn; tauto|]. destruct l as [|z l]; [cbn; tauto|]. cbn [app chain] in *. rewrite IH. tauto.
Qed.

Lemma chain_frame m m' l z : (forall x, x ∈ l -> m' !! (x + 16) = m !! (x + 16)) -> (forall y, y ∈ tail (l ++ [z]) -> m' !! (y + 8) = m !! (y + 8)) ->
  chain m (l ++ [z]) -> chain m' (l ++ [z]).
Proof.
  induction l as [|x l IH]; intros Hn Hp Hc; [done|]. cbn [app tail] in *. destruct Hc as [Hx Hc]. split.
  - destruct (l ++ [z]) as [|y l'] eqn:E; [done|]. destruct Hx as [H1 H2]. rewrite Hn by left. rewrite Hp by left. done.
  - apply IH; [intros; apply Hn; by right| |done]. intros y Hy. apply Hp. destruct (l ++ [z]); [done|]. by right.
Qed.

(** The list starts at the head and comes back to it. *)
Definition ring (m : gmap Z Z) (l : list Z) : Prop := match l with [] => False | h :: t => chain m (h :: t ++ [h]) end.

(** The writes of inserting [x] after the head, and of removing it. *)
Definition add_writes (h x t : Z) : list (Z * Z) := [(x + 16, t + 8); (x + 8, h + 8); (h + 16, x + 8); (t + 8, x + 8)].
Definition remove_writes (p x q : Z) : list (Z * Z) := [(x + 8, 0); (x + 16, 0); (p + 16, q + 8); (q + 8, p + 8)].

Lemma lookup_writes_ne l : forall m a, (forall w, w ∈ l -> w.1 <> a) -> apply_writes l m !! a = m !! a.
Proof.
  induction l as [|w l IH]; intros m a Ha; [done|]. unfold apply_writes in *. cbn [foldl]. rewrite IH by (intros v Hv; apply Ha; by right).
  apply lookup_insert_ne, Ha. left.
Qed.

Lemma apply_writes_app l k m : apply_writes (l ++ k) m = apply_writes k (apply_writes l m).
Proof. apply foldl_app. Qed.

(** Reads after a few writes, by comparing addresses. *)
Ltac read_back := unfold apply_writes; cbn [foldl fst snd]; repeat (rewrite lookup_insert; case_decide; try (exfalso; lia)); first [done | f_equal; lia].

Lemma chain_cons2 m x y l : chain m (x :: y :: l) <-> (m !! (x + 16) = Some (y + 8) /\ m !! (y + 8) = Some (x + 8)) /\ chain m (y :: l).
Proof. done. Qed.

Lemma spaced_apart l x y : spaced l -> x ∈ l -> y ∈ l -> x <> y -> 24 <= Z.abs (x - y).
Proof. intros Hs Hx Hy Hne. by destruct (Hs x y Hx Hy). Qed.

Lemma spaced_sub l l' : spaced l' -> (forall x, x ∈ l -> x ∈ l') -> spaced l.
Proof. intros Hs Hl x y Hx Hy. apply Hs; by apply Hl. Qed.

(** [h :: t ++ [h]] as a first element, and the rest that starts at [q]. *)
Lemma ring_head m h t q r : t ++ [h] = q :: r -> ring m (h :: t) -> m !! (h + 16) = Some (q + 8) /\ m !! (q + 8) = Some (h + 8) /\ chain m (q :: r).
Proof. intros E Hr. cbn [ring] in Hr. rewrite E in Hr. apply chain_cons2 in Hr as [[H1 H2] H3]. done. Qed.

Lemma snoc_split (t : list Z) h : exists q r, t ++ [h] = q :: r /\ q ∈ h :: t /\ (forall y, y ∈ r -> y ∈ h :: t).
Proof.
  destruct t as [|q t]; [exists h, []; split; [done|]; split; [left|by intros y ?%not_elem_of_nil]|]. exists q, (t ++ [h]). split; [done|]. split; [right; left|].
  intros y [Hy|Hy]%elem_of_app; [right; by right|apply list_elem_of_singleton in Hy as ->; left].
Qed.

(** A chain is not changed by writes to the next field of its last element and
    to the prev field of its first. *)
Lemma chain_ends m l a b q r : chain m (q :: r) -> spaced (q :: r) ->
  (forall w, w ∈ l -> w.1 = a + 16 \/ w.1 = b + 8 \/ (forall x, x ∈ q :: r -> w.1 <> x + 8 /\ w.1 <> x + 16)) ->
  (a ∈ q :: r -> exists r', q :: r = r' ++ [a] /\ a ∉ r') -> (b ∈ q :: r -> b = q /\ q ∉ r) -> (a ∈ q :: r \/ forall x, x ∈ q :: r -> 24 <= Z.abs (a - x)) ->
  (b ∈ q :: r \/ forall x, x ∈ q :: r -> 24 <= Z.abs (b - x)) -> chain (apply_writes l m) (q :: r).
Proof.
  intros Hc Hs Hw Ha Hb Ha' Hb'. destruct (@exists_last _ (q :: r)) as (r0 & z & E); [done|]. rewrite E in *.
  assert (Hsep : forall c x, c ∈ r0 ++ [z] \/ (forall x, x ∈ r0 ++ [z] -> 24 <= Z.abs (c - x)) -> x ∈ r0 ++ [z] -> c = x \/ 24 <= Z.abs (c - x)).
  { intros c x [Hc'|Hc'] Hx; [by apply Hs|right; by apply Hc']. }
  apply (chain_frame m); [| |done].
  - intros x Hx. assert (Hin : x ∈ r0 ++ [z]) by (apply elem_of_app; by left). apply lookup_writes_ne. intros w Hwl. destruct (Hw w Hwl) as [-> |[-> |Hn]]; [| |by apply Hn].
    + destruct (Hsep a x Ha' Hin) as [-> |]; [|lia]. destruct (Ha Hin) as (r' & E' & Hna). apply app_inj_2 in E' as [-> _]; [done|done].
    + destruct (Hsep b x Hb' Hin) as [-> |]; lia.
  - intros x Hx. assert (Hxr : x ∈ r) by by rewrite <- E in Hx. assert (Hin : x ∈ r0 ++ [z]) by (rewrite <- E; by right). apply lookup_writes_ne. intros w Hwl. destruct (Hw w Hwl) as [-> |[-> |Hn]]; [| |by apply Hn].
    + destruct (Hsep a x Ha' Hin) as [-> |]; lia.
    + destruct (Hsep b x Hb' Hin) as [-> |]; [|lia]. by destruct (Hb Hin) as [-> Hnq].
Qed.

Lemma ring_add m h t x q r : NoDup (x :: h :: t) -> spaced (x :: h :: t) -> t ++ [h] = q :: r -> ring m (h :: t) -> ring (apply_writes (add_writes h x q) m) (h :: x :: t).
Proof.
  intros Hnd Hs E Hr. destruct (ring_head m h t q r E Hr) as (_ & _ & Hc). cbn [ring app]. rewrite E.
  apply NoDup_cons in Hnd as [Hx Hnd]. destruct (snoc_split t h) as (q' & r' & E' & Hq & Hr'). rewrite E in E'. injection E' as <- <-.
  assert (Hxh : 24 <= Z.abs (x - h)) by (apply (spaced_apart _ _ _ Hs); [left|right; left|intros ->; apply Hx; left]).
  assert (Hxy : forall y, y ∈ h :: t -> 24 <= Z.abs (x - y)) by (intros y Hy; apply (spaced_apart _ _ _ Hs); [left|by right|by intros ->]).
  pose proof (Hxy q Hq) as Hxq. assert (Hhq : h = q \/ 24 <= Z.abs (h - q)) by (apply Hs; [right; left|by right]).
  assert (Hall : forall y, y ∈ q :: r -> y ∈ h :: t) by (intros y [-> |Hy]%elem_of_cons; [done|by apply Hr']).
  rewrite !chain_cons2. split; [split; unfold add_writes; read_back|]. split; [split; unfold add_writes; read_back|].
  apply (chain_ends m _ h q); [done| | | | | |].
  - apply (spaced_sub _ _ Hs). intros y Hy. right. by apply Hall.
  - intros w [-> |[-> |[-> |[-> |[]%not_elem_of_nil]%elem_of_cons]%elem_of_cons]%elem_of_cons]%elem_of_cons; cbn [fst].
    + right; right. intros y Hy%Hall%Hxy. lia.
    + right; right. intros y Hy%Hall%Hxy. lia.
    + by left.
    + right; by left.
  - intros _. exists t. split; [done|]. by apply NoDup_cons in Hnd as [? _].
  - intros _. split; [done|]. apply NoDup_cons in Hnd as [Hh Hnd]. destruct t as [|q' t]; injection E as <- <-; [by apply not_elem_of_nil|].
    apply NoDup_cons in Hnd as [Hq' _]. intros [?|Hy]%elem_of_app; [done|]. apply list_elem_of_singleton in Hy as ->. apply Hh. left.
  - left. destruct t; injection E as <- <-; [left|]. right. apply elem_of_app. right. left.
  - left. left.
Qed.

Lemma ring_remove m h pre x post a p q b : NoDup (h :: pre ++ x :: post) -> spaced (h :: pre ++ x :: post) ->
  h :: pre = a ++ [p] -> post ++ [h] = q :: b -> ring m (h :: pre ++ x :: post) ->
  m !! (x + 8) = Some (p + 8) /\ m !! (x + 16) = Some (q + 8) /\ ring (apply_writes (remove_writes p x q) m) (h :: pre ++ post).
Proof.
  intros Hnd Hs Ep Eq Hr. assert (El : h :: (pre ++ x :: post) ++ [h] = a ++ p :: x :: q :: b).
  { rewrite <- (assoc_L (++)). cbn [app]. rewrite Eq, app_comm_cons, Ep, <- (assoc_L (++)). done. }
  cbn [ring] in Hr. rewrite El in Hr. apply chain_app in Hr as [Hc1 Hr]. apply chain_cons2 in Hr as [[H1 H2] Hr]. apply chain_cons2 in Hr as [[H3 H4] Hc2].
  split; [done|]. split; [done|]. cbn [ring]. assert (El' : h :: (pre ++ post) ++ [h] = a ++ p :: q :: b).
  { rewrite <- (assoc_L (++)), Eq, app_comm_cons, Ep, <- (assoc_L (++)). done. }
  rewrite El'. clear El El'. rewrite app_comm_cons, Ep in Hnd, Hs.
  assert (Hin1 : forall y, y ∈ a ++ [p] -> y ∈ (a ++ [p]) ++ x :: post) by (intros y Hy; apply elem_of_app; by left).
  assert (Hh : h ∈ a ++ [p]) by (rewrite <- Ep; left).
  assert (Hin2 : forall y, y ∈ q :: b -> y ∈ (a ++ [p]) ++ x :: post).
  { rewrite <- Eq. intros y [Hy|Hy]%elem_of_app; [apply elem_of_app; right; by right|]. apply list_elem_of_singleton in Hy as ->. by apply Hin1. }
  apply NoDup_app in Hnd as (Hn1 & Hn2 & Hn3). apply NoDup_cons in Hn3 as [Hx Hn3].
  assert (Hxin : x ∈ (a ++ [p]) ++ x :: post) by (apply elem_of_app; right; left).
  assert (Hx1 : forall y, y ∈ a ++ [p] -> 24 <= Z.abs (x - y)).
  { intros y Hy. apply (spaced_apart _ _ _ Hs); [done|by apply Hin1|]. intros ->. by apply (Hn2 y Hy); left. }
  assert (Hx2 : forall y, y ∈ q :: b -> 24 <= Z.abs (x - y)).
  { intros y Hy. apply (spaced_apart _ _ _ Hs); [done|by apply Hin2|]. intros ->. rewrite <- Eq in Hy. apply elem_of_app in Hy as [Hy|Hy]; [done|].
    apply list_elem_of_singleton in Hy as ->. by apply (Hn2 h Hh); left. }
  assert (Hpin : p ∈ a ++ [p]) by (apply elem_of_app; right; left). assert (Hqin : q ∈ q :: b) by left.
  pose proof (Hx1 p Hpin) as Hxp. pose proof (Hx2 q Hqin) as Hxq.
  assert (Hpq : p = q \/ 24 <= Z.abs (p - q)) by (apply Hs; [by apply Hin1|by apply Hin2]).
  assert (Hw : forall l : list Z, (forall y, y ∈ l -> 24 <= Z.abs (x - y)) -> forall w, w ∈ remove_writes p x q ->
    w.1 = p + 16 \/ w.1 = q + 8 \/ (forall y, y ∈ l -> w.1 <> y + 8 /\ w.1 <> y + 16)).
  { intros l Hl w [-> |[-> |[-> |[-> |[]%not_elem_of_nil]%elem_of_cons]%elem_of_cons]%elem_of_cons]%elem_of_cons; cbn [fst].
    - right; right. intros y Hy%Hl. lia.
    - right; right. intros y Hy%Hl. lia.
    - by left.
    - right; by left. }
  assert (Hpost : forall y, y ∈ post ++ [h] -> y ∈ post \/ y = h) by (intros y [?|?%list_elem_of_singleton]%elem_of_app; [by left|by right]).
  assert (Hnp : forall y, y ∈ a ++ [p] -> y ∉ post) by (intros y Hy Hin; apply (Hn2 y Hy); by right).
  assert (Hapart : forall c (l : list Z), c ∈ (a ++ [p]) ++ x :: post -> (forall y, y ∈ l -> y ∈ (a ++ [p]) ++ x :: post) -> c ∈ l \/ forall y, y ∈ l -> 24 <= Z.abs (c - y)).
  { intros c l Hc Hl. destruct (decide (c ∈ l)) as [|Hn]; [by left|right]. intros y Hy. apply (spaced_apart _ _ _ Hs); [done|by apply Hl|]. intros ->. done. }
  apply chain_app. split; [|apply chain_cons2; split; [split; unfold remove_writes; read_back|]].
  - rewrite <- Ep in *. apply (chain_ends m _ p q); [done|by apply (spaced_sub _ _ Hs)|by apply Hw| | |apply Hapart; [by apply Hin1|done]|apply Hapart; [by apply Hin2|done]].
    + intros _. exists a. split; [done|]. rewrite Ep in Hn1. apply NoDup_app in Hn1 as (_ & Hn1 & _). intros Hp. by apply (Hn1 p Hp), list_elem_of_singleton.
    + intros Hq. assert (q = h) as ->; [|split; [done|by apply NoDup_cons in Hn1 as [? _]]]. destruct (Hpost q) as [Hq'|]; [rewrite Eq; left| |done]. by destruct (Hnp q Hq).
  - apply (chain_ends m _ p q); [done|by apply (spaced_sub _ _ Hs)|by apply Hw| | |apply Hapart; [by apply Hin1|done]|apply Hapart; [by apply Hin2|done]].
    + intros Hp. rewrite <- Eq in Hp |- *. destruct (Hpost p Hp) as [Hp'| ->]; [by destruct (Hnp p Hpin)|]. exists post. split; [done|]. by apply Hnp.
    + intros _. split; [done|]. destruct post as [|q' post]; injection Eq as <- <-; [by apply not_elem_of_nil|]. apply NoDup_cons in Hn3 as [Hq' _].
      intros [?|Hy]%elem_of_app; [done|]. apply list_elem_of_singleton in Hy as ->. apply (Hnp h Hh). left.
Qed.

(** ** Blocks, elements and free lists *)

(** A slab: the size of its elements, which of them are allocated, and whether
    the last one still has the whole rest of the slab as its recorded size. *)
Record slab : Type := mk_slab {
  sl_elt : Z;
  sl_used : list bool;
  sl_uncut : bool
}.
(** A block of the file; one without a slab is a single object. *)
Record ublock : Type := mk_ublock {
  bk_size : Z;
  bk_tag : Z;
  bk_slab : option slab
}.
(** The free lists, by slot, as lists of regions; the head first. *)
Record uheap : Type := mk_uheap {
  h_blocks : gmap Z ublock;
  h_lists : gmap Z (list Z)
}.

Definition elt_addr (b : Z) (sl : slab) (j : nat) : Z := b + 8 + Z.of_nat j * sl_elt sl.
Definition elt_size (n : Z) (sl : slab) (j : nat) : Z :=
  if sl_uncut sl && (S j =? length (sl_used sl))%nat then n - 24 - Z.of_nat j * sl_elt sl else sl_elt sl.

(** The size of the elements of bin [i]. *)
Record class (e i : Z) : Prop := {
  cl_bin : sivfs_allocator_bins_get_bin e = Ok (Some (e, i));
  cl_size : 24 <= e < 2 ^ 14;
  cl_align : e mod SIZEOF_WORD = 0;
  cl_index : 0 <= i < SIVFS_ALLOCATOR_NBINS
}.

Record block_geometry (b : Z) (k : ublock) : Prop := {
  bg_start : 0 < b /\ b mod SIZEOF_WORD = 0;
  bg_size : 40 <= bk_size k < 2 ^ 46 /\ bk_size k mod SIZEOF_WORD = 0;
  bg_slab : forall sl, bk_slab k = Some sl -> bk_size k < 2 ^ 20 /\ (exists i, class (sl_elt sl) i) /\ sl_used sl <> [] /\
    24 + Z.of_nat (length (sl_used sl)) * sl_elt sl <= bk_size k /\ (sl_uncut sl = true -> last (sl_used sl) = Some false)
}.

(** The header, the footer and the headers of the elements. *)
Record block_words (m : gmap Z Z) (b : Z) (k : ublock) : Prop := {
  bw_mapped : forall a, b <= a < b + bk_size k -> a mod SIZEOF_WORD = 0 -> is_Some (m !! a);
  bw_head : m !! b = Some (match bk_slab k with Some _ => bk_size k | None => Z.lor (bk_size k) SIVFS_BIG_ALLOCATION_FLAG end);
  bw_tag : m !! (b + bk_size k - 16) = Some (bk_tag k);
  bw_foot : m !! (b + bk_size k - 8) = Some (bk_size k);
  bw_elts : forall sl j u, bk_slab k = Some sl -> sl_used sl !! j = Some u ->
    exists w, m !! elt_addr b sl j = Some w /\ packed w (elt_size (bk_size k) sl j) (Z.of_nat j) (negb u)
}.

Definition region_at (B : gmap Z ublock) (r b : Z) (k : ublock) (sl : slab) (j : nat) (u : bool) : Prop :=
  B !! b = Some k /\ bk_slab k = Some sl /\ sl_used sl !! j = Some u /\ r = elt_addr b sl j.

Record geometry (B : gmap Z ublock) : Prop := {
  ge_block : forall b k, B !! b = Some k -> block_geometry b k;
  ge_disjoint : forall b k b' k', B !! b = Some k -> B !! b' = Some k' -> b <> b' -> b + bk_size k <= b' \/ b' + bk_size k' <= b
}.

(** A free list: its regions are free and of its class. *)
Record list_ok (B : gmap Z ublock) (m : gmap Z Z) (slot : Z) (l : list Z) : Prop := {
  lo_nodup : NoDup l;
  lo_ring : ring m l;
  lo_free : forall r, r ∈ l -> exists b k sl j, region_at B r b k sl j false /\ class (sl_elt sl) (slot mod 64)
}.

Record heap_words (m : gmap Z Z) (H : uheap) : Prop := {
  hw_geometry : geometry (h_blocks H);
  hw_words : forall b k, h_blocks H !! b = Some k -> block_words m b k;
  hw_lists : forall slot l, h_lists H !! slot = Some l -> list_ok (h_blocks H) m slot l;
  hw_apart : forall s1 s2 l1 l2 r, h_lists H !! s1 = Some l1 -> h_lists H !! s2 = Some l2 -> r ∈ l1 -> r ∈ l2 -> s1 = s2
}.

Lemma region_block (B : gmap Z ublock) r b k sl j u : geometry B -> region_at B r b k sl j u ->
  b + 8 <= r /\ r + 24 <= b + bk_size k - 16 /\ r mod SIZEOF_WORD = 0 /\ 24 <= sl_elt sl < 2 ^ 14 /\ r + sl_elt sl <= b + bk_size k - 16 /\ bk_size k < 2 ^ 20.
Proof.
  intros [Hg _] (Hb & Hs & Hj & ->). destruct (Hg _ _ Hb) as [[Hb0 Hba] _ Hsl]. destruct (Hsl _ Hs) as (Hn & (i & [_ He Hea _]) & _ & Hroom & _).
  apply lookup_lt_Some in Hj. unfold elt_addr, SIZEOF_WORD in *. split; [nia|]. split; [nia|]. split; [|split; [done|]; split; [nia|done]].
  apply Z.mod_divide in Hea as [e Hea]; [|done]. apply Z.mod_divide in Hba as [c Hba]; [|done]. rewrite Hea, Hba.
  replace (c * 8 + 8 + Z.of_nat j * (e * 8)) with ((c + 1 + Z.of_nat j * e) * 8) by lia. by apply Z.mod_mul.
Qed.

Lemma regions_disjoint (B : gmap Z ublock) r b k sl j u r' b' k' sl' j' u' : geometry B -> region_at B r b k sl j u -> region_at B r' b' k' sl' j' u' ->
  (b = b' /\ k = k' /\ sl = sl' /\ j = j' /\ u = u' /\ r = r') \/ r + sl_elt sl <= r' \/ r' + sl_elt sl' <= r.
Proof.
  intros Hg Hr Hr'. pose proof (region_block _ _ _ _ _ _ _ Hg Hr) as H1. pose proof (region_block _ _ _ _ _ _ _ Hg Hr') as H2.
  destruct Hr as (Hb & Hs & Hj & E), Hr' as (Hb' & Hs' & Hj' & E'). destruct (decide (b = b')) as [<-|Hne].
  - rewrite Hb in Hb'. injection Hb' as <-. rewrite Hs in Hs'. injection Hs' as <-. destruct (decide (j = j')) as [<-|Hnj]; [left; split_and!; congruence|right].
    unfold elt_addr in *. nia.
  - destruct (ge_disjoint _ Hg _ _ _ _ Hb Hb' Hne); right; lia.
Qed.

Lemma regions_apart (B : gmap Z ublock) r b k sl j u r' b' k' sl' j' u' : geometry B -> region_at B r b k sl j u -> region_at B r' b' k' sl' j' u' ->
  (b = b' /\ k = k' /\ sl = sl' /\ j = j' /\ u = u' /\ r = r') \/ 24 <= Z.abs (r - r').
Proof.
  intros Hg Hr Hr'. pose proof (region_block _ _ _ _ _ _ _ Hg Hr) as H1. pose proof (region_block _ _ _ _ _ _ _ Hg Hr') as H2.
  destruct (regions_disjoint _ _ _ _ _ _ _ _ _ _ _ _ _ Hg Hr Hr') as [?|[]]; [by left|right; lia..].
Qed.

Lemma list_spaced (B : gmap Z ublock) m slot l : geometry B -> list_ok B m slot l -> spaced l.
Proof.
  intros Hg Hl x y Hx Hy. destruct (lo_free _ _ _ _ Hl x Hx) as (b & k & sl & j & Hr & _), (lo_free _ _ _ _ Hl y Hy) as (b' & k' & sl' & j' & Hr' & _).
  destruct (regions_apart _ _ _ _ _ _ _ _ _ _ _ _ _ Hg Hr Hr') as [(_ & _ & _ & _ & _ & ->)|]; [by left|by right].
Qed.

(** ** Framing *)

Definition placed (B : gmap Z ublock) (r : Z) : Prop := exists b k sl j u, region_at B r b k sl j u.
Definition blocks_in (B : gmap Z ublock) (m : gmap Z Z) : Prop := geometry B /\ forall b k, B !! b = Some k -> block_words m b k.

(** The writes change links of regions in [R] only. *)
Definition link_writes (R : list Z) (l : list (Z * Z)) : Prop := forall w, w ∈ l -> exists r, r ∈ R /\ (w.1 = r + 8 \/ w.1 = r + 16).

Lemma list_ok_placed (B : gmap Z ublock) m slot l r : list_ok B m slot l -> r ∈ l -> placed B r.
Proof. intros Hl Hr. destruct (lo_free _ _ _ _ Hl r Hr) as (b & k & sl & j & Hat & _). by exists b, k, sl, j, false. Qed.

Lemma placed_apart B x y : geometry B -> placed B x -> placed B y -> x = y \/ 24 <= Z.abs (x - y).
Proof.
  intros Hg (b & k & sl & j & u & Hx) (b' & k' & sl' & j' & u' & Hy).
  destruct (regions_apart _ _ _ _ _ _ _ _ _ _ _ _ _ Hg Hx Hy) as [(_ & _ & _ & _ & _ & ->)|]; [by left|by right].
Qed.

(** A region has no word in common with the header or the footer of a block. *)
Lemma placed_header B r b k : geometry B -> placed B r -> B !! b = Some k -> (b + 8 <= r /\ r + 24 <= b + bk_size k - 16) \/ r + 24 <= b \/ b + bk_size k <= r.
Proof.
  intros Hg (b' & k' & sl & j & u & Hr) Hb. pose proof (region_block _ _ _ _ _ _ _ Hg Hr) as Hin. destruct Hr as (Hb' & _).
  destruct (decide (b = b')) as [<-|Hne]; [left; rewrite Hb in Hb'; injection Hb' as <-; lia|right].
  destruct (ge_disjoint _ Hg _ _ _ _ Hb Hb' Hne); lia.
Qed.

Lemma block_frame m m' b k : block_words m b k -> (forall a, is_Some (m !! a) -> is_Some (m' !! a)) ->
  (forall a, a = b \/ a = b + bk_size k - 16 \/ a = b + bk_size k - 8 -> m' !! a = m !! a) ->
  (forall sl j, bk_slab k = Some sl -> (j < length (sl_used sl))%nat -> m' !! elt_addr b sl j = m !! elt_addr b sl j) -> block_words m' b k.
Proof.
  intros [Wm Wh Wt Wf We] Hs Hh He. split; [intros a H1 H2; by apply Hs, Wm| | | |].
  - rewrite Hh by auto. done.
  - rewrite Hh by auto. done.
  - rewrite Hh by auto. done.
  - intros sl j u Hsl Hj. rewrite (He sl j Hsl) by by eapply lookup_lt_Some. by apply (We sl j u).
Qed.

Lemma is_Some_writes l : forall m a, is_Some (m !! a) -> is_Some (apply_writes l m !! a).
Proof.
  induction l as [|w l IH]; intros m a Ha; [done|]. unfold apply_writes in *. cbn [foldl]. apply IH. rewrite lookup_insert. case_decide; [by eexists|done].
Qed.

Lemma links_blocks B m R l : blocks_in B m -> (forall r, r ∈ R -> placed B r) -> link_writes R l -> blocks_in B (apply_writes l m).
Proof.
  intros [Hg Hw] HR Hl. split; [done|]. intros b k Hb. apply (block_frame m); [by apply Hw|intros a; apply is_Some_writes| |].
  - intros a Ha. apply lookup_writes_ne. intros w Hin E. destruct (Hl w Hin) as (r & Hr & Hwr).
    pose proof (bg_size _ _ (ge_block _ Hg _ _ Hb)). destruct (placed_header B r b k Hg (HR r Hr) Hb); lia.
  - intros sl j Hsl Hj. apply lookup_writes_ne. intros w Hin E. destruct (Hl w Hin) as (r & Hr & Hwr).
    apply lookup_lt_is_Some in Hj as [u Hu]. destruct (placed_apart B r (elt_addr b sl j) Hg (HR r Hr)) as [->|]; [by exists b, k, sl, j, u|lia|lia].
Qed.

Lemma ring_frame m m' l : (forall x, x ∈ l -> m' !! (x + 8) = m !! (x + 8) /\ m' !! (x + 16) = m !! (x + 16)) -> ring m l -> ring m' l.
Proof.
  intros Hf. destruct l as [|h t]; [done|]. cbn [ring]. rewrite app_comm_cons. apply chain_frame.
  - intros x Hx. by apply Hf.
  - cbn [app tail]. intros y [Hy|Hy]%elem_of_app; apply Hf; [by right|]. apply list_elem_of_singleton in Hy as ->. left.
Qed.

Lemma links_ring B m R l c : geometry B -> (forall r, r ∈ R -> placed B r) -> (forall r, r ∈ c -> placed B r) -> (forall r, r ∈ R -> r ∉ c) ->
  link_writes R l -> ring m c -> ring (apply_writes l m) c.
Proof.
  intros Hg HR Hc Hdisj Hl. apply ring_frame. intros x Hx.
  split; apply lookup_writes_ne; intros w Hin E; destruct (Hl w Hin) as (r & Hr & Hwr);
    (destruct (placed_apart B r x Hg (HR r Hr) (Hc x Hx)) as [->|]; [by apply (Hdisj x)|lia]).
Qed.

Lemma header_ring B m r w c : geometry B -> placed B r -> (forall x, x ∈ c -> placed B x) -> ring m c -> ring (<[r := w]> m) c.
Proof. intros Hg Hr Hc. apply ring_frame. intros x Hx. destruct (placed_apart B r x Hg Hr (Hc x Hx)) as [->|]; rewrite !lookup_insert_ne by lia; done. Qed.

(** Changing the header of one element and the record of its slab. *)
Lemma blocks_update B m b k sl sl' r w : blocks_in B m -> B !! b = Some k -> bk_slab k = Some sl -> sl_elt sl' = sl_elt sl ->
  block_geometry b (mk_ublock (bk_size k) (bk_tag k) (Some sl')) -> placed (<[b := mk_ublock (bk_size k) (bk_tag k) (Some sl')]> B) r -> writable m r ->
  b <= r < b + bk_size k ->
  (forall j u, sl_used sl' !! j = Some u -> (elt_addr b sl' j = r /\ packed w (elt_size (bk_size k) sl' j) (Z.of_nat j) (negb u)) \/
     (elt_addr b sl' j <> r /\ sl_used sl !! j = Some u /\ elt_size (bk_size k) sl' j = elt_size (bk_size k) sl j)) ->
  blocks_in (<[b := mk_ublock (bk_size k) (bk_tag k) (Some sl')]> B) (<[r := w]> m).
Proof.
  intros [Hg Hw] Hb Hsl He Hk Hpl [_ Hrs] Hr Hall. set (k' := mk_ublock _ _ _) in *.
  assert (Hg' : geometry (<[b := k']> B)).
  { split.
    - intros b' k2. rewrite lookup_insert. case_decide; [subst b'; by intros [= <-]|apply Hg].
    - assert (Hd : forall b1 k1, B !! b1 = Some k1 -> b <> b1 -> b + bk_size k <= b1 \/ b1 + bk_size k1 <= b) by (intros; by apply (ge_disjoint _ Hg b k)).
      intros b1 k1 b2 k2. rewrite !lookup_insert. do 2 case_decide; subst; [intros _ _ []; done|intros [= <-] H2 Hne; by apply Hd|intros H1 [= <-] Hne; destruct (Hd _ _ H1 (not_eq_sym Hne)); [by right|by left]|apply (ge_disjoint _ Hg)]. }
  assert (Hmono : forall a, is_Some (m !! a) -> is_Some (<[r := w]> m !! a)) by (intros a Ha; rewrite lookup_insert; case_decide; [by eexists|done]).
  split; [done|]. intros b' k2 Hb'. pose proof Hb' as Hb2. rewrite lookup_insert in Hb'.
  assert (Hne : forall a, a = b' \/ a = b' + bk_size k2 - 16 \/ a = b' + bk_size k2 - 8 -> r <> a).
  { intros a Ha ->. pose proof (bg_size _ _ (ge_block _ Hg' _ _ Hb2)). destruct (placed_header _ a b' k2 Hg' Hpl Hb2); lia. }
  case_decide as E.
  - subst b'. injection Hb' as <-. destruct (Hw _ _ Hb) as [Wm Wh Wt Wf We]. rewrite Hsl in Wh. split; cbn [bk_size bk_tag bk_slab k'] in *.
    + intros a H1 H2. by apply Hmono, Wm.
    + rewrite lookup_insert_ne by (apply Hne; auto). done.
    + rewrite lookup_insert_ne by (apply Hne; auto). done.
    + rewrite lookup_insert_ne by (apply Hne; auto). done.
    + intros sl2 j u [= <-] Hj. destruct (Hall j u Hj) as [(<- & Hp)|(Hn & Hj' & Hes)].
      * exists w. by rewrite lookup_insert_eq.
      * rewrite lookup_insert_ne by done. rewrite Hes. unfold elt_addr. rewrite He. by apply (We sl j u).
  - apply (block_frame m); [by apply Hw|done|intros a Ha; by apply lookup_insert_ne, Hne|].
    intros sl2 j Hs2 Hj. apply lookup_insert_ne. apply lookup_lt_is_Some in Hj as [u Hu].
    pose proof (region_block _ _ b' k2 sl2 j u Hg' (conj Hb2 (conj Hs2 (conj Hu eq_refl)))) as Hin. destruct (ge_disjoint _ Hg _ _ _ _ Hb Hb' E); lia.
Qed.

(** ** Objects *)

(** The object at [p] has [n] bytes for its user. *)
Definition live (B : gmap Z ublock) (p n : Z) : Prop :=
  (exists r b k sl j, region_at B r b k sl j true /\ p = r + 8 /\ n = sl_elt sl - 8) \/
  (exists b k, B !! b = Some k /\ bk_slab k = None /\ p = b + 8 /\ n = bk_size k - 24).

Definition contents_kept (B : gmap Z ublock) (m m' : gmap Z Z) : Prop := forall p n a, live B p n -> p <= a < p + n -> m' !! a = m !! a.

Lemma live_in_block B p n : geometry B -> live B p n -> exists b k, B !! b = Some k /\ b + 16 <= p + (if bk_slab k then 0 else 8) /\ p + n <= b + bk_size k - 16 /\ 8 <= n.
Proof.
  intros Hg [(r & b & k & sl & j & Hr & -> & ->)|(b & k & Hb & Hs & -> & ->)].
  - pose proof (region_block _ _ _ _ _ _ _ Hg Hr). destruct Hr as (Hb & Hs & _). exists b, k. rewrite Hs. split; [done|lia].
  - exists b, k. rewrite Hs. pose proof (bg_size _ _ (ge_block _ Hg _ _ Hb)). split; [done|]. unfold SIZEOF_WORD in *. lia.
Qed.

(** Objects do not overlap. *)
Lemma live_disjoint B p n p' n' : geometry B -> live B p n -> live B p' n' -> (p = p' /\ n = n') \/ p + n <= p' \/ p' + n' <= p.
Proof.
  intros Hg Hl Hl'. destruct Hl as [(r & b & k & sl & j & Hr & -> & ->)|(b & k & Hb & Hs & -> & ->)], Hl' as [(r' & b' & k' & sl' & j' & Hr' & -> & ->)|(b' & k' & Hb' & Hs' & -> & ->)].
  - destruct (regions_disjoint _ _ _ _ _ _ _ _ _ _ _ _ _ Hg Hr Hr') as [(_ & _ & -> & _ & _ & ->)|[]]; [by left|right; lia..].
  - pose proof (region_block _ _ _ _ _ _ _ Hg Hr). destruct Hr as (Hb & Hs & _). destruct (decide (b = b')) as [->|Hne]; [congruence|].
    pose proof (bg_size _ _ (ge_block _ Hg _ _ Hb')). destruct (ge_disjoint _ Hg _ _ _ _ Hb Hb' Hne); right; lia.
  - pose proof (region_block _ _ _ _ _ _ _ Hg Hr'). destruct Hr' as (Hb' & Hs' & _). destruct (decide (b = b')) as [->|Hne]; [congruence|].
    pose proof (bg_size _ _ (ge_block _ Hg _ _ Hb)). destruct (ge_disjoint _ Hg _ _ _ _ Hb Hb' Hne); right; lia.
  - destruct (decide (b = b')) as [->|Hne]; [left; split; congruence|].
    pose proof (bg_size _ _ (ge_block _ Hg _ _ Hb)). pose proof (bg_size _ _ (ge_block _ Hg _ _ Hb')). destruct (ge_disjoint _ Hg _ _ _ _ Hb Hb' Hne); right; lia.
Qed.

(** The allocator only writes headers of elements and links of free ones. *)
Definition own_write (B : gmap Z ublock) (w : Z * Z) : Prop :=
  exists r b k sl j u, region_at B r b k sl j u /\ (w.1 = r \/ (u = false /\ (w.1 = r + 8 \/ w.1 = r + 16))).

Lemma own_writes_keep B m l : geometry B -> (forall w, w ∈ l -> own_write B w) -> contents_kept B m (apply_writes l m).
Proof.
  intros Hg Hl p n a Hlive Ha. apply lookup_writes_ne. intros w Hw E. destruct (Hl w Hw) as (r & b & k & sl & j & u & Hr & Hwr).
  pose proof (region_block _ _ _ _ _ _ _ Hg Hr) as Hin. destruct Hlive as [(r' & b' & k' & sl' & j' & Hr' & -> & ->)|(b' & k' & Hb' & Hs' & -> & ->)].
  - destruct (regions_disjoint _ _ _ _ _ _ _ _ _ _ _ _ _ Hg Hr Hr') as [(_ & _ & <- & _ & -> & <-)|[]]; [|lia..]. destruct Hwr as [|[]]; [lia|done].
  - destruct Hr as (Hb & Hs & _). destruct (decide (b = b')) as [->|Hne]; [congruence|]. destruct (ge_disjoint _ Hg _ _ _ _ Hb Hb' Hne); lia.
Qed.

Lemma contents_kept_trans B B' m1 m2 m3 : (forall p n, live B p n -> live B' p n) -> contents_kept B m1 m2 -> contents_kept B' m2 m3 -> contents_kept B m1 m3.
Proof. intros Hl H1 H2 p n a Hp Ha. rewrite (H2 p n a (Hl _ _ Hp) Ha). by apply (H1 p n). Qed.
