(* ===== verification/UserSlab.v ===== *)
(** What the allocator does to a well-formed heap, in terms of blocks and lists:
    cutting a region off a slab, taking one out of its list, putting one back,
    adding a block (lib/sivfs_allocator.h). *)
From S2P Require Import Prelude Types Stack Writeset UserBins UserAlloc UserHeap.

#[local] Arguments Nat.eqb : simpl never.

(** ** Changes of a slab *)

Definition with_slab (sl : slab) (k : ublock) : ublock := mk_ublock (bk_size k) (bk_tag k) (Some sl).
Definition mark_slab (sl : slab) (j : nat) (u : bool) : slab :=
  mk_slab (sl_elt sl) (<[j := u]> (sl_used sl)) (sl_uncut sl && negb (S j =? length (sl_used sl))%nat).
Definition cut_slab (sl : slab) : slab := mk_slab (sl_elt sl) (sl_used sl ++ [false]) true.

Lemma writable_in m b k a : block_words m b k -> b <= a < b + bk_size k -> a mod SIZEOF_WORD = 0 -> writable m a.
Proof. intros Hw Ha Hm. split; [done|]. by apply (bw_mapped _ _ _ Hw). Qed.

Lemma region_with_slab (B : gmap Z ublock) b k sl sl' r b' k' s' j' u' : B !! b = Some k -> bk_slab k = Some sl -> sl_elt sl' = sl_elt sl ->
  region_at B r b' k' s' j' u' -> (b' = b -> is_Some (sl_used sl' !! j')) ->
  exists k2 s2 u2, region_at (<[b := with_slab sl' k]> B) r b' k2 s2 j' u2 /\ sl_elt s2 = sl_elt s' /\ (b' <> b -> u2 = u') /\ (b' = b -> sl_used sl' !! j' = Some u2).
Proof.
  intros Hb Hs He (Hb' & Hs' & Hj' & ->) Hin. destruct (decide (b' = b)) as [->|Hne].
  - rewrite Hb in Hb'. injection Hb' as <-. rewrite Hs in Hs'. injection Hs' as <-. destruct (Hin eq_refl) as [u2 Hu2]. exists (with_slab sl' k), sl', u2.
    split; [|done]. split; [apply lookup_insert_eq|]. split; [done|]. split; [done|]. unfold elt_addr. by rewrite He.
  - exists k', s', u'. split; [|done]. split; [by rewrite lookup_insert_ne|done].
Qed.

(** Marking element [j] as allocated or free. *)
Lemma mark_blocks B m x b k sl j u0 u w : blocks_in B m -> region_at B x b k sl j u0 -> packed w (sl_elt sl) (Z.of_nat j) (negb u) ->
  (u = true \/ elt_size (bk_size k) sl j = sl_elt sl) -> (u0 = true -> sl_uncut sl = true -> S j <> length (sl_used sl)) ->
  blocks_in (<[b := with_slab (mark_slab sl j u) k]> B) (<[x := w]> m) /\ region_at (<[b := with_slab (mark_slab sl j u) k]> B) x b (with_slab (mark_slab sl j u) k) (mark_slab sl j u) j u.
Proof.
  intros Hbl Hr Hp Hsz Hunc. pose proof Hbl as [Hg Hw]. pose proof (region_block _ _ _ _ _ _ _ Hg Hr) as Hin. destruct Hr as (Hb & Hs & Hj & E).
  pose proof (lookup_lt_Some _ _ _ Hj) as Hlt.
  assert (Hr' : region_at (<[b := with_slab (mark_slab sl j u) k]> B) x b (with_slab (mark_slab sl j u) k) (mark_slab sl j u) j u).
  { split; [apply lookup_insert_eq|]. split; [done|]. split; [by apply list_lookup_insert_eq|done]. }
  split; [|done]. apply (blocks_update B m b k sl (mark_slab sl j u) x w); try done.
  - destruct (ge_block _ Hg _ _ Hb) as [H1 H2 H3]. split; [done|done|]. cbn. intros sl2 [= <-]. destruct (H3 _ Hs) as (Hn & Hc & Hne & Hroom & Hlast). cbn. rewrite length_insert.
    split; [done|]. split; [done|]. split; [by intros E0%(f_equal length); rewrite length_insert in E0; destruct (sl_used sl)|]. split; [done|].
    intros [Hun Hl]%andb_true_iff. specialize (Hlast Hun). apply negb_true_iff, Nat.eqb_neq in Hl. rewrite last_lookup, length_insert in *. rewrite list_lookup_insert_ne by lia. done.
  - by exists b, (with_slab (mark_slab sl j u) k), (mark_slab sl j u), j, u.
  - apply (writable_in m b k); [by apply Hw|lia|by apply Hin].
  - lia.
  - intros i v Hi. destruct (decide (i = j)) as [->|Hne].
    + left. split; [done|]. cbn in Hi. rewrite list_lookup_insert_eq in Hi by done. injection Hi as <-. unfold elt_size. cbn. rewrite length_insert.
      replace (_ && _ && _) with false; [done|]. by destruct (sl_uncut sl), (S j =? length (sl_used sl))%nat.
    + right. cbn in Hi. rewrite list_lookup_insert_ne in Hi by done. split; [|split; [done|]].
      * unfold elt_addr. cbn. rewrite E. unfold elt_addr. nia.
      * unfold elt_size. cbn. rewrite length_insert. destruct (Nat.eqb_spec (S i) (length (sl_used sl))); [|by rewrite !andb_false_r]. rewrite !andb_true_r.
        destruct (Nat.eqb_spec (S j) (length (sl_used sl))); [lia|]. by rewrite andb_true_r.
Qed.

Lemma big_enough n sl j : 24 <= sl_elt sl -> 2 * sl_elt sl <= elt_size n sl j -> sl_uncut sl = true /\ S j = length (sl_used sl) /\ elt_size n sl j = n - 24 - Z.of_nat j * sl_elt sl.
Proof.
  unfold elt_size. intros He. destruct (sl_uncut sl); cbn [andb]; [|lia]. destruct (Nat.eqb_spec (S j) (length (sl_used sl))); [done|lia].
Qed.

(** Cutting the last region of a slab behind its first element. *)
Lemma cut_blocks B m x b k sl j w1 w2 : blocks_in B m -> region_at B x b k sl j false -> 2 * sl_elt sl <= elt_size (bk_size k) sl j ->
  packed w1 (sl_elt sl) (Z.of_nat j) true -> packed w2 (elt_size (bk_size k) sl j - sl_elt sl) (Z.of_nat (S j)) true ->
  let B' := <[b := with_slab (cut_slab sl) k]> B in
  blocks_in B' (<[x + sl_elt sl := w2]> (<[x := w1]> m)) /\ region_at B' x b (with_slab (cut_slab sl) k) (cut_slab sl) j false /\
    region_at B' (x + sl_elt sl) b (with_slab (cut_slab sl) k) (cut_slab sl) (S j) false /\ elt_size (bk_size k) (cut_slab sl) j = sl_elt sl.
Proof.
  intros Hbl Hr Hbig Hp1 Hp2 B'. pose proof Hbl as [Hg Hw]. pose proof (region_block _ _ _ _ _ _ _ Hg Hr) as Hin. destruct Hr as (Hb & Hs & Hj & E).
  destruct (big_enough (bk_size k) sl j ltac:(lia) Hbig) as (Hun & Hl & Hsz). destruct (ge_block _ Hg _ _ Hb) as [H1 H2 H3]. destruct (H3 _ Hs) as (Hn & Hc & Hne & Hroom & Hlast).
  set (sl1 := mk_slab (sl_elt sl) (sl_used sl) false). set (B1 := <[b := with_slab sl1 k]> B).
  assert (HB1 : blocks_in B1 (<[x := w1]> m)).
  { apply (blocks_update B m b k sl sl1 x w1); try done.
    - split; [done|done|]. cbn. by intros sl2 [= <-].
    - exists b, (with_slab sl1 k), sl1, j, false. split; [apply lookup_insert_eq|done].
    - apply (writable_in m b k); [by apply Hw|lia|by apply Hin].
    - lia.
    - intros i v Hi. cbn in Hi. destruct (decide (i = j)) as [->|Hij].
      + left. split; [done|]. rewrite Hj in Hi. injection Hi as <-. done.
      + right. split; [rewrite E; unfold elt_addr; cbn; nia|]. split; [done|]. unfold elt_size. cbn. destruct (Nat.eqb_spec (S i) (length (sl_used sl))); [lia|]. by rewrite andb_false_r. }
  assert (E' : x + sl_elt sl = elt_addr b (cut_slab sl) (S j)) by (rewrite E; unfold elt_addr; cbn [cut_slab sl_elt]; lia).
  assert (Hr2 : region_at B' (x + sl_elt sl) b (with_slab (cut_slab sl) k) (cut_slab sl) (S j) false).
  { split; [apply lookup_insert_eq|]. split; [done|]. split; [|done]. cbn. rewrite lookup_app_r by lia. by replace (S j - length (sl_used sl))%nat with 0%nat by lia. }
  assert (EB : B' = <[b := with_slab (cut_slab sl) (with_slab sl1 k)]> B1) by (unfold B', B1; by rewrite insert_insert_eq).
  split; [|split; [|split; [done|]]].
  - rewrite EB. apply (blocks_update B1 _ b (with_slab sl1 k) sl1 (cut_slab sl)); try done.
    + apply lookup_insert_eq.
    + split; [done|done|]. cbn. intros sl2 [= <-]. cbn. rewrite length_app. cbn. split; [done|]. split; [done|]. split; [by destruct (sl_used sl)|]. split; [lia|].
      intros _. by rewrite last_snoc.
    + fold (with_slab (cut_slab sl) (with_slab sl1 k)). rewrite <- EB. by exists b, (with_slab (cut_slab sl) k), (cut_slab sl), (S j), false.
    + destruct HB1 as [_ HW1]. apply (writable_in _ b (with_slab sl1 k)); [apply HW1, lookup_insert_eq|cbn; nia|].
      destruct Hc as (i & [_ _ Ha _]). destruct Hin as (_ & _ & Hm & _). unfold SIZEOF_WORD in *. by rewrite Z.add_mod, Hm, Ha.
    + cbn. nia.
    + intros i v Hi. cbn in Hi. destruct (decide (i = S j)) as [->|Hij].
      * left. split; [done|]. rewrite lookup_app_r in Hi by lia. replace (S j - length (sl_used sl))%nat with 0%nat in Hi by lia. injection Hi as <-.
        unfold elt_size. cbn. rewrite length_app, Hl. cbn. replace (S (length (sl_used sl)) =? length (sl_used sl) + 1)%nat with true by (symmetry; apply Nat.eqb_eq; lia).
        replace (_ - _) with (elt_size (bk_size k) sl j - sl_elt sl); [by rewrite <- Hl|]. rewrite Hsz. nia.
      * right. assert (Hi' : (i < length (sl_used sl))%nat) by (apply lookup_lt_Some in Hi; rewrite length_app in Hi; cbn in Hi; lia).
        split; [rewrite E'; unfold elt_addr; cbn; nia|]. split; [by rewrite lookup_app_l in Hi|]. unfold elt_size. cbn. rewrite length_app. cbn.
        by replace (S i =? length (sl_used sl) + 1)%nat with false by (symmetry; apply Nat.eqb_neq; lia).
  - split; [apply lookup_insert_eq|]. split; [done|]. split; [cbn; by rewrite lookup_app_l by lia|exact E].
  - unfold elt_size. cbn. rewrite length_app. cbn. by replace (S j =? length (sl_used sl) + 1)%nat with false by (symmetry; apply Nat.eqb_neq; lia).
Qed.

(** What a change of the blocks keeps of the regions other than [x]. *)
Definition keeps_regions (B B' : gmap Z ublock) (P : Z -> Prop) : Prop := forall r b k sl j u, P r -> region_at B r b k sl j u ->
  exists k' sl', region_at B' r b k' sl' j u /\ sl_elt sl' = sl_elt sl.
Definition keeps_bigs (B B' : gmap Z ublock) : Prop := forall b k, B !! b = Some k -> bk_slab k = None -> B' !! b = Some k.

Lemma with_slab_keeps_bigs (B : gmap Z ublock) b k sl sl' : B !! b = Some k -> bk_slab k = Some sl -> keeps_bigs B (<[b := with_slab sl' k]> B).
Proof. intros Hb Hs b' k' Hb' Hs'. rewrite lookup_insert_ne; [done|]. intros <-. congruence. Qed.

Lemma cut_keeps (B : gmap Z ublock) b k sl : B !! b = Some k -> bk_slab k = Some sl -> keeps_regions B (<[b := with_slab (cut_slab sl) k]> B) (fun _ => True).
Proof.
  intros Hb Hs r b' k' sl' j u _ Hr. destruct Hr as (Hb' & Hs' & Hj & E). destruct (decide (b' = b)) as [->|Hne].
  - rewrite Hb in Hb'. injection Hb' as <-. rewrite Hs in Hs'. injection Hs' as <-. exists (with_slab (cut_slab sl) k), (cut_slab sl). split; [|done].
    split; [apply lookup_insert_eq|]. split; [done|]. split; [|exact E]. cbn. rewrite lookup_app_l; [done|by eapply lookup_lt_Some].
  - exists k', sl'. split; [|done]. split; [by rewrite lookup_insert_ne|done].
Qed.

Lemma mark_keeps B x b k sl j u0 u : geometry B -> region_at B x b k sl j u0 -> keeps_regions B (<[b := with_slab (mark_slab sl j u) k]> B) (fun r => r <> x).
Proof.
  intros Hg (Hb & Hs & Hj & Ex) r b' k' sl' j' u' Hrx (Hb' & Hs' & Hj' & E). destruct (decide (b' = b)) as [->|Hne].
  - rewrite Hb in Hb'. injection Hb' as <-. rewrite Hs in Hs'. injection Hs' as <-. exists (with_slab (mark_slab sl j u) k), (mark_slab sl j u). split; [|done].
    split; [apply lookup_insert_eq|]. split; [done|]. split; [|exact E]. cbn. rewrite list_lookup_insert_ne; [done|]. intros ->. congruence.
  - exists k', sl'. split; [|done]. split; [by rewrite lookup_insert_ne|done].
Qed.

Lemma keeps_live B B' P : keeps_regions B B' P -> keeps_bigs B B' -> (forall r b k sl j, region_at B r b k sl j true -> P r) -> forall p n, live B p n -> live B' p n.
Proof.
  intros Hk Hb HP p n [(r & b & k & sl & j & Hr & -> & ->)|(b & k & Hbk & Hs & -> & ->)].
  - destruct (Hk r b k sl j true (HP _ _ _ _ _ Hr) Hr) as (k' & sl' & Hr' & <-). left. by exists r, b, k', sl', j.
  - right. exists b, k. split; [by apply Hb|done].
Qed.

Lemma keeps_placed B B' P r : keeps_regions B B' P -> P r -> placed B r -> placed B' r.
Proof. intros Hk HP (b & k & sl & j & u & Hr). destruct (Hk r b k sl j u HP Hr) as (k' & sl' & Hr' & _). by exists b, k', sl', j, u. Qed.

(** The other lists stay as they are. *)
Lemma list_ok_move B B' m m' slot l P : keeps_regions B B' P -> (forall r, r ∈ l -> P r) -> ring m' l -> list_ok B m slot l -> list_ok B' m' slot l.
Proof.
  intros Hk HP Hr [Hn _ Hf]. split; [done|done|]. intros r Hin. destruct (Hf r Hin) as (b & k & sl & j & Hat & Hc).
  destruct (Hk r b k sl j false (HP r Hin) Hat) as (k' & sl' & Hat' & E). exists b, k', sl', j. split; [done|]. by rewrite E.
Qed.

(** A new node behind the head of a list of the new blocks. *)
Lemma list_ok_add B m slot h t x q r b k sl j : geometry B -> list_ok B m slot (h :: t) -> x ∉ h :: t -> region_at B x b k sl j false -> class (sl_elt sl) (slot mod 64) ->
  t ++ [h] = q :: r -> list_ok B (apply_writes (add_writes h x q) m) slot (h :: x :: t).
Proof.
  intros Hg Hl Hx Hr Hc E. pose proof Hl as [Hn Hring Hf]. assert (Hnd : NoDup (x :: h :: t)) by by constructor.
  assert (Hsp : spaced (x :: h :: t)).
  { intros y z Hy Hz. apply (placed_apart B); [done| |]; [revert Hy; generalize y|revert Hz; generalize z];
      intros c [->|Hin]%elem_of_cons; [by exists b, k, sl, j, false|by eapply list_ok_placed|by exists b, k, sl, j, false|by eapply list_ok_placed]. }
  split.
  - apply NoDup_cons in Hn as [Hh Hn]. apply not_elem_of_cons in Hx as [Hxh Hx]. constructor; [|by constructor]. intros [->|?]%elem_of_cons; [done|done].
  - by apply (ring_add m h t x q r).
  - intros y [->|[->|Hy]%elem_of_cons]%elem_of_cons; [apply Hf; left| |apply Hf; by right]. by exists b, k, sl, j.
Qed.

Lemma add_is_links h x q : link_writes [h; x; q] (add_writes h x q).
Proof.
  intros w [->|[->|[->|[->|[]%not_elem_of_nil]%elem_of_cons]%elem_of_cons]%elem_of_cons]%elem_of_cons; cbn [fst]; [exists x|exists x|exists h|exists q];
    (split; [set_solver|auto]).
Qed.
Lemma remove_is_links p x q : link_writes [p; x; q] (remove_writes p x q).
Proof.
  intros w [->|[->|[->|[->|[]%not_elem_of_nil]%elem_of_cons]%elem_of_cons]%elem_of_cons]%elem_of_cons; cbn [fst]; [exists x|exists x|exists p|exists q];
    (split; [set_solver|auto]).
Qed.

(** ** Steps of the heap *)

Definition lists_apart (L : gmap Z (list Z)) : Prop := forall s1 s2 l1 l2 r, L !! s1 = Some l1 -> L !! s2 = Some l2 -> r ∈ l1 -> r ∈ l2 -> s1 = s2.

Lemma lists_apart_insert L slot c : lists_apart L -> (forall s l y, s <> slot -> L !! s = Some l -> y ∈ l -> y ∉ c) -> lists_apart (<[slot := c]> L).
Proof.
  intros Ha Hc s1 s2 l1 l2 y. rewrite !lookup_insert. do 2 case_decide; subst;
    [done|intros [= <-] H2 Hy1 Hy2; by destruct (Hc s2 l2 y)|intros H1 [= <-] Hy1 Hy2; by destruct (Hc s1 l1 y)|apply Ha].
Qed.

(** Members of a list of another slot are not members of this one. *)
Lemma other_list L slot c s l y : lists_apart L -> L !! slot = Some c -> s <> slot -> L !! s = Some l -> y ∈ l -> y ∉ c.
Proof. intros Ha Hc Hs Hl Hy Hy'. by apply Hs, (Ha s slot l c y). Qed.

(** The links of one list change, on blocks and other lists that are in order. *)
Lemma heap_relink m B L slot c R l : blocks_in B m -> (forall s d, s <> slot -> L !! s = Some d -> list_ok B m s d) -> lists_apart L ->
  (forall r, r ∈ R -> placed B r) -> link_writes R l -> (forall s d y, s <> slot -> L !! s = Some d -> y ∈ d -> y ∉ R /\ y ∉ c) ->
  list_ok B (apply_writes l m) slot c -> heap_words (apply_writes l m) (mk_uheap B (<[slot := c]> L)).
Proof.
  intros HB Hl Hap HR Hlw Ho Hc. pose proof (links_blocks B m R l HB HR Hlw) as [Hg Hw]. split; cbn [h_blocks h_lists]; [done|done| |].
  - intros s d. rewrite lookup_insert. case_decide as Es; [subst s; by intros [= <-]|]. intros Hsd. apply not_eq_sym in Es. pose proof (Hl s d Es Hsd) as Hok.
    split; [apply Hok| |apply Hok]. apply (links_ring B m R); [done|done| | |done|apply Hok].
    + intros r Hr. by apply (list_ok_placed B m s d).
    + intros r Hr Hrd. by destruct (Ho s d r Es Hsd Hrd).
  - apply lists_apart_insert; [exact Hap|]. intros s d y Es Hsd Hy. by destruct (Ho s d y Es Hsd Hy).
Qed.

Lemma heap_unlink m B L slot : blocks_in B m -> (forall s d, s <> slot -> L !! s = Some d -> list_ok B m s d) -> lists_apart L ->
  heap_words m (mk_uheap B (delete slot L)).
Proof.
  intros [Hg Hw] Hl Hap. split; cbn [h_blocks h_lists]; [done|done| |].
  - intros s d. rewrite lookup_delete. case_decide; [done|]. intros Hsd. by apply Hl.
  - intros s1 s2 l1 l2 r. rewrite !lookup_delete. do 2 (case_decide; [done|]). apply Hap.
Qed.

(** A header changes, and regions other than [x] stay what they were. *)
Lemma header_list_ok B B' m slot l P x w : keeps_regions B B' P -> geometry B' -> placed B' x -> (forall r, r ∈ l -> P r) -> list_ok B m slot l ->
  list_ok B' (<[x := w]> m) slot l.
Proof.
  intros Hk Hg Hx HP Hl. apply (list_ok_move B B' m _ slot l P); [done|done| |done]. apply (header_ring B'); [done|done| |apply Hl].
  intros y Hy. apply (keeps_placed B B' P); [done|by apply HP|]. by apply (list_ok_placed B m slot l).
Qed.

Lemma keeps_refl B : keeps_regions B B (fun _ => True).
Proof. intros r b k sl j u _ Hr. by exists k, sl. Qed.

(** Cutting a region of the list and putting the rest behind the head. *)
Lemma heap_cut m H slot h t x b k sl j w1 w2 q r : heap_words m H -> h_lists H !! slot = Some (h :: t) -> x ∈ h :: t -> region_at (h_blocks H) x b k sl j false ->
  2 * sl_elt sl <= elt_size (bk_size k) sl j -> packed w1 (sl_elt sl) (Z.of_nat j) true -> packed w2 (elt_size (bk_size k) sl j - sl_elt sl) (Z.of_nat (S j)) true ->
  class (sl_elt sl) (slot mod 64) -> t ++ [h] = q :: r ->
  let x' := x + sl_elt sl in let B' := <[b := with_slab (cut_slab sl) k]> (h_blocks H) in
  let l := (x, w1) :: (x', w2) :: add_writes h x' q in
  heap_words (apply_writes l m) (mk_uheap B' (<[slot := h :: x' :: t]> (h_lists H))) /\ (forall w, w ∈ l -> own_write B' w).
Proof.
  intros [Hg Hw Hl Hap] Hsl Hx Hr Hbig Hp1 Hp2 Hc Eq x' B' l. set (B := h_blocks H) in *. pose proof Hr as (Hb & Hs & Hj & Ex).
  destruct (cut_blocks B m x b k sl j w1 w2 (conj Hg Hw) Hr Hbig Hp1 Hp2) as (HB & Hrx & Hrx' & Hsz). fold B' x' in HB, Hrx, Hrx'.
  set (m1 := <[x' := w2]> (<[x := w1]> m)) in *. pose proof (cut_keeps B b k sl Hb Hs) as Hk. fold B' in Hk. pose proof (proj1 HB) as Hg'.
  set (k' := with_slab (cut_slab sl) k) in *. assert (Hpx : placed B' x) by by exists b, k', (cut_slab sl), j, false.
  assert (Hpx' : placed B' x') by by exists b, k', (cut_slab sl), (S j), false.
  assert (Hok : forall s d, h_lists H !! s = Some d -> list_ok B' m1 s d).
  { intros s d Hsd. apply (header_list_ok B' B' _ s d (fun _ => True)); [apply keeps_refl|done|done|done|].
    by apply (header_list_ok B B' m s d (fun _ => True)); [| | | |apply Hl]. }
  assert (Hx'n : forall s c, h_lists H !! s = Some c -> x' ∉ c).
  { intros s c Hsc Hin. destruct (lo_free _ _ _ _ (Hl s c Hsc) x' Hin) as (b2 & k2 & sl2 & j2 & Hr2 & _). destruct (Hk _ _ _ _ _ _ I Hr2) as (k3 & sl3 & Hr3 & _).
    destruct (regions_apart _ _ _ _ _ _ _ _ _ _ _ _ _ Hg' Hr3 Hrx') as [(-> & _ & _ & -> & _)|]; [|lia]. destruct Hr2 as (Hb2 & Hs2 & Hj2 & _).
    rewrite Hb in Hb2. injection Hb2 as <-. rewrite Hs in Hs2. injection Hs2 as <-. pose proof (region_block _ _ _ _ _ _ _ Hg Hr) as Hin2.
    destruct (big_enough (bk_size k) sl j ltac:(lia) Hbig) as (_ & Hlen & _). apply lookup_lt_Some in Hj2. lia. }
  destruct (snoc_split t h) as (q' & r' & Eq' & Hqin & _). rewrite Eq in Eq'. injection Eq' as <- <-.
  assert (HR : forall y, y ∈ [h; x'; q] -> y = x' \/ y ∈ h :: t).
  { intros y [->|[->|[->|[]%not_elem_of_nil]%elem_of_cons]%elem_of_cons]%elem_of_cons; [right; left|by left|by right]. }
  change (apply_writes l m) with (apply_writes (add_writes h x' q) m1). split.
  - apply (heap_relink m1 B' _ slot _ [h; x'; q]); [done|intros s d _; apply Hok|done| |apply add_is_links| |].
    + intros y [->|Hy]%HR; [done|]. by apply (list_ok_placed B' m1 slot (h :: t)); [apply Hok|].
    + intros s d y Hs' Hsd Hy. pose proof (other_list _ _ _ _ _ _ Hap Hsl Hs' Hsd Hy) as Hn. pose proof (Hx'n s d Hsd) as Hxd. split.
      * intros [->|?]%HR; done.
      * intros [->|[->|?]%elem_of_cons]%elem_of_cons; [apply Hn; left|done|apply Hn; by right].
    + by apply (list_ok_add B' m1 slot h t x' q r b k' (cut_slab sl) (S j) Hg' (Hok _ _ Hsl) (Hx'n _ _ Hsl)).
  - assert (Hfree : forall y, y = x' \/ y ∈ h :: t -> exists b1 k1 s1 j1, region_at B' y b1 k1 s1 j1 false).
    { intros y [->|Hy]; [by exists b, k', (cut_slab sl), (S j)|]. destruct (lo_free _ _ _ _ (Hok slot _ Hsl) y Hy) as (b2 & k2 & sl2 & j2 & Hr2 & _). by exists b2, k2, sl2, j2. }
    intros w [->|[->|Hadd]%elem_of_cons]%elem_of_cons; [exists x, b, k', (cut_slab sl), j, false; split; [done|by left]|
      exists x', b, k', (cut_slab sl), (S j), false; split; [done|by left]|].
    destruct (add_is_links h x' q w Hadd) as (y & Hy%HR%Hfree & Hwy). destruct Hy as (b1 & k1 & s1 & j1 & Hat). exists y, b1, k1, s1, j1, false. split; [done|]. by right.
Qed.

(** The header of an element is marked; lists without it are as they were. *)
Lemma mark_list m H x b k sl j u0 u w s d : heap_words m H -> region_at (h_blocks H) x b k sl j u0 ->
  let B' := <[b := with_slab (mark_slab sl j u) k]> (h_blocks H) in
  blocks_in B' (<[x := w]> m) -> placed B' x -> h_lists H !! s = Some d -> x ∉ d -> list_ok B' (<[x := w]> m) s d.
Proof.
  intros [Hg Hw Hl Hap] Hr B' HB Hp Hsd Hx. apply (header_list_ok (h_blocks H) B' m s d (fun r => r <> x)); [by apply (mark_keeps _ x b k sl j u0)|apply HB|done| |by apply Hl].
  by intros r Hr' ->.
Qed.

Lemma mark_placed (B : gmap Z ublock) x b k sl j u : region_at (<[b := with_slab (mark_slab sl j u) k]> B) x b (with_slab (mark_slab sl j u) k) (mark_slab sl j u) j u ->
  placed (<[b := with_slab (mark_slab sl j u) k]> B) x.
Proof. intros Hr. by exists b, (with_slab (mark_slab sl j u) k), (mark_slab sl j u), j, u. Qed.

Lemma NoDup_without (l : list Z) x k : NoDup (l ++ x :: k) -> NoDup (l ++ k) /\ forall y, y ∈ l ++ k -> y ∈ l ++ x :: k /\ y <> x.
Proof.
  intros (Hn0 & Hn1 & [Hx Hn2]%NoDup_cons)%NoDup_app. split.
  - apply NoDup_app. split; [done|]. split; [|done]. intros y Hy Hy'. apply (Hn1 y Hy). by right.
  - intros y [Hy|Hy]%elem_of_app; split; [by apply elem_of_app; left|intros ->; by apply (Hn1 x Hy); left|apply elem_of_app; right; by right|by intros ->].
Qed.

(** Taking a region other than the head out of its list. *)
Lemma heap_take m H slot h pre x post b k sl j w a p q c : heap_words m H -> h_lists H !! slot = Some (h :: pre ++ x :: post) ->
  region_at (h_blocks H) x b k sl j false -> packed w (sl_elt sl) (Z.of_nat j) false -> h :: pre = a ++ [p] -> post ++ [h] = q :: c ->
  let B' := <[b := with_slab (mark_slab sl j true) k]> (h_blocks H) in let l := (x, w) :: remove_writes p x q in
  m !! (x + 8) = Some (p + 8) /\ m !! (x + 16) = Some (q + 8) /\
  heap_words (apply_writes l m) (mk_uheap B' (<[slot := h :: pre ++ post]> (h_lists H))) /\ (forall v, v ∈ l -> own_write (h_blocks H) v).
Proof.
  intros HH Hsl Hr Hp Ep Eq B' l. pose proof HH as [Hg Hw Hl Hap]. set (B := h_blocks H) in *. pose proof (Hl slot _ Hsl) as Hlo.
  destruct (mark_blocks B m x b k sl j false true w (conj Hg Hw) Hr Hp ltac:(by left) ltac:(done)) as [HB Hrx%mark_placed]. fold B' in HB, Hrx. set (m1 := <[x := w]> m) in *.
  pose proof (list_spaced _ _ _ _ Hg Hlo) as Hsp. pose proof (lo_nodup _ _ _ _ Hlo) as Hnd.
  destruct (ring_remove m h pre x post a p q c Hnd Hsp Ep Eq (lo_ring _ _ _ _ Hlo)) as (E1 & E2 & _). split; [done|]. split; [done|].
  assert (Hk := mark_keeps B x b k sl j false true Hg Hr). fold B' in Hk.
  assert (Hpl : forall y, y ∈ h :: pre ++ x :: post -> placed B' y).
  { intros y Hy. destruct (decide (y = x)) as [->|Hne]; [done|]. apply (keeps_placed B B' (fun r => r <> x)); [done|done|]. by apply (list_ok_placed B m slot (h :: pre ++ x :: post)). }
  assert (Hring1 : ring m1 (h :: pre ++ x :: post)) by (apply (header_ring B'); [apply HB|done|done|apply Hlo]).
  destruct (ring_remove m1 h pre x post a p q c Hnd Hsp Ep Eq Hring1) as (_ & _ & Hring2).
  assert (HR : forall y, y ∈ [p; x; q] -> y ∈ h :: pre ++ x :: post).
  { assert (Hq : q ∈ post ++ [h]) by (rewrite Eq; left). rewrite app_comm_cons, Ep. intros y [->|[->|[->|[]%not_elem_of_nil]%elem_of_cons]%elem_of_cons]%elem_of_cons.
    - apply elem_of_app; left. apply elem_of_app; right; left.
    - apply elem_of_app; right; left.
    - apply elem_of_app in Hq as [?|Hq]; [apply elem_of_app; right; by right|]. apply list_elem_of_singleton in Hq as ->. rewrite <- Ep. left. }
  rewrite app_comm_cons in Hnd. destruct (NoDup_without _ _ _ Hnd) as [Hnd' Hsub].
  assert (Hother : forall s d y, s <> slot -> h_lists H !! s = Some d -> y ∈ d -> y ∉ h :: pre ++ x :: post) by (intros s d y; by apply other_list).
  split.
  - change (apply_writes l m) with (apply_writes (remove_writes p x q) m1). apply (heap_relink m1 B' _ slot _ [p; x; q]); [done| |done| |apply remove_is_links| |].
    + intros s d Hs Hsd. apply (mark_list m H x b k sl j false); [done|done|done|done|done|]. intros Hx. apply (Hother s d x Hs Hsd Hx). right. apply elem_of_app; right; left.
    + intros y Hy%HR. by apply Hpl.
    + intros s d y Hs Hsd Hy. pose proof (Hother s d y Hs Hsd Hy) as Hn. split; [by intros ?%HR|]. rewrite app_comm_cons. by intros [? _]%Hsub.
    + split; [done|done|]. intros y Hy. rewrite app_comm_cons in Hy. apply Hsub in Hy as [Hy1 Hy2]. destruct (lo_free _ _ _ _ Hlo y Hy1) as (b1 & k1 & s1 & j1 & Hat & Hc).
      destruct (Hk _ _ _ _ _ _ Hy2 Hat) as (k2 & s2 & Hat' & E). exists b1, k2, s2, j1. split; [done|]. by rewrite E.
  - intros v [->|Hv]%elem_of_cons; [exists x, b, k, sl, j, false; split; [done|by left]|]. destruct (remove_is_links p x q v Hv) as (y & Hy%HR & Hvy).
    destruct (lo_free _ _ _ _ Hlo y Hy) as (b1 & k1 & s1 & j1 & Hat & _). exists y, b1, k1, s1, j1, false. split; [done|by right].
Qed.

(** Taking the head, the last region of its list: the slot becomes empty. *)
Lemma heap_take_head m H slot h b k sl j w : heap_words m H -> h_lists H !! slot = Some [h] -> region_at (h_blocks H) h b k sl j false ->
  packed w (sl_elt sl) (Z.of_nat j) false ->
  m !! (h + 16) = Some (h + 8) /\ heap_words (<[h := w]> m) (mk_uheap (<[b := with_slab (mark_slab sl j true) k]> (h_blocks H)) (delete slot (h_lists H))).
Proof.
  intros HH Hsl Hr Hp. pose proof HH as [Hg Hw Hl Hap]. destruct (mark_blocks _ m h b k sl j false true w (conj Hg Hw) Hr Hp ltac:(by left) ltac:(done)) as [HB Hrx%mark_placed].
  split; [apply (Hl slot _ Hsl)|]. apply heap_unlink; [done| |done]. intros s d Hs Hsd. apply (mark_list m H h b k sl j false); [done|done|done|done|done|].
  intros Hx. apply (other_list _ _ _ s d h Hap Hsl Hs Hsd Hx). left.
Qed.

(** An allocated element has the size of its class. *)
Lemma used_size (B : gmap Z ublock) x b k sl j : geometry B -> region_at B x b k sl j true -> elt_size (bk_size k) sl j = sl_elt sl /\ (sl_uncut sl = true -> S j <> length (sl_used sl)).
Proof.
  intros [Hg _] (Hb & Hs & Hj & _). destruct (Hg _ _ Hb) as [_ _ H3].
  destruct (H3 _ Hs) as (_ & _ & _ & _ & Hl). assert (Hn : sl_uncut sl = true -> S j <> length (sl_used sl)).
  { intros Hu E. specialize (Hl Hu). rewrite last_lookup, <- E in Hl. cbn in Hl. congruence. }
  split; [|done]. unfold elt_size. destruct (sl_uncut sl); [|done]. destruct (Nat.eqb_spec (S j) (length (sl_used sl))); [by destruct (Hn eq_refl)|done].
Qed.

Lemma used_not_listed m H x b k sl j s d : heap_words m H -> region_at (h_blocks H) x b k sl j true -> h_lists H !! s = Some d -> x ∉ d.
Proof.
  intros [Hg _ Hl _] Hr Hsd Hx. destruct (lo_free _ _ _ _ (Hl s d Hsd) x Hx) as (b2 & k2 & sl2 & j2 & Hr2 & _).
  destruct (regions_apart _ _ _ _ _ _ _ _ _ _ _ _ _ Hg Hr Hr2) as [(_ & _ & _ & _ & ? & _)|]; [done|lia].
Qed.

Lemma free_blocks m H x b k sl j w : heap_words m H -> region_at (h_blocks H) x b k sl j true -> packed w (sl_elt sl) (Z.of_nat j) true ->
  let B' := <[b := with_slab (mark_slab sl j false) k]> (h_blocks H) in
  blocks_in B' (<[x := w]> m) /\ region_at B' x b (with_slab (mark_slab sl j false) k) (mark_slab sl j false) j false /\
  (forall s d, h_lists H !! s = Some d -> list_ok B' (<[x := w]> m) s d).
Proof.
  intros HH Hr Hp B'. pose proof HH as [Hg Hw _ _]. destruct (used_size _ _ _ _ _ _ Hg Hr) as [Hsz Hlast].
  destruct (mark_blocks _ m x b k sl j true false w (conj Hg Hw) Hr Hp ltac:(by right) ltac:(done)) as [HB Hrx]. fold B' in HB, Hrx. split; [done|]. split; [done|].
  intros s d Hsd. apply (mark_list m H x b k sl j true); [done|done|done|by apply mark_placed|done|]. by apply (used_not_listed m H x b k sl j s).
Qed.

(** The writes to links of free regions of the blocks are the allocator's own. *)
Lemma own_links B R l : (forall r, r ∈ R -> exists b k sl j, region_at B r b k sl j false) -> link_writes R l -> forall w, w ∈ l -> own_write B w.
Proof. intros HR Hl w Hw. destruct (Hl w Hw) as (r & Hr & Hwr). destruct (HR r Hr) as (b & k & sl & j & Hat). exists r, b, k, sl, j, false. split; [done|by right]. Qed.

(** An allocated region joins a list behind its head. *)
Lemma heap_put m H slot h t x b k sl j w q r : heap_words m H -> h_lists H !! slot = Some (h :: t) -> region_at (h_blocks H) x b k sl j true ->
  packed w (sl_elt sl) (Z.of_nat j) true -> class (sl_elt sl) (slot mod 64) -> t ++ [h] = q :: r ->
  let B' := <[b := with_slab (mark_slab sl j false) k]> (h_blocks H) in let l := (x, w) :: add_writes h x q in
  heap_words (apply_writes l m) (mk_uheap B' (<[slot := h :: x :: t]> (h_lists H))) /\ (forall v, v ∈ l -> own_write B' v).
Proof.
  intros HH Hsl Hr Hp Hc Eq B' l. pose proof HH as [Hg Hw Hl Hap]. destruct (free_blocks m H x b k sl j w HH Hr Hp) as (HB & Hrx & Hok). fold B' in HB, Hrx, Hok.
  assert (Hxn : forall s d, h_lists H !! s = Some d -> x ∉ d) by (intros s d; by apply (used_not_listed m H x b k sl j)).
  destruct (snoc_split t h) as (q' & r' & Eq' & Hqin & _). rewrite Eq in Eq'. injection Eq' as <- <-.
  assert (HR : forall y, y ∈ [h; x; q] -> y = x \/ y ∈ h :: t).
  { intros y [->|[->|[->|[]%not_elem_of_nil]%elem_of_cons]%elem_of_cons]%elem_of_cons; [right; left|by left|by right]. }
  assert (Hfree : forall y, y ∈ [h; x; q] -> exists b1 k1 s1 j1, region_at B' y b1 k1 s1 j1 false).
  { intros y [->|Hy]%HR; [by exists b, (with_slab (mark_slab sl j false) k), (mark_slab sl j false), j|].
    destruct (lo_free _ _ _ _ (Hok slot _ Hsl) y Hy) as (b2 & k2 & sl2 & j2 & Hr2 & _). by exists b2, k2, sl2, j2. }
  change (apply_writes l m) with (apply_writes (add_writes h x q) (<[x := w]> m)). split.
  - apply (heap_relink _ B' _ slot _ [h; x; q]); [done|intros s d _; apply Hok|done| |apply add_is_links| |].
    + intros y (b1 & k1 & s1 & j1 & Hat)%Hfree. by exists b1, k1, s1, j1, false.
    + intros s d y Hs Hsd Hy. pose proof (other_list _ _ _ _ _ _ Hap Hsl Hs Hsd Hy) as Hn. pose proof (Hxn s d Hsd) as Hxd. split.
      * intros [->|?]%HR; done.
      * intros [->|[->|?]%elem_of_cons]%elem_of_cons; [apply Hn; left|done|apply Hn; by right].
    + by apply (list_ok_add B' _ slot h t x q r b (with_slab (mark_slab sl j false) k) (mark_slab sl j false) j (proj1 HB) (Hok _ _ Hsl) (Hxn _ _ Hsl)).
  - intros v [->|Hv]%elem_of_cons; [exists x, b, (with_slab (mark_slab sl j false) k), (mark_slab sl j false), j, false; split; [done|by left]|].
    by apply (own_links B' [h; x; q] (add_writes h x q) Hfree (add_is_links h x q)).
Qed.

(** A list of one region. *)
Definition single_writes (x : Z) : list (Z * Z) := [(x + 8, x + 8); (x + 16, x + 8)].

Lemma single_is_links x l : l ⊆ single_writes x -> link_writes [x] l.
Proof.
  intros Hl w Hw%Hl. exists x. split; [left|]. apply elem_of_cons in Hw as [->|[->|[]%not_elem_of_nil]%elem_of_cons]; [by left|by right].
Qed.

Lemma single_ring m x : m !! (x + 8) = Some (x + 8) -> m !! (x + 16) = Some (x + 8) -> ring m [x].
Proof. done. Qed.

Lemma heap_put_new m H slot x b k sl j w : heap_words m H -> h_lists H !! slot = None -> region_at (h_blocks H) x b k sl j true ->
  packed w (sl_elt sl) (Z.of_nat j) true -> class (sl_elt sl) (slot mod 64) ->
  let B' := <[b := with_slab (mark_slab sl j false) k]> (h_blocks H) in let l := (x, w) :: single_writes x in
  heap_words (apply_writes l m) (mk_uheap B' (<[slot := [x]]> (h_lists H))) /\ (forall v, v ∈ l -> own_write B' v).
Proof.
  intros HH Hsl Hr Hp Hc B' l. pose proof HH as [Hg Hw Hl Hap]. destruct (free_blocks m H x b k sl j w HH Hr Hp) as (HB & Hrx & Hok). fold B' in HB, Hrx, Hok.
  assert (Hxn : forall s d, h_lists H !! s = Some d -> x ∉ d) by (intros s d; by apply (used_not_listed m H x b k sl j)).
  assert (Hfree : forall y, y ∈ [x] -> exists b1 k1 s1 j1, region_at B' y b1 k1 s1 j1 false).
  { intros y ->%list_elem_of_singleton. by exists b, (with_slab (mark_slab sl j false) k), (mark_slab sl j false), j. }
  change (apply_writes l m) with (apply_writes (single_writes x) (<[x := w]> m)). split.
  - apply (heap_relink _ B' _ slot _ [x]); [done|intros s d _; apply Hok|done| |by apply single_is_links| |].
    + intros y (b1 & k1 & s1 & j1 & Hat)%Hfree. by exists b1, k1, s1, j1, false.
    + intros s d y Hs Hsd Hy. pose proof (Hxn s d Hsd) as Hxd. split; intros ->%list_elem_of_singleton; done.
    + split; [apply NoDup_singleton|apply single_ring; unfold single_writes; read_back|]. intros y ->%list_elem_of_singleton.
      by exists b, (with_slab (mark_slab sl j false) k), (mark_slab sl j false), j.
  - intros v [->|Hv]%elem_of_cons; [exists x, b, (with_slab (mark_slab sl j false) k), (mark_slab sl j false), j, false; split; [done|by left]|].
    by apply (own_links B' [x] (single_writes x) Hfree (single_is_links _ _ (reflexivity _))).
Qed.

(** ** New blocks *)

(** Room for a block: mapped, and away from the blocks there are. *)
Record fresh_block (m : gmap Z Z) (B : gmap Z ublock) (b n : Z) : Prop := {
  fb_start : 0 < b /\ b mod SIZEOF_WORD = 0;
  fb_size : 40 <= n < 2 ^ 46 /\ n mod SIZEOF_WORD = 0;
  fb_mapped : forall a, b <= a < b + n -> a mod SIZEOF_WORD = 0 -> is_Some (m !! a);
  fb_apart : forall b' k', B !! b' = Some k' -> b + n <= b' \/ b' + bk_size k' <= b
}.

Lemma fresh_not_block m (B : gmap Z ublock) b n : geometry B -> fresh_block m B b n -> B !! b = None.
Proof.
  intros [Hg _] Hf. destruct (B !! b) as [k|] eqn:E; [|done]. pose proof (bg_size _ _ (Hg _ _ E)). pose proof (fb_size _ _ _ _ Hf). destruct (fb_apart _ _ _ _ Hf _ _ E); lia.
Qed.

Lemma fresh_keeps m B b k : geometry B -> fresh_block m B b (bk_size k) -> keeps_regions B (<[b := k]> B) (fun _ => True).
Proof.
  intros Hg Hf r b' k' sl j u _ (Hb & Hr). exists k', sl. split; [|done]. split; [|done]. rewrite lookup_insert_ne; [done|]. intros <-.
  by rewrite (fresh_not_block m B b (bk_size k)) in Hb.
Qed.

(** Writes into the new block leave the rest of the heap alone. *)
Lemma heap_add_block m H b k l : heap_words m H -> fresh_block m (h_blocks H) b (bk_size k) -> block_geometry b k -> (forall w, w ∈ l -> b <= w.1 < b + bk_size k) ->
  block_words (apply_writes l m) b k ->
  heap_words (apply_writes l m) (mk_uheap (<[b := k]> (h_blocks H)) (h_lists H)) /\ contents_kept (h_blocks H) m (apply_writes l m).
Proof.
  intros [Hg Hw Hl Hap] Hf Hk Hin Hbw. set (B := h_blocks H) in *. assert (Hout : forall a, ~ b <= a < b + bk_size k -> apply_writes l m !! a = m !! a).
  { intros a Ha. apply lookup_writes_ne. intros w Hwl E. pose proof (Hin w Hwl). lia. }
  assert (Hg' : geometry (<[b := k]> B)).
  { split.
    - intros b'. intros k'. rewrite lookup_insert. case_decide; [subst b'; by intros [= <-]|apply Hg].
    - intros b1 k1 b2 k2. rewrite !lookup_insert. do 2 case_decide; subst; [intros _ _ []; done|intros [= <-] H2 _; by apply (fb_apart _ _ _ _ Hf)
       |intros H1 [= <-] _; destruct (fb_apart _ _ _ _ Hf _ _ H1); [by right|by left]|apply (ge_disjoint _ Hg)]. }
  split; [split; cbn [h_blocks h_lists]; [done| | |done]|].
  - intros b' k'. rewrite lookup_insert. case_decide as E; [subst b'; by intros [= <-]|]. intros Hb'. pose proof (fb_apart _ _ _ _ Hf _ _ Hb') as Hd. destruct (Hg) as [Hgb _].
    pose proof (bg_size _ _ (Hgb _ _ Hb')). apply (block_frame m); [by apply Hw|intros a; apply is_Some_writes|intros a Ha; apply Hout; lia|].
    intros sl j Hs Hj. apply lookup_lt_is_Some in Hj as [u Hu]. pose proof (region_block B _ b' k' sl j u Hg (conj Hb' (conj Hs (conj Hu eq_refl)))). apply Hout. lia.
  - intros s d Hsd. apply (list_ok_move B _ m _ s d (fun _ => True)); [by apply (fresh_keeps m)|done| |by apply Hl]. apply (ring_frame m); [|apply (Hl _ _ Hsd)].
    intros x Hx. destruct (lo_free _ _ _ _ (Hl _ _ Hsd) x Hx) as (b' & k' & sl & j & Hr & _). pose proof (region_block _ _ _ _ _ _ _ Hg Hr). destruct Hr as (Hb' & _).
    pose proof (fb_apart _ _ _ _ Hf _ _ Hb'). split; apply Hout; lia.
  - intros p n a Hlive Ha. apply Hout. destruct (live_in_block B p n Hg Hlive) as (b' & k' & Hb' & H1 & H2 & H3). pose proof (fb_apart _ _ _ _ Hf _ _ Hb'). destruct (bk_slab k'); lia.
Qed.

Lemma heap_add_list m H slot c : heap_words m H -> list_ok (h_blocks H) m slot c -> (forall s d y, s <> slot -> h_lists H !! s = Some d -> y ∈ d -> y ∉ c) ->
  heap_words m (mk_uheap (h_blocks H) (<[slot := c]> (h_lists H))).
Proof.
  intros [Hg Hw Hl Hap] Hc Ho. apply (heap_relink m _ _ slot c [] []); [by split|intros s d _; apply Hl|done|by intros r ?%not_elem_of_nil|by intros w ?%not_elem_of_nil| |done].
  intros s d y Hs Hsd Hy. split; [apply not_elem_of_nil|by apply (Ho s d y)].
Qed.

Definition new_slab_block (n tag e : Z) : ublock := mk_ublock n tag (Some (mk_slab e [false] true)).
Definition slab_writes (b n tag w : Z) : list (Z * Z) := [(b, n); (b + n - 16, tag); (b + n - 8, n); (b + 8, w); (b + 24, b + 16); (b + 16, b + 16)].

(** A new slab, whose only region makes the list of an empty slot. *)
Lemma heap_slab m H slot b n tag e w : heap_words m H -> fresh_block m (h_blocks H) b n -> h_lists H !! slot = None -> class e (slot mod 64) -> 24 + e <= n < 2 ^ 20 ->
  packed w (n - 24) 0 true ->
  let H' := mk_uheap (<[b := new_slab_block n tag e]> (h_blocks H)) (<[slot := [b + 8]]> (h_lists H)) in
  heap_words (apply_writes (slab_writes b n tag w) m) H' /\ contents_kept (h_blocks H) m (apply_writes (slab_writes b n tag w) m).
Proof.
  intros HH Hf Hsl Hc Hn Hp H'. pose proof Hf as [[Hb0 Hba] [Hn0 Hna] Hm _]. pose proof (cl_size _ _ Hc) as He. set (k := new_slab_block n tag e) in *.
  assert (Hin : forall v, v ∈ slab_writes b n tag w -> b <= v.1 < b + bk_size k).
  { unfold slab_writes. cbn. intros v Hv. repeat (apply elem_of_cons in Hv as [->|Hv]; [cbn; lia|]). by apply not_elem_of_nil in Hv. }
  set (m' := apply_writes (slab_writes b n tag w) m) in *.
  destruct (heap_add_block m H b k (slab_writes b n tag w) HH Hf) as [HH' Hkept]; [|done| |].
  - split; [done|done|]. cbn. intros sl [= <-]. cbn. split; [lia|]. split; [by eexists|]. split; [done|]. split; [lia|done].
  - split; cbn [bk_size bk_tag bk_slab k new_slab_block].
    + intros a Ha1 Ha2. apply is_Some_writes. by apply Hm.
    + unfold slab_writes. read_back.
    + unfold slab_writes. read_back.
    + unfold slab_writes. read_back.
    + intros sl j u [= <-] Hj. destruct j as [|j]; [|done]. injection Hj as <-. exists w. unfold elt_addr, elt_size. cbn [sl_elt sl_used sl_uncut length].
      replace (b + 8 + Z.of_nat 0 * e) with (b + 8) by lia. replace (n - 24 - Z.of_nat 0 * e) with (n - 24) by lia. split; [unfold slab_writes; read_back|done].
  - split; [|done]. fold m' in HH'. apply (heap_add_list m' _ slot [b + 8] HH').
    + split; [apply NoDup_singleton|apply single_ring; unfold m', slab_writes; read_back|]. intros y ->%list_elem_of_singleton.
      exists b, k, (mk_slab e [false] true), 0%nat. split; [|done]. split; [apply lookup_insert_eq|]. split; [done|]. split; [done|]. unfold elt_addr. cbn. lia.
    + cbn [h_lists]. intros s d y Hs Hsd Hy ->%list_elem_of_singleton. destruct HH as [Hg _ Hl _]. destruct (lo_free _ _ _ _ (Hl s d Hsd) _ Hy) as (b' & k' & sl' & j' & Hr & _).
      pose proof (region_block _ _ _ _ _ _ _ Hg Hr). destruct Hr as (Hb' & _). pose proof (fb_apart _ _ _ _ Hf _ _ Hb'). lia.
Qed.

Definition big_writes (b n tag : Z) : list (Z * Z) :=
  [(b, Z.lor n SIVFS_BIG_ALLOCATION_FLAG); (b + n - 16, tag); (b + n - 8, n); (b + 16, b + 8); (b + 8, b + 8)].

(** A block that is one object. *)
Lemma heap_big m H b n tag : heap_words m H -> fresh_block m (h_blocks H) b n ->
  heap_words (apply_writes (big_writes b n tag) m) (mk_uheap (<[b := mk_ublock n tag None]> (h_blocks H)) (h_lists H)) /\
  contents_kept (h_blocks H) m (apply_writes (big_writes b n tag) m).
Proof.
  intros HH Hf. pose proof Hf as [[Hb0 Hba] [Hn0 Hna] Hm _]. apply (heap_add_block m H b (mk_ublock n tag None)); [done|done|by split| |].
  - unfold big_writes. cbn. intros v Hv. repeat (apply elem_of_cons in Hv as [->|Hv]; [cbn; lia|]). by apply not_elem_of_nil in Hv.
  - split; cbn [bk_size bk_tag bk_slab].
    + intros a Ha1 Ha2. apply is_Some_writes. by apply Hm.
    + unfold big_writes. read_back.
    + unfold big_writes. read_back.
    + unfold big_writes. read_back.
    + done.
Qed.

(** ** The objects after a change *)

Lemma keeps_used_back (B : gmap Z ublock) b k sl sl' r b' k' s' j : B !! b = Some k -> bk_slab k = Some sl -> sl_elt sl' = sl_elt sl ->
  (forall i, sl_used sl' !! i = Some true -> sl_used sl !! i = Some true \/ r <> elt_addr b sl i) -> region_at (<[b := with_slab sl' k]> B) r b' k' s' j true ->
  exists k1 s1, region_at B r b' k1 s1 j true /\ sl_elt s1 = sl_elt s'.
Proof.
  intros Hb Hs He Hu (Hb' & Hs' & Hj & E). destruct (decide (b' = b)) as [->|Hne].
  - rewrite lookup_insert_eq in Hb'. injection Hb' as <-. injection Hs' as <-. exists k, sl. split; [|done]. assert (E' : r = elt_addr b sl j) by (rewrite E; unfold elt_addr; by rewrite He).
    destruct (Hu j Hj) as [Hj'|?]; [|done]. by split_and!.
  - rewrite lookup_insert_ne in Hb' by done. by exists k', s'.
Qed.

Lemma with_slab_bigs (B : gmap Z ublock) b k sl' b' k' : bk_slab k' = None -> <[b := with_slab sl' k]> B !! b' = Some k' -> B !! b' = Some k'.
Proof. intros Hs. rewrite lookup_insert. case_decide; [|done]. by intros [= <-]. Qed.

Lemma cut_live (B : gmap Z ublock) b k sl p n : B !! b = Some k -> bk_slab k = Some sl -> live (<[b := with_slab (cut_slab sl) k]> B) p n <-> live B p n.
Proof.
  intros Hb Hs. split.
  - intros [(r & b' & k' & s' & j & Hr & -> & ->)|(b' & k' & Hb' & Hs' & -> & ->)].
    + destruct (keeps_used_back B b k sl (cut_slab sl) r b' k' s' j Hb Hs eq_refl) as (k1 & s1 & Hr1 & <-); [|done|left; by exists r, b', k1, s1, j].
      intros i Hi. cbn in Hi. left. apply lookup_app_Some in Hi as [?|[Hlen Hi]]; [done|]. apply list_lookup_singleton_Some in Hi. by destruct Hi.
    + right. exists b', k'. split; [by apply (with_slab_bigs B b k (cut_slab sl))|done].
  - apply (keeps_live B _ (fun _ => True)); [by apply cut_keeps|by apply (with_slab_keeps_bigs B b k sl)|done].
Qed.

(** A big object does not lie where an element of a slab does. *)
Lemma region_not_big B x b k sl j u b' k' : geometry B -> region_at B x b k sl j u -> B !! b' = Some k' -> bk_slab k' = None -> b' <> x.
Proof.
  intros Hg Hr Hb' Hs' ->. pose proof (region_block _ _ _ _ _ _ _ Hg Hr) as Hin. destruct Hr as (Hb & Hs & _). destruct (decide (b = x)) as [->|Hne]; [congruence|].
  pose proof (bg_size _ _ (ge_block _ Hg _ _ Hb')). destruct (ge_disjoint _ Hg _ _ _ _ Hb Hb' Hne); lia.
Qed.

(** Marking an element adds or removes its object. *)
Lemma mark_live B x b k sl j u0 u p n : geometry B -> region_at B x b k sl j u0 ->
  live (<[b := with_slab (mark_slab sl j u) k]> B) p n <-> (p <> x + 8 /\ live B p n) \/ (u = true /\ p = x + 8 /\ n = sl_elt sl - 8).
Proof.
  intros Hg Hr. pose proof Hr as (Hb & Hs & Hj & Ex). pose proof (lookup_lt_Some _ _ _ Hj) as Hlt.
  split; [intros [(r & b' & k' & s' & i & Hr' & -> & ->)|(b' & k' & Hb' & Hs' & -> & ->)]|].
  - destruct (decide (r = x)) as [->|Hne].
    + right. destruct Hr' as (Hb' & Hs' & Hi & E). destruct (decide (b' = b)) as [->|Hnb].
      * rewrite lookup_insert_eq in Hb'. injection Hb' as <-. injection Hs' as <-. pose proof (region_block _ _ _ _ _ _ _ Hg Hr). assert (i = j) as ->.
        { rewrite Ex in E. unfold elt_addr in E. cbn in E. nia. }
        cbn in Hi. rewrite list_lookup_insert_eq in Hi by done. by injection Hi as <-.
      * rewrite lookup_insert_ne in Hb' by done. exfalso. destruct (regions_apart B x b' k' s' i true x b k sl j u0 Hg) as [[? _]|]; [by split_and!|done|done|lia].
    + left. split; [lia|]. destruct (keeps_used_back B b k sl (mark_slab sl j u) r b' k' s' i Hb Hs eq_refl) as (k1 & s1 & Hr1 & <-); [|done|left; by exists r, b', k1, s1, i].
      intros i' Hi'. cbn in Hi'. destruct (decide (i' = j)) as [->|]; [right; by rewrite <- Ex|left; by rewrite list_lookup_insert_ne in Hi'].
  - left. pose proof (with_slab_bigs B b k _ b' k' Hs' Hb') as Hb1. pose proof (region_not_big _ _ _ _ _ _ _ _ _ Hg Hr Hb1 Hs'). split; [lia|]. right. by exists b', k'.
  - intros [[Hp [(r & b' & k' & s' & i & Hr' & -> & ->)|(b' & k' & Hb' & Hs' & -> & ->)]]|(-> & -> & ->)].
    + destruct (mark_keeps B x b k sl j u0 u Hg Hr r b' k' s' i true) as (k1 & s1 & Hr1 & <-); [lia|done|]. left. by exists r, b', k1, s1, i.
    + right. exists b', k'. split; [by apply (with_slab_keeps_bigs B b k sl)|done].
    + left. exists x, b, (with_slab (mark_slab sl j true) k), (mark_slab sl j true), j. split; [|done]. split; [apply lookup_insert_eq|]. split; [done|].
      split; [by apply list_lookup_insert_eq|done].
Qed.

Lemma add_live (B : gmap Z ublock) b k p n : B !! b = None -> (forall sl, bk_slab k = Some sl -> sl_used sl = [false]) ->
  live (<[b := k]> B) p n <-> live B p n \/ (bk_slab k = None /\ p = b + 8 /\ n = bk_size k - 24).
Proof.
  intros Hb Hk. split; [intros [(r & b' & k' & s' & i & (Hb' & Hs' & Hi & E) & -> & ->)|(b' & k' & Hb' & Hs' & -> & ->)]|].
  - rewrite lookup_insert in Hb'. case_decide; [|left; left; by exists r, b', k', s', i]. injection Hb' as <-. rewrite (Hk _ Hs') in Hi. by destruct i.
  - rewrite lookup_insert in Hb'. case_decide; [|left; right; by exists b', k']. subst b'. injection Hb' as <-. by right.
  - assert (Hne : forall b' k', B !! b' = Some k' -> b <> b') by (intros b' k' E <-; congruence).
    intros [[(r & b' & k' & s' & i & (Hb' & Hr) & -> & ->)|(b' & k' & Hb' & Hs' & -> & ->)]|(Hs & -> & ->)].
    + left. exists r, b', k', s', i. split; [|done]. split; [|done]. by rewrite lookup_insert_ne by by eapply Hne.
    + right. exists b', k'. split; [|done]. by rewrite lookup_insert_ne by by eapply Hne.
    + right. exists b, k. split; [apply lookup_insert_eq|done].
Qed.
