(* ===== verification/UserMalloc.v ===== *)
(** The invariant of the library's state and the steps of sivfs_malloc_ws and
    sivfs_free_ws that act on it: slots, the search for a mapping, list
    operations, taking a region (lib/sivfs_allocator.h). *)
From S2P Require Import Prelude Types Stack Writeset UserBins UserAlloc UserHeap UserSlab.

#[local] Arguments Nat.eqb : simpl never.
#[local] Arguments sivfs_stack_push : simpl never.
#[local] Arguments sivfs_stack_pop : simpl never.

(** ** Slots *)

Definition slot_get (M : gmap Z mmap_state) (slot : Z) : option Z := M !! (slot / 64) ≫= fun ms => ms_free_lists ms !! Z.to_nat (slot mod 64).
Definition set_bin (i v : Z) (ms : mmap_state) : mmap_state := mk_mstate (<[Z.to_nat i := v]> (ms_free_lists ms)) (ms_start ms) (ms_tag ms) (ms_size ms).
Definition slot_set (M : gmap Z mmap_state) (slot v : Z) : gmap Z mmap_state :=
  match M !! (slot / 64) with Some ms => <[slot / 64 := set_bin (slot mod 64) v ms]> M | None => M end.

Lemma slot_name_parts m i : 0 <= i < SIVFS_ALLOCATOR_NBINS -> slot_name m i / 64 = m /\ slot_name m i mod 64 = i.
Proof. unfold slot_name, SIVFS_ALLOCATOR_NBINS. intros Hi. split; [symmetry; apply (Z.div_unique _ _ _ i); lia|symmetry; apply (Z.mod_unique _ _ m); lia]. Qed.

Lemma slot_parts slot : slot = slot_name (slot / 64) (slot mod 64).
Proof. unfold slot_name. pose proof (Z.div_mod slot 64 ltac:(done)). lia. Qed.

Lemma slot_get_set M slot v slot' : slot_get (slot_set M slot v) slot' = if decide (slot' = slot) then (if slot_get M slot then Some v else None) else slot_get M slot'.
Proof.
  unfold slot_set, slot_get. destruct (decide (slot' = slot)) as [->|Hne].
  - destruct (M !! (slot / 64)) as [ms|] eqn:E; cbn; [|by rewrite E]. rewrite lookup_insert_eq. cbn. destruct (ms_free_lists ms !! Z.to_nat (slot mod 64)) eqn:E'.
    + by rewrite list_lookup_insert_eq by by eapply lookup_lt_Some.
    + apply lookup_ge_None in E'. apply lookup_ge_None. by rewrite length_insert.
  - destruct (M !! (slot / 64)) as [ms|] eqn:E; [|done]. destruct (decide (slot' / 64 = slot / 64)) as [Ed|].
    + rewrite Ed, lookup_insert_eq, E. cbn. apply list_lookup_insert_ne. intros Em. apply Hne. rewrite (slot_parts slot'), (slot_parts slot), Ed.
      f_equal. pose proof (Z.mod_pos_bound slot 64). pose proof (Z.mod_pos_bound slot' 64). lia.
    + by rewrite lookup_insert_ne.
Qed.

Lemma slot_set_lookup M slot v m ms : slot_set M slot v !! m = Some ms -> exists ms0, M !! m = Some ms0 /\ ms_start ms = ms_start ms0 /\ ms_tag ms = ms_tag ms0 /\
  ms_size ms = ms_size ms0 /\ length (ms_free_lists ms) = length (ms_free_lists ms0).
Proof.
  unfold slot_set. destruct (M !! (slot / 64)) as [ms1|] eqn:E; [|intros H; by exists ms]. rewrite lookup_insert. case_decide as Em; [|intros H; by exists ms].
  intros [= <-]. exists ms1. rewrite <- Em. cbn. by rewrite length_insert.
Qed.

Lemma slot_set_is_Some M slot v m ms0 : M !! m = Some ms0 -> exists ms, slot_set M slot v !! m = Some ms /\ ms_start ms = ms_start ms0 /\ ms_tag ms = ms_tag ms0 /\ ms_size ms = ms_size ms0.
Proof.
  unfold slot_set. intros H. destruct (M !! (slot / 64)) as [ms1|] eqn:E; [|by exists ms0]. rewrite lookup_insert. case_decide as Em; [|by exists ms0].
  exists (set_bin (slot mod 64) v ms1). split; [done|]. cbn. rewrite <- Em in H. rewrite H in E. by injection E as <-.
Qed.

(** Setting a slot back. *)
Lemma slot_set_back M slot v old : slot_get M slot = Some old -> slot_set (slot_set M slot v) slot old = M.
Proof.
  unfold slot_get, slot_set. destruct (M !! (slot / 64)) as [ms|] eqn:E; [|done]. cbn. intros Ho. rewrite lookup_insert_eq, insert_insert_eq.
  unfold set_bin. cbn. rewrite list_insert_insert_eq, list_insert_id by done. destruct ms. by apply insert_id.
Qed.

Lemma load_slot_ok slot v s : slot_get (u_mstates s) slot = Some v -> load_slot slot s = (Ok v, s).
Proof. unfold load_slot, slot_get. by intros ->. Qed.

Lemma store_slot_ok slot v s : is_Some (slot_get (u_mstates s) slot) -> store_slot slot v s = (Ok tt, set_mstates (slot_set (u_mstates s) slot v) s).
Proof.
  unfold store_slot, slot_get, slot_set. intros [old Ho]. destruct (u_mstates s !! (slot / 64)) as [ms|]; [|done]. cbn in Ho. apply lookup_lt_Some in Ho.
  destruct (Z.ltb_spec (slot mod 64) (Z.of_nat (length (ms_free_lists ms)))); [done|]. pose proof (Z.mod_pos_bound slot 64). lia.
Qed.

(** ** The invariant *)

(** The slot holds the node of the head, or 0. *)
Definition list_head (o : option (list Z)) : Z := match o with Some (h :: _) => h + 8 | _ => 0 end.

(** Some registered mapping with this tag holds the range. *)
Definition in_mapping (M : gmap Z mmap_state) (l : lib_state) (a n tag : Z) : Prop :=
  exists m ms, m ∈ elems (l_mmap_states l) /\ M !! m = Some ms /\ ms_start ms <= a /\ a + n <= ms_start ms + ms_size ms /\ ms_tag ms = tag.

(** The bookkeeping outside the file; the history can take [n] more changes. *)
Record book_ok (n : nat) (M : gmap Z mmap_state) (l : lib_state) : Prop := {
  bo_states : stack_wf (l_mmap_states l);
  bo_ptrs : stack_wf (l_restore_ptrs l);
  bo_values : stack_wf (l_restore_values l);
  bo_sizes : st_size (l_restore_ptrs l) = st_size (l_restore_values l);
  bo_room : st_size (l_restore_ptrs l) + Z.of_nat n < stack_limit / 2;
  bo_listed : forall m, m ∈ elems (l_mmap_states l) -> is_Some (M !! m);
  bo_bins : forall m ms, M !! m = Some ms -> 0 < m /\ length (ms_free_lists ms) = NBINS_nat
}.

Definition heads_ok (M : gmap Z mmap_state) (L : gmap Z (list Z)) : Prop := forall slot v, slot_get M slot = Some v -> v = list_head (L !! slot).
Definition covers (M : gmap Z mmap_state) (l : lib_state) (B : gmap Z ublock) : Prop :=
  forall b k sl, B !! b = Some k -> bk_slab k = Some sl -> in_mapping M l b (bk_size k) (bk_tag k).

(** The state [s] holds the heap [H]. *)
Record lib_ok (n : nat) (s : ulib) (l : lib_state) (H : uheap) : Prop := {
  lk_lib : u_lib s = Some l;
  lk_book : book_ok n (u_mstates s) l;
  lk_heap : heap_words (u_mem s) H;
  lk_heads : heads_ok (u_mstates s) (h_lists H);
  lk_covers : covers (u_mstates s) l (h_blocks H)
}.

(** Objects of both heaps have the same contents in both memories. *)
Definition survivors_kept (B B' : gmap Z ublock) (m m' : gmap Z Z) : Prop := forall p n a, live B p n -> live B' p n -> p <= a < p + n -> m' !! a = m !! a.

Lemma survivors_trans B B1 B' m m1 m' : (forall p n, live B p n -> live B' p n -> live B1 p n) -> survivors_kept B B1 m m1 -> survivors_kept B1 B' m1 m' -> survivors_kept B B' m m'.
Proof. intros Hl H1 H2 p n a Hp Hp' Ha. pose proof (Hl p n Hp Hp') as Hp1. rewrite (H2 p n a Hp1 Hp' Ha). by apply (H1 p n). Qed.

(** From a state with a heap and a write set to another: every change of the
    memory is in the write set, which has room for [n] more, and surviving
    objects keep their contents. *)
Record moved (n k : nat) (s : ulib) (es : list wse) (H : uheap) (s' : ulib) (H' : uheap) : Prop := {
  mv_ok : exists l, lib_ok k s' l H';
  mv_log : exists w, u_mem s' = apply_writes w (u_mem s) /\ ws_has n (u_ws s') (es ++ (write_entry <$> w));
  mv_kept : survivors_kept (h_blocks H) (h_blocks H') (u_mem s) (u_mem s')
}.

Lemma slot_of (M : gmap Z mmap_state) m ms i : M !! m = Some ms -> length (ms_free_lists ms) = NBINS_nat -> 0 <= i < SIVFS_ALLOCATOR_NBINS -> is_Some (slot_get M (slot_name m i)).
Proof.
  intros Hm Hl Hi. unfold slot_get. destruct (slot_name_parts m i Hi) as [-> ->]. rewrite Hm. cbn. apply lookup_lt_is_Some. rewrite Hl. unfold NBINS_nat. lia.
Qed.

Lemma in_mapping_set M l slot v a n tag : in_mapping M l a n tag -> in_mapping (slot_set M slot v) l a n tag.
Proof.
  intros (m & ms & Hin & Hm & H1 & H2 & H3). destruct (slot_set_is_Some M slot v m ms Hm) as (ms' & Hm' & E1 & E2 & E3). exists m, ms'. rewrite E1, E2, E3. by split_and!.
Qed.

Lemma book_ok_set n M l slot v : book_ok n M l -> book_ok n (slot_set M slot v) l.
Proof.
  intros [H1 H2 H3 H4 H5 H6 H7]. split; [done..| |].
  - intros m Hm. destruct (H6 m Hm) as [ms0 Hms]. destruct (slot_set_is_Some M slot v m ms0 Hms) as (ms & E & _). by exists ms.
  - intros m ms Hm. destruct (slot_set_lookup M slot v m ms Hm) as (ms0 & Hm0 & _ & _ & _ & ->). by apply H7.
Qed.

(** The history of [l'] is that of [l] with one more change. *)
Definition remembers (l l' : lib_state) (slot old : Z) : Prop :=
  l_mmap_states l' = l_mmap_states l /\ elems (l_restore_ptrs l') = elems (l_restore_ptrs l) ++ [slot] /\ elems (l_restore_values l') = elems (l_restore_values l) ++ [old].
Definition same_history (l l' : lib_state) : Prop :=
  l_mmap_states l' = l_mmap_states l /\ elems (l_restore_ptrs l') = elems (l_restore_ptrs l) /\ elems (l_restore_values l') = elems (l_restore_values l).

Lemma push_on_ptrs ev slot s l : u_lib s = Some l ->
  on_lib (fun l => let '(r, st) := sivfs_stack_push (ie_mem ev) slot (l_restore_ptrs l) in (r, with_restore st (l_restore_values l) l)) s =
  let '(r, st) := sivfs_stack_push (ie_mem ev) slot (l_restore_ptrs l) in (r, set_lib (with_restore st (l_restore_values l) l) s).
Proof. unfold on_lib. intros ->. by destruct (sivfs_stack_push _ _ _). Qed.

Lemma set_free_list_ok ev slot v s l n old : u_lib s = Some l -> book_ok (S n) (u_mstates s) l -> slot_get (u_mstates s) slot = Some old ->
  (exists l', sivfs_set_free_list ev slot v s = (Ok tt, mk_ulib (u_mem s) (u_ws s) (slot_set (u_mstates s) slot v) (Some l')) /\
     book_ok n (slot_set (u_mstates s) slot v) l' /\ remembers l l' slot old) \/
  (exists l', ie_mem ev = false /\ sivfs_set_free_list ev slot v s = (Err ENOMEM, set_lib l' s) /\ book_ok (S n) (u_mstates s) l' /\ same_history l l').
Proof.
  intros Hl Hbo Ho. pose proof Hbo as [H1 H2 H3 H4 H5 H6 H7]. unfold sivfs_set_free_list. rewrite (bind_step _ _ s old s) by by apply load_slot_ok.
  rewrite (bind_step _ _ s (Some l) s) by by rewrite <- Hl. pose proof (push_on_ptrs ev slot s l Hl) as E1. rewrite Nat2Z.inj_succ in H5.
  destruct (push_ok_inv (ie_mem ev) slot (l_restore_ptrs l) H2 ltac:(lia)) as [(p & Ep & Hp & He & Hs)|[Ep Hm]]; rewrite Ep in E1; cbv beta iota in E1; [|right].
  2: { exists l. rewrite (bind_err _ _ _ _ _ E1). destruct l. split; [done|]. split; [done|]. split; [done|]. by split_and!. }
  rewrite (bind_step _ _ _ _ _ E1). set (l1 := with_restore p (l_restore_values l) l) in *. set (s1 := set_lib l1 s).
  destruct (push_ok_inv (ie_mem ev) old (l_restore_values l) H3 ltac:(lia)) as [(p2 & Ep2 & Hp2 & He2 & Hs2)|[Ep2 Hm]].
  - left. exists (with_restore p p2 l). rewrite (bind_step _ _ s1 tt (set_lib (with_restore p p2 l) s)).
    + rewrite store_slot_ok; [|by exists old]. split; [done|]. split; [|by split_and!]. apply book_ok_set. split; cbn; [done|done|done|lia|lia|done|done].
    + apply on_error_ok. unfold on_lib, s1, l1. cbn. by rewrite Ep2.
  - right. destruct (pop_ok p (elems (l_restore_ptrs l)) slot Hp He) as (p' & Ep' & Hp' & He'). pose proof (elems_length _ Hp') as Hlen. rewrite He', (elems_length _ H2) in Hlen. exists (with_restore p' (l_restore_values l) l). split; [done|].
    split; [|split; [|by split_and!]].
    + apply bind_err. eapply on_error_err; unfold on_lib, s1, l1; cbn; [by rewrite Ep2|]. cbn. by rewrite Ep'.
    + split; cbn; [done|done|done|lia|rewrite Nat2Z.inj_succ; lia|done|done].
Qed.

(** ** The search for a mapping *)

Definition holds_zone (ms : mmap_state) (zone tag : Z) : bool := (ms_start ms <=? zone) && (zone <? ms_start ms + ms_size ms) && (ms_tag ms =? tag).

Lemma find_mmap_state_ok zone tag s states : (forall m, m ∈ states -> is_Some (u_mstates s !! m)) ->
  (find_mmap_state zone tag states s = (Ok 0, s) /\ forall m ms, m ∈ states -> u_mstates s !! m = Some ms -> holds_zone ms zone tag = false) \/
  exists m ms, find_mmap_state zone tag states s = (Ok m, s) /\ m ∈ states /\ u_mstates s !! m = Some ms /\ holds_zone ms zone tag = true.
Proof.
  induction states as [|m states IH]; intros Hall; [left; split; [done|by intros m ms ?%not_elem_of_nil]|]. destruct (Hall m ltac:(left)) as [ms Hm].
  assert (E : find_mmap_state zone tag (m :: states) s = if holds_zone ms zone tag then (Ok m, s) else find_mmap_state zone tag states s).
  { cbn [find_mmap_state]. unfold bind, gets, lift. rewrite Hm. cbn [deref]. unfold holds_zone. by destruct (_ && _). }
  rewrite E. destruct (holds_zone ms zone tag) eqn:Ez; [right; exists m, ms; split; [done|split; [left|done]]|].
  destruct IH as [[E' Hn]|(m' & ms' & E' & Hin & Hm' & Hz)]; [intros m' Hm'; apply Hall; by right| |].
  - left. split; [done|]. intros m' ms' [->|Hin]%elem_of_cons Hm'; [rewrite Hm in Hm'; by injection Hm' as <-|by apply (Hn m')].
  - right. exists m', ms'. split; [done|]. split; [by right|done].
Qed.

Lemma get_mmap_state_ok n zone tag s l : u_lib s = Some l -> book_ok n (u_mstates s) l ->
  (sivfs_get_allocator_mmap_state zone tag s = (Ok 0, s) /\ forall a len, a <= zone < a + len -> ~ in_mapping (u_mstates s) l a len tag) \/
  exists m ms, sivfs_get_allocator_mmap_state zone tag s = (Ok m, s) /\ (m =? 0) = false /\ m ∈ elems (l_mmap_states l) /\ u_mstates s !! m = Some ms /\
    holds_zone ms zone tag = true.
Proof.
  intros Hl Hbo. unfold sivfs_get_allocator_mmap_state. rewrite (bind_step _ _ s (Some l) s) by by rewrite <- Hl. fold (elems (l_mmap_states l)).
  destruct (find_mmap_state_ok zone tag s (elems (l_mmap_states l)) (bo_listed _ _ _ Hbo)) as [[-> Hn]|(m & ms & -> & Hin & Hm & Hz)].
  - left. split; [done|]. intros a len Ha (m & ms & Hin & Hm & H1 & H2 & H3). specialize (Hn m ms Hin Hm). unfold holds_zone in Hn. lia.
  - right. exists m, ms. destruct (bo_bins _ _ _ Hbo m ms Hm) as [Hpos _]. split_and!; [done|lia|done|done|done].
Qed.

(** ** Writes, one after the other *)

(** [s'] is [s] after the writes [w]; the write set holds [es] and has room. *)
Record written (n : nat) (es : list wse) (w : list (Z * Z)) (s s' : ulib) : Prop := {
  wn_state : exists ws, s' = wrote w ws s;
  wn_set : ws_has n (u_ws s') (es ++ (write_entry <$> w))
}.

Lemma written_mem n es w s s' : written n es w s s' -> u_mem s' = apply_writes w (u_mem s) /\ u_mstates s' = u_mstates s /\ u_lib s' = u_lib s.
Proof. by intros [[ws ->] _]. Qed.

Lemma written_app n k es w w' s s1 s' : written n es w s s1 -> written k (es ++ (write_entry <$> w)) w' s1 s' -> written k es (w ++ w') s s'.
Proof.
  intros [[ws ->] _] [[ws' ->] H]. split; [exists ws'; unfold wrote; cbn; by rewrite apply_writes_app|]. rewrite fmap_app, (assoc_L (++)). exact H.
Qed.

Lemma write_all_written ev w n s es : ie_mem ev = true -> (forall v, v ∈ w -> writable (u_mem s) v.1) -> ws_has (length w + n) (u_ws s) es ->
  exists s', write_all ev w s = (Ok tt, s') /\ written n es w s s'.
Proof. intros Hev Hw Hs. destruct (write_all_ok ev w n s es Hev Hw Hs) as (ws & E & Hws). exists (wrote w ws s). split; [done|]. split; [by exists ws|done]. Qed.

(** Running a sequence whose first step is a list of writes. *)
Lemma run_writes {A} ev w n s es (m : M ulib unit) (k : M ulib A) : ie_mem ev = true -> (forall v, v ∈ w -> writable (u_mem s) v.1) -> ws_has (length w + n) (u_ws s) es ->
  m s = write_all ev w s -> exists s', (do! m in k) s = k s' /\ written n es w s s'.
Proof.
  intros Hev Hw Hs Em. destruct (write_all_written ev w n s es Hev Hw Hs) as (s' & E & Hwr). exists s'. split; [|done]. exact (bind_step m (fun _ => k) s tt s' (eq_trans Em E)).
Qed.

Lemma load_word a v s : u_mem s !! a = Some v -> load a s = (Ok v, s).
Proof. unfold load. by intros ->. Qed.

Lemma add_ws_writes ev h x q s : u_mem s !! (h + 16) = Some (q + 8) -> u_mem s !! (q + 8) = Some (h + 8) ->
  sivfs_alloc_lh_add_ws ev (h + 8) (x + 8) s = write_all ev (add_writes h x q) s.
Proof.
  intros H1 H2. unfold sivfs_alloc_lh_add_ws, lh_next, lh_prev. replace (h + 8 + 8) with (h + 16) by lia. rewrite (bind_step _ _ s _ s (load_word _ _ _ H1)).
  rewrite (bind_step _ _ s _ s (load_word _ _ _ H2)). replace (x + 8 + 8) with (x + 16) by lia. replace (h + 8 + 8) with (h + 16) by lia. revert s H1 H2. intros s _ _.
  revert s. unfold add_writes. as_writes.
Qed.

Lemma remove_ws_writes ev p x q s : u_mem s !! (x + 8) = Some (p + 8) -> u_mem s !! (x + 16) = Some (q + 8) -> p <> x -> q <> x -> 0 <= p -> 0 <= q ->
  sivfs_alloc_lh_remove_ws ev (x + 8) s = write_all ev (remove_writes p x q) s.
Proof.
  intros H1 H2 Hp Hq Hp0 Hq0. unfold sivfs_alloc_lh_remove_ws, lh_next, lh_prev. rewrite (bind_step _ _ s _ s (load_word _ _ _ H1)). replace (x + 8 + 8) with (x + 16) by lia.
  rewrite (bind_step _ _ s _ s (load_word _ _ _ H2)), !(proj2 (Z.eqb_neq _ _)) by lia. cbn [orb]. replace (p + 8 + 8) with (p + 16) by lia. clear H1 H2.
  revert s. unfold remove_writes. as_writes.
Qed.

(** ** From one heap to the next *)

Lemma moved_slot n k s es H s' H' l l' w slot v : lib_ok (S k) s l H -> u_mem s' = apply_writes w (u_mem s) -> ws_has n (u_ws s') (es ++ (write_entry <$> w)) ->
  u_mstates s' = slot_set (u_mstates s) slot v -> u_lib s' = Some l' -> book_ok k (u_mstates s') l' -> l_mmap_states l' = l_mmap_states l ->
  heap_words (u_mem s') H' -> list_head (h_lists H' !! slot) = v -> (forall s1, s1 <> slot -> h_lists H' !! s1 = h_lists H !! s1) ->
  covers (u_mstates s) l (h_blocks H') -> survivors_kept (h_blocks H) (h_blocks H') (u_mem s) (u_mem s') -> moved n k s es H s' H'.
Proof.
  intros [E1 Hbo _ Hhd Hcov] Hm Hws HM Hl' Hbo' Hls Hh Hv Ho Hc Hk. split; [exists l'; split; [done|done|done| |]|by exists w|done].
  - intros s1 v1. rewrite HM, slot_get_set. case_decide as E; [subst s1|]; [|rewrite Ho by done; by apply Hhd]. destruct (slot_get _ _); [|done]. congruence.
  - intros b kb sl Hb Hs. rewrite HM. specialize (Hc b kb sl Hb Hs). apply (in_mapping_set _ _ slot v) in Hc. unfold in_mapping in *. by rewrite Hls.
Qed.

Lemma moved_written n k s es H s' H' l w : lib_ok k s l H -> written n es w s s' -> heap_words (u_mem s') H' ->
  (forall slot, list_head (h_lists H' !! slot) = list_head (h_lists H !! slot)) ->
  covers (u_mstates s) l (h_blocks H') -> survivors_kept (h_blocks H) (h_blocks H') (u_mem s) (u_mem s') -> moved n k s es H s' H'.
Proof.
  intros [E1 Hbo _ Hhd Hcov] Hw Hh Ho Hc Hk. pose proof (written_mem _ _ _ _ _ Hw) as (Em & EM & El). split; [exists l; split|exists w; split; [done|apply Hw]|done].
  - by rewrite El.
  - by rewrite EM.
  - done.
  - intros s1 v. rewrite EM, Ho. apply Hhd.
  - by rewrite EM.
Qed.

Lemma moved_trans w n k s es H s1 H1 s' H' : u_mem s1 = apply_writes w (u_mem s) -> survivors_kept (h_blocks H) (h_blocks H1) (u_mem s) (u_mem s1) ->
  moved n k s1 (es ++ (write_entry <$> w)) H1 s' H' -> (forall p m, live (h_blocks H) p m -> live (h_blocks H') p m -> live (h_blocks H1) p m) -> moved n k s es H s' H'.
Proof.
  intros Ew Hk1 [Hok (w' & Ew' & Hws') Hk2] Hlive. split; [done| |].
  - exists (w ++ w'). rewrite apply_writes_app, <- Ew. split; [done|]. by rewrite fmap_app, (assoc_L (++)).
  - by apply (survivors_trans _ (h_blocks H1) _ _ (u_mem s1)).
Qed.

Lemma covers_with_slab M l (B : gmap Z ublock) b k sl sl' : covers M l B -> B !! b = Some k -> bk_slab k = Some sl -> covers M l (<[b := with_slab sl' k]> B).
Proof. intros Hc Hb Hs b' k' s'. rewrite lookup_insert. case_decide; [|apply Hc]. subst b'. intros [= <-] _. by apply (Hc b k sl). Qed.

Lemma kept_survivors B B' m m' : contents_kept B m m' -> survivors_kept B B' m m'.
Proof. intros H p n a Hp _. by apply (H p n). Qed.
Lemma kept_survivors' B B' m m' : contents_kept B' m m' -> survivors_kept B B' m m'.
Proof. intros H p n a _ Hp. by apply (H p n). Qed.

Lemma free_not_live B x b k sl j n : geometry B -> region_at B x b k sl j false -> ~ live B (x + 8) n.
Proof.
  intros Hg Hr [(r & b' & k' & s' & i & Hr' & E & _)|(b' & k' & Hb' & Hs' & E & _)].
  - assert (r = x) as -> by lia. destruct (regions_apart _ _ _ _ _ _ _ _ _ _ _ _ _ Hg Hr Hr') as [(_ & _ & _ & _ & ? & _)|]; [done|lia].
  - by destruct (region_not_big _ _ _ _ _ _ _ _ _ Hg Hr Hb' Hs'); lia.
Qed.

Lemma take_live B x b k sl j p n : geometry B -> region_at B x b k sl j false ->
  live (<[b := with_slab (mark_slab sl j true) k]> B) p n <-> live B p n \/ (p = x + 8 /\ n = sl_elt sl - 8).
Proof.
  intros Hg Hr. rewrite (mark_live B x b k sl j false true p n Hg Hr). split; [intros [[_ ?]|(_ & ?)]; auto|]. intros [Hl|?]; [left|by right].
  split; [|done]. intros ->. by apply (free_not_live B x b k sl j n Hg Hr).
Qed.

(** ** Size classes and free regions *)

Lemma get_bin_maxsize size b i : sivfs_allocator_bins_get_bin size = Ok (Some (b, i)) -> b = sivfs_allocator_bin_maxsize i.
Proof.
  unfold sivfs_allocator_bins_get_bin, get_bin_with. destruct (negb _); [done|]. destruct (_ =? 0); [done|]. cbv zeta. destruct (_ <=? _); [done|]. destruct (_ <? _); [done|]. by intros [= <- <-].
Qed.

Lemma class_unique e e' i : class e i -> class e' i -> e = e'.
Proof. intros [H1 _ _ _] [H2 _ _ _]. apply get_bin_maxsize in H1, H2. congruence. Qed.

Lemma slab_range (B : gmap Z ublock) x b k sl j u : geometry B -> region_at B x b k sl j u -> sl_elt sl <= elt_size (bk_size k) sl j < 2 ^ 30 /\ bk_size k < 2 ^ 20.
Proof.
  intros Hg Hr. pose proof (region_block _ _ _ _ _ _ _ Hg Hr) as (_ & _ & _ & He & _). destruct Hr as (Hb & Hs & Hj & _). destruct (ge_block _ Hg _ _ Hb) as [_ _ H3].
  destruct (H3 _ Hs) as (Hn & _ & _ & Hroom & _). apply lookup_lt_Some in Hj. unfold elt_size. destruct (sl_uncut sl && _) eqn:E; [|lia].
  apply andb_true_iff in E as [_ E%Nat.eqb_eq]. nia.
Qed.

(** The header of the region of an element. *)
Lemma region_word m H x b k sl j u : heap_words m H -> region_at (h_blocks H) x b k sl j u ->
  exists w, m !! x = Some w /\ packed w (elt_size (bk_size k) sl j) (Z.of_nat j) (negb u).
Proof. intros [Hg Hw _ _] (Hb & Hs & Hj & ->). destruct (Hw _ _ Hb) as [_ _ _ _ He]. by apply He. Qed.

Lemma region_writable m H x b k sl j u d : heap_words m H -> region_at (h_blocks H) x b k sl j u -> d = 0 \/ d = 8 \/ d = 16 -> writable m (x + d).
Proof.
  intros HH Hr Hd. pose proof (region_block _ _ _ _ _ _ _ (hw_geometry _ _ HH) Hr) as (H1 & H2 & H3 & _). destruct Hr as (Hb & _). apply (writable_in m b k); [by apply HH|lia|].
  unfold SIZEOF_WORD in *. rewrite Z.add_mod, H3 by done. by destruct Hd as [->|[-> | ->]].
Qed.

Lemma list_writable m H slot c R w : heap_words m H -> h_lists H !! slot = Some c -> (forall r, r ∈ R -> r ∈ c) -> link_writes R w -> forall v, v ∈ w -> writable m v.1.
Proof.
  intros HH Hsl HR Hw v Hv. destruct (Hw v Hv) as (r & Hr%HR & Hvr). destruct (lo_free _ _ _ _ (hw_lists _ _ HH _ _ Hsl) r Hr) as (b & k & sl & j & Hat & _).
  destruct Hvr as [-> | ->]; apply (region_writable m H r b k sl j false); auto.
Qed.

(** ** Taking a region *)

(** The object that malloc hands out, of [e] bytes with its header. *)
Definition gains (B B' : gmap Z ublock) (x e : Z) : Prop := (forall p n, live B' p n <-> live B p n \/ (p = x + 8 /\ n = e - 8)) /\ forall n, ~ live B (x + 8) n.
Definition same_objects (B B' : gmap Z ublock) : Prop := forall p n, live B' p n <-> live B p n.

Lemma gains_after B B1 B' x e : same_objects B B1 -> gains B1 B' x e -> gains B B' x e.
Proof.
  intros H1 [H2 H3]. split; [intros p n; specialize (H1 p n); specialize (H2 p n); tauto|]. intros n Hn. apply (H3 n). by apply H1.
Qed.

Lemma take_gains B x b k sl j : geometry B -> region_at B x b k sl j false -> gains B (<[b := with_slab (mark_slab sl j true) k]> B) x (sl_elt sl).
Proof. intros Hg Hr. split; [intros p n; by apply take_live|]. intros n. by apply (free_not_live B x b k sl j). Qed.

Lemma take_region_start ev slot head x e rs w s n es : ie_mem ev = true -> e <= rs -> u_mem s !! x = Some w -> x mod SIZEOF_WORD = 0 -> ws_has (1 + n) (u_ws s) es ->
  exists s', take_region ev slot head (x + 8) e rs s =
    (do! (if x + 8 =? head then let! empty := sivfs_alloc_list_empty head in if empty then sivfs_set_free_list ev slot 0 else throw EINVAL
          else sivfs_alloc_lh_remove_ws ev (x + 8)) in ret x) s' /\ written n es [(x, Z.lor e (Z.land w SIVFS_SLAB_INDEX_MASK))] s s'.
Proof.
  intros Hev Hrs Hw Hx Hs. unfold take_region, sivfs_allocator_lh_to_allocated_region. replace (x + 8 - 8) with x by lia.
  rewrite (proj2 (Z.ltb_ge _ _)) by lia. rewrite (bind_step _ _ s w s (load_word _ _ _ Hw)).
  apply (run_writes ev [(x, Z.lor e (Z.land w SIVFS_SLAB_INDEX_MASK))]); [done| |done|apply write_one]. intros v ->%list_elem_of_singleton. split; [done|]. by eexists.
Qed.

Lemma take_nonhead ev slot h pre x post b bk sl j rs s l H n k es : ie_mem ev = true -> lib_ok k s l H -> ws_has (5 + n) (u_ws s) es ->
  h_lists H !! slot = Some (h :: pre ++ x :: post) -> region_at (h_blocks H) x b bk sl j false -> sl_elt sl <= rs ->
  exists s' H', take_region ev slot (h + 8) (x + 8) (sl_elt sl) rs s = (Ok x, s') /\ moved n k s es H s' H' /\ gains (h_blocks H) (h_blocks H') x (sl_elt sl).
Proof.
  intros Hev Hok Hws Hsl Hr Hrs. pose proof Hok as [El Hbo Hh Hhd Hcov]. pose proof (hw_geometry _ _ Hh) as Hg. destruct (region_word _ _ _ _ _ _ _ _ Hh Hr) as (w0 & Hw0 & Hp0).
  pose proof (region_block _ _ _ _ _ _ _ Hg Hr) as (_ & _ & Hxa & He & _). pose proof (lo_nodup _ _ _ _ (hw_lists _ _ Hh _ _ Hsl)) as Hnd.
  assert (Hxh : x <> h) by (intros ->; apply NoDup_cons in Hnd as [Hn _]; apply Hn, elem_of_app; right; left).
  destruct (@exists_last _ (h :: pre)) as (a & p & Ep); [done|]. destruct (snoc_split post h) as (q & c & Eq & Hqin & _).
  set (w := Z.lor (sl_elt sl) (Z.land w0 SIVFS_SLAB_INDEX_MASK)) in *. assert (Hp : packed w (sl_elt sl) (Z.of_nat j) false) by (eapply packed_take; [exact Hp0|lia]).
  destruct (heap_take _ _ _ _ _ _ _ _ _ _ _ w a p q c Hh Hsl Hr Hp Ep Eq) as (Hprev & Hnext & Hh' & Hown).
  destruct (take_region_start ev slot (h + 8) x (sl_elt sl) rs w0 s (4 + n) es Hev Hrs Hw0 Hxa Hws) as (s1 & E1 & Hwr1).
  rewrite (proj2 (Z.eqb_neq _ _)) in E1 by lia. fold w in Hwr1. pose proof (written_mem _ _ _ _ _ Hwr1) as (Em & _).
  assert (Hin : forall y, y ∈ [p; x; q] -> y ∈ h :: pre ++ x :: post).
  { rewrite app_comm_cons, Ep. rewrite app_comm_cons, Ep in Hsl. intros y [->|[->|[->|[]%not_elem_of_nil]%elem_of_cons]%elem_of_cons]%elem_of_cons;
      [apply elem_of_app; left; apply elem_of_app; right; left|apply elem_of_app; right; left|]. rewrite <- Ep.
    apply elem_of_cons in Hqin as [->|?]; [left|apply elem_of_app; right; by right]. }
  assert (Hpos : forall y, y ∈ h :: pre ++ x :: post -> 0 <= y).
  { intros y Hy. destruct (lo_free _ _ _ _ (hw_lists _ _ Hh _ _ Hsl) y Hy) as (b' & k' & s' & i & Hat & _). pose proof (region_block _ _ _ _ _ _ _ Hg Hat).
    destruct Hat as (Hb' & _). pose proof (bg_start _ _ (ge_block _ Hg _ _ Hb')). lia. }
  assert (Hpx : p <> x).
  { intros ->. rewrite app_comm_cons, Ep in Hnd. apply NoDup_app in Hnd as (_ & Hn & _). apply (Hn x); [apply elem_of_app; right; left|left]. }
  assert (Hqx : q <> x).
  { intros ->. apply NoDup_cons in Hnd as [_ (_ & _ & [Hx _]%NoDup_cons)%NoDup_app]. by apply elem_of_cons in Hqin as [?|?]. }
  assert (Er : sivfs_alloc_lh_remove_ws ev (x + 8) s1 = write_all ev (remove_writes p x q) s1).
  { apply remove_ws_writes; [|..|apply Hpos, Hin; left|apply Hpos, Hin; right; right; left]; try done; rewrite Em; cbn; by rewrite lookup_insert_ne by lia. }
  destruct (write_all_written ev (remove_writes p x q) n s1 (es ++ (write_entry <$> [(x, w)])) Hev) as (s2 & E2 & Hwr2).
  - intros v Hv. rewrite Em. apply writable_writes. by apply (list_writable _ _ _ _ _ _ Hh Hsl Hin (remove_is_links p x q)).
  - apply Hwr1.
  - pose proof (written_app _ _ _ _ _ _ _ _ Hwr1 Hwr2) as Hwr. pose proof (written_mem _ _ _ _ _ Hwr) as (Em2 & _). cbn [app] in Hwr, Em2.
    exists s2, (mk_uheap (<[b := with_slab (mark_slab sl j true) bk]> (h_blocks H)) (<[slot := h :: pre ++ post]> (h_lists H))). split; [|split].
    + rewrite E1, (bind_step _ _ _ _ _ (eq_trans Er E2)). done.
    + apply (moved_written n k s es H _ _ l _ Hok Hwr); [by rewrite Em2|intros s0; cbn [h_lists]; rewrite lookup_insert; case_decide as Ed; [by rewrite <- Ed, Hsl|done]|
        cbn [h_blocks]; destruct Hr as (Hb & Hs & _); by apply (covers_with_slab _ _ _ _ _ sl)|]. apply kept_survivors. rewrite Em2. by apply own_writes_keep.
    + by apply take_gains.
Qed.

Lemma take_head ev slot h b bk sl j rs s l H n k es : ie_mem ev = true -> lib_ok (S k) s l H -> ws_has (1 + n) (u_ws s) es -> is_Some (slot_get (u_mstates s) slot) ->
  h_lists H !! slot = Some [h] -> region_at (h_blocks H) h b bk sl j false -> sl_elt sl <= rs ->
  exists s' H', take_region ev slot (h + 8) (h + 8) (sl_elt sl) rs s = (Ok h, s') /\ moved n k s es H s' H' /\ gains (h_blocks H) (h_blocks H') h (sl_elt sl).
Proof.
  intros Hev Hok Hws [old Hold] Hsl Hr Hrs. pose proof Hok as [El Hbo Hh Hhd Hcov]. pose proof (hw_geometry _ _ Hh) as Hg. destruct (region_word _ _ _ _ _ _ _ _ Hh Hr) as (w0 & Hw0 & Hp0).
  pose proof (region_block _ _ _ _ _ _ _ Hg Hr) as (_ & _ & Hxa & He & _).
  set (w := Z.lor (sl_elt sl) (Z.land w0 SIVFS_SLAB_INDEX_MASK)) in *. assert (Hp : packed w (sl_elt sl) (Z.of_nat j) false) by (eapply packed_take; [exact Hp0|lia]).
  destruct (heap_take_head _ _ _ _ _ _ _ _ w Hh Hsl Hr Hp) as (Hnext & Hh').
  destruct (take_region_start ev slot (h + 8) h (sl_elt sl) rs w0 s n es Hev Hrs Hw0 Hxa Hws) as (s1 & E1 & Hwr1).
  rewrite Z.eqb_refl in E1. fold w in Hwr1. pose proof (written_mem _ _ _ _ _ Hwr1) as (Em & EM & Elib). cbn in Em.
  assert (Ee : sivfs_alloc_list_empty (h + 8) s1 = (Ok true, s1)).
  { unfold sivfs_alloc_list_empty, lh_next. replace (h + 8 + 8) with (h + 16) by lia. rewrite (bind_step _ _ s1 (h + 8) s1); [by rewrite Z.eqb_refl|].
    apply load_word. by rewrite Em, lookup_insert_ne by lia. }
  rewrite bind_assoc, (bind_step _ _ _ _ _ Ee) in E1. rewrite El in Elib. rewrite <- EM in Hbo, Hold.
  destruct (set_free_list_ok ev slot 0 s1 l k old Elib Hbo Hold) as [(l' & E2 & Hbo' & Hrem)|(l' & Hf & _)]; [|congruence].
  set (s2 := mk_ulib _ _ _ _) in E2. exists s2, (mk_uheap (<[b := with_slab (mark_slab sl j true) bk]> (h_blocks H)) (delete slot (h_lists H))). split; [|split].
  - by rewrite E1, (bind_step _ _ _ _ _ E2).
  - apply (moved_slot n k s es H s2 _ l l' [(h, w)] slot 0 Hok); cbn [s2 u_mem u_ws u_mstates u_lib h_blocks h_lists]; try done.
    + apply Hwr1.
    + by rewrite EM.
    + apply Hrem.
    + by rewrite Em.
    + by rewrite lookup_delete_eq.
    + intros s0 Hne. by rewrite lookup_delete_ne.
    + destruct Hr as (Hb & Hs & _). by apply (covers_with_slab _ _ _ _ _ sl).
    + apply kept_survivors. rewrite Em. apply (own_writes_keep _ _ [(h, w)] Hg). intros v ->%list_elem_of_singleton. exists h, b, bk, sl, j, false. split; [done|by left].
  - by apply take_gains.
Qed.

(** ** Cutting a region *)

Lemma write_mem ev a v s s1 : sivfs_write_ws ev a v s = (Ok tt, s1) -> u_mem s1 = <[a := v]> (u_mem s).
Proof.
  unfold sivfs_write_ws. destruct (negb _); [done|]. intros (? & s2 & E2 & E)%bind_Ok. unfold store in E2. destruct (u_mem s !! a); [|done]. injection E2 as _ <-.
  unfold on_wset in E. destruct (sivfs_add_to_writeset _ _ _ _) as [r ws]. by injection E as _ <-.
Qed.

(** The writes that follow one write, or several, may depend on the memory left. *)
Lemma write_then ev a v k l s : (forall s1, u_mem s1 = <[a := v]> (u_mem s) -> k s1 = write_all ev l s1) ->
  (do! sivfs_write_ws ev a v in k) s = write_all ev ((a, v) :: l) s.
Proof.
  intros Hk. cbn [write_all fst snd]. unfold bind. destruct (sivfs_write_ws ev a v s) as [r s1] eqn:E. destruct r as [[]| | |]; [|done..]. by apply Hk, (write_mem ev).
Qed.

Lemma write_all_mem ev l : forall s s1, write_all ev l s = (Ok tt, s1) -> u_mem s1 = apply_writes l (u_mem s).
Proof.
  induction l as [|[a v] l IH]; intros s s1 E; [by injection E as <-|]. cbn [write_all fst snd] in E. apply bind_Ok in E as ([] & s2 & E1 & E2).
  rewrite (IH _ _ E2), (write_mem _ _ _ _ _ E1). done.
Qed.

Lemma write_all_then ev m l k l' s : m s = write_all ev l s -> (forall s1, u_mem s1 = apply_writes l (u_mem s) -> k s1 = write_all ev l' s1) ->
  (do! m in k) s = write_all ev (l ++ l') s.
Proof.
  intros Hm Hk. rewrite write_all_app. unfold bind. rewrite Hm. destruct (write_all ev l s) as [[[]| | |] s1] eqn:E; [|done..]. by apply Hk, (write_all_mem ev).
Qed.

Definition same_extent (B B' : gmap Z ublock) : Prop := forall b k', B' !! b = Some k' -> exists k, B !! b = Some k /\ bk_size k = bk_size k'.

Lemma with_slab_extent (B : gmap Z ublock) b k sl : B !! b = Some k -> same_extent B (<[b := with_slab sl k]> B).
Proof. intros Hb b' k'. rewrite lookup_insert. case_decide; [subst b'; intros [= <-]; by exists k|intros Hb'; by exists k']. Qed.

Lemma own_writable B B' m v : blocks_in B m -> geometry B' -> same_extent B B' -> own_write B' v -> writable m v.1.
Proof.
  intros [_ HW] Hg He (r & b & k' & sl & j & u & Hr & Hv). pose proof (region_block _ _ _ _ _ _ _ Hg Hr) as (H1 & H2 & H3 & _). destruct Hr as (Hb & _).
  destruct (He _ _ Hb) as (k & Hbk & Hs). apply (writable_in m b k); [by apply HW|destruct Hv as [->|(_ & [-> | ->])]; lia|].
  unfold SIZEOF_WORD in *. destruct Hv as [->|(_ & [-> | ->])]; [done|rewrite Z.add_mod, H3 by done; done..].
Qed.

(** Links are not headers. *)
Lemma header_link B x y w d (m : gmap Z Z) : geometry B -> placed B x -> placed B y -> d = 8 \/ d = 16 -> <[x := w]> m !! (y + d) = m !! (y + d).
Proof. intros Hg Hx Hy Hd. destruct (placed_apart B x y Hg Hx Hy) as [->|]; by rewrite lookup_insert_ne by lia. Qed.

Lemma split_writes ev B h x w0 w1 w2 e z j q s : geometry B -> placed B x -> placed B (x + e) -> placed B h -> placed B q -> u_mem s !! x = Some w0 -> packed w0 z (Z.of_nat j) true ->
  w1 = Z.lor (Z.lor e (sivfs_allocated_region_flags w0)) (Z.land w0 SIVFS_SLAB_INDEX_MASK) ->
  w2 = Z.lor (Z.lor (z - e) SIVFS_FREED_MAGIC) (u64 (Z.shiftl (Z.of_nat (S j)) SIVFS_SLAB_INDEX_SHIFT)) ->
  u_mem s !! (h + 16) = Some (q + 8) -> u_mem s !! (q + 8) = Some (h + 8) -> 0 <= e <= z -> z < 2 ^ 30 -> Z.of_nat (S j) < 2 ^ 16 - 1 ->
  split_region ev (h + 8) x e z s = write_all ev ((x, w1) :: (x + e, w2) :: add_writes h (x + e) q) s.
Proof.
  intros Hg Hx Hx' Hh Hq Hw0 Hp -> -> H1 H2 He Hz Hj. pose proof (packed_reads _ _ _ _ Hp) as Hrd. unfold split_region. rewrite (bind_step _ _ s w0 s (load_word _ _ _ Hw0)).
  rewrite (hr_index _ _ _ _ Hrd), (proj2 (Z.ltb_ge _ _)) by (change SIVFS_MAX_SLAB_ELTS with 65535; lia). rewrite usub_small by u64_lia. replace (Z.of_nat j + 1) with (Z.of_nat (S j)) by lia.
  apply write_then. intros s1 E1. apply write_then. intros s2 E2. apply (add_ws_writes ev h (x + e) q); rewrite E2, (header_link B), E1, (header_link B); auto.
Qed.

(** The region [x] of the list is cut behind its first element. *)
Lemma split_ok ev slot h t x b bk sl j s l H n k es : ie_mem ev = true -> lib_ok k s l H -> ws_has (6 + n) (u_ws s) es -> h_lists H !! slot = Some (h :: t) -> x ∈ h :: t ->
  region_at (h_blocks H) x b bk sl j false -> 2 * sl_elt sl <= elt_size (bk_size bk) sl j -> class (sl_elt sl) (slot mod 64) ->
  let B' := <[b := with_slab (cut_slab sl) bk]> (h_blocks H) in
  exists s' w, split_region ev (h + 8) x (sl_elt sl) (elt_size (bk_size bk) sl j) s = (Ok tt, s') /\
    moved n k s es H s' (mk_uheap B' (<[slot := h :: (x + sl_elt sl) :: t]> (h_lists H))) /\ same_objects (h_blocks H) B' /\
    region_at B' x b (with_slab (cut_slab sl) bk) (cut_slab sl) j false /\ region_at B' (x + sl_elt sl) b (with_slab (cut_slab sl) bk) (cut_slab sl) (S j) false /\
    elt_size (bk_size bk) (cut_slab sl) j = sl_elt sl /\ written n es w s s'.
Proof.
  intros Hev Hok Hws Hsl Hx Hr Hbig Hc B'. pose proof Hok as [El Hbo Hh Hhd Hcov]. pose proof (hw_geometry _ _ Hh) as Hg. destruct (region_word _ _ _ _ _ _ _ _ Hh Hr) as (w0 & Hw0 & Hp0).
  pose proof (region_block _ _ _ _ _ _ _ Hg Hr) as (_ & _ & Hxa & He & _). destruct (slab_range _ _ _ _ _ _ _ Hg Hr) as [Hsz Hbs]. pose proof Hr as (Hb & Hs & Hj & Ex).
  destruct (big_enough (bk_size bk) sl j ltac:(lia) Hbig) as (_ & Hlen & Hes). assert (Hj16 : 0 <= Z.of_nat (S j) < 2 ^ 16 - 1).
  { destruct (ge_block _ Hg _ _ Hb) as [_ _ H3]. destruct (H3 _ Hs) as (Hn & _ & _ & Hroom & _). nia. }
  set (e := sl_elt sl) in *. set (z := elt_size (bk_size bk) sl j) in *.
  set (w1 := Z.lor (Z.lor e (sivfs_allocated_region_flags w0)) (Z.land w0 SIVFS_SLAB_INDEX_MASK)).
  set (w2 := Z.lor (Z.lor (z - e) SIVFS_FREED_MAGIC) (u64 (Z.shiftl (Z.of_nat (S j)) SIVFS_SLAB_INDEX_SHIFT))).
  assert (Hp1 : packed w1 e (Z.of_nat j) true) by (eapply packed_keep; [exact Hp0|lia]). assert (Hp2 : packed w2 (z - e) (Z.of_nat (S j)) true) by (apply packed_split; lia).
  destruct (snoc_split t h) as (q & r & Eq & Hqin & _). destruct (ring_head _ _ _ _ _ Eq (lo_ring _ _ _ _ (hw_lists _ _ Hh _ _ Hsl))) as (Hh16 & Hq8 & _).
  destruct (heap_cut _ _ _ _ _ _ _ _ _ _ w1 w2 q r Hh Hsl Hx Hr Hbig Hp1 Hp2 Hc Eq) as [Hh' Hown]. fold e B' in Hh', Hown.
  destruct (cut_blocks _ _ _ _ _ _ _ w1 w2 (conj Hg (hw_words _ _ Hh)) Hr Hbig Hp1 Hp2) as ((Hg' & _) & Hrx & Hrx' & Hsz'). fold e B' in Hg', Hrx, Hrx'.
  assert (Hpl : forall y, y ∈ h :: t -> placed B' y).
  { intros y Hy. apply (keeps_placed (h_blocks H) B' (fun _ => True)); [by apply cut_keeps|done|by apply (list_ok_placed _ _ _ _ _ (hw_lists _ _ Hh _ _ Hsl))]. }
  assert (E : split_region ev (h + 8) x e z s = write_all ev ((x, w1) :: (x + e, w2) :: add_writes h (x + e) q) s).
  { apply (split_writes ev B' h x w0 w1 w2 e z j q); try done; [by exists b, (with_slab (cut_slab sl) bk), (cut_slab sl), j, false|by exists b, (with_slab (cut_slab sl) bk), (cut_slab sl), (S j), false|
      apply Hpl; left|by apply Hpl|lia|lia|lia]. }
  destruct (write_all_written ev _ n s es Hev (fun v Hv => own_writable _ _ _ v (conj Hg (hw_words _ _ Hh)) Hg' (with_slab_extent _ _ _ _ Hb) (Hown v Hv)) Hws) as (s' & E' & Hwr).
  pose proof (written_mem _ _ _ _ _ Hwr) as (Em & _). exists s', ((x, w1) :: (x + e, w2) :: add_writes h (x + e) q). split; [by rewrite E|]. split_and!; try done.
  - apply (moved_written n k s es H _ _ l _ Hok Hwr); [by rewrite Em|intros s0; cbn [h_lists]; rewrite lookup_insert; case_decide as Ed; [by rewrite <- Ed, Hsl|done]|
      cbn [h_blocks]; by apply (covers_with_slab _ _ _ _ _ sl)|]. apply kept_survivors'. cbn [h_blocks]. rewrite Em. by apply own_writes_keep.
  - intros p n'. by apply cut_live.
Qed.

Lemma lib_ok_weaken k k' s l H : (k <= k')%nat -> lib_ok k' s l H -> lib_ok k s l H.
Proof. intros Hk [H1 [B1 B2 B3 B4 B5 B6 B7] H3 H4 H5]. split; try done. split; try done. lia. Qed.

Lemma ws_has_weaken n n' ws es : (n <= n')%nat -> ws_has n' ws es -> ws_has n ws es.
Proof. intros Hn [H1 H2]. split; [done|lia]. Qed.

Lemma moved_weaken n n' k k' s es H s' H' : (n <= n')%nat -> (k <= k')%nat -> moved n' k' s es H s' H' -> moved n k s es H s' H'.
Proof.
  intros Hn Hk [[l Hok] (w & Ew & Hws) Hkp]. split; [exists l; by apply (lib_ok_weaken k k')|exists w; split; [done|by apply (ws_has_weaken n n')]|done].
Qed.

(** ** The loop over a free list *)

(** One round: the region behind the head is looked at. *)
Lemma alloc_within_round f ev slot h q r t e z j w s : t ++ [h] = q :: r -> ring (u_mem s) (h :: t) -> u_mem s !! q = Some w -> packed w z j true -> 0 <= q -> 0 <= e < 2 ^ 20 ->
  alloc_within (S f) ev slot (h + 8) e s =
  (if 2 * e <=? z then
     do! split_region ev (h + 8) q e z in
     if q =? h then alloc_within f ev slot (h + 8) e else take_region ev slot (h + 8) (q + 8) e e
   else take_region ev slot (h + 8) (q + 8) e z) s.
Proof.
  intros Eq Hring Hw Hp Hq He. destruct (ring_head _ _ _ _ _ Eq Hring) as (H1 & _). pose proof (packed_reads _ _ _ _ Hp) as Hrd. cbn [alloc_within]. unfold lh_next.
  replace (h + 8 + 8) with (h + 16) by lia. rewrite (bind_step _ _ s _ s (load_word _ _ _ H1)), (proj2 (Z.eqb_neq _ _)) by lia.
  unfold sivfs_allocator_lh_to_allocated_region. replace (q + 8 - 8) with q by lia. rewrite (bind_step _ _ s _ s (load_word _ _ _ Hw)).
  rewrite (hr_magic _ _ _ _ Hrd), Z.eqb_refl, (hr_size _ _ _ _ Hrd), umul_small by u64_lia. cbn [negb]. rewrite (Z.mul_comm e 2).
  destruct (2 * e <=? z); [|done]. replace (q + 8 =? h + 8) with (q =? h); [done|]. destruct (Z.eqb_spec q h), (Z.eqb_spec (q + 8) (h + 8)); done || lia.
Qed.

(** A list with another region than its head: that one is taken. *)
Lemma alloc_nonhead f ev slot h q t e s l H n k es : ie_mem ev = true -> lib_ok k s l H -> ws_has (11 + n) (u_ws s) es -> h_lists H !! slot = Some (h :: q :: t) ->
  class e (slot mod 64) ->
  exists s' H', alloc_within (S f) ev slot (h + 8) e s = (Ok q, s') /\ moved n k s es H s' H' /\ gains (h_blocks H) (h_blocks H') q e.
Proof.
  intros Hev Hok Hws Hsl Hc. pose proof Hok as [El Hbo Hh Hhd Hcov]. pose proof (hw_geometry _ _ Hh) as Hg. pose proof (hw_lists _ _ Hh _ _ Hsl) as Hlo.
  destruct (lo_free _ _ _ _ Hlo q) as (b & bk & sl & j & Hr & Hcl); [right; left|]. assert (sl_elt sl = e) as <- by by apply (class_unique _ _ (slot mod 64)).
  destruct (region_word _ _ _ _ _ _ _ _ Hh Hr) as (w & Hw & Hp). cbn [negb] in Hp. destruct (slab_range _ _ _ _ _ _ _ Hg Hr) as [Hsz Hbs].
  pose proof (region_block _ _ _ _ _ _ _ Hg Hr) as (Hq1 & _ & _ & He & _). assert (0 < b) by (destruct Hr as (Hb & _); apply (ge_block _ Hg _ _ Hb)).
  rewrite (alloc_within_round f ev slot h q (t ++ [h]) (q :: t) (sl_elt sl) _ _ w s eq_refl (lo_ring _ _ _ _ Hlo) Hw Hp ltac:(lia) ltac:(lia)).
  pose proof (lo_nodup _ _ _ _ Hlo) as Hnd. assert (Hqh : q <> h) by (intros ->; apply NoDup_cons in Hnd as [Hn _]; apply Hn; left). rewrite (proj2 (Z.eqb_neq q h)) by done.
  destruct (Z.leb_spec (2 * sl_elt sl) (elt_size (bk_size bk) sl j)) as [Hbig|Hsmall].
  - destruct (split_ok ev slot h (q :: t) q b bk sl j s l H (5 + n) k es Hev Hok Hws Hsl ltac:(right; left) Hr Hbig Hc) as (s1 & w1 & E1 & Hmv & Hlv & Hr1 & _ & Hsz1 & Hwr).
    rewrite (bind_step _ _ _ _ _ E1). set (H1 := mk_uheap _ _) in Hmv. pose proof Hmv as [[l1 Hok1] _ Hkp].
    destruct (take_nonhead ev slot h [q + sl_elt sl] q t b (with_slab (cut_slab sl) bk) (cut_slab sl) j (sl_elt sl) s1 l1 H1 n k (es ++ (write_entry <$> w1)) Hev Hok1) as (s' & H' & E' & Hmv' & Hg');
      [apply Hwr|cbn; by rewrite lookup_insert_eq|exact Hr1|done|].
    exists s', H'. split; [exact E'|]. split.
    + apply (moved_trans w1 n k s es H s1 H1); [apply (written_mem _ _ _ _ _ Hwr)|exact Hkp|exact Hmv'|]. intros p m Hp' _. by apply Hlv.
    + exact (gains_after _ _ _ _ _ Hlv Hg').
  - destruct (take_nonhead ev slot h [] q t b bk sl j (elt_size (bk_size bk) sl j) s l H n k es Hev Hok) as (s' & H' & E' & Hmv' & Hg'); [|done|done|lia|by exists s', H'].
    apply (ws_has_weaken _ (11 + n)); [lia|done].
Qed.

Lemma alloc_within_ok ev slot h t e s l H n k es : ie_mem ev = true -> lib_ok (S k) s l H -> ws_has (17 + n) (u_ws s) es -> is_Some (slot_get (u_mstates s) slot) ->
  h_lists H !! slot = Some (h :: t) -> class e (slot mod 64) ->
  exists x s' H', alloc_within 2 ev slot (h + 8) e s = (Ok x, s') /\ moved n k s es H s' H' /\ gains (h_blocks H) (h_blocks H') x e.
Proof.
  intros Hev Hok Hws Hslot Hsl Hc. pose proof Hok as [El Hbo Hh Hhd Hcov]. destruct t as [|q t].
  2: { destruct (alloc_nonhead 1 ev slot h q t e s l H n k es) as (s' & H' & ? & ? & ?); [done|by apply (lib_ok_weaken _ (S k)); [lia|]|by apply (ws_has_weaken _ (17 + n)); [lia|]|done|done|by exists q, s', H']. }
  pose proof (hw_geometry _ _ Hh) as Hg. pose proof (hw_lists _ _ Hh _ _ Hsl) as Hlo.
  destruct (lo_free _ _ _ _ Hlo h) as (b & bk & sl & j & Hr & Hcl); [left|]. assert (sl_elt sl = e) as <- by by apply (class_unique _ _ (slot mod 64)).
  destruct (region_word _ _ _ _ _ _ _ _ Hh Hr) as (w & Hw & Hp). cbn [negb] in Hp. destruct (slab_range _ _ _ _ _ _ _ Hg Hr) as [Hsz Hbs].
  pose proof (region_block _ _ _ _ _ _ _ Hg Hr) as (Hq1 & _ & _ & He & _). assert (0 < b) by (destruct Hr as (Hb & _); apply (ge_block _ Hg _ _ Hb)).
  rewrite (alloc_within_round 1 ev slot h h [] [] (sl_elt sl) _ _ w s eq_refl (lo_ring _ _ _ _ Hlo) Hw Hp ltac:(lia) ltac:(lia)), Z.eqb_refl.
  destruct (Z.leb_spec (2 * sl_elt sl) (elt_size (bk_size bk) sl j)) as [Hbig|Hsmall].
  - destruct (split_ok ev slot h [] h b bk sl j s l H (11 + n) (S k) es Hev Hok Hws Hsl ltac:(left) Hr Hbig Hc) as (s1 & w1 & E1 & Hmv & Hlv & Hr1 & _ & Hsz1 & Hwr).
    rewrite (bind_step _ _ _ _ _ E1). set (H1 := mk_uheap _ _) in Hmv. pose proof Hmv as [[l1 Hok1] _ Hkp].
    destruct (alloc_nonhead 0 ev slot h (h + sl_elt sl) [] (sl_elt sl) s1 l1 H1 n k (es ++ (write_entry <$> w1)) Hev) as (s' & H' & E' & Hmv' & Hg');
      [apply (lib_ok_weaken _ (S k)); [lia|done]|apply Hwr|cbn; by rewrite lookup_insert_eq|exact Hc|].
    exists (h + sl_elt sl), s', H'. split; [exact E'|]. split.
    + apply (moved_trans w1 n k s es H s1 H1); [apply (written_mem _ _ _ _ _ Hwr)|exact Hkp|exact Hmv'|]. intros p m Hp' _. by apply Hlv.
    + exact (gains_after _ _ _ _ _ Hlv Hg').
  - destruct (take_head ev slot h b bk sl j (elt_size (bk_size bk) sl j) s l H n k es Hev Hok) as (s' & H' & E' & Hmv' & Hg'); [|done|done|done|lia|by exists h, s', H'].
    apply (ws_has_weaken _ (17 + n)); [lia|done].
Qed.
