(* ===== verification/UserCalls.v ===== *)
(** sivfs_malloc_ws and sivfs_free_ws as a whole, on a heap in order: what they
    return, the heap they leave, and what an abort undoes
    (lib/sivfs_allocator.h). *)
From S2P Require Import Prelude Types Stack Writeset UserBins UserAlloc UserHeap UserSlab UserMalloc.

(** ** A new slab *)

Lemma then_write {A} ev a v l (m k : M ulib A) : (forall s, m s = (do! write_all ev l in k) s) ->
  forall s, (do! sivfs_write_ws ev a v in m) s = (do! write_all ev ((a, v) :: l) in k) s.
Proof. intros Hm s. cbn [write_all fst snd]. rewrite bind_assoc. unfold bind at 1. symmetry. unfold bind at 1. destruct (sivfs_write_ws ev a v s) as [[[]| | |] s1]; [symmetry; apply Hm|done..]. Qed.

Lemma then_footer {A} ev b n tag l (m k : M ulib A) : (forall s, m s = (do! write_all ev l in k) s) ->
  forall s, (do! write_footer ev b n tag in m) s = (do! write_all ev ((b + n - 16, tag) :: (b + n - 8, n) :: l) in k) s.
Proof.
  intros Hm s. unfold write_footer, SIVFS_BLOCK_FOOTER_SIZE. rewrite bind_assoc. replace (b + n - (8 + 8) + 8) with (b + n - 8) by lia. replace (b + n - (8 + 8)) with (b + n - 16) by lia.
  apply then_write. intros s1. by apply then_write.
Qed.

Lemma no_more_writes {A} ev (k : M ulib A) : forall s, k s = (do! write_all ev [] in k) s.
Proof. done. Qed.

(** Small numbers have no flags. *)
Lemma has_flag_small x : 0 <= x < 2 ^ 30 -> has_flag x (Z.lor SIVFS_ALLOCATION_FLAGS SIVFS_SLAB_INDEX_MASK) = false.
Proof.
  intros Hx. unfold has_flag. replace (Z.lor _ _) with (Z.shiftl (Z.ones 34) 30) by by vm_compute. rewrite land_field, (Z.div_small x) by (done || lia). done.
Qed.

Lemma has_flag_46 x : 0 <= x < 2 ^ 46 -> has_flag x SIVFS_ALLOCATION_FLAGS = false.
Proof.
  intros Hx. unfold has_flag. replace SIVFS_ALLOCATION_FLAGS with (Z.shiftl (Z.ones 18) 46) by by vm_compute. rewrite land_field, (Z.div_small x) by (done || lia). done.
Qed.

Lemma round_up_spec x e : 0 <= x < 2 ^ 61 -> 0 < e < 2 ^ 61 -> exists q, ROUND_UP x e = q * e /\ x <= q * e < x + e /\ ROUND_UP x e / e = q /\ 0 <= q.
Proof.
  intros Hx He. unfold ROUND_UP, DIV_ROUND. rewrite uadd_small, usub_small by u64_lia. exists ((x + e - 1) / e). pose proof (Z.mul_div_le (x + e - 1) e ltac:(lia)).
  pose proof (Z.mul_succ_div_gt (x + e - 1) e ltac:(lia)). assert (0 <= (x + e - 1) / e) by (apply Z.div_pos; lia). rewrite umul_small by (unfold is_u64, two64; nia).
  split; [done|]. split; [nia|]. split; [by apply Z.div_mul; lia|done].
Qed.

(** What the system promises about a block it hands out. *)
Record good_block (m : gmap Z Z) (B : gmap Z ublock) (req : Z) (b : block_ret) : Prop := {
  gb_fresh : fresh_block m B (br_start b) (br_size b);
  gb_inside : br_mmap_start b <= br_start b /\ br_start b + br_size b <= br_mmap_start b + br_mmap_size b;
  gb_size : req < 2 ^ 16 -> br_size b < 2 ^ 20
}.
(** What an allocation of [size] bytes may ask for: whole words, a page at least. *)
Definition request_ok (size req : Z) : Prop := PAGE_SIZE <= req <= Z.max (2 ^ 15) (size + 32) /\ req mod SIZEOF_WORD = 0.
Definition kernel_ok (ev : lib_env) (size : Z) (s : ulib) (H : uheap) : Prop :=
  forall zone req b, request_ok size req -> ie_alloc_block ev zone req = Some b -> good_block (u_mem s) (h_blocks H) req b.

Lemma fresh_writable m B b n (w : list (Z * Z)) : fresh_block m B b n -> (forall v, v ∈ w -> (b <= v.1 < b + n) /\ ((exists d, v.1 = b + 8 * d) \/ exists d, v.1 = b + n + 8 * d)) ->
  forall v, v ∈ w -> writable m v.1.
Proof.
  intros [[_ Hb] [_ Hn] Hm _] Hw v Hv. destruct (Hw v Hv) as [Hr Ha]. assert (Hmod : v.1 mod SIZEOF_WORD = 0); [|split; [done|by apply Hm]].
  apply Z.mod_divide in Hb as [c Hb], Hn as [d Hn]; [|done..]. apply Z.mod_divide; [done|]. unfold SIZEOF_WORD in *.
  destruct Ha as [[x ->]|[x ->]]; [exists (c + x)|exists (c + d + x)]; lia.
Qed.

Lemma slab_writable m B b n tag w : fresh_block m B b n -> forall v, v ∈ slab_writes b n tag w -> writable m v.1.
Proof.
  intros Hf. pose proof (fb_size _ _ _ _ Hf). apply (fresh_writable m B b n); [done|]. unfold slab_writes. intros v Hv.
  repeat (apply elem_of_cons in Hv as [->|Hv]; [cbn; split; [lia|first [left; exists 0; lia|left; exists 1; lia|left; exists 2; lia|left; exists 3; lia|right; exists (-1); lia|right; exists (-2); lia]]|]).
  by apply not_elem_of_nil in Hv.
Qed.

Lemma big_writable m B b n tag : fresh_block m B b n -> forall v, v ∈ big_writes b n tag -> writable m v.1.
Proof.
  intros Hf. pose proof (fb_size _ _ _ _ Hf). apply (fresh_writable m B b n); [done|]. unfold big_writes. intros v Hv.
  repeat (apply elem_of_cons in Hv as [->|Hv]; [cbn; split; [lia|first [left; exists 0; lia|left; exists 1; lia|left; exists 2; lia|right; exists (-1); lia|right; exists (-2); lia]]|]).
  by apply not_elem_of_nil in Hv.
Qed.

(** The writes of a new slab, in order. *)
Lemma slab_in_order {A} ev b n tag w (k : M ulib A) s :
  (do! sivfs_write_ws ev b n in
   do! write_footer ev b n tag in
   let free_region := b + SIVFS_BLOCK_HEADER_SIZE in
   do! sivfs_write_ws ev free_region w in
   do! sivfs_write_wsp ev (lh_next (region_lh free_region)) (region_lh free_region) in
   do! sivfs_write_wsp ev (lh_prev (region_lh free_region)) (region_lh free_region) in k) s = (do! write_all ev (slab_writes b n tag w) in k) s.
Proof.
  unfold SIVFS_BLOCK_HEADER_SIZE, sivfs_write_wsp, lh_next, lh_prev, region_lh. cbv zeta. replace (b + 8 + 8 + 8) with (b + 24) by lia. replace (b + 8 + 8) with (b + 16) by lia.
  revert s. apply then_write, then_footer, then_write, then_write, then_write, no_more_writes.
Qed.

(** The system has a block for whatever an allocation of [size] bytes asks for. *)
Definition serves (ev : lib_env) (zone : Z) (ms : mmap_state) (size : Z) : Prop :=
  forall req, request_ok size req -> exists b, ie_alloc_block ev zone req = Some b /\ req <= br_size b /\ br_mmap_start b = ms_start ms /\ br_mmap_size b = ms_size ms.

(** Either nothing happens, or the slot has a list. *)
Lemma new_slab_ok ev sz m ms i zone tag e s l H n k es : ie_mem ev = true -> lib_ok (S k) s l H -> ws_has (6 + n) (u_ws s) es -> kernel_ok ev sz s H ->
  m ∈ elems (l_mmap_states l) -> u_mstates s !! m = Some ms -> ms_tag ms = tag -> class e i -> h_lists H !! slot_name m i = None ->
  (new_slab ev ms zone tag e (slot_name m i) s = (Err EINVAL, s) /\ forall size, ~ serves ev zone ms size) \/
  exists s' H' b, new_slab ev ms zone tag e (slot_name m i) s = (Ok tt, s') /\ moved n k s es H s' H' /\ same_objects (h_blocks H) (h_blocks H') /\
    h_lists H' !! slot_name m i = Some [b] /\ is_Some (slot_get (u_mstates s') (slot_name m i)).
Proof.
  intros Hev Hok Hws Hker Hin Hm Htag Hc Hnone. pose proof Hok as [El Hbo Hh Hhd Hcov]. pose proof (cl_size _ _ Hc) as He.
  destruct (slot_name_parts m i (cl_index _ _ Hc)) as [_ Hmod]. unfold new_slab. change (SIVFS_BLOCK_HEADER_SIZE + SIVFS_BLOCK_FOOTER_SIZE) with 24. change (SIVFS_ALLOCATOR_SLABSIZE - 24) with 16360.
  destruct (round_up_spec 16360 e ltac:(lia) ltac:(lia)) as (q & Eq & Hq & Ediv & Hq0). cbv zeta. rewrite Ediv, Eq.
  rewrite (proj2 (Z.ltb_ge SIVFS_MAX_SLAB_ELTS q)) by (change SIVFS_MAX_SLAB_ELTS with 65535; nia). rewrite uadd_small by u64_lia. rewrite has_flag_small by lia.
  assert (Hreq : forall size, request_ok size (24 + q * e)).
  { intros size. split; [unfold PAGE_SIZE; lia|]. pose proof (cl_align _ _ Hc) as [d ->]%Z.mod_divide; [|done]. apply Z.mod_divide; [done|]. exists (3 + q * d). unfold SIZEOF_WORD. lia. }
  unfold alloc_block_ioctl. rewrite bind_assoc, (bind_step _ _ s (Some l) s) by by rewrite <- El. destruct (ie_alloc_block ev zone (24 + q * e)) as [b|] eqn:Eb.
  2: { left. split; [done|]. intros size Hs. destruct (Hs (24 + q * e) (Hreq size)) as (b & Eb' & _). congruence. }
  assert (Hno : br_size b < 24 + q * e \/ br_mmap_start b <> ms_start ms \/ br_mmap_size b <> ms_size ms -> forall size, ~ serves ev zone ms size).
  { intros Hn size Hs. destruct (Hs (24 + q * e) (Hreq size)) as (b' & Eb' & Hb'). rewrite Eb in Eb'. injection Eb' as <-. lia. }
  rewrite (bind_step _ _ s b s eq_refl). destruct (negb (br_mmap_start b =? ms_start ms)) eqn:E1; [left; split; [done|apply Hno; lia]|].
  destruct (negb (br_mmap_size b =? ms_size ms)) eqn:E2; [left; split; [done|apply Hno; lia]|].
  rewrite (proj2 (Z.eqb_neq _ 0)) by lia. destruct (Z.ltb_spec (br_size b) (24 + q * e)) as [|Hsz]; [left; split; [done|apply Hno; lia]|right].
  destruct (Hker _ _ _ (Hreq sz) Eb) as [Hf Hins Hlim]. apply negb_false_iff, Z.eqb_eq in E1, E2. specialize (Hlim ltac:(lia)).
  assert (Hn20 : 24 + e <= br_size b < 2 ^ 20) by (split; [destruct (Z.eq_dec q 0) as [->|]; nia|done]).
  set (w := Z.lor (Z.lor (usub (usub (br_size b) SIVFS_BLOCK_FOOTER_SIZE) SIVFS_BLOCK_HEADER_SIZE) SIVFS_FREED_MAGIC) SIVFS_LIST_HEAD_FLAG).
  assert (Hp : packed w (br_size b - 24) 0 true).
  { unfold w, SIVFS_BLOCK_FOOTER_SIZE, SIVFS_BLOCK_HEADER_SIZE. pose proof (fb_size _ _ _ _ Hf). rewrite (usub_small (br_size b)), usub_small by u64_lia. replace (br_size b - (8 + 8) - 8) with (br_size b - 24) by lia. apply packed_new. lia. }
  destruct (heap_slab _ H (slot_name m i) _ _ tag e w Hh Hf Hnone ltac:(by rewrite Hmod) Hn20 Hp) as [Hh' Hkept].
  rewrite slab_in_order. destruct (write_all_written ev _ n s es Hev (slab_writable _ _ _ _ tag w Hf) Hws) as (s1 & E3 & Hwr).
  rewrite (bind_step _ _ _ _ _ E3). pose proof (written_mem _ _ _ _ _ Hwr) as (Em & EM & Elib). rewrite El in Elib. rewrite <- EM in Hbo, Hm.
  destruct (bo_bins _ _ _ Hbo m ms Hm) as [_ Hlen]. destruct (slot_of _ m ms i Hm Hlen (cl_index _ _ Hc)) as [old Hold].
  destruct (set_free_list_ok ev (slot_name m i) (br_start b + 8 + 8) s1 l k old Elib Hbo Hold) as [(l' & E4 & Hbo' & Hrem)|(l' & Hf' & _)]; [|congruence].
  set (s2 := mk_ulib _ _ _ _) in E4. eexists s2, (mk_uheap (<[br_start b := new_slab_block (br_size b) tag e]> (h_blocks H)) (<[slot_name m i := [br_start b + 8]]> (h_lists H))), (br_start b + 8).
  split; [exact E4|]. split; [|split; [|split; [apply lookup_insert_eq|]]].
  - apply (moved_slot n k s es H s2 _ l l' (slab_writes (br_start b) (br_size b) tag w) (slot_name m i) (br_start b + 8 + 8) Hok);
      cbn [s2 u_mem u_ws u_mstates u_lib h_blocks h_lists]; try done.
    + apply Hwr.
    + by rewrite EM.
    + apply Hrem.
    + by rewrite Em.
    + by rewrite lookup_insert_eq.
    + intros s0 Hne. by rewrite lookup_insert_ne.
    + intros b' k' sl. rewrite lookup_insert. case_decide; [|apply Hcov]. subst b'. intros [= <-] _. exists m, ms. rewrite EM in Hm. cbn. split_and!; [done|done|lia|lia|done].
    + apply kept_survivors. by rewrite Em.
  - intros p n'. cbn [h_blocks]. rewrite add_live; [|by apply (fresh_not_block _ _ _ _ (hw_geometry _ _ Hh) Hf)|by intros sl [= <-]]. split; [intros [?|[? _]]; done|by left].
  - cbn [s2 u_mstates]. rewrite slot_get_set, decide_True, Hold by done. by eexists.
Qed.


(** ** The list of a request *)

Lemma holds_zone_tag ms zone tag : holds_zone ms zone tag = true -> ms_tag ms = tag /\ ms_start ms <= zone < ms_start ms + ms_size ms.
Proof. unfold holds_zone. lia. Qed.

Lemma slot_size_align size : size mod SIZEOF_WORD = 0 -> Z.max (size + 8) 24 mod SIZEOF_WORD = 0.
Proof. intros Hm. destruct (Z.max_spec (size + 8) 24) as [[_ ->]|[_ ->]]; [done|]. unfold SIZEOF_WORD in *. by rewrite Z.add_mod, Hm. Qed.

(** The mapping of a request, and its size class. *)
Lemma get_slot_class ev n zone tag size alloc s l : u_lib s = Some l -> book_ok n (u_mstates s) l -> 0 < size < 2 ^ 46 -> size mod SIZEOF_WORD = 0 ->
  (sivfs_get_free_list_slot ev zone tag size alloc s = (Err EINVAL, s) /\ forall a len, a <= zone < a + len -> ~ in_mapping (u_mstates s) l a len tag) \/
  exists m ms, m ∈ elems (l_mmap_states l) /\ u_mstates s !! m = Some ms /\ 0 < m /\ holds_zone ms zone tag = true /\
    ((exists z, sivfs_get_free_list_slot ev zone tag size alloc s = (Ok (z, 0), s) /\ sivfs_allocator_bins_get_bin (Z.max (size + 8) 24) = Ok None) \/
     exists e i, class e i /\ size + 8 <= e /\ sivfs_allocator_bins_get_bin (Z.max (size + 8) 24) = Ok (Some (e, i)) /\
       sivfs_get_free_list_slot ev zone tag size alloc s =
       (let! list := load_slot (slot_name m i) in do! (if (list =? 0) && alloc then new_slab ev ms zone tag e (slot_name m i) else ret tt) in ret (e, slot_name m i)) s).
Proof.
  intros El Hbo Hs Hm. unfold sivfs_get_free_list_slot. rewrite (proj2 (Z.eqb_neq _ 0)) by lia. rewrite (proj2 (Z.eqb_eq _ _) Hm). cbn [negb].
  destruct (get_mmap_state_ok n zone tag s l El Hbo) as [[E Hn]|(m & ms & E & Hm0 & Hin & Hms & Hz)]; [left; split; [by rewrite (bind_step _ _ _ _ _ E)|done]|right].
  exists m, ms. destruct (bo_bins _ _ _ Hbo m ms Hms) as [Hpos _]. split_and!; try done. rewrite (bind_step _ _ _ _ _ E), Hm0.
  rewrite max2_size_t_spec. unfold SIVFS_ALLOC_REGION_HEADER_SIZE, sizeof_region. rewrite uadd_small by u64_lia. set (z := Z.max (size + 8) 24). cbv zeta.
  assert (Hzm : z mod SIZEOF_WORD = 0) by by apply slot_size_align.
  destruct (get_bin_class z ltac:(lia) Hzm) as [[Eb Hpg]|(e & i & Eb & Hi & He & Hw & Ha & Ee)]; rewrite Eb.
  - left. by exists z.
  - right. exists e, i. split; [split; [done|lia|done|done]|]. split; [lia|]. split; [done|].
    cbn [rbind lift]. rewrite (bind_step (lift _) _ s (Some (e, i)) s eq_refl). rewrite (proj2 (Z.ltb_ge _ _)) by lia.
      unfold bind. destruct (load_slot (slot_name m i) s) as [[list| | |] s1] eqn:El1; [|done..]. assert (s1 = s) as -> by by injection El1.
      destruct ((list =? 0) && alloc); [|done]. unfold gets, lift. by rewrite Hms.
Qed.

Lemma list_head_pos m H slot h t : heap_words m H -> h_lists H !! slot = Some (h :: t) -> 0 < h.
Proof.
  intros Hh Hsl. destruct (lo_free _ _ _ _ (hw_lists _ _ Hh _ _ Hsl) h) as (b & k & sl & j & Hr & _); [left|]. pose proof (hw_geometry _ _ Hh) as Hg.
  pose proof (region_block _ _ _ _ _ _ _ Hg Hr). destruct Hr as (Hb & _). pose proof (bg_start _ _ (ge_block _ Hg _ _ Hb)). lia.
Qed.

(** A slot that is 0 has no list; another holds the node of its head. *)
Lemma slot_list n s l H m ms i : lib_ok n s l H -> u_mstates s !! m = Some ms -> 0 <= i < SIVFS_ALLOCATOR_NBINS ->
  (load_slot (slot_name m i) s = (Ok 0, s) /\ h_lists H !! slot_name m i = None) \/
  exists h t, load_slot (slot_name m i) s = (Ok (h + 8), s) /\ (h + 8 =? 0) = false /\ h_lists H !! slot_name m i = Some (h :: t).
Proof.
  intros [El Hbo Hh Hhd _] Hm Hi. destruct (bo_bins _ _ _ Hbo m ms Hm) as [_ Hlen]. destruct (slot_of _ m ms i Hm Hlen Hi) as [v Hv].
  rewrite (load_slot_ok _ v) by done. rewrite (Hhd _ _ Hv). destruct (h_lists H !! slot_name m i) as [[|h t]|] eqn:E; [|right|by left].
  - by destruct (lo_ring _ _ _ _ (hw_lists _ _ Hh _ _ E)).
  - exists h, t. pose proof (list_head_pos _ _ _ _ _ Hh E). cbn. split_and!; [done|lia|done].
Qed.

(** The list that a request is served from. *)
Lemma request_list ev sz m ms i zone tag e s l H n k es : ie_mem ev = true -> lib_ok (S k) s l H -> ws_has (6 + n) (u_ws s) es -> kernel_ok ev sz s H ->
  m ∈ elems (l_mmap_states l) -> u_mstates s !! m = Some ms -> ms_tag ms = tag -> class e i ->
  let M := (let! list := load_slot (slot_name m i) in do! (if (list =? 0) && true then new_slab ev ms zone tag e (slot_name m i) else ret tt) in ret (e, slot_name m i)) s in
  (M = (Err EINVAL, s) /\ forall size, ~ serves ev zone ms size) \/
  exists s' H' w h t l', M = (Ok (e, slot_name m i), s') /\ u_mem s' = apply_writes w (u_mem s) /\ ws_has n (u_ws s') (es ++ (write_entry <$> w)) /\ lib_ok k s' l' H' /\
    survivors_kept (h_blocks H) (h_blocks H') (u_mem s) (u_mem s') /\ same_objects (h_blocks H) (h_blocks H') /\ h_lists H' !! slot_name m i = Some (h :: t) /\
    is_Some (slot_get (u_mstates s') (slot_name m i)).
Proof.
  intros Hev Hok Hws Hker Hin Hm Htag Hc. destruct (slot_list _ s l H m ms i Hok Hm (cl_index _ _ Hc)) as [[E Hnone]|(h & t & E & Hne & Hsl)]; cbv zeta; rewrite (bind_step _ _ _ _ _ E).
  - cbn [andb Z.eqb]. destruct (new_slab_ok ev sz m ms i zone tag e s l H n k es Hev Hok Hws Hker Hin Hm Htag Hc Hnone) as [[E1 Hn]|(s' & H' & b & E1 & [[l' Hok'] (w & Ew & Hws') Hkp] & Hlv & Hsl & Hsome)].
    + left. by rewrite (bind_err _ _ _ _ _ E1).
    + right. exists s', H', w, b, [], l'. rewrite (bind_step _ _ _ _ _ E1). by split_and!.
  - right. exists s, H, [], h, t, l. rewrite Hne. cbn [andb]. destruct (bo_bins _ _ _ (lk_book _ _ _ _ Hok) m ms Hm) as [_ Hlen].
    split_and!; [done|done|rewrite app_nil_r; apply (ws_has_weaken n (6 + n)); [lia|done]|apply (lib_ok_weaken k (S k)); [lia|done]|done|done|done|].
    apply (slot_of _ m ms); [done|done|apply Hc].
Qed.

(** ** sivfs_malloc_ws *)

Lemma fresh_not_live m B b n c : geometry B -> fresh_block m B b n -> ~ live B (b + 8) c.
Proof.
  intros Hg Hf Hl. destruct (live_in_block B _ c Hg Hl) as (b' & k' & Hb' & H1 & H2 & H3). pose proof (fb_apart _ _ _ _ Hf _ _ Hb'). pose proof (fb_size _ _ _ _ Hf).
  destruct (bk_slab k'); lia.
Qed.

Lemma malloc_big_ok ev size0 zone tag size s l H n k es : ie_mem ev = true -> lib_ok k s l H -> ws_has (5 + n) (u_ws s) es -> kernel_ok ev size0 s H -> size <= size0 + 8 ->
  PAGE_SIZE < Z.max (size + 8) 24 -> size < 2 ^ 45 -> size mod SIZEOF_WORD = 0 ->
  (malloc_big ev zone tag size s = (Err EINVAL, s) /\ forall ms, ~ serves ev zone ms size0) \/
  exists b c s' H', malloc_big ev zone tag size s = (Ok b, s') /\ moved n k s es H s' H' /\ size + 8 <= c /\ gains (h_blocks H) (h_blocks H') b c.
Proof.
  intros Hev Hok Hws Hker Hsz Hpg Hs Hm. pose proof Hok as [El Hbo Hh Hhd Hcov]. unfold PAGE_SIZE in Hpg. unfold malloc_big. rewrite max2_size_t_spec. unfold SIVFS_BLOCK_HEADER_SIZE, SIVFS_BLOCK_FOOTER_SIZE, sizeof_region.
  rewrite (uadd_small size 8), uadd_small by u64_lia. set (req := Z.max _ _). cbv zeta.
  assert (Hreq : req = size + 24) by lia.
  assert (Hrq : request_ok size0 req) by (split; [unfold PAGE_SIZE; lia|rewrite Hreq; unfold SIZEOF_WORD in *; by rewrite Z.add_mod, Hm]). rewrite has_flag_46 by lia. unfold alloc_block_ioctl. rewrite bind_assoc, (bind_step _ _ s (Some l) s) by by rewrite <- El.
  destruct (ie_alloc_block ev zone req) as [b|] eqn:Eb; [|left; split; [done|]; intros ms Hsv; destruct (Hsv req Hrq) as (b & Eb' & _); congruence].
  rewrite (bind_step _ _ s b s eq_refl). destruct (Z.ltb_spec (br_size b) req) as [Hlt|Hge].
  { left. split; [done|]. intros ms Hsv. destruct (Hsv req Hrq) as (b' & Eb' & Hb' & _). rewrite Eb in Eb'. injection Eb' as <-. lia. }
  right. destruct (Hker _ _ _ Hrq Eb) as [Hf _ _]. pose proof (fb_size _ _ _ _ Hf). pose proof (fb_start _ _ _ _ Hf). set (a := br_start b) in *. set (c := br_size b) in *.
  destruct (heap_big _ H a c tag Hh Hf) as [Hh' Hkept]. destruct (write_all_written ev _ n s es Hev (big_writable _ _ _ _ tag Hf) Hws) as (s1 & E1 & Hwr).
  pose proof (written_mem _ _ _ _ _ Hwr) as (Em & _). exists a, (c - 16), s1. eexists. split; [|split; [|split; [lia|]]].
  - unfold sivfs_write_wsp, lh_next, lh_prev, region_lh. replace (a + 8 + 8) with (a + 16) by lia.
    transitivity ((do! write_all ev (big_writes a c tag) in ret a) s); [|by rewrite (bind_step _ _ _ _ _ E1)]. revert s Hok Hws Hker El Hbo Hh Hhd Hcov Hf Hh' Hkept Hwr Em E1. intros s _ _ _ _ _ _ _ _ _ _ _ _ _ _.
    revert s. apply then_write, then_footer, then_write, then_write, no_more_writes.
  - apply (moved_written n k s es H _ _ l _ Hok Hwr); [rewrite Em; exact Hh'|done| |apply kept_survivors; by rewrite Em].
    intros b' k' sl. cbn [h_blocks]. rewrite lookup_insert. case_decide; [by intros [= <-]|apply Hcov].
  - pose proof (hw_geometry _ _ Hh) as Hg. split; [|intros n'; by apply (fresh_not_live (u_mem s) _ a c)]. intros p n'. cbn [h_blocks]. rewrite add_live; [|by apply (fresh_not_block _ _ _ _ Hg Hf)|done]. cbn. replace (c - 16 - 8) with (c - 24) by lia. tauto.
Qed.

Lemma live_aligned B p n : geometry B -> live B p n -> 0 < p /\ p mod SIZEOF_WORD = 0.
Proof.
  intros Hg [(r & b & k & sl & j & Hr & -> & _)|(b & k & Hb & _ & -> & _)].
  - pose proof (region_block _ _ _ _ _ _ _ Hg Hr) as (H1 & _ & H2 & _). destruct Hr as (Hb & _). pose proof (bg_start _ _ (ge_block _ Hg _ _ Hb)).
    split; [lia|]. unfold SIZEOF_WORD in *. by rewrite Z.add_mod, H2.
  - destruct (bg_start _ _ (ge_block _ Hg _ _ Hb)) as [H1 H2]. split; [lia|]. unfold SIZEOF_WORD in *. by rewrite Z.add_mod, H2.
Qed.

(** Counting does not matter. *)
Lemma moved_set_lib n k s es H s' H' (f : lib_state -> lib_state) : moved n k s es H s' H' ->
  (forall l, l_mmap_states (f l) = l_mmap_states l /\ l_restore_ptrs (f l) = l_restore_ptrs l /\ l_restore_values (f l) = l_restore_values l) ->
  exists l', on_lib (modify f) s' = (Ok tt, set_lib l' s') /\ moved n k s es H (set_lib l' s') H'.
Proof.
  intros [[l [El Hbo Hh Hhd Hcov]] Hlog Hkp] Hf. exists (f l). unfold on_lib. rewrite El. split; [done|]. destruct (Hf l) as (E1 & E2 & E3).
  split; [exists (f l); split; try done|done|done].
  - destruct Hbo. by split; rewrite ?E1, ?E2, ?E3.
  - intros b kb sl Hb Hs. destruct (Hcov b kb sl Hb Hs) as (m & ms & ?). exists m, ms. by rewrite E1.
Qed.

(** The call on a heap in order: either it returns NULL and nothing happens, or
    it returns a new object. *)
Definition malloc_result (ev : lib_env) (zone tag size : Z) (s : ulib) (l : lib_state) (H : uheap) (n k : nat) (es : list wse) : Prop :=
  (sivfs_malloc_ws ev zone tag size s = (Ok 0, s) /\
     (size = 0 \/ (forall a len, a <= zone < a + len -> ~ in_mapping (u_mstates s) l a len tag) \/
      exists m ms, m ∈ elems (l_mmap_states l) /\ u_mstates s !! m = Some ms /\ holds_zone ms zone tag = true /\ ~ serves ev zone ms size)) \/
  exists p c s' H', sivfs_malloc_ws ev zone tag size s = (Ok p, s') /\ moved n k s es H s' H' /\ size <= c /\ 0 < p /\ p mod SIZEOF_WORD = 0 /\
    (forall p' c', live (h_blocks H') p' c' <-> live (h_blocks H) p' c' \/ (p' = p /\ c' = c)) /\
    (forall p' c', live (h_blocks H) p' c' -> p' + c' <= p \/ p + c <= p').

Lemma malloc_finish x c sz s s1 H H' n k es : moved n k s es H s1 H' -> gains (h_blocks H) (h_blocks H') x c -> sz + 8 <= c -> geometry (h_blocks H) ->
  exists s2, (do! on_lib (modify count_alloc) in ret (sivfs_allocated_region_to_alloc_ret x)) s1 = (Ok (x + 8), s2) /\ moved n k s es H s2 H' /\ sz <= c - 8 /\ 0 < x + 8 /\
    (x + 8) mod SIZEOF_WORD = 0 /\ (forall p' c', live (h_blocks H') p' c' <-> live (h_blocks H) p' c' \/ (p' = x + 8 /\ c' = c - 8)) /\
    (forall p' c', live (h_blocks H) p' c' -> p' + c' <= x + 8 \/ x + 8 + (c - 8) <= p').
Proof.
  intros Hmv [Hl Hn] Hc Hg. destruct (moved_set_lib _ _ _ _ _ _ _ count_alloc Hmv) as (l' & E & Hmv'); [done|]. exists (set_lib l' s1). split; [by rewrite (bind_step _ _ _ _ _ E)|].
  destruct Hmv as [[l1 Hok1] _ _]. pose proof (hw_geometry _ _ (lk_heap _ _ _ _ Hok1)) as Hg'. assert (Hx : live (h_blocks H') (x + 8) (c - 8)) by (apply Hl; by right).
  destruct (live_aligned _ _ _ Hg' Hx) as [Hpos Hmod]. split_and!; try done; [lia|]. intros p' c' Hp. assert (Hp' : live (h_blocks H') p' c') by (apply Hl; by left).
  destruct (live_disjoint _ _ _ _ _ Hg' Hp' Hx) as [[-> ->]|]; [by destruct (Hn (c - 8))|done].
Qed.

Lemma malloc_ok ev zone tag size s l H n k es : ie_mem ev = true -> lib_ok (S (S k)) s l H -> ws_has (23 + n) (u_ws s) es -> kernel_ok ev size s H ->
  0 <= size < 2 ^ 45 - 8 -> malloc_result ev zone tag size s l H n k es.
Proof.
  intros Hev Hok Hws Hker Hs. pose proof Hok as [El Hbo Hh Hhd Hcov]. pose proof (hw_geometry _ _ Hh) as Hg. unfold malloc_result, sivfs_malloc_ws. rewrite (bind_step _ _ s (Some l) s) by by rewrite <- El.
  destruct (round_up_spec size SIZEOF_WORD ltac:(lia) ltac:(unfold SIZEOF_WORD; lia)) as (q & Eq & Hq & _ & Hq0). unfold SIZEOF_WORD in Hq.
  set (sz := ROUND_UP size SIZEOF_WORD) in *. cbv zeta. destruct (Z.eq_dec size 0) as [->|Hnz].
  { left. split; [|by left]. unfold sivfs_get_free_list_slot. replace sz with 0 by (rewrite Eq; unfold SIZEOF_WORD; lia). done. }
  assert (Hszm : sz mod SIZEOF_WORD = 0) by (rewrite Eq; by apply Z.mod_mul). assert (Hsz : size <= sz < size + 8) by (rewrite Eq; unfold SIZEOF_WORD; lia). assert (Hsz0 : 0 < sz < 2 ^ 45) by lia. assert (Hsz1 : 0 < sz < 2 ^ 46) by lia.
  destruct (get_slot_class ev _ zone tag sz true s l El Hbo Hsz1 Hszm) as [[E Hn]|(m & ms & Hin & Hms & Hm & Hz & [(z & E & Eb0)|(e & i & Hc & He & _ & E)])].
  - left. rewrite (bind_err _ _ _ _ _ E). split; [done|]. right; by left.
  - rewrite (bind_step _ _ _ _ _ E). cbn [Z.eqb].
    assert (Hbig : PAGE_SIZE < Z.max (sz + 8) 24).
    { destruct (get_bin_class (Z.max (sz + 8) 24)) as [[_ Hpg]|(e & i & E' & _)]; [lia| |done|congruence]. apply slot_size_align; done. }
    destruct (malloc_big_ok ev size zone tag sz s l H (18 + n) k es Hev (lib_ok_weaken k (S (S k)) _ _ _ ltac:(lia) Hok) Hws Hker ltac:(lia) Hbig ltac:(lia) Hszm) as [[E1 Hn]|(b & c & s1 & H' & E1 & Hmv & Hcs & Hgain)]; rewrite E1; [left|right].
    + split; [done|]. right; right. exists m, ms. by split_and!.
    + destruct (malloc_finish b c sz s s1 H H' n k es (moved_weaken n (18 + n) k k _ _ _ _ _ ltac:(lia) ltac:(lia) Hmv) Hgain Hcs Hg) as (s2 & E2 & Hmv' & Hc & Hrest).
      exists (b + 8), (c - 8), s2, H'. split; [exact E2|]. split; [done|]. split; [lia|done].
  - destruct (holds_zone_tag _ _ _ Hz) as [Htag _]. destruct (request_list ev size m ms i zone tag e s l H (17 + n) (S k) es Hev Hok Hws Hker Hin Hms Htag Hc)
      as [[E1 Hn]|(s1 & H1 & w & h & t & l1 & E1 & Ew & Hws1 & Hok1 & Hk1 & Hlv & Hsl & Hsome)].
    + left. rewrite (bind_err _ _ _ _ _ (eq_trans E E1)). split; [done|]. right; right. exists m, ms. by split_and!.
    + right. rewrite (bind_step _ _ _ _ _ (eq_trans E E1)). cbv beta iota. destruct (slot_name_parts m i (cl_index _ _ Hc)) as [_ Hmod].
      rewrite (proj2 (Z.eqb_neq (slot_name m i) 0)) by (pose proof (cl_index _ _ Hc); unfold slot_name; lia).
      destruct Hsome as [v Hv]. pose proof (lk_heads _ _ _ _ Hok1 _ _ Hv) as Ev. rewrite Hsl in Ev. cbn in Ev. subst v. rewrite (bind_step _ _ _ _ _ (load_slot_ok _ _ _ Hv)).
      pose proof (list_head_pos _ _ _ _ _ (lk_heap _ _ _ _ Hok1) Hsl) as Hhp. rewrite (proj2 (Z.eqb_neq (h + 8) 0)) by lia.
      destruct (lo_free _ _ _ _ (hw_lists _ _ (lk_heap _ _ _ _ Hok1) _ _ Hsl) h) as (b & bk & sl & j & Hr & _); [left|].
      destruct (region_word _ _ _ _ _ _ _ _ (lk_heap _ _ _ _ Hok1) Hr) as (wd & Hwd & Hp). unfold sivfs_allocator_lh_to_allocated_region. replace (h + 8 - 8) with h by lia.
      rewrite (bind_step _ _ _ _ _ (load_word _ _ _ Hwd)), (hr_magic _ _ _ _ (packed_reads _ _ _ _ Hp)). cbn [negb]. rewrite Z.eqb_refl. cbn [negb].
      destruct (alloc_within_ok ev (slot_name m i) h t e s1 l1 H1 n k (es ++ (write_entry <$> w)) Hev Hok1 Hws1 ltac:(by eexists) Hsl ltac:(by rewrite Hmod)) as (x & s2 & H2 & E2 & Hmv2 & Hgain).
      rewrite E2. assert (Hmv : moved n k s es H s2 H2) by (apply (moved_trans w n k s es H s1 H1); [done|done|done|intros p c Hp' _; by apply Hlv]).
      destruct (malloc_finish x e sz s s2 H H2 n k es Hmv (gains_after _ _ _ _ _ Hlv Hgain) He Hg) as (s3 & E3 & Hmv' & Hc' & Hrest).
      exists (x + 8), (e - 8), s3, H2. split; [exact E3|]. split; [done|]. split; [lia|done].
Qed.

(** ** sivfs_free_ws *)

(** From an element to its slab, as the code finds it. *)
Lemma slab_head_ok m H x b k sl j s : u_mem s = m -> heap_words m H -> region_at (h_blocks H) x b k sl j true ->
  sivfs_alloc_region_to_block_head x s = (Ok b, s) /\ (b =? 0) = false /\ sivfs_block_tag b s = (Ok (bk_tag k), s).
Proof.
  intros <- Hh Hr. pose proof (hw_geometry _ _ Hh) as Hg. destruct (region_word _ _ _ _ _ _ _ _ Hh Hr) as (w & Hw & Hp). destruct (used_size _ _ _ _ _ _ Hg Hr) as [Hsz _]. rewrite Hsz in Hp.
  pose proof (packed_reads _ _ _ _ Hp) as Hrd. pose proof (region_block _ _ _ _ _ _ _ Hg Hr) as (Hr1 & Hr2 & _ & He & Hr3 & Hb20). pose proof Hr as (Hb & Hs & Hj & Ex).
  destruct (hw_words _ _ Hh _ _ Hb) as [_ Hhead Htag Hfoot _]. rewrite Hs in Hhead. destruct (bg_start _ _ (ge_block _ Hg _ _ Hb)) as [Hb0 _].
  assert (H0' : exists u0, sl_used sl !! 0%nat = Some u0) by (destruct (sl_used sl); [done|by eexists]). destruct H0' as [u0 Hu0].
  destruct (region_word _ _ (b + 8) b k sl 0%nat u0 Hh) as (w' & Hw' & Hp'); [split_and!; try done; unfold elt_addr; lia|]. pose proof (packed_reads _ _ _ _ Hp') as Hrd'.
  assert (Ef : forall d, b + bk_size k - SIVFS_BLOCK_FOOTER_SIZE + d = b + bk_size k - 16 + d) by (intros d; unfold SIVFS_BLOCK_FOOTER_SIZE; lia).
  split; [|split; [lia|]].
  - unfold sivfs_alloc_region_to_block_head. rewrite (bind_step _ _ _ _ _ (load_word _ _ _ Hw)), (hr_big _ _ _ _ Hrd), (hr_index _ _ _ _ Hrd), (hr_size _ _ _ _ Hrd). cbv zeta.
    assert (Hjm : Z.of_nat j * sl_elt sl < 2 ^ 20) by (unfold elt_addr in Ex; lia). rewrite umul_small by (unfold is_u64, two64; nia).
    replace (x - Z.of_nat j * sl_elt sl) with (b + 8) by (unfold elt_addr in Ex; lia). rewrite (bind_step _ _ _ _ _ (load_word _ _ _ Hw')), (hr_index _ _ _ _ Hrd'). change (Z.of_nat 0 =? 0) with true; cbn [negb].
    unfold SIVFS_BLOCK_HEADER_SIZE. replace (b + 8 - 8) with b by lia. rewrite (bind_step _ _ _ _ _ (load_word _ _ _ Hhead)), (proj2 (Z.eqb_neq _ _)) by lia.
    rewrite Ef. replace (b + bk_size k - 16 + 8) with (b + bk_size k - 8) by lia. by rewrite (bind_step _ _ _ _ _ (load_word _ _ _ Hfoot)), Z.eqb_refl.
  - unfold sivfs_block_tag. rewrite (bind_step _ _ _ _ _ (load_word _ _ _ Hhead)). cbv zeta.
    replace (Z.land (bk_size k) (unot SIVFS_BIG_ALLOCATION_FLAG)) with (bk_size k).
    2: { replace (unot SIVFS_BIG_ALLOCATION_FLAG) with (Z.ones 63) by by vm_compute. rewrite land_low by done. symmetry. apply Z.mod_small. lia. }
    rewrite (proj2 (Z.eqb_neq _ _)) by lia. rewrite Ef. replace (b + bk_size k - 16 + 8) with (b + bk_size k - 8) by lia.
    rewrite (bind_step _ _ _ _ _ (load_word _ _ _ Hfoot)), Z.eqb_refl. cbn [negb]. unfold SIVFS_BLOCK_FOOTER_SIZE. apply load_word. by replace (b + bk_size k - (8 + 8)) with (b + bk_size k - 16) by lia.
Qed.

Lemma header_last m l x w : (forall v, v ∈ l -> v.1 <> x) -> apply_writes (l ++ [(x, w)]) m = apply_writes ((x, w) :: l) m.
Proof.
  revert m. induction l as [|v l IH]; intros m Hl; [done|]. change (apply_writes (l ++ [(x, w)]) (<[v.1 := v.2]> m) = apply_writes l (<[v.1 := v.2]> (<[x := w]> m))).
  rewrite IH by (intros v' Hv'; apply Hl; by right). unfold apply_writes. cbn [foldl fst snd]. f_equal. apply insert_insert_ne. apply not_eq_sym, Hl. left.
Qed.

Definition freed_word (w : Z) (head : bool) : Z := Z.lor (Z.land w (unot SIVFS_ALLOCATION_FLAGS)) (if head then Z.lor SIVFS_FREED_MAGIC SIVFS_LIST_HEAD_FLAG else SIVFS_FREED_MAGIC).

Lemma set_flags_writes ev x w (head : bool) s : u_mem s !! x = Some w ->
  sivfs_allocated_region_set_flags ev x (if head then Z.lor SIVFS_FREED_MAGIC SIVFS_LIST_HEAD_FLAG else SIVFS_FREED_MAGIC) s = write_all ev [(x, freed_word w head)] s.
Proof.
  intros Hw. unfold sivfs_allocated_region_set_flags. replace (negb _) with false by by destruct head. rewrite (bind_step _ _ _ _ _ (load_word _ _ _ Hw)). apply write_one.
Qed.

(** The region [x] joins the list behind [h]. *)
Lemma put_ok ev slot h t x b bk sl j s l H n k es : ie_mem ev = true -> lib_ok k s l H -> ws_has (5 + n) (u_ws s) es -> h_lists H !! slot = Some (h :: t) ->
  region_at (h_blocks H) x b bk sl j true -> class (sl_elt sl) (slot mod 64) ->
  exists s' H', (do! sivfs_alloc_lh_add_ws ev (h + 8) (x + 8) in sivfs_allocated_region_set_flags ev x SIVFS_FREED_MAGIC) s = (Ok tt, s') /\
    moved n k s es H s' H' /\ h_blocks H' = <[b := with_slab (mark_slab sl j false) bk]> (h_blocks H).
Proof.
  intros Hev Hok Hws Hsl Hr Hc. pose proof Hok as [El Hbo Hh Hhd Hcov]. pose proof (hw_geometry _ _ Hh) as Hg. pose proof Hr as (Hb & Hs & _).
  destruct (region_word _ _ _ _ _ _ _ _ Hh Hr) as (w0 & Hw0 & Hp0). destruct (used_size _ _ _ _ _ _ Hg Hr) as [Hsz _]. rewrite Hsz in Hp0.
  destruct (snoc_split t h) as (q & r & Eq & Hqin & _). destruct (ring_head _ _ _ _ _ Eq (lo_ring _ _ _ _ (hw_lists _ _ Hh _ _ Hsl))) as (Hh16 & Hq8 & _).
  destruct (heap_put _ _ _ _ _ _ _ _ _ _ (freed_word w0 false) q r Hh Hsl Hr (packed_free _ _ _ false Hp0) Hc Eq) as [Hh' Hown]. set (B' := <[b := _]> _) in *.
  assert (Hne : forall v, v ∈ add_writes h x q -> v.1 <> x).
  { intros v Hv. destruct (add_is_links h x q v Hv) as (y & Hy & Hvy). assert (Hpy : placed (h_blocks H) y).
    { apply elem_of_cons in Hy as [->|[->|[->|[]%not_elem_of_nil]%elem_of_cons]%elem_of_cons]; [apply (list_ok_placed _ _ _ _ _ (hw_lists _ _ Hh _ _ Hsl)); left| |by apply (list_ok_placed _ _ _ _ _ (hw_lists _ _ Hh _ _ Hsl))].
      by exists b, bk, sl, j, true. }
    destruct (placed_apart (h_blocks H) y x Hg Hpy) as [->|]; [by exists b, bk, sl, j, true|lia|lia]. }
  assert (E : (do! sivfs_alloc_lh_add_ws ev (h + 8) (x + 8) in sivfs_allocated_region_set_flags ev x SIVFS_FREED_MAGIC) s = write_all ev (add_writes h x q ++ [(x, freed_word w0 false)]) s).
  { apply write_all_then; [by apply add_ws_writes|]. intros s1 E1. apply (set_flags_writes ev x w0 false). rewrite E1, lookup_writes_ne; done. }
  destruct (write_all_written ev (add_writes h x q ++ [(x, freed_word w0 false)]) n s es Hev) as (s' & E' & Hwr); [|done|].
  - intros v Hv. apply (own_writable (h_blocks H) B' _ v (conj Hg (hw_words _ _ Hh)) (hw_geometry _ _ Hh') (with_slab_extent _ _ _ _ Hb)), Hown.
    apply elem_of_app in Hv as [?| ->%list_elem_of_singleton]; [by right|left].
  - pose proof (written_mem _ _ _ _ _ Hwr) as (Em & _). rewrite header_last in Em by done. exists s', (mk_uheap B' (<[slot := h :: x :: t]> (h_lists H))). split; [by rewrite E|]. split; [|done].
    apply (moved_written n k s es H _ _ l _ Hok Hwr); [rewrite Em; exact Hh'|intros s0; cbn [h_lists]; rewrite lookup_insert; case_decide as Ed; [by rewrite <- Ed, Hsl|done]|
      cbn [h_blocks]; by apply (covers_with_slab _ _ _ _ _ sl)|]. apply kept_survivors'. cbn [h_blocks]. rewrite Em. exact (own_writes_keep _ _ _ (hw_geometry _ _ Hh') Hown).
Qed.

(** The region [x] makes the list of an empty slot. *)
Lemma put_new_ok ev m ms i x b bk sl j s l H n k es : ie_mem ev = true -> lib_ok (S k) s l H -> ws_has (3 + n) (u_ws s) es -> h_lists H !! slot_name m i = None ->
  u_mstates s !! m = Some ms -> region_at (h_blocks H) x b bk sl j true -> class (sl_elt sl) i ->
  exists s' H', (do! (do! sivfs_write_wsp ev (lh_prev (region_lh x)) (region_lh x) in
                      do! sivfs_write_wsp ev (lh_next (region_lh x)) (region_lh x) in
                      sivfs_set_free_list ev (slot_name m i) (region_lh x)) in
                 sivfs_allocated_region_set_flags ev x (Z.lor SIVFS_FREED_MAGIC SIVFS_LIST_HEAD_FLAG)) s = (Ok tt, s') /\
    moved n k s es H s' H' /\ h_blocks H' = <[b := with_slab (mark_slab sl j false) bk]> (h_blocks H).
Proof.
  intros Hev Hok Hws Hnone Hm Hr Hc. pose proof Hok as [El Hbo Hh Hhd Hcov]. pose proof (hw_geometry _ _ Hh) as Hg. pose proof Hr as (Hb & Hs & _).
  destruct (slot_name_parts m i (cl_index _ _ Hc)) as [_ Hmod].
  destruct (region_word _ _ _ _ _ _ _ _ Hh Hr) as (w0 & Hw0 & Hp0). destruct (used_size _ _ _ _ _ _ Hg Hr) as [Hsz _]. rewrite Hsz in Hp0.
  destruct (heap_put_new _ _ (slot_name m i) _ _ _ _ _ (freed_word w0 true) Hh Hnone Hr (packed_free _ _ _ true Hp0) ltac:(by rewrite Hmod)) as [Hh' Hown]. set (B' := <[b := _]> _) in *.
  assert (Hwr : forall v, v ∈ (x, freed_word w0 true) :: single_writes x -> writable (u_mem s) v.1).
  { intros v Hv. by apply (own_writable (h_blocks H) B' _ v (conj Hg (hw_words _ _ Hh)) (hw_geometry _ _ Hh') (with_slab_extent _ _ _ _ Hb)), Hown. }
  destruct (write_all_written ev (single_writes x) (1 + n) s es Hev (fun v Hv => Hwr v ltac:(by right)) Hws) as (s1 & E1 & Hwr1). pose proof (written_mem _ _ _ _ _ Hwr1) as (Em1 & EM1 & El1).
  assert (Hne : forall v, v ∈ single_writes x -> v.1 <> x) by (intros v [->|[->|[]%not_elem_of_nil]%elem_of_cons]%elem_of_cons; cbn; lia).
  destruct (bo_bins _ _ _ Hbo m ms Hm) as [_ Hlen]. destruct (slot_of _ m ms i Hm Hlen (cl_index _ _ Hc)) as [old Hold]. rewrite El in El1. rewrite <- EM1 in Hbo, Hold.
  destruct (set_free_list_ok ev (slot_name m i) (region_lh x) s1 l k old El1 Hbo Hold) as [(l' & E2 & Hbo' & Hrem)|(l' & Hf & _)]; [|congruence]. set (s2 := mk_ulib _ _ _ _) in E2.
  destruct (write_all_written ev [(x, freed_word w0 true)] n s2 (es ++ (write_entry <$> single_writes x)) Hev) as (s3 & E3 & Hwr3); [|apply Hwr1|].
  { intros v ->%list_elem_of_singleton. cbn [s2 u_mem]. rewrite Em1. apply writable_writes, Hwr. left. }
  pose proof (written_mem _ _ _ _ _ Hwr3) as (Em3 & EM3 & El3). cbn [s2 u_mem u_mstates u_lib] in Em3, EM3, El3. rewrite Em1, <- apply_writes_app, header_last in Em3 by done.
  exists s3, (mk_uheap B' (<[slot_name m i := [x]]> (h_lists H))). split; [|split; [|done]].
  - rewrite (bind_step _ _ s tt s2); [by rewrite <- E3; apply (set_flags_writes ev x w0 true); cbn [s2 u_mem]; rewrite Em1, lookup_writes_ne|].
    transitivity ((do! write_all ev (single_writes x) in sivfs_set_free_list ev (slot_name m i) (region_lh x)) s); [|by rewrite (bind_step _ _ _ _ _ E1)].
    unfold sivfs_write_wsp, lh_prev, lh_next, region_lh. replace (x + 8 + 8) with (x + 16) by lia. clear. revert s. apply then_write, then_write, no_more_writes.
  - apply (moved_slot n k s es H s3 _ l l' (single_writes x ++ [(x, freed_word w0 true)]) (slot_name m i) (region_lh x) Hok).
    + by rewrite header_last.
    + rewrite fmap_app, (assoc_L (++)). apply Hwr3.
    + by rewrite EM3, EM1.
    + done.
    + by rewrite EM3.
    + apply Hrem.
    + rewrite Em3. exact Hh'.
    + cbn [h_lists]. by rewrite lookup_insert_eq.
    + intros s0 Hne0. cbn [h_lists]. by rewrite lookup_insert_ne.
    + cbn [h_blocks]. by apply (covers_with_slab _ _ _ _ _ sl).
    + apply kept_survivors'. cbn [h_blocks]. rewrite Em3. exact (own_writes_keep _ _ _ (hw_geometry _ _ Hh') Hown).
Qed.

Lemma free_slab_ok ev x b bk sl j s l H n k es : ie_mem ev = true -> lib_ok (S k) s l H -> ws_has (5 + n) (u_ws s) es -> region_at (h_blocks H) x b bk sl j true ->
  exists s' H', free_slab_object ev x (sl_elt sl) s = (Ok tt, s') /\ moved n k s es H s' H' /\ h_blocks H' = <[b := with_slab (mark_slab sl j false) bk]> (h_blocks H).
Proof.
  intros Hev Hok Hws Hr. pose proof Hok as [El Hbo Hh Hhd Hcov]. pose proof (hw_geometry _ _ Hh) as Hg. pose proof (region_block _ _ _ _ _ _ _ Hg Hr) as (Hr1 & _ & _ & He & Hr3 & _).
  pose proof Hr as (Hb & Hs & Hj & _). destruct (slab_head_ok _ _ _ _ _ _ _ s eq_refl Hh Hr) as (E1 & E2 & E3). unfold free_slab_object, SIVFS_ALLOC_REGION_HEADER_SIZE.
  rewrite usub_small by u64_lia. cbv zeta. rewrite (bind_step _ _ _ _ _ E1), E2, (bind_step _ _ _ _ _ E3). destruct (ge_block _ Hg _ _ Hb) as [_ _ H3].
  destruct (H3 _ Hs) as (_ & (i0 & Hc0) & _). destruct (get_slot_class ev _ x (bk_tag bk) (sl_elt sl - 8) false s l El Hbo ltac:(lia)) as [[_ Hn]|(m & ms & Hin & Hms & Hm & Hz & [(z & _ & Eb)|(e & i & Hc & _ & Eb & E)])].
  - pose proof (cl_align _ _ Hc0) as Ha. unfold SIZEOF_WORD in *. rewrite Zminus_mod, Ha. done.
  - destruct (Hn b (bk_size bk)); [lia|by apply (Hcov b bk sl)].
  - replace (Z.max (sl_elt sl - 8 + 8) 24) with (sl_elt sl) in Eb by lia. by rewrite (cl_bin _ _ Hc0) in Eb.
  - replace (Z.max (sl_elt sl - 8 + 8) 24) with (sl_elt sl) in Eb by lia. rewrite (cl_bin _ _ Hc0) in Eb. injection Eb as <- <-.
    destruct (slot_name_parts m i0 (cl_index _ _ Hc)) as [_ Hmod]. assert (Hsn : (slot_name m i0 =? 0) = false) by (pose proof (cl_index _ _ Hc); unfold slot_name; lia).
    destruct (slot_list _ s l H m ms i0 Hok Hms (cl_index _ _ Hc)) as [[El1 Hnone]|(h & t & El1 & Hne & Hsl)]; rewrite (bind_step _ _ _ _ _ El1) in E.
    + rewrite andb_false_r in E. rewrite (bind_step _ _ _ _ _ E), Hsn, (bind_step _ _ _ _ _ El1). cbn [Z.eqb].
      apply (put_new_ok ev m ms i0 x b bk sl j s l H n k es Hev Hok (ws_has_weaken (3 + n) (5 + n) _ _ ltac:(lia) Hws) Hnone Hms Hr Hc0).
    + rewrite andb_false_r in E. rewrite (bind_step _ _ _ _ _ E), Hsn, (bind_step _ _ _ _ _ El1), Hne.
      apply (put_ok ev (slot_name m i0) h t x b bk sl j s l H n k es Hev (lib_ok_weaken k (S k) _ _ _ ltac:(lia) Hok) Hws Hsl Hr). by rewrite Hmod.
Qed.

(** Freeing the object at [p] when it is live, and when it is free already: then
    the process ends. *)
Definition free_result (ev : lib_env) (p : Z) (is_live : bool) (s : ulib) (H : uheap) (n k : nat) (es : list wse) : Prop :=
  if is_live then exists s' H', sivfs_free_ws ev p s = (Ok tt, s') /\ moved n k s es H s' H' /\
    (forall p' c, live (h_blocks H') p' c <-> p' <> p /\ live (h_blocks H) p' c)
  else sivfs_free_ws ev p s = (Fault, s).

Lemma free_ok ev x b bk sl j u s l H n k es : ie_mem ev = true -> lib_ok (S k) s l H -> ws_has (5 + n) (u_ws s) es -> region_at (h_blocks H) x b bk sl j u ->
  free_result ev (x + 8) u s H n k es.
Proof.
  unfold free_result.
  intros Hev Hok Hws Hr. pose proof Hok as [El Hbo Hh Hhd Hcov]. pose proof (hw_geometry _ _ Hh) as Hg. pose proof (region_block _ _ _ _ _ _ _ Hg Hr) as (_ & _ & _ & He & _).
  destruct (region_word _ _ _ _ _ _ _ _ Hh Hr) as (w & Hw & Hp). pose proof (packed_reads _ _ _ _ Hp) as Hrd.
  assert (E : forall r, (let! w := load x in
    if negb (Z.land w SIVFS_FREED_MAGIC_MASK =? 0) then lift Fault
    else do! (if has_flag w SIVFS_BIG_ALLOCATION_FLAG then free_big ev x (sivfs_allocated_region_size w)
              else if sivfs_allocated_region_size w =? 0 then throw EINVAL else free_slab_object ev x (sivfs_allocated_region_size w)) in on_lib (modify count_free)) s = r ->
    sivfs_free_ws ev (x + 8) s = r).
  { intros r <-. unfold sivfs_free_ws, sivfs_alloc_ret_to_region, SIVFS_ALLOC_REGION_HEADER_SIZE. rewrite (bind_step _ _ s (Some l) s) by by rewrite <- El. by replace (x + 8 - 8) with x by lia. }
  rewrite (bind_step _ _ _ _ _ (load_word _ _ _ Hw)), (hr_magic _ _ _ _ Hrd), (hr_big _ _ _ _ Hrd), (hr_size _ _ _ _ Hrd) in E. destruct u; cbn [negb] in E; [|by apply E].
  cbn [Z.eqb negb] in E. destruct (used_size _ _ _ _ _ _ Hg Hr) as [Hsz _]. rewrite Hsz, (proj2 (Z.eqb_neq _ _)) in E by lia.
  destruct (free_slab_ok ev x b bk sl j s l H n k es Hev Hok Hws Hr) as (s1 & H' & E1 & Hmv & HB). destruct (moved_set_lib _ _ _ _ _ _ _ count_free Hmv) as (l' & E2 & Hmv'); [done|].
  exists (set_lib l' s1), H'. split; [apply E; by rewrite (bind_step _ _ _ _ _ E1)|]. split; [done|]. intros p c. rewrite HB, (mark_live _ _ _ _ _ _ true false p c Hg Hr). naive_solver.
Qed.

(** ** The theorems *)

(** C26. sivfs_malloc_ws on a heap in order, when the process has memory for its
    write set and the write set has room, each block the system hands out is
    fresh and lies inside its mapping ([kernel_ok]), and the size is below
    2^45 - 8. Either it returns NULL and leaves everything as it was, which
    happens only for size 0, for a zone that is in no registered mapping with
    that tag, or when the system has no suitable block; or it returns an aligned
    object of at least the size asked for that overlaps no other, the live
    objects are those there were and the new one, their contents are unchanged,
    every word that changed is in the write set, and the heap is in order again.
    Without memory for the write set it returns NULL after changing memory
    (malloc_without_memory in UserDefects.v). *)
Theorem malloc_outcome ev zone tag size s l H n k es : ie_mem ev = true -> lib_ok (S (S k)) s l H -> ws_has (23 + n) (u_ws s) es -> kernel_ok ev size s H ->
  0 <= size < 2 ^ 45 - 8 -> malloc_result ev zone tag size s l H n k es.
Proof. apply malloc_ok. Qed.

(** C29. sivfs_free_ws of an object in a slab, when the process has memory for
    its write set: it succeeds, exactly that object goes, the others keep their
    contents, every changed word is in the write set and the heap is in order.
    Freeing it again ends the process before anything changes. An object that has
    a block of its own is another matter (free_big_clears_wrong_word in
    UserDefects.v). *)
Theorem free_outcome ev x b bk sl j u s l H n k es : ie_mem ev = true -> lib_ok (S k) s l H -> ws_has (5 + n) (u_ws s) es -> region_at (h_blocks H) x b bk sl j u ->
  free_result ev (x + 8) u s H n k es.
Proof. apply free_ok. Qed.

(** *** Examples: a mapping of one slab's size, and a slab with one object *)

Definition demo_words (a n : Z) : gmap Z Z := list_to_map ((fun i => (a + 8 * i, 0)) <$> seqZ 0 n).
Definition demo_lib : lib_state := mk_lib (mk_stack 1 4 [1; 0; 0; 0]) zero_stack zero_stack 0 0.
Definition demo_state (m : gmap Z Z) (size : Z) : ulib := mk_ulib m ws_init {[1 := new_mmap_state 4096 7 size]} (Some demo_lib).
Definition demo_ev : lib_env := mk_lenv true true true 2 (fun _ req => if req <=? 16392 then Some (mk_blk 4096 16392 4096 16392) else None) (fun _ => true).

Lemma demo_book size : book_ok 2 {[1 := new_mmap_state 4096 7 size]} demo_lib.
Proof.
  split; try apply zero_stack_wf; try done; try (split; cbn; unfold stack_limit; lia).
  - intros m ->%list_elem_of_singleton. by eexists.
  - intros m ms [<- <-]%lookup_singleton_Some. done.
Qed.

Lemma demo_heads size : heads_ok {[1 := new_mmap_state 4096 7 size]} ∅.
Proof.
  intros slot v. unfold slot_get. rewrite lookup_empty. destruct (_ !! (slot / 64)) as [ms|] eqn:E; [|done]. apply lookup_singleton_Some in E as [_ <-]. cbn [mbind option_bind new_mmap_state ms_free_lists].
  by intros [-> _]%lookup_replicate.
Qed.

Lemma demo_ws n : (n <= 100)%nat -> ws_has n (u_ws (demo_state ∅ 0)) [].
Proof. intros Hn. split; [apply ws_init_repr|]. cbn. lia. Qed.

Lemma empty_ok size m : lib_ok 2 (demo_state m size) demo_lib (mk_uheap ∅ ∅).
Proof.
  split; [done|apply demo_book| |apply demo_heads|]; [|unfold covers; cbn [h_blocks]; by intros b k sl ?%lookup_empty_Some].
  split; [split|..]; cbn [h_blocks h_lists]; try (by intros ? ? ?%lookup_empty_Some); by intros ? ? ? ? ? ?%lookup_empty_Some.
Qed.

Lemma demo_mapped : forall a, 4096 <= a < 4096 + 16392 -> a mod SIZEOF_WORD = 0 -> is_Some (demo_words 4096 2049 !! a).
Proof.
  intros a Ha Hm. apply Z.mod_divide in Hm as [i ->]; [|done]. unfold SIZEOF_WORD in *.
  assert (E : (let m := demo_words 4096 2049 in forallb (fun i => if m !! (i * 8) then true else false) (seqZ 512 2049)) = true) by by vm_compute.
  pose proof (forall_range _ _ _ E i ltac:(lia)) as E'. cbv beta in E'. destruct (demo_words 4096 2049 !! (i * 8)); [by eexists|done].
Qed.

Lemma demo_kernel size : kernel_ok demo_ev size (demo_state (demo_words 4096 2049) 16392) (mk_uheap ∅ ∅).
Proof.
  intros zone req b _. cbn. destruct (req <=? 16392); [|done]. intros [= <-]. split; cbn; [|lia|lia].
  split; [done|done|exact demo_mapped|cbn [h_blocks]; by intros ? ? ?%lookup_empty_Some].
Qed.

Lemma malloc_outcome_witness : let s := demo_state (demo_words 4096 2049) 16392 in
  lib_ok 2 s demo_lib (mk_uheap ∅ ∅) /\ kernel_ok demo_ev 10 s (mk_uheap ∅ ∅) /\ (sivfs_malloc_ws demo_ev 4096 7 10 s).1 = Ok 4136 /\
  malloc_result demo_ev 4096 7 10 s demo_lib (mk_uheap ∅ ∅) 0 0 [].
Proof.
  intros s. split; [apply empty_ok|]. split; [exact (demo_kernel 10)|]. split; [by vm_compute|].
  apply (malloc_outcome demo_ev 4096 7 10 s demo_lib (mk_uheap ∅ ∅) 0 0 []); [done|apply empty_ok|apply (demo_ws 23); lia|exact (demo_kernel 10)|lia].
Defined.

Definition demo_slab : ublock := mk_ublock 48 7 (Some (mk_slab 24 [true] false)).
Definition demo_heap : uheap := mk_uheap {[4096 := demo_slab]} ∅.
Definition demo_mem : gmap Z Z := list_to_map [(4096, 48); (4104, 24); (4112, 5); (4120, 6); (4128, 7); (4136, 48)].

Lemma demo_class : class 24 7.
Proof. split; [by vm_compute|lia|done|unfold SIVFS_ALLOCATOR_NBINS; lia]. Qed.

Lemma demo_words_ok : block_words demo_mem 4096 demo_slab.
Proof.
  split; [|by vm_compute..|].
  - cbn. intros a Ha [i ->]%Z.mod_divide; [|done]. unfold SIZEOF_WORD in *. assert (Hi : i = 512 \/ i = 513 \/ i = 514 \/ i = 515 \/ i = 516 \/ i = 517) by lia.
    destruct Hi as [->|[->|[->|[->|[-> | ->]]]]]; by eexists.
  - cbn. intros sl j u [= <-] Hj. destruct j as [|j]; [|done]. injection Hj as <-. exists 24. split; [by vm_compute|]. apply (packed_intro 24 0 0 false); lia || done.
Qed.

Lemma demo_heap_ok : lib_ok 2 (demo_state demo_mem 48) demo_lib demo_heap.
Proof.
  split; [done|apply demo_book| |apply demo_heads|].
  - split; cbn [h_blocks h_lists demo_heap]; [split|..].
    + intros b k [<- <-]%lookup_singleton_Some. split; [done|done|]. cbn. intros sl [= <-]. cbn. split; [lia|]. split; [by exists 7; apply demo_class|]. done.
    + intros b k b' k' [<- <-]%lookup_singleton_Some [<- <-]%lookup_singleton_Some. done.
    + intros b k [<- <-]%lookup_singleton_Some. apply demo_words_ok.
    + by intros ? ? ?%lookup_empty_Some.
    + by intros ? ? ? ? ? ?%lookup_empty_Some.
  - unfold covers. cbn [h_blocks demo_heap]. intros b k sl [<- <-]%lookup_singleton_Some _. exists 1, (new_mmap_state 4096 7 48). split_and!; [left|done|cbn; lia|cbn; lia|done].
Qed.

Lemma demo_region : region_at (h_blocks demo_heap) 4104 4096 demo_slab (mk_slab 24 [true] false) 0 true.
Proof. by split_and!. Qed.

Lemma free_outcome_witness : let s := demo_state demo_mem 48 in lib_ok 2 s demo_lib demo_heap /\ region_at (h_blocks demo_heap) 4104 4096 demo_slab (mk_slab 24 [true] false) 0 true /\
  free_result demo_ev (4104 + 8) true s demo_heap 0 1 [].
Proof.
  intros s. split; [exact demo_heap_ok|]. split; [exact demo_region|].
  apply (free_outcome demo_ev 4104 4096 demo_slab (mk_slab 24 [true] false) 0 true s demo_lib demo_heap 0 1 []); [done|exact demo_heap_ok|apply (demo_ws 5); lia|exact demo_region].
Defined.
