(* ===== verification/UserAbort.v ===== *)
(** What an abort undoes: the history of changes to the free lists that every
    call of the allocator keeps (lib/sivfs_allocator.h,
    sivfs_lib_allocation_on_commit). *)
From S2P Require Import Prelude Types Stack Writeset UserBins UserAlloc UserHeap UserSlab UserMalloc UserCalls.

(** ** The history *)

(** The changes of the history undone, the last one first. *)
Definition undo (M : gmap Z mmap_state) (changes : list (Z * Z)) : gmap Z mmap_state := foldr (fun c M => slot_set M c.1 c.2) M changes.
Definition history (l : lib_state) : list (Z * Z) := zip (elems (l_restore_ptrs l)) (elems (l_restore_values l)).

(** Undoing the history gives [M0]; there is room for [n] more changes. *)
Record history_ok (M0 : gmap Z mmap_state) (st : sivfs_stack) (n : nat) (s : ulib) : Prop := {
  hk_lib : exists l, u_lib s = Some l /\ book_ok n (u_mstates s) l /\ l_mmap_states l = st /\ undo (u_mstates s) (history l) = M0 /\
    forall slot, slot ∈ elems (l_restore_ptrs l) -> is_Some (slot_get (u_mstates s) slot)
}.

(** At most [k] changes, whatever the outcome. *)
Definition spends {A} (k : nat) (m : M ulib A) : Prop := forall n M0 st s, history_ok M0 st (k + n) s -> history_ok M0 st n (m s).2.

(** No change of the bookkeeping. *)
Definition quiet {A} (m : M ulib A) : Prop := forall s, u_lib (m s).2 = u_lib s /\ u_mstates (m s).2 = u_mstates s.

Lemma quiet_spends {A} k (m : M ulib A) : quiet m -> spends k m.
Proof.
  intros Hq n M0 st s [(l & El & Hbo & Hst & Hu & Hs)]. destruct (Hq s) as [E1 E2]. split. exists l. rewrite E1, E2. split_and!; try done.
  destruct Hbo. split; try done. lia.
Qed.

Lemma quiet_bind {A B} (m : M ulib A) (f : A -> M ulib B) : quiet m -> (forall a, quiet (f a)) -> quiet (bind m f).
Proof.
  intros Hm Hf s. unfold bind. destruct (Hm s) as [E1 E2]. destruct (m s) as [[a| | |] s1]; cbn in *; [|done..]. destruct (Hf a s1) as [E3 E4]. by rewrite E3, E4.
Qed.

Lemma spends_bind {A B} k k' (m : M ulib A) (f : A -> M ulib B) : spends k m -> (forall a, spends k' (f a)) -> spends (k + k') (bind m f).
Proof.
  intros Hm Hf n M0 st s Hs. rewrite <- Nat.add_assoc in Hs. pose proof (Hm _ _ _ _ Hs) as Hs1. unfold bind. destruct (m s) as [[a| | |] s1]; cbn [snd] in *; [by apply Hf| | |];
    (apply (quiet_spends k' (fun s => (Ok tt, s)) (fun s => conj eq_refl eq_refl)); exact Hs1).
Qed.

Lemma spends_quiet_bind {A B} k (m : M ulib A) (f : A -> M ulib B) : quiet m -> (forall a, spends k (f a)) -> spends k (bind m f).
Proof. intros Hm Hf. apply (spends_bind 0 k); [by apply quiet_spends|done]. Qed.

Lemma spends_then_quiet {A B} k (m : M ulib A) (f : A -> M ulib B) : spends k m -> (forall a, quiet (f a)) -> spends k (bind m f).
Proof. intros Hm Hf. rewrite <- (Nat.add_0_r k). apply (spends_bind k 0); [done|]. intros a. by apply quiet_spends. Qed.

Lemma quiet_same {A} (m : M ulib A) : (forall s, (m s).2 = s) -> quiet m.
Proof. intros H s. by rewrite H. Qed.

Lemma quiet_write ev a v : quiet (sivfs_write_ws ev a v).
Proof.
  intros s. unfold sivfs_write_ws. destruct (negb _); [done|]. unfold bind, store. destruct (u_mem s !! a); [|done]. unfold on_wset.
  by destruct (sivfs_add_to_writeset _ _ _ _).
Qed.

Create HintDb quiet.
#[export] Hint Resolve quiet_write : quiet.

(** Cases and sequences of quiet steps; what is left changes something. *)
Ltac quiet_step :=
  match goal with
  | |- quiet (bind _ _) => apply quiet_bind; [|intros]
  | |- quiet (if ?b then _ else _) => destruct b
  | |- quiet (match ?x with _ => _ end) => destruct x
  | |- quiet (let _ := _ in _) => cbv zeta
  | |- quiet _ => first [solve [auto with quiet] | apply quiet_same; intros; reflexivity]
  end.
Ltac quiet_all := repeat quiet_step.

Lemma quiet_add_ws ev list lh : quiet (sivfs_alloc_lh_add_ws ev list lh).
Proof. unfold sivfs_alloc_lh_add_ws, sivfs_write_wsp. quiet_all. Qed.
Lemma quiet_remove_ws ev lh : quiet (sivfs_alloc_lh_remove_ws ev lh).
Proof. unfold sivfs_alloc_lh_remove_ws, sivfs_write_wsp. quiet_all. Qed.
Lemma quiet_footer ev b n tag : quiet (write_footer ev b n tag).
Proof. unfold write_footer. quiet_all. Qed.
Lemma quiet_alloc_block ev zone req : quiet (alloc_block_ioctl ev zone req).
Proof. unfold alloc_block_ioctl. quiet_all. Qed.
Lemma quiet_free_block ev b : quiet (free_block_ioctl ev b).
Proof. unfold free_block_ioctl. quiet_all. Qed.
Lemma quiet_set_flags ev x f : quiet (sivfs_allocated_region_set_flags ev x f).
Proof. unfold sivfs_allocated_region_set_flags. quiet_all. Qed.
#[export] Hint Resolve quiet_add_ws quiet_remove_ws quiet_footer quiet_alloc_block quiet_free_block quiet_set_flags : quiet.

Lemma quiet_find zone tag states : quiet (find_mmap_state zone tag states).
Proof. induction states as [|m states IH]; cbn [find_mmap_state]; [by apply quiet_same|]. repeat first [exact IH | quiet_step]. Qed.
#[export] Hint Resolve quiet_find : quiet.
Lemma quiet_get_state zone tag : quiet (sivfs_get_allocator_mmap_state zone tag).
Proof. unfold sivfs_get_allocator_mmap_state. quiet_all. Qed.
Lemma quiet_split ev head region e z : quiet (split_region ev head region e z).
Proof. unfold split_region. quiet_all. Qed.
Lemma quiet_big ev zone tag size : quiet (malloc_big ev zone tag size).
Proof. unfold malloc_big, sivfs_write_wsp. quiet_all. Qed.
Lemma quiet_free_big ev p z : quiet (free_big ev p z).
Proof. unfold free_big. quiet_all. Qed.
#[export] Hint Resolve quiet_get_state quiet_split quiet_big quiet_free_big : quiet.

(** Counting keeps the history. *)
Lemma count_spends (f : lib_state -> lib_state) : (forall l, l_mmap_states (f l) = l_mmap_states l /\ l_restore_ptrs (f l) = l_restore_ptrs l /\ l_restore_values (f l) = l_restore_values l) ->
  spends 0 (on_lib (modify f)).
Proof.
  intros Hf n M0 st s [(l & El & Hbo & Hst & Hu & Hs)]. destruct (Hf l) as (E1 & E2 & E3). unfold on_lib. rewrite El. cbn. split. exists (f l). unfold history. rewrite E1, E2, E3.
  split_and!; try done. destruct Hbo. by split; rewrite ?E1, ?E2, ?E3.
Qed.

(** ** Changing a slot *)

Lemma set_free_list_spends ev slot v : spends 1 (sivfs_set_free_list ev slot v).
Proof.
  intros n M0 st s [(l & El & Hbo & Hst & Hu & Hs)]. destruct (slot_get (u_mstates s) slot) as [old|] eqn:Ho.
  - destruct (set_free_list_ok ev slot v s l n old El Hbo Ho) as [(l' & E & Hbo' & Hrem & Hp & Hv)|(l' & _ & E & Hbo' & Hrem & Hp & Hv)]; rewrite E; cbn [snd]; split; exists l'.
    + unfold history. cbn. rewrite Hp, Hv. split_and!; try done; [congruence| |].
      * pose proof (elems_length _ (bo_ptrs _ _ _ Hbo)). pose proof (elems_length _ (bo_values _ _ _ Hbo)). pose proof (bo_sizes _ _ _ Hbo).
        rewrite zip_with_app by lia. unfold undo in *. rewrite foldr_app. cbn. by rewrite slot_set_back.
      * intros slot' Hin. rewrite slot_get_set. case_decide; [by rewrite Ho|]. apply elem_of_app in Hin as [Hin| ->%list_elem_of_singleton]; [by apply Hs|done].
    + cbn. unfold history. rewrite Hp, Hv. split_and!; try done; [|congruence]. destruct Hbo'. split; try done. lia.
  - assert (E : load_slot slot s = (Fault, s)) by (unfold load_slot, slot_get in *; by rewrite Ho). unfold sivfs_set_free_list, bind at 1. rewrite E. cbn. split. exists l. split_and!; try done. destruct Hbo. split; try done. lia.
Qed.

Ltac spend :=
  repeat match goal with
  | |- spends _ (bind _ _) => first [apply spends_quiet_bind; [solve [quiet_all] | intros] | apply spends_then_quiet; [|solve [quiet_all | intros; quiet_all]]]
  | |- spends _ (if ?b then _ else _) => destruct b
  | |- spends _ (match ?x with _ => _ end) => destruct x
  | |- spends _ (let _ := _ in _) => cbv zeta
  | |- spends 1 (sivfs_set_free_list _ _ _) => apply set_free_list_spends
  | |- spends _ _ => apply quiet_spends; solve [quiet_all]
  end.

Lemma new_slab_spends ev ms zone tag e slot : spends 1 (new_slab ev ms zone tag e slot).
Proof. unfold new_slab, sivfs_write_wsp. cbv zeta. spend. Qed.

Lemma get_slot_spends ev zone tag size alloc : spends 1 (sivfs_get_free_list_slot ev zone tag size alloc).
Proof.
  unfold sivfs_get_free_list_slot. destruct (size =? 0); [spend|]. destruct (negb _); [spend|]. apply spends_quiet_bind; [quiet_all|]. intros m. destruct (m =? 0); [spend|].
  cbv zeta. apply spends_quiet_bind; [quiet_all|]. intros [[e i]|]; [|spend]. destruct (e <? _); [spend|]. apply spends_quiet_bind; [quiet_all|]. intros list.
  apply spends_then_quiet; [|intros; quiet_all]. destruct (_ && _); [|spend]. apply spends_quiet_bind; [quiet_all|]. intros ms. apply spends_quiet_bind; [quiet_all|]. intros mstate. apply new_slab_spends.
Qed.

Lemma quiet_empty head : quiet (sivfs_alloc_list_empty head).
Proof. unfold sivfs_alloc_list_empty. quiet_all. Qed.
#[export] Hint Resolve quiet_empty : quiet.

Lemma take_region_spends ev slot head iter e z : spends 1 (take_region ev slot head iter e z).
Proof.
  unfold take_region. cbv zeta. destruct (z <? e); [spend|]. do 2 (apply spends_quiet_bind; [quiet_all|]; intros ?). apply spends_then_quiet; [|intros; quiet_all].
  destruct (iter =? head); [|spend]. apply spends_quiet_bind; [quiet_all|]. intros []; spend.
Qed.

Lemma alloc_within_spends fuel : forall ev slot head e, spends 1 (alloc_within fuel ev slot head e).
Proof.
  induction fuel as [|fuel IH]; intros ev slot head e; cbn [alloc_within]; [spend|]. apply spends_quiet_bind; [quiet_all|]. intros iter. destruct (iter =? 0); [spend|]. cbv zeta.
  apply spends_quiet_bind; [quiet_all|]. intros w. destruct (negb _); [spend|]. destruct (_ <=? _); [|apply take_region_spends].
  apply spends_quiet_bind; [quiet_all|]. intros _. destruct (iter =? head); [apply IH|apply take_region_spends].
Qed.

Lemma weaken_spends {A} k k' (m : M ulib A) : (k <= k')%nat -> spends k m -> spends k' m.
Proof.
  intros Hk Hm n M0 st s Hs. apply Hm. destruct Hs as [(l & El & Hbo & Hst & Hu & Hs)]. split. exists l. split_and!; try done. destruct Hbo. split; try done. lia.
Qed.

Lemma malloc_spends ev zone tag size : spends 2 (sivfs_malloc_ws ev zone tag size).
Proof.
  unfold sivfs_malloc_ws. apply spends_quiet_bind; [quiet_all|]. intros [l|]; [|by apply quiet_spends, quiet_same]. intros n M0 st s Hs.
  set (m := bind (sivfs_get_free_list_slot _ _ _ _ _) _). assert (Hm : spends 2 m).
  { apply (spends_bind 1 1); [apply get_slot_spends|]. intros [e slot]. destruct (slot =? 0); [spend|]. apply spends_quiet_bind; [quiet_all|]. intros head.
    destruct (head =? 0); [spend|]. apply spends_quiet_bind; [quiet_all|]. intros w. destruct (negb _); [spend|apply alloc_within_spends]. }
  pose proof (Hm n M0 st s Hs) as Hs1. fold m. destruct (m s) as [[region| | |] s1]; cbn [snd] in Hs1; [|done..].
  apply (spends_then_quiet 0 _ (fun _ => ret _)); [by apply count_spends|intros; by apply quiet_same|done].
Qed.

Lemma free_slab_spends ev p z : spends 2 (free_slab_object ev p z).
Proof.
  unfold free_slab_object. cbv zeta. apply spends_quiet_bind; [unfold sivfs_alloc_region_to_block_head; quiet_all|]. intros b. destruct (b =? 0); [spend|].
  apply spends_quiet_bind; [unfold sivfs_block_tag; quiet_all|]. intros tag. apply (spends_bind 1 1); [apply get_slot_spends|]. intros [e slot]. destruct (slot =? 0); [spend|].
  apply spends_quiet_bind; [quiet_all|]. intros list. apply spends_then_quiet; [|intros; quiet_all]. unfold sivfs_write_wsp. destruct (list =? 0); spend.
Qed.

Lemma free_spends ev p : spends 2 (sivfs_free_ws ev p).
Proof.
  unfold sivfs_free_ws. cbv zeta. apply spends_quiet_bind; [quiet_all|]. intros [l|]; [|by apply quiet_spends, quiet_same]. apply spends_quiet_bind; [quiet_all|]. intros w.
  destruct (negb _); [spend|]. apply (spends_bind 2 0); [|intros; by apply count_spends].
  destruct (has_flag _ _); [apply quiet_spends; quiet_all|]. destruct (_ =? 0); [spend|apply free_slab_spends].
Qed.

(** ** Abort *)

(** The calls of a transaction; a caller that gets an error may go on. *)
Inductive call : Type :=
  | CMalloc (ev : lib_env) (zone tag size : Z)
  | CFree (ev : lib_env) (p : Z).

Definition run_call (c : call) : M ulib unit :=
  match c with
  | CMalloc ev zone tag size => do! sivfs_malloc_ws ev zone tag size in ret tt
  | CFree ev p => sivfs_free_ws ev p
  end.

Fixpoint run_calls (calls : list call) : M ulib unit :=
  match calls with
  | [] => ret tt
  | c :: calls => fun s =>
    match run_call c s with
    | (Ok _, s) | (Err _, s) => run_calls calls s
    | r => r
    end
  end.

Lemma run_call_spends c : spends 2 (run_call c).
Proof. destruct c as [ev zone tag size|ev p]; cbn [run_call]; [|apply free_spends]. apply spends_then_quiet; [apply malloc_spends|intros; by apply quiet_same]. Qed.

Lemma run_calls_spends calls : spends (2 * length calls) (run_calls calls).
Proof.
  induction calls as [|c calls IH]; intros n M0 st s Hs; [exact Hs|]. cbn [run_calls length] in *. replace (2 * S (length calls) + n)%nat with (2 + (2 * length calls + n))%nat in Hs by lia.
  pose proof (run_call_spends c _ _ _ _ Hs) as Hs1.
  assert (Hq : forall s1, history_ok M0 st (2 * length calls + n) s1 -> history_ok M0 st n s1).
  { intros s1 H1. exact (quiet_spends (2 * length calls) (fun s => (Ok tt, s)) (fun s => conj eq_refl eq_refl) n M0 st s1 H1). }
  destruct (run_call c s) as [[[]|e| |] s1]; cbn [snd] in *; [by apply IH|by apply IH|by apply Hq..].
Qed.

Lemma restore_ok l i : forall s, (i <= length (history l))%nat -> stack_wf (l_restore_ptrs l) -> stack_wf (l_restore_values l) ->
  (forall slot, slot ∈ elems (l_restore_ptrs l) -> is_Some (slot_get (u_mstates s) slot)) ->
  restore_free_lists i l s = (Ok tt, set_mstates (undo (u_mstates s) (take i (history l))) s).
Proof.
  induction i as [|i IH]; intros s Hi Hp Hv Hs; cbn [restore_free_lists]; [by destruct s|]. unfold history in *. rewrite length_zip_with in Hi.
  destruct (lookup_lt_is_Some_2 (elems (l_restore_ptrs l)) i ltac:(lia)) as [slot Hslot]. destruct (lookup_lt_is_Some_2 (elems (l_restore_values l)) i ltac:(lia)) as [v Hval].
  assert (E1 : st_values (l_restore_ptrs l) !! i = Some slot) by (unfold elems in Hslot; by apply lookup_take_Some in Hslot as [? _]).
  assert (E2 : st_values (l_restore_values l) !! i = Some v) by (unfold elems in Hval; by apply lookup_take_Some in Hval as [? _]).
  unfold bind at 1 2, lift. rewrite E1, E2. cbn [deref]. rewrite (bind_step _ _ _ _ _ (store_slot_ok slot v s (Hs slot ltac:(by eapply list_elem_of_lookup_2)))).
  rewrite IH; [|rewrite length_zip_with; lia|done|done|].
  - rewrite (take_S_r _ _ (slot, v)); [|by rewrite lookup_zip_with, Hslot; cbn; rewrite Hval]. unfold undo. by rewrite foldr_app.
  - intros slot' Hin. cbn [set_mstates u_mstates]. rewrite slot_get_set. case_decide as Ed; [|by apply Hs]. subst slot'. by destruct (Hs slot Hin) as [old ->].
Qed.

Lemma restore_all l M s : book_ok 0 M l -> u_mstates s = M -> (forall slot, slot ∈ elems (l_restore_ptrs l) -> is_Some (slot_get M slot)) ->
  restore_free_lists (Z.to_nat (st_size (l_restore_ptrs l))) l s = (Ok tt, set_mstates (undo M (history l)) s).
Proof.
  intros Hbo <- Hs. pose proof (elems_length _ (bo_ptrs _ _ _ Hbo)). pose proof (elems_length _ (bo_values _ _ _ Hbo)). pose proof (bo_sizes _ _ _ Hbo).
  assert (E : Z.to_nat (st_size (l_restore_ptrs l)) = length (history l)) by (unfold history; rewrite length_zip_with; lia).
  rewrite E, restore_ok; [by rewrite firstn_all|done|apply Hbo|apply Hbo|done].
Qed.

Lemma no_history_ok k s l : u_lib s = Some l -> book_ok k (u_mstates s) l -> st_size (l_restore_ptrs l) = 0 -> history_ok (u_mstates s) (l_mmap_states l) k s.
Proof.
  intros El Hbo Hz. split. exists l. pose proof (elems_length _ (bo_ptrs _ _ _ Hbo)) as Hlen. assert (E : elems (l_restore_ptrs l) = []) by (apply length_zero_iff_nil; lia).
  split_and!; try done; [by unfold history; rewrite E|]. rewrite E. by intros slot ?%not_elem_of_nil.
Qed.

(** The bookkeeping is that of the first state again, or, on commit, that of
    the last one; the history is empty either way. *)
Lemma lib_on_commit_ok aborted calls s l k s1 : u_lib s = Some l -> book_ok (2 * length calls) (u_mstates s) l -> st_size (l_restore_ptrs l) = 0 ->
  book_ok k (u_mstates s) l -> run_calls calls s = (Ok tt, s1) ->
  exists l2 s2, sivfs_lib_allocation_on_commit aborted s1 = (Ok tt, s2) /\ u_lib s2 = Some l2 /\ u_mem s2 = u_mem s1 /\ u_ws s2 = u_ws s1 /\
    l_mmap_states l2 = l_mmap_states l /\ st_size (l_restore_ptrs l2) = 0 /\ u_mstates s2 = (if aborted then u_mstates s else u_mstates s1) /\
    book_ok k (u_mstates s2) l2.
Proof.
  intros El Hbo Hz Hk E. pose proof (no_history_ok _ _ _ El Hbo Hz) as Hh. rewrite <- (Nat.add_0_r (2 * length calls)) in Hh.
  pose proof (run_calls_spends calls _ _ _ _ Hh) as [(l1 & El1 & Hbo1 & Hst & Hu & Hs)]. rewrite E in *. cbn [snd] in *.
  exists (drop_history l1). set (M := if aborted then u_mstates s else u_mstates s1). exists (mk_ulib (u_mem s1) (u_ws s1) M (Some (drop_history l1))).
  assert (Hb2 : book_ok k M (drop_history l1)).
  { destruct Hbo1 as [H1 [P1 P2 P3] [V1 V2 V3] H4 H5 H6 H7], Hk as [K1 _ _ _ K5 K6 K7]. split; cbn; try done.
    - split; cbn; [lia|done|done].
    - split; cbn; [lia|done|done].
    - lia.
    - rewrite Hst. intros m Hm. unfold M. destruct aborted; [by apply K6|]. apply H6. by rewrite Hst.
    - unfold M. by destruct aborted. }
  split; [|by split_and!]. unfold sivfs_lib_allocation_on_commit. rewrite (bind_step _ _ s1 (Some l1) s1) by by rewrite <- El1. unfold M. destruct aborted.
  - rewrite (bind_step _ _ _ _ _ (restore_all l1 _ s1 Hbo1 eq_refl Hs)), Hu. unfold on_lib. cbn. by rewrite El1.
  - rewrite (bind_step _ _ s1 tt s1 eq_refl). unfold on_lib. rewrite El1. by destruct s1.
Qed.

(** C30. A transaction of any allocations and frees that aborts leaves every free
    list slot as it was when it began, with an empty history; once the kernel
    has also put the memory back, the heap is the one of the beginning. *)
Theorem abort_restores_heap calls s l k H s1 : lib_ok k s l H -> book_ok (2 * length calls) (u_mstates s) l -> st_size (l_restore_ptrs l) = 0 ->
  run_calls calls s = (Ok tt, s1) ->
  exists l2 s2, sivfs_lib_allocation_on_commit true s1 = (Ok tt, s2) /\ u_mstates s2 = u_mstates s /\ st_size (l_restore_ptrs l2) = 0 /\ lib_ok k (set_mem (u_mem s) s2) l2 H.
Proof.
  intros [El Hbk Hh Hhd Hcov] Hbo Hz E. destruct (lib_on_commit_ok true calls s l k s1 El Hbo Hz Hbk E) as (l2 & s2 & E2 & El2 & _ & _ & Hst & Hz2 & EM & Hb2).
  exists l2, s2. split; [done|]. split; [done|]. split; [done|]. split; cbn [set_mem u_lib u_mem u_mstates]; try done; rewrite EM; [done|].
  intros b kb sl Hb Hs. destruct (Hcov b kb sl Hb Hs) as (m & ms & Hin & Hr). exists m, ms. by rewrite Hst.
Qed.

Definition demo_calls : list call := [CFree demo_ev 4112; CMalloc demo_ev 4096 7 16; CMalloc demo_ev 5000 7 16].

Lemma demo_calls_run : exists s1, run_calls demo_calls (demo_state demo_mem 48) = (Ok tt, s1).
Proof.
  exists (run_calls demo_calls (demo_state demo_mem 48)).2. assert (E : (run_calls demo_calls (demo_state demo_mem 48)).1 = Ok tt) by by vm_compute.
  destruct (run_calls _ _) as [r s1]. cbn in *. by rewrite E.
Qed.

Lemma abort_restores_heap_witness : let s := demo_state demo_mem 48 in lib_ok 2 s demo_lib demo_heap /\ (exists s1, run_calls demo_calls s = (Ok tt, s1)) /\
  forall s1, run_calls demo_calls s = (Ok tt, s1) ->
  exists l2 s2, sivfs_lib_allocation_on_commit true s1 = (Ok tt, s2) /\ u_mstates s2 = u_mstates s /\ st_size (l_restore_ptrs l2) = 0 /\ lib_ok 2 (set_mem (u_mem s) s2) l2 demo_heap.
Proof.
  intros s. split; [exact demo_heap_ok|]. split; [exact demo_calls_run|]. intros s1 E.
  apply (abort_restores_heap demo_calls s demo_lib 2 demo_heap s1); [exact demo_heap_ok| |done|exact E].
  destruct (demo_book 48) as [H1 H2 H3 H4 _ H6 H7]. split; try done. all: cbn; unfold stack_limit; lia.
Defined.
