(* ===== verification/UserMaps.v ===== *)
(** Registering a mapping with the allocator (sivfs_allocator_add_mmap of
    lib/sivfs_allocator.h): states of mappings that overlap go, and the states
    that stay never overlap. *)
From S2P Require Import Prelude Types Stack Writeset UserBins UserAlloc.

#[local] Arguments sivfs_stack_push : simpl never.
#[local] Arguments sivfs_stack_remove : simpl never.

Definition overlaps (M : gmap Z mmap_state) (start tag size m : Z) : bool :=
  match M !! m with Some ms => sivfs_mmap_state_overlaps ms start tag size | None => false end.

(** The states that are removed, and those that stay. *)
Definition gone (M : gmap Z mmap_state) (start tag size : Z) (l : list Z) : list Z := List.filter (overlaps M start tag size) l.
Definition kept (M : gmap Z mmap_state) (start tag size : Z) (l : list Z) : list Z := List.filter (fun m => negb (overlaps M start tag size m)) l.
Definition forget (M : gmap Z mmap_state) (l : list Z) : gmap Z mmap_state := foldl (fun M m => delete m M) M l.

Lemma forget_lookup l : forall M m, forget M l !! m = if decide (m ∈ l) then None else M !! m.
Proof.
  induction l as [|x l IH]; intros M m; [done|]. cbn. rewrite IH. destruct (decide (m ∈ l)) as [Hin|Hn]; [by rewrite decide_True by by right|].
  rewrite lookup_delete. case_decide as E; [subst x; by rewrite decide_True by left|]. rewrite decide_False; [done|]. by intros [->|?]%elem_of_cons.
Qed.

(** Going back one element and on by one is staying, at 0 too. *)
Lemma back_and_on i : 0 <= i < 2 ^ 63 -> uadd (usub i 1) 1 = i.
Proof.
  intros Hi. unfold uadd, usub, u64. rewrite Zplus_mod_idemp_l. replace (i - 1 + 1) with i by lia. apply Z.mod_small. unfold two64. lia.
Qed.

Lemma stack_remove_wf i s : stack_wf s -> 0 <= i < st_size s -> stack_wf (sivfs_stack_remove i s) /\ st_size (sivfs_stack_remove i s) = st_size s - 1.
Proof.
  intros [Hs Hv Hl] Hi. unfold stack_limit in *. unfold sivfs_stack_remove. rewrite (proj2 (Z.leb_gt _ _)) by lia. cbn.
  rewrite (usub_small (st_size s) i), !usub_small by u64_lia. split; [split; cbn; [lia| |unfold stack_limit; lia]|done].
  rewrite !length_app, !length_take, !length_drop. lia.
Qed.

Section remove.
Context (start tag size : Z).

Lemma overlaps_delete M x m : m <> x -> overlaps (delete x M) start tag size m = overlaps M start tag size m.
Proof. intros Hm. unfold overlaps. by rewrite lookup_delete_ne. Qed.

Lemma gone_delete M x l : x ∉ l -> gone (delete x M) start tag size l = gone M start tag size l /\ kept (delete x M) start tag size l = kept M start tag size l.
Proof.
  induction l as [|m l IH]; intros Hx; [done|]. apply not_elem_of_cons in Hx as [Hxm Hx]. destruct (IH Hx) as [E1 E2]. unfold gone, kept in *. cbn.
  rewrite overlaps_delete by done. by rewrite E1, E2.
Qed.

Lemma remove_overlaps_ok rest : forall fuel pre s l, u_lib s = Some l -> stack_wf (l_mmap_states l) -> elems (l_mmap_states l) = pre ++ rest -> NoDup (pre ++ rest) ->
  (forall m, m ∈ rest -> is_Some (u_mstates s !! m)) -> st_size (l_mmap_states l) < 2 ^ 62 -> (length rest < fuel)%nat ->
  exists st, remove_overlaps fuel (Z.of_nat (length pre)) start tag size s =
    (Ok tt, mk_ulib (u_mem s) (u_ws s) (forget (u_mstates s) (gone (u_mstates s) start tag size rest)) (Some (with_mmap_states st l))) /\
    stack_wf st /\ elems st = pre ++ kept (u_mstates s) start tag size rest.
Proof.
  induction rest as [|m rest IH]; intros fuel pre s l El Hwf He Hnd Hall Hlim Hf; (destruct fuel as [|fuel]; [cbn in Hf; lia|]); pose proof (elems_length _ Hwf) as Hlen; rewrite He, length_app in Hlen;
    cbn [remove_overlaps]; (rewrite (bind_step (gets u_lib) _ s (Some l) s) by by rewrite <- El); rewrite (bind_step (lift (deref (Some l))) _ s l s eq_refl).
  - cbn in Hlen. rewrite (proj2 (Z.ltb_ge _ _)) by lia. exists (l_mmap_states l). split; [|by rewrite He]. destruct s, l. cbn in *. by rewrite El.
  - cbn [length] in Hlen, Hf. rewrite (proj2 (Z.ltb_lt _ _)) by lia. assert (Em : st_values (l_mmap_states l) !! Z.to_nat (Z.of_nat (length pre)) = Some m).
    { assert (E : elems (l_mmap_states l) !! length pre = Some m) by (rewrite He; by apply list_lookup_middle). unfold elems in E. apply lookup_take_Some in E as [E _]. by rewrite Nat2Z.id. }
    destruct (Hall m ltac:(left)) as [ms Hms]. rewrite Em. cbn [deref]. rewrite (bind_step (lift (Ok m)) _ s m s eq_refl), (bind_step (gets u_mstates) _ s _ s eq_refl), Hms.
    rewrite (bind_step (lift (deref (Some ms))) _ s ms s eq_refl). assert (Eov : overlaps (u_mstates s) start tag size m = sivfs_mmap_state_overlaps ms start tag size) by (unfold overlaps; by rewrite Hms).
    unfold gone, kept. cbn [List.filter]. rewrite Eov. destruct (sivfs_mmap_state_overlaps ms start tag size).
    + rewrite back_and_on by lia. set (l1 := with_mmap_states (sivfs_stack_remove (Z.of_nat (length pre)) (l_mmap_states l)) l).
      rewrite (bind_step _ _ s tt (set_lib l1 s)) by (unfold on_lib; by rewrite El).
      set (s1 := set_mstates (delete m (u_mstates s)) (set_lib l1 s)). rewrite (bind_step _ _ (set_lib l1 s) tt s1 eq_refl).
      destruct (stack_remove_wf (Z.of_nat (length pre)) _ Hwf ltac:(lia)) as [Hwf1 Hsz1]. apply NoDup_app in Hnd as (Hn1 & Hn2 & [Hm Hn3]%NoDup_cons).
      destruct (IH fuel pre s1 l1 eq_refl Hwf1) as (st & E & Hst & Hel).
      * cbn [l1 l_mmap_states with_mmap_states]. rewrite remove_deletes_index, He, Nat2Z.id by (done || lia). by rewrite delete_middle.
      * apply NoDup_app. split; [done|]. split; [|done]. intros y Hy Hy'. apply (Hn2 y Hy). by right.
      * intros y Hy. cbn. rewrite lookup_delete_ne by (by intros ->). apply Hall. by right.
      * cbn. lia.
      * lia.
      * exists st. destruct (gone_delete (u_mstates s) m rest Hm) as [E1 E2]. cbn [s1 set_mstates u_mstates] in E, Hel. rewrite E1 in E. rewrite E2 in Hel. split; [exact E|done].
    + rewrite uadd_small by u64_lia. cbn [negb]. destruct (IH fuel (pre ++ [m]) s l El Hwf) as (st & E & Hst & Hel).
      * by rewrite <- (assoc_L (++)).
      * by rewrite <- (assoc_L (++)).
      * intros y Hy. apply Hall. by right.
      * done.
      * lia.
      * exists st. rewrite length_app in E. cbn [length] in E. rewrite Nat2Z.inj_add in E. split; [exact E|]. split; [done|]. by rewrite <- (assoc_L (++)) in Hel.
Qed.
End remove.

(** Registered mappings with the same tag do not overlap. *)
Record maps_ok (M : gmap Z mmap_state) (st : sivfs_stack) : Prop := {
  mo_wf : stack_wf st;
  mo_nodup : NoDup (elems st);
  mo_listed : forall m, m ∈ elems st -> is_Some (M !! m);
  mo_apart : forall m m' ms ms', m ∈ elems st -> m' ∈ elems st -> m <> m' -> M !! m = Some ms -> M !! m' = Some ms' -> ms_tag ms = ms_tag ms' ->
    ms_start ms + ms_size ms <= ms_start ms' \/ ms_start ms' + ms_size ms' <= ms_start ms
}.

(** The library's state, made by the first call. *)
Definition opened (ev : lib_env) (s : ulib) (l : lib_state) : Prop :=
  u_lib s = Some l \/ (u_lib s = None /\ ie_state ev = true /\ ie_open ev = true /\ l = mk_lib zero_stack zero_stack zero_stack 0 0).

Lemma kept_in M start tag size l m : m ∈ kept M start tag size l <-> m ∈ l /\ overlaps M start tag size m = false.
Proof. unfold kept. rewrite !list_elem_of_In, filter_In, negb_true_iff. done. Qed.
Lemma gone_in M start tag size l m : m ∈ gone M start tag size l <-> m ∈ l /\ overlaps M start tag size m = true.
Proof. unfold gone. by rewrite !list_elem_of_In, filter_In. Qed.

Lemma kept_NoDup M start tag size l : NoDup l -> NoDup (kept M start tag size l).
Proof. intros H%NoDup_ListNoDup. apply NoDup_ListNoDup. by apply List.NoDup_filter. Qed.

Lemma add_mmap_ok ev start tag size s l : opened ev s l -> maps_ok (u_mstates s) (l_mmap_states l) -> st_size (l_mmap_states l) + 1 < stack_limit / 2 ->
  ie_mem ev = true -> ie_mstate ev <> 0 -> u_mstates s !! ie_mstate ev = None ->
  exists s' st, sivfs_allocator_add_mmap ev start tag size s = (Ok tt, s') /\ u_lib s' = Some (with_mmap_states st l) /\ u_mem s' = u_mem s /\
    elems st = kept (u_mstates s) start tag size (elems (l_mmap_states l)) ++ [ie_mstate ev] /\ stack_wf st /\
    u_mstates s' = <[ie_mstate ev := new_mmap_state start tag size]> (forget (u_mstates s) (gone (u_mstates s) start tag size (elems (l_mmap_states l)))).
Proof.
  intros Hop [Hwf Hnd Hall _] Hlim Hev Hm0 Hfresh. set (s0 := mk_ulib (u_mem s) (u_ws s) (u_mstates s) (Some l)).
  assert (E : sivfs_allocator_add_mmap ev start tag size s =
    (do! remove_overlaps (S (Z.to_nat (st_size (l_mmap_states l)))) 0 start tag size in
     do! modify (fun s => set_mstates (<[ie_mstate ev := new_mmap_state start tag size]> (u_mstates s)) s) in
     on_error (on_lib (fun l => let '(r, st) := sivfs_stack_push (ie_mem ev) (ie_mstate ev) (l_mmap_states l) in (r, with_mmap_states st l)))
       (sivfs_put_allocator_mmap_state (ie_mstate ev))) s0).
  { unfold sivfs_allocator_add_mmap. rewrite (bind_step (gets u_lib) _ s (u_lib s) s eq_refl). rewrite (proj2 (Z.eqb_neq _ 0) Hm0).
    rewrite (bind_step _ _ s tt s0); [by rewrite (bind_step (gets u_lib) _ s0 (Some l) s0 eq_refl)|]. destruct Hop as [El|(El & Hst & Ho & ->)]; rewrite El.
    - unfold s0. rewrite <- El. by destruct s.
    - unfold sivfs_allocator_state_init. by rewrite Hst, Ho. }
  pose proof (elems_length _ Hwf) as Hlen. change (stack_limit / 2) with (2 ^ 59) in Hlim.
  destruct (remove_overlaps_ok start tag size (elems (l_mmap_states l)) (S (Z.to_nat (st_size (l_mmap_states l)))) [] s0 l eq_refl Hwf eq_refl Hnd Hall) as (st & E1 & Hst & Hel); [lia|lia|].
  cbn [length Z.of_nat app] in E1, Hel. rewrite (bind_step _ _ _ _ _ E1) in E. cbn [s0 u_mem u_ws u_mstates] in *. set (M1 := forget _ _) in *.
  set (s1 := mk_ulib _ _ _ _) in E. set (s2 := set_mstates (<[ie_mstate ev := new_mmap_state start tag size]> M1) s1). rewrite (bind_step _ _ s1 tt s2 eq_refl) in E.
  assert (Hsz : st_size st + 1 < stack_limit / 2).
  { pose proof (elems_length _ Hst) as Hl2. rewrite Hel in Hl2. unfold kept in Hl2. pose proof (List.filter_length_le (fun m => negb (overlaps (u_mstates s) start tag size m)) (elems (l_mmap_states l))).
    change (stack_limit / 2) with (2 ^ 59). lia. }
  destruct (push_ok_inv (ie_mem ev) (ie_mstate ev) st Hst Hsz) as [(st' & E2 & Hst' & Hel' & _)|[_ ?]]; [|congruence].
  exists (set_lib (with_mmap_states st' l) s2), st'. split; [|split_and!; try done; by rewrite Hel', Hel]. rewrite E. apply on_error_ok. unfold on_lib. cbn. by rewrite E2.
Qed.

(** C39. Registering a mapping succeeds when memory is available: states of
    mappings with the same tag that overlap it are forgotten, the others stay
    with their free lists, the new one has empty lists; registered mappings with
    the same tag never overlap. *)
Theorem add_mmap_registers ev start tag size s l : opened ev s l -> maps_ok (u_mstates s) (l_mmap_states l) -> st_size (l_mmap_states l) + 1 < stack_limit / 2 ->
  ie_mem ev = true -> ie_mstate ev <> 0 -> u_mstates s !! ie_mstate ev = None ->
  exists s' st, sivfs_allocator_add_mmap ev start tag size s = (Ok tt, s') /\ u_lib s' = Some (with_mmap_states st l) /\ u_mem s' = u_mem s /\
    maps_ok (u_mstates s') st /\ ie_mstate ev ∈ elems st /\ u_mstates s' !! ie_mstate ev = Some (new_mmap_state start tag size) /\
    forall m, m ∈ elems (l_mmap_states l) -> if overlaps (u_mstates s) start tag size m then m ∉ elems st /\ u_mstates s' !! m = None
      else m ∈ elems st /\ u_mstates s' !! m = u_mstates s !! m.
Proof.
  intros Hop Hmo Hlim Hev Hm0 Hfresh. destruct (add_mmap_ok ev start tag size s l Hop Hmo Hlim Hev Hm0 Hfresh) as (s' & st & E & El & Em & Hel & Hst & EM).
  destruct Hmo as [Hwf Hnd Hall Hap]. exists s', st. split; [done|]. split; [done|]. split; [done|]. set (L := elems (l_mmap_states l)) in *. set (M := u_mstates s) in *.
  assert (Hn0 : ie_mstate ev ∉ L) by (intros Hin; destruct (Hall _ Hin) as [? ?]; congruence).
  assert (Hlk : forall m, m ∈ L -> overlaps M start tag size m = false -> u_mstates s' !! m = M !! m).
  { intros m Hm Ho. rewrite EM, lookup_insert_ne by (by intros <-). rewrite forget_lookup, decide_False; [done|]. rewrite gone_in. intros [_ ?]. congruence. }
  assert (Hnew : u_mstates s' !! ie_mstate ev = Some (new_mmap_state start tag size)) by (rewrite EM; apply lookup_insert_eq).
  assert (Hin : forall m, m ∈ elems st -> (m ∈ L /\ overlaps M start tag size m = false) \/ m = ie_mstate ev).
  { rewrite Hel. intros m [Hm|Hm]%elem_of_app; [left; by apply kept_in|right; by apply list_elem_of_singleton]. }
  assert (Hfar : forall m ms, m ∈ L -> overlaps M start tag size m = false -> u_mstates s' !! m = Some ms -> ms_tag ms = tag -> ms_start ms + ms_size ms <= start \/ start + size <= ms_start ms).
  { intros m ms Hm Ho Hms Ht. rewrite (Hlk m Hm Ho) in Hms. unfold overlaps in Ho. rewrite Hms in Ho. unfold sivfs_mmap_state_overlaps in Ho. lia. }
  split_and!; [| |done|].
  - split; [done| | |].
    + rewrite Hel. apply NoDup_app. split; [by apply kept_NoDup|]. split; [|apply NoDup_singleton]. intros m [Hm _]%kept_in ->%list_elem_of_singleton. done.
    + intros m [[Hm Ho]| ->]%Hin; [rewrite (Hlk m Hm Ho); by apply Hall|by eexists].
    + intros m m' ms ms' [[Hm Ho]| ->]%Hin [[Hm' Ho']| ->]%Hin Hne Hms Hms' Ht; [| | |done].
      * rewrite (Hlk m Hm Ho) in Hms. rewrite (Hlk m' Hm' Ho') in Hms'. by apply (Hap m m').
      * rewrite Hnew in Hms'. injection Hms' as <-. cbn in *. by apply (Hfar m).
      * rewrite Hnew in Hms. injection Hms as <-. cbn in *. destruct (Hfar m' ms' Hm' Ho' Hms' (eq_sym Ht)); auto.
  - rewrite Hel. apply elem_of_app; right; left.
  - intros m Hm. destruct (overlaps M start tag size m) eqn:Ho.
    + split; [|rewrite EM, lookup_insert_ne by (by intros <-); rewrite forget_lookup, decide_True; [done|by apply gone_in]].
      intros [[_ ?]| ->]%Hin; [congruence|done].
    + split; [rewrite Hel; apply elem_of_app; left; by apply kept_in|by apply Hlk].
Qed.

Definition map_ev : lib_env := mk_lenv true true true 2 (fun _ _ => None) (fun _ => false).
Definition map_lib : lib_state := mk_lib (mk_stack 1 4 [1; 0; 0; 0]) zero_stack zero_stack 0 0.
Definition map_state : ulib := mk_ulib ∅ ws_init {[1 := new_mmap_state 4096 7 8192]} (Some map_lib).

Lemma map_state_ok : maps_ok (u_mstates map_state) (l_mmap_states map_lib).
Proof.
  split; [split; cbn; unfold stack_limit; lia|apply NoDup_singleton|intros m ->%list_elem_of_singleton; by eexists|].
  by intros m m' ms ms' ->%list_elem_of_singleton ->%list_elem_of_singleton.
Qed.

Lemma add_mmap_registers_witness : maps_ok (u_mstates map_state) (l_mmap_states map_lib) /\
  exists s' st, sivfs_allocator_add_mmap map_ev 8192 7 4096 map_state = (Ok tt, s') /\ u_lib s' = Some (with_mmap_states st map_lib) /\ u_mem s' = u_mem map_state /\
    maps_ok (u_mstates s') st /\ ie_mstate map_ev ∈ elems st /\ u_mstates s' !! ie_mstate map_ev = Some (new_mmap_state 8192 7 4096) /\
    forall m, m ∈ elems (l_mmap_states map_lib) -> if overlaps (u_mstates map_state) 8192 7 4096 m then m ∉ elems st /\ u_mstates s' !! m = None
      else m ∈ elems st /\ u_mstates s' !! m = u_mstates map_state !! m.
Proof.
  split; [exact map_state_ok|]. apply (add_mmap_registers map_ev 8192 7 4096 map_state map_lib); [by left|exact map_state_ok|cbn; change (stack_limit / 2) with (2 ^ 59); lia|done|done|by vm_compute].
Defined.

(** A mapping that begins where another ends counts as overlapping it: its state
    goes, and with it the free lists of its objects. *)
Lemma adjacent_mapping_forgotten ev tag size s l m ms : opened ev s l -> maps_ok (u_mstates s) (l_mmap_states l) -> st_size (l_mmap_states l) + 1 < stack_limit / 2 ->
  ie_mem ev = true -> ie_mstate ev <> 0 -> u_mstates s !! ie_mstate ev = None -> m ∈ elems (l_mmap_states l) -> u_mstates s !! m = Some ms -> ms_tag ms = tag ->
  0 <= ms_size ms -> 0 < size ->
  exists s' st, sivfs_allocator_add_mmap ev (ms_start ms + ms_size ms) tag size s = (Ok tt, s') /\ u_lib s' = Some (with_mmap_states st l) /\ m ∉ elems st /\ u_mstates s' !! m = None.
Proof.
  intros Hop Hmo Hlim Hev Hm0 Hfresh Hin Hm Ht Hs Hsz. pose proof (add_mmap_ok ev (ms_start ms + ms_size ms) tag size s l Hop Hmo Hlim Hev Hm0 Hfresh) as (s' & st & E & El & _ & Hel & _ & EM).
  assert (Ho : overlaps (u_mstates s) (ms_start ms + ms_size ms) tag size m = true) by (unfold overlaps; rewrite Hm; unfold sivfs_mmap_state_overlaps; lia).
  assert (Hne : m <> ie_mstate ev) by (intros ->; congruence). exists s', st. split_and!; [done|done| |].
  - rewrite Hel. intros [[_ ?]%kept_in|?%list_elem_of_singleton]%elem_of_app; congruence.
  - rewrite EM, lookup_insert_ne by congruence. rewrite forget_lookup, decide_True; [done|]. by apply gone_in.
Qed.
