(* ===== verification/UserDefects.v ===== *)
(** Where the user-space allocator does not do what it means to: freeing a big
    object, sizes near 2^64, a mapping registered inside a transaction that
    aborts (lib/sivfs_allocator.h). *)
From S2P Require Import Prelude Types Stack Writeset UserBins UserAlloc UserHeap UserSlab UserMalloc UserCalls UserAbort UserMaps.

(** ** Freeing a big object *)

Lemma big_word x : 0 <= x < 2 ^ 46 -> let w := Z.lor x SIVFS_BIG_ALLOCATION_FLAG in
  Z.land w SIVFS_FREED_MAGIC_MASK = 0 /\ has_flag w SIVFS_BIG_ALLOCATION_FLAG = true /\ sivfs_allocated_region_size w = x.
Proof.
  intros Hx w. destruct flag_masks as (_ & M2 & _ & M4 & M5). assert (Ew : w = x + 2 ^ 63) by (unfold w; change SIVFS_BIG_ALLOCATION_FLAG with (1 * 2 ^ 63); rewrite lor_disjoint by lia; lia).
  assert (Hb : has_flag w SIVFS_BIG_ALLOCATION_FLAG = true).
  { unfold has_flag. rewrite M4, land_field by done. replace (w / 2 ^ 63) with 1; [done|]. apply (Z.div_unique _ _ _ x); lia. }
  assert (Hd : w / 2 ^ 46 = 2 ^ 17) by (symmetry; apply (Z.div_unique _ _ _ x); lia).
  split; [by rewrite M2, land_field, Hd|]. split; [done|]. unfold sivfs_allocated_region_size. rewrite Hb, M5, land_low by done. symmetry. apply (Z.mod_unique _ _ (2 ^ 17)); lia.
Qed.

(** The word with the size in the footer of a block, and the one cleared instead. *)
Definition footer_size_word (b : Z) (bk : ublock) : Z := b + bk_size bk - 8.
Definition cleared_word (b : Z) (bk : ublock) : Z := b + bk_size bk + 48.

(** sivfs_free_ws of a big object clears its header and the tag in its
    footer, but not the size in its footer: the pointer to the footer counts in
    words, so that adding 8 to it goes 64 bytes on, and a word 48 bytes behind
    the end of the block is set to 0, whatever object it belongs to. *)
Theorem free_big_clears_wrong_word ev b bk s l H n k es : ie_mem ev = true -> lib_ok k s l H -> ws_has (3 + n) (u_ws s) es -> h_blocks H !! b = Some bk -> bk_slab bk = None ->
  ie_free_block ev b = true -> is_Some (u_mem s !! cleared_word b bk) ->
  exists s', sivfs_free_ws ev (b + 8) s = (Ok tt, s') /\ u_mem s' !! b = Some 0 /\ u_mem s' !! footer_size_word b bk = Some (bk_size bk) /\ u_mem s' !! cleared_word b bk = Some 0.
Proof.
  unfold footer_size_word, cleared_word. intros Hev [El Hbo Hh Hhd Hcov] Hws Hb Hs Hk Hmap. pose proof (ge_block _ (hw_geometry _ _ Hh) _ _ Hb) as [[_ Hba] [Hsz Hsa] _]. destruct (hw_words _ _ Hh _ _ Hb) as [Hm Hhead _ Hfoot _].
  rewrite Hs in Hhead. destruct (big_word (bk_size bk) ltac:(lia)) as (W1 & W2 & W3). set (z := bk_size bk) in *. set (w := [(b, 0); (b + z - 16, 0); (b + z + 48, 0)]).
  assert (Hal : forall d, d mod SIZEOF_WORD = 0 -> (b + z + d) mod SIZEOF_WORD = 0).
  { intros d Hd. unfold SIZEOF_WORD in *. by rewrite Z.add_mod, (Z.add_mod b z), Hba, Hsa, Hd. }
  assert (Hw : forall v, v ∈ w -> writable (u_mem s) v.1).
  { intros v [->|[->|[->|[]%not_elem_of_nil]%elem_of_cons]%elem_of_cons]%elem_of_cons; cbn [fst].
    - split; [done|by eexists].
    - split; [by apply (Hal (-16))|]. apply Hm; [lia|by apply (Hal (-16))].
    - split; [by apply (Hal 48)|done]. }
  destruct (write_all_written ev w n s es Hev Hw Hws) as (s1 & E1 & Hwr). pose proof (written_mem _ _ _ _ _ Hwr) as (Em & _ & El1). rewrite El in El1.
  exists (set_lib (count_free l) s1). split; [|cbn [set_lib u_mem]; rewrite Em; unfold w; split; [read_back|split; [|read_back]]].
  - unfold sivfs_free_ws, sivfs_alloc_ret_to_region, SIVFS_ALLOC_REGION_HEADER_SIZE. rewrite (bind_step _ _ s (Some l) s) by by rewrite <- El. replace (b + 8 - 8) with b by lia.
    rewrite (bind_step _ _ _ _ _ (load_word _ _ _ Hhead)), W1, W2, W3. cbn [Z.eqb negb]. rewrite (bind_step _ _ s tt s1); [unfold on_lib; by rewrite El1|].
    unfold free_big, free_block_ioctl. rewrite bind_assoc, (bind_step _ _ s (Some l) s) by by rewrite <- El. rewrite Hk, (bind_step _ _ s tt s eq_refl).
    unfold SIVFS_BLOCK_FOOTER_SIZE, SIZEOF_WORD. replace (b + z - (8 + 8) + 8 * 8) with (b + z + 48) by lia. replace (b + z - (8 + 8)) with (b + z - 16) by lia. rewrite <- E1. unfold w. clear. revert s. as_writes.
  - rewrite lookup_writes_ne; [done|]. intros v [->|[->|[->|[]%not_elem_of_nil]%elem_of_cons]%elem_of_cons]%elem_of_cons; cbn; lia.
Qed.

(** ** Sizes near 2^64 *)

Definition huge_size : Z := 2 ^ 64 - 8.

(** A request of 2^64 - 8 bytes is served like one of 16 bytes: the size of
    the header added to it wraps around. *)
Theorem malloc_of_huge_size_is_small ev zone tag s : sivfs_malloc_ws ev zone tag huge_size s = sivfs_malloc_ws ev zone tag 16 s.
Proof.
  unfold huge_size. assert (Eg : forall s, sivfs_get_free_list_slot ev zone tag (2 ^ 64 - 8) true s = sivfs_get_free_list_slot ev zone tag 16 true s) by done.
  assert (Hs : forall s e slot s', sivfs_get_free_list_slot ev zone tag 16 true s = (Ok (e, slot), s') -> (slot =? 0) = false).
  { intros s0 e slot s'. unfold sivfs_get_free_list_slot. cbn [Z.eqb]. change (negb (16 mod SIZEOF_WORD =? 0)) with false. cbv iota. intros (m & s1 & _ & E)%bind_Ok.
    destruct (m =? 0); [done|]. cbv zeta in E. apply bind_Ok in E as (o & s2 & Eb & E).
    replace (max2_size_t (uadd 16 SIVFS_ALLOC_REGION_HEADER_SIZE) sizeof_region) with 24 in Eb by by vm_compute.
    replace (sivfs_allocator_bins_get_bin 24) with (Ok (Some (24, 7))) in Eb by by vm_compute. injection Eb as <- <-. cbv iota beta in E. destruct (24 <? _); [done|].
    apply bind_Ok in E as (list & s3 & _ & E). apply bind_Ok in E as ([] & s4 & _ & E). injection E as _ <- _. unfold slot_name. lia. }
  unfold sivfs_malloc_ws, bind at 1. symmetry. unfold bind at 1. unfold gets. destruct (u_lib s); [|done]. cbv zeta.
  change (ROUND_UP 16 SIZEOF_WORD) with 16. change (ROUND_UP (2 ^ 64 - 8) SIZEOF_WORD) with (2 ^ 64 - 8). unfold bind at 1. symmetry. unfold bind at 1. rewrite Eg. specialize (Hs s).
  destruct (sivfs_get_free_list_slot ev zone tag 16 true s) as [[[e slot]| | |] s1]; [|done..]. by rewrite (Hs e slot s1 eq_refl).
Qed.

Definition two_big : uheap := mk_uheap {[4096 := mk_ublock 64 7 None; 4160 := mk_ublock 80 7 None]} ∅.
Definition two_big_mem : gmap Z Z := list_to_map [(4096, 2 ^ 63 + 64); (4104, 4104); (4112, 4104); (4120, 0); (4128, 0); (4136, 0); (4144, 7); (4152, 64);
  (4160, 2 ^ 63 + 80); (4168, 4168); (4176, 4168); (4184, 0); (4192, 0); (4200, 0); (4208, 99); (4216, 0); (4224, 7); (4232, 80)].

Lemma two_big_block (b : Z) k : h_blocks two_big !! b = Some k -> (b = 4096 /\ k = mk_ublock 64 7 None) \/ (b = 4160 /\ k = mk_ublock 80 7 None).
Proof.
  cbn [two_big h_blocks]. rewrite lookup_insert. case_decide; [intros [= <-]; by left|]. intros [<- <-]%lookup_singleton_Some. by right.
Qed.

Lemma two_big_mapped a : 4096 <= a < 4240 -> a mod SIZEOF_WORD = 0 -> is_Some (two_big_mem !! a).
Proof.
  intros Ha [i ->]%Z.mod_divide; [|done]. unfold SIZEOF_WORD in *. assert (E : forallb (fun i => if two_big_mem !! (i * 8) then true else false) (seqZ 512 18) = true) by by vm_compute.
  pose proof (forall_range _ _ _ E i ltac:(lia)) as E'. cbv beta in E'. destruct (two_big_mem !! (i * 8)); [by eexists|done].
Qed.

Lemma two_big_ok : lib_ok 2 (demo_state two_big_mem 144) demo_lib two_big.
Proof.
  split; [done|apply demo_book| |apply demo_heads|].
  - split; [split|..].
    + by intros b k [[-> ->]|[-> ->]]%two_big_block.
    + intros b k b' k' [[-> ->]|[-> ->]]%two_big_block [[-> ->]|[-> ->]]%two_big_block Hne; cbn; done || lia.
    + intros b k [[-> ->]|[-> ->]]%two_big_block; (split; [cbn; intros a Ha; apply two_big_mapped; lia|by vm_compute..|done]).
    + cbn [two_big h_lists]. by intros ? ? ?%lookup_empty_Some.
    + cbn [two_big h_lists]. by intros ? ? ? ? ? ?%lookup_empty_Some.
  - by intros b k sl [[-> ->]|[-> ->]]%two_big_block.
Qed.

(** The word at 4208 belongs to the second object. *)
Lemma free_big_clears_wrong_word_witness : let s := demo_state two_big_mem 144 in
  lib_ok 2 s demo_lib two_big /\ live (h_blocks two_big) 4168 56 /\ u_mem s !! 4208 = Some 99 /\
  exists s', sivfs_free_ws demo_ev (4096 + 8) s = (Ok tt, s') /\ u_mem s' !! 4096 = Some 0 /\ u_mem s' !! footer_size_word 4096 (mk_ublock 64 7 None) = Some 64 /\
    u_mem s' !! cleared_word 4096 (mk_ublock 64 7 None) = Some 0 /\ cleared_word 4096 (mk_ublock 64 7 None) = 4208.
Proof.
  intros s. split; [exact two_big_ok|]. split; [right; by exists 4160, (mk_ublock 80 7 None)|]. split; [done|].
  destruct (free_big_clears_wrong_word demo_ev 4096 (mk_ublock 64 7 None) s demo_lib two_big 0 2 []) as (s' & E1 & E2 & E3 & E4);
    [done|exact two_big_ok|apply (demo_ws 3); lia|done|done|done|by eexists|]. by exists s'.
Defined.

(** ** A mapping registered inside a transaction *)

Lemma restore_faults l i : forall s j slot, (j < i <= length (history l))%nat -> st_values (l_restore_ptrs l) !! j = Some slot -> slot_get (u_mstates s) slot = None ->
  (restore_free_lists i l s).1 = Fault.
Proof.
  induction i as [|i IH]; intros s j slot Hi Hj Hs; [lia|]. unfold history in Hi. rewrite length_zip_with in Hi.
  destruct (lookup_lt_is_Some_2 (elems (l_restore_ptrs l)) i ltac:(lia)) as [slot' Hslot]. destruct (lookup_lt_is_Some_2 (elems (l_restore_values l)) i ltac:(lia)) as [v Hval].
  unfold elems in Hslot, Hval. apply lookup_take_Some in Hslot as [Hslot _], Hval as [Hval _]. cbn [restore_free_lists]. unfold bind at 1 2, lift. rewrite Hslot, Hval. cbn [deref].
  destruct (slot_get (u_mstates s) slot') as [old|] eqn:Eo.
  - rewrite (bind_step _ _ _ _ _ (store_slot_ok slot' v s ltac:(by eexists))). assert (Hne : j <> i) by (intros ->; congruence).
    apply (IH _ j slot); [unfold history; rewrite length_zip_with; lia|done|]. cbn [set_mstates u_mstates]. rewrite slot_get_set. case_decide as Ed; [subst slot'; congruence|done].
  - assert (E : store_slot slot' v s = (Fault, s)); [|unfold bind; by rewrite E].
    unfold store_slot, slot_get in *. destruct (u_mstates s !! (slot' / 64)) as [ms|]; [|done]. cbn in Eo. apply lookup_ge_None in Eo.
    destruct (Z.ltb_spec (slot' mod 64) (Z.of_nat (length (ms_free_lists ms)))); [|done]. pose proof (Z.mod_pos_bound slot' 64). lia.
Qed.

(** The transaction has changed the slot. *)
Record in_history (l : lib_state) (slot : Z) : Prop := {
  ih_ptrs : stack_wf (l_restore_ptrs l);
  ih_values : stack_wf (l_restore_values l);
  ih_sizes : st_size (l_restore_ptrs l) = st_size (l_restore_values l);
  ih_slot : slot ∈ elems (l_restore_ptrs l)
}.

(** A transaction that has changed a free list, then registers a mapping
    that overlaps the one of that list, and then aborts, writes to a state that
    was freed. *)
Theorem remap_then_abort_faults ev start tag size s l m slot : u_lib s = Some l -> maps_ok (u_mstates s) (l_mmap_states l) -> st_size (l_mmap_states l) + 1 < stack_limit / 2 ->
  ie_mem ev = true -> ie_mstate ev <> 0 -> u_mstates s !! ie_mstate ev = None -> in_history l slot ->
  slot / 64 = m -> m ∈ elems (l_mmap_states l) -> overlaps (u_mstates s) start tag size m = true ->
  exists s', sivfs_allocator_add_mmap ev start tag size s = (Ok tt, s') /\ (sivfs_lib_allocation_on_commit true s').1 = Fault.
Proof.
  intros El Hmo Hlim Hev Hm0 Hfresh [Hp Hv Hsz Hin] Hslot Hm Ho. destruct (add_mmap_ok ev start tag size s l (or_introl El) Hmo Hlim Hev Hm0 Hfresh) as (s' & st & E & El' & _ & Hel & _ & EM).
  exists s'. split; [done|]. assert (Hne : m <> ie_mstate ev) by (intros ->; destruct (mo_listed _ _ Hmo _ Hm); congruence).
  assert (Hgone : slot_get (u_mstates s') slot = None).
  { unfold slot_get. rewrite Hslot, EM, lookup_insert_ne by congruence. rewrite forget_lookup, decide_True; [done|]. by apply gone_in. }
  apply list_elem_of_lookup_1 in Hin as [j Hj]. pose proof (elems_length _ Hp). pose proof (elems_length _ Hv). pose proof (lookup_lt_Some _ _ _ Hj).
  unfold elems in Hj. apply lookup_take_Some in Hj as [Hj _]. set (l' := with_mmap_states st l) in *. unfold sivfs_lib_allocation_on_commit.
  rewrite (bind_step _ _ s' (Some l') s') by by rewrite <- El'. assert (Hr : (restore_free_lists (Z.to_nat (st_size (l_restore_ptrs l'))) l' s').1 = Fault).
  { apply (restore_faults l' _ s' j slot); [|done|done]. unfold history. cbn [l' with_mmap_states l_restore_ptrs l_restore_values]. rewrite length_zip_with. lia. }
  unfold bind. destruct (restore_free_lists _ l' s') as [r s1]. cbn [fst] in Hr. by subst r.
Qed.

Definition remap_lib : lib_state := mk_lib (mk_stack 1 4 [1; 0; 0; 0]) (mk_stack 1 2 [71; 0]) (mk_stack 1 2 [0; 0]) 1 0.
Definition remap_state : ulib := mk_ulib ∅ ws_init {[1 := new_mmap_state 4096 7 8192]} (Some remap_lib).

Lemma remap_then_abort_faults_witness : maps_ok (u_mstates remap_state) (l_mmap_states remap_lib) /\
  exists s', sivfs_allocator_add_mmap map_ev 4096 7 8192 remap_state = (Ok tt, s') /\ (sivfs_lib_allocation_on_commit true s').1 = Fault.
Proof.
  split; [exact map_state_ok|]. apply (remap_then_abort_faults map_ev 4096 7 8192 remap_state remap_lib 1 71);
    [done|exact map_state_ok|by vm_compute|done|done|by vm_compute|split; [split; cbn; unfold stack_limit; lia|split; cbn; unfold stack_limit; lia|done|left]|done|left|by vm_compute].
Defined.

(** ** An allocation that fails half-way *)

(** The process has no memory to grow its write set. *)
Definition poor_ev : lib_env := mk_lenv false true true 2 (fun _ req => if req <=? 16392 then Some (mk_blk 4096 16392 4096 16392) else None) (fun _ => true).

(** The header of the new block is in memory before its write set entry is
    refused: sivfs_malloc_ws returns NULL, and the word at 4096 has changed
    without being in the write set. *)
Theorem malloc_without_memory :
  let s := demo_state (demo_words 4096 2049) 16392 in
  let o := sivfs_malloc_ws poor_ev 4096 7 10 s in
  o.1 = Ok 0 /\ u_mem s !! 4096 = Some 0 /\ u_mem o.2 !! 4096 = Some 16392 /\ (ws_contents (u_ws o.2)).2 = [].
Proof. vm_compute. done. Qed.
