(* ===== verification/KernelBlocks.v ===== *)
(** Where the process's allocator meets the kernel's: the ioctl
    SIVFS_ALLOC_BLOCK (kern/module.c) keeps what the library relies on when it
    asks for a block (lib/sivfs_allocator.h, [kernel_ok] in UserCalls.v). *)
From S2P Require Import Prelude Types RadixTree Stack Writeset Alloc AllocLayout AllocInv AllocBlock AllocFile AllocAlign Workingset Update Ioctl UserBins UserAlloc UserHeap UserSlab UserMalloc UserCalls.

(** The ioctl as the library calls it, and the answer it reads. *)
Definition ask (zone block_alloc : Z) (a : sivfs_allocator_args) : sivfs_allocator_args :=
  mk_aargs (aa_mmap_start a) (aa_mmap_size a) (aa_alloc_ret a) (aa_alloc_size a) zone block_alloc.
Definition answer (a : sivfs_allocator_args) : block_ret := mk_blk (aa_mmap_start a) (aa_mmap_size a) (aa_alloc_ret a) (aa_alloc_size a).
Definition kernel_alloc_block (io : block_io) (k : kfiles) (zone block_alloc : Z) : option block_ret :=
  match sivfs_ioctl_alloc_block io (set_args (ask zone block_alloc (kf_args k)) k) with
  | (Ok _, k') => Some (answer (kf_args k'))
  | _ => None
  end.

(** The mapping [v] is memory, and each block of the heap that touches it lies
    in a chunk that is in use. *)
Record backed (v : vma) (k : kfiles) (m : gmap Z Z) (B : gmap Z ublock) : Prop := {
  ba_range : 0 < vm_start v < vm_end v /\ vm_end v < 2 ^ 62 /\ word_aligned (vm_start v);
  ba_mapped : forall a, vm_start v <= a < vm_end v -> word_aligned a -> is_Some (m !! a);
  ba_blocks : forall b ub, B !! b = Some ub -> b + bk_size ub <= vm_start v \/ vm_end v <= b \/
    exists ai c kc, kf_alloc_info k !! vm_ino v = Some ai /\ a_chunks (kf_alloc k) !! c = Some kc /\ k_ainfo kc = ai /\ busy kc = true /\
      b = vm_start v + k_start kc /\ bk_size ub <= k_size kc
}.

Section served.
Context (io : block_io) (k : kfiles) (v : vma) (m : gmap Z Z) (B : gmap Z ublock).
Context (Hk : kfiles_ok k) (Hio : io_ok io k) (Hb : backed v k m B).

(** The chunks of a file that has an allocator are those it had. *)
Lemma opened_chunks r k1 ai c kc : opened io k v r k1 -> kf_alloc_info k !! vm_ino v = Some ai -> a_chunks (kf_alloc k) !! c = Some kc -> k_ainfo kc = ai ->
  kf_alloc k1 = kf_alloc k /\ kf_alloc_info k1 !! vm_ino v = Some ai /\ forall a, r = Ok a -> a = ai.
Proof.
  intros Ho Hf Hc Ha. destruct (ai_owner _ (ko_inv _ Hk) c kc Hc) as [i Hi]. rewrite Ha in Hi. destruct (ai_files _ (ko_inv _ Hk) ai i Hi) as [H0 _].
  inversion Ho as [a Ha0 Hm|a w Hf0|]; subst; [|congruence|done]. destruct Hm as [Hm|[Hm _]]; [|congruence]. assert (a = k_ainfo kc) as -> by congruence.
  cbn. split; [done|]. split; [apply lookup_insert_eq|by intros a [= <-]].
Qed.

Lemma backed_opened r k1 : opened io k v r k1 -> backed v k1 m B.
Proof.
  intros Ho. split; [apply Hb|apply Hb|]. intros b ub Hbu. destruct (ba_blocks _ _ _ _ Hb b ub Hbu) as [?|[?|(ai & c & kc & Hf & Hc & Ha & Hrest)]]; [by left|by right; left|].
  right; right. destruct (opened_chunks _ _ ai c kc Ho Hf Hc Ha) as (Es & Ef & _). exists ai, c, kc. by rewrite Es.
Qed.

(** The block that the kernel hands out. *)
Section block.
Context (k1 : kfiles) (ai t n off n' : Z) (x : tstate) (s : astate) (args : sivfs_allocator_args).
Context (Ho : opened io k v (Ok ai) k1) (Hal : allocated (bo_block io) (kf_alloc k1) ai t n x (Ok (off, n')) s).
Context (Hs : kfiles_ok (mk_kf s (kf_alloc_info k1) args)) (Hn : PAGE_SIZE <= n <= MAX_BLOCK_ALLOC_SIZE).

(** The chunk, which was free. *)
Lemma block_chunk : exists c kc, a_chunks s !! c = Some kc /\ k_ainfo kc = ai /\ busy kc = true /\ k_start kc = off /\ k_size kc = n' /\
  n <= n' <= n + PAGE_SIZE /\ n' <> SIZE_MINUS_ONE /\
  (forall k0, a_chunks (kf_alloc k1) !! c = Some k0 -> busy k0 = false) /\
  (forall c' k', c' <> c -> a_chunks (kf_alloc k1) !! c' = Some k' -> a_chunks s !! c' = Some k').
Proof.
  inversion Hal as [s1 c kc m' Hsel Hm Hsz Hc Hold _ _|]; subst. exists c, (mark_allocated (with_size n' kc)).
  assert (Hck : a_chunks (kf_alloc k1) !! c = Some kc /\ k_ainfo kc = ai /\ busy kc = false /\ (k_size kc = SIZE_MINUS_ONE \/ n <= k_size kc /\ k_size kc <> SIZE_MINUS_ONE)).
  { destruct Hsel as [(? & ? & ? & ? & ? & _)|(? & ? & ? & ? & _)]; split_and!; try done; [by right|by left]. }
  destruct Hck as (Hck & Ha & Hb0 & Hz).
  assert (Hmax : MAX_BLOCK_ALLOC_SIZE + PAGE_SIZE < SIZE_MINUS_ONE) by reflexivity.
  split; [done|]. split; [done|]. split; [apply busy_set_allocated|]. split; [done|]. split; [done|]. split; [done|]. split; [lia|]. split; [|done].
  intros k0 Hk0. congruence.
Qed.

(** Its place, in words, and away from the blocks that touch the mapping. *)
Lemma block_place : let b := vm_start v + off in 0 <= off < FILE_LIMIT /\ n <= n' <= n + PAGE_SIZE /\
  b mod SIZEOF_WORD = 0 /\ n' mod SIZEOF_WORD = 0 /\
  forall b0 ub, B !! b0 = Some ub -> b0 + bk_size ub <= vm_start v \/ vm_end v <= b0 \/ b0 + bk_size ub <= b \/ b + n' <= b0.
Proof.
  destruct block_chunk as (c & kc & Hc & Ha & Hbusy & <- & <- & Hm & Hnm & Hfree & Hold). destruct (ba_range _ _ _ _ Hb) as (Hr1 & Hr2 & Hr3).
  pose proof (chunk_start_range _ _ _ (ko_inv _ Hs) Hc) as Hrange.
  pose proof (ko_aligned _ Hs c kc Hc) as Hal1. pose proof (block_size_words _ _ _ (ko_inv _ Hs) (ko_aligned _ Hs) Hc Hnm) as Hal2. unfold word_aligned in *.
  cbv zeta. split; [lia|]. split; [done|]. split; [by rewrite Z.add_mod, Hr3, Hal1|]. split; [done|].
  intros b ub Hbu. destruct (ba_blocks _ _ _ _ Hb b ub Hbu) as [?|[?|(ai' & c' & kc' & Hf & Hc' & Ha' & Hb' & -> & Hsz)]]; [by left|by right; left|right; right].
  destruct (opened_chunks _ _ ai' c' kc' Ho Hf Hc' Ha') as (Es & _ & Hai). rewrite <- Es in Hc'.
  assert (Hne : c' <> c) by (intros ->; rewrite (Hfree _ Hc') in Hb'; done). pose proof (Hold _ _ Hne Hc') as Hs'.
  assert (Ei : k_ainfo kc' = k_ainfo kc) by (rewrite Ha'; symmetry; rewrite Ha; by apply Hai).
  destruct (ai_owner _ (ko_inv _ Hs) c kc Hc) as [i Hi]. destruct (ai_files _ (ko_inv _ Hs) _ i Hi) as (_ & l & w & Hlo).
  pose proof (layout_disjoint _ _ _ _ _ c' c kc' kc Hlo Hne Hs' Hc Ei eq_refl) as Hd. pose proof (chunk_bounds _ _ _ (ko_inv _ Hs) Hs').
  destruct (Z.le_gt_cases (k_start kc + k_size kc) (k_start kc')) as [?|H1]; [right; lia|left].
  destruct (Z.le_gt_cases (k_start kc' + k_size kc') (k_start kc)) as [?|H2]; [lia|]. destruct Hd.
  unfold overlap, PAGE_SIZE in *. exists (Z.max (k_start kc') (k_start kc)). lia.
Qed.

(** Inside the mapping it is what the library expects. *)
Lemma block_fresh : off + n' <= vm_end v - vm_start v -> fresh_block m B (vm_start v + off) n'.
Proof.
  intros Hin. destruct block_place as (H0 & Hm & Hw & Hwn & Haway). destruct (ba_range _ _ _ _ Hb) as (Hr1 & Hr2 & Hr3).
  assert (Hbnd : MAX_BLOCK_ALLOC_SIZE + PAGE_SIZE < 2 ^ 46) by reflexivity. unfold PAGE_SIZE in *. split.
  - split; [lia|done].
  - split; [lia|done].
  - intros a Hab Hm8. apply (ba_mapped _ _ _ _ Hb); [lia|done].
  - intros b ub Hbu. destruct (Haway b ub Hbu) as [?|[?|[?|?]]]; lia.
Qed.

Lemma block_backed ub : bk_size ub = n' -> backed v (mk_kf s (kf_alloc_info k1) args) m (<[vm_start v + off := ub]> B) /\ backed v (mk_kf s (kf_alloc_info k1) args) m B.
Proof.
  intros Hub. destruct block_chunk as (c & kc & Hc & Ha & Hbusy & <- & Hsz & _ & _ & Hfree & Hold).
  assert (Hrest : backed v (mk_kf s (kf_alloc_info k1) args) m B).
  { split; [apply Hb|apply Hb|]. intros b ub' Hbu. destruct (ba_blocks _ _ _ _ Hb b ub' Hbu) as [?|[?|(ai' & c' & kc' & Hf & Hc' & Ha' & Hb' & Erest)]]; [by left|by right; left|].
    right; right. destruct (opened_chunks _ _ ai' c' kc' Ho Hf Hc' Ha') as (Es & Ef & _). rewrite <- Es in Hc'. exists ai', c', kc'. cbn [kf_alloc kf_alloc_info].
    split; [done|]. split; [|done]. apply Hold; [|done]. intros ->. by rewrite (Hfree _ Hc') in Hb'. }
  split; [|done]. split; [apply Hb|apply Hb|]. intros b ub'. rewrite lookup_insert. case_decide; [|by apply (ba_blocks _ _ _ _ Hrest)]. intros [= <-]. right; right. subst b.
  exists ai, c, kc. cbn [kf_alloc kf_alloc_info]. split; [by apply (opened_named io k)|]. split_and!; [done..|lia].
Qed.
End block.
End served.

Section request.
Context (io : block_io) (k : kfiles) (t : Z) (x : tstate) (v : vma) (f : Z) (m : gmap Z Z) (B : gmap Z ublock) (req : Z).
Context (Hk : kfiles_ok k) (Hio : io_ok io k) (Ht : bo_state io = Some t) (Hcp : bo_copy_in io = true) (Hx : a_threads (kf_alloc k) !! t = Some x).
Context (Hv : sivfs_find_vma (bo_find_vma io) (aa_zone (kf_args k)) 1 true = Ok v) (Ha : aa_block_alloc (kf_args k) = req) (Hf : kf_alloc_info k !! vm_ino v = Some f).
Context (Hb : backed v k m B) (Hreq : PAGE_SIZE <= req) (Hroom : forall a, may_serve io k v a -> room (kf_alloc k) a req).

(** The block [b] lies in the mapping. *)
Definition inside (b : block_ret) : Prop := br_start b + br_size b <= br_mmap_start b + br_mmap_size b.

(** What the process reads, and the chunks behind its heap. *)
Definition kernel_served (r : res unit) (k' : kfiles) : Prop :=
  match r with
  | Ok _ => let b := answer (kf_args k') in
      br_mmap_start b = vm_start v /\ br_mmap_size b = vm_end v - vm_start v /\ vm_start v <= br_start b /\
      req <= br_size b <= req + PAGE_SIZE /\ br_start b mod SIZEOF_WORD = 0 /\ br_size b mod SIZEOF_WORD = 0 /\
      (forall b0 ub, B !! b0 = Some ub -> b0 + bk_size ub <= vm_start v \/ vm_end v <= b0 \/
         b0 + bk_size ub <= br_start b \/ br_start b + br_size b <= b0) /\
      (inside b <-> good_block m B req b) /\
      forall ub, bk_size ub = br_size b -> backed v k' m (<[br_start b := ub]> B)
  | Err _ => backed v k' m B
  | _ => False
  end.

Lemma served_good k1 ai off n' s args : kfiles_ok (mk_kf s (kf_alloc_info k1) args) -> req <= MAX_BLOCK_ALLOC_SIZE -> opened io k v (Ok ai) k1 ->
  allocated (bo_block io) (kf_alloc k1) ai t req x (Ok (off, n')) s ->
  usub (vm_end v) (vm_start v) = vm_end v - vm_start v /\ uadd (vm_start v) off = vm_start v + off /\
  (let b := mk_blk (vm_start v) (usub (vm_end v) (vm_start v)) (uadd (vm_start v) off) n' in inside b <-> good_block m B req b).
Proof.
  intros Hs Hmax Ho Hal. destruct (ba_range _ _ _ _ Hb) as (Hr1 & Hr2 & _).
  destruct (block_place io k v m B Hk Hio Hb k1 ai t req off n' x s args Ho Hal Hs (conj Hreq Hmax)) as (H0 & Hm & _).
  assert (Eb : uadd (vm_start v) off = vm_start v + off) by (apply uadd_small; unfold FILE_LIMIT in *; u64_lia).
  assert (Es : usub (vm_end v) (vm_start v) = vm_end v - vm_start v) by (apply usub_small; u64_lia).
  split; [done|]. split; [done|]. cbv zeta. rewrite Eb, Es. unfold inside. cbn [br_start br_size br_mmap_start br_mmap_size]. split.
  - intros Hin. split; cbn [br_start br_size br_mmap_start br_mmap_size]; [|lia|unfold PAGE_SIZE in *; lia].
    apply (block_fresh io k v m B Hk Hio Hb k1 ai t req off n' x s args Ho Hal Hs (conj Hreq Hmax)). lia.
  - intros [_ Hin _]. cbn [br_start br_size br_mmap_start br_mmap_size] in Hin. lia.
Qed.

Lemma serve_ok : exists r k', sivfs_ioctl_alloc_block io k = (r, k') /\ kfiles_ok k' /\ kernel_served r k'.
Proof.
  pose proof (alloc_ioctl_ok io k t x v f Hk Hio Ht Hcp Hx Hv Hf) as Hioctl. cbv zeta in Hioctl. rewrite Ha in Hioctl.
  destruct (Hioctl Hreq Hroom) as (r & k' & E & Hk' & Hs). exists r, k'. split; [done|]. split; [done|].
  inversion Hs as [k1 ai off n' s Hk1 Hmax Ho Hal out Er Ek|k1 ai s Ho Hc _ Er Ek|Ho Er Ek]; subst r k'; cbn [kernel_served].
  - destruct (served_good k1 ai off n' s _ Hk' Hmax Ho Hal) as (Es & Eb & Hg).
    destruct (block_place io k v m B Hk Hio Hb k1 ai t _ off n' x s _ Ho Hal Hk' (conj Hreq Hmax)) as (H0 & Hm & Hw & Hwn & Haway).
    pose proof (fun ub => block_backed io k v m B Hk Hio Hb k1 ai t _ off n' x s (default out (bo_torn io)) Ho Hal Hk' (conj Hreq Hmax) ub) as Hbk.
    destruct (bo_torn io) as [torn|]; cbn [default kernel_served].
    + exact (proj2 (Hbk (mk_ublock n' 0 None) eq_refl)).
    + unfold answer, out. cbn [kf_args aa_mmap_start aa_mmap_size aa_alloc_ret aa_alloc_size br_size br_start br_mmap_start br_mmap_size].
      rewrite <- Eb in Hw, Haway, Hbk. split; [done|]. split; [exact Es|]. split; [lia|]. split; [exact Hm|]. split; [exact Hw|]. split; [exact Hwn|].
      split; [exact Haway|]. split; [exact Hg|]. intros ub Hub. exact (proj1 (Hbk ub Hub)).
  - pose proof (backed_opened io k v m B Hk Hio Hb _ _ Ho) as H1. split; [apply H1|apply H1|]. cbn [kf_alloc kf_alloc_info]. rewrite Hc. apply H1.
  - exact Hb.
Qed.
End request.

(** C27. What the kernel provides of what the library assumes. A block that
    SIVFS_ALLOC_BLOCK hands out for a mapping is at least as large as asked for
    and at most a page larger, starts in or above the mapping at a whole word,
    consists of whole words, overlaps no block of the heap that touches the
    mapping, and the heap with the new block is again one that the chunks in use
    cover. It is all that the library assumes ([good_block]) exactly when it ends
    inside the mapping, which the ioctl does not check. When the ioctl fails, for
    whatever reason, the heap is still covered by the chunks in use. *)
Theorem kernel_serves_library io k t x v f m B zone req : kfiles_ok k -> io_ok io k -> bo_state io = Some t -> bo_copy_in io = true ->
  a_threads (kf_alloc k) !! t = Some x -> sivfs_find_vma (bo_find_vma io) zone 1 true = Ok v -> kf_alloc_info k !! vm_ino v = Some f ->
  backed v k m B -> PAGE_SIZE <= req -> (forall a, may_serve io k v a -> room (kf_alloc k) a req) ->
  exists r k', sivfs_ioctl_alloc_block io (set_args (ask zone req (kf_args k)) k) = (r, k') /\ kfiles_ok k' /\ kernel_served v m B req r k'.
Proof.
  intros Hk [? ? ? ? ?] Ht Hcp Hx Hv Hf [? ? ?] Hreq Hroom. by apply (serve_ok io (set_args (ask zone req (kf_args k)) k) t x v f); [apply kfiles_ok_args|..].
Qed.

(** The answers of the ioctl for the mappings of a process. *)
Section answers.
Context (ev : lib_env) (io : block_io) (k : kfiles) (t : Z) (x : tstate) (size : Z) (s : ulib) (H : uheap).
Context (Hev : forall zone req, ie_alloc_block ev zone req = kernel_alloc_block io k zone req).
Context (Hk : kfiles_ok k) (Hio : io_ok io k) (Ht : bo_state io = Some t) (Hcp : bo_copy_in io = true) (Hx : a_threads (kf_alloc k) !! t = Some x).
Context (Hmaps : forall zone v, sivfs_find_vma (bo_find_vma io) zone 1 true = Ok v ->
  is_Some (kf_alloc_info k !! vm_ino v) /\ backed v k (u_mem s) (h_blocks H) /\
  forall req, request_ok size req -> (forall a, may_serve io k v a -> room (kf_alloc k) a req)).
Context (Hin : forall zone req b, request_ok size req -> kernel_alloc_block io k zone req = Some b -> inside b).

Lemma no_mapping k0 : (forall v, sivfs_find_vma (bo_find_vma io) (aa_zone (kf_args k0)) 1 true <> Ok v) -> exists r, sivfs_ioctl_alloc_block io k0 = (r, k0) /\ r <> Ok tt.
Proof.
  intros Hno. unfold sivfs_ioctl_alloc_block, block_request. rewrite Ht, Hcp. cbn [negb]. rewrite bind_assoc, (bind_step (gets kf_args) _ k0 (kf_args k0) k0 eq_refl), bind_assoc.
  unfold bind at 1, or_einval, lift. destruct (sivfs_find_vma _ _ _ _) as [v| | |]; [by destruct (Hno v)|eexists; split; [reflexivity|done]..].
Qed.

Lemma kernel_is_ok : kernel_ok ev size s H.
Proof.
  intros zone req b Hreq. rewrite Hev. intros Eb. pose proof (Hin zone req b Hreq Eb) as Hib. revert Eb.
  unfold kernel_alloc_block. set (k0 := set_args _ k).
  destruct (sivfs_find_vma (bo_find_vma io) zone 1 true) as [v| | |] eqn:Hv.
  2-4: destruct (no_mapping k0) as (r & -> & Hr); [intros v; cbn; congruence|by destruct r as [[]| | |]].
  destruct (Hmaps zone v Hv) as ([f Hf] & Hb & Hsp). pose proof Hio as [? ? ? ? ?]. pose proof Hb as [? ? ?].
  destruct (serve_ok io k0 t x v f (u_mem s) (h_blocks H) req) as (r & k' & -> & _ & Hs); try done; [by apply kfiles_ok_args|apply Hreq|by apply Hsp|].
  destruct r as [[]| | |]; [|done..]. intros [= <-]. destruct Hs as (_ & _ & _ & _ & _ & _ & _ & Hg & _). by apply Hg.
Qed.
End answers.

(** C28. sivfs_malloc_ws on top of the ioctl. For a heap in order whose blocks
    lie in chunks in use of the mapped files, the result is as [malloc_result]
    says. Of the blocks that the kernel hands out only one thing is assumed, the
    one it does not check: that they end inside the mapping ([inside]). The other
    hypotheses are that memory for the write set is there, that the write set has
    room, that the files do not reach the end of the address space, and that the
    size is below 2^45 - 8. *)
Theorem malloc_on_kernel ev io k t x zone tag size s l H n j es : (forall z req, ie_alloc_block ev z req = kernel_alloc_block io k z req) ->
  kfiles_ok k -> io_ok io k -> bo_state io = Some t -> bo_copy_in io = true -> a_threads (kf_alloc k) !! t = Some x ->
  (forall z v, sivfs_find_vma (bo_find_vma io) z 1 true = Ok v ->
     is_Some (kf_alloc_info k !! vm_ino v) /\ backed v k (u_mem s) (h_blocks H) /\
     forall req, request_ok size req -> (forall a, may_serve io k v a -> room (kf_alloc k) a req)) ->
  (forall z req b, request_ok size req -> kernel_alloc_block io k z req = Some b -> inside b) ->
  ie_mem ev = true -> lib_ok (S (S j)) s l H -> ws_has (23 + n) (u_ws s) es -> 0 <= size < 2 ^ 45 - 8 -> malloc_result ev zone tag size s l H n j es.
Proof. intros. apply malloc_ok; [done..| |done]. by apply (kernel_is_ok ev io k t x). Qed.

(** *** Examples: a mapping of ten pages of file 7, empty at first *)

Definition ten_pages : vma := mk_vma 4096 45056 0 7 65536 false false false.
Definition ten_io (c : Z) : block_io := mk_bio (Some 5) true None (fun _ => Some ten_pages) (Some 2) (rich 200) 0 (rich c).
Definition ten_ev : lib_env := mk_lenv true true true 2 (kernel_alloc_block (ten_io 101) sample_files) (fun _ => true).
Definition ten_state : ulib := demo_state (demo_words 4096 5120) 40960.

Lemma ten_io_ok : io_ok (ten_io 101) sample_files.
Proof. destruct (sample_io_ok 0). by split. Qed.

Lemma ten_mapped a : 4096 <= a < 45056 -> word_aligned a -> is_Some (demo_words 4096 5120 !! a).
Proof.
  intros Ha [i ->]%Z.mod_divide; [|done]. unfold SIZEOF_WORD in *.
  assert (E : (let m := demo_words 4096 5120 in forallb (fun i => if m !! (i * 8) then true else false) (seqZ 512 5120)) = true) by by vm_compute.
  pose proof (forall_range _ _ _ E i ltac:(lia)) as E'. cbv beta in E'. destruct (demo_words 4096 5120 !! (i * 8)); [by eexists|done].
Qed.

Lemma ten_backed : backed ten_pages sample_files (u_mem ten_state) ∅.
Proof. split; [done|exact ten_mapped|by intros b ub ?%lookup_empty_Some]. Qed.

Lemma ten_room req a : req <= 2 ^ 60 -> room (kf_alloc sample_files) a req.
Proof.
  intros Hr c kc Hc _ _. cbn [sample_files kf_alloc] in Hc. rewrite sample_file_chunks in Hc. apply lookup_singleton_Some in Hc as [_ <-].
  cbn [k_start]. unfold FILE_LIMIT. lia.
Qed.

(** The file is empty, so a block starts at its start. *)
Lemma ten_inside z req b : request_ok 10 req -> kernel_alloc_block (ten_io 101) sample_files z req = Some b -> inside b.
Proof.
  intros [Hr _]. unfold kernel_alloc_block. set (k0 := set_args (ask z req (kf_args sample_files)) sample_files).
  destruct (sivfs_find_vma (bo_find_vma (ten_io 101)) z 1 true) as [v| | |] eqn:Hv.
  2-4: destruct (no_mapping (ten_io 101) 5 eq_refl eq_refl k0) as (r & -> & Hne); [intros v; cbn in *; congruence|by destruct r as [[]| | |]].
  assert (v = ten_pages) as ->. { unfold sivfs_find_vma in Hv. cbn in Hv. repeat case_match; congruence. }
  destruct (alloc_ioctl_ok (ten_io 101) k0 5 (mk_tstate 4 [] [] false) ten_pages 1 (kfiles_ok_args _ _ sample_files_ok))
    as (r & k' & -> & _ & Hs); [destruct ten_io_ok; by split|reflexivity..|exact Hv|reflexivity|cbn; lia|intros a _; apply (ten_room req); cbn in *; lia|].
  inversion Hs as [k1 ai off n' s _ _ Ho Hal out Er Ek|k1 ai s _ _ _ Er|_ Er]; subst r; [|done..]. cbn [bo_torn ten_io default]. intros [= <-].
  unfold inside, answer. cbn [kf_args br_start br_size br_mmap_start br_mmap_size out aa_mmap_start aa_mmap_size aa_alloc_ret aa_alloc_size].
  assert (Hc : forall c kc, a_chunks (kf_alloc k1) !! c = Some kc -> k_start kc = 0).
  { inversion Ho as [a _ _|a w Hf|]; subst; [|discriminate Hf]. intros c kc Hc. change (a_chunks sample_file !! c = Some kc) in Hc. rewrite sample_file_chunks in Hc.
    by apply lookup_singleton_Some in Hc as [_ <-]. }
  assert (off = 0 /\ n' <= req + PAGE_SIZE) as [-> Hn].
  { inversion Hal as [s1 c kc m' [Hsel|(Hsel & _)] Hm|]; subst; (split; [|cbn in Hm; lia]); apply (Hc c); [apply Hsel|done]. }
  change (uadd (vm_start ten_pages) 0) with 4096. change (usub (vm_end ten_pages) (vm_start ten_pages)) with 40960. cbn [vm_start ten_pages].
  unfold PAGE_SIZE in *. lia.
Qed.

Lemma kernel_serves_library_witness : exists r k', sivfs_ioctl_alloc_block (ten_io 101) (set_args (ask 4096 16392 (kf_args sample_files)) sample_files) = (r, k') /\
  kfiles_ok k' /\ kernel_served ten_pages (u_mem ten_state) ∅ 16392 r k'.
Proof.
  apply (kernel_serves_library (ten_io 101) sample_files 5 (mk_tstate 4 [] [] false) ten_pages 1 (u_mem ten_state) ∅ 4096 16392);
    [exact sample_files_ok|exact ten_io_ok|reflexivity|reflexivity|reflexivity|reflexivity|reflexivity|exact ten_backed|by vm_compute|intros a _; apply ten_room; lia].
Defined.

Lemma malloc_on_kernel_witness : (sivfs_malloc_ws ten_ev 4096 7 10 ten_state).1 = Ok 4136 /\
  malloc_result ten_ev 4096 7 10 ten_state demo_lib (mk_uheap ∅ ∅) 0 0 [].
Proof.
  split; [by vm_compute|]. apply (malloc_on_kernel ten_ev (ten_io 101) sample_files 5 (mk_tstate 4 [] [] false));
    [reflexivity|exact sample_files_ok|exact ten_io_ok|reflexivity|reflexivity|reflexivity| |exact ten_inside|reflexivity|apply empty_ok|apply (demo_ws 23); lia|lia].
  intros z v Hz. assert (v = ten_pages) as ->.
  { unfold sivfs_find_vma in Hz. cbn in Hz. repeat case_match; congruence. }
  split; [by eexists|]. split; [exact ten_backed|]. intros req [Hr _] a _. apply ten_room. lia.
Defined.
