(* ===== verification/Checkout.v ===== *)
(** Checking out the latest checkpoint while it is being replaced and collected
    (the double read of my_sivfs_commit_update,
    kern/sivfs_commit_update_checkpoints.c; _sivfs_checkpoints_insert_finish,
    kern/sivfs_checkpoints.c; sivfs_get_checked_out_versions,
    kern/sivfs_state.c; the reads and the frees of sivfs_gc_checkpoints;
    sivfs_ioctl_txn_pause, kern/module.c).

    A transition system with one step per access to the shared words
    latest_checkpoint.checkpoint, latest_checkpoint.ts,
    latest_checkpoint_published and the two timestamps of every task, so that
    every interleaving of tasks, the publishing thread and the collector is
    covered. What the collector may free is decided by [reassign_to] of GC.v. *)
From S2P Require Import Prelude Types Stack RadixTree Log PageTree MakeCheckpoint Checkpoints GC Workingset Update.

(** [struct sivfs_latest_checkpoint]. *)
Record sivfs_latest_checkpoint : Type := mk_latest {
  lc_checkpoint : Z;
  lc_ts : Z
}.

(** Where the publishing thread is: before each of the four stores. *)
Inductive pub_pc : Type :=
  | PubIdle
  | PubStart (checkpoint cp_ts : Z)
  | PubHidden (checkpoint cp_ts : Z)
  | PubPointed (cp_ts : Z)
  | PubShown (cp_ts : Z).

(** One store of _sivfs_checkpoints_insert_finish. *)
Definition insert_finish_step (p : pub_pc) (latest : sivfs_latest_checkpoint) (published : Z) : pub_pc * sivfs_latest_checkpoint * Z :=
  match p with
  | PubIdle => (PubIdle, latest, published)
  | PubStart checkpoint cp_ts => (PubHidden checkpoint cp_ts, mk_latest (lc_checkpoint latest) SIVFS_INVALID_TS, published)
  | PubHidden checkpoint cp_ts => (PubPointed cp_ts, mk_latest checkpoint (lc_ts latest), published)
  | PubPointed cp_ts => (PubShown cp_ts, mk_latest (lc_checkpoint latest) cp_ts, published)
  | PubShown cp_ts => (PubIdle, latest, cp_ts)
  end.

(** Where a task is; [t]: its local checkpoint_ts. *)
Inductive reader_pc : Type :=
  | RIdle
  | RPointer (t : Z)
  | RStore (t : Z)
  | RValidate (t : Z)
  | RRetry
  | RChecked (t : Z)
  | RPausePrior
  | RPausePointer.

(** [state->checkpoint], [state->checkpoint_ts], [state->prior_checkpoint_ts]. *)
Record reader : Type := mk_reader {
  r_checkpoint : Z;
  r_checkpoint_ts : Z;
  r_prior_checkpoint_ts : Z;
  r_pc : reader_pc
}.

Definition new_reader : reader := mk_reader 0 SIVFS_INVALID_TS SIVFS_INVALID_TS RIdle.
Definition at_pc (p : reader_pc) (r : reader) : reader := mk_reader (r_checkpoint r) (r_checkpoint_ts r) (r_prior_checkpoint_ts r) p.

(** One access of my_sivfs_commit_update; [None]: the task is elsewhere. *)
Definition checkout_step (latest : sivfs_latest_checkpoint) (r : reader) : option reader :=
  match r_pc r with
  | RIdle =>
    let checkpoint_ts := lc_ts latest in
    Some (at_pc (if r_checkpoint_ts r =? checkpoint_ts then RChecked checkpoint_ts else RPointer checkpoint_ts) r)
  | RPointer t => Some (mk_reader (lc_checkpoint latest) (r_checkpoint_ts r) (r_prior_checkpoint_ts r) (RStore t))
  | RStore t => Some (mk_reader (r_checkpoint r) t (r_prior_checkpoint_ts r) (RValidate t))
  | RValidate t =>
    if (lc_ts latest =? t) && negb (t =? SIVFS_INVALID_TS) then
      Some (at_pc (if r_checkpoint r =? 0 then RIdle else RChecked t) r)
    else Some (at_pc RRetry r)
  | RRetry => Some (at_pc (RPointer (lc_ts latest)) r)
  | RChecked t => Some (mk_reader (r_checkpoint r) (r_checkpoint_ts r) t RIdle)
  | RPausePrior | RPausePointer => None
  end.

(** One store of sivfs_ioctl_txn_pause. *)
Definition txn_pause_step (r : reader) : option reader :=
  match r_pc r with
  | RIdle => Some (mk_reader (r_checkpoint r) SIVFS_INVALID_TS (r_prior_checkpoint_ts r) RPausePrior)
  | RPausePrior => Some (mk_reader (r_checkpoint r) (r_checkpoint_ts r) SIVFS_INVALID_TS RPausePointer)
  | RPausePointer => Some (mk_reader 0 (r_checkpoint_ts r) (r_prior_checkpoint_ts r) RIdle)
  | _ => None
  end.

(** ** The collector *)

Inductive version_slot : Type := SlotCheckpoint | SlotPrior.

Inductive gc_pc : Type :=
  | GIdle
  | GScan (latest_snapshot : Z) (versions : list Z) (rest : list (Z * version_slot))
  | GFree (latest_snapshot : Z) (versions : list Z).

Definition read_version_slot (f : version_slot) (r : reader) : Z :=
  match f with SlotCheckpoint => r_checkpoint_ts r | SlotPrior => r_prior_checkpoint_ts r end.

(** The reads of sivfs_get_checked_out_versions, in order. *)
Definition scan_order (readers : list (Z * reader)) : list (Z * version_slot) :=
  readers ≫= fun ir => [(ir.1, SlotCheckpoint); (ir.1, SlotPrior)].

Definition scan_step (readers : gmap Z reader) (latest_snapshot : Z) (versions : list Z) (rest : list (Z * version_slot)) : gc_pc :=
  match rest with
  | [] => GFree latest_snapshot versions
  | (i, f) :: rest =>
    match readers !! i with
    | Some r => GScan latest_snapshot (versions ++ [read_version_slot f r]) rest
    | None => GScan latest_snapshot versions rest
    end
  end.

(** ** The system *)

Record cstate : Type := mk_cst {
  x_latest : sivfs_latest_checkpoint;
  x_published : Z;
  x_pub : pub_pc;
  x_inodes : gmap Z cp_inode;
  x_readers : gmap Z reader;
  x_gc : gc_pc
}.

Definition set_readers (m : gmap Z reader) (s : cstate) : cstate := mk_cst (x_latest s) (x_published s) (x_pub s) (x_inodes s) m (x_gc s).
Definition set_gc (g : gc_pc) (s : cstate) : cstate := mk_cst (x_latest s) (x_published s) (x_pub s) (x_inodes s) (x_readers s) g.
Definition free_inode (j : Z) (s : cstate) : cstate := mk_cst (x_latest s) (x_published s) (x_pub s) (delete j (x_inodes s)) (x_readers s) (x_gc s).

(** The new checkpoint is built, and the previous one is marked obsolete. *)
Definition begin_publish (ino root ts : Z) (s : cstate) : cstate :=
  mk_cst (x_latest s) (x_published s) (PubStart ino ts)
    (<[ino := mk_inode root ts SIVFS_INVALID_TS]>
       (alter (fun i => mk_inode (ci_root i) (ci_ts i) ts) (lc_checkpoint (x_latest s)) (x_inodes s)))
    (x_readers s) (x_gc s).

Definition publish (s : cstate) : cstate :=
  let '(p, latest, published) := insert_finish_step (x_pub s) (x_latest s) (x_published s) in
  mk_cst latest published p (x_inodes s) (x_readers s) (x_gc s).

(** threads_lock is held during the scan. *)
Definition unlocked (g : gc_pc) : bool := match g with GScan _ _ _ => false | _ => true end.

Inductive cstep : cstate -> cstate -> Prop :=
  | c_new s i : x_readers s !! i = None -> unlocked (x_gc s) = true -> cstep s (set_readers (<[i := new_reader]> (x_readers s)) s)
  | c_exit s i r : x_readers s !! i = Some r -> r_pc r = RIdle -> unlocked (x_gc s) = true -> cstep s (set_readers (delete i (x_readers s)) s)
  | c_checkout s i r r' : x_readers s !! i = Some r -> checkout_step (x_latest s) r = Some r' -> cstep s (set_readers (<[i := r']> (x_readers s)) s)
  | c_pause s i r r' : x_readers s !! i = Some r -> txn_pause_step r = Some r' -> cstep s (set_readers (<[i := r']> (x_readers s)) s)
  | c_make s ino root ts : x_pub s = PubIdle -> ino <> 0 -> x_inodes s !! ino = None -> x_published s < ts < SIVFS_INVALID_TS ->
      cstep s (begin_publish ino root ts s)
  | c_publish s : x_pub s <> PubIdle -> cstep s (publish s)
  | c_gc_start s : x_gc s = GIdle -> cstep s (set_gc (GScan (x_published s) [] (scan_order (map_to_list (x_readers s)))) s)
  | c_gc_scan s m vs rest : x_gc s = GScan m vs rest -> cstep s (set_gc (scan_step (x_readers s) m vs rest) s)
  | c_gc_free s m vs j i : x_gc s = GFree m vs -> x_inodes s !! j = Some i ->
      reassign_to (ci_ts i) (ci_obsoleted_ts i) m vs = SIVFS_INVALID_TS -> cstep s (free_inode j s)
  | c_gc_end s m vs : x_gc s = GFree m vs -> cstep s (set_gc GIdle s).

(** One checkpoint, published at time 0. *)
Definition cinit (s : cstate) : Prop := exists ino root, ino <> 0 /\
  s = mk_cst (mk_latest ino 0) 0 PubIdle {[ino := mk_inode root 0 SIVFS_INVALID_TS]} ∅ GIdle.

(** ** The invariant *)

(** Every timestamp that a task may have read so far lies below. *)
Definition next_bound (s : cstate) : Z :=
  match x_pub s with PubStart _ t | PubHidden _ t | PubPointed t => t | PubIdle | PubShown _ => lc_ts (x_latest s) + 1 end.

(** The local timestamp of a task in the loop. *)
Definition local_ts (p : reader_pc) : option Z :=
  match p with RPointer t | RStore t | RValidate t => Some t | _ => None end.

(** The task relies on the checkpoint of its checkpoint_ts. *)
Definition relies (p : reader_pc) : bool := match p with RIdle | RChecked _ => true | _ => false end.

Definition paused (p : reader_pc) : bool := match p with RPausePrior | RPausePointer => true | _ => false end.

Definition live (s : cstate) (j ts : Z) : Prop := exists i, x_inodes s !! j = Some i /\ ci_ts i = ts.

(** A version that the collector must respect has been read, will be read, or
    is not older than the snapshot the collector started from. *)
Definition covered (g : gc_pc) (i : Z) (f : version_slot) (v : Z) : Prop :=
  match g with
  | GIdle => True
  | GScan m vs rest => m <= v \/ v ∈ vs \/ (i, f) ∈ rest
  | GFree m vs => m <= v \/ v ∈ vs
  end.

(** A task's two slots are read in order. *)
Definition in_order (rest : list (Z * version_slot)) : Prop :=
  (forall i, (i, SlotCheckpoint) ∈ rest -> (i, SlotPrior) ∈ rest) /\
  (forall i l1 l2, rest = l1 ++ (i, SlotPrior) :: l2 -> (i, SlotCheckpoint) ∉ l2).

Record reader_ok (s : cstate) (i : Z) (r : reader) : Prop := {
  ro_checkpoint : relies (r_pc r) = true -> r_checkpoint_ts r <> SIVFS_INVALID_TS ->
    live s (r_checkpoint r) (r_checkpoint_ts r) /\ covered (x_gc s) i SlotCheckpoint (r_checkpoint_ts r);
  ro_prior : r_prior_checkpoint_ts r <> SIVFS_INVALID_TS ->
    (exists j, live s j (r_prior_checkpoint_ts r)) /\ covered (x_gc s) i SlotPrior (r_prior_checkpoint_ts r);
  ro_checked : forall t, r_pc r = RChecked t -> r_checkpoint_ts r = t;
  ro_stored : forall t, r_pc r = RValidate t -> r_checkpoint_ts r = t;
  ro_paused : paused (r_pc r) = true -> r_checkpoint_ts r = SIVFS_INVALID_TS;
  ro_bound : forall t, local_ts (r_pc r) = Some t -> t <> SIVFS_INVALID_TS -> t < next_bound s;
  ro_pointer : forall t, r_pc r = RStore t \/ r_pc r = RValidate t -> t <> SIVFS_INVALID_TS -> lc_ts (x_latest s) = t ->
    r_checkpoint r = lc_checkpoint (x_latest s)
}.

(** The checkpoint being published is complete and not obsolete. *)
Definition unborn (s : cstate) (j t : Z) : Prop :=
  j <> 0 /\ x_published s < t < SIVFS_INVALID_TS /\ exists i, x_inodes s !! j = Some i /\ ci_ts i = t /\ ci_obsoleted_ts i = SIVFS_INVALID_TS.

Definition pub_ok (s : cstate) : Prop :=
  match x_pub s with
  | PubIdle => lc_ts (x_latest s) = x_published s
  | PubStart j t => lc_ts (x_latest s) = x_published s /\ unborn s j t /\ j <> lc_checkpoint (x_latest s)
  | PubHidden j t => lc_ts (x_latest s) = SIVFS_INVALID_TS /\ unborn s j t
  | PubPointed t => lc_ts (x_latest s) = SIVFS_INVALID_TS /\ unborn s (lc_checkpoint (x_latest s)) t
  | PubShown t => lc_ts (x_latest s) = t /\ unborn s (lc_checkpoint (x_latest s)) t
  end.

Record checkout_inv (s : cstate) : Prop := {
  xi_published : 0 <= x_published s < SIVFS_INVALID_TS;
  xi_inodes : forall j i, x_inodes s !! j = Some i -> ci_ts i < ci_obsoleted_ts i;
  xi_pub : pub_ok s;
  xi_latest : lc_ts (x_latest s) <> SIVFS_INVALID_TS -> lc_checkpoint (x_latest s) <> 0 /\ x_published s <= lc_ts (x_latest s) /\
    exists i, x_inodes s !! lc_checkpoint (x_latest s) = Some i /\ ci_ts i = lc_ts (x_latest s) /\ x_published s < ci_obsoleted_ts i;
  xi_readers : forall i r, x_readers s !! i = Some r -> reader_ok s i r;
  xi_gc : match x_gc s with
          | GIdle => True
          | GScan m _ rest => m <= x_published s /\ in_order rest
          | GFree m _ => m <= x_published s
          end
}.

(** ** Steps of the others *)

Lemma reader_ok_frame s s' i r : reader_ok s i r -> x_readers s !! i = Some r ->
  (forall j ts f, live s j ts -> covered (x_gc s) i f ts -> live s' j ts) ->
  (forall f, covered (x_gc s) i f (read_version_slot f r) -> covered (x_gc s') i f (read_version_slot f r)) ->
  next_bound s <= next_bound s' ->
  (forall t, t <> SIVFS_INVALID_TS -> t < next_bound s -> lc_ts (x_latest s') = t ->
     lc_ts (x_latest s) = t /\ lc_checkpoint (x_latest s) = lc_checkpoint (x_latest s')) ->
  reader_ok s' i r.
Proof.
  intros [H1 H2 H3 H4 H0 H5 H6] _ Hlive Hcov Hb Hp. split; try done.
  - intros Hr Hne. destruct (H1 Hr Hne) as [Hl Hc]. split; [by eapply Hlive|by apply (Hcov SlotCheckpoint)].
  - intros Hne. destruct (H2 Hne) as [[j Hl] Hc]. split; [exists j; by eapply Hlive|by apply (Hcov SlotPrior)].
  - intros t Ht Hne. specialize (H5 t Ht Hne). lia.
  - intros t Ht Hne E. assert (Hl : local_ts (r_pc r) = Some t) by by destruct Ht as [-> | ->].
    destruct (Hp t Hne (H5 t Hl Hne) E) as [E1 E2]. rewrite <- E2. by eapply H6.
Qed.

Lemma publish_keeps s : checkout_inv s -> x_pub s <> PubIdle -> checkout_inv (publish s).
Proof.
  intros [Hpb Hin Hpub Hlat Hrd Hgc] Hne. unfold pub_ok in Hpub. assert (Hinv : SIVFS_INVALID_TS = two64 - 1) by reflexivity.
  assert (Hframe : next_bound s <= next_bound (publish s) -> (forall t, t <> SIVFS_INVALID_TS -> t < next_bound s -> lc_ts (x_latest (publish s)) = t ->
     lc_ts (x_latest s) = t /\ lc_checkpoint (x_latest s) = lc_checkpoint (x_latest (publish s))) ->
    forall i r, x_readers (publish s) !! i = Some r -> reader_ok (publish s) i r).
  { intros Hb Hp i r. unfold publish in *. destruct (insert_finish_step _ _ _) as [[p l] pb]. cbn [x_readers] in *. intros Hr.
    apply (reader_ok_frame s _ i r (Hrd i r Hr) Hr); [by intros j ts f Hl _|done|exact Hb|exact Hp]. }
  unfold publish, next_bound, pub_ok in *. destruct s as [[lcp lts] pb pub inodes rds gc]. cbn [x_latest x_published x_pub x_inodes x_readers x_gc lc_ts lc_checkpoint] in *.
  destruct pub as [|j t|j t|t|t]; [done| | | |]; cbn [insert_finish_step lc_ts lc_checkpoint] in *.
  - destruct Hpub as (E & U & _). split; try done. apply Hframe; [cbn; lia|]. intros t' Ht' _ E'. by rewrite <- E' in Ht'.
  - destruct Hpub as (E & U). split; try done. apply Hframe; [cbn; lia|]. intros t' Ht' _ E'. by rewrite <- E', E in Ht'.
  - destruct Hpub as (E & U). pose proof U as (U0 & U1 & i & Hi & Hti & Hoi). cbn [x_published x_inodes] in *. split; try done.
    + intros _. split; [done|]. cbn. split; [lia|]. exists i. split; [done|]. split; [done|]. lia.
    + apply Hframe; [cbn; lia|]. cbn. intros t' _ Hlt E'. lia.
  - destruct Hpub as (E & U). pose proof U as (U0 & U1 & i & Hi & Hti & Hoi). cbn [x_published x_inodes] in *. split; try done.
    + cbn. lia.
    + intros _. split; [done|]. cbn. split; [lia|]. exists i. split; [done|]. split; [congruence|]. lia.
    + by apply Hframe.
    + cbn [x_gc x_published]. destruct gc; [done|split; [lia|apply Hgc]|lia].
Qed.

Lemma make_keeps s ino root ts : checkout_inv s -> x_pub s = PubIdle -> ino <> 0 -> x_inodes s !! ino = None ->
  x_published s < ts < SIVFS_INVALID_TS -> checkout_inv (begin_publish ino root ts s).
Proof.
  intros [Hpb Hin Hpub Hlat Hrd Hgc] Hidle Hino Hnew Hts. unfold pub_ok in Hpub. rewrite Hidle in Hpub.
  destruct Hlat as (Hlc & _ & i0 & Hi0 & Hti0 & Hoi0); [lia|]. rewrite Hpub in *.
  assert (Hne : ino <> lc_checkpoint (x_latest s)) by (intros ->; congruence).
  assert (Hlive : forall j t, live s j t -> live (begin_publish ino root ts s) j t).
  { intros j t (i & Hi & Ht). unfold live. cbn [begin_publish x_inodes]. rewrite lookup_insert_ne by (intros ->; congruence).
    destruct (decide (lc_checkpoint (x_latest s) = j)) as [<-|]; [rewrite lookup_alter_eq, Hi|rewrite lookup_alter_ne by done; by exists i].
    eexists. split; [reflexivity|exact Ht]. }
  split; cbn [begin_publish x_latest x_published x_pub x_inodes x_readers x_gc]; try done.
  - intros j i. rewrite lookup_insert. case_decide; [by intros [= <-]; cbn; lia|]. rewrite lookup_alter_Some.
    intros [(<- & i1 & Hi1 & ->)|[_ Hi]]; [|by eapply Hin]. rewrite Hi0 in Hi1. injection Hi1 as <-. cbn. lia.
  - split; [done|]. split; [|done]. split; [done|]. split; [done|]. eexists. cbn [begin_publish x_inodes]. by rewrite lookup_insert_eq.
  - intros _. split; [done|]. split; [lia|]. eexists. rewrite lookup_insert_ne by done. rewrite lookup_alter_eq, Hi0.
    split; [reflexivity|]. cbn. lia.
  - intros i r Hr. apply (reader_ok_frame s _ i r (Hrd i r Hr) Hr); [by intros j t f Hl _; apply Hlive|done| |done].
    unfold next_bound. rewrite Hidle, Hpub. cbn. lia.
Qed.

(** ** A task's own steps *)

Lemma covered_next g i v : match g with GScan _ _ rest => in_order rest | _ => True end ->
  covered g i SlotCheckpoint v -> covered g i SlotPrior v.
Proof. destruct g as [|m vs rest|m vs]; [done| |done]. intros [Ho _] [?|[?|?]]; cbn; auto. Qed.

Lemma covered_recent s i f v : checkout_inv s -> x_published s <= v -> covered (x_gc s) i f v.
Proof.
  intros Hinv Hv. pose proof (xi_gc _ Hinv) as Hg. unfold covered. destruct (x_gc s); [done|left; destruct Hg; lia|left; lia].
Qed.

Lemma put_reader s i r : checkout_inv s -> reader_ok s i r -> checkout_inv (set_readers (<[i := r]> (x_readers s)) s).
Proof.
  intros [Hpb Hin Hpub Hlat Hrd Hgc] Hr. split; try done. intros j r'. cbn [set_readers x_readers]. rewrite lookup_insert.
  case_decide; [intros [= <-]; subst j; by destruct Hr; split|intros Hj; by destruct (Hrd j r' Hj); split].
Qed.

Lemma checkout_step_ok s i r r' : checkout_inv s -> x_readers s !! i = Some r -> checkout_step (x_latest s) r = Some r' -> reader_ok s i r'.
Proof.
  intros Hinv Hr Hs. destruct (xi_readers _ Hinv i r Hr) as [H1 H2 H3 H4 H0 H5 H6]. pose proof (xi_pub _ Hinv) as Hpub. pose proof (xi_published _ Hinv) as Hpb.
  assert (Hnew : lc_ts (x_latest s) <> SIVFS_INVALID_TS -> lc_ts (x_latest s) < next_bound s).
  { unfold next_bound, pub_ok in *. destruct (x_pub s) as [|j t|j t|t|t]; try lia. destruct Hpub as (-> & (? & ? & _) & _). lia. }
  assert (Hgc : match x_gc s with GScan _ _ rest => in_order rest | _ => True end).
  { pose proof (xi_gc _ Hinv). destruct (x_gc s); [done|by destruct H|done]. }
  unfold checkout_step in Hs. destruct r as [rcp rts rpr pc]. cbn [r_pc r_checkpoint r_checkpoint_ts r_prior_checkpoint_ts at_pc] in *. destruct pc as [|t|t|t| |t| |]; try done.
  - injection Hs as <-. destruct (Z.eqb_spec rts (lc_ts (x_latest s))) as [E|E]; split; cbn; try done; try (by intros t [[=]|[=]]).
    + by intros t [= <-].
    + intros t [= <-] Hne. by apply Hnew.
  - injection Hs as <-. split; cbn; try done.
  - injection Hs as <-. split; cbn; try done; [by intros t' [= <-]|]. intros t' [[=]|[= <-]]. apply H6. by left.
  - destruct (Z.eqb_spec (lc_ts (x_latest s)) t) as [E|E], (Z.eqb_spec t SIVFS_INVALID_TS) as [E'|E'];
      injection Hs as <-; split; cbn; try done; try (by intros t' [[=]|[=]]).
    + intros _ _. rewrite (H4 t eq_refl). rewrite (H6 t (or_intror eq_refl) E' E). split.
      * destruct (xi_latest _ Hinv) as (_ & _ & i0 & Hi0 & Ht0 & _); [congruence|]. exists i0. split; [done|congruence].
      * apply covered_recent; [done|]. destruct (xi_latest _ Hinv) as (_ & ? & _); [congruence|lia].
    + destruct (rcp =? 0); [done|]. intros t' [= <-]. by apply H4.
    + by destruct (rcp =? 0).
    + by destruct (rcp =? 0).
    + by destruct (rcp =? 0).
    + by destruct (rcp =? 0); intros t' [[=]|[=]].
  - injection Hs as <-. split; cbn; try done; [intros t [= <-]; apply Hnew|by intros t [[=]|[=]]].
  - injection Hs as <-. pose proof (H3 t eq_refl) as E. subst rts. split; cbn; try done; [|by intros t' [[=]|[=]]].
    intros Hne. destruct (H1 eq_refl Hne) as [Hl Hc]. split; [by exists rcp|]. by apply covered_next.
Qed.

Lemma txn_pause_step_ok s i r r' : checkout_inv s -> x_readers s !! i = Some r -> txn_pause_step r = Some r' -> reader_ok s i r'.
Proof.
  intros Hinv Hr Hs. destruct (xi_readers _ Hinv i r Hr) as [H1 H2 H3 H4 H0 H5 H6].
  unfold txn_pause_step in Hs. destruct r as [rcp rts rpr pc]. cbn [r_pc r_checkpoint r_checkpoint_ts r_prior_checkpoint_ts] in *.
  destruct pc; try done; injection Hs as <-; split; cbn; try done; try (by intros t [[=]|[=]]).
  intros _ Hne. by destruct (Hne (H0 eq_refl)).
Qed.

(** ** The collector's steps *)

Lemma scan_order_in_order l : NoDup l.*1 -> in_order (scan_order l).
Proof.
  split.
  - intros i (ir & Hi & Hin)%list_elem_of_bind. apply list_elem_of_bind. exists ir. split; [|done].
    apply elem_of_cons in Hi as [[= ->]|Hi]; [right; left|]. apply list_elem_of_singleton in Hi. done.
  - induction l as [|[k r] l IH]; intros i l1 l2; [by destruct l1|]. cbn [scan_order]. unfold scan_order. rewrite bind_cons. cbn [fst app].
    fold (scan_order l). apply NoDup_cons in H as [Hk Hl]. destruct l1 as [|x [|y l1]]; [by intros [=]|intros [= <- -> <-]|intros [= <- <- E]; by eapply IH].
    intros (ir & Hi & Hin)%list_elem_of_bind. apply Hk. apply list_elem_of_fmap. exists ir. split; [|done].
    apply elem_of_cons in Hi as [[= ->]|Hi]; [done|]. by apply list_elem_of_singleton in Hi.
Qed.

Lemma in_order_tail x rest : in_order (x :: rest) -> in_order rest.
Proof.
  intros [H1 H2]. split.
  - intros i Hi. pose proof (H1 i ltac:(by right)) as [<-|?]%elem_of_cons; [|done].
    by destruct (H2 i [] rest eq_refl).
  - intros i l1 l2 ->. by apply (H2 i (x :: l1)).
Qed.

Lemma scan_order_covers (m : gmap Z reader) i r f : m !! i = Some r -> (i, f) ∈ scan_order (map_to_list m).
Proof.
  intros Hi. apply list_elem_of_bind. exists (i, r). split; [destruct f; [left|right; left]|]. by apply elem_of_map_to_list.
Qed.

Lemma gc_start_keeps s : checkout_inv s -> checkout_inv (set_gc (GScan (x_published s) [] (scan_order (map_to_list (x_readers s)))) s).
Proof.
  intros [Hpb Hin Hpub Hlat Hrd Hgc]. split; try done.
  - intros i r Hr. apply (reader_ok_frame s _ i r (Hrd i r Hr) Hr); [by intros j t f Hl _| |done|by intros t _ _].
    intros f _. right. right. by eapply scan_order_covers.
  - split; [cbn; lia|]. apply scan_order_in_order, NoDup_fst_map_to_list.
Qed.

Lemma gc_scan_keeps s m vs rest : checkout_inv s -> x_gc s = GScan m vs rest -> checkout_inv (set_gc (scan_step (x_readers s) m vs rest) s).
Proof.
  intros [Hpb Hin Hpub Hlat Hrd Hgc] Hs. rewrite Hs in Hgc. destruct Hgc as [Hm Hord]. split; try done.
  - intros i r Hr. change (x_readers s !! i = Some r) in Hr. apply (reader_ok_frame s _ i r (Hrd i r Hr) Hr); [by intros j t f Hl _| |done|by intros t _ _].
    intros f. rewrite Hs. cbn [set_gc x_gc covered]. destruct rest as [|[k g] rest]; cbn [scan_step]; [intros [?|[?|?%not_elem_of_nil]]; [by left|by right|done]|].
    intros [?|[?|[[= -> ->]|?]%elem_of_cons]]; [..|rewrite Hr; right; left; rewrite elem_of_app; right; by left|];
      destruct (x_readers s !! k) as [r'|]; cbn [covered]; rewrite ?elem_of_app; auto.
  - destruct rest as [|[k g] rest]; cbn [scan_step set_gc x_gc]; [done|]. apply in_order_tail in Hord. by destruct (x_readers s !! k).
Qed.

Lemma gc_free_keeps s m vs j i : checkout_inv s -> x_gc s = GFree m vs -> x_inodes s !! j = Some i ->
  reassign_to (ci_ts i) (ci_obsoleted_ts i) m vs = SIVFS_INVALID_TS -> checkout_inv (free_inode j s).
Proof.
  intros [Hpb Hin Hpub Hlat Hrd Hgc] Hs Hi Hre. rewrite Hs in Hgc.
  destruct (reassign_spec vs m ltac:(lia) (ci_ts i) (ci_obsoleted_ts i)) as [(_ & Hol & Hno)|[? _]]; [|done].
  assert (Hold : forall k i', x_inodes s !! k = Some i' -> m < ci_obsoleted_ts i' -> x_inodes (free_inode j s) !! k = Some i').
  { intros k i' Hk Ho. cbn [free_inode x_inodes]. rewrite lookup_delete_ne; [done|]. intros ->. rewrite Hi in Hk. injection Hk as <-. lia. }
  assert (Hunb : forall k t, unborn s k t -> unborn (free_inode j s) k t).
  { intros k t (? & ? & i' & Hk & Ht & Ho). split; [done|]. split; [done|]. exists i'. split; [|done]. apply Hold; [done|lia]. }
  split; cbn [free_inode x_published x_latest x_pub x_readers x_gc]; try done.
  - intros k i' Hk. cbn [free_inode x_inodes] in Hk. apply lookup_delete_Some in Hk as [_ Hk]. by eapply Hin.
  - unfold pub_ok in *. cbn [free_inode x_published x_latest x_pub]. destruct (x_pub s); naive_solver.
  - intros Hne. destruct (Hlat Hne) as (? & ? & i' & Hk & Ht & Ho). split; [done|]. split; [done|]. exists i'. split; [|done]. apply Hold; [done|lia].
  - intros k r Hr. apply (reader_ok_frame s _ k r (Hrd k r Hr) Hr); [|done|done|by intros t _ _].
    rewrite Hs. intros j' t f (i' & Hk & Ht) Hc. exists i'. split; [|done]. cbn [free_inode x_inodes]. rewrite lookup_delete_ne; [done|].
    intros ->. rewrite Hi in Hk. injection Hk as <-. pose proof (Hin _ _ Hi). destruct Hc as [?|Hv]; [lia|]. apply (Hno _ Hv). lia.
  - by rewrite Hs.
Qed.

Lemma gc_end_keeps s : checkout_inv s -> checkout_inv (set_gc GIdle s).
Proof.
  intros [Hpb Hin Hpub Hlat Hrd Hgc]. split; try done. intros i r Hr.
  by apply (reader_ok_frame s _ i r (Hrd i r Hr) Hr); [intros j t f Hl _| | |intros t _ _].
Qed.

Lemma checkout_init s : cinit s -> checkout_inv s.
Proof.
  intros (ino & root & Hino & ->). split; cbn [x_latest x_published x_pub x_inodes x_readers x_gc lc_ts lc_checkpoint]; try done.
  - intros j i [<- <-]%lookup_singleton_Some. done.
  - intros _. split; [done|]. split; [done|]. eexists. rewrite lookup_singleton_eq. by split.
Qed.

Lemma cstep_keeps s s' : checkout_inv s -> cstep s s' -> checkout_inv s'.
Proof.
  intros Hinv Hstep. destruct Hstep as [ s i Hi Hu| s i r Hr Hp Hu| s i r r' Hr E| s i r r' Hr E| s ino root ts Hp Hz Hn Ht| s Hp| s Hg| s m vs rest Hg| s m vs j i Hg Hi Hre| s m vs Hg].
  - apply put_reader; [done|]. split; try done. by intros t [[=]|[=]].
  - destruct Hinv as [Hpb Hin Hpub Hlat Hrd Hgc]. split; try done. intros k r' Hk. cbn [set_readers x_readers] in Hk. apply lookup_delete_Some in Hk as [_ Hk]. by destruct (Hrd k r' Hk); split.
  - apply put_reader; [done|]. by eapply checkout_step_ok.
  - apply put_reader; [done|]. by eapply txn_pause_step_ok.
  - by apply make_keeps.
  - by apply publish_keeps.
  - by apply gc_start_keeps.
  - by eapply gc_scan_keeps.
  - by eapply gc_free_keeps.
  - by apply gc_end_keeps.
Qed.

Lemma checkout_reachable_inv s : reachable cinit cstep s -> checkout_inv s.
Proof. apply invariant_reachable; [apply checkout_init|apply cstep_keeps]. Qed.

(** ** The loop as my_sivfs_commit_update runs it *)

(** What memory shows at the accesses of one iteration: to the pointer, to the
    timestamp that validates it, to the timestamp of the next attempt. *)
Definition iteration : Type := sivfs_latest_checkpoint * sivfs_latest_checkpoint * sivfs_latest_checkpoint.

Definition observed (v : iteration) : Z * Z * Z := (lc_checkpoint v.1.1, lc_ts v.1.2, lc_ts v.2).

(** The accesses in order; the store of checkpoint_ts reads nothing. *)
Definition run_steps (r : reader) (views : list sivfs_latest_checkpoint) : option reader :=
  foldl (fun r l => r ≫= checkout_step l) (Some r) views.

Definition validated (t : Z) (v : iteration) : bool := (lc_ts v.1.2 =? t) && negb (t =? SIVFS_INVALID_TS).

(** The accesses of the loop, up to the iteration that validates. *)
Fixpoint loop_views (t : Z) (its : list iteration) : list sivfs_latest_checkpoint :=
  match its with
  | [] => []
  | v :: its => [v.1.1; v.1.1; v.1.2] ++ if validated t v then [] else v.2 :: loop_views (lc_ts v.2) its
  end.

Section loop.
Context {T : Type} `{PageCache T}.

Definition reader_of (s : task T) (p : reader_pc) : reader := mk_reader (st_checkpoint s) (st_checkpoint_ts s) (st_prior_checkpoint_ts s) p.

Lemma run_steps_cons r l views : run_steps r (l :: views) = checkout_step l r ≫= fun r' => run_steps r' views.
Proof.
  unfold run_steps. cbn [foldl mbind option_bind]. destruct (checkout_step l r) as [r'|]; [done|]. by induction views.
Qed.

Lemma loop_runs its : forall (s s' : task T) t t', read_latest t (observed <$> its) s = (Ok t', s') -> st_checkpoint s' <> 0 ->
  run_steps (reader_of s (RPointer t)) (loop_views t its) = Some (reader_of s' (RChecked t')).
Proof.
  induction its as [|[[p v] a] its IH]; intros s s' t t' Hr Hne; [done|].
  cbn [fmap list_fmap observed read_latest fst snd] in Hr. unfold modify, bind in Hr. cbn [loop_views app fst snd]. unfold validated. cbn [fst snd].
  do 3 (rewrite run_steps_cons; cbn [checkout_step reader_of r_pc r_checkpoint r_checkpoint_ts r_prior_checkpoint_ts mbind option_bind at_pc]).
  destruct ((lc_ts v =? t) && negb (t =? SIVFS_INVALID_TS)); cbn [mbind option_bind].
  - injection Hr as <- <-. cbn in Hne. by rewrite (proj2 (Z.eqb_neq _ _) Hne).
  - rewrite run_steps_cons. cbn [checkout_step at_pc r_pc mbind option_bind]. by apply IH in Hr.
Qed.

(** A successful checkout_checkpoint of Update.v is a run of this system's
    task: the same accesses lead to the same checkpoint and timestamps. *)
Lemma checkout_runs first its (s s' : task T) t' : checkout_checkpoint (lc_ts first) (observed <$> its) s = (Ok t', s') ->
  run_steps (reader_of s RIdle) (first :: if st_checkpoint_ts s =? lc_ts first then [] else loop_views (lc_ts first) its)
    = Some (reader_of s' (RChecked t')).
Proof.
  unfold checkout_checkpoint. rewrite (bind_step (gets _) _ s s s eq_refl), run_steps_cons. cbn [checkout_step reader_of r_pc mbind option_bind r_checkpoint_ts].
  destruct (st_checkpoint_ts s =? lc_ts first) eqn:E; [by intros [= <- <-]|]. intros (t & s1 & E1 & Hr)%bind_Ok.
  rewrite (bind_step (gets _) _ s1 s1 s1 eq_refl) in Hr. destruct (Z.eqb_spec (st_checkpoint s1) 0); [done|]. injection Hr as <- <-.
  by apply (loop_runs its s s1).
Qed.
End loop.

(** ** Properties *)

(** C8. Whatever the interleaving of tasks, of the stores that publish a new
    checkpoint and of the reads and frees of the collector: between checkouts
    (and once the double read has validated) the pointer a task holds is the
    inode of the checkpoint of its checkpoint_ts, and that inode is not freed;
    the checkpoint of its prior_checkpoint_ts is not freed either, even while
    the task is in the middle of the double read. *)
Theorem checked_out_checkpoint_survives s i r : reachable cinit cstep s -> x_readers s !! i = Some r ->
  (relies (r_pc r) = true -> r_checkpoint_ts r <> SIVFS_INVALID_TS -> live s (r_checkpoint r) (r_checkpoint_ts r)) /\
  (r_prior_checkpoint_ts r <> SIVFS_INVALID_TS -> exists j, live s j (r_prior_checkpoint_ts r)).
Proof.
  intros Hs Hr. destruct (xi_readers _ (checkout_reachable_inv s Hs) i r Hr) as [H1 H2 _ _ _ _ _].
  split; [intros Hp Hne; by apply H1|intros Hne; by apply H2].
Qed.

(** Runs: the system with one task, by functions. *)
Definition task_step (i : Z) (s : cstate) : cstate :=
  match x_readers s !! i ≫= checkout_step (x_latest s) with
  | Some r => set_readers (<[i := r]> (x_readers s)) s
  | None => s
  end.
Definition gc_scan (s : cstate) : cstate :=
  match x_gc s with GScan m vs rest => set_gc (scan_step (x_readers s) m vs rest) s | _ => s end.
Definition gc_start (s : cstate) : cstate := set_gc (GScan (x_published s) [] (scan_order (map_to_list (x_readers s)))) s.

Lemma task_step_reach i s : reachable cinit cstep s -> reachable cinit cstep (task_step i s).
Proof.
  intros Hs. unfold task_step. destruct (x_readers s !! i) as [r|] eqn:Er; [|done]. cbn [mbind option_bind].
  destruct (checkout_step (x_latest s) r) as [r'|] eqn:E; [|done]. eapply reach_step; [exact Hs|]. by eapply c_checkout.
Qed.

Lemma gc_scan_reach s : reachable cinit cstep s -> reachable cinit cstep (gc_scan s).
Proof. intros Hs. unfold gc_scan. destruct (x_gc s) eqn:E; try done. eapply reach_step; [exact Hs|]. by apply c_gc_scan. Qed.

Definition csample_init : cstate := mk_cst (mk_latest 16 0) 0 PubIdle {[16 := mk_inode 0 0 SIVFS_INVALID_TS]} ∅ GIdle.
Definition csample_new : cstate := set_readers (<[1 := new_reader]> (x_readers csample_init)) csample_init.

Lemma csample_new_reach : reachable cinit cstep csample_new.
Proof.
  eapply reach_step; [apply reach_init; by exists 16, 0|]. by apply c_new.
Qed.

(** The task checks out the first checkpoint; a second one is published while
    the task starts its next checkout, and the collector scans. *)
Definition csample_checked : cstate := Nat.iter 5 (task_step 1) csample_new.
Definition csample_published : cstate := Nat.iter 4 publish (begin_publish 32 0 5 (task_step 1 csample_checked)).
Definition csample_scanned : cstate := Nat.iter 3 gc_scan (gc_start (Nat.iter 4 (task_step 1) csample_published)).

Lemma csample_scanned_reach : reachable cinit cstep csample_scanned.
Proof.
  assert (H1 : reachable cinit cstep (task_step 1 csample_checked)) by (apply task_step_reach; unfold csample_checked; cbn [Nat.iter]; do 5 apply task_step_reach; apply csample_new_reach).
  assert (H2 : reachable cinit cstep csample_published).
  { assert (H0 : reachable cinit cstep (begin_publish 32 0 5 (task_step 1 csample_checked))) by (eapply reach_step; [exact H1|]; by apply c_make).
    unfold csample_published. cbn [Nat.iter nat_rect]. do 4 (eapply reach_step; [|by apply c_publish]). exact H0. }
  unfold csample_scanned. cbn [Nat.iter]. do 3 apply gc_scan_reach. eapply reach_step; [|by apply c_gc_start]. do 4 apply task_step_reach. exact H2.
Qed.

Lemma checked_out_checkpoint_survives_witness :
  x_gc csample_scanned = GFree 5 [5; 0] /\ x_readers csample_scanned !! 1 = Some (mk_reader 32 5 0 (RValidate 5)) /\
  (relies (RValidate 5) = true -> 5 <> SIVFS_INVALID_TS -> live csample_scanned 32 5) /\
  (0 <> SIVFS_INVALID_TS -> exists j, live csample_scanned j 0).
Proof.
  split; [vm_compute; reflexivity|]. split; [vm_compute; reflexivity|].
  apply (checked_out_checkpoint_survives csample_scanned 1 (mk_reader 32 5 0 (RValidate 5))); [exact csample_scanned_reach|vm_compute; reflexivity].
Defined.

(** A task with no checkpoint (new, or paused) that starts a transaction
    while a checkpoint is being published reads SIVFS_INVALID_TS from
    latest_checkpoint.ts, takes it for its own checkpoint_ts and skips the
    checkout: it runs without a checkpoint, and every page fault fails. *)
Theorem checkout_skipped_during_publication : exists s r, reachable cinit cstep s /\ x_readers s !! 1 = Some r /\
  r_pc r = RChecked SIVFS_INVALID_TS /\ r_checkpoint r = 0 /\ x_published s = 0 /\
  forall F c st ts ino pg, my_sivfs_update_page F c st ts (r_checkpoint r) ino (pg * PAGE_SIZE) = Err EINVAL.
Proof.
  exists (task_step 1 (publish (begin_publish 32 0 5 csample_new))), (mk_reader 0 SIVFS_INVALID_TS SIVFS_INVALID_TS (RChecked SIVFS_INVALID_TS)).
  split; [|split; [vm_compute; reflexivity|]; split; [done|]; split; [done|]; split; [vm_compute; reflexivity|]].
  - apply task_step_reach. eapply reach_step; [|by apply c_publish]. eapply reach_step; [apply csample_new_reach|]. by apply c_make.
  - intros F c st ts ino pg. unfold my_sivfs_update_page. destruct (ts =? SIVFS_INVALID_TS); [done|]. by rewrite Z.mod_mul.
Qed.
