(* ===== verification/TaskState.v ===== *)
(** Task states and anonymous inodes, and who holds a reference to what
    (kern/sivfs_state.c, the first part of kern/sivfs_workingset.c, open and
    release of kern/inode.c).

    Every task that uses the file system has a state, found by the task in
    [w_threads]; every file it has open has an anonymous inode in the working set
    of the state, with a pseudo directory entry that holds it. A state counts the
    references to it, an anonymous inode its open files in the [ii_refcount] of
    its info, a directory entry and an inode those that hold them. Objects are
    named by numbers that are not used again, so that a use after the object was
    freed is a [Fault]. A message that the code prints when an assertion of its
    own fails is recorded in [w_log]. *)
From S2P Require Import Prelude Types.

(** ** Data *)

(** The fields of [struct sivfs_state] that matter here; the two trees of its
    working set go from the number of a file to an inode and a directory entry. *)
Record tst : Type := mk_tst {
  ts_nref : Z;
  ts_owner : Z;
  ts_notifier : bool;
  ts_anon_inodes : gmap Z Z;
  ts_anon_dentries : gmap Z Z
}.
Record vinode : Type := mk_vinode { i_count : Z; i_private : Z }.
Record iinfo : Type := mk_iinfo { ii_refcount : Z; ii_backing : Z; ii_state : Z }.
Record dentry : Type := mk_dentry { d_count : Z; d_inode : Z }.
Record finfo : Type := mk_finfo { fi_file : Z; fi_state : Z; fi_direct_access_file : Z }.
Record vfile : Type := mk_vfile { f_inode : Z; f_private : Z }.

Inductive complaint : Type :=
  | AssertionError
  | WithoutAnonInode
  | WithoutIinfo
  | InvalidRefcount
  | WithoutAnonDentry
  | OpenAnonFiles
  | ManualUnregister
  | NotRegistered
  | BadRefcount.

Record world : Type := mk_world {
  w_threads : gmap Z Z;
  w_states : gmap Z tst;
  w_inodes : gmap Z vinode;
  w_iinfos : gmap Z iinfo;
  w_dentries : gmap Z dentry;
  w_finfos : gmap Z finfo;
  w_direct : gmap Z Z;
  w_files : gmap Z vfile;
  w_next : Z;
  w_log : list complaint
}.

(** What the system answers during a call: allocations, the mm of the task, the
    registration of the notifier, sivfs_commit_update ([None] is an error, else
    whether it aborted), opening the underlying file. *)
Record tenv : Type := mk_tenv {
  te_state : bool;
  te_threads : bool;
  te_inode : bool;
  te_iinfo : bool;
  te_mm : bool;
  te_register : bool;
  te_anon_inode : bool;
  te_dentry : bool;
  te_anon_dentry : bool;
  te_update : option bool;
  te_finfo : bool;
  te_direct : bool
}.

Definition SIVFS_UNREFERENCED : Z := -1000.
Definition SIVFS_IINFO_MAX_REFCOUNT : Z := 100.
Definition SIVFS_CREATE : Z := 2.
Definition SIVFS_SKIP_REFCOUNT : Z := 4.
Definition EXIT_DELETE_BATCH : nat := 16.

Definition w_with_threads (x : gmap Z Z) (w : world) : world := mk_world x (w_states w) (w_inodes w) (w_iinfos w) (w_dentries w) (w_finfos w) (w_direct w) (w_files w) (w_next w) (w_log w).
Definition w_with_states (x : gmap Z tst) (w : world) : world := mk_world (w_threads w) x (w_inodes w) (w_iinfos w) (w_dentries w) (w_finfos w) (w_direct w) (w_files w) (w_next w) (w_log w).
Definition w_with_inodes (x : gmap Z vinode) (w : world) : world := mk_world (w_threads w) (w_states w) x (w_iinfos w) (w_dentries w) (w_finfos w) (w_direct w) (w_files w) (w_next w) (w_log w).
Definition w_with_iinfos (x : gmap Z iinfo) (w : world) : world := mk_world (w_threads w) (w_states w) (w_inodes w) x (w_dentries w) (w_finfos w) (w_direct w) (w_files w) (w_next w) (w_log w).
Definition w_with_dentries (x : gmap Z dentry) (w : world) : world := mk_world (w_threads w) (w_states w) (w_inodes w) (w_iinfos w) x (w_finfos w) (w_direct w) (w_files w) (w_next w) (w_log w).
Definition w_with_finfos (x : gmap Z finfo) (w : world) : world := mk_world (w_threads w) (w_states w) (w_inodes w) (w_iinfos w) (w_dentries w) x (w_direct w) (w_files w) (w_next w) (w_log w).
Definition w_with_direct (x : gmap Z Z) (w : world) : world := mk_world (w_threads w) (w_states w) (w_inodes w) (w_iinfos w) (w_dentries w) (w_finfos w) x (w_files w) (w_next w) (w_log w).
Definition w_with_files (x : gmap Z vfile) (w : world) : world := mk_world (w_threads w) (w_states w) (w_inodes w) (w_iinfos w) (w_dentries w) (w_finfos w) (w_direct w) x (w_next w) (w_log w).
Definition w_with_log (x : list complaint) (w : world) : world := mk_world (w_threads w) (w_states w) (w_inodes w) (w_iinfos w) (w_dentries w) (w_finfos w) (w_direct w) (w_files w) (w_next w) x.

Definition complain (c : complaint) : M world unit := modify (fun w => w_with_log (c :: w_log w) w).
(** A new object gets the next number. *)
Definition fresh : M world Z := fun w =>
  (Ok (w_next w), mk_world (w_threads w) (w_states w) (w_inodes w) (w_iinfos w) (w_dentries w) (w_finfos w) (w_direct w) (w_files w) (w_next w + 1) (w_log w)).

Definition get_state (i : Z) : M world tst := let! m := gets w_states in lift (deref (m !! i)).
Definition set_state (i : Z) (st : tst) : M world unit := modify (fun w => w_with_states (<[i := st]> (w_states w)) w).
Definition get_vinode (n : Z) : M world vinode := let! m := gets w_inodes in lift (deref (m !! n)).
Definition get_iinfo (f : Z) : M world iinfo := let! m := gets w_iinfos in lift (deref (m !! f)).
Definition store_iinfo (f : Z) (ii : iinfo) : M world unit := modify (fun w => w_with_iinfos (<[f := ii]> (w_iinfos w)) w).
Definition get_dentry (d : Z) : M world dentry := let! m := gets w_dentries in lift (deref (m !! d)).

Definition with_nref (n : Z) (st : tst) : tst := mk_tst n (ts_owner st) (ts_notifier st) (ts_anon_inodes st) (ts_anon_dentries st).
Definition with_notifier (b : bool) (st : tst) : tst := mk_tst (ts_nref st) (ts_owner st) b (ts_anon_inodes st) (ts_anon_dentries st).
Definition with_anon_inodes (t : gmap Z Z) (st : tst) : tst := mk_tst (ts_nref st) (ts_owner st) (ts_notifier st) t (ts_anon_dentries st).
Definition with_anon_dentries (t : gmap Z Z) (st : tst) : tst := mk_tst (ts_nref st) (ts_owner st) (ts_notifier st) (ts_anon_inodes st) t.
Definition with_refcount (n : Z) (ii : iinfo) : iinfo := mk_iinfo n (ii_backing ii) (ii_state ii).

(** The kernel's radix_tree_insert. *)
Definition tree_insert (mem : bool) (k v : Z) (t : gmap Z Z) : res (gmap Z Z) :=
  match t !! k with
  | Some _ => Err EEXIST
  | None => if mem then Ok (<[k := v]> t) else Err ENOMEM
  end.

(** ** Task states *)

Definition sivfs_task_to_state (task : Z) : M world (option Z) := gets (fun w => w_threads w !! task).

Definition sivfs_new_state (ev : tenv) : M world Z :=
  if te_state ev then
    let! i := fresh in
    do! set_state i (mk_tst 1 0 false ∅ ∅) in
    ret i
  else throw ENOMEM.

(** Lists of the allocator and the temporary log entry are left out. *)
Definition sivfs_put_state (i : Z) : M world unit :=
  let! st := get_state i in
  do! (if decide (ts_anon_inodes st = ∅) then ret tt else complain OpenAnonFiles) in
  do! (if decide (ts_anon_dentries st = ∅) then ret tt else complain OpenAnonFiles) in
  do! (if ts_notifier st then complain ManualUnregister else ret tt) in
  modify (fun w => w_with_states (delete i (w_states w)) w).

Definition sivfs_get_task_state (ev : tenv) (task : Z) : M world unit :=
  let! o := sivfs_task_to_state task in
  match o with
  | Some i => let! st := get_state i in set_state i (with_nref (ts_nref st + 1) st)
  | None =>
    let! i := sivfs_new_state ev in
    let! st := get_state i in
    do! set_state i (mk_tst (ts_nref st) task (ts_notifier st) (ts_anon_inodes st) (ts_anon_dentries st)) in
    on_error
      (let! t := gets w_threads in
       let! t := lift (tree_insert (te_threads ev) task i t) in
       modify (w_with_threads t))
      (sivfs_put_state i)
  end.

Definition sivfs_put_task_state (task : Z) : M world unit :=
  let! o := sivfs_task_to_state task in
  match o with
  | None => complain AssertionError
  | Some i =>
    let! st := get_state i in
    do! set_state i (with_nref (ts_nref st - 1) st) in
    if ts_nref st - 1 =? 0 then
      do! modify (fun w => w_with_threads (delete task (w_threads w)) w) in
      sivfs_put_state i
    else ret tt
  end.

(** ** Inodes and directory entries *)

Definition sivfs_put_iinfo (f : Z) : M world unit :=
  if f =? 0 then ret tt
  else
    let! _ii := get_iinfo f in
    modify (fun w => w_with_iinfos (delete f (w_iinfos w)) w).

(** What the kernel does when the last reference to an inode, to a directory entry
    or to an open file is put: it calls the file system's drop_inode and frees the
    inode; it frees the entry and puts its inode; it frees the file. A file that
    was freed must not be put again. *)
Class KernelPuts : Type := {
  k_iput : (vinode -> M world unit) -> Z -> M world unit;
  k_dput : (Z -> M world unit) -> Z -> M world unit;
  k_fput : Z -> M world unit
}.
Class KernelPutsLaws `{KernelPuts} : Prop := {
  k_iput_last : forall drop_inode n f w, w_inodes w !! n = Some (mk_vinode 1 f) ->
    k_iput drop_inode n w =
    (do! drop_inode (mk_vinode 1 f) in modify (fun w => w_with_inodes (delete n (w_inodes w)) w)) w;
  k_dput_last : forall put d n w, w_dentries w !! d = Some (mk_dentry 1 n) ->
    k_dput put d w = (do! modify (fun w => w_with_dentries (delete d (w_dentries w)) w) in put n) w;
  k_fput_last : forall x w, w_direct w !! x = Some 1 ->
    k_fput x w = (Ok tt, w_with_direct (delete x (w_direct w)) w);
  k_fput_freed : forall x w, w_direct w !! x = None -> k_fput x w = (Fault, w)
}.

(** An inode without a name in a directory is dropped at its last inode_put. *)
Definition sivfs_drop_inode (v : vinode) : M world unit := sivfs_put_iinfo (i_private v).

Section task_state.
Context `{KernelPuts}.

Definition inode_put (n : Z) : M world unit := k_iput sivfs_drop_inode n.
Definition dput (d : Z) : M world unit := k_dput inode_put d.

Definition sivfs_new_iinfo (ev : tenv) : M world Z :=
  if te_iinfo ev then
    let! f := fresh in
    do! store_iinfo f (mk_iinfo 0 0 0) in
    ret f
  else throw ENOMEM.

(** 0 is NULL. *)
Definition sivfs_get_inode (ev : tenv) : M world Z :=
  if te_inode ev then
    let! n := fresh in
    do! modify (fun w => w_with_inodes (<[n := mk_vinode 1 0]> (w_inodes w)) w) in
    fun w =>
    match sivfs_new_iinfo ev w with
    | (Ok f, w) => (do! modify (fun w => w_with_inodes (<[n := mk_vinode 1 f]> (w_inodes w)) w) in ret n) w
    | (Err _, w) => (do! inode_put n in ret 0) w
    | (Fault, w) => (Fault, w)
    | (OutOfFuel, w) => (OutOfFuel, w)
    end
  else ret 0.

Definition sivfs_inode_to_iinfo (n : Z) : M world Z := let! v := get_vinode n in ret (i_private v).

Definition register_notifier (ev : tenv) (i : Z) : M world unit :=
  let! st := get_state i in
  if ts_notifier st then ret tt
  else if negb (te_mm ev) then throw EINVAL
  else
    do! sivfs_get_task_state ev (ts_owner st) in
    if te_register ev then let! st := get_state i in set_state i (with_notifier true st)
    else do! sivfs_put_task_state (ts_owner st) in throw EINVAL.

Definition sivfs_create_anon_inode (ev : tenv) (file_ino i : Z) : M world Z :=
  let! n := sivfs_get_inode ev in
  if n =? 0 then throw ENOMEM
  else
    do! on_error (register_notifier ev i) (inode_put n) in
    let! f := sivfs_inode_to_iinfo n in
    let! ii := get_iinfo f in
    do! store_iinfo f (mk_iinfo (ii_refcount ii) file_ino i) in
    ret n.

Definition sivfs_create_anon_dentry (ev : tenv) (n : Z) : M world Z :=
  if te_dentry ev then
    let! d := fresh in
    do! modify (fun w => w_with_dentries (<[d := mk_dentry 1 n]> (w_dentries w)) w) in
    ret d
  else throw ENOMEM.


(** ** The anonymous inodes of a working set (kern/sivfs_workingset.c) *)

(** The part of [_sivfs_get_anon_inode] after the new inode [n] was created, up
    to its label error2: the inode and a directory entry for it are put into the
    trees, and the first inode of a working set starts a transaction. Where an
    update aborts, the code undoes everything and returns 0, and the directory
    entry is the NULL that the caller had: 0. *)
Definition link_anon_inode (ev : tenv) (i backing_ino flags t_owner n : Z) : M world Z :=
  let error2 := inode_put n in
  let error3 :=
    let! st := get_state i in
    set_state i (with_anon_inodes (delete backing_ino (ts_anon_inodes st)) st) in
  let! f := sivfs_inode_to_iinfo n in
  if f =? 0 then do! complain AssertionError in do! error2 in throw EINVAL
  else
    let! ii := get_iinfo f in
    do! (if negb (Z.land flags SIVFS_SKIP_REFCOUNT =? 0)
         then store_iinfo f (with_refcount SIVFS_UNREFERENCED ii) else ret tt) in
    let! st := get_state i in
    let anon_inodes_was_empty := bool_decide (ts_anon_inodes st = ∅) in
    do! on_error
      (let! t := lift (tree_insert (te_anon_inode ev) backing_ino n (ts_anon_inodes st)) in
       set_state i (with_anon_inodes t st)) error2 in
    let! d := on_error (sivfs_create_anon_dentry ev n) (do! error3 in error2) in
    let! st := get_state i in
    do! on_error
      (let! t := lift (tree_insert (te_anon_dentry ev) backing_ino d (ts_anon_dentries st)) in
       set_state i (with_anon_dentries t st)) (do! dput d in error3) in
    let error5 :=
      let! st := get_state i in
      do! set_state i (with_anon_dentries (delete backing_ino (ts_anon_dentries st)) st) in
      do! dput d in error3 in
    if anon_inodes_was_empty then
      match te_update ev with
      | None => do! error5 in throw ENOMEM
      | Some true => do! complain AssertionError in do! error5 in do! sivfs_put_task_state t_owner in ret 0
      | Some false => ret d
      end
    else ret d.

(** The file has no anonymous inode yet. Without [SIVFS_CREATE] the code stores
    in [dentry_out] a variable that it has not set: [Fault]. *)
Definition _sivfs_get_anon_inode (ev : tenv) (i backing_ino flags : Z) : M world Z :=
  if Z.land flags SIVFS_CREATE =? 0 then lift Fault
  else
    let! st := get_state i in
    do! sivfs_get_task_state ev (ts_owner st) in
    on_error
      (let! n := sivfs_create_anon_inode ev backing_ino i in
       link_anon_inode ev i backing_ino flags (ts_owner st) n)
      (sivfs_put_task_state (ts_owner st)).

Definition sivfs_iinfo_refct_inc (f : Z) : M world unit :=
  let! ii := get_iinfo f in
  let c := ii_refcount ii in
  if c =? SIVFS_IINFO_MAX_REFCOUNT then throw EINVAL
  else if (c <? 0) || (SIVFS_IINFO_MAX_REFCOUNT <? c) then do! complain BadRefcount in throw EINVAL
  else store_iinfo f (with_refcount (c + 1) ii).

(** The two lines that sivfs_get_anon_inode and sivfs_anon_open share. *)
Definition take_reference (f : Z) : M world unit :=
  let! ii := get_iinfo f in
  if ii_refcount ii =? SIVFS_UNREFERENCED then store_iinfo f (with_refcount 1 ii)
  else sivfs_iinfo_refct_inc f.

Definition sivfs_get_anon_inode (ev : tenv) (i backing_ino flags : Z) : M world Z :=
  let! st := get_state i in
  match ts_anon_dentries st !! backing_ino with
  | Some d =>
    if Z.land flags SIVFS_SKIP_REFCOUNT =? 0 then
      let! de := get_dentry d in
      let! f := sivfs_inode_to_iinfo (d_inode de) in
      if f =? 0 then do! complain AssertionError in throw EINVAL
      else do! take_reference f in ret d
    else ret d
  | None => _sivfs_get_anon_inode ev i backing_ino flags
  end.

Definition sivfs_put_anon_inode (i backing_ino : Z) : M world unit :=
  let! st := get_state i in
  match ts_anon_inodes st !! backing_ino with
  | None => complain WithoutAnonInode
  | Some n =>
    let! f := sivfs_inode_to_iinfo n in
    if f =? 0 then complain WithoutIinfo
    else
      let! ii := get_iinfo f in
      let c := ii_refcount ii in
      if (c =? SIVFS_UNREFERENCED) || (c =? 1) then
        do! sivfs_put_iinfo f in
        let! v := get_vinode n in
        do! modify (fun w => w_with_inodes (<[n := mk_vinode (i_count v) 0]> (w_inodes w)) w) in
        do! set_state i (with_anon_inodes (delete backing_ino (ts_anon_inodes st)) st) in
        match ts_anon_dentries st !! backing_ino with
        | None => complain WithoutAnonDentry
        | Some d =>
          let! st := get_state i in
          do! set_state i (with_anon_dentries (delete backing_ino (ts_anon_dentries st)) st) in
          do! dput d in
          sivfs_put_task_state (ts_owner st)
        end
      else if c <? 1 then complain InvalidRefcount
      else store_iinfo f (with_refcount (c - 1) ii)
  end.

(** ** Opening and closing (kern/inode.c) *)

(** What sivfs_d_select_anon_inode and sivfs_d_real share: [found] is what they
    do with the directory entry. *)
Definition with_anon_dentry {A} (ev : tenv) (current ino : Z) (found : Z -> M world A) : M world A :=
  do! sivfs_get_task_state ev current in
  let! o := sivfs_task_to_state current in
  match o with
  | None => do! complain AssertionError in throw EPERM
  | Some i =>
    let! d := on_error (sivfs_get_anon_inode ev i ino (Z.lor SIVFS_CREATE SIVFS_SKIP_REFCOUNT))
                       (sivfs_put_task_state current) in
    let! a := found d in
    do! sivfs_put_task_state current in
    ret a
  end.

Definition sivfs_d_select_anon_inode (ev : tenv) (current ino : Z) : M world Z :=
  with_anon_dentry ev current ino (fun d => let! de := get_dentry d in ret (d_inode de)).

(** The questions that sivfs_d_real asks about its arguments. *)
Record query : Type := mk_query {
  qu_is_dir : bool;
  qu_inode : bool;
  qu_same_inode : bool;
  qu_direct_access_creds : bool;
  qu_is_negative : bool;
  qu_sb : bool
}.

(** [None] is the directory entry that was given. *)
Definition sivfs_d_real (ev : tenv) (current ino : Z) (qu : query) (open_flags : Z) : M world (option Z) :=
  if qu_is_dir qu then
    if negb (qu_inode qu) || qu_same_inode qu then ret None
    else do! complain AssertionError in throw EINVAL
  else if qu_direct_access_creds qu then ret None
  else if qu_is_negative qu then throw EINVAL
  else if negb (open_flags =? 0) && qu_inode qu then do! complain AssertionError in throw EINVAL
  else if negb (qu_sb qu) then throw EINVAL
  else with_anon_dentry ev current ino (fun d => ret (Some d)).

(** An opener with the credentials for direct access gets the file itself. *)
Definition sivfs_d_select_inode (ev : tenv) (current ino : Z) (is_dir direct_access_creds : bool) : M world (option Z) :=
  if is_dir then ret None
  else if direct_access_creds then ret None
  else
    let! n := sivfs_d_select_anon_inode ev current ino in
    if n =? 0 then do! complain AssertionError in throw ENOMEM else ret (Some n).

Definition sivfs_new_finfo (ev : tenv) : M world Z :=
  if te_finfo ev then
    let! g := fresh in
    do! modify (fun w => w_with_finfos (<[g := mk_finfo 0 0 0]> (w_finfos w)) w) in
    ret g
  else throw ENOMEM.

Definition sivfs_put_finfo (g : Z) : M world unit :=
  let! m := gets w_finfos in
  let! fi := lift (deref (m !! g)) in
  do! (if fi_direct_access_file fi =? 0 then ret tt else k_fput (fi_direct_access_file fi)) in
  modify (fun w => w_with_finfos (delete g (w_finfos w)) w).

(** dentry_open of the file that the anonymous inode stands for. *)
Definition sivfs_open_direct_access (ev : tenv) : M world Z :=
  if te_direct ev then
    let! x := fresh in
    do! modify (fun w => w_with_direct (<[x := 1]> (w_direct w)) w) in
    ret x
  else throw ENOMEM.

(** [q] is the struct file that the system is opening. *)
Definition sivfs_anon_open (ev : tenv) (current n q : Z) : M world unit :=
  let! g := sivfs_new_finfo ev in
  on_error
    (let! x := sivfs_open_direct_access ev in
     let error2 := k_fput x in
     let! o := sivfs_task_to_state current in
     match o with
     | None => do! complain AssertionError in do! error2 in throw EPERM
     | Some i =>
       do! modify (fun w => w_with_finfos (<[g := mk_finfo q i x]> (w_finfos w)) w) in
       do! modify (fun w => w_with_files (<[q := mk_vfile n g]> (w_files w)) w) in
       let! f := sivfs_inode_to_iinfo n in
       if f =? 0 then
         do! complain AssertionError in
         do! error2 in
         sivfs_put_finfo g
       else on_error (take_reference f) error2
     end)
    (sivfs_put_finfo g).

Definition get_file (q : Z) : M world vfile := let! m := gets w_files in lift (deref (m !! q)).

Definition sivfs_anon_release (n q : Z) : M world unit :=
  let! v := get_file q in
  let! m := gets w_finfos in
  let! fi := lift (deref (m !! f_private v)) in
  let state := fi_state fi in
  do! sivfs_put_finfo (f_private v) in
  let! f := sivfs_inode_to_iinfo n in
  if f =? 0 then complain AssertionError
  else
    let! ii := get_iinfo f in
    sivfs_put_anon_inode state (ii_backing ii).

(** What the system does around them: it opens the inode that was selected, and
    forgets the file if that fails; it forgets the file after its release. *)
Definition vfs_open (ev : tenv) (current ino : Z) : M world Z :=
  let! n := sivfs_d_select_anon_inode ev current ino in
  let! q := fresh in
  do! modify (fun w => w_with_files (<[q := mk_vfile n 0]> (w_files w)) w) in
  do! on_error (sivfs_anon_open ev current n q) (modify (fun w => w_with_files (delete q (w_files w)) w)) in
  ret q.
Definition vfs_close (q : Z) : M world unit :=
  let! v := get_file q in
  do! sivfs_anon_release (f_inode v) q in
  modify (fun w => w_with_files (delete q (w_files w)) w).

(** ** The end of a task's address space (kern/inode.c, sivfs_mm_release) *)

Definition keys_from (index : Z) (t : gmap Z Z) : list Z :=
  merge_sort Z.le (filter (fun k => index <= k) (map fst (map_to_list t))).

(** The numbers that one pass of the loop finds, at most [EXIT_DELETE_BATCH];
    [None] is a return on a failed assertion. *)
Fixpoint mm_scan (t : gmap Z Z) (keys : list Z) (nr : nat) : M world (option (list Z)) :=
  match keys with
  | [] => ret (Some [])
  | ino :: keys =>
    let! d := lift (deref (t !! ino)) in
    if d =? 0 then do! complain AssertionError in ret None
    else
      let! de := get_dentry d in
      if d_inode de =? 0 then do! complain AssertionError in ret None
      else
        let! f := sivfs_inode_to_iinfo (d_inode de) in
        if f =? 0 then do! complain AssertionError in ret None
        else
          let! ii := get_iinfo f in
          if negb (ii_refcount ii =? SIVFS_UNREFERENCED) then mm_scan t keys nr
          else if (S nr =? EXIT_DELETE_BATCH)%nat then ret (Some [ino])
          else let! o := mm_scan t keys (S nr) in ret (cons ino <$> o)
  end.

(** The put of each; the result is the last index. *)
Fixpoint mm_put (i : Z) (indices : list Z) (index : Z) : M world (option Z) :=
  match indices with
  | [] => ret (Some index)
  | ino :: indices =>
    do! sivfs_put_anon_inode i ino in
    let! st := get_state i in
    match ts_anon_dentries st !! ino with
    | Some _ => do! complain AssertionError in ret None
    | None => mm_put i indices ino
    end
  end.

Fixpoint mm_loop (fuel : nat) (i index : Z) : M world bool :=
  match fuel with
  | O => lift OutOfFuel
  | S fuel =>
    let! st := get_state i in
    let! o := mm_scan (ts_anon_dentries st) (keys_from index (ts_anon_dentries st)) 0 in
    match o with
    | None => ret false
    | Some indices =>
      let! o := mm_put i indices index in
      match o with
      | None => ret false
      | Some index => if bool_decide (indices = []) then ret true else mm_loop fuel i (uadd index 1)
      end
    end
  end.

(** The pages of the address space are unmapped first, which is left out. *)
Definition sivfs_mm_release (fuel : nat) (i : Z) : M world unit :=
  let! st := get_state i in
  do! (if ts_notifier st then ret tt else complain NotRegistered) in
  let! finished := mm_loop fuel i 0 in
  if negb finished then ret tt
  else
    let! st := get_state i in
    do! set_state i (with_notifier false st) in
    sivfs_put_task_state (ts_owner st).

(** ** Operations outside a transaction (kern/sivfs_nontxnal_ops.c) *)

(** Whether the anonymous inode has pages is a question for other components:
    [has_pages] answers it. *)
Definition sivfs_check_nontxnal_op (ev : tenv) (has_pages : Z -> bool) (backing_ino i : Z) : M world bool :=
  let! d := sivfs_get_anon_inode ev i backing_ino 0 in
  let! de := get_dentry d in
  let allow := negb (has_pages (d_inode de)) in
  do! sivfs_put_anon_inode i backing_ino in
  ret allow.
End task_state.

(** ** Counters that meet the laws *)

#[export] Instance counted_puts : KernelPuts := {|
  k_iput drop_inode n :=
    let! v := get_vinode n in
    if i_count v - 1 =? 0 then
      do! drop_inode v in modify (fun w => w_with_inodes (delete n (w_inodes w)) w)
    else modify (fun w => w_with_inodes (<[n := mk_vinode (i_count v - 1) (i_private v)]> (w_inodes w)) w);
  k_dput put d :=
    let! de := get_dentry d in
    if d_count de - 1 =? 0 then
      do! modify (fun w => w_with_dentries (delete d (w_dentries w)) w) in put (d_inode de)
    else modify (fun w => w_with_dentries (<[d := mk_dentry (d_count de - 1) (d_inode de)]> (w_dentries w)) w);
  k_fput x :=
    let! m := gets w_direct in
    let! c := lift (deref (m !! x)) in
    if c - 1 =? 0 then modify (fun w => w_with_direct (delete x (w_direct w)) w)
    else modify (fun w => w_with_direct (<[x := c - 1]> (w_direct w)) w)
|}.

#[export] Instance counted_puts_laws : KernelPutsLaws.
Proof.
  split; intros *; cbn; unfold get_vinode, get_dentry, bind, gets, lift, modify; intros ->; done.
Qed.
