(* ===== verification/TaskInv.v ===== *)
(** The invariant of task states and anonymous inodes: every reference count is
    the number of references, nothing is lost and nothing dangles. *)
From S2P Require Import Prelude Types TaskState.

Definition opens (n : Z) (files : gmap Z vfile) : Z :=
  Z.of_nat (size (filter (fun x : Z * vfile => f_inode x.2 = n) files)).
Definition refct (k : Z) : Z := if k =? 0 then SIVFS_UNREFERENCED else k.

(** [obj w i ino n f d]: in the working set of state [i], file [ino] has the
    anonymous inode [n] with info [f], which directory entry [d] holds. *)
Record obj (w : world) (i ino n f d : Z) : Prop := mk_obj {
  ob_state : exists st, w_states w !! i = Some st /\ ts_anon_inodes st !! ino = Some n /\
    ts_anon_dentries st !! ino = Some d;
  ob_inode : w_inodes w !! n = Some (mk_vinode 1 f);
  ob_iinfo : w_iinfos w !! f = Some (mk_iinfo (refct (opens n (w_files w))) ino i);
  ob_dentry : w_dentries w !! d = Some (mk_dentry 1 n)
}.

Definition below {A} (next : Z) (m : gmap Z A) : Prop := forall k v, m !! k = Some v -> 0 < k < next.

Record numbered (w : world) : Prop := mk_numbered {
  n_next : 0 < w_next w;
  n_states : below (w_next w) (w_states w);
  n_inodes : below (w_next w) (w_inodes w);
  n_iinfos : below (w_next w) (w_iinfos w);
  n_dentries : below (w_next w) (w_dentries w);
  n_finfos : below (w_next w) (w_finfos w);
  n_direct : below (w_next w) (w_direct w);
  n_files : below (w_next w) (w_files w)
}.

(** [held t]: the references to the state of task [t] that calls in progress
    hold. Between calls it is [nobody]. *)
Definition nobody : Z -> Z := fun _ => 0.
Definition plus (t k : Z) (held : Z -> Z) : Z -> Z := fun t' => held t' + if decide (t' = t) then k else 0.

Definition holders (held : Z -> Z) (st : tst) : Z :=
  Z.of_nat (size (ts_anon_inodes st)) + Z.b2z (ts_notifier st) + held (ts_owner st).

(** Every inode, info, directory entry and file belongs somewhere. *)
Record objects (w : world) : Prop := mk_objects {
  o_inodes : forall n v, w_inodes w !! n = Some v -> exists i ino f d, obj w i ino n f d;
  o_iinfos : forall f ii, w_iinfos w !! f = Some ii -> exists i ino n d, obj w i ino n f d;
  o_dentries : forall d de, w_dentries w !! d = Some de -> exists i ino n f, obj w i ino n f d;
  o_files : forall q v, w_files w !! q = Some v -> exists i ino f d x, obj w i ino (f_inode v) f d /\
    w_finfos w !! f_private v = Some (mk_finfo q i x) /\ w_direct w !! x = Some 1
}.

Record wok (held : Z -> Z) (w : world) : Prop := mk_wok {
  o_num : numbered w;
  o_threads : forall t i, w_threads w !! t = Some i -> exists st, w_states w !! i = Some st /\ ts_owner st = t;
  o_states : forall i st, w_states w !! i = Some st ->
    w_threads w !! ts_owner st = Some i /\ ts_nref st = holders held st /\ 0 < ts_nref st;
  o_anon : forall i st ino n, w_states w !! i = Some st -> ts_anon_inodes st !! ino = Some n ->
    0 <= ino < 2 ^ 32 /\ opens n (w_files w) <= SIVFS_IINFO_MAX_REFCOUNT /\
    exists f d, obj w i ino n f d;
  o_dent : forall i st ino d, w_states w !! i = Some st -> ts_anon_dentries st !! ino = Some d ->
    exists n f, obj w i ino n f d;
  o_objs : objects w;
  o_finfos : forall g fi, w_finfos w !! g = Some fi ->
    exists v, w_files w !! fi_file fi = Some v /\ f_private v = g;
  o_direct : forall x c, w_direct w !! x = Some c ->
    exists g fi, w_finfos w !! g = Some fi /\ fi_direct_access_file fi = x;
  o_once : forall g g' fi fi', w_finfos w !! g = Some fi -> w_finfos w !! g' = Some fi' ->
    fi_direct_access_file fi = fi_direct_access_file fi' -> g = g'
}.

(** Where no notifier will call sivfs_mm_release, no anonymous inode is without
    an open file. *)
Definition quiet (w : world) : Prop := forall i st ino n, w_states w !! i = Some st ->
  ts_notifier st = false -> ts_anon_inodes st !! ino = Some n -> 0 < opens n (w_files w).

Definition empty_world : world := mk_world ∅ ∅ ∅ ∅ ∅ ∅ ∅ ∅ 1 [].

Lemma size_delete_at {A} (m : gmap Z A) k v : m !! k = Some v -> Z.of_nat (size m) = Z.of_nat (size (delete k m)) + 1.
Proof.
  intros H. rewrite <- (insert_id m k v H) at 1. rewrite <- insert_delete_eq, map_size_insert_None; [lia|].
  apply lookup_delete_eq.
Qed.

Lemma opens_nonneg n fs : 0 <= opens n fs.
Proof. unfold opens. lia. Qed.

Lemma opens_insert n fs q v : fs !! q = None ->
  opens n (<[q := v]> fs) = opens n fs + if decide (f_inode v = n) then 1 else 0.
Proof.
  intros Hq. unfold opens. destruct (decide (f_inode v = n)) as [E|E].
  - rewrite map_filter_insert_True by done. rewrite map_size_insert_None; [lia|].
    apply map_lookup_filter_None. by left.
  - rewrite map_filter_insert_False by done. rewrite delete_id by done. lia.
Qed.

Lemma opens_delete n fs q v : fs !! q = Some v ->
  opens n (delete q fs) = opens n fs - if decide (f_inode v = n) then 1 else 0.
Proof.
  intros Hq. rewrite <- (insert_id fs q v Hq) at 2. rewrite <- insert_delete_eq, opens_insert by apply lookup_delete_eq. lia.
Qed.

(** *** Tuples are determined by any of their objects *)

Lemma obj_inj w i ino n f d i' ino' n' f' d' : obj w i ino n f d -> obj w i' ino' n' f' d' ->
  n = n' \/ f = f' \/ d = d' \/ (i = i' /\ ino = ino') -> (i, ino, n, f, d) = (i', ino', n', f', d').
Proof.
  intros [(st & Hs & Hn & Hd) Hi Hii Hde] [(st' & Hs' & Hn' & Hd') Hi' Hii' Hde'] Hor.
  assert (Hf : f = f' -> (i, ino, n, f, d) = (i', ino', n', f', d')).
  { intros <-. rewrite Hii in Hii'. simplify_eq. congruence. }
  assert (Hnn : n = n' -> (i, ino, n, f, d) = (i', ino', n', f', d')).
  { intros <-. apply Hf. congruence. }
  destruct Hor as [?|[?|[<-|[<- <-]]]]; auto; apply Hnn; congruence.
Qed.

Lemma obj_opens w w' i ino n f d : w_states w' = w_states w -> w_inodes w' = w_inodes w ->
  w_iinfos w' = w_iinfos w -> w_dentries w' = w_dentries w ->
  opens n (w_files w') = opens n (w_files w) -> obj w i ino n f d -> obj w' i ino n f d.
Proof. intros E1 E2 E3 E4 E5 [H1 H2 H3 H4]. split; by rewrite ?E1, ?E2, ?E3, ?E4, ?E5. Qed.

Lemma objects_mono w w' : (forall i ino n f d, obj w i ino n f d -> obj w' i ino n f d) ->
  w_inodes w' = w_inodes w -> w_iinfos w' = w_iinfos w -> w_dentries w' = w_dentries w ->
  w_files w' = w_files w -> w_finfos w' = w_finfos w -> w_direct w' = w_direct w -> objects w -> objects w'.
Proof.
  intros Hob E1 E2 E3 E4 E5 E6 []. split; rewrite ?E1, ?E2, ?E3, ?E4, ?E5, ?E6.
  - intros n v Hn. destruct (o_inodes0 _ _ Hn) as (j & ino & f & d & ?). eauto 10.
  - intros f v Hf. destruct (o_iinfos0 _ _ Hf) as (j & ino & n & d & ?). eauto 10.
  - intros d v Hd. destruct (o_dentries0 _ _ Hd) as (j & ino & n & f & ?). eauto 10.
  - intros q v Hq. destruct (o_files0 _ _ Hq) as (j & ino & f & d & x & ? & ?). eauto 10.
Qed.

(** *** States *)

(** A state whose trees stay the same. *)
Section set_state.
Context (w : world) (i : Z) (st st' : tst).
Hypothesis Hi : w_states w !! i = Some st.
Hypothesis Hino : ts_anon_inodes st' = ts_anon_inodes st.
Hypothesis Hden : ts_anon_dentries st' = ts_anon_dentries st.
Let w' := w_with_states (<[i := st']> (w_states w)) w.

Lemma obj_set_state j ino n f d : obj w j ino n f d -> obj w' j ino n f d.
Proof.
  intros [(sj & Hj & Hn & Hd) ? ? ?]. split; try done. cbn.
  destruct (decide (j = i)) as [->|].
  - rewrite lookup_insert_eq. exists st'. simplify_eq. by rewrite Hino, Hden.
  - rewrite lookup_insert_ne by done. eauto.
Qed.

Lemma wok_set_state held held' : wok held w -> ts_owner st' = ts_owner st ->
  ts_nref st' = holders held' st' -> 0 < ts_nref st' ->
  (forall t, t <> ts_owner st -> held' t = held t) ->
  wok held' w'.
Proof.
  intros [[]] Ho Hnref Hpos Hheld.
  assert (Hst : forall j sj, w_states w' !! j = Some sj -> exists s0, w_states w !! j = Some s0 /\
     ts_owner sj = ts_owner s0 /\ ts_anon_inodes sj = ts_anon_inodes s0 /\ ts_anon_dentries sj = ts_anon_dentries s0 /\
     (j = i /\ sj = st' \/ j <> i /\ sj = s0)).
  { intros j sj Hj. cbn in Hj. apply lookup_insert_Some in Hj as [[<- <-]|[Hne Hj]]; eauto 10. }
  split; try done.
  - split; try done. intros k v Hk. destruct (Hst _ _ Hk) as (s0 & Hs & _). eauto.
  - intros t j Hj. cbn in *. destruct (o_threads0 _ _ Hj) as (sj & Hsj & <-).
    destruct (decide (j = i)) as [->|]; [rewrite lookup_insert_eq; exists st'; simplify_eq; done|].
    rewrite lookup_insert_ne by done. eauto.
  - intros j sj Hj. destruct (Hst _ _ Hj) as (s0 & Hs & Eo & _ & _ & Hc). rewrite Eo.
    destruct (o_states0 _ _ Hs) as (Ht & Hr & Hp). split; [done|].
    destruct Hc as [[-> ->]|[Hne ->]]; [done|]. split; [|done]. rewrite Hr. unfold holders. f_equal.
    rewrite Hheld; [done|]. intros E. apply Hne.
    destruct (o_states0 _ _ Hi) as (Ht' & _). rewrite E in Ht. by simplify_eq.
  - intros j sj ino n Hj Hn. destruct (Hst _ _ Hj) as (s0 & Hs & _ & Ei & _ & Hc). rewrite Ei in Hn.
    destruct (o_anon0 _ _ _ _ Hs Hn) as (Hr & Hm & f & d & Hob).
    split; [done|]. split; [done|]. exists f, d. by apply obj_set_state.
  - intros j sj ino d Hj Hd. destruct (Hst _ _ Hj) as (s0 & Hs & _ & _ & Ed & _). rewrite Ed in Hd.
    destruct (o_dent0 _ _ _ _ Hs Hd) as (n & f & Hob). exists n, f. by apply obj_set_state.
  - by apply (objects_mono w); [eauto using obj_set_state|..].
Qed.
End set_state.

Definition w_with_next (k : Z) (w : world) : world :=
  mk_world (w_threads w) (w_states w) (w_inodes w) (w_iinfos w) (w_dentries w) (w_finfos w) (w_direct w) (w_files w) k (w_log w).

Lemma below_le {A} k k' (m : gmap Z A) : below k m -> k <= k' -> below k' m.
Proof. intros H ? x v Hx. specialize (H x v Hx). lia. Qed.
Lemma below_insert {A} k x (v : A) (m : gmap Z A) : below k m -> 0 < x < k -> below k (<[x := v]> m).
Proof. intros H ? y v' Hy. apply lookup_insert_Some in Hy as [[<- _]|[_ Hy]]; eauto. Qed.
Lemma below_delete {A} k x (m : gmap Z A) : below k m -> below k (delete x m).
Proof. intros H y v' Hy. apply lookup_delete_Some in Hy as [_ Hy]. eauto. Qed.
Lemma below_fresh {A} k x (m : gmap Z A) : below k m -> k <= x -> m !! x = None.
Proof. intros H ?. destruct (m !! x) as [v|] eqn:E; [|done]. specialize (H x v E). lia. Qed.

Lemma numbered_next k w : numbered w -> w_next w <= k -> numbered (w_with_next k w).
Proof. intros [] ?. split; cbn; eauto using below_le; lia. Qed.

Lemma wok_next held k w : wok held w -> w_next w <= k -> wok held (w_with_next k w).
Proof.
  intros [] ?. split; eauto using numbered_next; cbn.
  - intros i st ino n Hs Hn. destruct (o_anon0 _ _ _ _ Hs Hn) as (? & ? & f & d & []). do 2 (split; [done|]); by exists f, d.
  - intros i st ino d Hs Hd. destruct (o_dent0 _ _ _ _ Hs Hd) as (n & f & []). by exists n, f.
  - apply (objects_mono w); [|done..]. intros i ino n f d []. done.
Qed.

(** A task gets a state, and a state without anonymous inodes goes. *)
Definition add_state (t i : Z) (w : world) : world :=
  mk_world (<[t := i]> (w_threads w)) (<[i := mk_tst 1 t false ∅ ∅]> (w_states w)) (w_inodes w) (w_iinfos w)
    (w_dentries w) (w_finfos w) (w_direct w) (w_files w) (w_next w) (w_log w).
Definition drop_state (t i : Z) (w : world) : world :=
  mk_world (delete t (w_threads w)) (delete i (w_states w)) (w_inodes w) (w_iinfos w)
    (w_dentries w) (w_finfos w) (w_direct w) (w_files w) (w_next w) (w_log w).

Lemma obj_states w w' i ino n f d : (forall st, w_states w !! i = Some st -> w_states w' !! i = Some st) ->
  w_inodes w' = w_inodes w -> w_iinfos w' = w_iinfos w -> w_dentries w' = w_dentries w ->
  w_files w' = w_files w -> obj w i ino n f d -> obj w' i ino n f d.
Proof.
  intros Hs E1 E2 E3 E4 [(st & Hst & ?) H2 H3 H4]. split; rewrite ?E1, ?E2, ?E3, ?E4; try done. eauto.
Qed.

Lemma wok_add_state t i held w : wok held w -> held t = 0 -> w_threads w !! t = None ->
  w_states w !! i = None -> 0 < i < w_next w -> wok (plus t 1 held) (add_state t i w).
Proof.
  intros [[]] Hh Ht Hi Hlt.
  assert (Hob : forall j ino n f d, obj w j ino n f d -> obj (add_state t i w) j ino n f d).
  { intros * Hob. apply (obj_states w); [|done..]. intros st Hst. cbn.
    rewrite lookup_insert_ne; [done|]. intros <-. congruence. }
  assert (Hst : forall j st, w_states (add_state t i w) !! j = Some st ->
     j = i /\ st = mk_tst 1 t false ∅ ∅ \/ j <> i /\ w_states w !! j = Some st).
  { intros j st Hj. cbn in Hj. apply lookup_insert_Some in Hj as [[<- <-]|[Hne Hj]]; auto. }
  split; try done.
  - split; try done. cbn. by apply below_insert.
  - intros t' j Hj. cbn in *. apply lookup_insert_Some in Hj as [[<- <-]|[Hne Hj]].
    + rewrite lookup_insert_eq. eauto.
    + destruct (o_threads0 _ _ Hj) as (st & Hs & Ho). exists st.
      rewrite lookup_insert_ne; [done|]. intros <-. congruence.
  - intros j st Hj. cbn. destruct (Hst _ _ Hj) as [[-> ->]|[Hne Hs]]; cbn.
    + rewrite lookup_insert_eq. unfold holders, plus. cbn. rewrite decide_True by done. rewrite Hh. done.
    + destruct (o_states0 _ _ Hs) as (Ho & Hr & Hp). assert (ts_owner st <> t) by (intros <-; congruence).
      rewrite lookup_insert_ne by done. unfold holders, plus in *. rewrite decide_False by done. rewrite Z.add_0_r. done.
  - intros j st ino n Hj Hn. destruct (Hst _ _ Hj) as [[-> ->]|[Hne Hs]]; [done|].
    destruct (o_anon0 _ _ _ _ Hs Hn) as (? & ? & f & d & ?). do 2 (split; [done|]); eauto.
  - intros j st ino d Hj Hd. destruct (Hst _ _ Hj) as [[-> ->]|[Hne Hs]]; [done|].
    destruct (o_dent0 _ _ _ _ Hs Hd) as (n & f & ?). eauto.
  - by apply (objects_mono w).
Qed.

Lemma no_anon_no_dent held w i st : wok held w -> w_states w !! i = Some st ->
  ts_anon_inodes st = ∅ -> ts_anon_dentries st = ∅.
Proof.
  intros Hw Hi He. apply map_eq. intros ino. rewrite lookup_empty.
  destruct (ts_anon_dentries st !! ino) as [d|] eqn:E; [|done].
  destruct (o_dent _ _ Hw _ _ _ _ Hi E) as (n & f & [(st' & Hi' & Hn & _) _ _ _]). simplify_eq.
  by rewrite He in Hn.
Qed.

Lemma wok_drop_state t i st held held' w : wok held w -> w_states w !! i = Some st -> ts_owner st = t ->
  ts_anon_inodes st = ∅ -> (forall t', t' <> t -> held' t' = held t') -> wok held' (drop_state t i w).
Proof.
  intros Hw Hi <- He Hh. assert (Hd := no_anon_no_dent _ _ _ _ Hw Hi He). destruct Hw as [[]].
  assert (Hob : forall j ino n f d, obj w j ino n f d -> obj (drop_state (ts_owner st) i w) j ino n f d).
  { intros * Hob. apply (obj_states w); [|done..]. intros st' Hst. cbn.
    rewrite lookup_delete_ne; [done|]. intros <-. destruct Hob as [(s & Hs & Hn & _) _ _ _].
    assert (s = st) as -> by congruence. by rewrite He in Hn. }
  assert (Hst : forall j sj, w_states (drop_state (ts_owner st) i w) !! j = Some sj -> j <> i /\ w_states w !! j = Some sj).
  { intros j sj Hj. cbn in Hj. apply lookup_delete_Some in Hj as [Hne Hj]. auto. }
  split; try done.
  - split; try done. cbn. by apply below_delete.
  - intros t' j Hj. cbn in *. apply lookup_delete_Some in Hj as [Hne Hj].
    destruct (o_threads0 _ _ Hj) as (sj & Hs & Ho). exists sj.
    rewrite lookup_delete_ne; [done|]. intros <-. congruence.
  - intros j sj Hj. destruct (Hst _ _ Hj) as [Hne Hs]. destruct (o_states0 _ _ Hs) as (Ho & Hr & Hp).
    assert (ts_owner sj <> ts_owner st).
    { intros E. destruct (o_states0 _ _ Hi) as (Ho' & _). rewrite E in Ho. congruence. }
    cbn. rewrite lookup_delete_ne by done. unfold holders in *. rewrite Hh by done. done.
  - intros j sj ino n Hj Hn. destruct (Hst _ _ Hj) as [Hne Hs].
    destruct (o_anon0 _ _ _ _ Hs Hn) as (? & ? & f & d & ?). do 2 (split; [done|]); eauto.
  - intros j sj ino d Hj Hd'. destruct (Hst _ _ Hj) as [Hne Hs].
    destruct (o_dent0 _ _ _ _ Hs Hd') as (n & f & ?). eauto.
  - by apply (objects_mono w).
Qed.

Lemma wok_ext held held' w : (forall t, held t = held' t) -> wok held w -> wok held' w.
Proof.
  intros E []. split; try done. intros i st Hs. destruct (o_states0 _ _ Hs) as (? & Hr & ?).
  split; [done|]. split; [|done]. rewrite Hr. unfold holders. by rewrite E.
Qed.
Lemma plus_plus t k k' held t' : plus t k (plus t k' held) t' = plus t (k + k') held t'.
Proof. unfold plus. case_decide; lia. Qed.
Lemma plus_0 t held t' : plus t 0 held t' = held t'.
Proof. unfold plus. case_decide; lia. Qed.

(** A reference that is held becomes an anonymous inode, and back. *)
Definition grow (ino n d : Z) (st : tst) : tst :=
  mk_tst (ts_nref st) (ts_owner st) (ts_notifier st) (<[ino := n]> (ts_anon_inodes st)) (<[ino := d]> (ts_anon_dentries st)).
Definition shrink (ino : Z) (st : tst) : tst :=
  mk_tst (ts_nref st) (ts_owner st) (ts_notifier st) (delete ino (ts_anon_inodes st)) (delete ino (ts_anon_dentries st)).
Definition add_anon (i : Z) (st : tst) (ino n f d : Z) (w : world) : world :=
  mk_world (w_threads w) (<[i := grow ino n d st]> (w_states w)) (<[n := mk_vinode 1 f]> (w_inodes w))
    (<[f := mk_iinfo SIVFS_UNREFERENCED ino i]> (w_iinfos w)) (<[d := mk_dentry 1 n]> (w_dentries w))
    (w_finfos w) (w_direct w) (w_files w) (w_next w) (w_log w).
Definition drop_anon (i : Z) (st : tst) (ino n f d : Z) (w : world) : world :=
  mk_world (w_threads w) (<[i := shrink ino st]> (w_states w)) (delete n (w_inodes w))
    (delete f (w_iinfos w)) (delete d (w_dentries w))
    (w_finfos w) (w_direct w) (w_files w) (w_next w) (w_log w).

Lemma opens_unopened held w n : wok held w -> w_inodes w !! n = None -> opens n (w_files w) = 0.
Proof.
  intros Hw Hn. unfold opens. cut (filter (fun x : Z * vfile => f_inode x.2 = n) (w_files w) = ∅).
  { intros ->. by rewrite map_size_empty. }
  apply map_empty. intros q. apply map_lookup_filter_None. right. intros v Hq E. cbn in E.
  destruct (o_files _ (o_objs _ _ Hw) _ _ Hq) as (i & ino & f & d & x & [_ Hi _ _] & _). congruence.
Qed.

Section add_anon.
Context (held : Z -> Z) (w : world) (i : Z) (st : tst) (ino n f d : Z).
Hypothesis Hw : wok (plus (ts_owner st) 1 held) w.
Hypothesis Hi : w_states w !! i = Some st.
Hypothesis Hino : 0 <= ino < 2 ^ 32.
Hypothesis Hnone : ts_anon_inodes st !! ino = None.
Hypothesis Hfresh : w_inodes w !! n = None /\ w_iinfos w !! f = None /\ w_dentries w !! d = None.
Hypothesis Hlt : 0 < n < w_next w /\ 0 < f < w_next w /\ 0 < d < w_next w.
Let w' := add_anon i st ino n f d w.

Lemma obj_added : obj w' i ino n f d.
Proof using Hw Hfresh.
  split; cbn.
  - exists (grow ino n d st). cbn. by rewrite !lookup_insert_eq.
  - by rewrite lookup_insert_eq.
  - rewrite lookup_insert_eq, (opens_unopened _ _ _ Hw) by apply Hfresh. done.
  - by rewrite lookup_insert_eq.
Qed.

Lemma obj_kept j jno m g e : obj w j jno m g e -> obj w' j jno m g e.
Proof using Hi Hnone Hfresh.
  clear Hw Hino Hlt.
  intros [(sj & Hj & Hn & Hd) Hm Hg He]. destruct Hfresh as (F1 & F2 & F3).
  split; cbn; try (rewrite lookup_insert_ne; [done|intros ->; congruence]).
  destruct (decide (j = i)) as [->|].
  - rewrite lookup_insert_eq. exists (grow ino n d st). simplify_eq. cbn.
    rewrite !lookup_insert_ne by (intros ->; congruence). done.
  - rewrite lookup_insert_ne by done. eauto.
Qed.

Lemma wok_add_anon : wok held w'.
Proof.
  assert (Hw' := Hw). destruct Hw' as [[] ? ? ? ? [] ? ? ?]. destruct Hfresh as (F1 & F2 & F3).
  assert (Hst : forall j sj, w_states w' !! j = Some sj ->
    j = i /\ sj = grow ino n d st \/ j <> i /\ w_states w !! j = Some sj).
  { intros j sj Hj. cbn in Hj. apply lookup_insert_Some in Hj as [[<- <-]|[Hne Hj]]; auto. }
  assert (Hob := obj_kept). assert (Hnew := obj_added).
  assert (Hop : forall m, opens m (w_files w') = opens m (w_files w)) by done.
  split.
  - destruct Hlt as (? & ? & ?). split; cbn; try done; apply below_insert; eauto.
  - intros t j Hj. cbn in *. destruct (o_threads0 _ _ Hj) as (sj & Hsj & <-).
    destruct (decide (j = i)) as [->|]; [rewrite lookup_insert_eq; eexists; split; [done|]; by simplify_eq|].
    rewrite lookup_insert_ne by done. eauto.
  - intros j sj Hj. cbn. destruct (Hst _ _ Hj) as [[-> ->]|[Hne Hs]].
    + destruct (o_states0 _ _ Hi) as (Ht & Hr & Hp). cbn. do 2 (split; try done). rewrite Hr.
      unfold holders, plus. cbn. rewrite decide_True by done. rewrite map_size_insert_None by done. lia.
    + destruct (o_states0 _ _ Hs) as (Ht & Hr & Hp). do 2 (split; try done). rewrite Hr. unfold holders, plus.
      rewrite decide_False; [lia|]. intros E. destruct (o_states0 _ _ Hi) as (Ht' & _). rewrite E in Ht. congruence.
  - intros j sj jno m Hj Hm. rewrite Hop. destruct (Hst _ _ Hj) as [[-> ->]|[Hne Hs]].
    + cbn in Hm. apply lookup_insert_Some in Hm as [[<- <-]|[Hne Hm]].
      * rewrite (opens_unopened _ _ _ Hw) by done. do 2 (split; [done|]). eauto.
      * destruct (o_anon0 _ _ _ _ Hi Hm) as (? & ? & g & e & ?). do 2 (split; [done|]). eauto.
    + destruct (o_anon0 _ _ _ _ Hs Hm) as (? & ? & g & e & ?). do 2 (split; [done|]). eauto.
  - intros j sj jno e Hj He. destruct (Hst _ _ Hj) as [[-> ->]|[Hne Hs]].
    + cbn in He. apply lookup_insert_Some in He as [[<- <-]|[Hne He]]; [eauto|].
      destruct (o_dent0 _ _ _ _ Hi He) as (m & g & ?). eauto.
    + destruct (o_dent0 _ _ _ _ Hs He) as (m & g & ?). eauto.
  - split; cbn.
    + intros m v Hm. apply lookup_insert_Some in Hm as [[<- <-]|[Hne Hm]]; [eauto 10|].
      destruct (o_inodes0 _ _ Hm) as (j & jno & g & e & ?). eauto 10.
    + intros g v Hg. apply lookup_insert_Some in Hg as [[<- <-]|[Hne Hg]]; [eauto 10|].
      destruct (o_iinfos0 _ _ Hg) as (j & jno & m & e & ?). eauto 10.
    + intros e v He. apply lookup_insert_Some in He as [[<- <-]|[Hne He]]; [eauto 10|].
      destruct (o_dentries0 _ _ He) as (j & jno & m & g & ?). eauto 10.
    + intros q v Hq. destruct (o_files0 _ _ Hq) as (j & jno & g & e & x & ? & ?). eauto 10.
  - done.
  - done.
  - done.
Qed.
End add_anon.

Section drop_anon.
Context (held : Z -> Z) (w : world) (i : Z) (st : tst) (ino n f d : Z).
Hypothesis Hw : wok held w.
Hypothesis Hi : w_states w !! i = Some st.
Hypothesis Hobj : obj w i ino n f d.
Hypothesis Hopens : opens n (w_files w) = 0.
Let w' := drop_anon i st ino n f d w.

Lemma obj_rest j jno m g e : obj w j jno m g e -> (j, jno) <> (i, ino) -> obj w' j jno m g e.
Proof.
  intros Hob Hne.
  assert (Hd : m <> n /\ g <> f /\ e <> d).
  { split_and!; intros ->; apply Hne; assert (E := obj_inj _ _ _ _ _ _ _ _ _ _ _ Hob Hobj ltac:(auto)); congruence. }
  destruct Hob as [(sj & Hj & Hn & Hde) Hm Hg He]. destruct Hd as (? & ? & ?).
  split; cbn; try (rewrite lookup_delete_ne; done).
  destruct (decide (j = i)) as [->|].
  - rewrite lookup_insert_eq. eexists; split; [done|]. assert (sj = st) as -> by congruence. cbn.
    rewrite !lookup_delete_ne by (intros ->; done). done.
  - rewrite lookup_insert_ne by done. eauto.
Qed.

Lemma wok_drop_anon : wok (plus (ts_owner st) 1 held) w'.
Proof.
  assert (Hw' := Hw). destruct Hw' as [[] ? ? ? ? [] ? ? ?].
  assert (Hst : forall j sj, w_states w' !! j = Some sj ->
    j = i /\ sj = shrink ino st \/ j <> i /\ w_states w !! j = Some sj).
  { intros j sj Hj. cbn in Hj. apply lookup_insert_Some in Hj as [[<- <-]|[Hne Hj]]; auto. }
  assert (Hrest := obj_rest). assert (Ho := Hobj). destruct Ho as [(st0 & Hs0 & Hn0 & Hd0) _ _ _].
  assert (st0 = st) as -> by congruence.
  assert (Hop : forall m, opens m (w_files w') = opens m (w_files w)) by done.
  split.
  - split; cbn; try done; try apply below_delete; try done. apply below_insert; eauto.
  - intros t j Hj. cbn in *. destruct (o_threads0 _ _ Hj) as (sj & Hsj & <-).
    destruct (decide (j = i)) as [->|]; [rewrite lookup_insert_eq; eexists; split; [done|]; by simplify_eq|].
    rewrite lookup_insert_ne by done. eauto.
  - intros j sj Hj. cbn. destruct (Hst _ _ Hj) as [[-> ->]|[Hne Hs]].
    + destruct (o_states0 _ _ Hi) as (Ht & Hr & Hp). cbn. do 2 (split; try done). rewrite Hr.
      unfold holders, plus. cbn. rewrite decide_True by done.
      assert (E := size_delete_at _ _ _ Hn0). lia.
    + destruct (o_states0 _ _ Hs) as (Ht & Hr & Hp). do 2 (split; try done). rewrite Hr. unfold holders, plus.
      rewrite decide_False; [lia|]. intros E. destruct (o_states0 _ _ Hi) as (Ht' & _). rewrite E in Ht. congruence.
  - intros j sj jno m Hj Hm. rewrite Hop. destruct (Hst _ _ Hj) as [[-> ->]|[Hne Hs]].
    + cbn in Hm. apply lookup_delete_Some in Hm as [Hne Hm].
      destruct (o_anon0 _ _ _ _ Hi Hm) as (? & ? & g & e & ?). do 2 (split; [done|]).
      exists g, e. apply Hrest; [done|congruence].
    + destruct (o_anon0 _ _ _ _ Hs Hm) as (? & ? & g & e & ?). do 2 (split; [done|]).
      exists g, e. apply Hrest; [done|congruence].
  - intros j sj jno e Hj He. destruct (Hst _ _ Hj) as [[-> ->]|[Hne Hs]].
    + cbn in He. apply lookup_delete_Some in He as [Hne He].
      destruct (o_dent0 _ _ _ _ Hi He) as (m & g & ?). exists m, g. apply Hrest; [done|congruence].
    + destruct (o_dent0 _ _ _ _ Hs He) as (m & g & ?). exists m, g. apply Hrest; [done|congruence].
  - split; cbn.
    + intros m v Hm. apply lookup_delete_Some in Hm as [Hne Hm].
      destruct (o_inodes0 _ _ Hm) as (j & jno & g & e & Hob). exists j, jno, g, e. apply Hrest; [done|].
      intros [= -> ->]. assert (E := obj_inj _ _ _ _ _ _ _ _ _ _ _ Hob Hobj ltac:(auto)). congruence.
    + intros g v Hg. apply lookup_delete_Some in Hg as [Hne Hg].
      destruct (o_iinfos0 _ _ Hg) as (j & jno & m & e & Hob). exists j, jno, m, e. apply Hrest; [done|].
      intros [= -> ->]. assert (E := obj_inj _ _ _ _ _ _ _ _ _ _ _ Hob Hobj ltac:(auto)). congruence.
    + intros e v He. apply lookup_delete_Some in He as [Hne He].
      destruct (o_dentries0 _ _ He) as (j & jno & m & g & Hob). exists j, jno, m, g. apply Hrest; [done|].
      intros [= -> ->]. assert (E := obj_inj _ _ _ _ _ _ _ _ _ _ _ Hob Hobj ltac:(auto)). congruence.
    + intros q v Hq. destruct (o_files0 _ _ Hq) as (j & jno & g & e & x & Hob & ?). exists j, jno, g, e, x.
      split; [|done]. apply Hrest; [done|]. intros [= -> ->].
      assert (E := obj_inj _ _ _ _ _ _ _ _ _ _ _ Hob Hobj ltac:(auto)).
      assert (f_inode v = n) by congruence. revert Hopens. rewrite <- (insert_id (w_files w) q v Hq), <- insert_delete_eq.
      rewrite opens_insert by apply lookup_delete_eq. rewrite decide_True by done.
      assert (H' := opens_nonneg n (delete q (w_files w))). lia.
  - done.
  - done.
  - done.
Qed.
End drop_anon.

(** A file is opened, and is closed. *)
Definition add_file (i ino n f q g x : Z) (w : world) : world :=
  mk_world (w_threads w) (w_states w) (w_inodes w)
    (<[f := mk_iinfo (opens n (w_files w) + 1) ino i]> (w_iinfos w)) (w_dentries w)
    (<[g := mk_finfo q i x]> (w_finfos w)) (<[x := 1]> (w_direct w)) (<[q := mk_vfile n g]> (w_files w))
    (w_next w) (w_log w).
Definition drop_file (i ino n f q g x : Z) (w : world) : world :=
  mk_world (w_threads w) (w_states w) (w_inodes w)
    (<[f := mk_iinfo (refct (opens n (w_files w) - 1)) ino i]> (w_iinfos w)) (w_dentries w)
    (delete g (w_finfos w)) (delete x (w_direct w)) (delete q (w_files w)) (w_next w) (w_log w).

(** The other tuples keep the count of their files. *)
Lemma obj_recount w w' i ino n f d k : obj w i ino n f d ->
  w_states w' = w_states w -> w_inodes w' = w_inodes w -> w_dentries w' = w_dentries w ->
  w_iinfos w' = <[f := mk_iinfo (refct k) ino i]> (w_iinfos w) -> opens n (w_files w') = k ->
  (forall m, n <> m -> opens m (w_files w') = opens m (w_files w)) ->
  forall j jno m g e, obj w j jno m g e -> obj w' j jno m g e.
Proof.
  intros Hob E1 E2 E3 E4 E5 E6 j jno m g e Hob'.
  destruct (decide (n = m)) as [<-|Hne].
  - assert (E := obj_inj _ _ _ _ _ _ _ _ _ _ _ Hob Hob' ltac:(auto)). injection E as <- <- <- <-.
    destruct Hob as [? ? ? ?]. split; rewrite ?E1, ?E2, ?E3, ?E4; try done. by rewrite lookup_insert_eq, E5.
  - assert (g <> f).
    { intros ->. apply Hne. assert (E := obj_inj _ _ _ _ _ _ _ _ _ _ _ Hob Hob' ltac:(auto)). congruence. }
    destruct Hob' as [? ? ? ?]. split; rewrite ?E1, ?E2, ?E3, ?E4; try done.
    by rewrite lookup_insert_ne, E6.
Qed.

Lemma obj_file_live held w q v : wok held w -> w_files w !! q = Some v ->
  exists i ino f d x, obj w i ino (f_inode v) f d /\
    w_finfos w !! f_private v = Some (mk_finfo q i x) /\ w_direct w !! x = Some 1.
Proof. intros Hw. apply (o_files _ (o_objs _ _ Hw)). Qed.

Lemma opens_pos q v fs : fs !! q = Some v -> 1 <= opens (f_inode v) fs.
Proof.
  intros Hq. assert (H := opens_delete (f_inode v) fs q v Hq). rewrite decide_True in H by done.
  assert (H' := opens_nonneg (f_inode v) (delete q fs)). lia.
Qed.

(** Objects that did not change, for either operation. *)
Lemma anon_recount w w' : w_states w' = w_states w ->
  (forall j jno m g e, obj w j jno m g e -> obj w' j jno m g e) ->
  (forall m, opens m (w_files w) <= SIVFS_IINFO_MAX_REFCOUNT -> opens m (w_files w') <= SIVFS_IINFO_MAX_REFCOUNT) ->
  forall held, wok held w ->
  (forall i st ino n, w_states w' !! i = Some st -> ts_anon_inodes st !! ino = Some n ->
    0 <= ino < 2 ^ 32 /\ opens n (w_files w') <= SIVFS_IINFO_MAX_REFCOUNT /\ exists f d, obj w' i ino n f d) /\
  (forall i st ino d, w_states w' !! i = Some st -> ts_anon_dentries st !! ino = Some d ->
    exists n f, obj w' i ino n f d).
Proof.
  intros E Hob Hm held Hw. rewrite E. split.
  - intros i st ino n Hs Hn. destruct (o_anon _ _ Hw _ _ _ _ Hs Hn) as (? & ? & f & d & ?).
    split; [done|]. split; [auto|]. eauto.
  - intros i st ino d Hs Hd. destruct (o_dent _ _ Hw _ _ _ _ Hs Hd) as (n & f & ?). eauto.
Qed.

Lemma finfo_direct held w g fi : wok held w -> w_finfos w !! g = Some fi ->
  w_direct w !! fi_direct_access_file fi = Some 1.
Proof.
  intros Hw Hg. destruct (o_finfos _ _ Hw _ _ Hg) as (v & Hv & <-).
  destruct (obj_file_live _ _ _ _ Hw Hv) as (i & ino & f & d & x & _ & Hf & Hx). assert (fi = mk_finfo (fi_file fi) i x) as -> by congruence. done.
Qed.

Lemma wok_add_file held w i ino n f d q g x : wok held w -> obj w i ino n f d ->
  opens n (w_files w) < SIVFS_IINFO_MAX_REFCOUNT ->
  w_files w !! q = None -> w_finfos w !! g = None -> w_direct w !! x = None ->
  0 < q < w_next w -> 0 < g < w_next w -> 0 < x < w_next w ->
  wok held (add_file i ino n f q g x w).
Proof.
  intros Hw Hob Hmax Hq Hg Hx Lq Lg Lx. set (w' := add_file i ino n f q g x w).
  assert (Hn0 := opens_nonneg n (w_files w)).
  assert (Hop : forall m, opens m (w_files w') = opens m (w_files w) + if decide (n = m) then 1 else 0).
  { intros m. cbn. by rewrite opens_insert. }
  assert (Hkeep : forall j jno m h e, obj w j jno m h e -> obj w' j jno m h e).
  { intros *. apply (obj_recount w w' i ino n f d (opens n (w_files w) + 1)); try done.
    - cbn. unfold refct. rewrite (proj2 (Z.eqb_neq _ _)); [done|lia].
    - rewrite Hop, decide_True; done.
    - intros m' Hm'. rewrite Hop, decide_False by done. lia. }
  destruct (anon_recount w w' eq_refl Hkeep) with (held := held) as [Ha Hd]; [|done|].
  { intros m Hm. rewrite Hop. case_decide; subst; lia. }
  assert (Hfd := fun h fi => finfo_direct held w h fi Hw). destruct Hob as [Hst Hin Hii Hde].
  destruct Hw as [[] ? ? ? ? [] ? ? ?]. split; try done.
  - split; cbn; try done; try (apply below_insert; done). apply below_insert; eauto.
  - split; cbn.
    + intros m v Hm. destruct (o_inodes0 _ _ Hm) as (? & ? & ? & ? & ?). eauto 10.
    + intros h v Hh. apply lookup_insert_Some in Hh as [[<- <-]|[Hne Hh]].
      * destruct (o_iinfos0 _ _ Hii) as (? & ? & ? & ? & ?). eauto 10.
      * destruct (o_iinfos0 _ _ Hh) as (? & ? & ? & ? & ?). eauto 10.
    + intros e v He. destruct (o_dentries0 _ _ He) as (? & ? & ? & ? & ?). eauto 10.
    + intros q' v Hq'. apply lookup_insert_Some in Hq' as [[<- <-]|[Hne Hq']]; cbn.
      * exists i, ino, f, d, x. rewrite !lookup_insert_eq. split; [|done]. apply Hkeep. done.
      * destruct (o_files0 _ _ Hq') as (j & jno & h & e & y & ? & Hy & Hy'). exists j, jno, h, e, y.
        rewrite !lookup_insert_ne by (intros ?; congruence). auto.
  - intros h fi Hh. cbn in *. apply lookup_insert_Some in Hh as [[<- <-]|[Hne Hh]]; cbn.
    + rewrite lookup_insert_eq. eauto.
    + destruct (o_finfos0 _ _ Hh) as (v & Hv & <-). exists v. rewrite lookup_insert_ne by (intros ->; congruence). done.
  - intros y c Hy. cbn in *. apply lookup_insert_Some in Hy as [[<- <-]|[Hne Hy]].
    + exists g. rewrite lookup_insert_eq. eauto.
    + destruct (o_direct0 _ _ Hy) as (h & fi & Hh & <-). exists h, fi. rewrite lookup_insert_ne by (intros ->; congruence). done.
  - assert (Hxd : forall h fi, w_finfos w !! h = Some fi -> fi_direct_access_file fi <> x).
    { intros h fi Hh E. rewrite <- E in Hx. by rewrite (Hfd _ _ Hh) in Hx. }
    intros h h' fi fi' Hh Hh'. cbn in *.
    apply lookup_insert_Some in Hh as [[<- <-]|[Hne Hh]]; apply lookup_insert_Some in Hh' as [[<- <-]|[Hne' Hh']]; cbn.
    + done.
    + intros E. by destruct (Hxd _ _ Hh').
    + intros E. by destruct (Hxd _ _ Hh).
    + eauto.
Qed.

Lemma wok_drop_file held w i ino n f d q g x : wok held w -> obj w i ino n f d ->
  w_files w !! q = Some (mk_vfile n g) -> w_finfos w !! g = Some (mk_finfo q i x) ->
  wok held (drop_file i ino n f q g x w).
Proof.
  intros Hw Hob Hq Hg. set (w' := drop_file i ino n f q g x w).
  assert (Hop : forall m, opens m (w_files w') = opens m (w_files w) - if decide (n = m) then 1 else 0).
  { intros m. cbn. by rewrite (opens_delete m _ _ _ Hq). }
  assert (Hkeep : forall j jno m h e, obj w j jno m h e -> obj w' j jno m h e).
  { intros *. apply (obj_recount w w' i ino n f d (opens n (w_files w) - 1)); try done.
    - rewrite Hop, decide_True; done.
    - intros m' Hm'. rewrite Hop, decide_False by done. lia. }
  destruct (anon_recount w w' eq_refl Hkeep) with (held := held) as [Ha Hd]; [|done|].
  { intros m Hm. rewrite Hop. case_decide; lia. }
  destruct Hob as [Hst Hin Hii Hde].
  destruct Hw as [[] ? ? ? ? [] ? ? ?]. split; try done.
  - split; cbn; try done; try (apply below_delete; done). apply below_insert; eauto.
  - split; cbn.
    + intros m v Hm. destruct (o_inodes0 _ _ Hm) as (? & ? & ? & ? & ?). eauto 10.
    + intros h v Hh. apply lookup_insert_Some in Hh as [[<- <-]|[Hne Hh]].
      * destruct (o_iinfos0 _ _ Hii) as (? & ? & ? & ? & ?). eauto 10.
      * destruct (o_iinfos0 _ _ Hh) as (? & ? & ? & ? & ?). eauto 10.
    + intros e v He. destruct (o_dentries0 _ _ He) as (? & ? & ? & ? & ?). eauto 10.
    + intros q' v Hq'. apply lookup_delete_Some in Hq' as [Hne Hq'].
      destruct (o_files0 _ _ Hq') as (j & jno & h & e & y & ? & Hy & Hy'). exists j, jno, h, e, y.
      assert (Hgne : g <> f_private v) by congruence.
      rewrite !lookup_delete_ne; [auto| |done]. intros <-. apply Hgne. by apply (o_once0 _ _ _ _ Hg Hy).
  - intros h fi Hh. cbn in *. apply lookup_delete_Some in Hh as [Hne Hh].
    destruct (o_finfos0 _ _ Hh) as (v & Hv & <-). exists v. rewrite lookup_delete_ne; [done|].
    intros E. apply Hne. assert (v = mk_vfile n g) as -> by congruence. done.
  - intros y c Hy. cbn in *. apply lookup_delete_Some in Hy as [Hne Hy].
    destruct (o_direct0 _ _ Hy) as (h & fi & Hh & <-). exists h, fi. rewrite lookup_delete_ne; [done|].
    intros E. apply Hne. assert (fi = mk_finfo q i x) as -> by congruence. done.
  - intros h h' fi fi' Hh Hh'. cbn in *.
    apply lookup_delete_Some in Hh as [Hne Hh]. apply lookup_delete_Some in Hh' as [Hne' Hh']. eauto.
Qed.
