(* ===== verification/TaskOps.v ===== *)
(** What the operations on task states and anonymous inodes do to a world. *)
From S2P Require Import Prelude Types TaskState TaskInv.

Arguments sivfs_put_state : simpl never.
Arguments sivfs_get_task_state : simpl never.
Arguments sivfs_put_task_state : simpl never.
Arguments inode_put : simpl never.
Arguments dput : simpl never.
Arguments sivfs_get_inode : simpl never.

Section task_ops.
Context `{HK : KernelPuts, HL : !KernelPutsLaws}.


Definition put_st (i : Z) (st : tst) (w : world) : world := w_with_states (<[i := st]> (w_states w)) w.

Ltac wsimpl := repeat (first [progress cbn | rewrite !lookup_insert_eq | rewrite !lookup_delete_eq
  | rewrite !insert_insert_eq | rewrite delete_insert_id by done | rewrite !delete_insert_eq]).
Ltac world_eq := unfold put_st, w_with_next, w_with_states, w_with_inodes, w_with_iinfos, w_with_dentries,
  w_with_finfos, w_with_direct, w_with_files, w_with_threads, w_with_log; cbn; f_equal.

Lemma world_eta w : mk_world (w_threads w) (w_states w) (w_inodes w) (w_iinfos w) (w_dentries w) (w_finfos w)
  (w_direct w) (w_files w) (w_next w) (w_log w) = w.
Proof. by destruct w. Qed.

Lemma put_st_id i st w : w_states w !! i = Some st -> put_st i st w = w.
Proof. intros H. unfold put_st, w_with_states. rewrite insert_id by done. apply world_eta. Qed.

(** *** References to states *)

Lemma get_state_again ev t i st w : w_threads w !! t = Some i -> w_states w !! i = Some st ->
  sivfs_get_task_state ev t w = (Ok tt, put_st i (with_nref (ts_nref st + 1) st) w).
Proof.
  intros Ht Hi. unfold sivfs_get_task_state, sivfs_task_to_state, get_state, set_state, bind, gets, lift, modify.
  rewrite Ht. cbn. rewrite Hi. done.
Qed.

Lemma get_state_ok i st w : w_states w !! i = Some st -> get_state i w = (Ok st, w).
Proof. intros Hi. unfold get_state, bind, gets, lift. by rewrite Hi. Qed.

Lemma put_state_clean i st w : w_states w !! i = Some st -> ts_anon_inodes st = ∅ -> ts_anon_dentries st = ∅ ->
  ts_notifier st = false -> sivfs_put_state i w = (Ok tt, w_with_states (delete i (w_states w)) w).
Proof.
  intros Hi E1 E2 E3. unfold sivfs_put_state, get_state, bind, gets, lift, modify. rewrite Hi. cbn.
  by rewrite E1, E2, E3, !decide_True.
Qed.

Lemma get_state_first ev t w : w_threads w !! t = None -> w_states w !! w_next w = None ->
  sivfs_get_task_state ev t w =
  if te_state ev then
    if te_threads ev then (Ok tt, add_state t (w_next w) (w_with_next (w_next w + 1) w))
    else (Err ENOMEM, w_with_next (w_next w + 1) w)
  else (Err ENOMEM, w).
Proof.
  intros Ht Hi. unfold sivfs_get_task_state, sivfs_new_state. unfold sivfs_task_to_state at 1.
  unfold bind at 1, gets at 1. rewrite Ht. destruct (te_state ev); [|done].
  unfold bind, get_state, set_state, fresh, gets, lift, modify, ret, on_error, tree_insert. cbn.
  rewrite Ht. destruct (te_threads ev); cbn.
  - rewrite !lookup_insert_eq. cbn. unfold add_state, w_with_next, w_with_threads, w_with_states. cbn.
    by rewrite insert_insert_eq.
  - rewrite !lookup_insert_eq. cbn.
    erewrite put_state_clean; [|cbn; by rewrite lookup_insert_eq|done..]. cbn.
    unfold w_with_next, w_with_states. cbn. by rewrite insert_insert_eq, delete_insert_id.
Qed.

Lemma put_state_again t i st w : w_threads w !! t = Some i -> w_states w !! i = Some st -> ts_nref st <> 1 ->
  sivfs_put_task_state t w = (Ok tt, put_st i (with_nref (ts_nref st - 1) st) w).
Proof.
  intros Ht Hi Hn. unfold sivfs_put_task_state, sivfs_task_to_state, get_state, set_state, bind, gets, lift, modify.
  rewrite Ht. cbn. rewrite Hi. cbn. rewrite (proj2 (Z.eqb_neq _ _)) by lia. done.
Qed.

Lemma put_state_last t i st w : w_threads w !! t = Some i -> w_states w !! i = Some st -> ts_nref st = 1 ->
  ts_anon_inodes st = ∅ -> ts_anon_dentries st = ∅ -> ts_notifier st = false ->
  sivfs_put_task_state t w = (Ok tt, drop_state t i w).
Proof.
  intros Ht Hi Hn E1 E2 E3. unfold sivfs_put_task_state, sivfs_task_to_state, get_state, set_state, bind, gets, lift, modify.
  rewrite Ht. cbn. rewrite Hi. cbn. rewrite Hn. change (1 - 1 =? 0) with true. cbn.
  erewrite put_state_clean; [|cbn; by rewrite lookup_insert_eq|done..].
  unfold drop_state, w_with_states, w_with_threads. cbn. by rewrite delete_insert_eq.
Qed.

(** *** A new anonymous inode *)

Definition with_inode (n f ino i : Z) (w : world) : world :=
  w_with_iinfos (<[f := mk_iinfo 0 ino i]> (w_iinfos w)) (w_with_inodes (<[n := mk_vinode 1 f]> (w_inodes w)) w).

Ltac unfolds := unfold with_inode, put_st, w_with_next, w_with_states, w_with_inodes, w_with_iinfos, w_with_dentries, w_with_log.

Lemma iput_last n f ii w : w_inodes w !! n = Some (mk_vinode 1 f) -> w_iinfos w !! f = Some ii -> f <> 0 ->
  inode_put n w = (Ok tt, w_with_inodes (delete n (w_inodes w)) (w_with_iinfos (delete f (w_iinfos w)) w)).
Proof.
  intros Hn Hf H0. unfold inode_put. rewrite (k_iput_last _ _ _ _ Hn).
  unfold sivfs_drop_inode, sivfs_put_iinfo, get_iinfo, bind, gets, lift, modify, ret. cbn.
  rewrite (proj2 (Z.eqb_neq _ _)) by lia. cbn. by rewrite Hf.
Qed.

Lemma dput_last d n w : w_dentries w !! d = Some (mk_dentry 1 n) ->
  dput d w = inode_put n (w_with_dentries (delete d (w_dentries w)) w).
Proof. intros Hd. unfold dput. by rewrite (k_dput_last _ _ _ _ Hd). Qed.

(** An inode whose info is gone. *)
Lemma iput_bare n w : w_inodes w !! n = Some (mk_vinode 1 0) ->
  inode_put n w = (Ok tt, w_with_inodes (delete n (w_inodes w)) w).
Proof. intros Hn. unfold inode_put. by rewrite (k_iput_last _ _ _ _ Hn). Qed.

Lemma iput_new n f ino i w : w_inodes w !! n = None -> w_iinfos w !! f = None -> f <> 0 ->
  inode_put n (with_inode n f ino i w) = (Ok tt, w).
Proof.
  intros Hn Hf H0. erewrite iput_last; [|cbn; apply lookup_insert_eq|cbn; apply lookup_insert_eq|done].
  unfold with_inode, w_with_inodes, w_with_iinfos. cbn. rewrite !delete_insert_id by done. by rewrite world_eta.
Qed.

Lemma get_inode_outcome ev w : numbered w ->
  (exists k, w_next w <= k /\ sivfs_get_inode ev w = (Ok 0, w_with_next k w)) \/
  sivfs_get_inode ev w = (Ok (w_next w), with_inode (w_next w) (w_next w + 1) 0 0 (w_with_next (w_next w + 2) w)).
Proof.
  intros []. unfold sivfs_get_inode. destruct (te_inode ev); cbn.
  2: { left. exists (w_next w). split; [lia|]. unfold ret, w_with_next. by rewrite world_eta. }
  unfold sivfs_new_iinfo. destruct (te_iinfo ev); cbn.
  - right. unfold ret, with_inode, w_with_next, w_with_inodes, w_with_iinfos. cbn.
    rewrite insert_insert_eq. by replace (w_next w + 2) with (w_next w + 1 + 1) by lia.
  - left. exists (w_next w + 1). split; [lia|]. erewrite bind_step; [done|].
    rewrite iput_bare by (cbn; apply lookup_insert_eq).
    unfold w_with_inodes, w_with_next. cbn. rewrite delete_insert_id; [done|].
    eapply below_fresh; [done|]. lia.
Qed.

(** [reg b st]: the state after its notifier was registered, if [b]. *)
Definition reg (b : bool) (st : tst) : tst :=
  if b then with_notifier true (with_nref (ts_nref st + 1) st) else st.

Lemma with_nref_back st : with_nref (ts_nref st + 1 - 1) (with_nref (ts_nref st + 1) st) = st.
Proof. destruct st. cbn. unfold with_nref. cbn. f_equal. lia. Qed.

Lemma register_outcome ev i st w : w_states w !! i = Some st -> w_threads w !! ts_owner st = Some i -> 0 < ts_nref st ->
  (register_notifier ev i w = (Err EINVAL, w)) \/
  (exists b, (b = true -> ts_notifier st = false) /\ ts_notifier (reg b st) = true /\
    register_notifier ev i w = (Ok tt, put_st i (reg b st) w)).
Proof.
  intros Hi Ht Hn. unfold register_notifier. unfold get_state, bind, gets, lift. rewrite Hi. cbn.
  destruct (ts_notifier st) eqn:En.
  { right. exists false. split; [done|]. split; [done|]. cbn. by rewrite put_st_id. }
  destruct (te_mm ev); [|by left]. cbn. rewrite (get_state_again _ _ _ _ _ Ht Hi).
  destruct (te_register ev); cbn.
  - right. exists true. split; [done|]. split; [done|]. rewrite lookup_insert_eq. cbn.
    unfold set_state, modify, put_st, w_with_states. cbn. by rewrite insert_insert_eq.
  - left. erewrite put_state_again; [|done|cbn; by rewrite lookup_insert_eq|cbn; lia]. cbn.
    unfold throw. f_equal. unfold put_st, w_with_states. cbn. rewrite insert_insert_eq, with_nref_back, insert_id by done.
    apply world_eta.
Qed.

Lemma create_outcome ev ino i st w : numbered w -> w_states w !! i = Some st ->
  w_threads w !! ts_owner st = Some i -> 0 < ts_nref st ->
  (exists k e, w_next w <= k /\ sivfs_create_anon_inode ev ino i w = (Err e, w_with_next k w)) \/
  (exists b, (b = true -> ts_notifier st = false) /\ ts_notifier (reg b st) = true /\
    sivfs_create_anon_inode ev ino i w =
    (Ok (w_next w), with_inode (w_next w) (w_next w + 1) ino i (w_with_next (w_next w + 2) (put_st i (reg b st) w)))).
Proof.
  intros Hnum Hi Ht Hn. unfold sivfs_create_anon_inode.
  destruct (get_inode_outcome ev w Hnum) as [(k & Hk & E)|E]; rewrite (bind_step _ _ _ _ _ E).
  { left. exists k, ENOMEM. split; [done|]. done. }
  assert (Hnum' := Hnum). destruct Hnum'. rewrite (proj2 (Z.eqb_neq _ _)) by lia.
  destruct (register_outcome ev i st (with_inode (w_next w) (w_next w + 1) 0 0 (w_with_next (w_next w + 2) w)) Hi Ht Hn)
    as [Er|(b & Hb & Hreg & Er)].
  - left. exists (w_next w + 2), EINVAL. split; [lia|]. apply bind_err.
    eapply on_error_err; [exact Er|]. apply iput_new; [eapply below_fresh; eauto; lia..|lia].
  - right. exists b. do 2 (split; [done|]). erewrite bind_step; [|apply on_error_ok; exact Er].
    unfold sivfs_inode_to_iinfo, get_vinode, get_iinfo, store_iinfo, bind, gets, lift, modify, ret. cbn.
    rewrite lookup_insert_eq. cbn. rewrite lookup_insert_eq. cbn.
    unfold with_inode, put_st, w_with_next, w_with_states, w_with_inodes, w_with_iinfos. cbn. by rewrite insert_insert_eq.
Qed.

Definition SELECT : Z := Z.lor SIVFS_CREATE SIVFS_SKIP_REFCOUNT.

(** What is common to all failures: the state as it was, but for the notifier. *)
Lemma put_back ev_t i st b w k sts : w_states w !! i = Some st -> ts_owner st = ev_t ->
  w_threads w !! ev_t = Some i -> 0 < ts_nref st ->
  sts = <[i := with_nref (ts_nref (reg b st) + 1) (reg b st)]> (w_states w) ->
  sivfs_put_task_state ev_t (w_with_next k (w_with_states sts w)) = (Ok tt, w_with_next k (put_st i (reg b st) w)).
Proof.
  intros Hi <- Ht Hn ->. erewrite put_state_again; [|done|cbn; by rewrite lookup_insert_eq|destruct b; cbn; lia].
  f_equal. unfold put_st, w_with_next, w_with_states. cbn. f_equal. rewrite insert_insert_eq. f_equal.
  destruct b, st; cbn; unfold with_nref, with_notifier; cbn; f_equal; lia.
Qed.

Lemma reg_swap b st : reg b (with_nref (ts_nref st + 1) st) = with_nref (ts_nref (reg b st) + 1) (reg b st).
Proof. destruct b, st; cbn; unfold with_nref, with_notifier; cbn; f_equal; lia. Qed.
Lemma reg_anon b st : ts_anon_inodes (reg b st) = ts_anon_inodes st.
Proof. by destruct b. Qed.
Lemma reg_dent b st : ts_anon_dentries (reg b st) = ts_anon_dentries st.
Proof. by destruct b. Qed.
Lemma reg_owner b st : ts_owner (reg b st) = ts_owner st.
Proof. by destruct b. Qed.


Lemma undo_inode ino n st : ts_anon_inodes st !! ino = None ->
  with_anon_inodes (delete ino (<[ino := n]> (ts_anon_inodes st))) (with_anon_inodes (<[ino := n]> (ts_anon_inodes st)) st) = st.
Proof. intros H. rewrite delete_insert_id by done. by destruct st. Qed.

Lemma undo_both ino n d st : ts_anon_inodes st !! ino = None -> ts_anon_dentries st !! ino = None ->
  with_anon_inodes (delete ino (<[ino := n]> (ts_anon_inodes st)))
    (with_anon_dentries (delete ino (<[ino := d]> (ts_anon_dentries st)))
       (with_anon_dentries (<[ino := d]> (ts_anon_dentries st)) (with_anon_inodes (<[ino := n]> (ts_anon_inodes st)) st))) = st.
Proof. intros H1 H2. rewrite !delete_insert_id by done. by destruct st. Qed.

(** The new inode is in the trees, or everything but the numbers is undone. *)
Lemma link_outcome ev i ino t n f st w : w_states w !! i = Some st ->
  ts_anon_inodes st !! ino = None -> ts_anon_dentries st !! ino = None ->
  w_inodes w !! n = None -> w_iinfos w !! f = None -> f <> 0 -> w_dentries w !! w_next w = None ->
  let m := link_anon_inode ev i ino SELECT t n (with_inode n f ino i w) in
  (exists k e, w_next w <= k /\ m = (Err e, w_with_next k w)) \/
  (te_update ev = Some true /\ m = (do! sivfs_put_task_state t in ret 0)
     (w_with_log (AssertionError :: w_log w) (w_with_next (w_next w + 1) w))) \/
  m = (Ok (w_next w), add_anon i st ino n f (w_next w) (w_with_next (w_next w + 1) w)).
Proof.
  intros Hi Hino Hden Hn Hf H0 Hd m.
  assert (Eput : forall sts dm k l, inode_put n (mk_world (w_threads w) sts (<[n := mk_vinode 1 f]> (w_inodes w))
     (<[f := mk_iinfo SIVFS_UNREFERENCED ino i]> (w_iinfos w)) dm (w_finfos w) (w_direct w) (w_files w) k l) =
     (Ok tt, mk_world (w_threads w) sts (w_inodes w) (w_iinfos w) dm (w_finfos w) (w_direct w) (w_files w) k l)).
  { intros. erewrite iput_last; [|cbn; apply lookup_insert_eq|cbn; apply lookup_insert_eq|done].
    unfold w_with_inodes, w_with_iinfos. cbn. by rewrite !delete_insert_id. }
  subst m. unfold link_anon_inode, sivfs_inode_to_iinfo, get_vinode, get_iinfo, store_iinfo.
  change (negb (Z.land SELECT SIVFS_SKIP_REFCOUNT =? 0)) with true.
  unfold bind, gets, lift, modify, ret. cbn. rewrite lookup_insert_eq. cbn.
  rewrite (proj2 (Z.eqb_neq _ _)) by done. cbn. rewrite lookup_insert_eq. cbn.
  rewrite Hi. cbn. unfold on_error, tree_insert, set_state, modify. rewrite Hino. cbn. rewrite insert_insert_eq.
  destruct (te_anon_inode ev); cbn; unfolds.
  2: { left. exists (w_next w), ENOMEM. split; [lia|]. cbn. by rewrite Eput. }
  unfold sivfs_create_anon_dentry. destruct (te_dentry ev); cbn.
  2: { left. exists (w_next w), ENOMEM. split; [lia|]. unfold throw. cbn. rewrite lookup_insert_eq. cbn. unfolds. cbn.
    by rewrite insert_insert_eq, Eput, undo_inode, insert_id. }
  unfold ret. unfolds. cbn. rewrite lookup_insert_eq. cbn. rewrite Hden. cbn.
  destruct (te_anon_dentry ev); cbn.
  2: { left. exists (w_next w + 1), ENOMEM. split; [lia|]. erewrite dput_last; [|cbn; apply lookup_insert_eq].
    unfolds. cbn. rewrite Eput. cbn. rewrite lookup_insert_eq. cbn.
    by rewrite insert_insert_eq, undo_inode, insert_id, delete_insert_id. }
  rewrite insert_insert_eq.
  case_bool_decide.
  2: { right. right. unfold add_anon. cbn. by destruct st. }
  destruct (te_update ev) as [[]|].
  - right. left. split; [done|]. unfold complain, modify. unfolds. cbn. rewrite lookup_insert_eq. cbn.
    erewrite dput_last; [|cbn; apply lookup_insert_eq].
    unfolds. cbn. rewrite Eput. cbn. rewrite lookup_insert_eq. cbn.
    by rewrite !insert_insert_eq, undo_both, insert_id, delete_insert_id.
  - right. right. unfold add_anon. cbn. by destruct st.
  - left. exists (w_next w + 1), ENOMEM. split; [lia|]. unfold throw. cbn. rewrite lookup_insert_eq. cbn.
    erewrite dput_last; [|cbn; apply lookup_insert_eq].
    unfolds. cbn. rewrite Eput. cbn. rewrite lookup_insert_eq. cbn.
    by rewrite !insert_insert_eq, undo_both, insert_id, delete_insert_id.
Qed.

Lemma slow_outcome ev ino i st w : numbered w -> w_states w !! i = Some st ->
  w_threads w !! ts_owner st = Some i -> 0 < ts_nref st ->
  ts_anon_inodes st !! ino = None -> ts_anon_dentries st !! ino = None ->
  (exists b k e, (b = true -> ts_notifier st = false) /\ w_next w <= k /\
    _sivfs_get_anon_inode ev i ino SELECT w = (Err e, w_with_next k (put_st i (reg b st) w))) \/
  (exists b k, te_update ev = Some true /\ (b = true -> ts_notifier st = false) /\ w_next w <= k /\
    _sivfs_get_anon_inode ev i ino SELECT w =
    (Ok 0, w_with_log (AssertionError :: w_log w) (w_with_next k (put_st i (reg b st) w)))) \/
  (exists b k n f d, (b = true -> ts_notifier st = false) /\ ts_notifier (reg b st) = true /\
    w_next w <= n < k /\ w_next w <= f < k /\ w_next w <= d < k /\
    _sivfs_get_anon_inode ev i ino SELECT w =
    (Ok d, add_anon i (with_nref (ts_nref (reg b st) + 1) (reg b st)) ino n f d (w_with_next k w))).
Proof.
  intros Hnum Hi Ht Hn Hino Hden. unfold _sivfs_get_anon_inode.
  change (Z.land SELECT SIVFS_CREATE =? 0) with false. change (negb (Z.land SELECT SIVFS_SKIP_REFCOUNT =? 0)) with true.
  cbv iota. rewrite (bind_step _ _ _ _ _ (get_state_ok _ _ _ Hi)).
  rewrite (bind_step _ _ _ _ _ (get_state_again ev _ _ _ _ Ht Hi)).
  set (st1 := with_nref (ts_nref st + 1) st). set (w1 := put_st i st1 w).
  assert (Hi1 : w_states w1 !! i = Some st1) by apply lookup_insert_eq.
  assert (Hnum1 : numbered w1).
  { destruct Hnum. split; try done. apply below_insert; eauto. }
  destruct (create_outcome ev ino i st1 w1 Hnum1 Hi1 Ht ltac:(cbn; lia)) as [(k & e & Hk & E)|(b & Hb & Hreg & E)].
  - left. exists false, k, e. do 2 (split; [done|]). eapply on_error_err; [by apply bind_err|].
    apply put_back; done.
  - set (n := w_next w) in *. set (k := n + 2).
    assert (Eb : put_st i (reg b st1) w1 = put_st i (with_nref (ts_nref (reg b st) + 1) (reg b st)) w).
    { unfold put_st, w1, st1, w_with_states. cbn. by rewrite insert_insert_eq, <- reg_swap. }
    assert (Hreg' : ts_notifier (reg b st) = true) by (destruct b; done).
    rewrite Eb in E. set (s2 := with_nref _ _) in E.
    destruct (link_outcome ev i ino (ts_owner st) n (n + 1) s2 (w_with_next k (put_st i s2 w)))
      as [(k' & e & Hk & E')|[(Hu & E')|E']].
    + apply lookup_insert_eq.
    + cbn. by rewrite reg_anon.
    + cbn. by rewrite reg_dent.
    + eapply below_fresh; [apply Hnum|]. done.
    + eapply below_fresh; [apply Hnum|]. lia.
    + destruct Hnum. lia.
    + eapply below_fresh; [apply Hnum|]. cbn. lia.
    + left. exists b, k', e. cbn in Hk. split; [done|]. split; [lia|].
      eapply on_error_err; [erewrite bind_step; [exact E'|exact E]|]. by apply put_back.
    + right. left. exists b, (k + 1). split; [done|]. split; [done|]. split; [lia|].
      apply on_error_ok. erewrite bind_step; [|exact E]. etrans; [exact E'|].
      erewrite bind_step; [|exact (put_back _ i st b (w_with_log (AssertionError :: w_log w) w) (k + 1) _ Hi eq_refl Ht Hn eq_refl)].
      done.
    + right. right. exists b, (k + 1), n, (n + 1), k. do 2 (split; [done|]). split_and!; [lia..|].
      apply on_error_ok. erewrite bind_step; [|exact E]. etrans; [exact E'|]. f_equal.
      unfold add_anon, put_st, w_with_next, w_with_states. cbn. by rewrite insert_insert_eq.
Qed.

(** *** Giving a reference back *)

Definition unref (t : Z) (w : world) : world :=
  match w_threads w !! t with
  | Some i =>
    match w_states w !! i with
    | Some st => if ts_nref st =? 1 then drop_state t i w else put_st i (with_nref (ts_nref st - 1) st) w
    | None => w
    end
  | None => w
  end.

Lemma last_reference held i st w : wok (plus (ts_owner st) 1 held) w -> 0 <= held (ts_owner st) ->
  w_states w !! i = Some st -> ts_nref st = 1 -> ts_anon_inodes st = ∅ /\ ts_notifier st = false.
Proof.
  intros Hw Hh Hi Hn. destruct (o_states _ _ Hw _ _ Hi) as (_ & Hr & _). rewrite Hn in Hr.
  unfold holders, plus in Hr. rewrite decide_True in Hr by done.
  assert (Hz : Z.of_nat (size (ts_anon_inodes st)) = 0 /\ Z.b2z (ts_notifier st) = 0) by (destruct (ts_notifier st); cbn in *; lia).
  split; [apply map_size_empty_inv; lia|]. destruct (ts_notifier st); [cbn in Hz; lia|done].
Qed.

Lemma put_task_state_eq t i st w : w_threads w !! t = Some i -> w_states w !! i = Some st ->
  (ts_nref st = 1 -> ts_anon_inodes st = ∅ /\ ts_anon_dentries st = ∅ /\ ts_notifier st = false) ->
  sivfs_put_task_state t w = (Ok tt, unref t w).
Proof.
  intros Ht Hi H1. unfold unref. rewrite Ht, Hi. destruct (Z.eqb_spec (ts_nref st) 1) as [E|].
  - destruct (H1 E) as (? & ? & ?). by apply (put_state_last _ _ st).
  - by apply put_state_again.
Qed.

Lemma last_reference_dent held i st w : wok (plus (ts_owner st) 1 held) w -> 0 <= held (ts_owner st) ->
  w_states w !! i = Some st -> ts_nref st = 1 ->
  ts_anon_inodes st = ∅ /\ ts_anon_dentries st = ∅ /\ ts_notifier st = false.
Proof.
  intros Hw Hh Hi Hn. destruct (last_reference _ _ _ _ Hw Hh Hi Hn). split; [done|]. split; [|done].
  by apply (no_anon_no_dent _ _ _ _ Hw Hi).
Qed.

Lemma put_task_state_ok t i held w : wok (plus t 1 held) w -> 0 <= held t -> w_threads w !! t = Some i ->
  sivfs_put_task_state t w = (Ok tt, unref t w) /\ wok held (unref t w).
Proof.
  intros Hw Hh Ht. destruct (o_threads _ _ Hw _ _ Ht) as (st & Hi & <-).
  split; [by apply (put_task_state_eq _ i st); [..|apply (last_reference_dent held i st w)]|].
  destruct (o_states _ _ Hw _ _ Hi) as (_ & Hr & Hpos). unfold unref. rewrite Ht, Hi.
  destruct (Z.eqb_spec (ts_nref st) 1) as [E|E].
  - destruct (last_reference _ _ _ _ Hw Hh Hi E) as [Ha Hn].
    apply (wok_drop_state _ _ st (plus (ts_owner st) 1 held)); try done.
    intros t' Hne. unfold plus. rewrite decide_False by done. lia.
  - apply (wok_set_state w i st (with_nref (ts_nref st - 1) st) Hi eq_refl eq_refl (plus (ts_owner st) 1 held)); try done.
    + cbn. rewrite Hr. unfold holders, plus. cbn. rewrite decide_True by done. lia.
    + cbn. lia.
    + intros t' Hne. unfold plus. rewrite decide_False by done. lia.
Qed.

(** *** Putting an anonymous inode *)

Lemma obj_numbers held w i ino n f d : wok held w -> obj w i ino n f d -> 0 < n /\ 0 < f /\ 0 < d.
Proof.
  intros Hw [_ H1 H2 H3]. destruct (o_num _ _ Hw). split_and!.
  - by apply (n_inodes _ _ H1).
  - by apply (n_iinfos _ _ H2).
  - by apply (n_dentries _ _ H3).
Qed.

Lemma refct_cases k : 0 <= k -> k = 0 /\ refct k = SIVFS_UNREFERENCED \/ 0 < k /\ refct k = k.
Proof. intros Hk. unfold refct. destruct (Z.eqb_spec k 0); [by left|right; lia]. Qed.

Lemma put_anon_shared i ino n f k st w : w_states w !! i = Some st -> ts_anon_inodes st !! ino = Some n ->
  w_inodes w !! n = Some (mk_vinode 1 f) -> w_iinfos w !! f = Some (mk_iinfo k ino i) -> f <> 0 -> 2 <= k ->
  sivfs_put_anon_inode i ino w = (Ok tt, w_with_iinfos (<[f := mk_iinfo (k - 1) ino i]> (w_iinfos w)) w).
Proof.
  intros Hi Hn Hv Hf H0 Hk. unfold sivfs_put_anon_inode.
  rewrite (bind_step _ _ _ _ _ (get_state_ok _ _ _ Hi)). rewrite Hn.
  unfold sivfs_inode_to_iinfo, get_vinode, get_iinfo, store_iinfo, bind, gets, lift, modify, ret. rewrite Hv. cbn.
  rewrite (proj2 (Z.eqb_neq f 0)) by done. rewrite Hf. cbn.
  unfold SIVFS_UNREFERENCED. rewrite (proj2 (Z.eqb_neq k (-1000))), (proj2 (Z.eqb_neq k 1)), (proj2 (Z.ltb_ge k 1)) by lia. done.
Qed.

Lemma put_anon_last i ino n f d k st w : obj w i ino n f d -> w_states w !! i = Some st ->
  w_iinfos w !! f = Some (mk_iinfo k ino i) -> f <> 0 -> k = SIVFS_UNREFERENCED \/ k = 1 ->
  sivfs_put_anon_inode i ino w = sivfs_put_task_state (ts_owner st) (drop_anon i st ino n f d w).
Proof.
  intros [(st' & Hi' & Hn & Hd) Hv _ Hde] Hi Hf H0 Hk. assert (st' = st) as -> by congruence. unfold sivfs_put_anon_inode.
  rewrite (bind_step _ _ _ _ _ (get_state_ok _ _ _ Hi)). rewrite Hn.
  unfold sivfs_inode_to_iinfo, sivfs_put_iinfo, get_state, set_state, get_vinode, get_iinfo, bind, gets, lift, modify, ret.
  rewrite Hv. cbn. rewrite (proj2 (Z.eqb_neq f 0)) by done. rewrite Hf. cbn.
  replace ((k =? SIVFS_UNREFERENCED) || (k =? 1)) with true by (destruct Hk as [-> | ->]; done).
  rewrite Hf. cbn. rewrite Hv. cbn. rewrite Hd. cbn. rewrite lookup_insert_eq. cbn.
  erewrite dput_last; [|exact Hde]. rewrite iput_bare by (cbn; apply lookup_insert_eq). cbn.
  unfold drop_anon, w_with_states, w_with_inodes, w_with_iinfos, w_with_dentries. cbn.
  by rewrite insert_insert_eq, delete_insert_eq.
Qed.
End task_ops.
