(* ===== verification/TaskCalls.v ===== *)
(** Selecting an anonymous inode, opening and closing files, and the end of a
    task, from one consistent world to the next. *)
From S2P Require Import Prelude Types TaskState TaskInv TaskOps.

Section task_calls.
Context `{HK : KernelPuts, HL : !KernelPutsLaws}.


(** [usable t ino n w]: [n] is the anonymous inode of task [t] for file [ino]. *)
Definition usable (t ino n : Z) (w : world) : Prop :=
  exists i st f d, obj w i ino n f d /\ w_states w !! i = Some st /\ ts_owner st = t.

(** [w'] differs from [w] in references to states and in notifiers, and may have
    more anonymous inodes. *)
Record extends (w w' : world) : Prop := mk_extends {
  x_files : w_files w' = w_files w;
  x_finfos : w_finfos w' = w_finfos w;
  x_direct : w_direct w' = w_direct w;
  x_next : w_next w <= w_next w';
  x_obj : forall i ino n f d, obj w i ino n f d -> obj w' i ino n f d;
  x_owner : forall t ino n, usable t ino n w -> usable t ino n w';
  x_quiet : quiet w -> quiet w'
}.

Lemma extends_refl w : extends w w.
Proof. by split. Qed.

Lemma extends_trans w1 w2 w3 : extends w1 w2 -> extends w2 w3 -> extends w1 w3.
Proof. intros [] []. split; [congruence..|lia|eauto|eauto|eauto]. Qed.

Lemma extends_next k w : w_next w <= k -> extends w (w_with_next k w).
Proof.
  intros ?. split; try done.
  - intros * []. done.
  - intros t ino n (i & st & f & d & [] & ?). by exists i, st, f, d.
Qed.

Lemma extends_put_st i st st' w : w_states w !! i = Some st -> ts_anon_inodes st' = ts_anon_inodes st ->
  ts_anon_dentries st' = ts_anon_dentries st -> (ts_notifier st = true -> ts_notifier st' = true) ->
  ts_owner st' = ts_owner st -> extends w (put_st i st' w).
Proof.
  intros Hi E1 E2 E3 E4. split; try done.
  - intros. by eapply obj_set_state.
  - intros t ino n (j & sj & f & d & Hob & Hj & <-). apply (obj_set_state w i st st' Hi E1 E2) in Hob.
    destruct (decide (j = i)) as [->|].
    + exists i, st', f, d. split; [done|]. cbn. rewrite lookup_insert_eq. split; [done|]. congruence.
    + exists j, sj, f, d. split; [done|]. cbn. by rewrite lookup_insert_ne.
  - intros Hq j sj ino n Hj. cbn in *. apply lookup_insert_Some in Hj as [[<- <-]|[_ Hj]]; [|eauto].
    intros Hf. rewrite E1. apply (Hq _ _ _ _ Hi). destruct (ts_notifier st); [|done]. rewrite E3 in Hf by done. done.
Qed.

Lemma extends_add_state t i w : w_states w !! i = None -> extends w (add_state t i w).
Proof.
  intros Hi. split; try done.
  - intros. apply (obj_states w); try done. intros st Hst. cbn. rewrite lookup_insert_ne; [done|]. intros <-. congruence.
  - intros t' ino n (j & sj & f & d & Hob & Hj & Ho). assert (i <> j) by (intros <-; congruence).
    exists j, sj, f, d. cbn. rewrite lookup_insert_ne by done. split; [|done].
    apply (obj_states w); try done. intros st Hst. cbn. by rewrite lookup_insert_ne.
  - intros Hq j sj ino n Hj. cbn in *. apply lookup_insert_Some in Hj as [[<- <-]|[_ Hj]]; [done|eauto].
Qed.

Lemma extends_drop_state t i st w : w_states w !! i = Some st -> ts_anon_inodes st = ∅ -> extends w (drop_state t i w).
Proof.
  intros Hi He.
  assert (Hne : forall j ino n f d, obj w j ino n f d -> i <> j).
  { intros * [(s & Hs & Hn & _) _ _ _] <-. assert (s = st) as -> by congruence. by rewrite He in Hn. }
  split; try done.
  - intros * Hob. apply (obj_states w); [|done..]. intros st' Hst. cbn. rewrite lookup_delete_ne; eauto.
  - intros t' ino n (j & sj & f & d & Hob & Hj & Ho). exists j, sj, f, d. cbn.
    rewrite lookup_delete_ne by eauto. split; [|done].
    apply (obj_states w); [|done..]. intros st' Hst. cbn. rewrite lookup_delete_ne; eauto.
  - intros Hq j sj ino n Hj. cbn in *. apply lookup_delete_Some in Hj as [_ Hj]. eauto.
Qed.

Lemma extends_unref t held w : wok (plus t 1 held) w -> 0 <= held t -> extends w (unref t w).
Proof.
  intros Hw Hh. unfold unref. destruct (w_threads w !! t) as [i|] eqn:Ht; [|by apply extends_refl].
  destruct (o_threads _ _ Hw _ _ Ht) as (st & Hi & <-). rewrite Hi.
  destruct (Z.eqb_spec (ts_nref st) 1) as [E|].
  - apply (extends_drop_state _ _ st); [done|]. by destruct (last_reference held i st w Hw Hh Hi E).
  - by apply (extends_put_st _ st).
Qed.

Lemma extends_add_anon held i st ino n f d w : wok (plus (ts_owner st) 1 held) w -> w_states w !! i = Some st ->
  ts_notifier st = true -> ts_anon_inodes st !! ino = None ->
  w_inodes w !! n = None /\ w_iinfos w !! f = None /\ w_dentries w !! d = None ->
  extends w (add_anon i st ino n f d w).
Proof.
  intros Hw Hi Hn Hino Hfr. split; try done.
  - intros. by apply obj_kept.
  - intros t jno m (j & sj & g & e & Hob & Hj & Ho). apply (obj_kept w i st ino n f d Hi Hino Hfr) in Hob.
    destruct (decide (j = i)) as [->|].
    + exists i, (grow ino n d st), g, e. split; [done|]. cbn. rewrite lookup_insert_eq. split; [done|]. cbn. congruence.
    + exists j, sj, g, e. split; [done|]. cbn. by rewrite lookup_insert_ne.
  - intros Hq j sj jno m Hj. cbn in *. apply lookup_insert_Some in Hj as [[<- <-]|[_ Hj]]; [|eauto].
    cbn. by rewrite Hn.
Qed.

(** *** sivfs_get_anon_inode, as sivfs_d_select_anon_inode calls it *)

(** One more reference, and the notifier if need be. *)
Lemma wok_reg held i st b w : wok held w -> w_states w !! i = Some st -> (b = true -> ts_notifier st = false) ->
  wok held (put_st i (reg b st) w) /\ extends w (put_st i (reg b st) w).
Proof.
  intros Hw Hi Hb. destruct (o_states _ _ Hw _ _ Hi) as (_ & Hr & Hp). split.
  - apply (wok_set_state w i st (reg b st) Hi (reg_anon _ _) (reg_dent _ _) held held Hw (reg_owner _ _)); [| |done].
    + unfold holders in *. destruct b; [|done]. rewrite (Hb eq_refl) in Hr. cbn in *. lia.
    + destruct b; cbn; lia.
  - apply (extends_put_st _ st); [done|apply reg_anon|apply reg_dent| |apply reg_owner]. by destruct b.
Qed.

Lemma wok_more held i st w : wok held w -> w_states w !! i = Some st ->
  wok (plus (ts_owner st) 1 held) (put_st i (with_nref (ts_nref st + 1) st) w).
Proof.
  intros Hw Hi. destruct (o_states _ _ Hw _ _ Hi) as (_ & Hr & Hp).
  apply (wok_set_state w i st (with_nref (ts_nref st + 1) st) Hi eq_refl eq_refl held); try done.
  - cbn. rewrite Hr. unfold holders, plus. cbn. rewrite decide_True by done. lia.
  - cbn. lia.
  - intros t Hne. unfold plus. rewrite decide_False by done. lia.
Qed.

Lemma put_st_twice i st st' w : put_st i st' (put_st i st w) = put_st i st' w.
Proof. unfold put_st, w_with_states. cbn. by rewrite insert_insert_eq. Qed.

(** As long as no update aborts: the file's anonymous inode is there or is added,
    or an error leaves everything but a notifier as it was. *)
Lemma get_anon_inode_ok ev held i ino st w : wok held w -> w_states w !! i = Some st -> 0 <= ino < 2 ^ 32 ->
  te_update ev <> Some true ->
  exists r w', sivfs_get_anon_inode ev i ino SELECT w = (r, w') /\ wok held w' /\ extends w w' /\ w_log w' = w_log w /\
    (exists st', w_states w' !! i = Some st' /\ ts_owner st' = ts_owner st) /\
    match r with
    | Ok d => exists n f, obj w' i ino n f d
    | Err _ => w_inodes w' = w_inodes w /\ w_iinfos w' = w_iinfos w /\ w_dentries w' = w_dentries w
    | _ => False
    end.
Proof.
  intros Hw Hi Hino Hup. unfold sivfs_get_anon_inode. rewrite (bind_step _ _ _ _ _ (get_state_ok _ _ _ Hi)).
  change (Z.land SELECT SIVFS_SKIP_REFCOUNT =? 0) with false.
  destruct (ts_anon_dentries st !! ino) as [d|] eqn:Hd.
  { exists (Ok d), w. destruct (o_dent _ _ Hw _ _ _ _ Hi Hd) as (n & f & Hob).
    split_and!; eauto. by apply extends_refl. }
  destruct (o_states _ _ Hw _ _ Hi) as (Ht & Hr & Hp).
  assert (Hn : ts_anon_inodes st !! ino = None).
  { destruct (ts_anon_inodes st !! ino) as [n|] eqn:Hn; [|done].
    destruct (o_anon _ _ Hw _ _ _ _ Hi Hn) as (_ & _ & f & d & [(st' & Hi' & _ & Hd') _ _ _]). congruence. }
  destruct (slow_outcome ev ino i st w (o_num _ _ Hw) Hi Ht Hp Hn Hd)
    as [(b & k & e & Hb & Hk & E)|[(b & k & Hu & _)|(b & k & n & f & d & Hb & Hreg & Ln & Lf & Ld & E)]]; [|done|];
    rewrite E; destruct (wok_reg _ _ _ _ _ Hw Hi Hb) as [Hw1 Hx1].
  - exists (Err e), (w_with_next k (put_st i (reg b st) w)). split; [done|]. split; [by apply wok_next|].
    split; [eapply extends_trans; [exact Hx1|by apply extends_next]|]. split; [done|]. split; [|done].
    exists (reg b st). cbn. rewrite lookup_insert_eq. split; [done|apply reg_owner].
  - set (s1 := with_nref _ _). set (wk := w_with_next k (put_st i s1 w)).
    assert (Hwk : wok (plus (ts_owner st) 1 held) wk).
    { apply wok_next; [|cbn; lia]. rewrite <- (reg_owner b), <- (put_st_twice i (reg b st)).
      apply wok_more; [done|]. apply lookup_insert_eq. }
    assert (Ew : add_anon i s1 ino n f d (w_with_next k w) = add_anon i s1 ino n f d wk).
    { unfold add_anon, wk, put_st, w_with_next, w_with_states. cbn. by rewrite insert_insert_eq. }
    assert (Hs1 : w_states wk !! i = Some s1) by apply lookup_insert_eq.
    assert (Ho1 : ts_owner s1 = ts_owner st) by apply reg_owner.
    assert (Ha1 : ts_anon_inodes s1 !! ino = None) by (cbn; by rewrite reg_anon).
    assert (Hfr : w_inodes wk !! n = None /\ w_iinfos wk !! f = None /\ w_dentries wk !! d = None).
    { destruct (o_num _ _ Hw). split_and!; eapply below_fresh; eauto; lia. }
    assert (Hpos := n_next _ (o_num _ _ Hw)). rewrite <- Ho1 in Hwk. rewrite Ew.
    exists (Ok d), (add_anon i s1 ino n f d wk). split; [done|]. split.
    { apply wok_add_anon; try done. cbn. lia. }
    split; [|split; [done|split]].
    + apply (extends_trans _ wk); [|by apply (extends_add_anon held)].
      eapply extends_trans; [|apply extends_next; cbn; lia]. apply (extends_put_st _ st); [done| | | |done].
      * cbn. apply reg_anon.
      * cbn. apply reg_dent.
      * cbn. by rewrite Hreg.
    + exists (grow ino n d s1). cbn. by rewrite lookup_insert_eq.
    + exists n, f. by eapply obj_added.
Qed.

(** *** sivfs_d_select_anon_inode *)

Lemma get_task_state_ok ev t held w : wok held w -> held t = 0 ->
  exists r w', sivfs_get_task_state ev t w = (r, w') /\ extends w w' /\ w_log w' = w_log w /\
    w_inodes w' = w_inodes w /\ w_iinfos w' = w_iinfos w /\ w_dentries w' = w_dentries w /\
    match r with
    | Ok _ => wok (plus t 1 held) w' /\ exists i st, w_threads w' !! t = Some i /\ w_states w' !! i = Some st /\ ts_owner st = t
    | Err _ => wok held w'
    | _ => False
    end.
Proof.
  intros Hw Hh. destruct (w_threads w !! t) as [i|] eqn:Ht.
  - destruct (o_threads _ _ Hw _ _ Ht) as (st & Hi & <-). rewrite (get_state_again _ _ _ _ _ Ht Hi).
    eexists (Ok tt), _. split; [done|]. split; [by apply (extends_put_st _ st)|]. do 4 (split; [done|]).
    split; [by apply wok_more|]. exists i. eexists. split; [done|]. cbn. by rewrite lookup_insert_eq.
  - assert (Hi : w_states w !! w_next w = None) by (eapply below_fresh; [apply (o_num _ _ Hw)|lia]).
    rewrite (get_state_first _ _ _ Ht Hi). assert (Hpos := n_next _ (o_num _ _ Hw)).
    destruct (te_state ev); [destruct (te_threads ev)|].
    + eexists (Ok tt), _. split; [done|]. split.
      { eapply extends_trans; [apply (extends_next (w_next w + 1)); lia|]. by apply extends_add_state. }
      do 4 (split; [done|]). split.
      * apply wok_add_state; try done; [apply wok_next; [done|lia]|cbn; lia].
      * exists (w_next w). eexists. cbn. rewrite !lookup_insert_eq. done.
    + eexists (Err ENOMEM), _. split; [done|]. split; [apply extends_next; lia|]. do 4 (split; [done|]). apply wok_next; [done|lia].
    + exists (Err ENOMEM), w. split; [done|]. split; [apply extends_refl|]. done.
Qed.

Lemma unref_frame t w : w_files (unref t w) = w_files w /\ w_finfos (unref t w) = w_finfos w /\
  w_direct (unref t w) = w_direct w /\ w_log (unref t w) = w_log w /\ w_inodes (unref t w) = w_inodes w /\
  w_iinfos (unref t w) = w_iinfos w /\ w_dentries (unref t w) = w_dentries w.
Proof. unfold unref. by repeat case_match. Qed.

Definition same_objects (w w' : world) : Prop :=
  w_inodes w' = w_inodes w /\ w_iinfos w' = w_iinfos w /\ w_dentries w' = w_dentries w.

Lemma with_anon_dentry_ok {A} ev t ino (found : Z -> M world A) (g : Z -> Z -> A) w :
  (forall i n f d w, obj w i ino n f d -> found d w = (Ok (g n d), w)) ->
  wok nobody w -> 0 <= ino < 2 ^ 32 -> te_update ev <> Some true ->
  exists r w', with_anon_dentry ev t ino found w = (r, w') /\ wok nobody w' /\ extends w w' /\ w_log w' = w_log w /\
    match r with
    | Ok a => exists i st n f d, a = g n d /\ obj w' i ino n f d /\ w_states w' !! i = Some st /\ ts_owner st = t
    | Err _ => same_objects w w'
    | _ => False
    end.
Proof.
  intros Hfound Hw Hino Hup. unfold with_anon_dentry.
  destruct (get_task_state_ok ev t nobody w Hw eq_refl) as (r & w1 & E1 & Hx1 & Hl1 & Hi1 & Hf1 & Hd1 & H1).
  destruct r as [[]|e| |]; [|exists (Err e), w1|done|done].
  2: { rewrite (bind_err _ _ _ _ _ E1). done. }
  rewrite (bind_step _ _ _ _ _ E1). destruct H1 as (Hw1 & i & st & Ht & Hi & Ho).
  erewrite bind_step; [|unfold sivfs_task_to_state, gets; by rewrite Ht].
  destruct (get_anon_inode_ok ev _ i ino st w1 Hw1 Hi Hino Hup) as (r & w2 & E2 & Hw2 & Hx2 & Hl2 & (st2 & Hi2 & Ho2) & H2).
  assert (Ht2 : w_threads w2 !! t = Some i).
  { destruct (o_states _ _ Hw2 _ _ Hi2) as (H & _). by rewrite Ho2, Ho in H. }
  destruct (put_task_state_ok t i nobody w2 Hw2 ltac:(done) Ht2) as [E3 Hw3].
  assert (Hx3 := extends_unref t nobody w2 Hw2 ltac:(done)).
  assert (Hx := extends_trans _ _ _ Hx1 (extends_trans _ _ _ Hx2 Hx3)).
  destruct (unref_frame t w2) as (_ & _ & _ & Fl & Fi & Ff & Fd).
  change SELECT with (Z.lor SIVFS_CREATE SIVFS_SKIP_REFCOUNT) in E2.
  destruct r as [d|e| |]; [|exists (Err e), (unref t w2)|done|done].
  - destruct H2 as (n & f & Hob). erewrite bind_step; [|apply on_error_ok; exact E2].
    rewrite (bind_step _ _ _ _ _ (Hfound _ _ _ _ _ Hob)), (bind_step _ _ _ _ _ E3).
    exists (Ok (g n d)), (unref t w2). do 3 (split; [done|]). split; [congruence|].
    assert (Hob3 := x_obj _ _ Hx3 _ _ _ _ _ Hob). assert (Hob3' := Hob3). destruct Hob3' as [(st3 & Hi3 & _) _ _ _].
    exists i, st3, n, f, d. do 3 (split; [done|]).
    unfold unref in Hi3. rewrite Ht2, Hi2 in Hi3. destruct (ts_nref st2 =? 1).
    + cbn in Hi3. by rewrite lookup_delete_eq in Hi3.
    + cbn in Hi3. rewrite lookup_insert_eq in Hi3. injection Hi3 as <-. cbn. congruence.
  - split; [|do 2 (split; [done|])].
    + apply bind_err. eapply on_error_err; [exact E2|exact E3].
    + split; [congruence|]. destruct H2 as (? & ? & ?). repeat split; congruence.
Qed.

Lemma select_ok ev t ino w : wok nobody w -> 0 <= ino < 2 ^ 32 -> te_update ev <> Some true ->
  exists r w', sivfs_d_select_anon_inode ev t ino w = (r, w') /\ wok nobody w' /\ extends w w' /\ w_log w' = w_log w /\
    match r with Ok n => usable t ino n w' | Err _ => same_objects w w' | _ => False end.
Proof.
  intros Hw Hino Hup.
  destruct (with_anon_dentry_ok ev t ino (fun d => let! de := get_dentry d in ret (d_inode de)) (fun n d => n) w)
    as (r & w' & E & Hw' & Hx & Hl & Hr); try done.
  { intros i n f d w0 Hob. unfold get_dentry, bind, gets, lift. by rewrite (ob_dentry _ _ _ _ _ _ Hob). }
  exists r, w'. do 4 (split; [done|]). destruct r; try done.
  destruct Hr as (i & st & n & f & d & -> & ?). by exists i, st, f, d.
Qed.

(** The assertions of sivfs_d_real on its arguments. *)
Definition proper_query (qu : query) (open_flags : Z) : bool :=
  if qu_is_dir qu then negb (qu_inode qu) || qu_same_inode qu
  else qu_direct_access_creds qu || qu_is_negative qu || (open_flags =? 0) || negb (qu_inode qu).

Lemma d_real_ok ev t ino qu open_flags w : wok nobody w -> 0 <= ino < 2 ^ 32 -> te_update ev <> Some true ->
  proper_query qu open_flags ->
  exists r w', sivfs_d_real ev t ino qu open_flags w = (r, w') /\ wok nobody w' /\ extends w w' /\ w_log w' = w_log w.
Proof.
  intros Hw Hino Hup Hqu. unfold sivfs_d_real, proper_query in *.
  assert (Hsame : forall r : res (option Z), exists r' w', (r, w) = (r', w') /\ wok nobody w' /\ extends w w' /\ w_log w' = w_log w).
  { intros r. exists r, w. do 2 (split; [done|]). split; [apply extends_refl|done]. }
  destruct (qu_is_dir qu). { destruct (_ || _); [apply Hsame|done]. }
  destruct (qu_direct_access_creds qu); [apply Hsame|]. destruct (qu_is_negative qu); [apply Hsame|].
  destruct (open_flags =? 0), (qu_inode qu); cbn in *; try done;
    (destruct (negb (qu_sb qu)); [apply Hsame|]);
    destruct (with_anon_dentry_ok ev t ino (fun d => ret (Some d)) (fun _ d => Some d) w) as (r & w' & E & ? & ? & ? & _);
    try done; by exists r, w'.
Qed.

(** Another selection of the same file by the same task finds the same inode. *)
Lemma with_anon_dentry_again {A} ev t ino n (found : Z -> M world A) (g : Z -> A) w :
  (forall i f d w, obj w i ino n f d -> found d w = (Ok (g d), w)) ->
  wok nobody w -> usable t ino n w ->
  exists d, w_dentries w !! d = Some (mk_dentry 1 n) /\ with_anon_dentry ev t ino found w = (Ok (g d), w).
Proof.
  intros Hfound Hw (i & st & f & d & Hob & Hi & <-). exists d. split; [apply (ob_dentry _ _ _ _ _ _ Hob)|].
  destruct (o_states _ _ Hw _ _ Hi) as (Ht & _ & Hp). unfold with_anon_dentry.
  rewrite (bind_step _ _ _ _ _ (get_state_again ev _ _ _ _ Ht Hi)). set (w1 := put_st _ _ _).
  assert (Hob1 : obj w1 i ino n f d) by by eapply obj_set_state.
  assert (Hi1 : w_states w1 !! i = Some (with_nref (ts_nref st + 1) st)) by apply lookup_insert_eq.
  erewrite bind_step; [|unfold sivfs_task_to_state, gets; cbn; by rewrite Ht]. cbv iota beta.
  assert (Hd : ts_anon_dentries (with_nref (ts_nref st + 1) st) !! ino = Some d).
  { destruct (ob_state _ _ _ _ _ _ Hob1) as (st' & Hi' & _ & Hd). congruence. }
  erewrite bind_step; [|apply on_error_ok; unfold sivfs_get_anon_inode; rewrite (bind_step _ _ _ _ _ (get_state_ok _ _ _ Hi1)), Hd; done].
  rewrite (bind_step _ _ _ _ _ (Hfound _ _ _ _ Hob1)).
  erewrite bind_step; [|apply (put_state_again _ i (with_nref (ts_nref st + 1) st)); [done|done|cbn; lia]].
  unfold ret. f_equal. unfold w1. cbn [ts_nref with_nref]. rewrite put_st_twice. rewrite with_nref_back. by apply put_st_id.
Qed.

(** *** Opening *)

Definition with_file (q n g : Z) (w : world) : world := w_with_files (<[q := mk_vfile n g]> (w_files w)) w.

Lemma take_reference_ok f ino i k w : w_iinfos w !! f = Some (mk_iinfo (refct k) ino i) -> 0 <= k ->
  take_reference f w =
  if k <? SIVFS_IINFO_MAX_REFCOUNT then (Ok tt, w_with_iinfos (<[f := mk_iinfo (k + 1) ino i]> (w_iinfos w)) w)
  else if k =? SIVFS_IINFO_MAX_REFCOUNT then (Err EINVAL, w)
  else (Err EINVAL, w_with_log (BadRefcount :: w_log w) w).
Proof.
  intros Hf Hk. unfold take_reference, sivfs_iinfo_refct_inc, get_iinfo, store_iinfo, complain, throw, bind, gets, lift, modify.
  rewrite Hf. cbn. destruct (refct_cases k Hk) as [[-> ->]|[Hp E]]; [done|]. rewrite !E in *.
  rewrite (proj2 (Z.eqb_neq k SIVFS_UNREFERENCED)) by (unfold SIVFS_UNREFERENCED; lia). rewrite Hf. cbn.
  unfold SIVFS_IINFO_MAX_REFCOUNT. destruct (Z.eqb_spec k 100) as [->|]; [done|].
  destruct (Z.ltb_spec k 100), (Z.ltb_spec k 0), (Z.ltb_spec 100 k); done || lia.
Qed.

Lemma anon_open_ok ev t i ino n f d w : wok nobody w -> obj w i ino n f d -> w_threads w !! t = Some i ->
  opens n (w_files w) < SIVFS_IINFO_MAX_REFCOUNT ->
  let q := w_next w in
  let w1 := with_file q n 0 (w_with_next (q + 1) w) in
  (sivfs_anon_open ev t n q w1 = (Ok tt, add_file i ino n f q (q + 1) (q + 2) (w_with_next (q + 3) w))) \/
  (exists e k, q < k /\ sivfs_anon_open ev t n q w1 = (Err e, w_with_next k w1)).
Proof.
  intros Hw Hob Ht Hop q w1. destruct (o_num _ _ Hw). assert (Hf := proj1 (proj2 (obj_numbers _ _ _ _ _ _ _ Hw Hob))).
  unfold sivfs_anon_open, sivfs_new_finfo.
  destruct (te_finfo ev); [|right; exists ENOMEM, (q + 1); split; [lia|done]].
  unfold sivfs_open_direct_access. destruct (te_direct ev).
  2: { right. exists ENOMEM, (q + 1 + 1). split; [lia|]. erewrite bind_step; [|done].
    eapply on_error_err; [done|]. unfold sivfs_put_finfo, bind, gets, lift, modify, ret. cbn.
    rewrite lookup_insert_eq. cbn. unfold w1, with_file, w_with_next, w_with_files, w_with_finfos. cbn.
    rewrite delete_insert_id; [done|]. eapply below_fresh; [done|lia]. }
  left. erewrite bind_step; [|done]. apply on_error_ok. erewrite bind_step; [|done]. cbv zeta beta.
  erewrite bind_step; [|unfold sivfs_task_to_state, gets; cbn; by rewrite Ht].
  cbv beta iota. erewrite bind_step; [|done]. erewrite bind_step; [|done].
  erewrite bind_step; [|unfold sivfs_inode_to_iinfo, get_vinode, bind, gets, lift, ret; cbn; by rewrite (ob_inode _ _ _ _ _ _ Hob)].
  cbn [i_private]. rewrite (proj2 (Z.eqb_neq f 0)) by lia. apply on_error_ok.
  assert (Hn0 := opens_nonneg n (w_files w)).
  erewrite take_reference_ok; [|cbn; exact (ob_iinfo _ _ _ _ _ _ Hob)|done].
  rewrite (proj2 (Z.ltb_lt _ _)) by done. f_equal.
  unfold add_file, w1, with_file, w_with_next, w_with_files, w_with_finfos, w_with_direct, w_with_iinfos. cbn.
  rewrite !insert_insert_eq. fold q. replace (q + 1 + 1 + 1) with (q + 3) by lia. replace (q + 1 + 1) with (q + 2) by lia. done.
Qed.

(** What opening a file of task [t] leads to. *)
Record opened (t ino q : Z) (w w' : world) : Prop := mk_opened {
  op_new : w_files w !! q = None;
  op_inode : exists n g, usable t ino n w' /\ w_files w' = <[q := mk_vfile n g]> (w_files w);
  op_kept : forall t' ino' n, usable t' ino' n w -> usable t' ino' n w'
}.

(** The file of [ino] that task [t] opens has fewer than the most open files. *)
Definition room (t ino : Z) (w : world) : Prop :=
  forall n, usable t ino n w -> opens n (w_files w) < SIVFS_IINFO_MAX_REFCOUNT.

Lemma room_extends t ino n w w' : wok nobody w -> wok nobody w' -> extends w w' -> usable t ino n w' -> room t ino w ->
  opens n (w_files w') < SIVFS_IINFO_MAX_REFCOUNT.
Proof.
  intros Hw Hw' Hx (i & st & f & d & Hob & Hi & Ho) Hroom. rewrite (x_files _ _ Hx).
  destruct (w_inodes w !! n) as [v|] eqn:Hn; [|by rewrite (opens_unopened _ _ _ Hw Hn)].
  destruct (o_inodes _ (o_objs _ _ Hw) _ _ Hn) as (j & jno & g & e & Hob0).
  assert (E := obj_inj _ _ _ _ _ _ _ _ _ _ _ (x_obj _ _ Hx _ _ _ _ _ Hob0) Hob ltac:(auto)). injection E as -> -> -> ->.
  apply Hroom. destruct (ob_state _ _ _ _ _ _ Hob0) as (s0 & Hs0 & _).
  assert (Hu : usable (ts_owner s0) ino n w) by (exists i, s0, f, d; done).
  apply (x_owner _ _ Hx) in Hu as (k & sk & g & e & Hobk & Hk & Hok).
  assert (E := obj_inj _ _ _ _ _ _ _ _ _ _ _ Hobk Hob ltac:(auto)). injection E as -> -> ->.
  exists i, s0, f, d. split; [done|]. split; [done|]. congruence.
Qed.

Lemma with_file_back q n g w : w_files w !! q = None ->
  w_with_files (delete q (w_files (with_file q n g w))) (with_file q n g w) = w.
Proof. intros Hq. unfold with_file, w_with_files. cbn. rewrite delete_insert_id by done. apply world_eta. Qed.

Lemma open_ok ev t ino w : wok nobody w -> 0 <= ino < 2 ^ 32 -> te_update ev <> Some true -> room t ino w ->
  exists r w', vfs_open ev t ino w = (r, w') /\ wok nobody w' /\ w_log w' = w_log w /\ (quiet w -> quiet w') /\
    match r with
    | Ok q => opened t ino q w w'
    | Err _ => extends w w'
    | _ => False
    end.
Proof.
  intros Hw Hino Hup Hroom. unfold vfs_open.
  destruct (select_ok ev t ino w Hw Hino Hup) as (r & w1 & E1 & Hw1 & Hx1 & Hl1 & H1).
  destruct r as [n|e| |]; [|exists (Err e), w1|done|done].
  2: { rewrite (bind_err _ _ _ _ _ E1). do 3 (split; [done|]). split; [apply (x_quiet _ _ Hx1)|done]. }
  rewrite (bind_step _ _ _ _ _ E1). assert (Hop := room_extends _ _ _ _ _ Hw Hw1 Hx1 H1 Hroom).
  assert (H1' := H1). destruct H1' as (i & st & f & d & Hob & Hi & Ho).
  assert (Ht : w_threads w1 !! t = Some i).
  { destruct (o_states _ _ Hw1 _ _ Hi) as (H & _). by rewrite Ho in H. }
  assert (Hnum := o_num _ _ Hw1). destruct Hnum. erewrite bind_step; [|done]. cbn [w_next].
  set (q := w_next w1) in *. assert (Hq : w_files w1 !! q = None) by (eapply below_fresh; [done|lia]).
  erewrite bind_step; [|done]. cbv beta.
  destruct (anon_open_ok ev t i ino n f d w1 Hw1 Hob Ht Hop) as [E2|(e & k & Hk & E2)].
  - erewrite bind_step; [|apply on_error_ok; exact E2]. eexists (Ok q), _. split; [done|].
    assert (Hw2 : wok nobody (w_with_next (q + 3) w1)) by (apply wok_next; [done|lia]).
    assert (Hob2 : obj (w_with_next (q + 3) w1) i ino n f d) by (apply (x_obj w1); [apply extends_next; lia|done]).
    assert (Hw3 : wok nobody (add_file i ino n f q (q + 1) (q + 2) (w_with_next (q + 3) w1))).
    { apply (wok_add_file _ _ _ _ _ _ d); try done; cbn; try lia; eapply below_fresh; try done; lia. }
    split; [done|]. split; [done|].
    assert (Hop' : forall m, opens m (w_files w1) <= opens m (<[q := mk_vfile n (q + 1)]> (w_files w1))).
    { intros m. rewrite opens_insert by done. case_decide; lia. }
    assert (Hkeep : forall j jno m g e, obj w1 j jno m g e ->
       obj (add_file i ino n f q (q + 1) (q + 2) (w_with_next (q + 3) w1)) j jno m g e).
    { apply (obj_recount w1 _ i ino n f d (opens n (w_files w1) + 1)); try done; cbn.
      - unfold refct. rewrite (proj2 (Z.eqb_neq _ 0)); [done|]. assert (H := opens_nonneg n (w_files w1)). lia.
      - by rewrite opens_insert, decide_True.
      - intros m Hm. rewrite opens_insert, decide_False by done. lia. }
    split; [|split].
    + intros Hq0%(x_quiet _ _ Hx1) j sj jno m Hj Hn Hm. exact (Z.lt_le_trans _ _ _ (Hq0 _ _ _ _ Hj Hn Hm) (Hop' m)).
    + by rewrite <- (x_files _ _ Hx1).
    + exists n, (q + 1). rewrite <- (x_files _ _ Hx1). split; [|done]. exists i, st, f, d. auto.
    + intros t' ino' m Hm%(x_owner _ _ Hx1). destruct Hm as (j & sj & g & e & ? & ? & ?). exists j, sj, g, e. auto.
  - eexists (Err e), (w_with_next k w1). split.
    { apply bind_err. eapply on_error_err; [exact E2|]. unfold modify.
      exact (f_equal (pair (Ok tt)) (with_file_back q n 0 (w_with_next k w1) Hq)). }
    assert (Hx2 : extends w1 (w_with_next k w1)) by (apply extends_next; lia).
    split; [apply wok_next; [done|lia]|]. split; [done|].
    split; [|by eapply extends_trans]. intros H. by apply (x_quiet _ _ Hx2), (x_quiet _ _ Hx1).
Qed.

(** *** Closing *)

Definition without_file (q : Z) (w : world) : world := w_with_files (delete q (w_files w)) w.

Lemma unref_without_file t q w : without_file q (unref t w) = unref t (without_file q w).
Proof. unfold unref, without_file. cbn. by repeat case_match. Qed.

Definition finfo_put (g x : Z) (w : world) : world :=
  w_with_finfos (delete g (w_finfos w)) (w_with_direct (delete x (w_direct w)) w).

Lemma put_finfo_ok g q i x w : w_finfos w !! g = Some (mk_finfo q i x) -> x <> 0 -> w_direct w !! x = Some 1 ->
  sivfs_put_finfo g w = (Ok tt, finfo_put g x w).
Proof.
  intros Hg H0 Hx. unfold sivfs_put_finfo. unfold bind, gets, lift. rewrite Hg. cbn.
  rewrite (proj2 (Z.eqb_neq x 0)) by done. rewrite (k_fput_last _ _ Hx). done.
Qed.

(** Up to the put of the anonymous inode. *)
Lemma release_steps q v i ino f d x w : w_files w !! q = Some v -> obj w i ino (f_inode v) f d ->
  w_finfos w !! f_private v = Some (mk_finfo q i x) -> x <> 0 -> f <> 0 -> w_direct w !! x = Some 1 ->
  vfs_close q w = (do! sivfs_put_anon_inode i ino in modify (without_file q)) (finfo_put (f_private v) x w).
Proof.
  intros Hq Hob Hg H0 Hf0 Hx. unfold vfs_close, sivfs_anon_release.
  assert (Ef : get_file q w = (Ok v, w)) by (unfold get_file, bind, gets, lift; by rewrite Hq).
  rewrite (bind_step _ _ _ _ _ Ef). unfold bind at 1. rewrite (bind_step _ _ _ _ _ Ef).
  erewrite bind_step; [|done]. erewrite bind_step; [|unfold lift; by rewrite Hg]. cbv zeta.
  rewrite (bind_step _ _ _ _ _ (put_finfo_ok _ _ _ _ _ Hg H0 Hx)).
  erewrite bind_step; [|unfold sivfs_inode_to_iinfo, get_vinode, bind, gets, lift, ret; cbn; by rewrite (ob_inode _ _ _ _ _ _ Hob)].
  cbn [i_private fi_state]. rewrite (proj2 (Z.eqb_neq f 0)) by done.
  erewrite bind_step; [|unfold get_iinfo, bind, gets, lift; cbn; by rewrite (ob_iinfo _ _ _ _ _ _ Hob)]. done.
Qed.

(** A release that is not the last only lowers the count; the last one takes the
    anonymous inode out of the working set, and maybe the state away. *)
Lemma close_shared held q v i ino f d x w : wok held w -> w_files w !! q = Some v -> obj w i ino (f_inode v) f d ->
  w_finfos w !! f_private v = Some (mk_finfo q i x) -> w_direct w !! x = Some 1 -> 2 <= opens (f_inode v) (w_files w) ->
  vfs_close q w = (Ok tt, drop_file i ino (f_inode v) f q (f_private v) x w).
Proof.
  intros Hw Hq Hob Hg Hx Hk. destruct (obj_numbers _ _ _ _ _ _ _ Hw Hob) as (_ & Hf & _).
  assert (H0 := n_direct _ (o_num _ _ Hw) _ _ Hx). rewrite (release_steps q v i ino f d x w) by (done || lia).
  assert (Er : refct (opens (f_inode v) (w_files w)) = opens (f_inode v) (w_files w) /\
    refct (opens (f_inode v) (w_files w) - 1) = opens (f_inode v) (w_files w) - 1).
  { unfold refct. rewrite !(proj2 (Z.eqb_neq _ 0)) by lia. done. }
  destruct (ob_state _ _ _ _ _ _ Hob) as (st & Hi & Hn & _).
  erewrite bind_step; [|apply (put_anon_shared i ino (f_inode v) f (opens (f_inode v) (w_files w)) st); [done|done|apply (ob_inode _ _ _ _ _ _ Hob)|cbn|lia|done]].
  - unfold modify, drop_file. by rewrite (proj2 Er).
  - rewrite <- (proj1 Er). apply (ob_iinfo _ _ _ _ _ _ Hob).
Qed.

Lemma close_last q v i ino f d x st w : wok nobody w -> w_files w !! q = Some v -> obj w i ino (f_inode v) f d ->
  w_states w !! i = Some st ->
  w_finfos w !! f_private v = Some (mk_finfo q i x) -> w_direct w !! x = Some 1 -> opens (f_inode v) (w_files w) = 1 ->
  let w1 := drop_anon i st ino (f_inode v) f d (drop_file i ino (f_inode v) f q (f_private v) x w) in
  vfs_close q w = (Ok tt, unref (ts_owner st) w1) /\ wok (plus (ts_owner st) 1 nobody) w1.
Proof.
  intros Hw Hq Hob Hi Hg Hx Hk w1. destruct (obj_numbers _ _ _ _ _ _ _ Hw Hob) as (_ & Hf & _).
  assert (H0 := n_direct _ (o_num _ _ Hw) _ _ Hx). destruct v as [n g]; cbn in Hob, Hg, Hk; cbn [f_inode f_private] in w1.
  assert (Hop : opens n (delete q (w_files w)) = 0).
  { rewrite (opens_delete n _ _ _ Hq). cbn. rewrite decide_True by done. lia. }
  assert (Hob1 : obj (drop_file i ino n f q g x w) i ino n f d).
  { destruct Hob. split; cbn; try done. rewrite lookup_insert_eq, Hop, Hk. done. }
  assert (Hw1 : wok (plus (ts_owner st) 1 nobody) w1).
  { apply wok_drop_anon; try done. by apply (wok_drop_file _ _ _ _ _ _ d). }
  split; [|done]. rewrite (release_steps q (mk_vfile n g) i ino f d x w) by (done || lia).
  assert (Ht : w_threads w !! ts_owner st = Some i) by apply (o_states _ _ Hw _ _ Hi).
  assert (Hi1 : w_states w1 !! i = Some (shrink ino st)) by apply lookup_insert_eq.
  erewrite bind_step; [|rewrite (put_anon_last i ino n f d 1 st); [|by destruct Hob|done|cbn|lia|by right]].
  2: { apply (put_task_state_eq _ i (shrink ino st)); [done|apply lookup_insert_eq|].
    by apply (last_reference_dent nobody i (shrink ino st) w1). }
  - unfold modify. rewrite unref_without_file. f_equal. f_equal.
    unfold w1, without_file, drop_anon, drop_file, finfo_put, w_with_files, w_with_finfos, w_with_direct. cbn.
    by rewrite delete_insert_eq.
  - rewrite (ob_iinfo _ _ _ _ _ _ Hob), Hk. done.
Qed.

Lemma close_ok q v w : wok nobody w -> w_files w !! q = Some v ->
  exists w', vfs_close q w = (Ok tt, w') /\ wok nobody w' /\ w_log w' = w_log w /\ (quiet w -> quiet w') /\
    w_files w' = delete q (w_files w) /\ (w_inodes w' !! f_inode v = None <-> opens (f_inode v) (w_files w) = 1).
Proof.
  intros Hw Hq. destruct (obj_file_live _ _ _ _ Hw Hq) as (i & ino & f & d & x & Hob & Hg & Hx).
  assert (Hpos := opens_pos _ _ _ Hq). set (n := f_inode v) in *. set (g := f_private v) in *.
  assert (Hq' : w_files w !! q = Some (mk_vfile n g)) by (by destruct v).
  assert (Hop : forall m, opens m (delete q (w_files w)) = opens m (w_files w) - if decide (n = m) then 1 else 0).
  { intros m. apply (opens_delete m _ _ _ Hq). }
  assert (Hwf : wok nobody (drop_file i ino n f q g x w)) by (by apply (wok_drop_file _ _ _ _ _ _ d)).
  destruct (decide (opens n (w_files w) = 1)) as [Hk|Hk].
  - destruct (ob_state _ _ _ _ _ _ Hob) as (st & Hi & Hn & Hd).
    destruct (close_last q v i ino f d x st w Hw Hq Hob Hi Hg Hx Hk) as [E Hw1].
    set (w1 := drop_anon _ _ _ _ _ _ _) in *. eexists. split; [exact E|].
    assert (Ht : w_threads w1 !! ts_owner st = Some i) by apply (o_states _ _ Hw _ _ Hi).
    split; [by apply (put_task_state_ok _ i nobody w1)|].
    destruct (unref_frame (ts_owner st) w1) as (-> & _ & _ & -> & -> & _). split; [done|].
    split; [|split; [done|split; [done|intros _; apply lookup_delete_eq]]].
    intros Hqu. apply (x_quiet _ _ (extends_unref (ts_owner st) nobody w1 Hw1 ltac:(done))).
    intros j sj jno m Hj Hnot Hm. cbn in *. rewrite Hop.
    assert (Hold : exists s0, w_states w !! j = Some s0 /\ ts_notifier s0 = false /\ ts_anon_inodes s0 !! jno = Some m /\ (j, jno) <> (i, ino)).
    { apply lookup_insert_Some in Hj as [[<- <-]|[Hne Hj]].
      - cbn in *. apply lookup_delete_Some in Hm as [Hne Hm]. exists st. repeat split; try done. congruence.
      - exists sj. repeat split; try done. congruence. }
    destruct Hold as (s0 & Hj0 & Hn0 & Hm0 & Hne). assert (H1 := Hqu _ _ _ _ Hj0 Hn0 Hm0).
    rewrite decide_False; [lia|]. intros <-. destruct (o_anon _ _ Hw _ _ _ _ Hj0 Hm0) as (_ & _ & f0 & d0 & Hob0).
    assert (E' := obj_inj _ _ _ _ _ _ _ _ _ _ _ Hob0 Hob ltac:(auto)). congruence.
  - eexists. split; [apply (close_shared nobody q v i ino f d x w); try done; fold n; lia|]. split; [done|]. split; [done|].
    split; [|split; [done|]]; [|cbn; fold n; rewrite (ob_inode _ _ _ _ _ _ Hob); done].
    intros Hqu j sj jno m Hj Hnot Hm. cbn in *. rewrite Hop. assert (H1 := Hqu _ _ _ _ Hj Hnot Hm).
    case_decide; [subst m; lia|lia].
Qed.
End task_calls.
