(* ===== verification/TaskExit.v ===== *)
(** The end of a task's address space: sivfs_mm_release terminates and leaves no
    anonymous inode without an open file. *)
From S2P Require Import Prelude Types TaskState TaskInv TaskOps TaskCalls.

Section task_exit.
Context `{HK : KernelPuts, HL : !KernelPutsLaws}.


(** File [k] has an anonymous inode that no file has open. *)
Definition idle (fs : gmap Z vfile) (st : tst) (k : Z) : bool :=
  match ts_anon_inodes st !! k with Some n => opens n fs =? 0 | None => false end.

Lemma keys_from_spec index t k : k ∈ keys_from index t <-> index <= k /\ is_Some (t !! k).
Proof.
  unfold keys_from. rewrite (merge_sort_Permutation Z.le), list_elem_of_filter, list_elem_of_fmap.
  split; intros [H1 H2]; split; try done.
  - destruct H2 as ([k' v] & -> & H2%elem_of_map_to_list). by exists v.
  - destruct H2 as [v Hv]. exists (k, v). by rewrite elem_of_map_to_list.
Qed.

Lemma keys_from_sorted index t : StronglySorted Z.lt (keys_from index t).
Proof.
  assert (H : StronglySorted Z.le (keys_from index t)) by apply (StronglySorted_merge_sort Z.le).
  assert (Hd : NoDup (keys_from index t)).
  { unfold keys_from. rewrite (merge_sort_Permutation Z.le). apply NoDup_filter, NoDup_fst_map_to_list. }
  induction H as [|k l Hl IH Hk]; constructor; apply NoDup_cons in Hd as [Hn Hd]; [auto|].
  rewrite Forall_forall in *. intros x Hx. specialize (Hk x Hx). assert (k <> x) by (intros ->; done). lia.
Qed.

Lemma lt_sorted_nodup l : StronglySorted Z.lt l -> NoDup l.
Proof.
  induction 1 as [|k l Hl IH Hk]; constructor; [|done]. rewrite Forall_forall in Hk.
  intros Hin. specialize (Hk k Hin). lia.
Qed.

(** One pass finds the idle files of a prefix of the keys, which is all of them or
    ends with the last one found. *)
Lemma mm_scan_ok held i st w keys nr : wok held w -> w_states w !! i = Some st ->
  (forall k, k ∈ keys -> is_Some (ts_anon_dentries st !! k)) ->
  exists pre post, keys = pre ++ post /\
    mm_scan (ts_anon_dentries st) keys nr w = (Ok (Some (filter (idle (w_files w) st) pre)), w) /\
    (post = [] \/ exists pre' k, pre = pre' ++ [k] /\ idle (w_files w) st k).
Proof.
  intros Hw Hi. revert nr. induction keys as [|k keys IH]; intros nr Hk.
  { exists [], []. auto. }
  destruct (Hk k) as [d Hd]; [left|]. destruct (o_dent _ _ Hw _ _ _ _ Hi Hd) as (n & f & Hob).
  destruct (obj_numbers _ _ _ _ _ _ _ Hw Hob) as (Pn & Pf & Pd).
  destruct Hob as [(st' & Hi' & Hn & _) H1 H2 H3]. assert (st' = st) as -> by congruence.
  assert (Hidle : idle (w_files w) st k = (refct (opens n (w_files w)) =? SIVFS_UNREFERENCED)).
  { unfold idle. rewrite Hn. destruct (refct_cases _ (opens_nonneg n (w_files w))) as [[-> ->]|[Hp ->]]; [done|].
    rewrite !(proj2 (Z.eqb_neq _ _)); [done|unfold SIVFS_UNREFERENCED; lia|lia]. }
  assert (Estep : mm_scan (ts_anon_dentries st) (k :: keys) nr w =
    if negb (idle (w_files w) st k) then mm_scan (ts_anon_dentries st) keys nr w
    else if (S nr =? EXIT_DELETE_BATCH)%nat then (Ok (Some [k]), w)
    else (let! o := mm_scan (ts_anon_dentries st) keys (S nr) in ret (cons k <$> o)) w).
  { cbn [mm_scan]. unfold get_dentry, sivfs_inode_to_iinfo, get_vinode, get_iinfo, bind, gets, lift, ret.
    rewrite Hd. cbn [deref]. rewrite (proj2 (Z.eqb_neq d 0)) by lia. rewrite H3. cbn [deref d_inode].
    rewrite (proj2 (Z.eqb_neq n 0)) by lia. rewrite H1. cbn [deref i_private].
    rewrite (proj2 (Z.eqb_neq f 0)) by lia. rewrite H2. cbn [deref ii_refcount]. rewrite Hidle.
    by destruct (refct _ =? _), (S nr =? EXIT_DELETE_BATCH)%nat. }
  assert (Hk' : forall k, k ∈ keys -> is_Some (ts_anon_dentries st !! k)) by (intros; apply Hk; by right).
  rewrite Estep. destruct (idle (w_files w) st k) eqn:Ek; cbn [negb].
  - destruct (S nr =? EXIT_DELETE_BATCH)%nat.
    + exists [k], keys. split; [done|]. split; [by rewrite filter_cons_True by (by rewrite Ek)|]. right. exists [], k. by rewrite Ek.
    + destruct (IH (S nr) Hk') as (pre & post & -> & E & Hor). exists (k :: pre), post. split; [done|].
      split; [rewrite (bind_step _ _ _ _ _ E), filter_cons_True by (by rewrite Ek); done|].
      destruct Hor as [|(pre' & k0 & -> & Hk0)]; [by left|right]. by exists (k :: pre'), k0.
  - destruct (IH nr Hk') as (pre & post & -> & E & Hor). exists (k :: pre), post. split; [done|].
    rewrite filter_cons_False by (rewrite Ek; by intros []). split; [done|].
    destruct Hor as [|(pre' & k0 & -> & Hk0)]; [by left|right]. by exists (k :: pre'), k0.
Qed.

(** The put of an idle file's anonymous inode. *)
Lemma put_idle_ok i st k w : wok nobody w -> w_states w !! i = Some st -> ts_notifier st = true -> idle (w_files w) st k ->
  exists w', sivfs_put_anon_inode i k w = (Ok tt, w') /\ wok nobody w' /\ w_log w' = w_log w /\ w_files w' = w_files w /\
    w_states w' = <[i := with_nref (ts_nref st - 1) (shrink k st)]> (w_states w).
Proof.
  intros Hw Hi Hnot Hk. unfold idle in Hk. destruct (ts_anon_inodes st !! k) as [n|] eqn:Hn; [|done].
  destruct (Z.eqb_spec (opens n (w_files w)) 0) as [Hop|]; [|done].
  destruct (o_anon _ _ Hw _ _ _ _ Hi Hn) as (_ & _ & f & d & Hob).
  destruct (obj_numbers _ _ _ _ _ _ _ Hw Hob) as (_ & Pf & _).
  destruct (o_states _ _ Hw _ _ Hi) as (Ht & Hr & _).
  assert (Hw1 := wok_drop_anon nobody w i st k n f d Hw Hi Hob Hop). set (w1 := drop_anon i st k n f d w) in *.
  assert (Hi1 : w_states w1 !! i = Some (shrink k st)) by apply lookup_insert_eq.
  destruct (put_task_state_ok (ts_owner st) i nobody w1 Hw1 ltac:(done) Ht) as [E Hw2].
  exists (unref (ts_owner st) w1). split; [|split; [done|]].
  - rewrite <- E. apply (put_anon_last _ _ _ _ _ (refct (opens n (w_files w)))); try done; [apply (ob_iinfo _ _ _ _ _ _ Hob)|lia|].
    rewrite Hop. by left.
  - destruct (unref_frame (ts_owner st) w1) as (Ef & _ & _ & El & _). split; [done|]. split; [done|].
    unfold unref. change (w_threads w1) with (w_threads w). rewrite Ht, Hi1.
    rewrite (proj2 (Z.eqb_neq _ 1)).
    + cbn. by rewrite insert_insert_eq.
    + cbn. rewrite Hr. unfold holders, nobody. rewrite Hnot. cbn.
      assert (H := size_delete_at _ _ _ Hn). lia.
Qed.

Lemma idle_shrink fs st k k' c : idle fs (with_nref c (shrink k st)) k' = if decide (k = k') then false else idle fs st k'.
Proof.
  unfold idle. cbn. case_decide as E; [subst; by rewrite lookup_delete_eq|by rewrite lookup_delete_ne].
Qed.

(** What the loop keeps: the state is there, with its notifier. *)
Record exiting (i : Z) (st : tst) (w : world) : Prop := mk_exiting {
  ex_wok : wok nobody w;
  ex_state : w_states w !! i = Some st;
  ex_notifier : ts_notifier st = true
}.

(** [w'] is [w] but for state [i] and the objects of its idle files. *)
Definition others_kept (i : Z) (w w' : world) : Prop :=
  w_files w' = w_files w /\ w_log w' = w_log w /\
  forall j, j <> i -> w_states w' !! j = w_states w !! j.

Lemma mm_put_ok i l : forall st index w, exiting i st w -> NoDup l ->
  (forall k, k ∈ l -> idle (w_files w) st k) ->
  exists st' w', mm_put i l index w = (Ok (Some (default index (last l))), w') /\ exiting i st' w' /\ others_kept i w w' /\
    ts_owner st' = ts_owner st /\
    (forall k, idle (w_files w) st' k = if decide (k ∈ l) then false else idle (w_files w) st k) /\
    (length l + size (ts_anon_dentries st') <= size (ts_anon_dentries st))%nat.
Proof.
  induction l as [|k l IH]; intros st index w Hex Hnd Hl.
  { exists st, w. by split_and!. }
  apply NoDup_cons in Hnd as [Hkl Hnd]. destruct Hex as [Hw Hi Hnot].
  destruct (put_idle_ok i st k w Hw Hi Hnot) as (w1 & E1 & Hw1 & Hl1 & Hf1 & Hs1); [apply Hl; left|].
  set (st1 := with_nref (ts_nref st - 1) (shrink k st)) in *.
  assert (Hi1 : w_states w1 !! i = Some st1) by (rewrite Hs1; apply lookup_insert_eq).
  destruct (IH st1 k w1) as (st' & w' & E & Hex' & (Hf & Hlog & Ho) & Hown & Hid & Hsz).
  { split; done. }
  { done. }
  { intros k' Hk'. rewrite Hf1. unfold st1. rewrite idle_shrink, decide_False; [apply Hl; by right|]. intros ->. done. }
  exists st', w'. split.
  { cbn [mm_put]. rewrite (bind_step _ _ _ _ _ E1), (bind_step _ _ _ _ _ (get_state_ok _ _ _ Hi1)). cbn [ts_anon_dentries st1 with_nref shrink].
    rewrite lookup_delete_eq, E, last_cons. by destruct (last l). }
  split; [done|]. split; [|split; [done|split]].
  - split; [congruence|]. split; [congruence|]. intros j Hj. rewrite Ho by done. rewrite Hs1. by apply lookup_insert_ne.
  - intros k'. rewrite <- Hf1, Hid. unfold st1. rewrite idle_shrink, Hf1.
    destruct (decide (k' ∈ l)), (decide (k = k')), (decide (k' ∈ k :: l)); try done; set_solver.
  - assert (Hk := Hl k ltac:(left)). unfold idle in Hk. destruct (ts_anon_inodes st !! k) as [n|] eqn:Hn; [|done].
    destruct (o_anon _ _ Hw _ _ _ _ Hi Hn) as (_ & _ & f & d & [(st0 & Hi0 & _ & Hd) _ _ _]).
    assert (st0 = st) as -> by congruence. assert (Hsd := size_delete_at _ _ _ Hd). cbn in *. lia.
Qed.

Lemma others_kept_trans i w1 w2 w3 : others_kept i w1 w2 -> others_kept i w2 w3 -> others_kept i w1 w3.
Proof. intros (? & ? & H1) (? & ? & H2). split_and!; [congruence..|]. intros j Hj. rewrite H2 by done. auto. Qed.

(** Enough fuel is one more than the number of anonymous inodes: every pass but
    the last removes one. *)
Lemma mm_loop_ok i fuel : forall st index w, exiting i st w -> (size (ts_anon_dentries st) < fuel)%nat ->
  0 <= index -> (forall k, k < index -> idle (w_files w) st k = false) ->
  exists st' w', mm_loop fuel i index w = (Ok true, w') /\ exiting i st' w' /\ others_kept i w w' /\
    ts_owner st' = ts_owner st /\ forall k, idle (w_files w) st' k = false.
Proof.
  induction fuel as [|fuel IH]; intros st index w Hex Hfuel H0 Hlow; [lia|]. assert (Hex' := Hex). destruct Hex' as [Hw Hi Hnot].
  cbn [mm_loop]. rewrite (bind_step _ _ _ _ _ (get_state_ok _ _ _ Hi)).
  destruct (mm_scan_ok nobody i st w (keys_from index (ts_anon_dentries st)) 0 Hw Hi) as (pre & post & Ekeys & Escan & Hor).
  { intros k Hk. by apply keys_from_spec in Hk as [_ ?]. }
  set (l := filter _ pre) in *. rewrite (bind_step _ _ _ _ _ Escan).
  assert (Hkeys := keys_from_sorted index (ts_anon_dentries st)). rewrite Ekeys in Hkeys.
  assert (Hall : forall k, idle (w_files w) st k -> index <= k /\ k ∈ pre ++ post).
  { intros k Hk. assert (index <= k) by (destruct (Z.le_gt_cases index k); [done|by rewrite Hlow in Hk]).
    split; [done|]. rewrite <- Ekeys. apply keys_from_spec. split; [done|]. unfold idle in Hk.
    destruct (ts_anon_inodes st !! k) as [n|] eqn:Hn; [|done].
    destruct (o_anon _ _ Hw _ _ _ _ Hi Hn) as (_ & _ & f & d & [(st0 & Hi0 & _ & Hd) _ _ _]).
    assert (st0 = st) as -> by congruence. by exists d. }
  assert (Hend : forall k, idle (w_files w) st k -> k ∈ l \/ l <> [] /\ default index (last l) < k).
  { intros k Hk. destruct (Hall k Hk) as [Hle Hin]. apply elem_of_app in Hin as [Hin|Hin].
    - left. by apply list_elem_of_filter.
    - right. destruct Hor as [->|(pre' & k0 & -> & Hk0)]; [by apply not_elem_of_nil in Hin|].
      unfold l. rewrite filter_app, filter_cons_True, filter_nil by done. rewrite last_snoc. split.
      + intros H%(f_equal length). rewrite length_app in H. cbn in H. lia.
      + apply (StronglySorted_app_1_elem_of _ _ _ _ _ Hkeys); [|done]. apply elem_of_app. right. by left. }
  destruct (mm_put_ok i l st index w Hex) as (st1 & w1 & Eput & Hex1 & Ho1 & Hown1 & Hid1 & Hsz1).
  { apply NoDup_filter, lt_sorted_nodup. by apply StronglySorted_app_1_l in Hkeys. }
  { intros k Hk. by apply list_elem_of_filter in Hk as [? _]. }
  rewrite (bind_step _ _ _ _ _ Eput). case_bool_decide as El.
  - exists st1, w1. do 4 (split; [done|]). intros k. rewrite Hid1. case_decide as Hd; [done|].
    destruct (idle (w_files w) st k) eqn:Ek; [|done]. destruct (Hend k) as [?|[? _]]; [by rewrite Ek|done|done].
  - destruct (last l) as [k|] eqn:Elast; [|by apply last_None in Elast]. cbn [default] in *. unfold id in *.
    assert (Hkl : k ∈ l) by by apply last_Some_elem_of. assert (Hk := Hkl). apply list_elem_of_filter in Hk as [Hki Hkp].
    destruct (Hall k Hki) as [Hle _].
    assert (Hk32 : k < 2 ^ 32).
    { unfold idle in Hki. destruct (ts_anon_inodes st !! k) as [n|] eqn:Hn; [|done]. by apply (o_anon _ _ Hw _ _ _ _ Hi Hn). }
    rewrite uadd_small by (change (2 ^ 32) with 4294967296 in Hk32; u64_lia).
    destruct Ho1 as (Hf1 & Hlog1 & Hoth1).
    destruct (IH st1 (k + 1) w1 Hex1) as (st2 & w2 & E2 & Hex2 & Ho2 & Hown2 & Hid2).
    + destruct l; [done|]. cbn in Hsz1. lia.
    + lia.
    + intros k' Hk'. rewrite Hf1, Hid1. case_decide as Hd; [done|].
      destruct (idle (w_files w) st k') eqn:Ek; [|done]. destruct (Hend k') as [?|[_ ?]]; [by rewrite Ek|done|lia].
    + exists st2, w2. split; [exact E2|]. split; [done|]. split; [|split; [congruence|by rewrite <- Hf1]].
      by eapply others_kept_trans.
Qed.

(** What is left of the state: nothing, or files that are open. *)
Lemma mm_release_ok fuel i st w : wok nobody w -> quiet w -> w_states w !! i = Some st -> ts_notifier st = true ->
  (size (ts_anon_dentries st) < fuel)%nat ->
  exists w', sivfs_mm_release fuel i w = (Ok tt, w') /\ wok nobody w' /\ quiet w' /\ w_log w' = w_log w /\
    w_files w' = w_files w /\
    (forall st', w_states w' !! i = Some st' -> ts_notifier st' = false).
Proof.
  intros Hw Hq Hi Hnot Hfuel. unfold sivfs_mm_release. rewrite (bind_step _ _ _ _ _ (get_state_ok _ _ _ Hi)), Hnot.
  erewrite bind_step; [|done].
  destruct (mm_loop_ok i fuel st 0 w) as (st1 & w1 & E & [Hw1 Hi1 Hn1] & (Hf1 & Hl1 & Ho1) & Hown & Hidle); [done|done|lia| |].
  { intros k Hk. destruct (idle (w_files w) st k) eqn:Ek; [|done]. unfold idle in Ek.
    destruct (ts_anon_inodes st !! k) as [n|] eqn:Hn; [|done]. destruct (o_anon _ _ Hw _ _ _ _ Hi Hn) as (? & _). lia. }
  rewrite (bind_step _ _ _ _ _ E). cbn [negb]. rewrite (bind_step _ _ _ _ _ (get_state_ok _ _ _ Hi1)).
  set (st2 := with_notifier false st1). set (w2 := put_st i st2 w1).
  assert (E2 : set_state i st2 w1 = (Ok tt, w2)) by done. rewrite (bind_step _ _ _ _ _ E2).
  destruct (o_states _ _ Hw1 _ _ Hi1) as (Ht1 & Hr1 & Hp1).
  assert (Hw2 : wok (plus (ts_owner st1) 1 nobody) w2).
  { apply (wok_set_state w1 i st1 st2 Hi1 eq_refl eq_refl nobody); try done.
    - cbn. rewrite Hr1. unfold holders, plus. cbn. rewrite Hn1, decide_True by done. cbn. lia.
    - intros t Hne. unfold plus. by rewrite decide_False. }
  assert (Hq2 : quiet w2).
  { intros j sj ino n Hj Hnf Hn. cbn in *. rewrite Hf1. apply lookup_insert_Some in Hj as [[<- <-]|[Hne Hj]].
    - cbn in Hn. specialize (Hidle ino). unfold idle in Hidle. rewrite Hn in Hidle. apply Z.eqb_neq in Hidle.
      assert (H := opens_nonneg n (w_files w)). lia.
    - rewrite Ho1 in Hj by done. by apply (Hq j sj ino). }
  destruct (put_task_state_ok (ts_owner st1) i nobody w2 Hw2 ltac:(done) Ht1) as [E3 Hw3].
  exists (unref (ts_owner st1) w2). split; [exact E3|]. split; [done|].
  split; [by apply (x_quiet _ _ (extends_unref _ _ _ Hw2 ltac:(done)))|].
  destruct (unref_frame (ts_owner st1) w2) as (-> & _ & _ & -> & _). split; [done|]. split; [done|].
  intros st' Hst'. unfold unref in Hst'. change (w_threads w2) with (w_threads w1) in Hst'. rewrite Ht1 in Hst'.
  unfold w2 in Hst' at 1. cbn in Hst'. rewrite lookup_insert_eq in Hst'. destruct (_ =? 1) in Hst'; cbn in Hst'.
  - by rewrite lookup_delete_eq in Hst'.
  - rewrite lookup_insert_eq in Hst'. by injection Hst' as <-.
Qed.
End task_exit.
