(* ===== verification/TaskSteps.v ===== *)
(** Tasks that open and close files, and end: the properties of task states and
    anonymous inodes that hold in every reachable world. *)
From S2P Require Import Prelude Types TaskState TaskInv TaskOps TaskCalls TaskExit.

Section task_steps.
Context `{HK : KernelPuts, HL : !KernelPutsLaws}.

(** ** The system *)

(** Calls of the system on behalf of any tasks, one after the other. A file has
    less than the most opens when it is opened, and the first update of a task
    does not abort; the theorems at the end show what happens otherwise. *)
Inductive task_step : world -> world -> Prop :=
  | step_open ev t ino w : 0 <= ino < 2 ^ 32 -> te_update ev <> Some true -> room t ino w ->
      task_step w (vfs_open ev t ino w).2
  | step_select ev t ino w : 0 <= ino < 2 ^ 32 -> te_update ev <> Some true ->
      task_step w (sivfs_d_select_anon_inode ev t ino w).2
  | step_real ev t ino qu open_flags w : 0 <= ino < 2 ^ 32 -> te_update ev <> Some true -> proper_query qu open_flags ->
      task_step w (sivfs_d_real ev t ino qu open_flags w).2
  | step_close q w : is_Some (w_files w !! q) -> task_step w (vfs_close q w).2
  | step_mm_release fuel i st w : w_states w !! i = Some st -> ts_notifier st = true ->
      (size (ts_anon_dentries st) < fuel)%nat -> task_step w (sivfs_mm_release fuel i w).2.

Definition task_reachable : world -> Prop := reachable (eq empty_world) task_step.

Record good (w : world) : Prop := mk_good { g_wok : wok nobody w; g_quiet : quiet w; g_log : w_log w = [] }.

Lemma wok_empty : wok nobody empty_world.
Proof. by split. Qed.

Lemma task_reachable_good w : task_reachable w -> good w.
Proof.
  intros H. refine (invariant_reachable (eq empty_world) task_step good _ _ w H); clear w H.
  - intros w <-. split; [apply wok_empty|done|done].
  - intros w w' [Hw Hq Hl] Hs. destruct Hs as [ev t ino w Hino Hup Hroom|ev t ino w Hino Hup|ev t ino qu fl w Hino Hup Hqu|q w [v Hv]|fuel i st w Hi Hn Hf].
    + destruct (open_ok ev t ino w Hw Hino Hup Hroom) as (r & w' & -> & Hw' & Hl' & Hq' & _). split; [done|auto|]. cbn. congruence.
    + destruct (select_ok ev t ino w Hw Hino Hup) as (r & w' & -> & Hw' & Hx & Hl' & _). split; [done|by apply (x_quiet _ _ Hx)|]. cbn. congruence.
    + destruct (d_real_ok ev t ino qu fl w Hw Hino Hup Hqu) as (r & w' & -> & Hw' & Hx & Hl'). split; [done|by apply (x_quiet _ _ Hx)|]. cbn. congruence.
    + destruct (close_ok q v w Hw Hv) as (w' & -> & Hw' & Hl' & Hq' & _). split; [done|auto|]. cbn. congruence.
    + destruct (mm_release_ok fuel i st w Hw Hq Hi Hn Hf) as (w' & -> & Hw' & Hq' & Hl' & _). split; [done|done|]. cbn. congruence.
Qed.

(** ** What holds in every reachable world *)

(** The references to a state are its anonymous inodes and its notifier. Every
    anonymous inode of a state is an [obj]: it and its directory entry have one
    reference, and its info counts the open files, at most 100. Every inode,
    info and directory entry is one of these, every open file leads to live
    objects, and every private record and open underlying file belongs to an
    open file. *)
Record accounted (w : world) : Prop := mk_accounted {
  ac_threads : forall t i, w_threads w !! t = Some i -> exists st, w_states w !! i = Some st /\ ts_owner st = t;
  ac_states : forall i st, w_states w !! i = Some st -> w_threads w !! ts_owner st = Some i /\
    ts_nref st = Z.of_nat (size (ts_anon_inodes st)) + Z.b2z (ts_notifier st) /\ 0 < ts_nref st;
  ac_anon : forall i st ino, w_states w !! i = Some st ->
    match ts_anon_inodes st !! ino, ts_anon_dentries st !! ino with
    | Some n, Some d => opens n (w_files w) <= SIVFS_IINFO_MAX_REFCOUNT /\ exists f, obj w i ino n f d
    | None, None => True
    | _, _ => False
    end;
  ac_files : forall q v, w_files w !! q = Some v -> exists i ino f d x, obj w i ino (f_inode v) f d /\
    w_iinfos w !! f = Some (mk_iinfo (opens (f_inode v) (w_files w)) ino i) /\
    w_finfos w !! f_private v = Some (mk_finfo q i x) /\ w_direct w !! x = Some 1;
  ac_inodes : forall n v, w_inodes w !! n = Some v -> exists i ino f d, obj w i ino n f d;
  ac_iinfos : forall f ii, w_iinfos w !! f = Some ii -> exists i ino n d, obj w i ino n f d;
  ac_dentries : forall d de, w_dentries w !! d = Some de -> exists i ino n f, obj w i ino n f d;
  ac_finfos : forall g fi, w_finfos w !! g = Some fi -> exists v, w_files w !! fi_file fi = Some v /\ f_private v = g;
  ac_direct : forall x c, w_direct w !! x = Some c -> exists q v fi, w_files w !! q = Some v /\
    w_finfos w !! f_private v = Some fi /\ fi_direct_access_file fi = x
}.

Lemma good_accounted w : good w -> accounted w.
Proof.
  intros [Hw _ _]. assert (Ho := o_objs _ _ Hw). split; [by apply (o_threads _ _ Hw)|..].
  - intros i st Hi. destruct (o_states _ _ Hw _ _ Hi) as (? & Hr & ?). unfold holders, nobody in Hr. split_and!; [done|lia|done].
  - intros i st ino Hi. destruct (ts_anon_inodes st !! ino) as [n|] eqn:Hn.
    + destruct (o_anon _ _ Hw _ _ _ _ Hi Hn) as (_ & Hm & f & d & Hob).
      destruct (ob_state _ _ _ _ _ _ Hob) as (st' & Hi' & _ & Hd). assert (st' = st) as -> by congruence. rewrite Hd. eauto.
    + destruct (ts_anon_dentries st !! ino) as [d|] eqn:Hd; [|done].
      destruct (o_dent _ _ Hw _ _ _ _ Hi Hd) as (n & f & [(st' & Hi' & Hn' & _) _ _ _]). congruence.
  - intros q v Hq. destruct (obj_file_live _ _ _ _ Hw Hq) as (i & ino & f & d & x & Hob & Hg & Hx).
    exists i, ino, f, d, x. split_and!; try done. rewrite (ob_iinfo _ _ _ _ _ _ Hob). unfold refct.
    assert (Hop := opens_pos _ _ _ Hq). by rewrite (proj2 (Z.eqb_neq _ 0)) by lia.
  - apply Ho.
  - apply Ho.
  - apply Ho.
  - apply (o_finfos _ _ Hw).
  - intros x c Hx. destruct (o_direct _ _ Hw _ _ Hx) as (g & fi & Hg & <-).
    destruct (o_finfos _ _ Hw _ _ Hg) as (v & Hv & <-). by exists (fi_file fi), v, fi.
Qed.

(** C33. References are exact. Whatever calls any tasks made, one whole call
    after the other - opening and closing files, selecting inodes, resolving
    directory entries, ending - every count of a task state, anonymous inode,
    info, directory entry and open underlying file is the number of its
    references, none of these objects is lost, and the kernel logged no
    complaint. The calls include those that fail for want of memory or
    descriptors. They leave out two whose failure corrupts the world: the open
    of a file that is open 100 times (inode.c:1550, [full_open_faults]) and a
    first update of a task that aborts (sivfs_workingset.c:108). *)
Theorem references_are_exact w (H : task_reachable w) : accounted w /\ w_log w = [].
Proof. assert (Hg := task_reachable_good w H). split; [by apply good_accounted|apply Hg]. Qed.

Lemma opens_some n fs : 0 < opens n fs -> exists q v, fs !! q = Some v /\ f_inode v = n.
Proof.
  unfold opens. intros H. set (m := filter _ fs) in *.
  destruct (map_choose m) as (q & v & Hq).
  { intros ->. by rewrite map_size_empty in H. }
  apply map_lookup_filter_Some in Hq as [Hq Hn]. by exists q, v.
Qed.

(** A state without a notifier has an open file. *)
Lemma state_without_notifier w i st : good w -> w_states w !! i = Some st -> ts_notifier st = false ->
  exists q v fi, w_files w !! q = Some v /\ w_finfos w !! f_private v = Some fi /\ fi_state fi = i.
Proof.
  intros [Hw Hq _] Hi Hn. destruct (o_states _ _ Hw _ _ Hi) as (_ & Hr & Hp). unfold holders, nobody in Hr.
  rewrite Hn in Hr. cbn in Hr. destruct (map_choose (ts_anon_inodes st)) as (ino & n & Ha).
  { intros E. rewrite E, map_size_empty in Hr. lia. }
  assert (Ho := Hq _ _ _ _ Hi Hn Ha). apply opens_some in Ho as (q & v & Hqv & <-).
  destruct (obj_file_live _ _ _ _ Hw Hqv) as (j & jno & f & d & x & Hob & Hg & _).
  exists q, v, (mk_finfo q j x). split; [done|]. split; [done|]. cbn.
  destruct (o_anon _ _ Hw _ _ _ _ Hi Ha) as (_ & _ & f' & d' & Hob').
  assert (E := obj_inj _ _ _ _ _ _ _ _ _ _ _ Hob Hob' ltac:(auto)). congruence.
Qed.

(** C34. Nothing is lost. After any such calls, failed ones included, when no
    file is open and every address space has ended, all task states, inodes,
    infos, directory entries, private records and underlying files are freed.
    As in C33 the calls run one after the other and leave out an open of a file
    that is open 100 times and a first update that aborts. *)
Theorem nothing_is_lost w (H : task_reachable w) (Hfiles : w_files w = ∅)
  (Hexit : forall i st, w_states w !! i = Some st -> ts_notifier st = false) :
  w = mk_world ∅ ∅ ∅ ∅ ∅ ∅ ∅ ∅ (w_next w) [].
Proof.
  assert (Hg := task_reachable_good w H).
  assert (Hs : forall i, w_states w !! i = None).
  { intros i. destruct (w_states w !! i) as [st|] eqn:Hi; [|done].
    destruct (state_without_notifier _ _ _ Hg Hi (Hexit _ _ Hi)) as (q & v & _ & Hq & _). by rewrite Hfiles in Hq. }
  destruct Hg as [Hw _ Hl]. assert (Hob : forall i ino n f d, ~ obj w i ino n f d).
  { intros * [(st & Hi & _) _ _ _]. by rewrite Hs in Hi. }
  destruct (o_objs _ _ Hw) as [H1 H2 H3 _].
  assert (Hf : forall g, w_finfos w !! g = None).
  { intros g. destruct (w_finfos w !! g) as [fi|] eqn:Hg; [|done].
    destruct (o_finfos _ _ Hw _ _ Hg) as (v & Hv & _). by rewrite Hfiles in Hv. }
  rewrite <- (world_eta w) at 1. rewrite Hl, Hfiles. f_equal; apply map_empty; intros k.
  - destruct (w_threads w !! k) as [i|] eqn:Hk; [|done]. destruct (o_threads _ _ Hw _ _ Hk) as (st & Hi & _). by rewrite Hs in Hi.
  - apply Hs.
  - destruct (w_inodes w !! k) eqn:Hk; [|done]. destruct (H1 _ _ Hk) as (? & ? & ? & ? & Ho). by apply Hob in Ho.
  - destruct (w_iinfos w !! k) eqn:Hk; [|done]. destruct (H2 _ _ Hk) as (? & ? & ? & ? & Ho). by apply Hob in Ho.
  - destruct (w_dentries w !! k) eqn:Hk; [|done]. destruct (H3 _ _ Hk) as (? & ? & ? & ? & Ho). by apply Hob in Ho.
  - apply Hf.
  - destruct (w_direct w !! k) eqn:Hk; [|done]. destruct (o_direct _ _ Hw _ _ Hk) as (g & fi & Hg & _). by rewrite Hf in Hg.
Qed.

(** Opening a file. *)
Theorem open_outcome ev t ino w (H : task_reachable w) (Hino : 0 <= ino < 2 ^ 32)
  (Hup : te_update ev <> Some true) (Hroom : room t ino w) :
  match vfs_open ev t ino w with
  | (Ok q, w') => w_files w !! q = None /\ (forall t' ino' n, usable t' ino' n w -> usable t' ino' n w') /\
      exists n g, usable t ino n w' /\ w_files w' = <[q := mk_vfile n g]> (w_files w)
  | (Err _, w') => w_files w' = w_files w /\ (forall t' ino' n, usable t' ino' n w -> usable t' ino' n w')
  | _ => False
  end.
Proof.
  destruct (task_reachable_good w H) as [Hw _ _].
  destruct (open_ok ev t ino w Hw Hino Hup Hroom) as (r & w' & -> & _ & _ & _ & Hr). destruct r; try done.
  - destruct Hr as [? (n & g & ? & ?) ?]. eauto 10.
  - split; [apply Hr|apply Hr].
Qed.

(** C35. Closing a file succeeds, removes just that file, and frees its
    anonymous inode exactly when no other file has it open. *)
Theorem close_outcome q v w (H : task_reachable w) (Hq : w_files w !! q = Some v) :
  exists w', vfs_close q w = (Ok tt, w') /\ w_files w' = delete q (w_files w) /\
    (w_inodes w' !! f_inode v = None <-> forall q' v', w_files w !! q' = Some v' -> f_inode v' = f_inode v -> q' = q).
Proof.
  destruct (task_reachable_good w H) as [Hw _ _].
  destruct (close_ok q v w Hw Hq) as (w' & E & _ & _ & _ & Hf & Hi). exists w'. do 2 (split; [done|]). rewrite Hi.
  assert (Hd := opens_delete (f_inode v) _ _ _ Hq). rewrite decide_True in Hd by done. split.
  - intros Hone q' v' Hq' Hn. destruct (decide (q' = q)) as [|Hne]; [done|].
    assert (Hq2 : delete q (w_files w) !! q' = Some v') by (by rewrite lookup_delete_ne).
    apply opens_pos in Hq2. rewrite Hn in Hq2. lia.
  - intros Hall. assert (H0 := opens_nonneg (f_inode v) (delete q (w_files w))).
    destruct (Z.eq_dec (opens (f_inode v) (delete q (w_files w))) 0) as [|Hne]; [lia|].
    destruct (opens_some (f_inode v) (delete q (w_files w))) as (q' & v' & Hq' & Hn); [lia|].
    apply lookup_delete_Some in Hq' as [Hne' Hq']. destruct Hne'. symmetry. by apply (Hall q' v').
Qed.

(** C36. The end of an address space: sivfs_mm_release returns, closes no file,
    and the state is freed unless one of its files is open. *)
Theorem exit_outcome fuel i st w (H : task_reachable w) (Hi : w_states w !! i = Some st) (Hn : ts_notifier st = true)
  (Hfuel : (size (ts_anon_dentries st) < fuel)%nat) :
  exists w', sivfs_mm_release fuel i w = (Ok tt, w') /\ w_files w' = w_files w /\
    (w_states w' !! i = None \/
     exists q v fi, w_files w !! q = Some v /\ w_finfos w' !! f_private v = Some fi /\ fi_state fi = i).
Proof.
  destruct (task_reachable_good w H) as [Hw Hq Hl].
  destruct (mm_release_ok fuel i st w Hw Hq Hi Hn Hfuel) as (w' & E & Hw' & Hq' & Hl' & Hf & Hnot).
  exists w'. do 2 (split; [done|]). destruct (w_states w' !! i) as [st'|] eqn:Hi'; [right|by left].
  rewrite <- Hf. apply (state_without_notifier w' i st'); [|done|by apply Hnot]. split; [done|done|congruence].
Qed.

(** C37. One anonymous inode per task and file: what was selected once is found
    again by selection and by sivfs_d_real, whatever memory there is then, and
    finding it changes nothing. *)
Theorem selection_is_stable ev ev' t ino n w w' (H : task_reachable w) (Hino : 0 <= ino < 2 ^ 32)
  (Hup : te_update ev <> Some true) (Hsel : sivfs_d_select_anon_inode ev t ino w = (Ok n, w')) :
  w_files w' = w_files w /\ sivfs_d_select_anon_inode ev' t ino w' = (Ok n, w') /\
  exists d, w_dentries w' !! d = Some (mk_dentry 1 n) /\
    sivfs_d_real ev' t ino (mk_query false false false false false true) 0 w' = (Ok (Some d), w').
Proof.
  destruct (task_reachable_good w H) as [Hw _ _].
  destruct (select_ok ev t ino w Hw Hino Hup) as (r & w1 & E & Hw' & Hx & _ & Hu). rewrite Hsel in E. injection E as <- <-.
  split; [apply (x_files _ _ Hx)|]. split.
  - destruct (with_anon_dentry_again ev' t ino n (fun d => let! de := get_dentry d in ret (d_inode de)) (fun _ => n) w') as (d & _ & ?); try done.
    intros i f d w0 Hob. unfold get_dentry, bind, gets, lift. by rewrite (ob_dentry _ _ _ _ _ _ Hob).
  - destruct (with_anon_dentry_again ev' t ino n (fun d => ret (Some d)) Some w') as (d & ? & ?); try done. by exists d.
Qed.

(** The check before an operation outside a transaction. *)
Theorem check_nontxnal_outcome ev has_pages ino i st w (H : task_reachable w) (Hi : w_states w !! i = Some st) :
  (ts_anon_dentries st !! ino = None -> (sivfs_check_nontxnal_op ev has_pages ino i w).1 = Fault) /\
  (forall n f d, obj w i ino n f d -> 0 < opens n (w_files w) < SIVFS_IINFO_MAX_REFCOUNT ->
    sivfs_check_nontxnal_op ev has_pages ino i w = (Ok (negb (has_pages n)), w)).
Proof.
  destruct (task_reachable_good w H) as [Hw _ _]. unfold sivfs_check_nontxnal_op. split.
  - intros Hd. unfold sivfs_get_anon_inode. unfold bind at 1. rewrite (bind_step _ _ _ _ _ (get_state_ok _ _ _ Hi)), Hd. done.
  - intros n f d Hob Hop. destruct (obj_numbers _ _ _ _ _ _ _ Hw Hob) as (_ & Pf & _).
    assert (Hob' := Hob). destruct Hob' as [(st' & Hi' & Hn & Hd) H1 H2 H3]. assert (st' = st) as -> by congruence.
    set (k := opens n (w_files w)) in *.
    assert (Er : refct k = k) by (unfold refct; rewrite (proj2 (Z.eqb_neq _ 0)) by lia; done).
    set (w1 := w_with_iinfos (<[f := mk_iinfo (k + 1) ino i]> (w_iinfos w)) w).
    assert (Eg : sivfs_get_anon_inode ev i ino 0 w = (Ok d, w1)).
    { unfold sivfs_get_anon_inode. rewrite (bind_step _ _ _ _ _ (get_state_ok _ _ _ Hi)), Hd.
      change (Z.land 0 SIVFS_SKIP_REFCOUNT =? 0) with true. cbv iota.
      erewrite bind_step; [|unfold get_dentry, bind, gets, lift; by rewrite H3].
      erewrite bind_step; [|unfold sivfs_inode_to_iinfo, get_vinode, bind, gets, lift, ret; cbn; by rewrite H1].
      cbn [i_private]. rewrite (proj2 (Z.eqb_neq f 0)) by lia.
      erewrite bind_step; [|rewrite (take_reference_ok f ino i k) by (done || lia); rewrite (proj2 (Z.ltb_lt _ _)) by lia; done]. done. }
    rewrite (bind_step _ _ _ _ _ Eg). erewrite bind_step; [|unfold get_dentry, bind, gets, lift; cbn; by rewrite H3]. cbv zeta.
    erewrite bind_step; [|apply (put_anon_shared i ino n f (k + 1) st); [done|done|done|cbn; by rewrite lookup_insert_eq|lia|lia]].
    unfold ret. cbn. f_equal. unfold w1, w_with_iinfos. cbn. rewrite insert_insert_eq, insert_id; [by rewrite world_eta|].
    rewrite H2, Er. do 2 f_equal. lia.
Qed.

(** The hundred-and-first open of a file is not refused but puts the underlying
    file twice. *)
Theorem full_open_faults ev t ino n w (H : task_reachable w) (Hu : usable t ino n w)
  (Hfull : opens n (w_files w) = SIVFS_IINFO_MAX_REFCOUNT) (Hfi : te_finfo ev = true) (Hdi : te_direct ev = true) :
  (vfs_open ev t ino w).1 = Fault.
Proof.
  destruct (task_reachable_good w H) as [Hw _ _].
  destruct (with_anon_dentry_again ev t ino n (fun d => let! de := get_dentry d in ret (d_inode de)) (fun _ => n) w) as (d0 & _ & Es); try done.
  { intros i f d w0 Hob. unfold get_dentry, bind, gets, lift. by rewrite (ob_dentry _ _ _ _ _ _ Hob). }
  destruct Hu as (i & st & f & d & Hob & Hi & Ho). destruct (obj_numbers _ _ _ _ _ _ _ Hw Hob) as (_ & Pf & _).
  assert (Ht : w_threads w !! t = Some i) by (rewrite <- Ho; apply (o_states _ _ Hw _ _ Hi)).
  assert (Hpos := n_next _ (o_num _ _ Hw)).
  unfold vfs_open, sivfs_d_select_anon_inode. rewrite (bind_step _ _ _ _ _ Es).
  erewrite bind_step; [|done]. erewrite bind_step; [|done]. unfold bind at 1, on_error at 1, sivfs_anon_open.
  unfold sivfs_new_finfo, sivfs_open_direct_access. rewrite Hfi, Hdi. erewrite bind_step; [|done]. unfold on_error at 1.
  erewrite bind_step; [|done]. cbv zeta. erewrite bind_step; [|unfold sivfs_task_to_state, gets; cbn; by rewrite Ht].
  cbv beta iota. erewrite bind_step; [|done]. erewrite bind_step; [|done].
  erewrite bind_step; [|unfold sivfs_inode_to_iinfo, get_vinode, bind, gets, lift, ret; cbn; by rewrite (ob_inode _ _ _ _ _ _ Hob)].
  cbn [i_private]. rewrite (proj2 (Z.eqb_neq f 0)) by lia.
  unfold on_error at 1. rewrite (take_reference_ok f ino i SIVFS_IINFO_MAX_REFCOUNT); [|rewrite <- Hfull; apply (ob_iinfo _ _ _ _ _ _ Hob)|done].
  cbn [Z.ltb Z.eqb Z.compare Pos.compare Pos.compare_cont Pos.eqb SIVFS_IINFO_MAX_REFCOUNT].
  rewrite k_fput_last by (cbn; apply lookup_insert_eq).
  unfold sivfs_put_finfo, bind, gets, lift. cbn. rewrite lookup_insert_eq. cbn.
  rewrite (proj2 (Z.eqb_neq _ 0)) by lia. rewrite k_fput_freed; [done|]. cbn. apply lookup_delete_eq.
Qed.

End task_steps.

(** ** A task that opens one file again and again *)

Definition demo_env : tenv := mk_tenv true true true true true true true true true (Some false) true true.
Definition crowd (k : nat) : world := Nat.iter k (fun w => (vfs_open demo_env 77 5 w).2) empty_world.

Lemma opens_size n fs : opens n fs <= Z.of_nat (size fs).
Proof. unfold opens. apply Nat2Z.inj_le, map_subseteq_size, map_filter_subseteq. Qed.

Lemma crowd_reachable k : (k <= 100)%nat -> task_reachable (crowd k) /\ (size (w_files (crowd k)) <= k)%nat.
Proof.
  induction k as [|k IH]; intros Hk; [split; [by constructor|done]|]. destruct IH as [Hr Hs]; [lia|].
  assert (Hroom : room 77 5 (crowd k)).
  { intros n _. assert (H := opens_size n (w_files (crowd k))). unfold SIVFS_IINFO_MAX_REFCOUNT. lia. }
  split; [apply reach_step with (crowd k); [done|]; by apply step_open|].
  change (crowd (S k)) with (vfs_open demo_env 77 5 (crowd k)).2.
  destruct (task_reachable_good _ Hr) as [Hw _ _].
  destruct (open_ok demo_env 77 5 (crowd k) Hw ltac:(lia) ltac:(done) Hroom) as (r & w' & -> & _ & _ & _ & Hres). cbn.
  destruct r as [q|e| |]; [|rewrite (x_files _ _ Hres); lia|done|done].
  destruct Hres as [Hq (n & g & _ & ->) _]. rewrite map_size_insert_None by done. lia.
Qed.

(** An inode that was selected for an open is gone when another thread
    closes the file first. *)
Theorem stale_selection_faults :
  match sivfs_d_select_anon_inode demo_env 77 5 (crowd 1) with
  | (Ok n, w) =>
    match vfs_close 5 w with
    | (Ok _, w) => (sivfs_anon_open demo_env 77 n (w_next w) w).1 = Fault
    | _ => False
    end
  | _ => False
  end.
Proof. by vm_compute. Qed.

(** ** Witnesses *)

Lemma references_are_exact_witness : accounted (crowd 2) /\ w_log (crowd 2) = [].
Proof. apply references_are_exact. apply (crowd_reachable 2). lia. Defined.

(** The task closes its file and ends. *)
Definition all_over : world := (sivfs_mm_release 5 1 (vfs_close 5 (crowd 1)).2).2.

Lemma close_1_reachable : task_reachable (vfs_close 5 (crowd 1)).2.
Proof.
  apply reach_step with (crowd 1); [apply (crowd_reachable 1); lia|]. apply step_close. by exists (mk_vfile 2 6).
Qed.

Lemma all_over_reachable : task_reachable all_over.
Proof.
  apply reach_step with (vfs_close 5 (crowd 1)).2; [apply close_1_reachable|].
  apply (@step_mm_release counted_puts 5 1 (mk_tst 1 77 true ∅ ∅)); [by vm_compute|done|]. vm_compute. lia.
Qed.

Lemma nothing_is_lost_witness :
  w_files all_over = ∅ /\ all_over = mk_world ∅ ∅ ∅ ∅ ∅ ∅ ∅ ∅ (w_next all_over) [].
Proof.
  split; [by vm_compute|]. apply nothing_is_lost; [apply all_over_reachable|by vm_compute|].
  intros i st Hi. assert (E : w_states all_over = ∅) by by vm_compute. rewrite E, lookup_empty in Hi. discriminate Hi.
Defined.

Lemma open_outcome_witness :
  match vfs_open demo_env 77 6 (crowd 1) with
  | (Ok q, w') => w_files (crowd 1) !! q = None /\ (forall t' ino' n, usable t' ino' n (crowd 1) -> usable t' ino' n w') /\
      exists n g, usable 77 6 n w' /\ w_files w' = <[q := mk_vfile n g]> (w_files (crowd 1))
  | (Err _, w') => w_files w' = w_files (crowd 1) /\ (forall t' ino' n, usable t' ino' n (crowd 1) -> usable t' ino' n w')
  | _ => False
  end.
Proof.
  apply open_outcome; [apply (crowd_reachable 1); lia|lia|done|].
  intros n _. assert (Hs := proj2 (crowd_reachable 1 ltac:(lia))).
  assert (H := opens_size n (w_files (crowd 1))). unfold SIVFS_IINFO_MAX_REFCOUNT. lia.
Defined.

Lemma close_outcome_witness : exists w', vfs_close 5 (crowd 2) = (Ok tt, w') /\
  w_files w' = delete 5 (w_files (crowd 2)) /\
  (w_inodes w' !! 2 = None <-> forall q' v', w_files (crowd 2) !! q' = Some v' -> f_inode v' = 2 -> q' = 5).
Proof. apply (close_outcome 5 (mk_vfile 2 6)); [apply (crowd_reachable 2); lia|by vm_compute]. Defined.

Lemma exit_outcome_witness : exists w', sivfs_mm_release 2 1 (crowd 1) = (Ok tt, w') /\ w_files w' = w_files (crowd 1) /\
  (w_states w' !! 1 = None \/
   exists q v fi, w_files (crowd 1) !! q = Some v /\ w_finfos w' !! f_private v = Some fi /\ fi_state fi = 1).
Proof.
  apply (exit_outcome 2 1 (mk_tst 2 77 true {[5 := 2]} {[5 := 4]})); [apply (crowd_reachable 1); lia|by vm_compute|done|].
  vm_compute. lia.
Defined.

Lemma check_nontxnal_outcome_witness :
  (sivfs_check_nontxnal_op demo_env (fun _ => false) 6 1 (crowd 1)).1 = Fault.
Proof.
  apply (check_nontxnal_outcome demo_env (fun _ => false) 6 1 (mk_tst 2 77 true {[5 := 2]} {[5 := 4]})); [|by vm_compute|by vm_compute].
  apply (crowd_reachable 1). lia.
Defined.

Lemma selection_is_stable_witness :
  let w' := (sivfs_d_select_anon_inode demo_env 77 5 empty_world).2 in
  w_files w' = ∅ /\ sivfs_d_select_anon_inode demo_env 77 5 w' = (Ok 2, w') /\
  exists d, w_dentries w' !! d = Some (mk_dentry 1 2) /\
    sivfs_d_real demo_env 77 5 (mk_query false false false false false true) 0 w' = (Ok (Some d), w').
Proof.
  intros w'. apply (selection_is_stable demo_env demo_env 77 5 2 empty_world w'); [by constructor|lia|done|by vm_compute].
Defined.

Lemma full_open_faults_witness : (vfs_open demo_env 77 5 (crowd 100)).1 = Fault.
Proof.
  apply (full_open_faults demo_env 77 5 2 (crowd 100)); [by apply crowd_reachable| |by vm_compute|done|done].
  exists 1, (mk_tst 2 77 true {[5 := 2]} {[5 := 4]}), 3, 4. split; [|split; [by vm_compute|done]].
  split; [|by vm_compute..]. by exists (mk_tst 2 77 true {[5 := 2]} {[5 := 4]}); vm_compute.
Defined.
