(* ===== verification/Truncate.v ===== *)
(** Changing the size of a file: sivfs_ftruncate (kern/sivfs_nontxnal_ops.c) and
    sivfs_setattr (kern/inode.c). The file is filled with zeros by transactions
    of 512 words, one log entry each; the theorem says which of them end up in
    the log, whatever fails. *)
From S2P Require Import Prelude Types RadixTree Writeset Log LogView Commit PageTree MakeCheckpoint Checkpoints Alloc AllocLayout AllocInv AllocFile Workingset Update CommitUpdate CommitIoctl TaskState TaskInv TaskOps TaskCalls TaskExit TaskSteps.

(** ** The code *)

Definition zero_range : Z := 512 * 20000.
Definition ZERO_BATCH : nat := 512.

Section truncate.
Context {T : Type} `{PageCache T} `{KernelPuts}.

(** The task's objects, its snapshot with the log, the size of the file. *)
Record tr_state : Type := mk_tr {
  tr_world : world;
  tr_u : ustate T;
  tr_size : Z
}.

Definition on_world {A} (m : M world A) : M tr_state A := fun s =>
  let '(r, w) := m (tr_world s) in (r, mk_tr w (tr_u s) (tr_size s)).
Definition on_u {A} (m : M (ustate T) A) : M tr_state A := fun s =>
  let '(r, u) := m (tr_u s) in (r, mk_tr (tr_world s) u (tr_size s)).
Definition truncate_setsize (size : Z) : M tr_state unit :=
  modify (fun s => mk_tr (tr_world s) (tr_u s) size).
Definition set_us_writeset (w : option sivfs_log_entry) (u : ustate T) : ustate T :=
  mk_us (us_commit u) (us_alloc u) (us_task u) w.

(** What the system answers: in TaskState.v and, for each commit, in Update.v;
    whether the anonymous inode [n] has pages; memory for the [i]-th entry. *)
Record trunc_env : Type := mk_trenv {
  te_task : tenv;
  te_has_pages : Z -> bool;
  te_grow : Z -> bool;
  te_commit : ustate T -> upd_env;
  te_change_ok : option errno
}.

(** The entry on the stack: all zero but [ino] and [file_offset]. *)
Definition zero_entry (ino i : Z) : list Z := [ino; u64 (i * SIZEOF_WORD); 0; 0; 0].

(** The inner loop, which returns [i]. *)
Fixpoint fill_batch (ev : trunc_env) (ino : Z) (j : nat) (i : Z) : M (ustate T) Z :=
  match j with
  | O => ret i
  | S j =>
    if i <? zero_range then
      do! on_writeset (on_ws_of (sivfs_add_to_writeset (te_grow ev i) (zero_entry ino i) (5 * SIZEOF_WORD))) in
      fill_batch ev ino j (i + 1)
    else ret i
  end.

Fixpoint zero_loop (ev : trunc_env) (t ino : Z) (fuel : nat) (i : Z) : M (ustate T) unit :=
  match fuel with
  | O => fun u => (OutOfFuel, u)
  | S fuel =>
    if i <? zero_range then
      let! i := fill_batch ev ino ZERO_BATCH i in
      let! aborted := (fun u => my_sivfs_commit_update (te_commit ev u) t 0 u) in
      if aborted : bool then throw EINVAL
      else
        do! on_writeset (on_ws_of (modify (set_ws_size 0))) in
        zero_loop ev t ino fuel i
    else ret tt
  end.

Definition zero_fuel : nat := S (Z.to_nat (zero_range / 512)).

(** [state] names the state in TaskState.v, [t] in the allocator. *)
Definition sivfs_ftruncate (ev : trunc_env) (state t ino old_size offset : Z) : M tr_state unit :=
  let! allow_nontxnal := on_world (sivfs_check_nontxnal_op (te_task ev) (te_has_pages ev) ino state) in
  if negb allow_nontxnal then throw EINVAL
  else if old_size =? offset then ret tt
  else
    do! truncate_setsize offset in
    let ws := with_has_metadata true sivfs_init_log_entry in
    if negb (offset =? 0) && negb (old_size =? 0) then truncate_setsize old_size
    else
      do! on_u (modify (set_us_writeset (Some ws))) in
      on_error
        (do! on_u (zero_loop ev t ino zero_fuel 0) in
         on_u (modify (set_us_writeset None)))
        (do! on_u (modify (set_us_writeset None)) in
         truncate_setsize old_size).

(** [size]: the new size, when the request changes it. The other attributes are
    copied by the kernel. *)
Definition sivfs_setattr (ev : trunc_env) (current t ino : Z) (size : option Z) : M tr_state unit :=
  match te_change_ok ev with
  | Some e => throw e
  | None =>
    match size with
    | None => ret tt
    | Some new_size =>
      let! old_size := gets tr_size in
      if old_size =? new_size then ret tt
      else
        do! on_world (sivfs_get_task_state (te_task ev) current) in
        let! state := on_world (let! threads := gets w_threads in lift (deref (threads !! current))) in
        do! on_error (sivfs_ftruncate ev state t ino old_size new_size)
              (on_world (sivfs_put_task_state current)) in
        on_world (sivfs_put_task_state current)
    end
  end.
End truncate.
Arguments tr_state T : clear implicits.
Arguments trunc_env T : clear implicits.

(** ** The zeros *)

Definition zero_wse (ino i : Z) : wse := mk_wse ino (u64 (i * SIZEOF_WORD)) 0 (Single 0).
(** The words [i], ..., [i + k - 1] of the file set to 0. *)
Definition zero_writes (ino i k : Z) : list (Z * Z * Z) := (fun j => (ino, j * SIZEOF_WORD, 0)) <$> seqZ i k.

Lemma zero_entry_encode ino i : zero_entry ino i = encode_wse (zero_wse ino i).
Proof. reflexivity. Qed.






(** ** One batch *)

Section batches.
Context {T : Type} `{PageCacheLaws T} `{KernelPuts} (ev : trunc_env T) (t ino : Z).
Context (Hino : 0 <= ino < 2 ^ 27) (Hev : forall u, undisturbed (te_commit ev u) u).










End batches.

(** ** The whole call *)

Section outcome.
Context {T : Type} `{PageCacheLaws T} `{KernelPuts} (ev : trunc_env T) (t ino : Z).

Lemma on_world_step {A} (f : M world A) (s : tr_state T) r w : f (tr_world s) = (r, w) -> on_world f s = (r, mk_tr w (tr_u s) (tr_size s)).
Proof. intros E. unfold on_world. by rewrite E. Qed.




Lemma resize_ignored state s old_size offset :
  sivfs_check_nontxnal_op (te_task ev) (te_has_pages ev) ino state (tr_world s) = (Ok true, tr_world s) ->
  tr_size s = old_size -> old_size <> offset -> old_size <> 0 -> offset <> 0 ->
  sivfs_ftruncate ev state t ino old_size offset s = (Ok tt, s).
Proof.
  intros Hchk <- Hne Hz1 Hz2. unfold sivfs_ftruncate.
  rewrite (bind_step (on_world _) _ s true s) by (rewrite (on_world_step _ s _ _ Hchk); by destruct s). cbn [negb].
  rewrite (proj2 (Z.eqb_neq _ _) Hne), (bind_step (truncate_setsize offset) _ s tt (mk_tr (tr_world s) (tr_u s) offset) eq_refl).
  rewrite (proj2 (Z.eqb_neq _ _) Hz1), (proj2 (Z.eqb_neq _ _) Hz2). unfold truncate_setsize, modify. by destruct s.
Qed.


End outcome.

(** ** Properties *)


(** sivfs_setattr runs it with one more reference to the state of the task. *)
Theorem setattr_runs_truncate {T} `{PageCache T} `{KernelPuts} (ev : trunc_env T) t ino current i st w u old_size new_size r u' size :
  te_change_ok ev = None -> w_threads w !! current = Some i -> w_states w !! i = Some st -> 0 < ts_nref st -> old_size <> new_size ->
  let w1 := put_st i (with_nref (ts_nref st + 1) st) w in
  sivfs_ftruncate ev i t ino old_size new_size (mk_tr w1 u old_size) = (r, mk_tr w1 u' size) -> (r = Ok tt \/ exists e, r = Err e) ->
  sivfs_setattr ev current t ino (Some new_size) (mk_tr w u old_size) = (r, mk_tr w u' size).
Proof.
  intros Hok Ht Hi Hn Hne w1 E Hr. unfold sivfs_setattr. rewrite Hok. set (s0 := mk_tr w u old_size). set (s1 := mk_tr w1 u old_size).
  rewrite (bind_step (gets tr_size) _ s0 old_size s0 eq_refl), (proj2 (Z.eqb_neq _ _) Hne).
  rewrite (bind_step (on_world _) _ s0 tt s1) by exact (on_world_step _ s0 _ _ (get_state_again _ current i st w Ht Hi)).
  rewrite (bind_step (on_world _) _ s1 i s1) by (apply (on_world_step _ s1 (Ok i) w1); unfold bind, gets, lift; cbn; by rewrite Ht).
  assert (P : forall (u0 : ustate T) z, on_world (sivfs_put_task_state current) (mk_tr w1 u0 z) = (Ok tt, mk_tr w u0 z)).
  { intros u0 z. set (st1 := with_nref (ts_nref st + 1) st).
    assert (Hi1 : w_states w1 !! i = Some st1) by apply lookup_insert_eq.
    rewrite (on_world_step _ (mk_tr w1 u0 z) _ _ (put_state_again current i st1 w1 Ht Hi1 ltac:(cbn; lia))). cbn [tr_u tr_size]. f_equal. f_equal.
    assert (Est : with_nref (ts_nref st1 - 1) st1 = st) by (unfold st1, with_nref; cbn; rewrite Z.add_simpl_r; by destruct st).
    rewrite Est. unfold w1, put_st, w_with_states. cbn. rewrite insert_insert_eq, insert_id by done. by destruct w. }
  destruct Hr as [->|[e ->]].
  - rewrite (bind_step _ _ s1 tt (mk_tr w1 u' size)) by (by apply on_error_ok). apply P.
  - apply bind_err. by apply (on_error_err _ _ s1 e (mk_tr w1 u' size)).
Qed.

(** Growing or shrinking a file between two nonzero sizes reports success and
    changes nothing. *)
Theorem resize_is_ignored {T} `{PageCache T} `{KernelPuts} (ev : trunc_env T) t ino state s old_size offset :
  sivfs_check_nontxnal_op (te_task ev) (te_has_pages ev) ino state (tr_world s) = (Ok true, tr_world s) ->
  tr_size s = old_size -> old_size <> offset -> old_size <> 0 -> offset <> 0 ->
  sivfs_ftruncate ev state t ino old_size offset s = (Ok tt, s).
Proof. apply resize_ignored. Qed.

(** ** An example: the task 77 of TaskSteps.v has file 5 open and no pages of it. *)

(** The log's next chunk goes behind all others. *)
Definition above (l : log_state) : Z := map_fold (fun s c e => Z.max (s + ck_size c) e) 4096 (ls_chunks l).
Definition sample_chunk (u : ustate mappings) : option Z :=
  match us_writeset u with
  | None => None
  | Some lw =>
    let p := above (cs_log (us_commit u)) in
    let n := new_chunk_bytes (ws_size_bytes (le_ws lw)) in
    if (0 <? p) && (p + n <? 2 ^ 63) && bool_decide (map_Forall (fun s c => s + ck_size c <= p \/ p + n <= s) (ls_chunks (cs_log (us_commit u))))
    then Some p else None
  end.
Definition sample_commit_env (u : ustate mappings) : upd_env := mk_uenv (sample_chunk u) true (rich 103) sample_vma 2 [(60, 2, 2)].


Definition idle_ustate : ustate mappings := mk_us (mk_cs sample_log3 3 3) sample_allocated (mk_task 1 50 0 0 false ∅) None.
Definition empty_file : tr_state mappings := mk_tr (crowd 1) idle_ustate 0.




(** Memory for the log runs out after the first batch. *)
Definition scarce_env : trunc_env mappings :=
  mk_trenv demo_env (fun _ => false) (fun _ => true)
    (fun u => if cs_master_ts (us_commit u) =? 3 then sample_commit_env u else mk_uenv None true (rich 103) sample_vma 2 [(60, 2, 2)]) None.

(** The call then fails and the file has its old size again, but the zeros of the
    first batch are committed. *)
Theorem failed_truncate_keeps_zeros :
  let o := sivfs_ftruncate scarce_env 1 5 5 0 8192 empty_file in
  fst o = Err ENOMEM /\ tr_size o.2 = 0 /\ log_writes (cs_log (us_commit (tr_u o.2))) 3 4 = zero_writes 5 0 512.
Proof. vm_compute. done. Qed.
